(* ===== verification/_CoqProject ===== *)
-Q . S2P
Prelude.v
GoLib.v
Json.v
TaskDomain.v
Database.v
StoreHelpers.v
StoreMutate.v
StoreCreate.v
StoreQueue.v
StoreOutbox.v
StoreReconcile.v
StoreRead.v
TaskValidation.v
TaskService.v
StoreRun.v
StoreSpec.v
DependencyGraph.v
LeaseInvariant.v
TaskInvariant.v
StoreRefine.v
MutateRefine.v
QueueRefine.v
ReconcileRefine.v
CreateRefine.v
StoreMachine.v
Scenario.v
StateProps.v
AncestryProps.v
QueueProps.v
CreateProps.v
Patterns.v
JsonProps.v
ValidationProps.v
OutboxProps.v
CommandProps.v
ReconcileProps.v
ServiceSpec.v
ServiceProps.v
SpendDB.v
Pricing.v
CostLedger.v
LedgerSpec.v
LedgerRefine.v
LedgerProps.v
LedgerPages.v
FinanceSummary.v
AgentBudget.v
BudgetSpec.v
BudgetRefine.v
BudgetProps.v
ProgramBudget.v
CostGate.v
GateProps.v
Admission.v
Breaker.v
DispatchDB.v
Schema.v
Normalizer.v
Egress.v
EgressProps.v
ModelInput.v
Routing.v
InvocationStore.v
Claims.v
PreSend.v
Outcomes.v
Assignments.v
DispatchSpec.v
DispatchInvariant.v
DispatchRun.v
DispatchRefine.v
PreSendRefine.v
DispatchMachine.v
DispatchService.v
NormalizerProps.v
ModelInputProps.v
DispatchServiceProps.v
DispatchProps.v
RoutingProps.v
InvocationService.v
