(* ===== verification/Prelude.v ===== *)
(** * Verification of the Explorarte organization kernel

    The kernel (Go, over PostgreSQL) keeps an organization of agents at work.
    Three of its parts decide what may happen and are modelled here: the durable
    task engine, which owns the life of every task; the spending subsystem, which
    every model call passes before it is sent; and the model runtime, which owns
    the life of every model call - who may send it, where to, and what became of
    it.

    ** The program and its files

    Task engine, [src/internal/tasks]:
    - TaskDomain: domain.go, errors.go, state_machine.go, backoff.go,
      taskclass.go, the scopes of ancestry.go.  Database: the tables of
      migrations 000003 and 000053, the statements, transactions.
    - StoreHelpers (postgres/helpers.go, store.go, ancestry.go), StoreMutate
      (mutate.go, requirement_verification.go), StoreCreate (create.go,
      redrive.go, the hashes of validation.go), StoreQueue (queue.go,
      specific_claim.go, lease_verification.go), StoreOutbox (outbox.go),
      StoreReconcile (reconcile.go), StoreRead (read.go): one definition per
      method, one per SQL statement that is more than a lookup.
    - TaskValidation (validation.go), TaskService (service.go,
      interfaces.go, specific_claim.go, redrive.go).  The service is a client of
      the interfaces [Persistence] and [Catalog]; ServiceSpec states what it
      asks of a store and shows that the store gives it.

    Spending:
    - SpendDB: the records and tables of migrations 000020 to 000027, 000030,
      000037, 000039 and 000060, the errors, transactions.
    - Pricing: internal/modelpricing.  CostLedger:
      internal/costledger.  AgentBudget: internal/agentbudget.  ProgramBudget:
      internal/programbudget.  These four know nothing of each other.
    - CostGate: internal/modelruntime/costgate composes them; a call is priced,
      scoped to its program, reserved in the wallet, charged to the budget of
      its task, later settled or released.  The settlement of a failed call and
      the token estimate come from internal/modelruntime/dispatch_service.go.
    - FinanceSummary: internal/ceochat/tools_finance.go, a reader of the ledger.
      Admission: internal/engineeringmission/budget.go, a reader of the tasks,
      the program policies and the ledger.  Breaker:
      internal/modelruntime/circuitbreaker.

    Model calls:
    - DispatchDB: the records, tables and CHECK constraints of migrations 000007
      to 000011, 000018, 000038, 000049, 000055, 000059, 000072 and 000081, the
      errors of the four packages, transactions.
    - Egress: internal/modelegress, what a policy lets out.  Routing:
      internal/modelrouting/selector.go and, of
      internal/modelruntime, provider_adapter.go, capacity_feedback.go and
      route_resolver.go.
    - The stores of internal/modelruntime/postgres: InvocationStore
      (invocations.go, events.go, cancellation.go, store.go, reconcile.go), Claims
      (claims.go, with the challenges of internal/modelidentity/postgres),
      PreSend (presend.go), Outcomes (results.go, capacity_state.go,
      result_reader.go).  Assignments:
      internal/modeldispatch/postgres/assignments.go.
    - Json (the canonical JSON of internal/modelruntime/hashing.go), Schema
      (the JSON schemas of validation.go), Normalizer (normalizer.go) and
      ModelInput (model_input.go): what a call is sent with and what of an answer
      is kept.
    - DispatchService: internal/modelruntime/dispatch_service.go, the flow of one
      dispatch over the stores above and the cost gate, with the checks of
      validation.go, provider_request.go and the challenges of
      internal/modelidentity (challenge_service.go, crypto.go).  Its state [Sys]
      is the tables of both halves and the trace of what was said to the gate and
      to the provider.
    - InvocationService: internal/modelruntime/invocation_service.go, the service
      that creates, cancels and reconciles model invocations, with the rest of
      validation.go and the request hashes of hashing.go.

    Shared: this file (results, the state and error monad [Comp] with its
    inversion lemmas and tactics, sums over lists and tables) and GoLib (64-bit
    integers, TrimSpace, regular expressions).

    ** How the model corresponds to the code

    A struct is a record whose fields carry the names of the code behind a short
    prefix; a nil pointer is [None]; an enumeration is an inductive type, with an
    extra constructor where the code does not exclude other strings.  An int64
    is a [Z] and every addition, subtraction and product the code does in Go is
    wrapped by [wrap64]; arithmetic PostgreSQL does raises out-of-range errors.
    A table is a finite map from its key, or a list in the order of its serial
    key where only appends happen.  A method is a program of a state and error
    monad ([M] over [World] for the tasks, [Spend] over [SpendWorld] for the
    spending, [Disp] over [DispatchWorld] for the model calls) that issues the statements of the source in their order; a
    transaction that returns an error restores the tables.  CHECK constraints
    and unique indexes are errors of the statements that can violate them.

    ** What the theorems show

    - Refinement: StoreSpec, LedgerSpec, BudgetSpec and DispatchSpec are abstract
      machines over the tables (task steps; holds, settlements and notes; budget
      trees; claims, sendings, uses and proofs of model calls).  Every method of
      the stores, on every branch, is a sequence of such steps and keeps the
      invariant of the machine ([every_call_refines], [ledger_calls_refine],
      [budget_calls_refine], [model_calls_refine]).
      The proofs are in StoreRefine, MutateRefine, CreateRefine, QueueRefine,
      ReconcileRefine, StoreMachine, LedgerRefine, BudgetRefine, CostGate,
      DispatchRun, DispatchRefine, PreSendRefine, DispatchMachine.
    - Invariants of the reachable states, by induction on runs (LeaseInvariant,
      TaskInvariant, StateProps; LedgerSpec, LedgerProps;
      BudgetSpec, BudgetProps; DispatchInvariant, DispatchProps): leases are
      exclusive, terminal statuses are final, the journal replays, holds are
      respected; a wallet holds what its open reservations hold, its balance is
      conserved, a tree of budgets never spends more than its root was given; a
      model call is sent at most once, under an allowing decision, a use of an
      assignment within its quota and a signed claim, its attempt is in the state
      of its invocation, and what ended stays.
    - Functional behaviour, errors included: claiming, leases, outcomes,
      dependencies (CommandProps, QueueProps, DependencyGraph), the reconciler
      (ReconcileProps), creation (CreateProps), validation (Patterns,
      ValidationProps), the task service over the store, each request of which is
      the one call it is admitted as or an error that changes nothing (ServiceSpec,
      ServiceProps: [requests_are_vetted]), the outbox (OutboxProps), ancestors
      (AncestryProps), failures (StateProps), order and pages of the reads
      (StoreRead); prices (Pricing), ceilings and retries (LedgerProps),
      pages of the ledger (LedgerPages), the scope of a program (ProgramBudget),
      the gate (GateProps), the verdict on recovery, the breaker; egress
      (EgressProps), claims and tokens (DispatchProps), routes and the capacity
      of models (RoutingProps); the canonical form of a JSON text (JsonProps),
      the answers that are stored (NormalizerProps), the inputs that are sent
      (ModelInputProps).
    - A whole dispatch (DispatchServiceProps), whatever call is lost in it and
      whatever other processes do between its calls: it calls the provider once
      at most and behind a durable allowing decision ([calls_are_allowed]), it
      settles what it reserved once ([reservations_settle_once]), and where it
      succeeds the tables keep the answer of the provider, which is paid
      ([answers_are_kept]).  What the service
      creates has what a dispatch asks for ([created_calls_can_be_dispatched]).
    - What the code does and its comments do not say:
      [released_reservations_hold_nothing], [poisoned_causation_stops_claims],
      [overruns_are_not_recorded], [ambiguous_roots_are_guessed],
      [letters_are_read_unscoped], [released_claims_are_dead_ends],
      [answered_calls_may_be_free].

    Scenario, LedgerRefine, GateProps and DispatchMachine hold the concrete runs the
    theorems are applied to; DispatchServiceProps ends with a whole dispatch over them.

    ** Bounds and fuel

    The ancestor walk stops at 64 levels and the recovery chain at 1000 links
    because the queries do.  The recursive query of the dependency graph runs
    one round per edge, which DependencyGraph proves is enough for the closure.
    The finance tool reads 20 pages of 500 rows because its constants say so;
    a reader that follows the cursors of the ledger needs at most one page per
    row, which LedgerPages proves.  Matching a regular expression is structural
    on the text.  Schemas nest to the 21 levels the code accepts; the decoder
    of JSON has twice the length of the text as fuel, one of two nested calls
    reading a byte.

    ** Simplifications

    - Each transaction is one step.  The code locks every row it changes, so
      transactions on the same rows do not interleave; the rows others hold are
      an argument of the statements with SKIP LOCKED.
    - The clock is read once per statement; in the spending tables it has the
      precision of the column it is stored in.  Connections, commits that fail,
      cancelled contexts and row scanners are not modelled.
    - Outside code is a parameter: the clock, randomness, SHA-256, the JSON
      encoder and interval arithmetic in [Env]; the credential detector, the
      catalog of roles and the capacity gate as interfaces; the JSON decoder of
      program policies; the list of subscribed providers; which organizations
      exist; ed25519, the decoder of model inputs of the store ([Host]),
      PostgreSQL's JSON parser; the
      rows of the model registry ([Registry], [RoutingRegistry]), which no
      statement of the model writes; the keys and policies of execution
      identities, which change between calls as they like.
    - In a dispatch the catalogs, the evaluators, the key file and the provider
      adapters are [Collaborators], each asked once, as behind the interfaces of
      the source.  A call of a store may never arrive, or be served and its answer
      lost ([Fault]): cancelled contexts and the timeout of a persist are such
      faults.  WatchCancellation acts on the adapter's context and is part of the
      adapter's answer.
    - The reads of the model registry (registry.go, [RoutingRegistry]) are a
      parameter with the laws of [RegistryLaws]: the candidates of a policy are
      distinct, and the route of a profile is of that profile, in the version the
      candidate names.
    - The readings of the host's clock in the pre-send transaction and in the
      expiry of assignments are arguments.  [SERIALIZABLE] and advisory locks are
      what one transaction at a time is.
    - A temperature is the text of a number.  A jsonb column of the model runtime
      keeps the text that is written to it.
    - A wrapped error is the error it wraps.  Texts of reasons, dollars printed
      for display, metrics and log lines are left out.
    - Foreign keys to the tables of organizations, roles, tasks, contexts and
      principals are not constraints of the model.  The ledger reads invocations
      and attempts from rows of its own: the two views of those tables are not
      joined yet.
    - [granted_calls_settle] supposes that the tokens of a call add up below
      2^63: SettleModelCall wraps and clamps otherwise.

    ** Not modelled

    The executive (missions, planning, campaigns, design freeze), the registries
    of models, egress policies, keys and principals, decision graphs, the context and memory
    pipelines, the corpus tools, code execution, messaging, configuration, HTTP
    and the command line are clients of these parts or components of their own,
    and are not modelled; provider calls, process execution and object storage are
    I/O.  Of a dispatch the telemetry of rendered contexts, which nothing waits
    for, and log lines are left out.  WatchCancellation polls, the joins of
    result_reader.go only read, and SingleShotModelInputCeilingBytes sizes the
    contexts of another package. *)

From stdpp Require Import base tactics list gmap strings fin_maps sorting relations.
From Stdlib Require Import ZArith Lia.

Set Default Goal Selector "!".

(** ** Results of fallible code

    A Go function that returns [(T, error)] is modelled by a value of
    [result E T]. *)

Inductive result (E A : Type) : Type :=
| Ok (a : A)
| Err (e : E).
Arguments Ok {E A} a.
Arguments Err {E A} e.

Definition rbind {E A B} (m : result E A) (f : A -> result E B) : result E B :=
  match m with
  | Ok a => f a
  | Err e => Err e
  end.

(** A check that returns early with an error when its condition holds. *)
Definition rejectIf {E} (cond : bool) (e : E) : result E unit :=
  if cond then Err e else Ok tt.

(** [for _, x := range xs { if err := f(x); err != nil { return err } }] *)
Fixpoint reach {E A} (f : A -> result E unit) (xs : list A) : result E unit :=
  match xs with
  | [] => Ok tt
  | x :: rest => rbind (f x) (fun _ => reach f rest)
  end.

Declare Scope go_scope.
Delimit Scope go_scope with go.

Notation "'let?' x ':=' c1 'in' c2" := (rbind c1 (fun x => c2))
  (at level 10, x pattern, c1 at level 200, c2 at level 200,
   format "'[v' 'let?'  x  ':='  c1  'in' '/' c2 ']'") : go_scope.
Notation "'check?' c1 'in' c2" := (rbind c1 (fun _ => c2))
  (at level 10, c1 at level 200, c2 at level 200,
   format "'[v' 'check?'  c1  'in' '/' c2 ']'") : go_scope.

Open Scope go_scope.

Section Results.
Context {E : Type}.

Lemma rbind_ok {A B} (m : result E A) (f : A -> result E B) (b : B) :
  rbind m f = Ok b <-> exists a, m = Ok a /\ f a = Ok b.
Proof. destruct m; simpl; naive_solver. Qed.

Lemma rbind_err {A B} (m : result E A) (f : A -> result E B) (e : E) :
  rbind m f = Err e <-> m = Err e \/ exists a, m = Ok a /\ f a = Err e.
Proof. destruct m; simpl; naive_solver. Qed.

Lemma rejectIf_ok (c : bool) (e : E) (u : unit) : rejectIf c e = Ok u <-> c = false.
Proof. destruct c, u; simpl; naive_solver. Qed.

Lemma rejectIf_err (c : bool) (e e' : E) : rejectIf c e = Err e' <-> c = true /\ e = e'.
Proof. destruct c; simpl; naive_solver. Qed.

(** A check in front of another. *)
Lemma check_ok (m k : result E unit) :
  rbind m (fun _ => k) = Ok tt <-> m = Ok tt /\ k = Ok tt.
Proof. destruct m as [[]|]; simpl; naive_solver. Qed.

Lemma check_ok_bind {A} (m : result E unit) (k : result E A) (a : A) :
  rbind m (fun _ => k) = Ok a <-> m = Ok tt /\ k = Ok a.
Proof. destruct m as [[]|]; simpl; naive_solver. Qed.

Lemma check_err (m k : result E unit) (P : E -> Prop) :
  (forall e, m = Err e -> P e) -> (forall e, k = Err e -> P e) ->
  forall e, rbind m (fun _ => k) = Err e -> P e.
Proof. destruct m as [[]|]; simpl; naive_solver. Qed.

Lemma reach_ok {A} (f : A -> result E unit) (xs : list A) :
  reach f xs = Ok tt <-> Forall (fun x => f x = Ok tt) xs.
Proof.
  induction xs as [|x xs IH]; simpl; [by split|].
  rewrite rbind_ok, Forall_cons. split.
  - intros ([] & ? & ?). by rewrite <- IH.
  - intros [? ?]. exists tt. by rewrite IH.
Qed.

End Results.

(** ** Lists *)

Lemma Forall2_impl_in {A B} (P Q : A -> B -> Prop) (l : list A) (k : list B) :
  Forall2 P l k -> (forall x y, x ∈ l -> y ∈ k -> P x y -> Q x y) -> Forall2 Q l k.
Proof.
  induction 1 as [|x y l k Hxy _ IH]; intros HQ; constructor.
  - apply HQ; [left|left|done].
  - apply IH. intros. apply HQ; [by right|by right|done].
Qed.

(** Rows with distinct keys: equal keys, equal rows. *)
Lemma NoDup_fmap_inj_on {A K} (key : A -> K) (l : list A) (x y : A) :
  NoDup (key <$> l) -> x ∈ l -> y ∈ l -> key x = key y -> x = y.
Proof.
  intros Hnd [i Hi]%list_elem_of_lookup [j Hj]%list_elem_of_lookup Hk.
  assert (i = j) as ->; [|congruence].
  eapply (NoDup_lookup (key <$> l)); [done|rewrite list_lookup_fmap, Hi; done|].
  rewrite list_lookup_fmap, Hj. simpl. congruence.
Qed.

Lemma NoDup_fmap_filter {A K} (key : A -> K) (P : A -> Prop) `{forall x, Decision (P x)} (l : list A) :
  NoDup (key <$> l) -> NoDup (key <$> filter P l).
Proof.
  induction l as [|x l IH]; intros Hnd; [done|]. rewrite fmap_cons in Hnd.
  apply NoDup_cons in Hnd as [Hni Hnd]. rewrite filter_cons. case_decide; [|auto].
  rewrite fmap_cons. apply NoDup_cons. split; [|auto]. intros Hin. apply Hni.
  apply list_elem_of_fmap in Hin as (y & -> & [_ Hy]%list_elem_of_filter).
  by apply list_elem_of_fmap_2.
Qed.

(** ** Sums *)

Definition sum_Z (l : list Z) : Z := foldr Z.add 0%Z l.

(** [SUM(f)] over rows. *)
Definition total {A} (f : A -> Z) (l : list A) : Z := sum_Z (map f l).

Section Sums.
Context {A : Type}.
Local Open Scope Z_scope.

Lemma total_cons (f : A -> Z) (x : A) (l : list A) : total f (x :: l) = f x + total f l.
Proof. done. Qed.

Lemma total_app (f : A -> Z) (l k : list A) : total f (l ++ k) = total f l + total f k.
Proof. induction l as [|x l IH]; simpl; [done|]. rewrite !total_cons. lia. Qed.

Lemma total_ext (f g : A -> Z) (l : list A) :
  (forall x, x ∈ l -> f x = g x) -> total f l = total g l.
Proof.
  induction l as [|x l IH]; intros Hfg; [done|]. rewrite !total_cons.
  rewrite (Hfg x) by left. rewrite IH; [done|]. intros y Hy. apply Hfg. by right.
Qed.

Lemma total_sub (f g : A -> Z) (l : list A) :
  total (fun x => f x - g x) l = total f l - total g l.
Proof. induction l as [|x l IH]; [done|]. rewrite !total_cons. lia. Qed.

Lemma total_zero (f : A -> Z) (l : list A) : (forall x, x ∈ l -> f x = 0) -> total f l = 0.
Proof.
  intros Hf. rewrite (total_ext f (fun _ => 0) l Hf). clear Hf.
  induction l as [|x l IH]; [done|]. rewrite total_cons. lia.
Qed.

Lemma total_nonneg (f : A -> Z) (l : list A) : (forall x, x ∈ l -> 0 <= f x) -> 0 <= total f l.
Proof.
  induction l as [|x l IH]; intros Hf; [done|]. rewrite total_cons.
  assert (0 <= f x) by (apply Hf; left). assert (0 <= total f l); [|lia].
  apply IH. intros y Hy. apply Hf. by right.
Qed.

Lemma total_le (f g : A -> Z) (l : list A) :
  (forall x, x ∈ l -> f x <= g x) -> total f l <= total g l.
Proof.
  intros Hfg. assert (0 <= total (fun x => g x - f x) l).
  { apply total_nonneg. intros x Hx. specialize (Hfg x Hx). lia. }
  rewrite total_sub in *. lia.
Qed.

Lemma total_perm (f : A -> Z) (l k : list A) : l ≡ₚ k -> total f l = total f k.
Proof. induction 1; rewrite ?total_cons in *; lia. Qed.

Lemma total_map {B} (g : B -> A) (f : A -> Z) (l : list B) :
  total f (map g l) = total (fun x => f (g x)) l.
Proof. unfold total. by rewrite map_map. Qed.

(** A sum in which only the row with the key of [x] counts. *)
Lemma total_key {K} `{EqDecision K} (key : A -> K) (f : A -> Z) (l : list A) (x : A) :
  NoDup (key <$> l) -> x ∈ l ->
  total (fun y => if bool_decide (key y = key x) then f y else 0) l = f x.
Proof.
  induction l as [|y l IH]; intros Hnd Hx; [by apply not_elem_of_nil in Hx|].
  rewrite fmap_cons in Hnd. apply NoDup_cons in Hnd as [Hni Hnd]. rewrite total_cons.
  apply elem_of_cons in Hx as [->|Hx].
  - rewrite bool_decide_true by done. rewrite total_zero; [lia|].
    intros z Hz. rewrite bool_decide_false; [done|]. intros Heq. apply Hni. rewrite <- Heq.
    by apply list_elem_of_fmap_2.
  - rewrite bool_decide_false, IH by
      (done || (intros Heq; apply Hni; rewrite Heq; by apply list_elem_of_fmap_2)). lia.
Qed.

End Sums.

(** [SUM(f)] over the rows of a table with an integer key. *)
Definition mtotal {A} (f : A -> Z) (m : gmap Z A) : Z := total f (snd <$> map_to_list m).

Section TableSums.
Context {A : Type}.
Local Open Scope Z_scope.

Lemma mtotal_ext (f g : A -> Z) (m : gmap Z A) :
  (forall i x, m !! i = Some x -> f x = g x) -> mtotal f m = mtotal g m.
Proof.
  intros H. apply total_ext. intros x Hx. apply list_elem_of_fmap in Hx as ([i y] & -> & Hin).
  apply elem_of_map_to_list in Hin. by eapply H.
Qed.

Lemma mtotal_le (f g : A -> Z) (m : gmap Z A) :
  (forall i x, m !! i = Some x -> f x <= g x) -> mtotal f m <= mtotal g m.
Proof.
  intros H. apply total_le. intros x Hx. apply list_elem_of_fmap in Hx as ([i y] & -> & Hin).
  apply elem_of_map_to_list in Hin. by eapply H.
Qed.

Lemma mtotal_sub (f g : A -> Z) (m : gmap Z A) :
  mtotal (fun x => f x - g x) m = mtotal f m - mtotal g m.
Proof. apply total_sub. Qed.

Lemma mtotal_insert (f : A -> Z) (m : gmap Z A) (i : Z) (x : A) :
  m !! i = None -> mtotal f (<[i := x]> m) = mtotal f m + f x.
Proof.
  intros Hi. unfold mtotal. rewrite (total_perm f _ (x :: (snd <$> map_to_list m))).
  - rewrite total_cons. lia.
  - by rewrite (map_to_list_insert m i x Hi).
Qed.

Lemma mtotal_update (f : A -> Z) (m : gmap Z A) (i : Z) (x y : A) :
  m !! i = Some y -> mtotal f (<[i := x]> m) = mtotal f m - f y + f x.
Proof.
  intros Hi. rewrite <- (insert_delete_id m i y Hi) at 2. rewrite <- insert_delete_eq.
  rewrite !mtotal_insert by apply lookup_delete_eq. lia.
Qed.

Lemma mtotal_zero (f : A -> Z) (m : gmap Z A) :
  (forall i x, m !! i = Some x -> f x = 0) -> mtotal f m = 0.
Proof.
  intros H. apply total_zero. intros x Hx. apply list_elem_of_fmap in Hx as ([i y] & -> & Hin).
  apply elem_of_map_to_list in Hin. by eapply H.
Qed.

(** One row counts. *)
Lemma mtotal_pick (f : A -> Z) (m : gmap Z A) (i : Z) (x : A) :
  m !! i = Some x -> (forall j y, m !! j = Some y -> j <> i -> f y = 0) -> mtotal f m = f x.
Proof.
  intros Hi H. rewrite <- (insert_delete_id m i x Hi), mtotal_insert by apply lookup_delete_eq.
  rewrite mtotal_zero; [lia|]. intros j y [Hj Hy]%lookup_delete_Some. by eapply H.
Qed.

End TableSums.

(** ** Computations on a store

    A method of a store over the database is a computation on its state [S]
    that may fail with an error of [E]; what it did before it failed stays
    until the transaction around it rolls back. *)

Definition Comp (E S A : Type) : Type := S -> result E A * S.

Section Computations.
Context {E S : Type}.

Definition ret {A} (a : A) : Comp E S A := fun w => (Ok a, w).
Definition throw {A} (e : E) : Comp E S A := fun w => (Err e, w).
Definition bind {A B} (m : Comp E S A) (f : A -> Comp E S B) : Comp E S B := fun w =>
  match m w with
  | (Ok a, w') => f a w'
  | (Err e, w') => (Err e, w')
  end.

Definition lift {A} (r : result E A) : Comp E S A := fun w => (r, w).

(** [if cond { return ..., e }] *)
Definition throwIf (cond : bool) (e : E) : Comp E S unit :=
  if cond then throw e else ret tt.

End Computations.

Declare Scope tx_scope.
Delimit Scope tx_scope with tx.
Notation "'let!' x ':=' c1 'in' c2" := (bind c1 (fun x => c2))
  (at level 10, x pattern, c1 at level 200, c2 at level 200,
   format "'[v' 'let!'  x  ':='  c1  'in' '/' c2 ']'") : tx_scope.
Notation "'do!' c1 'in' c2" := (bind c1 (fun _ => c2))
  (at level 10, c1 at level 200, c2 at level 200,
   format "'[v' 'do!'  c1  'in' '/' c2 ']'") : tx_scope.
Open Scope tx_scope.

Section Runs.
Context {E S : Type}.

(** A loop that carries a state and stops at the first error. *)
Fixpoint foldM {A B} (f : B -> A -> Comp E S B) (b : B) (xs : list A) : Comp E S B :=
  match xs with
  | [] => ret b
  | x :: rest => let! b' := f b x in foldM f b' rest
  end.

(** What a successful run says of each step. *)

Lemma bind_ok {A B} (m : Comp E S A) (f : A -> Comp E S B) (w w' : S) (b : B) :
  bind m f w = (Ok b, w') <-> exists a w1, m w = (Ok a, w1) /\ f a w1 = (Ok b, w').
Proof. unfold bind. destruct (m w) as [[a|e] w1]; naive_solver. Qed.

Lemma ret_ok {A} (a b : A) (w w' : S) :
  @ret E S A a w = (Ok b, w') <-> b = a /\ w' = w.
Proof. unfold ret. naive_solver. Qed.

Lemma throw_ok {A} (e : E) (a : A) (w w' : S) : throw e w = (Ok a, w') <-> False.
Proof. unfold throw. naive_solver. Qed.

Lemma lift_ok {A} (r : result E A) (a : A) (w w' : S) :
  lift r w = (Ok a, w') <-> r = Ok a /\ w' = w.
Proof. unfold lift. naive_solver. Qed.

Lemma throwIf_ok (c : bool) (e : E) (u : unit) (w w' : S) :
  throwIf c e w = (Ok u, w') <-> c = false /\ w' = w.
Proof. unfold throwIf, throw, ret. destruct c, u; naive_solver. Qed.

Lemma foldM_nil {A B} (f : B -> A -> Comp E S B) (b b' : B) (w w' : S) :
  foldM f b [] w = (Ok b', w') <-> b' = b /\ w' = w.
Proof. apply ret_ok. Qed.

Lemma foldM_cons {A B} (f : B -> A -> Comp E S B) (b b' : B) (x : A) (xs : list A) (w w' : S) :
  foldM f b (x :: xs) w = (Ok b', w')
  <-> exists b1 w1, f b x w = (Ok b1, w1) /\ foldM f b1 xs w1 = (Ok b', w').
Proof. apply bind_ok. Qed.

End Runs.
