(* ===== verification/GoLib.v ===== *)
(** * The parts of Go's standard library that the task engine relies on

    - 64-bit signed integers ([wrap64]);
    - [strings.TrimSpace] and [strings.ToLower] on UTF-8 byte strings;
    - [regexp]: anchored patterns, matched by derivatives, with the theorem
      that the matcher decides the language of the pattern.

    A Go string is a byte string: [string], one [ascii] per byte, so [len(s)]
    is [String.length s]. *)

From stdpp Require Import base tactics list gmap strings.
From Stdlib Require Import ZArith Lia Ascii String.
From S2P Require Import Prelude.

Local Open Scope Z_scope.

(** ** Integers *)

Definition two63 : Z := 9223372036854775808.
Definition maxInt64 : Z := two63 - 1.
Definition minInt64 : Z := - two63.

(** The value an int64 operation stores for the mathematical result [z]. *)
Definition wrap64 (z : Z) : Z := (z + two63) mod (2 * two63) - two63.

Definition int64 (z : Z) : Prop := minInt64 <= z <= maxInt64.

Lemma wrap64_id (z : Z) : int64 z -> wrap64 z = z.
Proof.
  unfold int64, wrap64, minInt64, maxInt64, two63. intros H.
  rewrite Z.mod_small; lia.
Qed.

Lemma wrap64_range (z : Z) : int64 (wrap64 z).
Proof.
  unfold int64, wrap64, minInt64, maxInt64, two63.
  pose proof (Z.mod_pos_bound (z + 9223372036854775808) (2 * 9223372036854775808)).
  lia.
Qed.

(** [a + b < a], Go's test for an overflow of a sum of non-negative integers. *)
Lemma wrap64_sum (a b : Z) :
  0 <= a <= maxInt64 -> 0 <= b <= maxInt64 ->
  (wrap64 (a + b) <? a) = (maxInt64 <? a + b).
Proof.
  unfold wrap64, maxInt64, two63. intros Ha Hb.
  destruct (Z.ltb_spec 9223372036854775807 (a + b)) as [Ho|Ho].
  - replace (a + b + 9223372036854775808)
      with (a + b - 9223372036854775808 + 1 * (2 * 9223372036854775808)) by lia.
    rewrite Z.mod_add, Z.mod_small; lia.
  - rewrite Z.mod_small; lia.
Qed.

(** time.Duration constants, in nanoseconds. *)
Definition Second : Z := 1000000000.
Definition Minute : Z := 60 * Second.
Definition Hour : Z := 60 * Minute.

(** ** Bytes and strings *)

Definition byte_of (c : ascii) : Z := Z.of_N (N_of_ascii c).
Definition chr (n : Z) : ascii := ascii_of_N (Z.to_N n).

Notation bytes := (list ascii).

Definition to_bytes (s : string) : bytes := list_ascii_of_string s.
Definition of_bytes (l : bytes) : string := string_of_list_ascii l.

Lemma of_to_bytes (s : string) : of_bytes (to_bytes s) = s.
Proof. apply string_of_list_ascii_of_string. Qed.

Lemma to_of_bytes (l : bytes) : to_bytes (of_bytes l) = l.
Proof. apply list_ascii_of_string_of_list_ascii. Qed.

Definition len (s : string) : Z := Z.of_nat (String.length s).

Lemma to_bytes_length (s : string) : Z.of_nat (List.length (to_bytes s)) = len s.
Proof. unfold len, to_bytes. f_equal. by induction s as [|c s IH]; simpl; [|rewrite IH]. Qed.

Definition is_empty (s : string) : bool := bool_decide (s = EmptyString).

(** The UTF-8 encodings of the runes with Unicode property White_Space. *)
Definition space_runes : list bytes :=
  map (fun l => map chr l)
    ([[9]; [10]; [11]; [12]; [13]; [32]; [194; 133]; [194; 160]; [225; 154; 128];
      [226; 128; 168]; [226; 128; 169]; [226; 128; 175]; [226; 129; 159]; [227; 128; 128]]
     ++ map (fun n => [226; 128; 128 + Z.of_nat n]) (seq 0 11)).

Fixpoint strip_prefix (p l : bytes) : option bytes :=
  match p, l with
  | [], _ => Some l
  | c :: p', d :: l' => if decide (c = d) then strip_prefix p' l' else None
  | _ :: _, [] => None
  end.

(** The rest of [l] after the first of the prefixes [ps] it starts with. *)
Fixpoint strip_any (ps : list bytes) (l : bytes) : option bytes :=
  match ps with
  | [] => None
  | p :: ps' => match strip_prefix p l with Some r => Some r | None => strip_any ps' l end
  end.

(** Repeated stripping; every prefix is non-empty, so [length l] rounds are
    enough. *)
Fixpoint strip_all (fuel : nat) (ps : list bytes) (l : bytes) : bytes :=
  match fuel with
  | O => l
  | S fuel' => match strip_any ps l with Some r => strip_all fuel' ps r | None => l end
  end.

Definition trim_left (ps : list bytes) (l : bytes) : bytes := strip_all (List.length l) ps l.

Definition trim_bytes (l : bytes) : bytes :=
  let l1 := trim_left space_runes l in
  rev (trim_left (map (@rev ascii) space_runes) (rev l1)).

(** [strings.TrimSpace] *)
Definition TrimSpace (s : string) : string := of_bytes (trim_bytes (to_bytes s)).

(** [strings.ToLower], up to what a comparison with an ASCII string can see:
    the ASCII capitals, U+0130 and U+212A are the runes whose lower case is an
    ASCII letter; every other rune is kept, since its lower case is not ASCII. *)
Fixpoint lower_bytes (l : bytes) : bytes :=
  match l with
  | [] => []
  | c :: r =>
      let n := byte_of c in
      if (65 <=? n) && (n <=? 90) then chr (n + 32) :: lower_bytes r
      else match r with
        | d :: r' =>
            if (n =? 196) && (byte_of d =? 176) then chr 105 :: lower_bytes r'
            else match r' with
              | e :: r'' =>
                  if (n =? 226) && (byte_of d =? 132) && (byte_of e =? 170)
                  then chr 107 :: lower_bytes r''
                  else c :: lower_bytes r
              | [] => c :: lower_bytes r
              end
        | [] => [c]
        end
  end.

Definition ToLower (s : string) : string := of_bytes (lower_bytes (to_bytes s)).

(** ** Regular expressions *)

Inductive regex : Type :=
| RNone
| REps
| RCls (ranges : list (ascii * ascii))
| RAlt (r1 r2 : regex)
| RSeq (r1 r2 : regex)
| RStar (r : regex).

Definition in_class (ranges : list (ascii * ascii)) (c : ascii) : bool :=
  existsb (fun '(lo, hi) => (byte_of lo <=? byte_of c) && (byte_of c <=? byte_of hi)) ranges.

(** The language of a pattern. *)
Inductive matches : regex -> bytes -> Prop :=
| m_eps : matches REps []
| m_cls ranges c : in_class ranges c = true -> matches (RCls ranges) [c]
| m_alt_l r1 r2 l : matches r1 l -> matches (RAlt r1 r2) l
| m_alt_r r1 r2 l : matches r2 l -> matches (RAlt r1 r2) l
| m_seq r1 r2 l1 l2 : matches r1 l1 -> matches r2 l2 -> matches (RSeq r1 r2) (l1 ++ l2)
| m_star_nil r : matches (RStar r) []
| m_star r l1 l2 : matches r l1 -> matches (RStar r) l2 -> matches (RStar r) (l1 ++ l2).

Fixpoint nullable (r : regex) : bool :=
  match r with
  | RNone | RCls _ => false
  | REps | RStar _ => true
  | RAlt r1 r2 => nullable r1 || nullable r2
  | RSeq r1 r2 => nullable r1 && nullable r2
  end.

Definition mkAlt (r1 r2 : regex) : regex :=
  match r1, r2 with
  | RNone, _ => r2
  | _, RNone => r1
  | _, _ => RAlt r1 r2
  end.

Definition mkSeq (r1 r2 : regex) : regex :=
  match r1 with
  | RNone => RNone
  | REps => r2
  | _ => RSeq r1 r2
  end.

Fixpoint deriv (c : ascii) (r : regex) : regex :=
  match r with
  | RNone | REps => RNone
  | RCls ranges => if in_class ranges c then REps else RNone
  | RAlt r1 r2 => mkAlt (deriv c r1) (deriv c r2)
  | RSeq r1 r2 =>
      mkAlt (mkSeq (deriv c r1) r2) (if nullable r1 then deriv c r2 else RNone)
  | RStar r1 => mkSeq (deriv c r1) (RStar r1)
  end.

Fixpoint run_regex (r : regex) (l : bytes) : bool :=
  match l with
  | [] => nullable r
  | c :: l' => run_regex (deriv c r) l'
  end.

(** [pattern.MatchString(s)] for a pattern anchored at both ends. *)
Definition MatchString (r : regex) (s : string) : bool := run_regex r (to_bytes s).

Fixpoint RRepeat (n : nat) (r : regex) : regex :=
  match n with
  | O => REps
  | S n' => RSeq r (RRepeat n' r)
  end.

Definition RPlus (r : regex) : regex := RSeq r (RStar r).

(** A literal byte. *)
Definition RByte (c : ascii) : regex := RCls [(c, c)].

(** *** Correctness of the matcher *)

Lemma seq_spec (r1 r2 : regex) (l : bytes) :
  matches (RSeq r1 r2) l <-> exists l1 l2, l = l1 ++ l2 /\ matches r1 l1 /\ matches r2 l2.
Proof.
  split; [intros H; inversion H; subst; eauto|].
  intros (l1 & l2 & -> & ? & ?). by constructor.
Qed.

Lemma nullable_spec (r : regex) : nullable r = true <-> matches r [].
Proof.
  induction r as [| |rs|r1 IH1 r2 IH2|r1 IH1 r2 IH2|r IH]; simpl.
  - split; [done|]. intros H. inversion H.
  - split; [constructor|done].
  - split; [done|]. intros H. inversion H.
  - rewrite orb_true_iff, IH1, IH2. split.
    + intros [?|?]; [by apply m_alt_l|by apply m_alt_r].
    + intros H. inversion H; subst; auto.
  - rewrite andb_true_iff, IH1, IH2. split.
    + intros [? ?]. by apply (m_seq r1 r2 [] []).
    + intros (l1 & l2 & Hl & ? & ?)%seq_spec.
      symmetry in Hl. apply app_eq_nil in Hl as [-> ->]. auto.
  - split; [constructor|done].
Qed.

Lemma mkAlt_spec (r1 r2 : regex) (l : bytes) :
  matches (mkAlt r1 r2) l <-> matches r1 l \/ matches r2 l.
Proof.
  assert (Hg : matches (RAlt r1 r2) l <-> matches r1 l \/ matches r2 l).
  { split; [intros H; inversion H; subst; auto|].
    intros [?|?]; [by apply m_alt_l|by apply m_alt_r]. }
  assert (Hn : ~ matches RNone l) by (intros H; inversion H).
  destruct r1, r2; simpl; try exact Hg; naive_solver.
Qed.

Lemma mkSeq_spec (r1 r2 : regex) (l : bytes) :
  matches (mkSeq r1 r2) l <-> exists l1 l2, l = l1 ++ l2 /\ matches r1 l1 /\ matches r2 l2.
Proof.
  destruct r1; simpl; try apply seq_spec.
  - split; [intros H; inversion H|]. intros (l1 & l2 & _ & H & _). inversion H.
  - split.
    + intros H. exists [], l. split; [done|]. split; [constructor|done].
    + intros (l1 & l2 & -> & H & ?). inversion H; subst. done.
Qed.

Lemma star_cons_inv (r : regex) (c : ascii) (l : bytes) :
  matches (RStar r) (c :: l) ->
  exists l1 l2, l = l1 ++ l2 /\ matches r (c :: l1) /\ matches (RStar r) l2.
Proof.
  intros H. remember (RStar r) as s eqn:Hs. remember (c :: l) as k eqn:Hk.
  induction H as [| | | | | |s' l1 l2 H1 _ H2 IH2]; try done.
  injection Hs as ->. destruct l1 as [|d l1].
  - apply IH2; auto.
  - simpl in Hk. injection Hk as -> <-. eauto.
Qed.

Lemma deriv_spec (c : ascii) (r : regex) (l : bytes) :
  matches (deriv c r) l <-> matches r (c :: l).
Proof.
  revert l. induction r as [| |rs|r1 IH1 r2 IH2|r1 IH1 r2 IH2|r IH]; intros l; simpl.
  - split; intros H; inversion H.
  - split; intros H; inversion H.
  - destruct (in_class rs c) eqn:Hc; split; intros H; inversion H; subst.
    + by constructor.
    + constructor.
    + congruence.
  - rewrite mkAlt_spec, IH1, IH2. split.
    + intros [?|?]; [by apply m_alt_l|by apply m_alt_r].
    + intros H. inversion H; subst; auto.
  - rewrite mkAlt_spec, mkSeq_spec. split.
    + intros [(l1 & l2 & -> & H1 & H2)|H].
      * apply IH1 in H1. by apply (m_seq r1 r2 (c :: l1) l2).
      * destruct (nullable r1) eqn:Hn; [|inversion H].
        apply nullable_spec in Hn. apply IH2 in H. by apply (m_seq r1 r2 [] (c :: l)).
    + intros (l1 & l2 & Hl & H1 & H2)%seq_spec.
      destruct l1 as [|d l1]; simpl in *.
      * right. subst. apply nullable_spec in H1. rewrite H1. by apply IH2.
      * injection Hl as -> ->. left. exists l1, l2. split; [done|]. split; [by apply IH1|done].
  - rewrite mkSeq_spec. split.
    + intros (l1 & l2 & -> & H1 & H2). apply IH in H1. by apply (m_star r (c :: l1) l2).
    + intros H. apply star_cons_inv in H as (l1 & l2 & -> & H1 & H2).
      exists l1, l2. split; [done|]. split; [by apply IH|done].
Qed.

Lemma run_regex_spec (r : regex) (l : bytes) : run_regex r l = true <-> matches r l.
Proof.
  revert r. induction l as [|c l IH]; intros r; simpl.
  - apply nullable_spec.
  - rewrite IH. apply deriv_spec.
Qed.
