(* ===== verification/Json.v ===== *)
(** * JSON

    [encoding/json] of Go's standard library as the model runtime uses it:
    a text is decoded into [any] with [Decoder.UseNumber], and values are encoded
    by [json.Marshal].  Over it, the canonical form of internal/modelruntime
    (hashing.go): [CanonicalJSON] and [CanonicalizeRawJSON]. *)

From stdpp Require Import base tactics list strings.
From Stdlib Require Import ZArith Lia Ascii.
From S2P Require Import Prelude GoLib.

Local Open Scope Z_scope.

(** ** Values

    What [any] holds after [Decode] with [UseNumber].  A [map[string]any] is the
    list of its entries; the decoder builds it sorted by key, without repeats,
    which is the order the encoder visits it in. *)
Inductive Any : Type :=
| ANil
| ABool (b : bool)
| ANumber (literal : string)
| AString (s : string)
| AArray (l : list Any)
| AObject (m : list (string * Any)).

Section AnyInduction.
Context (P : Any -> Prop) (Hnil : P ANil) (Hbool : forall b, P (ABool b))
  (Hnumber : forall s, P (ANumber s)) (Hstring : forall s, P (AString s))
  (Harray : forall l, Forall P l -> P (AArray l))
  (Hobject : forall m, Forall (fun kv => P (snd kv)) m -> P (AObject m)).

Fixpoint Any_ind_nested (v : Any) : P v :=
  match v with
  | ANil => Hnil
  | ABool b => Hbool b
  | ANumber s => Hnumber s
  | AString s => Hstring s
  | AArray l => Harray l ((fix go l : Forall P l :=
      match l with
      | [] => List.Forall_nil _
      | v :: l => List.Forall_cons _ _ _ (Any_ind_nested v) (go l)
      end) l)
  | AObject m => Hobject m ((fix go m : Forall (fun kv => P (snd kv)) m :=
      match m with
      | [] => List.Forall_nil _
      | kv :: m => List.Forall_cons _ _ _ (Any_ind_nested (snd kv)) (go m)
      end) m)
  end.
End AnyInduction.

(** [m[k] = v] *)
Fixpoint any_set (k : string) (v : Any) (m : list (string * Any)) : list (string * Any) :=
  match m with
  | [] => [(k, v)]
  | (k', v') :: rest =>
      match String.compare k k' with
      | Lt => (k, v) :: m
      | Eq => (k, v) :: rest
      | Gt => (k', v') :: any_set k v rest
      end
  end.

(** [m[k]] *)
Fixpoint any_get (k : string) (m : list (string * Any)) : option Any :=
  match m with
  | [] => None
  | (k', v') :: rest => if decide (k = k') then Some v' else any_get k rest
  end.

(** ** UTF-8 *)

Definition is_cont (c : ascii) : bool := (128 <=? byte_of c) && (byte_of c <=? 191).

Definition within (lo hi : Z) (c : ascii) : bool := (lo <=? byte_of c) && (byte_of c <=? hi).

(** The size of the well-formed sequence [l] starts with, when its first byte is
    not ASCII ([utf8.DecodeRune]); 0 for an ill-formed one. *)
Definition rune_size (l : bytes) : nat :=
  match l with
  | a :: b :: rest =>
      let n := byte_of a in
      if within 194 223 a then (if is_cont b then 2 else 0)%nat
      else if within 224 239 a then
        let ok := if n =? 224 then within 160 191 b else if n =? 237 then within 128 159 b
                  else is_cont b in
        match rest with
        | c :: _ => if ok && is_cont c then 3%nat else 0%nat
        | [] => 0%nat
        end
      else if within 240 244 a then
        let ok := if n =? 240 then within 144 191 b else if n =? 244 then within 128 143 b
                  else is_cont b in
        match rest with
        | c :: d :: _ => if ok && is_cont c && is_cont d then 4%nat else 0%nat
        | _ => 0%nat
        end
      else 0%nat
  | _ => 0%nat
  end.

(** [utf8.EncodeRune] of a rune that is not a surrogate. *)
Definition encode_rune (r : Z) : bytes :=
  if r <? 128 then [chr r]
  else if r <? 2048 then [chr (192 + Z.shiftr r 6); chr (128 + Z.land r 63)]
  else if r <? 65536 then
    [chr (224 + Z.shiftr r 12); chr (128 + Z.land (Z.shiftr r 6) 63); chr (128 + Z.land r 63)]
  else
    [chr (240 + Z.shiftr r 18); chr (128 + Z.land (Z.shiftr r 12) 63);
     chr (128 + Z.land (Z.shiftr r 6) 63); chr (128 + Z.land r 63)].

Definition RuneError : Z := 65533.

(** ** Strings *)

Definition is_byte (n : Z) (c : ascii) : bool := byte_of c =? n.

Definition hex_letter (c : ascii) : bool := within 48 57 c || within 97 102 c || within 65 70 c.

Definition hex_value (c : ascii) : Z :=
  if within 48 57 c then byte_of c - 48
  else if within 97 102 c then byte_of c - 87
  else byte_of c - 55.

Definition hex4 (a b c d : ascii) : Z :=
  ((hex_value a * 16 + hex_value b) * 16 + hex_value c) * 16 + hex_value d.

(** The escapes of one letter and the byte each stands for. *)
Definition simple_escape (e : ascii) : option ascii :=
  let n := byte_of e in
  if (n =? 34) || (n =? 92) || (n =? 47) then Some e
  else if n =? 98 then Some (chr 8)
  else if n =? 102 then Some (chr 12)
  else if n =? 110 then Some (chr 10)
  else if n =? 114 then Some (chr 13)
  else if n =? 116 then Some (chr 9)
  else None.

Definition consed (c : ascii) (o : option (bytes * bytes)) : option (bytes * bytes) :=
  '(s, r) ← o; Some (c :: s, r).

(** The literal up to the closing quote, as it is written, and what follows. *)
Fixpoint scan_string (l : bytes) : option (bytes * bytes) :=
  match l with
  | [] => None
  | c :: r =>
      if is_byte 34 c then Some ([], r)
      else if is_byte 92 c then
        match r with
        | [] => None
        | e :: r1 =>
            if is_byte 117 e then
              match r1 with
              | a :: b :: c1 :: d :: r2 =>
                  if hex_letter a && hex_letter b && hex_letter c1 && hex_letter d
                  then consed c (consed e (consed a (consed b (consed c1 (consed d (scan_string r2))))))
                  else None
              | _ => None
              end
            else if simple_escape e then consed c (consed e (scan_string r1))
            else None
        end
      else if byte_of c <? 32 then None
      else consed c (scan_string r)
  end.

Definition surrogate (r : Z) : bool := (55296 <=? r) && (r <? 57344).

(** [utf16.DecodeRune], when the pair is one. *)
Definition surrogate_pair (r1 r2 : Z) : option Z :=
  if (55296 <=? r1) && (r1 <? 56320) && (56320 <=? r2) && (r2 <? 57344)
  then Some ((r1 - 55296) * 1024 + (r2 - 56320) + 65536) else None.

(** [unquote] of a scanned literal: escapes are read, ill-formed UTF-8 becomes
    the replacement character. *)
Fixpoint unquote (l : bytes) : bytes :=
  match l with
  | [] => []
  | c :: r =>
      if is_byte 92 c then
        match r with
        | [] => []
        | e :: r1 =>
            if is_byte 117 e then
              match r1 with
              | a :: b :: c1 :: d :: r2 =>
                  let rr := hex4 a b c1 d in
                  if surrogate rr then
                    match r2 with
                    | p :: q :: a' :: b' :: c' :: d' :: r3 =>
                        match (if is_byte 92 p && is_byte 117 q && hex_letter a' && hex_letter b'
                                  && hex_letter c' && hex_letter d'
                               then surrogate_pair rr (hex4 a' b' c' d') else None) with
                        | Some dec => encode_rune dec ++ unquote r3
                        | None => encode_rune RuneError ++ unquote r2
                        end
                    | _ => encode_rune RuneError ++ unquote r2
                    end
                  else encode_rune rr ++ unquote r2
              | _ => []
              end
            else match simple_escape e with
                 | Some b => b :: unquote r1
                 | None => []
                 end
        end
      else if byte_of c <? 128 then c :: unquote r
      else
        match rune_size l, r with
        | 2%nat, d :: r1 => c :: d :: unquote r1
        | 3%nat, d :: e :: r1 => c :: d :: e :: unquote r1
        | 4%nat, d :: e :: f :: r1 => c :: d :: e :: f :: unquote r1
        | _, _ => encode_rune RuneError ++ unquote r
        end
  end.

(** The lower-case hexadecimal digit of [n]. *)
Definition hex (n : Z) : ascii := if n <? 10 then chr (48 + n) else chr (87 + n).

(** [htmlSafeSet] *)
Definition html_safe (c : ascii) : bool :=
  let n := byte_of c in
  (32 <=? n) && (n <? 128) && negb (n =? 34) && negb (n =? 92) && negb (n =? 38)
  && negb (n =? 60) && negb (n =? 62).

Definition escape_byte (c : ascii) : bytes :=
  let n := byte_of c in
  if (n =? 34) || (n =? 92) then [chr 92; c]
  else if n =? 8 then [chr 92; chr 98]
  else if n =? 12 then [chr 92; chr 102]
  else if n =? 10 then [chr 92; chr 110]
  else if n =? 13 then [chr 92; chr 114]
  else if n =? 9 then [chr 92; chr 116]
  else [chr 92; chr 117; chr 48; chr 48; hex (Z.shiftr n 4); hex (Z.land n 15)].

(** U+2028 and U+2029 *)
Definition line_separator (c d e : ascii) : bool :=
  is_byte 226 c && is_byte 128 d && (is_byte 168 e || is_byte 169 e).

(** What [json.Marshal] writes between the quotes of a string. *)
Fixpoint escape (l : bytes) : bytes :=
  match l with
  | [] => []
  | c :: r =>
      if byte_of c <? 128 then (if html_safe c then [c] else escape_byte c) ++ escape r
      else
        match rune_size l, r with
        | 2%nat, d :: r1 => c :: d :: escape r1
        | 3%nat, d :: e :: r1 =>
            (if line_separator c d e
             then [chr 92; chr 117; chr 50; chr 48; chr 50; hex (Z.land (byte_of e) 15)]
             else [c; d; e]) ++ escape r1
        | 4%nat, d :: e :: f :: r1 => c :: d :: e :: f :: escape r1
        | _, _ => [chr 92; chr 117; chr 102; chr 102; chr 102; chr 100] ++ escape r
        end
  end.

Definition quoted (s : string) : bytes := chr 34 :: escape (to_bytes s) ++ [chr 34].

(** ** Numbers *)

Definition digit_byte (c : ascii) : bool := within 48 57 c.

Fixpoint span_digits (l : bytes) : bytes * bytes :=
  match l with
  | c :: r => if digit_byte c then let (d, rest) := span_digits r in (c :: d, rest) else ([], l)
  | [] => ([], [])
  end.

(** Digits, one at least. *)
Definition scan_digits (l : bytes) : option (bytes * bytes) :=
  match span_digits l with
  | ([], _) => None
  | p => Some p
  end.

(** A byte of [cs], when [l] starts with one. *)
Definition scan_one (p : ascii -> bool) (l : bytes) : bytes * bytes :=
  match l with
  | c :: r => if p c then ([c], r) else ([], l)
  | [] => ([], [])
  end.

(** A part that is only there when a byte of [p] announces it. *)
Definition scan_part (p : ascii -> bool) (body : bytes -> option (bytes * bytes)) (l : bytes)
    : option (bytes * bytes) :=
  match scan_one p l with
  | ([], _) => Some ([], l)
  | (mark, r) => '(s, rest) ← body r; Some (mark ++ s, rest)
  end.

Definition scan_integer (l : bytes) : option (bytes * bytes) :=
  match l with
  | c :: r => if is_byte 48 c then Some ([c], r) else scan_digits l
  | [] => None
  end.

Definition scan_exponent (l : bytes) : option (bytes * bytes) :=
  let (sign, r) := scan_one (fun c => is_byte 43 c || is_byte 45 c) l in
  '(d, rest) ← scan_digits r; Some (sign ++ d, rest).

(** The longest number literal [l] starts with; a literal that stops half way is
    an error. *)
Definition scan_number (l : bytes) : option (bytes * bytes) :=
  let (sign, r0) := scan_one (is_byte 45) l in
  '(int, r1) ← scan_integer r0;
  '(frac, r2) ← scan_part (is_byte 46) scan_digits r1;
  '(exp, r3) ← scan_part (fun c => is_byte 101 c || is_byte 69 c) scan_exponent r2;
  Some (sign ++ int ++ frac ++ exp, r3).

(** ** Values *)

(** [isSpace] of the scanner. *)
Definition json_space (c : ascii) : bool :=
  is_byte 32 c || is_byte 9 c || is_byte 10 c || is_byte 13 c.

Fixpoint skip_space (l : bytes) : bytes :=
  match l with
  | c :: r => if json_space c then skip_space r else l
  | [] => []
  end.

Definition lit (s : string) : bytes := to_bytes s.

Definition scan_literal (l : bytes) : option (Any * bytes) :=
  match strip_prefix (lit "true") l with
  | Some r => Some (ABool true, r)
  | None =>
    match strip_prefix (lit "false") l with
    | Some r => Some (ABool false, r)
    | None => r ← strip_prefix (lit "null") l; Some (ANil, r)
    end
  end.

(** The entries of an object in the order of the text; a later one replaces. *)
Definition build (entries : list (string * Any)) : list (string * Any) :=
  fold_left (fun m '(k, v) => any_set k v m) entries [].

(** The value [l] starts with and what follows it.  [depth] is how many more
    levels may be opened.  Of two nested calls one reads a byte, so a [fuel]
    above twice the length of [l] is enough. *)
Fixpoint scan_value (fuel depth : nat) (l : bytes) : option (Any * bytes) :=
  match fuel with
  | O => None
  | S n =>
    match skip_space l with
    | [] => None
    | c :: r =>
      if is_byte 123 c then
        match depth with
        | O => None
        | S d =>
          match skip_space r with
          | [] => None
          | c' :: r' =>
            if is_byte 125 c' then Some (AObject [], r')
            else '(m, rest) ← scan_members n d r; Some (AObject (build m), rest)
          end
        end
      else if is_byte 91 c then
        match depth with
        | O => None
        | S d =>
          match skip_space r with
          | [] => None
          | c' :: r' =>
            if is_byte 93 c' then Some (AArray [], r')
            else '(vs, rest) ← scan_elements n d r; Some (AArray vs, rest)
          end
        end
      else if is_byte 34 c then
        '(raw, rest) ← scan_string r; Some (AString (of_bytes (unquote raw)), rest)
      else if is_byte 45 c || digit_byte c then
        '(n, rest) ← scan_number (c :: r); Some (ANumber (of_bytes n), rest)
      else scan_literal (c :: r)
    end
  end
with scan_elements (fuel depth : nat) (l : bytes) : option (list Any * bytes) :=
  match fuel with
  | O => None
  | S n =>
    '(v, r1) ← scan_value n depth l;
    match skip_space r1 with
    | [] => None
    | c :: r2 =>
      if is_byte 44 c then '(vs, rest) ← scan_elements n depth r2; Some (v :: vs, rest)
      else if is_byte 93 c then Some ([v], r2)
      else None
    end
  end
with scan_members (fuel depth : nat) (l : bytes) : option (list (string * Any) * bytes) :=
  match fuel with
  | O => None
  | S n =>
    match skip_space l with
    | [] => None
    | q :: r0 =>
      if is_byte 34 q then
        '(raw, r1) ← scan_string r0;
        match skip_space r1 with
        | [] => None
        | col :: r2 =>
          if is_byte 58 col then
            '(v, r3) ← scan_value n depth r2;
            let kv := (of_bytes (unquote raw), v) in
            match skip_space r3 with
            | [] => None
            | c :: r4 =>
              if is_byte 44 c then '(m, rest) ← scan_members n depth r4; Some (kv :: m, rest)
              else if is_byte 125 c then Some ([kv], r4)
              else None
            end
          else None
        end
      else None
    end
  end.

Definition maxNestingDepth : nat := 100 * 100.
#[global] Opaque maxNestingDepth.

(** A decoder over the whole text: one value, then spaces up to the end. *)
Definition decode_bytes (l : bytes) : option Any :=
  '(v, rest) ← scan_value (S (2 * List.length l)) maxNestingDepth l;
  match skip_space rest with [] => Some v | _ => None end.

(** [json.Marshal] *)
Fixpoint encode_any (v : Any) : bytes :=
  match v with
  | ANil => lit "null"
  | ABool true => lit "true"
  | ABool false => lit "false"
  | ANumber s => to_bytes s
  | AString s => quoted s
  | AArray l =>
      chr 91 :: (fix go l := match l with
                             | [] => [chr 93]
                             | [v] => encode_any v ++ [chr 93]
                             | v :: l => encode_any v ++ chr 44 :: go l
                             end) l
  | AObject m =>
      chr 123 :: (fix go m := match m with
                              | [] => [chr 125]
                              | [(k, v)] => quoted k ++ chr 58 :: encode_any v ++ [chr 125]
                              | (k, v) :: m => quoted k ++ chr 58 :: encode_any v ++ chr 44 :: go m
                              end) m
  end.

(** ** hashing.go *)

(** [decodeJSONWithNumbers] *)
Definition decodeJSONWithNumbers (body : string) : option Any := decode_bytes (to_bytes body).

(** [encodeCanonical] and [canonicalNumberJSON]: of what a decoder with
    [UseNumber] builds, both write the numbers as they were read. *)
Definition encodeCanonical (v : Any) : string := of_bytes (encode_any v).

(** [CanonicalJSON] of the value whose encoding is that of [v]. *)
Definition CanonicalJSON (v : Any) : option string :=
  encodeCanonical <$> decode_bytes (encode_any v).

Definition CanonicalizeRawJSON (raw : string) : option string :=
  if is_empty (TrimSpace raw) then Some EmptyString
  else encodeCanonical <$> decodeJSONWithNumbers raw.

(** An object with a repeated key and spaces, and its canonical form. *)
Definition demo_text : string :=
  of_bytes (lit " { " ++ [chr 34] ++ lit "b" ++ [chr 34] ++ lit " :[1.50,-0e1 , true],"
    ++ [chr 34] ++ lit "a<" ++ [chr 34] ++ lit ":null,"
    ++ [chr 34] ++ lit "b" ++ [chr 34] ++ lit ":{}}" ++ [chr 10]).

Definition demo_canonical : string :=
  of_bytes (lit "{" ++ [chr 34] ++ lit "a\u003c" ++ [chr 34] ++ lit ":null,"
    ++ [chr 34] ++ lit "b" ++ [chr 34] ++ lit ":{}}").

Example canonical_example : CanonicalizeRawJSON demo_text = Some demo_canonical.
Proof. vm_compute. reflexivity. Qed.
