(* ===== verification/TaskDomain.v ===== *)
(** * The task engine's data model

    internal/tasks: domain.go (the structs), errors.go, state_machine.go,
    backoff.go, taskclass.go and ancestry.go.  Go struct fields keep their
    names behind the struct's name in lower case ([Task.Status] is
    [task_Status]).  A nil pointer is [None].

    An instant ([time.Time], [timestamptz]) is a number of microseconds since
    the epoch, the precision the database keeps; a [time.Duration] is a number
    of nanoseconds. *)

From stdpp Require Import base tactics list gmap strings sorting.
From Stdlib Require Import ZArith Lia Ascii.
From S2P Require Import Prelude GoLib.

Local Open Scope Z_scope.

Notation Instant := Z (only parsing).
Notation Duration := Z (only parsing).

(** The zero [time.Time], year 1. *)
Definition zeroInstant : Z := -62135596800000000.
Definition IsZero (t : Z) : bool := t =? zeroInstant.

(** ** JSON values and event payloads *)

(** [map[string]any] values and what [json.Marshal] is given.  [JSeconds ns] is
    the float64 number of seconds [Duration.Seconds()] computes from [ns]
    nanoseconds, [JTime t] a UTC [time.Time]. *)
Inductive JSON : Type :=
| JNull
| JBool (b : bool)
| JInt (z : Z)
| JNum (literal : string)
| JSeconds (ns : Z)
| JTime (t : Z)
| JStr (s : string)
| JArr (l : list JSON)
| JObj (l : list (string * JSON)).

Notation Payload := (gmap string JSON) (only parsing).

(** ** errors.go, redrive.go, ancestry.go: the sentinels *)

Inductive Status : Type :=
| StatusPending | StatusReady | StatusLeased | StatusRunning | StatusAwaitingVerification
| StatusBlocked | StatusRetryWait | StatusCompleted | StatusNoAction | StatusFailed
| StatusDeadLetter | StatusRejected | StatusCancelled
| StatusOther (s : string).

#[export] Instance Status_eq_dec : EqDecision Status.
Proof. solve_decision. Defined.

Record AncestorBlock : Type := mkAncestorBlock {
  ancestor_TaskID : Z;
  ancestor_Status : Status;
  ancestor_TaskClass : string }.

#[export] Instance AncestorBlock_eq_dec : EqDecision AncestorBlock.
Proof. solve_decision. Defined.

(** An error value is the sentinel it wraps; message texts are dropped.
    [ErrPostgres code] is an unclassified PostgreSQL error, [ErrInternal] any
    other error of the host. *)
Inductive Error : Type :=
| ErrNotFound | ErrConflict | ErrInvalidInput | ErrSecretRejected | ErrForbiddenField
| ErrInvalidTransition | ErrIdempotencyConflict | ErrDependencyCycle | ErrDependencyUnsatisfied
| ErrRequirementsUnsatisfied | ErrAssigneeUnavailable | ErrNoCapacity | ErrLeaseMismatch
| ErrLeaseExpired | ErrRequirementResolved | ErrActiveLease | ErrDatabaseUnavailable
| ErrAncestorBlocked (block : AncestorBlock)
| ErrRecoveryEpisodesExhausted
| ErrSuccessorIdentityTaken
| ErrPostgres (code : string)
| ErrInternal.

#[export] Instance Error_eq_dec : EqDecision Error.
Proof. solve_decision. Defined.

(** [errors.Is(err, ErrConflict)]: two sentinels wrap [ErrConflict]. *)
Definition IsConflict (e : Error) : bool :=
  match e with
  | ErrConflict | ErrRecoveryEpisodesExhausted | ErrSuccessorIdentityTaken => true
  | _ => false
  end.

Notation res := (result Error).

(** ** domain.go: enumerations *)

Definition ReasonCodeCoordinationHold : string := "awaiting_child_coordination".

(** [allStatuses], in the order of the map literal. *)
Definition allStatuses : list Status :=
  [StatusPending; StatusReady; StatusLeased; StatusRunning; StatusAwaitingVerification;
   StatusBlocked; StatusRetryWait; StatusCompleted; StatusNoAction; StatusFailed;
   StatusDeadLetter; StatusRejected; StatusCancelled].

Definition Valid (s : Status) : bool :=
  match s with StatusOther _ => false | _ => true end.

Definition Terminal (s : Status) : bool :=
  match s with
  | StatusCompleted | StatusNoAction | StatusFailed | StatusDeadLetter | StatusRejected
  | StatusCancelled => true
  | _ => false
  end.

Definition StatusString (s : Status) : string :=
  match s with
  | StatusPending => "pending"
  | StatusReady => "ready"
  | StatusLeased => "leased"
  | StatusRunning => "running"
  | StatusAwaitingVerification => "awaiting_verification"
  | StatusBlocked => "blocked"
  | StatusRetryWait => "retry_wait"
  | StatusCompleted => "completed"
  | StatusNoAction => "no_action"
  | StatusFailed => "failed"
  | StatusDeadLetter => "dead_letter"
  | StatusRejected => "rejected"
  | StatusCancelled => "cancelled"
  | StatusOther s => s
  end.

Inductive RequirementType : Type :=
| RequirementArtifact | RequirementCheck | RequirementApproval | RequirementCondition
| RequirementResult
| RequirementOther (s : string).

#[export] Instance RequirementType_eq_dec : EqDecision RequirementType.
Proof. solve_decision. Defined.

Definition RequirementTypeValid (t : RequirementType) : bool :=
  match t with RequirementOther _ => false | _ => true end.

Definition RequirementTypeString (t : RequirementType) : string :=
  match t with
  | RequirementArtifact => "artifact"
  | RequirementCheck => "check"
  | RequirementApproval => "approval"
  | RequirementCondition => "condition"
  | RequirementResult => "result"
  | RequirementOther s => s
  end.

Inductive RequirementStatus : Type :=
| RequirementPending | RequirementSatisfied | RequirementFailed | RequirementWaived.

#[export] Instance RequirementStatus_eq_dec : EqDecision RequirementStatus.
Proof. solve_decision. Defined.

Inductive AttemptState : Type :=
| AttemptLeased | AttemptRunning | AttemptFinished | AttemptFailed | AttemptLeaseExpired
| AttemptCancelled.

#[export] Instance AttemptState_eq_dec : EqDecision AttemptState.
Proof. solve_decision. Defined.

Inductive LeaseStatus : Type := LeaseActive | LeaseReleased | LeaseExpired | LeaseRevoked.

#[export] Instance LeaseStatus_eq_dec : EqDecision LeaseStatus.
Proof. solve_decision. Defined.

Inductive OutboxStatus : Type := OutboxPending | OutboxClaimed | OutboxPublished | OutboxDead.

#[export] Instance OutboxStatus_eq_dec : EqDecision OutboxStatus.
Proof. solve_decision. Defined.

Inductive AttemptOutcome : Type :=
| OutcomeSucceeded | OutcomeRetryableFailure | OutcomeNonRetryableFailure | OutcomeCancelled
| OutcomeOther (s : string).

Definition AttemptOutcomeString (o : AttemptOutcome) : string :=
  match o with
  | OutcomeSucceeded => "succeeded"
  | OutcomeRetryableFailure => "retryable_failure"
  | OutcomeNonRetryableFailure => "non_retryable_failure"
  | OutcomeCancelled => "cancelled"
  | OutcomeOther s => s
  end.

Inductive FinalOutcome : Type :=
| FinalCompleted | FinalNoAction | FinalFailed | FinalRejected | FinalCancelled
| FinalOther (s : string).

Definition FinalOutcomeString (o : FinalOutcome) : string :=
  match o with
  | FinalCompleted => "completed"
  | FinalNoAction => "no_action"
  | FinalFailed => "failed"
  | FinalRejected => "rejected"
  | FinalCancelled => "cancelled"
  | FinalOther s => s
  end.

Inductive RequirementVerificationStatus : Type :=
| RequirementVerificationSatisfied | RequirementVerificationFailed
| RequirementVerificationOther (s : string).

Definition RequirementVerificationString (r : RequirementVerificationStatus) : string :=
  match r with
  | RequirementVerificationSatisfied => "satisfied"
  | RequirementVerificationFailed => "failed"
  | RequirementVerificationOther s => s
  end.

(** ** domain.go: rows *)

Record Task : Type := mkTask {
  task_ID : Z;
  task_OrganizationID : string;
  task_OrganizationRevisionID : Z;
  task_RequestedByRoleID : option string;
  task_AssignedRoleID : string;
  task_AssignedUnitID : string;
  task_TaskClass : string;
  task_IdempotencyKey : string;
  task_RequestHash : string;
  task_Title : string;
  task_Instructions : string;
  task_AcceptanceCriteria : list string;
  task_Status : Status;
  task_Priority : Z;
  task_AvailableAt : Instant;
  task_MaxAttempts : Z;
  task_AttemptCount : Z;
  task_Version : Z;
  task_CorrelationID : option string;
  task_CausationID : option string;
  task_StatusReasonCode : option string;
  task_StatusReason : option string;
  task_CreatedAt : Instant;
  task_UpdatedAt : Instant;
  task_TerminalAt : option Instant }.

Record Requirement : Type := mkRequirement {
  requirement_ID : Z;
  requirement_TaskID : Z;
  requirement_Key : string;
  requirement_Type : RequirementType;
  requirement_Description : string;
  requirement_Required : bool;
  requirement_Status : RequirementStatus;
  requirement_SatisfiedAt : option Instant;
  requirement_CreatedAt : Instant;
  requirement_UpdatedAt : Instant }.

Record Evidence : Type := mkEvidence {
  evidence_ID : Z;
  evidence_TaskID : Z;
  evidence_RequirementID : option Z;
  evidence_Type : RequirementType;
  evidence_Reference : string;
  evidence_Digest : option string;
  evidence_RecordedBy : string;
  evidence_Metadata : list (string * JSON);
  evidence_CreatedAt : Instant }.

Record Attempt : Type := mkAttempt {
  attempt_ID : Z;
  attempt_TaskID : Z;
  attempt_Ordinal : Z;
  attempt_State : AttemptState;
  attempt_WorkerID : string;
  attempt_ResultSummary : option string;
  attempt_FailureCode : option string;
  attempt_Retryable : option bool;
  attempt_LeasedAt : Instant;
  attempt_StartedAt : option Instant;
  attempt_FinishedAt : option Instant;
  attempt_CreatedAt : Instant;
  attempt_UpdatedAt : Instant }.

Record Lease : Type := mkLease {
  lease_ID : Z;
  lease_TaskID : Z;
  lease_AttemptID : Z;
  lease_HolderID : string;
  lease_Status : LeaseStatus;
  lease_IssuedAt : Instant;
  lease_HeartbeatAt : Instant;
  lease_ExpiresAt : Instant;
  lease_ReleasedAt : option Instant;
  lease_ReleaseReason : option string }.

Record Event : Type := mkEvent {
  event_ID : Z;
  event_TaskID : Z;
  event_Sequence : Z;
  event_EventType : string;
  event_FromStatus : option Status;
  event_ToStatus : option Status;
  event_ActorType : string;
  event_ActorID : string;
  event_CorrelationID : option string;
  event_CausationID : option string;
  event_Payload : Payload;
  event_OccurredAt : Instant }.

Record DeadLetter : Type := mkDeadLetter {
  dead_ID : Z;
  dead_TaskID : Z;
  dead_AttemptID : option Z;
  dead_ReasonCode : string;
  dead_Reason : string;
  dead_AttemptCount : Z;
  dead_CreatedAt : Instant;
  dead_RedrivenAt : option Instant;
  dead_RedriveTaskID : option Z }.

Record OutboxEvent : Type := mkOutboxEvent {
  outbox_ID : Z;
  outbox_AggregateType : string;
  outbox_AggregateID : string;
  outbox_EventType : string;
  outbox_SchemaVersion : Z;
  outbox_Payload : Payload;
  outbox_Status : OutboxStatus;
  outbox_AvailableAt : Instant;
  outbox_AttemptCount : Z;
  outbox_MaxAttempts : Z;
  outbox_ClaimedBy : option string;
  outbox_ClaimExpiresAt : option Instant;
  outbox_LastError : option string;
  outbox_CreatedAt : Instant;
  outbox_UpdatedAt : Instant;
  outbox_PublishedAt : option Instant }.

Record TaskDetail : Type := mkTaskDetail {
  detail_Task : Task;
  detail_Dependencies : list Task;
  detail_Requirements : list Requirement;
  detail_Evidence : list Evidence;
  detail_Attempts : list Attempt;
  detail_ActiveLease : option Lease }.

(** ** domain.go: requests and commands *)

Record RequirementSpec : Type := mkRequirementSpec {
  spec_Key : string;
  spec_Type : RequirementType;
  spec_Description : string;
  spec_Required : option bool }.

Record CreateRequest : Type := mkCreateRequest {
  create_OrganizationID : string;
  create_RequestedByRoleID : string;
  create_AssignedRoleID : string;
  create_TaskClass : string;
  create_IdempotencyKey : string;
  create_Title : string;
  create_Instructions : string;
  create_AcceptanceCriteria : list string;
  create_Priority : Z;
  create_AvailableAt : option Instant;
  create_MaxAttempts : Z;
  create_CorrelationID : string;
  create_CausationID : string;
  create_Dependencies : list Z;
  create_Requirements : list RequirementSpec;
  create_HoldForCoordination : bool }.

Record PreparedCreate : Type := mkPreparedCreate {
  prepared_Request : CreateRequest;
  prepared_OrganizationRevisionID : Z;
  prepared_AssignedUnitID : string;
  prepared_TaskClass : string;
  prepared_TaskClassExplicit : bool;
  prepared_RequestHash : string;
  prepared_InitialStatus : Status;
  prepared_InitialStatusReasonCode : string;
  prepared_InitialStatusReason : string;
  prepared_DefaultMaxAttempts : Z;
  prepared_OutboxMaxAttempts : Z;
  prepared_ActorType : string;
  prepared_ActorID : string }.

Record TaskFilter : Type := mkTaskFilter {
  filter_OrganizationID : string;
  filter_Statuses : list Status;
  filter_AssignedRoleID : string;
  filter_AssignedUnitID : string;
  filter_CorrelationID : string;
  filter_Limit : Z;
  filter_Offset : Z }.

Record ClaimRequest : Type := mkClaimRequest {
  claim_OrganizationID : string;
  claim_WorkerID : string;
  claim_HolderPrincipalID : string;
  claim_AssignedRoleID : string;
  claim_BatchSize : Z;
  claim_LeaseDuration : Duration }.

(** [ClaimRequest.LeaseHolder]: the holder principal, the worker as a fallback. *)
Definition LeaseHolder (r : ClaimRequest) : string :=
  if is_empty (claim_HolderPrincipalID r) then claim_WorkerID r else claim_HolderPrincipalID r.

Record AssigneeCheck : Type := mkAssigneeCheck {
  assignee_Available : bool;
  assignee_Reason : string }.

Record CapacityCheck : Type := mkCapacityCheck {
  capacity_Available : bool;
  capacity_RetryAt : Instant;
  capacity_Reason : string }.

Notation AssigneeValidator := (Task -> res AssigneeCheck) (only parsing).
Notation CapacityValidator := (Task -> res CapacityCheck) (only parsing).

Record ClaimedTask : Type := mkClaimedTask {
  claimed_Task : Task;
  claimed_Attempt : Attempt;
  claimed_Lease : Lease;
  claimed_LeaseToken : string }.

Record LeaseCommand : Type := mkLeaseCommand {
  lcmd_TaskID : Z;
  lcmd_AttemptID : Z;
  lcmd_LeaseToken : string;
  lcmd_ActorID : string;
  lcmd_Extension : Duration }.

Record AttemptResult : Type := mkAttemptResult {
  result_Outcome : AttemptOutcome;
  result_Summary : string;
  result_FailureCode : string }.

Record RecordAttemptResultCommand : Type := mkRecordAttemptResultCommand {
  rcmd_LeaseCommand : LeaseCommand;
  rcmd_Result : AttemptResult }.

Record FinalizeCommand : Type := mkFinalizeCommand {
  fin_TaskID : Z;
  fin_Outcome : FinalOutcome;
  fin_ReasonCode : string;
  fin_Reason : string;
  fin_ActorType : string;
  fin_ActorID : string }.

Record BlockCommand : Type := mkBlockCommand {
  block_TaskID : Z;
  block_ReasonCode : string;
  block_Reason : string;
  block_RevokeLease : bool;
  block_ActorType : string;
  block_ActorID : string }.

Record UnblockCommand : Type := mkUnblockCommand {
  unblock_TaskID : Z;
  unblock_ActorType : string;
  unblock_ActorID : string }.

Record ReleaseCoordinationHoldCommand : Type := mkReleaseCommand {
  release_TaskID : Z;
  release_ActorType : string;
  release_ActorID : string }.

Record CancelCommand : Type := mkCancelCommand {
  cancel_TaskID : Z;
  cancel_ReasonCode : string;
  cancel_Reason : string;
  cancel_ActorType : string;
  cancel_ActorID : string }.

Record AddDependencyCommand : Type := mkAddDependencyCommand {
  adddep_TaskID : Z;
  adddep_DependsOnID : Z;
  adddep_ActorType : string;
  adddep_ActorID : string }.

Record AddRequirementCommand : Type := mkAddRequirementCommand {
  addreq_TaskID : Z;
  addreq_Spec : RequirementSpec;
  addreq_ActorType : string;
  addreq_ActorID : string }.

Record RecordEvidenceCommand : Type := mkRecordEvidenceCommand {
  evcmd_TaskID : Z;
  evcmd_RequirementID : option Z;
  evcmd_Type : RequirementType;
  evcmd_Reference : string;
  evcmd_Digest : string;
  evcmd_RecordedBy : string;
  evcmd_Metadata : list (string * JSON);
  evcmd_Satisfies : bool }.

Record RequirementVerificationCommand : Type := mkVerificationCommand {
  vcmd_TaskID : Z;
  vcmd_RequirementID : Z;
  vcmd_Result : RequirementVerificationStatus;
  vcmd_Reference : string;
  vcmd_Digest : string;
  vcmd_RecordedBy : string;
  vcmd_Metadata : list (string * JSON) }.

Record VerifyExecutionLeaseCommand : Type := mkVerifyExecutionLeaseCommand {
  vlease_TaskID : Z;
  vlease_AttemptID : Z;
  vlease_HolderID : string;
  vlease_LeaseToken : string }.

Record ExecutionLeaseContext : Type := mkExecutionLeaseContext {
  lctx_TaskID : Z;
  lctx_AttemptID : Z;
  lctx_OrganizationID : string;
  lctx_OrganizationRevisionID : Z;
  lctx_AssignedRoleID : string;
  lctx_AssignedUnitID : string;
  lctx_TaskStatus : Status;
  lctx_AttemptState : AttemptState;
  lctx_HolderID : string;
  lctx_ExpiresAt : Instant }.

Record ReconcileResult : Type := mkReconcileResult {
  rr_ExpiredLeases : Z;
  rr_RecoveredOutbox : Z;
  rr_PromotedTasks : Z;
  rr_BlockedDependencies : Z;
  rr_BlockedAssignees : Z;
  rr_BlockedCapacity : Z }.

Record OutboxClaimRequest : Type := mkOutboxClaimRequest {
  oclaim_ConsumerID : string;
  oclaim_BatchSize : Z;
  oclaim_ClaimDuration : Duration }.

Record ClaimedOutboxEvent : Type := mkClaimedOutboxEvent {
  oclaimed_Event : OutboxEvent;
  oclaimed_ClaimToken : string }.

Record OutboxDisposition : Type := mkOutboxDisposition {
  disp_EventID : Z;
  disp_ClaimToken : string;
  disp_ConsumerID : string;
  disp_Error : string }.

Record OutboxStats : Type := mkOutboxStats {
  stats_Pending : Z;
  stats_Claimed : Z;
  stats_Published : Z;
  stats_Dead : Z }.

Record OutboxPruneRequest : Type := mkOutboxPruneRequest {
  prune_OlderThan : Duration;
  prune_IncludePublished : bool;
  prune_IncludeDead : bool;
  prune_IncludePending : bool;
  prune_DryRun : bool;
  prune_Limit : Z }.

(** [ByStatus] counts per selected status. *)
Record OutboxPruneResult : Type := mkOutboxPruneResult {
  pruned_DryRun : bool;
  pruned_Matched : Z;
  pruned_Deleted : Z;
  pruned_ByStatus : list (OutboxStatus * Z) }.

Record RoleRef : Type := mkRoleRef {
  role_ID : string;
  role_UnitID : string;
  role_Enabled : bool;
  role_Executable : bool;
  role_Retired : bool }.

Record RevisionRef : Type := mkRevisionRef { revision_ID : Z }.

Record RedriveCommand : Type := mkRedriveCommand {
  redrive_DeadLetterID : Z;
  redrive_Successor : CreateRequest;
  redrive_ObservedChange : string;
  redrive_MaxRecoveryEpisodes : Z;
  redrive_ActorType : string;
  redrive_ActorID : string }.

Record RedriveResult : Type := mkRedriveResult {
  redriven_Successor : Task;
  redriven_Created : bool;
  redriven_Episode : Z }.

Record PreparedRedrive : Type := mkPreparedRedrive {
  predrive_DeadLetterID : Z;
  predrive_MaxRecoveryEpisodes : Z;
  predrive_ObservedChange : string;
  predrive_Successor : PreparedCreate;
  predrive_ActorType : string;
  predrive_ActorID : string;
  predrive_OutboxMaxAttempts : Z }.

(** ** state_machine.go *)

Definition allowedTransitions (from : Status) : list Status :=
  match from with
  | StatusPending => [StatusReady; StatusBlocked; StatusRejected; StatusCancelled]
  | StatusReady => [StatusLeased; StatusBlocked; StatusRejected; StatusCancelled]
  | StatusLeased =>
      [StatusRunning; StatusRetryWait; StatusBlocked; StatusDeadLetter; StatusCancelled]
  | StatusRunning =>
      [StatusAwaitingVerification; StatusRetryWait; StatusBlocked; StatusFailed;
       StatusDeadLetter; StatusCancelled]
  | StatusAwaitingVerification =>
      [StatusCompleted; StatusNoAction; StatusFailed; StatusBlocked; StatusRejected;
       StatusCancelled]
  | StatusBlocked => [StatusPending; StatusReady; StatusRejected; StatusCancelled]
  | StatusRetryWait => [StatusReady; StatusBlocked; StatusDeadLetter; StatusCancelled]
  | _ => []
  end.

Definition CanTransition (from to : Status) : bool :=
  if negb (Valid from) || negb (Valid to) || Terminal from || bool_decide (from = to) then false
  else bool_decide (to ∈ allowedTransitions from).

Definition ValidateTransition (from to : Status) : res unit :=
  if CanTransition from to then Ok tt else Err ErrInvalidTransition.

(** ** backoff.go *)

Record RetryPolicy : Type := mkRetryPolicy {
  policy_BaseDelay : Duration;
  policy_MaxDelay : Duration }.

(** The loop [for i := 1; i < attempt; i++], [n] rounds of it. *)
Fixpoint delay_loop (n : nat) (maximum delay : Z) : Z :=
  match n with
  | O => if maximum <? delay then maximum else delay
  | S n' =>
      if Z.quot maximum 2 <=? delay then maximum
      else delay_loop n' maximum (wrap64 (delay * 2))
  end.

Definition Delay (p : RetryPolicy) (attempt : Z) : Z :=
  let attempt := if attempt <? 1 then 1 else attempt in
  let base := if policy_BaseDelay p <=? 0 then 5 * Second else policy_BaseDelay p in
  let maximum := if policy_MaxDelay p <=? 0 then 10 * Minute else policy_MaxDelay p in
  delay_loop (Z.to_nat (attempt - 1)) maximum base.

(** ** taskclass.go *)

Definition TaskClassGeneralWork : string := "general.work".
Definition TaskClassLegacyUnspecified : string := "legacy.unspecified".

Definition lower_alnum : regex := RCls [("a"%char, "z"%char); ("0"%char, "9"%char)].

(** [[a-z0-9]+(?:_[a-z0-9]+)*], a segment of a task class. *)
Definition classSegment : regex :=
  RSeq (RPlus lower_alnum) (RStar (RSeq (RByte "_"%char) (RPlus lower_alnum))).

Definition taskClassPattern : regex :=
  RSeq classSegment (RPlus (RSeq (RByte "."%char) classSegment)).

Definition maxTaskClassBytes : Z := 100.

Definition ValidTaskClass (s : string) : bool :=
  if bool_decide (s = TaskClassLegacyUnspecified) then false
  else (0 <? len s) && (len s <=? maxTaskClassBytes) && MatchString taskClassPattern s.

(** ** ancestry.go *)

Definition TaskClassCEOChatTurn : string := "executive.ceo_chat_turn".

Definition BlocksDescendantClaim (s : Status) : bool :=
  match s with
  | StatusBlocked | StatusCancelled | StatusRejected | StatusFailed | StatusDeadLetter => true
  | _ => false
  end.

(** Sorted by name: blocked, cancelled, dead_letter, failed, rejected. *)
Definition BlockingAncestorStatuses : list string :=
  merge_sort (fun x y => String.compare x y <> Gt)
    (StatusString <$> filter (fun s => BlocksDescendantClaim s = true) allStatuses).

Definition TaskClassScopesDescendants (taskClass : string) : bool :=
  negb (bool_decide (taskClass = TaskClassCEOChatTurn)).

Definition NonScopingTaskClasses : list string := [TaskClassCEOChatTurn].

(** [AncestorBlock.Blocks] *)
Definition Blocks (a : AncestorBlock) : bool :=
  BlocksDescendantClaim (ancestor_Status a) && TaskClassScopesDescendants (ancestor_TaskClass a).
