(* ===== verification/Database.v ===== *)
(** * The task engine's database

    The tables of migrations/000003_create_durable_task_engine.up.sql and
    000053_add_semantic_selector_facts.up.sql as finite maps from the identity
    column, the transaction monad [M], and the SQL statements the store issues
    as operations of that monad.

    A transaction runs alone on the state: the store takes the row lock of
    every task it changes ([FOR UPDATE]), so a run of the system is a sequence
    of transactions.  Rows other transactions hold locked show up only through
    [SKIP LOCKED], an argument of the statements that have it.

    What the database and the host supply from outside is the class [Env]. *)

From stdpp Require Import base tactics list gmap strings sorting.
From Stdlib Require Import ZArith Lia Ascii.
From S2P Require Import Prelude GoLib TaskDomain.

Local Open Scope Z_scope.

(** ** The environment *)

Class Env := {
  (** the successive readings of [clock_timestamp()] *)
  env_clock : nat -> Z;
  (** the n-th token: base64 of 32 random bytes, [None] when the read fails *)
  env_random : nat -> option string;
  (** [hex.EncodeToString(sha256.Sum256(...))] *)
  env_sha256_hex : string -> string;
  (** [make_interval(secs => d.Seconds())], in microseconds, for [d] in
      nanoseconds *)
  env_make_interval : Z -> Z;
  (** [json.Marshal] of a value tree *)
  env_json_marshal : JSON -> string }.

(** ** Tables *)

Record LeaseRow : Type := mkLeaseRow {
  row_Lease : Lease;
  row_TokenHash : string }.

Record OutboxRow : Type := mkOutboxRow {
  row_Outbox : OutboxEvent;
  row_ClaimTokenHash : option string }.

Record AuditEvent : Type := mkAuditEvent {
  audit_EventType : string;
  audit_ActorType : string;
  audit_ActorID : string;
  audit_SubjectID : string;
  audit_CorrelationID : option string;
  audit_CausationID : option string;
  audit_Payload : Payload }.

Record DB : Type := mkDB {
  db_tasks : gmap Z Task;
  db_dependencies : list (Z * Z);
  db_requirements : gmap Z Requirement;
  db_evidence : gmap Z Evidence;
  db_attempts : gmap Z Attempt;
  db_leases : gmap Z LeaseRow;
  db_events : list Event;
  db_dead_letters : gmap Z DeadLetter;
  db_outbox : gmap Z OutboxRow;
  db_audit : list AuditEvent }.

Definition set_tasks (v : gmap Z Task) (d : DB) : DB :=
  mkDB v (db_dependencies d) (db_requirements d) (db_evidence d) (db_attempts d)
    (db_leases d) (db_events d) (db_dead_letters d) (db_outbox d) (db_audit d).
Definition set_dependencies (v : list (Z * Z)) (d : DB) : DB :=
  mkDB (db_tasks d) v (db_requirements d) (db_evidence d) (db_attempts d)
    (db_leases d) (db_events d) (db_dead_letters d) (db_outbox d) (db_audit d).
Definition set_requirements (v : gmap Z Requirement) (d : DB) : DB :=
  mkDB (db_tasks d) (db_dependencies d) v (db_evidence d) (db_attempts d)
    (db_leases d) (db_events d) (db_dead_letters d) (db_outbox d) (db_audit d).
Definition set_evidence (v : gmap Z Evidence) (d : DB) : DB :=
  mkDB (db_tasks d) (db_dependencies d) (db_requirements d) v (db_attempts d)
    (db_leases d) (db_events d) (db_dead_letters d) (db_outbox d) (db_audit d).
Definition set_attempts (v : gmap Z Attempt) (d : DB) : DB :=
  mkDB (db_tasks d) (db_dependencies d) (db_requirements d) (db_evidence d) v
    (db_leases d) (db_events d) (db_dead_letters d) (db_outbox d) (db_audit d).
Definition set_leases (v : gmap Z LeaseRow) (d : DB) : DB :=
  mkDB (db_tasks d) (db_dependencies d) (db_requirements d) (db_evidence d) (db_attempts d)
    v (db_events d) (db_dead_letters d) (db_outbox d) (db_audit d).
Definition set_events (v : list Event) (d : DB) : DB :=
  mkDB (db_tasks d) (db_dependencies d) (db_requirements d) (db_evidence d) (db_attempts d)
    (db_leases d) v (db_dead_letters d) (db_outbox d) (db_audit d).
Definition set_dead_letters (v : gmap Z DeadLetter) (d : DB) : DB :=
  mkDB (db_tasks d) (db_dependencies d) (db_requirements d) (db_evidence d) (db_attempts d)
    (db_leases d) (db_events d) v (db_outbox d) (db_audit d).
Definition set_outbox (v : gmap Z OutboxRow) (d : DB) : DB :=
  mkDB (db_tasks d) (db_dependencies d) (db_requirements d) (db_evidence d) (db_attempts d)
    (db_leases d) (db_events d) (db_dead_letters d) v (db_audit d).
Definition set_audit (v : list AuditEvent) (d : DB) : DB :=
  mkDB (db_tasks d) (db_dependencies d) (db_requirements d) (db_evidence d) (db_attempts d)
    (db_leases d) (db_events d) (db_dead_letters d) (db_outbox d) v.

Definition emptyDB : DB := mkDB ∅ [] ∅ ∅ ∅ ∅ [] ∅ ∅ [].

(** The tables with an identity column. *)
Inductive table : Type :=
| TTasks | TRequirements | TEvidence | TAttempts | TLeases | TEvents | TDeadLetters | TOutbox.

#[export] Instance table_eq_dec : EqDecision table.
Proof. solve_decision. Defined.

(** ** The world and the transaction monad

    [w_db] is what a rollback restores.  Clock readings, random tokens and
    identity sequences are not undone by a rollback. *)

Record World : Type := mkWorld {
  w_db : DB;
  w_seq : table -> Z;
  w_tick : nat;
  w_random : nat;
  w_now : Instant }.

Definition set_db (d : DB) (w : World) : World :=
  mkWorld d (w_seq w) (w_tick w) (w_random w) (w_now w).

Notation Eff := (Comp Error).

Definition M : Type -> Type := Eff World.

Section Primitives.
Context `{Env}.

Definition get_db : M DB := fun w => (Ok (w_db w), w).
Definition modify (f : DB -> DB) : M unit := fun w => (Ok tt, set_db (f (w_db w)) w).

Definition clock_timestamp : M Instant := fun w =>
  (Ok (env_clock (w_tick w)),
   mkWorld (w_db w) (w_seq w) (S (w_tick w)) (w_random w) (w_now w)).

(** [NOW()], the time the transaction began: the columns' default. *)
Definition transaction_now : M Instant := fun w => (Ok (w_now w), w).

Definition nextval (t : table) : M Z := fun w =>
  (Ok (w_seq w t),
   mkWorld (w_db w) (fun t' => if decide (t' = t) then w_seq w t + 1 else w_seq w t')
     (w_tick w) (w_random w) (w_now w)).

Definition random_token : M (option string) := fun w =>
  (Ok (env_random (w_random w)),
   mkWorld (w_db w) (w_seq w) (w_tick w) (S (w_random w)) (w_now w)).

(** helpers.go [withTx]: begin, run, commit; an error rolls the tables back. *)
Definition withTx {A} (fn : M A) : M A := fun w =>
  let w0 := mkWorld (w_db w) (w_seq w) (S (w_tick w)) (w_random w) (env_clock (w_tick w)) in
  match fn w0 with
  | (Ok a, w') => (Ok a, w')
  | (Err e, w') => (Err e, set_db (w_db w) w')
  end.

End Primitives.

(** ** store.go [mapError]: how a driver error is classified *)

Inductive DriverError : Type :=
| NoRows
| ContextEnded
| PgError (code : string)
| SafeToRetry
| NetError
| OtherDriverError.

Definition has_prefix (p s : string) : bool :=
  match strip_prefix (to_bytes p) (to_bytes s) with Some _ => true | None => false end.

Definition mapError (e : DriverError) : Error :=
  match e with
  | NoRows => ErrNotFound
  | ContextEnded => ErrDatabaseUnavailable
  | PgError code =>
      if has_prefix "08" code then ErrDatabaseUnavailable
      else if bool_decide (code = "23505") || bool_decide (code = "23503")
              || bool_decide (code = "23514") then ErrConflict
      else ErrPostgres code
  | SafeToRetry | NetError => ErrDatabaseUnavailable
  | OtherDriverError => ErrInternal
  end.

Definition unique_violation : Error := mapError (PgError "23505").
Definition foreign_key_violation : Error := mapError (PgError "23503").
Definition check_violation : Error := mapError (PgError "23514").
Definition numeric_out_of_range : Error := mapError (PgError "22003").

(** ** CHECK constraints *)

(** [length(text)] counts characters: the bytes that do not continue a UTF-8
    sequence. *)
Definition pg_length (s : string) : Z :=
  Z.of_nat (List.length
    (filter (fun c => ((byte_of c <? 128) || (192 <=? byte_of c)) = true) (to_bytes s))).

(** [trim(text)] strips the space character only. *)
Definition pg_trim (s : string) : string :=
  let strip l := trim_left [[chr 32]] l in
  of_bytes (rev (strip (rev (strip (to_bytes s))))).

Definition between (lo hi z : Z) : bool := (lo <=? z) && (z <=? hi).

(** [column IS NULL OR check(column)] *)
Definition null_or {A} (p : A -> bool) (o : option A) : bool :=
  match o with None => true | Some a => p a end.

Definition is_some {A} (o : option A) : bool :=
  match o with Some _ => true | None => false end.

Definition hex_digit : regex := RCls [("0"%char, "9"%char); ("a"%char, "f"%char)].

(** [^[0-9a-f]{64}$] *)
Definition digestPattern : regex := RRepeat 64 hex_digit.

Definition tasks_check (t : Task) : bool :=
  MatchString digestPattern (task_RequestHash t)
  && between 1 240 (pg_length (pg_trim (task_Title t)))
  && between 1 65536 (pg_length (pg_trim (task_Instructions t)))
  && Valid (task_Status t)
  && between (-100000) 100000 (task_Priority t)
  && between 1 100 (task_MaxAttempts t)
  && between 0 (task_MaxAttempts t) (task_AttemptCount t)
  && (1 <=? task_Version t)
  && between 1 200 (pg_length (pg_trim (task_IdempotencyKey t)))
  && null_or (fun r => 0 <? pg_length (pg_trim r)) (task_RequestedByRoleID t)
  && (0 <? pg_length (pg_trim (task_AssignedRoleID t)))
  && (0 <? pg_length (pg_trim (task_AssignedUnitID t)))
  && null_or (fun c => pg_length c <=? 200) (task_CorrelationID t)
  && null_or (fun c => pg_length c <=? 200) (task_CausationID t)
  && null_or (fun c => between 1 120 (pg_length (pg_trim c))) (task_StatusReasonCode t)
  && null_or (fun c => between 1 4000 (pg_length (pg_trim c))) (task_StatusReason t)
  && Bool.eqb (Terminal (task_Status t)) (is_some (task_TerminalAt t))
  && (pg_length (task_TaskClass t) <=? 100)
  && MatchString taskClassPattern (task_TaskClass t).

Definition requirements_check (r : Requirement) : bool :=
  RequirementTypeValid (requirement_Type r)
  && between 1 4000 (pg_length (pg_trim (requirement_Description r)))
  && between 1 120 (pg_length (pg_trim (requirement_Key r)))
  && Bool.eqb (bool_decide (requirement_Status r = RequirementSatisfied))
       (is_some (requirement_SatisfiedAt r)).

Definition evidence_check (e : Evidence) : bool :=
  RequirementTypeValid (evidence_Type e)
  && between 1 2048 (pg_length (pg_trim (evidence_Reference e)))
  && null_or (MatchString digestPattern) (evidence_Digest e)
  && between 1 200 (pg_length (pg_trim (evidence_RecordedBy e))).

Definition attempt_over (s : AttemptState) : bool :=
  match s with
  | AttemptFinished | AttemptFailed | AttemptLeaseExpired | AttemptCancelled => true
  | AttemptLeased | AttemptRunning => false
  end.

Definition attempts_check (a : Attempt) : bool :=
  (0 <? attempt_Ordinal a)
  && between 1 200 (pg_length (pg_trim (attempt_WorkerID a)))
  && null_or (fun s => pg_length s <=? 4000) (attempt_ResultSummary a)
  && null_or (fun s => between 1 120 (pg_length (pg_trim s))) (attempt_FailureCode a)
  && (Bool.eqb (bool_decide (attempt_State a = AttemptRunning))
        (is_some (attempt_StartedAt a) && negb (is_some (attempt_FinishedAt a)))
      || negb (bool_decide (attempt_State a = AttemptRunning)))
  && Bool.eqb (attempt_over (attempt_State a)) (is_some (attempt_FinishedAt a)).

Definition leases_check (r : LeaseRow) : bool :=
  let l := row_Lease r in
  MatchString digestPattern (row_TokenHash r)
  && between 1 200 (pg_length (pg_trim (lease_HolderID l)))
  && (lease_IssuedAt l <? lease_ExpiresAt l)
  && null_or (fun s => between 1 4000 (pg_length (pg_trim s))) (lease_ReleaseReason l)
  && Bool.eqb (bool_decide (lease_Status l = LeaseActive))
       (negb (is_some (lease_ReleasedAt l))).

Definition events_check (e : Event) : bool :=
  (0 <? event_Sequence e)
  && between 1 160 (pg_length (pg_trim (event_EventType e)))
  && between 1 80 (pg_length (pg_trim (event_ActorType e)))
  && between 1 200 (pg_length (pg_trim (event_ActorID e)))
  && null_or (fun c => pg_length c <=? 200) (event_CorrelationID e)
  && null_or (fun c => pg_length c <=? 200) (event_CausationID e)
  && null_or Valid (event_FromStatus e)
  && null_or Valid (event_ToStatus e).

Definition dead_letters_check (d : DeadLetter) : bool :=
  between 1 120 (pg_length (pg_trim (dead_ReasonCode d)))
  && between 1 4000 (pg_length (pg_trim (dead_Reason d)))
  && (0 <? dead_AttemptCount d)
  && Bool.eqb (is_some (dead_RedrivenAt d)) (is_some (dead_RedriveTaskID d)).

Definition outbox_check (r : OutboxRow) : bool :=
  let o := row_Outbox r in
  between 1 80 (pg_length (pg_trim (outbox_AggregateType o)))
  && between 1 200 (pg_length (pg_trim (outbox_AggregateID o)))
  && between 1 160 (pg_length (pg_trim (outbox_EventType o)))
  && (0 <? outbox_SchemaVersion o)
  && (0 <=? outbox_AttemptCount o)
  && between 1 100 (outbox_MaxAttempts o)
  && null_or (MatchString digestPattern) (row_ClaimTokenHash r)
  && null_or (fun s => between 1 200 (pg_length (pg_trim s))) (outbox_ClaimedBy o)
  && null_or (fun s => pg_length s <=? 4000) (outbox_LastError o)
  && (if bool_decide (outbox_Status o = OutboxClaimed)
      then is_some (row_ClaimTokenHash r) && is_some (outbox_ClaimedBy o)
           && is_some (outbox_ClaimExpiresAt o)
      else negb (is_some (row_ClaimTokenHash r)) && negb (is_some (outbox_ClaimedBy o))
           && negb (is_some (outbox_ClaimExpiresAt o)))
  && Bool.eqb (bool_decide (outbox_Status o = OutboxPublished))
       (is_some (outbox_PublishedAt o)).

(** ** Statements

    The rows of a table that satisfy a condition, in no particular order. *)
Definition rows {A} (p : A -> bool) (t : gmap Z A) : list A :=
  filter (fun a => p a = true) (snd <$> map_to_list t).

(** [ORDER BY], for a comparison of rows. *)
Definition order_by {A} (le : A -> A -> bool) (l : list A) : list A :=
  @merge_sort A (fun x y => le x y = true) (fun x y => bool_eq_dec (le x y) true) l.

(** [FOR UPDATE SKIP LOCKED LIMIT n] on ordered rows; [locked] are the ids of
    the rows another transaction holds. *)
Definition skip_locked_limit {A} (id : A -> Z) (locked : list Z) (n : Z) (l : list A) : list A :=
  take (Z.to_nat n) (filter (fun a => id a ∉ locked) l).

(** [SELECT ... WHERE id = $1 FOR UPDATE] *)
Definition select_task (id : Z) : M Task :=
  let! d := get_db in
  match db_tasks d !! id with
  | Some t => ret t
  | None => throw (mapError NoRows)
  end.

(** [UPDATE tasks SET ... WHERE id = $1 AND cond RETURNING ...]; [None] when no
    row matches. *)
Definition update_task (id : Z) (cond : Task -> bool) (f : Task -> Task) : M (option Task) :=
  let! d := get_db in
  match db_tasks d !! id with
  | Some t =>
      if cond t then
        do! throwIf (negb (tasks_check (f t))) check_violation in
        do! modify (set_tasks (<[id := f t]> (db_tasks d))) in
        ret (Some (f t))
      else ret None
  | None => ret None
  end.

(** The primary key of a table. *)
Definition taken {A} (t : gmap Z A) (id : Z) : bool := is_some (t !! id).

Definition insert_task (row : Task) : M Task :=
  let! d := get_db in
  do! throwIf (negb (tasks_check row)) check_violation in
  do! throwIf (taken (db_tasks d) (task_ID row)) unique_violation in
  do! modify (set_tasks (<[task_ID row := row]> (db_tasks d))) in
  ret row.

Definition insert_requirement (row : Requirement) : M Requirement :=
  let! d := get_db in
  do! throwIf (negb (requirements_check row)) check_violation in
  do! throwIf (bool_decide (rows (fun r => (requirement_TaskID r =? requirement_TaskID row)
                && bool_decide (requirement_Key r = requirement_Key row))
                (db_requirements d) ≠ [])) unique_violation in
  do! throwIf (taken (db_requirements d) (requirement_ID row)) unique_violation in
  do! modify (set_requirements (<[requirement_ID row := row]> (db_requirements d))) in
  ret row.

Definition update_requirement (id : Z) (cond : Requirement -> bool)
    (f : Requirement -> Requirement) : M Z :=
  let! d := get_db in
  match db_requirements d !! id with
  | Some r =>
      if cond r then
        do! throwIf (negb (requirements_check (f r))) check_violation in
        do! modify (set_requirements (<[id := f r]> (db_requirements d))) in
        ret 1
      else ret 0
  | None => ret 0
  end.

Definition insert_evidence (row : Evidence) : M Evidence :=
  let! d := get_db in
  do! throwIf (negb (evidence_check row)) check_violation in
  do! throwIf (taken (db_evidence d) (evidence_ID row)) unique_violation in
  do! modify (set_evidence (<[evidence_ID row := row]> (db_evidence d))) in
  ret row.

Definition insert_attempt (row : Attempt) : M Attempt :=
  let! d := get_db in
  do! throwIf (negb (attempts_check row)) check_violation in
  do! throwIf (bool_decide (rows (fun a => (attempt_TaskID a =? attempt_TaskID row)
                && (attempt_Ordinal a =? attempt_Ordinal row)) (db_attempts d) ≠ []))
        unique_violation in
  do! throwIf (taken (db_attempts d) (attempt_ID row)) unique_violation in
  do! modify (set_attempts (<[attempt_ID row := row]> (db_attempts d))) in
  ret row.

Definition update_attempt (id : Z) (cond : Attempt -> bool) (f : Attempt -> Attempt) : M Z :=
  let! d := get_db in
  match db_attempts d !! id with
  | Some a =>
      if cond a then
        do! throwIf (negb (attempts_check (f a))) check_violation in
        do! modify (set_attempts (<[id := f a]> (db_attempts d))) in
        ret 1
      else ret 0
  | None => ret 0
  end.

(** The active lease of a task, if any (a unique index keeps it the only one). *)
Definition active_leases (task : Z) (d : DB) : list LeaseRow :=
  rows (fun r => (lease_TaskID (row_Lease r) =? task)
                 && bool_decide (lease_Status (row_Lease r) = LeaseActive)) (db_leases d).

Definition insert_lease (row : LeaseRow) : M LeaseRow :=
  let! d := get_db in
  do! throwIf (negb (leases_check row)) check_violation in
  do! throwIf (bool_decide (active_leases (lease_TaskID (row_Lease row)) d ≠ []))
        unique_violation in
  do! throwIf (taken (db_leases d) (lease_ID (row_Lease row))) unique_violation in
  do! modify (set_leases (<[lease_ID (row_Lease row) := row]> (db_leases d))) in
  ret row.

(** [UPDATE task_leases SET ... WHERE cond RETURNING ...]: the rows as updated. *)
Definition update_leases (cond : LeaseRow -> bool) (f : LeaseRow -> LeaseRow)
    : M (list LeaseRow) :=
  let! d := get_db in
  let hit := rows cond (db_leases d) in
  do! throwIf (negb (forallb (fun r => leases_check (f r)) hit)) check_violation in
  do! modify (set_leases ((fun r => if cond r then f r else r) <$> db_leases d)) in
  ret (f <$> hit).

Definition insert_event (row : Event) : M unit :=
  let! d := get_db in
  do! throwIf (negb (events_check row)) check_violation in
  modify (set_events (db_events d ++ [row])).

Definition insert_outbox (row : OutboxRow) : M unit :=
  let! d := get_db in
  do! throwIf (negb (outbox_check row)) check_violation in
  do! throwIf (taken (db_outbox d) (outbox_ID (row_Outbox row))) unique_violation in
  modify (set_outbox (<[outbox_ID (row_Outbox row) := row]> (db_outbox d))).

(** [UPDATE outbox_events SET ... WHERE id = $1 AND cond RETURNING ...] *)
Definition update_outbox (id : Z) (cond : OutboxRow -> bool) (f : OutboxRow -> OutboxRow)
    : M (option OutboxRow) :=
  let! d := get_db in
  match db_outbox d !! id with
  | Some r =>
      if cond r then
        do! throwIf (negb (outbox_check (f r))) check_violation in
        do! modify (set_outbox (<[id := f r]> (db_outbox d))) in
        ret (Some (f r))
      else ret None
  | None => ret None
  end.

Definition insert_audit (row : AuditEvent) : M unit :=
  let! d := get_db in modify (set_audit (db_audit d ++ [row])).

(** ** Lemmas on rows *)

Lemma rows_spec {A} (p : A -> bool) (t : gmap Z A) (a : A) :
  a ∈ rows p t <-> exists k, t !! k = Some a /\ p a = true.
Proof.
  unfold rows. rewrite list_elem_of_filter, list_elem_of_fmap. split.
  - intros [Hp ([k a'] & -> & Hin)]. exists k. split; [|done].
    by apply elem_of_map_to_list in Hin.
  - intros (k & Hk & Hp). split; [done|]. exists (k, a). split; [done|].
    by apply elem_of_map_to_list.
Qed.

Lemma rows_nil {A} (p : A -> bool) (t : gmap Z A) :
  rows p t = [] <-> forall k a, t !! k = Some a -> p a = false.
Proof.
  split.
  - intros Hn k a Hk. destruct (p a) eqn:Hp; [|done].
    exfalso. assert (Hin : a ∈ rows p t) by (apply rows_spec; eauto).
    rewrite Hn in Hin. by apply not_elem_of_nil in Hin.
  - intros Hall. destruct (rows p t) as [|a l] eqn:Hr; [done|]. exfalso.
    assert (Hin : a ∈ rows p t) by (rewrite Hr; left).
    apply rows_spec in Hin as (k & Hk & Hp). by rewrite (Hall k a Hk) in Hp.
Qed.

Lemma taken_false {A} (t : gmap Z A) (id : Z) : taken t id = false <-> t !! id = None.
Proof. unfold taken, is_some. by destruct (t !! id). Qed.

(** Rows that are stored under their id appear once. *)
Lemma rows_NoDup {A} (id : A -> Z) (p : A -> bool) (t : gmap Z A) :
  (forall k a, t !! k = Some a -> id a = k) -> NoDup (id <$> rows p t).
Proof.
  intros Hid. unfold rows.
  assert (Hn : NoDup (id <$> (snd <$> map_to_list t))).
  { rewrite <- list_fmap_compose.
    rewrite (list_fmap_ext (id ∘ snd) fst).
    - apply NoDup_fst_map_to_list.
    - intros i [k a] Hi. simpl. apply Hid.
      apply elem_of_map_to_list. by eapply list_elem_of_lookup_2. }
  revert Hn. generalize (snd <$> map_to_list t). intros l Hn.
  induction l as [|a l IH]; [constructor|].
  rewrite fmap_cons in Hn. apply NoDup_cons in Hn as [Hni Hn].
  rewrite filter_cons. case_decide; [|by apply IH].
  rewrite fmap_cons. apply NoDup_cons. split; [|by apply IH].
  intros (b & Hab & Hb)%list_elem_of_fmap. apply Hni, list_elem_of_fmap.
  exists b. apply list_elem_of_filter in Hb as [_ Hb]. done.
Qed.

Lemma order_by_perm {A} (le : A -> A -> bool) (l : list A) : order_by le l ≡ₚ l.
Proof. apply merge_sort_Permutation. Qed.

Lemma skip_locked_limit_spec {A} (id : A -> Z) (locked : list Z) (n : Z) (l : list A) (a : A) :
  a ∈ skip_locked_limit id locked n l -> a ∈ l /\ id a ∉ locked.
Proof.
  unfold skip_locked_limit. intros Hin. apply subseteq_take, list_elem_of_filter in Hin.
  by destruct Hin.
Qed.

Lemma skip_locked_limit_NoDup {A} (id : A -> Z) (locked : list Z) (n : Z) (l : list A) :
  NoDup (id <$> l) -> NoDup (id <$> skip_locked_limit id locked n l).
Proof.
  intros Hn. unfold skip_locked_limit. eapply sublist_NoDup; [exact Hn|].
  apply fmap_sublist. etransitivity; [apply sublist_take|apply sublist_filter].
Qed.
