(* ===== verification/StoreHelpers.v ===== *)
(** * Shared operations of the PostgreSQL task store

    internal/tasks/postgres: helpers.go, the helpers of mutate.go and queue.go
    and the ancestor walk of ancestry.go. *)

From stdpp Require Import base tactics list gmap strings pretty sorting.
From Stdlib Require Import ZArith Lia Ascii.
From S2P Require Import Prelude GoLib TaskDomain Database.

Local Open Scope Z_scope.

(** ** helpers.go: values *)

Definition nullableString (value : string) : option string :=
  if is_empty value then None else Some value.

(** [NULLIF(x, '')] *)
Definition nullif_empty (value : string) : option string := nullableString value.

Definition requiredValue (value : option bool) : bool :=
  match value with None => true | Some b => b end.

(** [strconv.FormatInt(n, 10)] *)
Definition FormatInt (n : Z) : string := pretty n.

(** ** Row updates of the [tasks] table, one per UPDATE statement *)

(** [SET status, status_reason_code, status_reason, version = version+1,
    updated_at, terminal_at] *)
Definition task_transitioned (to : Status) (reasonCode reason : string)
    (updated : Instant) (terminalAt : option Instant) (t : Task) : Task :=
  mkTask (task_ID t) (task_OrganizationID t) (task_OrganizationRevisionID t)
    (task_RequestedByRoleID t) (task_AssignedRoleID t) (task_AssignedUnitID t) (task_TaskClass t)
    (task_IdempotencyKey t) (task_RequestHash t) (task_Title t) (task_Instructions t)
    (task_AcceptanceCriteria t) to (task_Priority t) (task_AvailableAt t) (task_MaxAttempts t)
    (task_AttemptCount t) (task_Version t + 1) (task_CorrelationID t) (task_CausationID t)
    (nullif_empty reasonCode) (nullif_empty reason) (task_CreatedAt t) updated terminalAt.

(** [SET version = version+1, updated_at] *)
Definition task_touched (updated : Instant) (t : Task) : Task :=
  mkTask (task_ID t) (task_OrganizationID t) (task_OrganizationRevisionID t)
    (task_RequestedByRoleID t) (task_AssignedRoleID t) (task_AssignedUnitID t) (task_TaskClass t)
    (task_IdempotencyKey t) (task_RequestHash t) (task_Title t) (task_Instructions t)
    (task_AcceptanceCriteria t) (task_Status t) (task_Priority t) (task_AvailableAt t)
    (task_MaxAttempts t) (task_AttemptCount t) (task_Version t + 1) (task_CorrelationID t)
    (task_CausationID t) (task_StatusReasonCode t) (task_StatusReason t) (task_CreatedAt t)
    updated (task_TerminalAt t).

(** [SET status_reason_code, status_reason, version = version+1, updated_at] *)
Definition task_reblocked (reasonCode reason : string) (updated : Instant) (t : Task) : Task :=
  mkTask (task_ID t) (task_OrganizationID t) (task_OrganizationRevisionID t)
    (task_RequestedByRoleID t) (task_AssignedRoleID t) (task_AssignedUnitID t) (task_TaskClass t)
    (task_IdempotencyKey t) (task_RequestHash t) (task_Title t) (task_Instructions t)
    (task_AcceptanceCriteria t) (task_Status t) (task_Priority t) (task_AvailableAt t)
    (task_MaxAttempts t) (task_AttemptCount t) (task_Version t + 1) (task_CorrelationID t)
    (task_CausationID t) (Some reasonCode) (Some reason) (task_CreatedAt t) updated
    (task_TerminalAt t).

(** [SET attempt_count] *)
Definition task_counted (count : Z) (t : Task) : Task :=
  mkTask (task_ID t) (task_OrganizationID t) (task_OrganizationRevisionID t)
    (task_RequestedByRoleID t) (task_AssignedRoleID t) (task_AssignedUnitID t) (task_TaskClass t)
    (task_IdempotencyKey t) (task_RequestHash t) (task_Title t) (task_Instructions t)
    (task_AcceptanceCriteria t) (task_Status t) (task_Priority t) (task_AvailableAt t)
    (task_MaxAttempts t) count (task_Version t) (task_CorrelationID t)
    (task_CausationID t) (task_StatusReasonCode t) (task_StatusReason t) (task_CreatedAt t)
    (task_UpdatedAt t) (task_TerminalAt t).

(** [SET available_at] *)
Definition task_deferred (available : Instant) (t : Task) : Task :=
  mkTask (task_ID t) (task_OrganizationID t) (task_OrganizationRevisionID t)
    (task_RequestedByRoleID t) (task_AssignedRoleID t) (task_AssignedUnitID t) (task_TaskClass t)
    (task_IdempotencyKey t) (task_RequestHash t) (task_Title t) (task_Instructions t)
    (task_AcceptanceCriteria t) (task_Status t) (task_Priority t) available
    (task_MaxAttempts t) (task_AttemptCount t) (task_Version t) (task_CorrelationID t)
    (task_CausationID t) (task_StatusReasonCode t) (task_StatusReason t) (task_CreatedAt t)
    (task_UpdatedAt t) (task_TerminalAt t).

(** [SET task_class] *)
Definition task_classified (class : string) (t : Task) : Task :=
  mkTask (task_ID t) (task_OrganizationID t) (task_OrganizationRevisionID t)
    (task_RequestedByRoleID t) (task_AssignedRoleID t) (task_AssignedUnitID t) class
    (task_IdempotencyKey t) (task_RequestHash t) (task_Title t) (task_Instructions t)
    (task_AcceptanceCriteria t) (task_Status t) (task_Priority t) (task_AvailableAt t)
    (task_MaxAttempts t) (task_AttemptCount t) (task_Version t) (task_CorrelationID t)
    (task_CausationID t) (task_StatusReasonCode t) (task_StatusReason t) (task_CreatedAt t)
    (task_UpdatedAt t) (task_TerminalAt t).

(** ** Lease and attempt updates *)

Definition lease_closed (status : LeaseStatus) (reason : string) (now : Instant)
    (r : LeaseRow) : LeaseRow :=
  let l := row_Lease r in
  mkLeaseRow
    (mkLease (lease_ID l) (lease_TaskID l) (lease_AttemptID l) (lease_HolderID l) status
       (lease_IssuedAt l) (lease_HeartbeatAt l) (lease_ExpiresAt l) (Some now) (Some reason))
    (row_TokenHash r).

Definition lease_extended (heartbeat expires : Instant) (r : LeaseRow) : LeaseRow :=
  let l := row_Lease r in
  mkLeaseRow
    (mkLease (lease_ID l) (lease_TaskID l) (lease_AttemptID l) (lease_HolderID l)
       (lease_Status l) (lease_IssuedAt l) heartbeat expires (lease_ReleasedAt l)
       (lease_ReleaseReason l))
    (row_TokenHash r).

Definition attempt_started (started updated : Instant) (a : Attempt) : Attempt :=
  mkAttempt (attempt_ID a) (attempt_TaskID a) (attempt_Ordinal a) AttemptRunning
    (attempt_WorkerID a) (attempt_ResultSummary a) (attempt_FailureCode a) (attempt_Retryable a)
    (attempt_LeasedAt a) (Some started) (attempt_FinishedAt a) (attempt_CreatedAt a) updated.

Definition attempt_ended (state : AttemptState) (summary failureCode : option string)
    (retryable : option bool) (finished updated : Instant) (a : Attempt) : Attempt :=
  mkAttempt (attempt_ID a) (attempt_TaskID a) (attempt_Ordinal a) state
    (attempt_WorkerID a) summary failureCode retryable
    (attempt_LeasedAt a) (attempt_StartedAt a) (Some finished) (attempt_CreatedAt a) updated.

Definition attempt_live (a : Attempt) : bool :=
  match attempt_State a with AttemptLeased | AttemptRunning => true | _ => false end.

Definition lease_active (r : LeaseRow) : bool :=
  bool_decide (lease_Status (row_Lease r) = LeaseActive).

Section Helpers.
Context `{Env}.

(** ** Tokens *)

Definition hashToken (token : string) : string := env_sha256_hex token.

(** A fresh token and its hash. *)
Definition newToken : M (string * string) :=
  let! drawn := random_token in
  match drawn with
  | Some plain => ret (plain, hashToken plain)
  | None => throw ErrInternal
  end.

(** ** lockTask, appendTaskEvent, transitionTask, touchTask *)

Definition lockTask (taskID : Z) : M Task := select_task taskID.

(** [COALESCE(MAX(sequence),0)+1] *)
Definition next_sequence (taskID : Z) (events : list Event) : Z :=
  foldr Z.max 0 (event_Sequence <$> filter (fun e => event_TaskID e = taskID) events) + 1.

Definition status_json (key : string) (s : option Status) (p : Payload) : Payload :=
  match s with Some v => <[key := JStr (StatusString v)]> p | None => p end.

Definition copy_reason (payload p : Payload) : Payload :=
  match payload !! "reason_code"%string with
  | Some rc => <["reason_code" := rc]> p
  | None => p
  end.

Definition outbox_payload (task : Task) (from to : option Status) (eventType : string)
    (payload : Payload) : Payload :=
  copy_reason payload
    (status_json "to_status" to
      (status_json "from_status" from
        (<["schema_version" := JInt 1]>
          (<["task_id" := JInt (task_ID task)]>
            (<["event_type" := JStr eventType]>
              (<["task_version" := JInt (task_Version task)]> ∅)))))).

Definition audit_payload (task : Task) (from to : option Status) (eventType : string)
    (payload : Payload) : Payload :=
  copy_reason payload
    (status_json "to_status" to
      (status_json "from_status" from
        (<["task_id" := JInt (task_ID task)]>
          (<["task_version" := JInt (task_Version task)]>
            (<["event_type" := JStr eventType]> ∅))))).

Definition default_string (d s : string) : string := if is_empty s then d else s.

Definition new_outbox_row (id : Z) (task : Task) (eventType : string) (payload : Payload)
    (maxAttempts : Z) (now : Instant) : OutboxRow :=
  mkOutboxRow
    (mkOutboxEvent id "task" (FormatInt (task_ID task)) eventType 1 payload OutboxPending now 0
       maxAttempts None None None now now None)
    None.

Definition appendTaskEvent (task : Task) (from to : option Status)
    (eventType actorType actorID : string) (payload : Payload) (outboxMaxAttempts : Z)
    : M unit :=
  let actorType := default_string "system" actorType in
  let actorID := default_string "orgd" actorID in
  let! d := get_db in
  let sequence := next_sequence (task_ID task) (db_events d) in
  let! now := transaction_now in
  let! eventID := nextval TEvents in
  do! insert_event (mkEvent eventID (task_ID task) sequence eventType from to actorType actorID
        (task_CorrelationID task) (task_CausationID task) payload now) in
  let! outboxID := nextval TOutbox in
  do! insert_outbox (new_outbox_row outboxID task eventType
        (outbox_payload task from to eventType payload) outboxMaxAttempts now) in
  insert_audit (mkAuditEvent eventType actorType actorID (FormatInt (task_ID task))
    (task_CorrelationID task) (task_CausationID task)
    (audit_payload task from to eventType payload)).

Definition with_reason (reasonCode : string) (payload : Payload) : Payload :=
  if is_empty reasonCode then payload else <["reason_code" := JStr reasonCode]> payload.

Definition transitionTask (task : Task) (to : Status)
    (eventType reasonCode reason actorType actorID : string) (payload : Payload)
    (outboxMaxAttempts : Z) : M Task :=
  do! lift (ValidateTransition (task_Status task) to) in
  let from := task_Status task in
  let! updatedAt := clock_timestamp in
  let! terminalNow := clock_timestamp in
  let terminalAt := if Terminal to then Some terminalNow else None in
  let! updated := update_task (task_ID task) (fun t => task_Version t =? task_Version task)
                    (task_transitioned to reasonCode reason updatedAt terminalAt) in
  match updated with
  | None => throw ErrConflict
  | Some row =>
      do! appendTaskEvent row (Some from) (Some to) eventType actorType actorID
            (with_reason reasonCode payload) outboxMaxAttempts in
      ret row
  end.

Definition touchTask (task : Task) : M Task :=
  let! now := clock_timestamp in
  let! updated := update_task (task_ID task) (fun t => task_Version t =? task_Version task)
                    (task_touched now) in
  match updated with
  | None => throw ErrConflict
  | Some row => ret row
  end.

(** ** mutate.go: dependencies and leases *)

Record dependencyInspection : Type := mkDependencyInspection {
  inspect_Now : Instant;
  inspect_Waiting : bool;
  inspect_TerminalFailure : bool }.

(** The tasks a task depends on, through the join of both tables. *)
Definition dependency_tasks (taskID : Z) (d : DB) : list Task :=
  omap (fun '(task, dep) => if task =? taskID then db_tasks d !! dep else None)
    (db_dependencies d).

(** [status IN ('no_action','failed','dead_letter','rejected','cancelled')] *)
Definition failed_for_good (s : Status) : bool :=
  match s with
  | StatusNoAction | StatusFailed | StatusDeadLetter | StatusRejected | StatusCancelled => true
  | _ => false
  end.

Definition still_open (s : Status) : bool :=
  negb (bool_decide (s = StatusCompleted)) && negb (failed_for_good s).

Definition inspectDependencies (taskID : Z) : M dependencyInspection :=
  let! d := get_db in
  let! now := clock_timestamp in
  let statuses := task_Status <$> dependency_tasks taskID d in
  ret (mkDependencyInspection now (existsb still_open statuses)
         (existsb failed_for_good statuses)).

Definition activeLeaseAttempt (taskID : Z) : M (option Z) :=
  let! d := get_db in
  match active_leases taskID d with
  | r :: _ => ret (Some (lease_AttemptID (row_Lease r)))
  | [] => ret None
  end.

(** An active lease of the given task and attempt. *)
Definition lease_of (taskID attemptID : Z) (r : LeaseRow) : bool :=
  (lease_TaskID (row_Lease r) =? taskID) && (lease_AttemptID (row_Lease r) =? attemptID).

Definition revokeLease (taskID attemptID : Z) (reason : string) : M unit :=
  let! now := clock_timestamp in
  do! update_leases (fun r => lease_of taskID attemptID r && lease_active r)
        (lease_closed LeaseRevoked reason now) in
  let! finished := clock_timestamp in
  let! updated := clock_timestamp in
  do! update_attempt attemptID attempt_live (fun a =>
        attempt_ended AttemptCancelled (attempt_ResultSummary a) (attempt_FailureCode a)
          (attempt_Retryable a) finished updated a) in
  ret tt.

Definition isCoordinationHeld (task : Task) : bool :=
  bool_decide (task_Status task = StatusBlocked)
  && bool_decide (task_StatusReasonCode task = Some ReasonCodeCoordinationHold).

Definition releaseTargetStatus (task : Task) (s : dependencyInspection) : Status :=
  if inspect_Waiting s || (inspect_Now s <? task_AvailableAt task)
  then StatusPending else StatusReady.

(** ** ancestry.go *)

Definition maxAncestorDepth : nat := 64.

Definition digit : regex := RCls [("0"%char, "9"%char)].

(** The value of a run of ASCII digits. *)
Definition digits_value (l : bytes) : Z :=
  fold_left (fun n c => n * 10 + (byte_of c - 48)) l 0.

(** [NULLIF(substring(causation_id from '^task:([0-9]+)$'), '')::bigint];
    the cast raises 22003 when the digits do not fit a bigint. *)
Definition parentOf (causation : option string) : res (option Z) :=
  match causation with
  | None => Ok None
  | Some c =>
      match strip_prefix (to_bytes "task:") (to_bytes c) with
      | Some rest =>
          if run_regex (RPlus digit) rest then
            if digits_value rest <=? maxInt64 then Ok (Some (digits_value rest))
            else Err numeric_out_of_range
          else Ok None
      | None => Ok None
      end
  end.

(** The recursive query [chain]: the ancestors of a task, nearest first, within
    the task's organization and [fuel] levels. *)
Fixpoint ancestor_chain (fuel : nat) (organization : string) (tasks : gmap Z Task)
    (causation : option string) : res (list Task) :=
  match fuel with
  | O => Ok []
  | S fuel' =>
      let? parent := parentOf causation in
      match parent with
      | None => Ok []
      | Some id =>
          match tasks !! id with
          | Some p =>
              if bool_decide (task_OrganizationID p = organization) then
                let? rest := ancestor_chain fuel' organization tasks (task_CausationID p) in
                Ok (p :: rest)
              else Ok []
          | None => Ok []
          end
      end
  end.

Definition ancestors (d : DB) (t : Task) : res (list Task) :=
  ancestor_chain maxAncestorDepth (task_OrganizationID t) (db_tasks d) (task_CausationID t).

Definition ancestor_block (t : Task) : AncestorBlock :=
  mkAncestorBlock (task_ID t) (task_Status t) (task_TaskClass t).

(** [status = ANY(blocking) AND task_class <> ALL(non-scoping)] *)
Definition ancestor_blocks_sql (t : Task) : bool :=
  bool_decide (StatusString (task_Status t) ∈ BlockingAncestorStatuses)
  && negb (bool_decide (task_TaskClass t ∈ NonScopingTaskClasses)).

(** The correlated predicate of the claim query. *)
Definition blockingAncestorPredicate (d : DB) (t : Task) : res bool :=
  let? chain := ancestors d t in
  Ok (existsb ancestor_blocks_sql chain).

(** The ancestor with the least id among the blocking ones. *)
Definition least_block (found : option AncestorBlock) (a : AncestorBlock)
    : option AncestorBlock :=
  if Blocks a then
    match found with
    | None => Some a
    | Some f => if ancestor_TaskID a <? ancestor_TaskID f then Some a else Some f
    end
  else found.

Definition blockingAncestor (task : Task) : M (option AncestorBlock) :=
  let! d := get_db in
  match db_tasks d !! task_ID task with
  | Some row =>
      if bool_decide (task_OrganizationID row = task_OrganizationID task) then
        let! chain := lift (ancestors d row) in
        ret (fold_left least_block (ancestor_block <$> chain) None)
      else ret None
  | None => ret None
  end.

(** ** queue.go: leases *)

Record leaseRecord : Type := mkLeaseRecord {
  record_Lease : Lease;
  record_TokenHash : string;
  record_Now : Instant }.

Definition verifyLease (command : LeaseCommand) : M leaseRecord :=
  let! d := get_db in
  match rows (lease_of (lcmd_TaskID command) (lcmd_AttemptID command)) (db_leases d) with
  | [] => throw (mapError NoRows)
  | r :: _ =>
      let! now := clock_timestamp in
      let record := mkLeaseRecord (row_Lease r) (row_TokenHash r) now in
      do! throwIf (negb (bool_decide (lease_Status (record_Lease record) = LeaseActive)))
            ErrLeaseExpired in
      do! throwIf (negb (bool_decide (record_TokenHash record
                                      = hashToken (lcmd_LeaseToken command))))
            ErrLeaseMismatch in
      do! throwIf (negb (record_Now record <? lease_ExpiresAt (record_Lease record)))
            ErrLeaseExpired in
      ret record
  end.

End Helpers.
