(* ===== verification/StoreMutate.v ===== *)
(** * Mutations of the PostgreSQL task store

    internal/tasks/postgres/mutate.go and requirement_verification.go: one
    definition per method, each a whole transaction. *)

From stdpp Require Import base tactics list gmap strings sorting.
From Stdlib Require Import ZArith Lia.
From S2P Require Import Prelude GoLib TaskDomain Database StoreHelpers.

Local Open Scope Z_scope.

Section Mutate.
Context `{Env}.

(** ** Dependencies *)

(** One round of the recursive query [dependency_graph]: the targets of the
    edges whose source was already found. *)
Definition dependency_round (edges : list (Z * Z)) (found : gset Z) : gset Z :=
  found ∪ list_to_set (omap (fun '(task, dep) => if decide (task ∈ found) then Some dep else None)
                         edges).

Fixpoint dependency_rounds (n : nat) (edges : list (Z * Z)) (found : gset Z) : gset Z :=
  match n with
  | O => found
  | S n' => dependency_rounds n' edges (dependency_round edges found)
  end.

(** What [start] depends on, directly or not.  Each round adds a target or
    reaches the fixpoint, so as many rounds as edges are enough. *)
Definition dependency_graph (edges : list (Z * Z)) (start : Z) : gset Z :=
  dependency_rounds (length edges) edges
    (list_to_set (omap (fun '(task, dep) => if task =? start then Some dep else None) edges)).

(** [INSERT INTO task_dependencies ... ON CONFLICT DO NOTHING]: rows affected. *)
Definition insert_dependency_ignore (task dep : Z) : M Z :=
  let! d := get_db in
  do! throwIf (task =? dep) check_violation in
  if bool_decide ((task, dep) ∈ db_dependencies d) then ret 0
  else
    do! modify (set_dependencies (db_dependencies d ++ [(task, dep)])) in
    ret 1.

Definition AddDependency_tx (command : AddDependencyCommand) (outboxMaxAttempts : Z) : M unit :=
  let! task := lockTask (adddep_TaskID command) in
  do! throwIf (Terminal (task_Status task) || bool_decide (task_Status task = StatusLeased)
               || bool_decide (task_Status task = StatusRunning)
               || bool_decide (task_Status task = StatusAwaitingVerification))
        ErrInvalidTransition in
  let! dependency := lockTask (adddep_DependsOnID command) in
  do! throwIf (negb (bool_decide (task_OrganizationID dependency = task_OrganizationID task)))
        ErrConflict in
  let! d := get_db in
  do! throwIf (bool_decide (adddep_TaskID command
                 ∈ dependency_graph (db_dependencies d) (adddep_DependsOnID command)))
        ErrDependencyCycle in
  let! affected := insert_dependency_ignore (adddep_TaskID command)
                     (adddep_DependsOnID command) in
  if affected =? 0 then ret tt
  else
    let payload := {[ "depends_on_task_id"%string := JInt (adddep_DependsOnID command) ]} in
    if bool_decide (task_Status task = StatusReady)
       && negb (bool_decide (task_Status dependency = StatusCompleted)) then
      do! transitionTask task StatusBlocked "task.blocked" "dependency_unsatisfied"
            "a newly added dependency is not completed" (adddep_ActorType command)
            (adddep_ActorID command) payload outboxMaxAttempts in
      ret tt
    else
      let! task := touchTask task in
      appendTaskEvent task None None "task.dependency_added" (adddep_ActorType command)
        (adddep_ActorID command) payload outboxMaxAttempts.

Definition AddDependency (command : AddDependencyCommand) (outboxMaxAttempts : Z) : M unit :=
  withTx (AddDependency_tx command outboxMaxAttempts).

(** ** Requirements and evidence *)

Definition new_requirement (id taskID : Z) (spec : RequirementSpec) (now : Instant)
    : Requirement :=
  mkRequirement id taskID (spec_Key spec) (spec_Type spec) (spec_Description spec)
    (requiredValue (spec_Required spec)) RequirementPending None now now.

Definition AddRequirement_tx (command : AddRequirementCommand) (outboxMaxAttempts : Z)
    : M Requirement :=
  let! task := lockTask (addreq_TaskID command) in
  do! match task_Status task with
      | StatusPending | StatusReady | StatusBlocked | StatusAwaitingVerification => ret tt
      | _ => throw ErrInvalidTransition
      end in
  let! now := transaction_now in
  let! id := nextval TRequirements in
  let! requirement := insert_requirement
    (new_requirement id (addreq_TaskID command) (addreq_Spec command) now) in
  let! task := touchTask task in
  do! appendTaskEvent task None None "task.requirement_added" (addreq_ActorType command)
        (addreq_ActorID command)
        (<["requirement_id"%string := JInt (requirement_ID requirement)]>
          {["requirement_type"%string
              := JStr (RequirementTypeString (requirement_Type requirement))]})
        outboxMaxAttempts in
  ret requirement.

Definition AddRequirement (command : AddRequirementCommand) (outboxMaxAttempts : Z)
    : M Requirement := withTx (AddRequirement_tx command outboxMaxAttempts).

Definition select_requirement (id : Z) : M Requirement :=
  let! d := get_db in
  match db_requirements d !! id with
  | Some r => ret r
  | None => throw (mapError NoRows)
  end.

(** [SET status, satisfied_at, updated_at] *)
Definition requirement_resolved (status : RequirementStatus) (satisfiedAt : option Instant)
    (updated : Instant) (r : Requirement) : Requirement :=
  mkRequirement (requirement_ID r) (requirement_TaskID r) (requirement_Key r)
    (requirement_Type r) (requirement_Description r) (requirement_Required r) status
    satisfiedAt (requirement_CreatedAt r) updated.

Definition requirement_pending (r : Requirement) : bool :=
  bool_decide (requirement_Status r = RequirementPending).

Definition RecordEvidence_tx (command : RecordEvidenceCommand) (outboxMaxAttempts : Z)
    : M Evidence :=
  let! task := lockTask (evcmd_TaskID command) in
  do! throwIf (Terminal (task_Status task)) ErrInvalidTransition in
  do! match evcmd_RequirementID command with
      | None => ret tt
      | Some requirementID =>
          let! requirement := select_requirement requirementID in
          do! throwIf (negb (requirement_TaskID requirement =? evcmd_TaskID command)
                       || negb (bool_decide (requirement_Type requirement = evcmd_Type command)))
                ErrConflict in
          throwIf (evcmd_Satisfies command && negb (requirement_pending requirement))
            ErrRequirementResolved
      end in
  let! now := transaction_now in
  let! id := nextval TEvidence in
  let! evidence := insert_evidence
    (mkEvidence id (evcmd_TaskID command) (evcmd_RequirementID command) (evcmd_Type command)
       (evcmd_Reference command) (nullableString (evcmd_Digest command))
       (evcmd_RecordedBy command) (evcmd_Metadata command) now) in
  do! (if evcmd_Satisfies command then
         match evcmd_RequirementID command with
         | None => throw ErrInvalidInput
         | Some requirementID =>
             let! satisfied := clock_timestamp in
             let! updated := clock_timestamp in
             let! affected := update_requirement requirementID
               (fun r => (requirement_TaskID r =? evcmd_TaskID command) && requirement_pending r)
               (requirement_resolved RequirementSatisfied (Some satisfied) updated) in
             throwIf (negb (affected =? 1)) ErrRequirementResolved
         end
       else ret tt) in
  let! task := touchTask task in
  let payload := <["evidence_id"%string := JInt (evidence_ID evidence)]>
    {["evidence_type"%string := JStr (RequirementTypeString (evidence_Type evidence))]} in
  let payload := match evcmd_RequirementID command with
    | None => payload
    | Some r => <["requirement_id"%string := JInt r]>
                  (<["satisfies"%string := JBool (evcmd_Satisfies command)]> payload)
    end in
  do! appendTaskEvent task None None "task.evidence_recorded" "worker"
        (evcmd_RecordedBy command) payload outboxMaxAttempts in
  ret evidence.

Definition RecordEvidence (command : RecordEvidenceCommand) (outboxMaxAttempts : Z)
    : M Evidence := withTx (RecordEvidence_tx command outboxMaxAttempts).

Definition RecordRequirementVerification_tx (command : RequirementVerificationCommand)
    (outboxMaxAttempts : Z) : M Evidence :=
  let! task := lockTask (vcmd_TaskID command) in
  do! throwIf (Terminal (task_Status task)) ErrInvalidTransition in
  let! requirement := select_requirement (vcmd_RequirementID command) in
  do! throwIf (negb (requirement_TaskID requirement =? vcmd_TaskID command))
        (mapError NoRows) in
  do! throwIf (negb (requirement_pending requirement)) ErrRequirementResolved in
  let! now := transaction_now in
  let! id := nextval TEvidence in
  let! evidence := insert_evidence
    (mkEvidence id (vcmd_TaskID command) (Some (vcmd_RequirementID command))
       (requirement_Type requirement) (vcmd_Reference command)
       (nullableString (vcmd_Digest command)) (vcmd_RecordedBy command)
       (vcmd_Metadata command) now) in
  let '(status, eventType) :=
    match vcmd_Result command with
    | RequirementVerificationFailed => (RequirementFailed, "task.requirement_failed"%string)
    | _ => (RequirementSatisfied, "task.requirement_satisfied"%string)
    end in
  let! satisfied := clock_timestamp in
  let! updated := clock_timestamp in
  do! update_requirement (vcmd_RequirementID command) requirement_pending
        (requirement_resolved status
           (if bool_decide (status = RequirementSatisfied) then Some satisfied else None)
           updated) in
  let! task := touchTask task in
  do! appendTaskEvent task None None eventType "role" (vcmd_RecordedBy command)
        (<["requirement_id"%string := JInt (vcmd_RequirementID command)]>
          (<["requirement_type"%string
               := JStr (RequirementTypeString (requirement_Type requirement))]>
            (<["verification_result"%string
                 := JStr (RequirementVerificationString (vcmd_Result command))]>
              {["evidence_id"%string := JInt (evidence_ID evidence)]})))
        outboxMaxAttempts in
  ret evidence.

Definition RecordRequirementVerification (command : RequirementVerificationCommand)
    (outboxMaxAttempts : Z) : M Evidence :=
  withTx (RecordRequirementVerification_tx command outboxMaxAttempts).

(** ** Finalize, Block, Unblock, ReleaseCoordinationHold, Cancel *)

(** [COUNT( * )] of a task's required requirements that are not satisfied. *)
Definition unsatisfied (taskID : Z) (d : DB) : Z :=
  Z.of_nat (length (rows (fun r => (requirement_TaskID r =? taskID) && requirement_Required r
    && negb (bool_decide (requirement_Status r = RequirementSatisfied))) (db_requirements d))).

Definition awaiting_verification (task : Task) : M unit :=
  throwIf (negb (bool_decide (task_Status task = StatusAwaitingVerification)))
    ErrInvalidTransition.

(** The revocation Block, Cancel and Finalize share: the payload grows by the
    attempt whose lease was revoked. *)
Definition revoke_active (task : Task) (attempt : option Z) (reason : string)
    (payload : Payload) : M Payload :=
  match attempt with
  | None => ret payload
  | Some attemptID =>
      do! revokeLease (task_ID task) attemptID reason in
      ret (<["revoked_attempt_id"%string := JInt attemptID]> payload)
  end.

Definition Finalize_tx (command : FinalizeCommand) (outboxMaxAttempts : Z) : M Task :=
  let! task := lockTask (fin_TaskID command) in
  let payload := {["outcome"%string := JStr (FinalOutcomeString (fin_Outcome command))]} in
  let! target :=
    match fin_Outcome command with
    | FinalCompleted =>
        do! awaiting_verification task in
        let! d := get_db in
        do! throwIf (0 <? unsatisfied (fin_TaskID command) d) ErrRequirementsUnsatisfied in
        ret (StatusCompleted, payload)
    | FinalNoAction => do! awaiting_verification task in ret (StatusNoAction, payload)
    | FinalFailed => do! awaiting_verification task in ret (StatusFailed, payload)
    | FinalRejected => ret (StatusRejected, payload)
    | FinalCancelled =>
        let! active := activeLeaseAttempt (task_ID task) in
        let! payload := revoke_active task active "finalized_cancelled" payload in
        ret (StatusCancelled, payload)
    | FinalOther _ => throw ErrInvalidInput
    end in
  transitionTask task (fst target) "task.finalized" (fin_ReasonCode command)
    (fin_Reason command) (fin_ActorType command) (fin_ActorID command) (snd target)
    outboxMaxAttempts.

Definition Finalize (command : FinalizeCommand) (outboxMaxAttempts : Z) : M Task :=
  withTx (Finalize_tx command outboxMaxAttempts).

Definition Block_tx (command : BlockCommand) (outboxMaxAttempts : Z) : M Task :=
  let! task := lockTask (block_TaskID command) in
  if bool_decide (task_Status task = StatusBlocked) then ret task
  else
    do! throwIf (Terminal (task_Status task)) ErrInvalidTransition in
    let! active := activeLeaseAttempt (task_ID task) in
    do! throwIf (is_some active && negb (block_RevokeLease command)) ErrActiveLease in
    let! payload := revoke_active task active "blocked" ∅ in
    transitionTask task StatusBlocked "task.blocked" (block_ReasonCode command)
      (block_Reason command) (block_ActorType command) (block_ActorID command) payload
      outboxMaxAttempts.

Definition Block (command : BlockCommand) (outboxMaxAttempts : Z) : M Task :=
  withTx (Block_tx command outboxMaxAttempts).

Definition waiting_payload (s : dependencyInspection) : Payload :=
  {["dependencies_waiting"%string := JBool (inspect_Waiting s)]}.

Definition Unblock_tx (command : UnblockCommand) (check : AssigneeCheck)
    (outboxMaxAttempts : Z) : M Task :=
  let! task := lockTask (unblock_TaskID command) in
  do! throwIf (negb (bool_decide (task_Status task = StatusBlocked))) ErrInvalidTransition in
  do! throwIf (isCoordinationHeld task) ErrInvalidTransition in
  do! throwIf (negb (assignee_Available check)) ErrAssigneeUnavailable in
  do! throwIf (task_MaxAttempts task <=? task_AttemptCount task) ErrConflict in
  let! state := inspectDependencies (task_ID task) in
  do! throwIf (inspect_TerminalFailure state) ErrDependencyUnsatisfied in
  transitionTask task (releaseTargetStatus task state) "task.unblocked" "" ""
    (unblock_ActorType command) (unblock_ActorID command) (waiting_payload state)
    outboxMaxAttempts.

Definition Unblock (command : UnblockCommand) (check : AssigneeCheck) (outboxMaxAttempts : Z)
    : M Task := withTx (Unblock_tx command check outboxMaxAttempts).

Definition ReleaseCoordinationHold_tx (command : ReleaseCoordinationHoldCommand)
    (check : AssigneeCheck) (outboxMaxAttempts : Z) : M Task :=
  let! task := lockTask (release_TaskID command) in
  if negb (isCoordinationHeld task) then ret task
  else
    do! throwIf (negb (assignee_Available check)) ErrAssigneeUnavailable in
    let! state := inspectDependencies (task_ID task) in
    do! throwIf (inspect_TerminalFailure state) ErrDependencyUnsatisfied in
    transitionTask task (releaseTargetStatus task state) "task.coordination_hold_released" "" ""
      (release_ActorType command) (release_ActorID command) (waiting_payload state)
      outboxMaxAttempts.

Definition ReleaseCoordinationHold (command : ReleaseCoordinationHoldCommand)
    (check : AssigneeCheck) (outboxMaxAttempts : Z) : M Task :=
  withTx (ReleaseCoordinationHold_tx command check outboxMaxAttempts).

Definition Cancel_tx (command : CancelCommand) (outboxMaxAttempts : Z) : M Task :=
  let! task := lockTask (cancel_TaskID command) in
  if bool_decide (task_Status task = StatusCancelled) then ret task
  else
    do! throwIf (Terminal (task_Status task)) ErrInvalidTransition in
    let! active := activeLeaseAttempt (task_ID task) in
    let! payload := revoke_active task active "cancelled" ∅ in
    transitionTask task StatusCancelled "task.cancelled" (cancel_ReasonCode command)
      (cancel_Reason command) (cancel_ActorType command) (cancel_ActorID command) payload
      outboxMaxAttempts.

Definition Cancel (command : CancelCommand) (outboxMaxAttempts : Z) : M Task :=
  withTx (Cancel_tx command outboxMaxAttempts).

End Mutate.
