(* ===== verification/StoreCreate.v ===== *)
(** * Creation and redrive in the PostgreSQL task store

    internal/tasks/postgres/create.go and redrive.go, and the request hash of
    internal/tasks/validation.go they compare. *)

From stdpp Require Import base tactics list gmap strings sorting.
From Stdlib Require Import ZArith Lia.
From S2P Require Import Prelude GoLib TaskDomain Database StoreHelpers StoreMutate.

Local Open Scope Z_scope.

Section Create.
Context `{Env}.

(** ** validation.go: the request hash *)

(** A struct field tagged [omitempty]. *)
Definition omitempty (present : bool) (key : string) (value : JSON) : list (string * JSON) :=
  if present then [(key, value)] else [].

Definition spec_json (s : RequirementSpec) : JSON :=
  JObj ([("key"%string, JStr (spec_Key s));
         ("type"%string, JStr (RequirementTypeString (spec_Type s)));
         ("description"%string, JStr (spec_Description s))]
        ++ match spec_Required s with
           | Some b => [("required"%string, JBool b)]
           | None => []
           end).

Definition str_field (key value : string) : list (string * JSON) :=
  omitempty (negb (is_empty value)) key (JStr value).

(** The JSON of a [CreateRequest], field by field in declaration order;
    [HoldForCoordination] is tagged ["-"].  [available_at] is rendered from the
    instant alone, which is UTC after [NormalizeAvailableAt]. *)
Definition request_json (r : CreateRequest) : JSON :=
  JObj (str_field "organization_id" (create_OrganizationID r)
    ++ str_field "requested_by_role_id" (create_RequestedByRoleID r)
    ++ [("assigned_role_id"%string, JStr (create_AssignedRoleID r))]
    ++ str_field "task_class" (create_TaskClass r)
    ++ [("idempotency_key"%string, JStr (create_IdempotencyKey r));
        ("title"%string, JStr (create_Title r));
        ("instructions"%string, JStr (create_Instructions r));
        ("acceptance_criteria"%string, JArr (JStr <$> create_AcceptanceCriteria r))]
    ++ omitempty (negb (create_Priority r =? 0)) "priority" (JInt (create_Priority r))
    ++ match create_AvailableAt r with
       | Some t => [("available_at"%string, JTime t)]
       | None => []
       end
    ++ omitempty (negb (create_MaxAttempts r =? 0)) "max_attempts" (JInt (create_MaxAttempts r))
    ++ str_field "correlation_id" (create_CorrelationID r)
    ++ str_field "causation_id" (create_CausationID r)
    ++ omitempty (negb (bool_decide (create_Dependencies r = []))) "dependencies"
         (JArr (JInt <$> create_Dependencies r))
    ++ omitempty (negb (Nat.eqb (length (create_Requirements r)) 0)) "requirements"
         (JArr (spec_json <$> create_Requirements r))).

(** [time.Time.MarshalJSON] fails outside the years 0 to 9999. *)
Definition marshalable_time (t : Instant) : bool :=
  ((-62167219200000000) <=? t) && (t <? 253402300800000000).

Definition HashCreateRequest (r : CreateRequest) : res string :=
  check? rejectIf (negb (null_or marshalable_time (create_AvailableAt r))) ErrInternal in
  Ok (env_sha256_hex (env_json_marshal (request_json r))).

Definition without_class (r : CreateRequest) : CreateRequest :=
  mkCreateRequest (create_OrganizationID r) (create_RequestedByRoleID r)
    (create_AssignedRoleID r) "" (create_IdempotencyKey r) (create_Title r)
    (create_Instructions r) (create_AcceptanceCriteria r) (create_Priority r)
    (create_AvailableAt r) (create_MaxAttempts r) (create_CorrelationID r)
    (create_CausationID r) (create_Dependencies r) (create_Requirements r)
    (create_HoldForCoordination r).

Definition HashCreateRequestLegacy (r : CreateRequest) : res string :=
  HashCreateRequest (without_class r).

(** ** create.go *)

Definition with_key (organization key : string) (t : Task) : bool :=
  bool_decide (task_OrganizationID t = organization)
  && bool_decide (task_IdempotencyKey t = key).

(** The row an insert writes: a fresh id, the columns' defaults, and the
    request. *)
Definition new_task (id : Z) (now available : Instant) (input : PreparedCreate) : Task :=
  let r := prepared_Request input in
  mkTask id (create_OrganizationID r) (prepared_OrganizationRevisionID input)
    (nullableString (create_RequestedByRoleID r)) (create_AssignedRoleID r)
    (prepared_AssignedUnitID input) (prepared_TaskClass input) (create_IdempotencyKey r)
    (prepared_RequestHash input) (create_Title r) (create_Instructions r)
    (create_AcceptanceCriteria r) (prepared_InitialStatus input) (create_Priority r) available
    (create_MaxAttempts r) 0 1 (nullableString (create_CorrelationID r))
    (nullableString (create_CausationID r))
    (nullableString (prepared_InitialStatusReasonCode input))
    (nullableString (prepared_InitialStatusReason input)) now now None.

(** [INSERT INTO tasks ... ON CONFLICT (organization_id, idempotency_key) DO
    NOTHING RETURNING ...]: the CHECK constraints are evaluated first. *)
Definition insert_task_if_new (input : PreparedCreate) : M (option Task) :=
  let r := prepared_Request input in
  let! now := transaction_now in
  let! clock := clock_timestamp in
  let! id := nextval TTasks in
  let row := new_task id now (default clock (create_AvailableAt r)) input in
  let! d := get_db in
  do! throwIf (negb (tasks_check row)) check_violation in
  match rows (with_key (create_OrganizationID r) (create_IdempotencyKey r)) (db_tasks d) with
  | _ :: _ => ret None
  | [] => let! inserted := insert_task row in ret (Some inserted)
  end.

(** The row that already has the idempotency key: the same request, a request
    from before task classes that this one extends, or a conflict. *)
Definition reuse_existing (input : PreparedCreate) (existing : Task) : M (Task * bool) :=
  if bool_decide (task_RequestHash existing = prepared_RequestHash input)
  then ret (existing, false)
  else
    let! legacyHash := lift (HashCreateRequestLegacy (prepared_Request input)) in
    do! throwIf (negb (bool_decide (task_RequestHash existing = legacyHash)))
          ErrIdempotencyConflict in
    if prepared_TaskClassExplicit input then
      if bool_decide (task_TaskClass existing = TaskClassLegacyUnspecified) then
        let! bound := update_task (task_ID existing)
          (fun t => bool_decide (task_TaskClass t = TaskClassLegacyUnspecified))
          (task_classified (create_TaskClass (prepared_Request input))) in
        match bound with
        | Some row => ret (row, false)
        | None => throw (mapError NoRows)
        end
      else
        do! throwIf (negb (bool_decide (create_TaskClass (prepared_Request input)
                                        = task_TaskClass existing)))
              ErrIdempotencyConflict in
        ret (existing, false)
    else ret (existing, false).

(** [INSERT INTO task_dependencies] without a conflict clause. *)
Definition insert_dependency (task dep : Z) : M unit :=
  let! d := get_db in
  do! throwIf (task =? dep) check_violation in
  do! throwIf (bool_decide ((task, dep) ∈ db_dependencies d)) unique_violation in
  modify (set_dependencies (db_dependencies d ++ [(task, dep)])).

Definition create_dependency (inserted : Task) (_ : unit) (dependencyID : Z) : M unit :=
  let! dependency := select_task dependencyID in
  do! throwIf (negb (bool_decide (task_OrganizationID dependency
                                  = task_OrganizationID inserted))) ErrConflict in
  insert_dependency (task_ID inserted) dependencyID.

Definition create_requirement (inserted : Task) (_ : unit) (spec : RequirementSpec) : M unit :=
  let! now := transaction_now in
  let! id := nextval TRequirements in
  do! insert_requirement (new_requirement id (task_ID inserted) spec now) in
  ret tt.

Definition createInTx (input : PreparedCreate) : M (Task * bool) :=
  let r := prepared_Request input in
  let! maybe := insert_task_if_new input in
  match maybe with
  | None =>
      let! d := get_db in
      match rows (with_key (create_OrganizationID r) (create_IdempotencyKey r)) (db_tasks d) with
      | existing :: _ => reuse_existing input existing
      | [] => throw (mapError NoRows)
      end
  | Some inserted =>
      do! foldM (create_dependency inserted) tt (create_Dependencies r) in
      do! foldM (create_requirement inserted) tt (create_Requirements r) in
      do! appendTaskEvent inserted None (Some (task_Status inserted)) "task.created"
            (prepared_ActorType input) (prepared_ActorID input)
            (<["assigned_role_id"%string := JStr (task_AssignedRoleID inserted)]>
              {["organization_revision_id"%string
                  := JInt (task_OrganizationRevisionID inserted)]})
            (prepared_OutboxMaxAttempts input) in
      ret (inserted, true)
  end.

Definition Create (input : PreparedCreate) : M (Task * bool) := withTx (createInTx input).

(** ** redrive.go *)

Definition recoveryChainDepthCap : nat := 1000.

(** One round of the recursive query: the dead letters whose successor is one
    of [tasks]. *)
Definition prior_letters (tasks : list Z) (t : gmap Z DeadLetter) : list DeadLetter :=
  rows (fun l => match dead_RedriveTaskID l with
                 | Some s => bool_decide (s ∈ tasks)
                 | None => false
                 end) t.

(** [COALESCE(MAX(depth),0)] of the chain, [fuel] rounds at most. *)
Fixpoint chain_depth (fuel : nat) (tasks : list Z) (t : gmap Z DeadLetter) : Z :=
  match fuel with
  | O => 0
  | S fuel' =>
      match prior_letters tasks t with
      | [] => 0
      | prior => 1 + chain_depth fuel' (dead_TaskID <$> prior) t
      end
  end.

Definition recoveryChainDepth (deadLetterID : Z) : M Z :=
  let! d := get_db in
  match db_dead_letters d !! deadLetterID with
  | Some l => ret (chain_depth recoveryChainDepthCap [dead_TaskID l] (db_dead_letters d))
  | None => ret 0
  end.

(** [SET redriven_at, redrive_task_id] *)
Definition dead_redriven (now : Instant) (successor : Z) (l : DeadLetter) : DeadLetter :=
  mkDeadLetter (dead_ID l) (dead_TaskID l) (dead_AttemptID l) (dead_ReasonCode l)
    (dead_Reason l) (dead_AttemptCount l) (dead_CreatedAt l) (Some now) (Some successor).

Definition stamp_dead_letter (id successor : Z) : M Z :=
  let! now := clock_timestamp in
  let! d := get_db in
  match db_dead_letters d !! id with
  | Some l =>
      if is_some (dead_RedriveTaskID l) then ret 0
      else
        do! throwIf (negb (dead_letters_check (dead_redriven now successor l)))
              check_violation in
        do! modify (set_dead_letters (<[id := dead_redriven now successor l]>
                                        (db_dead_letters d))) in
        ret 1
  | None => ret 0
  end.

Definition recovery_payload (input : PreparedRedrive) (key : string) (task episode : Z)
    : Payload :=
  <["dead_letter_id"%string := JInt (predrive_DeadLetterID input)]>
    (<[key := JInt task]>
      (<["recovery_episode"%string := JInt episode]>
        {["observed_change"%string := JStr (predrive_ObservedChange input)]})).

Definition Redrive_tx (input : PreparedRedrive) : M RedriveResult :=
  let! d := get_db in
  match db_dead_letters d !! predrive_DeadLetterID input with
  | None => throw (mapError NoRows)
  | Some letter =>
      let failedTaskID := dead_TaskID letter in
      let! priorEpisodes := recoveryChainDepth (predrive_DeadLetterID input) in
      let episode := priorEpisodes + 1 in
      match dead_RedriveTaskID letter with
      | Some successor =>
          let! existing := select_task successor in
          ret (mkRedriveResult existing false episode)
      | None =>
          do! throwIf (predrive_MaxRecoveryEpisodes input <? episode)
                ErrRecoveryEpisodesExhausted in
          let! created := createInTx (predrive_Successor input) in
          do! throwIf (negb (snd created)) ErrSuccessorIdentityTaken in
          let! stamped := stamp_dead_letter (predrive_DeadLetterID input)
                            (task_ID (fst created)) in
          do! throwIf (negb (stamped =? 1)) ErrConflict in
          do! appendTaskEvent (fst created) None None "task.recovery_successor_created"
                (predrive_ActorType input) (predrive_ActorID input)
                (recovery_payload input "recovered_task_id" failedTaskID episode)
                (predrive_OutboxMaxAttempts input) in
          let! d := get_db in
          match db_tasks d !! failedTaskID with
          | None => throw ErrConflict
          | Some failed =>
              do! appendTaskEvent failed None None "task.recovery_successor_opened"
                    (predrive_ActorType input) (predrive_ActorID input)
                    (recovery_payload input "successor_task_id" (task_ID (fst created)) episode)
                    (predrive_OutboxMaxAttempts input) in
              ret (mkRedriveResult (fst created) true episode)
          end
      end
  end.

Definition Redrive (input : PreparedRedrive) : M RedriveResult := withTx (Redrive_tx input).

End Create.
