(* ===== verification/StoreQueue.v ===== *)
(** * Claiming and running tasks in the PostgreSQL task store

    internal/tasks/postgres/queue.go, specific_claim.go and
    lease_verification.go. *)

From stdpp Require Import base tactics list gmap strings sorting.
From Stdlib Require Import ZArith Lia.
From S2P Require Import Prelude GoLib TaskDomain Database StoreHelpers.

Local Open Scope Z_scope.

Section Queue.
Context `{Env}.

(** ** Claiming

    [locked] are the ids of the tasks other transactions hold locked when the
    claim query runs. *)

(** The columns' part of the claim query's WHERE clause. *)
Definition claimable (request : ClaimRequest) (now : Instant) (t : Task) : bool :=
  bool_decide (task_OrganizationID t = claim_OrganizationID request)
  && bool_decide (task_Status t = StatusReady)
  && (task_AttemptCount t <? task_MaxAttempts t)
  && (task_AvailableAt t <=? now)
  && (is_empty (claim_AssignedRoleID request)
      || bool_decide (task_AssignedRoleID t = claim_AssignedRoleID request)).

(** [ORDER BY priority DESC, available_at ASC, created_at ASC, id ASC] *)
Definition claim_before (x y : Task) : bool :=
  if task_Priority x =? task_Priority y then
    if task_AvailableAt x =? task_AvailableAt y then
      if task_CreatedAt x =? task_CreatedAt y then task_ID x <=? task_ID y
      else task_CreatedAt x <? task_CreatedAt y
    else task_AvailableAt x <? task_AvailableAt y
  else task_Priority y <? task_Priority x.

(** [AND NOT blockingAncestorPredicate]: an error of the predicate on any row
    fails the query. *)
Fixpoint keep_unblocked (d : DB) (l : list Task) : res (list Task) :=
  match l with
  | [] => Ok []
  | t :: rest =>
      let? blocked := blockingAncestorPredicate d t in
      let? kept := keep_unblocked d rest in
      Ok (if blocked then kept else t :: kept)
  end.

Definition claim_candidates (request : ClaimRequest) (locked : list Z) : M (list Task) :=
  let! d := get_db in
  let! now := clock_timestamp in
  let! kept := lift (keep_unblocked d (rows (claimable request now) (db_tasks d))) in
  ret (skip_locked_limit task_ID locked (claim_BatchSize request) (order_by claim_before kept)).

Definition ids_payload (attemptID leaseID : Z) : Payload :=
  <["attempt_id"%string := JInt attemptID]> {["lease_id"%string := JInt leaseID]}.

Definition attempt_payload (attemptID : Z) : Payload :=
  {["attempt_id"%string := JInt attemptID]}.

Definition claimOne (task : Task) (request : ClaimRequest) (outboxMaxAttempts : Z)
    : M ClaimedTask :=
  let! token := newToken in
  let ordinal := task_AttemptCount task + 1 in
  let! now := transaction_now in
  let! attemptID := nextval TAttempts in
  let! attempt := insert_attempt
    (mkAttempt attemptID (task_ID task) ordinal AttemptLeased (claim_WorkerID request) None None
       None now None None now now) in
  let! clock := clock_timestamp in
  let! leaseID := nextval TLeases in
  let! lease := insert_lease
    (mkLeaseRow
       (mkLease leaseID (task_ID task) (attempt_ID attempt) (LeaseHolder request) LeaseActive
          now now (clock + env_make_interval (claim_LeaseDuration request)) None None)
       (snd token)) in
  do! update_task (task_ID task) (fun _ => true) (task_counted ordinal) in
  let task := task_counted ordinal task in
  let! updated := transitionTask task StatusLeased "task.claimed" "" "" "worker"
    (claim_WorkerID request) (ids_payload (attempt_ID attempt) (lease_ID (row_Lease lease)))
    outboxMaxAttempts in
  ret (mkClaimedTask updated attempt (row_Lease lease) (fst token)).

(** A task whose pool has no capacity is blocked until [RetryAt]. *)
Definition block_for_capacity (task : Task) (capCheck : CapacityCheck) (outboxMaxAttempts : Z)
    : M unit :=
  let! blocked := transitionTask task StatusBlocked "task.blocked" "capacity"
    (capacity_Reason capCheck) "system" "orgd-reconciler" ∅ outboxMaxAttempts in
  if IsZero (capacity_RetryAt capCheck) then ret tt
  else
    do! update_task (task_ID blocked) (fun _ => true)
          (task_deferred (capacity_RetryAt capCheck)) in
    ret tt.

Definition block_for_assignee (task : Task) (check : AssigneeCheck) (outboxMaxAttempts : Z)
    : M unit :=
  do! transitionTask task StatusBlocked "task.blocked" "assignee_unavailable"
        (assignee_Reason check) "system" "orgd-reconciler" ∅ outboxMaxAttempts in
  ret tt.

(** One turn of the claim loop. *)
Definition claim_candidate (request : ClaimRequest) (validate : AssigneeValidator)
    (checkCapacity : CapacityValidator) (outboxMaxAttempts : Z)
    (claimed : list ClaimedTask) (candidate : Task) : M (list ClaimedTask) :=
  let! blocked := blockingAncestor candidate in
  if is_some blocked then ret claimed
  else
    let! check := lift (validate candidate) in
    if negb (assignee_Available check) then
      do! block_for_assignee candidate check outboxMaxAttempts in ret claimed
    else
      let! capCheck := lift (checkCapacity candidate) in
      if negb (capacity_Available capCheck) then
        do! block_for_capacity candidate capCheck outboxMaxAttempts in ret claimed
      else
        let! item := claimOne candidate request outboxMaxAttempts in
        ret (claimed ++ [item]).

Definition Claim_tx (request : ClaimRequest) (locked : list Z) (validate : AssigneeValidator)
    (checkCapacity : CapacityValidator) (outboxMaxAttempts : Z) : M (list ClaimedTask) :=
  let! candidates := claim_candidates request locked in
  foldM (claim_candidate request validate checkCapacity outboxMaxAttempts) [] candidates.

Definition Claim (request : ClaimRequest) (locked : list Z) (validate : AssigneeValidator)
    (checkCapacity : CapacityValidator) (outboxMaxAttempts : Z) : M (list ClaimedTask) :=
  withTx (Claim_tx request locked validate checkCapacity outboxMaxAttempts).

(** specific_claim.go: a value [Err e] of the transaction is [blockedErr], the
    error reported once the transaction has committed. *)
Definition ClaimSpecific_tx (taskID : Z) (request : ClaimRequest) (locked : list Z)
    (validate : AssigneeValidator) (checkCapacity : CapacityValidator) (outboxMaxAttempts : Z)
    : M (res ClaimedTask) :=
  let! d := get_db in
  let! now := clock_timestamp in
  match db_tasks d !! taskID with
  | None => throw (mapError NoRows)
  | Some task =>
      do! throwIf (negb (claimable request now task) || bool_decide (taskID ∈ locked))
            (mapError NoRows) in
      let! blocked := blockingAncestor task in
      match blocked with
      | Some block => throw (ErrAncestorBlocked block)
      | None =>
          let! check := lift (validate task) in
          if negb (assignee_Available check) then
            do! block_for_assignee task check outboxMaxAttempts in
            ret (Err ErrAssigneeUnavailable)
          else
            let! capCheck := lift (checkCapacity task) in
            if negb (capacity_Available capCheck) then
              do! block_for_capacity task capCheck outboxMaxAttempts in
              ret (Err ErrNoCapacity)
            else
              let! item := claimOne task request outboxMaxAttempts in
              ret (Ok item)
      end
  end.

Definition ClaimSpecific (taskID : Z) (request : ClaimRequest) (locked : list Z)
    (validate : AssigneeValidator) (checkCapacity : CapacityValidator) (outboxMaxAttempts : Z)
    : M ClaimedTask :=
  let! claimed := withTx (ClaimSpecific_tx taskID request locked validate checkCapacity
                            outboxMaxAttempts) in
  lift claimed.

(** ** Running an attempt *)

Definition StartAttempt_tx (command : LeaseCommand) (outboxMaxAttempts : Z) : M Task :=
  let! task := lockTask (lcmd_TaskID command) in
  do! throwIf (negb (bool_decide (task_Status task = StatusLeased))) ErrInvalidTransition in
  let! lease := verifyLease command in
  do! throwIf (negb (bool_decide (lease_HolderID (record_Lease lease) = lcmd_ActorID command)))
        ErrLeaseMismatch in
  let! started := clock_timestamp in
  let! updated := clock_timestamp in
  let! affected := update_attempt (lcmd_AttemptID command)
    (fun a => (attempt_TaskID a =? lcmd_TaskID command)
              && bool_decide (attempt_State a = AttemptLeased))
    (attempt_started started updated) in
  do! throwIf (negb (affected =? 1)) ErrInvalidTransition in
  transitionTask task StatusRunning "task.attempt_started" "" "" "worker" (lcmd_ActorID command)
    (attempt_payload (lcmd_AttemptID command)) outboxMaxAttempts.

Definition StartAttempt (command : LeaseCommand) (outboxMaxAttempts : Z) : M Task :=
  withTx (StartAttempt_tx command outboxMaxAttempts).

Definition Heartbeat_tx (command : LeaseCommand) (maxLeaseDuration : Duration) : M Lease :=
  let! task := lockTask (lcmd_TaskID command) in
  do! throwIf (negb (bool_decide (task_Status task = StatusLeased))
               && negb (bool_decide (task_Status task = StatusRunning))) ErrInvalidTransition in
  let! lease := verifyLease command in
  do! throwIf (negb (bool_decide (lease_HolderID (record_Lease lease) = lcmd_ActorID command)))
        ErrLeaseMismatch in
  let extension := if maxLeaseDuration <? lcmd_Extension command then maxLeaseDuration
                   else lcmd_Extension command in
  let! heartbeat := clock_timestamp in
  let! clock := clock_timestamp in
  let! updated := update_leases
    (fun r => (lease_ID (row_Lease r) =? lease_ID (record_Lease lease))
              && lease_of (lcmd_TaskID command) (lcmd_AttemptID command) r && lease_active r)
    (lease_extended heartbeat (clock + env_make_interval extension)) in
  match updated with
  | r :: _ => ret (row_Lease r)
  | [] => throw (mapError NoRows)
  end.

Definition Heartbeat (command : LeaseCommand) (maxLeaseDuration : Duration) : M Lease :=
  withTx (Heartbeat_tx command maxLeaseDuration).

Definition failureReason (result : AttemptResult) : string :=
  if negb (is_empty (result_Summary result)) then result_Summary result
  else if negb (is_empty (result_FailureCode result)) then result_FailureCode result
  else AttemptOutcomeString (result_Outcome result).

Definition finishAttempt (command : RecordAttemptResultCommand) (state : AttemptState)
    (retryable : bool) (releaseReason : string) : M unit :=
  let lease := rcmd_LeaseCommand command in
  let! finished := clock_timestamp in
  let! updated := clock_timestamp in
  let! affected := update_attempt (lcmd_AttemptID lease)
    (fun a => (attempt_TaskID a =? lcmd_TaskID lease)
              && bool_decide (attempt_State a = AttemptRunning))
    (attempt_ended state (nullif_empty (result_Summary (rcmd_Result command)))
       (nullif_empty (result_FailureCode (rcmd_Result command))) (Some retryable) finished
       updated) in
  do! throwIf (negb (affected =? 1)) ErrInvalidTransition in
  let! released := clock_timestamp in
  let! closed := update_leases
    (fun r => lease_of (lcmd_TaskID lease) (lcmd_AttemptID lease) r && lease_active r)
    (lease_closed LeaseReleased releaseReason released) in
  throwIf (negb (Z.of_nat (length closed) =? 1)) ErrLeaseExpired.

Definition new_dead_letter (id taskID attemptID : Z) (reasonCode reason : string)
    (attemptCount : Z) (now : Instant) : DeadLetter :=
  mkDeadLetter id taskID (Some attemptID) reasonCode reason attemptCount now None None.

(** [INSERT INTO task_dead_letters(...)]: [task_id] is unique. *)
Definition insert_dead_letter (taskID attemptID : Z) (reasonCode reason : string)
    (attemptCount : Z) : M unit :=
  let! now := transaction_now in
  let! id := nextval TDeadLetters in
  let row := new_dead_letter id taskID attemptID reasonCode reason attemptCount now in
  let! d := get_db in
  do! throwIf (negb (dead_letters_check row)) check_violation in
  do! throwIf (bool_decide (rows (fun l => dead_TaskID l =? taskID) (db_dead_letters d) ≠ []))
        unique_violation in
  do! throwIf (taken (db_dead_letters d) id) unique_violation in
  modify (set_dead_letters (<[id := row]> (db_dead_letters d))).

Definition retry_payload (attemptID : Z) (delay : Duration) : Payload :=
  <["retry_delay_seconds"%string := JSeconds delay]> (attempt_payload attemptID).

(** [UPDATE tasks SET available_at=clock_timestamp()+make_interval(secs=>delay)] *)
Definition defer_task (task : Task) (delay : Duration) : M unit :=
  let! clock := clock_timestamp in
  do! update_task (task_ID task) (fun _ => true)
        (task_deferred (clock + env_make_interval delay)) in
  ret tt.

Definition RecordAttemptResult_tx (command : RecordAttemptResultCommand) (policy : RetryPolicy)
    (outboxMaxAttempts : Z) : M Task :=
  let lcmd := rcmd_LeaseCommand command in
  let result := rcmd_Result command in
  let! task := lockTask (lcmd_TaskID lcmd) in
  do! throwIf (negb (bool_decide (task_Status task = StatusRunning))) ErrInvalidTransition in
  let! lease := verifyLease lcmd in
  do! throwIf (negb (bool_decide (lease_HolderID (record_Lease lease) = lcmd_ActorID lcmd)))
        ErrLeaseMismatch in
  match result_Outcome result with
  | OutcomeSucceeded =>
      do! finishAttempt command AttemptFinished false "finished" in
      transitionTask task StatusAwaitingVerification "task.attempt_finished" "" "" "worker"
        (lcmd_ActorID lcmd) (attempt_payload (lcmd_AttemptID lcmd)) outboxMaxAttempts
  | OutcomeRetryableFailure =>
      do! finishAttempt command AttemptFailed true "retryable_failure" in
      if task_MaxAttempts task <=? task_AttemptCount task then
        do! insert_dead_letter (task_ID task) (lcmd_AttemptID lcmd) (result_FailureCode result)
              (failureReason result) (task_AttemptCount task) in
        transitionTask task StatusDeadLetter "task.dead_lettered" (result_FailureCode result)
          (failureReason result) "worker" (lcmd_ActorID lcmd)
          (attempt_payload (lcmd_AttemptID lcmd)) outboxMaxAttempts
      else
        let delay := Delay policy (task_AttemptCount task) in
        do! defer_task task delay in
        transitionTask task StatusRetryWait "task.retry_scheduled" (result_FailureCode result)
          (failureReason result) "worker" (lcmd_ActorID lcmd)
          (retry_payload (lcmd_AttemptID lcmd) delay) outboxMaxAttempts
  | OutcomeNonRetryableFailure =>
      do! finishAttempt command AttemptFailed false "non_retryable_failure" in
      transitionTask task StatusFailed "task.failed" (result_FailureCode result)
        (failureReason result) "worker" (lcmd_ActorID lcmd)
        (attempt_payload (lcmd_AttemptID lcmd)) outboxMaxAttempts
  | OutcomeCancelled =>
      do! finishAttempt command AttemptCancelled false "cancelled" in
      transitionTask task StatusCancelled "task.cancelled" "attempt_cancelled"
        (failureReason result) "worker" (lcmd_ActorID lcmd)
        (attempt_payload (lcmd_AttemptID lcmd)) outboxMaxAttempts
  | OutcomeOther _ => throw ErrInvalidInput
  end.

Definition RecordAttemptResult (command : RecordAttemptResultCommand) (policy : RetryPolicy)
    (outboxMaxAttempts : Z) : M Task :=
  withTx (RecordAttemptResult_tx command policy outboxMaxAttempts).

(** ** lease_verification.go *)

(** The join of the task, the attempt and an active, unexpired lease that
    carries the command's holder and token. *)
Definition execution_lease (command : VerifyExecutionLeaseCommand) (now : Instant) (d : DB)
    (r : LeaseRow) : option ExecutionLeaseContext :=
  match db_tasks d !! vlease_TaskID command, db_attempts d !! vlease_AttemptID command with
  | Some t, Some a =>
      let l := row_Lease r in
      if (attempt_TaskID a =? task_ID t) && (lease_TaskID l =? task_ID t)
         && (lease_AttemptID l =? attempt_ID a)
         && bool_decide (task_Status t = StatusRunning)
         && bool_decide (attempt_State a = AttemptRunning)
         && lease_active r
         && bool_decide (lease_HolderID l = vlease_HolderID command)
         && bool_decide (row_TokenHash r = hashToken (vlease_LeaseToken command))
         && (now <? lease_ExpiresAt l)
      then Some (mkExecutionLeaseContext (task_ID t) (attempt_ID a) (task_OrganizationID t)
             (task_OrganizationRevisionID t) (task_AssignedRoleID t) (task_AssignedUnitID t)
             (task_Status t) (attempt_State a) (lease_HolderID l) (lease_ExpiresAt l))
      else None
  | _, _ => None
  end.

Definition VerifyActiveExecutionLease (command : VerifyExecutionLeaseCommand)
    : M ExecutionLeaseContext :=
  do! throwIf ((vlease_TaskID command <=? 0) || (vlease_AttemptID command <=? 0)
               || is_empty (TrimSpace (vlease_HolderID command))) ErrInvalidInput in
  do! throwIf (is_empty (TrimSpace (vlease_LeaseToken command))) ErrLeaseMismatch in
  let! d := get_db in
  let! now := clock_timestamp in
  match omap (execution_lease command now d) (rows (fun _ => true) (db_leases d)) with
  | found :: _ => ret found
  | [] => throw ErrLeaseMismatch
  end.

End Queue.
