(* ===== verification/StoreOutbox.v ===== *)
(** * The transactional outbox of the PostgreSQL task store

    internal/tasks/postgres/outbox.go. *)

From stdpp Require Import base tactics list gmap strings sorting.
From Stdlib Require Import ZArith Lia.
From S2P Require Import Prelude GoLib TaskDomain Database StoreHelpers.

Local Open Scope Z_scope.

(** ** Row updates *)

Definition outbox_claimed (hash consumer : string) (expires updated : Instant) (r : OutboxRow)
    : OutboxRow :=
  let o := row_Outbox r in
  mkOutboxRow
    (mkOutboxEvent (outbox_ID o) (outbox_AggregateType o) (outbox_AggregateID o)
       (outbox_EventType o) (outbox_SchemaVersion o) (outbox_Payload o) OutboxClaimed
       (outbox_AvailableAt o) (outbox_AttemptCount o + 1) (outbox_MaxAttempts o)
       (Some consumer) (Some expires) (outbox_LastError o) (outbox_CreatedAt o) updated
       (outbox_PublishedAt o))
    (Some hash).

Definition outbox_published (published updated : Instant) (r : OutboxRow) : OutboxRow :=
  let o := row_Outbox r in
  mkOutboxRow
    (mkOutboxEvent (outbox_ID o) (outbox_AggregateType o) (outbox_AggregateID o)
       (outbox_EventType o) (outbox_SchemaVersion o) (outbox_Payload o) OutboxPublished
       (outbox_AvailableAt o) (outbox_AttemptCount o) (outbox_MaxAttempts o)
       None None None (outbox_CreatedAt o) updated (Some published))
    None.

(** The claim is dropped with an error; the row waits again or is dead. *)
Definition outbox_returned (status : OutboxStatus) (lastError : string)
    (available updated : Instant) (r : OutboxRow) : OutboxRow :=
  let o := row_Outbox r in
  mkOutboxRow
    (mkOutboxEvent (outbox_ID o) (outbox_AggregateType o) (outbox_AggregateID o)
       (outbox_EventType o) (outbox_SchemaVersion o) (outbox_Payload o) status
       available (outbox_AttemptCount o) (outbox_MaxAttempts o)
       None None (Some lastError) (outbox_CreatedAt o) updated (outbox_PublishedAt o))
    None.

Definition outbox_is (s : OutboxStatus) (r : OutboxRow) : bool :=
  bool_decide (outbox_Status (row_Outbox r) = s).

(** Dead once the attempts are used up. *)
Definition outbox_after_failure (o : OutboxEvent) : OutboxStatus :=
  if outbox_MaxAttempts o <=? outbox_AttemptCount o then OutboxDead else OutboxPending.

(** [LEAST(600, 5*power(2, GREATEST(attempt_count-1, 0)))] seconds, in
    microseconds. *)
Definition outbox_backoff (attemptCount : Z) : Z :=
  Z.min 600 (5 * 2 ^ (Z.max (attemptCount - 1) 0)) * 1000000.

Section Outbox.
Context `{Env}.

(** ** Claim, acknowledge, reject *)

Definition outbox_claim_before (x y : OutboxRow) : bool :=
  let x := row_Outbox x in
  let y := row_Outbox y in
  if outbox_AvailableAt x =? outbox_AvailableAt y then
    if outbox_CreatedAt x =? outbox_CreatedAt y then outbox_ID x <=? outbox_ID y
    else outbox_CreatedAt x <? outbox_CreatedAt y
  else outbox_AvailableAt x <? outbox_AvailableAt y.

Definition row_id (r : OutboxRow) : Z := outbox_ID (row_Outbox r).

Definition claim_outbox_row (request : OutboxClaimRequest) (claimed : list ClaimedOutboxEvent)
    (id : Z) : M (list ClaimedOutboxEvent) :=
  let! token := newToken in
  let! clock := clock_timestamp in
  let! updated := clock_timestamp in
  let! row := update_outbox id (outbox_is OutboxPending)
    (outbox_claimed (snd token) (oclaim_ConsumerID request)
       (clock + env_make_interval (oclaim_ClaimDuration request)) updated) in
  match row with
  | None => throw (mapError NoRows)
  | Some r => ret (claimed ++ [mkClaimedOutboxEvent (row_Outbox r) (fst token)])
  end.

Definition ClaimOutbox_tx (request : OutboxClaimRequest) (locked : list Z)
    : M (list ClaimedOutboxEvent) :=
  let! d := get_db in
  let! now := clock_timestamp in
  let due := rows (fun r => outbox_is OutboxPending r
                            && (outbox_AvailableAt (row_Outbox r) <=? now)) (db_outbox d) in
  let picked := skip_locked_limit row_id locked (oclaim_BatchSize request)
                  (order_by outbox_claim_before due) in
  foldM (claim_outbox_row request) [] (row_id <$> picked).

Definition ClaimOutbox (request : OutboxClaimRequest) (locked : list Z)
    : M (list ClaimedOutboxEvent) := withTx (ClaimOutbox_tx request locked).

Definition lockOutbox (id : Z) : M (OutboxEvent * string * Instant) :=
  let! d := get_db in
  let! now := clock_timestamp in
  match db_outbox d !! id with
  | None => throw (mapError NoRows)
  | Some r => ret (row_Outbox r, default EmptyString (row_ClaimTokenHash r), now)
  end.

Definition verifyOutboxClaim (record : OutboxEvent) (tokenHash : string) (now : Instant)
    (disposition : OutboxDisposition) : res unit :=
  check? rejectIf (negb (bool_decide (outbox_Status record = OutboxClaimed))) ErrLeaseMismatch in
  match outbox_ClaimedBy record, outbox_ClaimExpiresAt record with
  | Some consumer, Some expires =>
      check? rejectIf (negb (bool_decide (consumer = disp_ConsumerID disposition)))
               ErrLeaseMismatch in
      check? rejectIf (negb (bool_decide (tokenHash = hashToken (disp_ClaimToken disposition))))
               ErrLeaseMismatch in
      rejectIf (negb (now <? expires)) ErrLeaseExpired
  | _, _ => Err ErrLeaseMismatch
  end.

Definition AckOutbox_tx (disposition : OutboxDisposition) : M unit :=
  let! row := lockOutbox (disp_EventID disposition) in
  let '(record, hash, now) := row in
  do! lift (verifyOutboxClaim record hash now disposition) in
  let! published := clock_timestamp in
  let! updated := clock_timestamp in
  let! row := update_outbox (disp_EventID disposition) (outbox_is OutboxClaimed)
    (outbox_published published updated) in
  throwIf (negb (is_some row)) ErrConflict.

Definition AckOutbox (disposition : OutboxDisposition) : M unit :=
  withTx (AckOutbox_tx disposition).

Definition NackOutbox_tx (disposition : OutboxDisposition) : M unit :=
  let! row := lockOutbox (disp_EventID disposition) in
  let '(record, hash, now) := row in
  do! lift (verifyOutboxClaim record hash now disposition) in
  let status := outbox_after_failure record in
  let! clock := clock_timestamp in
  let! updated := clock_timestamp in
  let! row := update_outbox (disp_EventID disposition) (outbox_is OutboxClaimed) (fun r =>
    outbox_returned status (disp_Error disposition)
      (if bool_decide (status = OutboxPending)
       then clock + outbox_backoff (outbox_AttemptCount (row_Outbox r))
       else outbox_AvailableAt (row_Outbox r))
      updated r) in
  throwIf (negb (is_some row)) ErrConflict.

Definition NackOutbox (disposition : OutboxDisposition) : M unit :=
  withTx (NackOutbox_tx disposition).

(** ** Recovery of expired claims *)

Definition expired_before (x y : OutboxRow) : bool :=
  let expires r := default 0 (outbox_ClaimExpiresAt (row_Outbox r)) in
  if expires x =? expires y then row_id x <=? row_id y else expires x <? expires y.

Definition claim_expired (now : Instant) (r : OutboxRow) : bool :=
  outbox_is OutboxClaimed r
  && match outbox_ClaimExpiresAt (row_Outbox r) with
     | Some e => e <=? now
     | None => false
     end.

Definition recover_row (_ : unit) (item : OutboxRow) : M unit :=
  let! available := clock_timestamp in
  let! updated := clock_timestamp in
  do! update_outbox (row_id item) (outbox_is OutboxClaimed)
        (outbox_returned (outbox_after_failure (row_Outbox item)) "claim_expired" available
           updated) in
  ret tt.

Definition recoverOutboxTx (batch : Z) (locked : list Z) : M Z :=
  let! d := get_db in
  let! now := clock_timestamp in
  let items := skip_locked_limit row_id locked batch
                 (order_by expired_before (rows (claim_expired now) (db_outbox d))) in
  do! foldM recover_row tt items in
  ret (Z.of_nat (length items)).

Definition RecoverOutbox (batch : Z) (locked : list Z) : M Z :=
  withTx (recoverOutboxTx batch locked).

(** ** Statistics and retention *)

Definition count_outbox (s : OutboxStatus) (d : DB) : Z :=
  Z.of_nat (length (rows (outbox_is s) (db_outbox d))).

Definition OutboxStats : M OutboxStats :=
  let! d := get_db in
  ret (mkOutboxStats (count_outbox OutboxPending d) (count_outbox OutboxClaimed d)
         (count_outbox OutboxPublished d) (count_outbox OutboxDead d)).

Definition prune_statuses (request : OutboxPruneRequest) : list OutboxStatus :=
  (if prune_IncludePublished request then [OutboxPublished] else [])
  ++ (if prune_IncludeDead request then [OutboxDead] else [])
  ++ (if prune_IncludePending request then [OutboxPending] else []).

(** [status = ANY($1) AND created_at <= clock_timestamp() - older] with
    [olderThan.Microseconds()], which truncates. *)
Definition prunable (request : OutboxPruneRequest) (now : Instant) (r : OutboxRow) : bool :=
  bool_decide (outbox_Status (row_Outbox r) ∈ prune_statuses request)
  && (outbox_CreatedAt (row_Outbox r) <=? now - Z.quot (prune_OlderThan request) 1000).

(** The counts per status, for the statuses that occur. *)
Definition by_status (statuses : list OutboxStatus) (l : list OutboxRow)
    : list (OutboxStatus * Z) :=
  filter (fun c => snd c ≠ 0)
    ((fun s => (s, Z.of_nat (length (filter (fun r => outbox_is s r = true) l)))) <$> statuses).

Definition prune_before (x y : OutboxRow) : bool :=
  if outbox_CreatedAt (row_Outbox x) =? outbox_CreatedAt (row_Outbox y)
  then row_id x <=? row_id y
  else outbox_CreatedAt (row_Outbox x) <? outbox_CreatedAt (row_Outbox y).

Definition prune_delete (request : OutboxPruneRequest) (locked : list Z) : M OutboxPruneResult :=
  let! d := get_db in
  let! now := clock_timestamp in
  let deleted := skip_locked_limit row_id locked (prune_Limit request)
                   (order_by prune_before (rows (prunable request now) (db_outbox d))) in
  do! modify (set_outbox (filter (fun kv => kv.1 ∉ (row_id <$> deleted)) (db_outbox d))) in
  let total := Z.of_nat (length deleted) in
  ret (mkOutboxPruneResult false total total (by_status (prune_statuses request) deleted)).

Definition PruneOutbox (request : OutboxPruneRequest) (locked : list Z) : M OutboxPruneResult :=
  match prune_statuses request with
  | [] => ret (mkOutboxPruneResult (prune_DryRun request) 0 0 [])
  | statuses =>
      if prune_DryRun request then
        let! d := get_db in
        let! now := clock_timestamp in
        let matched := rows (prunable request now) (db_outbox d) in
        ret (mkOutboxPruneResult true (Z.of_nat (length matched)) 0
               (by_status statuses matched))
      else withTx (prune_delete request locked)
  end.

End Outbox.
