(* ===== verification/StoreReconcile.v ===== *)
(** * Reconciliation in the PostgreSQL task store

    internal/tasks/postgres/reconcile.go: expired leases, expired outbox claims
    and the readiness of waiting tasks, one transaction. *)

From stdpp Require Import base tactics list gmap strings sorting.
From Stdlib Require Import ZArith Lia.
From S2P Require Import Prelude GoLib TaskDomain Database StoreHelpers StoreQueue StoreOutbox.

Local Open Scope Z_scope.

(** The rows other transactions hold locked, per table. *)
Record Locked : Type := mkLocked {
  locked_leases : list Z;
  locked_outbox : list Z;
  locked_tasks : list Z }.

Section Reconcile.
Context `{Env}.

(** ** Expired leases *)

Definition lease_expired (now : Instant) (r : LeaseRow) : bool :=
  lease_active r && (lease_ExpiresAt (row_Lease r) <=? now).

Definition expiry_before (x y : LeaseRow) : bool :=
  let x := row_Lease x in
  let y := row_Lease y in
  if lease_ExpiresAt x =? lease_ExpiresAt y then lease_ID x <=? lease_ID y
  else lease_ExpiresAt x <? lease_ExpiresAt y.

(** [INSERT INTO task_dead_letters ... ON CONFLICT (task_id) DO NOTHING] *)
Definition insert_dead_letter_ignore (taskID attemptID : Z) (reasonCode reason : string)
    (attemptCount : Z) : M unit :=
  let! now := transaction_now in
  let! id := nextval TDeadLetters in
  let row := new_dead_letter id taskID attemptID reasonCode reason attemptCount now in
  let! d := get_db in
  do! throwIf (negb (dead_letters_check row)) check_violation in
  match rows (fun l => dead_TaskID l =? taskID) (db_dead_letters d) with
  | _ :: _ => ret tt
  | [] =>
      do! throwIf (taken (db_dead_letters d) id) unique_violation in
      modify (set_dead_letters (<[id := row]> (db_dead_letters d)))
  end.

Definition attempt_lease_expired (finished updated : Instant) (a : Attempt) : Attempt :=
  attempt_ended AttemptLeaseExpired (attempt_ResultSummary a) (Some "lease_expired"%string)
    (Some true) finished updated a.

(** One turn of the loop over the expired leases. *)
Definition expire_lease (policy : RetryPolicy) (outboxMaxAttempts : Z) (_ : unit)
    (item : LeaseRow) : M unit :=
  let leaseID := lease_ID (row_Lease item) in
  let attemptID := lease_AttemptID (row_Lease item) in
  let! task := lockTask (lease_TaskID (row_Lease item)) in
  let! released := clock_timestamp in
  do! update_leases (fun r => (lease_ID (row_Lease r) =? leaseID) && lease_active r)
        (lease_closed LeaseExpired "lease_expired" released) in
  let! finished := clock_timestamp in
  let! updated := clock_timestamp in
  do! update_attempt attemptID attempt_live (attempt_lease_expired finished updated) in
  if negb (bool_decide (task_Status task = StatusLeased))
     && negb (bool_decide (task_Status task = StatusRunning)) then ret tt
  else if task_MaxAttempts task <=? task_AttemptCount task then
    do! insert_dead_letter_ignore (task_ID task) attemptID "lease_expired"
          "lease expired and maximum attempts were exhausted" (task_AttemptCount task) in
    do! transitionTask task StatusDeadLetter "task.dead_lettered" "lease_expired"
          "lease expired and maximum attempts were exhausted" "system" "orgd-reconciler"
          (attempt_payload attemptID) outboxMaxAttempts in
    ret tt
  else
    let delay := Delay policy (task_AttemptCount task) in
    do! defer_task task delay in
    do! transitionTask task StatusRetryWait "task.lease_expired" "lease_expired"
          "active task lease expired" "system" "orgd-reconciler"
          (retry_payload attemptID delay) outboxMaxAttempts in
    ret tt.

Definition reconcileExpiredLeases (batch : Z) (locked : list Z) (policy : RetryPolicy)
    (outboxMaxAttempts : Z) : M Z :=
  let! d := get_db in
  let! now := clock_timestamp in
  let items := skip_locked_limit (fun r => lease_ID (row_Lease r)) locked batch
                 (order_by expiry_before (rows (lease_expired now) (db_leases d))) in
  do! foldM (expire_lease policy outboxMaxAttempts) tt items in
  ret (Z.of_nat (length items)).

(** ** Readiness *)

(** The reasons the reconciler may lift. *)
Definition reconcilable_reason (code : string) : bool :=
  bool_decide (code ∈ ["dependency_unsatisfied"; "dependency_terminal";
                       "assignee_unavailable"; "capacity"]%string).

Definition reconcile_candidate (now : Instant) (t : Task) : bool :=
  (task_AvailableAt t <=? now)
  && (bool_decide (task_Status t = StatusPending)
      || bool_decide (task_Status t = StatusRetryWait)
      || (bool_decide (task_Status t = StatusBlocked)
          && match task_StatusReasonCode t with
             | Some code => reconcilable_reason code
             | None => false
             end)).

Definition reconcile_before (x y : Task) : bool :=
  if task_AvailableAt x =? task_AvailableAt y then
    if task_CreatedAt x =? task_CreatedAt y then task_ID x <=? task_ID y
    else task_CreatedAt x <? task_CreatedAt y
  else task_AvailableAt x <? task_AvailableAt y.

Definition updateBlockedReason (task : Task) (reasonCode reason : string) : M Task :=
  let! updatedAt := clock_timestamp in
  let! updated := update_task (task_ID task)
    (fun t => (task_Version t =? task_Version task)
              && bool_decide (task_Status t = StatusBlocked))
    (task_reblocked reasonCode reason updatedAt) in
  match updated with
  | None => throw ErrConflict
  | Some row => ret row
  end.

Definition reason_payload (code : string) : Payload := {["reason_code"%string := JStr code]}.

(** Blocks the task for [code], or renames the reason it is already blocked
    for; [false] when nothing changes. *)
Definition block_or_reblock (task : Task) (code reason eventType : string)
    (outboxMaxAttempts : Z) : M bool :=
  let changed := negb (bool_decide (task_Status task = StatusBlocked))
                 || negb (bool_decide (task_StatusReasonCode task = Some code)) in
  if changed then
    if bool_decide (task_Status task = StatusBlocked) then
      let! updated := updateBlockedReason task code reason in
      do! appendTaskEvent updated None None eventType "system" "orgd-reconciler"
            (reason_payload code) outboxMaxAttempts in
      ret true
    else
      do! transitionTask task StatusBlocked "task.blocked" code reason "system"
            "orgd-reconciler" ∅ outboxMaxAttempts in
      ret true
  else ret false.

(** promoted, blockedDependencies, blockedAssignees, blockedCapacity *)
Record Counters : Type := mkCounters {
  cnt_promoted : Z;
  cnt_dependencies : Z;
  cnt_assignees : Z;
  cnt_capacity : Z }.

Definition bump (b : bool) (n : Z) : Z := if b then n + 1 else n.

(** One turn of the readiness loop. *)
Definition reconcile_task (validate : AssigneeValidator) (checkCapacity : CapacityValidator)
    (outboxMaxAttempts : Z) (c : Counters) (task : Task) : M Counters :=
  let '(mkCounters promoted deps assignees capacity) := c in
  let! dependencies := inspectDependencies (task_ID task) in
  if inspect_TerminalFailure dependencies then
    let! changed := block_or_reblock task "dependency_terminal"
      "a dependency ended without completed status" "task.dependency_blocked"
      outboxMaxAttempts in
    ret (mkCounters promoted (bump changed deps) assignees capacity)
  else if inspect_Waiting dependencies then
    if bool_decide (task_Status task = StatusPending)
       || bool_decide (task_Status task = StatusBlocked) then ret c
    else
      do! transitionTask task StatusBlocked "task.blocked" "dependency_unsatisfied"
            "one or more dependencies are not completed" "system" "orgd-reconciler" ∅
            outboxMaxAttempts in
      ret (mkCounters promoted (deps + 1) assignees capacity)
  else
    let! check := lift (validate task) in
    if negb (assignee_Available check) then
      let! changed := block_or_reblock task "assignee_unavailable" (assignee_Reason check)
        "task.assignee_blocked" outboxMaxAttempts in
      ret (mkCounters promoted deps (bump changed assignees) capacity)
    else
      let! capCheck := lift (checkCapacity task) in
      if negb (capacity_Available capCheck) then
        do! block_or_reblock task "capacity" (capacity_Reason capCheck) "task.capacity_blocked"
              outboxMaxAttempts in
        do! (if IsZero (capacity_RetryAt capCheck) then ret None
             else update_task (task_ID task) (fun _ => true)
                    (task_deferred (capacity_RetryAt capCheck))) in
        ret (mkCounters promoted deps assignees (capacity + 1))
      else if task_MaxAttempts task <=? task_AttemptCount task then ret c
      else
        do! transitionTask task StatusReady "task.ready" "" "" "system" "orgd-reconciler" ∅
              outboxMaxAttempts in
        ret (mkCounters (promoted + 1) deps assignees capacity).

Definition reconcileTaskReadiness (batch : Z) (locked : list Z) (validate : AssigneeValidator)
    (checkCapacity : CapacityValidator) (outboxMaxAttempts : Z) : M Counters :=
  let! d := get_db in
  let! now := clock_timestamp in
  let candidates := skip_locked_limit task_ID locked batch
    (order_by reconcile_before (rows (reconcile_candidate now) (db_tasks d))) in
  foldM (reconcile_task validate checkCapacity outboxMaxAttempts) (mkCounters 0 0 0 0)
    candidates.

Definition Reconcile_tx (batch : Z) (locked : Locked) (validate : AssigneeValidator)
    (checkCapacity : CapacityValidator) (policy : RetryPolicy) (outboxMaxAttempts : Z)
    : M ReconcileResult :=
  let! expired := reconcileExpiredLeases batch (locked_leases locked) policy
    outboxMaxAttempts in
  let! recovered := recoverOutboxTx batch (locked_outbox locked) in
  let! c := reconcileTaskReadiness batch (locked_tasks locked) validate checkCapacity
    outboxMaxAttempts in
  ret (mkReconcileResult expired recovered (cnt_promoted c) (cnt_dependencies c)
         (cnt_assignees c) (cnt_capacity c)).

Definition Reconcile (batch : Z) (locked : Locked) (validate : AssigneeValidator)
    (checkCapacity : CapacityValidator) (policy : RetryPolicy) (outboxMaxAttempts : Z)
    : M ReconcileResult :=
  withTx (Reconcile_tx batch locked validate checkCapacity policy outboxMaxAttempts).

End Reconcile.
