(* ===== verification/StoreRead.v ===== *)
(** * Reads of the PostgreSQL task store

    internal/tasks/postgres/read.go.  A read takes no lock and runs outside a
    transaction; the queries of one call are modelled against one state. *)

From stdpp Require Import base tactics list gmap strings sorting.
From Stdlib Require Import ZArith Lia.
From S2P Require Import Prelude GoLib TaskDomain Database StoreHelpers.

Local Open Scope Z_scope.

(** [LIMIT n OFFSET m] *)
Definition page {A} (limit offset : Z) (l : list A) : list A :=
  take (Z.to_nat limit) (drop (Z.to_nat offset) l).

Definition by_id {A} (id : A -> Z) (x y : A) : bool := id x <=? id y.

(** [ORDER BY created_at DESC, id DESC] *)
Definition newest {A} (created id : A -> Z) (x y : A) : bool :=
  if created x =? created y then id y <=? id x else created y <? created x.

Section Read.
Context `{Env}.

(** ** The list queries *)

Definition listDependencyTasks (taskID : Z) (d : DB) : list Task :=
  order_by (by_id task_ID) (dependency_tasks taskID d).

Definition listRequirements (taskID : Z) (d : DB) : list Requirement :=
  order_by (by_id requirement_ID)
    (rows (fun r => requirement_TaskID r =? taskID) (db_requirements d)).

Definition listEvidence (taskID : Z) (d : DB) : list Evidence :=
  order_by (by_id evidence_ID) (rows (fun e => evidence_TaskID e =? taskID) (db_evidence d)).

Definition attempts_of (taskID : Z) (d : DB) : list Attempt :=
  order_by (by_id attempt_Ordinal)
    (rows (fun a => attempt_TaskID a =? taskID) (db_attempts d)).

Definition filter_matches (f : TaskFilter) (t : Task) : bool :=
  bool_decide (task_OrganizationID t = filter_OrganizationID f)
  && (bool_decide (filter_Statuses f = []) || bool_decide (task_Status t ∈ filter_Statuses f))
  && (is_empty (filter_AssignedRoleID f)
      || bool_decide (task_AssignedRoleID t = filter_AssignedRoleID f))
  && (is_empty (filter_AssignedUnitID f)
      || bool_decide (task_AssignedUnitID t = filter_AssignedUnitID f))
  && (is_empty (filter_CorrelationID f)
      || bool_decide (task_CorrelationID t = Some (filter_CorrelationID f))).

(** ** The methods *)

Definition GetTask (id : Z) : M TaskDetail :=
  let! d := get_db in
  match db_tasks d !! id with
  | None => throw (mapError NoRows)
  | Some task =>
      ret (mkTaskDetail task (listDependencyTasks id d) (listRequirements id d)
             (listEvidence id d) (attempts_of id d)
             (row_Lease <$> head (active_leases id d)))
  end.

Definition ListTasks (f : TaskFilter) : M (list Task) :=
  let! d := get_db in
  ret (page (filter_Limit f) (filter_Offset f)
         (order_by (newest task_CreatedAt task_ID) (rows (filter_matches f) (db_tasks d)))).

Definition ListEvents (taskID limit : Z) : M (list Event) :=
  let! d := get_db in
  ret (page limit 0 (order_by (by_id event_Sequence)
         (filter (fun e => event_TaskID e = taskID) (db_events d)))).

Definition ListAttempts (taskID : Z) : M (list Attempt) :=
  let! d := get_db in ret (attempts_of taskID d).

Definition ListAttemptsPage (taskID limit offset : Z) : M (list Attempt) :=
  let! d := get_db in ret (page limit offset (attempts_of taskID d)).

Definition ListDeadLetters (limit : Z) : M (list DeadLetter) :=
  let! d := get_db in
  ret (page limit 0 (order_by (newest dead_CreatedAt dead_ID)
         (rows (fun _ => true) (db_dead_letters d)))).

(** [WHERE redrive_task_id IS NULL] *)
Definition ListUnrecoveredDeadLetters (limit : Z) : M (list DeadLetter) :=
  let! d := get_db in
  ret (page limit 0 (order_by (newest dead_CreatedAt dead_ID)
         (rows (fun l => negb (is_some (dead_RedriveTaskID l))) (db_dead_letters d)))).

Definition GetDeadLetter (id : Z) : M DeadLetter :=
  let! d := get_db in
  match db_dead_letters d !! id with
  | Some l => ret l
  | None => throw (mapError NoRows)
  end.

End Read.

(** ** Ordered and paged results

    What ORDER BY, LIMIT and OFFSET give: a sorted permutation, determined by
    the keys when those are distinct. *)


(** ** Sorting *)

Section Order.
Context {A : Type} (le : A -> A -> bool).

(** A comparison that orders any two rows. *)
Class RowOrder : Prop := {
  row_total : forall x y, le x y = true \/ le y x = true;
  row_trans : forall x y z, le x y = true -> le y z = true -> le x z = true }.

Lemma order_by_sorted `{RowOrder} (l : list A) :
  StronglySorted (fun x y => le x y = true) (order_by le l).
Proof.
  unfold order_by. apply StronglySorted_merge_sort.
  - intros x y z. apply row_trans.
  - intros x y. destruct (row_total x y); auto.
Qed.

End Order.

#[export] Instance by_id_order {A} (id : A -> Z) : RowOrder (by_id id).
Proof. unfold by_id. split; intros; rewrite ?Z.leb_le in *; lia. Qed.

#[export] Instance newest_order {A} (created id : A -> Z) : RowOrder (newest created id).
Proof.
  unfold newest. split.
  - intros x y. destruct (created x =? created y) eqn:H1, (created y =? created x) eqn:H2; lia.
  - intros x y z.
    destruct (created x =? created y) eqn:H1, (created y =? created z) eqn:H2,
      (created x =? created z) eqn:H3; lia.
Qed.

Lemma order_by_length {A} (le : A -> A -> bool) (l : list A) : length (order_by le l) = length l.
Proof. by rewrite order_by_perm. Qed.

Lemma elem_of_order_by {A} (le : A -> A -> bool) (l : list A) (x : A) :
  x ∈ order_by le l <-> x ∈ l.
Proof. by rewrite order_by_perm. Qed.

(** A sublist of sorted rows is sorted. *)
Lemma StronglySorted_sublist {A} (R : relation A) (l k : list A) :
  sublist l k -> StronglySorted R k -> StronglySorted R l.
Proof.
  intros Hs. induction Hs as [|x l k Hs IH|x l k Hs IH]; intros Hk; [constructor| |].
  - apply StronglySorted_inv in Hk as [Hk Hx]. constructor; [auto|].
    rewrite Forall_forall in *. intros y Hy. apply Hx. by eapply sublist_subseteq in Hy.
  - apply StronglySorted_inv in Hk as [Hk _]. auto.
Qed.

(** ** Keys *)

Lemma StronglySorted_keys {A} (key : A -> Z) (l : list A) :
  StronglySorted (fun x y => by_id key x y = true) l -> StronglySorted Z.le (key <$> l).
Proof.
  induction 1 as [|x l Hl IH Hx]; simpl; constructor; [done|].
  apply Forall_fmap. eapply Forall_impl; [exact Hx|]. intros y. unfold by_id. simpl. lia.
Qed.

Lemma seqZ_sorted (m n : Z) : StronglySorted Z.le (seqZ m n).
Proof.
  destruct (decide (0 <= n)) as [Hn|Hn]; [|rewrite seqZ_nil by lia; constructor].
  revert m. pattern n. apply natlike_ind; [constructor| |done]. clear n Hn.
  intros n Hn IH m. rewrite seqZ_cons, Z.pred_succ by lia. constructor; [apply IH|].
  apply Forall_forall. intros z [? ?]%elem_of_seqZ. lia.
Qed.

(** Rows with the keys [m .. m+n-1], ordered by key. *)
Lemma order_by_seqZ {A} (key : A -> Z) (l : list A) (m n : Z) :
  NoDup (key <$> l) -> (forall z, z ∈ key <$> l <-> m <= z < m + n) ->
  key <$> order_by (by_id key) l = seqZ m n.
Proof.
  intros Hnd Hin. apply (StronglySorted_unique Z.le).
  - apply StronglySorted_keys, order_by_sorted. apply _.
  - apply seqZ_sorted.
  - rewrite order_by_perm. apply NoDup_Permutation; [done|apply NoDup_seqZ|].
    intros z. by rewrite Hin, elem_of_seqZ.
Qed.

(** Two sorted arrangements of the same rows agree when the keys differ. *)
Lemma sorted_unique {A} (key : A -> Z) (l k : list A) :
  l ≡ₚ k -> key <$> l = key <$> k -> NoDup (key <$> l) -> l = k.
Proof.
  revert k. induction l as [|x l IH]; intros [|y k] Hp Hk Hnd; try done.
  simpl in Hk. injection Hk as Hxy Hk.
  assert (x = y) as <-.
  { assert (Hy : y ∈ x :: l) by (rewrite Hp; left).
    apply elem_of_cons in Hy as [->|Hy]; [done|].
    rewrite fmap_cons in Hnd. apply NoDup_cons in Hnd as [Hni _]. exfalso. apply Hni.
    rewrite Hxy. by apply list_elem_of_fmap_2. }
  apply Permutation_cons_inv in Hp. rewrite fmap_cons in Hnd. apply NoDup_cons in Hnd as [_ Hnd].
  f_equal. by apply IH.
Qed.

(** Rows already in the order of consecutive keys. *)
Lemma order_by_id_same {A} (key : A -> Z) (l : list A) (m : Z) :
  key <$> l = seqZ m (Z.of_nat (length l)) -> order_by (by_id key) l = l.
Proof.
  intros Hl. assert (Hnd : NoDup (key <$> l)) by (rewrite Hl; apply NoDup_seqZ).
  apply (sorted_unique key); [apply order_by_perm| |by rewrite order_by_perm].
  rewrite Hl. apply order_by_seqZ; [done|]. intros z. by rewrite Hl, elem_of_seqZ.
Qed.

(** ** Pages *)

Lemma page_all {A} (limit : Z) (l : list A) :
  Z.of_nat (length l) <= limit -> page limit 0 l = l.
Proof. intros Hl. unfold page. rewrite drop_0. apply take_ge. lia. Qed.

(** Consecutive pages put together. *)
Lemma page_split {A} (n m k : Z) (l : list A) :
  0 <= n -> 0 <= m -> 0 <= k -> page n k l ++ page m (k + n) l = page (n + m) k l.
Proof.
  intros Hn Hm Hk. unfold page.
  rewrite !Z2Nat.inj_add, <- drop_drop, <- take_take_drop by lia. done.
Qed.

(** ** FOR UPDATE SKIP LOCKED LIMIT n *)

Lemma StronglySorted_split {A} (R : relation A) (l k : list A) (x y : A) :
  StronglySorted R (l ++ k) -> x ∈ l -> y ∈ k -> R x y.
Proof.
  induction l as [|z l IH]; simpl; intros Hs Hx Hy; [by apply not_elem_of_nil in Hx|].
  apply StronglySorted_inv in Hs as [Hs Hz]. apply elem_of_cons in Hx as [->|Hx]; [|by apply IH].
  rewrite Forall_forall in Hz. apply Hz, elem_of_app. by right.
Qed.

(** The picked rows are in order, and an unlocked row that was not picked comes
    after them, in a query that picked as many as it may. *)
Lemma skip_locked_limit_best {A} (id : A -> Z) (le : A -> A -> bool) `{!RowOrder le}
    (locked : list Z) (n : Z) (l : list A) :
  let picked := skip_locked_limit id locked n (order_by le l) in
  StronglySorted (fun x y => le x y = true) picked
  /\ forall y, y ∈ l -> id y ∉ locked ->
       y ∈ picked \/ (Z.of_nat (length picked) = Z.max 0 n /\ forall x, x ∈ picked -> le x y = true).
Proof.
  intros picked. set (s := filter (fun a => id a ∉ locked) (order_by le l)).
  assert (Hs : StronglySorted (fun x y => le x y = true) s).
  { eapply StronglySorted_sublist; [apply sublist_filter|by apply order_by_sorted]. }
  change picked with (take (Z.to_nat n) s). split.
  { eapply StronglySorted_sublist; [apply sublist_take|done]. }
  intros y Hy Hl. assert (Hys : y ∈ s).
  { apply list_elem_of_filter. split; [done|]. by apply elem_of_order_by. }
  rewrite <- (take_drop (Z.to_nat n) s) in Hys, Hs. apply elem_of_app in Hys as [Hys|Hys]; [by left|].
  right. split.
  - rewrite length_take.
    assert (Hpos : (0 < length (drop (Z.to_nat n) s))%nat).
    { destruct (drop (Z.to_nat n) s); [by apply not_elem_of_nil in Hys|simpl; lia]. }
    rewrite length_drop in Hpos. lia.
  - intros x Hx. exact (StronglySorted_split _ _ _ _ _ Hs Hx Hys).
Qed.
