(* ===== verification/TaskValidation.v ===== *)
(** * Validation of the task engine's inputs

    internal/tasks/validation.go: the patterns, the search for forbidden keys in
    a decoded JSON document, the normalization and validation of requests.  The
    credential detector is the interface [ContentPolicy]. *)

From stdpp Require Import base tactics list gmap strings sorting.
From Stdlib Require Import ZArith Lia Ascii.
From S2P Require Import Prelude GoLib TaskDomain Database.

Local Open Scope Z_scope.

(** ** Patterns *)

(** [[-_]] *)
Definition separator : regex := RCls [("-"%char, "-"%char); ("_"%char, "_"%char)].

(** [^[a-z0-9]+(?:[-_][a-z0-9]+)*$] *)
Definition identifierPattern : regex :=
  RSeq (RPlus lower_alnum) (RStar (RSeq separator (RPlus lower_alnum))).

(** Two identifiers around a slash. *)
Definition rolePattern : regex :=
  RSeq identifierPattern (RSeq (RByte "/"%char) identifierPattern).

(** ** Forbidden keys *)

Definition forbiddenKeys : list string :=
  ["authority"; "authority_class"; "model"; "model_policy"; "capability"; "capabilities";
   "tool"; "tools"; "profile"; "profile_path"; "memory"; "memory_path"; "shell"; "container";
   "containers"; "k8s"; "kubernetes"]%string.

Definition is_forbidden (key : string) : bool :=
  bool_decide (ToLower (TrimSpace key) ∈ forbiddenKeys).

Definition string_le (x y : string) : bool :=
  match String.compare x y with Gt => false | _ => true end.

(** The first hit in a list of keys, each with what was found below it. *)
Fixpoint first_key (l : list (string * string)) : string :=
  match l with
  | [] => EmptyString
  | (key, nested) :: rest =>
      if is_forbidden key then key
      else if is_empty nested then first_key rest else nested
  end.

Fixpoint first_nested (l : list string) : string :=
  match l with
  | [] => EmptyString
  | nested :: rest => if is_empty nested then first_nested rest else nested
  end.

(** [findForbiddenKey]; an object is visited in the order of its sorted keys. *)
Fixpoint findForbiddenKey (value : JSON) : string :=
  match value with
  | JObj item =>
      first_key (order_by (fun x y => string_le (fst x) (fst y))
        (List.map (fun kv => (fst kv, findForbiddenKey (snd kv))) item))
  | JArr item => first_nested (List.map findForbiddenKey item)
  | _ => EmptyString
  end.

(** ** Normalization *)

Definition normalize_spec (s : RequirementSpec) : RequirementSpec :=
  mkRequirementSpec (TrimSpace (spec_Key s)) (spec_Type s) (TrimSpace (spec_Description s))
    (spec_Required s).

Definition NormalizeCreateRequest (r : CreateRequest) : CreateRequest :=
  mkCreateRequest (TrimSpace (create_OrganizationID r)) (TrimSpace (create_RequestedByRoleID r))
    (TrimSpace (create_AssignedRoleID r)) (create_TaskClass r)
    (TrimSpace (create_IdempotencyKey r)) (TrimSpace (create_Title r))
    (TrimSpace (create_Instructions r)) (TrimSpace <$> create_AcceptanceCriteria r)
    (create_Priority r) (create_AvailableAt r) (create_MaxAttempts r)
    (TrimSpace (create_CorrelationID r)) (TrimSpace (create_CausationID r))
    (create_Dependencies r) (normalize_spec <$> create_Requirements r)
    (create_HoldForCoordination r).

(** [UTC()] and [Round(0)] change the representation, not the instant. *)
Definition NormalizeAvailableAt (value : option Instant) : option Instant := value.

(** ** Credentials *)

(** contentpolicy.Analyze(text).HasCredentials() *)
Class ContentPolicy := { HasCredentials : string -> bool }.

Section Validation.
Context `{Env, ContentPolicy}.

(** Every field that reaches the agent, in the order it is analyzed. *)
Definition secret_fields (r : CreateRequest) : list string :=
  [create_Title r; create_Instructions r] ++ create_AcceptanceCriteria r
  ++ (spec_Description <$> create_Requirements r).

Definition rejectSecrets (r : CreateRequest) : res unit :=
  reach (fun text => rejectIf (HasCredentials text) ErrSecretRejected) (secret_fields r).

(** ** Validation *)

Definition ValidateRequirementSpec (s : RequirementSpec) : res unit :=
  check? rejectIf (negb (between 1 120 (len (spec_Key s)))
                   || negb (MatchString identifierPattern (spec_Key s))) ErrInvalidInput in
  check? rejectIf (negb (RequirementTypeValid (spec_Type s))) ErrInvalidInput in
  rejectIf (negb (between 1 4000 (len (spec_Description s)))) ErrInvalidInput.

(** The loop over the dependencies, with the set of those already seen. *)
Fixpoint check_dependencies (seen : gset Z) (l : list Z) : res unit :=
  match l with
  | [] => Ok tt
  | dependency :: rest =>
      check? rejectIf (dependency <=? 0) ErrInvalidInput in
      check? rejectIf (bool_decide (dependency ∈ seen)) ErrInvalidInput in
      check_dependencies ({[dependency]} ∪ seen) rest
  end.

Fixpoint check_requirements (seen : gset string) (l : list RequirementSpec) : res unit :=
  match l with
  | [] => Ok tt
  | s :: rest =>
      check? ValidateRequirementSpec s in
      check? rejectIf (bool_decide (spec_Key s ∈ seen)) ErrInvalidInput in
      check_requirements ({[spec_Key s]} ∪ seen) rest
  end.

Definition ValidateCreateRequest (r : CreateRequest) : res unit :=
  check? rejectIf (negb (is_empty (create_OrganizationID r))
                   && negb (MatchString identifierPattern (create_OrganizationID r)))
           ErrInvalidInput in
  check? rejectIf (negb (is_empty (create_RequestedByRoleID r))
                   && negb (MatchString rolePattern (create_RequestedByRoleID r)))
           ErrInvalidInput in
  check? rejectIf (negb (MatchString rolePattern (create_AssignedRoleID r))) ErrInvalidInput in
  check? rejectIf (bool_decide (create_TaskClass r = TaskClassLegacyUnspecified))
           ErrInvalidInput in
  check? rejectIf (negb (is_empty (create_TaskClass r))
                   && negb (ValidTaskClass (create_TaskClass r))) ErrInvalidInput in
  check? rejectIf (negb (between 1 200 (len (create_IdempotencyKey r)))) ErrInvalidInput in
  check? rejectIf (negb (between 1 240 (len (create_Title r)))) ErrInvalidInput in
  check? rejectIf (negb (between 1 65536 (len (create_Instructions r)))) ErrInvalidInput in
  check? rejectSecrets r in
  check? rejectIf (negb (between (-100000) 100000 (create_Priority r))) ErrInvalidInput in
  check? rejectIf (negb (between 1 100 (create_MaxAttempts r))) ErrInvalidInput in
  check? rejectIf ((200 <? len (create_CorrelationID r)) || (200 <? len (create_CausationID r)))
           ErrInvalidInput in
  check? rejectIf (100 <? Z.of_nat (length (create_AcceptanceCriteria r))) ErrInvalidInput in
  check? reach (fun criterion => rejectIf (is_empty criterion || (4000 <? len criterion))
                                   ErrInvalidInput) (create_AcceptanceCriteria r) in
  check? check_dependencies ∅ (create_Dependencies r) in
  check? rejectIf (100 <? Z.of_nat (length (create_Requirements r))) ErrInvalidInput in
  check_requirements ∅ (create_Requirements r).

Definition ValidateEvidence (c : RecordEvidenceCommand) : res unit :=
  check? rejectIf (evcmd_TaskID c <=? 0) ErrInvalidInput in
  check? rejectIf (match evcmd_RequirementID c with Some r => r <=? 0 | None => false end)
           ErrInvalidInput in
  check? rejectIf (evcmd_Satisfies c && negb (is_some (evcmd_RequirementID c)))
           ErrInvalidInput in
  check? rejectIf (negb (RequirementTypeValid (evcmd_Type c))) ErrInvalidInput in
  check? rejectIf (negb (between 1 2048 (len (TrimSpace (evcmd_Reference c)))))
           ErrInvalidInput in
  check? rejectIf (negb (is_empty (evcmd_Digest c))
                   && negb (MatchString digestPattern (evcmd_Digest c))) ErrInvalidInput in
  check? rejectIf (negb (between 1 200 (len (TrimSpace (evcmd_RecordedBy c)))))
           ErrInvalidInput in
  rejectIf (65536 <? len (env_json_marshal (JObj (evcmd_Metadata c)))) ErrInvalidInput.

End Validation.
