(* ===== verification/TaskService.v ===== *)
(** * The task service

    internal/tasks: interfaces.go, service.go, specific_claim.go and the service
    half of redrive.go.  The service is a client of two interfaces, [Persistence]
    and [Catalog]; it holds no state of its own.  A nil interface value is
    [None], and an optional capability of the store (a type assertion in the
    source) is an [option] field. *)

From stdpp Require Import base tactics list gmap strings sorting.
From Stdlib Require Import ZArith Lia.
From S2P Require Import Prelude GoLib TaskDomain Database StoreCreate TaskValidation.

Local Open Scope Z_scope.

(** ** interfaces.go *)

(** The catalog, as it answers during one call.  [mapCatalogError] hands every
    error on as it is, so the methods below do not write it. *)
Record Catalog : Type := mkCatalog {
  CurrentRevision : string -> res RevisionRef;
  GetRole : string -> string -> res RoleRef }.

Record Persistence (S : Type) : Type := mkPersistence {
  p_GetTask : Z -> Eff S TaskDetail;
  p_ListTasks : TaskFilter -> Eff S (list Task);
  p_ListEvents : Z -> Z -> Eff S (list Event);
  p_ListAttempts : Z -> Eff S (list Attempt);
  p_ListDeadLetters : Z -> Eff S (list DeadLetter);
  p_GetDeadLetter : Z -> Eff S DeadLetter;
  p_Create : PreparedCreate -> Eff S (Task * bool);
  p_AddDependency : AddDependencyCommand -> Z -> Eff S unit;
  p_AddRequirement : AddRequirementCommand -> Z -> Eff S Requirement;
  p_RecordEvidence : RecordEvidenceCommand -> Z -> Eff S Evidence;
  p_RecordRequirementVerification : RequirementVerificationCommand -> Z -> Eff S Evidence;
  p_VerifyActiveExecutionLease : VerifyExecutionLeaseCommand -> Eff S ExecutionLeaseContext;
  p_Finalize : FinalizeCommand -> Z -> Eff S Task;
  p_Block : BlockCommand -> Z -> Eff S Task;
  p_Unblock : UnblockCommand -> AssigneeCheck -> Z -> Eff S Task;
  p_ReleaseCoordinationHold : ReleaseCoordinationHoldCommand -> AssigneeCheck -> Z -> Eff S Task;
  p_Cancel : CancelCommand -> Z -> Eff S Task;
  p_Claim : ClaimRequest -> AssigneeValidator -> CapacityValidator -> Z
            -> Eff S (list ClaimedTask);
  p_StartAttempt : LeaseCommand -> Z -> Eff S Task;
  p_Heartbeat : LeaseCommand -> Duration -> Eff S Lease;
  p_RecordAttemptResult : RecordAttemptResultCommand -> RetryPolicy -> Z -> Eff S Task;
  p_Reconcile : Z -> AssigneeValidator -> CapacityValidator -> RetryPolicy -> Z
                -> Eff S ReconcileResult;
  p_ClaimOutbox : OutboxClaimRequest -> Eff S (list ClaimedOutboxEvent);
  p_AckOutbox : OutboxDisposition -> Eff S unit;
  p_NackOutbox : OutboxDisposition -> Eff S unit;
  p_RecoverOutbox : Z -> Eff S Z;
  p_OutboxStats : Eff S OutboxStats;
  p_PruneOutbox : OutboxPruneRequest -> Eff S OutboxPruneResult;
  p_ListAttemptsPage : option (Z -> Z -> Z -> Eff S (list Attempt));
  p_ClaimSpecific : option (Z -> ClaimRequest -> AssigneeValidator -> CapacityValidator -> Z
                            -> Eff S ClaimedTask);
  p_Redrive : option (PreparedRedrive -> Eff S RedriveResult) }.

Arguments p_GetTask {S}. Arguments p_ListTasks {S}. Arguments p_ListEvents {S}.
Arguments p_ListAttempts {S}. Arguments p_ListDeadLetters {S}. Arguments p_GetDeadLetter {S}.
Arguments p_Create {S}. Arguments p_AddDependency {S}. Arguments p_AddRequirement {S}.
Arguments p_RecordEvidence {S}. Arguments p_RecordRequirementVerification {S}.
Arguments p_VerifyActiveExecutionLease {S}. Arguments p_Finalize {S}. Arguments p_Block {S}.
Arguments p_Unblock {S}. Arguments p_ReleaseCoordinationHold {S}. Arguments p_Cancel {S}.
Arguments p_Claim {S}. Arguments p_StartAttempt {S}. Arguments p_Heartbeat {S}.
Arguments p_RecordAttemptResult {S}. Arguments p_Reconcile {S}. Arguments p_ClaimOutbox {S}.
Arguments p_AckOutbox {S}. Arguments p_NackOutbox {S}. Arguments p_RecoverOutbox {S}.
Arguments p_OutboxStats {S}. Arguments p_PruneOutbox {S}. Arguments p_ListAttemptsPage {S}.
Arguments p_ClaimSpecific {S}. Arguments p_Redrive {S}.

(** ** Configuration *)

Record Config : Type := mkConfig {
  cfg_OrganizationID : string;
  cfg_DefaultMaxAttempts : Z;
  cfg_DefaultLeaseDuration : Duration;
  cfg_MaxLeaseDuration : Duration;
  cfg_RetryPolicy : RetryPolicy;
  cfg_OutboxMaxAttempts : Z;
  cfg_OutboxClaimDuration : Duration }.

Definition Config_Validate (cfg : Config) : res unit :=
  check? rejectIf (is_empty (cfg_OrganizationID cfg)
                   || negb (MatchString identifierPattern (cfg_OrganizationID cfg)))
           ErrInvalidInput in
  check? rejectIf (negb (between 1 100 (cfg_DefaultMaxAttempts cfg))) ErrInvalidInput in
  check? rejectIf ((cfg_DefaultLeaseDuration cfg <=? 0) || (cfg_MaxLeaseDuration cfg <=? 0)
                   || (cfg_MaxLeaseDuration cfg <? cfg_DefaultLeaseDuration cfg))
           ErrInvalidInput in
  check? rejectIf ((policy_BaseDelay (cfg_RetryPolicy cfg) <=? 0)
                   || (policy_MaxDelay (cfg_RetryPolicy cfg) <=? 0)
                   || (policy_MaxDelay (cfg_RetryPolicy cfg)
                       <? policy_BaseDelay (cfg_RetryPolicy cfg))) ErrInvalidInput in
  check? rejectIf (negb (between 1 100 (cfg_OutboxMaxAttempts cfg))) ErrInvalidInput in
  rejectIf (cfg_OutboxClaimDuration cfg <=? 0) ErrInvalidInput.

Record Service (S : Type) : Type := mkService {
  persistence : Persistence S;
  catalog : Catalog;
  cfg : Config;
  capacityGate : option CapacityValidator }.

Arguments persistence {S}. Arguments catalog {S}. Arguments cfg {S}. Arguments capacityGate {S}.

Definition NewService {S} (p : option (Persistence S)) (c : option Catalog) (config : Config)
    : res (Service S) :=
  match p, c with
  | None, _ | _, None => Err ErrInternal
  | Some p, Some c =>
      check? Config_Validate config in
      Ok (mkService S p c config None)
  end.

Definition SetCapacityGate {S} (gate : option CapacityValidator) (s : Service S) : Service S :=
  mkService S (persistence s) (catalog s) (cfg s) gate.

(** ** Actors, roles, leases *)

Definition normalizeActor (actorType actorID : string) : string * string :=
  let actorType := TrimSpace actorType in
  let actorID := TrimSpace actorID in
  (if is_empty actorType then "human"%string else actorType, actorID).

Definition validateActor (actor : string * string) : res unit :=
  check? rejectIf (is_empty (snd actor) || (200 <? len (snd actor))) ErrInvalidInput in
  rejectIf (is_empty (fst actor) || (80 <? len (fst actor))) ErrInvalidInput.

Definition roleAssignable (role : RoleRef) : bool :=
  negb (is_empty (role_ID role)) && negb (is_empty (role_UnitID role)) && role_Enabled role
  && role_Executable role && negb (role_Retired role).

Definition validateOutboxDisposition (d : OutboxDisposition) (requireError : bool) : res unit :=
  check? rejectIf ((disp_EventID d <=? 0) || is_empty (TrimSpace (disp_ClaimToken d))
                   || is_empty (TrimSpace (disp_ConsumerID d))) ErrInvalidInput in
  check? rejectIf (requireError && is_empty (TrimSpace (disp_Error d))) ErrInvalidInput in
  rejectIf (4000 <? len (disp_Error d)) ErrInvalidInput.

Section Service.
Context `{Env, ContentPolicy} {St : Type} (s : Service St).

Definition checkCapacity (task : Task) : res CapacityCheck :=
  match capacityGate s with
  | None => Ok (mkCapacityCheck true zeroInstant "")
  | Some gate => gate task
  end.

Definition validateAssignee (task : Task) : res AssigneeCheck :=
  check? CurrentRevision (catalog s) (task_OrganizationID task) in
  match GetRole (catalog s) (task_OrganizationID task) (task_AssignedRoleID task) with
  | Err ErrNotFound => Ok (mkAssigneeCheck false "assigned role no longer exists")
  | Err e => Err e
  | Ok role =>
      if negb (roleAssignable role)
         || negb (bool_decide (role_UnitID role = task_AssignedUnitID task))
      then Ok (mkAssigneeCheck false
                 "assigned role is disabled, non-executable, retired, or moved")
      else Ok (mkAssigneeCheck true "")
  end.

Definition validateLeaseCommand (c : LeaseCommand) (heartbeat : bool) : res unit :=
  check? rejectIf ((lcmd_TaskID c <=? 0) || (lcmd_AttemptID c <=? 0)) ErrInvalidInput in
  check? rejectIf (is_empty (TrimSpace (lcmd_LeaseToken c))) ErrInvalidInput in
  check? rejectIf (is_empty (TrimSpace (lcmd_ActorID c)) || (200 <? len (lcmd_ActorID c)))
           ErrInvalidInput in
  rejectIf (heartbeat && ((lcmd_Extension c <=? 0)
                          || (cfg_MaxLeaseDuration (cfg s) <? lcmd_Extension c))) ErrInvalidInput.

(** ** Reads *)

Definition default_org (organization : string) : string :=
  if is_empty organization then cfg_OrganizationID (cfg s) else organization.

(** [if n == 0 { n = d }] *)
Definition default_int (d n : Z) : Z := if n =? 0 then d else n.

Definition Service_GetTask (id : Z) : Eff St TaskDetail :=
  do! throwIf (id <=? 0) ErrInvalidInput in
  let! detail := p_GetTask (persistence s) id in
  do! throwIf (negb (bool_decide (task_OrganizationID (detail_Task detail)
                                  = cfg_OrganizationID (cfg s)))) ErrNotFound in
  ret detail.

Definition normalize_filter (f : TaskFilter) : TaskFilter :=
  mkTaskFilter (default_org (TrimSpace (filter_OrganizationID f))) (filter_Statuses f)
    (TrimSpace (filter_AssignedRoleID f)) (TrimSpace (filter_AssignedUnitID f))
    (TrimSpace (filter_CorrelationID f)) (default_int 100 (filter_Limit f)) (filter_Offset f).

Definition Service_ListTasks (f : TaskFilter) : Eff St (list Task) :=
  let f := normalize_filter f in
  do! throwIf (negb (MatchString identifierPattern (filter_OrganizationID f)))
        ErrInvalidInput in
  do! throwIf (negb (is_empty (filter_AssignedRoleID f))
               && negb (MatchString rolePattern (filter_AssignedRoleID f))) ErrInvalidInput in
  do! throwIf (negb (is_empty (filter_AssignedUnitID f))
               && negb (MatchString identifierPattern (filter_AssignedUnitID f)))
        ErrInvalidInput in
  do! throwIf (200 <? len (filter_CorrelationID f)) ErrInvalidInput in
  do! throwIf (negb (between 1 1000 (filter_Limit f)) || (filter_Offset f <? 0))
        ErrInvalidInput in
  do! lift (reach (fun status => rejectIf (negb (Valid status)) ErrInvalidInput)
              (filter_Statuses f)) in
  p_ListTasks (persistence s) f.

Definition Service_ListEvents (taskID limit : Z) : Eff St (list Event) :=
  do! throwIf (taskID <=? 0) ErrInvalidInput in
  let limit := default_int 500 limit in
  do! throwIf (negb (between 1 5000 limit)) ErrInvalidInput in
  p_ListEvents (persistence s) taskID limit.

Definition Service_ListAttempts (taskID : Z) : Eff St (list Attempt) :=
  do! throwIf (taskID <=? 0) ErrInvalidInput in p_ListAttempts (persistence s) taskID.

Definition Service_ListAttemptsPage (taskID limit offset : Z) : Eff St (list Attempt) :=
  do! throwIf (taskID <=? 0) ErrInvalidInput in
  let limit := if limit <=? 0 then 20 else limit in
  do! throwIf ((100 <? limit) || (offset <? 0)) ErrInvalidInput in
  match p_ListAttemptsPage (persistence s) with
  | None => throw ErrInvalidInput
  | Some pager => pager taskID limit offset
  end.

(** A letter stays when its task can be read and is of the organization; a
    read that fails drops it. *)
Definition keep_letter (kept : list DeadLetter) (l : DeadLetter) : Eff St (list DeadLetter) :=
  fun st =>
    match p_GetTask (persistence s) (dead_TaskID l) st with
    | (Ok detail, st') =>
        (Ok (if bool_decide (task_OrganizationID (detail_Task detail)
                             = cfg_OrganizationID (cfg s))
             then kept ++ [l] else kept), st')
    | (Err _, st') => (Ok kept, st')
    end.

Definition Service_ListDeadLetters (limit : Z) : Eff St (list DeadLetter) :=
  let limit := default_int 100 limit in
  do! throwIf (negb (between 1 1000 limit)) ErrInvalidInput in
  let! all := p_ListDeadLetters (persistence s) limit in
  foldM keep_letter [] all.

Definition Service_GetDeadLetter (id : Z) : Eff St DeadLetter :=
  do! throwIf (id <=? 0) ErrInvalidInput in p_GetDeadLetter (persistence s) id.

(** ** Creation *)

(** The request as it is validated: normalized, with the defaults of the
    configuration. *)
Definition prepared_request (r : CreateRequest) : CreateRequest :=
  let r := NormalizeCreateRequest r in
  mkCreateRequest (default_org (create_OrganizationID r)) (create_RequestedByRoleID r)
    (create_AssignedRoleID r) (create_TaskClass r) (create_IdempotencyKey r) (create_Title r)
    (create_Instructions r) (create_AcceptanceCriteria r) (create_Priority r)
    (NormalizeAvailableAt (create_AvailableAt r))
    (default_int (cfg_DefaultMaxAttempts (cfg s)) (create_MaxAttempts r))
    (create_CorrelationID r) (create_CausationID r) (create_Dependencies r)
    (create_Requirements r) (create_HoldForCoordination r).

Definition with_class (r : CreateRequest) (class : string) : CreateRequest :=
  mkCreateRequest (create_OrganizationID r) (create_RequestedByRoleID r)
    (create_AssignedRoleID r) class (create_IdempotencyKey r) (create_Title r)
    (create_Instructions r) (create_AcceptanceCriteria r) (create_Priority r)
    (create_AvailableAt r) (create_MaxAttempts r) (create_CorrelationID r)
    (create_CausationID r) (create_Dependencies r) (create_Requirements r)
    (create_HoldForCoordination r).

(** The status a task is born with, its reason code and its reason. *)
Definition initial_status (r : CreateRequest) : Status * string * string :=
  if create_HoldForCoordination r then
    (StatusBlocked, ReasonCodeCoordinationHold,
     "task is not published until its creator's coordination is durable"%string)
  else if negb (bool_decide (create_Dependencies r = [])) || is_some (create_AvailableAt r)
  then (StatusPending, EmptyString, EmptyString)
  else (StatusReady, EmptyString, EmptyString).

Definition prepareCreate (request : CreateRequest) (actorType actorID : string)
    : res PreparedCreate :=
  let r := prepared_request request in
  check? ValidateCreateRequest r in
  let explicit := negb (is_empty (create_TaskClass r)) in
  let r := if explicit then r else with_class r TaskClassGeneralWork in
  let actor := normalizeActor actorType actorID in
  check? validateActor actor in
  let? revision := CurrentRevision (catalog s) (create_OrganizationID r) in
  let? assigned := GetRole (catalog s) (create_OrganizationID r) (create_AssignedRoleID r) in
  check? rejectIf (negb (roleAssignable assigned)) ErrAssigneeUnavailable in
  check? (if is_empty (create_RequestedByRoleID r) then Ok tt
          else
            let? requester := GetRole (catalog s) (create_OrganizationID r)
                                (create_RequestedByRoleID r) in
            rejectIf (role_Retired requester) ErrInvalidInput) in
  let? hash := HashCreateRequest r in
  let '(initial, reasonCode, reason) := initial_status r in
  Ok (mkPreparedCreate r (revision_ID revision) (role_UnitID assigned) (create_TaskClass r)
        explicit hash initial reasonCode reason (cfg_DefaultMaxAttempts (cfg s))
        (cfg_OutboxMaxAttempts (cfg s)) (fst actor) (snd actor)).

Definition CreateTask (request : CreateRequest) (actorType actorID : string)
    : Eff St (Task * bool) :=
  let! prepared := lift (prepareCreate request actorType actorID) in
  p_Create (persistence s) prepared.

(** redrive.go *)
Definition successor_request (r : CreateRequest) (organization : string) : CreateRequest :=
  if is_empty (create_OrganizationID r) then
    mkCreateRequest organization (create_RequestedByRoleID r) (create_AssignedRoleID r)
      (create_TaskClass r) (create_IdempotencyKey r) (create_Title r) (create_Instructions r)
      (create_AcceptanceCriteria r) (create_Priority r) (create_AvailableAt r)
      (create_MaxAttempts r) (create_CorrelationID r) (create_CausationID r)
      (create_Dependencies r) (create_Requirements r) (create_HoldForCoordination r)
  else r.

Definition RedriveDeadLetter (command : RedriveCommand) : Eff St RedriveResult :=
  do! throwIf (redrive_DeadLetterID command <=? 0) ErrInvalidInput in
  let observed := TrimSpace (redrive_ObservedChange command) in
  do! throwIf (is_empty observed) ErrInvalidInput in
  do! throwIf (500 <? len observed) ErrInvalidInput in
  do! throwIf (redrive_MaxRecoveryEpisodes command <? 1) ErrInvalidInput in
  match p_Redrive (persistence s) with
  | None => throw ErrInvalidInput
  | Some redriver =>
      let! dead := Service_GetDeadLetter (redrive_DeadLetterID command) in
      let! failed := p_GetTask (persistence s) (dead_TaskID dead) in
      let organization := task_OrganizationID (detail_Task failed) in
      do! throwIf (negb (bool_decide (organization = cfg_OrganizationID (cfg s))))
            ErrNotFound in
      let successor := successor_request (redrive_Successor command) organization in
      do! throwIf (negb (bool_decide (create_OrganizationID successor = organization)))
            ErrInvalidInput in
      do! throwIf (bool_decide (TrimSpace (create_IdempotencyKey successor)
                                = task_IdempotencyKey (detail_Task failed))) ErrInvalidInput in
      let! prepared := lift (prepareCreate successor (redrive_ActorType command)
                               (redrive_ActorID command)) in
      redriver (mkPreparedRedrive (redrive_DeadLetterID command)
                  (redrive_MaxRecoveryEpisodes command) observed prepared
                  (prepared_ActorType prepared) (prepared_ActorID prepared)
                  (cfg_OutboxMaxAttempts (cfg s)))
  end.

End Service.

(** ** The commands of the task service

    internal/tasks/service.go, the methods that change tasks, leases and the
    outbox, and specific_claim.go.  Each validates its command, fills in the
    configuration's defaults and calls the store. *)


Section Commands.
Context `{Env, ContentPolicy} {St : Type} (s : Service St).

(** [normalizeActor] followed by [validateActor]. *)
Definition checked_actor (actorType actorID : string) : Eff St (string * string) :=
  let actor := normalizeActor actorType actorID in
  do! lift (validateActor actor) in ret actor.

(** ** Holds, dependencies, requirements, evidence *)

Definition Service_ReleaseCoordinationHold (c : ReleaseCoordinationHoldCommand) : Eff St Task :=
  do! throwIf (release_TaskID c <=? 0) ErrInvalidInput in
  let! actor := checked_actor (release_ActorType c) (release_ActorID c) in
  let! detail := p_GetTask (persistence s) (release_TaskID c) in
  let! check := lift (validateAssignee s (detail_Task detail)) in
  p_ReleaseCoordinationHold (persistence s)
    (mkReleaseCommand (release_TaskID c) (fst actor) (snd actor)) check
    (cfg_OutboxMaxAttempts (cfg s)).

Definition Service_AddDependency (c : AddDependencyCommand) : Eff St unit :=
  do! throwIf ((adddep_TaskID c <=? 0) || (adddep_DependsOnID c <=? 0)) ErrInvalidInput in
  do! throwIf (adddep_TaskID c =? adddep_DependsOnID c) ErrDependencyCycle in
  let! actor := checked_actor (adddep_ActorType c) (adddep_ActorID c) in
  p_AddDependency (persistence s)
    (mkAddDependencyCommand (adddep_TaskID c) (adddep_DependsOnID c) (fst actor) (snd actor))
    (cfg_OutboxMaxAttempts (cfg s)).

Definition Service_AddRequirement (c : AddRequirementCommand) : Eff St Requirement :=
  do! throwIf (addreq_TaskID c <=? 0) ErrInvalidInput in
  let spec := normalize_spec (addreq_Spec c) in
  do! lift (ValidateRequirementSpec spec) in
  let! actor := checked_actor (addreq_ActorType c) (addreq_ActorID c) in
  p_AddRequirement (persistence s)
    (mkAddRequirementCommand (addreq_TaskID c) spec (fst actor) (snd actor))
    (cfg_OutboxMaxAttempts (cfg s)).

Definition Service_RecordEvidence (c : RecordEvidenceCommand) : Eff St Evidence :=
  let c := mkRecordEvidenceCommand (evcmd_TaskID c) (evcmd_RequirementID c) (evcmd_Type c)
    (TrimSpace (evcmd_Reference c)) (TrimSpace (evcmd_Digest c)) (TrimSpace (evcmd_RecordedBy c))
    (evcmd_Metadata c) (evcmd_Satisfies c) in
  do! lift (ValidateEvidence c) in
  p_RecordEvidence (persistence s) c (cfg_OutboxMaxAttempts (cfg s)).

Definition Service_RecordRequirementVerification (c : RequirementVerificationCommand)
    : Eff St Evidence :=
  let c := mkVerificationCommand (vcmd_TaskID c) (vcmd_RequirementID c) (vcmd_Result c)
    (TrimSpace (vcmd_Reference c)) (TrimSpace (vcmd_Digest c)) (TrimSpace (vcmd_RecordedBy c))
    (vcmd_Metadata c) in
  do! throwIf ((vcmd_TaskID c <=? 0) || (vcmd_RequirementID c <=? 0)) ErrInvalidInput in
  do! throwIf (match vcmd_Result c with RequirementVerificationOther _ => true | _ => false end)
        ErrInvalidInput in
  do! throwIf (is_empty (vcmd_Reference c) || (2048 <? len (vcmd_Reference c))
               || is_empty (vcmd_RecordedBy c) || (200 <? len (vcmd_RecordedBy c)))
        ErrInvalidInput in
  do! throwIf (negb (is_empty (vcmd_Digest c))
               && negb (MatchString digestPattern (vcmd_Digest c))) ErrInvalidInput in
  p_RecordRequirementVerification (persistence s) c (cfg_OutboxMaxAttempts (cfg s)).

(** ** The queue *)

Definition normalize_claim (r : ClaimRequest) : ClaimRequest :=
  mkClaimRequest (default_org s (TrimSpace (claim_OrganizationID r)))
    (TrimSpace (claim_WorkerID r)) (TrimSpace (claim_HolderPrincipalID r))
    (TrimSpace (claim_AssignedRoleID r)) (claim_BatchSize r)
    (default_int (cfg_DefaultLeaseDuration (cfg s)) (claim_LeaseDuration r)).

(** The checks ClaimTasks and ClaimTaskByID share, before the batch size. *)
Definition check_claim_identity (r : ClaimRequest) : res unit :=
  check? rejectIf (negb (MatchString identifierPattern (claim_OrganizationID r)))
           ErrInvalidInput in
  check? rejectIf (is_empty (claim_WorkerID r) || (200 <? len (claim_WorkerID r)))
           ErrInvalidInput in
  check? rejectIf (200 <? len (claim_HolderPrincipalID r)) ErrInvalidInput in
  rejectIf (negb (is_empty (claim_AssignedRoleID r))
            && negb (MatchString rolePattern (claim_AssignedRoleID r))) ErrInvalidInput.

Definition check_lease_duration (r : ClaimRequest) : res unit :=
  rejectIf ((claim_LeaseDuration r <=? 0)
            || (cfg_MaxLeaseDuration (cfg s) <? claim_LeaseDuration r)) ErrInvalidInput.

Definition with_batch (n : Z) (r : ClaimRequest) : ClaimRequest :=
  mkClaimRequest (claim_OrganizationID r) (claim_WorkerID r) (claim_HolderPrincipalID r)
    (claim_AssignedRoleID r) n (claim_LeaseDuration r).

Definition ClaimTasks (request : ClaimRequest) : Eff St (list ClaimedTask) :=
  let r := normalize_claim request in
  do! lift (check_claim_identity r) in
  let r := with_batch (default_int 1 (claim_BatchSize r)) r in
  do! throwIf (negb (between 1 32 (claim_BatchSize r))) ErrInvalidInput in
  do! lift (check_lease_duration r) in
  p_Claim (persistence s) r (validateAssignee s) (checkCapacity s)
    (cfg_OutboxMaxAttempts (cfg s)).

Definition ClaimTaskByID (taskID : Z) (request : ClaimRequest) : Eff St ClaimedTask :=
  do! throwIf (taskID <=? 0) ErrInvalidInput in
  let r := normalize_claim request in
  do! lift (check_claim_identity r) in
  do! lift (check_lease_duration r) in
  match p_ClaimSpecific (persistence s) with
  | None => throw ErrInvalidInput
  | Some claimer =>
      claimer taskID r (validateAssignee s) (checkCapacity s) (cfg_OutboxMaxAttempts (cfg s))
  end.

Definition Service_StartAttempt (c : LeaseCommand) : Eff St Task :=
  do! lift (validateLeaseCommand s c false) in
  p_StartAttempt (persistence s) c (cfg_OutboxMaxAttempts (cfg s)).

Definition with_extension (c : LeaseCommand) (d : Duration) : LeaseCommand :=
  mkLeaseCommand (lcmd_TaskID c) (lcmd_AttemptID c) (lcmd_LeaseToken c) (lcmd_ActorID c) d.

Definition Service_Heartbeat (c : LeaseCommand) : Eff St Lease :=
  let c := with_extension c (default_int (cfg_DefaultLeaseDuration (cfg s)) (lcmd_Extension c)) in
  do! lift (validateLeaseCommand s c true) in
  p_Heartbeat (persistence s) c (cfg_MaxLeaseDuration (cfg s)).

Definition Service_RecordAttemptResult (c : RecordAttemptResultCommand) : Eff St Task :=
  do! lift (validateLeaseCommand s (rcmd_LeaseCommand c) false) in
  let result := rcmd_Result c in
  let summary := TrimSpace (result_Summary result) in
  let failureCode := TrimSpace (result_FailureCode result) in
  do! match result_Outcome result with
      | OutcomeSucceeded => throwIf (negb (is_empty failureCode)) ErrInvalidInput
      | OutcomeRetryableFailure | OutcomeNonRetryableFailure =>
          throwIf (is_empty failureCode) ErrInvalidInput
      | OutcomeCancelled => ret tt
      | OutcomeOther _ => throw ErrInvalidInput
      end in
  do! throwIf ((4000 <? len summary) || (120 <? len failureCode)) ErrInvalidInput in
  p_RecordAttemptResult (persistence s)
    (mkRecordAttemptResultCommand (rcmd_LeaseCommand c)
       (mkAttemptResult (result_Outcome result) summary failureCode))
    (cfg_RetryPolicy (cfg s)) (cfg_OutboxMaxAttempts (cfg s)).

(** ** Finalization, blocking, cancellation, reconciliation *)

Definition FinalizeTask (c : FinalizeCommand) : Eff St Task :=
  do! throwIf (fin_TaskID c <=? 0) ErrInvalidInput in
  let reasonCode := TrimSpace (fin_ReasonCode c) in
  let reason := TrimSpace (fin_Reason c) in
  let! actor := checked_actor (fin_ActorType c) (fin_ActorID c) in
  do! match fin_Outcome c with
      | FinalCompleted => ret tt
      | FinalNoAction | FinalFailed | FinalRejected | FinalCancelled =>
          throwIf (is_empty reasonCode || is_empty reason) ErrInvalidInput
      | FinalOther _ => throw ErrInvalidInput
      end in
  p_Finalize (persistence s)
    (mkFinalizeCommand (fin_TaskID c) (fin_Outcome c) reasonCode reason (fst actor) (snd actor))
    (cfg_OutboxMaxAttempts (cfg s)).

Definition BlockTask (c : BlockCommand) : Eff St Task :=
  do! throwIf ((block_TaskID c <=? 0) || is_empty (TrimSpace (block_ReasonCode c))
               || is_empty (TrimSpace (block_Reason c))) ErrInvalidInput in
  let! actor := checked_actor (block_ActorType c) (block_ActorID c) in
  p_Block (persistence s)
    (mkBlockCommand (block_TaskID c) (TrimSpace (block_ReasonCode c))
       (TrimSpace (block_Reason c)) (block_RevokeLease c) (fst actor) (snd actor))
    (cfg_OutboxMaxAttempts (cfg s)).

Definition UnblockTask (c : UnblockCommand) : Eff St Task :=
  do! throwIf (unblock_TaskID c <=? 0) ErrInvalidInput in
  let! actor := checked_actor (unblock_ActorType c) (unblock_ActorID c) in
  let! detail := p_GetTask (persistence s) (unblock_TaskID c) in
  let! check := lift (validateAssignee s (detail_Task detail)) in
  p_Unblock (persistence s) (mkUnblockCommand (unblock_TaskID c) (fst actor) (snd actor)) check
    (cfg_OutboxMaxAttempts (cfg s)).

Definition CancelTask (c : CancelCommand) : Eff St Task :=
  do! throwIf ((cancel_TaskID c <=? 0) || is_empty (TrimSpace (cancel_ReasonCode c))
               || is_empty (TrimSpace (cancel_Reason c))) ErrInvalidInput in
  let! actor := checked_actor (cancel_ActorType c) (cancel_ActorID c) in
  p_Cancel (persistence s)
    (mkCancelCommand (cancel_TaskID c) (TrimSpace (cancel_ReasonCode c))
       (TrimSpace (cancel_Reason c)) (fst actor) (snd actor)) (cfg_OutboxMaxAttempts (cfg s)).

Definition Service_Reconcile (batch : Z) : Eff St ReconcileResult :=
  let batch := default_int 100 batch in
  do! throwIf (negb (between 1 1000 batch)) ErrInvalidInput in
  p_Reconcile (persistence s) batch (validateAssignee s) (checkCapacity s)
    (cfg_RetryPolicy (cfg s)) (cfg_OutboxMaxAttempts (cfg s)).

(** ** The outbox *)

Definition Service_ClaimOutbox (r : OutboxClaimRequest) : Eff St (list ClaimedOutboxEvent) :=
  let consumer := TrimSpace (oclaim_ConsumerID r) in
  do! throwIf (is_empty consumer || (200 <? len consumer)) ErrInvalidInput in
  let batch := default_int 1 (oclaim_BatchSize r) in
  do! throwIf (negb (between 1 32 batch)) ErrInvalidInput in
  let duration := default_int (cfg_OutboxClaimDuration (cfg s)) (oclaim_ClaimDuration r) in
  do! throwIf ((duration <=? 0) || (cfg_MaxLeaseDuration (cfg s) <? duration))
        ErrInvalidInput in
  p_ClaimOutbox (persistence s) (mkOutboxClaimRequest consumer batch duration).

Definition Service_AckOutbox (d : OutboxDisposition) : Eff St unit :=
  let d := mkOutboxDisposition (disp_EventID d) (disp_ClaimToken d)
             (TrimSpace (disp_ConsumerID d)) (disp_Error d) in
  do! lift (validateOutboxDisposition d false) in
  p_AckOutbox (persistence s) d.

Definition Service_NackOutbox (d : OutboxDisposition) : Eff St unit :=
  let d := mkOutboxDisposition (disp_EventID d) (disp_ClaimToken d)
             (TrimSpace (disp_ConsumerID d)) (TrimSpace (disp_Error d)) in
  do! lift (validateOutboxDisposition d true) in
  p_NackOutbox (persistence s) d.

Definition Service_RecoverOutbox (batch : Z) : Eff St Z :=
  let batch := default_int 100 batch in
  do! throwIf (negb (between 1 1000 batch)) ErrInvalidInput in
  p_RecoverOutbox (persistence s) batch.

Definition Service_OutboxStats : Eff St OutboxStats := p_OutboxStats (persistence s).

Definition minOlderThan : Duration := 24 * Hour.
Definition minOlderThanForPending : Duration := 30 * 24 * Hour.

Definition with_limit (r : OutboxPruneRequest) (limit : Z) : OutboxPruneRequest :=
  mkOutboxPruneRequest (prune_OlderThan r) (prune_IncludePublished r) (prune_IncludeDead r)
    (prune_IncludePending r) (prune_DryRun r) limit.

Definition Service_PruneOutbox (r : OutboxPruneRequest) : Eff St OutboxPruneResult :=
  do! throwIf (prune_OlderThan r <? minOlderThan) ErrInvalidInput in
  do! throwIf (prune_IncludePending r && (prune_OlderThan r <? minOlderThanForPending))
        ErrInvalidInput in
  do! throwIf (negb (prune_IncludePublished r) && negb (prune_IncludeDead r)
               && negb (prune_IncludePending r)) ErrInvalidInput in
  let r := with_limit r (if prune_Limit r <=? 0 then 1000 else prune_Limit r) in
  do! throwIf (10000 <? prune_Limit r) ErrInvalidInput in
  p_PruneOutbox (persistence s) r.

End Commands.
