(* ===== verification/StoreRun.v ===== *)
(** * Running the store's programs

    Inversion of a successful run: what [m w = (Ok r, w')] says of each
    statement, and the tactic [run] that takes a run apart. *)

From stdpp Require Import base tactics list gmap strings sorting.
From Stdlib Require Import ZArith Lia.
From S2P Require Import Prelude GoLib TaskDomain Database StoreHelpers.

Local Open Scope Z_scope.

Lemma ok_inj {A} (a b : A) : (Ok a : res A) = Ok b -> a = b.
Proof. congruence. Qed.

(** ** Primitives *)

Section Primitives.
Context `{Env}.

Lemma get_db_ok (d : DB) (w w' : World) : get_db w = (Ok d, w') <-> d = w_db w /\ w' = w.
Proof. unfold get_db. naive_solver. Qed.

Lemma modify_ok (f : DB -> DB) (u : unit) (w w' : World) :
  modify f w = (Ok u, w') <-> w' = set_db (f (w_db w)) w.
Proof. unfold modify. destruct u. naive_solver. Qed.

(** Statements that leave the tables alone. *)
Lemma clock_timestamp_ok (t : Z) (w w' : World) :
  clock_timestamp w = (Ok t, w') -> t = env_clock (w_tick w) /\ w_db w' = w_db w.
Proof. unfold clock_timestamp. naive_solver. Qed.

Lemma transaction_now_ok (t : Z) (w w' : World) :
  transaction_now w = (Ok t, w') -> t = w_now w /\ w_db w' = w_db w.
Proof. unfold transaction_now. naive_solver. Qed.

Lemma nextval_ok (t : table) (n : Z) (w w' : World) :
  nextval t w = (Ok n, w') -> w_db w' = w_db w.
Proof. unfold nextval. naive_solver. Qed.

Lemma random_token_ok (t : option string) (w w' : World) :
  random_token w = (Ok t, w') -> w_db w' = w_db w.
Proof. unfold random_token. naive_solver. Qed.

Lemma newToken_ok (t : string * string) (w w' : World) :
  newToken w = (Ok t, w') -> snd t = hashToken (fst t) /\ w_db w' = w_db w.
Proof.
  unfold newToken. rewrite bind_ok. intros (drawn & w1 & H1%random_token_ok & H2).
  destruct drawn; [apply ret_ok in H2|by apply throw_ok in H2].
  destruct H2 as [-> ->]. done.
Qed.

(** The world a transaction starts in. *)
Definition begin_tx (w : World) : World :=
  mkWorld (w_db w) (w_seq w) (S (w_tick w)) (w_random w) (env_clock (w_tick w)).

Lemma withTx_begin {A} (m : M A) (a : A) (w w' : World) :
  withTx m w = (Ok a, w') -> m (begin_tx w) = (Ok a, w').
Proof.
  unfold withTx. fold (begin_tx w). destruct (m (begin_tx w)) as [[a'|e] w1]; [|done].
  by intros [= -> ->].
Qed.

(** A transaction that commits ran on the tables as they were. *)
Lemma withTx_ok {A} (m : M A) (a : A) (w w' : World) :
  withTx m w = (Ok a, w') -> exists w0, w_db w0 = w_db w /\ m w0 = (Ok a, w').
Proof.
  unfold withTx. destruct (m _) as [[a'|e] w1] eqn:Hm; [|done].
  intros [= -> ->]. eexists. split; [|exact Hm]. done.
Qed.

(** ** Statements *)

Lemma select_task_ok (id : Z) (t : Task) (w w' : World) :
  select_task id w = (Ok t, w') <-> db_tasks (w_db w) !! id = Some t /\ w' = w.
Proof.
  unfold select_task. rewrite bind_ok. setoid_rewrite get_db_ok. split.
  - intros (d & w1 & (-> & ->) & Hm). destruct (db_tasks (w_db w) !! id).
    + apply ret_ok in Hm as [-> ->]. done.
    + by apply throw_ok in Hm.
  - intros [Ht ->]. eexists _, _. split; [done|]. by rewrite Ht.
Qed.

Lemma update_task_ok (id : Z) (c : Task -> bool) (f : Task -> Task) (o : option Task)
    (w w' : World) :
  update_task id c f w = (Ok o, w') ->
  match o with
  | Some row => exists t, db_tasks (w_db w) !! id = Some t /\ c t = true /\ row = f t
                /\ tasks_check row = true
                /\ w_db w' = set_tasks (<[id := row]> (db_tasks (w_db w))) (w_db w)
  | None => w_db w' = w_db w
            /\ forall t, db_tasks (w_db w) !! id = Some t -> c t = false
  end.
Proof.
  unfold update_task. rewrite bind_ok. setoid_rewrite get_db_ok.
  intros (d & w1 & (-> & ->) & Hm). destruct (db_tasks (w_db w) !! id) as [t|] eqn:Ht.
  - destruct (c t) eqn:Hc.
    + apply bind_ok in Hm as (? & ? & [Hk ->]%throwIf_ok & Hm).
      apply bind_ok in Hm as (? & ? & ->%modify_ok & Hm).
      apply ret_ok in Hm as [-> ->]. apply negb_false_iff in Hk. exists t. auto.
    + apply ret_ok in Hm as [-> ->]. split; [done|]. intros t' [= <-]. done.
  - apply ret_ok in Hm as [-> ->]. done.
Qed.

Lemma insert_task_ok (row r : Task) (w w' : World) :
  insert_task row w = (Ok r, w') ->
  r = row /\ tasks_check row = true /\ db_tasks (w_db w) !! task_ID row = None
  /\ w_db w' = set_tasks (<[task_ID row := row]> (db_tasks (w_db w))) (w_db w).
Proof.
  unfold insert_task. rewrite bind_ok. setoid_rewrite get_db_ok.
  intros (d & w1 & (-> & ->) & Hm).
  apply bind_ok in Hm as (? & ? & [Hk ->]%throwIf_ok & Hm).
  apply bind_ok in Hm as (? & ? & [Hf ->]%throwIf_ok & Hm).
  apply bind_ok in Hm as (? & ? & ->%modify_ok & Hm).
  apply ret_ok in Hm as [-> ->]. apply negb_false_iff in Hk.
  apply taken_false in Hf. auto.
Qed.

Lemma insert_requirement_ok (row r : Requirement) (w w' : World) :
  insert_requirement row w = (Ok r, w') ->
  r = row /\ requirements_check row = true
  /\ db_requirements (w_db w) !! requirement_ID row = None
  /\ w_db w' = set_requirements (<[requirement_ID row := row]> (db_requirements (w_db w)))
                 (w_db w).
Proof.
  unfold insert_requirement. rewrite bind_ok. setoid_rewrite get_db_ok.
  intros (d & w1 & (-> & ->) & Hm).
  apply bind_ok in Hm as (? & ? & [Hk ->]%throwIf_ok & Hm).
  apply bind_ok in Hm as (? & ? & [_ ->]%throwIf_ok & Hm).
  apply bind_ok in Hm as (? & ? & [Hf ->]%throwIf_ok & Hm).
  apply bind_ok in Hm as (? & ? & ->%modify_ok & Hm).
  apply ret_ok in Hm as [-> ->]. apply negb_false_iff in Hk.
  apply taken_false in Hf. auto.
Qed.

Lemma update_requirement_ok (id : Z) (c : Requirement -> bool) (f : Requirement -> Requirement)
    (n : Z) (w w' : World) :
  update_requirement id c f w = (Ok n, w') ->
  (n = 1 /\ exists r, db_requirements (w_db w) !! id = Some r /\ c r = true
     /\ requirements_check (f r) = true
     /\ w_db w' = set_requirements (<[id := f r]> (db_requirements (w_db w))) (w_db w))
  \/ (n = 0 /\ w_db w' = w_db w
      /\ forall r, db_requirements (w_db w) !! id = Some r -> c r = false).
Proof.
  unfold update_requirement. rewrite bind_ok. setoid_rewrite get_db_ok.
  intros (d & w1 & (-> & ->) & Hm).
  destruct (db_requirements (w_db w) !! id) as [r|] eqn:Hr.
  - destruct (c r) eqn:Hc.
    + apply bind_ok in Hm as (? & ? & [Hk ->]%throwIf_ok & Hm).
      apply bind_ok in Hm as (? & ? & ->%modify_ok & Hm).
      apply ret_ok in Hm as [-> ->]. apply negb_false_iff in Hk. left. eauto 10.
    + apply ret_ok in Hm as [-> ->]. right. naive_solver.
  - apply ret_ok in Hm as [-> ->]. right. naive_solver.
Qed.

Lemma insert_evidence_ok (row r : Evidence) (w w' : World) :
  insert_evidence row w = (Ok r, w') ->
  r = row /\ evidence_check row = true /\ db_evidence (w_db w) !! evidence_ID row = None
  /\ w_db w' = set_evidence (<[evidence_ID row := row]> (db_evidence (w_db w))) (w_db w).
Proof.
  unfold insert_evidence. rewrite bind_ok. setoid_rewrite get_db_ok.
  intros (d & w1 & (-> & ->) & Hm).
  apply bind_ok in Hm as (? & ? & [Hk ->]%throwIf_ok & Hm).
  apply bind_ok in Hm as (? & ? & [Hf ->]%throwIf_ok & Hm).
  apply bind_ok in Hm as (? & ? & ->%modify_ok & Hm).
  apply ret_ok in Hm as [-> ->]. apply negb_false_iff in Hk.
  apply taken_false in Hf. auto.
Qed.

Lemma insert_attempt_ok (row r : Attempt) (w w' : World) :
  insert_attempt row w = (Ok r, w') ->
  r = row /\ attempts_check row = true /\ db_attempts (w_db w) !! attempt_ID row = None
  /\ w_db w' = set_attempts (<[attempt_ID row := row]> (db_attempts (w_db w))) (w_db w).
Proof.
  unfold insert_attempt. rewrite bind_ok. setoid_rewrite get_db_ok.
  intros (d & w1 & (-> & ->) & Hm).
  apply bind_ok in Hm as (? & ? & [Hk ->]%throwIf_ok & Hm).
  apply bind_ok in Hm as (? & ? & [_ ->]%throwIf_ok & Hm).
  apply bind_ok in Hm as (? & ? & [Hf ->]%throwIf_ok & Hm).
  apply bind_ok in Hm as (? & ? & ->%modify_ok & Hm).
  apply ret_ok in Hm as [-> ->]. apply negb_false_iff in Hk.
  apply taken_false in Hf. auto.
Qed.

Lemma update_attempt_ok (id : Z) (c : Attempt -> bool) (f : Attempt -> Attempt)
    (n : Z) (w w' : World) :
  update_attempt id c f w = (Ok n, w') ->
  (n = 1 /\ exists a, db_attempts (w_db w) !! id = Some a /\ c a = true
     /\ attempts_check (f a) = true
     /\ w_db w' = set_attempts (<[id := f a]> (db_attempts (w_db w))) (w_db w))
  \/ (n = 0 /\ w_db w' = w_db w
      /\ forall a, db_attempts (w_db w) !! id = Some a -> c a = false).
Proof.
  unfold update_attempt. rewrite bind_ok. setoid_rewrite get_db_ok.
  intros (d & w1 & (-> & ->) & Hm).
  destruct (db_attempts (w_db w) !! id) as [r|] eqn:Hr.
  - destruct (c r) eqn:Hc.
    + apply bind_ok in Hm as (? & ? & [Hk ->]%throwIf_ok & Hm).
      apply bind_ok in Hm as (? & ? & ->%modify_ok & Hm).
      apply ret_ok in Hm as [-> ->]. apply negb_false_iff in Hk. left. eauto 10.
    + apply ret_ok in Hm as [-> ->]. right. naive_solver.
  - apply ret_ok in Hm as [-> ->]. right. naive_solver.
Qed.

Lemma insert_lease_ok (row r : LeaseRow) (w w' : World) :
  insert_lease row w = (Ok r, w') ->
  r = row /\ leases_check row = true
  /\ active_leases (lease_TaskID (row_Lease row)) (w_db w) = []
  /\ db_leases (w_db w) !! lease_ID (row_Lease row) = None
  /\ w_db w' = set_leases (<[lease_ID (row_Lease row) := row]> (db_leases (w_db w))) (w_db w).
Proof.
  unfold insert_lease. rewrite bind_ok. setoid_rewrite get_db_ok.
  intros (d & w1 & (-> & ->) & Hm).
  apply bind_ok in Hm as (? & ? & [Hk ->]%throwIf_ok & Hm).
  apply bind_ok in Hm as (? & ? & [Ha ->]%throwIf_ok & Hm).
  apply bind_ok in Hm as (? & ? & [Hf ->]%throwIf_ok & Hm).
  apply bind_ok in Hm as (? & ? & ->%modify_ok & Hm).
  apply ret_ok in Hm as [-> ->]. apply negb_false_iff in Hk.
  apply taken_false in Hf. apply bool_decide_eq_false in Ha. apply dec_stable in Ha. auto.
Qed.

(** A set-based update whose condition holds of one row only changes that row. *)
Lemma update_one {A} (t : gmap Z A) (c : A -> bool) (f : A -> A) (id : Z) (r : A) :
  t !! id = Some r -> c r = true ->
  (forall k x, t !! k = Some x -> c x = true -> k = id) ->
  (fun x => if c x then f x else x) <$> t = <[id := f r]> t.
Proof.
  intros Hr Hc Hu. apply map_eq. intros k. rewrite lookup_fmap.
  destruct (decide (k = id)) as [->|Hk].
  - rewrite Hr, lookup_insert_eq. simpl. by rewrite Hc.
  - rewrite lookup_insert_ne by done. destruct (t !! k) as [x|] eqn:Hx; [|done].
    simpl. destruct (c x) eqn:Hcx; [|done]. by destruct Hk; eapply Hu.
Qed.

Lemma update_leases_ok (c : LeaseRow -> bool) (f : LeaseRow -> LeaseRow) (l : list LeaseRow)
    (w w' : World) :
  update_leases c f w = (Ok l, w') ->
  l = f <$> rows c (db_leases (w_db w))
  /\ Forall (fun r => leases_check r = true) l
  /\ w_db w' = set_leases ((fun r => if c r then f r else r) <$> db_leases (w_db w)) (w_db w).
Proof.
  unfold update_leases. rewrite bind_ok. setoid_rewrite get_db_ok.
  intros (d & w1 & (-> & ->) & Hm).
  apply bind_ok in Hm as (? & ? & [Hk ->]%throwIf_ok & Hm).
  apply bind_ok in Hm as (? & ? & ->%modify_ok & Hm).
  apply ret_ok in Hm as [-> ->]. split; [done|]. split; [|done].
  apply negb_false_iff, Is_true_true, forallb_True in Hk. apply Forall_fmap.
  eapply Forall_impl; [exact Hk|]. simpl. intros r. apply Is_true_true.
Qed.

Lemma insert_event_ok (row : Event) (u : unit) (w w' : World) :
  insert_event row w = (Ok u, w') ->
  events_check row = true /\ w_db w' = set_events (db_events (w_db w) ++ [row]) (w_db w).
Proof.
  unfold insert_event. rewrite bind_ok. setoid_rewrite get_db_ok.
  intros (d & w1 & (-> & ->) & Hm).
  apply bind_ok in Hm as (? & ? & [Hk ->]%throwIf_ok & Hm).
  apply modify_ok in Hm as ->. apply negb_false_iff in Hk. auto.
Qed.

Lemma insert_outbox_ok (row : OutboxRow) (u : unit) (w w' : World) :
  insert_outbox row w = (Ok u, w') ->
  outbox_check row = true /\ db_outbox (w_db w) !! outbox_ID (row_Outbox row) = None
  /\ w_db w' = set_outbox (<[outbox_ID (row_Outbox row) := row]> (db_outbox (w_db w))) (w_db w).
Proof.
  unfold insert_outbox. rewrite bind_ok. setoid_rewrite get_db_ok.
  intros (d & w1 & (-> & ->) & Hm).
  apply bind_ok in Hm as (? & ? & [Hk ->]%throwIf_ok & Hm).
  apply bind_ok in Hm as (? & ? & [Hf ->]%throwIf_ok & Hm).
  apply modify_ok in Hm as ->. apply negb_false_iff in Hk. apply taken_false in Hf. auto.
Qed.

Lemma update_outbox_ok (id : Z) (c : OutboxRow -> bool) (f : OutboxRow -> OutboxRow)
    (o : option OutboxRow) (w w' : World) :
  update_outbox id c f w = (Ok o, w') ->
  match o with
  | Some row => exists r, db_outbox (w_db w) !! id = Some r /\ c r = true /\ row = f r
                /\ outbox_check row = true
                /\ w_db w' = set_outbox (<[id := row]> (db_outbox (w_db w))) (w_db w)
  | None => w_db w' = w_db w
  end.
Proof.
  unfold update_outbox. rewrite bind_ok. setoid_rewrite get_db_ok.
  intros (d & w1 & (-> & ->) & Hm). destruct (db_outbox (w_db w) !! id) as [t|] eqn:Ht.
  - destruct (c t) eqn:Hc.
    + apply bind_ok in Hm as (? & ? & [Hk ->]%throwIf_ok & Hm).
      apply bind_ok in Hm as (? & ? & ->%modify_ok & Hm).
      apply ret_ok in Hm as [-> ->]. apply negb_false_iff in Hk. exists t. auto.
    + by apply ret_ok in Hm as [-> ->].
  - by apply ret_ok in Hm as [-> ->].
Qed.

Lemma insert_audit_ok (row : AuditEvent) (u : unit) (w w' : World) :
  insert_audit row w = (Ok u, w') ->
  w_db w' = set_audit (db_audit (w_db w) ++ [row]) (w_db w).
Proof.
  unfold insert_audit. rewrite bind_ok. setoid_rewrite get_db_ok.
  intros (d & w1 & (-> & ->) & ->%modify_ok). done.
Qed.

Lemma activeLeaseAttempt_ok (taskID : Z) (o : option Z) (w w' : World) :
  activeLeaseAttempt taskID w = (Ok o, w') ->
  w' = w /\ match o with
            | Some a => exists r, r ∈ active_leases taskID (w_db w)
                                  /\ lease_AttemptID (row_Lease r) = a
            | None => active_leases taskID (w_db w) = []
            end.
Proof.
  unfold activeLeaseAttempt. rewrite bind_ok. setoid_rewrite get_db_ok.
  intros (d & w1 & (-> & ->) & Hm). destruct (active_leases taskID (w_db w)) as [|r l].
  - by apply ret_ok in Hm as [-> ->].
  - apply ret_ok in Hm as [-> ->]. split; [done|]. exists r. split; [left|done].
Qed.

Lemma inspectDependencies_ok (taskID : Z) (s : dependencyInspection) (w w' : World) :
  inspectDependencies taskID w = (Ok s, w') ->
  w_db w' = w_db w
  /\ inspect_Waiting s = existsb still_open (task_Status <$> dependency_tasks taskID (w_db w))
  /\ inspect_TerminalFailure s
     = existsb failed_for_good (task_Status <$> dependency_tasks taskID (w_db w)).
Proof.
  unfold inspectDependencies. rewrite bind_ok. setoid_rewrite get_db_ok.
  intros (d & w1 & (-> & ->) & Hm). apply bind_ok in Hm as (t & w2 & Ht & Hm).
  apply clock_timestamp_ok in Ht as [_ Hw]. apply ret_ok in Hm as [-> ->]. done.
Qed.

Lemma blockingAncestor_ok (task : Task) (o : option AncestorBlock) (w w' : World) :
  blockingAncestor task w = (Ok o, w') -> w' = w.
Proof.
  unfold blockingAncestor. rewrite bind_ok. setoid_rewrite get_db_ok.
  intros (d & w1 & (-> & ->) & Hm). destruct (db_tasks (w_db w) !! task_ID task).
  - case_bool_decide.
    + apply bind_ok in Hm as (? & ? & [_ ->]%lift_ok & Hm). by apply ret_ok in Hm as [_ ->].
    + by apply ret_ok in Hm as [_ ->].
  - by apply ret_ok in Hm as [_ ->].
Qed.

(** What a verified lease command establishes. *)
Lemma verifyLease_ok (command : LeaseCommand) (record : leaseRecord) (w w' : World) :
  verifyLease command w = (Ok record, w') ->
  w_db w' = w_db w
  /\ exists k r, db_leases (w_db w) !! k = Some r
     /\ lease_of (lcmd_TaskID command) (lcmd_AttemptID command) r = true
     /\ lease_active r = true
     /\ record_Lease record = row_Lease r
     /\ row_TokenHash r = hashToken (lcmd_LeaseToken command)
     /\ env_clock (w_tick w) < lease_ExpiresAt (row_Lease r).
Proof.
  unfold verifyLease. rewrite bind_ok. setoid_rewrite get_db_ok.
  intros (d & w1 & (-> & ->) & Hm).
  destruct (rows _ (db_leases (w_db w))) as [|r l] eqn:Hr; [by apply throw_ok in Hm|].
  assert (Hin : r ∈ rows (lease_of (lcmd_TaskID command) (lcmd_AttemptID command))
                      (db_leases (w_db w))) by (rewrite Hr; left).
  apply rows_spec in Hin as (k & Hk & Hl).
  apply bind_ok in Hm as (now & w2 & [Hn Hw]%clock_timestamp_ok & Hm).
  apply bind_ok in Hm as (? & ? & [Ha ->]%throwIf_ok & Hm).
  apply bind_ok in Hm as (? & ? & [Ht ->]%throwIf_ok & Hm).
  apply bind_ok in Hm as (? & ? & [He ->]%throwIf_ok & Hm).
  apply ret_ok in Hm as [-> ->]. simpl in *.
  apply negb_false_iff in Ha, Ht, He. apply bool_decide_eq_true in Ht.
  split; [done|]. exists k, r. repeat split; auto. subst now. lia.
Qed.

End Primitives.
