(* ===== verification/StoreSpec.v ===== *)
(** * The abstract task machine

    What the store promises: every method is a sequence of the steps below, each
    a whole change of the tables.  A step is indexed by what it touches
    ([target]) and by whether it may release a coordination hold. *)

From stdpp Require Import base tactics list gmap strings sorting relations.
From Stdlib Require Import ZArith Lia.
From S2P Require Import Prelude GoLib TaskDomain Database StoreHelpers StoreMutate StoreQueue.
From S2P Require Import StoreOutbox StoreCreate StoreRun.

Local Open Scope Z_scope.

(** ** Rows *)

(** The columns of a task no statement ever changes. *)
Record immutable (t t' : Task) : Prop := {
  imm_ID : task_ID t' = task_ID t;
  imm_OrganizationID : task_OrganizationID t' = task_OrganizationID t;
  imm_Revision : task_OrganizationRevisionID t' = task_OrganizationRevisionID t;
  imm_Requested : task_RequestedByRoleID t' = task_RequestedByRoleID t;
  imm_Role : task_AssignedRoleID t' = task_AssignedRoleID t;
  imm_Unit : task_AssignedUnitID t' = task_AssignedUnitID t;
  imm_Key : task_IdempotencyKey t' = task_IdempotencyKey t;
  imm_Hash : task_RequestHash t' = task_RequestHash t;
  imm_Title : task_Title t' = task_Title t;
  imm_Instructions : task_Instructions t' = task_Instructions t;
  imm_Criteria : task_AcceptanceCriteria t' = task_AcceptanceCriteria t;
  imm_Priority : task_Priority t' = task_Priority t;
  imm_MaxAttempts : task_MaxAttempts t' = task_MaxAttempts t;
  imm_Correlation : task_CorrelationID t' = task_CorrelationID t;
  imm_Causation : task_CausationID t' = task_CausationID t;
  imm_Created : task_CreatedAt t' = task_CreatedAt t }.

#[export] Instance immutable_refl : Reflexive immutable.
Proof. intros t. by split. Qed.

#[export] Instance immutable_trans : Transitive immutable.
Proof. intros x y z [] []. split; congruence. Qed.

(** Leased and running tasks hold a lease. *)
Definition has_lease (s : Status) : bool :=
  match s with StatusLeased | StatusRunning => true | _ => false end.

(** The state of the attempt behind a lease, by the status of the task. *)
Definition attempt_state_for (s : Status) : AttemptState :=
  match s with StatusRunning => AttemptRunning | _ => AttemptLeased end.

(** An update that keeps the status: the version does not decrease, a hold stays
    a hold, and a terminal task is only ever classified. *)
Record quiet (t t' : Task) : Prop := {
  quiet_imm : immutable t t';
  quiet_status : task_Status t' = task_Status t;
  quiet_count : task_AttemptCount t' = task_AttemptCount t;
  quiet_held : isCoordinationHeld t' = isCoordinationHeld t;
  quiet_version : task_Version t <= task_Version t';
  quiet_check : tasks_check t' = true;
  quiet_terminal : Terminal (task_Status t) = true ->
    exists class, task_TaskClass t = TaskClassLegacyUnspecified /\ t' = task_classified class t }.

(** A transition to [to] that adds [n] attempts. *)
Record moved (n : Z) (t : Task) (to : Status) (t' : Task) : Prop := {
  moved_imm : immutable t t';
  moved_status : task_Status t' = to;
  moved_count : task_AttemptCount t' = task_AttemptCount t + n;
  moved_class : task_TaskClass t' = task_TaskClass t;
  moved_version : task_Version t' = task_Version t + 1;
  moved_check : tasks_check t' = true }.

(** ** The journal

    A journal entry of task [id]: the event, the outbox row and the audit row
    that one [appendTaskEvent] writes. *)
Record journal_rows (id : Z) (from to : option Status) (e : Event) (o : OutboxRow) (d : DB)
    : Prop := {
  jr_task : event_TaskID e = id;
  jr_sequence : event_Sequence e = next_sequence id (db_events d);
  jr_from : event_FromStatus e = from;
  jr_to : event_ToStatus e = to;
  jr_fresh : db_outbox d !! row_id o = None;
  jr_status : outbox_Status (row_Outbox o) = OutboxPending;
  jr_count : outbox_AttemptCount (row_Outbox o) = 0;
  jr_about : outbox_AggregateType (row_Outbox o) = "task"%string
             /\ outbox_AggregateID (row_Outbox o) = FormatInt id
             /\ outbox_EventType (row_Outbox o) = event_EventType e;
  jr_check : outbox_check o = true }.

Definition journal (e : Event) (o : OutboxRow) (a : AuditEvent) (d : DB) : DB :=
  set_audit (db_audit d ++ [a])
    (set_outbox (<[row_id o := o]> (db_outbox d)) (set_events (db_events d ++ [e]) d)).

(** ** Outbox moves *)

Inductive outbox_move : OutboxRow -> OutboxRow -> Prop :=
| om_claim r hash consumer expires updated :
    outbox_is OutboxPending r = true ->
    outbox_move r (outbox_claimed hash consumer expires updated r)
| om_publish r published updated :
    outbox_is OutboxClaimed r = true ->
    outbox_move r (outbox_published published updated r)
| om_return r lastError available updated :
    outbox_is OutboxClaimed r = true ->
    outbox_move r (outbox_returned (outbox_after_failure (row_Outbox r)) lastError available
                     updated r).

(** ** Steps *)

Inductive target : Type :=
| OnTask (id : Z)
| OnOutbox (id : Z)
| OnRetention.

Definition put_task (id : Z) (t : Task) (d : DB) : DB :=
  set_tasks (<[id := t]> (db_tasks d)) d.
Definition put_attempt (id : Z) (a : Attempt) (d : DB) : DB :=
  set_attempts (<[id := a]> (db_attempts d)) d.
Definition put_lease (id : Z) (r : LeaseRow) (d : DB) : DB :=
  set_leases (<[id := r]> (db_leases d)) d.
Definition put_requirement (id : Z) (r : Requirement) (d : DB) : DB :=
  set_requirements (<[id := r]> (db_requirements d)) d.
Definition put_dead_letter (id : Z) (l : DeadLetter) (d : DB) : DB :=
  set_dead_letters (<[id := l]> (db_dead_letters d)) d.
Definition put_outbox (id : Z) (r : OutboxRow) (d : DB) : DB :=
  set_outbox (<[id := r]> (db_outbox d)) d.

(** The active lease and the live attempt of a task that holds a lease. *)
Record held_by (d : DB) (id : Z) (t : Task) (lid : Z) (r : LeaseRow) (aid : Z) (a : Attempt)
    : Prop := {
  held_lease : db_leases d !! lid = Some r;
  held_active : lease_active r = true;
  held_task : lease_TaskID (row_Lease r) = id;
  held_attempt : lease_AttemptID (row_Lease r) = aid;
  held_row : db_attempts d !! aid = Some a;
  held_owner : attempt_TaskID a = id;
  held_state : attempt_state_for (task_Status t) = attempt_State a }.

(** The end of an attempt: another state and the outcome, the rest unchanged. *)
Record attempt_over_of (a a' : Attempt) : Prop := {
  over_ID : attempt_ID a' = attempt_ID a;
  over_Task : attempt_TaskID a' = attempt_TaskID a;
  over_Ordinal : attempt_Ordinal a' = attempt_Ordinal a;
  over_State : attempt_over (attempt_State a') = true;
  over_check : attempts_check a' = true }.

(** The dead letter a transition to [to] writes. *)
Definition letter_for (id : Z) (to : Status) (count max : Z) (letter : option DeadLetter) (d : DB)
    : Prop :=
  match letter with
  | Some l => to = StatusDeadLetter /\ max <= count /\ dead_TaskID l = id
              /\ db_dead_letters d !! dead_ID l = None /\ dead_RedriveTaskID l = None
              /\ dead_letters_check l = true
              /\ (forall k x, db_dead_letters d !! k = Some x -> dead_TaskID x <> id)
  | None => to <> StatusDeadLetter
  end.

Definition put_letter (letter : option DeadLetter) (d : DB) : DB :=
  match letter with Some l => put_dead_letter (dead_ID l) l d | None => d end.

(** A hold ends by a release, or with the task. *)
Definition hold_respected (release : bool) (t : Task) (to : Status) : Prop :=
  isCoordinationHeld t = true ->
  release = true \/ to = StatusRejected \/ to = StatusCancelled.

Inductive step (release : bool) : target -> DB -> DB -> Prop :=
| step_create d id t deps reqs e o a :
    db_tasks d !! id = None -> task_ID t = id -> tasks_check t = true ->
    (task_Status t = StatusPending \/ task_Status t = StatusReady
     \/ task_Status t = StatusBlocked) ->
    task_AttemptCount t = 0 ->
    (forall k x, db_tasks d !! k = Some x ->
       with_key (task_OrganizationID t) (task_IdempotencyKey t) x = false) ->
    (forall dep, dep ∈ deps -> dep <> id /\ is_Some (db_tasks d !! dep)) -> NoDup deps ->
    (forall k r, reqs !! k = Some r -> db_requirements d !! k = Some r
       \/ (db_requirements d !! k = None /\ requirement_ID r = k /\ requirement_TaskID r = id)) ->
    db_requirements d ⊆ reqs ->
    journal_rows id None (Some (task_Status t)) e o d ->
    step release (OnTask id) d
      (journal e o a (set_requirements reqs
        (set_dependencies (db_dependencies d ++ (pair id <$> deps)) (put_task id t d))))
| step_quiet d id t t' :
    db_tasks d !! id = Some t -> quiet t t' ->
    step release (OnTask id) d (put_task id t' d)
| step_event d id t e o a :
    db_tasks d !! id = Some t -> journal_rows id None None e o d ->
    step release (OnTask id) d (journal e o a d)
| step_plain d id t t' to e o a :
    db_tasks d !! id = Some t -> CanTransition (task_Status t) to = true ->
    has_lease (task_Status t) = false -> has_lease to = false -> to <> StatusDeadLetter ->
    (to = StatusCompleted -> unsatisfied id d = 0) ->
    hold_respected release t to -> moved 0 t to t' ->
    journal_rows id (Some (task_Status t)) (Some to) e o d ->
    step release (OnTask id) d (journal e o a (put_task id t' d))
| step_claim d id t t' att r e o a :
    db_tasks d !! id = Some t -> task_Status t = StatusReady ->
    task_AttemptCount t < task_MaxAttempts t -> moved 1 t StatusLeased t' ->
    db_attempts d !! attempt_ID att = None -> attempt_TaskID att = id ->
    attempt_Ordinal att = task_AttemptCount t + 1 -> attempt_State att = AttemptLeased ->
    attempts_check att = true ->
    db_leases d !! lease_ID (row_Lease r) = None -> lease_active r = true ->
    lease_TaskID (row_Lease r) = id -> lease_AttemptID (row_Lease r) = attempt_ID att ->
    leases_check r = true -> active_leases id d = [] ->
    journal_rows id (Some StatusReady) (Some StatusLeased) e o d ->
    step release (OnTask id) d
      (journal e o a (put_task id t'
        (put_lease (lease_ID (row_Lease r)) r (put_attempt (attempt_ID att) att d))))
| step_start d id t t' lid r aid att started updated e o a :
    db_tasks d !! id = Some t -> task_Status t = StatusLeased ->
    held_by d id t lid r aid att -> attempts_check (attempt_started started updated att) = true ->
    moved 0 t StatusRunning t' ->
    journal_rows id (Some StatusLeased) (Some StatusRunning) e o d ->
    step release (OnTask id) d
      (journal e o a (put_task id t' (put_attempt aid (attempt_started started updated att) d)))
| step_heartbeat d id t lid r aid att heartbeat expires :
    db_tasks d !! id = Some t -> has_lease (task_Status t) = true ->
    held_by d id t lid r aid att ->
    leases_check (lease_extended heartbeat expires r) = true ->
    step release (OnTask id) d (put_lease lid (lease_extended heartbeat expires r) d)
| step_end d id t t' to lid r aid att att' status reason now letter e o a :
    db_tasks d !! id = Some t -> has_lease (task_Status t) = true ->
    CanTransition (task_Status t) to = true -> has_lease to = false ->
    held_by d id t lid r aid att -> attempt_over_of att att' ->
    status <> LeaseActive -> leases_check (lease_closed status reason now r) = true ->
    letter_for id to (task_AttemptCount t) (task_MaxAttempts t) letter d ->
    moved 0 t to t' ->
    journal_rows id (Some (task_Status t)) (Some to) e o d ->
    step release (OnTask id) d
      (journal e o a (put_task id t' (put_letter letter
        (put_lease lid (lease_closed status reason now r) (put_attempt aid att' d)))))
| step_dependency d id t dep :
    db_tasks d !! id = Some t -> is_Some (db_tasks d !! dep) -> id <> dep ->
    Terminal (task_Status t) = false ->
    id ∉ dependency_graph (db_dependencies d) dep ->
    (id, dep) ∉ db_dependencies d ->
    step release (OnTask id) d (set_dependencies (db_dependencies d ++ [(id, dep)]) d)
| step_requirement d id t r :
    db_tasks d !! id = Some t -> Terminal (task_Status t) = false ->
    db_requirements d !! requirement_ID r = None -> requirement_TaskID r = id ->
    step release (OnTask id) d (put_requirement (requirement_ID r) r d)
| step_resolve d id t rid r status satisfied updated :
    db_tasks d !! id = Some t -> Terminal (task_Status t) = false ->
    db_requirements d !! rid = Some r -> requirement_TaskID r = id ->
    requirement_Status r = RequirementPending -> status <> RequirementPending ->
    step release (OnTask id) d
      (put_requirement rid (requirement_resolved status satisfied updated r) d)
| step_evidence d id t ev :
    db_tasks d !! id = Some t -> Terminal (task_Status t) = false ->
    evidence_TaskID ev = id -> db_evidence d !! evidence_ID ev = None ->
    (forall rid, evidence_RequirementID ev = Some rid ->
       exists r, db_requirements d !! rid = Some r /\ requirement_TaskID r = id) ->
    step release (OnTask id) d (set_evidence (<[evidence_ID ev := ev]> (db_evidence d)) d)
| step_stamp d lid l now successor :
    db_dead_letters d !! lid = Some l -> dead_RedriveTaskID l = None ->
    is_Some (db_tasks d !! successor) -> successor <> dead_TaskID l ->
    (forall k x, db_dead_letters d !! k = Some x ->
       dead_TaskID x <> successor /\ dead_RedriveTaskID x <> Some successor) ->
    step release (OnTask (dead_TaskID l)) d
      (put_dead_letter lid (dead_redriven now successor l) d)
| step_outbox d id r r' :
    db_outbox d !! id = Some r -> outbox_move r r' -> outbox_check r' = true ->
    step release (OnOutbox id) d (put_outbox id r' d)
| step_prune d kept :
    kept ⊆ db_outbox d ->
    (forall k r, db_outbox d !! k = Some r -> outbox_is OutboxClaimed r = true ->
       kept !! k = Some r) ->
    step release OnRetention d (set_outbox kept d).

(** Steps on one target, and on any. *)
Definition steps_on (release : bool) (k : target) : DB -> DB -> Prop := rtc (step release k).
Definition any_step (release : bool) (d d' : DB) : Prop := exists k, step release k d d'.
Definition steps (release : bool) : DB -> DB -> Prop := rtc (any_step release).

Lemma steps_on_steps release k d d' : steps_on release k d d' -> steps release d d'.
Proof.
  intros H. induction H as [d|d d1 d2 Hs _ IH]; [reflexivity|].
  eapply rtc_l; [by exists k|done].
Qed.

(** ** Frames *)

Lemma put_task_frame id t d k : k <> id -> db_tasks (put_task id t d) !! k = db_tasks d !! k.
Proof. intros Hk. simpl. by rewrite lookup_insert_ne. Qed.

(** A step on one task leaves the rows of the others. *)
Lemma step_frame_task release id d d' k :
  step release (OnTask id) d d' -> k <> id -> db_tasks d' !! k = db_tasks d !! k.
Proof.
  intros H Hk. inversion H; subst; simpl; try done; try by rewrite lookup_insert_ne.
  destruct letter; simpl; by rewrite lookup_insert_ne.
Qed.

Lemma steps_on_frame_task release id d d' k :
  steps_on release (OnTask id) d d' -> k <> id -> db_tasks d' !! k = db_tasks d !! k.
Proof.
  intros H Hk. induction H as [d|d d1 d2 Hs _ IH]; [done|].
  rewrite IH. by eapply step_frame_task.
Qed.

(** A step on one task leaves the leases of the others. *)
Lemma step_frame_lease release id d d' k r :
  step release (OnTask id) d d' -> db_leases d !! k = Some r ->
  lease_TaskID (row_Lease r) <> id -> db_leases d' !! k = Some r.
Proof.
  intros H Hr Hn. inversion H; subst; simpl; try done.
  - rewrite lookup_insert_ne; [done|]. intros <-. congruence.
  - rewrite lookup_insert_ne; [done|]. intros <-.
    match goal with Hh : held_by _ _ _ _ _ _ _ |- _ => destruct Hh end. congruence.
  - destruct letter; simpl; (rewrite lookup_insert_ne; [done|]); intros <-;
      match goal with Hh : held_by _ _ _ _ _ _ _ |- _ => destruct Hh end; congruence.
Qed.

Lemma steps_on_frame_lease release id d d' k r :
  steps_on release (OnTask id) d d' -> db_leases d !! k = Some r ->
  lease_TaskID (row_Lease r) <> id -> db_leases d' !! k = Some r.
Proof.
  intros H Hr Hn. induction H as [d|d d1 d2 Hs _ IH]; [done|].
  apply IH. by eapply step_frame_lease.
Qed.

(** A step on a row of the outbox leaves the other rows and the other tables. *)
Lemma step_frame_outbox release id d d' k :
  step release (OnOutbox id) d d' -> k <> id ->
  db_outbox d' !! k = db_outbox d !! k.
Proof. intros H Hk. inversion H; subst; simpl. by rewrite lookup_insert_ne. Qed.

Lemma steps_on_frame_outbox release id d d' k :
  steps_on release (OnOutbox id) d d' -> k <> id ->
  db_outbox d' !! k = db_outbox d !! k.
Proof.
  intros H Hk. induction H as [d|d d1 d2 Hs _ IH]; [done|].
  rewrite IH. by eapply step_frame_outbox.
Qed.
