(* ===== verification/DependencyGraph.v ===== *)
(** * The dependency graph

    The cycle test of AddDependency (internal/tasks/postgres/mutate.go): the
    recursive query [dependency_graph] computes the transitive closure of the
    dependency table, and adding an edge it accepts keeps the table acyclic. *)

From stdpp Require Import base tactics list gmap relations.
From Stdlib Require Import ZArith Lia.
From S2P Require Import Prelude GoLib TaskDomain Database StoreHelpers StoreMutate.

Local Open Scope Z_scope.

(** [x] depends on [y] directly. *)
Definition edge (edges : list (Z * Z)) (x y : Z) : Prop := (x, y) ∈ edges.

Definition acyclic (edges : list (Z * Z)) : Prop := forall x, ~ tc (edge edges) x x.

Section Graph.
Context (edges : list (Z * Z)).

Lemma round_spec (found : gset Z) (y : Z) :
  y ∈ dependency_round edges found
  <-> y ∈ found \/ exists x, x ∈ found /\ edge edges x y.
Proof.
  unfold dependency_round. rewrite elem_of_union, elem_of_list_to_set, list_elem_of_omap.
  split; (intros [?|H]; [by left|right]).
  - destruct H as ([x y'] & Hin & Hd). case_decide; [|done]. injection Hd as ->. eauto.
  - destruct H as (x & Hx & He). exists (x, y). split; [done|]. by rewrite decide_True.
Qed.

Lemma round_subseteq (found : gset Z) : found ⊆ dependency_round edges found.
Proof. intros y Hy. apply round_spec. by left. Qed.

Lemma rounds_subseteq (n : nat) (found : gset Z) : found ⊆ dependency_rounds n edges found.
Proof.
  revert found. induction n as [|n IH]; intros found; simpl; [done|].
  etransitivity; [apply round_subseteq|apply IH].
Qed.

(** The targets of the edges bound what can be found. *)
Definition targets : gset Z := list_to_set (snd <$> edges).

Lemma size_targets : (size targets <= length edges)%nat.
Proof.
  unfold targets. clear. induction edges as [|e l IH].
  { rewrite fmap_nil, list_to_set_nil, size_empty. done. }
  rewrite fmap_cons, list_to_set_cons. simpl.
  assert (size ({[e.2]} ∪ list_to_set (snd <$> l) : gset Z)
          <= size ({[e.2]} : gset Z) + size (list_to_set (snd <$> l) : gset Z))%nat as Hs.
  { rewrite size_union_alt. apply Nat.add_le_mono_l, subseteq_size. set_solver. }
  rewrite size_singleton in Hs. lia.
Qed.

Lemma round_targets (found : gset Z) :
  found ⊆ targets -> dependency_round edges found ⊆ targets.
Proof.
  intros Hf y [Hy|(x & _ & He)]%round_spec; [by apply Hf|].
  unfold targets. apply elem_of_list_to_set, list_elem_of_fmap. by exists (x, y).
Qed.

(** A fixpoint of a round stays. *)
Lemma rounds_fixpoint (n : nat) (found : gset Z) :
  dependency_round edges found ⊆ found -> dependency_rounds n edges found = found.
Proof.
  intros Hr. assert (Heq : dependency_round edges found = found).
  { apply set_eq. split; [apply Hr|apply round_subseteq]. }
  induction n as [|n IH]; simpl; [done|]. by rewrite Heq.
Qed.

(** Enough rounds reach the fixpoint: each of the others adds a target. *)
Lemma rounds_closed (n : nat) (found : gset Z) :
  found ⊆ targets -> (size targets <= size found + n)%nat ->
  dependency_round edges (dependency_rounds n edges found) ⊆ dependency_rounds n edges found.
Proof.
  revert found. induction n as [|n IH]; intros found Hf Hs; simpl.
  - assert (found = targets) as ->.
    { apply set_eq. intros y. split; [apply Hf|].
      assert (targets ⊆ found) as Ht; [|apply Ht].
      apply (set_subseteq_size_eq (C := gset Z)) in Hf; [by rewrite Hf|lia]. }
    by apply round_targets.
  - destruct (decide (dependency_round edges found ⊆ found)) as [Hr|Hr].
    + assert (Heq : dependency_round edges found = found).
      { apply set_eq. split; [apply Hr|apply round_subseteq]. }
      rewrite Heq, rounds_fixpoint by done. done.
    + apply IH; [by apply round_targets|].
      assert (size found < size (dependency_round edges found))%nat; [|lia].
      apply subset_size. split; [apply round_subseteq|done].
Qed.

Lemma tc_snoc (x y z : Z) : tc (edge edges) x y -> edge edges y z -> tc (edge edges) x z.
Proof. intros Ht He. by eapply tc_r. Qed.

Lemma rounds_sound (n : nat) (found : gset Z) (start y : Z) :
  (forall x, x ∈ found -> tc (edge edges) start x) ->
  y ∈ dependency_rounds n edges found -> tc (edge edges) start y.
Proof.
  revert found. induction n as [|n IH]; intros found Hf; simpl; [apply Hf|].
  apply IH. intros x [Hx|(z & Hz & He)]%round_spec; [by apply Hf|].
  eapply tc_snoc; [by apply Hf|done].
Qed.

(** The query computes the transitive closure. *)
Lemma dependency_graph_spec (start y : Z) :
  y ∈ dependency_graph edges start <-> tc (edge edges) start y.
Proof.
  unfold dependency_graph. set (found := list_to_set _ : gset Z).
  assert (Hfound : forall x, x ∈ found <-> edge edges start x).
  { intros x. unfold found. rewrite elem_of_list_to_set, list_elem_of_omap. split.
    - intros ([a b] & Hin & Hd). destruct (a =? start) eqn:Ha; [|done].
      apply Z.eqb_eq in Ha as ->. injection Hd as ->. done.
    - intros He. exists (start, x). split; [done|]. by rewrite Z.eqb_refl. }
  assert (Hclosed : dependency_round edges (dependency_rounds (length edges) edges found)
                    ⊆ dependency_rounds (length edges) edges found).
  { apply rounds_closed; [|pose proof size_targets; lia].
    intros x Hx%Hfound. unfold targets.
    apply elem_of_list_to_set, list_elem_of_fmap. by exists (start, x). }
  split.
  - apply rounds_sound. intros x Hx%Hfound. by apply tc_once.
  - revert y. apply tc_ind_r.
    + intros z He. by apply rounds_subseteq, Hfound.
    + intros x z _ He IH. apply Hclosed, round_spec. right. eauto.
Qed.

End Graph.

(** ** Adding an edge *)

Lemma edge_app (edges extra : list (Z * Z)) (x y : Z) :
  edge (edges ++ extra) x y <-> edge edges x y \/ edge extra x y.
Proof. apply elem_of_app. Qed.

Lemma tc_weaken (edges extra : list (Z * Z)) (x y : Z) :
  tc (edge edges) x y -> tc (edge (edges ++ extra)) x y.
Proof. apply (tc_congruence id). intros a b He. apply edge_app. by left. Qed.

(** A path that uses the new edges from [id] runs through [id]. *)
Lemma tc_split (edges : list (Z * Z)) (id : Z) (deps : list Z) (x y : Z) :
  tc (edge (edges ++ (pair id <$> deps))) x y ->
  tc (edge edges) x y
  \/ (rtc (edge edges) x id /\ exists dep, dep ∈ deps /\ rtc (edge (edges ++ (pair id <$> deps))) dep y).
Proof.
  intros H. induction H as [x y He|x y z He Ht IH].
  - apply edge_app in He as [He|He]; [left; by apply tc_once|right].
    apply list_elem_of_fmap in He as (dep & [= -> ->] & Hd).
    split; [reflexivity|]. exists dep. split; [done|reflexivity].
  - apply edge_app in He as [He|He].
    + destruct IH as [IH|[Hr Hd]]; [left; by eapply tc_l|right].
      split; [by eapply rtc_l|done].
    + apply list_elem_of_fmap in He as (dep & [= -> ->] & Hd). right.
      split; [reflexivity|]. exists dep. split; [done|]. by apply tc_rtc.
Qed.

(** Edges from [id] to tasks that do not reach [id] close no cycle. *)
Lemma acyclic_add (edges : list (Z * Z)) (id : Z) (deps : list Z) :
  acyclic edges ->
  (forall dep, dep ∈ deps -> dep <> id /\ ~ tc (edge edges) dep id) ->
  acyclic (edges ++ (pair id <$> deps)).
Proof.
  intros Ha Hd. set (E := edges ++ (pair id <$> deps)).
  assert (Hno : forall dep, dep ∈ deps -> ~ rtc (edge E) dep id).
  { intros dep Hin Hr. apply rtc_tc in Hr as [->|Ht]; [by apply Hd in Hin as [? _]|].
    apply tc_split in Ht as [Ht|[Hr _]]; [by apply (proj2 (Hd dep Hin))|].
    apply rtc_tc in Hr as [->|Ht]; [by apply Hd in Hin as [? _]|].
    by apply (proj2 (Hd dep Hin)). }
  intros x Ht. pose proof Ht as Ht0. apply tc_split in Ht as [Ht|[Hr (dep & Hin & Hr')]].
  - by apply (Ha x).
  - apply (Hno dep Hin). etransitivity; [exact Hr'|].
    clear -Hr. induction Hr as [z|z z' z'' He _ IH]; [reflexivity|].
    eapply rtc_l; [apply edge_app; by left|done].
Qed.
