(* ===== verification/LeaseInvariant.v ===== *)
(** * Leases and attempts stay consistent

    The part of the invariant about the lease and attempt tables, and that every
    step of the abstract machine preserves it. *)

From stdpp Require Import base tactics list gmap strings sorting.
From Stdlib Require Import ZArith Lia.
From S2P Require Import Prelude GoLib TaskDomain Database StoreHelpers StoreSpec.

Local Open Scope Z_scope.

Notation tasks_t := (gmap Z Task) (only parsing).
Notation attempts_t := (gmap Z Attempt) (only parsing).
Notation leases_t := (gmap Z LeaseRow) (only parsing).

(** Takes apart the lookups in an updated table. *)
Ltac lookups :=
  repeat match goal with
  | H : <[_ := _]> _ !! _ = Some _ |- _ => apply lookup_insert_Some in H as [[<- <-]|[? ?]]
  | H : <[?k := _]> _ !! ?k = None |- _ => by rewrite lookup_insert_eq in H
  | H : <[_ := _]> _ !! _ = None |- _ => apply lookup_insert_None in H as [? ?]
  end.

(** ** The invariant *)

(** A lease row [r] backs a task: who it names exists and is in the state the
    task's status asks for. *)
Definition backs (ts : tasks_t) (ats : attempts_t) (r : LeaseRow) : Prop :=
  exists t a, ts !! lease_TaskID (row_Lease r) = Some t
    /\ has_lease (task_Status t) = true
    /\ ats !! lease_AttemptID (row_Lease r) = Some a
    /\ attempt_TaskID a = lease_TaskID (row_Lease r)
    /\ attempt_State a = attempt_state_for (task_Status t)
    /\ attempt_Ordinal a = task_AttemptCount t.

Record lease_ok (ts : tasks_t) (ats : attempts_t) (ls : leases_t) : Prop := {
  lk_active : forall k r, ls !! k = Some r -> lease_active r = true -> backs ts ats r;
  lk_unique : forall k k' r r', ls !! k = Some r -> ls !! k' = Some r' ->
    lease_active r = true -> lease_active r' = true ->
    lease_TaskID (row_Lease r) = lease_TaskID (row_Lease r') -> k = k';
  lk_holder : forall id t, ts !! id = Some t -> has_lease (task_Status t) = true ->
    exists k r, ls !! k = Some r /\ lease_active r = true /\ lease_TaskID (row_Lease r) = id;
  lk_live : forall k a, ats !! k = Some a -> attempt_live a = true ->
    exists lk r, ls !! lk = Some r /\ lease_active r = true
      /\ lease_AttemptID (row_Lease r) = k;
  lk_attempt : forall k r, ls !! k = Some r -> exists a,
    ats !! lease_AttemptID (row_Lease r) = Some a
    /\ attempt_TaskID a = lease_TaskID (row_Lease r);
  lk_one : forall k k' r r', ls !! k = Some r -> ls !! k' = Some r' ->
    lease_AttemptID (row_Lease r) = lease_AttemptID (row_Lease r') -> k = k' }.

Record attempt_ok (ts : tasks_t) (ats : attempts_t) : Prop := {
  ak_task : forall k a, ats !! k = Some a -> exists t, ts !! attempt_TaskID a = Some t
    /\ 1 <= attempt_Ordinal a <= task_AttemptCount t;
  ak_unique : forall k k' a a', ats !! k = Some a -> ats !! k' = Some a' ->
    attempt_TaskID a = attempt_TaskID a' -> attempt_Ordinal a = attempt_Ordinal a' -> k = k';
  ak_complete : forall id t n, ts !! id = Some t -> 1 <= n <= task_AttemptCount t ->
    exists k a, ats !! k = Some a /\ attempt_TaskID a = id /\ attempt_Ordinal a = n }.

(** ** Changes of a task alone *)

Section PutTask.
Context (ts : tasks_t) (ats : attempts_t) (ls : leases_t) (id : Z) (t' : Task).

(** The row before, if any, has the same count, and the same status unless
    neither status needs a lease. *)
Definition harmless (o : option Task) : Prop :=
  match o with
  | None => has_lease (task_Status t') = false
  | Some t => task_AttemptCount t' = task_AttemptCount t
      /\ (task_Status t' = task_Status t
          \/ (has_lease (task_Status t) = false /\ has_lease (task_Status t') = false))
  end.

Lemma lease_ok_put_task :
  lease_ok ts ats ls -> harmless (ts !! id) -> lease_ok (<[id := t']> ts) ats ls.
Proof.
  intros [Hact Hun Hho Hli Hat Hone] Hh. split; try done.
  - intros k r Hk Ha. destruct (Hact k r Hk Ha) as (t & a & Ht & Hs & Hrest).
    destruct (decide (lease_TaskID (row_Lease r) = id)) as [<-|Hne].
    + rewrite Ht in Hh. destruct Hh as [Hc [Hst|[Hf _]]]; [|congruence].
      exists t', a. rewrite lookup_insert_eq, Hst, Hc. auto.
    + exists t, a. by rewrite lookup_insert_ne.
  - intros id' x Hx Hs. lookups; [|by eapply Hho].
    destruct (ts !! id) as [t|] eqn:Ht; simpl in Hh; [|congruence].
    destruct Hh as [_ [Hst|[_ Hf]]]; [|congruence]. eapply Hho; [done|congruence].
Qed.

Lemma attempt_ok_put_task :
  attempt_ok ts ats -> match ts !! id with
    | None => task_AttemptCount t' = 0
    | Some t => task_AttemptCount t' = task_AttemptCount t
    end -> attempt_ok (<[id := t']> ts) ats.
Proof.
  intros [Htask Hun Hco] Hc. split; try done.
  - intros k a Ha. destruct (Htask k a Ha) as (t & Ht & Ho).
    destruct (decide (attempt_TaskID a = id)) as [<-|Hne].
    + rewrite Ht in Hc. exists t'. rewrite lookup_insert_eq. split; [done|lia].
    + exists t. by rewrite lookup_insert_ne.
  - intros id' x n Hx Hn. lookups; [|by eapply Hco].
    destruct (ts !! id) as [t|] eqn:Ht; [|lia]. eapply Hco; [done|lia].
Qed.

End PutTask.

(** ** Claiming *)

Section Claim.
Context (ts : tasks_t) (ats : attempts_t) (ls : leases_t) (id lid aid : Z)
  (t t' : Task) (a : Attempt) (r : LeaseRow).
Context (Ht : ts !! id = Some t) (Hst : task_Status t = StatusReady)
  (Hst' : task_Status t' = StatusLeased)
  (Hcount : task_AttemptCount t' = task_AttemptCount t + 1)
  (Hafresh : ats !! aid = None) (Hlfresh : ls !! lid = None)
  (Hatask : attempt_TaskID a = id) (Hord : attempt_Ordinal a = task_AttemptCount t + 1)
  (Hastate : attempt_State a = AttemptLeased)
  (Hract : lease_active r = true) (Hrtask : lease_TaskID (row_Lease r) = id)
  (Hratt : lease_AttemptID (row_Lease r) = aid)
  (Hpos : 0 <= task_AttemptCount t)
  (Hnone : forall k x, ls !! k = Some x -> lease_active x = true ->
             lease_TaskID (row_Lease x) <> id).

Lemma lease_ok_claim :
  lease_ok ts ats ls -> lease_ok (<[id := t']> ts) (<[aid := a]> ats) (<[lid := r]> ls).
Proof using All.
  intros [Hact Hun Hho Hli Hat Hone].
  assert (Hother : forall k x, ls !! k = Some x -> lease_AttemptID (row_Lease x) <> aid).
  { intros k x Hx Heq. destruct (Hat k x Hx) as (y & Hy & _). congruence. }
  split.
  - intros k x Hx Hxa. lookups.
    + exists t', a. rewrite Hrtask, Hratt, !lookup_insert_eq, Hst', Hcount.
      split_and!; auto; congruence.
    + destruct (Hact k x) as (y & b & Hy & Hs & Hb & Hrest); [done..|].
      exists y, b. rewrite !lookup_insert_ne; [done|by eapply not_eq_sym, Hother|].
      by eapply not_eq_sym, Hnone.
  - intros k k' x x' Hx Hx' Hxa Hxa' Heq. lookups; try done.
    + exfalso. eapply Hnone; [eassumption..|congruence].
    + exfalso. eapply Hnone; [eassumption..|congruence].
    + by eapply Hun.
  - intros id' x Hx Hs. lookups.
    + exists lid, r. by rewrite lookup_insert_eq.
    + destruct (Hho id' x) as (k & y & Hk & Hrest); [done..|].
      exists k, y. rewrite lookup_insert_ne; [done|]. congruence.
  - intros k x Hx Hl. lookups.
    + exists lid, r. by rewrite lookup_insert_eq.
    + destruct (Hli k x) as (lk & y & Hk & Hrest); [done..|].
      exists lk, y. rewrite lookup_insert_ne; [done|]. congruence.
  - intros k x Hx. lookups.
    + exists a. rewrite Hratt, lookup_insert_eq. split; congruence.
    + destruct (Hat k x) as (y & Hy & Hrest); [done|]. exists y.
      rewrite lookup_insert_ne; [done|]. by eapply not_eq_sym, Hother.
  - intros k k' x x' Hx Hx' Heq. lookups; try done.
    + exfalso. eapply Hother; [eassumption|congruence].
    + exfalso. eapply Hother; [eassumption|congruence].
    + by eapply Hone.
Qed.

Lemma attempt_ok_claim :
  attempt_ok ts ats -> attempt_ok (<[id := t']> ts) (<[aid := a]> ats).
Proof using All.
  intros [Htask Hun Hco].
  split.
  - intros k x Hx. lookups.
    + exists t'. rewrite Hatask, lookup_insert_eq. split; [done|]. lia.
    + destruct (Htask k x) as (y & Hy & Ho); [done|].
      destruct (decide (attempt_TaskID x = id)) as [Heq|Hne].
      * exists t'. rewrite Heq, lookup_insert_eq. split; [done|].
        rewrite Heq, Ht in Hy. injection Hy as <-. lia.
      * exists y. by rewrite lookup_insert_ne.
  - assert (Hnew : forall k x, ats !! k = Some x -> attempt_TaskID x = id ->
              attempt_Ordinal x <> attempt_Ordinal a).
    { intros k x Hx Heq. destruct (Htask k x Hx) as (y & Hy & Ho).
      rewrite Heq, Ht in Hy. injection Hy as <-. lia. }
    intros k k' x x' Hx Hx' Heq Ho. lookups; try done.
    + exfalso. eapply Hnew; [eassumption|congruence|done].
    + exfalso. eapply Hnew; [eassumption|congruence|done].
    + by eapply Hun.
  - intros id' x n Hx Hn. lookups.
    + destruct (decide (n = task_AttemptCount t + 1)) as [->|Hne].
      * exists aid, a. by rewrite lookup_insert_eq.
      * destruct (Hco id t n) as (k & y & Hk & Hrest); [done|lia|].
        exists k, y. rewrite lookup_insert_ne; [done|congruence].
    + destruct (Hco id' x n) as (k & y & Hk & Hrest); [done..|].
      exists k, y. rewrite lookup_insert_ne; [done|congruence].
Qed.

End Claim.

(** ** Running, extending and ending *)

Lemma attempt_ok_put_attempt (ts : tasks_t) (ats : attempts_t) (aid : Z) (a a' : Attempt) :
  ats !! aid = Some a -> attempt_TaskID a' = attempt_TaskID a ->
  attempt_Ordinal a' = attempt_Ordinal a ->
  attempt_ok ts ats -> attempt_ok ts (<[aid := a']> ats).
Proof.
  intros Ha Ht Ho [Htask Hun Hco]. split.
  - intros k x Hx. lookups; [|by eapply Htask].
    destruct (Htask aid a Ha) as (t & ? & ?). exists t. by rewrite Ht, Ho.
  - intros k k' x x' Hx Hx' Heq Heq'. lookups; try done.
    + eapply Hun; [eassumption|exact Ha|congruence..].
    + eapply Hun; [exact Ha|eassumption|congruence..].
    + by eapply Hun.
  - intros id t n Hx Hn. destruct (Hco id t n Hx Hn) as (k & x & Hk & Hrest).
    destruct (decide (k = aid)) as [->|Hne].
    + exists aid, a'. rewrite lookup_insert_eq. rewrite Ha in Hk. naive_solver congruence.
    + exists k, x. by rewrite lookup_insert_ne.
Qed.

Section Held.
Context (ts : tasks_t) (ats : attempts_t) (ls : leases_t) (id lid aid : Z)
  (t t' : Task) (a a' : Attempt) (r r' : LeaseRow).
Context (Ht : ts !! id = Some t) (Ha : ats !! aid = Some a) (Hr : ls !! lid = Some r)
  (Hract : lease_active r = true) (Hrtask : lease_TaskID (row_Lease r) = id)
  (Hratt : lease_AttemptID (row_Lease r) = aid) (Hatask : attempt_TaskID a = id).
Context (Hatask' : attempt_TaskID a' = id) (Hord' : attempt_Ordinal a' = attempt_Ordinal a)
  (Hrtask' : lease_TaskID (row_Lease r') = id)
  (Hratt' : lease_AttemptID (row_Lease r') = aid)
  (Hcount : task_AttemptCount t' = task_AttemptCount t).

(** Another active lease is of another task and another attempt. *)
Lemma other_lease :
  lease_ok ts ats ls -> forall k x, ls !! k = Some x -> k <> lid ->
  (lease_active x = true -> lease_TaskID (row_Lease x) <> id)
  /\ lease_AttemptID (row_Lease x) <> aid.
Proof using Hr Hract Hrtask Hratt.
  intros [Hact Hun Hho Hli Hat Hone] k x Hx Hk. split.
  - intros Hxa Heq. apply Hk. eapply Hun; [exact Hx|exact Hr|done..|congruence].
  - intros Heq. apply Hk. eapply Hone; [exact Hx|exact Hr|congruence].
Qed.

(** The common part: rows about other tasks, attempts and leases are as before. *)
Lemma lease_ok_update :
  lease_ok ts ats ls ->
  (lease_active r' = true -> backs (<[id := t']> ts) (<[aid := a']> ats) r') ->
  (has_lease (task_Status t') = true -> lease_active r' = true) ->
  (attempt_live a' = true -> lease_active r' = true) ->
  lease_ok (<[id := t']> ts) (<[aid := a']> ats) (<[lid := r']> ls).
Proof using All.
  intros Hok Hback Hhas Hlive. pose proof (other_lease Hok) as Hother.
  destruct Hok as [Hact Hun Hho Hli Hat Hone]. split.
  - intros k x Hx Hxa. lookups; [by apply Hback|].
    destruct (Hother k x) as [Hot Hoa]; [done..|]. specialize (Hot Hxa).
    destruct (Hact k x) as (y & b & Hy & Hs & Hb & Hrest); [done..|].
    exists y, b. by rewrite !lookup_insert_ne by congruence.
  - intros k k' x x' Hx Hx' Hxa Hxa' Heq. lookups; try done.
    + destruct (Hother k x) as [Hot _]; [done..|]. exfalso. apply (Hot Hxa). congruence.
    + destruct (Hother k' x') as [Hot _]; [done..|]. exfalso. apply (Hot Hxa'). congruence.
    + by eapply Hun.
  - intros id' x Hx Hs. lookups.
    + exists lid, r'. rewrite lookup_insert_eq. auto.
    + destruct (Hho id' x) as (k & y & Hk & Hya & Hyt); [done..|].
      exists k, y. rewrite lookup_insert_ne; [done|]. intros <-. congruence.
  - intros k x Hx Hl. lookups.
    + exists lid, r'. rewrite lookup_insert_eq. auto.
    + destruct (Hli k x) as (lk & y & Hk & Hya & Hyt); [done..|].
      exists lk, y. rewrite lookup_insert_ne; [done|]. intros <-. congruence.
  - intros k x Hx. lookups.
    + exists a'. rewrite Hratt', lookup_insert_eq. split; congruence.
    + destruct (Hother k x) as [_ Hoa]; [done..|].
      destruct (Hat k x) as (y & Hy & Hrest); [done|]. exists y.
      by rewrite lookup_insert_ne by congruence.
  - intros k k' x x' Hx Hx' Heq. lookups; try done.
    + destruct (Hother k x) as [_ Hoa]; [done..|]. congruence.
    + destruct (Hother k' x') as [_ Hoa]; [done..|]. congruence.
    + by eapply Hone.
Qed.

(** The lease and the attempt move on with the task. *)
Lemma lease_ok_continue :
  lease_ok ts ats ls -> lease_active r' = true -> has_lease (task_Status t') = true ->
  attempt_State a' = attempt_state_for (task_Status t') ->
  lease_ok (<[id := t']> ts) (<[aid := a']> ats) (<[lid := r']> ls).
Proof using All.
  intros Hok Hra Hs Hst. apply lease_ok_update; auto.
  intros _. exists t', a'. rewrite Hrtask', Hratt', !lookup_insert_eq. split_and!; auto.
  destruct (lk_active _ _ _ Hok lid r Hr Hract) as (x & b & Hx & _ & Hb & _ & _ & Ho).
  rewrite Hrtask in Hx. rewrite Hratt in Hb. congruence.
Qed.

(** The lease, the attempt and the task's hold on them end together. *)
Lemma lease_ok_end :
  lease_ok ts ats ls -> lease_active r' = false -> has_lease (task_Status t') = false ->
  attempt_live a' = false ->
  lease_ok (<[id := t']> ts) (<[aid := a']> ats) (<[lid := r']> ls).
Proof using All. intros Hok Hra Hs Hl. apply lease_ok_update; congruence. Qed.

End Held.

(** ** Every step *)

Record leases_inv (d : DB) : Prop := {
  li_lease : lease_ok (db_tasks d) (db_attempts d) (db_leases d);
  li_attempt : attempt_ok (db_tasks d) (db_attempts d) }.

Lemma tasks_check_count (t : Task) :
  tasks_check t = true -> 0 <= task_AttemptCount t <= task_MaxAttempts t.
Proof. unfold tasks_check, between. rewrite !andb_true_iff, !Z.leb_le. tauto. Qed.

Lemma active_leases_nil (id : Z) (d : DB) :
  active_leases id d = [] <-> forall k x, db_leases d !! k = Some x -> lease_active x = true ->
    lease_TaskID (row_Lease x) <> id.
Proof.
  unfold active_leases. rewrite rows_nil. apply forall_proper. intros k.
  apply forall_proper. intros x. unfold lease_active.
  rewrite andb_false_iff, Z.eqb_neq, bool_decide_eq_true, bool_decide_eq_false.
  destruct (decide (lease_Status (row_Lease x) = LeaseActive)); tauto.
Qed.

Lemma attempt_over_not_live (a : Attempt) :
  attempt_over (attempt_State a) = true -> attempt_live a = false.
Proof. unfold attempt_live. by destruct (attempt_State a). Qed.

Lemma held_lookups d id t lid r aid a :
  held_by d id t lid r aid a ->
  db_leases d !! lid = Some r /\ db_attempts d !! aid = Some a /\ lease_active r = true
  /\ lease_TaskID (row_Lease r) = id /\ lease_AttemptID (row_Lease r) = aid
  /\ attempt_TaskID a = id.
Proof. intros []. auto 10. Qed.

(** A step that changes neither the leases nor the attempts. *)
Lemma leases_inv_put_task (d : DB) (id : Z) (t' : Task) :
  leases_inv d -> harmless t' (db_tasks d !! id) ->
  (db_tasks d !! id = None -> task_AttemptCount t' = 0) ->
  lease_ok (<[id := t']> (db_tasks d)) (db_attempts d) (db_leases d)
  /\ attempt_ok (<[id := t']> (db_tasks d)) (db_attempts d).
Proof.
  intros [Hl Ha] Hh Hn. split; [by apply lease_ok_put_task|].
  apply attempt_ok_put_task; [done|]. destruct (db_tasks d !! id); [|by apply Hn].
  by destruct Hh.
Qed.

Lemma leases_inv_step release k d d' :
  (forall id t, db_tasks d !! id = Some t -> tasks_check t = true) ->
  leases_inv d -> step release k d d' -> leases_inv d'.
Proof.
  intros Hcheck Hinv Hs. pose proof Hinv as [Hl Ha].
  destruct Hs as
    [d id t deps reqs e o a Hnone Hid Hck Hini Hzero
    |d id t t' Ht [Himm Hst Hcount _ _ _ _]
    |
    |d id t t' to e o a Ht Hcan Hf Hf' _ _ _ [Himm Hst Hcount _ _ _]
    |d id t t' att r e o a Ht Hst Hlt [Himm Hst' Hcount _ _ _] Hfa Hat Hord Has _ Hfl Hra Hrt Hrat _ Hno
    |d id t t' lid r aid att started updated e o a Ht Hst Hheld _ [Himm Hst' Hcount _ _ _]
    |d id t lid r aid att heartbeat expires Ht Hst Hheld
    |d id t t' to lid r aid att att' status reason now letter e o a Ht Hst Hcan Hf Hheld
     [Hoid Hotask Hoord Host _] Hna _ _ [Himm Hst' Hcount _ _ _]
    | | | | | | |]; try done.
  - destruct (leases_inv_put_task d id t Hinv) as [? ?]; [|done|by split].
    rewrite Hnone. simpl. by destruct Hini as [->|[->| ->]].
  - destruct (leases_inv_put_task d id t' Hinv) as [? ?]; [|congruence|by split].
    rewrite Ht. simpl. auto.
  - destruct (leases_inv_put_task d id t' Hinv) as [? ?]; [|congruence|by split].
    rewrite Ht. simpl. split; [lia|]. rewrite Hst. auto.
  - pose proof (tasks_check_count t (Hcheck _ _ Ht)) as [Hpos _].
    rewrite active_leases_nil in Hno. split; simpl.
    + by eapply lease_ok_claim.
    + by eapply (attempt_ok_claim _ _ _ _ _ _ t t' att r).
  - apply held_lookups in Hheld as (Hr & Hatt & Hra & Hrt & Hrat & Hown). split; simpl.
    + rewrite <- (insert_id (db_leases d) lid r) by done.
      eapply lease_ok_continue; try done; [lia|by rewrite Hst'..].
    + eapply attempt_ok_put_attempt; [done..|].
      apply attempt_ok_put_task; [done|]. rewrite Ht. lia.
  - pose proof Hheld as Hstate. destruct Hstate as [_ _ _ _ _ _ Hstate].
    apply held_lookups in Hheld as (Hr & Hatt & Hra & Hrt & Hrat & Hown). split; simpl; [|done].
    rewrite <- (insert_id (db_tasks d) id t), <- (insert_id (db_attempts d) aid att) by done.
    eapply lease_ok_continue; done.
  - apply held_lookups in Hheld as (Hr & Hatt & Hra & Hrt & Hrat & Hown).
    assert (Hgoal : leases_inv (put_task id t'
              (put_lease lid (lease_closed status reason now r) (put_attempt aid att' d)))).
    { split; simpl.
      - eapply lease_ok_end; try done; try congruence; [lia| |by apply attempt_over_not_live].
        unfold lease_active. by apply bool_decide_eq_false.
      - eapply attempt_ok_put_attempt; [done..|].
        apply attempt_ok_put_task; [done|]. rewrite Ht. lia. }
    destruct Hgoal. split; by destruct letter.
Qed.
