(* ===== verification/TaskInvariant.v ===== *)
(** * The invariant of the task tables

    Keys and CHECK constraints, the journal, dead letters, requirements,
    dependencies and the outbox; with the leases of LeaseInvariant.v they make
    the invariant [Inv], which every step of the abstract machine preserves. *)

From stdpp Require Import base tactics list gmap strings sorting relations.
From Stdlib Require Import ZArith Lia.
From S2P Require Import Prelude GoLib TaskDomain Database StoreHelpers StoreMutate StoreQueue.
From S2P Require Import StoreOutbox StoreCreate StoreSpec DependencyGraph LeaseInvariant.

Local Open Scope Z_scope.

(** ** Keys and row constraints *)

Record keys_inv (d : DB) : Prop := {
  ky_task : forall k t, db_tasks d !! k = Some t -> task_ID t = k;
  ky_tcheck : forall k t, db_tasks d !! k = Some t -> tasks_check t = true;
  ky_unique : forall k k' t t', db_tasks d !! k = Some t -> db_tasks d !! k' = Some t' ->
    task_OrganizationID t = task_OrganizationID t' ->
    task_IdempotencyKey t = task_IdempotencyKey t' -> k = k';
  ky_attempt : forall k a, db_attempts d !! k = Some a -> attempt_ID a = k;
  ky_acheck : forall k a, db_attempts d !! k = Some a -> attempts_check a = true;
  ky_lease : forall k r, db_leases d !! k = Some r -> lease_ID (row_Lease r) = k;
  ky_lcheck : forall k r, db_leases d !! k = Some r -> leases_check r = true;
  ky_requirement : forall k r, db_requirements d !! k = Some r ->
    requirement_ID r = k /\ is_Some (db_tasks d !! requirement_TaskID r);
  ky_letter : forall k l, db_dead_letters d !! k = Some l ->
    dead_ID l = k /\ dead_letters_check l = true }.

(** A task row replaced by one with the same identity. *)
Lemma keys_put_task (d : DB) (id : Z) (t t' : Task) :
  keys_inv d -> db_tasks d !! id = Some t -> immutable t t' -> tasks_check t' = true ->
  keys_inv (put_task id t' d).
Proof.
  intros [Kt Kc Ku Ka Kac Kl Klc Kr Kd] Ht Himm Hc. pose proof (imm_ID _ _ Himm) as Hid.
  pose proof (imm_OrganizationID _ _ Himm) as Ho. pose proof (imm_Key _ _ Himm) as Hk.
  split; simpl; try done.
  - intros k x Hx. lookups; [|by apply Kt]. rewrite Hid. by apply Kt.
  - intros k x Hx. lookups; [done|by eapply Kc].
  - intros k k' x x' Hx Hx' Heq Heq'. lookups; try done.
    + eapply Ku; [eassumption|exact Ht|congruence..].
    + eapply Ku; [exact Ht|eassumption|congruence..].
    + by eapply Ku.
  - intros k r Hr. destruct (Kr k r Hr) as [? Hsome]. split; [done|].
    destruct (decide (requirement_TaskID r = id)) as [->|Hne].
    + by rewrite lookup_insert_eq.
    + by rewrite lookup_insert_ne.
Qed.

Lemma keys_journal (e : Event) (o : OutboxRow) (a : AuditEvent) (d : DB) :
  keys_inv d -> keys_inv (journal e o a d).
Proof. by intros []. Qed.

Lemma keys_put_attempt (d : DB) (aid : Z) (a : Attempt) :
  keys_inv d -> attempt_ID a = aid -> attempts_check a = true -> keys_inv (put_attempt aid a d).
Proof.
  intros [] Hid Hc. split; simpl; try done; intros k x Hx; lookups; eauto.
Qed.

Lemma keys_put_lease (d : DB) (lid : Z) (r : LeaseRow) :
  keys_inv d -> lease_ID (row_Lease r) = lid -> leases_check r = true ->
  keys_inv (put_lease lid r d).
Proof.
  intros [] Hid Hc. split; simpl; try done; intros k x Hx; lookups; eauto.
Qed.

Lemma keys_put_letter (d : DB) (id : Z) (l : DeadLetter) :
  keys_inv d -> dead_ID l = id -> dead_letters_check l = true -> keys_inv (put_dead_letter id l d).
Proof.
  intros [] Hid Hc. split; simpl; try done; intros k x Hx; lookups; eauto.
Qed.

Lemma keys_put_requirement (d : DB) (id : Z) (r : Requirement) :
  keys_inv d -> requirement_ID r = id -> is_Some (db_tasks d !! requirement_TaskID r) ->
  keys_inv (put_requirement id r d).
Proof.
  intros [] Hid Hc. split; simpl; try done; intros k x Hx; lookups; eauto.
Qed.

Lemma with_key_true (organization key : string) (t : Task) :
  with_key organization key t = true
  <-> task_OrganizationID t = organization /\ task_IdempotencyKey t = key.
Proof. unfold with_key. by rewrite andb_true_iff, !bool_decide_eq_true. Qed.

Lemma keys_inv_step release k d d' : keys_inv d -> step release k d d' -> keys_inv d'.
Proof.
  intros Hinv Hs. destruct Hs as
    [d id t deps reqs e o a Hnone Hid Hck Hini Hzero Huniq Hdeps Hnd Hreqs
    |d id t t' Ht Hq
    |
    |d id t t' to e o a Ht Hcan Hf Hf' _ _ _ Hm
    |d id t t' att r e o a Ht Hst Hlt Hm Hfa Hat Hord Has Hac Hfl Hra Hrt Hrat Hlc Hno
    |d id t t' lid r aid att started updated e o a Ht Hst Hheld Hac Hm
    |d id t lid r aid att heartbeat expires Ht Hst Hheld Hlc
    |d id t t' to lid r aid att att' status reason now letter e o a Ht Hst Hcan Hf Hheld
     Hover Hna Hlc Hletter Hm
    |
    |d id t r Ht Hterm Hfresh Hrt
    |d id t rid r status satisfied updated Ht Hterm Hr Hrt Hpend Hnp
    |
    |d lid l now successor Hl Hnored Hsucc Hne Huniq
    | |]; try (by destruct Hinv).
  - apply keys_journal. destruct Hinv as [Kt Kc Ku Ka Kac Kl Klc Kr Kd].
    split; simpl; try done.
    + intros k x Hx. lookups; [done|by apply Kt].
    + intros k x Hx. lookups; [done|by eapply Kc].
    + intros k k' x x' Hx Hx' Heq Heq'. lookups; try done; [| |by eapply Ku]; exfalso.
      * match goal with H : db_tasks d !! k = Some x |- _ => specialize (Huniq _ _ H) end.
        apply not_true_iff_false in Huniq. apply Huniq, with_key_true. auto.
      * match goal with H : db_tasks d !! k' = Some x' |- _ => specialize (Huniq _ _ H) end.
        apply not_true_iff_false in Huniq. apply Huniq, with_key_true. auto.
    + intros k r Hr. destruct (Hreqs k r Hr) as [Hold|(_ & Hk & Hrt)].
      * destruct (Kr k r Hold) as [? Hsome]. split; [done|].
        destruct (decide (requirement_TaskID r = task_ID t)) as [Heq|Hne].
        { rewrite Heq, Hid, lookup_insert_eq. by eexists. }
        rewrite lookup_insert_ne; congruence.
      * split; [done|]. rewrite Hrt, lookup_insert_eq. by eexists.
  - destruct Hq. by eapply keys_put_task.
  - apply keys_journal. destruct Hm. by eapply keys_put_task.
  - apply keys_journal. destruct Hm.
    apply (keys_put_task _ _ t); [|done..].
    apply keys_put_lease; [|done..]. by apply keys_put_attempt.
  - apply keys_journal. destruct Hm. apply (keys_put_task _ _ t); [|done..].
    apply keys_put_attempt; [done| |done]. simpl.
    apply held_lookups in Hheld as (_ & Ha & _). by eapply ky_attempt.
  - apply keys_put_lease; [done| |done].
    apply held_lookups in Hheld as (Hr & _). simpl. by eapply ky_lease.
  - apply keys_journal. destruct Hm. destruct Hover.
    apply held_lookups in Hheld as (Hr & Ha & _).
    assert (Hk : keys_inv (put_lease lid (lease_closed status reason now r)
                             (put_attempt aid att' d))).
    { apply keys_put_lease; [|simpl; by eapply ky_lease|done].
      apply keys_put_attempt; [done| |done]. rewrite over_ID. by eapply ky_attempt. }
    apply (keys_put_task _ _ t); [|by destruct letter|done..].
    destruct letter as [l|]; [|done]. destruct Hletter as (_ & _ & _ & _ & _ & Hc & _).
    by apply keys_put_letter.
  - apply keys_put_requirement; [done..|]. rewrite Hrt. by eexists.
  - apply keys_put_requirement; [done| |]; simpl.
    + by eapply ky_requirement.
    + rewrite Hrt. by eexists.
  - destruct Hinv as [Kt Kc Ku Ka Kac Kl Klc Kr Kd].
    assert (Hk : dead_letters_check (dead_redriven now successor l) = true).
    { destruct (Kd lid l Hl) as [_ Hc]. revert Hc. unfold dead_letters_check. simpl.
      rewrite !andb_true_iff. tauto. }
    apply keys_put_letter; [by split|simpl; by eapply Kd|done].
Qed.

(** ** The journal *)

Definition events_of (id : Z) (events : list Event) : list Event :=
  filter (fun e => event_TaskID e = id) events.

(** The status after an event, if the event is possible in the status before. *)
Definition replay_event (cur : option Status) (e : Event) : option (option Status) :=
  match event_FromStatus e, event_ToStatus e with
  | None, None => if is_some cur then Some cur else None
  | None, Some s => if is_some cur then None else Some (Some s)
  | Some f, Some s =>
      if bool_decide (cur = Some f) && CanTransition f s then Some (Some s) else None
  | Some _, None => None
  end.

Definition replay (events : list Event) : option (option Status) :=
  foldl (fun acc e => acc ≫= fun cur => replay_event cur e) (Some None) events.

Lemma replay_snoc (events : list Event) (e : Event) :
  replay (events ++ [e]) = replay events ≫= fun cur => replay_event cur e.
Proof. unfold replay. by rewrite foldl_app. Qed.

Record journal_inv (ts : tasks_t) (events : list Event) : Prop := {
  ji_replay : forall id, replay (events_of id events) = Some (task_Status <$> ts !! id);
  ji_sequence : forall id, event_Sequence <$> events_of id events
    = seqZ 1 (Z.of_nat (length (events_of id events))) }.

Lemma max_seqZ (n : nat) : foldr Z.max 0 (seqZ 1 (Z.of_nat n)) = Z.of_nat n.
Proof.
  induction n as [|n IH]; [done|].
  replace (Z.of_nat (S n)) with (Z.of_nat n + 1) by lia.
  rewrite (seqZ_app 1 (Z.of_nat n) 1) by lia. rewrite foldr_app.
  assert (Hg : forall b l, 0 <= b -> foldr Z.max b l = Z.max b (foldr Z.max 0 l)).
  { intros b l Hb. induction l as [|x l IHl]; simpl; [lia|]. rewrite IHl. lia. }
  rewrite Hg; [|simpl; lia]. rewrite IH. simpl. lia.
Qed.

Lemma next_sequence_length (ts : tasks_t) (events : list Event) (id : Z) :
  journal_inv ts events ->
  next_sequence id events = Z.of_nat (length (events_of id events)) + 1.
Proof.
  intros [_ Hs]. unfold next_sequence. fold (events_of id events). by rewrite Hs, max_seqZ.
Qed.

Lemma events_of_snoc (id : Z) (events : list Event) (e : Event) :
  events_of id (events ++ [e])
  = events_of id events ++ (if decide (event_TaskID e = id) then [e] else []).
Proof.
  unfold events_of. rewrite filter_app, filter_cons, filter_nil. by case_decide.
Qed.

(** An entry for task [id] whose effect on the replayed status is that of the
    change of the task's row. *)
Lemma journal_inv_entry (ts ts' : tasks_t) (d : DB) (id : Z) (from to : option Status)
    (e : Event) (o : OutboxRow) :
  journal_inv ts (db_events d) -> journal_rows id from to e o d ->
  (forall k, k <> id -> ts' !! k = ts !! k) ->
  replay_event (task_Status <$> ts !! id) e = Some (task_Status <$> ts' !! id) ->
  journal_inv ts' (db_events d ++ [e]).
Proof.
  intros Hj [Htask Hseq _ _ _ _ _ _ _] Hother He.
  pose proof (next_sequence_length _ _ id Hj) as Hnext. destruct Hj as [Hr Hs]. split.
  - intros k. rewrite events_of_snoc, Htask. case_decide as Hk.
    + subst k. by rewrite replay_snoc, Hr.
    + rewrite app_nil_r, Hr, Hother; done.
  - intros k. rewrite events_of_snoc, Htask. case_decide as Hk.
    + subst k. rewrite fmap_app, Hs, length_app. simpl.
      rewrite Hseq, Hnext, Nat2Z.inj_add. change (Z.of_nat 1) with 1.
      rewrite (seqZ_app 1 (Z.of_nat (length (events_of id (db_events d)))) 1) by lia.
      f_equal. unfold seqZ. cbn. apply (f_equal (fun z => [z])). lia.
    + by rewrite app_nil_r.
Qed.

Lemma journal_inv_put_task (ts : tasks_t) (d : DB) (id : Z) (t t' : Task) (to : Status)
    (e : Event) (o : OutboxRow) :
  journal_inv ts (db_events d) -> ts !! id = Some t ->
  CanTransition (task_Status t) to = true -> task_Status t' = to ->
  journal_rows id (Some (task_Status t)) (Some to) e o d ->
  journal_inv (<[id := t']> ts) (db_events d ++ [e]).
Proof.
  intros Hj Ht Hcan Hst Hrows. eapply journal_inv_entry; [done..| |].
  - intros k Hk. by rewrite lookup_insert_ne.
  - rewrite lookup_insert_eq, Ht. simpl. unfold replay_event.
    rewrite (jr_from _ _ _ _ _ _ Hrows), (jr_to _ _ _ _ _ _ Hrows), bool_decide_true by done.
    by rewrite Hcan, Hst.
Qed.

(** A row replaced by one with the same status. *)
Lemma journal_inv_same (ts : tasks_t) (events : list Event) (id : Z) (t t' : Task) :
  journal_inv ts events -> ts !! id = Some t -> task_Status t' = task_Status t ->
  journal_inv (<[id := t']> ts) events.
Proof.
  intros [Hr Hs] Ht Hst. split; [|done]. intros k. rewrite Hr. f_equal.
  destruct (decide (k = id)) as [->|Hk].
  - by rewrite lookup_insert_eq, Ht; simpl; rewrite Hst.
  - by rewrite lookup_insert_ne.
Qed.

Lemma journal_inv_step release k d d' :
  journal_inv (db_tasks d) (db_events d) -> step release k d d' ->
  journal_inv (db_tasks d') (db_events d').
Proof.
  intros Hinv Hs. destruct Hs as
    [d id t deps reqs e o a Hnone Hid Hck Hini Hzero Huniq Hdeps Hnd Hreqs Hsub Hrows
    |d id t t' Ht Hq
    |d id t e o a Ht Hrows
    |d id t t' to e o a Ht Hcan Hf Hf' Hnd Hcom Hhold Hm Hrows
    |d id t t' att r e o a Ht Hst Hlt Hm Hfa Hat Hord Has Hac Hfl Hra Hrt Hrat Hlc Hno Hrows
    |d id t t' lid r aid att started updated e o a Ht Hst Hheld Hac Hm Hrows
    |
    |d id t t' to lid r aid att att' status reason now letter e o a Ht Hst Hcan Hf Hheld
     Hover Hna Hlc Hletter Hm Hrows
    | | | | | | |]; simpl; try done.
  - eapply journal_inv_entry; [done..| |].
    + intros k Hk. by rewrite lookup_insert_ne.
    + rewrite lookup_insert_eq, Hnone. simpl. unfold replay_event.
      by rewrite (jr_from _ _ _ _ _ _ Hrows), (jr_to _ _ _ _ _ _ Hrows).
  - destruct Hq. by eapply journal_inv_same.
  - eapply journal_inv_entry; [done..|].
    rewrite Ht. simpl. unfold replay_event.
    by rewrite (jr_from _ _ _ _ _ _ Hrows), (jr_to _ _ _ _ _ _ Hrows).
  - destruct Hm. by eapply journal_inv_put_task.
  - destruct Hm. rewrite <- Hst in Hrows. eapply journal_inv_put_task; try done.
    by rewrite Hst.
  - destruct Hm. rewrite <- Hst in Hrows. eapply journal_inv_put_task; try done.
    by rewrite Hst.
  - destruct Hm. destruct letter; simpl; by eapply journal_inv_put_task.
Qed.

(** ** Dead letters *)

Record dead_inv (ts : tasks_t) (ls : gmap Z DeadLetter) : Prop := {
  di_task : forall k l, ls !! k = Some l ->
    exists t, ts !! dead_TaskID l = Some t /\ task_Status t = StatusDeadLetter
      /\ task_AttemptCount t = task_MaxAttempts t;
  di_unique : forall k k' l l', ls !! k = Some l -> ls !! k' = Some l' ->
    dead_TaskID l = dead_TaskID l' -> k = k';
  di_letter : forall id t, ts !! id = Some t -> task_Status t = StatusDeadLetter ->
    exists k l, ls !! k = Some l /\ dead_TaskID l = id;
  di_successor : forall k l s, ls !! k = Some l -> dead_RedriveTaskID l = Some s ->
    is_Some (ts !! s) /\ s <> dead_TaskID l;
  di_once : forall k k' l l' s, ls !! k = Some l -> ls !! k' = Some l' ->
    dead_RedriveTaskID l = Some s -> dead_RedriveTaskID l' = Some s -> k = k' }.

(** A task whose row changes but neither enters nor leaves the dead letters. *)
Lemma dead_inv_put_task (ts : tasks_t) (ls : gmap Z DeadLetter) (id : Z) (t' : Task) :
  dead_inv ts ls ->
  match ts !! id with
  | None => task_Status t' <> StatusDeadLetter
  | Some t => task_MaxAttempts t' = task_MaxAttempts t
      /\ ((task_Status t' = task_Status t /\ task_AttemptCount t' = task_AttemptCount t)
          \/ (task_Status t <> StatusDeadLetter /\ task_Status t' <> StatusDeadLetter))
  end ->
  dead_inv (<[id := t']> ts) ls.
Proof.
  intros [Dt Du Dl Ds Do] Hh. split; try done.
  - intros k l Hl. destruct (Dt k l Hl) as (t & Ht & Hst & Hc).
    destruct (decide (dead_TaskID l = id)) as [<-|Hne].
    + rewrite Ht in Hh. exists t'. rewrite lookup_insert_eq. split; [done|].
      destruct Hh as [Hm [[Hs Hc']|[? _]]]; [|done]. split; congruence.
    + exists t. by rewrite lookup_insert_ne.
  - intros id' t Ht Hst. lookups; [|by eapply Dl].
    destruct (ts !! id) as [t|] eqn:Heq; [|done].
    destruct Hh as [_ [[Hs _]|[_ ?]]]; [|done]. eapply Dl; [done|congruence].
  - intros k l s Hl Hs. destruct (Ds k l s Hl Hs) as [? ?]. split; [|done].
    destruct (decide (s = id)) as [->|Hne]; [by rewrite lookup_insert_eq|].
    by rewrite lookup_insert_ne.
Qed.

(** A task becomes a dead letter. *)
Lemma dead_inv_letter (ts : tasks_t) (ls : gmap Z DeadLetter) (id : Z) (t t' : Task)
    (l : DeadLetter) :
  dead_inv ts ls -> ts !! id = Some t -> task_Status t' = StatusDeadLetter ->
  task_AttemptCount t' = task_MaxAttempts t' -> ls !! dead_ID l = None ->
  dead_TaskID l = id -> dead_RedriveTaskID l = None ->
  (forall k x, ls !! k = Some x -> dead_TaskID x <> id) ->
  dead_inv (<[id := t']> ts) (<[dead_ID l := l]> ls).
Proof.
  intros [Dt Du Dl Ds Do] Ht Hst Hc Hfresh Hid Hred Hno. split.
  - intros k x Hx. lookups.
    + exists t'. by rewrite Hid, lookup_insert_eq.
    + destruct (Dt k x) as (y & Hy & Hrest); [done|]. exists y.
      rewrite lookup_insert_ne; [done|]. by eapply not_eq_sym, Hno.
  - intros k k' x x' Hx Hx' Heq. lookups; try done.
    + exfalso. eapply Hno; [eassumption|congruence].
    + exfalso. eapply Hno; [eassumption|congruence].
    + by eapply Du.
  - intros id' x Hx Hs. lookups.
    + exists (dead_ID l), l. by rewrite lookup_insert_eq.
    + destruct (Dl id' x) as (k & y & Hk & Hy); [done..|]. exists k, y.
      rewrite lookup_insert_ne; [done|]. intros <-. congruence.
  - intros k x s Hx Hs. lookups; [congruence|].
    destruct (Ds k x s) as [? ?]; [done..|]. split; [|done].
    destruct (decide (s = id)) as [->|Hne]; [by rewrite lookup_insert_eq|].
    by rewrite lookup_insert_ne.
  - intros k k' x x' s Hx Hx' Hs Hs'. lookups; try congruence. by eapply Do.
Qed.

Lemma CanTransition_not_terminal (s s' : Status) : CanTransition s s' = true -> Terminal s = false.
Proof. unfold CanTransition. by destruct (Valid s), (Valid s'), (Terminal s). Qed.

Lemma not_terminal_not_dead (s : Status) : Terminal s = false -> s <> StatusDeadLetter.
Proof. by intros H ->. Qed.

Lemma dead_inv_step release k d d' :
  keys_inv d -> dead_inv (db_tasks d) (db_dead_letters d) -> step release k d d' ->
  dead_inv (db_tasks d') (db_dead_letters d').
Proof.
  intros Hkeys Hinv Hs. destruct Hs as
    [d id t deps reqs e o a Hnone Hid Hck Hini
    |d id t t' Ht [Himm Hst Hcount _ _ _]
    |
    |d id t t' to e o a Ht Hcan Hf Hf' Hnd Hcom Hhold [Himm Hst Hcount _ _ _]
    |d id t t' att r e o a Ht Hst Hlt [Himm Hst' Hcount _ _ _]
    |d id t t' lid r aid att started updated e o a Ht Hst Hheld Hac [Himm Hst' Hcount _ _ _]
    |
    |d id t t' to lid r aid att att' status reason now letter e o a Ht Hst Hcan Hf Hheld
     Hover Hna Hlc Hletter [Himm Hst' Hcount _ _ Hck]
    | | | |
    |d lid l now successor Hl Hnored Hsucc Hne Huniq
    | |]; simpl; try done.
  - apply dead_inv_put_task; [done|]. rewrite Hnone. by destruct Hini as [->|[->| ->]].
  - apply dead_inv_put_task; [done|]. rewrite Ht. destruct Himm. auto.
  - apply dead_inv_put_task; [done|]. rewrite Ht. destruct Himm. split; [done|]. right.
    split; [|congruence]. by eapply not_terminal_not_dead, CanTransition_not_terminal.
  - apply dead_inv_put_task; [done|]. rewrite Ht. destruct Himm. split; [done|]. right.
    rewrite Hst, Hst'. done.
  - apply dead_inv_put_task; [done|]. rewrite Ht. destruct Himm. split; [done|]. right.
    rewrite Hst, Hst'. done.
  - destruct letter as [l|]; simpl.
    + destruct Hletter as (-> & Hmax & Hid & Hfresh & Hred & _ & Hno).
      eapply dead_inv_letter; try done. apply tasks_check_count in Hck. destruct Himm. lia.
    + apply dead_inv_put_task; [done|]. rewrite Ht. destruct Himm. split; [done|]. right.
      split; [|by rewrite Hst'].
      by eapply not_terminal_not_dead, CanTransition_not_terminal.
  - destruct Hinv as [Dt Du Dl Ds Do]. split.
    + intros k x Hx. lookups; [by apply (Dt lid l)|by eapply Dt].
    + intros k k' x x' Hx Hx' Heq. lookups; try done.
      * eapply Du; [eassumption|exact Hl|done].
      * eapply Du; [exact Hl|eassumption|done].
      * by eapply Du.
    + intros id t Ht Hs. destruct (Dl id t Ht Hs) as (k & x & Hk & Hx).
      destruct (decide (k = lid)) as [->|Hk'].
      * exists lid, (dead_redriven now successor l). rewrite lookup_insert_eq.
        split; [done|]. simpl. congruence.
      * exists k, x. by rewrite lookup_insert_ne.
    + intros k x s Hx Hs. lookups; [|by eapply Ds]. simpl in *. by injection Hs as <-.
    + intros k k' x x' s Hx Hx' Hs Hs'. lookups; try done; simpl in *; [| |by eapply Do];
        exfalso; simplify_eq; by eapply Huniq.
Qed.

(** ** Completed tasks *)

Lemma unsatisfied_zero (id : Z) (d : DB) :
  unsatisfied id d = 0 <-> forall k r, db_requirements d !! k = Some r ->
    requirement_TaskID r = id -> requirement_Required r = true ->
    requirement_Status r = RequirementSatisfied.
Proof.
  unfold unsatisfied. split.
  - intros H. assert (Hn : length (rows (fun r => (requirement_TaskID r =? id)
      && requirement_Required r && negb (bool_decide (requirement_Status r
        = RequirementSatisfied))) (db_requirements d)) = O) by lia.
    apply nil_length_inv in Hn. rewrite rows_nil in Hn. intros k r Hr Hid Hreq.
    specialize (Hn k r Hr). rewrite Hreq, (proj2 (Z.eqb_eq _ _) Hid) in Hn. simpl in Hn.
    by apply negb_false_iff, bool_decide_eq_true in Hn.
  - intros H. rewrite (proj2 (rows_nil _ _)); [done|]. intros k r Hr.
    destruct (requirement_TaskID r =? id) eqn:Hid; [|done].
    destruct (requirement_Required r) eqn:Hreq; [|done]. simpl.
    apply negb_false_iff, bool_decide_eq_true. apply Z.eqb_eq in Hid. by eapply H.
Qed.

Definition completed_inv (d : DB) : Prop :=
  forall id t, db_tasks d !! id = Some t -> task_Status t = StatusCompleted ->
  forall k r, db_requirements d !! k = Some r -> requirement_TaskID r = id ->
    requirement_Required r = true -> requirement_Status r = RequirementSatisfied.

Lemma completed_inv_step release k d d' :
  keys_inv d -> completed_inv d -> step release k d d' -> completed_inv d'.
Proof.
  intros Hkeys Hinv Hs. destruct Hs as
    [d id t deps reqs e o a Hnone Hid Hck Hini Hzero Huniq Hdeps Hnd Hreqs Hsub
    |d id t t' Ht [Himm Hst Hcount _ _ _]
    |
    |d id t t' to e o a Ht Hcan Hf Hf' Hnd Hcom Hhold [Himm Hst Hcount _ _ _]
    |d id t t' att r e o a Ht Hst Hlt [Himm Hst' Hcount _ _ _]
    |d id t t' lid r aid att started updated e o a Ht Hst Hheld Hac [Himm Hst' Hcount _ _ _]
    |
    |d id t t' to lid r aid att att' status reason now letter e o a Ht Hst Hcan Hf Hheld
     Hover Hna Hlc Hletter [Himm Hst' Hcount _ _ Hck]
    | |d id t r Ht Hterm Hfresh Hrt
    |d id t rid r status satisfied updated Ht Hterm Hr Hrt Hpend Hnp
    | | | |]; try done; intros i x Hx Hc j y Hy Hj Hreq; simpl in *.
  - lookups; [by destruct Hini as [?|[?|?]]; congruence|].
    destruct (Hreqs j y Hy) as [Hold|(_ & _ & Hyid)]; [|congruence].
    by eapply (Hinv i x).
  - lookups; [eapply Hinv; [exact Ht|congruence|done..]|by eapply (Hinv i x)].
  - lookups; [|by eapply (Hinv i x)]. rewrite unsatisfied_zero in Hcom.
    eapply Hcom; [congruence|exact Hy|done..].
  - lookups; [congruence|by eapply (Hinv i x)].
  - lookups; [congruence|by eapply (Hinv i x)].
  - assert (Hy' : db_requirements d !! j = Some y) by (by destruct letter).
    assert (Hx' : <[id:=t']> (db_tasks d) !! i = Some x) by (by destruct letter).
    clear Hx Hy. lookups; [|by eapply (Hinv i x)].
    exfalso. replace to with StatusCompleted in Hcan by congruence. by destruct (task_Status t).
  - lookups; [|by eapply (Hinv i x)]. exfalso. replace i with id in Hx by congruence.
    rewrite Hx in Ht. injection Ht as ->. by rewrite Hc in Hterm.
  - lookups; [|by eapply (Hinv i x)]. exfalso. simpl in *.
    replace i with id in Hx by congruence.
    rewrite Hx in Ht. injection Ht as ->. by rewrite Hc in Hterm.
Qed.

(** ** Dependencies *)

Lemma tc_last {A} (R : relation A) (x y : A) : tc R x y -> exists z, R z y.
Proof. intros H. induction H; eauto. Qed.

Record deps_inv (ts : tasks_t) (edges : list (Z * Z)) : Prop := {
  de_ends : forall x y, (x, y) ∈ edges -> is_Some (ts !! x) /\ is_Some (ts !! y);
  de_unique : NoDup edges;
  de_acyclic : acyclic edges }.

Lemma deps_inv_put_task (ts : tasks_t) (edges : list (Z * Z)) (id : Z) (t' : Task) :
  deps_inv ts edges -> deps_inv (<[id := t']> ts) edges.
Proof.
  assert (Hs : forall k, is_Some (ts !! k) -> is_Some (<[id := t']> ts !! k)).
  { intros k Hk. destruct (decide (k = id)) as [->|Hne].
    - rewrite lookup_insert_eq. by eexists.
    - by rewrite lookup_insert_ne. }
  intros [He Hn Ha]. split; [|done..]. intros x y Hin. destruct (He x y Hin). auto.
Qed.

Lemma deps_inv_step release k d d' :
  deps_inv (db_tasks d) (db_dependencies d) -> step release k d d' ->
  deps_inv (db_tasks d') (db_dependencies d').
Proof.
  intros Hinv Hs. destruct Hs as
    [d id t deps reqs e o a Hnone Hid Hck Hini Hzero Huniq Hdeps Hnd Hreqs Hsub
    | | | | | | |d id t t' to lid r aid att att' status reason now letter
    |d id t dep Ht Hdep Hne Hterm Hcycle Hnew| | | | | |];
    simpl; try done; try (by apply deps_inv_put_task).
  - pose proof (deps_inv_put_task _ _ id t Hinv) as [He Hn Ha].
    destruct Hinv as [He' _ _]. split.
    + intros x y [Hin|Hin]%elem_of_app; [by apply He|].
      apply list_elem_of_fmap in Hin as (dep & [= -> ->] & Hdep).
      destruct (Hdeps dep Hdep) as [Hd Hsome]. rewrite lookup_insert_eq.
      rewrite lookup_insert_ne by done. split; [by eexists|done].
    + apply NoDup_app. split; [done|]. split; [|by apply NoDup_fmap_2; [intros ? ? [=]|]].
      intros [x y] Hin (dep & [= -> ->] & _)%list_elem_of_fmap.
      apply He' in Hin as [[? Hx] _]. congruence.
    + apply acyclic_add; [done|]. intros dep Hdep. split; [by apply Hdeps|].
      intros (z & Hz)%tc_last. apply He' in Hz as [_ [? Hx]]. congruence.
  - by destruct letter; apply deps_inv_put_task.
  - destruct Hinv as [He Hn Ha]. split.
    + intros x y [Hin|Hin]%elem_of_app; [by apply He|].
      apply list_elem_of_singleton in Hin as [= -> ->]. split; [by eexists|done].
    + apply NoDup_app. split; [done|]. split; [|apply NoDup_singleton].
      intros p Hp ->%list_elem_of_singleton. done.
    + apply (acyclic_add _ id [dep]); [done|]. intros x ->%list_elem_of_singleton.
      split; [done|]. by rewrite <- dependency_graph_spec.
Qed.

(** ** The outbox *)

(** A row that may still be delivered has attempts left; no row has more than
    its maximum. *)
Definition outbox_row_ok (r : OutboxRow) : Prop :=
  let o := row_Outbox r in
  0 <= outbox_AttemptCount o <= outbox_MaxAttempts o
  /\ (outbox_Status o = OutboxPending -> outbox_AttemptCount o < outbox_MaxAttempts o).

Record outbox_inv (t : gmap Z OutboxRow) : Prop := {
  ob_id : forall k r, t !! k = Some r -> row_id r = k;
  ob_check : forall k r, t !! k = Some r -> outbox_check r = true;
  ob_budget : forall k r, t !! k = Some r -> outbox_row_ok r }.

Lemma outbox_check_max (r : OutboxRow) :
  outbox_check r = true -> 1 <= outbox_MaxAttempts (row_Outbox r).
Proof. unfold outbox_check, between. rewrite !andb_true_iff, !Z.leb_le. tauto. Qed.

Lemma outbox_is_true (s : OutboxStatus) (r : OutboxRow) :
  outbox_is s r = true <-> outbox_Status (row_Outbox r) = s.
Proof. apply bool_decide_eq_true. Qed.

Lemma outbox_move_ok (r r' : OutboxRow) :
  outbox_row_ok r -> outbox_move r r' -> outbox_row_ok r' /\ row_id r' = row_id r.
Proof.
  intros [Hle Hlt] Hm. destruct Hm as [r h c e u Hs|r p u Hs|r l a u Hs];
    apply outbox_is_true in Hs; (split; [|done]); split; simpl; try done; try lia.
  - specialize (Hlt Hs). lia.
  - unfold outbox_after_failure. destruct (_ <=? _) eqn:Hb; [done|lia].
Qed.

Lemma outbox_inv_put (t : gmap Z OutboxRow) (r : OutboxRow) :
  outbox_inv t -> outbox_check r = true -> outbox_row_ok r ->
  outbox_inv (<[row_id r := r]> t).
Proof. intros [] Hc Hok. split; intros k x Hx; lookups; eauto. Qed.

Lemma outbox_inv_journal (d : DB) (id : Z) (from to : option Status) (e : Event)
    (o : OutboxRow) (a : AuditEvent) :
  outbox_inv (db_outbox d) -> journal_rows id from to e o d ->
  outbox_inv (<[row_id o := o]> (db_outbox d)).
Proof.
  intros Hinv [_ _ _ _ _ Hst Hc _ Hck]. apply outbox_inv_put; [done..|].
  apply outbox_check_max in Hck. split; [lia|]. rewrite Hst. lia.
Qed.

Lemma outbox_inv_step release k d d' :
  outbox_inv (db_outbox d) -> step release k d d' -> outbox_inv (db_outbox d').
Proof.
  intros Hinv Hs. destruct Hs; simpl; try done;
    try (by eapply outbox_inv_journal).
  - destruct letter; simpl; by eapply outbox_inv_journal.
  - destruct Hinv as [Hid Hck Hb].
    destruct (outbox_move_ok r r') as [Hok Hrow]; [by eapply Hb|done|].
    assert (Hkey : row_id r' = id) by (rewrite Hrow; by eapply Hid).
    rewrite <- Hkey. by apply outbox_inv_put.
  - destruct Hinv as [Hid Hck Hb].
    split; intros j x Hx; (eapply lookup_weaken in Hx; [|exact H]); eauto.
Qed.

(** ** The invariant *)

Record Inv (d : DB) : Prop := {
  inv_keys : keys_inv d;
  inv_leases : leases_inv d;
  inv_journal : journal_inv (db_tasks d) (db_events d);
  inv_dead : dead_inv (db_tasks d) (db_dead_letters d);
  inv_completed : completed_inv d;
  inv_deps : deps_inv (db_tasks d) (db_dependencies d);
  inv_outbox : outbox_inv (db_outbox d) }.

Lemma Inv_step release k d d' : Inv d -> step release k d d' -> Inv d'.
Proof.
  intros [] Hs. split.
  - by eapply keys_inv_step.
  - eapply leases_inv_step; [by eapply ky_tcheck|done..].
  - by eapply journal_inv_step.
  - by eapply dead_inv_step.
  - by eapply completed_inv_step.
  - by eapply deps_inv_step.
  - by eapply outbox_inv_step.
Qed.

Lemma Inv_steps release d d' : Inv d -> steps release d d' -> Inv d'.
Proof.
  intros Hinv Hs. induction Hs as [d|d d1 d2 [k Hs] _ IH]; [done|].
  apply IH. by eapply Inv_step.
Qed.

Lemma Inv_steps_on release k d d' : Inv d -> steps_on release k d d' -> Inv d'.
Proof. intros Hinv Hs. eapply Inv_steps; [done|by eapply steps_on_steps]. Qed.

(** A table without rows. *)
Ltac no_rows :=
  intros; simpl in *;
  match goal with
  | H : ∅ !! _ = Some _ |- _ => by rewrite lookup_empty in H
  | H : _ ∈ [] |- _ => by apply not_elem_of_nil in H
  end.

Lemma Inv_empty : Inv emptyDB.
Proof.
  split.
  - split; no_rows.
  - split; split; no_rows.
  - split; done.
  - split; no_rows.
  - intros i x Hx. no_rows.
  - split; [no_rows|constructor|]. intros x Ht. apply tc_last in Ht as [z Hz]. unfold edge in Hz. no_rows.
  - split; no_rows.
Qed.
