(* ===== verification/StoreRefine.v ===== *)
(** * The store's helpers as steps of the abstract machine

    What appendTaskEvent, transitionTask, touchTask and revokeLease do to the
    tables, as steps of StoreSpec.v. *)

From stdpp Require Import base tactics list gmap strings sorting relations.
From Stdlib Require Import ZArith Lia.
From S2P Require Import Prelude GoLib TaskDomain Database StoreHelpers StoreMutate StoreQueue.
From S2P Require Import StoreOutbox StoreRun StoreSpec LeaseInvariant TaskInvariant.

Local Open Scope Z_scope.

(** Takes apart one successful bind: the statement's run and the rest's. *)
Ltac next H w1 H1 :=
  let r := fresh "r" in
  apply bind_ok in H as (r & w1 & H1 & H).

(** The next statement leaves the tables alone, or is one of the checks. *)
Ltac skip_as H H1 :=
  let r := fresh "r" in
  let w := fresh "w" in
  apply bind_ok in H as (r & w & H1 & H);
  first
    [ apply get_db_ok in H1 as [-> ->]
    | apply throwIf_ok in H1 as [H1 ->]
    | apply clock_timestamp_ok in H1 as [_ H1]
    | apply transaction_now_ok in H1 as [_ H1]
    | apply nextval_ok in H1
    | apply lift_ok in H1 as [H1 ->] ].

Tactic Notation "skip" hyp(H) := let H1 := fresh "Hskip" in skip_as H H1.
Tactic Notation "skip" hyp(H) "as" ident(H1) := skip_as H H1.

Section Refine.
Context `{Env}.

(** ** appendTaskEvent *)

Lemma appendTaskEvent_ok (task : Task) (from to : option Status)
    (eventType actorType actorID : string) (payload : Payload) (n : Z) (u : unit)
    (w w' : World) :
  appendTaskEvent task from to eventType actorType actorID payload n w = (Ok u, w') ->
  exists e o a, journal_rows (task_ID task) from to e o (w_db w)
    /\ event_EventType e = eventType
    /\ w_db w' = journal e o a (w_db w).
Proof.
  unfold appendTaskEvent. intros Hm.
  skip Hm. next Hm w1 H1. apply transaction_now_ok in H1 as [_ H1].
  next Hm w2 H2. apply nextval_ok in H2.
  next Hm w3 H3. apply insert_event_ok in H3 as [_ H3].
  next Hm w4 H4. apply nextval_ok in H4.
  next Hm w5 H5. apply insert_outbox_ok in H5 as (Hck & Hfresh & H5).
  apply insert_audit_ok in Hm.
  rewrite H2, H1 in H3. rewrite H4, H3 in Hfresh, H5. rewrite H5 in Hm.
  match type of H3 with _ = set_events (_ ++ [?x]) _ => exists x end.
  match type of Hck with outbox_check ?x = true => exists x end.
  match type of Hm with _ = set_audit (_ ++ [?x]) _ => exists x end.
  split; [|split; [done|exact Hm]]. by split.
Qed.

Lemma journal_rows_ext id from to e o d d' :
  db_events d' = db_events d -> db_outbox d' = db_outbox d ->
  journal_rows id from to e o d -> journal_rows id from to e o d'.
Proof. intros He Ho []. split; congruence. Qed.

(** ** transitionTask *)

Lemma moved_transitioned (to : Status) (rc rs : string) (upd : Z) (term : option Z) (t : Task) :
  tasks_check (task_transitioned to rc rs upd term t) = true ->
  moved 0 t to (task_transitioned to rc rs upd term t).
Proof. intros Hc. split; simpl; [by split|done|lia|done..]. Qed.

Lemma transitionTask_ok (t : Task) (to : Status) (et rc rs at_ ai : string) (p : Payload) (n : Z)
    (row : Task) (w w' : World) :
  transitionTask t to et rc rs at_ ai p n w = (Ok row, w') ->
  CanTransition (task_Status t) to = true
  /\ exists t0 e o a, db_tasks (w_db w) !! task_ID t = Some t0
    /\ task_Version t0 = task_Version t
    /\ moved 0 t0 to row
    /\ task_StatusReasonCode row = nullif_empty rc
    /\ task_AvailableAt row = task_AvailableAt t0
    /\ event_EventType e = et
    /\ journal_rows (task_ID t0) (Some (task_Status t)) (Some to) e o (w_db w)
    /\ w_db w' = journal e o a (put_task (task_ID t) row (w_db w)).
Proof.
  unfold transitionTask. intros Hm.
  next Hm w1 H1. apply lift_ok in H1 as [Hv ->].
  assert (Hcan : CanTransition (task_Status t) to = true).
  { unfold ValidateTransition in Hv. by destruct (CanTransition (task_Status t) to). }
  split; [done|].
  next Hm w2 H2. apply clock_timestamp_ok in H2 as [_ H2].
  next Hm w3 H3. apply clock_timestamp_ok in H3 as [_ H3].
  next Hm w4 H4. apply update_task_ok in H4.
  destruct r2 as [x|]; [|by apply throw_ok in Hm].
  destruct H4 as (t0 & Ht0 & Hver & -> & Hck & H4).
  next Hm w5 H5. apply appendTaskEvent_ok in H5 as (e & o & a & Hj & Het & H5).
  apply ret_ok in Hm as [-> ->]. rewrite H3, H2 in *.
  exists t0, e, o, a. split_and!; try done.
  - by apply Z.eqb_eq.
  - by apply moved_transitioned.
  - eapply journal_rows_ext; [| |exact Hj]; by rewrite H4.
  - by rewrite H5, H4.
Qed.

(** A task as it is stored. *)
Definition stored (w : World) (t : Task) : Prop := db_tasks (w_db w) !! task_ID t = Some t.

Lemma stored_select (w w' : World) (id : Z) (t : Task) :
  Inv (w_db w) -> select_task id w = (Ok t, w') -> w' = w /\ stored w t /\ task_ID t = id.
Proof.
  intros Hinv [Ht ->]%select_task_ok.
  pose proof (ky_task _ (inv_keys _ Hinv) _ _ Ht) as Hid. unfold stored. by rewrite Hid.
Qed.

Lemma put_task_twice id t t' d : put_task id t' (put_task id t d) = put_task id t' d.
Proof. unfold put_task. simpl. unfold set_tasks. simpl. by rewrite insert_insert_eq. Qed.

Lemma plain_transition (release : bool) (t : Task) (to : Status) (et rc rs at_ ai : string)
    (p : Payload) (n : Z) (row : Task) (w w' : World) :
  stored w t -> transitionTask t to et rc rs at_ ai p n w = (Ok row, w') ->
  has_lease (task_Status t) = false -> has_lease to = false -> to <> StatusDeadLetter ->
  (to = StatusCompleted -> unsatisfied (task_ID t) (w_db w) = 0) ->
  hold_respected release t to ->
  step release (OnTask (task_ID t)) (w_db w) (w_db w')
  /\ stored w' row /\ moved 0 t to row /\ task_StatusReasonCode row = nullif_empty rc.
Proof.
  intros Hst Hm Hf Hf' Hnd Hcom Hhold.
  apply transitionTask_ok in Hm as (Hcan & t0 & e & o & a & Ht0 & _ & Hmv & Hrc & _ & _ & Hj & Hw).
  unfold stored in *. rewrite Hst in Ht0. injection Ht0 as <-. split.
  - rewrite Hw. by eapply step_plain.
  - rewrite (imm_ID _ _ (moved_imm _ _ _ _ Hmv)), Hw. simpl. by rewrite lookup_insert_eq.
Qed.

(** ** touchTask and other quiet updates *)

Lemma quiet_step (release : bool) (w : World) (t t' : Task) :
  stored w t -> quiet t t' ->
  step release (OnTask (task_ID t)) (w_db w) (put_task (task_ID t) t' (w_db w)).
Proof. intros Hst Hq. by eapply step_quiet. Qed.

Lemma touchTask_ok (release : bool) (t row : Task) (w w' : World) :
  stored w t -> Terminal (task_Status t) = false -> touchTask t w = (Ok row, w') ->
  step release (OnTask (task_ID t)) (w_db w) (w_db w') /\ stored w' row
  /\ task_ID row = task_ID t.
Proof.
  unfold touchTask. intros Hst Hterm Hm.
  next Hm w1 H1. apply clock_timestamp_ok in H1 as [_ H1].
  next Hm w2 H2. apply update_task_ok in H2.
  destruct r0 as [x|]; [|by apply throw_ok in Hm].
  destruct H2 as (t0 & Ht0 & _ & -> & Hck & H2).
  apply ret_ok in Hm as [-> ->]. unfold stored in *.
  rewrite H1, Hst in Ht0. injection Ht0 as <-. rewrite H1 in H2. split.
  - rewrite H2. apply (quiet_step release w t); [done|]. split; simpl; try done; [lia|].
    congruence.
  - rewrite H2. simpl. by rewrite lookup_insert_eq.
Qed.

Lemma event_step (release : bool) (t : Task) (et at_ ai : string) (p : Payload) (n : Z)
    (u : unit) (w w' : World) :
  stored w t -> appendTaskEvent t None None et at_ ai p n w = (Ok u, w') ->
  step release (OnTask (task_ID t)) (w_db w) (w_db w') /\ db_tasks (w_db w') = db_tasks (w_db w).
Proof.
  intros Hst Hm. apply appendTaskEvent_ok in Hm as (e & o & a & Hj & _ & Hw).
  rewrite Hw. split; [by eapply step_event|done].
Qed.

(** [UPDATE tasks SET available_at] of a task that is not terminal. *)
Lemma deferred_quiet (t : Task) (z : Z) :
  tasks_check t = true -> Terminal (task_Status t) = false -> quiet t (task_deferred z t).
Proof. intros Hc Hterm. split; simpl; try done. congruence. Qed.

Lemma defer_step (release : bool) (t : Task) (z : Z) (o : option Task) (w w' : World) :
  stored w t -> Terminal (task_Status t) = false ->
  update_task (task_ID t) (fun _ => true) (task_deferred z) w = (Ok o, w') ->
  step release (OnTask (task_ID t)) (w_db w) (w_db w').
Proof.
  intros Hst Hterm Hm. apply update_task_ok in Hm. unfold stored in Hst. destruct o as [row|].
  - destruct Hm as (t0 & Ht0 & _ & -> & Hck & ->). rewrite Hst in Ht0. injection Ht0 as <-.
    by apply (quiet_step release w t), deferred_quiet.
  - destruct Hm as [_ Hm]. by specialize (Hm _ Hst).
Qed.

(** ** Leases *)

(** The lease and the attempt of a task that holds one. *)
Lemma lease_held (d : DB) (id : Z) (t : Task) :
  Inv d -> db_tasks d !! id = Some t -> has_lease (task_Status t) = true ->
  exists lid r aid a, held_by d id t lid r aid a.
Proof.
  intros Hinv Ht Hh. pose proof (li_lease _ (inv_leases _ Hinv)) as Hok.
  destruct (lk_holder _ _ _ Hok id t Ht Hh) as (lid & r & Hr & Hra & Hrt).
  destruct (lk_active _ _ _ Hok lid r Hr Hra) as (x & a & Hx & _ & Ha & Hown & Hstate & _).
  rewrite Hrt, Ht in Hx. injection Hx as <-.
  exists lid, r, (lease_AttemptID (row_Lease r)), a. split; congruence.
Qed.

(** An active lease names its task, which holds it. *)
Lemma active_held (d : DB) (lid : Z) (r : LeaseRow) :
  Inv d -> db_leases d !! lid = Some r -> lease_active r = true ->
  exists t a, db_tasks d !! lease_TaskID (row_Lease r) = Some t
    /\ has_lease (task_Status t) = true
    /\ held_by d (lease_TaskID (row_Lease r)) t lid r (lease_AttemptID (row_Lease r)) a.
Proof.
  intros Hinv Hr Hra. pose proof (li_lease _ (inv_leases _ Hinv)) as Hok.
  destruct (lk_active _ _ _ Hok lid r Hr Hra) as (t & a & Ht & Hh & Ha & Hown & Hstate & _).
  exists t, a. split_and!; try done.
Qed.

Lemma held_unique (d : DB) (id : Z) (t : Task) (lid aid : Z) (r : LeaseRow) (a : Attempt)
    (k : Z) (x : LeaseRow) :
  Inv d -> held_by d id t lid r aid a -> db_leases d !! k = Some x -> lease_active x = true ->
  lease_TaskID (row_Lease x) = id -> k = lid.
Proof.
  intros Hinv [Hr Hra Hrt _ _ _ _] Hx Hxa Hxt.
  eapply (lk_unique _ _ _ (li_lease _ (inv_leases _ Hinv))); [exact Hx|exact Hr|done..|].
  congruence.
Qed.

(** No active lease of a task means that its status needs none. *)
Lemma no_lease (d : DB) (id : Z) (t : Task) :
  Inv d -> db_tasks d !! id = Some t -> active_leases id d = [] ->
  has_lease (task_Status t) = false.
Proof.
  intros Hinv Ht Hn. destruct (has_lease (task_Status t)) eqn:Hh; [|done].
  destruct (lease_held _ _ _ Hinv Ht Hh) as (lid & r & aid & a & [Hr Hra Hrt _ _ _ _]).
  rewrite active_leases_nil in Hn. by destruct (Hn lid r).
Qed.

Lemma active_leases_spec (d : DB) (id : Z) (r : LeaseRow) :
  r ∈ active_leases id d <-> exists k, db_leases d !! k = Some r /\ lease_active r = true
    /\ lease_TaskID (row_Lease r) = id.
Proof.
  unfold active_leases, lease_active. rewrite rows_spec. apply exist_proper. intros k.
  rewrite andb_true_iff, Z.eqb_eq, bool_decide_eq_true. tauto.
Qed.

(** The set-based update of the active lease of a task and an attempt. *)
Lemma close_lease (d : DB) (id : Z) (t : Task) (lid aid : Z) (r : LeaseRow) (a : Attempt)
    (f : LeaseRow -> LeaseRow) :
  Inv d -> held_by d id t lid r aid a ->
  (fun x => if lease_of id aid x && lease_active x then f x else x) <$> db_leases d
  = <[lid := f r]> (db_leases d).
Proof.
  intros Hinv Hh. pose proof Hh as [Hr Hra Hrt Hrat _ _ _].
  apply (update_one _ (fun x => lease_of id aid x && lease_active x)); [done| |].
  - unfold lease_of. by rewrite Hrt, Hrat, !Z.eqb_refl, Hra.
  - intros k x Hx [Hl Hxa]%andb_true_iff. unfold lease_of in Hl.
    apply andb_true_iff in Hl as [Hxt%Z.eqb_eq _]. by eapply held_unique.
Qed.

Lemma held_live (d : DB) (id : Z) (t : Task) (lid aid : Z) (r : LeaseRow) (a : Attempt) :
  held_by d id t lid r aid a -> attempt_live a = true.
Proof. intros [_ _ _ _ _ _ Hs]. unfold attempt_live. rewrite <- Hs. by destruct (task_Status t). Qed.

Lemma ended_over (a : Attempt) (state : AttemptState) (summary code : option string)
    (retryable : option bool) (finished updated : Z) :
  attempt_over state = true ->
  attempts_check (attempt_ended state summary code retryable finished updated a) = true ->
  attempt_over_of a (attempt_ended state summary code retryable finished updated a).
Proof. intros Ho Hc. by split. Qed.

(** A lease row the update accepted. *)
Lemma closed_check (d : DB) (id : Z) (t : Task) (lid aid : Z) (r : LeaseRow) (a : Attempt)
    (f : LeaseRow -> LeaseRow) (c : LeaseRow -> bool) :
  held_by d id t lid r aid a -> c r = true ->
  Forall (fun x => leases_check x = true) (f <$> rows c (db_leases d)) ->
  leases_check (f r) = true.
Proof.
  intros [Hr _ _ _ _ _ _] Hc Hall. rewrite Forall_fmap, Forall_forall in Hall.
  apply (Hall r). apply rows_spec. eauto.
Qed.

Lemma held_lease_of (d : DB) (id : Z) (t : Task) (lid aid : Z) (r : LeaseRow) (a : Attempt) :
  held_by d id t lid r aid a -> lease_of id aid r && lease_active r = true.
Proof.
  intros [_ Hra Hrt Hrat _ _ _]. unfold lease_of. by rewrite Hrt, Hrat, !Z.eqb_refl, Hra.
Qed.

(** The tables after the lease and the attempt were ended. *)
Definition ended (lid aid : Z) (r' : LeaseRow) (a' : Attempt) (d : DB) : DB :=
  put_lease lid r' (put_attempt aid a' d).

Lemma revokeLease_ok (id aid : Z) (t : Task) (reason : string) (u : unit) (lid : Z)
    (r : LeaseRow) (a : Attempt) (w w' : World) :
  Inv (w_db w) -> held_by (w_db w) id t lid r aid a ->
  revokeLease id aid reason w = (Ok u, w') ->
  exists now a', attempt_over_of a a'
    /\ leases_check (lease_closed LeaseRevoked reason now r) = true
    /\ w_db w' = ended lid aid (lease_closed LeaseRevoked reason now r) a' (w_db w).
Proof.
  unfold revokeLease. intros Hinv Hh Hm.
  next Hm w1 H1. apply clock_timestamp_ok in H1 as [_ H1].
  next Hm w2 H2. apply update_leases_ok in H2 as (-> & Hck & H2).
  next Hm w3 H3. apply clock_timestamp_ok in H3 as [_ H3].
  next Hm w4 H4. apply clock_timestamp_ok in H4 as [_ H4].
  next Hm w5 H5. apply ret_ok in Hm as [_ ->].
  rewrite H1 in H2, Hck. erewrite close_lease in H2 by done.
  apply update_attempt_ok in H5 as [(_ & x & Hx & _ & Hac & H5)|(_ & _ & H5)].
  - rewrite H4, H3, H2 in Hx, H5. simpl in Hx. pose proof Hh as [_ _ _ _ Ha _ _].
    rewrite Ha in Hx. injection Hx as <-.
    do 2 eexists. split; [eapply ended_over; [|exact Hac]; done|]. split; [|exact H5].
    eapply (closed_check _ _ _ _ _ _ _ (lease_closed LeaseRevoked reason _)); [done| |exact Hck].
    by eapply held_lease_of.
  - exfalso. rewrite H4, H3, H2 in H5. simpl in H5. pose proof Hh as [_ _ _ _ Ha _ _].
    specialize (H5 _ Ha). apply held_live in Hh. congruence.
Qed.

(** The transition that ends an attempt: [d] is the state before the lease and
    the attempt were ended, and [td] the task as the transition finds it. *)
Lemma end_transition (release : bool) (d : DB) (t td : Task) (to : Status)
    (et rc rs at_ ai : string) (p : Payload) (n : Z) (row : Task) (lid aid : Z) (r : LeaseRow)
    (a a' : Attempt) (status : LeaseStatus) (reason : string) (now : Z)
    (letter : option DeadLetter) (w w' : World) :
  db_tasks d !! task_ID t = Some t -> has_lease (task_Status t) = true ->
  has_lease to = false -> held_by d (task_ID t) t lid r aid a -> attempt_over_of a a' ->
  status <> LeaseActive -> leases_check (lease_closed status reason now r) = true ->
  letter_for (task_ID t) to (task_AttemptCount t) (task_MaxAttempts t) letter d ->
  immutable t td -> task_Status td = task_Status t ->
  task_AttemptCount td = task_AttemptCount t -> task_TaskClass td = task_TaskClass t ->
  task_Version td = task_Version t ->
  w_db w = put_task (task_ID t) td
    (put_letter letter (ended lid aid (lease_closed status reason now r) a' d)) ->
  transitionTask t to et rc rs at_ ai p n w = (Ok row, w') ->
  step release (OnTask (task_ID t)) d (w_db w') /\ stored w' row /\ moved 0 t to row.
Proof.
  intros Ht Hh Hf Hheld Hover Hna Hlc Hletter Himm Hs Hc Hcl Hv Hw Hm.
  apply transitionTask_ok in Hm as (Hcan & t0 & e & o & x & Ht0 & _ & Hmv & _ & _ & _ & Hj & Hw').
  rewrite Hw in Ht0. simpl in Ht0. rewrite lookup_insert_eq in Ht0. injection Ht0 as <-.
  assert (Hmoved : moved 0 t to row).
  { destruct Hmv as [Hi Hst Hct Hcls Hvr Hck]. split; try done; [by etransitivity|lia| |lia].
    congruence. }
  assert (Hfinal : w_db w' = journal e o x (put_task (task_ID t) row (put_letter letter
            (put_lease lid (lease_closed status reason now r) (put_attempt aid a' d))))).
  { by rewrite Hw', Hw, put_task_twice. }
  rewrite (imm_ID _ _ Himm) in Hj. split; [|split; [|done]].
  - rewrite Hfinal. eapply step_end; try done.
    eapply journal_rows_ext; [| |exact Hj]; rewrite Hw; by destruct letter.
  - unfold stored. rewrite (imm_ID _ _ (moved_imm _ _ _ _ Hmoved)), Hfinal. simpl.
    by rewrite lookup_insert_eq.
Qed.

End Refine.
