(* ===== verification/MutateRefine.v ===== *)
(** * The mutations refine the abstract machine

    Every method of mutate.go and requirement_verification.go is a sequence of
    steps on one task. *)

From stdpp Require Import base tactics list gmap strings sorting relations.
From Stdlib Require Import ZArith Lia.
From S2P Require Import Prelude GoLib TaskDomain Database StoreHelpers StoreMutate StoreQueue.
From S2P Require Import StoreOutbox StoreRun StoreSpec LeaseInvariant TaskInvariant StoreRefine.

Local Open Scope Z_scope.

(** Runs [select_task] or [lockTask] at the front of [Hm]. *)
Ltac lock Hm Hinv Hst Hid :=
  let H1 := fresh "H1" in
  let w := fresh "w" in
  next Hm w H1; apply stored_select in H1 as (-> & Hst & Hid); [|exact Hinv].

Ltac one_step := apply rtc_once.

(** A transaction's body refines steps on [k] when it succeeds. *)
Definition tx_refines {A} (release : bool) (k : target) (m : M A) : Prop :=
  forall w r w', Inv (w_db w) -> m w = (Ok r, w') -> steps_on release k (w_db w) (w_db w').

(** A method refines steps on [k] whatever its result. *)
Definition refines {A} (release : bool) (m : M A) : Prop :=
  forall w r w', Inv (w_db w) -> m w = (r, w') -> steps release (w_db w) (w_db w').

Section Refine.
Context `{Env}.

Lemma withTx_err {A} (m : M A) (e : Error) (w w' : World) :
  withTx m w = (Err e, w') -> w_db w' = w_db w.
Proof. unfold withTx. destruct (m _) as [[?|?] ?]; [done|]. by intros [= -> <-]. Qed.

Lemma withTx_refines {A} (release : bool) (m : M A) :
  (forall w r w', Inv (w_db w) -> m w = (Ok r, w') -> steps release (w_db w) (w_db w')) ->
  refines release (withTx m).
Proof.
  intros Hm w [r|e] w' Hinv Hrun.
  - apply withTx_ok in Hrun as (w0 & Hw0 & Hrun). rewrite <- Hw0 in Hinv |- *. by eapply Hm.
  - apply withTx_err in Hrun as ->. reflexivity.
Qed.

Lemma withTx_refines_on {A} (release : bool) (k : target) (m : M A) :
  tx_refines release k m -> refines release (withTx m).
Proof. intros Hm. apply withTx_refines. intros. eapply steps_on_steps. by eapply Hm. Qed.

(** ** Dependencies and requirements *)

Lemma AddDependency_refines (release : bool) (c : AddDependencyCommand) (n : Z) :
  tx_refines release (OnTask (adddep_TaskID c)) (AddDependency_tx c n).
Proof.
  intros w u w' Hinv Hm. unfold AddDependency_tx in Hm.
  lock Hm Hinv Hst Hid. skip Hm as H1.
  apply orb_false_iff in H1 as [[[Hterm Hl]%orb_false_iff Hr]%orb_false_iff Hv].
  lock Hm Hinv Hdst Hdid. skip Hm. skip Hm. skip Hm as Hcycle.
  apply bool_decide_eq_false in Hcycle. next Hm w1 H4. unfold insert_dependency_ignore in H4.
  skip H4. skip H4 as H5. apply Z.eqb_neq in H5. destruct (bool_decide ((_, _) ∈ _)) eqn:Hin;
    [|apply bool_decide_eq_false in Hin].
  { apply ret_ok in H4 as [-> ->]. simpl in Hm. apply ret_ok in Hm as [_ ->]. reflexivity. }
  next H4 w2 H6. apply modify_ok in H6 as ->. apply ret_ok in H4 as [-> ->]. simpl in Hm.
  set (d1 := set_dependencies _ _) in *.
  assert (Hstep : step release (OnTask (adddep_TaskID c)) (w_db w) d1).
  { eapply step_dependency; try done; unfold stored in *; rewrite ?Hid, ?Hdid in *; [done|].
    by eexists. }
  eapply rtc_l; [exact Hstep|].
  assert (Hst1 : stored (set_db d1 w) r) by done.
  destruct (bool_decide (task_Status r = StatusReady) && _) eqn:Hb.
  - apply andb_true_iff in Hb as [Hready%bool_decide_eq_true _].
    next Hm w2 H7. apply ret_ok in Hm as [_ ->].
    eapply (plain_transition release) in H7 as (Hs & _);
      [|done|by rewrite Hready|done..|].
    + rewrite Hid in Hs. by one_step.
    + intros Hh. unfold isCoordinationHeld in Hh. by rewrite Hready in Hh.
  - next Hm w2 H7. eapply (touchTask_ok release) in H7 as (Hs & Hst2 & Hid2); [|done..].
    eapply (event_step release) in Hm as [Hs' _]; [|done].
    rewrite Hid in Hs. rewrite Hid2, Hid in Hs'. eapply rtc_l; [exact Hs|by one_step].
Qed.

Lemma AddRequirement_refines (release : bool) (c : AddRequirementCommand) (n : Z) :
  tx_refines release (OnTask (addreq_TaskID c)) (AddRequirement_tx c n).
Proof.
  intros w u w' Hinv Hm. unfold AddRequirement_tx in Hm.
  lock Hm Hinv Hst Hid. next Hm w1 H2.
  assert (Hterm : Terminal (task_Status r) = false /\ w1 = w).
  { destruct (task_Status r); try (by apply throw_ok in H2); by apply ret_ok in H2 as [_ ->]. }
  destruct Hterm as [Hterm ->]. clear H2.
  next Hm w1 H2. apply transaction_now_ok in H2 as [_ H2].
  next Hm w2 H3. apply nextval_ok in H3.
  next Hm w3 H4. apply insert_requirement_ok in H4 as (-> & _ & Hfresh & H4).
  rewrite H3, H2 in Hfresh, H4.
  next Hm w4 H5.
  assert (Hst3 : stored w3 r) by (unfold stored; by rewrite H4).
  eapply (touchTask_ok release) in H5 as (Hs & Hst4 & Hid4); [|done..].
  next Hm w5 H6. apply ret_ok in Hm as [_ ->].
  eapply (event_step release) in H6 as [Hs' _]; [|done].
  rewrite Hid in Hs. rewrite Hid4, Hid in Hs'. unfold stored in Hst. rewrite Hid in Hst.
  eapply rtc_l; [|eapply rtc_l; [exact Hs|by one_step]].
  rewrite H4. by eapply step_requirement.
Qed.

(** ** Evidence *)

Lemma evidence_step (release : bool) (id : Z) (t : Task) (row e : Evidence) (w w' : World) :
  db_tasks (w_db w) !! id = Some t -> Terminal (task_Status t) = false ->
  evidence_TaskID row = id ->
  (forall rid, evidence_RequirementID row = Some rid -> exists r,
     db_requirements (w_db w) !! rid = Some r /\ requirement_TaskID r = id) ->
  insert_evidence row w = (Ok e, w') ->
  step release (OnTask id) (w_db w) (w_db w')
  /\ db_tasks (w_db w') = db_tasks (w_db w)
  /\ db_requirements (w_db w') = db_requirements (w_db w).
Proof.
  intros Ht Hterm Hid Hreq Hm. apply insert_evidence_ok in Hm as (_ & _ & Hfresh & ->).
  split; [|done]. by eapply step_evidence.
Qed.

Lemma resolve_step (release : bool) (id : Z) (t : Task) (rid : Z) (c : Requirement -> bool)
    (status : RequirementStatus) (satisfied : option Z) (updated n : Z) (w w' : World) :
  db_tasks (w_db w) !! id = Some t -> Terminal (task_Status t) = false ->
  (forall r, db_requirements (w_db w) !! rid = Some r -> c r = true ->
     requirement_TaskID r = id /\ requirement_pending r = true) ->
  status <> RequirementPending ->
  update_requirement rid c (requirement_resolved status satisfied updated) w = (Ok n, w') ->
  steps_on release (OnTask id) (w_db w) (w_db w') /\ db_tasks (w_db w') = db_tasks (w_db w).
Proof.
  intros Ht Hterm Hc Hnp Hm.
  apply update_requirement_ok in Hm as [(_ & r & Hr & Hcr & _ & ->)|(_ & -> & _)]; [|by split].
  split; [|done]. destruct (Hc r Hr Hcr) as [Hid Hp%bool_decide_eq_true].
  apply rtc_once. by eapply step_resolve.
Qed.

Lemma RecordEvidence_refines (release : bool) (c : RecordEvidenceCommand) (n : Z) :
  tx_refines release (OnTask (evcmd_TaskID c)) (RecordEvidence_tx c n).
Proof.
  intros w u w' Hinv Hm. unfold RecordEvidence_tx in Hm.
  lock Hm Hinv Hst Hid. skip Hm as Hterm.
  unfold stored in Hst. rewrite Hid in Hst.
  next Hm w1 H2.
  assert (Hreq : w1 = w /\ forall rid, evcmd_RequirementID c = Some rid -> exists q,
            db_requirements (w_db w) !! rid = Some q /\ requirement_TaskID q = evcmd_TaskID c).
  { destruct (evcmd_RequirementID c) as [rid|]; [|by apply ret_ok in H2 as [_ ->]].
    next H2 w2 H3. unfold select_requirement in H3. skip H3.
    destruct (db_requirements (w_db w) !! rid) as [q|] eqn:Hq; [|by apply throw_ok in H3].
    apply ret_ok in H3 as [-> ->]. skip H2 as H3. apply throwIf_ok in H2 as [_ ->].
    apply orb_false_iff in H3 as [Hq'%negb_false_iff%Z.eqb_eq _].
    split; [done|]. intros ? [= <-]. eauto. }
  destruct Hreq as [-> Hreq]. clear H2.
  next Hm w1 H2. apply transaction_now_ok in H2 as [_ H2].
  next Hm w2 H3. apply nextval_ok in H3. rewrite H2 in H3.
  next Hm w3 H4. rewrite <- H3 in Hst, Hreq.
  eapply (evidence_step release) in H4 as (Hs1 & Ht1 & Hr1); [|done..].
  rewrite H3 in Hs1, Ht1, Hr1.
  next Hm w4 H5.
  assert (Hs2 : steps_on release (OnTask (evcmd_TaskID c)) (w_db w3) (w_db w4)
                /\ db_tasks (w_db w4) = db_tasks (w_db w3)).
  { destruct (evcmd_Satisfies c); [|by apply ret_ok in H5 as [_ ->]].
    destruct (evcmd_RequirementID c) as [rid|]; [|by apply throw_ok in H5].
    next H5 w5 H6. apply clock_timestamp_ok in H6 as [_ H6].
    next H5 w6 H7. apply clock_timestamp_ok in H7 as [_ H7].
    next H5 w7 H8. apply throwIf_ok in H5 as [_ ->].
    rewrite <- H6, <- H7. eapply (resolve_step release) in H8; [exact H8| |exact Hterm| |done].
    - by rewrite H7, H6, Ht1, <- H3.
    - intros q _ [Hq1%Z.eqb_eq Hq2]%andb_true_iff. done. }
  destruct Hs2 as [Hs2 Ht2].
  next Hm w5 H6. eapply (touchTask_ok release) in H6 as (Hs3 & Hst3 & Hid3); [| |exact Hterm].
  2:{ unfold stored. by rewrite Ht2, Ht1, Hid, <- H3. }
  next Hm w6 H7. apply ret_ok in Hm as [_ ->].
  eapply (event_step release) in H7 as [Hs4 _]; [|done].
  rewrite Hid in Hs3. rewrite Hid3, Hid in Hs4.
  eapply rtc_l; [exact Hs1|]. etransitivity; [exact Hs2|].
  eapply rtc_l; [exact Hs3|by one_step].
Qed.

Lemma RecordRequirementVerification_refines (release : bool)
    (c : RequirementVerificationCommand) (n : Z) :
  tx_refines release (OnTask (vcmd_TaskID c)) (RecordRequirementVerification_tx c n).
Proof.
  intros w u w' Hinv Hm. unfold RecordRequirementVerification_tx in Hm.
  lock Hm Hinv Hst Hid. skip Hm as Hterm.
  unfold stored in Hst. rewrite Hid in Hst.
  next Hm w1 H2. unfold select_requirement in H2. skip H2.
  destruct (db_requirements (w_db w) !! vcmd_RequirementID c) as [q|] eqn:Hq;
    [|by apply throw_ok in H2].
  apply ret_ok in H2 as [-> ->]. skip Hm as H1. skip Hm.
  apply negb_false_iff, Z.eqb_eq in H1.
  next Hm w1 H3. apply transaction_now_ok in H3 as [_ H3].
  next Hm w2 H4. apply nextval_ok in H4. rewrite H3 in H4.
  next Hm w3 H5. rewrite <- H4 in Hst, Hq.
  eapply (evidence_step release) in H5 as (Hs1 & Ht1 & Hr1); [|done..|].
  2:{ simpl. intros ? [= <-]. eauto. }
  set (res := match vcmd_Result c with
              | RequirementVerificationFailed =>
                  (RequirementFailed, "task.requirement_failed"%string)
              | _ => (RequirementSatisfied, "task.requirement_satisfied"%string)
              end) in *.
  assert (Hnp : fst res <> RequirementPending) by (by unfold res; destruct (vcmd_Result c)).
  destruct res as [status eventType]. simpl in Hnp.
  next Hm w4 H6. apply clock_timestamp_ok in H6 as [_ H6].
  next Hm w5 H7. apply clock_timestamp_ok in H7 as [_ H7]. rewrite H6 in H7.
  next Hm w6 H8. rewrite <- H7 in Ht1, Hr1.
  eapply (resolve_step release) in H8 as [Hs2 Ht2];
    [|by rewrite Ht1|exact Hterm| |exact Hnp].
  2:{ intros x Hx Hp. rewrite Hr1, Hq in Hx. by injection Hx as <-. }
  next Hm w7 H9. eapply (touchTask_ok release) in H9 as (Hs3 & Hst3 & Hid3); [| |exact Hterm].
  2:{ unfold stored. by rewrite Ht2, Ht1, Hid. }
  next Hm w8 H10. apply ret_ok in Hm as [_ ->].
  eapply (event_step release) in H10 as [Hs4 _]; [|done].
  rewrite Hid in Hs3. rewrite Hid3, Hid in Hs4. rewrite H4 in Hs1. rewrite H7 in Hs2.
  eapply rtc_l; [exact Hs1|]. etransitivity; [exact Hs2|].
  eapply rtc_l; [exact Hs3|by one_step].
Qed.

(** ** Transitions *)

(** Revoking the active lease, if there is one, and leaving the state. *)
Lemma revoke_transition (release : bool) (t row : Task) (to : Status)
    (reason et rc rs at_ ai : string) (p p' : Payload) (n : Z) (active : option Z)
    (w w1 w2 w' : World) :
  Inv (w_db w) -> stored w t ->
  activeLeaseAttempt (task_ID t) w = (Ok active, w1) ->
  revoke_active t active reason p w1 = (Ok p', w2) ->
  transitionTask t to et rc rs at_ ai p' n w2 = (Ok row, w') ->
  has_lease to = false -> to <> StatusDeadLetter -> to <> StatusCompleted ->
  hold_respected release t to ->
  step release (OnTask (task_ID t)) (w_db w) (w_db w').
Proof.
  intros Hinv Hst Hact Hrev Hm Hf Hnd Hnc Hhold.
  apply activeLeaseAttempt_ok in Hact as [-> Hact].
  destruct active as [aid|]; simpl in Hrev.
  - destruct Hact as (r & Hr & Hrat).
    apply active_leases_spec in Hr as (lid & Hr & Hra & Hrt).
    destruct (active_held _ _ _ Hinv Hr Hra) as (t0 & a & Ht0 & Hh & Hheld).
    rewrite Hrt, Hrat in *. unfold stored in Hst. rewrite Hst in Ht0. injection Ht0 as <-.
    next Hrev w3 H3. apply ret_ok in Hrev as [-> ->].
    eapply revokeLease_ok in H3 as (now & a' & Hover & Hlc & Hw); [|done..].
    eapply (end_transition release (w_db w) t t) with (letter := None) (status := LeaseRevoked);
      [done|done|done|exact Hheld|exact Hover|done|exact Hlc|exact Hnd|reflexivity|done|done|done
      |done| |exact Hm].
    rewrite Hw. unfold put_task. simpl. by rewrite insert_id.
  - apply ret_ok in Hrev as [-> ->].
    eapply (plain_transition release) in Hm as [Hs _]; [exact Hs|done| |done|done|done|done].
    by eapply no_lease.
Qed.

Lemma not_held (release : bool) (t : Task) (to : Status) :
  isCoordinationHeld t = false -> hold_respected release t to.
Proof. intros Hh Hh'. congruence. Qed.

Lemma not_blocked_not_held (t : Task) : task_Status t <> StatusBlocked -> isCoordinationHeld t = false.
Proof. intros Hs. unfold isCoordinationHeld. by rewrite bool_decide_false. Qed.

Lemma Finalize_refines (release : bool) (c : FinalizeCommand) (n : Z) :
  tx_refines release (OnTask (fin_TaskID c)) (Finalize_tx c n).
Proof.
  intros w u w' Hinv Hm. unfold Finalize_tx in Hm.
  lock Hm Hinv Hst Hid. next Hm w1 H2. apply rtc_once. rewrite <- Hid.
  assert (Hplain : forall to q w2, awaiting_verification r w = (Ok q, w2) ->
    transitionTask r to "task.finalized" (fin_ReasonCode c) (fin_Reason c) (fin_ActorType c)
      (fin_ActorID c) (snd r0) n w2 = (Ok u, w') ->
    has_lease to = false -> to <> StatusDeadLetter ->
    (to = StatusCompleted -> unsatisfied (task_ID r) (w_db w) = 0) ->
    step release (OnTask (task_ID r)) (w_db w) (w_db w')).
  { intros to q w2 Haw Htr Hf Hnd Hcom. apply throwIf_ok in Haw as [Haw ->].
    apply negb_false_iff, bool_decide_eq_true in Haw.
    eapply (plain_transition release) in Htr as [Hs _]; [exact Hs|done|by rewrite Haw|done|done|done|].
    apply not_held, not_blocked_not_held. by rewrite Haw. }
  destruct (fin_Outcome c).
  - next H2 w2 H3. skip H2. skip H2 as Hun. apply ret_ok in H2 as [-> ->].
    eapply (Hplain StatusCompleted); [exact H3|exact Hm|done|done|].
    intros _. apply throwIf_ok in H3 as [_ ->]. rewrite Hid. unfold unsatisfied in *. lia.
  - next H2 w2 H3. apply ret_ok in H2 as [-> ->].
    by eapply (Hplain StatusNoAction); [exact H3|exact Hm|..].
  - next H2 w2 H3. apply ret_ok in H2 as [-> ->].
    by eapply (Hplain StatusFailed); [exact H3|exact Hm|..].
  - apply ret_ok in H2 as [-> ->]. pose proof Hm as Hm'.
    apply transitionTask_ok in Hm' as [Hcan _].
    eapply (plain_transition release) in Hm as [Hs _]; [exact Hs|done| |done|done|done|].
    + by destruct (task_Status r).
    + intros _. auto.
  - next H2 w2 H3. next H2 w3 H4. apply ret_ok in H2 as [-> ->].
    eapply revoke_transition; [done..|]. intros _. auto.
  - by apply throw_ok in H2.
Qed.

Lemma Block_refines (release : bool) (c : BlockCommand) (n : Z) :
  tx_refines release (OnTask (block_TaskID c)) (Block_tx c n).
Proof.
  intros w u w' Hinv Hm. unfold Block_tx in Hm. lock Hm Hinv Hst Hid.
  destruct (bool_decide (task_Status r = StatusBlocked)) eqn:Hb.
  { apply ret_ok in Hm as [_ ->]. reflexivity. }
  apply bool_decide_eq_false in Hb. skip Hm. next Hm w2 H2. skip Hm. next Hm w3 H3.
  rewrite <- Hid. apply rtc_once. eapply revoke_transition; [done..|].
  by apply not_held, not_blocked_not_held.
Qed.

Lemma Cancel_refines (release : bool) (c : CancelCommand) (n : Z) :
  tx_refines release (OnTask (cancel_TaskID c)) (Cancel_tx c n).
Proof.
  intros w u w' Hinv Hm. unfold Cancel_tx in Hm. lock Hm Hinv Hst Hid.
  destruct (bool_decide (task_Status r = StatusCancelled)) eqn:Hb.
  { apply ret_ok in Hm as [_ ->]. reflexivity. }
  skip Hm. next Hm w2 H2. next Hm w3 H3.
  rewrite <- Hid. apply rtc_once. eapply revoke_transition; [done..|]. intros _. auto.
Qed.

Lemma releaseTarget_cases (t : Task) (s : dependencyInspection) :
  releaseTargetStatus t s = StatusPending \/ releaseTargetStatus t s = StatusReady.
Proof. unfold releaseTargetStatus. destruct (_ || _); auto. Qed.

Lemma Unblock_refines (release : bool) (c : UnblockCommand) (check : AssigneeCheck) (n : Z) :
  tx_refines release (OnTask (unblock_TaskID c)) (Unblock_tx c check n).
Proof.
  intros w u w' Hinv Hm. unfold Unblock_tx in Hm. lock Hm Hinv Hst Hid.
  skip Hm as Hb. apply negb_false_iff, bool_decide_eq_true in Hb.
  skip Hm as Hh. skip Hm. skip Hm. next Hm w2 H2. skip Hm.
  apply inspectDependencies_ok in H2 as [Hw _].
  rewrite <- Hid, <- Hw. apply rtc_once.
  eapply (plain_transition release) in Hm as [Hs _]; [exact Hs| |by rewrite Hb|..].
  - unfold stored. by rewrite Hw.
  - by destruct (releaseTarget_cases r r4) as [->| ->].
  - by destruct (releaseTarget_cases r r4) as [->| ->].
  - by destruct (releaseTarget_cases r r4) as [->| ->].
  - by apply not_held.
Qed.

Lemma ReleaseCoordinationHold_refines (c : ReleaseCoordinationHoldCommand)
    (check : AssigneeCheck) (n : Z) :
  tx_refines true (OnTask (release_TaskID c)) (ReleaseCoordinationHold_tx c check n).
Proof.
  intros w u w' Hinv Hm. unfold ReleaseCoordinationHold_tx in Hm. lock Hm Hinv Hst Hid.
  destruct (isCoordinationHeld r) eqn:Hh; simpl in Hm.
  2:{ apply ret_ok in Hm as [_ ->]. reflexivity. }
  skip Hm. next Hm w2 H2. skip Hm. apply inspectDependencies_ok in H2 as [Hw _].
  rewrite <- Hid, <- Hw. apply rtc_once.
  apply andb_true_iff in Hh as [Hb%bool_decide_eq_true _].
  eapply (plain_transition true) in Hm as [Hs _]; [exact Hs| |by rewrite Hb|..].
  - unfold stored. by rewrite Hw.
  - by destruct (releaseTarget_cases r r1) as [->| ->].
  - by destruct (releaseTarget_cases r r1) as [->| ->].
  - by destruct (releaseTarget_cases r r1) as [->| ->].
  - intros _. by left.
Qed.

End Refine.
