(* ===== verification/QueueRefine.v ===== *)
(** * Claiming and running refine the abstract machine

    The methods of queue.go and specific_claim.go as steps; what a claim and a
    verified lease establish. *)

From stdpp Require Import base tactics list gmap strings sorting relations.
From Stdlib Require Import ZArith Lia.
From S2P Require Import Prelude GoLib TaskDomain Database StoreHelpers StoreMutate StoreQueue.
From S2P Require Import StoreOutbox StoreRun StoreSpec LeaseInvariant TaskInvariant StoreRefine.
From S2P Require Import MutateRefine.

Local Open Scope Z_scope.

Section Refine.
Context `{Env}.

Lemma put_task_id (id : Z) (t : Task) (d : DB) : db_tasks d !! id = Some t -> put_task id t d = d.
Proof. intros Ht. unfold put_task. rewrite insert_id by done. by destruct d. Qed.

(** ** Loops over tasks

    A loop over distinct stored tasks whose body is steps on its task. *)
Lemma foldM_tasks {B} (release : bool) (f : B -> Task -> M B) (xs : list Task) (b b' : B)
    (w w' : World) :
  (forall b x b1 w w1, Inv (w_db w) -> stored w x -> x ∈ xs -> f b x w = (Ok b1, w1) ->
     steps_on release (OnTask (task_ID x)) (w_db w) (w_db w1)) ->
  Inv (w_db w) -> NoDup (task_ID <$> xs) -> (forall x, x ∈ xs -> stored w x) ->
  foldM f b xs w = (Ok b', w') -> steps release (w_db w) (w_db w').
Proof.
  revert b w. induction xs as [|x xs IH]; intros b w Hf Hinv Hnd Hst Hm.
  { apply foldM_nil in Hm as [_ ->]. reflexivity. }
  apply foldM_cons in Hm as (b1 & w1 & H1 & Hm).
  rewrite fmap_cons in Hnd. apply NoDup_cons in Hnd as [Hni Hnd].
  assert (Hs : steps_on release (OnTask (task_ID x)) (w_db w) (w_db w1)).
  { eapply Hf; [done|apply Hst; left|left|done]. }
  etransitivity; [by eapply steps_on_steps|]. eapply IH; [|by eapply Inv_steps_on|done| |done].
  - intros. eapply Hf; [done|done|by right|done].
  - intros y Hy. unfold stored. rewrite (steps_on_frame_task _ _ _ _ _ Hs).
    + apply Hst. by right.
    + intros Heq. apply Hni. rewrite <- Heq. by apply list_elem_of_fmap_2.
Qed.

(** ** claimOne *)

(** What a claim of the task [t] leaves behind. *)
Record claim_result (request : ClaimRequest) (t : Task) (item : ClaimedTask) (d : DB) : Prop := {
  cr_task : db_tasks d !! task_ID t = Some (claimed_Task item);
  cr_moved : moved 1 t StatusLeased (claimed_Task item);
  cr_attempt : db_attempts d !! attempt_ID (claimed_Attempt item)
               = Some (claimed_Attempt item);
  cr_worker : attempt_WorkerID (claimed_Attempt item) = claim_WorkerID request;
  cr_owner : attempt_TaskID (claimed_Attempt item) = task_ID t;
  cr_lease : db_leases d !! lease_ID (claimed_Lease item)
             = Some (mkLeaseRow (claimed_Lease item) (hashToken (claimed_LeaseToken item)));
  cr_active : lease_Status (claimed_Lease item) = LeaseActive;
  cr_of_task : lease_TaskID (claimed_Lease item) = task_ID t;
  cr_of_attempt : lease_AttemptID (claimed_Lease item) = attempt_ID (claimed_Attempt item);
  cr_holder : lease_HolderID (claimed_Lease item) = LeaseHolder request }.

Lemma claimOne_ok (release : bool) (t : Task) (request : ClaimRequest) (n : Z)
    (item : ClaimedTask) (w w' : World) :
  stored w t -> claimOne t request n w = (Ok item, w') ->
  step release (OnTask (task_ID t)) (w_db w) (w_db w')
  /\ claim_result request t item (w_db w')
  /\ task_Status t = StatusReady /\ task_AttemptCount t < task_MaxAttempts t.
Proof.
  unfold claimOne. intros Hst Hm.
  next Hm w1 H1. apply newToken_ok in H1 as [Htok H1].
  next Hm w2 H2. apply transaction_now_ok in H2 as [_ H2].
  next Hm w3 H3. apply nextval_ok in H3.
  next Hm w4 H4. apply insert_attempt_ok in H4 as (-> & Hac & Haf & H4).
  next Hm w5 H5. apply clock_timestamp_ok in H5 as [_ H5].
  next Hm w6 H6. apply nextval_ok in H6.
  next Hm w7 H7. apply insert_lease_ok in H7 as (-> & Hlc & Hna & Hlf & H7).
  rewrite H3, H2, H1 in Haf, H4. rewrite H6, H5, H4 in Hna, Hlf, H7.
  next Hm w8 H8. apply update_task_ok in H8. simpl in Hm, H8.
  unfold stored in Hst.
  destruct r4 as [row|].
  2:{ exfalso. destruct H8 as [_ H8]. rewrite H7 in H8. by specialize (H8 _ Hst). }
  destruct H8 as (t0 & Ht0 & _ & -> & Hck & H8).
  rewrite H7 in Ht0. simpl in Ht0. rewrite Hst in Ht0. injection Ht0 as <-.
  next Hm w9 H9. apply ret_ok in Hm as [-> ->].
  apply transitionTask_ok in H9
    as (Hcan & t1 & e & o & x & Ht1 & _ & Hmv & _ & _ & _ & Hj & H9).
  rewrite H8 in Ht1. simpl in Ht1. rewrite lookup_insert_eq in Ht1. injection Ht1 as <-.
  simpl in Hcan. assert (Hready : task_Status t = StatusReady).
  { by destruct (task_Status t). }
  apply tasks_check_count in Hck. simpl in Hck.
  assert (Hmoved : moved 1 t StatusLeased r4).
  { destruct Hmv as [[] ? Hcount ? ? ?]. simpl in *. split; try done. lia. }
  change (set_tasks (<[task_ID t := task_counted (task_AttemptCount t + 1) t]>
            (db_tasks (w_db w7))) (w_db w7))
    with (put_task (task_ID t) (task_counted (task_AttemptCount t + 1) t) (w_db w7)) in H8.
  rewrite H8, put_task_twice, H7 in H9. simpl in H9. split_and!; [| |done|lia].
  - rewrite H9. eapply (step_claim release (w_db w) (task_ID t) t r4); try done; [lia|..].
    simpl in Hj. rewrite Hready in Hj.
    eapply journal_rows_ext; [| |exact Hj]; by rewrite H8, H7.
  - split; simpl; try done; rewrite H9; simpl; by rewrite lookup_insert_eq, <- ?Htok.
Qed.

(** ** The claim loop *)

Lemma block_for_assignee_ok (release : bool) (t : Task) (check : AssigneeCheck) (n : Z)
    (u : unit) (w w' : World) :
  stored w t -> task_Status t = StatusReady -> block_for_assignee t check n w = (Ok u, w') ->
  steps_on release (OnTask (task_ID t)) (w_db w) (w_db w').
Proof.
  unfold block_for_assignee. intros Hst Hr Hm. next Hm w1 H1. apply ret_ok in Hm as [_ ->].
  eapply (plain_transition release) in H1 as [Hs _];
    [by apply rtc_once|done|by rewrite Hr|done|done|done|].
  apply not_held, not_blocked_not_held. by rewrite Hr.
Qed.

Lemma block_for_capacity_ok (release : bool) (t : Task) (check : CapacityCheck) (n : Z)
    (u : unit) (w w' : World) :
  stored w t -> task_Status t = StatusReady -> block_for_capacity t check n w = (Ok u, w') ->
  steps_on release (OnTask (task_ID t)) (w_db w) (w_db w').
Proof.
  unfold block_for_capacity. intros Hst Hr Hm. next Hm w1 H1.
  eapply (plain_transition release) in H1 as (Hs & Hst1 & Hmv & _);
    [|done|by rewrite Hr|done|done|done|].
  2:{ apply not_held, not_blocked_not_held. by rewrite Hr. }
  destruct (IsZero _).
  - apply ret_ok in Hm as [_ ->]. by apply rtc_once.
  - next Hm w2 H2. apply ret_ok in Hm as [_ ->].
    eapply (defer_step release) in H2; [|done|by destruct Hmv as [_ -> _ _ _ _]].
    rewrite (imm_ID _ _ (moved_imm _ _ _ _ Hmv)) in H2.
    eapply rtc_l; [exact Hs|by apply rtc_once].
Qed.

(** The rows a candidate is left with when it is blocked. *)
Lemma blocked_for_assignee (t : Task) (check : AssigneeCheck) (n : Z) (u : unit) (w w' : World) :
  stored w t -> task_Status t = StatusReady -> block_for_assignee t check n w = (Ok u, w') ->
  exists row, db_tasks (w_db w') !! task_ID t = Some row /\ moved 0 t StatusBlocked row
    /\ task_StatusReasonCode row = Some "assignee_unavailable"%string.
Proof.
  unfold block_for_assignee. intros Hst Hr Hm. next Hm w1 H1. apply ret_ok in Hm as [_ ->].
  eapply (plain_transition false) in H1 as (_ & Hst1 & Hmv & Hc);
    [|done|by rewrite Hr|done|done|done|apply not_held, not_blocked_not_held; by rewrite Hr].
  exists r. unfold stored in Hst1. by rewrite (imm_ID _ _ (moved_imm _ _ _ _ Hmv)) in Hst1.
Qed.

Lemma blocked_for_capacity (t : Task) (check : CapacityCheck) (n : Z) (u : unit) (w w' : World) :
  stored w t -> task_Status t = StatusReady -> block_for_capacity t check n w = (Ok u, w') ->
  exists row, db_tasks (w_db w') !! task_ID t = Some row /\ immutable t row
    /\ task_Status row = StatusBlocked /\ task_AttemptCount row = task_AttemptCount t
    /\ task_StatusReasonCode row = Some "capacity"%string
    /\ (IsZero (capacity_RetryAt check) = false -> task_AvailableAt row = capacity_RetryAt check).
Proof.
  unfold block_for_capacity. intros Hst Hr Hm. next Hm w1 H1.
  eapply (plain_transition false) in H1 as (_ & Hst1 & Hmv & Hc);
    [|done|by rewrite Hr|done|done|done|apply not_held, not_blocked_not_held; by rewrite Hr].
  pose proof (moved_count _ _ _ _ Hmv) as Hn. rewrite Z.add_0_r in Hn.
  unfold stored in Hst1. rewrite (imm_ID _ _ (moved_imm _ _ _ _ Hmv)) in Hst1.
  destruct (IsZero _) eqn:Hz.
  - apply ret_ok in Hm as [_ ->]. exists r. by destruct Hmv.
  - next Hm w2 H2. apply ret_ok in Hm as [_ ->]. apply update_task_ok in H2.
    rewrite (imm_ID _ _ (moved_imm _ _ _ _ Hmv)) in H2. destruct r0 as [row|].
    + destruct H2 as (t0 & Ht0 & _ & -> & _ & ->). rewrite Hst1 in Ht0. injection Ht0 as <-.
      exists (task_deferred (capacity_RetryAt check) r). destruct Hmv as [[] ? ? ? ? ?]. simpl.
      split_and!; try done. rewrite lookup_insert_eq; done.
    + destruct H2 as [_ H2]. by specialize (H2 _ Hst1).
Qed.

Lemma claim_candidate_refines (release : bool) (request : ClaimRequest)
    (validate : Task -> res AssigneeCheck) (capacity : Task -> res CapacityCheck) (n : Z)
    (claimed claimed' : list ClaimedTask) (t : Task) (w w' : World) :
  stored w t -> task_Status t = StatusReady ->
  claim_candidate request validate capacity n claimed t w = (Ok claimed', w') ->
  steps_on release (OnTask (task_ID t)) (w_db w) (w_db w')
  /\ (claimed' = claimed
      \/ exists item, claimed' = claimed ++ [item] /\ claim_result request t item (w_db w')).
Proof.
  unfold claim_candidate. intros Hst Hr Hm.
  next Hm w1 H1. apply blockingAncestor_ok in H1 as ->.
  destruct (is_some r).
  { apply ret_ok in Hm as [-> ->]. split; [reflexivity|by left]. }
  next Hm w1 H1. apply lift_ok in H1 as [_ ->]. destruct (negb _).
  { next Hm w1 H1. apply ret_ok in Hm as [-> ->].
    split; [by eapply block_for_assignee_ok|by left]. }
  next Hm w1 H1. apply lift_ok in H1 as [_ ->]. destruct (negb _).
  { next Hm w1 H1. apply ret_ok in Hm as [-> ->].
    split; [by eapply block_for_capacity_ok|by left]. }
  next Hm w1 H1. apply ret_ok in Hm as [-> ->].
  eapply (claimOne_ok release) in H1 as (Hs & Hres & _); [|done].
  split; [by apply rtc_once|right; eauto].
Qed.

Lemma keep_unblocked_sublist (d : DB) (l kept : list Task) :
  keep_unblocked d l = Ok kept -> sublist kept l.
Proof.
  revert kept. induction l as [|t l IH]; intros kept; simpl.
  - intros [= <-]. constructor.
  - intros (blocked & _ & Hk)%rbind_ok. apply rbind_ok in Hk as (rest & Hrest & [= <-]).
    specialize (IH _ Hrest). destruct blocked; by constructor.
Qed.

Lemma claimable_true (request : ClaimRequest) (now : Z) (t : Task) :
  claimable request now t = true ->
  task_OrganizationID t = claim_OrganizationID request /\ task_Status t = StatusReady
  /\ task_AttemptCount t < task_MaxAttempts t /\ task_AvailableAt t <= now
  /\ (claim_AssignedRoleID request = EmptyString
      \/ task_AssignedRoleID t = claim_AssignedRoleID request).
Proof.
  unfold claimable, is_empty.
  rewrite !andb_true_iff, orb_true_iff, !bool_decide_eq_true, Z.ltb_lt, Z.leb_le. tauto.
Qed.

(** The candidates of a claim: distinct, stored, claimable, not locked by
    another transaction, and no more than the batch. *)
Lemma claim_candidates_ok (request : ClaimRequest) (locked : list Z) (l : list Task)
    (w w' : World) :
  Inv (w_db w) -> claim_candidates request locked w = (Ok l, w') ->
  w_db w' = w_db w /\ NoDup (task_ID <$> l)
  /\ Z.of_nat (length l) <= Z.max 0 (claim_BatchSize request)
  /\ forall t, t ∈ l -> stored w t /\ task_ID t ∉ locked
       /\ claimable request (env_clock (w_tick w)) t = true.
Proof.
  unfold claim_candidates. intros Hinv Hm. skip Hm.
  next Hm w1 H1. apply clock_timestamp_ok in H1 as [-> H1].
  next Hm w2 H2. apply lift_ok in H2 as [H2 ->]. apply ret_ok in Hm as [-> ->].
  apply keep_unblocked_sublist in H2.
  assert (Hkey : forall k a, db_tasks (w_db w) !! k = Some a -> task_ID a = k).
  { apply ky_task, inv_keys, Hinv. }
  split; [done|]. split; [|split].
  - apply skip_locked_limit_NoDup. rewrite order_by_perm.
    eapply sublist_NoDup; [|by apply fmap_sublist]. by apply rows_NoDup.
  - unfold skip_locked_limit. rewrite length_take. lia.
  - intros t Ht. apply skip_locked_limit_spec in Ht as [Ht Hl].
    rewrite order_by_perm in Ht.
    apply (sublist_subseteq _ _ H2) in Ht. apply rows_spec in Ht as (k & Hk & Hc).
    split_and!; [|done..]. unfold stored. by rewrite (Hkey _ _ Hk).
Qed.

Lemma Claim_refines (release : bool) (request : ClaimRequest) (locked : list Z)
    (validate : Task -> res AssigneeCheck) (capacity : Task -> res CapacityCheck) (n : Z) :
  refines release (Claim request locked validate capacity n).
Proof.
  apply withTx_refines. intros w r w' Hinv Hm. unfold Claim_tx in Hm.
  next Hm w1 H1. apply claim_candidates_ok in H1 as (Hw & Hnd & _ & Hall); [|done].
  rewrite <- Hw. eapply foldM_tasks; [|by rewrite Hw|done| |exact Hm].
  - intros b x b1 w2 w3 _ Hst Hx Hrun. destruct (Hall x Hx) as (_ & _ & Hc).
    apply claimable_true in Hc as (_ & Hr & _).
    by eapply (claim_candidate_refines release) in Hrun as [? _].
  - intros x Hx. unfold stored. rewrite Hw. by apply Hall.
Qed.

Lemma ClaimSpecific_tx_refines (release : bool) (id : Z) (request : ClaimRequest)
    (locked : list Z) (validate : Task -> res AssigneeCheck)
    (capacity : Task -> res CapacityCheck) (n : Z) :
  tx_refines release (OnTask id) (ClaimSpecific_tx id request locked validate capacity n).
Proof.
  intros w r w' Hinv Hm. unfold ClaimSpecific_tx in Hm. skip Hm.
  next Hm w1 H1. apply clock_timestamp_ok in H1 as [_ H1].
  destruct (db_tasks (w_db w) !! id) as [t|] eqn:Ht; [|by apply throw_ok in Hm].
  pose proof (ky_task _ (inv_keys _ Hinv) _ _ Ht) as Hid.
  assert (Hst : stored w1 t) by (unfold stored; by rewrite Hid, H1).
  skip Hm as Hc. apply orb_false_iff in Hc as [Hc%negb_false_iff _].
  apply claimable_true in Hc as (_ & Hr & _).
  next Hm w2 H2. apply blockingAncestor_ok in H2 as ->.
  destruct r2; [by apply throw_ok in Hm|]. rewrite <- Hid, <- H1.
  next Hm w2 H2. apply lift_ok in H2 as [_ ->]. destruct (negb _).
  { next Hm w2 H2. apply ret_ok in Hm as [-> ->]. by eapply block_for_assignee_ok. }
  next Hm w2 H2. apply lift_ok in H2 as [_ ->]. destruct (negb _).
  { next Hm w2 H2. apply ret_ok in Hm as [-> ->]. by eapply block_for_capacity_ok. }
  next Hm w2 H2. apply ret_ok in Hm as [-> ->].
  eapply (claimOne_ok release) in H2 as [Hs _]; [by apply rtc_once|done].
Qed.

Lemma ClaimSpecific_refines (release : bool) (id : Z) (request : ClaimRequest)
    (locked : list Z) (validate : Task -> res AssigneeCheck)
    (capacity : Task -> res CapacityCheck) (n : Z) :
  refines release (ClaimSpecific id request locked validate capacity n).
Proof.
  intros w r w' Hinv. unfold ClaimSpecific, bind, lift.
  destruct (withTx _ w) as [[x|e] w1] eqn:Hm; intros [= <- <-];
    (eapply withTx_refines_on; [apply ClaimSpecific_tx_refines|exact Hinv|exact Hm]).
Qed.

(** ** Lease commands *)

(** A verified lease command names the lease its task holds. *)
Lemma verified_held (command : LeaseCommand) (record : leaseRecord) (t : Task) (w w' : World) :
  Inv (w_db w) -> db_tasks (w_db w) !! lcmd_TaskID command = Some t ->
  verifyLease command w = (Ok record, w') ->
  w_db w' = w_db w
  /\ exists lid r a, held_by (w_db w) (lcmd_TaskID command) t lid r (lcmd_AttemptID command) a
     /\ has_lease (task_Status t) = true
     /\ record_Lease record = row_Lease r
     /\ row_TokenHash r = hashToken (lcmd_LeaseToken command)
     /\ env_clock (w_tick w) < lease_ExpiresAt (row_Lease r).
Proof.
  intros Hinv Ht Hm. apply verifyLease_ok in Hm as (Hw & k & r & Hr & Hl & Ha & Hrec & Htok & He).
  split; [done|]. destruct (active_held _ _ _ Hinv Hr Ha) as (t0 & a & Ht0 & Hh & Hheld).
  unfold lease_of in Hl. apply andb_true_iff in Hl as [Hl1%Z.eqb_eq Hl2%Z.eqb_eq].
  rewrite Hl1, Hl2 in *. rewrite Ht in Ht0. injection Ht0 as <-. exists k, r, a. auto.
Qed.

Lemma StartAttempt_refines (release : bool) (c : LeaseCommand) (n : Z) :
  tx_refines release (OnTask (lcmd_TaskID c)) (StartAttempt_tx c n).
Proof.
  intros w u w' Hinv Hm. unfold StartAttempt_tx in Hm. lock Hm Hinv Hst Hid.
  skip Hm as Hl. apply negb_false_iff, bool_decide_eq_true in Hl.
  unfold stored in Hst. rewrite Hid in Hst.
  next Hm w1 H1. eapply verified_held in H1 as (Hw & lid & x & a & Hheld & _); [|done..].
  skip Hm. next Hm w2 H2. apply clock_timestamp_ok in H2 as [_ H2].
  next Hm w3 H3. apply clock_timestamp_ok in H3 as [_ H3]. rewrite H2, Hw in H3.
  next Hm w4 H4. skip Hm as Hn. apply negb_false_iff, Z.eqb_eq in Hn.
  apply update_attempt_ok in H4 as [(_ & y & Hy & _ & Hck & H4)|(-> & _)]; [|done].
  rewrite H3 in Hy, H4. pose proof Hheld as [_ _ _ _ Ha _ _].
  rewrite Ha in Hy. injection Hy as <-.
  apply transitionTask_ok in Hm
    as (_ & t0 & e & o & z & Ht0 & _ & Hmv & _ & _ & _ & Hj & Hm).
  rewrite H4, Hid in Ht0. simpl in Ht0. rewrite Hst in Ht0. injection Ht0 as <-.
  apply rtc_once. rewrite Hm, H4, Hid. rewrite Hl, Hid in Hj.
  eapply (step_start release (w_db w) _ r); try done.
  eapply journal_rows_ext; [| |exact Hj]; by rewrite H4.
Qed.

Lemma Heartbeat_refines (release : bool) (c : LeaseCommand) (max : Z) :
  tx_refines release (OnTask (lcmd_TaskID c)) (Heartbeat_tx c max).
Proof.
  intros w u w' Hinv Hm. unfold Heartbeat_tx in Hm. lock Hm Hinv Hst Hid.
  skip Hm. unfold stored in Hst. rewrite Hid in Hst.
  next Hm w1 H1.
  eapply verified_held in H1 as (Hw & lid & x & a & Hheld & Hh & Hrec & _); [|done..].
  skip Hm. next Hm w2 H2. apply clock_timestamp_ok in H2 as [_ H2].
  next Hm w3 H3. apply clock_timestamp_ok in H3 as [_ H3]. rewrite H2, Hw in H3.
  next Hm w4 H4. apply update_leases_ok in H4 as (-> & Hck & H4). rewrite H3 in *.
  assert (Hw' : w' = w4).
  { destruct (_ <$> _); [by apply throw_ok in Hm|by apply ret_ok in Hm as [_ ->]]. }
  subst w'. clear Hm. pose proof Hheld as [Hx Hxa Hxt Hxat _ _ _].
  pose proof (ky_lease _ (inv_keys _ Hinv) _ _ Hx) as Hlid.
  assert (Hcond : (lease_ID (row_Lease x) =? lease_ID (record_Lease r1))
            && lease_of (lcmd_TaskID c) (lcmd_AttemptID c) x && lease_active x = true).
  { rewrite Hrec, Z.eqb_refl. by eapply held_lease_of. }
  rewrite (update_one _ (fun y => (lease_ID (row_Lease y) =? lease_ID (record_Lease r1))
            && lease_of (lcmd_TaskID c) (lcmd_AttemptID c) y && lease_active y) _ lid x) in H4.
  - rewrite H4. apply rtc_once. eapply step_heartbeat; [done..|].
    eapply (closed_check _ _ _ _ _ _ _ (lease_extended _ _)); [exact Hheld| |exact Hck]. done.
  - done.
  - done.
  - intros k y Hy [[_ Hl]%andb_true_iff Hya]%andb_true_iff.
    unfold lease_of in Hl. apply andb_true_iff in Hl as [Hyt%Z.eqb_eq _].
    by eapply held_unique.
Qed.

(** ** RecordAttemptResult *)

Lemma finishAttempt_ok (command : RecordAttemptResultCommand) (state : AttemptState)
    (retryable : bool) (reason : string) (u : unit) (t : Task) (lid : Z) (r : LeaseRow)
    (a : Attempt) (w w' : World) :
  let lcmd := rcmd_LeaseCommand command in
  Inv (w_db w) -> held_by (w_db w) (lcmd_TaskID lcmd) t lid r (lcmd_AttemptID lcmd) a ->
  attempt_over state = true ->
  finishAttempt command state retryable reason w = (Ok u, w') ->
  exists now a', attempt_over_of a a' /\ attempt_State a' = state
    /\ leases_check (lease_closed LeaseReleased reason now r) = true
    /\ w_db w' = ended lid (lcmd_AttemptID lcmd) (lease_closed LeaseReleased reason now r) a'
                   (w_db w).
Proof.
  intros lcmd Hinv Hh Hover Hm. unfold finishAttempt in Hm. fold lcmd in Hm.
  next Hm w1 H1. apply clock_timestamp_ok in H1 as [_ H1].
  next Hm w2 H2. apply clock_timestamp_ok in H2 as [_ H2]. rewrite H1 in H2.
  next Hm w3 H3. skip Hm as Hn. apply negb_false_iff, Z.eqb_eq in Hn.
  apply update_attempt_ok in H3 as [(_ & y & Hy & _ & Hck & H3)|(-> & _)]; [|done].
  rewrite H2 in Hy, H3. pose proof Hh as [_ _ _ _ Ha _ _]. rewrite Ha in Hy. injection Hy as <-.
  next Hm w4 H4. apply clock_timestamp_ok in H4 as [_ H4]. rewrite H3 in H4.
  next Hm w5 H5. apply throwIf_ok in Hm as [_ ->].
  apply update_leases_ok in H5 as (-> & Hlc & H5). rewrite H4 in H5, Hlc. simpl in H5, Hlc.
  erewrite close_lease in H5 by done.
  do 2 eexists. split_and!; [by apply ended_over; [|exact Hck]|done| |exact H5].
  eapply (closed_check _ _ _ _ _ _ _ (lease_closed LeaseReleased reason _));
    [exact Hh| |exact Hlc]. by eapply held_lease_of.
Qed.

Lemma insert_dead_letter_ok (id aid : Z) (code reason : string) (count : Z) (u : unit)
    (w w' : World) :
  insert_dead_letter id aid code reason count w = (Ok u, w') ->
  exists l, dead_TaskID l = id /\ db_dead_letters (w_db w) !! dead_ID l = None
    /\ dead_RedriveTaskID l = None /\ dead_letters_check l = true
    /\ (forall k x, db_dead_letters (w_db w) !! k = Some x -> dead_TaskID x <> id)
    /\ w_db w' = put_dead_letter (dead_ID l) l (w_db w).
Proof.
  unfold insert_dead_letter. intros Hm.
  next Hm w1 H1. apply transaction_now_ok in H1 as [_ H1].
  next Hm w2 H2. apply nextval_ok in H2. skip Hm. rewrite H2, H1 in *.
  skip Hm as Hck. skip Hm as Hno. skip Hm as Hf. apply modify_ok in Hm as ->.
  apply negb_false_iff in Hck. apply bool_decide_eq_false, dec_stable in Hno.
  rewrite rows_nil in Hno. apply taken_false in Hf.
  match type of Hck with dead_letters_check ?x = _ => exists x end.
  split_and!; try done; [|simpl; by rewrite ?H2, ?H1].
  intros k x Hx. by apply Z.eqb_neq, (Hno k x).
Qed.

Lemma defer_task_ok (t : Task) (delay : Z) (u : unit) (w w' : World) :
  stored w t -> defer_task t delay w = (Ok u, w') ->
  exists z, z = env_clock (w_tick w) + env_make_interval delay
    /\ w_db w' = put_task (task_ID t) (task_deferred z t) (w_db w).
Proof.
  unfold defer_task, stored. intros Hst Hm.
  next Hm w1 H1. apply clock_timestamp_ok in H1 as [-> H1].
  next Hm w2 H2. apply ret_ok in Hm as [_ ->]. apply update_task_ok in H2.
  rewrite H1 in H2. destruct r as [row|].
  - destruct H2 as (t0 & Ht0 & _ & -> & _ & ->). rewrite Hst in Ht0. injection Ht0 as <-.
    eauto.
  - destruct H2 as [_ H2]. by specialize (H2 _ Hst).
Qed.

Lemma RecordAttemptResult_refines (release : bool) (c : RecordAttemptResultCommand)
    (policy : RetryPolicy) (n : Z) :
  tx_refines release (OnTask (lcmd_TaskID (rcmd_LeaseCommand c)))
    (RecordAttemptResult_tx c policy n).
Proof.
  intros w u w' Hinv Hm. unfold RecordAttemptResult_tx in Hm. lock Hm Hinv Hst Hid.
  skip Hm as Hl. apply negb_false_iff, bool_decide_eq_true in Hl.
  pose proof Hst as Ht. unfold stored in Ht. rewrite Hid in Ht.
  next Hm w1 H1. eapply verified_held in H1 as (Hw & lid & x & a & Hheld & Hh & _); [|done..].
  skip Hm. rewrite <- Hw in Hinv, Hheld, Ht |- *. clear w Hst Hw.
  apply rtc_once. rewrite <- Hid in Ht, Hheld |- *.
  assert (Hend : forall state retryable reason q w2 w3 to et rc rs at_ ai p letter td,
    finishAttempt c state retryable reason w1 = (Ok q, w2) -> attempt_over state = true ->
    (forall now a', w_db w2 = ended lid (lcmd_AttemptID (rcmd_LeaseCommand c))
        (lease_closed LeaseReleased reason now x) a' (w_db w1) ->
      letter_for (task_ID r) to (task_AttemptCount r) (task_MaxAttempts r) letter (w_db w1)
      /\ w_db w3 = put_task (task_ID r) td (put_letter letter (w_db w2))) ->
    immutable r td -> task_Status td = task_Status r ->
    task_AttemptCount td = task_AttemptCount r -> task_TaskClass td = task_TaskClass r ->
    task_Version td = task_Version r -> has_lease to = false ->
    transitionTask r to et rc rs at_ ai p n w3 = (Ok u, w') ->
    step release (OnTask (task_ID r)) (w_db w1) (w_db w')).
  { intros state retryable reason q w2 w3 to et rc rs at_ ai p letter td Hfin Hover Hlet
      Himm Hs Hc Hcl Hv Hf Htr.
    rewrite Hid in Hheld.
    eapply finishAttempt_ok in Hfin as (now & a' & Hov & _ & Hlc & Hw2); [|done..].
    destruct (Hlet _ _ Hw2) as [Hletter Hw3].
    eapply (end_transition release (w_db w1) r td) with (letter := letter)
      (status := LeaseReleased);
      [exact Ht|exact Hh|exact Hf|rewrite Hid; exact Hheld|exact Hov|done|exact Hlc
      |exact Hletter|exact Himm|exact Hs|exact Hc|exact Hcl|exact Hv| |exact Htr].
    by rewrite Hw3, Hw2. }
  assert (Hsame : forall now a' reason q, w_db q = ended lid (lcmd_AttemptID (rcmd_LeaseCommand c))
        (lease_closed LeaseReleased reason now x) a' (w_db w1) ->
      w_db q = put_task (task_ID r) r (put_letter None (w_db q))).
  { intros now a' reason q Hq. simpl. rewrite put_task_id; [done|]. by rewrite Hq. }
  destruct (result_Outcome (rcmd_Result c)); [| | | |by apply throw_ok in Hm].
  - next Hm w2 H2. eapply (Hend _ _ _ _ _ _ _ _ _ _ _ _ _ None r); try done; try done.
    intros. split; [done|by eapply Hsame].
  - next Hm w2 H2. destruct (_ <=? _) eqn:Hmax.
    + apply Z.leb_le in Hmax. next Hm w3 H3.
      apply insert_dead_letter_ok in H3 as (l & Hl1 & Hl2 & Hl3 & Hl4 & Hl5 & H3).
      eapply (Hend _ _ _ _ _ _ _ _ _ _ _ _ _ (Some l) r); try done; try done.
      intros now a' Hw2. rewrite Hw2 in Hl2, Hl5. simpl in *. split; [done|].
      rewrite put_task_id; [done|]. by rewrite Hw2.
    + next Hm w3 H3. apply defer_task_ok in H3 as (z & _ & H3).
      * eapply (Hend _ _ _ _ _ _ _ _ _ _ _ _ _ None (task_deferred z r)); try done; try done.
      * rewrite Hid in Hheld.
        eapply finishAttempt_ok in H2 as (now & a' & _ & _ & _ & Hw2); [|done..].
        unfold stored. by rewrite Hw2.
  - next Hm w2 H2. eapply (Hend _ _ _ _ _ _ _ _ _ _ _ _ _ None r); try done; try done.
    intros. split; [done|by eapply Hsame].
  - next Hm w2 H2. eapply (Hend _ _ _ _ _ _ _ _ _ _ _ _ _ None r); try done; try done.
    intros. split; [done|by eapply Hsame].
Qed.

End Refine.
