(* ===== verification/ReconcileRefine.v ===== *)
(** * The outbox and the reconciler refine the abstract machine *)

From stdpp Require Import base tactics list gmap strings sorting relations.
From Stdlib Require Import ZArith Lia.
From S2P Require Import Prelude GoLib TaskDomain Database StoreHelpers StoreMutate StoreQueue.
From S2P Require Import StoreOutbox StoreReconcile StoreRun StoreSpec LeaseInvariant.
From S2P Require Import TaskInvariant StoreRefine MutateRefine QueueRefine.

Local Open Scope Z_scope.

Section Refine.
Context `{Env}.

(** ** Loops *)

(** A loop whose body is steps, from any state that satisfies the invariant. *)
Lemma foldM_steps {A B} (release : bool) (f : B -> A -> M B) (xs : list A) (b b' : B)
    (w w' : World) :
  (forall b x b1 w w1, Inv (w_db w) -> f b x w = (Ok b1, w1) ->
     steps release (w_db w) (w_db w1)) ->
  Inv (w_db w) -> foldM f b xs w = (Ok b', w') -> steps release (w_db w) (w_db w').
Proof.
  intros Hf. revert b w. induction xs as [|x xs IH]; intros b w Hinv Hm.
  { apply foldM_nil in Hm as [_ ->]. reflexivity. }
  apply foldM_cons in Hm as (b1 & w1 & H1 & Hm). apply Hf in H1; [|done].
  etransitivity; [exact H1|]. eapply IH; [by eapply Inv_steps|exact Hm].
Qed.

(** A loop over distinct rows of the outbox, as they are stored. *)
Lemma foldM_outbox (release : bool) (f : unit -> OutboxRow -> M unit) (xs : list OutboxRow)
    (b b' : unit) (w w' : World) :
  (forall b x b1 w w1, db_outbox (w_db w) !! row_id x = Some x -> x ∈ xs ->
     f b x w = (Ok b1, w1) -> steps_on release (OnOutbox (row_id x)) (w_db w) (w_db w1)) ->
  NoDup (row_id <$> xs) -> (forall x, x ∈ xs -> db_outbox (w_db w) !! row_id x = Some x) ->
  foldM f b xs w = (Ok b', w') -> steps release (w_db w) (w_db w').
Proof.
  revert b w. induction xs as [|x xs IH]; intros b w Hf Hnd Hst Hm.
  { apply foldM_nil in Hm as [_ ->]. reflexivity. }
  apply foldM_cons in Hm as (b1 & w1 & H1 & Hm).
  rewrite fmap_cons in Hnd. apply NoDup_cons in Hnd as [Hni Hnd].
  assert (Hs : steps_on release (OnOutbox (row_id x)) (w_db w) (w_db w1)).
  { eapply Hf; [apply Hst; left|left|done]. }
  etransitivity; [by eapply steps_on_steps|]. eapply IH; [|done| |done].
  - intros. eapply Hf; [done|by right|done].
  - intros y Hy. rewrite (steps_on_frame_outbox _ _ _ _ _ Hs).
    + apply Hst. by right.
    + intros Heq. apply Hni. rewrite <- Heq. by apply list_elem_of_fmap_2.
Qed.

(** A loop over active leases of distinct tasks, as they are stored. *)
Lemma foldM_leases (release : bool) (f : unit -> LeaseRow -> M unit) (xs : list LeaseRow)
    (b b' : unit) (w w' : World) :
  (forall b x b1 w w1, Inv (w_db w) -> db_leases (w_db w) !! lease_ID (row_Lease x) = Some x ->
     x ∈ xs -> f b x w = (Ok b1, w1) ->
     steps_on release (OnTask (lease_TaskID (row_Lease x))) (w_db w) (w_db w1)) ->
  Inv (w_db w) -> NoDup ((fun x => lease_TaskID (row_Lease x)) <$> xs) ->
  (forall x, x ∈ xs -> db_leases (w_db w) !! lease_ID (row_Lease x) = Some x) ->
  foldM f b xs w = (Ok b', w') -> steps release (w_db w) (w_db w').
Proof.
  revert b w. induction xs as [|x xs IH]; intros b w Hf Hinv Hnd Hst Hm.
  { apply foldM_nil in Hm as [_ ->]. reflexivity. }
  apply foldM_cons in Hm as (b1 & w1 & H1 & Hm).
  rewrite fmap_cons in Hnd. apply NoDup_cons in Hnd as [Hni Hnd].
  assert (Hs : steps_on release (OnTask (lease_TaskID (row_Lease x))) (w_db w) (w_db w1)).
  { eapply Hf; [done|apply Hst; left|left|done]. }
  etransitivity; [by eapply steps_on_steps|]. eapply IH; [|by eapply Inv_steps_on|done| |done].
  - intros. eapply Hf; [done|done|by right|done].
  - intros y Hy. eapply steps_on_frame_lease; [exact Hs|apply Hst; by right|].
    intros Heq. apply Hni. rewrite <- Heq.
    by apply (list_elem_of_fmap_2 (fun x => lease_TaskID (row_Lease x))).
Qed.

(** ** The outbox *)

Lemma outbox_put (release : bool) (id : Z) (c : OutboxRow -> bool) (f : OutboxRow -> OutboxRow)
    (o : option OutboxRow) (w w' : World) :
  (forall r, db_outbox (w_db w) !! id = Some r -> c r = true -> outbox_move r (f r)) ->
  update_outbox id c f w = (Ok o, w') ->
  steps_on release (OnOutbox id) (w_db w) (w_db w').
Proof.
  intros Hmove Hm. apply update_outbox_ok in Hm. destruct o as [row|].
  - destruct Hm as (r & Hr & Hc & -> & Hck & ->). apply rtc_once.
    eapply step_outbox; [exact Hr|by apply Hmove|done].
  - rewrite Hm. reflexivity.
Qed.

Lemma ClaimOutbox_refines (release : bool) (request : OutboxClaimRequest) (locked : list Z) :
  refines release (ClaimOutbox request locked).
Proof.
  apply withTx_refines. intros w r w' Hinv Hm. unfold ClaimOutbox_tx in Hm. skip Hm.
  next Hm w1 H1. apply clock_timestamp_ok in H1 as [_ H1]. rewrite <- H1.
  eapply foldM_steps; [|by rewrite H1|exact Hm].
  clear. intros b id b1 w w1 _ Hm. unfold claim_outbox_row in Hm.
  next Hm w2 H2. apply newToken_ok in H2 as [_ H2].
  next Hm w3 H3. apply clock_timestamp_ok in H3 as [_ H3].
  next Hm w4 H4. apply clock_timestamp_ok in H4 as [_ H4].
  next Hm w5 H5. rewrite H3, H2 in H4. rewrite <- H4. eapply steps_on_steps.
  assert (w1 = w5) as ->.
  { destruct r2; [by apply ret_ok in Hm as [_ ->]|by apply throw_ok in Hm]. }
  eapply outbox_put; [|exact H5]. intros x _ Hp. by constructor.
Qed.

Lemma lockOutbox_ok (id : Z) (r : OutboxEvent * string * Z) (w w' : World) :
  lockOutbox id w = (Ok r, w') ->
  w_db w' = w_db w /\ exists row, db_outbox (w_db w) !! id = Some row
    /\ r = (row_Outbox row, default EmptyString (row_ClaimTokenHash row),
            env_clock (w_tick w)).
Proof.
  unfold lockOutbox. intros Hm. skip Hm.
  next Hm w1 H1. apply clock_timestamp_ok in H1 as [-> H1].
  destruct (db_outbox (w_db w) !! id) as [row|]; [|by apply throw_ok in Hm].
  apply ret_ok in Hm as [-> ->]. eauto.
Qed.

Lemma AckOutbox_refines (release : bool) (c : OutboxDisposition) :
  tx_refines release (OnOutbox (disp_EventID c)) (AckOutbox_tx c).
Proof.
  intros w r w' Hinv Hm. unfold AckOutbox_tx in Hm.
  next Hm w1 H1. apply lockOutbox_ok in H1 as (Hw & row & Hrow & ->).
  next Hm w2 H2. apply lift_ok in H2 as [_ ->].
  next Hm w3 H3. apply clock_timestamp_ok in H3 as [_ H3].
  next Hm w4 H4. apply clock_timestamp_ok in H4 as [_ H4].
  next Hm w5 H5. apply throwIf_ok in Hm as [_ ->]. rewrite H3, Hw in H4. rewrite <- H4.
  eapply outbox_put; [|exact H5]. intros x _ Hp. by constructor.
Qed.

Lemma NackOutbox_refines (release : bool) (c : OutboxDisposition) :
  tx_refines release (OnOutbox (disp_EventID c)) (NackOutbox_tx c).
Proof.
  intros w r w' Hinv Hm. unfold NackOutbox_tx in Hm.
  next Hm w1 H1. apply lockOutbox_ok in H1 as (Hw & row & Hrow & ->).
  next Hm w2 H2. apply lift_ok in H2 as [_ ->].
  next Hm w3 H3. apply clock_timestamp_ok in H3 as [_ H3].
  next Hm w4 H4. apply clock_timestamp_ok in H4 as [_ H4].
  next Hm w5 H5. apply throwIf_ok in Hm as [_ ->]. rewrite H3, Hw in H4.
  rewrite <- H4 in Hrow |- *. eapply outbox_put; [|exact H5].
  intros x Hx Hp. rewrite Hrow in Hx. injection Hx as <-. by constructor.
Qed.

Lemma recoverOutboxTx_steps (release : bool) (batch : Z) (locked : list Z) (n : Z)
    (w w' : World) :
  Inv (w_db w) -> recoverOutboxTx batch locked w = (Ok n, w') ->
  steps release (w_db w) (w_db w').
Proof.
  intros Hinv Hm. unfold recoverOutboxTx in Hm. skip Hm.
  next Hm w1 H1. apply clock_timestamp_ok in H1 as [_ H1].
  next Hm w2 H2. apply ret_ok in Hm as [_ ->].
  pose proof (ob_id _ (inv_outbox _ Hinv)) as Hkey. rewrite <- H1 in *.
  eapply foldM_outbox; [| | |exact H2].
  - clear H2. intros b x b1 w3 w4 Hx _ Hm. unfold recover_row in Hm.
    next Hm w5 H5. apply clock_timestamp_ok in H5 as [_ H5].
    next Hm w6 H6. apply clock_timestamp_ok in H6 as [_ H6]. rewrite H5 in H6.
    next Hm w7 H7. apply ret_ok in Hm as [_ ->]. rewrite <- H6 in Hx |- *.
    eapply outbox_put; [|exact H7]. intros y Hy Hc. rewrite Hx in Hy. injection Hy as <-.
    by constructor.
  - apply skip_locked_limit_NoDup. rewrite order_by_perm. by apply rows_NoDup.
  - intros x Hx. apply skip_locked_limit_spec in Hx as [Hx _]. rewrite order_by_perm in Hx.
    apply rows_spec in Hx as (k & Hk & _). by rewrite (Hkey _ _ Hk).
Qed.

Lemma PruneOutbox_steps (release : bool) (request : OutboxPruneRequest) (locked : list Z) :
  refines release (PruneOutbox request locked).
Proof.
  intros w r w' Hinv Hm. unfold PruneOutbox in Hm.
  destruct (prune_statuses request) as [|s l] eqn:Hs.
  { injection Hm as _ <-. reflexivity. }
  destruct (prune_DryRun request).
  { unfold bind, get_db, clock_timestamp, ret in Hm. injection Hm as _ <-. reflexivity. }
  revert w r w' Hinv Hm. apply withTx_refines. intros w r w' Hinv Hm.
  unfold prune_delete in Hm. skip Hm.
  next Hm w1 H1. apply clock_timestamp_ok in H1 as [_ H1].
  next Hm w2 H2. apply modify_ok in H2 as ->. apply ret_ok in Hm as [_ ->]. simpl.
  rewrite H1. apply rtc_once. exists OnRetention. apply step_prune.
  - apply map_filter_subseteq.
  - intros k x Hx Hc. apply map_lookup_filter_Some. split; [done|]. simpl.
    intros (y & Hy & Hin)%list_elem_of_fmap.
    apply skip_locked_limit_spec in Hin as [Hin _]. rewrite order_by_perm in Hin.
    apply rows_spec in Hin as (k' & Hk' & Hp).
    pose proof (ob_id _ (inv_outbox _ Hinv) _ _ Hk') as Hid.
    assert (k' = k) as -> by congruence. rewrite Hx in Hk'. injection Hk' as <-.
    apply outbox_is_true in Hc. unfold prunable in Hp. rewrite Hc in Hp.
    apply andb_true_iff in Hp as [Hp%bool_decide_eq_true _]. revert Hp.
    unfold prune_statuses. destruct (prune_IncludePublished request),
      (prune_IncludeDead request), (prune_IncludePending request); set_solver.
Qed.

(** ** Expired leases *)

Lemma insert_dead_letter_ignore_ok (id aid : Z) (code reason : string) (count : Z) (u : unit)
    (w w' : World) :
  (forall k x, db_dead_letters (w_db w) !! k = Some x -> dead_TaskID x <> id) ->
  insert_dead_letter_ignore id aid code reason count w = (Ok u, w') ->
  exists l, dead_TaskID l = id /\ db_dead_letters (w_db w) !! dead_ID l = None
    /\ dead_RedriveTaskID l = None /\ dead_letters_check l = true
    /\ w_db w' = put_dead_letter (dead_ID l) l (w_db w).
Proof.
  unfold insert_dead_letter_ignore. intros Hno Hm.
  next Hm w1 H1. apply transaction_now_ok in H1 as [_ H1].
  next Hm w2 H2. apply nextval_ok in H2. skip Hm. rewrite H2, H1 in *.
  skip Hm as Hck. apply negb_false_iff in Hck.
  destruct (rows _ (db_dead_letters (w_db w))) as [|y ys] eqn:Hr.
  - skip Hm as Hf. apply modify_ok in Hm as ->. apply taken_false in Hf.
    match type of Hck with dead_letters_check ?x = _ => exists x end.
    split_and!; try done. simpl. by rewrite ?H2, ?H1.
  - exfalso. assert (Hy : y ∈ rows (fun l => dead_TaskID l =? id) (db_dead_letters (w_db w)))
      by (rewrite Hr; left).
    apply rows_spec in Hy as (k & Hk & Hid%Z.eqb_eq). by apply (Hno k y).
Qed.

Lemma expire_lease_refines (release : bool) (policy : RetryPolicy) (n : Z) (u u' : unit)
    (item : LeaseRow) (w w' : World) :
  Inv (w_db w) -> db_leases (w_db w) !! lease_ID (row_Lease item) = Some item ->
  lease_active item = true -> expire_lease policy n u item w = (Ok u', w') ->
  steps_on release (OnTask (lease_TaskID (row_Lease item))) (w_db w) (w_db w').
Proof.
  intros Hinv Hitem Hact Hm. unfold expire_lease in Hm. lock Hm Hinv Hst Hid.
  destruct (active_held _ _ _ Hinv Hitem Hact) as (t & a & Ht & Hh & Hheld).
  pose proof Hst as Hr. unfold stored in Hr. rewrite Hid, Ht in Hr. injection Hr as <-.
  next Hm w1 H1. apply clock_timestamp_ok in H1 as [_ H1].
  next Hm w2 H2. apply update_leases_ok in H2 as (-> & Hlc & H2). rewrite H1 in Hlc, H2.
  rewrite (update_one _ (fun x => (lease_ID (row_Lease x) =? lease_ID (row_Lease item))
      && lease_active x) _ (lease_ID (row_Lease item)) item) in H2; [|done| |].
  2:{ by rewrite Z.eqb_refl, Hact. }
  2:{ intros k x Hx [Hk%Z.eqb_eq _]%andb_true_iff.
      by rewrite <- (ky_lease _ (inv_keys _ Hinv) _ _ Hx). }
  apply (closed_check _ _ _ _ _ _ _ _ _ Hheld) in Hlc; [|by rewrite Z.eqb_refl, Hact].
  next Hm w3 H3. apply clock_timestamp_ok in H3 as [_ H3].
  next Hm w4 H4. apply clock_timestamp_ok in H4 as [_ H4].
  next Hm w5 H5. rewrite H3, H2 in H4.
  pose proof Hheld as [_ _ _ _ Ha _ _].
  apply update_attempt_ok in H5 as [(_ & y & Hy & _ & Hac & H5)|(_ & _ & H5)].
  2:{ exfalso. rewrite H4 in H5. simpl in H5. specialize (H5 _ Ha).
      apply held_live in Hheld. congruence. }
  rewrite H4 in Hy, H5. simpl in Hy, H5. rewrite Ha in Hy. injection Hy as <-.
  match type of Hac with attempts_check ?x = _ => set (a' := x) in * end.
  assert (Hover : attempt_over_of a a') by (by apply ended_over).
  match type of Hlc with leases_check ?x = _ => set (closed := x) in * end.
  change (w_db w5 = ended (lease_ID (row_Lease item)) (lease_AttemptID (row_Lease item))
    closed a' (w_db w)) in H5. subst closed.
  destruct (negb _ && _) eqn:Hs.
  { exfalso. apply andb_true_iff in Hs as [Hs1%negb_true_iff Hs2%negb_true_iff].
    apply bool_decide_eq_false in Hs1, Hs2. by destruct (task_Status t). }
  assert (Hlive : Terminal (task_Status t) = false) by (by destruct (task_Status t)).
  assert (Hnoletter : forall k x, db_dead_letters (w_db w) !! k = Some x ->
            dead_TaskID x <> task_ID t).
  { intros k x Hx Heq. destruct (di_task _ _ (inv_dead _ Hinv) _ _ Hx) as (y & Hy & Hd & _).
    rewrite Heq, Hid, Ht in Hy. injection Hy as <-. by rewrite Hd in Hlive. }
  rewrite <- Hid in Ht, Hheld |- *. apply rtc_once.
  destruct (_ <=? _) eqn:Hmax.
  - apply Z.leb_le in Hmax. next Hm w6 H6. next Hm w7 H7. apply ret_ok in Hm as [_ ->].
    apply insert_dead_letter_ignore_ok in H6 as (l & Hl1 & Hl2 & Hl3 & Hl4 & H6);
      [|by rewrite H5].
    eapply (end_transition release (w_db w) t t) with (letter := Some l)
      (status := LeaseExpired) (to := StatusDeadLetter);
      [exact Ht|exact Hh|done|exact Hheld|exact Hover|done|exact Hlc| |reflexivity|done|done
      |done|done| |exact H7].
    + rewrite H5 in Hl2. simpl. by split_and!.
    + rewrite H6, H5. by rewrite put_task_id.
  - next Hm w6 H6. next Hm w7 H7. apply ret_ok in Hm as [_ ->].
    apply defer_task_ok in H6 as (z & _ & H6); [|unfold stored; by rewrite H5].
    eapply (end_transition release (w_db w) t (task_deferred z t)) with (letter := None)
      (status := LeaseExpired) (to := StatusRetryWait);
      [exact Ht|exact Hh|done|exact Hheld|exact Hover|done|exact Hlc|done|by split|done|done
      |done|done| |exact H7].
    by rewrite H6, H5.
Qed.

(** Different active leases belong to different tasks. *)
Lemma active_tasks_NoDup (d : DB) (items : list LeaseRow) :
  Inv d ->
  (forall x, x ∈ items -> lease_active x = true
     /\ db_leases d !! lease_ID (row_Lease x) = Some x) ->
  NoDup ((fun x => lease_ID (row_Lease x)) <$> items) ->
  NoDup ((fun x => lease_TaskID (row_Lease x)) <$> items).
Proof.
  intros Hinv. induction items as [|x items IH]; intros Hitems Hnd; [constructor|].
  rewrite fmap_cons in *. apply NoDup_cons in Hnd as [Hni Hnd].
  apply NoDup_cons. split; [|apply IH; [intros; apply Hitems; by right|done]].
  intros (y & Heq & Hy)%list_elem_of_fmap. apply Hni, list_elem_of_fmap.
  exists y. split; [|done].
  destruct (Hitems x) as [Hxa Hx]; [left|]. destruct (Hitems y) as [Hya Hy']; [by right|].
  by eapply (lk_unique _ _ _ (li_lease _ (inv_leases _ Hinv))).
Qed.

Lemma reconcileExpiredLeases_steps (release : bool) (batch : Z) (locked : list Z)
    (policy : RetryPolicy) (n m : Z) (w w' : World) :
  Inv (w_db w) -> reconcileExpiredLeases batch locked policy n w = (Ok m, w') ->
  steps release (w_db w) (w_db w').
Proof.
  intros Hinv Hm. unfold reconcileExpiredLeases in Hm. skip Hm.
  next Hm w1 H1. apply clock_timestamp_ok in H1 as [_ H1].
  next Hm w2 H2. apply ret_ok in Hm as [_ ->]. rewrite <- H1 in Hinv, H2 |- *.
  set (items := skip_locked_limit _ _ _ _) in H2.
  assert (Hitems : forall x, x ∈ items -> lease_active x = true
            /\ db_leases (w_db w1) !! lease_ID (row_Lease x) = Some x).
  { intros x Hx. apply skip_locked_limit_spec in Hx as [Hx _]. rewrite order_by_perm in Hx.
    apply rows_spec in Hx as (k & Hk & [Ha _]%andb_true_iff). split; [done|].
    by rewrite (ky_lease _ (inv_keys _ Hinv) _ _ Hk). }
  eapply foldM_leases; [|exact Hinv| |by intros; apply Hitems|exact H2].
  - intros b x b1 w3 w4 Hinv3 Hx Hin Hrun.
    eapply expire_lease_refines; [done|done|by apply Hitems|exact Hrun].
  - apply (active_tasks_NoDup (w_db w1)); [done|exact Hitems|].
    apply (skip_locked_limit_NoDup (fun r => lease_ID (row_Lease r))).
    rewrite order_by_perm. apply rows_NoDup. apply (ky_lease _ (inv_keys _ Hinv)).
Qed.

(** ** Readiness *)

Lemma updateBlockedReason_ok (release : bool) (t row : Task) (code reason : string)
    (w w' : World) :
  stored w t -> isCoordinationHeld t = false -> code <> ReasonCodeCoordinationHold ->
  updateBlockedReason t code reason w = (Ok row, w') ->
  step release (OnTask (task_ID t)) (w_db w) (w_db w') /\ stored w' row
  /\ task_ID row = task_ID t /\ task_Status row = task_Status t.
Proof.
  unfold updateBlockedReason. intros Hst Hh Hcode Hm.
  next Hm w1 H1. apply clock_timestamp_ok in H1 as [_ H1].
  next Hm w2 H2. apply update_task_ok in H2.
  destruct r0 as [x|]; [|by apply throw_ok in Hm].
  destruct H2 as (t0 & Ht0 & [_ Hb%bool_decide_eq_true]%andb_true_iff & -> & Hck & H2).
  apply ret_ok in Hm as [-> ->]. unfold stored in *.
  rewrite H1, Hst in Ht0. injection Ht0 as <-. rewrite H1 in H2. split.
  - rewrite H2. apply (quiet_step release w t); [done|]. split; simpl; try done; [|lia|].
    + rewrite Hh. unfold isCoordinationHeld. simpl. rewrite Hb, bool_decide_true by done.
      simpl. apply bool_decide_eq_false. congruence.
    + by rewrite Hb.
  - rewrite H2. simpl. by rewrite lookup_insert_eq.
Qed.

Lemma block_or_reblock_ok (release : bool) (t : Task) (code reason et : string) (n : Z)
    (changed : bool) (w w' : World) :
  stored w t -> isCoordinationHeld t = false -> code <> ReasonCodeCoordinationHold ->
  has_lease (task_Status t) = false -> Terminal (task_Status t) = false ->
  block_or_reblock t code reason et n w = (Ok changed, w') ->
  steps_on release (OnTask (task_ID t)) (w_db w) (w_db w')
  /\ exists row, stored w' row /\ task_ID row = task_ID t /\ Terminal (task_Status row) = false.
Proof.
  unfold block_or_reblock. intros Hst Hh Hcode Hl Hterm Hm. destruct (negb _ || _).
  2:{ apply ret_ok in Hm as [_ ->]. split; [reflexivity|eauto]. }
  destruct (bool_decide (task_Status t = StatusBlocked)).
  - next Hm w1 H1.
    eapply (updateBlockedReason_ok release) in H1 as (Hs & Hst1 & Hid & Hss); [|done..].
    next Hm w2 H2. apply ret_ok in Hm as [_ ->].
    eapply (event_step release) in H2 as [Hs' Hts]; [|done]. rewrite Hid in Hs'.
    split; [eapply rtc_l; [exact Hs|by apply rtc_once]|].
    exists r. unfold stored. rewrite Hts, Hss. done.
  - next Hm w1 H1. apply ret_ok in Hm as [_ ->].
    eapply (plain_transition release) in H1 as (Hs & Hst1 & Hmv & _);
      [|done|done|done|done|done|by apply not_held].
    split; [by apply rtc_once|]. exists r. split; [done|].
    rewrite (imm_ID _ _ (moved_imm _ _ _ _ Hmv)), (moved_status _ _ _ _ Hmv). done.
Qed.

(** The rows the reconciler may promote hold no lease and no coordination
    hold. *)
Lemma reconcile_candidate_true (now : Z) (t : Task) :
  reconcile_candidate now t = true ->
  isCoordinationHeld t = false /\ has_lease (task_Status t) = false
  /\ Terminal (task_Status t) = false /\ task_AvailableAt t <= now.
Proof.
  unfold reconcile_candidate, isCoordinationHeld.
  rewrite andb_true_iff, !orb_true_iff, andb_true_iff, !bool_decide_eq_true, Z.leb_le.
  intros [Hnow [[Hs|Hs]|[Hs Hc]]]; rewrite Hs; simpl; try done.
  split_and!; try done. apply bool_decide_eq_false.
  destruct (task_StatusReasonCode t) as [code|]; [|done]. intros [= ->].
  revert Hc. unfold reconcilable_reason. rewrite bool_decide_eq_true.
  unfold ReasonCodeCoordinationHold. set_solver.
Qed.

Lemma reconcile_task_refines (release : bool) (validate : Task -> res AssigneeCheck)
    (capacity : Task -> res CapacityCheck) (n : Z) (c c' : Counters) (t : Task) (now : Z)
    (w w' : World) :
  stored w t -> reconcile_candidate now t = true ->
  reconcile_task validate capacity n c t w = (Ok c', w') ->
  steps_on release (OnTask (task_ID t)) (w_db w) (w_db w').
Proof.
  intros Hst (Hh & Hl & Hterm & _)%reconcile_candidate_true Hm.
  unfold reconcile_task in Hm. destruct c as [p dp as_ cp].
  next Hm w1 H1. apply inspectDependencies_ok in H1 as (Hw & _ & _).
  assert (Hst1 : stored w1 t) by (unfold stored; by rewrite Hw). rewrite <- Hw.
  assert (Hplain : forall to et rc rs p0 q w2, transitionTask t to et rc rs "system"
            "orgd-reconciler" p0 n w1 = (Ok q, w2) -> has_lease to = false ->
            to <> StatusDeadLetter -> to <> StatusCompleted ->
            steps_on release (OnTask (task_ID t)) (w_db w1) (w_db w2)).
  { intros to et rc rs p0 q w2 Hrun Hf Hnd Hnc.
    eapply (plain_transition release) in Hrun as [Hs _];
      [by apply rtc_once|done|done|done|done|done|by apply not_held]. }
  destruct (inspect_TerminalFailure r).
  { next Hm w2 H2. apply ret_ok in Hm as [_ ->].
    by eapply (block_or_reblock_ok release) in H2 as [? _]. }
  destruct (inspect_Waiting r).
  { destruct (_ || _); [by apply ret_ok in Hm as [_ ->]|].
    next Hm w2 H2. apply ret_ok in Hm as [_ ->]. by eapply Hplain. }
  next Hm w2 H2. apply lift_ok in H2 as [_ ->]. destruct (negb _).
  { next Hm w2 H2. apply ret_ok in Hm as [_ ->].
    by eapply (block_or_reblock_ok release) in H2 as [? _]. }
  next Hm w2 H2. apply lift_ok in H2 as [_ ->]. destruct (negb _).
  - next Hm w2 H2. next Hm w3 H3. apply ret_ok in Hm as [_ ->].
    eapply (block_or_reblock_ok release) in H2 as (Hs & row & Hrow & Hid & Ht'); [|done..].
    destruct (IsZero _); [by apply ret_ok in H3 as [_ ->]|].
    rewrite <- Hid in H3, Hs |- *. eapply (defer_step release) in H3; [|done..].
    eapply rtc_r; [exact Hs|exact H3].
  - destruct (_ <=? _); [by apply ret_ok in Hm as [_ ->]|].
    next Hm w2 H2. apply ret_ok in Hm as [_ ->]. by eapply Hplain.
Qed.

Lemma reconcileTaskReadiness_steps (release : bool) (batch : Z) (locked : list Z)
    (validate : Task -> res AssigneeCheck) (capacity : Task -> res CapacityCheck) (n : Z)
    (c : Counters) (w w' : World) :
  Inv (w_db w) -> reconcileTaskReadiness batch locked validate capacity n w = (Ok c, w') ->
  steps release (w_db w) (w_db w').
Proof.
  intros Hinv Hm. unfold reconcileTaskReadiness in Hm. skip Hm.
  next Hm w1 H1. apply clock_timestamp_ok in H1 as [Hnow H1]. rewrite <- H1 in *.
  set (l := skip_locked_limit _ _ _ _) in Hm.
  assert (Hl : forall t, t ∈ l -> stored w1 t
            /\ reconcile_candidate (env_clock (w_tick w)) t = true).
  { intros t Ht. apply skip_locked_limit_spec in Ht as [Ht _]. rewrite order_by_perm in Ht.
    apply rows_spec in Ht as (k & Hk & Hc). split; [|by rewrite <- Hnow].
    unfold stored. by rewrite (ky_task _ (inv_keys _ Hinv) _ _ Hk). }
  eapply foldM_tasks; [|exact Hinv| |by intros; apply Hl|exact Hm].
  - intros b x b1 w2 w3 _ Hst Hx Hrun. eapply reconcile_task_refines; [done| |exact Hrun].
    by apply Hl.
  - apply skip_locked_limit_NoDup. rewrite order_by_perm. apply rows_NoDup.
    apply (ky_task _ (inv_keys _ Hinv)).
Qed.

Lemma Reconcile_refines (release : bool) (batch : Z) (locked : Locked)
    (validate : Task -> res AssigneeCheck) (capacity : Task -> res CapacityCheck)
    (policy : RetryPolicy) (n : Z) :
  refines release (Reconcile batch locked validate capacity policy n).
Proof.
  apply withTx_refines. intros w r w' Hinv Hm. unfold Reconcile_tx in Hm.
  next Hm w1 H1. apply (reconcileExpiredLeases_steps release) in H1; [|done].
  assert (Hinv1 : Inv (w_db w1)) by (by eapply Inv_steps).
  next Hm w2 H2. apply (recoverOutboxTx_steps release) in H2; [|done].
  assert (Hinv2 : Inv (w_db w2)) by (by eapply Inv_steps).
  next Hm w3 H3. apply (reconcileTaskReadiness_steps release) in H3; [|done].
  apply ret_ok in Hm as [_ ->]. etransitivity; [exact H1|]. by etransitivity.
Qed.

End Refine.
