(* ===== verification/CreateRefine.v ===== *)
(** * Creation and redrive refine the abstract machine *)

From stdpp Require Import base tactics list gmap strings sorting relations.
From Stdlib Require Import ZArith Lia.
From S2P Require Import Prelude GoLib TaskDomain Database StoreHelpers StoreMutate StoreCreate.
From S2P Require Import StoreQueue StoreOutbox StoreRun StoreSpec LeaseInvariant TaskInvariant.
From S2P Require Import StoreRefine MutateRefine QueueRefine.

Local Open Scope Z_scope.

(** What a prepared creation must satisfy: the statuses the service prepares. *)
Definition creatable (input : PreparedCreate) : Prop :=
  prepared_InitialStatus input = StatusPending \/ prepared_InitialStatus input = StatusReady
  \/ prepared_InitialStatus input = StatusBlocked.

Section Refine.
Context `{Env}.

(** ** The insert *)

Lemma insert_task_if_new_ok (input : PreparedCreate) (o : option Task) (w w' : World) :
  insert_task_if_new input w = (Ok o, w') ->
  let r := prepared_Request input in
  match o with
  | Some t => (exists id now available, t = new_task id now available input)
      /\ tasks_check t = true /\ db_tasks (w_db w) !! task_ID t = None
      /\ (forall k x, db_tasks (w_db w) !! k = Some x ->
            with_key (create_OrganizationID r) (create_IdempotencyKey r) x = false)
      /\ w_db w' = put_task (task_ID t) t (w_db w)
  | None => w_db w' = w_db w
      /\ exists x, x ∈ rows (with_key (create_OrganizationID r) (create_IdempotencyKey r))
                      (db_tasks (w_db w))
  end.
Proof.
  intros Hm r. unfold insert_task_if_new in Hm. fold r in Hm.
  next Hm w1 H1. apply transaction_now_ok in H1 as [_ H1].
  next Hm w2 H2. apply clock_timestamp_ok in H2 as [_ H2].
  next Hm w3 H3. apply nextval_ok in H3. rewrite H2, H1 in H3.
  skip Hm. rewrite H3 in Hm. skip Hm.
  destruct (rows _ (db_tasks (w_db w))) as [|x xs] eqn:Hr.
  - next Hm w4 H4. apply insert_task_ok in H4 as (-> & Hck & Hf & H4).
    apply ret_ok in Hm as [-> ->]. rewrite H3 in Hf, H4.
    split_and!; [by do 3 eexists|done|done| |done]. by apply rows_nil.
  - apply ret_ok in Hm as [-> ->]. split; [done|]. exists x. left.
Qed.

Lemma create_dependencies_ok (t : Task) (deps : list Z) (u u' : unit) (w w' : World) :
  foldM (create_dependency t) u deps w = (Ok u', w') ->
  w_db w' = set_dependencies (db_dependencies (w_db w) ++ (pair (task_ID t) <$> deps)) (w_db w)
  /\ NoDup deps
  /\ forall dep, dep ∈ deps -> dep <> task_ID t /\ is_Some (db_tasks (w_db w) !! dep)
       /\ (task_ID t, dep) ∉ db_dependencies (w_db w).
Proof.
  revert u w. induction deps as [|dep deps IH]; intros u w Hm.
  { apply foldM_nil in Hm as [_ ->]. split; [|split; [constructor|]].
    - simpl. rewrite app_nil_r. by destruct (w_db w).
    - intros dep Hdep. by apply not_elem_of_nil in Hdep. }
  apply foldM_cons in Hm as (b1 & w1 & H1 & Hm). unfold create_dependency in H1.
  next H1 w2 H2. apply select_task_ok in H2 as [Hdep ->]. skip H1.
  unfold insert_dependency in H1. skip H1. skip H1 as Hne. skip H1 as Hin.
  apply Z.eqb_neq in Hne. apply bool_decide_eq_false in Hin. apply modify_ok in H1 as ->.
  apply IH in Hm as (Hw & Hnd & Hall). simpl in Hw, Hall. split; [|split].
  - rewrite Hw. unfold set_dependencies. simpl. by rewrite <- app_assoc.
  - apply NoDup_cons. split; [|done]. intros Hd. destruct (Hall dep Hd) as (_ & _ & Hni).
    apply Hni, elem_of_app. right. by apply list_elem_of_singleton.
  - intros x [->|Hx]%elem_of_cons; [split_and!; [done|by eexists|done]|].
    destruct (Hall x Hx) as (? & ? & Hni). split_and!; [done..|].
    intros Hx'. apply Hni, elem_of_app. by left.
Qed.

(** The requirement rows [reqs] add to [old], all of task [id]. *)
Definition adds_requirements (id : Z) (old reqs : gmap Z Requirement) : Prop :=
  old ⊆ reqs /\ forall k r, reqs !! k = Some r -> old !! k = Some r
    \/ (old !! k = None /\ requirement_ID r = k /\ requirement_TaskID r = id).

Lemma create_requirements_ok (t : Task) (specs : list RequirementSpec) (u u' : unit)
    (w w' : World) :
  foldM (create_requirement t) u specs w = (Ok u', w') ->
  exists reqs, w_db w' = set_requirements reqs (w_db w)
    /\ adds_requirements (task_ID t) (db_requirements (w_db w)) reqs.
Proof.
  revert u w. induction specs as [|s specs IH]; intros u w Hm.
  { apply foldM_nil in Hm as [_ ->]. exists (db_requirements (w_db w)).
    split; [by destruct (w_db w)|]. split; [done|auto]. }
  apply foldM_cons in Hm as (b1 & w1 & H1 & Hm). unfold create_requirement in H1.
  next H1 w2 H2. apply transaction_now_ok in H2 as [_ H2].
  next H1 w3 H3. apply nextval_ok in H3. rewrite H2 in H3.
  next H1 w4 H4. apply ret_ok in H1 as [_ ->].
  apply insert_requirement_ok in H4 as (_ & _ & Hf & H4). rewrite H3 in Hf, H4.
  apply IH in Hm as (reqs & Hw & Hsub & Hall). rewrite H4 in *. simpl in *.
  exists reqs. split; [by rewrite Hw|]. split.
  - etransitivity; [|exact Hsub]. by apply insert_subseteq.
  - intros k x Hx. destruct (Hall k x Hx) as [Hold|(Hold & ? & ?)].
    + apply lookup_insert_Some in Hold as [[<- <-]|[? ?]]; [right|by left].
      split_and!; [exact Hf|done..].
    + apply lookup_insert_None in Hold as [? ?]. right. done.
Qed.

(** ** createInTx *)

Lemma classified_quiet (t : Task) (class : string) :
  tasks_check (task_classified class t) = true ->
  task_TaskClass t = TaskClassLegacyUnspecified -> quiet t (task_classified class t).
Proof. intros Hck Hcl. split; simpl; try done. eauto. Qed.

Lemma reuse_existing_ok (release : bool) (input : PreparedCreate) (t row : Task)
    (created : bool) (w w' : World) :
  stored w t -> reuse_existing input t w = (Ok (row, created), w') ->
  created = false /\ task_ID row = task_ID t /\ stored w' row
  /\ steps_on release (OnTask (task_ID t)) (w_db w) (w_db w')
  /\ db_dead_letters (w_db w') = db_dead_letters (w_db w).
Proof.
  unfold reuse_existing. intros Hst Hm.
  assert (Hsame : forall w1, @ret Error World _ (t, false) w1 = (Ok (row, created), w') -> w1 = w ->
    created = false /\ task_ID row = task_ID t /\ stored w' row
    /\ steps_on release (OnTask (task_ID t)) (w_db w) (w_db w')
    /\ db_dead_letters (w_db w') = db_dead_letters (w_db w)).
  { intros w1 Hr ->. apply ret_ok in Hr as [[= -> ->] ->]. by split_and!. }
  case_bool_decide; [by eapply Hsame|].
  next Hm w1 H1. apply lift_ok in H1 as [_ ->]. skip Hm.
  destruct (prepared_TaskClassExplicit input); [|by eapply Hsame].
  destruct (bool_decide (task_TaskClass t = _)) eqn:Hc.
  2:{ skip Hm. by eapply Hsame. }
  apply bool_decide_eq_true in Hc.
  next Hm w1 H1. apply update_task_ok in H1. destruct r1 as [x|]; [|by apply throw_ok in Hm].
  apply ret_ok in Hm as [[= -> ->] ->].
  destruct H1 as (t0 & Ht0 & _ & -> & Hck & H1). unfold stored in *.
  rewrite Hst in Ht0. injection Ht0 as <-. split_and!; [done|done| | |by rewrite H1].
  - rewrite H1. simpl. by rewrite lookup_insert_eq.
  - rewrite H1. by apply rtc_once, (quiet_step release w t), classified_quiet.
Qed.

Lemma createInTx_ok (release : bool) (input : PreparedCreate) (t : Task) (created : bool)
    (w w' : World) :
  Inv (w_db w) -> creatable input -> createInTx input w = (Ok (t, created), w') ->
  steps_on release (OnTask (task_ID t)) (w_db w) (w_db w')
  /\ stored w' t
  /\ db_dead_letters (w_db w') = db_dead_letters (w_db w)
  /\ (created = true -> db_tasks (w_db w) !! task_ID t = None
        /\ exists id now available, t = new_task id now available input).
Proof.
  intros Hinv Hini Hm. unfold createInTx in Hm.
  next Hm w1 H1. apply insert_task_if_new_ok in H1. destruct r as [row|].
  - destruct H1 as (Hnew & Hck & Hfresh & Huniq & H1).
    next Hm w2 H2. apply create_dependencies_ok in H2 as (H2 & Hnd & Hdeps).
    next Hm w3 H3. apply create_requirements_ok in H3 as (reqs & H3 & Hsub & Hreqs).
    next Hm w4 H4. apply ret_ok in Hm as [[= -> ->] ->].
    apply appendTaskEvent_ok in H4 as (e & o & a & Hj & _ & H4).
    rewrite H1 in H2, Hdeps. rewrite H2 in H3, Hsub, Hreqs. simpl in *.
    split_and!; [|by unfold stored; rewrite H4, H3; simpl; rewrite lookup_insert_eq
                |by rewrite H4, H3|done].
    rewrite H4, H3. apply rtc_once.
    destruct Hnew as (id & now & available & ->). simpl in *.
    eapply (step_create release (w_db w) id); try done.
    + intros dep Hdep. destruct (Hdeps dep Hdep) as (? & Hs & _). split; [done|].
      by rewrite lookup_insert_ne in Hs.
    + eapply journal_rows_ext; [| |exact Hj]; by rewrite H3.
  - destruct H1 as [Hw _]. skip Hm.
    destruct (rows _ _) as [|x xs] eqn:Hr; [by apply throw_ok in Hm|].
    assert (Hx : x ∈ rows (with_key (create_OrganizationID (prepared_Request input))
        (create_IdempotencyKey (prepared_Request input))) (db_tasks (w_db w1)))
      by (rewrite Hr; left).
    apply rows_spec in Hx as (k & Hk & _). rewrite <- Hw in Hinv |- *.
    assert (Hst : stored w1 x).
    { unfold stored. by rewrite (ky_task _ (inv_keys _ Hinv) _ _ Hk). }
    eapply (reuse_existing_ok release) in Hm as (-> & Hid & Hst' & Hs & Hd); [|done].
    rewrite Hid. split_and!; done.
Qed.

Lemma Create_refines (release : bool) (input : PreparedCreate) :
  creatable input -> refines release (Create input).
Proof.
  intros Hini. apply withTx_refines. intros w [t created] w' Hinv Hm.
  eapply (createInTx_ok release) in Hm as [Hs _]; [|done..]. by eapply steps_on_steps.
Qed.

(** ** Redrive *)

Lemma stamp_dead_letter_ok (lid successor n : Z) (w w' : World) :
  stamp_dead_letter lid successor w = (Ok n, w') -> n = 1 ->
  exists l now, db_dead_letters (w_db w) !! lid = Some l /\ dead_RedriveTaskID l = None
    /\ w_db w' = put_dead_letter lid (dead_redriven now successor l) (w_db w).
Proof.
  unfold stamp_dead_letter. intros Hm ->.
  next Hm w1 H1. apply clock_timestamp_ok in H1 as [_ H1]. skip Hm. rewrite H1 in Hm.
  destruct (db_dead_letters (w_db w) !! lid) as [l|] eqn:Hl; [|by apply ret_ok in Hm as [? _]].
  destruct (is_some (dead_RedriveTaskID l)) eqn:Hs; [by apply ret_ok in Hm as [? _]|].
  skip Hm. next Hm w2 H2. apply modify_ok in H2 as ->. apply ret_ok in Hm as [_ ->].
  exists l, r. split; [done|]. split; [by destruct (dead_RedriveTaskID l)|].
  simpl. by rewrite H1.
Qed.

Lemma Redrive_refines (release : bool) (input : PreparedRedrive) :
  creatable (predrive_Successor input) -> refines release (Redrive input).
Proof.
  intros Hini. apply withTx_refines. intros w res w' Hinv Hm. unfold Redrive_tx in Hm. skip Hm.
  destruct (db_dead_letters (w_db w) !! predrive_DeadLetterID input) as [l|] eqn:Hl;
    [|by apply throw_ok in Hm].
  next Hm w1 H1.
  assert (w1 = w) as ->.
  { unfold recoveryChainDepth in H1. skip H1. rewrite Hl in H1. by apply ret_ok in H1 as [_ ->]. }
  destruct (dead_RedriveTaskID l) as [s|] eqn:Hs.
  { next Hm w2 H2. apply select_task_ok in H2 as [_ ->]. apply ret_ok in Hm as [_ ->].
    reflexivity. }
  skip Hm. next Hm w2 H2. destruct r1 as [t created].
  eapply (createInTx_ok release) in H2 as (Hs2 & Hst2 & Hd2 & Hnew); [|done..].
  skip Hm as Hc. simpl in *. apply negb_false_iff in Hc. subst created.
  destruct (Hnew eq_refl) as [Hfresh _]. clear Hnew.
  next Hm w3 H3. skip Hm as Hn. apply negb_false_iff, Z.eqb_eq in Hn.
  apply stamp_dead_letter_ok in H3 as (l' & now & Hl' & Hred & H3); [|done].
  rewrite Hd2, Hl in Hl'. injection Hl' as <-.
  pose proof (Inv_steps_on _ _ _ _ Hinv Hs2) as Hinv2.
  assert (Hstamp : step release (OnTask (dead_TaskID l)) (w_db w2) (w_db w3)).
  { rewrite H3. pose proof (inv_dead _ Hinv) as [Dt Du Dl Ds Do].
    apply step_stamp; [by rewrite Hd2|done|by eexists| |].
    - intros Heq. destruct (Dt _ _ Hl) as (x & Hx & _). congruence.
    - rewrite Hd2. intros k x Hx. split.
      + intros Heq. destruct (Dt _ _ Hx) as (y & Hy & _). congruence.
      + intros Heq. destruct (Ds _ _ _ Hx Heq) as [[y Hy] _]. congruence. }
  next Hm w4 H4.
  assert (Hst3 : stored w3 t) by (unfold stored; by rewrite H3).
  eapply (event_step release) in H4 as [Hev1 Hts]; [|done].
  pose proof (Inv_step _ _ _ _ Hinv2 Hstamp) as Hinv3.
  pose proof (Inv_step _ _ _ _ Hinv3 Hev1) as Hinv4.
  skip Hm. destruct (db_tasks (w_db w4) !! dead_TaskID l) as [failed|] eqn:Hf;
    [|by apply throw_ok in Hm].
  next Hm w5 H5. apply ret_ok in Hm as [_ ->].
  pose proof (ky_task _ (inv_keys _ Hinv4) _ _ Hf) as Hid.
  eapply (event_step release) in H5 as [Hev2 _]; [|unfold stored; by rewrite Hid].
  etransitivity; [by eapply steps_on_steps|].
  eapply rtc_l; [by eexists|]. eapply rtc_l; [by eexists|]. apply rtc_once. by eexists.
Qed.

End Refine.
