(* ===== verification/StoreMachine.v ===== *)
(** * Runs of the task store

    The methods of the store that change state as values of [Call], a run of the
    system as a list of calls, and the refinement: each call is a sequence of
    steps of the abstract machine, so every reachable state satisfies [Inv]. *)

From stdpp Require Import base tactics list gmap strings sorting relations.
From Stdlib Require Import ZArith Lia.
From S2P Require Import Prelude GoLib TaskDomain Database StoreHelpers StoreMutate StoreCreate.
From S2P Require Import StoreQueue StoreOutbox StoreReconcile StoreRun StoreSpec LeaseInvariant.
From S2P Require Import TaskInvariant StoreRefine MutateRefine QueueRefine ReconcileRefine.
From S2P Require Import CreateRefine.

Local Open Scope Z_scope.

Inductive Call : Type :=
| CallCreate (input : PreparedCreate)
| CallRedrive (input : PreparedRedrive)
| CallAddDependency (c : AddDependencyCommand) (n : Z)
| CallAddRequirement (c : AddRequirementCommand) (n : Z)
| CallRecordEvidence (c : RecordEvidenceCommand) (n : Z)
| CallRecordVerification (c : RequirementVerificationCommand) (n : Z)
| CallFinalize (c : FinalizeCommand) (n : Z)
| CallBlock (c : BlockCommand) (n : Z)
| CallUnblock (c : UnblockCommand) (check : AssigneeCheck) (n : Z)
| CallRelease (c : ReleaseCoordinationHoldCommand) (check : AssigneeCheck) (n : Z)
| CallCancel (c : CancelCommand) (n : Z)
| CallClaim (r : ClaimRequest) (locked : list Z) (validate : Task -> res AssigneeCheck)
    (capacity : Task -> res CapacityCheck) (n : Z)
| CallClaimSpecific (id : Z) (r : ClaimRequest) (locked : list Z)
    (validate : Task -> res AssigneeCheck) (capacity : Task -> res CapacityCheck) (n : Z)
| CallStartAttempt (c : LeaseCommand) (n : Z)
| CallHeartbeat (c : LeaseCommand) (max : Duration)
| CallRecordAttemptResult (c : RecordAttemptResultCommand) (policy : RetryPolicy) (n : Z)
| CallReconcile (batch : Z) (locked : Locked) (validate : Task -> res AssigneeCheck)
    (capacity : Task -> res CapacityCheck) (policy : RetryPolicy) (n : Z)
| CallClaimOutbox (r : OutboxClaimRequest) (locked : list Z)
| CallAckOutbox (c : OutboxDisposition)
| CallNackOutbox (c : OutboxDisposition)
| CallRecoverOutbox (batch : Z) (locked : list Z)
| CallPruneOutbox (r : OutboxPruneRequest) (locked : list Z).

(** The calls that create a task, with what they prepare. *)
Definition valid_call (c : Call) : Prop :=
  match c with
  | CallCreate input => creatable input
  | CallRedrive input => creatable (predrive_Successor input)
  | _ => True
  end.

Definition releases (c : Call) : bool :=
  match c with CallRelease _ _ _ => true | _ => false end.

Section Machine.
Context `{Env}.

(** The error of a run, if any, and the world after it. *)
Definition outcome {A} (m : M A) (w : World) : option Error * World :=
  match m w with
  | (Ok _, w') => (None, w')
  | (Err e, w') => (Some e, w')
  end.

Definition perform (c : Call) (w : World) : option Error * World :=
  match c with
  | CallCreate input => outcome (Create input) w
  | CallRedrive input => outcome (Redrive input) w
  | CallAddDependency c n => outcome (AddDependency c n) w
  | CallAddRequirement c n => outcome (AddRequirement c n) w
  | CallRecordEvidence c n => outcome (RecordEvidence c n) w
  | CallRecordVerification c n => outcome (RecordRequirementVerification c n) w
  | CallFinalize c n => outcome (Finalize c n) w
  | CallBlock c n => outcome (Block c n) w
  | CallUnblock c check n => outcome (Unblock c check n) w
  | CallRelease c check n => outcome (ReleaseCoordinationHold c check n) w
  | CallCancel c n => outcome (Cancel c n) w
  | CallClaim r locked validate capacity n => outcome (Claim r locked validate capacity n) w
  | CallClaimSpecific id r locked validate capacity n =>
      outcome (ClaimSpecific id r locked validate capacity n) w
  | CallStartAttempt c n => outcome (StartAttempt c n) w
  | CallHeartbeat c max => outcome (Heartbeat c max) w
  | CallRecordAttemptResult c policy n => outcome (RecordAttemptResult c policy n) w
  | CallReconcile batch locked validate capacity policy n =>
      outcome (Reconcile batch locked validate capacity policy n) w
  | CallClaimOutbox r locked => outcome (ClaimOutbox r locked) w
  | CallAckOutbox c => outcome (AckOutbox c) w
  | CallNackOutbox c => outcome (NackOutbox c) w
  | CallRecoverOutbox batch locked => outcome (RecoverOutbox batch locked) w
  | CallPruneOutbox r locked => outcome (PruneOutbox r locked) w
  end.

(** The world after a call, whatever the call returned. *)
Definition exec (c : Call) (w : World) : World := snd (perform c w).

Definition run (calls : list Call) (w : World) : World := foldl (fun w c => exec c w) w calls.

(** The states a run reaches from an empty database. *)
Definition reachable (w : World) : Prop :=
  exists w0 calls, w_db w0 = emptyDB /\ Forall valid_call calls /\ w = run calls w0.

Lemma refines_outcome {A} (release : bool) (m : M A) (w : World) :
  refines release m -> Inv (w_db w) -> steps release (w_db w) (w_db (snd (outcome m w))).
Proof.
  intros Hm Hinv. unfold outcome. destruct (m w) as [[r|e] w'] eqn:Hrun; by eapply Hm.
Qed.

Lemma exec_steps (c : Call) (w : World) :
  valid_call c -> Inv (w_db w) -> steps (releases c) (w_db w) (w_db (exec c w)).
Proof.
  intros Hv Hinv. unfold exec. destruct c; cbn [releases perform valid_call] in *.
  - apply refines_outcome; [by apply Create_refines|exact Hinv].
  - apply refines_outcome; [by apply Redrive_refines|exact Hinv].
  - apply refines_outcome; [eapply withTx_refines_on, AddDependency_refines|exact Hinv].
  - apply refines_outcome; [eapply withTx_refines_on, AddRequirement_refines|exact Hinv].
  - apply refines_outcome; [eapply withTx_refines_on, RecordEvidence_refines|exact Hinv].
  - apply refines_outcome; [eapply withTx_refines_on, RecordRequirementVerification_refines|exact Hinv].
  - apply refines_outcome; [eapply withTx_refines_on, Finalize_refines|exact Hinv].
  - apply refines_outcome; [eapply withTx_refines_on, Block_refines|exact Hinv].
  - apply refines_outcome; [eapply withTx_refines_on, Unblock_refines|exact Hinv].
  - apply refines_outcome; [eapply withTx_refines_on, ReleaseCoordinationHold_refines|exact Hinv].
  - apply refines_outcome; [eapply withTx_refines_on, Cancel_refines|exact Hinv].
  - apply refines_outcome; [apply Claim_refines|exact Hinv].
  - apply refines_outcome; [apply ClaimSpecific_refines|exact Hinv].
  - apply refines_outcome; [eapply withTx_refines_on, StartAttempt_refines|exact Hinv].
  - apply refines_outcome; [eapply withTx_refines_on, Heartbeat_refines|exact Hinv].
  - apply refines_outcome; [eapply withTx_refines_on, RecordAttemptResult_refines|exact Hinv].
  - apply refines_outcome; [apply Reconcile_refines|exact Hinv].
  - apply refines_outcome; [apply ClaimOutbox_refines|exact Hinv].
  - apply refines_outcome; [eapply withTx_refines_on, AckOutbox_refines|exact Hinv].
  - apply refines_outcome; [eapply withTx_refines_on, NackOutbox_refines|exact Hinv].
  - apply refines_outcome; [apply withTx_refines; intros; by eapply recoverOutboxTx_steps|exact Hinv].
  - apply refines_outcome; [apply PruneOutbox_steps|exact Hinv].
Qed.

Lemma exec_Inv (c : Call) (w : World) : valid_call c -> Inv (w_db w) -> Inv (w_db (exec c w)).
Proof. intros Hv Hinv. eapply Inv_steps; [done|by apply exec_steps]. Qed.

Lemma run_Inv (calls : list Call) (w : World) :
  Forall valid_call calls -> Inv (w_db w) -> Inv (w_db (run calls w)).
Proof.
  revert w. induction calls as [|c calls IH]; intros w Hv Hinv; [done|].
  apply Forall_cons in Hv as [Hc Hv]. apply IH; [done|]. by apply exec_Inv.
Qed.

Lemma reachable_Inv (w : World) : reachable w -> Inv (w_db w).
Proof.
  intros (w0 & calls & H0 & Hv & ->). apply run_Inv; [done|]. rewrite H0. apply Inv_empty.
Qed.

Lemma reachable_exec (c : Call) (w : World) : valid_call c -> reachable w -> reachable (exec c w).
Proof.
  intros Hc (w0 & calls & H0 & Hv & ->). exists w0, (calls ++ [c]).
  split_and!; [done| |].
  - apply Forall_app. split; [done|]. by apply Forall_singleton.
  - unfold run. by rewrite foldl_app.
Qed.

End Machine.
