(* ===== verification/Scenario.v ===== *)
(** * A concrete run

    An instance of [Env] that can be evaluated and a short history of the store
    (a task created, claimed, started, failed until it is dead, redriven), used
    to apply the theorems at concrete states. *)

From stdpp Require Import base tactics list gmap strings pretty sorting relations.
From Stdlib Require Import ZArith Lia Ascii.
From S2P Require Import Prelude GoLib TaskDomain Database StoreHelpers StoreMutate StoreCreate.
From S2P Require Import StoreQueue StoreOutbox StoreReconcile StoreMachine CreateRefine.
From S2P Require Import TaskValidation TaskService.

Local Open Scope string_scope.
Local Open Scope Z_scope.

(** ** The environment *)

Definition hex_char (n : Z) : ascii := chr (if n <? 10 then 48 + n else 87 + n).

Fixpoint hex_digits (n : nat) (z : Z) : string :=
  match n with
  | O => ""
  | S n' => String (hex_char (z mod 16)) (hex_digits n' (z / 16))
  end.

(** A stand-in digest: 64 hexadecimal digits, of a checksum of the bytes. *)
Definition demo_digest (s : string) : string :=
  hex_digits 64 (foldl (fun acc c => Z.land (acc * 257 + byte_of c + 1) (Z.ones 40)) 7 (to_bytes s)).

Fixpoint demo_json (v : JSON) : string :=
  match v with
  | JNull => "null"
  | JBool b => if b then "true" else "false"
  | JInt z => pretty z
  | JNum l => l
  | JSeconds ns => pretty ns
  | JTime t => pretty t
  | JStr s => "<" +:+ s +:+ ">"
  | JArr l => "[" +:+ foldr (fun x s => x +:+ "," +:+ s) "]" (map demo_json l)
  | JObj l =>
      "{" +:+ foldr (fun x s => x +:+ "," +:+ s) "}"
        (map (fun kv => fst kv +:+ ":" +:+ demo_json (snd kv)) l)
  end.

(** One reading of the clock per second. *)
Definition demo : Env := {|
  env_clock n := Z.of_nat n * 1000000;
  env_random n := Some ("token-" +:+ pretty n);
  env_sha256_hex := demo_digest;
  env_make_interval d := Z.quot d 1000;
  env_json_marshal := demo_json |}.

(** No text carries a credential. *)
Definition demo_policy : ContentPolicy := {| HasCredentials _ := false |}.

Local Existing Instance demo.

Definition world0 : World := mkWorld emptyDB (fun _ => 1) 0 0 0.

(** ** The calls *)

Definition demo_request (key : string) (deps : list Z) : CreateRequest :=
  mkCreateRequest "acme" "" "eng/dev" "general.work" key "Fix the build" "Make it green" [] 0 None 2
    "" "" deps [] false.

Definition demo_input (key : string) (deps : list Z) : PreparedCreate :=
  mkPreparedCreate (demo_request key deps) 1 "eng" "general.work" true
    (demo_digest key)
    (if bool_decide (deps = []) then StatusReady else StatusPending) "" "" 3 10 "human" "alice".

Definition demo_claim : ClaimRequest := mkClaimRequest "acme" "worker-1" "" "" 4 (60 * Second).

Definition demo_policy_retry : RetryPolicy := mkRetryPolicy (5 * Second) (10 * Minute).

Definition fine (_ : Task) : res AssigneeCheck := Ok (mkAssigneeCheck true "").
Definition room (_ : Task) : res CapacityCheck := Ok (mkCapacityCheck true zeroInstant "").

Definition demo_lease (attempt : Z) (token : string) : LeaseCommand :=
  mkLeaseCommand 1 attempt token "worker-1" (30 * Second).

Definition demo_failure (attempt : Z) (token : string) : RecordAttemptResultCommand :=
  mkRecordAttemptResultCommand (demo_lease attempt token)
    (mkAttemptResult OutcomeRetryableFailure "it broke" "flaky").

Definition unlocked : Locked := mkLocked [] [] [].

(** Task 1 waits, task 2 depends on it. *)
Definition setup : list Call :=
  [CallCreate (demo_input "k1" []); CallCreate (demo_input "k2" [1])].

Definition first_attempt : list Call :=
  [CallClaim demo_claim [] fine room 10; CallStartAttempt (demo_lease 1 "token-0") 10].

Definition retried : list Call :=
  [CallRecordAttemptResult (demo_failure 1 "token-0") demo_policy_retry 10;
   CallReconcile 10 unlocked fine room demo_policy_retry 10;
   CallReconcile 10 unlocked fine room demo_policy_retry 10].

Definition second_attempt : list Call :=
  [CallClaim demo_claim [] fine room 10; CallStartAttempt (demo_lease 2 "token-1") 10;
   CallRecordAttemptResult (demo_failure 2 "token-1") demo_policy_retry 10].

Definition world_setup : World := run setup world0.
Definition world_running : World := run (setup ++ first_attempt) world0.
Definition world_retry : World := run (setup ++ first_attempt ++ retried) world0.
Definition world_dead : World := run (setup ++ first_attempt ++ retried ++ second_attempt) world0.

(** ** They are reachable *)

Lemma demo_valid :
  Forall valid_call (setup ++ first_attempt ++ retried ++ second_attempt).
Proof. by repeat (apply Forall_cons; split; [vm_compute; auto|]). Defined.

Lemma run_reachable (calls : list Call) : Forall valid_call calls -> reachable (run calls world0).
Proof. intros Hv. exists world0, calls. by split_and!. Defined.

Lemma setup_valid : Forall valid_call setup.
Proof. by repeat (apply Forall_cons; split; [vm_compute; auto|]). Defined.

Lemma running_valid : Forall valid_call (setup ++ first_attempt).
Proof. by repeat (apply Forall_cons; split; [vm_compute; auto|]). Defined.

Lemma retry_valid : Forall valid_call (setup ++ first_attempt ++ retried).
Proof. by repeat (apply Forall_cons; split; [vm_compute; auto|]). Defined.

(** The row of a task. *)
Definition task_of (w : World) (id : Z) : Task :=
  default (new_task id 0 0 (demo_input "none" [])) (db_tasks (w_db w) !! id).

(** A task held for coordination, completed work, a redriven letter. *)
Definition held_input : PreparedCreate :=
  mkPreparedCreate (demo_request "k3" []) 1 "eng" "general.work" true (demo_digest "k3")
    StatusBlocked ReasonCodeCoordinationHold "held" 3 10 "human" "alice".

Definition world_held : World := run [CallCreate held_input] world0.

Definition finished : list Call :=
  [CallRecordAttemptResult
     (mkRecordAttemptResultCommand (demo_lease 1 "token-0")
        (mkAttemptResult OutcomeSucceeded "done" "")) demo_policy_retry 10;
   CallFinalize (mkFinalizeCommand 1 FinalCompleted "" "" "human" "alice") 10].

Definition world_done : World := run (setup ++ first_attempt ++ finished) world0.

Lemma held_valid : Forall valid_call [CallCreate held_input].
Proof. by repeat (apply Forall_cons; split; [vm_compute; auto|]). Defined.

Lemma done_valid : Forall valid_call (setup ++ first_attempt ++ finished).
Proof. by repeat (apply Forall_cons; split; [vm_compute; auto|]). Defined.

(** A run that succeeds with a result that passes a test. *)
Lemma ok_run {S A} (p : A -> bool) (m : Eff S A) (w : S) :
  match fst (m w) with Ok a => p a | Err _ => false end = true ->
  exists a w', m w = (Ok a, w') /\ p a = true.
Proof. destruct (m w) as [[a|e] w'] eqn:Hm; simpl; [|done]. intros Hp. by exists a, w'. Defined.
