(* ===== verification/StateProps.v ===== *)
(** * The history of one task

    What a run does to a task: the row stays, its identity stays, its status
    follows the state machine, and holds and terminal statuses are respected. *)

From stdpp Require Import base tactics list gmap strings sorting relations.
From Stdlib Require Import ZArith Lia.
From S2P Require Import Prelude GoLib TaskDomain Database StoreHelpers StoreMutate StoreCreate.
From S2P Require Import StoreQueue StoreOutbox StoreReconcile StoreRead StoreRun StoreSpec.
From S2P Require Import DependencyGraph LeaseInvariant TaskInvariant StoreRefine MutateRefine.
From S2P Require Import QueueRefine ReconcileRefine StoreMachine Scenario.

Local Open Scope Z_scope.

(** ** One step *)

(** What a step does to a row that is already there. *)
Inductive changed (release : bool) (t t' : Task) : Prop :=
| changed_not : t' = t -> changed release t t'
| changed_quiet : quiet t t' -> changed release t t'
| changed_moved to n : CanTransition (task_Status t) to = true ->
    hold_respected release t to -> moved n t to t' -> changed release t t'.

Lemma not_blocked_respects release t to :
  task_Status t <> StatusBlocked -> hold_respected release t to.
Proof.
  intros Hb Hh. unfold isCoordinationHeld in Hh.
  apply andb_true_iff in Hh as [Hh _]. by apply bool_decide_eq_true in Hh.
Qed.

Lemma has_lease_not_blocked t : has_lease (task_Status t) = true -> task_Status t <> StatusBlocked.
Proof. by destruct (task_Status t). Qed.

Lemma lookup_put {A} (m : gmap Z A) (i j : Z) (x y : A) (P : A -> Prop) :
  m !! i = Some x -> P x -> (j = i -> P y) -> exists z, <[j := y]> m !! i = Some z /\ P z.
Proof.
  intros Hi Hx Hy. destruct (decide (j = i)) as [->|Hne].
  - exists y. by rewrite lookup_insert_eq; auto.
  - exists x. by rewrite lookup_insert_ne.
Qed.

Lemma step_task release k d d' id t :
  step release k d d' -> db_tasks d !! id = Some t ->
  exists t', db_tasks d' !! id = Some t' /\ changed release t t'.
Proof.
  intros Hs Ht.
  assert (Hsame : changed release t t) by by apply changed_not.
  inversion Hs; subst; simpl; eauto; try (destruct letter; simpl);
    (apply (lookup_put _ _ _ t); [done|done|intros Heq]).
  - congruence.
  - subst. simplify_eq. by apply changed_quiet.
  - subst. simplify_eq. by eapply changed_moved.
  - subst. simplify_eq. eapply changed_moved; [|apply not_blocked_respects|done]; by match goal with Hst : task_Status t = _ |- _ => rewrite Hst end.
  - subst. simplify_eq. eapply changed_moved; [|apply not_blocked_respects|done]; by match goal with Hst : task_Status t = _ |- _ => rewrite Hst end.
  - subst. simplify_eq. eapply changed_moved; [done|apply not_blocked_respects, has_lease_not_blocked|done].
    done.
  - subst. simplify_eq. eapply changed_moved; [done|apply not_blocked_respects, has_lease_not_blocked|done].
    done.
Qed.

(** A property of a row that every change keeps holds after any run. *)
Lemma steps_task release (P : Task -> Prop) d d' id :
  (forall t t', P t -> changed release t t' -> P t') ->
  steps release d d' ->
  (exists t, db_tasks d !! id = Some t /\ P t) -> exists t, db_tasks d' !! id = Some t /\ P t.
Proof.
  intros HP Hs. induction Hs as [d|d d1 d2 [k Hs] _ IH]; [done|].
  intros (t & Ht & Hp). apply IH.
  destruct (step_task _ _ _ _ _ _ Hs Ht) as (t' & Ht' & Hc). eauto.
Qed.

(** ** Evolution *)

(** What never goes back: the identity is kept, the version grows, the status
    moves along transitions. *)
Record evolves (t t' : Task) : Prop := {
  ev_imm : immutable t t';
  ev_version : task_Version t <= task_Version t';
  ev_status : rtc (fun s s' => CanTransition s s' = true) (task_Status t) (task_Status t') }.

#[export] Instance evolves_preorder : PreOrder evolves.
Proof.
  split.
  - intros t. split; [done|lia|done].
  - intros x y z [] []. split; [by etransitivity|lia|by etransitivity].
Qed.

Lemma changed_evolves release t t' : changed release t t' -> evolves t t'.
Proof.
  intros [->|[Him Hst _ _ Hv _ _]|to n Hc _ [Him Hst _ _ Hv _]]; [done|..].
  - split; [done|done|]. by rewrite Hst.
  - split; [done|lia|]. rewrite Hst. by apply rtc_once.
Qed.

(** ** Terminal rows *)

Definition same_or_classified (t t' : Task) : Prop :=
  t' = t \/ (task_TaskClass t = TaskClassLegacyUnspecified
             /\ exists class, t' = task_classified class t).

Lemma changed_terminal release (t0 t t' : Task) :
  Terminal (task_Status t0) = true -> same_or_classified t0 t -> changed release t t' ->
  same_or_classified t0 t'.
Proof.
  intros Hterm Hs Hc.
  assert (Ht : Terminal (task_Status t) = true).
  { destruct Hs as [->|(_ & class & ->)]; done. }
  destruct Hc as [->|[_ _ _ _ _ _ Hq]|to n Hcan]; [done|..].
  - destruct (Hq Ht) as (class & Hl & ->). destruct Hs as [->|(Hl0 & class0 & ->)]; right.
    + eauto.
    + split; [done|]. exists class. done.
  - apply CanTransition_not_terminal in Hcan. congruence.
Qed.

(** ** Held rows *)

Definition held_or_over (t : Task) : Prop :=
  isCoordinationHeld t = true \/ task_Status t = StatusRejected \/ task_Status t = StatusCancelled.

Lemma changed_held (t t' : Task) : held_or_over t -> changed false t t' -> held_or_over t'.
Proof.
  intros Ho Hc. destruct Hc as [->|[_ Hst _ Hh _ _ _]|to n Hcan Hr [_ Hst _ _ _ _]]; [done|..].
  - unfold held_or_over. by rewrite Hh, Hst.
  - destruct Ho as [Hh|[Ho|Ho]].
    + right. rewrite Hst. by destruct (Hr Hh) as [|].
    + apply CanTransition_not_terminal in Hcan. by rewrite Ho in Hcan.
    + apply CanTransition_not_terminal in Hcan. by rewrite Ho in Hcan.
Qed.

(** ** The journals *)

(** Events and audit rows are only ever added, and in equal number. *)
Record appended (d d' : DB) : Prop := {
  ap_logs : exists es rows, db_events d' = db_events d ++ es /\ db_audit d' = db_audit d ++ rows
    /\ length es = length rows;
  ap_evidence : db_evidence d ⊆ db_evidence d' }.

#[export] Instance appended_preorder : PreOrder appended.
Proof.
  split.
  - intros d. split; [|done]. exists [], []. by rewrite !app_nil_r.
  - intros d1 d2 d3 [(es & rs & He & Hr & Hl) Hev] [(es' & rs' & He' & Hr' & Hl') Hev'].
    split; [|by etransitivity]. exists (es ++ es'), (rs ++ rs').
    rewrite He', He, Hr', Hr, !length_app, Hl, Hl', !app_assoc. done.
Qed.

Lemma step_appended release k d d' : step release k d d' -> appended d d'.
Proof.
  assert (Hone : forall e a d1 d2, db_events d2 = db_events d1 ++ [e] ->
            db_audit d2 = db_audit d1 ++ [a] -> db_evidence d2 = db_evidence d1 ->
            appended d1 d2).
  { intros e a d1 d2 He Ha Hev. split; [by exists [e], [a]|by rewrite Hev]. }
  assert (Hnone : forall d1 d2, db_events d2 = db_events d1 -> db_audit d2 = db_audit d1 ->
            db_evidence d1 ⊆ db_evidence d2 -> appended d1 d2).
  { intros d1 d2 He Ha Hev. split; [|done]. exists [], []. by rewrite !app_nil_r. }
  intros Hs. inversion Hs; subst;
    try (destruct letter); first [by eapply Hone|apply Hnone; [done|done|]]; try done.
  simpl. by apply insert_subseteq.
Qed.

Lemma steps_appended release d d' : steps release d d' -> appended d d'.
Proof.
  induction 1 as [d|d d1 d2 [k Hs] _ IH]; [reflexivity|].
  etransitivity; [by eapply step_appended|done].
Qed.

(** ** Relations of databases *)

(** Every row is still there, related to what it was. *)
Definition each_task (R : relation Task) (d d' : DB) : Prop :=
  forall id t, db_tasks d !! id = Some t -> exists t', db_tasks d' !! id = Some t' /\ R t t'.

#[export] Instance each_task_preorder (R : relation Task) `{PreOrder Task R} :
  PreOrder (each_task R).
Proof.
  split.
  - intros d id t Ht. by exists t.
  - intros d1 d2 d3 H12 H23 id x Hx. destruct (H12 _ _ Hx) as (y & Hy & Hxy).
    destruct (H23 _ _ Hy) as (z & Hz & Hyz). exists z. split; [done|by etransitivity].
Qed.

(** A row that has a property keeps it. *)
Definition keeps (P : Task -> Prop) : relation Task := fun t t' => P t -> P t'.

#[export] Instance keeps_preorder (P : Task -> Prop) : PreOrder (keeps P).
Proof. split; unfold keeps; [intros t|intros x y z]; tauto. Qed.

Lemma steps_each_task release (R : relation Task) `{PreOrder Task R} d d' :
  (forall t t', changed release t t' -> R t t') -> steps release d d' -> each_task R d d'.
Proof.
  intros HR Hs id t Ht. eapply (steps_task release (R t)); [|exact Hs|by exists t].
  intros x y Hx Hc. etransitivity; [exact Hx|by apply HR].
Qed.

(** ** Properties of every reachable state

    The refinement of the abstract machine by every call of the store, and what
    it gives in the states a run reaches: leases, attempts, journal, dead
    letters, requirements, dependencies, outbox, and the history of a task. *)


Section State.
Context `{Env}.

(** ** Shared lemmas *)

(** What holds along every sequence of steps holds along a run. *)
Lemma run_rel (R : DB -> DB -> Prop) `{PreOrder DB R} (ok : Call -> Prop) (calls : list Call)
    (w : World) :
  (forall c d d', ok c -> steps (releases c) d d' -> R d d') ->
  Forall valid_call calls -> Forall ok calls -> reachable w ->
  R (w_db w) (w_db (run calls w)).
Proof.
  intros HR Hv Hok. revert w Hv. induction Hok as [|c calls Hc _ IH]; intros w Hv Hw; [done|].
  apply Forall_cons in Hv as [Hvc Hv].
  transitivity (w_db (exec c w)).
  - eapply HR; [exact Hc|]. apply exec_steps; [done|by apply reachable_Inv].
  - apply IH; [done|by apply reachable_exec].
Qed.

Lemma live_attempt_last (d : DB) (a : Attempt) (k : Z) :
  Inv d -> db_attempts d !! k = Some a -> attempt_live a = true ->
  exists t, db_tasks d !! attempt_TaskID a = Some t /\ has_lease (task_Status t) = true
    /\ attempt_Ordinal a = task_AttemptCount t.
Proof.
  intros Hinv Ha Hl. pose proof (inv_leases _ Hinv) as [Hlease _].
  destruct (lk_live _ _ _ Hlease _ _ Ha Hl) as (lk & r & Hr & Hact & Hatt).
  destruct (lk_active _ _ _ Hlease _ _ Hr Hact) as (t & a' & Ht & Hs & Ha' & Htask & _ & Hord).
  rewrite Hatt, Ha in Ha'. injection Ha' as <-. rewrite <- Htask in Ht. eauto.
Qed.

Lemma attempts_NoDup (d : DB) (id : Z) :
  Inv d -> NoDup (attempt_Ordinal <$> rows (fun a => attempt_TaskID a =? id) (db_attempts d)).
Proof.
  intros Hinv. pose proof (inv_leases _ Hinv) as [_ [_ Hu _]].
  pose proof (ky_attempt _ (inv_keys _ Hinv)) as Hid.
  pose proof (rows_NoDup attempt_ID (fun a => attempt_TaskID a =? id) (db_attempts d) Hid) as Hn.
  assert (Hinj : forall a b,
    a ∈ rows (fun a => attempt_TaskID a =? id) (db_attempts d) ->
    b ∈ rows (fun a => attempt_TaskID a =? id) (db_attempts d) ->
    attempt_Ordinal a = attempt_Ordinal b -> attempt_ID a = attempt_ID b).
  { intros a b (k & Ha & Hta)%rows_spec (k' & Hb & Htb)%rows_spec Hord.
    rewrite (Hid _ _ Ha), (Hid _ _ Hb). apply Z.eqb_eq in Hta, Htb.
    eapply Hu; [done|done|congruence|done]. }
  revert Hn Hinj. generalize (rows (fun a => attempt_TaskID a =? id) (db_attempts d)).
  induction l as [|a l IH]; intros Hn Hinj; [constructor|].
  rewrite fmap_cons in *. apply NoDup_cons in Hn as [Hni Hn]. apply NoDup_cons. split.
  - intros (b & Hab & Hb)%list_elem_of_fmap. apply Hni.
    rewrite (Hinj a b); [by apply list_elem_of_fmap_2|left|by right|done].
  - apply IH; [done|]. intros x y Hx Hy. apply Hinj; by right.
Qed.

Lemma attempts_ordinals (d : DB) (id : Z) (t : Task) :
  Inv d -> db_tasks d !! id = Some t ->
  attempt_Ordinal <$> attempts_of id d = seqZ 1 (task_AttemptCount t).
Proof.
  intros Hinv Ht. apply order_by_seqZ; [by apply attempts_NoDup|].
  pose proof (inv_leases _ Hinv) as [_ [Hta _ Hall]]. intros z. rewrite list_elem_of_fmap. split.
  - intros (a & -> & (k & Hk & Ha)%rows_spec). apply Z.eqb_eq in Ha.
    destruct (Hta _ _ Hk) as (t' & Ht' & Hord). rewrite Ha, Ht in Ht'. injection Ht' as <-. lia.
  - intros Hz. destruct (Hall id t z Ht) as (k & a & Hk & Ha & Hz'); [lia|].
    exists a. split; [done|]. apply rows_spec. exists k. by rewrite Z.eqb_eq.
Qed.

(** ** The refinement *)

(** C1: every call of the store, whatever it returns, takes a reachable state of
    the tables to another by a sequence of steps of the abstract task machine,
    and only ReleaseCoordinationHold may release a coordination hold. *)
Theorem every_call_refines (c : Call) (w : World) :
  valid_call c -> reachable w ->
  steps (releases c) (w_db w) (w_db (exec c w)) /\ Inv (w_db (exec c w)).
Proof.
  intros Hc Hw. apply reachable_Inv in Hw. split; [by apply exec_steps|by apply exec_Inv].
Qed.

(** ** Leases and attempts *)

(** C3: in every reachable state a task that is leased or running has exactly one
    active lease, whose attempt is the task's latest and is in the state the
    status asks for; a task in any other status has no active lease. *)
Theorem lease_is_exclusive (w : World) (id : Z) (t : Task) :
  reachable w -> db_tasks (w_db w) !! id = Some t ->
  if has_lease (task_Status t) then
    exists r a, active_leases id (w_db w) = [r]
      /\ db_attempts (w_db w) !! lease_AttemptID (row_Lease r) = Some a
      /\ attempt_TaskID a = id /\ attempt_State a = attempt_state_for (task_Status t)
      /\ attempt_Ordinal a = task_AttemptCount t
  else active_leases id (w_db w) = [].
Proof.
  intros Hw%reachable_Inv Ht. pose proof (inv_leases _ Hw) as [Hl _].
  destruct (has_lease (task_Status t)) eqn:Hs.
  - destruct (lk_holder _ _ _ Hl _ _ Ht Hs) as (k & r & Hr & Hact & Htask).
    destruct (lk_active _ _ _ Hl _ _ Hr Hact) as (t' & a & Ht' & _ & Ha & Hta & Hst & Hord).
    rewrite Htask in Ht', Hta. rewrite Ht in Ht'. injection Ht' as <-.
    exists r, a. split; [|done].
    assert (Hin : r ∈ active_leases id (w_db w)).
    { apply active_leases_spec. exists k. done. }
    pose proof (rows_NoDup (fun r => lease_ID (row_Lease r))
      (fun r => (lease_TaskID (row_Lease r) =? id)
         && bool_decide (lease_Status (row_Lease r) = LeaseActive)) (db_leases (w_db w))
      (ky_lease _ (inv_keys _ Hw))) as Hnd.
    fold (active_leases id (w_db w)) in Hnd.
    assert (Hone : forall x, x ∈ active_leases id (w_db w) -> x = r).
    { intros x Hx. apply active_leases_spec in Hx as (k' & Hk' & Hact' & Htask').
      assert (k' = k) as ->
        by (eapply (lk_unique _ _ _ Hl); [done|done|done|done|congruence]).
      congruence. }
    destruct (active_leases id (w_db w)) as [|x [|y l]].
    + by apply not_elem_of_nil in Hin.
    + f_equal. apply Hone. left.
    + rewrite (Hone x), (Hone y) in Hnd by (set_solver). exfalso.
      rewrite !fmap_cons in Hnd. apply NoDup_cons in Hnd as [Hni _]. apply Hni. left.
  - destruct (active_leases id (w_db w)) as [|r l] eqn:Hact; [done|]. exfalso.
    assert (Hin : r ∈ active_leases id (w_db w)) by (rewrite Hact; left).
    apply active_leases_spec in Hin as (k & Hk & Ha & Hid).
    destruct (lk_active _ _ _ Hl _ _ Hk Ha) as (t' & a & Ht' & Hs' & _).
    rewrite Hid, Ht in Ht'. congruence.
Qed.

(** In every reachable state ListAttempts gives a task's attempts numbered 1,
    2, ... up to its attempt count, which is within its maximum, and only the last
    of them can be live. *)
Lemma attempts_are_numbered (w : World) (id : Z) (t : Task) :
  reachable w -> db_tasks (w_db w) !! id = Some t ->
  exists l, ListAttempts id w = (Ok l, w)
    /\ attempt_Ordinal <$> l = seqZ 1 (task_AttemptCount t)
    /\ 0 <= task_AttemptCount t <= task_MaxAttempts t
    /\ forall a, a ∈ l -> attempt_live a = true ->
         attempt_Ordinal a = task_AttemptCount t /\ has_lease (task_Status t) = true.
Proof.
  intros Hw%reachable_Inv Ht. exists (attempts_of id (w_db w)). split; [done|].
  split; [by apply attempts_ordinals|]. split.
  { apply tasks_check_count. by eapply ky_tcheck; [apply inv_keys|]. }
  intros a Ha Hl. unfold attempts_of in Ha.
  apply elem_of_order_by, rows_spec in Ha as (k & Hk & Hid). apply Z.eqb_eq in Hid.
  destruct (live_attempt_last _ _ _ Hw Hk Hl) as (t' & Ht' & Hs & Ho).
  rewrite Hid, Ht in Ht'. by injection Ht' as <-.
Qed.

(** ** The journal *)

(** C36: in every reachable state the events of a task are numbered 1, 2, ... in
    the order they were written, ListEvents gives the first of them, and replayed
    through the state machine they end in the task's status. *)
Theorem journal_replays (w : World) (id n : Z) :
  reachable w ->
  let l := events_of id (db_events (w_db w)) in
  ListEvents id n w = (Ok (take (Z.to_nat n) l), w)
  /\ event_Sequence <$> l = seqZ 1 (Z.of_nat (length l))
  /\ replay l = Some (task_Status <$> db_tasks (w_db w) !! id).
Proof.
  intros Hw%reachable_Inv l. pose proof (inv_journal _ Hw) as [Hr Hs].
  split; [|split; [apply Hs|apply Hr]].
  unfold ListEvents, bind, get_db, ret, page. rewrite drop_0. fold l.
  change (filter _ (db_events (w_db w))) with l.
  by rewrite (order_by_id_same event_Sequence l 1 (Hs id)).
Qed.

(** ** Dead letters, requirements, dependencies *)

(** In every reachable state a task is dead-lettered exactly when it has a
    dead letter, it has only one, its attempts are used up, and a redriven letter
    names a successor that exists, is another task, and belongs to no other
    letter. *)
Lemma dead_letters_match (w : World) :
  reachable w ->
  let d := w_db w in
  (forall id t, db_tasks d !! id = Some t ->
     (task_Status t = StatusDeadLetter
      <-> exists k l, db_dead_letters d !! k = Some l /\ dead_TaskID l = id))
  /\ (forall k l, db_dead_letters d !! k = Some l ->
        exists t, db_tasks d !! dead_TaskID l = Some t
          /\ task_AttemptCount t = task_MaxAttempts t
          /\ forall s, dead_RedriveTaskID l = Some s -> is_Some (db_tasks d !! s)
               /\ s <> dead_TaskID l)
  /\ (forall k k' l l', db_dead_letters d !! k = Some l -> db_dead_letters d !! k' = Some l' ->
        dead_TaskID l = dead_TaskID l'
        \/ (is_Some (dead_RedriveTaskID l) /\ dead_RedriveTaskID l = dead_RedriveTaskID l') ->
        k = k').
Proof.
  intros Hw%reachable_Inv. cbv zeta. pose proof (inv_dead _ Hw) as [Dt Du Dl Ds Do]. split_and!.
  - intros id t Ht. split; [by apply Dl|]. intros (k & l & Hk & <-).
    destruct (Dt _ _ Hk) as (t' & Ht' & Hst & _). congruence.
  - intros k l Hk. destruct (Dt _ _ Hk) as (t & Ht & _ & Hc). eauto.
  - intros k k' l l' Hk Hk' [Heq|[[s Hs] Heq]]; [by eapply Du|].
    eapply Do; [done|done|done|congruence].
Qed.

(** In every reachable state the required requirements of a completed task
    are all satisfied. *)
Lemma completed_means_satisfied (w : World) (id : Z) (t : Task) :
  reachable w -> db_tasks (w_db w) !! id = Some t -> task_Status t = StatusCompleted ->
  unsatisfied id (w_db w) = 0.
Proof.
  intros Hw%reachable_Inv Ht Hs. apply unsatisfied_zero. intros k r Hk Hr Hreq.
  by eapply (inv_completed _ Hw).
Qed.

(** In every reachable state the dependency graph has no cycle, no duplicate
    edge and only edges between tasks that exist. *)
Lemma dependencies_are_acyclic (w : World) :
  reachable w ->
  acyclic (db_dependencies (w_db w)) /\ NoDup (db_dependencies (w_db w))
  /\ forall x y, (x, y) ∈ db_dependencies (w_db w) ->
       is_Some (db_tasks (w_db w) !! x) /\ is_Some (db_tasks (w_db w) !! y)
       /\ x ∉ dependency_graph (db_dependencies (w_db w)) y.
Proof.
  intros Hw%reachable_Inv. pose proof (inv_deps _ Hw) as [He Hn Ha].
  split; [done|]. split; [done|]. intros x y Hxy. destruct (He x y Hxy) as [Hx Hy].
  split; [done|]. split; [done|]. rewrite dependency_graph_spec. intros Hyx.
  apply (Ha x). by eapply tc_l.
Qed.

(** ** The outbox *)

(** In every reachable state an outbox row was claimed at most as often as
    its maximum allows, a pending row can still be claimed, and exactly the
    claimed rows carry a consumer, an expiry and a token hash. *)
Lemma outbox_stays_in_budget (w : World) (id : Z) (r : OutboxRow) :
  reachable w -> db_outbox (w_db w) !! id = Some r ->
  let o := row_Outbox r in
  0 <= outbox_AttemptCount o <= outbox_MaxAttempts o
  /\ (outbox_Status o = OutboxPending -> outbox_AttemptCount o < outbox_MaxAttempts o)
  /\ (outbox_Status o = OutboxClaimed <-> is_Some (row_ClaimTokenHash r))
  /\ (outbox_Status o = OutboxClaimed <-> is_Some (outbox_ClaimedBy o))
  /\ (outbox_Status o = OutboxClaimed <-> is_Some (outbox_ClaimExpiresAt o))
  /\ (outbox_Status o = OutboxPublished <-> is_Some (outbox_PublishedAt o)).
Proof.
  intros Hw%reachable_Inv Hr o. pose proof (inv_outbox _ Hw) as [_ Hc Hb].
  destruct (Hb _ _ Hr) as [H1 H2]. split; [done|]. split; [done|].
  specialize (Hc _ _ Hr). unfold outbox_check in Hc. fold o in Hc.
  rewrite !andb_true_iff in Hc. destruct Hc as [[_ Hc] Hp].
  assert (Hsome : forall A (x : option A), is_some x = true <-> is_Some x).
  { intros A [x|]; simpl; split; (done || by eexists || by intros [? ?]). }
  assert (Hnone : forall A (x : option A), negb (is_some x) = true <-> ~ is_Some x).
  { intros A x. rewrite negb_true_iff, <- Hsome. by destruct (is_some x). }
  apply Bool.eqb_prop in Hp. rewrite <- (Hsome _ (outbox_PublishedAt o)), <- Hp.
  rewrite bool_decide_eq_true.
  destruct (bool_decide_reflect (outbox_Status o = OutboxClaimed)) as [Hst|Hst];
    rewrite !andb_true_iff, ?Hsome, ?Hnone in Hc; tauto.
Qed.

(** ** The history of a task *)

(** Along any run a task is never deleted, its identity columns never change,
    its version never decreases and its status moves only along the transitions
    of the state machine. *)
Lemma tasks_evolve (w : World) (calls : list Call) (id : Z) (t : Task) :
  reachable w -> Forall valid_call calls -> db_tasks (w_db w) !! id = Some t ->
  exists t', db_tasks (w_db (run calls w)) !! id = Some t' /\ evolves t t'.
Proof.
  intros Hw Hv Ht.
  eapply (run_rel (each_task evolves) (fun _ => True)); [|done|by apply Forall_true|done|done].
  intros c d d' _. apply steps_each_task; [apply _|]. apply changed_evolves.
Qed.

(** a task in a terminal status never changes again, except that a task from
    before task classes may be given its class once. *)
Lemma terminal_is_final (w : World) (calls : list Call) (id : Z) (t : Task) :
  reachable w -> Forall valid_call calls -> db_tasks (w_db w) !! id = Some t ->
  Terminal (task_Status t) = true ->
  exists t', db_tasks (w_db (run calls w)) !! id = Some t'
    /\ (t' = t \/ (task_TaskClass t = TaskClassLegacyUnspecified
                   /\ exists class, t' = task_classified class t)).
Proof.
  intros Hw Hv Ht Hterm. revert w Hw Ht. induction calls as [|c calls IH] using rev_ind.
  { intros w Hw Ht. exists t. auto. }
  apply Forall_app in Hv as [Hv [Hc _]%Forall_cons]. intros w Hw Ht.
  destruct (IH Hv w Hw Ht) as (t1 & Ht1 & Hs1). unfold run. rewrite foldl_app. simpl.
  fold (run calls w).
  assert (Hreach : Inv (w_db (run calls w))) by (apply run_Inv; [done|by apply reachable_Inv]).
  eapply (steps_task (releases c) (same_or_classified t));
    [|exact (exec_steps c (run calls w) Hc Hreach)|by exists t1].
  intros x y. by apply changed_terminal.
Qed.

(** No call but ReleaseCoordinationHold publishes a task held for
    coordination: along any run without one the task is still blocked with that
    reason, or was rejected or cancelled. *)
Lemma holds_are_respected (w : World) (calls : list Call) (id : Z) (t : Task) :
  reachable w -> Forall valid_call calls -> Forall (fun c => releases c = false) calls ->
  db_tasks (w_db w) !! id = Some t -> isCoordinationHeld t = true ->
  exists t', db_tasks (w_db (run calls w)) !! id = Some t'
    /\ (isCoordinationHeld t' = true \/ task_Status t' = StatusRejected
        \/ task_Status t' = StatusCancelled).
Proof.
  intros Hw Hv Hrel Ht Hh.
  assert (Hk : each_task (keeps held_or_over) (w_db w) (w_db (run calls w))).
  { eapply (run_rel _ (fun c => releases c = false)); [|done..].
    intros c d d' Hc Hs. rewrite Hc in Hs. eapply steps_each_task; [apply _| |exact Hs].
    intros x y Hxy Hx. by eapply changed_held. }
  destruct (Hk _ _ Ht) as (t' & Ht' & Hkeep). exists t'. split; [done|]. apply Hkeep. by left.
Qed.

(** The event journal and the audit log are append-only, they grow together,
    and recorded evidence is never changed or removed. *)
Lemma logs_are_append_only (w : World) (calls : list Call) :
  reachable w -> Forall valid_call calls ->
  let d := w_db w in let d' := w_db (run calls w) in
  (exists es rows, db_events d' = db_events d ++ es /\ db_audit d' = db_audit d ++ rows
     /\ length es = length rows)
  /\ db_evidence d ⊆ db_evidence d'.
Proof.
  intros Hw Hv d d'. enough (Ha : appended d d') by (by destruct Ha).
  eapply (run_rel appended (fun _ => True)); [|done|by apply Forall_true|done].
  intros c x y _. apply steps_appended.
Qed.

End State.

(** ** The theorems at concrete states *)

Local Existing Instance demo.

Lemma every_call_refines_witness :
  steps false (w_db world_running)
    (w_db (exec (CallReconcile 10 unlocked fine room demo_policy_retry 10) world_running)).
Proof.
  exact (proj1 (every_call_refines (CallReconcile 10 unlocked fine room demo_policy_retry 10)
    world_running I (run_reachable _ running_valid))).
Defined.

Lemma lease_is_exclusive_witness :
  exists r a, active_leases 1 (w_db world_running) = [r]
    /\ db_attempts (w_db world_running) !! lease_AttemptID (row_Lease r) = Some a
    /\ attempt_TaskID a = 1 /\ attempt_State a = AttemptRunning /\ attempt_Ordinal a = 1.
Proof.
  exact (lease_is_exclusive world_running 1 (task_of world_running 1)
    (run_reachable _ running_valid) ltac:(vm_compute; reflexivity)).
Defined.

Lemma attempts_are_numbered_witness :
  exists l, ListAttempts 1 world_dead = (Ok l, world_dead)
    /\ attempt_Ordinal <$> l = seqZ 1 2
    /\ 0 <= 2 <= 2
    /\ forall a, a ∈ l -> attempt_live a = true -> attempt_Ordinal a = 2 /\ false = true.
Proof.
  exact (attempts_are_numbered world_dead 1 (task_of world_dead 1)
    (run_reachable _ demo_valid) ltac:(vm_compute; reflexivity)).
Defined.

Lemma journal_replays_witness :
  replay (events_of 1 (db_events (w_db world_dead))) = Some (Some StatusDeadLetter).
Proof. exact (proj2 (proj2 (journal_replays world_dead 1 100 (run_reachable _ demo_valid)))). Defined.

Lemma dead_letters_match_witness :
  exists k l, db_dead_letters (w_db world_dead) !! k = Some l /\ dead_TaskID l = 1.
Proof.
  apply (proj1 (dead_letters_match world_dead (run_reachable _ demo_valid)) 1
    (task_of world_dead 1)); vm_compute; reflexivity.
Defined.

Lemma completed_means_satisfied_witness : unsatisfied 1 (w_db world_done) = 0.
Proof.
  apply (completed_means_satisfied world_done 1 (task_of world_done 1)
    (run_reachable _ done_valid)); vm_compute; reflexivity.
Defined.

Lemma dependencies_are_acyclic_witness :
  db_dependencies (w_db world_setup) = [(2, 1)] /\ acyclic (db_dependencies (w_db world_setup)).
Proof.
  split; [vm_compute; reflexivity|].
  exact (proj1 (dependencies_are_acyclic world_setup (run_reachable _ setup_valid))).
Defined.

Lemma outbox_stays_in_budget_witness :
  exists r, db_outbox (w_db world_setup) !! 1 = Some r
    /\ (outbox_Status (row_Outbox r) = OutboxPending ->
        outbox_AttemptCount (row_Outbox r) < outbox_MaxAttempts (row_Outbox r)).
Proof.
  eexists. split; [vm_compute; reflexivity|].
  exact (proj1 (proj2 (outbox_stays_in_budget world_setup 1 _ (run_reachable _ setup_valid)
    ltac:(vm_compute; reflexivity)))).
Defined.

Lemma tasks_evolve_witness :
  exists t', db_tasks (w_db (run (first_attempt ++ retried) world_setup)) !! 1 = Some t'
    /\ evolves (task_of world_setup 1) t'.
Proof.
  apply (tasks_evolve world_setup (first_attempt ++ retried) 1 (task_of world_setup 1)
    (run_reachable _ setup_valid)); [|vm_compute; reflexivity].
  by repeat (apply Forall_cons; split; [exact I|]).
Defined.

Lemma terminal_is_final_witness :
  exists t', db_tasks (w_db (run first_attempt world_dead)) !! 1 = Some t'
    /\ (t' = task_of world_dead 1
        \/ (task_TaskClass (task_of world_dead 1) = TaskClassLegacyUnspecified
           /\ exists class, t' = task_classified class (task_of world_dead 1))).
Proof.
  apply (terminal_is_final world_dead first_attempt 1 (task_of world_dead 1)
    (run_reachable _ demo_valid)); [|vm_compute; reflexivity..].
  by repeat (apply Forall_cons; split; [exact I|]).
Defined.

Lemma holds_are_respected_witness :
  exists t', db_tasks (w_db (run (first_attempt ++ retried) world_held)) !! 1 = Some t'
    /\ (isCoordinationHeld t' = true \/ task_Status t' = StatusRejected
        \/ task_Status t' = StatusCancelled).
Proof.
  apply (holds_are_respected world_held (first_attempt ++ retried) 1 (task_of world_held 1)
    (run_reachable _ held_valid)); [| |vm_compute; reflexivity..].
  - by repeat (apply Forall_cons; split; [exact I|]).
  - by repeat (apply Forall_cons; split; [reflexivity|]).
Defined.

Lemma logs_are_append_only_witness :
  db_evidence (w_db world_setup) ⊆ db_evidence (w_db (run (first_attempt ++ retried) world_setup)).
Proof.
  apply (logs_are_append_only world_setup (first_attempt ++ retried)
    (run_reachable _ setup_valid)).
  by repeat (apply Forall_cons; split; [exact I|]).
Defined.

(** ** Failures

    A call that returns an error leaves the tables as they were, but for the
    targeted claim that blocks the task it cannot start. *)


Section Failures.
Context `{Env}.

Lemma outcome_err {A} (m : M A) (e : Error) (w w' : World) :
  outcome m w = (Some e, w') -> m w = (Err e, w').
Proof. unfold outcome. destruct (m w) as [[a|e'] w1]; congruence. Qed.

Lemma withTx_unchanged {A} (m : M A) (e : Error) (w w' : World) :
  outcome (withTx m) w = (Some e, w') -> w_db w' = w_db w.
Proof. intros Hm%outcome_err. by eapply withTx_err. Qed.

Lemma PruneOutbox_unchanged (r : OutboxPruneRequest) (locked : list Z) (e : Error)
    (w w' : World) :
  outcome (PruneOutbox r locked) w = (Some e, w') -> w_db w' = w_db w.
Proof.
  intros Hm%outcome_err. unfold PruneOutbox in Hm. destruct (prune_statuses r); [done|].
  destruct (prune_DryRun r); [done|]. by eapply withTx_err.
Qed.

(** A task blocked instead of claimed. *)
Definition blocked_at (id : Z) (w : World) : Prop :=
  exists t, db_tasks (w_db w) !! id = Some t /\ task_Status t = StatusBlocked.

Lemma block_row (t : Task) (et rc rs at_ ai : string) (p : Payload) (n : Z) (row : Task)
    (w w' : World) :
  stored w t -> transitionTask t StatusBlocked et rc rs at_ ai p n w = (Ok row, w') ->
  stored w' row /\ task_Status row = StatusBlocked /\ task_ID row = task_ID t.
Proof.
  intros Hst Hm. apply transitionTask_ok in Hm
    as (_ & t0 & e & o & a & Ht0 & _ & [Him Hs _ _ _ _] & _ & _ & _ & _ & Hw).
  unfold stored in *. rewrite Hst in Ht0. injection Ht0 as <-.
  rewrite (imm_ID _ _ Him), Hw. simpl. by rewrite lookup_insert_eq.
Qed.

Lemma assignee_blocks (t : Task) (c : AssigneeCheck) (n : Z) (u : unit) (w w' : World) :
  stored w t -> block_for_assignee t c n w = (Ok u, w') -> blocked_at (task_ID t) w'.
Proof.
  intros Hst Hm. unfold block_for_assignee in Hm. next Hm w1 H1. apply ret_ok in Hm as [_ ->].
  eapply block_row in H1 as (Hr & Hs & Hid); [|done]. unfold stored in Hr. rewrite Hid in Hr.
  by eexists.
Qed.

Lemma capacity_blocks (t : Task) (c : CapacityCheck) (n : Z) (u : unit) (w w' : World) :
  stored w t -> block_for_capacity t c n w = (Ok u, w') -> blocked_at (task_ID t) w'.
Proof.
  intros Hst Hm. unfold block_for_capacity, blocked_at in *. next Hm w1 H1.
  eapply block_row in H1 as (Hr & Hs & Hid); [|done]. unfold stored in Hr.
  rewrite <- Hid in *. destruct (IsZero _).
  - apply ret_ok in Hm as [_ ->]. by eexists.
  - next Hm w2 H2. apply ret_ok in Hm as [_ ->]. apply update_task_ok in H2.
    destruct r0 as [row|].
    + destruct H2 as (t0 & Ht0 & _ & -> & _ & ->). eexists. simpl.
      rewrite lookup_insert_eq. split; [done|]. simpl. congruence.
    + destruct H2 as [_ H2]. by specialize (H2 _ Hr).
Qed.

(** A targeted claim that commits with an error has blocked its task. *)
Lemma ClaimSpecific_tx_err (id : Z) (request : ClaimRequest) (locked : list Z)
    (validate : Task -> res AssigneeCheck) (capacity : Task -> res CapacityCheck) (n : Z)
    (e : Error) (w w' : World) :
  Inv (w_db w) ->
  ClaimSpecific_tx id request locked validate capacity n w = (Ok (Err e), w') ->
  (e = ErrAssigneeUnavailable \/ e = ErrNoCapacity) /\ blocked_at id w'.
Proof.
  intros Hinv Hm. unfold ClaimSpecific_tx in Hm. skip Hm.
  next Hm w1 H1. apply clock_timestamp_ok in H1 as [_ H1].
  destruct (db_tasks (w_db w) !! id) as [t|] eqn:Ht; [|by apply throw_ok in Hm].
  pose proof (ky_task _ (inv_keys _ Hinv) _ _ Ht) as Hid.
  assert (Hst : stored w1 t) by (unfold stored; by rewrite Hid, H1).
  skip Hm. next Hm w2 H2. apply blockingAncestor_ok in H2 as ->.
  match type of Hm with match ?b with _ => _ end _ = _ => destruct b end;
    [by apply throw_ok in Hm|].
  next Hm w2 H2. apply lift_ok in H2 as [_ ->]. destruct (negb (assignee_Available _)).
  { next Hm w2 H2. apply ret_ok in Hm as [[= ->] ->]. split; [by left|].
    rewrite <- Hid. by eapply assignee_blocks. }
  next Hm w2 H2. apply lift_ok in H2 as [_ ->]. destruct (negb (capacity_Available _)).
  { next Hm w2 H2. apply ret_ok in Hm as [[= ->] ->]. split; [by right|].
    rewrite <- Hid. by eapply capacity_blocks. }
  next Hm w2 H2. by apply ret_ok in Hm as [? _].
Qed.

(** a call that returns an error leaves every table as it was; the one
    exception is a targeted claim of a task whose assignee or capacity is missing,
    which reports that and leaves the task blocked. *)
Lemma failed_calls_roll_back (c : Call) (e : Error) (w w' : World) :
  reachable w -> perform c w = (Some e, w') ->
  w_db w' = w_db w
  \/ (exists id request locked validate capacity n,
        c = CallClaimSpecific id request locked validate capacity n
        /\ (e = ErrAssigneeUnavailable \/ e = ErrNoCapacity) /\ blocked_at id w').
Proof.
  intros Hw%reachable_Inv Hm.
  destruct c; cbn [perform] in Hm; try (left; by eapply withTx_unchanged).
  2:{ left. by eapply PruneOutbox_unchanged. }
  apply outcome_err in Hm. unfold ClaimSpecific, bind in Hm.
  destruct (withTx _ w) as [[[item|e']|e'] w1] eqn:Htx; unfold lift in Hm.
  - done.
  - injection Hm as -> ->. right. do 6 eexists. split; [done|].
    apply withTx_begin in Htx. by eapply ClaimSpecific_tx_err in Htx.
  - injection Hm as -> ->. left. by eapply withTx_err.
Qed.

End Failures.

(** ** The theorem at a concrete state *)

Local Existing Instance demo.

(** A command with the wrong token. *)
Lemma failed_calls_roll_back_witness :
  w_db (exec (CallStartAttempt (demo_lease 1 "wrong") 10) world_running) = w_db world_running.
Proof.
  destruct (failed_calls_roll_back (CallStartAttempt (demo_lease 1 "wrong") 10)
    ErrInvalidTransition world_running
    (exec (CallStartAttempt (demo_lease 1 "wrong") 10) world_running)
    (run_reachable _ running_valid)) as [Hdb|(? & ? & ? & ? & ? & ? & Hc & _)].
  - vm_compute. reflexivity.
  - exact Hdb.
  - discriminate.
Defined.
