(* ===== verification/AncestryProps.v ===== *)
(** * Ancestors of a task

    internal/tasks/postgres/ancestry.go: the recursive query as an inductive
    relation, and the agreement of the SQL predicate of the claim query with the
    check the store makes in Go. *)

From stdpp Require Import base tactics list gmap strings sorting relations.
From Stdlib Require Import ZArith Lia.
From S2P Require Import Prelude GoLib TaskDomain Database StoreHelpers StoreCreate StoreQueue.
From S2P Require Import TaskValidation StoreRun StoreSpec TaskInvariant StoreRefine.
From S2P Require Import StoreMachine Scenario.

Local Open Scope Z_scope.

(** [a] is [n] levels above a task with this causation, within the organization. *)
Inductive ancestor_at (organization : string) (tasks : gmap Z Task)
    : nat -> option string -> Task -> Prop :=
| ancestor_parent causation id a :
    parentOf causation = Ok (Some id) -> tasks !! id = Some a ->
    task_OrganizationID a = organization ->
    ancestor_at organization tasks 1 causation a
| ancestor_above n causation id p a :
    parentOf causation = Ok (Some id) -> tasks !! id = Some p ->
    task_OrganizationID p = organization ->
    ancestor_at organization tasks n (task_CausationID p) a ->
    ancestor_at organization tasks (S n) causation a.

(** ** The recursive query *)

Lemma ancestor_chain_spec (fuel : nat) (org : string) (tasks : gmap Z Task)
    (c : option string) (l : list Task) (a : Task) :
  ancestor_chain fuel org tasks c = Ok l ->
  a ∈ l <-> exists n, (n <= fuel)%nat /\ ancestor_at org tasks n c a.
Proof.
  revert c l. induction fuel as [|fuel IH]; intros c l; simpl.
  { intros [= <-]. split; [intros H; by apply not_elem_of_nil in H|].
    intros (n & Hn & H). inversion H; lia. }
  intros (parent & Hp & Hl)%rbind_ok. destruct parent as [id|].
  2:{ injection Hl as <-. split; [intros H; by apply not_elem_of_nil in H|].
      intros (n & _ & H). inversion H; congruence. }
  destruct (tasks !! id) as [p|] eqn:Hid.
  2:{ injection Hl as <-. split; [intros H; by apply not_elem_of_nil in H|].
      intros (n & _ & H). inversion H; congruence. }
  case_bool_decide as Horg.
  2:{ injection Hl as <-. split; [intros H; by apply not_elem_of_nil in H|].
      intros (n & _ & H). inversion H; congruence. }
  apply rbind_ok in Hl as (rest & Hrest & [= <-]). specialize (IH _ _ Hrest).
  rewrite elem_of_cons, IH. split.
  - intros [->|(n & Hn & Ha)].
    + exists 1%nat. split; [lia|]. by eapply ancestor_parent.
    + exists (S n). split; [lia|]. by eapply ancestor_above.
  - intros (n & Hn & Ha). inversion Ha as [? id' ? Hp' Hid' _|m ? id' p' ? Hp' Hid' _ Ha']; subst;
      assert (id' = id) as -> by congruence.
    + left. congruence.
    + right. assert (p' = p) as -> by congruence. exists m. split; [lia|done].
Qed.

(** The only error is a causation whose digits do not fit a bigint. *)
Lemma ancestor_chain_err (fuel : nat) (org : string) (tasks : gmap Z Task)
    (c : option string) (e : Error) :
  ancestor_chain fuel org tasks c = Err e -> e = numeric_out_of_range.
Proof.
  revert c. induction fuel as [|fuel IH]; intros c; simpl; [discriminate|].
  intros [Hp|(parent & _ & Hl)]%rbind_err.
  - unfold parentOf in Hp. destruct c as [c|]; [|done].
    destruct (strip_prefix _ _); [|done]. destruct (run_regex _ _); [|done].
    destruct (_ <=? _); congruence.
  - destruct parent as [id|]; [|done]. destruct (tasks !! id); [|done].
    case_bool_decide; [|done]. apply rbind_err in Hl as [Hl|(? & _ & ?)]; [by eapply IH|done].
Qed.

(** ** The two readings of a blocking ancestor *)

Lemma BlockingAncestorStatuses_spec (s : Status) :
  Valid s = true ->
  bool_decide (StatusString s ∈ BlockingAncestorStatuses) = BlocksDescendantClaim s.
Proof. by destruct s. Qed.

Lemma tasks_check_valid (t : Task) : tasks_check t = true -> Valid (task_Status t) = true.
Proof. unfold tasks_check. rewrite !andb_true_iff. tauto. Qed.

Lemma ancestor_blocks_sql_spec (t : Task) :
  tasks_check t = true -> ancestor_blocks_sql t = Blocks (ancestor_block t).
Proof.
  intros Hv%tasks_check_valid. unfold ancestor_blocks_sql, Blocks. simpl.
  rewrite BlockingAncestorStatuses_spec by done. f_equal.
  unfold TaskClassScopesDescendants, NonScopingTaskClasses. f_equal.
  apply bool_decide_ext. by rewrite list_elem_of_singleton.
Qed.

(** The fold keeps the blocking ancestor with the least id. *)
Definition least_of (l : list AncestorBlock) (o : option AncestorBlock) : Prop :=
  match o with
  | None => forall a, a ∈ l -> Blocks a = false
  | Some b => b ∈ l /\ Blocks b = true
              /\ forall a, a ∈ l -> Blocks a = true -> ancestor_TaskID b <= ancestor_TaskID a
  end.

Lemma least_block_step (l : list AncestorBlock) (o : option AncestorBlock) (a : AncestorBlock) :
  least_of l o -> least_of (l ++ [a]) (least_block o a).
Proof.
  unfold least_block. intros Hl. destruct (Blocks a) eqn:Ha.
  - destruct o as [b|]; simpl in Hl |- *.
    + destruct Hl as (Hin & Hb & Hmin).
      destruct (ancestor_TaskID a <? ancestor_TaskID b) eqn:Hlt; simpl.
      * split; [set_solver|]. split; [done|]. intros x [Hx| ->%list_elem_of_singleton]%elem_of_app Hbx.
        -- specialize (Hmin x Hx Hbx). lia.
        -- lia.
      * split; [set_solver|]. split; [done|]. intros x [Hx| ->%list_elem_of_singleton]%elem_of_app Hbx.
        -- by apply Hmin.
        -- lia.
    + split; [set_solver|]. split; [done|]. intros x [Hx| ->%list_elem_of_singleton]%elem_of_app Hbx.
      * by rewrite Hl in Hbx.
      * lia.
  - destruct o as [b|]; simpl in Hl |- *.
    + destruct Hl as (Hin & Hb & Hmin). split; [set_solver|]. split; [done|].
      intros x [Hx| ->%list_elem_of_singleton]%elem_of_app Hbx; [by apply Hmin|congruence].
    + intros x [Hx| ->%list_elem_of_singleton]%elem_of_app; [by apply Hl|done].
Qed.

Lemma fold_least (l : list AncestorBlock) : least_of l (fold_left least_block l None).
Proof.
  assert (Hg : forall k l o, least_of k o -> least_of (k ++ l) (fold_left least_block l o)).
  { clear l. intros k l. revert k. induction l as [|a l IH]; intros k o Ho; simpl.
    - by rewrite app_nil_r.
    - rewrite cons_middle, app_assoc. by apply IH, least_block_step. }
  apply (Hg [] l None). simpl. intros a Ha. by apply not_elem_of_nil in Ha.
Qed.

Lemma least_of_some (l : list Task) (o : option AncestorBlock) :
  Forall (fun t => tasks_check t = true) l -> least_of (ancestor_block <$> l) o ->
  existsb ancestor_blocks_sql l = is_some o.
Proof.
  intros Hck Hl. apply eq_true_iff_eq. rewrite existsb_exists. setoid_rewrite <- list_elem_of_In.
  rewrite Forall_forall in Hck. split.
  - intros (a & Ha & Hb). rewrite ancestor_blocks_sql_spec in Hb by auto.
    destruct o as [b|]; [done|]. simpl in Hl. rewrite Hl in Hb; [done|].
    by apply list_elem_of_fmap_2.
  - destruct o as [b|]; [|done]. intros _. destruct Hl as (Hin & Hb & _).
    apply list_elem_of_fmap in Hin as (a & -> & Ha). exists a. split; [done|].
    by rewrite ancestor_blocks_sql_spec by auto.
Qed.

(** ** Properties of the ancestor check

    The predicate of the claim query and the check in Go agree, a blocking
    ancestor stops a targeted claim, and a causation that cannot be parsed stops
    every claim of its organization. *)


Section Ancestry.
Context `{Env}.

(** ** Shared lemmas *)

Lemma blockingAncestor_run (t : Task) (w : World) :
  stored w t ->
  blockingAncestor t w
  = match ancestors (w_db w) t with
    | Ok chain => (Ok (fold_left least_block (ancestor_block <$> chain) None), w)
    | Err e => (Err e, w)
    end.
Proof.
  unfold stored, blockingAncestor, bind, get_db. intros Hst. simpl. rewrite Hst.
  rewrite bool_decide_true by done. unfold lift. by destruct (ancestors (w_db w) t).
Qed.

Lemma ancestors_checked (d : DB) (t : Task) (l : list Task) :
  Inv d -> ancestors d t = Ok l -> Forall (fun a => tasks_check a = true) l.
Proof.
  intros Hinv Hl. apply Forall_forall. intros a Ha.
  apply (ancestor_chain_spec _ _ _ _ _ a Hl) in Ha as (n & _ & Ha).
  assert (Hk : exists k, db_tasks d !! k = Some a) by (induction Ha; eauto).
  destruct Hk as [k Hk]. by eapply ky_tcheck; [apply inv_keys|].
Qed.

Lemma keep_unblocked_err (d : DB) (l : list Task) (t : Task) (e : Error) :
  t ∈ l -> ancestors d t = Err e -> keep_unblocked d l = Err numeric_out_of_range.
Proof.
  intros Hin He. induction l as [|x l IH]; [by apply not_elem_of_nil in Hin|]. simpl.
  unfold blockingAncestorPredicate at 1. destruct (ancestors d x) as [chain|ex] eqn:Hx; simpl.
  - apply elem_of_cons in Hin as [->|Hin]; [congruence|]. by rewrite IH.
  - f_equal. by eapply ancestor_chain_err.
Qed.

(** ** Properties *)

(** The check in Go, when it answers, agrees with the predicate of the query. *)
Lemma blockingAncestor_agrees (t : Task) (o : option AncestorBlock) (w w' : World) :
  Inv (w_db w) -> stored w t -> blockingAncestor t w = (Ok o, w') ->
  blockingAncestorPredicate (w_db w) t = Ok (is_some o) /\ w' = w.
Proof.
  intros Hinv Hst. rewrite (blockingAncestor_run _ _ Hst).
  destruct (ancestors (w_db w) t) as [chain|e] eqn:Hc; [|done]. intros [= <- <-]. split; [|done].
  unfold blockingAncestorPredicate. rewrite Hc. simpl. f_equal.
  apply least_of_some; [by eapply ancestors_checked|apply fold_least].
Qed.

(** for every stored task of a reachable state the ancestors both checks walk
    are those at most 64 levels up within its organization; the predicate of the
    claim query holds exactly when the check in Go finds an ancestor, and that
    ancestor is the blocking one with the least id. *)
Lemma ancestor_checks_agree (w : World) (t : Task) (chain : list Task) :
  reachable w -> stored w t -> ancestors (w_db w) t = Ok chain ->
  (forall a, a ∈ chain <-> exists n, (n <= maxAncestorDepth)%nat
     /\ ancestor_at (task_OrganizationID t) (db_tasks (w_db w)) n (task_CausationID t) a)
  /\ exists o, blockingAncestor t w = (Ok o, w)
     /\ blockingAncestorPredicate (w_db w) t = Ok (is_some o)
     /\ least_of (ancestor_block <$> chain) o.
Proof.
  intros Hw%reachable_Inv Hst Hc. split; [intros a; by apply ancestor_chain_spec|].
  assert (Hrun := blockingAncestor_run _ _ Hst). rewrite Hc in Hrun. eexists. split; [exact Hrun|].
  split; [by apply blockingAncestor_agrees in Hrun as [? _]|apply fold_least].
Qed.

(** A targeted claim of a task that could be claimed but has a blocking
    ancestor fails, names the blocking ancestor with the least id, and changes
    nothing. *)
Lemma blocked_ancestor_stops_claim (w : World) (id : Z) (t b : Task) (chain : list Task)
    (request : ClaimRequest) (locked : list Z) (validate : Task -> res AssigneeCheck)
    (capacity : Task -> res CapacityCheck) (n : Z) :
  reachable w -> db_tasks (w_db w) !! id = Some t ->
  claimable request (env_clock (S (w_tick w))) t = true -> id ∉ locked ->
  ancestors (w_db w) t = Ok chain -> b ∈ chain -> Blocks (ancestor_block b) = true ->
  exists block w', ClaimSpecific id request locked validate capacity n w
                   = (Err (ErrAncestorBlocked block), w')
    /\ w_db w' = w_db w /\ least_of (ancestor_block <$> chain) (Some block).
Proof.
  intros Hw%reachable_Inv Ht Hcl Hlock Hc Hb Hblock.
  pose proof (ky_task _ (inv_keys _ Hw) _ _ Ht) as Hid.
  pose proof (fold_least (ancestor_block <$> chain)) as Hl.
  destruct (fold_left least_block (ancestor_block <$> chain) None) as [block|] eqn:Hfold.
  2:{ exfalso. simpl in Hl. rewrite (Hl (ancestor_block b)) in Hblock; [done|].
      by apply list_elem_of_fmap_2. }
  set (w1 := mkWorld (w_db w) (w_seq w) (S (S (w_tick w))) (w_random w) (env_clock (w_tick w))).
  exists block, w1. split; [|by split].
  assert (Hrun : blockingAncestor t w1 = (Ok (Some block), w1)).
  { rewrite blockingAncestor_run; [|by unfold stored; rewrite Hid].
    simpl. by rewrite Hc, Hfold. }
  unfold ClaimSpecific, withTx, ClaimSpecific_tx, bind, get_db, clock_timestamp, throwIf. simpl.
  fold w1. rewrite Ht, Hcl, bool_decide_false by done. simpl. by rewrite Hrun.
Qed.

(** one claimable task with an ancestor whose causation names a number
    beyond a bigint fails every claim of its organization and role, whatever else
    is claimable; nothing is claimed. *)
Lemma poisoned_causation_stops_claims (w : World) (id : Z) (t : Task) (e : Error)
    (request : ClaimRequest) (locked : list Z) (validate : Task -> res AssigneeCheck)
    (capacity : Task -> res CapacityCheck) (n : Z) :
  db_tasks (w_db w) !! id = Some t ->
  claimable request (env_clock (S (w_tick w))) t = true -> ancestors (w_db w) t = Err e ->
  exists w', Claim request locked validate capacity n w = (Err numeric_out_of_range, w')
    /\ w_db w' = w_db w.
Proof.
  intros Ht Hcl He.
  unfold Claim, withTx, Claim_tx, claim_candidates, bind, get_db, clock_timestamp, lift. simpl.
  erewrite keep_unblocked_err; [|apply rows_spec; by exists id|exact He].
  eexists. split; [done|]. done.
Qed.

End Ancestry.

(** ** The theorems at concrete states *)

Local Existing Instance demo.

Definition child_request (key causation : string) : CreateRequest :=
  mkCreateRequest "acme" "" "eng/dev" "general.work" key "Fix" "Fix it" [] 0 None 2 ""
    causation [] [] false.

Definition child_input (key causation : string) : PreparedCreate :=
  mkPreparedCreate (child_request key causation) 1 "eng" "general.work" true (demo_digest key)
    StatusReady "" "" 3 10 "human" "alice".

(** Task 1 is cancelled, task 2 descends from it. *)
Definition family : list Call :=
  [CallCreate (demo_input "k1" []); CallCreate (child_input "k2" "task:1");
   CallCancel (mkCancelCommand 1 "stop" "not needed" "human" "alice") 10].

Definition world_family : World := run family world0.

Lemma family_valid : Forall valid_call family.
Proof. by repeat (apply Forall_cons; split; [vm_compute; auto|]). Defined.

Definition poison : list Call :=
  [CallCreate (demo_input "k1" []); CallCreate (child_input "k2" "task:99999999999999999999")].

Definition world_poison : World := run poison world0.

Lemma ancestor_checks_agree_witness :
  exists o, blockingAncestor (task_of world_family 2) world_family = (Ok o, world_family)
     /\ blockingAncestorPredicate (w_db world_family) (task_of world_family 2) = Ok (is_some o)
     /\ least_of [ancestor_block (task_of world_family 1)] o.
Proof.
  apply (ancestor_checks_agree world_family (task_of world_family 2) [task_of world_family 1]
    (run_reachable _ family_valid)); vm_compute; reflexivity.
Defined.

Lemma blocked_ancestor_stops_claim_witness :
  exists block w', ClaimSpecific 2 demo_claim [] fine room 10 world_family
                   = (Err (ErrAncestorBlocked block), w')
    /\ w_db w' = w_db world_family
    /\ least_of [ancestor_block (task_of world_family 1)] (Some block).
Proof.
  apply (blocked_ancestor_stops_claim world_family 2 (task_of world_family 2)
    (task_of world_family 1) [task_of world_family 1] demo_claim [] fine room 10
    (run_reachable _ family_valid)); try (vm_compute; reflexivity).
  - apply not_elem_of_nil.
  - left.
Defined.

(** The request that does it passes validation. *)
Lemma poisoned_causation_stops_claims_witness :
  @ValidateCreateRequest demo_policy (child_request "k2" "task:99999999999999999999") = Ok tt
  /\ exists w', Claim demo_claim [] fine room 10 world_poison = (Err numeric_out_of_range, w')
       /\ w_db w' = w_db world_poison.
Proof.
  split; [vm_compute; reflexivity|].
  apply (poisoned_causation_stops_claims world_poison 2 (task_of world_poison 2)
    numeric_out_of_range demo_claim [] fine room 10); vm_compute; reflexivity.
Defined.
