(* ===== verification/QueueProps.v ===== *)
(** * Properties of the queue

    What a claim hands out, who may act on a lease, and what starting, extending
    and ending an attempt do. *)

From stdpp Require Import base tactics list gmap strings sorting relations.
From Stdlib Require Import ZArith Lia.
From S2P Require Import Prelude GoLib TaskDomain Database StoreHelpers StoreCreate StoreQueue.
From S2P Require Import StoreOutbox StoreReconcile StoreRead StoreRun StoreSpec LeaseInvariant.
From S2P Require Import TaskInvariant StoreRefine MutateRefine QueueRefine StoreMachine.
From S2P Require Import Scenario AncestryProps.

Local Open Scope Z_scope.

#[export] Instance claim_before_order : RowOrder claim_before.
Proof.
  unfold claim_before. split.
  - intros x y.
    destruct (Z.eqb_spec (task_Priority x) (task_Priority y)),
      (Z.eqb_spec (task_Priority y) (task_Priority x)),
      (Z.eqb_spec (task_AvailableAt x) (task_AvailableAt y)),
      (Z.eqb_spec (task_AvailableAt y) (task_AvailableAt x)),
      (Z.eqb_spec (task_CreatedAt x) (task_CreatedAt y)),
      (Z.eqb_spec (task_CreatedAt y) (task_CreatedAt x)); lia.
  - intros x y z.
    destruct (Z.eqb_spec (task_Priority x) (task_Priority y)),
      (Z.eqb_spec (task_Priority y) (task_Priority z)),
      (Z.eqb_spec (task_Priority x) (task_Priority z)); try lia;
    destruct (Z.eqb_spec (task_AvailableAt x) (task_AvailableAt y)),
      (Z.eqb_spec (task_AvailableAt y) (task_AvailableAt z)),
      (Z.eqb_spec (task_AvailableAt x) (task_AvailableAt z)); try lia;
    destruct (Z.eqb_spec (task_CreatedAt x) (task_CreatedAt y)),
      (Z.eqb_spec (task_CreatedAt y) (task_CreatedAt z)),
      (Z.eqb_spec (task_CreatedAt x) (task_CreatedAt z)); lia.
Qed.

Section Queue.
Context `{Env}.

(** ** Claiming *)

(** A step on one task leaves the attempts of the others. *)
Lemma step_frame_attempt release id d d' k a :
  step release (OnTask id) d d' -> db_attempts d !! k = Some a ->
  attempt_TaskID a <> id -> db_attempts d' !! k = Some a.
Proof.
  intros Hs Ha Hn. inversion Hs; subst; simpl; try done.
  - rewrite lookup_insert_ne; [done|]. intros <-. congruence.
  - rewrite lookup_insert_ne; [done|]. intros <-.
    match goal with Hh : held_by _ _ _ _ _ _ _ |- _ => destruct Hh end. congruence.
  - destruct letter; simpl; (rewrite lookup_insert_ne; [done|]); intros <-;
      match goal with Hh : held_by _ _ _ _ _ _ _ |- _ => destruct Hh end; congruence.
Qed.

Lemma claim_result_frame release id request t item d d' :
  steps_on release (OnTask id) d d' -> task_ID t <> id ->
  claim_result request t item d -> claim_result request t item d'.
Proof.
  intros Hs Hn [Ht Hm Ha Hw Ho Hl Hact Htask Hatt Hh].
  split; try done.
  - rewrite <- Ht. by eapply steps_on_frame_task.
  - clear - Hs Hn Ha Ho. induction Hs as [d|d d1 d2 Hs _ IH]; [done|].
    apply IH. eapply step_frame_attempt; [done|done|]. congruence.
  - eapply steps_on_frame_lease; [done|done|]. simpl. congruence.
Qed.

(** What the claim checked of a candidate before it was claimed. *)
Record cleared (validate : Task -> res AssigneeCheck) (capacity : Task -> res CapacityCheck)
    (t : Task) : Prop := {
  cl_assignee : exists c, validate t = Ok c /\ assignee_Available c = true;
  cl_capacity : exists c, capacity t = Ok c /\ capacity_Available c = true }.

(** How the claim leaves a candidate that it did not hand out: blocked for its
    assignee or for the capacity of its team, deferred when that says until when, or
    as it was, because an ancestor is blocked now. *)
Inductive set_back (validate : Task -> res AssigneeCheck) (capacity : Task -> res CapacityCheck)
    (d : DB) (t : Task) : Task -> Prop :=
| NoAssignee check row :
    validate t = Ok check -> assignee_Available check = false ->
    moved 0 t StatusBlocked row -> task_StatusReasonCode row = Some "assignee_unavailable"%string ->
    set_back validate capacity d t row
| NoCapacity check cap row :
    validate t = Ok check -> assignee_Available check = true ->
    capacity t = Ok cap -> capacity_Available cap = false ->
    immutable t row -> task_Status row = StatusBlocked ->
    task_AttemptCount row = task_AttemptCount t -> task_StatusReasonCode row = Some "capacity"%string ->
    (IsZero (capacity_RetryAt cap) = false -> task_AvailableAt row = capacity_RetryAt cap) ->
    set_back validate capacity d t row
| AncestorBlocked :
    blockingAncestorPredicate d t = Ok true -> set_back validate capacity d t t.

(** What becomes of a candidate: it is handed out when it was cleared, and set back
    otherwise. *)
Definition handled (request : ClaimRequest) (validate : Task -> res AssigneeCheck)
    (capacity : Task -> res CapacityCheck) (d : DB) (t : Task) (o : option ClaimedTask) : Prop :=
  match o with
  | Some item => cleared validate capacity t /\ claim_result request t item d
  | None => exists row, db_tasks d !! task_ID t = Some row /\ set_back validate capacity d t row
  end.

(** Rows only leave the ready status, with what identifies them. *)
Definition advanced (d d' : DB) : Prop := forall k,
  db_tasks d' !! k = db_tasks d !! k
  \/ exists t t', db_tasks d !! k = Some t /\ db_tasks d' !! k = Some t'
       /\ task_Status t = StatusReady /\ immutable t t'.

Lemma ancestor_chain_advanced (fuel : nat) (org : string) (d d' : DB) (c : option string)
    (l : list Task) :
  advanced d d' -> ancestor_chain fuel org (db_tasks d) c = Ok l ->
  exists l', ancestor_chain fuel org (db_tasks d') c = Ok l'
    /\ Forall2 (fun a a' => a' = a \/ task_Status a = StatusReady) l l'.
Proof.
  intros Had. revert c l. induction fuel as [|fuel IH]; intros c l; simpl.
  { intros [= <-]. by exists []. }
  intros (parent & -> & Hl)%rbind_ok. cbn [rbind]. destruct parent as [id|].
  2: { injection Hl as <-. by exists []. }
  destruct (Had id) as [->|(p & p' & Hp & Hp' & Hr & Himm)].
  - destruct (db_tasks d !! id) as [p|]; [|injection Hl as <-; by exists []].
    case_bool_decide; [|injection Hl as <-; by exists []].
    apply rbind_ok in Hl as (rest & Hrest & [= <-]). apply IH in Hrest as (l' & -> & Hf).
    exists (p :: l'). split; [done|]. constructor; [by left|done].
  - rewrite Hp in Hl. rewrite Hp', (imm_OrganizationID _ _ Himm), (imm_Causation _ _ Himm).
    case_bool_decide; [|injection Hl as <-; by exists []].
    apply rbind_ok in Hl as (rest & Hrest & [= <-]). apply IH in Hrest as (l' & -> & Hf).
    exists (p' :: l'). split; [done|]. constructor; [by right|done].
Qed.

(** An ancestor that blocks a claim goes on doing so. *)
Lemma blocking_advanced (d d' : DB) (t : Task) :
  advanced d d' -> blockingAncestorPredicate d t = Ok true ->
  blockingAncestorPredicate d' t = Ok true.
Proof.
  intros Had (l & Hl & Hb)%rbind_ok. unfold blockingAncestorPredicate, ancestors.
  apply (ancestor_chain_advanced _ _ _ _ _ _ Had) in Hl as (l' & -> & Hf). cbn [rbind]. f_equal.
  injection Hb as Hb. clear -Hf Hb. induction Hf as [|a a' l l' Ha _ IH]; [done|]. simpl in *.
  apply orb_true_iff in Hb as [Hb|Hb]; [|by rewrite IH, orb_true_r].
  destruct Ha as [->|Ha]; [by rewrite Hb|]. unfold ancestor_blocks_sql in Hb. by rewrite Ha in Hb.
Qed.

Lemma claim_candidate_handled (request : ClaimRequest)
    (validate : Task -> res AssigneeCheck) (capacity : Task -> res CapacityCheck) (n : Z)
    (claimed claimed' : list ClaimedTask) (t : Task) (w w' : World) :
  Inv (w_db w) -> stored w t -> task_Status t = StatusReady ->
  claim_candidate request validate capacity n claimed t w = (Ok claimed', w') ->
  exists o, claimed' = claimed ++ option_list o /\ handled request validate capacity (w_db w') t o.
Proof.
  unfold claim_candidate. intros Hinv Hst Hr Hm.
  next Hm w1 H1. apply blockingAncestor_agrees in H1 as [Hb ->]; [|done..].
  destruct (is_some r).
  { apply ret_ok in Hm as [-> ->]. exists None. rewrite app_nil_r. split; [done|].
    exists t. split; [done|]. by constructor. }
  next Hm w1 H1. apply lift_ok in H1 as [Hv ->]. destruct (negb _) eqn:Ha.
  { next Hm w1 H1. apply ret_ok in Hm as [-> ->]. exists None. rewrite app_nil_r. split; [done|].
    apply negb_true_iff in Ha. apply blocked_for_assignee in H1 as (row & Hrow & Hmv & Hc); [|done..].
    exists row. split; [done|]. by eapply NoAssignee. }
  next Hm w1 H1. apply lift_ok in H1 as [Hk ->]. destruct (negb (capacity_Available _)) eqn:Hc.
  { next Hm w1 H1. apply ret_ok in Hm as [-> ->]. exists None. rewrite app_nil_r. split; [done|].
    apply negb_true_iff in Hc. apply negb_false_iff in Ha.
    apply blocked_for_capacity in H1 as (row & Hrow & Himm & Hs & Hn & Hcode & Hat); [|done..].
    exists row. split; [done|]. by eapply NoCapacity. }
  apply negb_false_iff in Ha, Hc.
  next Hm w1 H1. apply ret_ok in Hm as [-> ->]. apply (claimOne_ok false) in H1 as (_ & Hres & _); [|done].
  exists (Some r2). split; [done|]. split; [|done]. split; eauto.
Qed.

Lemma handled_id (request : ClaimRequest) (validate : Task -> res AssigneeCheck)
    (capacity : Task -> res CapacityCheck) (d : DB) (t : Task) (o : option ClaimedTask) :
  handled request validate capacity d t o ->
  exists row, db_tasks d !! task_ID t = Some row /\ immutable t row.
Proof.
  destruct o as [item|].
  - intros [_ Hc]. eexists. split; [by eapply cr_task|]. by eapply moved_imm, cr_moved.
  - intros (row & Hrow & Hs). exists row. split; [done|].
    destruct Hs; [by eapply moved_imm|done|done].
Qed.

Lemma handled_frame release id request validate capacity t o d d' :
  steps_on release (OnTask id) d d' -> task_ID t <> id -> advanced d d' ->
  handled request validate capacity d t o -> handled request validate capacity d' t o.
Proof.
  intros Hs Hn Had. destruct o as [item|].
  - intros [Hc Hr]. split; [done|]. by eapply claim_result_frame.
  - intros (row & Hrow & Hb). exists row. split; [by rewrite (steps_on_frame_task _ _ _ _ _ Hs)|].
    destruct Hb; [by eapply NoAssignee|by eapply NoCapacity|].
    apply AncestorBlocked. by eapply blocking_advanced.
Qed.

(** The loop of a claim takes every candidate up, in their order. *)
Lemma claim_loop (request : ClaimRequest)
    (validate : Task -> res AssigneeCheck) (capacity : Task -> res CapacityCheck) (n : Z)
    (ts before : list Task) (outs : list (option ClaimedTask)) (items items' : list ClaimedTask)
    (w w' : World) :
  Inv (w_db w) -> NoDup (task_ID <$> before ++ ts) ->
  (forall t, t ∈ ts -> stored w t /\ task_Status t = StatusReady) ->
  Forall2 (handled request validate capacity (w_db w)) before outs ->
  foldM (claim_candidate request validate capacity n) items ts w = (Ok items', w') ->
  exists outs', items' = items ++ (outs' ≫= option_list)
    /\ Forall2 (handled request validate capacity (w_db w')) (before ++ ts) (outs ++ outs')
    /\ forall k, k ∉ task_ID <$> ts -> db_tasks (w_db w') !! k = db_tasks (w_db w) !! k.
Proof.
  revert before outs items w. induction ts as [|t ts IH]; intros before outs items w Hinv Hnd Hst Hall Hm.
  { apply foldM_nil in Hm as [-> ->]. exists []. by rewrite !app_nil_r. }
  apply foldM_cons in Hm as (items1 & w1 & H1 & Hm).
  destruct (Hst t) as [Hstt Hr]; [left|].
  destruct (claim_candidate_handled _ _ _ _ _ _ _ _ _ Hinv Hstt Hr H1) as (o & -> & Ho).
  apply (claim_candidate_refines false) in H1 as [Hs _]; [|done..].
  rewrite fmap_app, fmap_cons in Hnd. apply NoDup_app in Hnd as (Hnb & Hdis & Hnd).
  apply NoDup_cons in Hnd as [Hni Hnd].
  assert (Hframe : forall k, k <> task_ID t -> db_tasks (w_db w1) !! k = db_tasks (w_db w) !! k).
  { intros k Hk. by eapply steps_on_frame_task. }
  assert (Had : advanced (w_db w) (w_db w1)).
  { intros k. destruct (decide (k = task_ID t)) as [->|Hk]; [|by left; apply Hframe].
    right. destruct (handled_id _ _ _ _ _ _ Ho) as (row & Hrow & Himm). by exists t, row. }
  destruct (IH (before ++ [t]) (outs ++ [o]) (items ++ option_list o) w1) as (outs' & -> & Hf & Hother).
  - by eapply Inv_steps_on.
  - rewrite <- app_assoc, fmap_app. simpl. apply NoDup_app. split; [done|]. split; [done|].
    by apply NoDup_cons.
  - intros x Hx. destruct (Hst x) as [Hx1 Hx2]; [by right|]. split; [|done].
    unfold stored. rewrite Hframe; [done|].
    intros Heq. apply Hni. rewrite <- Heq. by apply list_elem_of_fmap_2.
  - apply Forall2_app; [|by constructor]. eapply Forall2_impl_in; [exact Hall|].
    intros x y Hx _ Hh. eapply handled_frame; [exact Hs| |done|done].
    intros Heq. apply (Hdis (task_ID x)); [by apply list_elem_of_fmap_2|]. rewrite Heq. left.
  - done.
  - exists (o :: outs'). split_and!.
    + by rewrite <- app_assoc.
    + by rewrite <- !app_assoc in Hf.
    + intros k Hk. rewrite fmap_cons, elem_of_cons in Hk. rewrite Hother by tauto. apply Hframe. tauto.
Qed.

Lemma keep_unblocked_false (d : DB) (l kept : list Task) (t : Task) :
  keep_unblocked d l = Ok kept ->
  t ∈ kept <-> t ∈ l /\ blockingAncestorPredicate d t = Ok false.
Proof.
  revert kept. induction l as [|x l IH]; intros kept; simpl.
  { intros [= <-]. split; [intros Hin; by apply not_elem_of_nil in Hin|by intros [? _]]. }
  intros (blocked & Hb & Hk)%rbind_ok. apply rbind_ok in Hk as (rest & Hrest & [= <-]).
  specialize (IH _ Hrest). rewrite elem_of_cons. destruct blocked.
  - rewrite IH. split; [tauto|]. intros [[->|Hin] Hf]; [congruence|done].
  - rewrite elem_of_cons, IH. split; [|tauto]. intros [->|]; tauto.
Qed.

(** What the claim query selects. *)
Record selected (request : ClaimRequest) (locked : list Z) (w : World) (ts : list Task) : Prop := {
  sel_sorted : StronglySorted (fun x y => claim_before x y = true) ts;
  sel_batch : Z.of_nat (length ts) <= Z.max 0 (claim_BatchSize request);
  sel_distinct : NoDup (task_ID <$> ts);
  sel_each : forall t, t ∈ ts -> stored w t /\ task_ID t ∉ locked
    /\ claimable request (env_clock (S (w_tick w))) t = true
    /\ blockingAncestorPredicate (w_db w) t = Ok false;
  sel_best : forall t, stored w t -> task_ID t ∉ locked ->
    claimable request (env_clock (S (w_tick w))) t = true ->
    blockingAncestorPredicate (w_db w) t = Ok false ->
    t ∈ ts \/ (Z.of_nat (length ts) = Z.max 0 (claim_BatchSize request)
              /\ forall x, x ∈ ts -> claim_before x t = true) }.

Lemma claim_candidates_selected (request : ClaimRequest) (locked : list Z) (l : list Task)
    (w w' : World) :
  Inv (w_db w) -> claim_candidates request locked (begin_tx w) = (Ok l, w') ->
  selected request locked w l.
Proof.
  intros Hinv Hm.
  pose proof (claim_candidates_ok request locked l (begin_tx w) w' Hinv Hm) as (_ & Hn & Hb & Hall).
  unfold claim_candidates in Hm. skip Hm.
  next Hm w1 H1. apply clock_timestamp_ok in H1 as [-> H1].
  next Hm w2 H2. apply lift_ok in H2 as [H2 ->]. apply ret_ok in Hm as [-> _].
  match type of H2 with _ = Ok ?x => rename x into kept end.
  split; [|done|done|..].
  - apply skip_locked_limit_best, _.
  - intros t Ht. destruct (Hall t Ht) as (Hst & Hl & Hc). split_and!; try done.
    apply skip_locked_limit_spec in Ht as [Ht _]. apply elem_of_order_by in Ht.
    by apply (keep_unblocked_false _ _ _ t H2) in Ht as [_ Ht].
  - intros t Hst Hl Hc Hf.
    destruct (skip_locked_limit_best task_ID claim_before locked (claim_BatchSize request) kept)
      as [_ Hbest].
    apply Hbest; [|done]. apply (keep_unblocked_false _ _ _ t H2). split; [|done].
    apply rows_spec. eexists. by split.
Qed.

(** C32: a claim that succeeds selects tasks in their order - at most the batch,
    distinct, stored, ready, due, within their attempts, of the requested organization
    and role, not locked by another transaction, with no blocking ancestor, and no
    better task passed over - and takes each of them up.  Those whose assignee and
    capacity are available are handed out, in order, and each is left leased to the
    holder, with a fresh attempt and the hash of the token handed out.  One whose
    assignee or capacity is not is blocked for that reason, and one whose ancestor is
    blocked in this way stays as it was.  No other task changes. *)
Theorem claim_hands_out_leases (request : ClaimRequest) (locked : list Z)
    (validate : Task -> res AssigneeCheck) (capacity : Task -> res CapacityCheck) (n : Z)
    (items : list ClaimedTask) (w w' : World) :
  reachable w -> Claim request locked validate capacity n w = (Ok items, w') ->
  exists ts outs, selected request locked w ts
    /\ items = outs ≫= option_list
    /\ Forall2 (handled request validate capacity (w_db w')) ts outs
    /\ forall k, k ∉ task_ID <$> ts -> db_tasks (w_db w') !! k = db_tasks (w_db w) !! k.
Proof.
  intros Hw%reachable_Inv Hm%withTx_begin. unfold Claim_tx in Hm. next Hm w1 H1.
  pose proof (claim_candidates_selected _ _ _ _ _ Hw H1) as Hsel.
  apply claim_candidates_ok in H1 as (Hdb & Hn & _ & Hall); [|done].
  apply (claim_loop _ _ _ _ _ [] []) in Hm as (outs & -> & Hf & Hother); [|by rewrite Hdb|done| |constructor].
  - exists r, outs. rewrite Hdb in Hother. by split_and!.
  - intros t Ht. destruct (Hall t Ht) as (Hst & _ & Hc). unfold stored in *. rewrite Hdb.
    split; [done|]. by apply claimable_true in Hc as (_ & ? & _).
Qed.

(** ** Acting on a lease *)

(** The lease a command names, held by its actor, with its token, unexpired. *)
Record authorized (c : LeaseCommand) (now : Instant) (d : DB) (r : LeaseRow) : Prop := {
  au_stored : db_leases d !! lease_ID (row_Lease r) = Some r;
  au_task : lease_TaskID (row_Lease r) = lcmd_TaskID c;
  au_attempt : lease_AttemptID (row_Lease r) = lcmd_AttemptID c;
  au_active : lease_active r = true;
  au_holder : lease_HolderID (row_Lease r) = lcmd_ActorID c;
  au_token : row_TokenHash r = hashToken (lcmd_LeaseToken c);
  au_unexpired : now < lease_ExpiresAt (row_Lease r) }.

Lemma verified_authorized (c : LeaseCommand) (record : leaseRecord) (w w' : World) :
  Inv (w_db w) -> verifyLease c w = (Ok record, w') ->
  lease_HolderID (record_Lease record) = lcmd_ActorID c ->
  exists r, record_Lease record = row_Lease r /\ authorized c (env_clock (w_tick w)) (w_db w) r.
Proof.
  intros Hinv Hm Hh. apply verifyLease_ok in Hm as (_ & k & r & Hr & Hl & Ha & Hrec & Htok & He).
  apply andb_true_iff in Hl as [Ht%Z.eqb_eq Hat%Z.eqb_eq].
  pose proof (ky_lease _ (inv_keys _ Hinv) _ _ Hr) as Hk.
  exists r. split; [done|]. rewrite <- Hk in Hr. split; congruence.
Qed.

(** The lease an attempt has is the only one. *)
Lemma attempt_lease (d : DB) (c : LeaseCommand) (k : Z) (r : LeaseRow) :
  Inv d -> db_leases d !! k = Some r -> lease_of (lcmd_TaskID c) (lcmd_AttemptID c) r = true ->
  exists l, rows (lease_of (lcmd_TaskID c) (lcmd_AttemptID c)) (db_leases d) = r :: l.
Proof.
  intros Hinv Hr Hl.
  destruct (rows _ (db_leases d)) as [|x l] eqn:Hrows.
  - rewrite rows_nil in Hrows. by rewrite (Hrows _ _ Hr) in Hl.
  - exists l. f_equal.
    assert (Hx : x ∈ rows (lease_of (lcmd_TaskID c) (lcmd_AttemptID c)) (db_leases d))
      by (rewrite Hrows; left).
    apply rows_spec in Hx as (k' & Hk' & Hl').
    pose proof (inv_leases _ Hinv) as [Hok _].
    assert (k' = k) as ->; [|congruence].
    eapply (lk_one _ _ _ Hok); [done|done|].
    apply andb_true_iff in Hl as [_ ?%Z.eqb_eq], Hl' as [_ ?%Z.eqb_eq]. congruence.
Qed.

(** In a reachable state the check of a lease command is decided by the one
    lease its attempt has: it passes exactly when the lease is active, carries the
    hash of the token and has not expired, and otherwise says which failed. *)
Lemma lease_check_decides (c : LeaseCommand) (w : World) (k : Z) (r : LeaseRow) :
  reachable w -> db_leases (w_db w) !! k = Some r ->
  lease_of (lcmd_TaskID c) (lcmd_AttemptID c) r = true ->
  let now := env_clock (w_tick w) in
  fst (verifyLease c w)
  = if negb (lease_active r) then Err ErrLeaseExpired
    else if negb (bool_decide (row_TokenHash r = hashToken (lcmd_LeaseToken c)))
    then Err ErrLeaseMismatch
    else if now <? lease_ExpiresAt (row_Lease r)
    then Ok (mkLeaseRecord (row_Lease r) (row_TokenHash r) now)
    else Err ErrLeaseExpired.
Proof.
  intros Hw%reachable_Inv Hr Hl now. destruct (attempt_lease _ _ _ _ Hw Hr Hl) as [l Hrows].
  unfold verifyLease, bind, get_db. rewrite Hrows. unfold clock_timestamp, lease_active. simpl.
  fold now. destruct (bool_decide (lease_Status (row_Lease r) = LeaseActive)); [|done]. simpl.
  destruct (bool_decide (row_TokenHash r = hashToken (lcmd_LeaseToken c))); [|done]. simpl.
  by destruct (now <? lease_ExpiresAt (row_Lease r)).
Qed.

(** C4: StartAttempt, Heartbeat and RecordAttemptResult succeed only for the actor
    that holds the task's active lease and shows its token before it expires. *)
Theorem lease_commands_are_authorized (w : World) :
  reachable w ->
  let now := env_clock (S (w_tick w)) in
  (forall c n t w', StartAttempt c n w = (Ok t, w') -> exists r, authorized c now (w_db w) r)
  /\ (forall c max l w', Heartbeat c max w = (Ok l, w') -> exists r, authorized c now (w_db w) r)
  /\ (forall c policy n t w', RecordAttemptResult c policy n w = (Ok t, w') ->
        exists r, authorized (rcmd_LeaseCommand c) now (w_db w) r).
Proof.
  intros Hw%reachable_Inv now.
  assert (Hv : forall c record w1, verifyLease c (begin_tx w) = (Ok record, w1) ->
            lease_HolderID (record_Lease record) = lcmd_ActorID c ->
            exists r, authorized c now (w_db w) r).
  { intros c record w1 Hm Hh. eapply verified_authorized in Hm as (r & _ & Ha); eauto. }
  assert (Hb : Inv (w_db (begin_tx w))) by done.
  split_and!.
  - intros c n t w' Hm%withTx_begin. unfold StartAttempt_tx in Hm. lock Hm Hb Hst Hid.
    skip Hm. next Hm w2 H2. skip Hm as Hh. apply negb_false_iff, bool_decide_eq_true in Hh. eauto.
  - intros c max l w' Hm%withTx_begin. unfold Heartbeat_tx in Hm. lock Hm Hb Hst Hid.
    skip Hm. next Hm w2 H2. skip Hm as Hh. apply negb_false_iff, bool_decide_eq_true in Hh. eauto.
  - intros c policy n t w' Hm%withTx_begin. unfold RecordAttemptResult_tx in Hm.
    lock Hm Hb Hst Hid.
    skip Hm. next Hm w2 H2. skip Hm as Hh. apply negb_false_iff, bool_decide_eq_true in Hh. eauto.
Qed.

(** ** Ending an attempt *)

(** The row a transition leaves, from the row it finds. *)
Lemma transition_row (t td row : Task) (to : Status) (et rc rs at_ ai : string) (p : Payload)
    (n : Z) (w w' : World) :
  db_tasks (w_db w) !! task_ID t = Some td -> immutable t td ->
  transitionTask t to et rc rs at_ ai p n w = (Ok row, w') ->
  db_tasks (w_db w') !! task_ID t = Some row /\ task_Status row = to
  /\ task_AttemptCount row = task_AttemptCount td /\ task_AvailableAt row = task_AvailableAt td
  /\ db_dead_letters (w_db w') = db_dead_letters (w_db w).
Proof.
  intros Htd Him Hm.
  apply transitionTask_ok in Hm as (_ & t0 & e & o & a & Ht0 & _ & Hmv & _ & Hav & _ & _ & Hw).
  rewrite Htd in Ht0. injection Ht0 as <-. destruct Hmv as [_ Hst Hc _ _ _].
  rewrite Hw. simpl. rewrite lookup_insert_eq. split_and!; try done. lia.
Qed.

(** Without a lease to back it, a task of a consistent state has no active one. *)
Lemma no_active_lease (d : DB) (id : Z) (t : Task) :
  Inv d -> db_tasks d !! id = Some t -> has_lease (task_Status t) = false ->
  active_leases id d = [].
Proof.
  intros Hinv Ht Hs. apply active_leases_nil. intros k r Hr Ha <-.
  destruct (active_held _ _ _ Hinv Hr Ha) as (t' & a & Ht' & Hs' & _). congruence.
Qed.

(** What RecordAttemptResult leaves: [t0] and [t] are the task before and after. *)
Definition result_recorded (outcome : AttemptOutcome) (policy : RetryPolicy) (t0 t : Task)
    (letters letters' : gmap Z DeadLetter) : Prop :=
  match outcome with
  | OutcomeSucceeded => task_Status t = StatusAwaitingVerification /\ letters' = letters
  | OutcomeRetryableFailure =>
      if task_MaxAttempts t0 <=? task_AttemptCount t0 then
        task_Status t = StatusDeadLetter
        /\ exists l, dead_TaskID l = task_ID t0 /\ letters !! dead_ID l = None
             /\ letters' = <[dead_ID l := l]> letters
      else task_Status t = StatusRetryWait /\ letters' = letters
        /\ exists tick, task_AvailableAt t
             = env_clock tick + env_make_interval (Delay policy (task_AttemptCount t0))
  | OutcomeNonRetryableFailure => task_Status t = StatusFailed /\ letters' = letters
  | OutcomeCancelled => task_Status t = StatusCancelled /\ letters' = letters
  | OutcomeOther _ => False
  end.

(** RecordAttemptResult ends a running task's attempt: its lease is no longer
    active and the task awaits verification, has failed or is cancelled as the
    outcome says; after a retryable failure it waits out the policy's delay while
    attempts remain and is dead-lettered, with one new dead letter, when they are
    used up. *)
Lemma attempt_result_is_recorded (c : RecordAttemptResultCommand) (policy : RetryPolicy)
    (n : Z) (t : Task) (w w' : World) :
  reachable w -> RecordAttemptResult c policy n w = (Ok t, w') ->
  let id := lcmd_TaskID (rcmd_LeaseCommand c) in
  exists t0, db_tasks (w_db w) !! id = Some t0 /\ task_Status t0 = StatusRunning
    /\ db_tasks (w_db w') !! id = Some t /\ active_leases id (w_db w') = []
    /\ task_AttemptCount t = task_AttemptCount t0
    /\ result_recorded (result_Outcome (rcmd_Result c)) policy t0 t
         (db_dead_letters (w_db w)) (db_dead_letters (w_db w')).
Proof.
  intros Hw%reachable_Inv Hm id.
  assert (Hinv' : Inv (w_db w')).
  { eapply Inv_steps; [exact Hw|]. eapply (withTx_refines_on false);
      [apply RecordAttemptResult_refines|exact Hw|exact Hm]. }
  apply withTx_begin in Hm. unfold RecordAttemptResult_tx in Hm. fold id in Hm.
  assert (Hb : Inv (w_db (begin_tx w))) by done.
  lock Hm Hb Hst Hid. rename r into t0. skip Hm as Hrun.
  apply negb_false_iff, bool_decide_eq_true in Hrun.
  assert (Ht0 : db_tasks (w_db (begin_tx w)) !! id = Some t0) by (rewrite <- Hid; exact Hst).
  next Hm w1 H1. eapply verified_held in H1 as (Hw1 & lid & x & a & Hheld & _); [|done..].
  skip Hm. rewrite <- Hw1 in Hb, Hheld.
  assert (Hfin : forall state retryable reason q w2, attempt_over state = true ->
    finishAttempt c state retryable reason w1 = (Ok q, w2) ->
    db_tasks (w_db w2) = db_tasks (w_db w)
    /\ db_dead_letters (w_db w2) = db_dead_letters (w_db w)).
  { intros state retryable reason q w2 Hover Hf.
    eapply finishAttempt_ok in Hf as (now & a' & _ & _ & _ & ->); [|done..].
    simpl. by rewrite Hw1. }
  exists t0. split; [done|]. split; [done|]. clear Hst.
  assert (Hend : forall to et rc rs at_ ai p td w3,
    transitionTask t0 to et rc rs at_ ai p n w3 = (Ok t, w') -> has_lease to = false ->
    db_tasks (w_db w3) !! id = Some td -> immutable t0 td ->
    task_AttemptCount td = task_AttemptCount t0 ->
    (db_tasks (w_db w') !! id = Some t /\ active_leases id (w_db w') = []
     /\ task_AttemptCount t = task_AttemptCount t0)
    /\ task_Status t = to /\ task_AvailableAt t = task_AvailableAt td
    /\ db_dead_letters (w_db w') = db_dead_letters (w_db w3)).
  { intros to et rc rs at_ ai p td w3 Htr Hf Htd Him Hcount. rewrite <- Hid in Htd.
    eapply transition_row in Htr as (Hrow & Hs & Hc & Hav & Hd); [|done..].
    rewrite Hid in Hrow. split_and!; try done; [|congruence].
    eapply no_active_lease; [done|exact Hrow|by rewrite Hs]. }
  unfold result_recorded.
  destruct (result_Outcome (rcmd_Result c)); [| | | |by apply throw_ok in Hm].
  - next Hm w2 H2. apply Hfin in H2 as [Ht2 Hd2]; [|done].
    apply (Hend _ _ _ _ _ _ _ t0) in Hm as (Hrow & Hs & _ & Hd); [|done|by rewrite Ht2|done..].
    split_and!; try apply Hrow; congruence.
  - next Hm w2 H2. apply Hfin in H2 as [Ht2 Hd2]; [|done]. destruct (_ <=? _).
    + next Hm w3 H3. apply insert_dead_letter_ok in H3 as (l & Hl1 & Hl2 & _ & _ & _ & H3).
      apply (Hend _ _ _ _ _ _ _ t0) in Hm as (Hrow & Hs & _ & Hd);
        [|done|by rewrite H3; simpl; rewrite Ht2|done..].
      rewrite Hd2 in Hl2. split_and!; try apply Hrow; [done|]. exists l. split_and!; try done.
      by rewrite Hd, H3, <- Hd2.
    + next Hm w3 H3. apply defer_task_ok in H3 as (z & Hz & H3).
      2:{ unfold stored. by rewrite Ht2, Hid. }
      apply (Hend _ _ _ _ _ _ _ (task_deferred z t0)) in Hm as (Hrow & Hs & Hav & Hd);
        [|done|by rewrite H3; simpl; rewrite Hid, lookup_insert_eq|by split|done].
      split_and!; try apply Hrow; [done|by rewrite Hd, H3|].
      exists (w_tick w2). by rewrite Hav, <- Hz.
  - next Hm w2 H2. apply Hfin in H2 as [Ht2 Hd2]; [|done].
    apply (Hend _ _ _ _ _ _ _ t0) in Hm as (Hrow & Hs & _ & Hd); [|done|by rewrite Ht2|done..].
    split_and!; try apply Hrow; congruence.
  - next Hm w2 H2. apply Hfin in H2 as [Ht2 Hd2]; [|done].
    apply (Hend _ _ _ _ _ _ _ t0) in Hm as (Hrow & Hs & _ & Hd); [|done|by rewrite Ht2|done..].
    split_and!; try apply Hrow; congruence.
Qed.

(** ** Extending a lease *)

(** Heartbeat changes nothing but its own lease row, whose heartbeat and
    expiry it renews: the new expiry is a clock reading plus the requested
    extension, cut to the maximum lease duration. *)
Lemma heartbeat_extends_only_its_lease (c : LeaseCommand) (max : Z) (l : Lease)
    (w w' : World) :
  reachable w -> Heartbeat c max w = (Ok l, w') ->
  exists r heartbeat tick,
    authorized c (env_clock (S (w_tick w))) (w_db w) r
    /\ lease_ExpiresAt l = env_clock tick + env_make_interval (Z.min (lcmd_Extension c) max)
    /\ l = row_Lease (lease_extended heartbeat (lease_ExpiresAt l) r)
    /\ w_db w' = put_lease (lease_ID (row_Lease r))
                   (lease_extended heartbeat (lease_ExpiresAt l) r) (w_db w).
Proof.
  intros Hw%reachable_Inv Hm%withTx_begin. assert (Hb : Inv (w_db (begin_tx w))) by done.
  unfold Heartbeat_tx in Hm. lock Hm Hb Hst Hid. skip Hm. next Hm w1 H1.
  pose proof H1 as Hheld. unfold stored in Hst. rewrite Hid in Hst.
  eapply verified_held in Hheld as (Hw1 & lid & x & a & Hheld & _ & Hrec & _); [|done..].
  skip Hm as Hh. apply negb_false_iff, bool_decide_eq_true in Hh.
  eapply verified_authorized in H1 as (row & Hr1 & Hau); [|done..].
  next Hm w2 H2. apply clock_timestamp_ok in H2 as [_ H2].
  next Hm w3 H3. apply clock_timestamp_ok in H3 as [-> H3]. rewrite H2, Hw1 in H3.
  match type of Hm with context [lease_extended ?h (env_clock ?k + _)] =>
    set (hb := h) in *; set (tick := k) in * end.
  next Hm w4 H4. apply update_leases_ok in H4 as (-> & _ & H4). rewrite H3 in Hm, H4.
  assert (Hone : forall k y, db_leases (w_db (begin_tx w)) !! k = Some y ->
    (lease_ID (row_Lease y) =? lease_ID (row_Lease row))
    && lease_of (lcmd_TaskID c) (lcmd_AttemptID c) y && lease_active y = true -> y = row).
  { intros k y Hy [[Hk%Z.eqb_eq _]%andb_true_iff _]%andb_true_iff.
    pose proof (ky_lease _ (inv_keys _ Hb) _ _ Hy) as Hyk. destruct Hau as [Hau _ _ _ _ _ _].
    rewrite <- Hk, Hyk in Hau. simpl in Hau, Hy. congruence. }
  assert (Hcond : (lease_ID (row_Lease row) =? lease_ID (row_Lease row))
    && lease_of (lcmd_TaskID c) (lcmd_AttemptID c) row && lease_active row = true).
  { destruct Hau as [_ Ht Hat Ha _ _ _]. unfold lease_of. by rewrite Ht, Hat, !Z.eqb_refl, Ha. }
  rewrite Hr1 in Hm, H4.
  rewrite (update_one _ _ _ (lease_ID (row_Lease row)) row) in H4;
    [|by destruct Hau|exact Hcond|].
  2:{ intros k y Hy Hc. rewrite <- (Hone _ _ Hy Hc). symmetry.
      exact (ky_lease _ (inv_keys _ Hb) _ _ Hy). }
  destruct (rows _ _) as [|y ys] eqn:Hrows; [by apply throw_ok in Hm|].
  apply ret_ok in Hm as [-> ->].
  assert (Hy : y = row).
  { assert (Hin : y ∈ y :: ys) by left. rewrite <- Hrows in Hin.
    apply rows_spec in Hin as (k & Hk & Hc). by eapply Hone. }
  subst y. exists row, hb, tick. split; [exact Hau|]. split; [|split; [done|exact H4]].
  simpl. f_equal. f_equal. destruct (max <? lcmd_Extension c) eqn:Hmax; lia.
Qed.

(** ** Verifying an execution lease *)

(** The task [t] runs under the lease [r] of its attempt [a], for the holder and
    the token of the command. *)
Record executing (c : VerifyExecutionLeaseCommand) (now : Instant) (d : DB) (t : Task)
    (a : Attempt) (r : LeaseRow) : Prop := {
  ex_task : db_tasks d !! vlease_TaskID c = Some t;
  ex_attempt : db_attempts d !! vlease_AttemptID c = Some a;
  ex_lease : db_leases d !! lease_ID (row_Lease r) = Some r;
  ex_owner : attempt_TaskID a = vlease_TaskID c;
  ex_of_task : lease_TaskID (row_Lease r) = vlease_TaskID c;
  ex_of_attempt : lease_AttemptID (row_Lease r) = vlease_AttemptID c;
  ex_status : task_Status t = StatusRunning;
  ex_state : attempt_State a = AttemptRunning;
  ex_active : lease_active r = true;
  ex_holder : lease_HolderID (row_Lease r) = vlease_HolderID c;
  ex_token : row_TokenHash r = hashToken (vlease_LeaseToken c);
  ex_unexpired : now < lease_ExpiresAt (row_Lease r) }.

Definition context_of (c : VerifyExecutionLeaseCommand) (t : Task) (r : LeaseRow)
    : ExecutionLeaseContext :=
  mkExecutionLeaseContext (vlease_TaskID c) (vlease_AttemptID c) (task_OrganizationID t)
    (task_OrganizationRevisionID t) (task_AssignedRoleID t) (task_AssignedUnitID t)
    StatusRunning AttemptRunning (vlease_HolderID c) (lease_ExpiresAt (row_Lease r)).

Lemma execution_lease_spec (c : VerifyExecutionLeaseCommand) (now : Z) (d : DB) (r : LeaseRow)
    (ctx : ExecutionLeaseContext) :
  Inv d -> db_leases d !! lease_ID (row_Lease r) = Some r ->
  execution_lease c now d r = Some ctx
  <-> exists t a, executing c now d t a r /\ ctx = context_of c t r.
Proof.
  intros Hinv Hr. unfold execution_lease. split.
  - destruct (db_tasks d !! vlease_TaskID c) as [t|] eqn:Ht; [|done].
    destruct (db_attempts d !! vlease_AttemptID c) as [a|] eqn:Ha; [|done].
    pose proof (ky_task _ (inv_keys _ Hinv) _ _ Ht) as Hid.
    pose proof (ky_attempt _ (inv_keys _ Hinv) _ _ Ha) as Haid.
    destruct (_ && (now <? _)) eqn:Hc; [|done]. intros [= <-].
    rewrite !andb_true_iff, !Z.eqb_eq, !bool_decide_eq_true, Z.ltb_lt in Hc.
    destruct Hc as ((((((((H1 & H2) & H3) & H4) & H5) & H6) & H7) & H8) & H9).
    exists t, a. split; [split; congruence|]. unfold context_of. congruence.
  - intros (t & a & [Ht Ha _ H1 H2 H3 H4 H5 H6 H7 H8 H9] & ->). rewrite Ht, Ha.
    pose proof (ky_task _ (inv_keys _ Hinv) _ _ Ht) as Hid.
    pose proof (ky_attempt _ (inv_keys _ Hinv) _ _ Ha) as Haid.
    rewrite Hid, Haid, H1, H2, H3, H4, H5, H6, H7, H8, !Z.eqb_refl, !bool_decide_true by done.
    replace (now <? _) with true by lia. done.
Qed.

(** VerifyActiveExecutionLease answers exactly when the task runs, the attempt
    runs for it and an active, unexpired lease ties them to the given holder and
    token; it then reports that task's organization, revision, role and unit. *)
Lemma execution_lease_is_verified (c : VerifyExecutionLeaseCommand) (w : World)
    (ctx : ExecutionLeaseContext) :
  reachable w -> 0 < vlease_TaskID c -> 0 < vlease_AttemptID c ->
  TrimSpace (vlease_HolderID c) <> EmptyString -> TrimSpace (vlease_LeaseToken c) <> EmptyString ->
  fst (VerifyActiveExecutionLease c w) = Ok ctx
  <-> exists t a r, executing c (env_clock (w_tick w)) (w_db w) t a r /\ ctx = context_of c t r.
Proof.
  intros Hw%reachable_Inv H1 H2 H3 H4. set (now := env_clock (w_tick w)).
  set (found := omap (execution_lease c now (w_db w)) (rows (fun _ => true) (db_leases (w_db w)))).
  assert (Hrun : fst (VerifyActiveExecutionLease c w)
    = match found with x :: _ => Ok x | [] => Err ErrLeaseMismatch end).
  { unfold VerifyActiveExecutionLease, bind, throwIf, get_db, clock_timestamp, is_empty.
    rewrite !bool_decide_false by done.
    replace (vlease_TaskID c <=? 0) with false by lia.
    replace (vlease_AttemptID c <=? 0) with false by lia. simpl. fold now. fold found.
    by destruct found. }
  assert (Hin : forall x, x ∈ found
    <-> exists t a r, executing c now (w_db w) t a r /\ x = context_of c t r).
  { intros x. unfold found. rewrite list_elem_of_omap. split.
    - intros (r & (k & Hk & _)%rows_spec & Hx).
      rewrite <- (ky_lease _ (inv_keys _ Hw) _ _ Hk) in Hk.
      apply execution_lease_spec in Hx as (t & a & He & ->); [eauto|done..].
    - intros (t & a & r & He & ->). exists r. pose proof He as [_ _ Hr _ _ _ _ _ _ _ _ _].
      split; [apply rows_spec; eauto|]. apply execution_lease_spec; eauto. }
  assert (Hone : forall x y, x ∈ found -> y ∈ found -> x = y).
  { intros x y (t & a & r & [Ht _ Hr _ Hid _ _ _ Hact _ _ _] & ->)%Hin
      (t' & a' & r' & [Ht' _ Hr' _ Hid' _ _ _ Hact' _ _ _] & ->)%Hin.
    assert (Heq : lease_ID (row_Lease r) = lease_ID (row_Lease r')).
    { eapply (lk_unique _ _ _ (li_lease _ (inv_leases _ Hw))); [done..|congruence]. }
    rewrite Heq in Hr. congruence. }
  rewrite Hrun, <- Hin. destruct found as [|x l].
  - split; [done|]. intros Hx. by apply not_elem_of_nil in Hx.
  - split; [intros [= ->]; left|]. intros Hx. f_equal. apply Hone; [left|done].
Qed.

End Queue.

(** ** The theorems at concrete states *)

Local Existing Instance demo.

Lemma claim_hands_out_leases_witness :
  exists items w', Claim demo_claim [] fine room 10 world_setup = (Ok items, w')
    /\ length items = 1%nat
    /\ exists ts outs, selected demo_claim [] world_setup ts /\ items = outs ≫= option_list
         /\ Forall2 (handled demo_claim fine room (w_db w')) ts outs
         /\ forall k, k ∉ task_ID <$> ts ->
              db_tasks (w_db w') !! k = db_tasks (w_db world_setup) !! k.
Proof.
  destruct (ok_run (fun l => Nat.eqb (length l) 1) (Claim demo_claim [] fine room 10) world_setup)
    as (items & w' & Hrun & Hp); [vm_compute; reflexivity|].
  exists items, w'. split; [exact Hrun|]. split; [by apply Nat.eqb_eq|].
  exact (claim_hands_out_leases demo_claim [] fine room 10 items world_setup w'
      (run_reachable _ setup_valid) Hrun).
Defined.

(** The lease of the running attempt. *)
Definition demo_row : LeaseRow :=
  default (mkLeaseRow (mkLease 0 0 0 "" LeaseExpired 0 0 0 None None) "")
    (db_leases (w_db world_running) !! 1).

Lemma lease_check_decides_witness :
  fst (verifyLease (demo_lease 1 "wrong") world_running) = Err ErrLeaseMismatch.
Proof.
  rewrite (lease_check_decides (demo_lease 1 "wrong") world_running 1 demo_row
    (run_reachable _ running_valid)); vm_compute; reflexivity.
Defined.

Lemma lease_commands_are_authorized_witness :
  exists t w', RecordAttemptResult (demo_failure 1 "token-0") demo_policy_retry 10 world_running
               = (Ok t, w')
    /\ exists r, authorized (demo_lease 1 "token-0") (env_clock (S (w_tick world_running)))
         (w_db world_running) r.
Proof.
  destruct (ok_run (fun _ => true) (RecordAttemptResult (demo_failure 1 "token-0") demo_policy_retry 10) world_running)
    as (t & w' & Hrun & Hp); [vm_compute; reflexivity|].
  exists t, w'. split; [exact Hrun|].
  exact (proj2 (proj2 (lease_commands_are_authorized world_running
      (run_reachable _ running_valid))) _ _ _ _ _ Hrun).
Defined.

Lemma attempt_result_is_recorded_witness :
  exists t w', RecordAttemptResult (demo_failure 1 "token-0") demo_policy_retry 10 world_running
               = (Ok t, w')
    /\ exists t0, db_tasks (w_db world_running) !! 1 = Some t0
         /\ task_Status t0 = StatusRunning /\ db_tasks (w_db w') !! 1 = Some t
         /\ active_leases 1 (w_db w') = [] /\ task_AttemptCount t = task_AttemptCount t0
         /\ result_recorded OutcomeRetryableFailure demo_policy_retry t0 t
              (db_dead_letters (w_db world_running)) (db_dead_letters (w_db w')).
Proof.
  destruct (ok_run (fun _ => true) (RecordAttemptResult (demo_failure 1 "token-0") demo_policy_retry 10) world_running)
    as (t & w' & Hrun & Hp); [vm_compute; reflexivity|].
  exists t, w'. split; [exact Hrun|].
  exact (attempt_result_is_recorded (demo_failure 1 "token-0") demo_policy_retry 10 t
      world_running w' (run_reachable _ running_valid) Hrun).
Defined.

Lemma heartbeat_extends_only_its_lease_witness :
  exists l w', Heartbeat (demo_lease 1 "token-0") (20 * Second) world_running = (Ok l, w')
    /\ exists r heartbeat tick,
         authorized (demo_lease 1 "token-0") (env_clock (S (w_tick world_running)))
           (w_db world_running) r
         /\ lease_ExpiresAt l = env_clock tick
              + env_make_interval (Z.min (30 * Second) (20 * Second))
         /\ l = row_Lease (lease_extended heartbeat (lease_ExpiresAt l) r)
         /\ w_db w' = put_lease (lease_ID (row_Lease r))
                        (lease_extended heartbeat (lease_ExpiresAt l) r) (w_db world_running).
Proof.
  destruct (ok_run (fun _ => true) (Heartbeat (demo_lease 1 "token-0") (20 * Second)) world_running)
    as (l & w' & Hrun & Hp); [vm_compute; reflexivity|].
  exists l, w'. split; [exact Hrun|].
  exact (heartbeat_extends_only_its_lease (demo_lease 1 "token-0") (20 * Second) l
      world_running w' (run_reachable _ running_valid) Hrun).
Defined.

Definition demo_verify : VerifyExecutionLeaseCommand :=
  mkVerifyExecutionLeaseCommand 1 1 "worker-1" "token-0".

Lemma execution_lease_is_verified_witness :
  exists t a r, executing demo_verify (env_clock (w_tick world_running)) (w_db world_running) t a r
    /\ context_of demo_verify (task_of world_running 1) demo_row = context_of demo_verify t r.
Proof.
  apply (execution_lease_is_verified demo_verify world_running
    (context_of demo_verify (task_of world_running 1) demo_row)
    (run_reachable _ running_valid)); by vm_compute.
Defined.
