(* ===== verification/CreateProps.v ===== *)
(** * Properties of creation and redrive

    Both may be repeated: the second call finds what the first one made. *)

From stdpp Require Import base tactics list gmap strings sorting relations.
From Stdlib Require Import ZArith Lia.
From S2P Require Import Prelude GoLib TaskDomain Database StoreHelpers StoreMutate StoreCreate.
From S2P Require Import StoreQueue StoreOutbox StoreRun StoreSpec TaskInvariant StoreRefine.
From S2P Require Import MutateRefine CreateRefine StoreMachine Scenario.

Local Open Scope Z_scope.

Section Create.
Context `{Env}.

(** ** The existing row *)

(** The row with an organization's idempotency key is the only one. *)
Lemma with_key_unique (d : DB) (k : Z) (t : Task) (organization key : string) :
  Inv d -> db_tasks d !! k = Some t -> with_key organization key t = true ->
  exists l, rows (with_key organization key) (db_tasks d) = t :: l.
Proof.
  intros Hinv Ht Hk. destruct (rows _ _) as [|x l] eqn:Hrows.
  - rewrite rows_nil in Hrows. by rewrite (Hrows _ _ Ht) in Hk.
  - exists l. f_equal.
    assert (Hx : x ∈ rows (with_key organization key) (db_tasks d)) by (rewrite Hrows; left).
    apply rows_spec in Hx as (k' & Hk' & Hx).
    apply with_key_true in Hk as [Ho Hi], Hx as [Ho' Hi'].
    assert (k' = k) as ->; [|congruence].
    eapply (ky_unique _ (inv_keys _ Hinv)); [done|done|congruence..].
Qed.

(** The CHECK constraints of a new row do not depend on what the database adds. *)
Lemma tasks_check_new (id now available : Z) (input : PreparedCreate) :
  tasks_check (new_task id now available input) = tasks_check (new_task 0 0 0 input).
Proof. reflexivity. Qed.

(** What a creation that finds its row runs. *)
Lemma create_existing (input : PreparedCreate) (w : World) (k : Z) (t : Task) :
  let r := prepared_Request input in
  Inv (w_db w) -> db_tasks (w_db w) !! k = Some t ->
  with_key (create_OrganizationID r) (create_IdempotencyKey r) t = true ->
  tasks_check (new_task 0 0 0 input) = true ->
  exists w1, w_db w1 = w_db w /\ createInTx input w = reuse_existing input t w1.
Proof.
  intros r Hinv Ht Hk Hck. destruct (with_key_unique _ _ _ _ _ Hinv Ht Hk) as [l Hl].
  assert (Hnone : exists w1, w_db w1 = w_db w /\ insert_task_if_new input w = (Ok None, w1)).
  { unfold insert_task_if_new. cbv [bind transaction_now clock_timestamp nextval get_db].
    cbn [w_db w_seq w_tick w_random w_now].
    rewrite tasks_check_new, Hck.
    cbv [throwIf negb ret]. fold r. rewrite Hl. eexists. split; [|reflexivity]. done. }
  destruct Hnone as (w1 & Hw1 & Hrun). exists w1. split; [done|].
  unfold createInTx, bind at 1. rewrite Hrun. unfold bind, get_db. rewrite Hw1. fold r.
  by rewrite Hl.
Qed.

Lemma update_task_run (id : Z) (c : Task -> bool) (f : Task -> Task) (t : Task) (w : World) :
  db_tasks (w_db w) !! id = Some t -> c t = true -> tasks_check (f t) = true ->
  update_task id c f w
  = (Ok (Some (f t)), set_db (set_tasks (<[id := f t]> (db_tasks (w_db w))) (w_db w)) w).
Proof.
  intros Ht Hc Hck. unfold update_task. cbv [bind get_db throwIf modify ret].
  rewrite Ht, Hc, Hck. reflexivity.
Qed.

(** A row that was taken over is taken over again as it is. *)
Lemma reuse_existing_again (input : PreparedCreate) (x t : Task) (created : bool)
    (w w' w1 : World) :
  stored w x -> reuse_existing input x w = (Ok (t, created), w') -> w_db w1 = w_db w' ->
  exists w2, reuse_existing input t w1 = (Ok (t, false), w2) /\ w_db w2 = w_db w'.
Proof.
  intros Hst Hm Hw. pose proof Hm as Hrun. unfold reuse_existing in Hm.
  destruct (bool_decide (task_RequestHash x = prepared_RequestHash input)) eqn:Hsame.
  { apply ret_ok in Hm as [[= -> ->] ->]. exists w1. split; [|done].
    unfold reuse_existing. by rewrite Hsame. }
  next Hm w2 H2. apply lift_ok in H2 as [Hl ->]. rename r into legacy. skip Hm as Hh.
  assert (Hagain : forall y, task_RequestHash y = task_RequestHash x ->
    reuse_existing input y w1
    = (if prepared_TaskClassExplicit input then
        if bool_decide (task_TaskClass y = TaskClassLegacyUnspecified) then
          let! bound := update_task (task_ID y)
            (fun t => bool_decide (task_TaskClass t = TaskClassLegacyUnspecified))
            (task_classified (create_TaskClass (prepared_Request input))) in
          match bound with
          | Some row => ret (row, false)
          | None => throw (mapError NoRows)
          end
        else
          do! throwIf (negb (bool_decide (create_TaskClass (prepared_Request input)
                                          = task_TaskClass y))) ErrIdempotencyConflict in
          ret (y, false)
      else ret (y, false)) w1).
  { intros y Hy. unfold reuse_existing. rewrite Hy, Hsame. unfold bind, lift, throwIf.
    by rewrite Hl, Hh. }
  destruct (prepared_TaskClassExplicit input) eqn:Hex.
  2:{ apply ret_ok in Hm as [[= -> ->] ->]. exists w1. by rewrite Hagain. }
  destruct (bool_decide (task_TaskClass x = TaskClassLegacyUnspecified)) eqn:Hcl.
  2:{ skip Hm as Hc. apply ret_ok in Hm as [[= -> ->] ->]. exists w1.
      rewrite Hagain, Hcl by done. unfold bind, throwIf. by rewrite Hc. }
  next Hm w2 H2. apply update_task_ok in H2. destruct r0 as [row|]; [|by apply throw_ok in Hm].
  apply ret_ok in Hm as [[= -> ->] ->].
  destruct H2 as (x' & Hx & _ & -> & Hck & Hw2). unfold stored in Hst. rewrite Hst in Hx.
  injection Hx as <-. rewrite Hagain by done. simpl.
  destruct (bool_decide_reflect (create_TaskClass (prepared_Request input)
      = TaskClassLegacyUnspecified)) as [Hleg|Hleg].
  - assert (Hrow : db_tasks (w_db w1) !! task_ID x
      = Some (task_classified (create_TaskClass (prepared_Request input)) x)).
    { rewrite Hw, Hw2. simpl. by rewrite lookup_insert_eq. }
    cbv [bind]. erewrite update_task_run; [|exact Hrow|by apply bool_decide_eq_true|exact Hck].
    eexists. split; [reflexivity|].
    change (set_tasks (<[task_ID x := task_classified (create_TaskClass (prepared_Request input)) x]>
      (db_tasks (w_db w1))) (w_db w1) = w_db w2).
    rewrite insert_id by done. rewrite <- Hw. by destruct (w_db w1).
  - unfold bind, throwIf. rewrite bool_decide_true by done. simpl. by exists w1.
Qed.

(** What a creation that succeeded ran: a fresh row, or the existing one. *)
Lemma createInTx_cases (input : PreparedCreate) (t : Task) (created : bool) (w w' : World) :
  let r := prepared_Request input in
  Inv (w_db w) -> creatable input -> createInTx input w = (Ok (t, created), w') ->
  tasks_check (new_task 0 0 0 input) = true
  /\ if created then exists id now available, t = new_task id now available input
     else exists k x w1, w_db w1 = w_db w /\ db_tasks (w_db w) !! k = Some x
       /\ with_key (create_OrganizationID r) (create_IdempotencyKey r) x = true
       /\ stored w1 x /\ reuse_existing input x w1 = (Ok (t, false), w').
Proof.
  intros r Hinv Hini Hm. unfold createInTx in Hm. next Hm w1 H1.
  assert (Hck : tasks_check (new_task 0 0 0 input) = true).
  { unfold insert_task_if_new in H1. next H1 v1 K1. next H1 v2 K2. next H1 v3 K3. skip H1.
    skip H1 as Hc. apply negb_false_iff in Hc. by rewrite tasks_check_new in Hc. }
  split; [done|]. apply insert_task_if_new_ok in H1. destruct r0 as [row|].
  - destruct H1 as (Hnew & _). next Hm w2 H2. next Hm w3 H3. next Hm w4 H4.
    by apply ret_ok in Hm as [[= -> ->] _].
  - destruct H1 as [Hw1 _]. skip Hm. fold r in Hm.
    destruct (rows _ (db_tasks (w_db w1))) as [|x l] eqn:Hrows; [by apply throw_ok in Hm|].
    assert (Hx : x ∈ rows (with_key (create_OrganizationID r) (create_IdempotencyKey r))
      (db_tasks (w_db w1))) by (rewrite Hrows; left).
    apply rows_spec in Hx as (k & Hk & Hx).
    assert (Hst : stored w1 x).
    { unfold stored. rewrite Hw1 in Hk |- *. by rewrite (ky_task _ (inv_keys _ Hinv) _ _ Hk). }
    pose proof Hm as Hr. eapply (reuse_existing_ok false) in Hr as (-> & _); [|done].
    exists k, x, w1. rewrite <- Hw1. done.
Qed.

Lemma reuse_existing_key (input : PreparedCreate) (x t : Task) (created : bool) (w w' : World) :
  reuse_existing input x w = (Ok (t, created), w') -> stored w x ->
  task_OrganizationID t = task_OrganizationID x
  /\ task_IdempotencyKey t = task_IdempotencyKey x.
Proof.
  intros Hm Hst. unfold reuse_existing in Hm.
  destruct (bool_decide (task_RequestHash x = _)); [by apply ret_ok in Hm as [[= -> ->] _]|].
  next Hm w2 H2. apply lift_ok in H2 as [_ ->]. skip Hm.
  destruct (prepared_TaskClassExplicit input);
    [|by apply ret_ok in Hm as [[= -> ->] _]].
  destruct (bool_decide (task_TaskClass x = _)).
  - next Hm w3 H3. apply update_task_ok in H3.
    match type of H3 with match ?o with _ => _ end => destruct o as [row|] end;
      [|by apply throw_ok in Hm].
    apply ret_ok in Hm as [[= -> ->] _]. destruct H3 as (x' & Hx & _ & -> & _).
    unfold stored in Hst. rewrite Hst in Hx. by injection Hx as <-.
  - skip Hm. by apply ret_ok in Hm as [[= -> ->] _].
Qed.

(** ** Idempotence *)

(** C35: a creation that succeeded gives, when the same request comes again, the
    same task and no change of the tables. *)
Theorem create_is_idempotent (input : PreparedCreate) (t : Task) (created : bool)
    (w w1 : World) :
  reachable w -> creatable input -> Create input w = (Ok (t, created), w1) ->
  exists w2, Create input w1 = (Ok (t, false), w2) /\ w_db w2 = w_db w1.
Proof.
  intros Hw%reachable_Inv Hini Hm%withTx_begin.
  assert (Hb : Inv (w_db (begin_tx w))) by done.
  pose proof Hm as Hok. eapply (createInTx_ok false) in Hok as (Hsteps & Hst & _); [|done..].
  assert (Hinv1 : Inv (w_db w1)) by (by eapply Inv_steps_on).
  pose proof Hm as Hcases. apply createInTx_cases in Hcases as [Hck Hcases]; [|done..].
  assert (Hagain : exists w2, createInTx input (begin_tx w1) = (Ok (t, false), w2)
                              /\ w_db w2 = w_db w1).
  { destruct created.
    - destruct Hcases as (id & now & available & Ht).
      destruct (create_existing input (begin_tx w1) (task_ID t) t Hinv1 Hst) as (w3 & Hw3 & ->);
        [subst t; by rewrite with_key_true|done|].
      exists w3. split; [|done]. unfold reuse_existing. rewrite bool_decide_true; [done|].
      by subst t.
    - destruct Hcases as (k & x & w0 & _ & _ & Hkey & Hx & Hre).
      apply with_key_true in Hkey as [Ho Hi].
      destruct (reuse_existing_key _ _ _ _ _ _ Hre Hx) as [Ho' Hi'].
      destruct (create_existing input (begin_tx w1) (task_ID t) t Hinv1 Hst) as (w3 & Hw3 & ->);
        [rewrite with_key_true; split; congruence|done|].
      eapply reuse_existing_again; [exact Hx|exact Hre|done]. }
  destruct Hagain as (w2 & Hrun & Hdb). exists w2. split; [|done].
  unfold Create, withTx. fold (begin_tx w1). by rewrite Hrun.
Qed.

(** ** Redrive *)

(** The episodes before a letter depend on which letters there are, not on how
    the tables list them. *)
Lemma prior_letters_spec (tasks : list Z) (t : gmap Z DeadLetter) (l : DeadLetter) :
  l ∈ prior_letters tasks t
  <-> exists k s, t !! k = Some l /\ dead_RedriveTaskID l = Some s /\ s ∈ tasks.
Proof.
  unfold prior_letters. rewrite rows_spec. split.
  - intros (k & Hk & Hl). destruct (dead_RedriveTaskID l) as [s|] eqn:Hs; [|done].
    apply bool_decide_eq_true in Hl. eauto.
  - intros (k & s & Hk & Hs & Hin). exists k. split; [done|]. rewrite Hs.
    by apply bool_decide_eq_true.
Qed.

Lemma chain_depth_ext (fuel : nat) (l1 l2 : list Z) (t1 t2 : gmap Z DeadLetter)
    (P : Z -> Prop) :
  (forall z, z ∈ l1 -> P z) -> (forall k l, t1 !! k = Some l -> P (dead_TaskID l)) ->
  (forall s l, P s -> dead_RedriveTaskID l = Some s ->
     (exists k, t1 !! k = Some l) <-> (exists k, t2 !! k = Some l)) ->
  (forall z, z ∈ l1 <-> z ∈ l2) -> chain_depth fuel l1 t1 = chain_depth fuel l2 t2.
Proof.
  intros H1 Ht Hsame. revert l1 l2 H1. induction fuel as [|fuel IH]; intros l1 l2 H1 Hl; [done|].
  assert (Hp : forall l, l ∈ prior_letters l1 t1 <-> l ∈ prior_letters l2 t2).
  { intros l. rewrite !prior_letters_spec. split.
    - intros (k & s & Hk & Hs & Hin). destruct (Hsame s l (H1 _ Hin) Hs) as [Hto _].
      destruct Hto as [k' Hk']; [eauto|]. exists k', s. by rewrite <- Hl.
    - intros (k & s & Hk & Hs & Hin). apply Hl in Hin.
      destruct (Hsame s l (H1 _ Hin) Hs) as [_ Hto].
      destruct Hto as [k' Hk']; [eauto|]. eauto. }
  cbn [chain_depth]. destruct (prior_letters l1 t1) as [|x xs] eqn:E1, (prior_letters l2 t2) as [|y ys] eqn:E2.
  - done.
  - exfalso. assert (Hy : y ∈ y :: ys) by left. apply Hp in Hy. by apply not_elem_of_nil in Hy.
  - exfalso. assert (Hx : x ∈ x :: xs) by left. apply Hp in Hx. by apply not_elem_of_nil in Hx.
  - f_equal. apply IH.
    + intros z (l & -> & Hin)%list_elem_of_fmap. rewrite <- E1 in Hin.
      apply prior_letters_spec in Hin as (k & s & Hk & _). by eapply Ht.
    + intros z. rewrite !list_elem_of_fmap. split; intros (l & -> & Hin); exists l;
        (split; [done|]); by apply Hp.
Qed.

(** Stamping a letter with a fresh successor adds no episode before it. *)
Lemma chain_depth_stamped (d : DB) (lid now successor : Z) (l : DeadLetter) :
  Inv d -> db_dead_letters d !! lid = Some l -> dead_RedriveTaskID l = None ->
  db_tasks d !! successor = None ->
  chain_depth recoveryChainDepthCap [dead_TaskID l]
    (<[lid := dead_redriven now successor l]> (db_dead_letters d))
  = chain_depth recoveryChainDepthCap [dead_TaskID l] (db_dead_letters d).
Proof.
  intros Hinv Hl Hnone Hfresh.
  assert (Hne : forall k x, db_dead_letters d !! k = Some x -> dead_TaskID x <> successor).
  { intros k x Hx Heq. destruct (di_task _ _ (inv_dead _ Hinv) _ _ Hx) as (t & Ht & _). congruence. }
  symmetry. apply (chain_depth_ext _ _ _ _ _ (fun z => z <> successor)); [|done| |done].
  - intros z ->%list_elem_of_singleton. by eapply Hne.
  - intros s x Hs Hx. split; intros [k Hk].
    + exists k. rewrite lookup_insert_ne; [done|]. intros <-. congruence.
    + apply lookup_insert_Some in Hk as [[<- <-]|[Hk1 Hk2]]; [|by exists k].
      simpl in Hx. congruence.
Qed.

(** The parts of a redrive that succeeded: the letter was stamped before, or is
    stamped now with a fresh successor. *)
Lemma Redrive_tx_cases (input : PreparedRedrive) (r : RedriveResult) (w w' : World) :
  let lid := predrive_DeadLetterID input in
  Inv (w_db w) -> creatable (predrive_Successor input) -> Redrive_tx input w = (Ok r, w') ->
  exists l, db_dead_letters (w_db w) !! lid = Some l
    /\ redriven_Episode r
       = chain_depth recoveryChainDepthCap [dead_TaskID l] (db_dead_letters (w_db w)) + 1
    /\ match dead_RedriveTaskID l with
       | Some s => db_tasks (w_db w) !! s = Some (redriven_Successor r)
                   /\ redriven_Created r = false /\ w_db w' = w_db w
       | None => redriven_Created r = true
           /\ redriven_Episode r <= predrive_MaxRecoveryEpisodes input
           /\ db_tasks (w_db w) !! task_ID (redriven_Successor r) = None
           /\ stored w' (redriven_Successor r)
           /\ exists now, db_dead_letters (w_db w')
                = <[lid := dead_redriven now (task_ID (redriven_Successor r)) l]>
                    (db_dead_letters (w_db w))
       end.
Proof.
  intros lid Hinv Hini Hm. unfold Redrive_tx in Hm. skip Hm. fold lid in Hm.
  destruct (db_dead_letters (w_db w) !! lid) as [l|] eqn:Hl; [|by apply throw_ok in Hm].
  exists l. split; [done|]. next Hm w1 H1. unfold recoveryChainDepth in H1. skip H1.
  rewrite Hl in H1. apply ret_ok in H1 as [-> ->].
  destruct (dead_RedriveTaskID l) as [s|] eqn:Hs.
  { next Hm w2 H2. apply select_task_ok in H2 as [Hsel ->]. by apply ret_ok in Hm as [-> ->]. }
  skip Hm as Hep. apply Z.ltb_ge in Hep. next Hm w2 H2.
  match type of H2 with _ = (Ok ?x, _) => destruct x as [t created] end.
  eapply (createInTx_ok false) in H2 as (_ & Hst2 & Hd2 & Hnew); [|done..].
  skip Hm as Hc. apply negb_false_iff in Hc. simpl in Hc. subst created.
  destruct (Hnew eq_refl) as [Hfresh _].
  next Hm w3 H3. skip Hm as Hn. apply negb_false_iff, Z.eqb_eq in Hn.
  apply stamp_dead_letter_ok in H3 as (l' & now & Hl' & _ & H3); [|done].
  rewrite Hd2 in Hl'. assert (l' = l) as -> by congruence.
  next Hm w4 H4. apply appendTaskEvent_ok in H4 as (e4 & o4 & a4 & _ & _ & H4). skip Hm.
  destruct (db_tasks (w_db w4) !! dead_TaskID l); [|by apply throw_ok in Hm].
  next Hm w5 H5. apply appendTaskEvent_ok in H5 as (e5 & o5 & a5 & _ & _ & H5).
  apply ret_ok in Hm as [-> ->]. cbn [redriven_Episode redriven_Created redriven_Successor fst].
  split_and!; try done.
  - unfold stored. rewrite H5, H4, H3. exact Hst2.
  - exists now. rewrite H5, H4, H3. simpl. by rewrite Hd2.
Qed.

(** A redrive that succeeded leaves its dead letter stamped with the
    successor it returns, a successor it creates is a fresh task within the
    allowed recovery episodes, and the same redrive again returns the same
    successor and episode and changes nothing. *)
Lemma redrive_is_idempotent (input : PreparedRedrive) (r : RedriveResult) (w w1 : World) :
  reachable w -> creatable (predrive_Successor input) -> Redrive input w = (Ok r, w1) ->
  (exists l, db_dead_letters (w_db w1) !! predrive_DeadLetterID input = Some l
     /\ dead_RedriveTaskID l = Some (task_ID (redriven_Successor r)))
  /\ (redriven_Created r = true ->
        redriven_Episode r <= predrive_MaxRecoveryEpisodes input
        /\ db_tasks (w_db w) !! task_ID (redriven_Successor r) = None)
  /\ exists w2,
       Redrive input w1
       = (Ok (mkRedriveResult (redriven_Successor r) false (redriven_Episode r)), w2)
       /\ w_db w2 = w_db w1.
Proof.
  intros Hw%reachable_Inv Hini Hm%withTx_begin.
  apply Redrive_tx_cases in Hm as (l & Hl & Hep & Hcase); [|done..].
  assert (Hfinal : exists l', db_dead_letters (w_db w1) !! predrive_DeadLetterID input = Some l'
    /\ dead_TaskID l' = dead_TaskID l
    /\ dead_RedriveTaskID l' = Some (task_ID (redriven_Successor r))
    /\ db_tasks (w_db w1) !! task_ID (redriven_Successor r) = Some (redriven_Successor r)
    /\ redriven_Episode r
       = chain_depth recoveryChainDepthCap [dead_TaskID l'] (db_dead_letters (w_db w1)) + 1).
  { destruct (dead_RedriveTaskID l) as [s|] eqn:Hs.
    - destruct Hcase as (Hsucc & _ & ->). exists l.
      assert (Hid : task_ID (redriven_Successor r) = s)
        by (by eapply ky_task; [apply inv_keys|]).
      rewrite Hid. done.
    - destruct Hcase as (_ & _ & Hfresh & Hst & now & Hd). rewrite Hd, lookup_insert_eq.
      eexists. split; [reflexivity|]. split; [reflexivity|]. split; [reflexivity|].
      split; [exact Hst|].
      rewrite Hep. apply (f_equal (fun z => z + 1)). symmetry.
      exact (chain_depth_stamped (w_db w) _ _ _ _ Hw Hl Hs Hfresh). }
  destruct Hfinal as (l' & Hl' & Htask & Hred & Hsucc & Hep').
  split; [by exists l'|]. split.
  { intros Hc. destruct (dead_RedriveTaskID l); [|tauto]. destruct Hcase as (_ & Hc' & _). congruence. }
  assert (Hdepth : recoveryChainDepth (predrive_DeadLetterID input) (begin_tx w1)
    = (Ok (redriven_Episode r - 1), begin_tx w1)).
  { unfold recoveryChainDepth. cbv [bind get_db]. change (w_db (begin_tx w1)) with (w_db w1).
    rewrite Hl', Hep', Z.add_simpl_r. reflexivity. }
  unfold Redrive, withTx. fold (begin_tx w1). unfold Redrive_tx. cbv [bind get_db select_task].
  change (w_db (begin_tx w1)) with (w_db w1). rewrite Hl', Hdepth, Hred.
  change (w_db (begin_tx w1)) with (w_db w1). rewrite Hsucc. cbv [ret].
  rewrite Z.sub_add. eexists. split; reflexivity.
Qed.

End Create.

(** ** The theorems at concrete states *)

Local Existing Instance demo.

Lemma create_is_idempotent_witness :
  exists t w1, Create (demo_input "k9" [1]) world_setup = (Ok (t, true), w1)
    /\ exists w2, Create (demo_input "k9" [1]) w1 = (Ok (t, false), w2) /\ w_db w2 = w_db w1.
Proof.
  destruct (ok_run snd (Create (demo_input "k9" [1])) world_setup)
    as ([t created] & w1 & Hrun & Hp); [vm_compute; reflexivity|].
  simpl in Hp. subst created. exists t, w1. split; [exact Hrun|].
  apply (create_is_idempotent (demo_input "k9" [1]) t true world_setup w1
    (run_reachable _ setup_valid)); [by left|exact Hrun].
Defined.

Definition demo_redrive : PreparedRedrive :=
  mkPreparedRedrive 1 3 "new credentials" (demo_input "k1-again" []) "human" "alice" 10.

Lemma redrive_is_idempotent_witness :
  exists r w1, Redrive demo_redrive world_dead = (Ok r, w1) /\ redriven_Created r = true
    /\ exists w2,
         Redrive demo_redrive w1
         = (Ok (mkRedriveResult (redriven_Successor r) false (redriven_Episode r)), w2)
         /\ w_db w2 = w_db w1.
Proof.
  destruct (ok_run redriven_Created (Redrive demo_redrive) world_dead)
    as (r & w1 & Hrun & Hp); [vm_compute; reflexivity|].
  exists r, w1. split; [exact Hrun|]. split; [exact Hp|].
  exact (proj2 (proj2 (redrive_is_idempotent demo_redrive r world_dead w1
    (run_reachable _ demo_valid) (or_intror (or_introl eq_refl)) Hrun))).
Defined.
