(* ===== verification/Patterns.v ===== *)
(** * The languages of the engine's patterns

    What the regular expressions of taskclass.go and validation.go accept, as
    lists of words with separators. *)

From stdpp Require Import base tactics list gmap strings.
From Stdlib Require Import ZArith Lia Ascii.
From S2P Require Import Prelude GoLib TaskDomain TaskValidation.

Local Open Scope Z_scope.

(** [strings.Join(words, sep)] on byte lists. *)
Fixpoint join (sep : bytes) (words : list bytes) : bytes :=
  match words with
  | [] => []
  | [w] => w
  | w :: rest => w ++ sep ++ join sep rest
  end.

(** Non-empty lists of words of [P] around a separator. *)
Definition joined (sep : bytes) (P : bytes -> Prop) (min : nat) (l : bytes) : Prop :=
  exists words, (min <= length words)%nat /\ Forall P words /\ l = join sep words.

Lemma star_spec (r : regex) (l : bytes) :
  matches (RStar r) l <-> exists parts, Forall (matches r) parts /\ l = concat parts.
Proof.
  split.
  - intros H. remember (RStar r) as s eqn:Hs.
    induction H as [| | | | |r'|r' l1 l2 H1 _ H2 IH]; try done; injection Hs as ->.
    + by exists [].
    + destruct IH as (parts & Hp & ->); [done|]. exists (l1 :: parts). split; [by constructor|done].
  - intros (parts & Hp & ->). induction Hp as [|x parts Hx _ IH]; simpl; by constructor.
Qed.

Lemma plus_spec (r : regex) (l : bytes) :
  matches (RPlus r) l
  <-> exists parts, (1 <= length parts)%nat /\ Forall (matches r) parts /\ l = concat parts.
Proof.
  unfold RPlus. rewrite seq_spec. split.
  - intros (l1 & l2 & -> & H1 & (parts & Hp & ->)%star_spec).
    exists (l1 :: parts). split; [simpl; lia|]. split; [by constructor|done].
  - intros ([|x parts] & Hlen & Hp & ->); [simpl in Hlen; lia|]. apply Forall_cons in Hp as [Hx Hp].
    exists x, (concat parts). split_and!; [done|done|]. apply star_spec. eauto.
Qed.

Lemma cls_spec (ranges : list (ascii * ascii)) (l : bytes) :
  matches (RCls ranges) l <-> exists c, l = [c] /\ in_class ranges c = true.
Proof.
  split; [intros H; inversion H; eauto|]. intros (c & -> & Hc). by constructor.
Qed.

(** Words over a class. *)
Definition word (ranges : list (ascii * ascii)) (l : bytes) : Prop :=
  l <> [] /\ Forall (fun c => in_class ranges c = true) l.

Lemma word_spec (ranges : list (ascii * ascii)) (l : bytes) :
  matches (RPlus (RCls ranges)) l <-> word ranges l.
Proof.
  rewrite plus_spec. unfold word. split.
  - intros (parts & Hlen & Hp & ->).
    assert (Hall : length (concat parts) = length parts
                   /\ Forall (fun c => in_class ranges c = true) (concat parts)).
    { clear Hlen. induction Hp as [|x parts Hx _ [IHl IHf]]; simpl; [done|].
      apply cls_spec in Hx as (c & -> & Hc). simpl. split; [by rewrite IHl|by constructor]. }
    destruct Hall as [Hl Hf]. split; [|done]. intros Hn. rewrite Hn in Hl. simpl in Hl. lia.
  - intros [Hn Hf]. exists ((fun c => [c]) <$> l). split_and!.
    + rewrite length_fmap. destruct l; [done|simpl; lia].
    + apply Forall_fmap. eapply Forall_impl; [exact Hf|]. intros c Hc. by constructor.
    + clear Hn Hf. induction l as [|c l IH]; simpl; [done|]. f_equal. exact IH.
Qed.

(** A word followed by words behind a separator byte each. *)
Lemma separated_spec (r s : regex) (P : bytes -> Prop) (sep : bytes) (star : bool) (l : bytes) :
  (forall x, matches r x <-> P x) -> (forall x, matches s x <-> x = sep) ->
  matches (RSeq r ((if star then RStar else RPlus) (RSeq s r))) l
  <-> joined sep P (if star then 1 else 2) l.
Proof.
  intros Hr Hs.
  assert (Htail : forall parts, Forall (matches (RSeq s r)) parts ->
    exists words, length words = length parts /\ Forall P words
      /\ concat parts = concat ((fun w => sep ++ w) <$> words)).
  { induction 1 as [|x parts Hx _ (words & Hl & Hw & Hc)]; [by exists []|].
    apply seq_spec in Hx as (x1 & x2 & -> & ->%Hs & Hx2%Hr).
    exists (x2 :: words). simpl. rewrite Hl, Hc. split; [done|]. split; [by constructor|done]. }
  assert (Hjoin : forall w words, join sep (w :: words) = w ++ concat ((fun w => sep ++ w) <$> words)).
  { intros w words. revert w. induction words as [|v words IH]; intros w.
    - simpl. by rewrite app_nil_r.
    - change (join sep (w :: v :: words)) with (w ++ sep ++ join sep (v :: words)).
      rewrite IH. simpl. by rewrite <- !app_assoc. }
  assert (Hparts : matches (RSeq r ((if star then RStar else RPlus) (RSeq s r))) l
    <-> exists x parts, P x /\ ((if star then 0 else 1) <= length parts)%nat
        /\ Forall (matches (RSeq s r)) parts /\ l = x ++ concat parts).
  { rewrite seq_spec. split.
    - intros (x & y & -> & Hx%Hr & Hy). exists x. destruct star.
      + apply star_spec in Hy as (parts & Hp & ->). exists parts. split_and!; try done. lia.
      + apply plus_spec in Hy as (parts & Hlen & Hp & ->). exists parts. done.
    - intros (x & parts & Hx & Hlen & Hp & ->). exists x, (concat parts).
      split; [done|]. split; [by apply Hr|].
      destruct star; [apply star_spec|apply plus_spec]; eauto. }
  rewrite Hparts. split.
  - intros (x & parts & Hx & Hlen & Hp & ->).
    destruct (Htail parts Hp) as (words & Hl & Hw & Hc). exists (x :: words).
    rewrite Hjoin, <- Hc. split_and!; [|by constructor|done].
    simpl. destruct star; lia.
  - intros ([|w words] & Hlen & Hw & ->); [simpl in Hlen; destruct star; lia|].
    apply Forall_cons in Hw as [Hw Hws]. exists w, ((fun w => sep ++ w) <$> words).
    rewrite Hjoin. split_and!; [done| | |done].
    + rewrite length_fmap. simpl in Hlen. destruct star; lia.
    + apply Forall_fmap. eapply Forall_impl; [exact Hws|]. intros v Hv. simpl.
      apply m_seq; [by apply Hs|by apply Hr].
Qed.

Lemma byte_spec (c : ascii) (x : bytes) : matches (RByte c) x <-> x = [c].
Proof.
  unfold RByte. rewrite cls_spec. unfold in_class. simpl. split.
  - intros (d & -> & Hd). f_equal. rewrite orb_false_r, andb_true_iff, !Z.leb_le in Hd.
    assert (Hb : byte_of d = byte_of c) by lia. unfold byte_of in Hb.
    apply (f_equal Z.to_N) in Hb. rewrite !N2Z.id in Hb.
    apply (f_equal ascii_of_N) in Hb. by rewrite !ascii_N_embedding in Hb.
  - intros ->. exists c. split; [done|]. rewrite !Z.leb_refl. done.
Qed.

(** ** Task classes and identifiers *)

Definition lower_word : bytes -> Prop := word [("a"%char, "z"%char); ("0"%char, "9"%char)].

(** Two segments or more around dots, each of lower-case words around
    underscores. *)
Definition class_name (l : bytes) : Prop := joined ["."%char] (joined ["_"%char] lower_word 1) 2 l.

Lemma taskClassPattern_spec (s : string) :
  MatchString taskClassPattern s = true <-> class_name (to_bytes s).
Proof.
  unfold MatchString. rewrite run_regex_spec.
  apply (separated_spec _ _ _ _ false); [|apply byte_spec].
  intros x. apply (separated_spec _ _ _ _ true); [apply word_spec|apply byte_spec].
Qed.

(** ** [strings.TrimSpace]

    Trimmed text starts and ends with no space rune, so trimming is idempotent. *)

(** ** Stripping prefixes *)

Lemma strip_prefix_some (p l r : bytes) : strip_prefix p l = Some r <-> l = p ++ r.
Proof.
  revert l. induction p as [|c p IH]; intros l; simpl.
  - split; [by intros [= ->]|by intros ->].
  - destruct l as [|d l]; [split; done|]. case_decide as Hcd.
    + subst d. rewrite IH. split; [by intros ->|by intros [= ->]].
    + split; [done|]. intros [= -> ->]. done.
Qed.

(** No prefix of the list starts [l]. *)
Definition clean (ps : list bytes) (l : bytes) : Prop := strip_any ps l = None.

Lemma strip_any_spec (ps : list bytes) (l r : bytes) :
  strip_any ps l = Some r -> exists p, p ∈ ps /\ l = p ++ r.
Proof.
  induction ps as [|p ps IH]; simpl; [done|]. destruct (strip_prefix p l) as [x|] eqn:Hp.
  - intros [= ->]. apply strip_prefix_some in Hp. exists p. split; [left|done].
  - intros Hr. destruct (IH Hr) as (q & Hq & ->). exists q. split; [by right|done].
Qed.

Lemma clean_spec (ps : list bytes) (l : bytes) :
  clean ps l <-> forall p r, p ∈ ps -> l <> p ++ r.
Proof.
  unfold clean. induction ps as [|p ps IH]; simpl.
  - split; [|done]. intros _ p r Hp. by apply not_elem_of_nil in Hp.
  - destruct (strip_prefix p l) as [x|] eqn:Hp.
    + split; [done|]. intros Hall. apply strip_prefix_some in Hp. exfalso. by eapply Hall; [left|].
    + rewrite IH. split; [|intros Hall q r Hq; apply Hall; by right].
      intros Hall q r [->|Hq]%elem_of_cons; [|by apply Hall].
      intros Hl. apply strip_prefix_some in Hl. congruence.
Qed.

(** Enough rounds strip everything there is to strip. *)
Lemma strip_all_clean (fuel : nat) (ps : list bytes) (l : bytes) :
  [] ∉ ps -> (length l <= fuel)%nat -> clean ps (strip_all fuel ps l).
Proof.
  intros Hne. revert l. induction fuel as [|fuel IH]; intros l Hl; simpl.
  - destruct l; [|simpl in Hl; lia]. apply clean_spec. intros p r Hp Heq.
    symmetry in Heq. apply app_eq_nil in Heq as [-> _]. done.
  - destruct (strip_any ps l) as [r|] eqn:Hr; [|done]. apply IH.
    apply strip_any_spec in Hr as (p & Hp & ->). rewrite length_app in Hl.
    destruct p; [done|simpl in Hl; lia].
Qed.

Lemma strip_all_suffix (fuel : nat) (ps : list bytes) (l : bytes) :
  exists k, l = k ++ strip_all fuel ps l.
Proof.
  revert l. induction fuel as [|fuel IH]; intros l; simpl; [by exists []|].
  destruct (strip_any ps l) as [r|] eqn:Hr; [|by exists []].
  apply strip_any_spec in Hr as (p & _ & ->). destruct (IH r) as [k Hk].
  exists (p ++ k). rewrite <- app_assoc. by rewrite <- Hk.
Qed.

Lemma strip_all_id (fuel : nat) (ps : list bytes) (l : bytes) :
  clean ps l -> strip_all fuel ps l = l.
Proof. unfold clean. intros Hc. destruct fuel; simpl; [done|]. by rewrite Hc. Qed.

(** A prefix of a clean list is clean. *)
Lemma clean_prefix (ps : list bytes) (l k : bytes) : clean ps (l ++ k) -> clean ps l.
Proof.
  rewrite !clean_spec. intros Hall p r Hp ->. apply (Hall p (r ++ k) Hp). by rewrite app_assoc.
Qed.

(** ** Trimming *)

Lemma space_runes_nonempty : [] ∉ space_runes /\ [] ∉ map (@rev ascii) space_runes.
Proof.
  assert (Hb : Forall (fun p => p <> []) space_runes
               /\ Forall (fun p => p <> []) (map (@rev ascii) space_runes)).
  { split; repeat constructor; by vm_compute. }
  destruct Hb as [H1 H2]. rewrite Forall_forall in H1, H2. split; intros Hin.
  - by apply (H1 [] Hin).
  - by apply (H2 [] Hin).
Qed.

(** No space rune at either end. *)
Definition trimmed (l : bytes) : Prop :=
  clean space_runes l /\ clean (map (@rev ascii) space_runes) (rev l).

Lemma trim_bytes_trimmed (l : bytes) : trimmed (trim_bytes l).
Proof.
  destruct space_runes_nonempty as [H1 H2]. unfold trim_bytes, trim_left.
  set (l1 := strip_all (length l) space_runes l).
  assert (Hl1 : clean space_runes l1) by (by apply strip_all_clean).
  set (l2 := strip_all (length (rev l1)) (map (@rev ascii) space_runes) (rev l1)).
  assert (Hl2 : clean (map (@rev ascii) space_runes) l2) by (by apply strip_all_clean).
  split; [|by rewrite rev_involutive].
  destruct (strip_all_suffix (length (rev l1)) (map (@rev ascii) space_runes) (rev l1)) as [k Hk].
  fold l2 in Hk. apply (f_equal (@rev ascii)) in Hk. rewrite rev_involutive, rev_app_distr in Hk.
  rewrite Hk in Hl1. by eapply clean_prefix.
Qed.

Lemma trimmed_id (l : bytes) : trimmed l -> trim_bytes l = l.
Proof.
  intros [H1 H2]. unfold trim_bytes, trim_left.
  rewrite (strip_all_id _ _ l H1), (strip_all_id _ _ (rev l) H2). apply rev_involutive.
Qed.

Lemma TrimSpace_idempotent (s : string) : TrimSpace (TrimSpace s) = TrimSpace s.
Proof.
  unfold TrimSpace. rewrite to_of_bytes. f_equal. apply trimmed_id, trim_bytes_trimmed.
Qed.
