(* ===== verification/JsonProps.v ===== *)
(** * Decoding what was encoded

    The decoder of Json.v reads every encoding back, and what it builds is well
    formed, so that a canonical text is the canonical form of itself. *)

From stdpp Require Import base tactics list sets strings sorting.
From Stdlib Require Import ZArith Lia Ascii.
From S2P Require Import Prelude GoLib Json TaskDomain TaskValidation Patterns.

Local Open Scope Z_scope.

(** ** Bytes *)

Lemma byte_of_range (c : ascii) : 0 <= byte_of c < 256.
Proof. unfold byte_of. pose proof (N_ascii_bounded c). lia. Qed.

Lemma byte_of_chr (n : Z) : 0 <= n < 256 -> byte_of (chr n) = n.
Proof. intros H. unfold byte_of, chr. rewrite N_ascii_embedding; lia. Qed.

Lemma is_byte_spec (n : Z) (c : ascii) : is_byte n c = true <-> c = chr n /\ 0 <= n < 256.
Proof.
  unfold is_byte. rewrite Z.eqb_eq. split.
  - intros <-. split; [|apply byte_of_range]. unfold byte_of, chr.
    by rewrite N2Z.id, ascii_N_embedding.
  - intros [-> H]. by apply byte_of_chr.
Qed.

Lemma within_spec (lo hi : Z) (c : ascii) : within lo hi c = true <-> lo <= byte_of c <= hi.
Proof. unfold within. rewrite andb_true_iff, !Z.leb_le. done. Qed.

(** ** UTF-8 *)

(** A sequence of well-formed encodings. *)
Inductive utf8 : bytes -> Prop :=
| utf8_nil : utf8 []
| utf8_ascii c r : byte_of c < 128 -> utf8 r -> utf8 (c :: r)
| utf8_2 c d r : rune_size [c; d] = 2%nat -> utf8 r -> utf8 (c :: d :: r)
| utf8_3 c d e r : rune_size [c; d; e] = 3%nat -> utf8 r -> utf8 (c :: d :: e :: r)
| utf8_4 c d e f r : rune_size [c; d; e; f] = 4%nat -> utf8 r -> utf8 (c :: d :: e :: f :: r).

(** The first byte of a longer sequence tells its size. *)
Lemma rune_size_lead (c : ascii) (r : bytes) (n : nat) :
  rune_size (c :: r) = S n ->
  (n = 1%nat /\ 194 <= byte_of c <= 223) \/ (n = 2%nat /\ 224 <= byte_of c <= 239)
  \/ (n = 3%nat /\ 240 <= byte_of c <= 244).
Proof.
  destruct r as [|d r]; [done|]. unfold rune_size.
  destruct (within 194 223 c) eqn:H2; [rewrite within_spec in H2; destruct (is_cont d); naive_solver|].
  destruct (within 224 239 c) eqn:H3.
  { rewrite within_spec in H3. destruct r; [done|]. case_match; naive_solver. }
  destruct (within 240 244 c) eqn:H4; [|done]. rewrite within_spec in H4.
  destruct r as [|? [|? ?]]; [done..|]. case_match; naive_solver.
Qed.

Lemma rune_size_le (l : bytes) : (rune_size l <= length l)%nat.
Proof.
  destruct l as [|c [|d [|e [|f l]]]]; simpl; repeat case_match; simpl; lia.
Qed.

Lemma rune_size_prefix (l k : bytes) (n : nat) :
  rune_size l = S n -> rune_size (l ++ k) = S n.
Proof.
  destruct l as [|c [|d [|e [|f l]]]]; try done; simpl;
    repeat (case_match; try done); intros; simplify_eq; try done;
    repeat match goal with H : (_ && _) = _ |- _ => revert H end;
    destruct k as [|? [|? ?]]; intros; simpl in *; repeat case_match; simplify_eq; try done;
    congruence.
Qed.

Lemma rune_size_2 (c d : ascii) (r : bytes) :
  rune_size (c :: d :: r) = 2%nat -> rune_size [c; d] = 2%nat.
Proof.
  intros H. destruct (rune_size_lead _ _ 1 H) as [[_ Hc]|[[? _]|[? _]]]; [|done..].
  revert H. unfold rune_size. by rewrite (proj2 (within_spec 194 223 c)) by lia.
Qed.

Lemma rune_size_3 (c d e : ascii) (r : bytes) :
  rune_size (c :: d :: e :: r) = 3%nat -> rune_size [c; d; e] = 3%nat.
Proof.
  intros H. destruct (rune_size_lead _ _ 2 H) as [[? _]|[[_ Hc]|[? _]]]; [done| |done].
  revert H. unfold rune_size. destruct (within 194 223 c) eqn:Hw.
  - rewrite within_spec in Hw. lia.
  - by rewrite (proj2 (within_spec 224 239 c)) by lia.
Qed.

Lemma rune_size_4 (c d e f : ascii) (r : bytes) :
  rune_size (c :: d :: e :: f :: r) = 4%nat -> rune_size [c; d; e; f] = 4%nat.
Proof.
  intros H. destruct (rune_size_lead _ _ 3 H) as [[? _]|[[? _]|[_ Hc]]]; [done..|].
  revert H. unfold rune_size. destruct (within 194 223 c) eqn:Hw.
  - rewrite within_spec in Hw. lia.
  - destruct (within 224 239 c) eqn:Hw'; [rewrite within_spec in Hw'; lia|].
    by rewrite (proj2 (within_spec 240 244 c)) by lia.
Qed.

Lemma utf8_app (l k : bytes) : utf8 l -> utf8 k -> utf8 (l ++ k).
Proof. induction 1; intros; simpl; auto using utf8. Qed.

Lemma land_mod (a : Z) (k : Z) : 0 <= k -> Z.land a (2 ^ k - 1) = a mod 2 ^ k.
Proof. intros Hk. rewrite <- Z.land_ones by done. by rewrite Z.ones_equiv, Z.sub_1_r. Qed.

Lemma land_63 (a : Z) : Z.land a 63 = a mod 64.
Proof. apply (land_mod a 6). lia. Qed.

Ltac bytes_of_chr :=
  repeat match goal with
  | |- context [byte_of (chr ?n)] => rewrite (byte_of_chr n) by lia
  end.

Ltac decide_within :=
  repeat match goal with
  | |- context [?a <=? ?b] =>
      first [rewrite (proj2 (Z.leb_le a b)) by lia | rewrite (proj2 (Z.leb_gt a b)) by lia]
  | |- context [?a =? ?b] =>
      first [rewrite (proj2 (Z.eqb_eq a b)) by lia | rewrite (proj2 (Z.eqb_neq a b)) by lia]
  end.

(** What the decoder writes for a rune it read is well formed. *)
Lemma encode_rune_utf8 (r : Z) :
  0 <= r < 1114112 -> surrogate r = false -> utf8 (encode_rune r).
Proof.
  intros Hr Hs. assert (Hs' : r < 55296 \/ 57344 <= r) by (unfold surrogate in Hs; lia).
  unfold encode_rune. rewrite !land_63, !Z.shiftr_div_pow2 by lia.
  change (2 ^ 6) with 64. change (2 ^ 12) with 4096. change (2 ^ 18) with 262144.
  destruct (Z.ltb_spec r 128); [constructor; [rewrite byte_of_chr; lia|constructor]|].
  destruct (Z.ltb_spec r 2048).
  { apply utf8_2; [|constructor]. simpl. unfold within, is_cont. 
    pose proof (Z.div_mod r 64). pose proof (Z.mod_pos_bound r 64).
    bytes_of_chr. decide_within. done. }
  assert (Hd : r / 64 / 64 = r / 4096) by (rewrite Z.div_div by lia; done).
  assert (Hd' : r / 4096 / 64 = r / 262144) by (rewrite Z.div_div by lia; done).
  pose proof (Z.div_mod r 64). pose proof (Z.mod_pos_bound r 64).
  pose proof (Z.div_mod (r / 64) 64). pose proof (Z.mod_pos_bound (r / 64) 64).
  destruct (Z.ltb_spec r 65536).
  { apply utf8_3; [|constructor]. simpl. unfold within, is_cont. bytes_of_chr.
    destruct (Z.leb_spec 2048 r); [|lia].
    destruct (decide (r / 4096 = 0)) as [Hz|Hz]; [rewrite Hz in *; decide_within; done|].
    destruct (decide (r / 4096 = 13)) as [Hy|Hy]; [rewrite Hy in *; decide_within; done|].
    decide_within. done. }
  pose proof (Z.div_mod (r / 4096) 64). pose proof (Z.mod_pos_bound (r / 4096) 64).
  apply utf8_4; [|constructor]. simpl. unfold within, is_cont. bytes_of_chr.
  destruct (decide (r / 262144 = 0)) as [Hz|Hz]; [rewrite Hz in *; decide_within; done|].
  destruct (decide (r / 262144 = 4)) as [Hy|Hy]; [rewrite Hy in *; decide_within; done|].
  decide_within. done.
Qed.

(** ** Strings *)

(** The bytes of a longer sequence are not ASCII. *)
Lemma lead_byte (c : ascii) (r : bytes) (n : nat) :
  rune_size (c :: r) = S n -> 194 <= byte_of c.
Proof. intros H. apply rune_size_lead in H. lia. Qed.

Lemma tail_bytes (c : ascii) (r : bytes) (n : nat) :
  rune_size (c :: r) = S n -> length r = n -> Forall (fun d => 128 <= byte_of d) r.
Proof.
  intros H Hl. pose proof (rune_size_lead _ _ _ H) as Hc.
  destruct r as [|d [|e [|f [|g r]]]]; simpl in Hl; subst n; try lia; revert H; unfold rune_size, is_cont, within;
    repeat case_match; intros; simplify_eq; repeat constructor; lia.
Qed.

Lemma is_byte_false (n : Z) (c : ascii) : byte_of c <> n -> is_byte n c = false.
Proof. unfold is_byte. lia. Qed.

(** A predicate on single bytes, decided on all of them. *)
Ltac by_bytes c := destruct c as [[] [] [] [] [] [] [] []]; vm_compute; reflexivity.

Lemma unquote_safe (c : ascii) (k : bytes) :
  html_safe c = true -> unquote (c :: k) = c :: unquote k.
Proof.
  intros H. unfold html_safe in H. simpl. rewrite is_byte_false by lia.
  by rewrite (proj2 (Z.ltb_lt _ _)) by lia.
Qed.

Lemma unquote_escape_byte (c : ascii) (k : bytes) :
  byte_of c < 128 -> html_safe c = false -> unquote (escape_byte c ++ k) = c :: unquote k.
Proof.
  intros Hc Hs. destruct c as [[] [] [] [] [] [] [] []];
    first [discriminate Hs | vm_compute in Hc; discriminate Hc | reflexivity].
Qed.

Lemma unquote_separator (c d e : ascii) (k : bytes) :
  line_separator c d e = true ->
  unquote ([chr 92; chr 117; chr 50; chr 48; chr 50; hex (Z.land (byte_of e) 15)] ++ k)
  = c :: d :: e :: unquote k.
Proof.
  unfold line_separator. rewrite !andb_true_iff, orb_true_iff, !is_byte_spec.
  intros [[[-> _] [-> _]] [[-> _]|[-> _]]]; reflexivity.
Qed.

Lemma unquote_2 (c d : ascii) (k : bytes) :
  rune_size [c; d] = 2%nat -> unquote (c :: d :: k) = c :: d :: unquote k.
Proof.
  intros H. pose proof (lead_byte _ _ _ H). cbn [unquote].
  rewrite is_byte_false, (proj2 (Z.ltb_ge _ _)) by lia.
  by rewrite (rune_size_prefix [c; d] k _ H : rune_size (c :: d :: k) = 2%nat).
Qed.

Lemma unquote_3 (c d e : ascii) (k : bytes) :
  rune_size [c; d; e] = 3%nat -> unquote (c :: d :: e :: k) = c :: d :: e :: unquote k.
Proof.
  intros H. pose proof (lead_byte _ _ _ H). cbn [unquote].
  rewrite is_byte_false, (proj2 (Z.ltb_ge _ _)) by lia.
  by rewrite (rune_size_prefix [c; d; e] k _ H : rune_size (c :: d :: e :: k) = 3%nat).
Qed.

Lemma unquote_4 (c d e f : ascii) (k : bytes) :
  rune_size [c; d; e; f] = 4%nat -> unquote (c :: d :: e :: f :: k) = c :: d :: e :: f :: unquote k.
Proof.
  intros H. pose proof (lead_byte _ _ _ H). cbn [unquote].
  rewrite is_byte_false, (proj2 (Z.ltb_ge _ _)) by lia.
  by rewrite (rune_size_prefix [c; d; e; f] k _ H : rune_size (c :: d :: e :: f :: k) = 4%nat).
Qed.

(** The escapes of a byte are read as they are written. *)
Definition scanned (s : bytes) : Prop :=
  forall k raw rest, scan_string k = Some (raw, rest) -> scan_string (s ++ k) = Some (s ++ raw, rest).

Lemma scanned_plain (c : ascii) :
  32 <= byte_of c -> byte_of c <> 34 -> byte_of c <> 92 -> scanned [c].
Proof.
  intros ? ? ? k raw rest H. simpl. rewrite !is_byte_false, (proj2 (Z.ltb_ge _ _)) by lia.
  by rewrite H.
Qed.

Lemma scanned_app (s t : bytes) : scanned s -> scanned t -> scanned (s ++ t).
Proof. intros Hs Ht k raw rest H. rewrite <- !app_assoc. by apply Hs, Ht. Qed.

Lemma scanned_cons (c : ascii) (t : bytes) : scanned [c] -> scanned t -> scanned (c :: t).
Proof. apply (scanned_app [c]). Qed.

Lemma scanned_high (l : bytes) : Forall (fun c => 128 <= byte_of c) l -> scanned l.
Proof.
  induction 1 as [|c l Hc _ IH]; [by intros k raw rest H|].
  apply scanned_cons; [|done]. apply scanned_plain; lia.
Qed.

Lemma scanned_rune (c : ascii) (r : bytes) (n : nat) :
  rune_size (c :: r) = S n -> length r = n -> scanned (c :: r).
Proof.
  intros H Hl. apply scanned_high. constructor; [pose proof (lead_byte _ _ _ H); lia|].
  by eapply tail_bytes.
Qed.

Lemma scanned_simple (e b : ascii) :
  simple_escape e = Some b -> is_byte 117 e = false -> scanned [chr 92; e].
Proof. intros He Hu k raw rest H. simpl. rewrite Hu, He. simpl. by rewrite H. Qed.

Lemma scanned_unicode (a b c d : ascii) :
  hex_letter a && hex_letter b && hex_letter c && hex_letter d = true ->
  scanned [chr 92; chr 117; a; b; c; d].
Proof. intros Hx k raw rest H. simpl. rewrite Hx. by rewrite H. Qed.

Lemma scanned_escape_byte (c : ascii) :
  byte_of c < 128 -> html_safe c = false -> scanned (escape_byte c).
Proof.
  intros Hc Hs. destruct c as [[] [] [] [] [] [] [] []];
    first [discriminate Hs | vm_compute in Hc; discriminate Hc
          | eapply scanned_simple; reflexivity | apply scanned_unicode; reflexivity].
Qed.

Lemma scanned_separator (c d e : ascii) :
  line_separator c d e = true ->
  scanned [chr 92; chr 117; chr 50; chr 48; chr 50; hex (Z.land (byte_of e) 15)].
Proof.
  unfold line_separator. rewrite !andb_true_iff, orb_true_iff, !is_byte_spec.
  intros [[[-> _] [-> _]] [[-> _]|[-> _]]]; by apply scanned_unicode.
Qed.

Lemma escape_spec (l : bytes) : utf8 l -> scanned (escape l) /\ unquote (escape l) = l.
Proof.
  induction 1 as [|c r Hc _ [IHs IHu]|c d r H _ [IHs IHu]|c d e r H _ [IHs IHu]|c d e f r H _ [IHs IHu]].
  - split; [by intros k raw rest Hk|done].
  - cbn [escape]. rewrite (proj2 (Z.ltb_lt _ _)) by done. destruct (html_safe c) eqn:Hs.
    + split; [|by simpl app; rewrite unquote_safe, IHu]. apply scanned_app; [|done].
      unfold html_safe in Hs. apply scanned_plain; lia.
    + split; [by apply scanned_app; [apply scanned_escape_byte|]|].
      by rewrite unquote_escape_byte, IHu.
  - pose proof (lead_byte _ _ _ H). cbn [escape]. rewrite (proj2 (Z.ltb_ge _ _)) by lia.
    rewrite (rune_size_prefix [c; d] r _ H : rune_size (c :: d :: r) = 2%nat).
    split; [|by rewrite unquote_2, IHu]. apply (scanned_app [c; d]); [by eapply scanned_rune|done].
  - pose proof (lead_byte _ _ _ H). cbn [escape]. rewrite (proj2 (Z.ltb_ge _ _)) by lia.
    rewrite (rune_size_prefix [c; d; e] r _ H : rune_size (c :: d :: e :: r) = 3%nat).
    destruct (line_separator c d e) eqn:Hsep.
    + split; [by apply scanned_app; [eapply scanned_separator|]|].
      by rewrite (unquote_separator c d e) , IHu.
    + split; [|by simpl app; rewrite unquote_3, IHu].
      apply scanned_app; [by eapply scanned_rune|done].
  - pose proof (lead_byte _ _ _ H). cbn [escape]. rewrite (proj2 (Z.ltb_ge _ _)) by lia.
    rewrite (rune_size_prefix [c; d; e; f] r _ H : rune_size (c :: d :: e :: f :: r) = 4%nat).
    split; [|by rewrite unquote_4, IHu].
    apply (scanned_app [c; d; e; f]); [by eapply scanned_rune|done].
Qed.

Lemma scan_quoted (s : string) (rest : bytes) :
  utf8 (to_bytes s) ->
  exists raw, scan_string (escape (to_bytes s) ++ chr 34 :: rest) = Some (raw, rest)
              /\ of_bytes (unquote raw) = s.
Proof.
  intros H. destruct (escape_spec _ H) as [Hs Hu]. exists (escape (to_bytes s)). split.
  - specialize (Hs (chr 34 :: rest) [] rest). rewrite app_nil_r in Hs. by apply Hs.
  - rewrite Hu. apply of_to_bytes.
Qed.

(** Whatever the literal, the decoded string is well formed. *)
Lemma hex_value_range (c : ascii) : hex_letter c = true -> 0 <= hex_value c < 16.
Proof.
  unfold hex_letter, hex_value. rewrite !orb_true_iff, !within_spec. intros H.
  destruct (within 48 57 c) eqn:H1; [rewrite within_spec in H1; lia|].
  destruct (within 97 102 c) eqn:H2; [rewrite within_spec in H2; lia|].
  destruct H as [[H|H]|H]; [rewrite <- within_spec in H; congruence..|lia].
Qed.

Lemma hex4_range (a b c d : ascii) :
  hex_letter a && hex_letter b && hex_letter c && hex_letter d = true -> 0 <= hex4 a b c d < 65536.
Proof.
  rewrite !andb_true_iff. intros [[[Ha Hb] Hc] Hd]. unfold hex4.
  apply hex_value_range in Ha, Hb, Hc, Hd. lia.
Qed.

Lemma surrogate_pair_rune (r1 r2 r : Z) :
  surrogate_pair r1 r2 = Some r -> 65536 <= r < 1114112.
Proof. unfold surrogate_pair. case_match; [|done]. intros. simplify_eq. lia. Qed.

Lemma utf8_error (k : bytes) : utf8 k -> utf8 (encode_rune RuneError ++ k).
Proof. apply utf8_app. by apply encode_rune_utf8. Qed.

Lemma utf8_rune (r : Z) (k : bytes) :
  0 <= r < 1114112 -> surrogate r = false -> utf8 k -> utf8 (encode_rune r ++ k).
Proof. intros. apply utf8_app; [by apply encode_rune_utf8|done]. Qed.

Lemma simple_escape_ascii (e b : ascii) : simple_escape e = Some b -> byte_of b < 128.
Proof.
  unfold simple_escape. repeat case_match; intros; simplify_eq; try (vm_compute; reflexivity).
  repeat match goal with H : (_ || _) = true |- _ => apply orb_true_iff in H as [H|H] end; lia.
Qed.

(** What the scanner accepts between quotes: every escape is complete. *)
Inductive literal : bytes -> Prop :=
| literal_nil : literal []
| literal_plain c r : byte_of c <> 92 -> literal r -> literal (c :: r)
| literal_simple e b r :
    simple_escape e = Some b -> is_byte 117 e = false -> literal r -> literal (chr 92 :: e :: r)
| literal_unicode a b c d r :
    hex_letter a && hex_letter b && hex_letter c && hex_letter d = true -> literal r ->
    literal (chr 92 :: chr 117 :: a :: b :: c :: d :: r).

Lemma consed_some (c : ascii) (o : option (bytes * bytes)) (raw rest : bytes) :
  consed c o = Some (raw, rest) -> exists raw', o = Some (raw', rest) /\ raw = c :: raw'.
Proof. destruct o as [[s r]|]; simpl; [|done]. intros H. simplify_eq. eauto. Qed.

Lemma scan_string_literal (n : nat) : forall l raw rest,
  (length l <= n)%nat -> scan_string l = Some (raw, rest) -> literal raw.
Proof.
  induction n as [|n IH]; intros [|c r] raw rest Hl H; try done; simpl in Hl; [lia|].
  cbn [scan_string] in H. destruct (is_byte 34 c) eqn:H34; [simplify_eq; constructor|].
  destruct (is_byte 92 c) eqn:H92.
  - apply is_byte_spec in H92 as [-> _]. destruct r as [|e r1]; [done|]. simpl in Hl.
    destruct (is_byte 117 e) eqn:H117.
    + apply is_byte_spec in H117 as [-> _]. destruct r1 as [|a [|b [|c1 [|d r2]]]]; try done.
      simpl in Hl. case_match eqn:Hx; [|done].
      repeat (apply consed_some in H as (? & H & ->)).
      apply literal_unicode; [done|]. eapply (IH r2); [lia|done].
    + destruct (simple_escape e) as [b|] eqn:He; [|done].
      repeat (apply consed_some in H as (? & H & ->)).
      eapply literal_simple; [done..|]. eapply (IH r1); [lia|done].
  - case_match; [done|]. apply consed_some in H as (? & H & ->).
    apply literal_plain; [unfold is_byte in H92; lia|]. eapply (IH r); [lia|done].
Qed.

Lemma literal_after (c : ascii) (r : bytes) : literal (c :: r) -> byte_of c <> 92 -> literal r.
Proof. by inversion 1. Qed.

Lemma literal_after_unicode (a b c d : ascii) (r : bytes) :
  literal (chr 92 :: chr 117 :: a :: b :: c :: d :: r) -> literal r.
Proof. by inversion 1. Qed.

Lemma is_byte_chr (n : Z) : 0 <= n < 256 -> is_byte n (chr n) = true.
Proof. intros H. by apply is_byte_spec. Qed.

Lemma unquote_utf8 (n : nat) : forall raw, (length raw <= n)%nat -> literal raw -> utf8 (unquote raw).
Proof.
  induction n as [|n IH]; intros raw Hl H.
  { destruct raw; simpl in Hl; [constructor|lia]. }
  inversion H as [|c r Hc Hr|e b r He Hu Hr|a b c d r Hx Hr]; subst; [constructor|..];
    simpl in Hl; assert (Hrest : utf8 (unquote r)) by (apply IH; [lia|done]).
  - cbn [unquote]. rewrite is_byte_false by done.
    destruct (Z.ltb_spec (byte_of c) 128); [by constructor|].
    pose proof (rune_size_le (c :: r)) as Hle. simpl length in Hle.
    destruct (rune_size (c :: r)) as [|[|[|[|[|]]]]] eqn:Hsz; try by apply utf8_error.
    + destruct r as [|d r]; [simpl in Hle; lia|]. apply rune_size_2 in Hsz.
      pose proof (tail_bytes _ _ _ Hsz eq_refl) as Ht. apply Forall_inv in Ht.
      apply literal_after in Hr; [|lia]. apply utf8_2; [done|]. apply IH; [simpl in Hl; lia|done].
    + destruct r as [|d [|e r]]; [simpl in Hle; lia..|]. apply rune_size_3 in Hsz.
      pose proof (tail_bytes _ _ _ Hsz eq_refl) as Ht. inversion_clear Ht as [|? ? Hd Ht'].
      apply Forall_inv in Ht'. do 2 (apply literal_after in Hr; [|lia]).
      apply utf8_3; [done|]. apply IH; [simpl in Hl; lia|done].
    + destruct r as [|d [|e [|f r]]]; [simpl in Hle; lia..|]. apply rune_size_4 in Hsz.
      pose proof (tail_bytes _ _ _ Hsz eq_refl) as Ht. inversion_clear Ht as [|? ? Hd Ht'].
      inversion_clear Ht' as [|? ? He Ht]. apply Forall_inv in Ht.
      do 3 (apply literal_after in Hr; [|lia]).
      apply utf8_4; [done|]. apply IH; [simpl in Hl; lia|done].
  - cbn [unquote]. rewrite is_byte_chr, Hu, He by lia.
    apply utf8_ascii; [by eapply simple_escape_ascii|done].
  - cbn [unquote]. rewrite !is_byte_chr by lia. apply hex4_range in Hx.
    destruct (surrogate _) eqn:Hsur; [|apply utf8_rune; [lia|done|done]].
    destruct r as [|p [|q [|a' [|b' [|c' [|d' r]]]]]]; try by apply utf8_error.
    destruct (is_byte 92 p && is_byte 117 q && hex_letter a' && hex_letter b' && hex_letter c'
              && hex_letter d') eqn:Hp; [|by apply utf8_error].
    destruct (surrogate_pair _ _) as [dec|] eqn:Hsp; [|by apply utf8_error].
    apply surrogate_pair_rune in Hsp. apply utf8_rune; [lia|unfold surrogate; lia|].
    rewrite !andb_true_iff, !is_byte_spec in Hp. destruct Hp as [[[[[[-> _] [-> _]] _] _] _] _].
    apply literal_after_unicode in Hr. apply IH; [simpl in Hl; lia|done].
Qed.

Lemma scanned_utf8 (l raw rest : bytes) :
  scan_string l = Some (raw, rest) -> utf8 (to_bytes (of_bytes (unquote raw))).
Proof.
  intros H. rewrite to_of_bytes. eapply unquote_utf8; [done|]. by eapply scan_string_literal.
Qed.

(** ** Numbers

    A scanner takes the same literal when something that cannot continue it
    follows. *)

Definition stops (p : ascii -> bool) (k : bytes) : Prop :=
  match k with c :: _ => p c = false | [] => True end.

Definition local (scan : bytes -> option (bytes * bytes)) (p : ascii -> bool) : Prop :=
  forall l n r k, scan l = Some (n, r) -> stops p k -> scan (n ++ k) = Some (n, k).

Lemma span_digits_local (l n r k : bytes) :
  span_digits l = (n, r) -> stops digit_byte k -> span_digits (n ++ k) = (n, k).
Proof.
  revert n r. induction l as [|c l IH]; intros n r H Hk; simpl in H.
  - simplify_eq. destruct k as [|d k]; simpl in *; [done|by rewrite Hk].
  - destruct (digit_byte c) eqn:Hc.
    + destruct (span_digits l) as [d rest] eqn:Hs. simplify_eq. simpl. rewrite Hc.
      by erewrite IH.
    + simplify_eq. destruct k as [|d k]; simpl in *; [done|by rewrite Hk].
Qed.

Lemma scan_digits_local : local scan_digits digit_byte.
Proof.
  intros l n r k H Hk. unfold scan_digits in *. destruct (span_digits l) as [d rest] eqn:Hs.
  rewrite (span_digits_local l n r k); [|destruct d; naive_solver|done].
  destruct d; [done|]. by simplify_eq.
Qed.

Lemma scan_digits_head (l n r : bytes) :
  scan_digits l = Some (n, r) -> exists c n', n = c :: n' /\ digit_byte c = true.
Proof.
  unfold scan_digits. destruct l as [|c l]; simpl; [done|].
  destruct (digit_byte c) eqn:Hc; [|done]. destruct (span_digits l). intros. simplify_eq. eauto.
Qed.

Lemma scan_integer_local : local scan_integer digit_byte.
Proof.
  intros [|c l] n r k H Hk; [done|]. unfold scan_integer in H. destruct (is_byte 48 c) eqn:Hc.
  - simplify_eq. simpl. by rewrite Hc.
  - pose proof (scan_digits_local _ _ _ k H Hk) as Hn.
    assert (exists n', n = c :: n') as [n' ->].
    { unfold scan_digits in H. simpl in H. destruct (digit_byte c); [|done].
      destruct (span_digits l). simplify_eq. eauto. }
    change (scan_integer ((c :: n') ++ k))
      with (if is_byte 48 c then Some ([c], n' ++ k) else scan_digits ((c :: n') ++ k)).
    by rewrite Hc.
Qed.

Lemma scan_one_cases (p : ascii -> bool) (l m r : bytes) :
  scan_one p l = (m, r) ->
  (m = [] /\ r = l /\ stops p l) \/ (exists c, m = [c] /\ p c = true /\ l = c :: r).
Proof.
  destruct l as [|c l]; simpl; [intros; simplify_eq; auto|].
  destruct (p c) eqn:Hp; intros; simplify_eq; eauto 10.
Qed.

Lemma scan_one_stop (p : ascii -> bool) (l : bytes) : stops p l -> scan_one p l = ([], l).
Proof. destruct l as [|c l]; simpl; [done|by intros ->]. Qed.

Lemma scan_part_local (p q : ascii -> bool) (body : bytes -> option (bytes * bytes)) :
  local body q -> local (scan_part p body) (fun c => p c || q c).
Proof.
  intros Hb l n r k H Hk. unfold scan_part in *.
  destruct (scan_one p l) as [m rest] eqn:Hm.
  apply scan_one_cases in Hm as [(-> & -> & Hp)|(c & -> & Hc & ->)].
  - simplify_eq. simpl. rewrite scan_one_stop; [done|].
    destruct k as [|d k]; simpl in *; [done|]. by apply orb_false_iff in Hk as [? _].
  - destruct (body rest) as [[s rr]|] eqn:Hs; simpl in H; [|done]. simplify_eq. simpl.
    rewrite Hc. rewrite (Hb _ _ _ k Hs); [done|].
    destruct k as [|d k]; simpl in *; [done|]. by apply orb_false_iff in Hk as [_ ?].
Qed.

Definition sign_byte (c : ascii) : bool := is_byte 43 c || is_byte 45 c.

Lemma digit_not_sign (c : ascii) : digit_byte c = true -> sign_byte c = false.
Proof. unfold digit_byte, sign_byte, is_byte. rewrite within_spec. lia. Qed.

Lemma scan_exponent_local : local scan_exponent digit_byte.
Proof.
  intros l n r k H Hk. unfold scan_exponent in *. fold sign_byte in *.
  destruct (scan_one sign_byte l) as [m rest] eqn:Hm.
  destruct (scan_digits rest) as [[d rr]|] eqn:Hd; simpl in H; [|done]. simplify_eq.
  pose proof (scan_digits_local _ _ _ k Hd Hk) as Hd'.
  apply scan_one_cases in Hm as [(-> & -> & Hp)|(c & -> & Hc & ->)].
  - apply scan_digits_head in Hd as (c & d' & -> & Hc). simpl app in *.
    rewrite scan_one_stop by (by apply digit_not_sign). by rewrite Hd'.
  - simpl. rewrite Hc. by rewrite Hd'.
Qed.

(** What can follow a digit inside a number. *)
Definition number_byte (c : ascii) : bool :=
  digit_byte c || is_byte 46 c || is_byte 101 c || is_byte 69 c.

Lemma scan_part_head (p : ascii -> bool) (body : bytes -> option (bytes * bytes)) (l n r : bytes) :
  scan_part p body l = Some (n, r) -> n = [] \/ exists c n', n = c :: n' /\ p c = true.
Proof.
  unfold scan_part. destruct (scan_one p l) as [m rest] eqn:Hm.
  apply scan_one_cases in Hm as [(-> & -> & Hp)|(c & -> & Hc & ->)]; [naive_solver|].
  destruct (body rest) as [[s rr]|]; simpl; [|done]. intros. simplify_eq. right. eauto.
Qed.

Lemma scan_number_local : local scan_number number_byte.
Proof.
  intros l n r k H Hk. unfold scan_number in *.
  set (exp := fun c => is_byte 101 c || is_byte 69 c) in *.
  destruct (scan_one (is_byte 45) l) as [sign r0] eqn:Hsign.
  destruct (scan_integer r0) as [[int r1]|] eqn:Hint; simpl in H; [|done].
  destruct (scan_part (is_byte 46) scan_digits r1) as [[frac r2]|] eqn:Hfrac; simpl in H; [|done].
  destruct (scan_part exp scan_exponent r2) as [[ex r3]|] eqn:Hex; simpl in H; [|done].
  simplify_eq. rewrite <- !app_assoc.
  assert (Hk' : forall q, (forall c, q c = true -> number_byte c = true) -> stops q k).
  { intros q Hq. destruct k as [|c k]; simpl in *; [done|]. destruct (q c) eqn:Hc; [|done].
    apply Hq in Hc. congruence. }
  assert (Hek : scan_part exp scan_exponent (ex ++ k) = Some (ex, k)).
  { eapply (scan_part_local _ _ _ scan_exponent_local); [done|]. apply Hk'. intros c.
    unfold exp, number_byte. destruct (digit_byte c), (is_byte 46 c), (is_byte 101 c), (is_byte 69 c); done. }
  assert (Hse : stops (fun c => is_byte 46 c || digit_byte c) (ex ++ k)).
  { destruct (scan_part_head _ _ _ _ _ Hex) as [->|(c & ex' & -> & Hc)].
    - apply Hk'. intros c. unfold number_byte. destruct (digit_byte c), (is_byte 46 c); done.
    - simpl. unfold exp, digit_byte, is_byte, within in *. lia. }
  assert (Hfk : scan_part (is_byte 46) scan_digits (frac ++ ex ++ k) = Some (frac, ex ++ k)).
  { by eapply (scan_part_local _ _ _ scan_digits_local). }
  assert (Hik : scan_integer (int ++ frac ++ ex ++ k) = Some (int, frac ++ ex ++ k)).
  { eapply scan_integer_local; [done|].
    destruct (scan_part_head _ _ _ _ _ Hfrac) as [->|(c & f' & -> & Hc)].
    - simpl. destruct (ex ++ k); simpl in *; [done|]. by apply orb_false_iff in Hse as [_ ?].
    - simpl. unfold digit_byte, is_byte, within in *. lia. }
  assert (Hsk : scan_one (is_byte 45) (sign ++ int ++ frac ++ ex ++ k) = (sign, int ++ frac ++ ex ++ k)).
  { apply scan_one_cases in Hsign as [(-> & -> & Hp)|(c & -> & Hc & ->)].
    - simpl. apply scan_one_stop.
      unfold scan_integer in Hint. destruct l as [|c r0]; [done|]. simpl in Hp.
      destruct (is_byte 48 c); [by simplify_eq|].
      unfold scan_digits in Hint. simpl in Hint. destruct (digit_byte c); [|done].
      destruct (span_digits r0). by simplify_eq.
    - simpl. by rewrite Hc. }
  rewrite Hsk, Hik. simpl. rewrite Hfk. simpl. rewrite Hek. simpl. done.
Qed.

Lemma scan_number_head (l n r : bytes) :
  scan_number l = Some (n, r) -> exists c n', n = c :: n' /\ (is_byte 45 c || digit_byte c = true).
Proof.
  unfold scan_number. destruct (scan_one (is_byte 45) l) as [sign r0] eqn:Hsign.
  destruct (scan_integer r0) as [[int r1]|] eqn:Hint; simpl; [|done].
  destruct (scan_part _ scan_digits r1) as [[frac r2]|]; simpl; [|done].
  destruct (scan_part _ scan_exponent r2) as [[ex r3]|]; simpl; [|done].
  intros. simplify_eq.
  apply scan_one_cases in Hsign as [(-> & -> & Hp)|(c & -> & Hc & ->)].
  - unfold scan_integer in Hint. destruct l as [|c r0]; [done|].
    destruct (is_byte 48 c) eqn:H48; [simplify_eq; eexists _, _; split; [done|]|].
    + unfold digit_byte, is_byte, within in *. lia.
    + apply scan_digits_head in Hint as (c' & n' & -> & Hc'). eexists _, _. split; [done|].
      by rewrite Hc', orb_true_r.
  - eexists _, _. split; [done|]. by rewrite Hc.
Qed.

(** ** Objects *)

Definition key_lt (x y : string * Any) : Prop := String.compare x.1 y.1 = Lt.

Lemma compare_lt_trans (x y z : string) :
  String.compare x y = Lt -> String.compare y z = Lt -> String.compare x z = Lt.
Proof.
  revert y z. induction x as [|a x IH]; intros [|b y] [|c z]; simpl; try done.
  unfold Ascii.compare. destruct (N.compare_spec (N_of_ascii a) (N_of_ascii b)),
    (N.compare_spec (N_of_ascii b) (N_of_ascii c)),
    (N.compare_spec (N_of_ascii a) (N_of_ascii c)); try done; try lia; intros; eauto.
Qed.

Lemma compare_gt_lt (x y : string) : String.compare x y = Gt -> String.compare y x = Lt.
Proof. rewrite String.compare_antisym. by destruct (String.compare y x). Qed.

(** Entries sorted by key, without repeats. *)
Notation sorted_entries := (StronglySorted key_lt).

Lemma any_set_last (k : string) (v : Any) (m : list (string * Any)) :
  Forall (fun kv => String.compare kv.1 k = Lt) m -> any_set k v m = m ++ [(k, v)].
Proof.
  induction 1 as [|[k' v'] m Hk _ IH]; [done|]. simpl in *.
  rewrite String.compare_antisym, Hk. simpl. by rewrite IH.
Qed.

Lemma build_from (m0 m : list (string * Any)) :
  sorted_entries (m0 ++ m) -> fold_left (fun m '(k, v) => any_set k v m) m m0 = m0 ++ m.
Proof.
  revert m0. induction m as [|[k v] m IH]; intros m0 Hs; simpl; [by rewrite app_nil_r|].
  rewrite any_set_last.
  - rewrite IH; [by rewrite <- app_assoc|]. by rewrite <- app_assoc.
  - apply Forall_forall. intros kv Hkv.
    by apply (StronglySorted_app_1_elem_of _ _ _ _ (k, v) Hs) in Hkv; [|left].
Qed.

Lemma build_sorted (m : list (string * Any)) : sorted_entries m -> build m = m.
Proof. apply (build_from []). Qed.

Lemma any_set_in (k : string) (v : Any) (m : list (string * Any)) (kv : string * Any) :
  kv ∈ any_set k v m -> kv = (k, v) \/ kv ∈ m.
Proof.
  induction m as [|[k' v'] m IH]; simpl; [set_solver|].
  destruct (String.compare k k'); set_solver.
Qed.

Lemma any_set_sorted (k : string) (v : Any) (m : list (string * Any)) :
  sorted_entries m -> sorted_entries (any_set k v m).
Proof.
  induction 1 as [|[k' v'] m Hs IH Hall]; simpl; [repeat constructor|].
  destruct (String.compare k k') eqn:Hc.
  - apply String.compare_eq_iff in Hc as ->. by constructor.
  - constructor; [by constructor|]. constructor; [done|]. eapply Forall_impl; [done|].
    intros kv Hkv. by eapply compare_lt_trans.
  - constructor; [done|]. apply Forall_forall. intros kv [->|Hkv]%any_set_in.
    + by apply compare_gt_lt.
    + rewrite Forall_forall in Hall. auto.
Qed.

Lemma build_spec (m0 m : list (string * Any)) :
  sorted_entries m0 ->
  sorted_entries (fold_left (fun m '(k, v) => any_set k v m) m m0)
  /\ forall kv, kv ∈ fold_left (fun m '(k, v) => any_set k v m) m m0 -> kv ∈ m0 \/ kv ∈ m.
Proof.
  revert m0. induction m as [|[k v] m IH]; intros m0 Hs; simpl; [set_solver|].
  destruct (IH (any_set k v m0)) as [H1 H2]; [by apply any_set_sorted|]. split; [done|].
  intros kv Hkv. apply H2 in Hkv as [[->|Hkv]%any_set_in|Hkv]; set_solver.
Qed.

(** ** Well-formed values *)

(** What the decoder builds, opening at most [d] levels. *)
Inductive well_formed : nat -> Any -> Prop :=
| wf_nil d : well_formed d ANil
| wf_bool d b : well_formed d (ABool b)
| wf_number d s : scan_number (to_bytes s) = Some (to_bytes s, []) -> well_formed d (ANumber s)
| wf_string d s : utf8 (to_bytes s) -> well_formed d (AString s)
| wf_array d l : Forall (well_formed d) l -> well_formed (S d) (AArray l)
| wf_object d m :
    sorted_entries m -> Forall (fun kv => utf8 (to_bytes kv.1) /\ well_formed d kv.2) m ->
    well_formed (S d) (AObject m).

Lemma wf_mono (d : nat) (v : Any) : forall d', (d <= d')%nat -> well_formed d v -> well_formed d' v.
Proof.
  revert d. induction v as [|b|s|s|l IH|m IH] using Any_ind_nested; intros d d' Hd Hw;
    inversion Hw; subst; try (by constructor).
  - destruct d' as [|d']; [lia|]. constructor. rewrite Forall_forall in *. intros v Hv.
    eapply IH; [done| |by eauto]. lia.
  - destruct d' as [|d']; [lia|]. constructor; [done|]. rewrite Forall_forall in *. intros kv Hv.
    match goal with H : forall x, x ∈ m -> _ /\ _ |- _ => destruct (H kv Hv) end. split; [done|].
    eapply IH; [done| |done]. lia.
Qed.

Lemma skip_space_clean (c : ascii) (r : bytes) : json_space c = false -> skip_space (c :: r) = c :: r.
Proof. simpl. by intros ->. Qed.

(** An encoding starts with a byte that is neither a space nor a closing bracket. *)
Lemma encode_head (d : nat) (v : Any) :
  well_formed d v -> exists c r, encode_any v = c :: r /\ json_space c = false /\ is_byte 93 c = false.
Proof.
  inversion 1 as [|? []|? s Hs|? s|? l|? m]; subst; try (eexists _, _; split_and!; reflexivity).
  destruct (scan_number_head _ _ _ Hs) as (c & n' & Hn & Hc). simpl. rewrite Hn.
  eexists _, _. split; [done|]. unfold json_space, is_byte, digit_byte, within in *. lia.
Qed.

(** ** Reading an encoding *)

(** The encodings of the elements of an array and of the entries of an object,
    with the bracket that closes them. *)
Definition encode_elements (l : list Any) : bytes :=
  (fix go l := match l with
               | [] => [chr 93]
               | [v] => encode_any v ++ [chr 93]
               | v :: l => encode_any v ++ chr 44 :: go l
               end) l.

Definition encode_members (m : list (string * Any)) : bytes :=
  (fix go m := match m with
               | [] => [chr 125]
               | [(k, v)] => quoted k ++ chr 58 :: encode_any v ++ [chr 125]
               | (k, v) :: m => quoted k ++ chr 58 :: encode_any v ++ chr 44 :: go m
               end) m.

Definition reads (v : Any) : Prop := forall d fuel rest,
  well_formed d v -> stops number_byte rest ->
  (2 * length (encode_any v ++ rest) < fuel)%nat ->
  scan_value fuel d (encode_any v ++ rest) = Some (v, rest).

Lemma scan_value_eq (n depth : nat) (l : bytes) :
  scan_value (S n) depth l =
    match skip_space l with
    | [] => None
    | c :: r =>
      if is_byte 123 c then
        match depth with
        | O => None
        | S d =>
          match skip_space r with
          | [] => None
          | c' :: r' =>
            if is_byte 125 c' then Some (AObject [], r')
            else '(m, rest) ← scan_members n d r; Some (AObject (build m), rest)
          end
        end
      else if is_byte 91 c then
        match depth with
        | O => None
        | S d =>
          match skip_space r with
          | [] => None
          | c' :: r' =>
            if is_byte 93 c' then Some (AArray [], r')
            else '(vs, rest) ← scan_elements n d r; Some (AArray vs, rest)
          end
        end
      else if is_byte 34 c then
        '(raw, rest) ← scan_string r; Some (AString (of_bytes (unquote raw)), rest)
      else if is_byte 45 c || digit_byte c then
        '(n, rest) ← scan_number (c :: r); Some (ANumber (of_bytes n), rest)
      else scan_literal (c :: r)
    end.
Proof. reflexivity. Qed.

Lemma scan_elements_eq (n depth : nat) (l : bytes) :
  scan_elements (S n) depth l =
    '(v, r1) ← scan_value n depth l;
    match skip_space r1 with
    | [] => None
    | c :: r2 =>
      if is_byte 44 c then '(vs, rest) ← scan_elements n depth r2; Some (v :: vs, rest)
      else if is_byte 93 c then Some ([v], r2)
      else None
    end.
Proof. reflexivity. Qed.

Lemma scan_members_eq (n depth : nat) (l : bytes) :
  scan_members (S n) depth l =
    match skip_space l with
    | [] => None
    | q :: r0 =>
      if is_byte 34 q then
        '(raw, r1) ← scan_string r0;
        match skip_space r1 with
        | [] => None
        | col :: r2 =>
          if is_byte 58 col then
            '(v, r3) ← scan_value n depth r2;
            let kv := (of_bytes (unquote raw), v) in
            match skip_space r3 with
            | [] => None
            | c :: r4 =>
              if is_byte 44 c then '(m, rest) ← scan_members n depth r4; Some (kv :: m, rest)
              else if is_byte 125 c then Some ([kv], r4)
              else None
            end
          else None
        end
      else None
    end.
Proof. reflexivity. Qed.

Lemma encode_elements_cons (v w : Any) (l : list Any) :
  encode_elements (v :: w :: l) = encode_any v ++ chr 44 :: encode_elements (w :: l).
Proof. reflexivity. Qed.

Lemma encode_members_cons (k : string) (v : Any) (kw : string * Any) (m : list (string * Any)) :
  encode_members ((k, v) :: kw :: m)
  = quoted k ++ chr 58 :: encode_any v ++ chr 44 :: encode_members (kw :: m).
Proof. reflexivity. Qed.

(** Steps over a byte that is no space, whatever it is. *)
Ltac punct :=
  cbn [mbind option_bind];
  repeat match goal with
  | |- context [skip_space (chr ?n :: ?l)] => change (skip_space (chr n :: l)) with (chr n :: l)
  | |- context [is_byte ?a (chr ?n)] =>
      let b := eval vm_compute in (is_byte a (chr n)) in change (is_byte a (chr n)) with b
  end;
  cbv beta iota.

Lemma reads_elements (l : list Any) : l <> [] -> Forall reads l -> forall d fuel rest,
  Forall (well_formed d) l -> (S (2 * length (encode_elements l ++ rest)) < fuel)%nat ->
  scan_elements fuel d (encode_elements l ++ rest) = Some (l, rest).
Proof.
  intros Hne. induction l as [|v l IH]; [done|]. intros [Hv Hl]%Forall_cons d fuel rest
    [Hwv Hwl]%Forall_cons Hf. destruct fuel as [|n]; [lia|]. rewrite scan_elements_eq.
  destruct l as [|v' l].
  - change (encode_elements [v]) with (encode_any v ++ [chr 93]) in Hf |- *.
    rewrite <- app_assoc in Hf |- *. rewrite Hv; [by punct|done|done|lia].
  - rewrite encode_elements_cons in Hf |- *. rewrite <- app_assoc in Hf |- *. cbn [app] in Hf |- *.
    rewrite Hv; [|done|done|lia]. punct.
    rewrite length_app in Hf. cbn [length] in Hf. by rewrite IH by (done || lia).
Qed.

(** One entry, read up to what follows its value. *)
Lemma reads_entry (k : string) (v : Any) (d n : nat) (rest : bytes) :
  reads v -> utf8 (to_bytes k) -> well_formed d v -> stops number_byte rest ->
  (2 * length (quoted k ++ chr 58 :: encode_any v ++ rest) <= n)%nat ->
  scan_members (S n) d (quoted k ++ chr 58 :: encode_any v ++ rest) =
    match skip_space rest with
    | [] => None
    | c :: r4 =>
      if is_byte 44 c then '(m, rest) ← scan_members n d r4; Some ((k, v) :: m, rest)
      else if is_byte 125 c then Some ([(k, v)], r4)
      else None
    end.
Proof.
  intros Hv Hk Hw Hs Hf. unfold quoted in *. cbn [app] in *. rewrite <- app_assoc in *. cbn [app] in *.
  destruct (scan_quoted k (chr 58 :: encode_any v ++ rest) Hk) as (raw & Hraw & Hr).
  rewrite scan_members_eq. punct. rewrite Hraw. punct.
  cbn [length] in Hf. rewrite length_app in Hf. cbn [length] in Hf.
  rewrite Hv; [|done|done|lia]. cbn [mbind option_bind]. by rewrite Hr.
Qed.

Lemma reads_members (m : list (string * Any)) :
  m <> [] -> Forall (fun kv => reads kv.2) m -> forall d fuel rest,
  Forall (fun kv => utf8 (to_bytes kv.1) /\ well_formed d kv.2) m ->
  (2 * length (encode_members m ++ rest) < fuel)%nat ->
  scan_members fuel d (encode_members m ++ rest) = Some (m, rest).
Proof.
  intros Hne. induction m as [|[k v] m IH]; [done|]. intros [Hv Hm]%Forall_cons d fuel rest
    [[Hk Hwv] Hwm]%Forall_cons Hf. destruct fuel as [|n]; [lia|].
  cbn [fst snd] in Hv, Hwv, Hk. destruct m as [|kw m].
  - change (encode_members [(k, v)]) with (quoted k ++ chr 58 :: encode_any v ++ [chr 125]) in *.
    assert (He : (quoted k ++ chr 58 :: encode_any v ++ [chr 125]) ++ rest
                 = quoted k ++ chr 58 :: encode_any v ++ chr 125 :: rest)
      by (rewrite <- app_assoc; cbn [app]; by rewrite <- app_assoc).
    rewrite He in *. rewrite reads_entry; [by punct|done..|lia].
  - rewrite encode_members_cons in *.
    assert (He : (quoted k ++ chr 58 :: encode_any v ++ chr 44 :: encode_members (kw :: m)) ++ rest
                 = quoted k ++ chr 58 :: encode_any v ++ chr 44 :: encode_members (kw :: m) ++ rest)
      by (rewrite <- app_assoc; cbn [app]; by rewrite <- app_assoc).
    rewrite He in *. rewrite reads_entry; [|done..|lia]. punct.
    rewrite length_app in Hf. cbn [length] in Hf. rewrite length_app in Hf. cbn [length] in Hf.
    rewrite IH; [done|done|done|done|lia].
Qed.

Lemma encode_array (l : list Any) : encode_any (AArray l) = chr 91 :: encode_elements l.
Proof. reflexivity. Qed.

Lemma encode_object (m : list (string * Any)) : encode_any (AObject m) = chr 123 :: encode_members m.
Proof. reflexivity. Qed.

Lemma stop_digit (rest : bytes) : stops number_byte rest -> stops digit_byte rest.
Proof.
  destruct rest as [|c rest]; simpl; [done|]. unfold number_byte. by destruct (digit_byte c).
Qed.

Lemma all_read (v : Any) : reads v.
Proof.
  induction v as [|b|s|s|l IH|m IH] using Any_ind_nested; intros d [|n] rest Hw Hs Hf; try lia;
    rewrite scan_value_eq.
  - reflexivity.
  - by destruct b.
  - inversion Hw as [| |? ? Hn| | |]; subst.
    pose proof (scan_number_local _ _ _ rest Hn Hs) as Hr. cbn [encode_any].
    destruct (scan_number_head _ _ _ Hn) as (c & n' & Hc & Hd). rewrite Hc in *. cbn [app] in *.
    rewrite skip_space_clean.
    + rewrite (is_byte_false 123), (is_byte_false 91), (is_byte_false 34), Hd, Hr;
        [cbn [mbind option_bind]; rewrite <- Hc; by rewrite of_to_bytes|unfold is_byte, digit_byte, within in Hd; lia..].
    + unfold json_space, is_byte, digit_byte, within in *. lia.
  - inversion Hw as [| | |? ? Hu| |]; subst. cbn [encode_any] in *. unfold quoted in *.
    cbn [app] in *. rewrite <- app_assoc in *. cbn [app] in *.
    destruct (scan_quoted s rest Hu) as (raw & Hraw & Hr). punct. rewrite Hraw.
    cbn [mbind option_bind]. by rewrite Hr.
  - inversion Hw as [| | | |d' ? Hl|]; subst. rewrite encode_array in *. cbn [app] in *. punct.
    destruct l as [|v l]; [reflexivity|]. 
    assert (Hh : exists c r, encode_elements (v :: l) ++ rest = c :: r
                             /\ json_space c = false /\ is_byte 93 c = false).
    { pose proof Hl as [Hv _]%Forall_cons. apply encode_head in Hv as (c & r & Hv & Hc).
      destruct l; [change (encode_elements [v]) with (encode_any v ++ [chr 93])
                  |rewrite encode_elements_cons]; rewrite Hv; by eexists _, _. }
    destruct Hh as (c & r & Hcr & Hc & H93). rewrite Hcr, (skip_space_clean c r Hc), H93, <- Hcr.
    cbn [length] in Hf. rewrite reads_elements; [done|done|done|done|lia].
  - inversion Hw as [| | | | |d' ? Hso Hm]; subst. rewrite encode_object in *. cbn [app] in *. punct.
    destruct m as [|[k v] m]; [reflexivity|].
    assert (Hh : exists r, encode_members ((k, v) :: m) ++ rest = chr 34 :: r).
    { destruct m; eexists; reflexivity. }
    destruct Hh as (r & Hcr). rewrite Hcr. punct. rewrite <- Hcr.
    cbn [length] in Hf. rewrite reads_members; [|done|done|done|lia].
    cbn [mbind option_bind]. by rewrite build_sorted.
Qed.

(** ** What the decoder builds *)

Lemma build_members (d : nat) (m : list (string * Any)) :
  Forall (fun kv => utf8 (to_bytes kv.1) /\ well_formed d kv.2) m ->
  well_formed (S d) (AObject (build m)).
Proof.
  intros Hm. destruct (build_spec [] m) as [Hs Hin]; [constructor|]. constructor; [done|].
  rewrite Forall_forall in *. intros kv [Hkv|Hkv]%Hin; [by apply not_elem_of_nil in Hkv|auto].
Qed.

Lemma scan_literal_wf (d : nat) (l rest : bytes) (v : Any) :
  scan_literal l = Some (v, rest) -> well_formed d v.
Proof.
  unfold scan_literal. repeat case_match; intros; simplify_option_eq; constructor.
Qed.

Lemma scan_wf (n : nat) :
  (forall d l v rest, scan_value n d l = Some (v, rest) -> well_formed d v)
  /\ (forall d l vs rest, scan_elements n d l = Some (vs, rest) -> Forall (well_formed d) vs)
  /\ (forall d l m rest, scan_members n d l = Some (m, rest) ->
        Forall (fun kv => utf8 (to_bytes kv.1) /\ well_formed d kv.2) m).
Proof.
  induction n as [|n (IHv & IHe & IHm)]; [done|]. split_and!.
  - intros d l v rest. rewrite scan_value_eq. destruct (skip_space l) as [|c r]; [done|].
    destruct (is_byte 123 c).
    { destruct d as [|d]; [done|]. destruct (skip_space r) as [|c' r']; [done|].
      destruct (is_byte 125 c'); intros; simplify_option_eq; [by repeat constructor|].
      case_match. simplify_eq. apply build_members. by eapply IHm. }
    destruct (is_byte 91 c).
    { destruct d as [|d]; [done|]. destruct (skip_space r) as [|c' r']; [done|].
      destruct (is_byte 93 c'); intros; simplify_option_eq; [by repeat constructor|].
      case_match. simplify_eq. constructor. by eapply IHe. }
    destruct (is_byte 34 c).
    { destruct (scan_string r) as [[raw rr]|] eqn:Hs; [|done]. intros. simplify_option_eq.
      constructor. by eapply scanned_utf8. }
    destruct (is_byte 45 c || digit_byte c); [|apply scan_literal_wf].
    destruct (scan_number (c :: r)) as [[m rr]|] eqn:Hs; [|done]. intros. simplify_option_eq.
    constructor. rewrite to_of_bytes.
    pose proof (scan_number_local _ _ _ [] Hs I) as Hm. by rewrite app_nil_r in Hm.
  - intros d l vs rest. rewrite scan_elements_eq.
    destruct (scan_value n d l) as [[v r1]|] eqn:Hv; [|done]. cbn [mbind option_bind].
    apply IHv in Hv. destruct (skip_space r1) as [|c r2]; [done|].
    destruct (is_byte 44 c).
    + destruct (scan_elements n d r2) as [[ws rr]|] eqn:He; [|done]. intros. simplify_option_eq.
      constructor; [done|]. by eapply IHe.
    + destruct (is_byte 93 c); [|done]. intros. simplify_eq. by repeat constructor.
  - intros d l m rest. rewrite scan_members_eq. destruct (skip_space l) as [|q r0]; [done|].
    destruct (is_byte 34 q); [|done].
    destruct (scan_string r0) as [[raw r1]|] eqn:Hs; [|done]. cbn [mbind option_bind].
    apply scanned_utf8 in Hs. destruct (skip_space r1) as [|col r2]; [done|].
    destruct (is_byte 58 col); [|done].
    destruct (scan_value n d r2) as [[v r3]|] eqn:Hv; [|done]. cbn [mbind option_bind].
    apply IHv in Hv. destruct (skip_space r3) as [|c r4]; [done|].
    destruct (is_byte 44 c).
    + destruct (scan_members n d r4) as [[ws rr]|] eqn:He; [|done]. intros. simplify_option_eq.
      constructor; [done|]. by eapply IHm.
    + destruct (is_byte 125 c); [|done]. intros. simplify_eq. by repeat constructor.
Qed.

Lemma decode_wf (l : bytes) (v : Any) : decode_bytes l = Some v -> well_formed maxNestingDepth v.
Proof.
  unfold decode_bytes. destruct (scan_value _ _ l) as [[w rest]|] eqn:Hs; [|done].
  cbn [mbind option_bind]. destruct (skip_space rest); [|done]. intros. simplify_eq.
  by eapply scan_wf.
Qed.

(** A well-formed value is what its encoding decodes to. *)
Lemma decode_encode (v : Any) :
  well_formed maxNestingDepth v -> decode_bytes (encode_any v) = Some v.
Proof.
  intros Hw. unfold decode_bytes. rewrite <- (app_nil_r (encode_any v)) at 2.
  rewrite all_read; [done|done|done|]. rewrite app_nil_r. lia.
Qed.

(** *** The text that is left is shorter *)

Lemma skip_space_length (l : bytes) : (length (skip_space l) <= length l)%nat.
Proof. induction l as [|c l IH]; simpl; [lia|]. destruct (json_space c); simpl; lia. Qed.

Lemma skip_space_cons (l r : bytes) (c : ascii) :
  skip_space l = c :: r -> (length r < length l)%nat.
Proof. intros H. pose proof (skip_space_length l). rewrite H in *. simpl in *. lia. Qed.

Lemma scan_string_length (n : nat) : forall l raw rest,
  (length l <= n)%nat -> scan_string l = Some (raw, rest) -> (length rest < length l)%nat.
Proof.
  induction n as [|n IH]; intros [|c r] raw rest Hl H; try done; simpl in Hl; [lia|].
  cbn [scan_string] in H. destruct (is_byte 34 c); [simplify_eq; simpl; lia|].
  destruct (is_byte 92 c).
  - destruct r as [|e r1]; [done|]. simpl in Hl. destruct (is_byte 117 e).
    + destruct r1 as [|a [|b [|c1 [|d r2]]]]; try done. simpl in Hl. case_match; [|done].
      repeat (apply consed_some in H as (? & H & ->)). apply IH in H; simpl in *; lia.
    + destruct (simple_escape e); [|done]. repeat (apply consed_some in H as (? & H & ->)).
      apply IH in H; simpl in *; lia.
  - case_match; [done|]. apply consed_some in H as (? & H & ->). apply IH in H; simpl in *; lia.
Qed.

Lemma span_digits_split (l n r : bytes) : span_digits l = (n, r) -> l = n ++ r.
Proof.
  revert n. induction l as [|c l IH]; intros n H; simpl in H; [by simplify_eq|].
  destruct (digit_byte c); [|by simplify_eq]. destruct (span_digits l) as [d rest] eqn:Hs.
  simplify_eq. simpl. f_equal. by apply IH.
Qed.

Lemma scan_digits_split (l n r : bytes) : scan_digits l = Some (n, r) -> l = n ++ r.
Proof.
  unfold scan_digits. destruct (span_digits l) as [[|c d] rest] eqn:Hs; [done|].
  intros. simplify_eq. by apply span_digits_split.
Qed.

Lemma scan_one_split (p : ascii -> bool) (l m r : bytes) : scan_one p l = (m, r) -> l = m ++ r.
Proof. intros [(-> & -> & _)|(c & -> & _ & ->)]%scan_one_cases; done. Qed.

Lemma scan_part_split (p : ascii -> bool) (body : bytes -> option (bytes * bytes)) (l n r : bytes) :
  (forall l n r, body l = Some (n, r) -> l = n ++ r) ->
  scan_part p body l = Some (n, r) -> l = n ++ r.
Proof.
  intros Hb. unfold scan_part. destruct (scan_one p l) as [m rest] eqn:Hm.
  apply scan_one_cases in Hm as [(-> & -> & Hp)|(c & -> & Hc & ->)]; [intros; by simplify_eq|].
  destruct (body rest) as [[s rr]|] eqn:Hs; simpl; [|done]. intros. simplify_eq.
  simpl. f_equal. by apply Hb.
Qed.

Lemma scan_exponent_split (l n r : bytes) : scan_exponent l = Some (n, r) -> l = n ++ r.
Proof.
  unfold scan_exponent. destruct (scan_one _ l) as [m rest] eqn:Hm. apply scan_one_split in Hm as ->.
  destruct (scan_digits rest) as [[d rr]|] eqn:Hd; simpl; [|done]. intros. simplify_eq.
  apply scan_digits_split in Hd as ->. by rewrite app_assoc.
Qed.

Lemma scan_integer_split (l n r : bytes) : scan_integer l = Some (n, r) -> l = n ++ r.
Proof.
  unfold scan_integer. destruct l as [|c l]; [done|].
  destruct (is_byte 48 c); [intros; by simplify_eq|apply scan_digits_split].
Qed.

Lemma scan_number_split (l n r : bytes) : scan_number l = Some (n, r) -> l = n ++ r.
Proof.
  unfold scan_number. destruct (scan_one _ l) as [sign r0] eqn:Hs. apply scan_one_split in Hs as ->.
  destruct (scan_integer r0) as [[int r1]|] eqn:Hi; simpl; [|done].
  destruct (scan_part _ scan_digits r1) as [[frac r2]|] eqn:Hf; simpl; [|done].
  destruct (scan_part _ scan_exponent r2) as [[ex r3]|] eqn:He; simpl; [|done].
  intros. simplify_eq. apply scan_integer_split in Hi as ->.
  apply scan_part_split in Hf as ->; [|apply scan_digits_split].
  apply scan_part_split in He as ->; [|apply scan_exponent_split]. by rewrite <- !app_assoc.
Qed.

Lemma scan_literal_length (l rest : bytes) (v : Any) :
  scan_literal l = Some (v, rest) -> (length rest < length l)%nat.
Proof.
  unfold scan_literal.
  destruct (strip_prefix (lit "true") l) eqn:Ht; [apply strip_prefix_some in Ht as ->|].
  { intros. simplify_eq. simpl. lia. }
  destruct (strip_prefix (lit "false") l) eqn:Hf; [apply strip_prefix_some in Hf as ->|].
  { intros. simplify_eq. simpl. lia. }
  destruct (strip_prefix (lit "null") l) eqn:Hn; [apply strip_prefix_some in Hn as ->|done].
  intros. simplify_option_eq. simpl. lia.
Qed.

Ltac shorter :=
  repeat match goal with
  | H : skip_space _ = _ :: _ |- _ => apply skip_space_cons in H
  end; simpl in *; lia.

Lemma scan_shrinks (n : nat) :
  (forall d l v rest, scan_value n d l = Some (v, rest) -> (length rest < length l)%nat)
  /\ (forall d l vs rest, scan_elements n d l = Some (vs, rest) -> (length rest < length l)%nat)
  /\ (forall d l m rest, scan_members n d l = Some (m, rest) -> (length rest < length l)%nat).
Proof.
  induction n as [|n (IHv & IHe & IHm)]; [done|]. split_and!.
  - intros d l v rest. rewrite scan_value_eq. destruct (skip_space l) as [|c r] eqn:Hl; [done|].
    destruct (is_byte 123 c).
    { destruct d as [|d]; [done|]. destruct (skip_space r) as [|c' r'] eqn:Hr; [done|].
      destruct (is_byte 125 c'); [intros; simplify_eq; shorter|].
      destruct (scan_members n d r) as [[m rr]|] eqn:Hm; [|done]. intros. simplify_option_eq.
      apply IHm in Hm. shorter. }
    destruct (is_byte 91 c).
    { destruct d as [|d]; [done|]. destruct (skip_space r) as [|c' r'] eqn:Hr; [done|].
      destruct (is_byte 93 c'); [intros; simplify_eq; shorter|].
      destruct (scan_elements n d r) as [[m rr]|] eqn:Hm; [|done]. intros. simplify_option_eq.
      apply IHe in Hm. shorter. }
    destruct (is_byte 34 c).
    { destruct (scan_string r) as [[raw rr]|] eqn:Hs; [|done]. intros. simplify_option_eq.
      apply (scan_string_length (length r)) in Hs; [|done]. shorter. }
    destruct (is_byte 45 c || digit_byte c).
    + destruct (scan_number (c :: r)) as [[m rr]|] eqn:Hs; [|done]. intros. simplify_option_eq.
      destruct (scan_number_head _ _ _ Hs) as (c' & n' & -> & _).
      apply scan_number_split in Hs. apply skip_space_cons in Hl.
      assert (Hlen : length (c :: r) = length ((c' :: n') ++ rest)) by (by rewrite Hs).
      simpl in Hlen. rewrite length_app in Hlen. lia.
    + intros Hlit%scan_literal_length. shorter.
  - intros d l vs rest. rewrite scan_elements_eq.
    destruct (scan_value n d l) as [[v r1]|] eqn:Hv; [|done]. cbn [mbind option_bind].
    apply IHv in Hv. destruct (skip_space r1) as [|c r2] eqn:Hr; [done|].
    destruct (is_byte 44 c).
    + destruct (scan_elements n d r2) as [[ws rr]|] eqn:He; [|done]. intros. simplify_option_eq.
      apply IHe in He. shorter.
    + destruct (is_byte 93 c); [|done]. intros. simplify_eq. shorter.
  - intros d l m rest. rewrite scan_members_eq. destruct (skip_space l) as [|q r0] eqn:Hl; [done|].
    destruct (is_byte 34 q); [|done].
    destruct (scan_string r0) as [[raw r1]|] eqn:Hs; [|done]. cbn [mbind option_bind].
    apply (scan_string_length (length r0)) in Hs; [|done].
    destruct (skip_space r1) as [|col r2] eqn:Hr1; [done|]. destruct (is_byte 58 col); [|done].
    destruct (scan_value n d r2) as [[v r3]|] eqn:Hv; [|done]. cbn [mbind option_bind].
    apply IHv in Hv. destruct (skip_space r3) as [|c r4] eqn:Hr3; [done|].
    destruct (is_byte 44 c).
    + destruct (scan_members n d r4) as [[ws rr]|] eqn:He; [|done]. intros. simplify_option_eq.
      apply IHm in He. shorter.
    + destruct (is_byte 125 c); [|done]. intros. simplify_eq. shorter.
Qed.

(** The fuel of the decoder is enough: more gives the same. *)
Lemma scan_enough (n : nat) : forall m,
  (forall d l, (2 * length l < n)%nat -> (2 * length l < m)%nat -> scan_value n d l = scan_value m d l)
  /\ (forall d l, (S (2 * length l) < n)%nat -> (S (2 * length l) < m)%nat ->
        scan_elements n d l = scan_elements m d l)
  /\ (forall d l, (2 * length l < n)%nat -> (2 * length l < m)%nat ->
        scan_members n d l = scan_members m d l).
Proof.
  induction n as [|n IH]; [intros; split_and!; intros; lia|].
  intros [|m]; [split_and!; intros; lia|]. destruct (IH m) as (IHv & IHe & IHm). split_and!.
  - intros d l Hn Hm. rewrite !scan_value_eq.
    destruct (skip_space l) as [|c r] eqn:Hl; [done|]. apply skip_space_cons in Hl.
    destruct d as [|d]; [done|]. rewrite (IHm d r), (IHe d r) by lia. done.
  - intros d l Hn Hm. rewrite !scan_elements_eq, (IHv d l) by lia.
    destruct (scan_value m d l) as [[v r1]|] eqn:Hv; [|done]. cbn [mbind option_bind].
    apply scan_shrinks in Hv. destruct (skip_space r1) as [|c r2] eqn:Hr; [done|].
    apply skip_space_cons in Hr. by rewrite (IHe d r2) by lia.
  - intros d l Hn Hm. rewrite !scan_members_eq.
    destruct (skip_space l) as [|q r0] eqn:Hl; [done|]. apply skip_space_cons in Hl.
    destruct (is_byte 34 q); [|done].
    destruct (scan_string r0) as [[raw r1]|] eqn:Hs; [|done]. cbn [mbind option_bind].
    apply (scan_string_length (length r0)) in Hs; [|done].
    destruct (skip_space r1) as [|col r2] eqn:Hr1; [done|]. apply skip_space_cons in Hr1.
    destruct (is_byte 58 col); [|done]. rewrite (IHv d r2) by lia.
    destruct (scan_value m d r2) as [[v r3]|] eqn:Hv; [|done]. cbn [mbind option_bind].
    apply scan_shrinks in Hv. destruct (skip_space r3) as [|c r4] eqn:Hr3; [done|].
    apply skip_space_cons in Hr3. by rewrite (IHm d r4) by lia.
Qed.

(** Where more levels may be opened the decoder reads the same. *)
Lemma scan_deeper (k n : nat) :
  (forall d l x, scan_value n d l = Some x -> scan_value n (k + d) l = Some x)
  /\ (forall d l x, scan_elements n d l = Some x -> scan_elements n (k + d) l = Some x)
  /\ (forall d l x, scan_members n d l = Some x -> scan_members n (k + d) l = Some x).
Proof.
  induction n as [|n (IHv & IHe & IHm)]; [by split_and!|]. split_and!; intros d l x.
  - rewrite !scan_value_eq. destruct (skip_space l) as [|c r]; [done|].
    destruct d as [|d]; [by destruct (is_byte 123 c), (is_byte 91 c)|].
    rewrite Nat.add_succ_r. destruct (is_byte 123 c); [|destruct (is_byte 91 c); [|done]].
    + destruct (skip_space r) as [|c' r']; [done|]. destruct (is_byte 125 c'); [done|].
      destruct (scan_members n d r) as [[m rest]|] eqn:Hm; [|done]. by rewrite (IHm _ _ _ Hm).
    + destruct (skip_space r) as [|c' r']; [done|]. destruct (is_byte 93 c'); [done|].
      destruct (scan_elements n d r) as [[m rest]|] eqn:Hm; [|done]. by rewrite (IHe _ _ _ Hm).
  - rewrite !scan_elements_eq. destruct (scan_value n d l) as [[v r1]|] eqn:Hv; [|done].
    rewrite (IHv _ _ _ Hv). cbn [mbind option_bind]. destruct (skip_space r1) as [|c r2]; [done|].
    destruct (is_byte 44 c); [|done].
    destruct (scan_elements n d r2) as [[vs rest]|] eqn:He; [|done]. by rewrite (IHe _ _ _ He).
  - rewrite !scan_members_eq. destruct (skip_space l) as [|q r0]; [done|].
    destruct (is_byte 34 q); [|done]. destruct (scan_string r0) as [[raw r1]|]; [|done].
    cbn [mbind option_bind]. destruct (skip_space r1) as [|col r2]; [done|].
    destruct (is_byte 58 col); [|done].
    destruct (scan_value n d r2) as [[v r3]|] eqn:Hv; [|done]. rewrite (IHv _ _ _ Hv).
    cbn [mbind option_bind]. destruct (skip_space r3) as [|c r4]; [done|].
    destruct (is_byte 44 c); [|done].
    destruct (scan_members n d r4) as [[m rest]|] eqn:Hm; [|done]. by rewrite (IHm _ _ _ Hm).
Qed.

(** However deep a value is, its encoding decodes to nothing else. *)
Lemma decode_encode_deep (d : nat) (v w : Any) :
  well_formed d v -> decode_bytes (encode_any v) = Some w -> w = v.
Proof.
  intros Hw. unfold decode_bytes.
  destruct (scan_value _ maxNestingDepth (encode_any v)) as [[u rest]|] eqn:Hs; [|done].
  cbn [mbind option_bind]. destruct (skip_space rest) eqn:Hr; [|done]. intros [= <-].
  apply (proj1 (scan_deeper d _)) in Hs.
  assert (Hd : well_formed (d + maxNestingDepth) v) by (eapply wf_mono; [|done]; lia).
  assert (Hf : (2 * length (encode_any v ++ []) < S (2 * length (encode_any v)))%nat)
    by (rewrite app_nil_r; lia).
  pose proof (all_read v _ _ [] Hd I Hf) as Ha. rewrite app_nil_r in Ha. congruence.
Qed.

(** ** The canonical form *)

Lemma strip_all_keeps (ps : list bytes) (c : ascii) (fuel : nat) :
  (forall p, p ∈ ps -> c ∉ p) -> forall l, c ∈ l -> c ∈ strip_all fuel ps l.
Proof.
  intros Hps. induction fuel as [|fuel IH]; intros l Hc; simpl; [done|].
  destruct (strip_any ps l) as [r|] eqn:Hr; [|done].
  apply strip_any_spec in Hr as (p & Hp & ->). apply IH.
  apply elem_of_app in Hc as [Hc|Hc]; [by apply Hps in Hc|done].
Qed.

Lemma elem_of_rev {A} (x : A) (l : list A) : x ∈ rev l <-> x ∈ l.
Proof. by rewrite !list_elem_of_In, <- in_rev. Qed.

(** A byte that is in no space survives trimming. *)
Lemma trim_keeps (c : ascii) (l : bytes) :
  (forall p, p ∈ space_runes -> c ∉ p) -> c ∈ l -> c ∈ trim_bytes l.
Proof.
  intros Hc Hl. unfold trim_bytes, trim_left. rewrite elem_of_rev. apply strip_all_keeps.
  - intros p Hp. change (map (@rev ascii) space_runes) with (@rev ascii <$> space_runes) in Hp.
    apply list_elem_of_fmap in Hp as (q & -> & Hq). rewrite elem_of_rev. auto.
  - rewrite elem_of_rev. by apply strip_all_keeps.
Qed.

(** The first byte of an encoding is printable ASCII, so it is in no space. *)
Lemma printable_no_space (c : ascii) :
  33 <= byte_of c < 127 -> forall p, p ∈ space_runes -> c ∉ p.
Proof.
  intros Hc p Hp Hin.
  assert (Hall : forallb (forallb (fun d => (byte_of d <? 33) || (127 <=? byte_of d))) space_runes
                 = true) by (vm_compute; reflexivity).
  rewrite forallb_forall in Hall. specialize (Hall p). rewrite <- list_elem_of_In in Hall.
  specialize (Hall Hp). rewrite forallb_forall in Hall. specialize (Hall c).
  rewrite <- list_elem_of_In in Hall. specialize (Hall Hin). lia.
Qed.

Lemma encode_not_blank (d : nat) (v : Any) :
  well_formed d v -> is_empty (TrimSpace (encodeCanonical v)) = false.
Proof.
  intros Hw. unfold is_empty, TrimSpace, encodeCanonical. rewrite to_of_bytes.
  assert (Hc : exists c, c ∈ encode_any v /\ 33 <= byte_of c < 127).
  { inversion Hw as [|? []|? s Hs|? s|? l|? m]; subst.
    4: { destruct (scan_number_head _ _ _ Hs) as (c & n' & Hn & Hc). exists c. simpl. rewrite Hn.
         split; [left|]. unfold is_byte, digit_byte, within in Hc. lia. }
    all: eexists; split; [left|vm_compute; split; congruence]. }
  destruct Hc as (c & Hin & Hc).
  apply (trim_keeps c) in Hin; [|by apply printable_no_space].
  apply bool_decide_eq_false. intros He. apply (f_equal to_bytes) in He.
  rewrite to_of_bytes in He. rewrite He in Hin. by apply not_elem_of_nil in Hin.
Qed.

Lemma encodeCanonical_decode (v : Any) :
  well_formed maxNestingDepth v -> decodeJSONWithNumbers (encodeCanonical v) = Some v.
Proof.
  intros Hw. unfold decodeJSONWithNumbers, encodeCanonical. rewrite to_of_bytes.
  by apply decode_encode.
Qed.

(** [bytes.TrimSpace] leaves nothing. *)
Definition blank (raw : string) : bool := is_empty (TrimSpace raw).

(** The canonical form of the text of a value. *)
Lemma canonical_form (raw canonical : string) :
  CanonicalizeRawJSON raw = Some canonical ->
  if blank raw then canonical = EmptyString
  else exists v, decodeJSONWithNumbers raw = Some v /\ canonical = encodeCanonical v
                 /\ decodeJSONWithNumbers canonical = Some v /\ blank canonical = false.
Proof.
  unfold CanonicalizeRawJSON. fold (blank raw). destruct (blank raw); [by intros [= <-]|].
  destruct (decodeJSONWithNumbers raw) as [v|] eqn:Hv; [|done]. intros [= <-].
  assert (Hw : well_formed maxNestingDepth v) by (by eapply decode_wf).
  exists v. split_and!; [done|done|by apply encodeCanonical_decode|by eapply encode_not_blank].
Qed.

Lemma canonical_idempotent (raw canonical : string) :
  CanonicalizeRawJSON raw = Some canonical ->
  CanonicalizeRawJSON canonical = Some canonical /\ blank canonical = blank raw.
Proof.
  intros H. apply canonical_form in H. destruct (blank raw) eqn:Hb.
  - rewrite H. split; reflexivity.
  - destruct H as (v & _ & -> & Hd & Hn). split; [|done].
    unfold CanonicalizeRawJSON. fold (blank (encodeCanonical v)). by rewrite Hn, Hd.
Qed.

(** C27: the canonical form of a JSON text (what tool calls, schemas and answers are stored and
    hashed as) is the canonical form of itself; it decodes to what the text decodes to; and two
    texts have the same canonical form exactly when they decode to the same value: numbers keep
    their literal, keys are sorted and of repeated keys the last counts. *)
Theorem canonical_json_round_trips (raw canonical : string) :
  CanonicalizeRawJSON raw = Some canonical ->
  CanonicalizeRawJSON canonical = Some canonical
  /\ blank canonical = blank raw
  /\ (blank raw = false ->
      (exists v, decodeJSONWithNumbers raw = Some v /\ decodeJSONWithNumbers canonical = Some v)
      /\ forall raw', blank raw' = false ->
        (CanonicalizeRawJSON raw' = Some canonical
         <-> decodeJSONWithNumbers raw' = decodeJSONWithNumbers raw)).
Proof.
  intros H. destruct (canonical_idempotent _ _ H) as [Hi Hn]. apply canonical_form in H.
  split_and!; [done|done|]. intros Hb. rewrite Hb in H. destruct H as (v & Hv & Hc & Hd & _).
  split; [by exists v|]. intros raw' Hb'. split; intros H.
  - apply canonical_form in H. rewrite Hb' in H. destruct H as (v' & Hv' & _ & Hd' & _). congruence.
  - unfold CanonicalizeRawJSON. fold (blank raw'). rewrite Hb', H, Hv. by subst canonical.
Qed.

Lemma canonical_json_round_trips_witness :
  CanonicalizeRawJSON demo_canonical = Some demo_canonical
  /\ decodeJSONWithNumbers demo_canonical = decodeJSONWithNumbers demo_text.
Proof.
  destruct (canonical_json_round_trips demo_text demo_canonical) as (Hc & _ & Hv);
    [vm_compute; reflexivity|].
  split; [exact Hc|]. destruct Hv as [(v & -> & ->) _]; [vm_compute; reflexivity|reflexivity].
Defined.
