(* ===== verification/ValidationProps.v ===== *)
(** * Properties of the validation and of the retry delay

    backoff.go, taskclass.go and validation.go: what is accepted, exactly, and
    what normalization and the retry delay give. *)

From stdpp Require Import base tactics list gmap strings sorting.
From Stdlib Require Import ZArith Lia Ascii.
From S2P Require Import Prelude GoLib TaskDomain Database StoreRead TaskValidation TaskService.
From S2P Require Import Scenario Patterns.

Local Open Scope Z_scope.

(** ** The retry delay *)

Lemma delay_loop_bounds (n : nat) (maximum delay : Z) :
  int64 maximum -> 0 < delay <= maximum ->
  delay <= delay_loop n maximum delay <= maximum
  /\ Z.min maximum (delay * 2 ^ Z.of_nat n) <= delay_loop n maximum delay
     <= Z.min maximum (delay * 2 ^ Z.of_nat n + 1)
  /\ (Z.even maximum = true ->
      delay_loop n maximum delay = Z.min maximum (delay * 2 ^ Z.of_nat n)).
Proof.
  intros Hmax. revert delay. induction n as [|n IH]; intros delay Hd; cbn [delay_loop].
  - rewrite Z.pow_0_r. destruct (maximum <? delay) eqn:Hlt; lia.
  - replace (2 ^ Z.of_nat (S n)) with (2 * 2 ^ Z.of_nat n)
      by (rewrite Nat2Z.inj_succ, Z.pow_succ_r; lia).
    assert (Hpow : 1 <= 2 ^ Z.of_nat n) by (apply Z.lt_pred_le, Z.pow_pos_nonneg; lia).
    assert (Hhalf : maximum - 1 <= 2 * Z.quot maximum 2 <= maximum).
    { pose proof (Z.quot_rem maximum 2). pose proof (Z.rem_bound_pos maximum 2). lia. }
    destruct (Z.quot maximum 2 <=? delay) eqn:Hle.
    + apply Z.leb_le in Hle. split; [lia|]. split; [nia|].
      intros [k ->]%Z.even_spec. rewrite Z.mul_comm, Z.quot_mul in Hle by lia. nia.
    + apply Z.leb_gt in Hle. unfold int64, minInt64, maxInt64, two63 in Hmax.
      rewrite wrap64_id by (unfold int64, minInt64, maxInt64, two63; lia).
      destruct (IH (delay * 2)) as (H1 & H2 & H3); [lia|].
      replace (delay * (2 * 2 ^ Z.of_nat n)) with (delay * 2 * 2 ^ Z.of_nat n) by lia.
      split; [lia|]. done.
Qed.

(** Under a policy the configuration accepts, the delay after the n-th attempt
    is the base delay doubled n-1 times and cut at the maximum, within one
    nanosecond and exactly for an even maximum: it never overflows, never leaves
    [base, maximum] and never decreases from one attempt to the next. *)
Lemma delay_is_exponential (p : RetryPolicy) (n : Z) :
  0 < policy_BaseDelay p <= policy_MaxDelay p -> int64 (policy_MaxDelay p) ->
  let full := policy_BaseDelay p * 2 ^ (Z.max 1 n - 1) in
  policy_BaseDelay p <= Delay p n <= policy_MaxDelay p
  /\ Z.min (policy_MaxDelay p) full <= Delay p n <= Z.min (policy_MaxDelay p) (full + 1)
  /\ (Z.even (policy_MaxDelay p) = true -> Delay p n = Z.min (policy_MaxDelay p) full)
  /\ Delay p n <= Delay p (n + 1).
Proof.
  intros Hp Hmax full. set (maximum := policy_MaxDelay p) in *. set (base := policy_BaseDelay p) in *.
  assert (Hd : forall m, Delay p m = delay_loop (Z.to_nat (Z.max 1 m - 1)) maximum base).
  { intros m. unfold Delay. fold base maximum.
    replace (base <=? 0) with false by lia. replace (maximum <=? 0) with false by lia.
    do 2 f_equal. destruct (m <? 1) eqn:Hm; lia. }
  assert (Hb : forall m, let f := base * 2 ^ (Z.max 1 m - 1) in
    base <= Delay p m <= maximum /\ Z.min maximum f <= Delay p m <= Z.min maximum (f + 1)
    /\ (Z.even maximum = true -> Delay p m = Z.min maximum f)).
  { intros m f. unfold f. rewrite Hd.
    destruct (delay_loop_bounds (Z.to_nat (Z.max 1 m - 1)) maximum base Hmax) as (H1 & H2 & H3);
      [lia|].
    rewrite Z2Nat.id in H2, H3 by lia. done. }
  destruct (Hb n) as (H1 & H2 & H3). split; [done|]. split; [done|]. split; [done|].
  destruct (Z_lt_le_dec n 1) as [Hn|Hn].
  - rewrite !Hd. replace (Z.max 1 (n + 1)) with (Z.max 1 n) by lia. done.
  - destruct (Hb (n + 1)) as (_ & [H4 _] & _). fold full in H2.
    replace (Z.max 1 (n + 1) - 1) with (Z.succ (n - 1)) in H4 by lia.
    rewrite Z.pow_succ_r in H4 by lia. unfold full in H2.
    replace (Z.max 1 n - 1) with (n - 1) in H2 by lia.
    assert (Hpow : 0 < 2 ^ (n - 1)) by (apply Z.pow_pos_nonneg; lia). nia.
Qed.

Lemma delay_is_exponential_witness :
  Delay demo_policy_retry 3 = Z.min (policy_MaxDelay demo_policy_retry)
    (policy_BaseDelay demo_policy_retry * 4).
Proof.
  destruct (delay_is_exponential demo_policy_retry 3) as (_ & _ & H & _).
  - vm_compute. split; [reflexivity|discriminate].
  - vm_compute. split; discriminate.
  - apply H. reflexivity.
Defined.

(** ** Task classes *)

(** ValidTaskClass accepts the names of at most 100 bytes made of two or more
    segments around dots, each of lower-case words of letters and digits around
    single underscores, and of these it refuses the one reserved for old rows. *)
Lemma task_class_grammar (s : string) :
  ValidTaskClass s = true
  <-> s <> TaskClassLegacyUnspecified /\ len s <= 100 /\ class_name (to_bytes s).
Proof.
  unfold ValidTaskClass. case_bool_decide as Hl; [split; [done|tauto]|].
  rewrite !andb_true_iff, Z.ltb_lt, Z.leb_le, taskClassPattern_spec. unfold maxTaskClassBytes.
  split; [tauto|]. intros (_ & H1 & H2). split_and!; [|done|done].
  rewrite <- to_bytes_length. destruct H2 as ([|x [|y words]] & Hlen & Hw & ->); simpl in Hlen; [lia|lia|].
  simpl. rewrite length_app. simpl. lia.
Qed.

(** ** Requests *)

Section Requests.
Context `{Env, ContentPolicy}.

Definition length_between (lo hi : Z) (s : string) : Prop := lo <= len s <= hi.

Definition acceptable_spec (s : RequirementSpec) : Prop :=
  length_between 1 120 (spec_Key s) /\ matches identifierPattern (to_bytes (spec_Key s))
  /\ RequirementTypeValid (spec_Type s) = true
  /\ length_between 1 4000 (spec_Description s).

(** The requests the service accepts. *)
Record acceptable (r : CreateRequest) : Prop := {
  acc_organization : create_OrganizationID r = EmptyString
    \/ matches identifierPattern (to_bytes (create_OrganizationID r));
  acc_requester : create_RequestedByRoleID r = EmptyString
    \/ matches rolePattern (to_bytes (create_RequestedByRoleID r));
  acc_role : matches rolePattern (to_bytes (create_AssignedRoleID r));
  acc_class : create_TaskClass r = EmptyString \/ ValidTaskClass (create_TaskClass r) = true;
  acc_key : length_between 1 200 (create_IdempotencyKey r);
  acc_title : length_between 1 240 (create_Title r);
  acc_instructions : length_between 1 65536 (create_Instructions r);
  acc_secrets : forall text, text ∈ secret_fields r -> HasCredentials text = false;
  acc_priority : -100000 <= create_Priority r <= 100000;
  acc_attempts : 1 <= create_MaxAttempts r <= 100;
  acc_correlation : len (create_CorrelationID r) <= 200;
  acc_causation : len (create_CausationID r) <= 200;
  acc_criteria : (length (create_AcceptanceCriteria r) <= 100)%nat;
  acc_each_criterion : Forall (length_between 1 4000) (create_AcceptanceCriteria r);
  acc_dependencies : Forall (fun d => 0 < d) (create_Dependencies r)
    /\ NoDup (create_Dependencies r);
  acc_requirements : (length (create_Requirements r) <= 100)%nat;
  acc_each_requirement : Forall acceptable_spec (create_Requirements r)
    /\ NoDup (spec_Key <$> create_Requirements r) }.

Lemma between_spec (lo hi z : Z) : negb (between lo hi z) = false <-> lo <= z <= hi.
Proof. unfold between. rewrite negb_false_iff, andb_true_iff, !Z.leb_le. done. Qed.

Lemma pattern_spec (r : regex) (s : string) :
  negb (MatchString r s) = false <-> matches r (to_bytes s).
Proof. unfold MatchString. by rewrite negb_false_iff, run_regex_spec. Qed.

Lemma is_empty_false (s : string) : negb (is_empty s) = false <-> s = EmptyString.
Proof. unfold is_empty. by rewrite negb_false_iff, bool_decide_eq_true. Qed.

Lemma len_nonneg (s : string) : 0 <= len s.
Proof. unfold len. lia. Qed.

Lemma len_zero (s : string) : len s = 0 <-> s = EmptyString.
Proof. unfold len. destruct s; simpl; split; try done; lia. Qed.

Lemma check_dependencies_ok (seen : gset Z) (l : list Z) :
  check_dependencies seen l = Ok tt
  <-> Forall (fun d => 0 < d) l /\ NoDup l /\ forall d, d ∈ l -> d ∉ seen.
Proof.
  revert seen. induction l as [|d l IH]; intros seen; cbn [check_dependencies].
  - split; [|done]. intros _. split_and!; [done|constructor|].
    intros d Hd. by apply not_elem_of_nil in Hd.
  - rewrite !check_ok, !rejectIf_ok, IH, Z.leb_gt, bool_decide_eq_false, Forall_cons, NoDup_cons.
    setoid_rewrite elem_of_cons. set_solver.
Qed.

Lemma ValidateRequirementSpec_ok (s : RequirementSpec) :
  ValidateRequirementSpec s = Ok tt <-> acceptable_spec s.
Proof.
  unfold ValidateRequirementSpec, acceptable_spec, length_between.
  rewrite !check_ok, !rejectIf_ok, orb_false_iff, !between_spec, pattern_spec, negb_false_iff.
  tauto.
Qed.

Lemma check_requirements_ok (seen : gset string) (l : list RequirementSpec) :
  check_requirements seen l = Ok tt
  <-> Forall acceptable_spec l /\ NoDup (spec_Key <$> l)
      /\ forall s, s ∈ l -> spec_Key s ∉ seen.
Proof.
  revert seen. induction l as [|s l IH]; intros seen; cbn [check_requirements].
  - split; [|done]. intros _. split_and!; [done|constructor|].
    intros s Hs. by apply not_elem_of_nil in Hs.
  - rewrite !check_ok, rejectIf_ok, IH, ValidateRequirementSpec_ok, bool_decide_eq_false,
      Forall_cons, fmap_cons, NoDup_cons, list_elem_of_fmap.
    setoid_rewrite elem_of_cons. set_solver.
Qed.

Lemma criteria_ok (l : list string) :
  reach (fun c => rejectIf (is_empty c || (4000 <? len c)) ErrInvalidInput) l = Ok tt
  <-> Forall (length_between 1 4000) l.
Proof.
  rewrite reach_ok. apply Forall_iff. intros c.
  rewrite rejectIf_ok, orb_false_iff, Z.ltb_ge. unfold is_empty, length_between.
  rewrite bool_decide_eq_false, <- len_zero. pose proof (len_nonneg c). lia.
Qed.

Lemma secrets_ok (r : CreateRequest) :
  rejectSecrets r = Ok tt <-> forall text, text ∈ secret_fields r -> HasCredentials text = false.
Proof.
  unfold rejectSecrets. rewrite reach_ok, <- Forall_forall.
  apply Forall_iff. intros t. apply rejectIf_ok.
Qed.

Lemma class_ok (s : string) :
  bool_decide (s = TaskClassLegacyUnspecified) = false
  /\ negb (is_empty s) && negb (ValidTaskClass s) = false
  <-> s = EmptyString \/ ValidTaskClass s = true.
Proof.
  rewrite andb_false_iff, is_empty_false, negb_false_iff, bool_decide_eq_false.
  split; [tauto|]. intros Hs. split; [|done]. intros ->. by destruct Hs.
Qed.

(** ValidateCreateRequest accepts exactly the requests within the limits on
    every field, with well-formed identifiers, positive and distinct dependencies,
    distinct requirement keys and no credential in any text that reaches an agent. *)
Lemma requests_are_validated (r : CreateRequest) :
  ValidateCreateRequest r = Ok tt <-> acceptable r.
Proof.
  unfold ValidateCreateRequest.
  rewrite !check_ok, !rejectIf_ok, !between_spec, orb_false_iff, !Z.ltb_ge, !andb_false_iff,
    !is_empty_false, !pattern_spec, criteria_ok, secrets_ok, check_dependencies_ok,
    check_requirements_ok, bool_decide_eq_false.
  setoid_rewrite negb_false_iff. split.
  - intros (H1 & H2 & H3 & H4 & H5 & H6 & H7 & H8 & H9 & H10 & H11 & [H12 H13] & H14 & H15
      & [H16 [H17 _]] & H18 & H19 & H20 & _).
    constructor; try done. lia. lia.
  - intros [Ho Hq Hr Hc Hk Ht Hi Hs Hp Ha Hco Hca Hn Hcr [Hd Hd'] Hm [Hrq Hrq']].
    unfold length_between in *. split_and!; try done; try lia; try set_solver.
    intros Hl. rewrite Hl in Hc. by destruct Hc.
Qed.

End Requests.

(** ** Normalization *)

#[local] Arguments TrimSpace : simpl never.

Lemma normalize_spec_idempotent (s : RequirementSpec) :
  normalize_spec (normalize_spec s) = normalize_spec s.
Proof. unfold normalize_spec. cbn. by rewrite !TrimSpace_idempotent. Qed.

Lemma fmap_idempotent {A} (f : A -> A) (l : list A) :
  (forall x, f (f x) = f x) -> f <$> (f <$> l) = f <$> l.
Proof. intros Hf. rewrite <- list_fmap_compose. apply list_fmap_ext. intros _ x _. apply Hf. Qed.

(** Normalizing a request twice is normalizing it once, so the service may
    normalize a request that its caller has already normalized (redrive does). *)
Lemma normalization_is_idempotent (r : CreateRequest) :
  NormalizeCreateRequest (NormalizeCreateRequest r) = NormalizeCreateRequest r.
Proof.
  unfold NormalizeCreateRequest. cbn. rewrite !TrimSpace_idempotent.
  rewrite (fmap_idempotent TrimSpace) by apply TrimSpace_idempotent.
  by rewrite (fmap_idempotent normalize_spec) by apply normalize_spec_idempotent.
Qed.

(** ** Forbidden keys *)

(** [key] names a member somewhere in the document. *)
Inductive key_in (key : string) : JSON -> Prop :=
| key_here v l : (key, v) ∈ l -> key_in key (JObj l)
| key_below k v l : (k, v) ∈ l -> key_in key v -> key_in key (JObj l)
| key_item v l : v ∈ l -> key_in key v -> key_in key (JArr l).

Section JSONInduction.
Variable P : JSON -> Prop.
Hypothesis on_leaf : forall v,
  match v with JArr _ | JObj _ => False | _ => True end -> P v.
Hypothesis on_array : forall l, (forall v, v ∈ l -> P v) -> P (JArr l).
Hypothesis on_object : forall l, (forall k v, (k, v) ∈ l -> P v) -> P (JObj l).

Fixpoint JSON_nested_ind (v : JSON) : P v.
Proof.
  destruct v as [| | | | | | |l|l]; try (apply on_leaf; exact I).
  - apply on_array. induction l as [|x l IH]; intros y Hy.
    + exfalso. by apply not_elem_of_nil in Hy.
    + apply elem_of_cons in Hy as [->|Hy]; [apply JSON_nested_ind | by apply IH].
  - apply on_object. induction l as [|[k x] l IH]; intros k' y Hy.
    + exfalso. by apply not_elem_of_nil in Hy.
    + apply elem_of_cons in Hy as [[= -> ->]|Hy]; [apply JSON_nested_ind | by eapply IH].
Qed.

End JSONInduction.

(** What a search gives: nothing, or something found. *)
Definition found (hit : string -> Prop) (result : string) : Prop :=
  (result = EmptyString /\ forall k, hit k -> False) \/ (result <> EmptyString /\ hit result).

Lemma forbidden_not_empty (k : string) : is_forbidden k = true -> k <> EmptyString.
Proof. intros Hk ->. by vm_compute in Hk. Qed.

Lemma first_nested_found (hit : string -> JSON -> Prop) (f : JSON -> string) (l : list JSON) :
  (forall v, v ∈ l -> found (fun k => hit k v) (f v)) ->
  found (fun k => exists v, v ∈ l /\ hit k v) (first_nested (List.map f l)).
Proof.
  induction l as [|x l IH]; intros Hl; cbn.
  - left. split; [done|]. intros k (v & Hv & _). by apply not_elem_of_nil in Hv.
  - unfold is_empty. case_bool_decide as He.
    + destruct (Hl x) as [[_ Hx]|[Hne _]]; [left| |done].
      destruct IH as [[Hr Hn]|[Hr (v & Hv & Hk)]]; [intros; apply Hl; by right| |].
      * left. split; [done|]. intros k (v & [->|Hv]%elem_of_cons & Hk); [by eapply Hx|].
        eapply Hn. by exists v.
      * right. split; [done|]. exists v. split; [by right|done].
    + right. split; [done|]. destruct (Hl x) as [[? _]|[_ Hx]]; [left|done|].
      exists x. split; [left|done].
Qed.

Lemma first_key_found (hit : string -> JSON -> Prop) (l : list (string * string))
    (values : string -> string -> JSON -> Prop) :
  (forall k n, (k, n) ∈ l -> exists v, values k n v) ->
  (forall k n v, (k, n) ∈ l -> values k n v -> found (fun x => hit x v) n) ->
  found (fun x => exists k n v, (k, n) ∈ l /\ values k n v
                  /\ ((x = k /\ is_forbidden k = true) \/ hit x v)) (first_key l).
Proof.
  induction l as [|[k n] l IH]; intros Hval Hl; cbn [first_key].
  - left. split; [done|]. intros x (k & n & v & Hv & _). by apply not_elem_of_nil in Hv.
  - destruct (Hval k n) as [v Hv]; [left|]. destruct (is_forbidden k) eqn:Hf.
    + right. split; [by apply forbidden_not_empty|]. exists k, n, v. split_and!; [left|done|by left].
    + unfold is_empty. case_bool_decide as He.
      * destruct IH as [[Hr Hn]|[Hr (k' & n' & v' & Hin & Hx)]].
        { intros; apply Hval; by right. }
        { intros ??? Hin; apply Hl; by right. }
        -- left. split; [done|].
           intros x (k' & n' & v' & [[= -> ->]|Hin]%elem_of_cons & Hv' & Hx).
           ++ destruct Hx as [[_ Hx]|Hx]; [congruence|].
              destruct (Hl k n v') as [[_ Hno]|[Hne _]]; [left|done|by eapply Hno|done].
           ++ eapply Hn. by exists k', n', v'.
        -- right. split; [done|]. exists k', n', v'. split; [by right|done].
      * right. split; [done|]. destruct (Hl k n v) as [[? _]|[_ Hx]]; [left|done|done|].
        exists k, n, v. split_and!; [left|done|by right].
Qed.

Lemma found_iff (hit hit' : string -> Prop) (r : string) :
  (forall k, hit k <-> hit' k) -> found hit r -> found hit' r.
Proof. intros Hh. unfold found. pose proof (Hh r). setoid_rewrite Hh. tauto. Qed.

Lemma searched (item : list (string * JSON)) (le : string * string -> string * string -> bool)
    (k : string) (v : JSON) :
  (k, v) ∈ item ->
  (k, findForbiddenKey v)
    ∈ order_by le (List.map (fun kv => (fst kv, findForbiddenKey (snd kv))) item).
Proof. intros Hv. apply elem_of_order_by, list_elem_of_fmap. by exists (k, v). Qed.

Lemma search_finds (v : JSON) :
  found (fun k => key_in k v /\ is_forbidden k = true) (findForbiddenKey v).
Proof.
  induction v as [v Hv|l IH|l IH] using JSON_nested_ind.
  - left. split; [by destruct v|]. intros k [Hk _]. by destruct Hk.
  - eapply found_iff; [|by apply (first_nested_found (fun k v => key_in k v /\ is_forbidden k = true))].
    intros k. split.
    + intros (v & Hv & Hk & Hf). split; [by eapply key_item|done].
    + intros [Hk Hf]. inversion Hk; subst; eauto.
  - eapply found_iff; [|apply (first_key_found (fun k v => key_in k v /\ is_forbidden k = true) _
      (fun k n v => (k, v) ∈ l /\ n = findForbiddenKey v))].
    + intros x. split.
      * intros (k & n & v & _ & [Hv _] & [[-> Hx]|[Hx Hf]]).
        -- split; [by eapply key_here|done].
        -- split; [by eapply key_below|done].
      * intros [Hx Hf]. inversion Hx as [v l' Hv|k v l' Hv Hk|]; subst.
        -- exists x, (findForbiddenKey v), v. split; [by apply searched|]. split; [done|by left].
        -- exists k, (findForbiddenKey v), v. split; [by apply searched|]. split; [done|by right].
    + intros k n Hkn. apply elem_of_order_by, list_elem_of_fmap in Hkn as ([k' v] & [= -> ->] & Hv).
      by exists v.
    + intros k n v _ [Hv ->]. by eapply IH.
Qed.

(** FindForbiddenKey answers with a key of the document that trims and lowers
    to a forbidden one, at any depth, and with the empty string exactly when the
    document has none. *)
Lemma forbidden_keys_are_found (v : JSON) :
  (findForbiddenKey v = EmptyString <-> forall k, key_in k v -> is_forbidden k = false)
  /\ (findForbiddenKey v <> EmptyString ->
      key_in (findForbiddenKey v) v /\ is_forbidden (findForbiddenKey v) = true).
Proof.
  pose proof (search_finds v) as [[Hr Hn]|[Hr [Hin Hf]]].
  - split; [|done]. split; [|done]. intros _ k Hk. apply not_true_is_false. intros Hf. by eapply Hn.
  - split; [|done]. split; [done|]. intros Hall. by rewrite (Hall _ Hin) in Hf.
Qed.
