(* ===== verification/OutboxProps.v ===== *)
(** * Properties of the transactional outbox

    outbox.go: who may dispose of a claimed event, what becomes of it, and what
    pruning deletes. *)

From stdpp Require Import base tactics list gmap strings sorting.
From Stdlib Require Import ZArith Lia.
From S2P Require Import Prelude GoLib TaskDomain Database StoreHelpers StoreMutate StoreCreate.
From S2P Require Import StoreQueue StoreOutbox StoreReconcile StoreRead StoreRun StoreSpec.
From S2P Require Import LeaseInvariant TaskInvariant StoreRefine StoreMachine Scenario.

Local Open Scope Z_scope.

Section Outbox.
Context `{Env}.

(** ** Disposition *)

(** [d] names the consumer that claimed the row, with its token, in time. *)
Definition owns (r : OutboxRow) (d : OutboxDisposition) (now : Instant) : Prop :=
  let o := row_Outbox r in
  outbox_Status o = OutboxClaimed
  /\ outbox_ClaimedBy o = Some (disp_ConsumerID d)
  /\ default EmptyString (row_ClaimTokenHash r) = hashToken (disp_ClaimToken d)
  /\ exists expires, outbox_ClaimExpiresAt o = Some expires /\ now < expires.

Definition verify_row (r : OutboxRow) (d : OutboxDisposition) (now : Instant) : res unit :=
  verifyOutboxClaim (row_Outbox r) (default EmptyString (row_ClaimTokenHash r)) now d.

Lemma verify_row_ok (r : OutboxRow) (d : OutboxDisposition) (now : Instant) :
  verify_row r d now = Ok tt <-> owns r d now.
Proof.
  unfold verify_row, verifyOutboxClaim, owns. rewrite check_ok, rejectIf_ok, negb_false_iff,
    bool_decide_eq_true. destruct (outbox_ClaimedBy (row_Outbox r)) as [c|]; [|naive_solver].
  destruct (outbox_ClaimExpiresAt (row_Outbox r)) as [x|]; [|naive_solver].
  rewrite !check_ok, !rejectIf_ok, !negb_false_iff, !bool_decide_eq_true, Z.ltb_lt. naive_solver.
Qed.

Lemma verify_row_err (r : OutboxRow) (d : OutboxDisposition) (now : Instant) (e : Error) :
  verify_row r d now = Err e -> e = ErrLeaseMismatch \/ e = ErrLeaseExpired.
Proof.
  unfold verify_row, verifyOutboxClaim, rejectIf, rbind. intros Hv.
  repeat case_match; simplify_eq; auto.
Qed.

Lemma update_outbox_run (id : Z) (c : OutboxRow -> bool) (f : OutboxRow -> OutboxRow)
    (r : OutboxRow) (w : World) :
  db_outbox (w_db w) !! id = Some r -> c r = true -> outbox_check (f r) = true ->
  update_outbox id c f w
  = (Ok (Some (f r)), set_db (put_outbox id (f r) (w_db w)) w).
Proof.
  intros Hr Hc Hf. unfold update_outbox, bind, get_db. rewrite Hr, Hc. unfold throwIf.
  by rewrite Hf.
Qed.

(** Both dispositions lock the row, check the claim and write one row. *)
Lemma dispose_run (d : OutboxDisposition) (w : World)
    (next : OutboxEvent -> Instant -> Instant -> OutboxRow -> OutboxRow) (m : M unit) :
  m = (let! row := lockOutbox (disp_EventID d) in
       let '(record, hash, now) := row in
       do! lift (verifyOutboxClaim record hash now d) in
       let! c := clock_timestamp in
       let! u := clock_timestamp in
       let! row := update_outbox (disp_EventID d) (outbox_is OutboxClaimed) (next record c u) in
       throwIf (negb (is_some row)) ErrConflict) ->
  (forall r c u, db_outbox (w_db w) !! disp_EventID d = Some r ->
     outbox_Status (row_Outbox r) = OutboxClaimed -> outbox_check (next (row_Outbox r) c u r) = true) ->
  exists w',
  match db_outbox (w_db w) !! disp_EventID d with
  | None => withTx m w = (Err ErrNotFound, w') /\ w_db w' = w_db w
  | Some r =>
      match verify_row r d (env_clock (S (w_tick w))) with
      | Err e => withTx m w = (Err e, w') /\ w_db w' = w_db w
      | Ok _ => exists c u, withTx m w = (Ok tt, w')
          /\ w_db w' = put_outbox (disp_EventID d) (next (row_Outbox r) c u r) (w_db w)
      end
  end.
Proof.
  intros -> Hck. destruct (db_outbox (w_db w) !! disp_EventID d) as [r|] eqn:Hr.
  - destruct (verify_row r d (env_clock (S (w_tick w)))) as [[]|e] eqn:Hv.
    + pose proof (proj1 (verify_row_ok _ _ _) Hv) as [Hs _].
      eexists. exists (env_clock (S (S (w_tick w)))), (env_clock (S (S (S (w_tick w))))).
      unfold withTx, lockOutbox, bind, get_db, clock_timestamp. cbn [w_db w_tick]. rewrite Hr.
      cbn [ret w_db w_tick]. fold (verify_row r d (env_clock (S (w_tick w)))).
      rewrite Hv. cbn [lift ret w_db w_tick w_seq w_random w_now].
      rewrite (update_outbox_run _ _ _ r); [..|by apply Hck]; [|done|by apply outbox_is_true].
      cbn. split; reflexivity.
    + eexists. unfold withTx, lockOutbox, bind, get_db, clock_timestamp. cbn [w_db w_tick].
      rewrite Hr. cbn [ret]. fold (verify_row r d (env_clock (S (w_tick w)))). rewrite Hv.
      split; reflexivity.
  - eexists. unfold withTx, lockOutbox, bind, get_db, clock_timestamp. cbn [w_db w_tick].
    rewrite Hr. split; reflexivity.
Qed.

Lemma check_acked (r : OutboxRow) (c u : Instant) :
  outbox_check r = true -> outbox_check (outbox_published c u r) = true.
Proof.
  unfold outbox_check. cbn. rewrite !andb_true_iff. intros Hck.
  destruct Hck as [[[[[[[[[[H1 H2] H3] H4] H5] H6] H7] H8] H9] H10] H11]. by split_and!.
Qed.

Lemma check_nacked (r : OutboxRow) (e : string) (a u : Instant) :
  outbox_check r = true -> outbox_Status (row_Outbox r) = OutboxClaimed -> pg_length e <= 4000 ->
  outbox_check (outbox_returned (outbox_after_failure (row_Outbox r)) e a u r) = true.
Proof.
  unfold outbox_check. cbn. rewrite !andb_true_iff. intros Hck Hs He.
  destruct Hck as [[[[[[[[[[H1 H2] H3] H4] H5] H6] H7] H8] H9] H10] H11].
  rewrite Hs in H11. destruct (outbox_PublishedAt (row_Outbox r)); [done|].
  unfold outbox_after_failure.
  destruct (outbox_MaxAttempts (row_Outbox r) <=? outbox_AttemptCount (row_Outbox r));
    split_and!; try done; by apply Z.leb_le.
Qed.

(** The row a nack leaves behind. *)
Definition nacked (d : OutboxDisposition) (o : OutboxEvent) (clock updated : Instant)
    (r : OutboxRow) : OutboxRow :=
  outbox_returned (outbox_after_failure o) (disp_Error d)
    (if bool_decide (outbox_after_failure o = OutboxPending)
     then clock + outbox_backoff (outbox_AttemptCount (row_Outbox r))
     else outbox_AvailableAt (row_Outbox r)) updated r.

(** An acknowledgement publishes its event, and a rejection returns it to the
    queue after the backoff or, with its attempts used up, declares it dead, exactly
    when the event is claimed by that consumer with that token and the claim has
    not expired; otherwise the call fails with ErrNotFound, ErrLeaseMismatch or
    ErrLeaseExpired and no table changes. *)
Lemma dispositions_need_the_claim (w : World) (d : OutboxDisposition) :
  reachable w -> pg_length (disp_Error d) <= 4000 ->
  let id := disp_EventID d in
  (forall r, db_outbox (w_db w) !! id = Some r -> owns r d (env_clock (S (w_tick w))) ->
     (exists p u w', AckOutbox d w = (Ok tt, w')
        /\ w_db w' = put_outbox id (outbox_published p u r) (w_db w))
     /\ (exists c u w', NackOutbox d w = (Ok tt, w')
        /\ w_db w' = put_outbox id (nacked d (row_Outbox r) c u r) (w_db w)))
  /\ (~ (exists r, db_outbox (w_db w) !! id = Some r /\ owns r d (env_clock (S (w_tick w)))) ->
     exists e w1 w2, AckOutbox d w = (Err e, w1) /\ NackOutbox d w = (Err e, w2)
       /\ e ∈ [ErrNotFound; ErrLeaseMismatch; ErrLeaseExpired]
       /\ w_db w1 = w_db w /\ w_db w2 = w_db w).
Proof.
  intros Hw%reachable_Inv He id. pose proof (ob_check _ (inv_outbox _ Hw)) as Hck.
  destruct (dispose_run d w (fun _ p u => outbox_published p u) (AckOutbox_tx d) eq_refl)
    as [w1 H1]; [intros r c u Hr _; apply check_acked; by eapply Hck|].
  destruct (dispose_run d w (nacked d) (NackOutbox_tx d) eq_refl)
    as [w2 H2]; [intros r c u Hr Hs; apply check_nacked; [by eapply Hck|done|done]|].
  fold id in H1, H2. split.
  - intros r Hr Ho. rewrite Hr in H1, H2. apply verify_row_ok in Ho. rewrite Ho in H1, H2.
    destruct H1 as (p & u & H1), H2 as (c & u' & H2). split; [by exists p, u, w1|by exists c, u', w2].
  - intros Hno. destruct (db_outbox (w_db w) !! id) as [r|].
    + destruct (verify_row r d (env_clock (S (w_tick w)))) as [[]|e] eqn:Hv.
      * destruct Hno. exists r. split; [done|by apply verify_row_ok].
      * exists e, w1, w2. destruct H1, H2. split_and!; try done.
        apply verify_row_err in Hv as [-> | ->]; set_solver.
    + exists ErrNotFound, w1, w2. destruct H1, H2. split_and!; try done. set_solver.
Qed.

(** ** Pruning *)

#[export] Instance prune_order : RowOrder prune_before.
Proof.
  unfold prune_before. split.
  - intros x y.
    destruct (outbox_CreatedAt (row_Outbox x) =? outbox_CreatedAt (row_Outbox y)) eqn:H1,
      (outbox_CreatedAt (row_Outbox y) =? outbox_CreatedAt (row_Outbox x)) eqn:H2; lia.
  - intros x y z.
    destruct (outbox_CreatedAt (row_Outbox x) =? outbox_CreatedAt (row_Outbox y)) eqn:H1,
      (outbox_CreatedAt (row_Outbox y) =? outbox_CreatedAt (row_Outbox z)) eqn:H2,
      (outbox_CreatedAt (row_Outbox x) =? outbox_CreatedAt (row_Outbox z)) eqn:H3; lia.
Qed.

Lemma never_claimed (request : OutboxPruneRequest) : OutboxClaimed ∉ prune_statuses request.
Proof.
  unfold prune_statuses. destruct (prune_IncludePublished request),
    (prune_IncludeDead request), (prune_IncludePending request); set_solver.
Qed.

(** What a deletion took: rows of the selected statuses, never a claimed one, old
    enough at [now] and locked by nobody, the oldest first. *)
Record pruned (request : OutboxPruneRequest) (locked : list Z) (now : Instant)
    (before after : gmap Z OutboxRow) (deleted : list OutboxRow) : Prop := {
  pr_rows : forall k, after !! k
    = if decide (k ∈ row_id <$> deleted) then None else before !! k;
  pr_limit : Z.of_nat (length deleted) <= Z.max 0 (prune_Limit request);
  pr_each : forall r, r ∈ deleted -> before !! row_id r = Some r
    /\ outbox_Status (row_Outbox r) ∈ prune_statuses request
    /\ outbox_Status (row_Outbox r) <> OutboxClaimed
    /\ outbox_CreatedAt (row_Outbox r) <= now - Z.quot (prune_OlderThan request) 1000
    /\ row_id r ∉ locked;
  pr_oldest : forall k r, before !! k = Some r -> prunable request now r = true ->
    k ∉ locked -> r ∈ deleted
    \/ (Z.of_nat (length deleted) = Z.max 0 (prune_Limit request)
        /\ forall x, x ∈ deleted -> prune_before x r = true) }.

Lemma prune_delete_run (request : OutboxPruneRequest) (locked : list Z) (w : World) :
  Inv (w_db w) ->
  exists now deleted w', 
    prune_delete request locked w
    = (Ok (mkOutboxPruneResult false (Z.of_nat (length deleted)) (Z.of_nat (length deleted))
             (by_status (prune_statuses request) deleted)), w')
    /\ w_db w' = set_outbox (db_outbox (w_db w')) (w_db w)
    /\ pruned request locked now (db_outbox (w_db w)) (db_outbox (w_db w')) deleted.
Proof.
  intros Hinv. pose proof (ob_id _ (inv_outbox _ Hinv)) as Hkey.
  set (now := env_clock (w_tick w)).
  set (deleted := skip_locked_limit row_id locked (prune_Limit request)
    (order_by prune_before (rows (prunable request now) (db_outbox (w_db w))))).
  assert (Hin : forall r, r ∈ deleted -> db_outbox (w_db w) !! row_id r = Some r
    /\ prunable request now r = true /\ row_id r ∉ locked).
  { intros r [Hr Hl]%skip_locked_limit_spec. apply elem_of_order_by, rows_spec in Hr as (k & Hk & Hp).
    split_and!; [by rewrite (Hkey _ _ Hk)|done|done]. }
  exists now, deleted. eexists. split.
  { unfold prune_delete, bind, get_db, clock_timestamp, modify, ret. reflexivity. }
  split; [reflexivity|]. split.
  - intros k. cbn [w_db set_db set_outbox db_outbox bind]. case_decide as Hk.
    + apply map_lookup_filter_None. right. intros r Hr Hn. by apply Hn.
    + destruct (db_outbox (w_db w) !! k) as [r|] eqn:Hr.
      * by apply map_lookup_filter_Some.
      * apply map_lookup_filter_None. by left.
  - unfold deleted, skip_locked_limit. rewrite length_take. lia.
  - intros r Hr. destruct (Hin r Hr) as (H1 & H2 & H3). unfold prunable in H2.
    apply andb_true_iff in H2 as [H2%bool_decide_eq_true H4%Z.leb_le]. split_and!; try done.
    intros Hc. rewrite Hc in H2. by apply never_claimed in H2.
  - intros k r Hr Hp Hl. destruct (skip_locked_limit_best row_id prune_before locked
      (prune_Limit request) (rows (prunable request now) (db_outbox (w_db w)))) as [_ Hbest].
    apply Hbest; [apply rows_spec; by exists k|]. by rewrite (Hkey _ _ Hr).
Qed.

(** Pruning always succeeds.  A dry run, or a request that selects no status,
    changes nothing and deletes nothing; any other changes the outbox table only, by
    deleting at most the limit of rows of the selected statuses that are old enough,
    unlocked and never claimed, the oldest first, until the limit or the last one. *)
Lemma pruning_is_safe (w : World) (request : OutboxPruneRequest) (locked : list Z) :
  reachable w ->
  exists result w', PruneOutbox request locked w = (Ok result, w')
  /\ if prune_DryRun request || bool_decide (prune_statuses request = [])
     then w_db w' = w_db w /\ pruned_Deleted result = 0
     else w_db w' = set_outbox (db_outbox (w_db w')) (w_db w)
       /\ exists now deleted, pruned_Deleted result = Z.of_nat (length deleted)
         /\ pruned request locked now (db_outbox (w_db w)) (db_outbox (w_db w')) deleted.
Proof.
  intros Hw%reachable_Inv. unfold PruneOutbox.
  destruct (prune_statuses request) as [|s l] eqn:Hs.
  { eexists _, w. split; [reflexivity|]. rewrite bool_decide_eq_true_2, orb_true_r by done. done. }
  rewrite bool_decide_eq_false_2, orb_false_r by done. destruct (prune_DryRun request).
  { eexists _, _. split; [reflexivity|]. done. }
  destruct (prune_delete_run request locked (begin_tx w) Hw)
    as (now & deleted & w' & Hrun & Hdb & Hp).
  eexists _, w'. split; [unfold withTx; fold (begin_tx w); by rewrite Hrun|].
  split; [exact Hdb|]. exists now, deleted. by split.
Qed.

End Outbox.

(** ** Witnesses *)

Local Existing Instance demo.

Definition outbox_claimed_run : list Call :=
  setup ++ [CallClaimOutbox (mkOutboxClaimRequest "relay" 1 (30 * Second)) []].

Definition world_claimed : World := run outbox_claimed_run world0.

Lemma claimed_valid : Forall valid_call outbox_claimed_run.
Proof. by repeat (apply Forall_cons; split; [vm_compute; auto|]). Defined.

Definition demo_disposition : OutboxDisposition := mkOutboxDisposition 1 "token-0" "relay" "down".

Lemma dispositions_need_the_claim_witness :
  (exists p u w' r, AckOutbox demo_disposition world_claimed = (Ok tt, w')
     /\ w_db w' = put_outbox 1 (outbox_published p u r) (w_db world_claimed))
  /\ exists c u w' r, NackOutbox demo_disposition world_claimed = (Ok tt, w')
     /\ w_db w' = put_outbox 1 (nacked demo_disposition (row_Outbox r) c u r) (w_db world_claimed).
Proof.
  destruct (db_outbox (w_db world_claimed) !! 1) as [r|] eqn:Hr; [|vm_compute in Hr; discriminate].
  destruct (dispositions_need_the_claim world_claimed demo_disposition
    (run_reachable _ claimed_valid)) as [Hown _]; [vm_compute; discriminate|].
  destruct (Hown r Hr) as [(p & u & w1 & H1) (c & u' & w2 & H2)].
  - vm_compute in Hr. injection Hr as <-. vm_compute. repeat split.
    eexists. split; reflexivity.
  - split; [exists p, u, w1, r; exact H1|exists c, u', w2, r; exact H2].
Defined.

(** Everything is older than nothing. *)
Definition demo_prune : OutboxPruneRequest := mkOutboxPruneRequest 0 true true true false 1.

Lemma pruning_is_safe_witness :
  exists result w', PruneOutbox demo_prune [] world_claimed = (Ok result, w')
    /\ w_db w' = set_outbox (db_outbox (w_db w')) (w_db world_claimed).
Proof.
  destruct (pruning_is_safe world_claimed demo_prune [] (run_reachable _ claimed_valid))
    as (result & w' & Hrun & Hp).
  exists result, w'. split; [exact Hrun|exact (proj1 Hp)].
Defined.
