(* ===== verification/CommandProps.v ===== *)
(** * Properties of the commands that move a task by hand

    mutate.go: when a dependency is refused, and what each final outcome needs. *)

From stdpp Require Import base tactics list gmap strings sorting relations.
From Stdlib Require Import ZArith Lia.
From S2P Require Import Prelude GoLib TaskDomain Database StoreHelpers StoreMutate StoreCreate.
From S2P Require Import StoreQueue StoreOutbox StoreReconcile StoreRun StoreSpec.
From S2P Require Import DependencyGraph LeaseInvariant TaskInvariant StoreRefine MutateRefine.
From S2P Require Import StoreMachine Scenario.

Local Open Scope Z_scope.

(** ** Errors a program does not return *)

Definition never {S A} (e : Error) (m : Eff S A) : Prop := forall w w', m w <> (Err e, w').

Section Never.
Context {S : Type} (e : Error).

Lemma never_ret {A} (a : A) : never (S := S) e (ret a).
Proof. done. Qed.

Lemma never_throw {A} (e' : Error) : e' <> e -> never (S := S) (A := A) e (throw e').
Proof. intros He w w' [= ? _]. done. Qed.

Lemma never_throwIf (b : bool) (e' : Error) : e' <> e -> never (S := S) e (throwIf b e').
Proof. intros He. destruct b; [by apply never_throw|done]. Qed.

Lemma never_lift {A} (r : res A) : (forall e', r = Err e' -> e' <> e) -> never (S := S) e (lift r).
Proof. intros Hr w w'. destruct r as [a|e']; [done|]. intros [= ? _]. by apply (Hr e'). Qed.

Lemma never_bind {A B} (m : Eff S A) (f : A -> Eff S B) :
  never e m -> (forall a, never e (f a)) -> never e (bind m f).
Proof.
  intros Hm Hf w w'. unfold bind. destruct (m w) as [[a|e'] w1] eqn:Hw; [apply Hf|].
  intros [= -> ->]. by apply (Hm w w').
Qed.

End Never.

Create HintDb never discriminated.
#[export] Hint Resolve never_ret never_throw never_throwIf never_bind : never.
#[export] Hint Extern 1 (_ <> _) => discriminate : never.

Section Commands.
Context `{Env}.

Lemma never_get_db e : never e get_db.
Proof. done. Qed.
Lemma never_modify e f : never e (modify f).
Proof. done. Qed.
Lemma never_clock e : never e clock_timestamp.
Proof. done. Qed.
Lemma never_now e : never e transaction_now.
Proof. done. Qed.
Lemma never_nextval e t : never e (nextval t).
Proof. done. Qed.
#[local] Hint Resolve never_get_db never_modify never_clock never_now never_nextval : never.

Lemma never_update_task id c f : never ErrDependencyCycle (update_task id c f).
Proof.
  apply never_bind; [auto with never|]. intros d. destruct (db_tasks d !! id) as [t|];
    [destruct (c t)|]; eauto 10 with never.
Qed.

Lemma never_append t from to et at_ ai p n :
  never ErrDependencyCycle (appendTaskEvent t from to et at_ ai p n).
Proof.
  unfold appendTaskEvent, insert_event, insert_outbox, insert_audit. eauto 20 with never.
Qed.
#[local] Hint Resolve never_update_task never_append : never.

Lemma never_validate (from to : Status) e : e <> ErrInvalidTransition ->
  never (S := World) e (lift (ValidateTransition from to)).
Proof.
  intros He. apply never_lift. intros e'. unfold ValidateTransition.
  destruct (CanTransition from to); [done|]. intros [= <-]. congruence.
Qed.

Lemma never_transition t to et rc rs at_ ai p n :
  never ErrDependencyCycle (transitionTask t to et rc rs at_ ai p n).
Proof.
  unfold transitionTask. apply never_bind; [by apply never_validate|intros _].
  do 2 (apply never_bind; [auto with never|intros ?]).
  apply never_bind; [auto with never|]. intros [row|]; eauto 10 with never.
Qed.

Lemma never_touch t : never ErrDependencyCycle (touchTask t).
Proof.
  unfold touchTask. apply never_bind; [auto with never|intros ?].
  apply never_bind; [auto with never|]. intros [row|]; auto with never.
Qed.
#[local] Hint Resolve never_transition never_touch : never.

(** What [AddDependency] does after its checks. *)
Definition link (c : AddDependencyCommand) (n : Z) (task dependency : Task) : M unit :=
  let! affected := insert_dependency_ignore (adddep_TaskID c) (adddep_DependsOnID c) in
  if affected =? 0 then ret tt
  else
    let payload := {[ "depends_on_task_id"%string := JInt (adddep_DependsOnID c) ]} in
    if bool_decide (task_Status task = StatusReady)
       && negb (bool_decide (task_Status dependency = StatusCompleted)) then
      do! transitionTask task StatusBlocked "task.blocked" "dependency_unsatisfied"
            "a newly added dependency is not completed" (adddep_ActorType c)
            (adddep_ActorID c) payload n in
      ret tt
    else
      let! task := touchTask task in
      appendTaskEvent task None None "task.dependency_added" (adddep_ActorType c)
        (adddep_ActorID c) payload n.

Lemma never_link c n t u : never ErrDependencyCycle (link c n t u).
Proof.
  unfold link, insert_dependency_ignore. apply never_bind.
  - apply never_bind; [auto with never|intros d]. apply never_bind; [auto with never|intros _].
    destruct (bool_decide _); eauto with never.
  - intros a. destruct (a =? 0); [auto with never|]. destruct (_ && _); eauto with never.
Qed.

(** A task that still accepts dependencies. *)
Definition editable (s : Status) : bool :=
  negb (Terminal s || bool_decide (s = StatusLeased) || bool_decide (s = StatusRunning)
        || bool_decide (s = StatusAwaitingVerification)).

Lemma AddDependency_run (c : AddDependencyCommand) (n : Z) (t u : Task) (w : World) :
  db_tasks (w_db w) !! adddep_TaskID c = Some t ->
  db_tasks (w_db w) !! adddep_DependsOnID c = Some u ->
  editable (task_Status t) = true -> task_OrganizationID u = task_OrganizationID t ->
  AddDependency_tx c n w
  = (do! throwIf (bool_decide (adddep_TaskID c
           ∈ dependency_graph (db_dependencies (w_db w)) (adddep_DependsOnID c)))
           ErrDependencyCycle in link c n t u) w.
Proof.
  intros Ht Hu He%negb_true_iff Ho.
  unfold AddDependency_tx, lockTask, select_task, bind at 1 2 3 4 5 6 7, get_db.
  rewrite Ht. cbn [ret]. rewrite He. cbn [throwIf ret]. rewrite Hu. cbn [ret].
  rewrite bool_decide_eq_true_2 by done. reflexivity.
Qed.

Lemma link_ok (c : AddDependencyCommand) (n : Z) (t u : Task) (w w' : World) :
  stored w t -> task_ID t = adddep_TaskID c -> link c n t u w = (Ok tt, w') ->
  let e := (adddep_TaskID c, adddep_DependsOnID c) in
  let old := db_dependencies (w_db w) in
  db_dependencies (w_db w') = (if bool_decide (e ∈ old) then old else old ++ [e])
  /\ (task_Status t = StatusReady -> task_Status u <> StatusCompleted -> e ∉ old ->
      exists t', db_tasks (w_db w') !! adddep_TaskID c = Some t'
        /\ task_Status t' = StatusBlocked
        /\ task_StatusReasonCode t' = Some "dependency_unsatisfied"%string).
Proof.
  intros Hst Hid Hm e old. unfold link in Hm. next Hm w1 H1.
  unfold insert_dependency_ignore in H1. skip H1. skip H1. fold e old in H1.
  destruct (bool_decide (e ∈ old)) eqn:Hin.
  { apply bool_decide_eq_true in Hin. apply ret_ok in H1 as [-> ->].
    apply ret_ok in Hm as [_ ->]. by split. }
  next H1 w2 H2. apply modify_ok in H2 as ->. apply ret_ok in H1 as [-> ->].
  cbn [Z.eqb] in Hm. destruct (bool_decide (task_Status t = StatusReady) && _) eqn:Hb.
  - next Hm w2 H2. apply ret_ok in Hm as [_ ->].
    apply transitionTask_ok in H2 as (_ & t0 & ev & o & a & _ & _ & Hmv & Hrc & _ & _ & _ & Hw).
    rewrite Hw. split; [done|]. intros _ _ _. exists r. split_and!; [|by destruct Hmv|done].
    rewrite <- Hid. apply lookup_insert_eq.
  - next Hm w2 H2. apply appendTaskEvent_ok in Hm as (ev & o & a & _ & _ & Hw).
    unfold touchTask in H2. next H2 w3 H3. apply clock_timestamp_ok in H3 as [_ H3].
    next H2 w4 H4. apply update_task_ok in H4.
    match type of H4 with match ?o with _ => _ end => destruct o as [x|] end;
      [|by apply throw_ok in H2].
    destruct H4 as (t0 & _ & _ & _ & _ & H4). apply ret_ok in H2 as [_ ->]. rewrite Hw, H4.
    split; [simpl; by rewrite H3|]. intros Hr Hu _.
    apply andb_false_iff in Hb as [Hb%bool_decide_eq_false|Hb%negb_false_iff%bool_decide_eq_true];
      done.
Qed.

(** C34: between an editable task and a task of its organization, a new dependency
    is refused as a cycle exactly when the second already depends, directly or
    not, on the first; accepted, it is recorded once, and a ready task whose new
    dependency is not completed is blocked by it. *)
Theorem dependency_cycles_are_refused (w : World) (c : AddDependencyCommand) (n : Z)
    (t u : Task) :
  reachable w -> db_tasks (w_db w) !! adddep_TaskID c = Some t ->
  db_tasks (w_db w) !! adddep_DependsOnID c = Some u ->
  editable (task_Status t) = true -> task_OrganizationID u = task_OrganizationID t ->
  let e := (adddep_TaskID c, adddep_DependsOnID c) in
  let old := db_dependencies (w_db w) in
  (fst (AddDependency c n w) = Err ErrDependencyCycle
   <-> tc (edge old) (adddep_DependsOnID c) (adddep_TaskID c))
  /\ (forall w', AddDependency c n w = (Ok tt, w') ->
      db_dependencies (w_db w') = (if bool_decide (e ∈ old) then old else old ++ [e])
      /\ (task_Status t = StatusReady -> task_Status u <> StatusCompleted -> e ∉ old ->
          exists t', db_tasks (w_db w') !! adddep_TaskID c = Some t'
            /\ task_Status t' = StatusBlocked
            /\ task_StatusReasonCode t' = Some "dependency_unsatisfied"%string)).
Proof.
  intros Hw%reachable_Inv Ht Hu He Ho e old.
  pose proof (AddDependency_run c n t u (begin_tx w) Ht Hu He Ho) as Hrun.
  rewrite <- dependency_graph_spec. change (w_db (begin_tx w)) with (w_db w) in Hrun.
  fold old in Hrun.
  destruct (bool_decide (adddep_TaskID c ∈ _)) eqn:Hc in Hrun.
  - apply bool_decide_eq_true in Hc. unfold AddDependency, withTx. fold (begin_tx w).
    rewrite Hrun. by split.
  - apply bool_decide_eq_false in Hc. split.
    + split; [|done]. unfold AddDependency, withTx. fold (begin_tx w). rewrite Hrun.
      cbn [throwIf]. unfold bind, ret. destruct (link c n t u (begin_tx w)) as [[[]|e'] w1] eqn:Hl; [done|].
      intros [= ->]. by apply never_link in Hl.
    + intros w' Hok%withTx_begin. rewrite Hrun in Hok.
      apply (link_ok c n t u (begin_tx w)); [|by eapply ky_task; [apply inv_keys|]|exact Hok].
      unfold stored. by rewrite (ky_task _ (inv_keys _ Hw) _ _ Ht).
Qed.

(** ** Final outcomes *)

Definition final_status (o : FinalOutcome) : option Status :=
  match o with
  | FinalCompleted => Some StatusCompleted
  | FinalNoAction => Some StatusNoAction
  | FinalFailed => Some StatusFailed
  | FinalRejected => Some StatusRejected
  | FinalCancelled => Some StatusCancelled
  | FinalOther _ => None
  end.

(** The statuses from which an outcome may be declared. *)
Definition finalizable (o : FinalOutcome) (s : Status) : bool :=
  match o with
  | FinalCompleted | FinalNoAction | FinalFailed => bool_decide (s = StatusAwaitingVerification)
  | FinalRejected =>
      bool_decide (s ∈ [StatusPending; StatusReady; StatusAwaitingVerification; StatusBlocked])
  | FinalCancelled => negb (Terminal s) && Valid s
  | FinalOther _ => false
  end.

(** A required requirement of the task that is not satisfied. *)
Definition open_requirement (id : Z) (d : DB) : Prop :=
  exists k r, db_requirements d !! k = Some r /\ requirement_TaskID r = id
    /\ requirement_Required r = true /\ requirement_Status r <> RequirementSatisfied.

Lemma unsatisfied_spec (id : Z) (d : DB) : 0 < unsatisfied id d <-> open_requirement id d.
Proof.
  unfold unsatisfied, open_requirement. set (p := fun r : Requirement => _).
  assert (Hp : forall r, p r = true <-> requirement_TaskID r = id /\ requirement_Required r = true
    /\ requirement_Status r <> RequirementSatisfied).
  { intros r. unfold p. rewrite !andb_true_iff, Z.eqb_eq, negb_true_iff, bool_decide_eq_false.
    tauto. }
  split.
  - destruct (rows p (db_requirements d)) as [|r l] eqn:Hr; [simpl; lia|]. intros _.
    assert (Hin : r ∈ rows p (db_requirements d)) by (rewrite Hr; left).
    apply rows_spec in Hin as (k & Hk & H2%Hp). by exists k, r.
  - intros (k & r & Hk & H2%Hp). assert (Hin : r ∈ rows p (db_requirements d)).
    { apply rows_spec. by exists k. }
    destruct (rows p (db_requirements d)); [by apply not_elem_of_nil in Hin|simpl; lia].
Qed.

Lemma finalizable_can (o : FinalOutcome) (s to : Status) :
  final_status o = Some to -> CanTransition s to = true ->
  match o with FinalRejected | FinalCancelled => finalizable o s = true | _ => True end.
Proof. destruct o; intros [= <-]; try done; destruct s; by vm_compute. Qed.

Lemma Finalize_ok (c : FinalizeCommand) (n : Z) (t row : Task) (w w' : World) :
  db_tasks (w_db w) !! fin_TaskID c = Some t -> Finalize_tx c n w = (Ok row, w') ->
  exists to, final_status (fin_Outcome c) = Some to /\ task_Status row = to
    /\ finalizable (fin_Outcome c) (task_Status t) = true
    /\ db_tasks (w_db w') !! task_ID t = Some row
    /\ (to = StatusCompleted -> ~ open_requirement (fin_TaskID c) (w_db w)).
Proof.
  intros Ht Hm. unfold Finalize_tx in Hm. next Hm w1 H1. apply select_task_ok in H1 as [H1 ->].
  rewrite Ht in H1. injection H1 as <-. next Hm w2 H2.
  apply transitionTask_ok in Hm as (Hcan & t0 & e & o & a & _ & _ & Hmv & _ & _ & _ & _ & Hw).
  assert (Hrow : db_tasks (w_db w') !! task_ID t = Some row) by (rewrite Hw; apply lookup_insert_eq).
  pose proof (moved_status _ _ _ _ Hmv) as Hst. clear Hw Hmv.
  destruct (fin_Outcome c) eqn:Ho; cbn [final_status finalizable].
  - next H2 w3 H3. skip H2. skip H2 as Hun. apply ret_ok in H2 as [-> ->].
    apply throwIf_ok in H3 as [Haw%negb_false_iff ->]. exists StatusCompleted. split_and!; try done.
    intros _ Hopen%unsatisfied_spec. lia.
  - next H2 w3 H3. apply ret_ok in H2 as [-> ->]. apply throwIf_ok in H3 as [Haw%negb_false_iff ->].
    by exists StatusNoAction.
  - next H2 w3 H3. apply ret_ok in H2 as [-> ->]. apply throwIf_ok in H3 as [Haw%negb_false_iff ->].
    by exists StatusFailed.
  - apply ret_ok in H2 as [-> ->]. exists StatusRejected. split_and!; try done.
    by apply (finalizable_can FinalRejected) in Hcan.
  - next H2 w3 H3. next H2 w4 H4. apply ret_ok in H2 as [-> ->]. exists StatusCancelled.
    split_and!; try done. by apply (finalizable_can FinalCancelled) in Hcan.
  - by apply throw_ok in H2.
Qed.

Lemma transition_refused (t : Task) (to : Status) (et rc rs at_ ai : string) (p : Payload) (n : Z)
    (w : World) :
  CanTransition (task_Status t) to = false ->
  transitionTask t to et rc rs at_ ai p n w = (Err ErrInvalidTransition, w).
Proof. intros Hc. unfold transitionTask, bind, lift, ValidateTransition. by rewrite Hc. Qed.

Lemma not_finalizable (o : FinalOutcome) (s : Status) :
  finalizable o s = false ->
  match o with
  | FinalCompleted | FinalNoAction | FinalFailed => bool_decide (s = StatusAwaitingVerification) = false
  | FinalRejected => CanTransition s StatusRejected = false
  | FinalCancelled => CanTransition s StatusCancelled = false /\ has_lease s = false
  | FinalOther _ => True
  end.
Proof. destruct o; try done; destruct s; by vm_compute. Qed.

Lemma Finalize_refused (c : FinalizeCommand) (n : Z) (t : Task) (w : World) :
  Inv (w_db w) -> db_tasks (w_db w) !! fin_TaskID c = Some t ->
  finalizable (fin_Outcome c) (task_Status t) = false ->
  final_status (fin_Outcome c) <> None ->
  fst (Finalize_tx c n w) = Err ErrInvalidTransition.
Proof.
  intros Hinv Ht Hf Hnone. unfold Finalize_tx, lockTask, select_task, bind, get_db. rewrite Ht.
  cbn [ret]. apply not_finalizable in Hf. destruct (fin_Outcome c); cbn [final_status] in Hnone.
  - unfold awaiting_verification. by rewrite Hf.
  - unfold awaiting_verification. by rewrite Hf.
  - unfold awaiting_verification. by rewrite Hf.
  - cbn [ret fst snd]. by rewrite transition_refused.
  - destruct Hf as [Hc Hl]. unfold activeLeaseAttempt, bind, get_db.
    pose proof (ky_task _ (inv_keys _ Hinv) _ _ Ht) as Hid.
    assert (Hno : active_leases (task_ID t) (w_db w) = []).
    { apply active_leases_nil. intros k x Hx Hxa Hxt.
      destruct (active_held _ _ _ Hinv Hx Hxa) as (t1 & a & Ht1 & Hh & _).
      rewrite Hxt, Hid, Ht in Ht1. injection Ht1 as <-. congruence. }
    rewrite Hno. cbn [ret fst snd revoke_active]. by rewrite transition_refused.
  - done.
Qed.

(** C33: a final outcome is declared only from the statuses that allow it -
    completed, no action and failed after verification only - and a completion only
    when every required requirement is satisfied; then the task is terminal with
    that status and holds no active lease.  In any other status the call fails with
    ErrInvalidTransition, a completion with an open requirement fails with
    ErrRequirementsUnsatisfied, and a call that fails changes no table. *)
Theorem outcomes_are_declared_in_order (w : World) (c : FinalizeCommand) (n : Z) (t : Task) :
  reachable w -> db_tasks (w_db w) !! fin_TaskID c = Some t ->
  let o := fin_Outcome c in
  (forall row w', Finalize c n w = (Ok row, w') ->
     finalizable o (task_Status t) = true
     /\ (o = FinalCompleted -> ~ open_requirement (fin_TaskID c) (w_db w))
     /\ final_status o = Some (task_Status row) /\ Terminal (task_Status row) = true
     /\ db_tasks (w_db w') !! fin_TaskID c = Some row
     /\ active_leases (fin_TaskID c) (w_db w') = [])
  /\ (final_status o <> None -> finalizable o (task_Status t) = false ->
     fst (Finalize c n w) = Err ErrInvalidTransition)
  /\ (o = FinalCompleted -> finalizable o (task_Status t) = true ->
     open_requirement (fin_TaskID c) (w_db w) ->
     fst (Finalize c n w) = Err ErrRequirementsUnsatisfied)
  /\ (forall e w', Finalize c n w = (Err e, w') -> w_db w' = w_db w).
Proof.
  intros Hw Ht o. pose proof (reachable_Inv _ Hw) as Hinv.
  pose proof (ky_task _ (inv_keys _ Hinv) _ _ Ht) as Hid. split; [|split; [|split]].
  - intros row w' Hrun. assert (Hw' : Inv (w_db w')).
    { replace w' with (exec (CallFinalize c n) w) by (unfold exec, perform, outcome; by rewrite Hrun).
      by apply exec_Inv. }
    apply withTx_begin in Hrun.
    destruct (Finalize_ok c n t row (begin_tx w) w' Ht Hrun) as (to & Hto & Hst & Hf & Hrow & Hreq).
    assert (Hterm : Terminal (task_Status row) = true).
    { rewrite Hst. revert Hto. by destruct (fin_Outcome c); intros [= <-]. }
    rewrite Hid in Hrow. split_and!; try done.
    + intros Hc. apply Hreq. fold o in Hto. rewrite Hc in Hto. by injection Hto as <-.
    + by rewrite Hst.
    + apply active_leases_nil. intros k x Hx Hxa Hxt.
      destruct (active_held _ _ _ Hw' Hx Hxa) as (t1 & a & Ht1 & Hh & _).
      rewrite Hxt, Hrow in Ht1. injection Ht1 as <-. by destruct (task_Status row).
  - intros Hnone Hf. unfold Finalize, withTx. fold (begin_tx w).
    pose proof (Finalize_refused c n t (begin_tx w) Hinv Ht Hf Hnone) as Hr.
    destruct (Finalize_tx c n (begin_tx w)) as [[?|?] ?]; simpl in *; congruence.
  - intros Hc Hf Hopen%unsatisfied_spec. fold o in Hc. unfold Finalize, withTx, Finalize_tx. fold o.
    rewrite Hc in Hf |- *. cbn [finalizable] in Hf.
    unfold lockTask, select_task, awaiting_verification, bind, get_db. cbn [w_db]. rewrite Ht.
    cbn [ret]. rewrite Hf. cbn [negb throwIf ret w_db].
    by replace (0 <? unsatisfied (fin_TaskID c) (w_db w)) with true by lia.
  - intros e w'. apply withTx_err.
Qed.

End Commands.

(** ** Witnesses *)

Local Existing Instance demo.

(** Task 2 depends on task 1, so task 1 cannot depend on task 2. *)
Lemma dependency_cycles_are_refused_witness :
  fst (AddDependency (mkAddDependencyCommand 1 2 "human" "alice") 10 world_setup)
  = Err ErrDependencyCycle.
Proof.
  assert (Hedges : db_dependencies (w_db world_setup) = [(2, 1)]) by (vm_compute; reflexivity).
  apply (dependency_cycles_are_refused world_setup (mkAddDependencyCommand 1 2 "human" "alice") 10
    (task_of world_setup 1) (task_of world_setup 2) (run_reachable _ setup_valid));
    [vm_compute; reflexivity..|].
  rewrite Hedges. apply tc_once. apply list_elem_of_here.
Defined.

Lemma outcomes_are_declared_in_order_witness :
  fst (Finalize (mkFinalizeCommand 1 FinalCompleted "" "" "human" "alice") 10 world_setup)
  = Err ErrInvalidTransition.
Proof.
  apply (outcomes_are_declared_in_order world_setup
    (mkFinalizeCommand 1 FinalCompleted "" "" "human" "alice") 10 (task_of world_setup 1)
    (run_reachable _ setup_valid)); [vm_compute; reflexivity|discriminate|vm_compute; reflexivity].
Defined.
