(* ===== verification/ReconcileProps.v ===== *)
(** * Properties of the reconciler

    reconcile.go: what becomes of each task whose lease expired and of each
    waiting task. *)

From stdpp Require Import base tactics list gmap strings sorting relations.
From Stdlib Require Import ZArith Lia.
From S2P Require Import Prelude GoLib TaskDomain Database StoreHelpers StoreMutate StoreCreate.
From S2P Require Import StoreQueue StoreOutbox StoreReconcile StoreRead StoreRun StoreSpec.
From S2P Require Import LeaseInvariant TaskInvariant StoreRefine MutateRefine QueueRefine.
From S2P Require Import ReconcileRefine StoreMachine Scenario.

Local Open Scope Z_scope.

Section Readiness.
Context `{Env}.
Variables (validate : AssigneeValidator) (capacity : CapacityValidator).

(** ** One turn *)

(** Where a turn leaves a task: [t] before, [t'] after, against the tables [d]. *)
Definition blocked_for (code : string) (t' : Task) : Prop :=
  task_Status t' = StatusBlocked /\ task_StatusReasonCode t' = Some code.

Definition assigned (t t' : Task) : Prop :=
  exists check, validate t = Ok check
  /\ if negb (assignee_Available check) then blocked_for "assignee_unavailable" t'
     else exists cap, capacity t = Ok cap
       /\ if negb (capacity_Available cap) then
            blocked_for "capacity" t'
            /\ task_AvailableAt t' = (if IsZero (capacity_RetryAt cap) then task_AvailableAt t
                                      else capacity_RetryAt cap)
          else if task_MaxAttempts t <=? task_AttemptCount t then t' = t
          else task_Status t' = StatusReady.

Definition settled (d : DB) (t t' : Task) : Prop :=
  let statuses := task_Status <$> dependency_tasks (task_ID t) d in
  if existsb failed_for_good statuses then blocked_for "dependency_terminal" t'
  else if existsb still_open statuses then
    if bool_decide (task_Status t ∈ [StatusPending; StatusBlocked]) then t' = t
    else blocked_for "dependency_unsatisfied" t'
  else assigned t t'.

(** Only the row of [t] changed, and the journals. *)
Record rewrote (t t' : Task) (d d' : DB) : Prop := {
  rw_tasks : db_tasks d' = <[task_ID t := t']> (db_tasks d);
  rw_deps : db_dependencies d' = db_dependencies d;
  rw_id : task_ID t' = task_ID t;
  rw_live : Terminal (task_Status t') = false }.

Lemma rewrote_same (t : Task) (w : World) :
  stored w t -> Terminal (task_Status t) = false -> rewrote t t (w_db w) (w_db w).
Proof. intros Hst Hlive. split; try done. by rewrite insert_id. Qed.

Lemma transition_rewrote (t row : Task) (to : Status) (et rc rs at_ ai : string) (p : Payload)
    (n : Z) (w w' : World) :
  stored w t -> Terminal to = false ->
  transitionTask t to et rc rs at_ ai p n w = (Ok row, w') ->
  rewrote t row (w_db w) (w_db w') /\ task_Status row = to
  /\ task_StatusReasonCode row = nullif_empty rc /\ task_AvailableAt row = task_AvailableAt t.
Proof.
  intros Hst Hlive Hm.
  apply transitionTask_ok in Hm as (_ & t0 & e & o & a & Ht0 & _ & Hmv & Hrc & Hav & _ & _ & Hw).
  unfold stored in Hst. rewrite Hst in Ht0. injection Ht0 as <-.
  split; [|split_and!; [by destruct Hmv|done|done]].
  split; [by rewrite Hw|by rewrite Hw|exact (imm_ID _ _ (moved_imm _ _ _ _ Hmv))|].
  by rewrite (moved_status _ _ _ _ Hmv).
Qed.

Lemma block_rewrote (t : Task) (code reason et : string) (n : Z) (changed : bool) (w w' : World) :
  stored w t -> Terminal (task_Status t) = false -> code <> EmptyString ->
  block_or_reblock t code reason et n w = (Ok changed, w') ->
  exists row, rewrote t row (w_db w) (w_db w') /\ blocked_for code row
    /\ task_AvailableAt row = task_AvailableAt t.
Proof.
  unfold block_or_reblock. intros Hst Hlive Hcode Hm. destruct (negb _ || _) eqn:Hch.
  2:{ apply orb_false_iff in Hch as [H1 H2]. apply negb_false_iff, bool_decide_eq_true in H1, H2.
      apply ret_ok in Hm as [_ ->]. exists t. split; [by apply rewrote_same|done]. }
  destruct (bool_decide (task_Status t = StatusBlocked)) eqn:Hb.
  - next Hm w1 H1. next Hm w2 H2. apply ret_ok in Hm as [_ ->].
    apply appendTaskEvent_ok in H2 as (e & o & a & _ & _ & H2).
    unfold updateBlockedReason in H1. next H1 w3 H3. apply clock_timestamp_ok in H3 as [_ H3].
    next H1 w4 H4. apply update_task_ok in H4.
    match type of H4 with match ?o with _ => _ end => destruct o as [x|] end;
      [|by apply throw_ok in H1].
    destruct H4 as (t0 & Ht0 & _ & -> & _ & H4). apply ret_ok in H1 as [-> ->].
    apply bool_decide_eq_true in Hb.
    unfold stored in Hst. rewrite H3, Hst in Ht0. injection Ht0 as <-.
    eexists. split; [split; [by rewrite H2, H4, H3|by rewrite H2, H4, H3|done|done]|done].
  - next Hm w1 H1. apply ret_ok in Hm as [_ ->].
    apply transition_rewrote in H1 as (Hr & Hs & Hc & Ha); [|done|done].
    exists r. split; [done|]. split; [|done]. split; [done|]. rewrite Hc.
    unfold nullif_empty, nullableString, is_empty. by rewrite bool_decide_eq_false_2.
Qed.

Definition is_ready (t : Task) : bool := bool_decide (task_Status t = StatusReady).

Lemma blocked_not_ready (code : string) (t : Task) : blocked_for code t -> is_ready t = false.
Proof. intros [Ht _]. unfold is_ready. by rewrite Ht. Qed.

Lemma candidate_not_ready (now : Z) (t : Task) :
  reconcile_candidate now t = true -> is_ready t = false.
Proof.
  intros Hcand. apply bool_decide_eq_false. intros Hr. unfold reconcile_candidate in Hcand.
  rewrite Hr in Hcand. by rewrite andb_false_r in Hcand.
Qed.

(** What a turn does to [t] and to the count of promoted tasks. *)
Definition turn (t : Task) (c c' : Counters) (d d' : DB) (P : Task -> Prop) : Prop :=
  exists t', rewrote t t' d d' /\ P t' /\ cnt_promoted c' = cnt_promoted c + Z.b2z (is_ready t').

Lemma turn_blocked (t row : Task) (c c' : Counters) (code : string) (d d' : DB)
    (P : Task -> Prop) :
  rewrote t row d d' -> blocked_for code row -> P row -> cnt_promoted c' = cnt_promoted c ->
  turn t c c' d d' P.
Proof.
  intros Hr Hb HP Hc. exists row. rewrite (blocked_not_ready _ _ Hb), Hc. split_and!; [done..|].
  simpl. lia.
Qed.

Lemma turn_same (now : Z) (t : Task) (c : Counters) (w : World) (P : Task -> Prop) :
  stored w t -> reconcile_candidate now t = true -> P t -> turn t c c (w_db w) (w_db w) P.
Proof.
  intros Hst Hc HP. exists t. rewrite (candidate_not_ready _ _ Hc).
  split_and!; [|done|simpl; lia]. apply rewrote_same; [done|].
  by apply reconcile_candidate_true in Hc as (_ & _ & ? & _).
Qed.

(** The end of a turn, with the dependencies completed. *)
Definition assign (n : Z) (c : Counters) (task : Task) : M Counters :=
  let '(mkCounters promoted deps assignees cap) := c in
  let! check := lift (validate task) in
  if negb (assignee_Available check) then
    let! changed := block_or_reblock task "assignee_unavailable" (assignee_Reason check)
      "task.assignee_blocked" n in
    ret (mkCounters promoted deps (bump changed assignees) cap)
  else
    let! capCheck := lift (capacity task) in
    if negb (capacity_Available capCheck) then
      do! block_or_reblock task "capacity" (capacity_Reason capCheck) "task.capacity_blocked" n in
      do! (if IsZero (capacity_RetryAt capCheck) then ret None
           else update_task (task_ID task) (fun _ => true)
                  (task_deferred (capacity_RetryAt capCheck))) in
      ret (mkCounters promoted deps assignees (cap + 1))
    else if task_MaxAttempts task <=? task_AttemptCount task then ret c
    else
      do! transitionTask task StatusReady "task.ready" "" "" "system" "orgd-reconciler" ∅ n in
      ret (mkCounters (promoted + 1) deps assignees cap).

Lemma defer_rewrote (t row : Task) (z : Z) (o : option Task) (d : DB) (w w' : World) :
  rewrote t row d (w_db w) ->
  update_task (task_ID t) (fun _ => true) (task_deferred z) w = (Ok o, w') ->
  rewrote t (task_deferred z row) d (w_db w').
Proof.
  intros [Ht Hd Hid Hlive] Hm. apply update_task_ok in Hm. destruct o as [x|].
  - destruct Hm as (t0 & Ht0 & _ & -> & _ & ->). rewrite Ht, lookup_insert_eq in Ht0.
    injection Ht0 as <-. split; [|done..]. cbn. by rewrite Ht, insert_insert_eq.
  - destruct Hm as [_ Hm]. specialize (Hm row). rewrite Ht, lookup_insert_eq in Hm. by specialize (Hm eq_refl).
Qed.

Lemma assign_settles (n now : Z) (c c' : Counters) (t : Task) (w w' : World) :
  stored w t -> reconcile_candidate now t = true -> assign n c t w = (Ok c', w') ->
  turn t c c' (w_db w) (w_db w') (assigned t).
Proof.
  intros Hst Hcand Hm. pose proof (reconcile_candidate_true _ _ Hcand) as (_ & _ & Hlive & _).
  unfold assign in Hm. destruct c as [p dp as_ cp]. unfold assigned.
  next Hm w2 H2. apply lift_ok in H2 as [Hv ->].
  destruct (negb (assignee_Available r)) eqn:Ha.
  { next Hm w2 H2. apply ret_ok in Hm as [-> ->].
    apply block_rewrote in H2 as (row & Hr & Hb & _); [|done..].
    eapply turn_blocked; [exact Hr|exact Hb| |done]. exists r. by rewrite Ha. }
  next Hm w2 H2. apply lift_ok in H2 as [Hcap ->].
  destruct (negb (capacity_Available r0)) eqn:Hc.
  - next Hm w2 H2. next Hm w3 H3. apply ret_ok in Hm as [-> ->].
    apply block_rewrote in H2 as (row & Hr & Hb & Hav); [|done..].
    destruct (IsZero (capacity_RetryAt r0)) eqn:Hz.
    + apply ret_ok in H3 as [_ ->]. eapply turn_blocked; [exact Hr|exact Hb| |done].
      exists r. rewrite Ha. split; [done|]. exists r0. by rewrite Hc, Hz.
    + eapply turn_blocked; [by eapply defer_rewrote|exact Hb| |done].
      exists r. rewrite Ha. split; [done|]. exists r0. by rewrite Hc, Hz.
  - destruct (_ <=? _) eqn:Hmax.
    + apply ret_ok in Hm as [-> ->]. eapply turn_same; [done..|].
      exists r. rewrite Ha. split; [done|]. exists r0. by rewrite Hc.
    + next Hm w2 H2. apply ret_ok in Hm as [-> ->].
      apply transition_rewrote in H2 as (Hr & Hs & _); [|done|done].
      exists r1. split_and!; [done| |by unfold is_ready; rewrite Hs].
      exists r. rewrite Ha. split; [done|]. exists r0. by rewrite Hc.
Qed.

Lemma turn_settles (n now : Z) (c c' : Counters) (t : Task) (w w' : World) :
  stored w t -> reconcile_candidate now t = true ->
  reconcile_task validate capacity n c t w = (Ok c', w') ->
  turn t c c' (w_db w) (w_db w') (settled (w_db w) t).
Proof.
  intros Hst Hcand Hm. pose proof (reconcile_candidate_true _ _ Hcand) as (_ & _ & Hlive & _).
  unfold reconcile_task in Hm. destruct c as [p dp as_ cp] eqn:Hc. unfold settled.
  next Hm w1 H1. apply inspectDependencies_ok in H1 as (Hw & Hwait & Hfail).
  rewrite <- Hwait, <- Hfail, <- Hw.
  assert (Hst1 : stored w1 t) by (unfold stored; by rewrite Hw).
  destruct (inspect_TerminalFailure r).
  { next Hm w2 H2. apply ret_ok in Hm as [-> ->].
    apply block_rewrote in H2 as (row & Hr & Hb & _); [|done..]. by eapply turn_blocked. }
  destruct (inspect_Waiting r).
  { destruct (_ || _) eqn:Hpb.
    - apply ret_ok in Hm as [-> ->]. eapply turn_same; [done..|].
      rewrite bool_decide_eq_true_2; [done|].
      apply orb_true_iff in Hpb as [Hs%bool_decide_eq_true|Hs%bool_decide_eq_true]; set_solver.
    - next Hm w2 H2. apply ret_ok in Hm as [-> ->].
      apply orb_false_iff in Hpb as [Hs1%bool_decide_eq_false Hs2%bool_decide_eq_false].
      apply transition_rewrote in H2 as (Hr & Hs & Hcode & _); [|done|done].
      assert (Hb : blocked_for "dependency_unsatisfied" r0) by done.
      eapply turn_blocked; [exact Hr|exact Hb| |done]. by rewrite bool_decide_eq_false_2 by set_solver. }
  by eapply (assign_settles n now (mkCounters p dp as_ cp)).
Qed.

(** ** The loop *)

(** The tables agree on what a task's dependencies say: the same edges, and the
    same rows up to moves between live statuses. *)
Record same_outcomes (d d' : DB) : Prop := {
  so_deps : db_dependencies d' = db_dependencies d;
  so_tasks : forall k, db_tasks d' !! k = db_tasks d !! k
    \/ exists t t', db_tasks d !! k = Some t /\ db_tasks d' !! k = Some t'
       /\ Terminal (task_Status t) = false /\ Terminal (task_Status t') = false }.

Lemma same_outcomes_statuses (f : Status -> bool) (b : bool) (id : Z) (d d' : DB) :
  (forall s, Terminal s = false -> f s = b) -> same_outcomes d d' ->
  existsb f (task_Status <$> dependency_tasks id d')
  = existsb f (task_Status <$> dependency_tasks id d).
Proof.
  intros Hf [Hd Ht]. unfold dependency_tasks. rewrite Hd. clear Hd.
  induction (db_dependencies d) as [|[x y] l IH]; [done|]. cbn [omap list_omap].
  destruct (x =? id); [|exact IH].
  destruct (Ht y) as [->|(t & t' & -> & -> & Hl & Hl')].
  - destruct (db_tasks d !! y); [|exact IH]. cbn. by rewrite IH.
  - cbn. by rewrite (Hf _ Hl), (Hf _ Hl'), IH.
Qed.

Lemma settled_same (d d' : DB) (t t' : Task) :
  same_outcomes d d' -> settled d' t t' -> settled d t t'.
Proof.
  intros Hs. unfold settled.
  rewrite (same_outcomes_statuses failed_for_good false (task_ID t) d d'), 
    (same_outcomes_statuses still_open true (task_ID t) d d'); [done|..];
    [by intros []|done|by intros []|done].
Qed.

Lemma rewrote_outcomes (t t' : Task) (d0 d d' : DB) :
  db_tasks d !! task_ID t = Some t -> Terminal (task_Status t) = false ->
  same_outcomes d0 d -> rewrote t t' d d' -> same_outcomes d0 d'.
Proof.
  intros Ht Hlive [Hd Hk] [Hrt Hrd Hid Hl]. split; [congruence|]. intros k. rewrite Hrt.
  destruct (decide (k = task_ID t)) as [->|Hne]; [|by rewrite lookup_insert_ne].
  rewrite lookup_insert_eq. right. destruct (Hk (task_ID t)) as [Heq|(x & y & Hx & _ & Hlx & _)].
  - exists t, t'. rewrite <- Heq. done.
  - by exists x, t'.
Qed.

Definition ready_in (d : DB) (t : Task) : bool :=
  match db_tasks d !! task_ID t with Some t' => is_ready t' | None => false end.

Definition count_ready (d : DB) (l : list Task) : Z :=
  Z.of_nat (length (filter (fun t => ready_in d t = true) l)).

(** What the loop over the candidates [l] does, against the tables [d0]. *)
Record settles (d0 : DB) (l : list Task) (d d' : DB) : Prop := {
  st_each : forall t, t ∈ l -> exists t', db_tasks d' !! task_ID t = Some t' /\ settled d0 t t';
  st_other : forall k, k ∉ task_ID <$> l -> db_tasks d' !! k = db_tasks d !! k }.

Lemma loop_settles (n now : Z) (l : list Task) (c c' : Counters) (d0 : DB) (w w' : World) :
  same_outcomes d0 (w_db w) -> NoDup (task_ID <$> l) ->
  (forall t, t ∈ l -> stored w t /\ reconcile_candidate now t = true) ->
  foldM (reconcile_task validate capacity n) c l w = (Ok c', w') ->
  settles d0 l (w_db w) (w_db w') /\ cnt_promoted c' = cnt_promoted c + count_ready (w_db w') l.
Proof.
  revert c w. induction l as [|t l IH]; intros c w Hsame Hnd Hl Hm.
  { apply foldM_nil in Hm as [-> ->]. split; [|unfold count_ready; simpl; lia].
    split; [|done]. intros t Ht. by apply not_elem_of_nil in Ht. }
  apply foldM_cons in Hm as (c1 & w1 & H1 & Hm).
  rewrite fmap_cons in Hnd. apply NoDup_cons in Hnd as [Hni Hnd].
  destruct (Hl t) as [Hst Hcand]; [left|].
  destruct (turn_settles n now c c1 t w w1 Hst Hcand H1) as (t' & Hr & Hs & Hc1).
  pose proof (reconcile_candidate_true _ _ Hcand) as (_ & _ & Hlive & _).
  destruct (IH c1 w1) as [[Heach Hother] Hc'].
  - by eapply rewrote_outcomes.
  - done.
  - intros x Hx. destruct (Hl x) as [Hsx Hcx]; [by right|]. split; [|done].
    unfold stored. rewrite (rw_tasks _ _ _ _ Hr), lookup_insert_ne; [done|].
    intros Heq. apply Hni. rewrite Heq. by apply list_elem_of_fmap_2.
  - exact Hm.
  - assert (Ht' : db_tasks (w_db w') !! task_ID t = Some t').
    { rewrite Hother by done. rewrite (rw_tasks _ _ _ _ Hr). apply lookup_insert_eq. }
    split; [split|].
    + intros x [->|Hx]%elem_of_cons; [|by apply Heach].
      exists t'. split; [done|]. by eapply settled_same.
    + intros k Hk. rewrite fmap_cons, elem_of_cons in Hk. rewrite Hother by tauto.
      rewrite (rw_tasks _ _ _ _ Hr). apply lookup_insert_ne. naive_solver.
    + rewrite Hc', Hc1. unfold count_ready. rewrite filter_cons.
      replace (is_ready t') with (ready_in (w_db w') t) by (unfold ready_in; by rewrite Ht').
      destruct (decide (ready_in (w_db w') t = true)) as [->|Hf]; cbn [length Z.b2z]; [lia|].
      apply not_true_is_false in Hf as ->. cbn. lia.
Qed.

Lemma all_completed (l : list Status) :
  existsb failed_for_good l = false -> existsb still_open l = false ->
  Forall (fun s => s = StatusCompleted) l.
Proof.
  induction l as [|s l IH]; [constructor|]. cbn. intros [Hf Hf']%orb_false_iff [Ho Ho']%orb_false_iff.
  constructor; [|by apply IH]. unfold still_open in Ho. rewrite Hf, andb_true_r in Ho.
  by apply negb_false_iff, bool_decide_eq_true in Ho.
Qed.

Lemma completed_all (l : list Status) :
  Forall (fun s => s = StatusCompleted) l ->
  existsb failed_for_good l = false /\ existsb still_open l = false.
Proof. induction 1 as [|s l -> _ [IH1 IH2]]; [done|]. cbn. by rewrite IH1, IH2. Qed.

(** What a task needs to be promoted. *)
Definition promotable (d : DB) (t : Task) : Prop :=
  Forall (fun s => s = StatusCompleted) (task_Status <$> dependency_tasks (task_ID t) d)
  /\ (exists check, validate t = Ok check /\ assignee_Available check = true)
  /\ (exists cap, capacity t = Ok cap /\ capacity_Available cap = true)
  /\ task_AttemptCount t < task_MaxAttempts t.

Lemma settled_ready (now : Z) (d : DB) (t t' : Task) :
  reconcile_candidate now t = true -> settled d t t' ->
  task_Status t' = StatusReady <-> promotable d t.
Proof.
  intros Hcand Hs. assert (Hnot : task_Status t <> StatusReady).
  { pose proof (candidate_not_ready _ _ Hcand) as Hn. by apply bool_decide_eq_false in Hn. }
  assert (Hb : forall code, blocked_for code t' -> task_Status t' <> StatusReady)
    by (intros code [-> _]; done).
  unfold settled in Hs. set (l := task_Status <$> dependency_tasks (task_ID t) d) in *.
  destruct (existsb failed_for_good l) eqn:Hf; [|destruct (existsb still_open l) eqn:Ho].
  - split; [intros Hr; by apply Hb in Hs|]. intros [[Hl _]%completed_all _]. fold l in Hl. congruence.
  - split; [|intros [[_ Hl]%completed_all _]; fold l in Hl; congruence].
    case_bool_decide; [by subst|]. intros Hr. by apply Hb in Hs.
  - destruct Hs as (check & Hv & Hs). split.
    + intros Hr. destruct (assignee_Available check) eqn:Ha; cbn [negb] in Hs; [|by apply Hb in Hs].
      destruct Hs as (cap & Hc & Hs).
      destruct (capacity_Available cap) eqn:Hca; cbn [negb] in Hs;
        [|by destruct Hs as [Hs _]; apply Hb in Hs].
      destruct (task_MaxAttempts t <=? task_AttemptCount t) eqn:Hm; [by subst|].
      split_and!; [by apply all_completed|by exists check|by exists cap|lia].
    + intros (_ & (check' & Hv' & Ha) & (cap & Hc & Hca) & Hm).
      assert (check' = check) as -> by congruence. rewrite Ha in Hs. cbn [negb] in Hs.
      destruct Hs as (cap' & Hc' & Hs). assert (cap' = cap) as -> by congruence.
      rewrite Hca in Hs. cbn [negb] in Hs.
      by replace (task_MaxAttempts t <=? task_AttemptCount t) with false in Hs by lia.
Qed.

(** The tasks a readiness pass takes up. *)
Definition picked (batch : Z) (locked : list Z) (now : Instant) (d : DB) : list Task :=
  skip_locked_limit task_ID locked batch
    (order_by reconcile_before (rows (reconcile_candidate now) (db_tasks d))).


End Readiness.

(** ** Expired leases *)

Section Expiry.
Context `{Env}.
Variables (policy : RetryPolicy) (n : Z).

Definition lease_task (r : LeaseRow) : Z := lease_TaskID (row_Lease r).

(** Where the expiry of its lease leaves a task. *)
Definition recovered (t t' : Task) : Prop :=
  has_lease (task_Status t) = true
  /\ task_StatusReasonCode t' = Some "lease_expired"%string
  /\ if task_MaxAttempts t <=? task_AttemptCount t then task_Status t' = StatusDeadLetter
     else task_Status t' = StatusRetryWait
       /\ exists clock, task_AvailableAt t'
            = clock + env_make_interval (Delay policy (task_AttemptCount t)).

Lemma expiry_transition (t row : Task) (to : Status) (et rc rs at_ ai : string) (p : Payload) (k : Z)
    (w w' : World) :
  transitionTask t to et rc rs at_ ai p k w = (Ok row, w') ->
  exists t0, db_tasks (w_db w) !! task_ID t = Some t0
    /\ db_tasks (w_db w') !! task_ID t = Some row /\ task_Status row = to
    /\ task_StatusReasonCode row = nullif_empty rc /\ task_AvailableAt row = task_AvailableAt t0.
Proof.
  intros (_ & t0 & e & o & a & Ht0 & _ & Hmv & Hrc & Hav & _ & _ & Hw)%transitionTask_ok.
  exists t0. split_and!; [done| |by destruct Hmv|done|done]. rewrite Hw. apply lookup_insert_eq.
Qed.

Lemma insert_letter_tasks (id aid count : Z) (code reason : string) (u : unit) (w w' : World) :
  insert_dead_letter_ignore id aid code reason count w = (Ok u, w') ->
  db_tasks (w_db w') = db_tasks (w_db w).
Proof.
  unfold insert_dead_letter_ignore. intros Hm. skip Hm. skip Hm. skip Hm. skip Hm.
  destruct (rows _ _); [|apply ret_ok in Hm as [_ ->]; congruence].
  skip Hm. apply modify_ok in Hm as ->. simpl. congruence.
Qed.

Lemma expire_recovers (item : LeaseRow) (u u' : unit) (w w' : World) :
  Inv (w_db w) -> db_leases (w_db w) !! lease_ID (row_Lease item) = Some item ->
  lease_active item = true -> expire_lease policy n u item w = (Ok u', w') ->
  exists t t', db_tasks (w_db w) !! lease_task item = Some t
    /\ db_tasks (w_db w') !! lease_task item = Some t' /\ recovered t t'.
Proof.
  intros Hinv Hitem Hact Hm. unfold expire_lease in Hm. lock Hm Hinv Hst Hid.
  destruct (active_held _ _ _ Hinv Hitem Hact) as (t & a & Ht & Hh & _).
  unfold stored in Hst. rewrite Hid, Ht in Hst. injection Hst as <-.
  next Hm w1 H1. apply clock_timestamp_ok in H1 as [_ H1].
  next Hm w2 H2. apply update_leases_ok in H2 as (_ & _ & H2).
  next Hm w3 H3. apply clock_timestamp_ok in H3 as [_ H3].
  next Hm w4 H4. apply clock_timestamp_ok in H4 as [_ H4].
  next Hm w5 H5.
  assert (Ht5 : db_tasks (w_db w5) = db_tasks (w_db w)).
  { apply update_attempt_ok in H5 as [(_ & y & _ & _ & _ & H5)|(_ & H5 & _)];
      rewrite H5; simpl; rewrite H4, H3, H2; simpl; by rewrite H1. }
  destruct (negb _ && _) eqn:Hs.
  { exfalso. apply andb_true_iff in Hs as [Hs1%negb_true_iff Hs2%negb_true_iff].
    apply bool_decide_eq_false in Hs1, Hs2. by destruct (task_Status t). }
  exists t. unfold recovered. fold (lease_task item) in Hid, Ht. rewrite <- Hid in Ht |- *.
  destruct (_ <=? _) eqn:Hmax.
  - next Hm w6 H6. next Hm w7 H7. apply ret_ok in Hm as [_ ->].
    apply expiry_transition in H7 as (t0 & _ & Hrow & Hst & Hrc & _).
    match type of Hst with task_Status ?x = _ => by exists x end.
  - next Hm w6 H6. next Hm w7 H7. apply ret_ok in Hm as [_ ->].
    apply defer_task_ok in H6 as (z & Hz & H6); [|unfold stored; by rewrite Ht5].
    apply expiry_transition in H7 as (t0 & Ht0 & Hrow & Hst & Hrc & Hav).
    rewrite H6 in Ht0. simpl in Ht0. rewrite lookup_insert_eq in Ht0. injection Ht0 as <-.
    match type of Hst with task_Status ?x = _ => exists x end.
    split_and!; try done. eexists. rewrite Hav, Hz. reflexivity.
Qed.

Lemma expire_loop (items : list LeaseRow) (u u' : unit) (w w' : World) :
  Inv (w_db w) -> NoDup (lease_task <$> items) ->
  (forall x, x ∈ items ->
     db_leases (w_db w) !! lease_ID (row_Lease x) = Some x /\ lease_active x = true) ->
  foldM (expire_lease policy n) u items w = (Ok u', w') ->
  Inv (w_db w')
  /\ (forall x, x ∈ items -> exists t t', db_tasks (w_db w) !! lease_task x = Some t
       /\ db_tasks (w_db w') !! lease_task x = Some t' /\ recovered t t')
  /\ (forall k, k ∉ lease_task <$> items -> db_tasks (w_db w') !! k = db_tasks (w_db w) !! k).
Proof.
  revert u w. induction items as [|x items IH]; intros u w Hinv Hnd Hitems Hm.
  { apply foldM_nil in Hm as [_ ->]. split_and!; [done| |done].
    intros x Hx. by apply not_elem_of_nil in Hx. }
  apply foldM_cons in Hm as (u1 & w1 & H1 & Hm).
  rewrite fmap_cons in Hnd. apply NoDup_cons in Hnd as [Hni Hnd].
  destruct (Hitems x) as [Hx Hxa]; [left|].
  destruct (expire_recovers x u u1 w w1 Hinv Hx Hxa H1) as (t & t' & Ht & Ht' & Hrec).
  pose proof (expire_lease_refines false policy n u u1 x w w1 Hinv Hx Hxa H1) as Hs.
  assert (Hframe : forall y, y ∈ items -> lease_task y <> lease_task x).
  { intros y Hy Heq. apply Hni. rewrite <- Heq. by apply list_elem_of_fmap_2. }
  destruct (IH u1 w1) as (Hinv' & Heach & Hother).
  - by eapply Inv_steps_on.
  - done.
  - intros y Hy. destruct (Hitems y) as [Hyl Hya]; [by right|]. split; [|done].
    eapply steps_on_frame_lease; [exact Hs|exact Hyl|]. by apply Hframe.
  - exact Hm.
  - split; [done|]. split.
    + intros y [->|Hy]%elem_of_cons.
      * exists t, t'. by rewrite Hother.
      * destruct (Heach y Hy) as (t1 & t2 & Ht1 & Ht2 & Hr). exists t1, t2.
        rewrite (steps_on_frame_task _ _ _ _ _ Hs) in Ht1; [done|by apply Hframe].
    + intros k Hk. rewrite fmap_cons, elem_of_cons in Hk. rewrite Hother by tauto.
      apply (steps_on_frame_task _ _ _ _ _ Hs). tauto.
Qed.

(** The leases an expiry pass takes up. *)
Definition expired_leases (batch : Z) (locked : list Z) (now : Instant) (d : DB)
    : list LeaseRow :=
  skip_locked_limit (fun r => lease_ID (row_Lease r)) locked batch
    (order_by expiry_before (rows (lease_expired now) (db_leases d))).

(** C37: an expiry pass ends every lease it takes up, and only touches their tasks:
    each was leased or running, and is now waiting for a retry, deferred by the delay
    its attempts ask for, or, with its attempts used up, a dead letter; none of them
    has an active lease any more. *)
Theorem expired_leases_are_recovered (batch k : Z) (locked : list Z) (w w' : World) :
  Inv (w_db w) -> reconcileExpiredLeases batch locked policy n w = (Ok k, w') ->
  let items := expired_leases batch locked (env_clock (w_tick w)) (w_db w) in
  k = Z.of_nat (length items)
  /\ (forall r, r ∈ items -> exists t t',
       db_tasks (w_db w) !! lease_task r = Some t
       /\ db_tasks (w_db w') !! lease_task r = Some t' /\ recovered t t'
       /\ active_leases (lease_task r) (w_db w') = []
       /\ (task_Status t' = StatusDeadLetter -> exists i l,
            db_dead_letters (w_db w') !! i = Some l /\ dead_TaskID l = lease_task r))
  /\ (forall id, id ∉ lease_task <$> items ->
       db_tasks (w_db w') !! id = db_tasks (w_db w) !! id).
Proof.
  intros Hinv Hm items. unfold reconcileExpiredLeases in Hm. skip Hm.
  next Hm w1 H1. apply clock_timestamp_ok in H1 as [-> H1].
  change (skip_locked_limit _ _ _ _) with items in Hm.
  next Hm w2 H2. apply ret_ok in Hm as [-> ->].
  assert (Hitems : forall x, x ∈ items ->
    db_leases (w_db w) !! lease_ID (row_Lease x) = Some x /\ lease_active x = true).
  { intros x Hx. apply skip_locked_limit_spec in Hx as [Hx _]. rewrite order_by_perm in Hx.
    apply rows_spec in Hx as (i & Hi & [Ha _]%andb_true_iff). split; [|done].
    by rewrite (ky_lease _ (inv_keys _ Hinv) _ _ Hi). }
  rewrite <- H1 in Hinv, Hitems |- *.
  assert (Hnd : NoDup (lease_task <$> items)).
  { apply (active_tasks_NoDup (w_db w1)); [done|intros x Hx; by destruct (Hitems x Hx)|].
    apply (skip_locked_limit_NoDup (fun r => lease_ID (row_Lease r))).
    rewrite order_by_perm, <- H1. apply rows_NoDup. apply (ky_lease _ (inv_keys _ Hinv)). }
  eapply expire_loop in H2 as (Hinv' & Heach & Hother); [|done|done|done].
  split_and!; [done| |done]. intros y Hy. destruct (Heach y Hy) as (t & t' & Ht & Ht' & Hrec).
  exists t, t'. split_and!; [done|done|done| |].
  - apply active_leases_nil. intros i x Hx Hxa Hxt.
    destruct (active_held _ _ _ Hinv' Hx Hxa) as (t1 & a & Ht1 & Hh & _).
    rewrite Hxt, Ht' in Ht1. injection Ht1 as <-.
    destruct Hrec as (_ & _ & Hst). destruct (_ <=? _); [by rewrite Hst in Hh|].
    destruct Hst as [Hst _]. by rewrite Hst in Hh.
  - intros Hd. by eapply (di_letter _ _ (inv_dead _ Hinv')).
Qed.

End Expiry.

(** ** Witnesses *)

Local Existing Instance demo.


(** The same tables, much later. *)
Definition later (w : World) : World :=
  mkWorld (w_db w) (w_seq w) 1000 (w_random w) (w_now w).

Lemma later_Inv (w : World) : Inv (w_db w) -> Inv (w_db (later w)).
Proof. done. Defined.

Lemma expired_leases_are_recovered_witness :
  exists k w', reconcileExpiredLeases 10 [] demo_policy_retry 10 (later world_running) = (Ok k, w')
    /\ k = 1
    /\ k = Z.of_nat (length (expired_leases 10 [] (env_clock (w_tick (later world_running))) (w_db (later world_running)))).
Proof.
  destruct (ok_run (fun k => k =? 1) (reconcileExpiredLeases 10 [] demo_policy_retry 10) (later world_running))
    as (k & w' & Hrun & Hp); [vm_compute; reflexivity|].
  exists k, w'. split; [exact Hrun|]. split; [by apply Z.eqb_eq in Hp|].
  exact (proj1 (expired_leases_are_recovered demo_policy_retry 10 10 k [] (later world_running) w'
    (later_Inv world_running (reachable_Inv world_running (run_reachable _ running_valid))) Hrun)).
Defined.
