(* ===== verification/ServiceSpec.v ===== *)
(** * The contract between the service and its store

    [StoreContract] states what the service relies on: a class of good states
    that every method of [Persistence] keeps, as long as what is created has a
    status a creation may have.  The service is verified against the contract;
    the PostgreSQL store implements it, with the states a run of the store
    reaches as the good ones. *)

From stdpp Require Import base tactics list gmap strings sorting.
From Stdlib Require Import ZArith Lia.
From S2P Require Import Prelude GoLib TaskDomain Database StoreHelpers StoreMutate StoreCreate.
From S2P Require Import StoreQueue StoreOutbox StoreReconcile StoreRead TaskValidation.
From S2P Require Import TaskService StoreRun CreateRefine StoreMachine.

Local Open Scope Z_scope.

(** ** Programs that keep a class of states *)

Definition keeps_good {S A} (good : S -> Prop) (m : Eff S A) : Prop :=
  forall st, good st -> good (snd (m st)).

Section Keeps.
Context {S : Type} (good : S -> Prop).

Lemma keeps_ret {A} (a : A) : keeps_good good (ret a).
Proof. by intros st Hst. Qed.

Lemma keeps_throw {A} (e : Error) : keeps_good good (A := A) (throw e).
Proof. by intros st Hst. Qed.

Lemma keeps_throwIf (b : bool) (e : Error) : keeps_good good (throwIf b e).
Proof. intros st Hst. by destruct b. Qed.

Lemma keeps_lift {A} (r : res A) : keeps_good good (lift r).
Proof. intros st Hst. by destruct r. Qed.

Lemma keeps_bind {A B} (m : Eff S A) (f : A -> Eff S B) :
  keeps_good good m -> (forall a, keeps_good good (f a)) -> keeps_good good (bind m f).
Proof.
  intros Hm Hf st Hst. unfold bind. specialize (Hm st Hst).
  destruct (m st) as [[a|e] st']; simpl in *; [by apply Hf|done].
Qed.

(** What a lifted check establishes is known to the rest. *)
Lemma keeps_lift_bind {A B} (r : res A) (f : A -> Eff S B) :
  (forall a, r = Ok a -> keeps_good good (f a)) -> keeps_good good (bind (lift r) f).
Proof.
  intros Hf st Hst. unfold bind, lift. destruct r as [a|e]; simpl; [by apply Hf|done].
Qed.

Lemma keeps_foldM {A B} (f : B -> A -> Eff S B) (l : list A) (b : B) :
  (forall b a, keeps_good good (f b a)) -> keeps_good good (foldM f b l).
Proof.
  intros Hf. revert b. induction l as [|a l IH]; intros b; simpl; [apply keeps_ret|].
  apply keeps_bind; [apply Hf|intros; apply IH].
Qed.

End Keeps.

Create HintDb service discriminated.
#[export] Hint Resolve keeps_ret keeps_throw keeps_throwIf keeps_lift keeps_bind keeps_foldM
  : service.

(** ** The contract *)

Class StoreContract {S : Type} (p : Persistence S) : Type := {
  good : S -> Prop;
  good_GetTask id : keeps_good good (p_GetTask p id);
  good_ListTasks f : keeps_good good (p_ListTasks p f);
  good_ListEvents id limit : keeps_good good (p_ListEvents p id limit);
  good_ListAttempts id : keeps_good good (p_ListAttempts p id);
  good_ListDeadLetters limit : keeps_good good (p_ListDeadLetters p limit);
  good_GetDeadLetter id : keeps_good good (p_GetDeadLetter p id);
  good_Create input : creatable input -> keeps_good good (p_Create p input);
  good_AddDependency c n : keeps_good good (p_AddDependency p c n);
  good_AddRequirement c n : keeps_good good (p_AddRequirement p c n);
  good_RecordEvidence c n : keeps_good good (p_RecordEvidence p c n);
  good_RecordRequirementVerification c n :
    keeps_good good (p_RecordRequirementVerification p c n);
  good_Finalize c n : keeps_good good (p_Finalize p c n);
  good_Block c n : keeps_good good (p_Block p c n);
  good_Unblock c check n : keeps_good good (p_Unblock p c check n);
  good_ReleaseCoordinationHold c check n :
    keeps_good good (p_ReleaseCoordinationHold p c check n);
  good_Cancel c n : keeps_good good (p_Cancel p c n);
  good_Claim r v c n : keeps_good good (p_Claim p r v c n);
  good_StartAttempt c n : keeps_good good (p_StartAttempt p c n);
  good_Heartbeat c max : keeps_good good (p_Heartbeat p c max);
  good_RecordAttemptResult c policy n : keeps_good good (p_RecordAttemptResult p c policy n);
  good_Reconcile batch v c policy n : keeps_good good (p_Reconcile p batch v c policy n);
  good_ClaimOutbox r : keeps_good good (p_ClaimOutbox p r);
  good_AckOutbox d : keeps_good good (p_AckOutbox p d);
  good_NackOutbox d : keeps_good good (p_NackOutbox p d);
  good_RecoverOutbox batch : keeps_good good (p_RecoverOutbox p batch);
  good_OutboxStats : keeps_good good (p_OutboxStats p);
  good_PruneOutbox r : keeps_good good (p_PruneOutbox p r);
  good_ListAttemptsPage pager : p_ListAttemptsPage p = Some pager ->
    forall id limit offset, keeps_good good (pager id limit offset);
  good_ClaimSpecific claimer : p_ClaimSpecific p = Some claimer ->
    forall id r v c n, keeps_good good (claimer id r v c n);
  good_Redrive redriver : p_Redrive p = Some redriver ->
    forall input, creatable (predrive_Successor input) -> keeps_good good (redriver input) }.

#[export] Hint Resolve good_GetTask good_ListTasks good_ListEvents good_ListAttempts
  good_ListDeadLetters good_GetDeadLetter good_Create good_AddDependency good_AddRequirement
  good_RecordEvidence good_RecordRequirementVerification good_Finalize good_Block good_Unblock
  good_ReleaseCoordinationHold good_Cancel good_Claim good_StartAttempt good_Heartbeat
  good_RecordAttemptResult good_Reconcile good_ClaimOutbox good_AckOutbox good_NackOutbox
  good_RecoverOutbox good_OutboxStats good_PruneOutbox : service.

(** ** The service's methods *)

Inductive ServiceCall : Type :=
| SvGetTask (id : Z)
| SvListTasks (f : TaskFilter)
| SvListEvents (id limit : Z)
| SvListAttempts (id : Z)
| SvListAttemptsPage (id limit offset : Z)
| SvListDeadLetters (limit : Z)
| SvGetDeadLetter (id : Z)
| SvCreateTask (r : CreateRequest) (actorType actorID : string)
| SvRedrive (c : RedriveCommand)
| SvRelease (c : ReleaseCoordinationHoldCommand)
| SvAddDependency (c : AddDependencyCommand)
| SvAddRequirement (c : AddRequirementCommand)
| SvRecordEvidence (c : RecordEvidenceCommand)
| SvRecordVerification (c : RequirementVerificationCommand)
| SvClaimTasks (r : ClaimRequest)
| SvClaimTaskByID (id : Z) (r : ClaimRequest)
| SvStartAttempt (c : LeaseCommand)
| SvHeartbeat (c : LeaseCommand)
| SvRecordAttemptResult (c : RecordAttemptResultCommand)
| SvFinalize (c : FinalizeCommand)
| SvBlock (c : BlockCommand)
| SvUnblock (c : UnblockCommand)
| SvCancel (c : CancelCommand)
| SvReconcile (batch : Z)
| SvClaimOutbox (r : OutboxClaimRequest)
| SvAckOutbox (d : OutboxDisposition)
| SvNackOutbox (d : OutboxDisposition)
| SvRecoverOutbox (batch : Z)
| SvOutboxStats
| SvPruneOutbox (r : OutboxPruneRequest).

Section Client.
Context `{Env, ContentPolicy} {St : Type}.

Definition discard {A} (m : Eff St A) : Eff St unit := do! m in ret tt.

Definition serve (s : Service St) (c : ServiceCall) : Eff St unit :=
  match c with
  | SvGetTask id => discard (Service_GetTask s id)
  | SvListTasks f => discard (Service_ListTasks s f)
  | SvListEvents id limit => discard (Service_ListEvents s id limit)
  | SvListAttempts id => discard (Service_ListAttempts s id)
  | SvListAttemptsPage id limit offset => discard (Service_ListAttemptsPage s id limit offset)
  | SvListDeadLetters limit => discard (Service_ListDeadLetters s limit)
  | SvGetDeadLetter id => discard (Service_GetDeadLetter s id)
  | SvCreateTask r actorType actorID => discard (CreateTask s r actorType actorID)
  | SvRedrive c => discard (RedriveDeadLetter s c)
  | SvRelease c => discard (Service_ReleaseCoordinationHold s c)
  | SvAddDependency c => discard (Service_AddDependency s c)
  | SvAddRequirement c => discard (Service_AddRequirement s c)
  | SvRecordEvidence c => discard (Service_RecordEvidence s c)
  | SvRecordVerification c => discard (Service_RecordRequirementVerification s c)
  | SvClaimTasks r => discard (ClaimTasks s r)
  | SvClaimTaskByID id r => discard (ClaimTaskByID s id r)
  | SvStartAttempt c => discard (Service_StartAttempt s c)
  | SvHeartbeat c => discard (Service_Heartbeat s c)
  | SvRecordAttemptResult c => discard (Service_RecordAttemptResult s c)
  | SvFinalize c => discard (FinalizeTask s c)
  | SvBlock c => discard (BlockTask s c)
  | SvUnblock c => discard (UnblockTask s c)
  | SvCancel c => discard (CancelTask s c)
  | SvReconcile batch => discard (Service_Reconcile s batch)
  | SvClaimOutbox r => discard (Service_ClaimOutbox s r)
  | SvAckOutbox d => discard (Service_AckOutbox s d)
  | SvNackOutbox d => discard (Service_NackOutbox s d)
  | SvRecoverOutbox batch => discard (Service_RecoverOutbox s batch)
  | SvOutboxStats => discard (Service_OutboxStats s)
  | SvPruneOutbox r => discard (Service_PruneOutbox s r)
  end.

Lemma initial_status_creatable (r : CreateRequest) (initial : Status) (code reason : string) :
  initial_status r = (initial, code, reason) ->
  initial = StatusPending \/ initial = StatusReady \/ initial = StatusBlocked.
Proof.
  unfold initial_status. destruct (create_HoldForCoordination r); [intros [= <- _ _]; auto|].
  destruct (_ || _); intros [= <- _ _]; auto.
Qed.

(** What the service prepares is fit to be created. *)
Lemma prepareCreate_creatable (s : Service St) (r : CreateRequest) (actorType actorID : string)
    (input : PreparedCreate) :
  prepareCreate s r actorType actorID = Ok input -> creatable input.
Proof.
  unfold prepareCreate. intros Hp.
  repeat (apply rbind_ok in Hp as (? & _ & Hp)).
  destruct (initial_status _) as [[initial code] reason] eqn:Hi in Hp.
  injection Hp as <-. unfold creatable. cbn [prepared_InitialStatus].
  by eapply initial_status_creatable.
Qed.

Variable s : Service St.
Context `{!StoreContract (persistence s)}.

Lemma keeps_discard {A} (m : Eff St A) : keeps_good good m -> keeps_good good (discard m).
Proof. intros Hm. apply keeps_bind; [exact Hm|intros; apply keeps_ret]. Qed.

Lemma CreateTask_good (r : CreateRequest) (actorType actorID : string) :
  keeps_good good (CreateTask s r actorType actorID).
Proof.
  apply keeps_lift_bind. intros input Hp. by eapply good_Create, prepareCreate_creatable.
Qed.

Lemma keep_letter_good (kept : list DeadLetter) (l : DeadLetter) :
  keeps_good good (keep_letter s kept l).
Proof.
  intros st Hst. unfold keep_letter. pose proof (good_GetTask (dead_TaskID l) st Hst) as Hg.
  by destruct (p_GetTask (persistence s) (dead_TaskID l) st) as [[]].
Qed.

Lemma RedriveDeadLetter_good (c : RedriveCommand) : keeps_good good (RedriveDeadLetter s c).
Proof.
  unfold RedriveDeadLetter. repeat (apply keeps_bind; [apply keeps_throwIf|intros _]).
  destruct (p_Redrive (persistence s)) as [redriver|] eqn:Hr; [|apply keeps_throw].
  apply keeps_bind; [unfold Service_GetDeadLetter; eauto with service|intros dead].
  apply keeps_bind; [eauto with service|intros failed].
  repeat (apply keeps_bind; [apply keeps_throwIf|intros _]).
  apply keeps_lift_bind. intros input Hp. eapply good_Redrive; [exact Hr|].
  by eapply prepareCreate_creatable.
Qed.

#[local] Hint Resolve CreateTask_good RedriveDeadLetter_good keep_letter_good : service.

Ltac unfold_service :=
  unfold Service_GetTask, Service_ListTasks, Service_ListEvents, Service_ListAttempts,
    Service_ListAttemptsPage, Service_ListDeadLetters, Service_GetDeadLetter,
    Service_ReleaseCoordinationHold, Service_AddDependency, Service_AddRequirement,
    Service_RecordEvidence, Service_RecordRequirementVerification, ClaimTasks, ClaimTaskByID,
    Service_StartAttempt, Service_Heartbeat, Service_RecordAttemptResult, FinalizeTask,
    BlockTask, UnblockTask, CancelTask, Service_Reconcile, Service_ClaimOutbox,
    Service_AckOutbox, Service_NackOutbox, Service_RecoverOutbox, Service_OutboxStats,
    Service_PruneOutbox, checked_actor.

Ltac serve_steps :=
  repeat match goal with
  | |- keeps_good _ (bind _ _) => apply keeps_bind; [|intros ?]
  | |- keeps_good _ (match ?x with _ => _ end) => destruct x eqn:?
  | |- keeps_good _ _ =>
      first [ solve [eauto with service] | by eapply good_ListAttemptsPage
            | by eapply good_ClaimSpecific ]
  end.

(** Every method of the service keeps the good states of its store. *)
Lemma serve_good (c : ServiceCall) : keeps_good good (serve s c).
Proof.
  destruct c; cbn [serve]; apply keeps_discard.
  all: unfold_service; eauto 10 with service; by serve_steps.
Qed.

End Client.

(** ** The store implements the contract *)

(** The rows other transactions hold locked when a call runs. *)
Definition Locks : Type := World -> Locked.

Section Store.
Context `{Env}.

(** store.go: the methods of [Store] as a [Persistence] with every optional
    capability. *)
Definition pgStore (locks : Locks) : Persistence World := {|
  p_GetTask := GetTask;
  p_ListTasks := ListTasks;
  p_ListEvents := ListEvents;
  p_ListAttempts := ListAttempts;
  p_ListDeadLetters := ListDeadLetters;
  p_GetDeadLetter := GetDeadLetter;
  p_Create := Create;
  p_AddDependency := AddDependency;
  p_AddRequirement := AddRequirement;
  p_RecordEvidence := RecordEvidence;
  p_RecordRequirementVerification := RecordRequirementVerification;
  p_VerifyActiveExecutionLease := VerifyActiveExecutionLease;
  p_Finalize := Finalize;
  p_Block := Block;
  p_Unblock := Unblock;
  p_ReleaseCoordinationHold := ReleaseCoordinationHold;
  p_Cancel := Cancel;
  p_Claim r validate capacity n :=
    fun w => Claim r (locked_tasks (locks w)) validate capacity n w;
  p_StartAttempt := StartAttempt;
  p_Heartbeat := Heartbeat;
  p_RecordAttemptResult := RecordAttemptResult;
  p_Reconcile batch validate capacity policy n :=
    fun w => Reconcile batch (locks w) validate capacity policy n w;
  p_ClaimOutbox r := fun w => ClaimOutbox r (locked_outbox (locks w)) w;
  p_AckOutbox := AckOutbox;
  p_NackOutbox := NackOutbox;
  p_RecoverOutbox batch := fun w => RecoverOutbox batch (locked_outbox (locks w)) w;
  p_OutboxStats := OutboxStats;
  p_PruneOutbox r := fun w => PruneOutbox r (locked_outbox (locks w)) w;
  p_ListAttemptsPage := Some ListAttemptsPage;
  p_ClaimSpecific := Some (fun id r validate capacity n =>
    fun w => ClaimSpecific id r (locked_tasks (locks w)) validate capacity n w);
  p_Redrive := Some Redrive |}.

Lemma outcome_world {A} (m : M A) (w : World) : snd (outcome m w) = snd (m w).
Proof. unfold outcome. by destruct (m w) as [[]]. Qed.

(** A method that is a call of the machine. *)
Lemma keeps_call {A} (m : M A) (c : World -> Call) :
  (forall w, valid_call (c w)) -> (forall w, perform (c w) w = outcome m w) ->
  keeps_good reachable m.
Proof.
  intros Hv Hp w Hw. rewrite <- outcome_world, <- Hp. by apply reachable_exec.
Qed.

(** A method that reads. *)
Lemma keeps_read {A} (m : M A) : (forall w, snd (m w) = w) -> keeps_good reachable m.
Proof. intros Hm w Hw. by rewrite Hm. Qed.

#[export] Instance pgStore_contract (locks : Locks) : StoreContract (pgStore locks).
Proof.
  refine {| good := reachable |}; cbn.
  - intros id. apply keeps_read. intros w. unfold GetTask, bind, get_db.
    by destruct (db_tasks (w_db w) !! id).
  - intros f. by apply keeps_read.
  - intros id limit. by apply keeps_read.
  - intros id. by apply keeps_read.
  - intros limit. by apply keeps_read.
  - intros id. apply keeps_read. intros w. unfold GetDeadLetter, bind, get_db.
    by destruct (db_dead_letters (w_db w) !! id).
  - intros input Hi. by apply (keeps_call _ (fun _ => CallCreate input)).
  - intros c n. by apply (keeps_call _ (fun _ => CallAddDependency c n)).
  - intros c n. by apply (keeps_call _ (fun _ => CallAddRequirement c n)).
  - intros c n. by apply (keeps_call _ (fun _ => CallRecordEvidence c n)).
  - intros c n. by apply (keeps_call _ (fun _ => CallRecordVerification c n)).
  - intros c n. by apply (keeps_call _ (fun _ => CallFinalize c n)).
  - intros c n. by apply (keeps_call _ (fun _ => CallBlock c n)).
  - intros c check n. by apply (keeps_call _ (fun _ => CallUnblock c check n)).
  - intros c check n. by apply (keeps_call _ (fun _ => CallRelease c check n)).
  - intros c n. by apply (keeps_call _ (fun _ => CallCancel c n)).
  - intros r v c n. by apply (keeps_call _ (fun w => CallClaim r (locked_tasks (locks w)) v c n)).
  - intros c n. by apply (keeps_call _ (fun _ => CallStartAttempt c n)).
  - intros c max. by apply (keeps_call _ (fun _ => CallHeartbeat c max)).
  - intros c policy n. by apply (keeps_call _ (fun _ => CallRecordAttemptResult c policy n)).
  - intros batch v c policy n.
    by apply (keeps_call _ (fun w => CallReconcile batch (locks w) v c policy n)).
  - intros r. by apply (keeps_call _ (fun w => CallClaimOutbox r (locked_outbox (locks w)))).
  - intros d. by apply (keeps_call _ (fun _ => CallAckOutbox d)).
  - intros d. by apply (keeps_call _ (fun _ => CallNackOutbox d)).
  - intros batch.
    by apply (keeps_call _ (fun w => CallRecoverOutbox batch (locked_outbox (locks w)))).
  - by apply keeps_read.
  - intros r. by apply (keeps_call _ (fun w => CallPruneOutbox r (locked_outbox (locks w)))).
  - intros pager [= <-] id limit offset. by apply keeps_read.
  - intros claimer [= <-] id r v c n.
    by apply (keeps_call _ (fun w => CallClaimSpecific id r (locked_tasks (locks w)) v c n)).
  - intros redriver [= <-] input Hi. by apply (keeps_call _ (fun _ => CallRedrive input)).
Defined.

End Store.
