(* ===== verification/ServiceProps.v ===== *)
(** * Properties of the task service

    service.go and redrive.go over the PostgreSQL store: what a service admits
    ([admits]), that every request is the call it is admitted as or an error
    ([requests_are_vetted]), what is vetted before a task is created, and which
    organization's rows a service reads. *)

From stdpp Require Import base tactics list gmap strings sorting.
From Stdlib Require Import ZArith Lia.
From S2P Require Import Prelude GoLib TaskDomain Database StoreHelpers StoreMutate StoreCreate.
From S2P Require Import StoreQueue StoreOutbox StoreReconcile StoreRead TaskValidation.
From S2P Require Import TaskService StoreRun StoreSpec LeaseInvariant TaskInvariant StoreRefine.
From S2P Require Import CreateRefine StoreMachine Scenario ServiceSpec Patterns ValidationProps.

Local Open Scope Z_scope.

Section Service.
Context `{Env, ContentPolicy}.

(** ** Runs *)

(** One request to a service: the answers of its catalog, its configuration and
    capacity gate, the locks of the moment and the method called. *)
Record Request : Type := mkRequest {
  req_Catalog : Catalog;
  req_Config : Config;
  req_Gate : option CapacityValidator;
  req_Locks : Locks;
  req_Call : ServiceCall }.

Definition service_of (r : Request) : Service World :=
  mkService World (pgStore (req_Locks r)) (req_Catalog r) (req_Config r) (req_Gate r).

Definition serve_request (w : World) (r : Request) : World :=
  snd (serve (service_of r) (req_Call r) w).

Definition serve_all (requests : list Request) (w : World) : World :=
  foldl serve_request w requests.

Lemma serve_all_reachable (requests : list Request) (w : World) :
  reachable w -> reachable (serve_all requests w).
Proof.
  revert w. induction requests as [|r requests IH]; intros w Hw; [done|]. apply IH.
  exact (serve_good (service_of r) (req_Call r) w Hw).
Qed.

Lemma is_empty_iff (s : string) : is_empty s = false <-> s <> EmptyString.
Proof. unfold is_empty. by rewrite bool_decide_eq_false. Qed.

(** ** What a service admits *)

(** The requests stated field by field, apart from the order and the shape of the checks: a request
    is admitted as one call of the store, with the fields that call gets. *)

Definition nonblank (x : string) : Prop := TrimSpace x <> EmptyString.

(** A field that is empty, or has the form. *)
Definition empty_or (p : regex) (x : string) : Prop := x = EmptyString \/ matches p (to_bytes x).

(** [n], or [d] in place of a zero. *)
Definition default_to (d n : Z) : Z := if decide (n = 0) then d else n.

Definition trimmed_or (d x : string) : string :=
  if decide (TrimSpace x = EmptyString) then d else TrimSpace x.

(** Who acts: a named actor, a human unless told otherwise. *)
Definition acts (actorType actorID : string) (actor : string * string) : Prop :=
  actor = (trimmed_or "human" actorType, TrimSpace actorID)
  /\ length_between 1 200 (snd actor) /\ length_between 1 80 (fst actor).

Definition assignable (role : RoleRef) : Prop :=
  role_ID role <> EmptyString /\ role_UnitID role <> EmptyString /\ role_Enabled role = true
  /\ role_Executable role = true /\ role_Retired role = false.

Section Admission.
Variables (r : Request) (w : World).

Let config : Config := req_Config r.
Let roles := GetRole (req_Catalog r).
Let own : string := cfg_OrganizationID config.
Let outbox : Z := cfg_OutboxMaxAttempts config.

(** What the catalog says of the assignee of a task: its errors are handed on, except for a role it
    does not have. *)
Definition assesses (task : Task) (answer : res AssigneeCheck) : Prop :=
  match CurrentRevision (req_Catalog r) (task_OrganizationID task) with
  | Err e => answer = Err e
  | Ok _ =>
      match roles (task_OrganizationID task) (task_AssignedRoleID task) with
      | Err ErrNotFound => exists reason, answer = Ok (mkAssigneeCheck false reason)
      | Err e => answer = Err e
      | Ok role =>
          exists available reason, answer = Ok (mkAssigneeCheck available reason)
            /\ (available = true <-> assignable role /\ role_UnitID role = task_AssignedUnitID task)
      end
  end.

(** What the capacity gate says of a task; without one there is always room. *)
Definition gauges (task : Task) (answer : res CapacityCheck) : Prop :=
  match req_Gate r with
  | None => answer = Ok (mkCapacityCheck true zeroInstant "")
  | Some gate => answer = gate task
  end.

(** The request as it is stored: trimmed, in an organization, with attempts. *)
Definition stored_request (c : CreateRequest) : CreateRequest :=
  mkCreateRequest (trimmed_or own (create_OrganizationID c)) (TrimSpace (create_RequestedByRoleID c))
    (TrimSpace (create_AssignedRoleID c)) (create_TaskClass c)
    (TrimSpace (create_IdempotencyKey c)) (TrimSpace (create_Title c))
    (TrimSpace (create_Instructions c)) (TrimSpace <$> create_AcceptanceCriteria c)
    (create_Priority c) (create_AvailableAt c)
    (default_to (cfg_DefaultMaxAttempts config) (create_MaxAttempts c))
    (TrimSpace (create_CorrelationID c)) (TrimSpace (create_CausationID c))
    (create_Dependencies c)
    ((fun q => mkRequirementSpec (TrimSpace (spec_Key q)) (spec_Type q)
                 (TrimSpace (spec_Description q)) (spec_Required q)) <$> create_Requirements c)
    (create_HoldForCoordination c).

(** The status of a new task: held, waiting, or ready. *)
Definition born (c : CreateRequest) (status : Status) (code reason : string) : Prop :=
  match status with
  | StatusBlocked => create_HoldForCoordination c = true /\ code = ReasonCodeCoordinationHold
      /\ reason <> EmptyString
  | StatusPending => create_HoldForCoordination c = false /\ code = EmptyString
      /\ reason = EmptyString /\ (create_Dependencies c <> [] \/ create_AvailableAt c <> None)
  | StatusReady => create_HoldForCoordination c = false /\ code = EmptyString
      /\ reason = EmptyString /\ create_Dependencies c = [] /\ create_AvailableAt c = None
  | _ => False
  end.

(** What is prepared for a new task: within the limits, for a role the catalog has and that can be
    given work, on behalf of a role that is not retired. *)
Definition prepares (c : CreateRequest) (actorType actorID : string) (input : PreparedCreate)
    : Prop :=
  let c' := stored_request c in
  let class := if decide (create_TaskClass c = EmptyString) then TaskClassGeneralWork
               else create_TaskClass c in
  let organization := create_OrganizationID c' in
  acceptable c'
  /\ (exists actor, acts actorType actorID actor
       /\ prepared_ActorType input = fst actor /\ prepared_ActorID input = snd actor)
  /\ (exists revision, CurrentRevision (req_Catalog r) organization = Ok revision
       /\ prepared_OrganizationRevisionID input = revision_ID revision)
  /\ (exists role, roles organization (create_AssignedRoleID c') = Ok role /\ assignable role
       /\ prepared_AssignedUnitID input = role_UnitID role)
  /\ (create_RequestedByRoleID c' <> EmptyString ->
      exists role, roles organization (create_RequestedByRoleID c') = Ok role
        /\ role_Retired role = false)
  /\ prepared_Request input = with_class c' class /\ prepared_TaskClass input = class
  /\ (prepared_TaskClassExplicit input = true <-> create_TaskClass c <> EmptyString)
  /\ HashCreateRequest (prepared_Request input) = Ok (prepared_RequestHash input)
  /\ born c' (prepared_InitialStatus input) (prepared_InitialStatusReasonCode input)
       (prepared_InitialStatusReason input)
  /\ prepared_DefaultMaxAttempts input = cfg_DefaultMaxAttempts config
  /\ prepared_OutboxMaxAttempts input = outbox.

(** A lease command that names its task, its attempt, its token and who sends it. *)
Definition names_lease (c : LeaseCommand) : Prop :=
  0 < lcmd_TaskID c /\ 0 < lcmd_AttemptID c /\ nonblank (lcmd_LeaseToken c)
  /\ nonblank (lcmd_ActorID c) /\ len (lcmd_ActorID c) <= 200.

Definition leasable (d : Duration) : Prop := 0 < d <= cfg_MaxLeaseDuration config.

(** The claim as the store gets it, and who it says claims what. *)
Definition stored_claim (c : ClaimRequest) (batch : Z) : ClaimRequest :=
  mkClaimRequest (trimmed_or own (claim_OrganizationID c)) (TrimSpace (claim_WorkerID c))
    (TrimSpace (claim_HolderPrincipalID c)) (TrimSpace (claim_AssignedRoleID c)) batch
    (default_to (cfg_DefaultLeaseDuration config) (claim_LeaseDuration c)).

Definition names_claim (c : ClaimRequest) : Prop :=
  matches identifierPattern (to_bytes (claim_OrganizationID c))
  /\ length_between 1 200 (claim_WorkerID c) /\ len (claim_HolderPrincipalID c) <= 200
  /\ empty_or rolePattern (claim_AssignedRoleID c).

(** An attempt that succeeded has no failure code, one that failed has one. *)
Definition reported (outcome : AttemptOutcome) (code : string) : Prop :=
  match outcome with
  | OutcomeSucceeded => code = EmptyString
  | OutcomeRetryableFailure | OutcomeNonRetryableFailure => code <> EmptyString
  | OutcomeCancelled => True
  | OutcomeOther _ => False
  end.

(** Every final outcome but a completion is explained. *)
Definition explained (outcome : FinalOutcome) (code reason : string) : Prop :=
  match outcome with
  | FinalCompleted => True
  | FinalOther _ => False
  | _ => nonblank code /\ nonblank reason
  end.

Definition names_disposition (d : OutboxDisposition) : Prop :=
  0 < disp_EventID d /\ nonblank (disp_ClaimToken d) /\ nonblank (disp_ConsumerID d).

(** The call of the store a request is. *)
Definition admits (request : ServiceCall) (k : Call) : Prop :=
  match request with
  | SvCreateTask c actorType actorID =>
      exists input, prepares c actorType actorID input /\ k = CallCreate input
  | SvRedrive c =>
      let observed := TrimSpace (redrive_ObservedChange c) in
      0 < redrive_DeadLetterID c /\ length_between 1 500 observed
      /\ 1 <= redrive_MaxRecoveryEpisodes c
      /\ exists letter failed input,
          db_dead_letters (w_db w) !! redrive_DeadLetterID c = Some letter
          /\ db_tasks (w_db w) !! dead_TaskID letter = Some failed
          /\ task_OrganizationID failed = own
          /\ (create_OrganizationID (redrive_Successor c) = EmptyString
              \/ create_OrganizationID (redrive_Successor c) = own)
          /\ TrimSpace (create_IdempotencyKey (redrive_Successor c)) <> task_IdempotencyKey failed
          /\ prepares (successor_request (redrive_Successor c) own) (redrive_ActorType c)
               (redrive_ActorID c) input
          /\ k = CallRedrive (mkPreparedRedrive (redrive_DeadLetterID c)
               (redrive_MaxRecoveryEpisodes c) observed input (prepared_ActorType input)
               (prepared_ActorID input) outbox)
  | SvRelease c =>
      0 < release_TaskID c
      /\ exists actor task check, acts (release_ActorType c) (release_ActorID c) actor
          /\ db_tasks (w_db w) !! release_TaskID c = Some task /\ assesses task (Ok check)
          /\ k = CallRelease (mkReleaseCommand (release_TaskID c) (fst actor) (snd actor)) check outbox
  | SvAddDependency c =>
      0 < adddep_TaskID c /\ 0 < adddep_DependsOnID c /\ adddep_TaskID c <> adddep_DependsOnID c
      /\ exists actor, acts (adddep_ActorType c) (adddep_ActorID c) actor
          /\ k = CallAddDependency (mkAddDependencyCommand (adddep_TaskID c) (adddep_DependsOnID c)
                   (fst actor) (snd actor)) outbox
  | SvAddRequirement c =>
      let q := addreq_Spec c in
      let spec := mkRequirementSpec (TrimSpace (spec_Key q)) (spec_Type q)
                    (TrimSpace (spec_Description q)) (spec_Required q) in
      0 < addreq_TaskID c /\ acceptable_spec spec
      /\ exists actor, acts (addreq_ActorType c) (addreq_ActorID c) actor
          /\ k = CallAddRequirement (mkAddRequirementCommand (addreq_TaskID c) spec (fst actor)
                   (snd actor)) outbox
  | SvRecordEvidence c =>
      let reference := TrimSpace (evcmd_Reference c) in
      let digest := TrimSpace (evcmd_Digest c) in
      let recorder := TrimSpace (evcmd_RecordedBy c) in
      0 < evcmd_TaskID c
      /\ match evcmd_RequirementID c with Some id => 0 < id | None => evcmd_Satisfies c = false end
      /\ RequirementTypeValid (evcmd_Type c) = true /\ length_between 1 2048 reference
      /\ empty_or digestPattern digest /\ length_between 1 200 recorder
      /\ len (env_json_marshal (JObj (evcmd_Metadata c))) <= 65536
      /\ k = CallRecordEvidence (mkRecordEvidenceCommand (evcmd_TaskID c) (evcmd_RequirementID c)
               (evcmd_Type c) reference digest recorder (evcmd_Metadata c) (evcmd_Satisfies c)) outbox
  | SvRecordVerification c =>
      let reference := TrimSpace (vcmd_Reference c) in
      let digest := TrimSpace (vcmd_Digest c) in
      let recorder := TrimSpace (vcmd_RecordedBy c) in
      0 < vcmd_TaskID c /\ 0 < vcmd_RequirementID c
      /\ (forall text, vcmd_Result c <> RequirementVerificationOther text)
      /\ length_between 1 2048 reference /\ length_between 1 200 recorder
      /\ empty_or digestPattern digest
      /\ k = CallRecordVerification (mkVerificationCommand (vcmd_TaskID c) (vcmd_RequirementID c)
               (vcmd_Result c) reference digest recorder (vcmd_Metadata c)) outbox
  | SvClaimTasks c =>
      let c' := stored_claim c (default_to 1 (claim_BatchSize c)) in
      names_claim c' /\ 1 <= claim_BatchSize c' <= 32 /\ leasable (claim_LeaseDuration c')
      /\ exists validate capacity,
          (forall task, assesses task (validate task)) /\ (forall task, gauges task (capacity task))
          /\ k = CallClaim c' (locked_tasks (req_Locks r w)) validate capacity outbox
  | SvClaimTaskByID id c =>
      let c' := stored_claim c (claim_BatchSize c) in
      0 < id /\ names_claim c' /\ leasable (claim_LeaseDuration c')
      /\ exists validate capacity,
          (forall task, assesses task (validate task)) /\ (forall task, gauges task (capacity task))
          /\ k = CallClaimSpecific id c' (locked_tasks (req_Locks r w)) validate capacity outbox
  | SvStartAttempt c => names_lease c /\ k = CallStartAttempt c outbox
  | SvHeartbeat c =>
      let extension := default_to (cfg_DefaultLeaseDuration config) (lcmd_Extension c) in
      names_lease c /\ leasable extension
      /\ k = CallHeartbeat (mkLeaseCommand (lcmd_TaskID c) (lcmd_AttemptID c) (lcmd_LeaseToken c)
               (lcmd_ActorID c) extension) (cfg_MaxLeaseDuration config)
  | SvRecordAttemptResult c =>
      let summary := TrimSpace (result_Summary (rcmd_Result c)) in
      let code := TrimSpace (result_FailureCode (rcmd_Result c)) in
      names_lease (rcmd_LeaseCommand c) /\ reported (result_Outcome (rcmd_Result c)) code
      /\ len summary <= 4000 /\ len code <= 120
      /\ k = CallRecordAttemptResult (mkRecordAttemptResultCommand (rcmd_LeaseCommand c)
               (mkAttemptResult (result_Outcome (rcmd_Result c)) summary code))
               (cfg_RetryPolicy config) outbox
  | SvFinalize c =>
      0 < fin_TaskID c /\ explained (fin_Outcome c) (fin_ReasonCode c) (fin_Reason c)
      /\ exists actor, acts (fin_ActorType c) (fin_ActorID c) actor
          /\ k = CallFinalize (mkFinalizeCommand (fin_TaskID c) (fin_Outcome c)
                   (TrimSpace (fin_ReasonCode c)) (TrimSpace (fin_Reason c)) (fst actor)
                   (snd actor)) outbox
  | SvBlock c =>
      0 < block_TaskID c /\ nonblank (block_ReasonCode c) /\ nonblank (block_Reason c)
      /\ exists actor, acts (block_ActorType c) (block_ActorID c) actor
          /\ k = CallBlock (mkBlockCommand (block_TaskID c) (TrimSpace (block_ReasonCode c))
                   (TrimSpace (block_Reason c)) (block_RevokeLease c) (fst actor) (snd actor)) outbox
  | SvUnblock c =>
      0 < unblock_TaskID c
      /\ exists actor task check, acts (unblock_ActorType c) (unblock_ActorID c) actor
          /\ db_tasks (w_db w) !! unblock_TaskID c = Some task /\ assesses task (Ok check)
          /\ k = CallUnblock (mkUnblockCommand (unblock_TaskID c) (fst actor) (snd actor)) check outbox
  | SvCancel c =>
      0 < cancel_TaskID c /\ nonblank (cancel_ReasonCode c) /\ nonblank (cancel_Reason c)
      /\ exists actor, acts (cancel_ActorType c) (cancel_ActorID c) actor
          /\ k = CallCancel (mkCancelCommand (cancel_TaskID c) (TrimSpace (cancel_ReasonCode c))
                   (TrimSpace (cancel_Reason c)) (fst actor) (snd actor)) outbox
  | SvReconcile batch =>
      1 <= default_to 100 batch <= 1000
      /\ exists validate capacity,
          (forall task, assesses task (validate task)) /\ (forall task, gauges task (capacity task))
          /\ k = CallReconcile (default_to 100 batch) (req_Locks r w) validate capacity
                   (cfg_RetryPolicy config) outbox
  | SvClaimOutbox c =>
      let consumer := TrimSpace (oclaim_ConsumerID c) in
      let batch := default_to 1 (oclaim_BatchSize c) in
      let duration := default_to (cfg_OutboxClaimDuration config) (oclaim_ClaimDuration c) in
      length_between 1 200 consumer /\ 1 <= batch <= 32 /\ leasable duration
      /\ k = CallClaimOutbox (mkOutboxClaimRequest consumer batch duration)
               (locked_outbox (req_Locks r w))
  | SvAckOutbox d =>
      names_disposition d /\ len (disp_Error d) <= 4000
      /\ k = CallAckOutbox (mkOutboxDisposition (disp_EventID d) (disp_ClaimToken d)
               (TrimSpace (disp_ConsumerID d)) (disp_Error d))
  | SvNackOutbox d =>
      names_disposition d /\ length_between 1 4000 (TrimSpace (disp_Error d))
      /\ k = CallNackOutbox (mkOutboxDisposition (disp_EventID d) (disp_ClaimToken d)
               (TrimSpace (disp_ConsumerID d)) (TrimSpace (disp_Error d)))
  | SvRecoverOutbox batch =>
      1 <= default_to 100 batch <= 1000
      /\ k = CallRecoverOutbox (default_to 100 batch) (locked_outbox (req_Locks r w))
  | SvPruneOutbox c =>
      let limit := if decide (0 < prune_Limit c) then prune_Limit c else 1000 in
      (if prune_IncludePending c then 30 * 24 * Hour else 24 * Hour) <= prune_OlderThan c
      /\ (prune_IncludePublished c = true \/ prune_IncludeDead c = true
          \/ prune_IncludePending c = true)
      /\ limit <= 10000
      /\ k = CallPruneOutbox (mkOutboxPruneRequest (prune_OlderThan c) (prune_IncludePublished c)
               (prune_IncludeDead c) (prune_IncludePending c) (prune_DryRun c) limit)
               (locked_outbox (req_Locks r w))
  | _ => False
  end.

(** The requests that only read. *)
Definition only_reads (request : ServiceCall) : bool :=
  match request with
  | SvGetTask _ | SvListTasks _ | SvListEvents _ _ | SvListAttempts _ | SvListAttemptsPage _ _ _
  | SvListDeadLetters _ | SvGetDeadLetter _ | SvOutboxStats => true
  | _ => false
  end.

(** What a request comes to: the one call of the store it is admitted as, or an error with the
    world as it was. *)
Definition vetted {A} (m : Eff World A) (admitted : Call -> Prop) : Prop :=
  (exists k, admitted k /\ valid_call k /\ outcome m w = perform k w)
  \/ ((forall k, ~ admitted k) /\ exists e, m w = (Err e, w)).

(** ** The service vets what it is asked *)

Lemma vetted_call {A} (m : Eff World A) (Q : Call -> Prop) (k : Call) :
  Q k -> valid_call k -> outcome m w = perform k w -> vetted m Q.
Proof. intros HQ Hv Hm. left. by exists k. Qed.

Lemma vetted_run {A} (m m' : Eff World A) (Q : Call -> Prop) : m w = m' w -> vetted m' Q -> vetted m Q.
Proof. unfold vetted, outcome. by intros ->. Qed.

Lemma vetted_lift {A B} (check : res B) (f : B -> Eff World A) (Q : Call -> Prop) :
  (forall e, check = Err e -> forall k, ~ Q k) -> (forall b, check = Ok b -> vetted (f b) Q) ->
  vetted (bind (lift check) f) Q.
Proof.
  intros He Hok. destruct check as [b|e]; [by apply Hok|]. right. split; [by eapply He|by exists e].
Qed.

Lemma vetted_check {A} (P : Prop) (check : res unit) (m : Eff World A) (Q : Call -> Prop) :
  (check = Ok tt <-> P) -> (forall k, Q k -> P) -> (P -> vetted m Q) ->
  vetted (do! lift check in m) Q.
Proof.
  intros Hc HQ Hm. destruct check as [[]|e]; [by apply Hm, Hc|].
  right. split; [|by exists e]. intros k Hk. by apply HQ, Hc in Hk.
Qed.

Lemma vetted_guard {A} (P : Prop) (b : bool) (e : Error) (m : Eff World A) (Q : Call -> Prop) :
  (b = false <-> P) -> (forall k, Q k -> P) -> (P -> vetted m Q) -> vetted (do! throwIf b e in m) Q.
Proof.
  intros Hb HQ Hm. destruct b; [|by apply Hm, Hb].
  right. split; [|by exists e]. intros k Hk. by apply HQ, Hb in Hk.
Qed.

Lemma vetted_step {A} (P : Prop) (check : Eff World unit) (m : Eff World A) (Q : Call -> Prop) :
  P /\ check w = (Ok tt, w) \/ ~ P /\ (exists e, check w = (Err e, w)) ->
  (forall k, Q k -> P) -> (P -> vetted m Q) -> vetted (do! check in m) Q.
Proof.
  intros [[HP Hc]|[HP [e Hc]]] HQ Hm.
  - apply vetted_run with m; [unfold bind; by rewrite Hc|by apply Hm].
  - right. split; [intros k Hk; by apply HP, (HQ k)|]. exists e. unfold bind. by rewrite Hc.
Qed.

Lemma guard_cases (P : Prop) (b : bool) (e : Error) :
  (b = false <-> P) ->
  P /\ throwIf b e w = (Ok tt, w) \/ ~ P /\ (exists e', throwIf b e w = (Err e', w)).
Proof.
  intros Hb. destruct b; [right|left; by split; [apply Hb|]].
  split; [intros HP; by apply Hb in HP|by exists e].
Qed.

Lemma vetted_discard {A} (m : Eff World A) (Q : Call -> Prop) : vetted m Q -> vetted (discard m) Q.
Proof.
  intros [(k & HQ & Hv & Hm)|[HQ [e He]]].
  - left. exists k. split_and!; [done..|]. rewrite <- Hm. unfold outcome, discard, bind.
    by destruct (m w) as [[]].
  - right. split; [done|]. exists e. unfold discard, bind. by rewrite He.
Qed.

Lemma trim_default (d x : string) : (if is_empty (TrimSpace x) then d else TrimSpace x) = trimmed_or d x.
Proof. unfold trimmed_or, is_empty. by case_bool_decide; case_decide. Qed.

Lemma int_default (d n : Z) : default_int d n = default_to d n.
Proof. unfold default_int, default_to. by destruct (Z.eqb_spec n 0); case_decide. Qed.

Lemma text_guard (max : Z) (x : string) :
  is_empty x || (max <? len x) = false <-> length_between 1 max x.
Proof.
  unfold length_between, is_empty. rewrite orb_false_iff, Z.ltb_ge, bool_decide_eq_false, <- len_zero.
  pose proof (len_nonneg x). lia.
Qed.

Lemma form_guard (p : regex) (x : string) :
  negb (is_empty x) && negb (MatchString p x) = false <-> empty_or p x.
Proof. unfold empty_or. by rewrite andb_false_iff, is_empty_false, pattern_spec. Qed.

Lemma blank_guard (x : string) : is_empty (TrimSpace x) = false <-> nonblank x.
Proof. apply is_empty_iff. Qed.

(** [b = false <-> P] for a guard [b]. *)
Ltac guard_iff :=
  rewrite ?text_guard, ?form_guard, ?between_spec, ?pattern_spec, ?orb_false_iff, ?blank_guard,
    ?negb_false_iff, ?Z.leb_gt, ?Z.ltb_ge, ?Z.eqb_neq;
  unfold leasable; first [reflexivity | tauto | lia].

Lemma actor_guards (actorType actorID : string) :
  let actor := normalizeActor actorType actorID in
  validateActor actor = Ok tt <-> acts actorType actorID actor.
Proof.
  unfold validateActor, acts. rewrite check_ok, !rejectIf_ok, !text_guard. unfold normalizeActor.
  rewrite trim_default. simpl. tauto.
Qed.

Lemma vetted_actor {A} (actorType actorID : string) (f : string * string -> Eff World A)
    (Q : Call -> Prop) :
  (forall k, Q k -> exists actor, acts actorType actorID actor) ->
  (forall actor, acts actorType actorID actor -> vetted (f actor) Q) ->
  vetted (bind (checked_actor actorType actorID) f) Q.
Proof.
  intros HQ Hf. set (actor := normalizeActor actorType actorID).
  pose proof (actor_guards actorType actorID) as Ha. fold actor in Ha.
  unfold checked_actor, bind, lift. fold actor. destruct (validateActor actor) as [[]|e] eqn:Hv.
  - apply Hf. by apply Ha.
  - right. split; [|by exists e]. intros k Hk.
    destruct (HQ k Hk) as (actor' & Ha'). assert (Hsame : actor' = actor).
    { destruct Ha' as [-> _]. unfold actor, normalizeActor. by rewrite trim_default. }
    rewrite Hsame in Ha'. apply Ha in Ha'. congruence.
Qed.

Let s : Service World := service_of r.

Lemma assignable_spec (role : RoleRef) : roleAssignable role = true <-> assignable role.
Proof.
  unfold roleAssignable, assignable. rewrite !andb_true_iff, !negb_true_iff, !is_empty_iff. tauto.
Qed.

Lemma assessed (task : Task) : assesses task (validateAssignee s task).
Proof.
  unfold assesses, validateAssignee. simpl. destruct (CurrentRevision _ _); [|done]. simpl. fold roles.
  destruct (roles (task_OrganizationID task) (task_AssignedRoleID task)) as [role|[]]; try done; [|by eexists].
  setoid_rewrite <- assignable_spec.
  destruct (negb (roleAssignable role) || _) eqn:Hb; do 2 eexists; (split; [reflexivity|]).
  - split; [done|]. intros [Hr Hu]. by rewrite Hr, (bool_decide_eq_true_2 _ Hu) in Hb.
  - apply orb_false_iff in Hb as [Hr Hu].
    by rewrite negb_false_iff in Hr; rewrite negb_false_iff, bool_decide_eq_true in Hu.
Qed.

Lemma gauged (task : Task) : gauges task (checkCapacity s task).
Proof. unfold gauges, checkCapacity. simpl. by destruct (req_Gate r). Qed.

Lemma assesses_error (task : Task) (check : AssigneeCheck) (e : Error) :
  assesses task (Ok check) -> assesses task (Err e) -> False.
Proof.
  unfold assesses. destruct (CurrentRevision _ _); [|done].
  destruct (roles (task_OrganizationID task) (task_AssignedRoleID task)) as [role|[]]; try done.
  - by intros _ (? & ? & ? & _).
  - by intros _ [? ?].
Qed.

Lemma vetted_task {A} (id : Z) (f : TaskDetail -> Eff World A) (Q : Call -> Prop) :
  (forall k, Q k -> exists task, db_tasks (w_db w) !! id = Some task) ->
  (forall detail task, db_tasks (w_db w) !! id = Some task -> detail_Task detail = task ->
     vetted (f detail) Q) ->
  vetted (bind (p_GetTask (persistence s) id) f) Q.
Proof.
  intros HQ Hf. destruct (db_tasks (w_db w) !! id) as [task|] eqn:Ht.
  - eapply vetted_run; [|by eapply (Hf (mkTaskDetail task _ _ _ _ _) task)].
    unfold bind at 1. simpl. unfold GetTask, bind, get_db. by rewrite Ht.
  - right. split; [intros k Hk; by destruct (HQ k Hk)|]. exists ErrNotFound.
    unfold bind at 1. simpl. unfold GetTask, bind, get_db. by rewrite Ht.
Qed.

(** The task a command names, and what the catalog says of its assignee. *)
Lemma vetted_assessment {A} (id : Z) (f : AssigneeCheck -> Eff World A) (Q : Call -> Prop) :
  (forall k, Q k -> exists task check, db_tasks (w_db w) !! id = Some task /\ assesses task (Ok check)) ->
  (forall task check, db_tasks (w_db w) !! id = Some task -> assesses task (Ok check) ->
     vetted (f check) Q) ->
  vetted (let! detail := p_GetTask (persistence s) id in
          let! check := lift (validateAssignee s (detail_Task detail)) in f check) Q.
Proof.
  intros HQ Hf. apply vetted_task; [intros k Hk; destruct (HQ k Hk) as (task & _ & ? & _); by exists task|].
  intros detail task Ht ->. apply vetted_lift.
  - intros e He k Hk. destruct (HQ k Hk) as (task' & check & Ht' & Hc).
    eapply assesses_error; [exact Hc|]. rewrite Ht in Ht'. injection Ht' as <-. rewrite <- He.
    apply assessed.
  - intros check Hc. apply (Hf task); [done|]. rewrite <- Hc. apply assessed.
Qed.

Lemma claim_stored (c : ClaimRequest) : normalize_claim s c = stored_claim c (claim_BatchSize c).
Proof. unfold normalize_claim, default_org. by rewrite trim_default, int_default. Qed.

Lemma claim_guards (c : ClaimRequest) : check_claim_identity c = Ok tt <-> names_claim c.
Proof.
  unfold check_claim_identity, names_claim.
  by rewrite !check_ok, !rejectIf_ok, text_guard, form_guard, pattern_spec, Z.ltb_ge.
Qed.

Lemma duration_guard (c : ClaimRequest) :
  check_lease_duration s c = Ok tt <-> leasable (claim_LeaseDuration c).
Proof.
  unfold check_lease_duration, leasable. simpl. by rewrite rejectIf_ok, orb_false_iff, Z.leb_gt, Z.ltb_ge.
Qed.

Lemma lease_guards (c : LeaseCommand) (heartbeat : bool) :
  validateLeaseCommand s c heartbeat = Ok tt
  <-> names_lease c /\ (heartbeat = true -> leasable (lcmd_Extension c)).
Proof.
  unfold validateLeaseCommand, names_lease, leasable. simpl. rewrite !check_ok, !rejectIf_ok, !orb_false_iff,
    andb_false_iff, orb_false_iff, !blank_guard, !Z.leb_gt, !Z.ltb_ge. destruct heartbeat; naive_solver.
Qed.

Lemma disposition_guards (d : OutboxDisposition) (text : string) (b : bool) :
  validateOutboxDisposition (mkOutboxDisposition (disp_EventID d) (disp_ClaimToken d)
    (TrimSpace (disp_ConsumerID d)) text) b = Ok tt
  <-> names_disposition d /\ (b = true -> nonblank text) /\ len text <= 4000.
Proof.
  unfold validateOutboxDisposition, names_disposition. simpl.
  rewrite !check_ok, !rejectIf_ok, !orb_false_iff, andb_false_iff, !blank_guard, !Z.leb_gt, Z.ltb_ge.
  unfold nonblank. rewrite TrimSpace_idempotent. destruct b; naive_solver.
Qed.

Lemma nonblank_length (max : Z) (x : string) :
  nonblank (TrimSpace x) /\ len (TrimSpace x) <= max <-> length_between 1 max (TrimSpace x).
Proof.
  unfold nonblank, length_between. rewrite TrimSpace_idempotent, <- len_zero.
  pose proof (len_nonneg (TrimSpace x)). lia.
Qed.

#[local] Arguments TrimSpace : simpl never.

(** What is admitted demands the condition of a guard. *)
Ltac demanded := let k := fresh "k" in let Hk := fresh "Hk" in intros k Hk; cbn in Hk |- *; naive_solver.

Tactic Notation "guarded" constr(P) := apply (vetted_guard P); [guard_iff|demanded|intros ?].
Tactic Notation "served" := by eapply vetted_call; [naive_solver| |].

(** The call is made with what the catalog and the gate say of every task. *)
Ltac asked :=
  eapply vetted_call;
  [ repeat (split; [done|]); exists (validateAssignee s), (checkCapacity s);
    repeat split; [apply assessed|apply gauged]
  | done | done ].

(** The commands about a task. *)
Lemma commands_vetted (c : ServiceCall) :
  match c with
  | SvFinalize _ | SvBlock _ | SvCancel _ | SvUnblock _ | SvRelease _ | SvAddDependency _
  | SvAddRequirement _ => vetted (serve s c) (admits c)
  | _ => True
  end.
Proof.
  destruct c; try exact I; apply vetted_discard; cbn [admits].
  - unfold Service_ReleaseCoordinationHold. guarded (0 < release_TaskID c).
    apply vetted_actor; [demanded|intros actor Ha]. apply vetted_assessment; [demanded|].
    intros task check Ht Hc. served.
  - unfold Service_AddDependency. guarded (0 < adddep_TaskID c /\ 0 < adddep_DependsOnID c).
    guarded (adddep_TaskID c <> adddep_DependsOnID c).
    apply vetted_actor; [demanded|intros actor Ha]. served.
  - unfold Service_AddRequirement. guarded (0 < addreq_TaskID c).
    eapply vetted_check; [apply ValidateRequirementSpec_ok|demanded|intros ?].
    apply vetted_actor; [demanded|intros actor Ha]. served.
  - unfold FinalizeTask. guarded (0 < fin_TaskID c).
    apply vetted_actor; [demanded|intros actor Ha].
    apply (vetted_step (explained (fin_Outcome c) (fin_ReasonCode c) (fin_Reason c)));
      [|demanded|intros ?; served].
    destruct (fin_Outcome c); simpl; first [by left | by right; split; [intros []|eexists] | apply guard_cases; guard_iff].
  - unfold BlockTask.
    guarded (0 < block_TaskID c /\ nonblank (block_ReasonCode c) /\ nonblank (block_Reason c)).
    apply vetted_actor; [demanded|intros actor Ha]. served.
  - unfold UnblockTask. guarded (0 < unblock_TaskID c).
    apply vetted_actor; [demanded|intros actor Ha]. apply vetted_assessment; [demanded|].
    intros task check Ht Hc. served.
  - unfold CancelTask.
    guarded (0 < cancel_TaskID c /\ nonblank (cancel_ReasonCode c) /\ nonblank (cancel_Reason c)).
    apply vetted_actor; [demanded|intros actor Ha]. served.
Qed.

(** Evidence and verifications. *)
Lemma evidence_guards (c : RecordEvidenceCommand) :
  ValidateEvidence c = Ok tt
  <-> 0 < evcmd_TaskID c
      /\ match evcmd_RequirementID c with Some id => 0 < id | None => evcmd_Satisfies c = false end
      /\ RequirementTypeValid (evcmd_Type c) = true
      /\ length_between 1 2048 (TrimSpace (evcmd_Reference c))
      /\ empty_or digestPattern (evcmd_Digest c)
      /\ length_between 1 200 (TrimSpace (evcmd_RecordedBy c))
      /\ len (env_json_marshal (JObj (evcmd_Metadata c))) <= 65536.
Proof.
  unfold ValidateEvidence. rewrite !check_ok, !rejectIf_ok, form_guard, !between_spec, !negb_false_iff,
    Z.leb_gt, Z.ltb_ge.
  destruct (evcmd_RequirementID c); simpl; rewrite ?Z.leb_gt, ?andb_false_iff; unfold length_between; naive_solver.
Qed.

Lemma evidence_vetted (c : ServiceCall) :
  match c with
  | SvRecordEvidence _ | SvRecordVerification _ => vetted (serve s c) (admits c)
  | _ => True
  end.
Proof.
  destruct c; try exact I; apply vetted_discard; cbn [admits].
  - unfold Service_RecordEvidence.
    eapply vetted_check; [apply evidence_guards|simpl; rewrite !TrimSpace_idempotent; demanded|].
    simpl. rewrite !TrimSpace_idempotent. intros ?. served.
  - unfold Service_RecordRequirementVerification; simpl.
    guarded (0 < vcmd_TaskID c /\ 0 < vcmd_RequirementID c).
    apply (vetted_guard (forall text, vcmd_Result c <> RequirementVerificationOther text));
      [destruct (vcmd_Result c) as [| |text]; split; try done; intros Hr; by destruct (Hr text)|demanded|intros ?].
    apply (vetted_guard (length_between 1 2048 (TrimSpace (vcmd_Reference c))
      /\ length_between 1 200 (TrimSpace (vcmd_RecordedBy c)))); [|demanded|intros ?].
    { rewrite <- orb_assoc, orb_false_iff, !text_guard. done. }
    guarded (empty_or digestPattern (TrimSpace (vcmd_Digest c))). served.
Qed.

(** The queue and the reconciler. *)
Lemma queue_vetted (c : ServiceCall) :
  match c with
  | SvClaimTasks _ | SvClaimTaskByID _ _ | SvStartAttempt _ | SvHeartbeat _ | SvRecordAttemptResult _
  | SvReconcile _ => vetted (serve s c) (admits c)
  | _ => True
  end.
Proof.
  destruct c; try exact I; apply vetted_discard; cbn [admits].
  - unfold ClaimTasks. rewrite claim_stored, int_default.
    eapply vetted_check; [apply claim_guards|demanded|intros ?].
    guarded (1 <= default_to 1 (claim_BatchSize r0) <= 32).
    eapply vetted_check; [apply duration_guard|demanded|intros ?]. asked.
  - unfold ClaimTaskByID. rewrite claim_stored. guarded (0 < id).
    eapply vetted_check; [apply claim_guards|demanded|intros ?].
    eapply vetted_check; [apply duration_guard|demanded|intros ?]. asked.
  - unfold Service_StartAttempt. eapply vetted_check; [apply lease_guards|demanded|].
    intros [? _]. served.
  - unfold Service_Heartbeat. rewrite int_default.
    eapply vetted_check; [apply lease_guards|demanded|]. simpl. intros [? ?]. served.
  - unfold Service_RecordAttemptResult. eapply vetted_check; [apply lease_guards|demanded|].
    intros [? _].
    apply (vetted_step (reported (result_Outcome (rcmd_Result c))
      (TrimSpace (result_FailureCode (rcmd_Result c))))); [|demanded|intros ?].
    { destruct (result_Outcome (rcmd_Result c)); simpl;
        first [by left | by right; split; [intros []|eexists] | apply guard_cases].
      all: by rewrite ?is_empty_false, ?is_empty_iff. }
    guarded (len (TrimSpace (result_Summary (rcmd_Result c))) <= 4000
      /\ len (TrimSpace (result_FailureCode (rcmd_Result c))) <= 120). served.
  - unfold Service_Reconcile. rewrite int_default. guarded (1 <= default_to 100 batch <= 1000).
    asked.
Qed.

(** The outbox. *)
Lemma outbox_vetted (c : ServiceCall) :
  match c with
  | SvClaimOutbox _ | SvAckOutbox _ | SvNackOutbox _ | SvRecoverOutbox _ | SvPruneOutbox _ =>
      vetted (serve s c) (admits c)
  | _ => True
  end.
Proof.
  destruct c; try exact I; apply vetted_discard; cbn [admits].
  - unfold Service_ClaimOutbox; rewrite !int_default. simpl.
    guarded (length_between 1 200 (TrimSpace (oclaim_ConsumerID r0))).
    guarded (1 <= default_to 1 (oclaim_BatchSize r0) <= 32).
    guarded (leasable (default_to (cfg_OutboxClaimDuration config) (oclaim_ClaimDuration r0))). served.
  - unfold Service_AckOutbox. eapply vetted_check; [apply disposition_guards|demanded|].
    intros (? & _ & ?). served.
  - unfold Service_NackOutbox. eapply vetted_check; [apply disposition_guards| |].
    { intros k (Hd & Hl & _). apply nonblank_length in Hl as [Hn Hl]. done. }
    intros (? & Hn & ?). assert (length_between 1 4000 (TrimSpace (disp_Error d)))
      by (by apply nonblank_length; split; [apply Hn|]). served.
  - unfold Service_RecoverOutbox. rewrite int_default. guarded (1 <= default_to 100 batch <= 1000). served.
  - unfold Service_PruneOutbox.
    apply (vetted_guard (24 * Hour <= prune_OlderThan r0)); [by rewrite Z.ltb_ge| |intros Hday].
    { intros k (Hfloor & _). assert (0 < Hour) by done. destruct (prune_IncludePending r0); lia. }
    apply (vetted_guard (prune_IncludePending r0 = true -> 30 * 24 * Hour <= prune_OlderThan r0)).
    { rewrite andb_false_iff, Z.ltb_ge. unfold minOlderThanForPending.
      destruct (prune_IncludePending r0); naive_solver. }
    { by intros k (Hfloor & _) Hp; rewrite Hp in Hfloor. }
    intros Hmonth. apply (vetted_guard (prune_IncludePublished r0 = true \/ prune_IncludeDead r0 = true
      \/ prune_IncludePending r0 = true)); [|demanded|intros ?].
    { rewrite !andb_false_iff, !negb_false_iff. tauto. }
    assert (Hl : (if prune_Limit r0 <=? 0 then 1000 else prune_Limit r0)
      = if decide (0 < prune_Limit r0) then prune_Limit r0 else 1000).
    { destruct (Z.leb_spec (prune_Limit r0) 0); case_decide; lia. }
    rewrite Hl. apply (vetted_guard ((if decide (0 < prune_Limit r0) then prune_Limit r0 else 1000)
      <= 10000)); [apply Z.ltb_ge|demanded|intros ?].
    eapply vetted_call; [split; [|done]|..]; [|done..].
    destruct (prune_IncludePending r0); [by apply Hmonth|done].
Qed.

(** Creations. *)
Lemma request_stored (c : CreateRequest) : prepared_request s c = stored_request c.
Proof.
  unfold prepared_request, stored_request, NormalizeCreateRequest, default_org, NormalizeAvailableAt. simpl.
  by rewrite trim_default, int_default.
Qed.

Lemma initial_born (c : CreateRequest) (status : Status) (code reason : string) :
  initial_status c = (status, code, reason) -> born c status code reason.
Proof.
  unfold initial_status, born. destruct (create_HoldForCoordination c); [by intros [= <- <- <-]|].
  case_bool_decide as Hd; simpl; [|intros [= <- <- <-]; auto].
  destruct (create_AvailableAt c); simpl; intros [= <- <- <-]; split_and!; auto.
Qed.

Lemma class_of (c : CreateRequest) :
  (if negb (is_empty (create_TaskClass c)) then stored_request c
   else with_class (stored_request c) TaskClassGeneralWork)
  = with_class (stored_request c)
      (if decide (create_TaskClass c = EmptyString) then TaskClassGeneralWork else create_TaskClass c).
Proof. unfold is_empty. by case_bool_decide; case_decide. Qed.

Lemma prepared_prepares (c : CreateRequest) (actorType actorID : string) (input : PreparedCreate) :
  prepareCreate s c actorType actorID = Ok input -> prepares c actorType actorID input.
Proof.
  unfold prepareCreate. rewrite request_stored. intros Hp.
  apply rbind_ok in Hp as ([] & Hval & Hp). apply requests_are_validated in Hval.
  apply rbind_ok in Hp as ([] & Hact & Hp). apply actor_guards in Hact.
  change (create_TaskClass (stored_request c)) with (create_TaskClass c) in Hp. rewrite class_of in Hp.
  apply rbind_ok in Hp as (revision & Hrev & Hp). apply rbind_ok in Hp as (role & Hrole & Hp).
  apply rbind_ok in Hp as ([] & Hass & Hp). apply rejectIf_ok, negb_false_iff, assignable_spec in Hass.
  apply rbind_ok in Hp as ([] & Hreq & Hp). apply rbind_ok in Hp as (hash & Hhash & Hp).
  destruct (initial_status _) as [[initial code] reason] eqn:Hi in Hp. apply initial_born in Hi.
  injection Hp as <-. unfold prepares. simpl in *. split_and!; try done; try by eexists.
  - intros Hq. apply is_empty_iff in Hq. rewrite Hq in Hreq.
    apply rbind_ok in Hreq as (requester & Hr & Hret). apply rejectIf_ok in Hret. by exists requester.
  - rewrite negb_true_iff. apply is_empty_iff.
Qed.

Lemma prepares_prepared (c : CreateRequest) (actorType actorID : string) (input : PreparedCreate) :
  prepares c actorType actorID input -> exists input', prepareCreate s c actorType actorID = Ok input'.
Proof.
  intros (Hval & (actor & Hact & _) & (revision & Hrev & _) & (role & Hrole & Hass & _) & Hreq & Hr & _
    & _ & Hhash & _). unfold prepareCreate. rewrite request_stored.
  apply requests_are_validated in Hval. rewrite Hval. simpl.
  assert (Ha : actor = normalizeActor actorType actorID).
  { destruct Hact as [-> _]. unfold normalizeActor. by rewrite trim_default. }
  rewrite Ha in Hact. apply actor_guards in Hact. rewrite Hact. simpl.
  change (create_TaskClass (stored_request c)) with (create_TaskClass c). rewrite class_of. simpl.
  simpl in Hrev, Hrole. rewrite Hrev. simpl. unfold roles in Hrole. rewrite Hrole. simpl.
  apply assignable_spec in Hass. rewrite Hass. simpl.
  rewrite Hr in Hhash. rewrite Hhash.
  destruct (is_empty (TrimSpace (create_RequestedByRoleID c))) eqn:Hq; simpl.
  - destruct (initial_status _) as [[? ?] ?]. by eexists.
  - apply is_empty_iff in Hq. destruct (Hreq Hq) as (requester & Hr' & Hret). simpl in Hr'. unfold roles in Hr'.
    rewrite Hr'. simpl. rewrite Hret. simpl. destruct (initial_status _) as [[? ?] ?]. by eexists.
Qed.

Lemma creation_vetted (c : CreateRequest) (actorType actorID : string) :
  vetted (serve s (SvCreateTask c actorType actorID)) (admits (SvCreateTask c actorType actorID)).
Proof.
  apply vetted_discard. unfold CreateTask. apply vetted_lift.
  - intros e He k (input & Hp & _). apply prepares_prepared in Hp as (input' & Hp). congruence.
  - intros input Hp. apply (vetted_call _ _ (CallCreate input)); [|by eapply prepareCreate_creatable|done].
    exists input. split; [by apply prepared_prepares|done].
Qed.

Lemma vetted_letter {A} (id : Z) (f : DeadLetter -> Eff World A) (Q : Call -> Prop) :
  0 < id -> (forall k, Q k -> exists l, db_dead_letters (w_db w) !! id = Some l) ->
  (forall l, db_dead_letters (w_db w) !! id = Some l -> vetted (f l) Q) ->
  vetted (bind (Service_GetDeadLetter s id) f) Q.
Proof.
  intros Hid HQ Hf. unfold Service_GetDeadLetter. replace (id <=? 0) with false by lia.
  destruct (db_dead_letters (w_db w) !! id) as [l|] eqn:Hl.
  - apply vetted_run with (f l); [|by apply Hf].
    unfold bind at 1 2. simpl. unfold GetDeadLetter, bind, get_db. by rewrite Hl.
  - right. split; [intros k Hk; by destruct (HQ k Hk)|]. exists ErrNotFound.
    unfold bind at 1 2. simpl. unfold GetDeadLetter, bind, get_db. by rewrite Hl.
Qed.

Lemma redrive_vetted (c : RedriveCommand) : vetted (serve s (SvRedrive c)) (admits (SvRedrive c)).
Proof.
  apply vetted_discard. unfold RedriveDeadLetter. guarded (0 < redrive_DeadLetterID c).
  apply (vetted_guard (TrimSpace (redrive_ObservedChange c) <> EmptyString));
    [apply is_empty_iff| |intros Hne].
  { intros k (_ & Hl & _) He. rewrite He in Hl. unfold length_between in Hl. simpl in Hl. unfold len in Hl. simpl in Hl. lia. }
  apply (vetted_guard (len (TrimSpace (redrive_ObservedChange c)) <= 500));
    [apply Z.ltb_ge|by intros k (_ & [_ Hl] & _)|intros Hlen].
  guarded (1 <= redrive_MaxRecoveryEpisodes c). simpl.
  set (successor := redrive_Successor c). apply vetted_letter; [done|demanded|intros letter Hletter].
  apply vetted_task; [|intros detail failed Hfailed ->].
  { intros k (_ & _ & _ & ? & failed & ? & Hl & Ht & _). rewrite Hletter in Hl. injection Hl as <-.
    by exists failed. }
  assert (Hk : forall k, admits (SvRedrive c) k -> task_OrganizationID failed = own
    /\ (create_OrganizationID successor = EmptyString \/ create_OrganizationID successor = own)
    /\ TrimSpace (create_IdempotencyKey successor) <> task_IdempotencyKey failed
    /\ exists input, prepares (successor_request successor own) (redrive_ActorType c)
         (redrive_ActorID c) input).
  { intros k (_ & _ & _ & l & t & input & Hl & Ht & Hq).
    rewrite Hletter in Hl. injection Hl as <-. rewrite Hfailed in Ht. injection Ht as <-. naive_solver. }
  apply (vetted_guard (task_OrganizationID failed = own));
    [by rewrite negb_false_iff, bool_decide_eq_true|by intros k Ha; apply Hk in Ha as [? _]|].
  intros Hown. simpl. fold successor. rewrite Hown.
  apply (vetted_guard (create_OrganizationID successor = EmptyString
    \/ create_OrganizationID successor = own)); [|by intros k Ha; apply Hk in Ha as (_ & ? & _)|].
  { rewrite negb_false_iff, bool_decide_eq_true. unfold successor_request, is_empty. simpl.
    case_bool_decide; simpl; tauto. }
  intros Horg. apply (vetted_guard (TrimSpace (create_IdempotencyKey successor)
    <> task_IdempotencyKey failed)); [|by intros k Ha; apply Hk in Ha as (_ & _ & ? & _)|].
  { rewrite bool_decide_eq_false. unfold successor_request. by destruct (is_empty _). }
  intros Hkey. apply vetted_lift.
  - intros e He k Ha. apply Hk in Ha as (_ & _ & _ & input & Hp).
    apply prepares_prepared in Hp as (input' & Hp). congruence.
  - intros input Hp. apply (vetted_call _ _ (CallRedrive (mkPreparedRedrive (redrive_DeadLetterID c)
      (redrive_MaxRecoveryEpisodes c) (TrimSpace (redrive_ObservedChange c)) input
      (prepared_ActorType input) (prepared_ActorID input) outbox))); [| |reflexivity].
    + simpl. pose proof (len_nonneg (TrimSpace (redrive_ObservedChange c))). rewrite <- len_zero in Hne.
      split_and!; try done; [unfold length_between; lia|].
      exists letter, failed, input. split_and!; try done. by apply prepared_prepares.
    + by eapply prepareCreate_creatable.
Qed.


(** Reads. *)
Lemma quiet {A} (m : Eff World A) : (forall w, snd (m w) = w) -> keeps_good (eq w) m.
Proof. intros Hm w' <-. by rewrite Hm. Qed.

Lemma reads_change_nothing (c : ServiceCall) : only_reads c = true -> snd (serve s c w) = w.
Proof.
  intros Hc. symmetry. apply (fun Hk : keeps_good (eq w) (serve s c) => Hk w eq_refl).
  destruct c; try done; apply keeps_bind; try (intros; apply keeps_ret).
  - apply keeps_bind; [apply keeps_throwIf|intros _]. apply keeps_bind; [|intros].
    + apply quiet. intros w'. simpl. unfold GetTask, bind, get_db. by destruct (db_tasks (w_db w') !! id).
    + apply keeps_bind; [apply keeps_throwIf|intros; apply keeps_ret].
  - unfold Service_ListTasks. repeat (apply keeps_bind; [by (apply keeps_throwIf || apply keeps_lift)|intros _]).
    by apply quiet.
  - unfold Service_ListEvents. repeat (apply keeps_bind; [apply keeps_throwIf|intros _]). by apply quiet.
  - unfold Service_ListAttempts. repeat (apply keeps_bind; [apply keeps_throwIf|intros _]). by apply quiet.
  - unfold Service_ListAttemptsPage. repeat (apply keeps_bind; [apply keeps_throwIf|intros _]). by apply quiet.
  - unfold Service_ListDeadLetters. repeat (apply keeps_bind; [apply keeps_throwIf|intros _]).
    apply keeps_bind; [by apply quiet|intros all]. apply keeps_foldM. intros kept l. apply quiet. intros w'.
    unfold keep_letter. simpl. unfold GetTask, bind, get_db. by destruct (db_tasks (w_db w') !! dead_TaskID l).
  - unfold Service_GetDeadLetter. repeat (apply keeps_bind; [apply keeps_throwIf|intros _]).
    apply quiet. intros w'. simpl. unfold GetDeadLetter, bind, get_db. by destruct (db_dead_letters (w_db w') !! id).
  - by apply quiet.
Qed.

Lemma request_vetted (c : ServiceCall) : only_reads c = false -> vetted (serve s c) (admits c).
Proof.
  intros Hc.
  pose proof (commands_vetted c); pose proof (evidence_vetted c); pose proof (queue_vetted c);
    pose proof (outbox_vetted c).
  destruct c; try done; [apply creation_vetted|apply redrive_vetted].
Qed.

End Admission.


(** ** Creation *)

Lemma initial_status_spec (r : CreateRequest) (initial : Status) (code reason : string) :
  initial_status r = (initial, code, reason) ->
  (initial = StatusBlocked <-> create_HoldForCoordination r = true)
  /\ (initial = StatusReady <-> create_HoldForCoordination r = false
      /\ create_Dependencies r = [] /\ create_AvailableAt r = None).
Proof.
  unfold initial_status. destruct (create_HoldForCoordination r).
  { intros [= <- _ _]. by split; split; [| |  |intros [? _]]. }
  case_bool_decide as Hd; simpl.
  - destruct (create_AvailableAt r); simpl; intros [= <- _ _]; split; split; try done.
    by intros (_ & _ & ?).
  - intros [= <- _ _]. split; split; try done. by intros (_ & ? & _).
Qed.

Lemma classified (s : Service World) (r : CreateRequest) :
  (if negb (is_empty (create_TaskClass r)) then prepared_request s r
   else with_class (prepared_request s r) TaskClassGeneralWork)
  = (if is_empty (create_TaskClass r) then with_class (prepared_request s r) TaskClassGeneralWork
     else prepared_request s r).
Proof. by destruct (is_empty (create_TaskClass r)). Qed.

(** A creation the service prepares has passed the validation after
    normalization and defaults, names a role that the catalog has and that is
    assignable, with that role's unit and the current revision, carries the hash of
    the request that will be stored and a non-empty class, and is born blocked by
    the hold if it asks for one, pending if it must wait for dependencies or a
    date, and ready otherwise. *)
Lemma creations_are_vetted (s : Service World) (request : CreateRequest)
    (actorType actorID : string) (input : PreparedCreate) :
  prepareCreate s request actorType actorID = Ok input ->
  let r := prepared_Request input in
  ValidateCreateRequest (prepared_request s request) = Ok tt
  /\ r = (if is_empty (create_TaskClass request)
          then with_class (prepared_request s request) TaskClassGeneralWork
          else prepared_request s request)
  /\ prepared_TaskClass input = create_TaskClass r /\ create_TaskClass r <> EmptyString
  /\ (prepared_TaskClassExplicit input = true <-> create_TaskClass request <> EmptyString)
  /\ HashCreateRequest r = Ok (prepared_RequestHash input)
  /\ (exists revision role,
        CurrentRevision (catalog s) (create_OrganizationID r) = Ok revision
        /\ GetRole (catalog s) (create_OrganizationID r) (create_AssignedRoleID r) = Ok role
        /\ roleAssignable role = true
        /\ prepared_OrganizationRevisionID input = revision_ID revision
        /\ prepared_AssignedUnitID input = role_UnitID role)
  /\ validateActor (prepared_ActorType input, prepared_ActorID input) = Ok tt
  /\ (prepared_InitialStatus input = StatusBlocked <-> create_HoldForCoordination r = true)
  /\ (prepared_InitialStatus input = StatusReady <->
      create_HoldForCoordination r = false /\ create_Dependencies r = []
      /\ create_AvailableAt r = None).
Proof.
  intros Hp r. unfold prepareCreate in Hp.
  apply rbind_ok in Hp as (u1 & Hval & Hp).
  apply rbind_ok in Hp as (u2 & Hact & Hp).
  apply rbind_ok in Hp as (revision & Hrev & Hp).
  apply rbind_ok in Hp as (role & Hrole & Hp).
  apply rbind_ok in Hp as (u3 & Hass & Hp). apply rejectIf_ok, negb_false_iff in Hass.
  apply rbind_ok in Hp as (u4 & _ & Hp).
  apply rbind_ok in Hp as (hash & Hhash & Hp).
  destruct u1, u2, (initial_status _) as [[initial code] reason] eqn:Hi in Hp.
  apply initial_status_spec in Hi as [Hblocked Hready].
  injection Hp as <-. subst r.
  cbn [prepared_Request prepared_TaskClass prepared_TaskClassExplicit prepared_RequestHash
    prepared_OrganizationRevisionID prepared_AssignedUnitID prepared_ActorType prepared_ActorID
    prepared_InitialStatus].
  change (create_TaskClass (prepared_request s request)) with (create_TaskClass request) in *.
  rewrite classified in *. split_and!; try done.
  - destruct (is_empty (create_TaskClass request)) eqn:He; [done|]. by apply is_empty_iff.
  - rewrite negb_true_iff. apply is_empty_iff.
  - by exists revision, role.
Qed.

(** ** Organizations *)

Section Boundary.
Variables (s : Service World) (locks : Locks).
Hypothesis store : persistence s = pgStore locks.

(** The task of a letter is the service's. *)
Definition own_letter (d : DB) (l : DeadLetter) : bool :=
  match db_tasks d !! dead_TaskID l with
  | Some t => bool_decide (task_OrganizationID t = cfg_OrganizationID (cfg s))
  | None => false
  end.

Lemma GetTask_run (id : Z) (w : World) :
  p_GetTask (persistence s) id w
  = (match db_tasks (w_db w) !! id with
     | None => Err ErrNotFound
     | Some task =>
         let d := w_db w in
         Ok (mkTaskDetail task (listDependencyTasks id d) (listRequirements id d)
               (listEvidence id d) (attempts_of id d)
               (row_Lease <$> head (active_leases id d)))
     end, w).
Proof.
  rewrite store. cbn [p_GetTask pgStore]. unfold GetTask, bind, get_db.
  by destruct (db_tasks (w_db w) !! id).
Qed.

Lemma keep_letter_run (kept : list DeadLetter) (x : DeadLetter) (w : World) :
  keep_letter s kept x w = (Ok (if own_letter (w_db w) x then kept ++ [x] else kept), w).
Proof.
  unfold keep_letter, own_letter. rewrite GetTask_run.
  by destruct (db_tasks (w_db w) !! dead_TaskID x).
Qed.

Lemma keep_letters (l kept : list DeadLetter) (w : World) :
  foldM (keep_letter s) kept l w
  = (Ok (kept ++ filter (fun x => own_letter (w_db w) x = true) l), w).
Proof.
  revert kept. induction l as [|x l IH]; intros kept; cbn [foldM].
  - by rewrite app_nil_r.
  - unfold bind. rewrite keep_letter_run. rewrite filter_cons, IH.
    destruct (decide (own_letter (w_db w) x = true)) as [Hx|Hx].
    + by rewrite Hx, <- app_assoc.
    + by apply not_true_is_false in Hx as ->.
Qed.

(** GetTask and ListDeadLetters answer with rows of the service's own
    organization only; the list is the newest letters, cut at the limit first and
    restricted to the organization afterwards; a redrive that succeeds recovers a
    letter whose task is the organization's own. *)
Lemma reads_stay_in_the_organization (w w' : World) :
  (forall id detail, Service_GetTask s id w = (Ok detail, w') ->
     task_OrganizationID (detail_Task detail) = cfg_OrganizationID (cfg s)
     /\ db_tasks (w_db w) !! id = Some (detail_Task detail))
  /\ (forall limit letters, Service_ListDeadLetters s limit w = (Ok letters, w') ->
     letters = filter (fun l => own_letter (w_db w) l = true)
       (page (default_int 100 limit) 0 (order_by (newest dead_CreatedAt dead_ID)
          (rows (fun _ => true) (db_dead_letters (w_db w))))))
  /\ (forall c r, RedriveDeadLetter s c w = (Ok r, w') ->
     exists l, db_dead_letters (w_db w) !! redrive_DeadLetterID c = Some l
       /\ own_letter (w_db w) l = true).
Proof.
  split; [|split].
  - intros id detail Hm. skip Hm. next Hm w1 H1. rewrite GetTask_run in H1.
    skip Hm as Ho. apply ret_ok in Hm as [-> ->]. apply negb_false_iff, bool_decide_eq_true in Ho.
    destruct (db_tasks (w_db w) !! id) as [t|]; [|done]. injection H1 as <- _. done.
  - intros limit letters Hm. skip Hm. rewrite store in Hm. next Hm w1 H1. injection H1 as <- <-.
    rewrite keep_letters in Hm. by injection Hm as <- _.
  - intros c r Hm. do 4 skip Hm. destruct (p_Redrive (persistence s)) as [redriver|]; [|done].
    next Hm w1 H1. next Hm w2 H2. skip Hm as Ho. apply negb_false_iff, bool_decide_eq_true in Ho.
    unfold Service_GetDeadLetter in H1. skip H1. rewrite store in H1.
    cbn [p_GetDeadLetter pgStore] in H1. unfold GetDeadLetter in H1. skip H1.
    destruct (db_dead_letters (w_db w) !! redrive_DeadLetterID c) as [l|]; [|done].
    apply ret_ok in H1 as [-> ->]. exists l. split; [done|]. rewrite GetTask_run in H2.
    unfold own_letter. destruct (db_tasks (w_db w) !! dead_TaskID l) as [t|]; [|done].
    injection H2 as <- _. by apply bool_decide_eq_true.
Qed.

(** A guard in front of a program that ends in one of the errors. *)
Definition refused {A} (w : World) (m : Eff World A) : Prop :=
  m w = (Err ErrInvalidInput, w) \/ m w = (Err ErrNotFound, w).

Lemma guard_refused {A} (b : bool) (m : Eff World A) (w : World) :
  refused w m -> refused w (do! throwIf b ErrInvalidInput in m).
Proof. intros Hm. destruct b; [by left|exact Hm]. Qed.

(** A dead letter whose task belongs to another organization is handed out by
    GetDeadLetter all the same; GetTask does not find its task, and a redrive of it
    is refused, before anything is written, by the read of its task. *)
Lemma letters_are_read_unscoped (w : World) (id : Z) (l : DeadLetter) (t : Task) :
  0 < id -> db_dead_letters (w_db w) !! id = Some l ->
  0 < dead_TaskID l -> db_tasks (w_db w) !! dead_TaskID l = Some t ->
  task_OrganizationID t <> cfg_OrganizationID (cfg s) ->
  Service_GetDeadLetter s id w = (Ok l, w)
  /\ Service_GetTask s (dead_TaskID l) w = (Err ErrNotFound, w)
  /\ forall c, redrive_DeadLetterID c = id -> refused w (RedriveDeadLetter s c).
Proof.
  intros Hid Hl Hd Ht Ho.
  assert (Hget : Service_GetDeadLetter s id w = (Ok l, w)).
  { unfold Service_GetDeadLetter, bind, throwIf. replace (id <=? 0) with false by lia.
    rewrite store. cbn [p_GetDeadLetter pgStore ret]. unfold GetDeadLetter, bind, get_db.
    by rewrite Hl. }
  split; [exact Hget|]. split.
  - unfold Service_GetTask, bind, throwIf. replace (dead_TaskID l <=? 0) with false by lia.
    cbn [ret]. rewrite GetTask_run, Ht. cbn [detail_Task]. by rewrite bool_decide_eq_false_2.
  - intros c <-. unfold RedriveDeadLetter. do 4 apply guard_refused.
    rewrite store at 1. cbn [p_Redrive pgStore]. right. unfold bind.
    rewrite Hget, GetTask_run, Ht. cbn [detail_Task]. by rewrite bool_decide_eq_false_2.
Qed.

End Boundary.

End Service.

(** ** Witnesses *)

Local Existing Instance demo.
Local Existing Instance demo_policy.

Definition demo_catalog : Catalog :=
  mkCatalog (fun _ => Ok (mkRevisionRef 7))
    (fun _ role => if String.eqb role "eng/dev" then Ok (mkRoleRef "eng/dev" "eng" true true false)
                   else Err ErrNotFound).

Definition demo_config (organization : string) : Config :=
  mkConfig organization 3 (60 * Second) (10 * Minute) demo_policy_retry 10 (30 * Second).

Definition all_unlocked : Locks := fun _ => unlocked.

Definition demo_service (organization : string) : Service World :=
  mkService World (pgStore all_unlocked) demo_catalog (demo_config organization) None.

Definition demo_requests : list Request :=
  mkRequest demo_catalog (demo_config "acme") None all_unlocked
  <$> [SvCreateTask (demo_request " k1 " []) "" "alice";
       SvCreateTask (demo_request "k2" [1]) "human" "alice";
       SvClaimTasks (mkClaimRequest "" " worker-1 " "" "" 0 0);
       SvStartAttempt (demo_lease 1 "token-0")].

Definition demo_block : BlockCommand :=
  mkBlockCommand 1 " needs_input " "waiting for an answer" true "" "alice".


Lemma creations_are_vetted_witness :
  exists input, prepareCreate (demo_service "acme") (demo_request " k1 " []) "" "alice" = Ok input
    /\ ValidateCreateRequest (prepared_request (demo_service "acme") (demo_request " k1 " []))
       = Ok tt.
Proof.
  destruct (prepareCreate (demo_service "acme") (demo_request " k1 " []) "" "alice")
    as [input|e] eqn:Hp; [|vm_compute in Hp; discriminate].
  exists input. split; [reflexivity|].
  exact (proj1 (creations_are_vetted (demo_service "acme") _ _ _ input Hp)).
Defined.

Lemma reads_stay_in_the_organization_witness :
  exists detail w', Service_GetTask (demo_service "acme") 1 world_dead = (Ok detail, w')
    /\ task_OrganizationID (detail_Task detail) = "acme"%string.
Proof.
  destruct (ok_run (fun _ => true) (Service_GetTask (demo_service "acme") 1) world_dead)
    as (detail & w' & Hrun & _); [vm_compute; reflexivity|].
  exists detail, w'. split; [exact Hrun|].
  exact (proj1 (proj1 (reads_stay_in_the_organization (demo_service "acme") all_unlocked eq_refl
    world_dead w') 1 detail Hrun)).
Defined.

Lemma letters_are_read_unscoped_witness :
  exists l, Service_GetDeadLetter (demo_service "other") 1 world_dead = (Ok l, world_dead)
    /\ Service_GetTask (demo_service "other") (dead_TaskID l) world_dead
       = (Err ErrNotFound, world_dead).
Proof.
  destruct (db_dead_letters (w_db world_dead) !! 1) as [l|] eqn:Hl;
    [|vm_compute in Hl; discriminate].
  assert (Hid : dead_TaskID l = 1) by (vm_compute in Hl; injection Hl as <-; reflexivity).
  exists l. destruct (db_tasks (w_db world_dead) !! dead_TaskID l) as [t|] eqn:Ht;
    [|rewrite Hid in Ht; vm_compute in Ht; discriminate].
  destruct (letters_are_read_unscoped (demo_service "other") all_unlocked eq_refl world_dead 1 l t)
    as (H1 & H2 & _); [reflexivity|exact Hl|rewrite Hid; reflexivity|exact Ht| |by split].
  rewrite Hid in Ht. vm_compute in Ht. injection Ht as <-. discriminate.
Defined.
