(* ===== verification/SpendDB.v ===== *)
(** * The spending subsystem's data

    The records and tables of internal/modelpricing, internal/costledger and
    internal/agentbudget (migrations 000020 to 000027, 000030, 000037, 000039
    and 000060), the errors of the three packages, and transactions on the
    tables.  Money is a [USDNanos], an int64 count of 1e-9 dollars. *)

From stdpp Require Import base tactics list gmap strings sorting.
From Stdlib Require Import ZArith Lia.
From S2P Require Import Prelude GoLib TaskDomain Database.

Local Open Scope Z_scope.

Notation USDNanos := Z (only parsing).

(** ** Errors

    The sentinels of the packages; [ErrSQL code] is an unclassified error of
    PostgreSQL, [ErrProgramPolicy] any unnamed error of programbudget,
    [ErrTaskStore e] an error of the task store, [ErrJoined] what errors.Join
    makes. *)
Inductive SpendError : Type :=
| ErrInvalidPriceTier
| ErrNoPricingResolved
| ErrPricingConflict
| ErrWalletNotFound
| ErrInsufficientBalance
| ErrReservationNotFound
| ErrInvalidLedgerRequest
| ErrAlreadyTerminal
| ErrAmountMismatch
| ErrProgramBudgetExceeded
| ErrInvalidBudgetRequest
| ErrBudgetNotFound
| ErrBudgetExceeded
| ErrParentExhausted
| ErrBudgetConflict
| ErrProgramPolicy
| ErrProviderWalletNotProvisioned
| ErrTaskStore (e : Error)
| ErrJoined (first second : SpendError)
| ErrSQL (code : string).

#[export] Instance SpendError_eq_dec : EqDecision SpendError.
Proof. solve_decision. Defined.

(** ** Pricing *)

(** The Go type is a string: a value outside the two constants is
    [BillingOther]. *)
Inductive BillingMode : Type := BillingOnline | BillingBatch | BillingOther (s : string).

#[export] Instance BillingMode_eq_dec : EqDecision BillingMode.
Proof. solve_decision. Defined.

Definition BillingModeValid (m : BillingMode) : bool :=
  match m with BillingOnline | BillingBatch => true | BillingOther _ => false end.

Record PriceTier : Type := mkPriceTier {
  tier_ProviderID : string;
  tier_ProviderModelID : string;
  tier_ContextTierName : string;
  tier_MinInputTokens : Z;
  tier_InputPriceNanosPerMillion : USDNanos;
  tier_CachedInputPriceNanosPerMillion : option USDNanos;
  tier_CacheWritePriceNanosPerMillion : option USDNanos;
  tier_OutputPriceNanosPerMillion : USDNanos;
  tier_BillingMode : BillingMode;
  tier_EffectiveAt : Instant;
  tier_CreatedAt : Instant }.

(** ** Provider wallets *)

Record ProviderWallet : Type := mkProviderWallet {
  wallet_ProviderID : string;
  wallet_BalanceUSD : USDNanos;
  wallet_ReservedUSD : USDNanos;
  wallet_UpdatedAt : Instant;
  wallet_Version : Z }.

Definition Available (w : ProviderWallet) : USDNanos :=
  wrap64 (wallet_BalanceUSD w - wallet_ReservedUSD w).

Inductive EventKind : Type := EventReserved | EventCommitted | EventReleased.

#[export] Instance EventKind_eq_dec : EqDecision EventKind.
Proof. solve_decision. Defined.

(** A wallet event belongs to a chat invocation or to an embedding one: the
    columns invocation_id and embedding_invocation_id, of which a CHECK makes
    exactly one non-null. *)
Inductive Call : Type := ChatCall (invocationID : Z) | EmbeddingCall (embeddingInvocationID : Z).

#[export] Instance Call_eq_dec : EqDecision Call.
Proof. solve_decision. Defined.

Record WalletEvent : Type := mkWalletEvent {
  wevent_ID : Z;
  wevent_ProviderID : string;
  wevent_Call : Call;
  wevent_Kind : EventKind;
  wevent_AmountUSD : USDNanos;
  wevent_CreatedAt : Instant }.

(** cost_provenance and financial_outcome, the annotation of an event. *)
Inductive Annotation : Type :=
| ActualProviderReported
| ReleasedNotSent
| EstimatedPendingReconciliation
| SubscriptionResourceConsumed.

#[export] Instance Annotation_eq_dec : EqDecision Annotation.
Proof. solve_decision. Defined.

Record WalletEventRow : Type := mkWalletEventRow {
  wrow_Event : WalletEvent;
  wrow_Annotation : option Annotation }.

Inductive EmbeddingOperation : Type :=
| EmbeddingOperationRAGQuery
| EmbeddingOperationRAGReindex
| EmbeddingOperationMemoryPropose
| EmbeddingOperationMemorySearch
| EmbeddingOperationMemoryBackfill
| EmbeddingOperationOther (s : string).

Definition EmbeddingOperationValid (o : EmbeddingOperation) : bool :=
  match o with EmbeddingOperationOther _ => false | _ => true end.

Record EmbeddingInvocation : Type := mkEmbeddingInvocation {
  embedding_ID : Z;
  embedding_OrganizationID : string;
  embedding_ActorRoleID : string;
  embedding_TaskID : option Z;
  embedding_ProviderID : string;
  embedding_ProviderModelID : string;
  embedding_BillingMode : BillingMode;
  embedding_Operation : EmbeddingOperation;
  embedding_CreatedAt : Instant }.

(** The columns of model_invocations and model_invocation_usage the ledger
    reads; both tables belong to the model runtime. *)
Record ModelInvocation : Type := mkModelInvocation {
  inv_OrganizationID : string;
  inv_TaskID : Z;
  inv_AttemptID : Z;
  inv_DispatchActorRoleID : string;
  inv_SubjectRoleID : string;
  inv_ProviderID : string;
  inv_ProviderModelID : string;
  inv_Status : string;
  inv_ErrorCode : option string;
  inv_CreatedAt : Instant;
  inv_TerminalAt : option Instant }.

Record InvocationUsage : Type := mkInvocationUsage {
  usage_InputTokens : Z;
  usage_OutputTokens : Z;
  usage_TotalTokens : Z;
  usage_ProviderReported : bool }.

(** ** Agent budgets *)

Record Limits : Type := mkLimits {
  MaxUSD : USDNanos;
  MaxTokens : Z;
  MaxModelCalls : Z;
  MaxWallTimeMS : Z;
  MaxDepth : Z;
  MaxRetries : Z;
  MaxSubagents : Z }.

#[export] Instance Limits_eq_dec : EqDecision Limits.
Proof. solve_decision. Defined.

Record Usage : Type := mkUsage {
  UsedUSD : USDNanos;
  UsedTokens : Z;
  UsedModelCalls : Z;
  UsedWallTimeMS : Z;
  Depth : Z;
  UsedRetries : Z;
  UsedSubagents : Z }.

Record Budget : Type := mkBudget {
  budget_ID : Z;
  budget_OrganizationID : string;
  budget_RootTaskID : Z;
  budget_TaskID : Z;
  budget_RoleID : string;
  budget_ParentBudgetID : option Z;
  budget_Limits : Limits;
  budget_Usage : Usage;
  budget_Version : Z }.

Inductive BudgetEventKind : Type :=
| BudgetCreated | BudgetInherited | BudgetConsumed | BudgetReconciled.

#[export] Instance BudgetEventKind_eq_dec : EqDecision BudgetEventKind.
Proof. solve_decision. Defined.

(** A row of agent_budget_events; its deltas are a [Usage]. *)
Record BudgetEvent : Type := mkBudgetEvent {
  bevent_BudgetID : Z;
  bevent_Kind : BudgetEventKind;
  bevent_IdempotencyRef : Z;
  bevent_Delta : Usage }.

(** ** The tables *)

Record SpendDB : Type := mkSpendDB {
  sp_pricing : list PriceTier;
  sp_wallets : gmap string ProviderWallet;
  sp_wallet_events : list WalletEventRow;
  sp_embeddings : gmap Z EmbeddingInvocation;
  sp_invocations : gmap Z ModelInvocation;
  sp_usage : gmap Z InvocationUsage;
  sp_budgets : gmap Z Budget;
  sp_budget_events : list BudgetEvent;
  sp_task_budgets : gmap Z Z;
  sp_tasks : gmap Z Task }.

Definition set_pricing (v : list PriceTier) (d : SpendDB) : SpendDB :=
  mkSpendDB v (sp_wallets d) (sp_wallet_events d) (sp_embeddings d) (sp_invocations d)
    (sp_usage d) (sp_budgets d) (sp_budget_events d) (sp_task_budgets d) (sp_tasks d).
Definition set_wallets (v : gmap string ProviderWallet) (d : SpendDB) : SpendDB :=
  mkSpendDB (sp_pricing d) v (sp_wallet_events d) (sp_embeddings d) (sp_invocations d)
    (sp_usage d) (sp_budgets d) (sp_budget_events d) (sp_task_budgets d) (sp_tasks d).
Definition set_wallet_events (v : list WalletEventRow) (d : SpendDB) : SpendDB :=
  mkSpendDB (sp_pricing d) (sp_wallets d) v (sp_embeddings d) (sp_invocations d)
    (sp_usage d) (sp_budgets d) (sp_budget_events d) (sp_task_budgets d) (sp_tasks d).
Definition set_embeddings (v : gmap Z EmbeddingInvocation) (d : SpendDB) : SpendDB :=
  mkSpendDB (sp_pricing d) (sp_wallets d) (sp_wallet_events d) v (sp_invocations d)
    (sp_usage d) (sp_budgets d) (sp_budget_events d) (sp_task_budgets d) (sp_tasks d).
Definition set_budgets (v : gmap Z Budget) (d : SpendDB) : SpendDB :=
  mkSpendDB (sp_pricing d) (sp_wallets d) (sp_wallet_events d) (sp_embeddings d)
    (sp_invocations d) (sp_usage d) v (sp_budget_events d) (sp_task_budgets d) (sp_tasks d).
Definition set_budget_events (v : list BudgetEvent) (d : SpendDB) : SpendDB :=
  mkSpendDB (sp_pricing d) (sp_wallets d) (sp_wallet_events d) (sp_embeddings d)
    (sp_invocations d) (sp_usage d) (sp_budgets d) v (sp_task_budgets d) (sp_tasks d).
Definition set_task_budgets (v : gmap Z Z) (d : SpendDB) : SpendDB :=
  mkSpendDB (sp_pricing d) (sp_wallets d) (sp_wallet_events d) (sp_embeddings d)
    (sp_invocations d) (sp_usage d) (sp_budgets d) (sp_budget_events d) v (sp_tasks d).

Inductive spend_table : Type := TWalletEvents | TEmbeddings | TBudgets | TBudgetEvents.

#[export] Instance spend_table_eq_dec : EqDecision spend_table.
Proof. solve_decision. Defined.

(** A rollback restores the tables, not the identity sequences. *)
Record SpendWorld : Type := mkSpendWorld {
  sw_db : SpendDB;
  sw_seq : spend_table -> Z }.

Notation Spend := (Comp SpendError SpendWorld).

Definition sp_get : Spend SpendDB := fun w => (Ok (sw_db w), w).
Definition sp_modify (f : SpendDB -> SpendDB) : Spend unit :=
  fun w => (Ok tt, mkSpendWorld (f (sw_db w)) (sw_seq w)).
Definition sp_nextval (t : spend_table) : Spend Z := fun w =>
  (Ok (sw_seq w t),
   mkSpendWorld (sw_db w) (fun t' => if decide (t' = t) then sw_seq w t + 1 else sw_seq w t')).

(** [tx, err := pool.Begin(ctx)]; [defer tx.Rollback(ctx)]: an error restores
    the tables. *)
Definition atomically {A} (m : Spend A) : Spend A := fun w =>
  match m w with
  | (Ok a, w') => (Ok a, w')
  | (Err e, w') => (Err e, mkSpendWorld (sw_db w) (sw_seq w'))
  end.

(** A BIGINT column is out of range, a CHECK fails, a foreign key has no row,
    a unique index has the key. *)
Definition sp_bigint (z : Z) : Spend unit :=
  throwIf (negb ((minInt64 <=? z) && (z <=? maxInt64))) (ErrSQL "22003").
Definition sp_check (b : bool) : Spend unit := throwIf (negb b) (ErrSQL "23514").
Definition sp_foreign_key (b : bool) : Spend unit := throwIf (negb b) (ErrSQL "23503").
Definition sp_unique (b : bool) : Spend unit := throwIf (negb b) (ErrSQL "23505").

(** ** Runs *)

Lemma sp_get_ok (d : SpendDB) (w w' : SpendWorld) :
  sp_get w = (Ok d, w') <-> d = sw_db w /\ w' = w.
Proof. unfold sp_get. naive_solver. Qed.

Lemma sp_modify_ok (f : SpendDB -> SpendDB) (u : unit) (w w' : SpendWorld) :
  sp_modify f w = (Ok u, w') <-> w' = mkSpendWorld (f (sw_db w)) (sw_seq w).
Proof. unfold sp_modify. destruct u. naive_solver. Qed.

Lemma sp_nextval_ok (t : spend_table) (n : Z) (w w' : SpendWorld) :
  sp_nextval t w = (Ok n, w') -> n = sw_seq w t /\ sw_db w' = sw_db w
  /\ sw_seq w' t = n + 1 /\ (forall t', sw_seq w t' <= sw_seq w' t').
Proof.
  unfold sp_nextval. intros [= <- <-]. simpl. split_and!; [done|done| |].
  - by rewrite decide_True.
  - intros t'. case_decide; subst; lia.
Qed.

Lemma atomically_ok {A} (m : Spend A) (a : A) (w w' : SpendWorld) :
  atomically m w = (Ok a, w') <-> m w = (Ok a, w').
Proof. unfold atomically. destruct (m w) as [[]]; naive_solver. Qed.

(** A transaction that fails leaves the tables as they were. *)
Lemma atomically_err {A} (m : Spend A) (e : SpendError) (w w' : SpendWorld) :
  atomically m w = (Err e, w') -> sw_db w' = sw_db w.
Proof. unfold atomically. destruct (m w) as [[]]; naive_solver. Qed.

Lemma sp_bigint_ok (z : Z) (u : unit) (w w' : SpendWorld) :
  sp_bigint z w = (Ok u, w') <-> int64 z /\ w' = w.
Proof.
  unfold sp_bigint. rewrite throwIf_ok, negb_false_iff, andb_true_iff, !Z.leb_le. done.
Qed.

Lemma sp_guard_ok (b : bool) (e : SpendError) (u : unit) (w w' : SpendWorld) :
  throwIf (negb b) e w = (Ok u, w') <-> b = true /\ w' = w.
Proof. by rewrite throwIf_ok, negb_false_iff. Qed.
