(* ===== verification/Pricing.v ===== *)
(** * Model pricing

    internal/modelpricing: validation and pricing of a tier (types.go), the
    choice of the tier (resolve.go), the rate card (postgres/store.go). *)

From stdpp Require Import base tactics list gmap strings sorting.
From Stdlib Require Import ZArith Lia.
From S2P Require Import Prelude GoLib TaskDomain Database SpendDB.

Local Open Scope Z_scope.

Notation priced := (result SpendError).

Definition negative (p : option USDNanos) : bool :=
  match p with Some z => z <? 0 | None => false end.

Definition TierValidate (t : PriceTier) : priced unit :=
  check? rejectIf (is_empty (TrimSpace (tier_ProviderID t))
                   || is_empty (TrimSpace (tier_ProviderModelID t))) ErrInvalidPriceTier in
  check? rejectIf (is_empty (TrimSpace (tier_ContextTierName t))) ErrInvalidPriceTier in
  check? rejectIf (negb (BillingModeValid (tier_BillingMode t))) ErrInvalidPriceTier in
  check? rejectIf (tier_MinInputTokens t <? 0) ErrInvalidPriceTier in
  check? rejectIf ((tier_InputPriceNanosPerMillion t <? 0)
                   || (tier_OutputPriceNanosPerMillion t <? 0)) ErrInvalidPriceTier in
  check? rejectIf (negative (tier_CachedInputPriceNanosPerMillion t)) ErrInvalidPriceTier in
  check? rejectIf (negative (tier_CacheWritePriceNanosPerMillion t)) ErrInvalidPriceTier in
  rejectIf (IsZero (tier_EffectiveAt t)) ErrInvalidPriceTier.

(** ** The cost of a call *)

(** The product wraps around at 64 bits; dividing it back tells. *)
Definition scaleNanos (tokens pricePerMillion : Z) : priced USDNanos :=
  if (tokens =? 0) || (pricePerMillion =? 0) then Ok 0
  else
    let product := wrap64 (tokens * pricePerMillion) in
    if negb (wrap64 (Z.quot product tokens) =? pricePerMillion) then Err ErrInvalidPriceTier
    else Ok (Z.quot product 1000000).

(** The optional dimensions: a count against an unpriced one is refused. *)
Definition add_priced (total tokens : Z) (price : option USDNanos) : priced USDNanos :=
  if 0 <? tokens then
    match price with
    | None => Err ErrNoPricingResolved
    | Some p => let? cost := scaleNanos tokens p in Ok (wrap64 (total + cost))
    end
  else Ok total.

Definition EstimateCost (t : PriceTier)
    (inputTokens cachedInputTokens cacheWriteTokens outputTokens : Z) : priced USDNanos :=
  check? rejectIf ((inputTokens <? 0) || (cachedInputTokens <? 0) || (cacheWriteTokens <? 0)
                   || (outputTokens <? 0)) ErrInvalidPriceTier in
  let? total := scaleNanos inputTokens (tier_InputPriceNanosPerMillion t) in
  let? outputCost := scaleNanos outputTokens (tier_OutputPriceNanosPerMillion t) in
  let total := wrap64 (total + outputCost) in
  let? total := add_priced total cachedInputTokens (tier_CachedInputPriceNanosPerMillion t) in
  add_priced total cacheWriteTokens (tier_CacheWritePriceNanosPerMillion t).

(** ** The choice of the tier *)

Definition applies (estimated : Z) (mode : BillingMode) (c : PriceTier) : bool :=
  bool_decide (tier_BillingMode c = mode) && (tier_MinInputTokens c <=? estimated).

Definition better (c best : PriceTier) : bool :=
  (tier_MinInputTokens best <? tier_MinInputTokens c)
  || ((tier_MinInputTokens c =? tier_MinInputTokens best)
      && (tier_EffectiveAt best <? tier_EffectiveAt c)).

(** One round of the loop over the candidates. *)
Definition resolve_step (estimated : Z) (mode : BillingMode) (best : option PriceTier)
    (c : PriceTier) : option PriceTier :=
  if applies estimated mode c then
    match best with
    | None => Some c
    | Some b => if better c b then Some c else Some b
    end
  else best.

Definition Resolve (candidates : list PriceTier) (estimatedInputTokens : Z)
    (billingMode : BillingMode) : priced PriceTier :=
  check? rejectIf (estimatedInputTokens <? 0) ErrInvalidPriceTier in
  check? rejectIf (negb (BillingModeValid billingMode)) ErrInvalidPriceTier in
  match foldl (resolve_step estimatedInputTokens billingMode) None candidates with
  | None => Err ErrNoPricingResolved
  | Some best => Ok best
  end.

(** ** The rate card *)

Definition ListTiers (providerID providerModelID : string) (billingMode : BillingMode)
    (asOf : Instant) : Spend (list PriceTier) :=
  let! d := sp_get in
  ret (filter (fun t => (bool_decide (tier_ProviderID t = providerID)
                 && bool_decide (tier_ProviderModelID t = providerModelID)
                 && bool_decide (tier_BillingMode t = billingMode)
                 && (tier_EffectiveAt t <=? asOf)) = true) (sp_pricing d)).

(** The CHECK constraints of model_pricing. *)
Definition pricing_check (t : PriceTier) : bool :=
  between 1 120 (pg_length (pg_trim (tier_ProviderID t)))
  && between 1 240 (pg_length (pg_trim (tier_ProviderModelID t)))
  && between 1 60 (pg_length (pg_trim (tier_ContextTierName t)))
  && (0 <=? tier_MinInputTokens t)
  && (0 <=? tier_InputPriceNanosPerMillion t)
  && negb (negative (tier_CachedInputPriceNanosPerMillion t))
  && negb (negative (tier_CacheWritePriceNanosPerMillion t))
  && (0 <=? tier_OutputPriceNanosPerMillion t)
  && BillingModeValid (tier_BillingMode t).

(** The key of model_pricing_unique_tier. *)
Definition same_tier (a b : PriceTier) : bool :=
  bool_decide (tier_ProviderID a = tier_ProviderID b)
  && bool_decide (tier_ProviderModelID a = tier_ProviderModelID b)
  && bool_decide (tier_ContextTierName a = tier_ContextTierName b)
  && bool_decide (tier_BillingMode a = tier_BillingMode b)
  && (tier_EffectiveAt a =? tier_EffectiveAt b).

Definition tier_stamped (effective created : Instant) (t : PriceTier) : PriceTier :=
  mkPriceTier (tier_ProviderID t) (tier_ProviderModelID t) (tier_ContextTierName t)
    (tier_MinInputTokens t) (tier_InputPriceNanosPerMillion t)
    (tier_CachedInputPriceNanosPerMillion t) (tier_CacheWritePriceNanosPerMillion t)
    (tier_OutputPriceNanosPerMillion t) (tier_BillingMode t) effective created.

(** [now] is the host's clock, [created] the database's. *)
Definition Store_Upsert (tier : PriceTier) (now created : Instant) : Spend PriceTier :=
  let effective := if IsZero (tier_EffectiveAt tier) then now else tier_EffectiveAt tier in
  let row := tier_stamped effective created tier in
  do! sp_check (pricing_check row) in
  let! d := sp_get in
  do! throwIf (existsb (same_tier row) (sp_pricing d)) ErrPricingConflict in
  do! sp_modify (set_pricing (sp_pricing d ++ [row])) in
  ret row.

Definition Pricing_Resolve (providerID providerModelID : string) (estimatedInputTokens : Z)
    (billingMode : BillingMode) (asOf : Instant) : Spend PriceTier :=
  let! tiers := ListTiers providerID providerModelID billingMode asOf in
  lift (Resolve tiers estimatedInputTokens billingMode).

Definition Pricing_Upsert (tier : PriceTier) (now created : Instant) : Spend PriceTier :=
  do! lift (TierValidate tier) in
  Store_Upsert tier now created.

(** ** Properties of model pricing

    The price of a call is the exact sum of its dimensions or an error; the
    tier that prices it is the one in force for its context band. *)


(** ** Costs *)

(** The price of one dimension, in unbounded integers. *)
Definition dimension_cost (tokens price : Z) : Z := tokens * price / 1000000.

(** The optional dimension [price] can carry [tokens]. *)
Definition dimension_priced (tokens : Z) (price : option USDNanos) (cost : Z) : Prop :=
  (tokens = 0 /\ cost = 0)
  \/ (0 < tokens /\ exists p, price = Some p /\ tokens * p <= maxInt64
                              /\ cost = dimension_cost tokens p).

Definition count (z : Z) : Prop := 0 <= z <= maxInt64.
Definition count_opt (o : option Z) : Prop := match o with Some z => count z | None => True end.

(** What the CHECK constraints of the rate card and the column types give. *)
Definition rate_card_row (t : PriceTier) : Prop :=
  count (tier_InputPriceNanosPerMillion t) /\ count (tier_OutputPriceNanosPerMillion t)
  /\ count_opt (tier_CachedInputPriceNanosPerMillion t)
  /\ count_opt (tier_CacheWritePriceNanosPerMillion t).

Lemma wrap64_cases (z : Z) : exists k, wrap64 z = z - k * (2 * two63).
Proof.
  unfold wrap64. exists ((z + two63) / (2 * two63)).
  rewrite Z.mod_eq by (unfold two63; lia). lia.
Qed.

Lemma int64_quot (a t : Z) : int64 a -> 0 < t -> int64 (Z.quot a t).
Proof.
  unfold int64, minInt64, maxInt64, two63. intros Ha Ht.
  destruct (decide (0 <= a)) as [H|H].
  - rewrite Z.quot_div_nonneg by lia.
    pose proof (Z.div_pos a t). assert (a / t <= a) by (apply Z.div_le_upper_bound; nia). lia.
  - rewrite <- (Z.opp_involutive a), Z.quot_opp_l, Z.quot_div_nonneg by lia.
    pose proof (Z.div_pos (- a) t).
    assert (- a / t <= - a) by (apply Z.div_le_upper_bound; nia). lia.
Qed.

(** Dividing the wrapped product back finds every overflow. *)
Lemma wrap_division (t p : Z) :
  0 < t <= maxInt64 -> 0 < p <= maxInt64 ->
  wrap64 (Z.quot (wrap64 (t * p)) t) = p <-> t * p <= maxInt64.
Proof.
  intros Ht Hp. pose proof (wrap64_range (t * p)) as Hr.
  rewrite (wrap64_id (Z.quot _ _)) by (apply int64_quot; [done|lia]).
  split.
  - intros Hq. destruct (wrap64_cases (t * p)) as [k Hk].
    assert (0 <= wrap64 (t * p)).
    { destruct (decide (0 <= wrap64 (t * p))) as [|Hn]; [done|].
      rewrite <- (Z.opp_involutive (wrap64 _)), Z.quot_opp_l, Z.quot_div_nonneg in Hq by lia.
      pose proof (Z.div_pos (- wrap64 (t * p)) t). lia. }
    rewrite Z.quot_div_nonneg in Hq by lia.
    pose proof (Z.mul_div_le (wrap64 (t * p)) t). pose proof (Z.mod_pos_bound (wrap64 (t * p)) t).
    pose proof (Z.div_mod (wrap64 (t * p)) t). rewrite Hq in *.
    unfold int64, minInt64, maxInt64, two63 in *. nia.
  - intros Hle. rewrite wrap64_id.
    + rewrite Z.mul_comm. apply Z.quot_mul. lia.
    + unfold int64, minInt64, two63. nia.
Qed.

Lemma scaleNanos_ok (t p n : Z) :
  count t -> count p ->
  scaleNanos t p = Ok n <-> t * p <= maxInt64 /\ n = dimension_cost t p.
Proof.
  unfold count, scaleNanos, dimension_cost. intros Ht Hp.
  destruct ((t =? 0) || (p =? 0)) eqn:Hz.
  - assert (Htp : t * p = 0) by lia. rewrite Htp.
    split; [intros [= <-]; split; [by vm_compute|done]|by intros [_ ->]].
  - assert (Hpos : 0 < t /\ 0 < p) by lia.
    pose proof (wrap_division t p ltac:(lia) ltac:(lia)) as Hd.
    destruct (wrap64 (Z.quot (wrap64 (t * p)) t) =? p) eqn:He; simpl.
    + apply Z.eqb_eq, Hd in He. rewrite wrap64_id, Z.quot_div_nonneg
        by (unfold int64, minInt64, two63; nia).
      split; [by intros [= <-]|by intros [_ ->]].
    + apply Z.eqb_neq in He. split; [done|]. intros [Hle _]. by apply Hd in Hle.
Qed.

Lemma dimension_small (t p : Z) :
  count t -> count p -> t * p <= maxInt64 -> 0 <= dimension_cost t p <= 9223372036855.
Proof.
  unfold count, dimension_cost, maxInt64, two63. intros Ht Hp Hle. split.
  - apply Z.div_pos; nia.
  - apply Z.div_le_upper_bound; nia.
Qed.

Lemma add_priced_ok (total t n : Z) (price : option USDNanos) :
  0 <= total <= 3 * 9223372036855 -> count t -> count_opt price ->
  add_priced total t price = Ok n
  <-> exists c, dimension_priced t price c /\ n = total + c /\ 0 <= c <= 9223372036855.
Proof.
  unfold add_priced, dimension_priced. intros Htot Ht Hp.
  destruct (0 <? t) eqn:Hpos.
  - apply Z.ltb_lt in Hpos. destruct price as [p|].
    2:{ split; [done|]. intros (c & [?|(_ & p & ? & _)] & _); [lia|done]. }
    simpl in Hp. rewrite rbind_ok. setoid_rewrite scaleNanos_ok; [|done..]. split.
    + intros (c & (Hle & ->) & [= <-]). pose proof (dimension_small t p Ht Hp Hle).
      exists (dimension_cost t p). split_and!; try lia.
      { right. split; [done|]. eauto. }
      rewrite wrap64_id; [done|]. unfold int64, minInt64, maxInt64, two63. lia.
    + intros (c & [?|(_ & p' & [= <-] & Hle & ->)] & -> & Hc); [lia|].
      exists (dimension_cost t p). split; [done|]. rewrite wrap64_id; [done|].
      unfold int64, minInt64, maxInt64, two63. lia.
  - assert (t = 0) as -> by (unfold count in Ht; lia). split.
    + intros [= <-]. exists 0. split_and!; [by left|lia..].
    + intros (c & [(_ & ->)|(? & _)] & -> & _); [f_equal; lia|lia].
Qed.

(** C38: the price of a call, for counts and prices of 64 bits, is the exact sum of the prices of its
    dimensions: an input, a cached, a cache-write or an output count whose product overflows, and a
    count against a dimension the tier does not price, are errors, and no sum ever overflows. *)
Theorem cost_is_exact (t : PriceTier) (i c w o n : Z) :
  rate_card_row t -> i <= maxInt64 -> c <= maxInt64 -> w <= maxInt64 -> o <= maxInt64 ->
  EstimateCost t i c w o = Ok n
  <-> (0 <= i /\ 0 <= c /\ 0 <= w /\ 0 <= o)
      /\ i * tier_InputPriceNanosPerMillion t <= maxInt64
      /\ o * tier_OutputPriceNanosPerMillion t <= maxInt64
      /\ exists cc wc, dimension_priced c (tier_CachedInputPriceNanosPerMillion t) cc
           /\ dimension_priced w (tier_CacheWritePriceNanosPerMillion t) wc
           /\ n = dimension_cost i (tier_InputPriceNanosPerMillion t)
                  + dimension_cost o (tier_OutputPriceNanosPerMillion t) + cc + wc
           /\ 0 <= n <= maxInt64.
Proof.
  intros (Hi & Ho & Hc & Hw) Him Hcm Hwm Hom. unfold EstimateCost.
  rewrite check_ok_bind, rejectIf_ok.
  split.
  - intros (Hneg & H). assert (0 <= i /\ 0 <= c /\ 0 <= w /\ 0 <= o) as (H1 & H2 & H3 & H4) by lia.
    apply rbind_ok in H as (ti & (Hli & ->)%scaleNanos_ok & H); [|unfold count; lia|done].
    apply rbind_ok in H as (to & (Hlo & ->)%scaleNanos_ok & H); [|unfold count; lia|done].
    pose proof (dimension_small _ _ (conj H1 Him) Hi Hli).
    pose proof (dimension_small _ _ (conj H4 Hom) Ho Hlo).
    rewrite wrap64_id in H by (unfold int64, minInt64, maxInt64, two63; lia).
    apply rbind_ok in H as (t1 & (cc & Hcc & -> & Hcb)%add_priced_ok & H);
      [|lia|unfold count; lia|done].
    apply add_priced_ok in H as (wc & Hwc & -> & Hwb); [|lia|unfold count; lia|done].
    split_and!; try lia. exists cc, wc. split_and!; try done; unfold maxInt64, two63; lia.
  - intros ((H1 & H2 & H3 & H4) & Hli & Hlo & cc & wc & Hcc & Hwc & -> & Hb). split; [lia|].
    pose proof (dimension_small _ _ (conj H1 Him) Hi Hli).
    pose proof (dimension_small _ _ (conj H4 Hom) Ho Hlo).
    assert (Hcb : 0 <= cc <= 9223372036855).
    { destruct Hcc as [[_ ->]|(_ & p & Hp & Hle & ->)]; [lia|]. rewrite Hp in Hc.
      apply dimension_small; unfold count; auto; lia. }
    assert (Hwb : 0 <= wc <= 9223372036855).
    { destruct Hwc as [[_ ->]|(_ & p & Hp & Hle & ->)]; [lia|]. rewrite Hp in Hw.
      apply dimension_small; unfold count; auto; lia. }
    apply rbind_ok. eexists. split; [apply scaleNanos_ok; [unfold count; lia|done|eauto]|].
    apply rbind_ok. eexists. split; [apply scaleNanos_ok; [unfold count; lia|done|eauto]|].
    rewrite wrap64_id by (unfold int64, minInt64, maxInt64, two63; lia).
    apply rbind_ok. eexists. split.
    { apply add_priced_ok; [lia|unfold count; lia|done|]. exists cc. eauto. }
    apply add_priced_ok; [lia|unfold count; lia|done|]. exists wc. eauto.
Qed.

(** ** The tier in force *)

Lemma better_trans (x c b : PriceTier) :
  better c b = true -> better x b = false -> better x c = false.
Proof. unfold better. lia. Qed.

Lemma better_not (x c b : PriceTier) :
  better c b = false -> better x c = false -> better x b = false.
Proof. unfold better. lia. Qed.

Definition best_of (estimated : Z) (mode : BillingMode) (l : list PriceTier)
    (r : option PriceTier) : Prop :=
  match r with
  | None => forall c, c ∈ l -> applies estimated mode c = false
  | Some t => t ∈ l /\ applies estimated mode t = true
              /\ forall c, c ∈ l -> applies estimated mode c = true -> better c t = false
  end.

Lemma resolve_step_best (estimated : Z) (mode : BillingMode) (l : list PriceTier)
    (r : option PriceTier) (c : PriceTier) :
  best_of estimated mode l r -> best_of estimated mode (l ++ [c]) (resolve_step estimated mode r c).
Proof.
  unfold resolve_step. intros Hb. destruct (applies estimated mode c) eqn:Ha.
  - destruct r as [b|]; simpl in Hb.
    + destruct Hb as (Hin & Hab & Hmax). destruct (better c b) eqn:Hcb; simpl; split_and!.
      * set_solver.
      * done.
      * intros x [Hx| ->%list_elem_of_singleton]%elem_of_app Hax.
        { eapply better_trans; [done|]. auto. }
        unfold better. lia.
      * set_solver.
      * done.
      * intros x [Hx| ->%list_elem_of_singleton]%elem_of_app Hax; auto.
    + simpl. split_and!; [set_solver|done|].
      intros x [Hx| ->%list_elem_of_singleton]%elem_of_app Hax; [by rewrite Hb in Hax|].
      unfold better. lia.
  - destruct r as [b|]; simpl in *.
    + destruct Hb as (Hin & Hab & Hmax). split_and!; [set_solver|done|].
      intros x [Hx| ->%list_elem_of_singleton]%elem_of_app Hax; [auto|congruence].
    + intros x [Hx| ->%list_elem_of_singleton]%elem_of_app; auto.
Qed.

Lemma resolve_fold_best (estimated : Z) (mode : BillingMode) (l l0 : list PriceTier)
    (r : option PriceTier) :
  best_of estimated mode l0 r ->
  best_of estimated mode (l0 ++ l) (foldl (resolve_step estimated mode) r l).
Proof.
  revert l0 r. induction l as [|c l IH]; intros l0 r Hb; simpl; [by rewrite app_nil_r|].
  change (c :: l) with ([c] ++ l). rewrite (assoc_L (++) l0 [c] l).
  apply IH. by apply resolve_step_best.
Qed.

(** A tier of the card that can price a call of [estimated] input tokens at
    [asOf]. *)
Definition in_force (d : SpendDB) (providerID modelID : string) (estimated : Z)
    (mode : BillingMode) (asOf : Instant) (t : PriceTier) : Prop :=
  t ∈ sp_pricing d /\ tier_ProviderID t = providerID /\ tier_ProviderModelID t = modelID
  /\ tier_BillingMode t = mode /\ tier_EffectiveAt t <= asOf /\ tier_MinInputTokens t <= estimated.

Definition listed (d : SpendDB) (providerID modelID : string) (mode : BillingMode)
    (asOf : Instant) : list PriceTier :=
  filter (fun t => (bool_decide (tier_ProviderID t = providerID)
            && bool_decide (tier_ProviderModelID t = modelID)
            && bool_decide (tier_BillingMode t = mode) && (tier_EffectiveAt t <=? asOf)) = true)
    (sp_pricing d).

Lemma in_force_listed (d : SpendDB) (p m : string) (e : Z) (mode : BillingMode) (asOf : Instant)
    (t : PriceTier) :
  in_force d p m e mode asOf t <-> t ∈ listed d p m mode asOf /\ applies e mode t = true.
Proof.
  unfold in_force, listed, applies. rewrite list_elem_of_filter, !andb_true_iff,
    !bool_decide_eq_true, !Z.leb_le. naive_solver.
Qed.

Lemma Pricing_Resolve_run (p m : string) (e : Z) (mode : BillingMode) (asOf : Instant)
    (w : SpendWorld) :
  Pricing_Resolve p m e mode asOf w = (Resolve (listed (sw_db w) p m mode asOf) e mode, w).
Proof. done. Qed.

Lemma Store_Upsert_ok (tier row : PriceTier) (now created : Instant) (w w' : SpendWorld) :
  Store_Upsert tier now created w = (Ok row, w') ->
  pricing_check row = true /\ existsb (same_tier row) (sp_pricing (sw_db w)) = false
  /\ w' = mkSpendWorld (set_pricing (sp_pricing (sw_db w) ++ [row]) (sw_db w)) (sw_seq w).
Proof.
  unfold Store_Upsert. intros H. apply bind_ok in H as ([] & w1 & [Hc ->]%sp_guard_ok & H).
  apply bind_ok in H as (d & w2 & [-> ->]%sp_get_ok & H).
  apply bind_ok in H as ([] & w3 & [Hu ->]%throwIf_ok & H).
  apply bind_ok in H as ([] & w4 & ->%sp_modify_ok & H). by apply ret_ok in H as [-> ->].
Qed.

(** Resolving a price fails for a negative estimate or an unknown billing mode, fails with
    [ErrNoPricingResolved] exactly when no tier of the provider, the model and the mode is in force
    for the estimate, and otherwise gives one in force that no other beats: the largest band that
    still applies, at its latest price.  A price that takes effect later does not change it. *)
Lemma price_in_force_wins (p m : string) (e : Z) (mode : BillingMode) (asOf : Instant)
    (w : SpendWorld) :
  (exists r, Pricing_Resolve p m e mode asOf w = (r, w) /\
    match r with
    | Ok t => 0 <= e /\ in_force (sw_db w) p m e mode asOf t
        /\ forall c, in_force (sw_db w) p m e mode asOf c ->
             tier_MinInputTokens c < tier_MinInputTokens t
             \/ (tier_MinInputTokens c = tier_MinInputTokens t
                 /\ tier_EffectiveAt c <= tier_EffectiveAt t)
    | Err ErrNoPricingResolved =>
        0 <= e /\ BillingModeValid mode = true
        /\ forall c, ~ in_force (sw_db w) p m e mode asOf c
    | Err ErrInvalidPriceTier => e < 0 \/ BillingModeValid mode = false
    | Err _ => False
    end)
  /\ forall tier row now created w',
       Pricing_Upsert tier now created w = (Ok row, w') -> asOf < tier_EffectiveAt row ->
       fst (Pricing_Resolve p m e mode asOf w') = fst (Pricing_Resolve p m e mode asOf w).
Proof.
  split.
  - eexists. split; [apply Pricing_Resolve_run|]. unfold Resolve.
    destruct (e <? 0) eqn:He; simpl; [left; lia|].
    destruct (BillingModeValid mode) eqn:Hv; simpl; [|by right].
    pose proof (resolve_fold_best e mode (listed (sw_db w) p m mode asOf) [] None) as Hb.
    specialize (Hb ltac:(simpl; set_solver)). rewrite app_nil_l in Hb.
    destruct (foldl _ _ _) as [t|]; simpl in Hb.
    + destruct Hb as (Hin & Ha & Hmax). split; [lia|]. split; [by apply in_force_listed|].
      intros c [Hc Hac]%in_force_listed. specialize (Hmax c Hc Hac). unfold better in Hmax. lia.
    + split; [lia|]. split; [done|]. intros c [Hc Hac]%in_force_listed. by rewrite Hb in Hac.
  - intros tier row now created w' H Hlater. unfold Pricing_Upsert in H.
    apply bind_ok in H as ([] & w1 & [_ ->]%lift_ok & H).
    apply Store_Upsert_ok in H as (_ & _ & ->).
    rewrite !Pricing_Resolve_run. simpl. f_equal. unfold listed. simpl.
    rewrite filter_app, filter_cons_False, filter_nil, app_nil_r; [done|].
    rewrite !andb_true_iff, Z.leb_le. lia.
Qed.

Definition demo_tier (band : string) (min price : Z) (at_ : Instant) : PriceTier :=
  mkPriceTier "gemini" "pro" band min price (Some 100000000) None (8 * price) BillingOnline at_ 0.

Definition demo_card : SpendWorld :=
  mkSpendWorld (mkSpendDB [demo_tier "default" 0 1250000000 10; demo_tier "long" 200000 2500000000 10]
                  ∅ [] ∅ ∅ ∅ ∅ [] ∅ ∅) (fun _ => 1).

Lemma cost_is_exact_witness :
  EstimateCost (demo_tier "default" 0 1250000000 10) 1000 200 0 100 = Ok 2270000
  /\ 2270000 = dimension_cost 1000 1250000000 + dimension_cost 100 10000000000
               + dimension_cost 200 100000000 + 0.
Proof.
  split; [|by vm_compute].
  apply (cost_is_exact (demo_tier "default" 0 1250000000 10) 1000 200 0 100 2270000).
  - unfold rate_card_row, count_opt, count, maxInt64, two63. simpl. lia.
  - unfold maxInt64, two63; lia.
  - unfold maxInt64, two63; lia.
  - unfold maxInt64, two63; lia.
  - unfold maxInt64, two63; lia.
  - split; [lia|]. split; [by vm_compute|]. split; [by vm_compute|].
    exists (dimension_cost 200 100000000), 0. split.
    { right. split; [lia|]. eexists. split; [reflexivity|]. split; [by vm_compute|reflexivity]. }
    split; [left; split; reflexivity|]. split; [vm_compute; reflexivity|]. by vm_compute.
Defined.

Lemma price_in_force_wins_witness :
  fst (Pricing_Resolve "gemini" "pro" 250000 BillingOnline 50 demo_card)
  = Ok (demo_tier "long" 200000 2500000000 10)
  /\ fst (Pricing_Resolve "gemini" "pro" 250000 BillingOnline 50
            (snd (Pricing_Upsert (demo_tier "long" 200000 9 60) 0 0 demo_card)))
     = fst (Pricing_Resolve "gemini" "pro" 250000 BillingOnline 50 demo_card).
Proof.
  split; [vm_compute; reflexivity|].
  apply (proj2 (price_in_force_wins "gemini" "pro" 250000 BillingOnline 50 demo_card)
           (demo_tier "long" 200000 9 60) (demo_tier "long" 200000 9 60) 0 0).
  - vm_compute. reflexivity.
  - vm_compute. reflexivity.
Defined.
