(* ===== verification/CostLedger.v ===== *)
(** * The cost ledger

    internal/costledger/postgres: provider wallets and their append-only
    events.  store.go keys a reservation by a chat invocation, embeddings.go
    by an embedding invocation; the statements are the same but for the
    column, so each is one definition over [Call]. *)

From stdpp Require Import base tactics list gmap strings sorting.
From Stdlib Require Import ZArith Lia.
From S2P Require Import Prelude GoLib TaskDomain Database StoreRead SpendDB.

Local Open Scope Z_scope.

(** ** Statements *)

Definition wallet_check (w : ProviderWallet) : bool :=
  between 1 120 (pg_length (pg_trim (wallet_ProviderID w)))
  && (0 <=? wallet_BalanceUSD w) && (0 <=? wallet_ReservedUSD w) && (1 <=? wallet_Version w)
  && (wallet_ReservedUSD w <=? wallet_BalanceUSD w).

(** [SELECT balance_usd_nanos, reserved_usd_nanos ... FOR UPDATE] *)
Definition lockWallet (providerID : string) : Spend ProviderWallet :=
  let! d := sp_get in
  match sp_wallets d !! providerID with
  | Some w => ret w
  | None => throw ErrWalletNotFound
  end.

Definition of_call (providerID : string) (c : Call) (kind : EventKind) (r : WalletEventRow) : bool :=
  bool_decide (wevent_ProviderID (wrow_Event r) = providerID)
  && bool_decide (wevent_Call (wrow_Event r) = c)
  && bool_decide (wevent_Kind (wrow_Event r) = kind).

(** The row of (provider, call, kind); the unique index leaves at most one. *)
Definition find_event (providerID : string) (c : Call) (kind : EventKind)
    (l : list WalletEventRow) : option WalletEventRow :=
  head (filter (fun r => of_call providerID c kind r = true) l).

(** [SELECT amount_usd_nanos ... AND kind='reserved'] *)
Definition select_reserved (providerID : string) (c : Call) : Spend (option USDNanos) :=
  let! d := sp_get in
  ret ((fun r => wevent_AmountUSD (wrow_Event r))
         <$> find_event providerID c EventReserved (sp_wallet_events d)).

Definition terminal_kind (k : EventKind) : bool :=
  match k with EventCommitted | EventReleased => true | EventReserved => false end.

(** A row the index ..._one_terminal_..._idx counts. *)
Definition terminal_of (providerID : string) (c : Call) (r : WalletEventRow) : bool :=
  bool_decide (wevent_ProviderID (wrow_Event r) = providerID)
  && bool_decide (wevent_Call (wrow_Event r) = c)
  && terminal_kind (wevent_Kind (wrow_Event r)).

Definition call_exists (c : Call) (d : SpendDB) : bool :=
  match c with
  | ChatCall i => is_some (sp_invocations d !! i)
  | EmbeddingCall i => is_some (sp_embeddings d !! i)
  end.

(** [INSERT INTO provider_wallet_events ... ON CONFLICT (provider, call, kind)
    DO NOTHING]: whether a row was inserted.  The other unique index, on the
    terminal kinds, raises. *)
Definition insert_wallet_event (providerID : string) (c : Call) (kind : EventKind) (amount : USDNanos)
    (annotation : option Annotation) (now : Instant) : Spend bool :=
  let! id := sp_nextval TWalletEvents in
  do! sp_check (0 <=? amount) in
  let! d := sp_get in
  if is_some (find_event providerID c kind (sp_wallet_events d)) then ret false
  else
    do! sp_unique (negb (terminal_kind kind
                         && existsb (terminal_of providerID c) (sp_wallet_events d))) in
    do! sp_foreign_key (is_some (sp_wallets d !! providerID) && call_exists c d) in
    do! sp_modify (set_wallet_events (sp_wallet_events d
          ++ [mkWalletEventRow (mkWalletEvent id providerID c kind amount now) annotation])) in
    ret true.

(** [UPDATE provider_wallets SET balance = balance - debit, reserved =
    reserved + hold, version = version + 1, updated_at = now] *)
Definition update_wallet (providerID : string) (debit hold : Z) (now : Instant) : Spend unit :=
  let! d := sp_get in
  match sp_wallets d !! providerID with
  | None => ret tt
  | Some w =>
      do! sp_bigint (wallet_BalanceUSD w - debit) in
      do! sp_bigint (wallet_ReservedUSD w + hold) in
      do! sp_bigint (wallet_Version w + 1) in
      let row := mkProviderWallet (wallet_ProviderID w) (wallet_BalanceUSD w - debit)
                   (wallet_ReservedUSD w + hold) now (wallet_Version w + 1) in
      do! sp_check (wallet_check row) in
      sp_modify (set_wallets (<[providerID := row]> (sp_wallets d)))
  end.

(** [if isUniqueViolation(err) { return e }] *)
Definition on_unique_violation {A} (e : SpendError) (m : Spend A) : Spend A := fun w =>
  match m w with
  | (Err e', w') => (Err (if decide (e' = ErrSQL "23505") then e else e'), w')
  | r => r
  end.

(** ** Reservations *)

Definition reserve (providerID : string) (c : Call) (estimatedUSD : USDNanos) (now : Instant)
    : Spend unit :=
  do! throwIf (estimatedUSD <? 0) ErrInvalidLedgerRequest in
  atomically
    (let! w := lockWallet providerID in
     let! inserted := insert_wallet_event providerID c EventReserved estimatedUSD None now in
     if inserted then
       do! throwIf (wrap64 (wallet_BalanceUSD w - wallet_ReservedUSD w) <? estimatedUSD)
             ErrInsufficientBalance in
       update_wallet providerID 0 estimatedUSD now
     else
       let! existing := select_reserved providerID c in
       match existing with
       | None => throw (ErrSQL "no rows")
       | Some amount => throwIf (negb (amount =? estimatedUSD)) ErrAmountMismatch
       end).

Definition reserved_amount (providerID : string) (c : Call) : Spend USDNanos :=
  let! existing := select_reserved providerID c in
  match existing with
  | None => throw ErrReservationNotFound
  | Some amount => ret amount
  end.

(** The transaction that ends a reservation: [kind] and [amountUSD] are
    committed and the actual cost, or released and 0. *)
Definition settle (kind : EventKind) (annotation : option Annotation) (providerID : string)
    (c : Call) (amountUSD : USDNanos) (now : Instant) : Spend unit :=
  atomically
    (do! lockWallet providerID in
     let! reservedAmount := reserved_amount providerID c in
     let! inserted := on_unique_violation ErrAlreadyTerminal
       (insert_wallet_event providerID c kind amountUSD annotation now) in
     if inserted then update_wallet providerID amountUSD (- reservedAmount) now else ret tt).

Definition reconcile (annotation : option Annotation) (providerID : string) (c : Call)
    (actualUSD : USDNanos) (now : Instant) : Spend unit :=
  do! throwIf (actualUSD <? 0) ErrInvalidLedgerRequest in
  settle EventCommitted annotation providerID c actualUSD now.

Definition release (annotation : option Annotation) (providerID : string) (c : Call)
    (now : Instant) : Spend unit :=
  settle EventReleased annotation providerID c 0 now.

(** *** Chat calls *)

Definition Ledger_Reserve (providerID : string) (invocationID : Z) (estimatedUSD : USDNanos)
    (now : Instant) : Spend unit := reserve providerID (ChatCall invocationID) estimatedUSD now.

Definition Ledger_Reconcile (providerID : string) (invocationID : Z) (actualUSD : USDNanos)
    (now : Instant) : Spend unit :=
  reconcile (Some ActualProviderReported) providerID (ChatCall invocationID) actualUSD now.

Definition Ledger_Release (providerID : string) (invocationID : Z) (now : Instant) : Spend unit :=
  release (Some ReleasedNotSent) providerID (ChatCall invocationID) now.

(** *** Embedding calls *)

Definition ReserveEmbedding (providerID : string) (embeddingInvocationID : Z)
    (estimatedUSD : USDNanos) (now : Instant) : Spend unit :=
  reserve providerID (EmbeddingCall embeddingInvocationID) estimatedUSD now.

Definition ReconcileEmbedding (providerID : string) (embeddingInvocationID : Z)
    (actualUSD : USDNanos) (now : Instant) : Spend unit :=
  reconcile None providerID (EmbeddingCall embeddingInvocationID) actualUSD now.

Definition ReleaseEmbedding (providerID : string) (embeddingInvocationID : Z) (now : Instant)
    : Spend unit := release None providerID (EmbeddingCall embeddingInvocationID) now.

(** [known] are the (organization, role) pairs of organization_roles; [now] is
    the host's clock. *)
Definition CreateEmbeddingInvocation (known : string -> string -> bool)
    (i : EmbeddingInvocation) (now : Instant) : Spend EmbeddingInvocation :=
  do! throwIf (is_empty (TrimSpace (embedding_OrganizationID i))
               || is_empty (TrimSpace (embedding_ActorRoleID i))
               || is_empty (TrimSpace (embedding_ProviderID i))
               || is_empty (TrimSpace (embedding_ProviderModelID i))
               || negb (BillingModeValid (embedding_BillingMode i))
               || negb (EmbeddingOperationValid (embedding_Operation i)))
        ErrInvalidLedgerRequest in
  let created := if IsZero (embedding_CreatedAt i) then now else embedding_CreatedAt i in
  let! id := sp_nextval TEmbeddings in
  let! d := sp_get in
  do! sp_foreign_key (known (embedding_OrganizationID i) (embedding_ActorRoleID i)
                      && null_or (fun t => is_some (sp_tasks d !! t)) (embedding_TaskID i)) in
  let row := mkEmbeddingInvocation id (embedding_OrganizationID i) (embedding_ActorRoleID i)
    (embedding_TaskID i) (embedding_ProviderID i) (embedding_ProviderModelID i)
    (embedding_BillingMode i) (embedding_Operation i) created in
  do! sp_unique (negb (is_some (sp_embeddings d !! id))) in
  do! sp_modify (set_embeddings (<[id := row]> (sp_embeddings d))) in
  ret row.

(** ** Annotations and subscriptions *)

(** The [UPDATE] of MarkPendingReconciliation: the reserved event of the call,
    when it has no annotation yet. *)
Definition annotate (providerID : string) (c : Call) (r : WalletEventRow) : WalletEventRow :=
  if of_call providerID c EventReserved r && negb (is_some (wrow_Annotation r))
  then mkWalletEventRow (wrow_Event r) (Some EstimatedPendingReconciliation)
  else r.

Definition MarkPendingReconciliation (providerID : string) (invocationID : Z) : Spend unit :=
  let! d := sp_get in
  do! sp_modify (set_wallet_events
        (map (annotate providerID (ChatCall invocationID)) (sp_wallet_events d))) in
  throwIf (negb (is_some (find_event providerID (ChatCall invocationID) EventReserved
                            (sp_wallet_events d)))) ErrReservationNotFound.

Definition RecordSubscriptionConsumption (providerID : string) (invocationID : Z) (now : Instant)
    : Spend unit := fun w =>
  match atomically (insert_wallet_event providerID (ChatCall invocationID) EventCommitted 0
                      (Some SubscriptionResourceConsumed) now) w with
  | (Ok _, w') => (Ok tt, w')
  | (Err e, w') => (if decide (e = ErrSQL "23505") then Ok tt else Err e, w')
  end.

(** ** Wallets *)

Definition GetWallet (providerID : string) : Spend ProviderWallet := lockWallet providerID.

Definition new_wallet (providerID : string) (balance : USDNanos) (now : Instant) : ProviderWallet :=
  mkProviderWallet providerID balance 0 now 1.

Definition ProvisionWalletIfAbsent (providerID : string) (balanceUSD : USDNanos) (now : Instant)
    : Spend bool :=
  let row := new_wallet providerID balanceUSD now in
  do! sp_check (wallet_check row) in
  let! d := sp_get in
  match sp_wallets d !! providerID with
  | Some _ => ret false
  | None =>
      do! sp_modify (set_wallets (<[providerID := row]> (sp_wallets d))) in
      ret true
  end.

Definition SetBalance (providerID : string) (balanceUSD : USDNanos) (now : Instant)
    : Spend ProviderWallet :=
  let row := new_wallet providerID balanceUSD now in
  do! sp_check (wallet_check row) in
  let! d := sp_get in
  let! row := match sp_wallets d !! providerID with
    | None => ret row
    | Some w =>
        do! throwIf (negb (wallet_ReservedUSD w <=? balanceUSD)) ErrInvalidLedgerRequest in
        do! sp_bigint (wallet_Version w + 1) in
        ret (mkProviderWallet (wallet_ProviderID w) balanceUSD (wallet_ReservedUSD w) now
               (wallet_Version w + 1))
    end in
  do! sp_modify (set_wallets (<[providerID := row]> (sp_wallets d))) in
  ret row.

Definition ProvisionedProviderIDs : Spend (gset string) :=
  let! d := sp_get in ret (dom (sp_wallets d)).

(** ** Family spend *)

(** [MAX(amount_usd_nanos) FILTER (WHERE kind = ...)] over the events of a chat
    invocation, whatever their wallet. *)
Definition max_amount (kind : EventKind) (l : list WalletEventRow) : option USDNanos :=
  foldr (fun r acc => match acc with
                      | None => Some (wevent_AmountUSD (wrow_Event r))
                      | Some a => Some (Z.max (wevent_AmountUSD (wrow_Event r)) a)
                      end) None
    (filter (fun r => wevent_Kind (wrow_Event r) = kind) l).

Definition events_of_invocation (i : Z) (l : list WalletEventRow) : list WalletEventRow :=
  filter (fun r => wevent_Call (wrow_Event r) = ChatCall i) l.

(** [CASE WHEN committed IS NOT NULL ... WHEN released IS NOT NULL THEN 0 ELSE
    reserved END], with NULL as 0: [SUM] skips it. *)
Definition invocation_spend (l : list WalletEventRow) (i : Z) : Z :=
  let events := events_of_invocation i l in
  match max_amount EventCommitted events with
  | Some committed => committed
  | None => match max_amount EventReleased events with
            | Some _ => 0
            | None => default 0 (max_amount EventReserved events)
            end
  end.

(** The spend of the invocations of a family whose task is in [scope]. *)
Definition family_invocations (scope : Z -> Task -> bool) (providerID : string)
    (models : list string) (d : SpendDB) : list (Z * ModelInvocation) :=
  filter (fun '(_, i) =>
      (match sp_tasks d !! inv_TaskID i with Some t => scope (inv_TaskID i) t | None => false end
       && bool_decide (inv_ProviderID i = providerID)
       && bool_decide (inv_ProviderModelID i ∈ models)) = true)
    (map_to_list (sp_invocations d)).

Definition family_spend (scope : Z -> Task -> bool) (providerID : string) (models : list string)
    (d : SpendDB) : Z :=
  sum_Z (map (fun '(id, _) => invocation_spend (sp_wallet_events d) id)
           (family_invocations scope providerID models d)).

(** The sum is a NUMERIC; scanning it into an int64 fails beyond 64 bits. *)
Definition familySpend (scope : Z -> Task -> bool) (providerID : string) (models : list string)
    : Spend Z :=
  let! d := sp_get in
  let used := family_spend scope providerID models d in
  do! throwIf (negb ((minInt64 <=? used) && (used <=? maxInt64))) (ErrSQL "scan") in
  ret used.

Definition with_correlation (correlationID : string) (_ : Z) (t : Task) : bool :=
  bool_decide (task_CorrelationID t = Some correlationID).

Definition with_task (taskID : Z) (id : Z) (_ : Task) : bool := id =? taskID.

Definition ProgramFamilySpend (correlationID providerID : string) (models : list string)
    : Spend USDNanos :=
  do! throwIf (is_empty (TrimSpace correlationID) || is_empty (TrimSpace providerID)
               || bool_decide (models = [])) ErrInvalidLedgerRequest in
  familySpend (with_correlation correlationID) providerID models.

Definition TaskFamilySpend (taskID : Z) (providerID : string) (models : list string)
    : Spend USDNanos :=
  do! throwIf ((taskID <=? 0) || is_empty (TrimSpace providerID) || bool_decide (models = []))
        ErrInvalidLedgerRequest in
  familySpend (with_task taskID) providerID models.

Record ProgramReservation : Type := mkProgramReservation {
  pres_ProviderID : string;
  pres_FamilyModelIDs : list string;
  pres_InvocationID : Z;
  pres_CorrelationID : string;
  pres_MaxUSD : USDNanos;
  pres_EstimatedUSD : USDNanos }.

Definition ReserveWithinProgramCeiling (req : ProgramReservation) (now : Instant) : Spend unit :=
  do! throwIf ((pres_InvocationID req <=? 0) || is_empty (pres_CorrelationID req)
               || bool_decide (pres_FamilyModelIDs req = []) || (pres_EstimatedUSD req <? 0)
               || (pres_MaxUSD req <=? 0)) ErrInvalidLedgerRequest in
  atomically
    (let! w := lockWallet (pres_ProviderID req) in
     let! existing := select_reserved (pres_ProviderID req) (ChatCall (pres_InvocationID req)) in
     match existing with
     | Some amount => throwIf (negb (amount =? pres_EstimatedUSD req)) ErrAmountMismatch
     | None =>
         let! used := familySpend (with_correlation (pres_CorrelationID req))
                        (pres_ProviderID req) (pres_FamilyModelIDs req) in
         do! throwIf (pres_MaxUSD req <? wrap64 (used + pres_EstimatedUSD req))
               ErrProgramBudgetExceeded in
         do! throwIf (wrap64 (wallet_BalanceUSD w - wallet_ReservedUSD w) <? pres_EstimatedUSD req)
               ErrInsufficientBalance in
         let! inserted := insert_wallet_event (pres_ProviderID req) (ChatCall (pres_InvocationID req))
                            EventReserved (pres_EstimatedUSD req) None now in
         do! sp_unique inserted in
         update_wallet (pres_ProviderID req) 0 (pres_EstimatedUSD req) now
     end).

(** ** Reads of the cost ledger

    The list queries of internal/costledger/postgres/store.go.  Limits are
    non-negative where the code does not check them. *)


(** ** Events *)

Definition ListEvents (providerID : string) (limit : Z) : Spend (list WalletEvent) :=
  let! d := sp_get in
  ret (page limit 0
         (order_by (newest wevent_CreatedAt wevent_ID)
            (filter (fun e => wevent_ProviderID e = providerID)
               (wrow_Event <$> sp_wallet_events d)))).

(** [ORDER BY created_at ASC, id ASC] *)
Definition oldest {A} (created id : A -> Z) (x y : A) : bool :=
  if created x =? created y then id x <=? id y else created x <? created y.

Definition orphaned (l : list WalletEventRow) (olderThan : Instant) (e : WalletEvent) : bool :=
  bool_decide (wevent_Kind e = EventReserved) && (wevent_CreatedAt e <? olderThan)
  && negb (existsb (terminal_of (wevent_ProviderID e) (wevent_Call e)) l).

Definition ListOrphanedReservations (olderThan : Instant) (limit : Z)
    : Spend (list WalletEvent) :=
  let! d := sp_get in
  ret (page limit 0
         (order_by (oldest wevent_CreatedAt wevent_ID)
            (filter (fun e => orphaned (sp_wallet_events d) olderThan e = true)
               (wrow_Event <$> sp_wallet_events d)))).

(** ** Calls *)

Inductive SettlementStatus : Type := SettlementReserved | SettlementCommitted | SettlementReleased.

Record CallBreakdown : Type := mkCallBreakdown {
  call_InvocationID : Z;
  call_OrganizationID : string;
  call_TaskID : Z;
  call_AttemptID : Z;
  call_DispatchActorRoleID : string;
  call_SubjectRoleID : string;
  call_WalletProviderID : string;
  call_InvocationProviderID : string;
  call_ProviderModelID : string;
  call_InvocationStatus : string;
  call_InvocationErrorCode : string;
  call_Settlement : SettlementStatus;
  call_EstimatedUSD : USDNanos;
  call_ChargedUSD : USDNanos;
  call_ReleasedUSD : USDNanos;
  call_InputTokens : Z;
  call_OutputTokens : Z;
  call_TotalTokens : Z;
  call_ProviderReported : bool;
  call_ProviderMismatch : bool;
  call_InvocationCreatedAt : Instant;
  call_InvocationTerminalAt : option Instant;
  call_LastLedgerAt : Instant }.

Record CallBreakdownFilter : Type := mkCallBreakdownFilter {
  filter_TaskID : Z;
  filter_ProviderModelID : string;
  filter_Since : option Instant;
  filter_Until : option Instant }.

Record CallBreakdownCursor : Type := mkCallBreakdownCursor {
  cursor_LastLedgerAt : Instant;
  cursor_InvocationID : Z }.

Definition no_filter : CallBreakdownFilter := mkCallBreakdownFilter 0 "" None None.
Definition start_cursor : CallBreakdownCursor := mkCallBreakdownCursor zeroInstant 0.

(** [MAX(created_at)] of a non-empty group. *)
Definition last_ledger (l : list WalletEventRow) : Instant :=
  match l with
  | [] => zeroInstant
  | first :: rest =>
      foldr (fun r acc => Z.max (wevent_CreatedAt (wrow_Event r)) acc)
        (wevent_CreatedAt (wrow_Event first)) rest
  end.

(** The group of (provider, invocation) and its row, as scanCallBreakdownRows
    reads it. *)
Definition group_of (providerID : string) (i : Z) (l : list WalletEventRow)
    : list WalletEventRow :=
  filter (fun r => wevent_ProviderID (wrow_Event r) = providerID)
    (events_of_invocation i l).

Definition scanCallBreakdownRow (providerID : string) (events : list WalletEventRow) (id : Z)
    (i : ModelInvocation) (u : option InvocationUsage) : CallBreakdown :=
  let charged := max_amount EventCommitted events in
  let released := max_amount EventReleased events in
  mkCallBreakdown id (inv_OrganizationID i) (inv_TaskID i) (inv_AttemptID i)
    (inv_DispatchActorRoleID i) (inv_SubjectRoleID i) providerID (inv_ProviderID i)
    (inv_ProviderModelID i) (inv_Status i) (default EmptyString (inv_ErrorCode i))
    (match charged, released with
     | Some _, _ => SettlementCommitted
     | None, Some _ => SettlementReleased
     | None, None => SettlementReserved
     end)
    (default 0 (max_amount EventReserved events))
    (default 0 charged)
    (match charged, released with None, Some r => r | _, _ => 0 end)
    (default 0 (usage_InputTokens <$> u)) (default 0 (usage_OutputTokens <$> u))
    (default 0 (usage_TotalTokens <$> u)) (default false (usage_ProviderReported <$> u))
    (negb (bool_decide (providerID = inv_ProviderID i)))
    (inv_CreatedAt i) (inv_TerminalAt i) (last_ledger events).

(** The WHERE clause on the invocation. *)
Definition invocation_matches (organizationID : string) (f : CallBreakdownFilter) (i : ModelInvocation)
    : bool :=
  bool_decide (inv_OrganizationID i = organizationID)
  && ((filter_TaskID f <=? 0) || (inv_TaskID i =? filter_TaskID f))
  && (is_empty (filter_ProviderModelID f)
      || bool_decide (inv_ProviderModelID i = filter_ProviderModelID f))
  && null_or (fun t => t <=? inv_CreatedAt i) (filter_Since f)
  && null_or (fun t => inv_CreatedAt i <=? t) (filter_Until f).

(** The groups of the query with their invocation, one row each, unordered. *)
Definition call_rows (organizationID providerID : string) (f : CallBreakdownFilter)
    (d : SpendDB) : list CallBreakdown :=
  (fun '(id, i) => scanCallBreakdownRow providerID (group_of providerID id (sp_wallet_events d))
                     id i (sp_usage d !! id))
  <$> filter (fun '(id, i) => (invocation_matches organizationID f i
        && negb (bool_decide (group_of providerID id (sp_wallet_events d) = []))) = true)
        (map_to_list (sp_invocations d)).

Definition call_order : CallBreakdown -> CallBreakdown -> bool :=
  newest call_LastLedgerAt call_InvocationID.

(** The HAVING clause: strictly after the cursor. *)
Definition after_cursor (cursor : CallBreakdownCursor) (c : CallBreakdown) : bool :=
  (cursor_InvocationID cursor <=? 0)
  || (call_LastLedgerAt c <? cursor_LastLedgerAt cursor)
  || ((call_LastLedgerAt c =? cursor_LastLedgerAt cursor)
      && (call_InvocationID c <? cursor_InvocationID cursor)).

Definition page_size_ok (organizationID providerID : string) (limit : Z) : bool :=
  negb (is_empty organizationID || is_empty providerID || (limit <=? 0) || (1000 <? limit)).

Definition ListCallBreakdowns (organizationID providerID : string) (limit : Z)
    : Spend (list CallBreakdown) :=
  let organizationID := TrimSpace organizationID in
  let providerID := TrimSpace providerID in
  do! throwIf (negb (page_size_ok organizationID providerID limit)) ErrInvalidLedgerRequest in
  let! d := sp_get in
  ret (page limit 0 (order_by call_order (call_rows organizationID providerID no_filter d))).

Definition ListCallBreakdownsFiltered (organizationID providerID : string)
    (f : CallBreakdownFilter) (cursor : CallBreakdownCursor) (limit : Z)
    : Spend (list CallBreakdown * CallBreakdownCursor * bool) :=
  let organizationID := TrimSpace organizationID in
  let providerID := TrimSpace providerID in
  do! throwIf (negb (page_size_ok organizationID providerID limit)) ErrInvalidLedgerRequest in
  let! d := sp_get in
  let values := page (limit + 1) 0
    (order_by call_order
       (filter (fun c => after_cursor cursor c = true) (call_rows organizationID providerID f d))) in
  let hasMore := limit <? Z.of_nat (length values) in
  let values := if hasMore then take (Z.to_nat limit) values else values in
  let next := match hasMore, last values with
    | true, Some c => mkCallBreakdownCursor (call_LastLedgerAt c) (call_InvocationID c)
    | _, _ => start_cursor
    end in
  ret (values, next, hasMore).
