(* ===== verification/LedgerSpec.v ===== *)
(** * The abstract ledger

    What the cost ledger promises: money is held, charged or given back by
    steps on wallets and events, and in every reachable state a wallet's
    reserved amount is the sum of its open reservations. *)

From stdpp Require Import base tactics list gmap strings sorting.
From Stdlib Require Import ZArith Lia.
From S2P Require Import Prelude GoLib TaskDomain Database SpendDB CostLedger.

Local Open Scope Z_scope.

(** ** Steps *)

Definition wallet_moved (x : ProviderWallet) (debit hold : Z) (now : Instant) : ProviderWallet :=
  mkProviderWallet (wallet_ProviderID x) (wallet_BalanceUSD x - debit)
    (wallet_ReservedUSD x + hold) now (wallet_Version x + 1).

Definition new_event (id : Z) (p : string) (c : Call) (k : EventKind) (a : USDNanos)
    (note : option Annotation) (now : Instant) : WalletEventRow :=
  mkWalletEventRow (mkWalletEvent id p c k a now) note.

Definition logged (r : WalletEventRow) (d : SpendDB) : SpendDB :=
  set_wallet_events (sp_wallet_events d ++ [r]) d.

Definition moved (p : string) (x : ProviderWallet) (d : SpendDB) : SpendDB :=
  set_wallets (<[p := x]> (sp_wallets d)) d.

(** A terminal event that settles a reservation; what a subscription consumed
    was never reserved. *)
Definition settles (p : string) (c : Call) (r : WalletEventRow) : bool :=
  terminal_of p c r && negb (bool_decide (wrow_Annotation r = Some SubscriptionResourceConsumed)).

(** [o] names the wallet whose balance an operator sets, if any. *)
Inductive ledger_step (d : SpendDB) : option string -> SpendDB -> Prop :=
| Hold p c a x id now :
    sp_wallets d !! p = Some x -> call_exists c d = true ->
    find_event p c EventReserved (sp_wallet_events d) = None ->
    0 <= a <= wallet_BalanceUSD x - wallet_ReservedUSD x ->
    ledger_step d None (moved p (wallet_moved x 0 a now)
                          (logged (new_event id p c EventReserved a None now) d))
| Settle p c k a r x note id now :
    sp_wallets d !! p = Some x ->
    find_event p c EventReserved (sp_wallet_events d) = Some r ->
    existsb (terminal_of p c) (sp_wallet_events d) = false ->
    (k = EventCommitted /\ 0 <= a \/ k = EventReleased /\ a = 0) ->
    note <> Some SubscriptionResourceConsumed ->
    wallet_ReservedUSD x - wevent_AmountUSD (wrow_Event r) <= wallet_BalanceUSD x - a ->
    ledger_step d None (moved p (wallet_moved x a (- wevent_AmountUSD (wrow_Event r)) now)
                          (logged (new_event id p c k a note now) d))
| Consume p c id now :
    is_some (sp_wallets d !! p) = true -> call_exists c d = true ->
    existsb (terminal_of p c) (sp_wallet_events d) = false ->
    ledger_step d None (logged (new_event id p c EventCommitted 0
                                  (Some SubscriptionResourceConsumed) now) d)
| Open p balance now :
    sp_wallets d !! p = None -> 0 <= balance <= maxInt64 ->
    ledger_step d (Some p) (moved p (new_wallet p balance now) d)
| Fund p x balance now :
    sp_wallets d !! p = Some x -> wallet_ReservedUSD x <= balance <= maxInt64 ->
    ledger_step d (Some p) (moved p (mkProviderWallet (wallet_ProviderID x) balance
                                       (wallet_ReservedUSD x) now (wallet_Version x + 1)) d)
| Annotate p c :
    ledger_step d None (set_wallet_events (map (annotate p c) (sp_wallet_events d)) d)
| Embed id i :
    sp_embeddings d !! id = None ->
    ledger_step d None (set_embeddings (<[id := i]> (sp_embeddings d)) d).

(** Steps that set the balance of no wallet but [o]'s. *)
Definition ledger_steps (o : option string) : SpendDB -> SpendDB -> Prop :=
  rtc (fun d d' => ledger_step d o d').

(** ** Rows *)

Definition row_key (r : WalletEventRow) : string * Call * EventKind :=
  (wevent_ProviderID (wrow_Event r), wevent_Call (wrow_Event r), wevent_Kind (wrow_Event r)).

Definition call_key (r : WalletEventRow) : string * Call :=
  (wevent_ProviderID (wrow_Event r), wevent_Call (wrow_Event r)).

Definition amount (r : WalletEventRow) : USDNanos := wevent_AmountUSD (wrow_Event r).

Definition is_terminal (r : WalletEventRow) : bool := terminal_kind (wevent_Kind (wrow_Event r)).

(** A reservation of wallet [p] that nothing settled. *)
Definition is_open (l : list WalletEventRow) (p : string) (r : WalletEventRow) : bool :=
  bool_decide (wevent_ProviderID (wrow_Event r) = p)
  && bool_decide (wevent_Kind (wrow_Event r) = EventReserved)
  && negb (existsb (settles p (wevent_Call (wrow_Event r))) l).

Definition open_amount (l : list WalletEventRow) (p : string) (r : WalletEventRow) : Z :=
  if is_open l p r then amount r else 0.

(** What the open reservations of a wallet hold. *)
Definition held (l : list WalletEventRow) (p : string) : Z := total (open_amount l p) l.

(** What was charged to a wallet. *)
Definition charged (l : list WalletEventRow) (p : string) : Z :=
  total (fun r => if bool_decide (wevent_ProviderID (wrow_Event r) = p)
                     && bool_decide (wevent_Kind (wrow_Event r) = EventCommitted)
                  then amount r else 0) l.

(** The invariant of the ledger. *)
Record ledger_inv (d : SpendDB) : Prop := {
  inv_wallets : forall p x, sp_wallets d !! p = Some x ->
    wallet_ProviderID x = p /\ wallet_BalanceUSD x <= maxInt64
    /\ 0 <= wallet_ReservedUSD x <= wallet_BalanceUSD x
    /\ wallet_ReservedUSD x = held (sp_wallet_events d) p;
  inv_events : forall r, r ∈ sp_wallet_events d ->
    is_Some (sp_wallets d !! wevent_ProviderID (wrow_Event r)) /\ 0 <= amount r;
  inv_kinds : NoDup (row_key <$> sp_wallet_events d);
  inv_terminal : NoDup (call_key <$> filter (fun r => is_terminal r = true) (sp_wallet_events d));
  inv_settled : forall r, r ∈ sp_wallet_events d -> is_terminal r = true ->
    wrow_Annotation r <> Some SubscriptionResourceConsumed ->
    find_event (wevent_ProviderID (wrow_Event r)) (wevent_Call (wrow_Event r)) EventReserved
      (sp_wallet_events d) <> None }.

(** ** Lemmas on rows *)

Lemma of_call_key (p : string) (c : Call) (k : EventKind) (r : WalletEventRow) :
  of_call p c k r = true <-> row_key r = (p, c, k).
Proof.
  unfold of_call, row_key. rewrite !andb_true_iff, !bool_decide_eq_true. naive_solver.
Qed.

Lemma terminal_of_key (p : string) (c : Call) (r : WalletEventRow) :
  terminal_of p c r = true <-> call_key r = (p, c) /\ is_terminal r = true.
Proof.
  unfold terminal_of, call_key, is_terminal. rewrite !andb_true_iff, !bool_decide_eq_true.
  naive_solver.
Qed.

Lemma settles_spec (p : string) (c : Call) (r : WalletEventRow) :
  settles p c r = true
  <-> call_key r = (p, c) /\ is_terminal r = true
      /\ wrow_Annotation r <> Some SubscriptionResourceConsumed.
Proof.
  unfold settles. rewrite andb_true_iff, negb_true_iff, bool_decide_eq_false, terminal_of_key.
  naive_solver.
Qed.

Lemma find_event_some (p : string) (c : Call) (k : EventKind) (l : list WalletEventRow)
    (r : WalletEventRow) : find_event p c k l = Some r -> r ∈ l /\ row_key r = (p, c, k).
Proof.
  unfold find_event. intros H. assert (Hin : r ∈ filter (fun r => of_call p c k r = true) l).
  { destruct (filter _ l); [done|]. simpl in H. injection H as ->. left. }
  apply list_elem_of_filter in Hin as [Hk%of_call_key Hin]. done.
Qed.

Lemma find_event_none (p : string) (c : Call) (k : EventKind) (l : list WalletEventRow) :
  find_event p c k l = None <-> forall r, r ∈ l -> row_key r <> (p, c, k).
Proof.
  unfold find_event. split.
  - intros H r Hr Hk. assert (Hin : r ∈ filter (fun r => of_call p c k r = true) l).
    { apply list_elem_of_filter. split; [by apply of_call_key|done]. }
    destruct (filter _ l); [by apply not_elem_of_nil in Hin|done].
  - intros H. destruct (filter _ l) as [|r k'] eqn:Hf; [done|].
    assert (Hin : r ∈ filter (fun r => of_call p c k r = true) l) by (rewrite Hf; left).
    apply list_elem_of_filter in Hin as [Hk%of_call_key Hin]. by destruct (H r Hin).
Qed.

Lemma existsb_false_in {A} (f : A -> bool) (l : list A) :
  existsb f l = false <-> forall x, x ∈ l -> f x = false.
Proof.
  induction l as [|y l IH]; simpl; [split; [|done]; intros _ x Hx; by apply not_elem_of_nil in Hx|].
  rewrite orb_false_iff, IH. setoid_rewrite elem_of_cons. naive_solver.
Qed.

Lemma existsb_in {A} (f : A -> bool) (l : list A) :
  existsb f l = true <-> exists x, x ∈ l /\ f x = true.
Proof. rewrite existsb_exists. by setoid_rewrite list_elem_of_In. Qed.

(** ** The ledger's invariant

    Every step of the abstract ledger keeps the invariant of LedgerSpec.v. *)


Local Arguments new_event : simpl never.
Local Arguments held : simpl never.
Local Arguments charged : simpl never.

(** ** What a new event changes *)

Lemma held_app (l : list WalletEventRow) (r : WalletEventRow) (p : string) :
  held (l ++ [r]) p = total (open_amount (l ++ [r]) p) l + open_amount (l ++ [r]) p r.
Proof. unfold held. rewrite total_app, total_cons. cbn. lia. Qed.

Lemma is_open_app (l : list WalletEventRow) (r x : WalletEventRow) (p : string) :
  is_open (l ++ [r]) p x = is_open l p x && negb (settles p (wevent_Call (wrow_Event x)) r).
Proof.
  unfold is_open. rewrite existsb_app. cbn [existsb]. rewrite orb_false_r, negb_orb.
  by rewrite !andb_assoc.
Qed.

(** An event that settles nothing leaves the open reservations open. *)
Lemma held_unsettled (l : list WalletEventRow) (r : WalletEventRow) (p : string) :
  (forall c, settles p c r = false) -> held (l ++ [r]) p = held l p + open_amount l p r.
Proof.
  intros Hr. rewrite held_app. unfold open_amount.
  rewrite is_open_app, Hr, andb_true_r. f_equal. apply total_ext. intros x _.
  by rewrite is_open_app, Hr, andb_true_r.
Qed.

Lemma open_amount_not_reserved (l : list WalletEventRow) (p : string) (r : WalletEventRow) :
  wevent_Kind (wrow_Event r) <> EventReserved -> open_amount l p r = 0.
Proof.
  intros Hk. unfold open_amount, is_open. rewrite (bool_decide_false (_ = EventReserved)) by done.
  by rewrite andb_false_r.
Qed.

(** A terminal event settles the one reservation of its call. *)
Lemma held_settled (l : list WalletEventRow) (x r : WalletEventRow) (p p0 : string) (c : Call) :
  NoDup (row_key <$> l) -> x ∈ l -> row_key x = (p, c, EventReserved) ->
  existsb (terminal_of p c) l = false -> settles p c r = true ->
  held (l ++ [r]) p0 = held l p0 - (if decide (p0 = p) then amount x else 0).
Proof.
  intros Hnd Hx Hkey Hterm Hr. pose proof Hr as Hr'. apply settles_spec in Hr' as (Hck & Htm & Hno).
  rewrite held_app, open_amount_not_reserved.
  2:{ unfold is_terminal in Htm. by destruct (wevent_Kind _). }
  rewrite Z.add_0_r.
  assert (Hsum : total (open_amount (l ++ [r]) p0) l
    = total (fun y => open_amount l p0 y
        - (if bool_decide (row_key y = row_key x) then (if decide (p0 = p) then amount y else 0)
           else 0)) l).
  { apply total_ext. intros y Hy. unfold open_amount. rewrite is_open_app.
    destruct (bool_decide (row_key y = row_key x)) eqn:Hyk.
    - apply bool_decide_eq_true in Hyk. rewrite Hkey in Hyk. injection Hyk as Hp Hc Hk.
      rewrite Hc. destruct (decide (p0 = p)) as [->|Hne].
      + rewrite Hr, andb_false_r.
        assert (Hop : is_open l p y = true); [|rewrite Hop; lia].
        unfold is_open. rewrite Hp, Hk, Hc, !bool_decide_true by done. simpl.
        rewrite negb_true_iff. apply existsb_false_in. intros z Hz.
        rewrite existsb_false_in in Hterm. unfold settles. by rewrite Hterm.
      + assert (Hs : is_open l p0 y = false); [|rewrite Hs; simpl; lia].
        unfold is_open. rewrite Hp, bool_decide_false; [done|congruence].
    - apply bool_decide_eq_false in Hyk.
      destruct (is_open l p0 y) eqn:Hop; [|simpl; lia].
      destruct (settles p0 (wevent_Call (wrow_Event y)) r) eqn:Hs; [|simpl; lia].
      exfalso. apply Hyk. apply settles_spec in Hs as (Hs & _ & _). rewrite Hck in Hs.
      injection Hs as -> Hc. unfold is_open in Hop. rewrite !andb_true_iff, !bool_decide_eq_true in Hop.
      destruct Hop as ((Hpy & Hky) & _). rewrite Hkey. unfold row_key. by rewrite Hpy, <- Hc, Hky. }
  rewrite Hsum, total_sub. unfold held. f_equal.
  rewrite (total_key row_key (fun y => if decide (p0 = p) then amount y else 0) l x) by done.
  done.
Qed.

(** ** Annotations *)

Lemma annotate_event (p : string) (c : Call) (r : WalletEventRow) :
  wrow_Event (annotate p c r) = wrow_Event r.
Proof. unfold annotate. by destruct (_ && _). Qed.

Lemma annotate_terminal (p : string) (c : Call) (r : WalletEventRow) :
  is_terminal r = true -> annotate p c r = r.
Proof.
  unfold annotate, of_call, is_terminal. intros Ht.
  rewrite (bool_decide_false (_ = EventReserved)) by (intros Hk; by rewrite Hk in Ht).
  by rewrite andb_false_r.
Qed.

Lemma annotate_key (p : string) (c : Call) (r : WalletEventRow) :
  row_key (annotate p c r) = row_key r.
Proof. unfold row_key. by rewrite annotate_event. Qed.

Lemma annotate_is_terminal (p : string) (c : Call) (r : WalletEventRow) :
  is_terminal (annotate p c r) = is_terminal r.
Proof. unfold is_terminal. by rewrite annotate_event. Qed.

Lemma annotate_settles (p p' : string) (c c' : Call) (r : WalletEventRow) :
  settles p' c' (annotate p c r) = settles p' c' r.
Proof.
  destruct (is_terminal r) eqn:Ht; [by rewrite annotate_terminal|].
  unfold settles, terminal_of. pose proof (annotate_is_terminal p c r) as Ha. rewrite Ht in Ha.
  unfold is_terminal in Ht, Ha. by rewrite Ht, Ha, !andb_false_r.
Qed.

Lemma existsb_map {A B} (f : B -> bool) (g : A -> B) (l : list A) :
  existsb f (map g l) = existsb (fun x => f (g x)) l.
Proof. induction l as [|x l IH]; simpl; [done|by rewrite IH]. Qed.

Lemma existsb_ext {A} (f g : A -> bool) (l : list A) :
  (forall x, f x = g x) -> existsb f l = existsb g l.
Proof. intros Hfg. induction l as [|x l IH]; simpl; [done|by rewrite Hfg, IH]. Qed.

Lemma annotate_held (p p' : string) (c : Call) (l : list WalletEventRow) :
  held (map (annotate p c) l) p' = held l p'.
Proof.
  unfold held. rewrite total_map. apply total_ext. intros x _.
  unfold open_amount, is_open, amount. rewrite annotate_event, existsb_map.
  by rewrite (existsb_ext _ (settles p' (wevent_Call (wrow_Event x))))
    by (intros y; apply annotate_settles).
Qed.

Lemma annotate_find (p p' : string) (c c' : Call) (k : EventKind) (l : list WalletEventRow) :
  find_event p' c' k (map (annotate p c) l) = annotate p c <$> find_event p' c' k l.
Proof.
  unfold find_event. induction l as [|x l IH]; [done|]. simpl map.
  rewrite !filter_cons. unfold of_call. rewrite annotate_event.
  destruct (decide _); [done|apply IH].
Qed.

Lemma filter_map_comm {A} (f : A -> bool) (g : A -> A) (l : list A) :
  (forall x, f (g x) = f x) ->
  filter (fun x => f x = true) (map g l) = map g (filter (fun x => f x = true) l).
Proof.
  intros Hf. induction l as [|x l IH]; [done|]. simpl map. rewrite !filter_cons, Hf.
  destruct (decide (f x = true)); simpl; [by rewrite IH|done].
Qed.

Lemma annotate_keys {K} (key : WalletEventRow -> K) (p : string) (c : Call)
    (l : list WalletEventRow) :
  (forall r, key (annotate p c r) = key r) -> key <$> map (annotate p c) l = key <$> l.
Proof.
  intros Hk. induction l as [|x l IH]; [done|]. cbn [map]. rewrite !fmap_cons, Hk. by f_equal.
Qed.

(** ** Steps *)

Section Step.
Context (d : SpendDB) (Hinv : ledger_inv d).

Let l := sp_wallet_events d.

(** Events of a call without a reservation: nothing settles it either. *)
Lemma unreserved_unsettled (p : string) (c : Call) (r : WalletEventRow) :
  find_event p c EventReserved l = None -> r ∈ l -> settles p c r = false.
Proof.
  intros Hf Hr. destruct (settles p c r) eqn:Hs; [|done]. exfalso.
  apply settles_spec in Hs as (Hk & Ht & Hno).
  pose proof (inv_settled d Hinv r Hr Ht Hno) as H. unfold call_key in Hk.
  injection Hk as Hp Hc. rewrite Hp, Hc in H. done.
Qed.

Lemma keys_snoc (r : WalletEventRow) :
  (forall x, x ∈ l -> row_key x <> row_key r) -> NoDup (row_key <$> l ++ [r]).
Proof.
  intros Hk. rewrite fmap_app. apply NoDup_app. split; [apply (inv_kinds d Hinv)|].
  split; [|apply NoDup_singleton].
  intros k Hin [= ->]%list_elem_of_singleton. apply list_elem_of_fmap in Hin as (x & Heq & Hx).
  by apply (Hk x Hx).
Qed.

Lemma terminal_snoc (r : WalletEventRow) :
  (is_terminal r = true ->
   existsb (terminal_of (wevent_ProviderID (wrow_Event r)) (wevent_Call (wrow_Event r))) l = false) ->
  NoDup (call_key <$> filter (fun r => is_terminal r = true) (l ++ [r])).
Proof.
  intros Ht. rewrite filter_app, fmap_app. apply NoDup_app.
  split; [apply (inv_terminal d Hinv)|]. split.
  - intros k Hin Hr. rewrite filter_cons, filter_nil in Hr. case_decide as Hterm.
    2:{ by apply not_elem_of_nil in Hr. }
    apply list_elem_of_singleton in Hr as ->. apply list_elem_of_fmap in Hin as (x & Heq & Hx).
    apply list_elem_of_filter in Hx as [Htx Hx]. specialize (Ht Hterm).
    rewrite existsb_false_in in Ht. specialize (Ht x Hx).
    apply not_true_iff_false in Ht. apply Ht, terminal_of_key. split; [|done]. by rewrite <- Heq.
  - rewrite filter_cons, filter_nil. case_decide; [apply NoDup_singleton|constructor].
Qed.

Lemma find_event_snoc (p : string) (c : Call) (r : WalletEventRow) :
  find_event p c EventReserved l <> None -> find_event p c EventReserved (l ++ [r]) <> None.
Proof.
  rewrite !find_event_none. intros H Hn. apply H. intros x Hx. apply Hn, elem_of_app. by left.
Qed.

Lemma settled_snoc (r : WalletEventRow) :
  (is_terminal r = true -> wrow_Annotation r <> Some SubscriptionResourceConsumed ->
   find_event (wevent_ProviderID (wrow_Event r)) (wevent_Call (wrow_Event r)) EventReserved l <> None) ->
  forall x, x ∈ l ++ [r] -> is_terminal x = true ->
    wrow_Annotation x <> Some SubscriptionResourceConsumed ->
    find_event (wevent_ProviderID (wrow_Event x)) (wevent_Call (wrow_Event x)) EventReserved
      (l ++ [r]) <> None.
Proof.
  intros Hr x [Hx| ->%list_elem_of_singleton]%elem_of_app Ht Hno; apply find_event_snoc; auto.
  by apply (inv_settled d Hinv).
Qed.

Lemma events_snoc (r : WalletEventRow) (ws : gmap string ProviderWallet) :
  (forall p, is_Some (sp_wallets d !! p) -> is_Some (ws !! p)) ->
  is_Some (sp_wallets d !! wevent_ProviderID (wrow_Event r)) -> 0 <= amount r ->
  forall x, x ∈ l ++ [r] -> is_Some (ws !! wevent_ProviderID (wrow_Event x)) /\ 0 <= amount x.
Proof.
  intros Hws Hp Ha x [Hx| ->%list_elem_of_singleton]%elem_of_app; [|auto].
  destruct (inv_events d Hinv x Hx) as [? ?]. auto.
Qed.

End Step.

Lemma is_Some_insert {A} (m : gmap string A) (k : string) (v : A) (p : string) :
  is_Some (m !! p) -> is_Some (<[k := v]> m !! p).
Proof.
  intros Hp. destruct (decide (k = p)) as [->|]; [by rewrite lookup_insert_eq|].
  by rewrite lookup_insert_ne.
Qed.

Lemma hold_inv (d : SpendDB) (p : string) (c : Call) (a id now : Z) (x : ProviderWallet) :
  ledger_inv d -> sp_wallets d !! p = Some x ->
  find_event p c EventReserved (sp_wallet_events d) = None ->
  0 <= a <= wallet_BalanceUSD x - wallet_ReservedUSD x ->
  ledger_inv (moved p (wallet_moved x 0 a now)
                (logged (new_event id p c EventReserved a None now) d)).
Proof.
  intros Hinv Hx Hf Ha. set (r := new_event id p c EventReserved a None now).
  destruct (inv_wallets d Hinv p x Hx) as (Hid & Hmax & Hres & Hheld).
  assert (Hun : forall q, held (sp_wallet_events d ++ [r]) q
                = held (sp_wallet_events d) q + (if decide (q = p) then a else 0)).
  { intros q. rewrite held_unsettled.
    2:{ intros c'. apply not_true_iff_false. rewrite settles_spec. by intros (_ & ? & _). }
    f_equal. unfold open_amount, is_open. cbn. rewrite andb_true_r. case_decide as Hq.
    - rewrite bool_decide_true by done. subst q. simpl.
      rewrite (proj2 (existsb_false_in _ _)); [done|].
      intros y Hy. by apply (unreserved_unsettled d Hinv).
    - by rewrite bool_decide_false. }
  split; cbn; fold r.
  - intros q y Hq. rewrite Hun. destruct (decide (q = p)) as [->|Hne].
    + rewrite lookup_insert_eq in Hq. injection Hq as <-. simpl. split_and!; try done; lia.
    + rewrite lookup_insert_ne in Hq by done. destruct (inv_wallets d Hinv q y Hq). split; [done|].
      rewrite Z.add_0_r. done.
  - apply (events_snoc d Hinv r); [intros ? ?; by apply is_Some_insert|by exists x|by apply Ha].
  - apply (keys_snoc d Hinv r). rewrite find_event_none in Hf. intros y Hy. by apply Hf.
  - by apply (terminal_snoc d Hinv r).
  - by apply (settled_snoc d Hinv r).
Qed.

Lemma settle_inv (d : SpendDB) (p : string) (c : Call) (k : EventKind) (a id now : Z)
    (note : option Annotation) (res : WalletEventRow) (x : ProviderWallet) :
  ledger_inv d -> sp_wallets d !! p = Some x ->
  find_event p c EventReserved (sp_wallet_events d) = Some res ->
  existsb (terminal_of p c) (sp_wallet_events d) = false ->
  (k = EventCommitted /\ 0 <= a \/ k = EventReleased /\ a = 0) ->
  note <> Some SubscriptionResourceConsumed ->
  wallet_ReservedUSD x - amount res <= wallet_BalanceUSD x - a ->
  ledger_inv (moved p (wallet_moved x a (- amount res) now)
                (logged (new_event id p c k a note now) d)).
Proof.
  intros Hinv Hx Hf Hterm Hk Hnote Hroom. set (r := new_event id p c k a note now).
  destruct (inv_wallets d Hinv p x Hx) as (Hid & Hmax & Hres & Hheld).
  apply find_event_some in Hf as Hres'. destruct Hres' as [Hin Hkey].
  assert (Hkt : terminal_kind k = true) by (destruct Hk as [[-> _]|[-> _]]; done).
  assert (Hs : settles p c r = true) by (apply settles_spec; done).
  pose proof (fun q => held_settled (sp_wallet_events d) res r p q c (inv_kinds d Hinv) Hin Hkey
                Hterm Hs) as Hun.
  assert (Hle : amount res <= held (sp_wallet_events d) p).
  { assert (0 <= held (sp_wallet_events d ++ [r]) p); [|specialize (Hun p); rewrite decide_True in Hun by done; lia].
    apply total_nonneg. intros y Hy. unfold open_amount. case_match; [|done].
    apply elem_of_app in Hy as [Hy|Hy%list_elem_of_singleton].
    - by apply (inv_events d Hinv).
    - subst y. unfold amount. simpl. destruct Hk as [[_ ?]|[_ ?]]; lia. }
  split; cbn; fold r.
  - intros q y Hq. rewrite Hun. destruct (decide (q = p)) as [->|Hne].
    + rewrite lookup_insert_eq in Hq. injection Hq as <-. simpl.
      assert (0 <= a) by (destruct Hk as [[_ ?]|[_ ?]]; lia).
      split_and!; try done; lia.
    + rewrite lookup_insert_ne in Hq by done. destruct (inv_wallets d Hinv q y Hq). split; [done|].
      rewrite Z.sub_0_r. done.
  - apply (events_snoc d Hinv r); [intros ? ?; by apply is_Some_insert|by exists x|].
    unfold amount. simpl. destruct Hk as [[_ ?]|[_ ?]]; lia.
  - apply (keys_snoc d Hinv r). intros y Hy Heq. rewrite existsb_false_in in Hterm.
    specialize (Hterm y Hy). apply not_true_iff_false in Hterm. apply Hterm, terminal_of_key.
    unfold row_key in Heq. injection Heq as Hp Hc Hky. unfold call_key, is_terminal.
    rewrite Hp, Hc, Hky. done.
  - by apply (terminal_snoc d Hinv r).
  - apply (settled_snoc d Hinv r). intros _ _. simpl. by rewrite Hf.
Qed.

Lemma consume_inv (d : SpendDB) (p : string) (c : Call) (id now : Z) :
  ledger_inv d -> is_some (sp_wallets d !! p) = true ->
  existsb (terminal_of p c) (sp_wallet_events d) = false ->
  ledger_inv (logged (new_event id p c EventCommitted 0 (Some SubscriptionResourceConsumed) now) d).
Proof.
  intros Hinv Hp Hterm.
  set (r := new_event id p c EventCommitted 0 (Some SubscriptionResourceConsumed) now).
  split; cbn; fold r.
  - intros q y Hq. rewrite held_unsettled.
    2:{ intros c'. apply not_true_iff_false. rewrite settles_spec. by intros (_ & _ & []). }
    rewrite open_amount_not_reserved, Z.add_0_r by done. by apply (inv_wallets d Hinv).
  - apply (events_snoc d Hinv r); [done| |done].
    change (is_Some (sp_wallets d !! p)). by destruct (sp_wallets d !! p); [eexists|].
  - apply (keys_snoc d Hinv r). intros y Hy Heq. rewrite existsb_false_in in Hterm.
    specialize (Hterm y Hy). apply not_true_iff_false in Hterm. apply Hterm, terminal_of_key.
    unfold row_key in Heq. injection Heq as Hpy Hc Hky. unfold call_key, is_terminal.
    rewrite Hpy, Hc, Hky. done.
  - by apply (terminal_snoc d Hinv r).
  - by apply (settled_snoc d Hinv r).
Qed.

(** A wallet no event names holds nothing. *)
Lemma held_unknown (d : SpendDB) (p : string) :
  ledger_inv d -> sp_wallets d !! p = None -> held (sp_wallet_events d) p = 0.
Proof.
  intros Hinv Hp. apply total_zero. intros r Hr. unfold open_amount, is_open.
  rewrite bool_decide_false; [done|]. intros Heq. destruct (inv_events d Hinv r Hr) as [[y Hy] _].
  rewrite Heq in Hy. congruence.
Qed.

Lemma wallet_written_inv (d : SpendDB) (p : string) (x : ProviderWallet) :
  ledger_inv d -> wallet_ProviderID x = p -> wallet_BalanceUSD x <= maxInt64 ->
  0 <= wallet_ReservedUSD x <= wallet_BalanceUSD x ->
  wallet_ReservedUSD x = held (sp_wallet_events d) p -> ledger_inv (moved p x d).
Proof.
  intros Hinv Hid Hmax Hres Hheld. split; cbn.
  - intros q y Hq. destruct (decide (q = p)) as [->|Hne].
    + rewrite lookup_insert_eq in Hq. by injection Hq as <-.
    + rewrite lookup_insert_ne in Hq by done. by apply (inv_wallets d Hinv).
  - intros r Hr. destruct (inv_events d Hinv r Hr). split; [by apply is_Some_insert|done].
  - apply (inv_kinds d Hinv).
  - apply (inv_terminal d Hinv).
  - apply (inv_settled d Hinv).
Qed.

Lemma annotate_inv (d : SpendDB) (p : string) (c : Call) :
  ledger_inv d -> ledger_inv (set_wallet_events (map (annotate p c) (sp_wallet_events d)) d).
Proof.
  intros Hinv. split; cbn.
  - intros q y Hq. rewrite annotate_held. by apply (inv_wallets d Hinv).
  - intros r Hr. apply list_elem_of_fmap in Hr as (y & -> & Hy). unfold amount.
    rewrite annotate_event. by apply (inv_events d Hinv).
  - rewrite annotate_keys; [apply (inv_kinds d Hinv)|]. intros r. apply annotate_key.
  - rewrite filter_map_comm by (intros r; apply annotate_is_terminal).
    rewrite annotate_keys; [apply (inv_terminal d Hinv)|]. intros r. unfold call_key.
    by rewrite annotate_event.
  - intros r Hr Ht Hno. apply list_elem_of_fmap in Hr as (y & -> & Hy).
    rewrite annotate_is_terminal in Ht. rewrite annotate_terminal in Hno |- * by done.
    rewrite annotate_find. pose proof (inv_settled d Hinv y Hy Ht Hno) as H.
    by destruct (find_event _ _ _ _).
Qed.

Lemma ledger_step_inv (d d' : SpendDB) (o : option string) :
  ledger_step d o d' -> ledger_inv d -> ledger_inv d'.
Proof.
  intros Hs Hinv. destruct Hs.
  - by eapply hold_inv.
  - by eapply settle_inv.
  - by apply consume_inv.
  - apply wallet_written_inv; simpl; try done; [lia|lia|]. by rewrite held_unknown.
  - destruct (inv_wallets d Hinv p x) as (? & ? & ? & ?); [done|].
    apply wallet_written_inv; simpl; try done; lia.
  - by apply annotate_inv.
  - destruct Hinv. by split.
Qed.

Lemma ledger_steps_inv (o : option string) (d d' : SpendDB) :
  ledger_steps o d d' -> ledger_inv d -> ledger_inv d'.
Proof. induction 1; eauto using ledger_step_inv. Qed.

(** ** Money *)

Lemma charged_app (l : list WalletEventRow) (r : WalletEventRow) (p : string) :
  charged (l ++ [r]) p = charged l p
    + (if bool_decide (wevent_ProviderID (wrow_Event r) = p)
          && bool_decide (wevent_Kind (wrow_Event r) = EventCommitted) then amount r else 0).
Proof. unfold charged. rewrite total_app, total_cons. cbn. lia. Qed.

Lemma annotate_charged (p p' : string) (c : Call) (l : list WalletEventRow) :
  charged (map (annotate p c) l) p' = charged l p'.
Proof.
  unfold charged. rewrite total_map. apply total_ext. intros x _.
  unfold amount. by rewrite annotate_event.
Qed.

(** What a step does to the wallet of a provider: the balance drops by what
    was charged, unless an operator set it. *)
Lemma ledger_step_wallet (d d' : SpendDB) (o : option string) (p : string) (x : ProviderWallet) :
  ledger_step d o d' -> sp_wallets d !! p = Some x ->
  exists x', sp_wallets d' !! p = Some x'
    /\ (o <> Some p -> wallet_BalanceUSD x' + charged (sp_wallet_events d') p
                       = wallet_BalanceUSD x + charged (sp_wallet_events d) p).
Proof.
  intros Hs Hx.
  assert (Hmoved : forall q y (e : list WalletEventRow), (q <> p -> charged e p = charged (sp_wallet_events d) p) ->
    (q = p -> (o <> Some p -> wallet_BalanceUSD y + charged e p
                = wallet_BalanceUSD x + charged (sp_wallet_events d) p)) ->
    exists x', <[q := y]> (sp_wallets d) !! p = Some x'
    /\ (o <> Some p -> wallet_BalanceUSD x' + charged e p
                       = wallet_BalanceUSD x + charged (sp_wallet_events d) p)).
  { intros q y e Hne Heq. destruct (decide (q = p)) as [->|Hqp].
    - exists y. rewrite lookup_insert_eq. auto.
    - exists x. rewrite lookup_insert_ne by done. split; [done|]. by rewrite Hne. }
  assert (Hother : forall q c k a note id now, q <> p ->
    charged (sp_wallet_events d ++ [new_event id q c k a note now]) p
    = charged (sp_wallet_events d) p).
  { intros q c k a note id now Hq. rewrite charged_app. simpl.
    rewrite bool_decide_false by done. simpl. lia. }
  assert (Hsame : forall c k a note id now,
    charged (sp_wallet_events d ++ [new_event id p c k a note now]) p
    = charged (sp_wallet_events d) p + match k with EventCommitted => a | _ => 0 end).
  { intros c k a note id now. rewrite charged_app. cbv [new_event]. cbn.
    rewrite bool_decide_true by done. by destruct k. }
  destruct Hs as [q c a y id now Hq|q c k a r y note id now Hq Hf Ht Hk|q c id now Hq|q balance now Hq
    |q y balance now Hq|q c|id i].
  - apply Hmoved; [apply Hother|]. intros -> _. cbn. rewrite Hsame. cbn.
    replace y with x by congruence. lia.
  - apply Hmoved; [apply Hother|]. intros -> _. cbn. rewrite Hsame.
    replace y with x by congruence. destruct Hk as [[-> ?]|[-> ->]]; cbn; lia.
  - exists x. split; [done|]. intros _. cbn. destruct (decide (q = p)) as [->|Hqp].
    + rewrite Hsame. cbn. lia.
    + by rewrite Hother.
  - apply Hmoved; [done|]. by intros ->.
  - apply Hmoved; [done|]. by intros ->.
  - exists x. split; [done|]. intros _. cbn. by rewrite annotate_charged.
  - by exists x.
Qed.

(** ** The events only grow, up to annotations *)

Lemma ledger_step_events (d d' : SpendDB) (o : option string) :
  ledger_step d o d' ->
  exists l, wrow_Event <$> sp_wallet_events d' = (wrow_Event <$> sp_wallet_events d) ++ l.
Proof.
  intros Hs. destruct Hs; cbn; try (rewrite fmap_app; by eexists); try (exists []; by rewrite app_nil_r).
  exists []. rewrite app_nil_r. apply annotate_keys. intros r. apply annotate_event.
Qed.

Lemma ledger_steps_events (o : option string) (d d' : SpendDB) :
  ledger_steps o d d' ->
  exists l, wrow_Event <$> sp_wallet_events d' = (wrow_Event <$> sp_wallet_events d) ++ l.
Proof.
  induction 1 as [|d d1 d' H1 _ (l & IH)]; [exists []; by rewrite app_nil_r|].
  apply ledger_step_events in H1 as (k & Hk). exists (k ++ l). by rewrite IH, Hk, app_assoc.
Qed.

Lemma ledger_steps_wallet (o : option string) (d d' : SpendDB) (p : string) (x : ProviderWallet) :
  ledger_steps o d d' -> sp_wallets d !! p = Some x ->
  exists x', sp_wallets d' !! p = Some x'
    /\ (o <> Some p -> wallet_BalanceUSD x' + charged (sp_wallet_events d') p
                       = wallet_BalanceUSD x + charged (sp_wallet_events d) p).
Proof.
  intros Hs. revert x. induction Hs as [d|d d1 d' H1 _ IH]; intros x Hx; [by exists x|].
  destruct (ledger_step_wallet _ _ _ _ _ H1 Hx) as (x1 & Hx1 & He1).
  destruct (IH x1 Hx1) as (x' & Hx' & He). exists x'. split; [done|].
  intros Ho. rewrite He, He1 by done. done.
Qed.
