(* ===== verification/LedgerRefine.v ===== *)
(** * The cost ledger implements the abstract one

    Every method of internal/costledger/postgres, on every branch, takes the
    tables by steps of LedgerSpec.v. *)

From stdpp Require Import base tactics list gmap strings sorting.
From Stdlib Require Import ZArith Lia.
From S2P Require Import Prelude GoLib TaskDomain Database SpendDB Pricing CostLedger LedgerSpec.

Local Open Scope Z_scope.

(** ** Statements *)

Lemma lockWallet_ok (p : string) (x : ProviderWallet) (w w' : SpendWorld) :
  lockWallet p w = (Ok x, w') <-> sp_wallets (sw_db w) !! p = Some x /\ w' = w.
Proof.
  unfold lockWallet, sp_get, bind. destruct (sp_wallets (sw_db w) !! p) as [y|].
  - rewrite ret_ok. naive_solver.
  - rewrite throw_ok. naive_solver.
Qed.

Lemma select_reserved_run (p : string) (c : Call) (w : SpendWorld) :
  select_reserved p c w = (Ok (amount <$> find_event p c EventReserved (sp_wallet_events (sw_db w))), w).
Proof. done. Qed.

Lemma reserved_amount_ok (p : string) (c : Call) (a : Z) (w w' : SpendWorld) :
  reserved_amount p c w = (Ok a, w')
  <-> w' = w /\ exists r, find_event p c EventReserved (sp_wallet_events (sw_db w)) = Some r
                          /\ a = amount r.
Proof.
  unfold reserved_amount, bind. rewrite select_reserved_run.
  destruct (find_event _ _ _ _) as [r|]; simpl.
  - rewrite ret_ok. naive_solver.
  - rewrite throw_ok. naive_solver.
Qed.

(** An insertion either finds the row, or appends it under the constraints. *)
Lemma insert_wallet_event_ok (p : string) (c : Call) (k : EventKind) (a : USDNanos)
    (note : option Annotation) (now : Instant) (b : bool) (w w' : SpendWorld) :
  insert_wallet_event p c k a note now w = (Ok b, w') ->
  0 <= a /\
  if b then
    find_event p c k (sp_wallet_events (sw_db w)) = None
    /\ (terminal_kind k = true -> existsb (terminal_of p c) (sp_wallet_events (sw_db w)) = false)
    /\ is_some (sp_wallets (sw_db w) !! p) = true /\ call_exists c (sw_db w) = true
    /\ exists id, sw_db w' = logged (new_event id p c k a note now) (sw_db w)
  else find_event p c k (sp_wallet_events (sw_db w)) <> None /\ sw_db w' = sw_db w.
Proof.
  unfold insert_wallet_event. intros H.
  apply bind_ok in H as (id & w1 & H1 & H). apply sp_nextval_ok in H1 as (_ & Hd & _).
  apply bind_ok in H as ([] & w2 & [Ha ->]%sp_guard_ok & H). apply Z.leb_le in Ha.
  apply bind_ok in H as (d & w3 & [-> ->]%sp_get_ok & H). split; [done|].
  rewrite Hd in H. destruct (find_event p c k _) as [r|]; simpl in H.
  - apply ret_ok in H as [-> ->]. done.
  - apply bind_ok in H as ([] & w4 & [Hu ->]%sp_guard_ok & H).
    apply bind_ok in H as ([] & w5 & [Hf ->]%sp_guard_ok & H).
    apply bind_ok in H as ([] & w6 & ->%sp_modify_ok & H). apply ret_ok in H as [-> ->].
    apply andb_true_iff in Hf as [Hp Hc]. rewrite negb_true_iff, andb_false_iff in Hu.
    split_and!; try done.
    + intros Ht. destruct Hu as [Hu|Hu]; [congruence|done].
    + exists id. cbn. by rewrite Hd.
Qed.

Lemma on_unique_violation_ok {A} (e : SpendError) (m : Spend A) (a : A) (w w' : SpendWorld) :
  on_unique_violation e m w = (Ok a, w') <-> m w = (Ok a, w').
Proof. unfold on_unique_violation. destruct (m w) as [[]]; naive_solver. Qed.

Lemma update_wallet_ok (p : string) (debit hold : Z) (now : Instant) (x : ProviderWallet)
    (u : unit) (w w' : SpendWorld) :
  sp_wallets (sw_db w) !! p = Some x -> update_wallet p debit hold now w = (Ok u, w') ->
  sw_db w' = moved p (wallet_moved x debit hold now) (sw_db w)
  /\ wallet_check (wallet_moved x debit hold now) = true.
Proof.
  intros Hx H. unfold update_wallet in H.
  apply bind_ok in H as (d & w1 & [-> ->]%sp_get_ok & H). rewrite Hx in H.
  apply bind_ok in H as ([] & w1 & [_ ->]%sp_bigint_ok & H).
  apply bind_ok in H as ([] & w1 & [_ ->]%sp_bigint_ok & H).
  apply bind_ok in H as ([] & w1 & [_ ->]%sp_bigint_ok & H).
  apply bind_ok in H as ([] & w1 & [Hc ->]%sp_guard_ok & H).
  by apply sp_modify_ok in H as ->.
Qed.

Lemma wallet_check_bounds (x : ProviderWallet) :
  wallet_check x = true -> 0 <= wallet_ReservedUSD x <= wallet_BalanceUSD x.
Proof. unfold wallet_check. rewrite !andb_true_iff, !Z.leb_le. lia. Qed.

(** The available amount, computed at 64 bits, does not wrap around. *)
Lemma available_exact (d : SpendDB) (p : string) (x : ProviderWallet) :
  ledger_inv d -> sp_wallets d !! p = Some x ->
  wrap64 (wallet_BalanceUSD x - wallet_ReservedUSD x) = wallet_BalanceUSD x - wallet_ReservedUSD x.
Proof.
  intros Hinv Hx. destruct (inv_wallets d Hinv p x Hx) as (_ & ? & ? & _).
  apply wrap64_id. unfold int64, minInt64, maxInt64, two63 in *. lia.
Qed.

(** ** Reservations *)

Lemma reserve_ok (p : string) (c : Call) (a : USDNanos) (now : Instant) (u : unit)
    (w w' : SpendWorld) :
  ledger_inv (sw_db w) -> reserve p c a now w = (Ok u, w') ->
  0 <= a /\ exists x, sp_wallets (sw_db w) !! p = Some x /\
  ((exists r, find_event p c EventReserved (sp_wallet_events (sw_db w)) = Some r /\ amount r = a
              /\ sw_db w' = sw_db w)
   \/ (find_event p c EventReserved (sp_wallet_events (sw_db w)) = None
       /\ a <= wallet_BalanceUSD x - wallet_ReservedUSD x /\ call_exists c (sw_db w) = true
       /\ exists id, sw_db w' = moved p (wallet_moved x 0 a now)
                                  (logged (new_event id p c EventReserved a None now) (sw_db w)))).
Proof.
  intros Hinv H. unfold reserve in H.
  apply bind_ok in H as ([] & w1 & [Ha ->]%throwIf_ok & H). apply Z.ltb_ge in Ha. split; [done|].
  rewrite atomically_ok in H. apply bind_ok in H as (x & w1 & [Hx ->]%lockWallet_ok & H).
  exists x. split; [done|].
  apply bind_ok in H as (b & w1 & Hins%insert_wallet_event_ok & H). destruct Hins as [_ Hins].
  destruct b.
  - right. destruct Hins as (Hf & _ & _ & Hc & id & Hd).
    apply bind_ok in H as ([] & w2 & [Hle ->]%throwIf_ok & H).
    rewrite (available_exact _ p x Hinv Hx) in Hle. apply Z.ltb_ge in Hle.
    eapply (update_wallet_ok p _ _ _ x) in H as [H _]; [|by rewrite Hd].
    split_and!; try done. exists id. by rewrite H, Hd.
  - left. destruct Hins as [Hf Hd]. apply bind_ok in H as (o & w2 & Ho & H).
    rewrite select_reserved_run in Ho. injection Ho as <- <-. rewrite Hd in H.
    destruct (find_event _ _ _ _) as [r|]; [|done]. simpl in H.
    apply throwIf_ok in H as [Heq ->]. exists r. split_and!; [done|lia|done].
Qed.

Lemma settle_result (p : string) (c : Call) (k : EventKind) (a : USDNanos)
    (note : option Annotation) (now : Instant) (u : unit) (w w' : SpendWorld) :
  settle k note p c a now w = (Ok u, w') ->
  exists x r, sp_wallets (sw_db w) !! p = Some x
    /\ find_event p c EventReserved (sp_wallet_events (sw_db w)) = Some r /\ 0 <= a
    /\ ((find_event p c k (sp_wallet_events (sw_db w)) <> None /\ sw_db w' = sw_db w)
        \/ (find_event p c k (sp_wallet_events (sw_db w)) = None
            /\ (terminal_kind k = true
                -> existsb (terminal_of p c) (sp_wallet_events (sw_db w)) = false)
            /\ wallet_check (wallet_moved x a (- amount r) now) = true
            /\ exists id, sw_db w' = moved p (wallet_moved x a (- amount r) now)
                                       (logged (new_event id p c k a note now) (sw_db w)))).
Proof.
  intros H. unfold settle in H. rewrite atomically_ok in H.
  apply bind_ok in H as (x & w1 & [Hx ->]%lockWallet_ok & H).
  apply bind_ok in H as (am & w1 & [-> (r & Hr & ->)]%reserved_amount_ok & H).
  apply bind_ok in H as (b & w1 & Hins & H).
  rewrite on_unique_violation_ok in Hins. apply insert_wallet_event_ok in Hins as [Ha Hins].
  exists x, r. split_and!; [done|done|done|]. destruct b.
  - right. destruct Hins as (Hf & Ht & _ & _ & id & Hd).
    eapply (update_wallet_ok p _ _ _ x) in H as [H Hck]; [|by rewrite Hd].
    split_and!; try done. exists id. by rewrite H, Hd.
  - left. destruct Hins as [Hf Hd]. apply ret_ok in H as [_ ->]. done.
Qed.

(** A settlement that succeeds is a step or repeats an earlier one. *)
Lemma settle_steps (p : string) (c : Call) (k : EventKind) (a : USDNanos)
    (note : option Annotation) (now : Instant) (u : unit) (w w' : SpendWorld) :
  (k = EventCommitted \/ k = EventReleased /\ a = 0) ->
  note <> Some SubscriptionResourceConsumed ->
  settle k note p c a now w = (Ok u, w') ->
  ledger_steps None (sw_db w) (sw_db w').
Proof.
  intros Hk Hnote H. apply settle_result in H as (x & r & Hx & Hr & Ha & [[_ ->]|H]); [done|].
  destruct H as (Hf & Ht & Hck & id & ->). apply rtc_once.
  assert (Hkt : terminal_kind k = true) by (by destruct Hk as [->|[-> _]]).
  apply Settle; try done; [auto| |].
  - destruct Hk as [->|[-> ->]]; [left|right]; done.
  - apply wallet_check_bounds in Hck. simpl in Hck. unfold amount in *. lia.
Qed.

Lemma reserve_steps (p : string) (c : Call) (a : USDNanos) (now : Instant) (u : unit)
    (w w' : SpendWorld) :
  ledger_inv (sw_db w) -> reserve p c a now w = (Ok u, w') ->
  ledger_steps None (sw_db w) (sw_db w').
Proof.
  intros Hinv H. apply reserve_ok in H as (Ha & x & Hx & [(r & _ & _ & ->)|H]); [done| |done].
  destruct H as (Hf & Hle & Hc & id & ->). apply rtc_once, Hold; done.
Qed.

Lemma reserve_err (p : string) (c : Call) (a : USDNanos) (now : Instant) (e : SpendError)
    (w w' : SpendWorld) : reserve p c a now w = (Err e, w') -> sw_db w' = sw_db w.
Proof.
  unfold reserve, bind, throwIf, throw, ret. destruct (a <? 0); [by intros [= _ <-]|].
  apply atomically_err.
Qed.

(** ** Calls *)

Inductive LedgerCall : Type :=
| CallReserve (c : Call) (p : string) (a : USDNanos) (now : Instant)
| CallReserveProgram (req : ProgramReservation) (now : Instant)
| CallReconcile (c : Call) (p : string) (a : USDNanos) (now : Instant)
| CallRelease (c : Call) (p : string) (now : Instant)
| CallMarkPending (p : string) (i : Z)
| CallSubscription (p : string) (i : Z) (now : Instant)
| CallProvision (p : string) (balance : USDNanos) (now : Instant)
| CallSetBalance (p : string) (balance : USDNanos) (now : Instant)
| CallCreateEmbedding (known : string -> string -> bool) (i : EmbeddingInvocation) (now : Instant).

Definition forget {A} (m : Spend A) : Spend unit := do! m in ret tt.

Definition ledger_serve (c : LedgerCall) : Spend unit :=
  match c with
  | CallReserve (ChatCall i) p a now => Ledger_Reserve p i a now
  | CallReserve (EmbeddingCall i) p a now => ReserveEmbedding p i a now
  | CallReserveProgram req now => ReserveWithinProgramCeiling req now
  | CallReconcile (ChatCall i) p a now => Ledger_Reconcile p i a now
  | CallReconcile (EmbeddingCall i) p a now => ReconcileEmbedding p i a now
  | CallRelease (ChatCall i) p now => Ledger_Release p i now
  | CallRelease (EmbeddingCall i) p now => ReleaseEmbedding p i now
  | CallMarkPending p i => MarkPendingReconciliation p i
  | CallSubscription p i now => RecordSubscriptionConsumption p i now
  | CallProvision p balance now => forget (ProvisionWalletIfAbsent p balance now)
  | CallSetBalance p balance now => forget (SetBalance p balance now)
  | CallCreateEmbedding known i now => forget (CreateEmbeddingInvocation known i now)
  end.

(** The wallet whose balance the call sets. *)
Definition funds (c : LedgerCall) : option string :=
  match c with
  | CallProvision p _ _ | CallSetBalance p _ _ => Some p
  | _ => None
  end.

(** The balances given are int64. *)
Definition funds_int64 (c : LedgerCall) : Prop :=
  match c with
  | CallProvision _ balance _ | CallSetBalance _ balance _ => int64 balance
  | _ => True
  end.

Lemma forget_ok {A} (m : Spend A) (u : unit) (w w' : SpendWorld) :
  forget m w = (Ok u, w') <-> exists a, m w = (Ok a, w').
Proof.
  unfold forget. rewrite bind_ok. setoid_rewrite ret_ok. destruct u. naive_solver.
Qed.

Lemma forget_err {A} (m : Spend A) (e : SpendError) (w w' : SpendWorld) :
  forget m w = (Err e, w') <-> m w = (Err e, w').
Proof. unfold forget, bind, ret. destruct (m w) as [[]]; naive_solver. Qed.

(** *** Each call *)

Lemma reconcile_steps (note : option Annotation) (p : string) (c : Call) (a now : Z) (u : unit)
    (w w' : SpendWorld) :
  note <> Some SubscriptionResourceConsumed -> reconcile note p c a now w = (Ok u, w') ->
  ledger_steps None (sw_db w) (sw_db w').
Proof.
  intros Hnote H. unfold reconcile in H. apply bind_ok in H as ([] & w1 & [_ ->]%throwIf_ok & H).
  eapply settle_steps in H; [done|by left|done].
Qed.

Lemma reconcile_err (note : option Annotation) (p : string) (c : Call) (a now : Z) (e : SpendError)
    (w w' : SpendWorld) : reconcile note p c a now w = (Err e, w') -> sw_db w' = sw_db w.
Proof.
  unfold reconcile, bind at 1, throwIf, throw, ret at 1. destruct (a <? 0); [by intros [= _ <-]|].
  apply atomically_err.
Qed.

Lemma release_steps (note : option Annotation) (p : string) (c : Call) (now : Z) (u : unit)
    (w w' : SpendWorld) :
  note <> Some SubscriptionResourceConsumed -> release note p c now w = (Ok u, w') ->
  ledger_steps None (sw_db w) (sw_db w').
Proof. intros Hnote H. unfold release in H. eapply settle_steps in H; [done|by right|done]. Qed.

Lemma familySpend_ok (scope : Z -> Task -> bool) (p : string) (models : list string) (n : Z)
    (w w' : SpendWorld) :
  familySpend scope p models w = (Ok n, w')
  <-> w' = w /\ n = family_spend scope p models (sw_db w) /\ int64 n.
Proof.
  unfold familySpend. rewrite bind_ok. setoid_rewrite sp_get_ok. split.
  - intros (d & w1 & [-> ->] & H). apply bind_ok in H as ([] & w2 & [Hr ->]%sp_guard_ok & H).
    apply ret_ok in H as [-> ->]. split_and!; [done|done|]. unfold int64. lia.
  - intros (-> & -> & Hr). exists (sw_db w), w. split; [done|]. rewrite bind_ok.
    exists tt, w. split; [apply sp_guard_ok; split; [unfold int64 in Hr; lia|done]|by apply ret_ok].
Qed.

Lemma ceiling_ok (req : ProgramReservation) (now : Instant) (u : unit) (w w' : SpendWorld) :
  ledger_inv (sw_db w) -> ReserveWithinProgramCeiling req now w = (Ok u, w') ->
  let p := pres_ProviderID req in
  let c := ChatCall (pres_InvocationID req) in
  let used := family_spend (with_correlation (pres_CorrelationID req)) p
                (pres_FamilyModelIDs req) (sw_db w) in
  0 <= pres_EstimatedUSD req /\ exists x, sp_wallets (sw_db w) !! p = Some x /\
  ((exists r, find_event p c EventReserved (sp_wallet_events (sw_db w)) = Some r
              /\ amount r = pres_EstimatedUSD req /\ w' = w)
   \/ (find_event p c EventReserved (sp_wallet_events (sw_db w)) = None
       /\ int64 used /\ wrap64 (used + pres_EstimatedUSD req) <= pres_MaxUSD req
       /\ pres_EstimatedUSD req <= wallet_BalanceUSD x - wallet_ReservedUSD x
       /\ call_exists c (sw_db w) = true
       /\ exists id, sw_db w' = moved p (wallet_moved x 0 (pres_EstimatedUSD req) now)
            (logged (new_event id p c EventReserved (pres_EstimatedUSD req) None now) (sw_db w)))).
Proof.
  intros Hinv H p c used. unfold ReserveWithinProgramCeiling in H.
  apply bind_ok in H as ([] & w1 & [Hreq ->]%throwIf_ok & H). split; [lia|].
  rewrite atomically_ok in H. apply bind_ok in H as (x & w1 & [Hx ->]%lockWallet_ok & H).
  exists x. split; [done|]. apply bind_ok in H as (o & w1 & Ho & H).
  rewrite select_reserved_run in Ho. injection Ho as <- <-. fold p c in H.
  destruct (find_event p c EventReserved _) as [r|] eqn:Hf; simpl in H.
  - left. apply throwIf_ok in H as [Heq ->]. exists r. split_and!; [done|lia|done].
  - right. apply bind_ok in H as (n & w1 & (-> & -> & Hn)%familySpend_ok & H).
    apply bind_ok in H as ([] & w1 & [Hmax ->]%throwIf_ok & H). apply Z.ltb_ge in Hmax.
    apply bind_ok in H as ([] & w1 & [Hle ->]%throwIf_ok & H).
    rewrite (available_exact _ p x Hinv Hx) in Hle. apply Z.ltb_ge in Hle.
    apply bind_ok in H as (b & w1 & Hins%insert_wallet_event_ok & H). destruct Hins as [_ Hins].
    apply bind_ok in H as ([] & w2 & [-> ->]%sp_guard_ok & H).
    destruct Hins as (_ & _ & _ & Hc & id & Hd).
    eapply (update_wallet_ok p _ _ _ x) in H as [H _]; [|by rewrite Hd].
    split_and!; try done. exists id. by rewrite H, Hd.
Qed.

Lemma ceiling_steps (req : ProgramReservation) (now : Instant) (u : unit) (w w' : SpendWorld) :
  ledger_inv (sw_db w) -> ReserveWithinProgramCeiling req now w = (Ok u, w') ->
  ledger_steps None (sw_db w) (sw_db w').
Proof.
  intros Hinv H. apply ceiling_ok in H as (Ha & x & Hx & [(r & _ & _ & ->)|H]); [done| |done].
  destruct H as (Hf & _ & _ & Hle & Hc & id & ->). apply rtc_once, Hold; done.
Qed.

Lemma ceiling_err (req : ProgramReservation) (now : Instant) (e : SpendError) (w w' : SpendWorld) :
  ReserveWithinProgramCeiling req now w = (Err e, w') -> sw_db w' = sw_db w.
Proof.
  unfold ReserveWithinProgramCeiling. destruct (_ || _).
  - by intros [= _ <-].
  - apply atomically_err.
Qed.

Lemma mark_steps (p : string) (i : Z) (w : SpendWorld) :
  ledger_steps None (sw_db w) (sw_db (snd (MarkPendingReconciliation p i w))).
Proof.
  unfold MarkPendingReconciliation, bind, sp_get, sp_modify, throwIf, throw, ret. simpl.
  destruct (is_some _); apply rtc_once, Annotate.
Qed.

Lemma subscription_steps (p : string) (i : Z) (now : Instant) (w : SpendWorld) :
  ledger_steps None (sw_db w) (sw_db (snd (RecordSubscriptionConsumption p i now w))).
Proof.
  unfold RecordSubscriptionConsumption. destruct (atomically _ w) as [[b|e] w'] eqn:Hm; simpl.
  - rewrite atomically_ok in Hm. apply insert_wallet_event_ok in Hm as [_ Hm]. destruct b.
    + destruct Hm as (_ & Ht & Hp & Hc & id & ->). apply rtc_once, Consume; auto.
    + by destruct Hm as [_ ->].
  - by apply atomically_err in Hm as ->.
Qed.

Lemma provision_steps (p : string) (balance now : Z) (w : SpendWorld) :
  int64 balance ->
  ledger_steps (Some p) (sw_db w) (sw_db (snd (ProvisionWalletIfAbsent p balance now w))).
Proof.
  intros Hb. unfold ProvisionWalletIfAbsent, bind, sp_check, throwIf.
  destruct (wallet_check (new_wallet p balance now)) eqn:Hc; simpl; [|done].
  destruct (sp_wallets (sw_db w) !! p) as [x|] eqn:Hx; simpl; [done|].
  apply rtc_once, Open; [done|]. apply wallet_check_bounds in Hc. simpl in Hc.
  unfold int64 in Hb. lia.
Qed.

Lemma setbalance_steps (p : string) (balance now : Z) (w : SpendWorld) :
  int64 balance -> ledger_steps (Some p) (sw_db w) (sw_db (snd (SetBalance p balance now w))).
Proof.
  intros Hb. unfold SetBalance, bind, sp_check, sp_bigint, throwIf.
  destruct (wallet_check (new_wallet p balance now)) eqn:Hc; simpl; [|done].
  apply wallet_check_bounds in Hc. simpl in Hc. unfold int64 in Hb.
  destruct (sp_wallets (sw_db w) !! p) as [x|] eqn:Hx; simpl.
  - destruct (wallet_ReservedUSD x <=? balance) eqn:Hr; simpl; [|done].
    destruct (_ && _); simpl; [|done]. apply Z.leb_le in Hr.
    apply rtc_once. eapply Fund; [done|lia].
  - apply rtc_once, Open; [done|lia].
Qed.

Lemma embedding_steps (known : string -> string -> bool) (i : EmbeddingInvocation) (now : Instant)
    (w : SpendWorld) :
  ledger_steps None (sw_db w) (sw_db (snd (CreateEmbeddingInvocation known i now w))).
Proof.
  unfold CreateEmbeddingInvocation, bind, throwIf, sp_foreign_key, sp_unique, throwIf, sp_nextval.
  destruct (_ || _); simpl; [done|]. destruct (known _ _ && _); simpl; [|done].
  destruct (sp_embeddings (sw_db w) !! sw_seq w TEmbeddings) as [x|] eqn:Hx; simpl; [done|].
  by apply rtc_once, Embed.
Qed.

Lemma snd_forget {A} (m : Spend A) (w : SpendWorld) : snd (forget m w) = snd (m w).
Proof. unfold forget, bind, ret. by destruct (m w) as [[]]. Qed.

(** A method that fails leaves the tables, one that succeeds takes steps. *)
Lemma steps_of_runs {A} (m : Spend A) (o : option string) (w : SpendWorld) :
  (forall a w', m w = (Ok a, w') -> ledger_steps o (sw_db w) (sw_db w')) ->
  (forall e w', m w = (Err e, w') -> sw_db w' = sw_db w) ->
  ledger_steps o (sw_db w) (sw_db (snd (m w))).
Proof.
  intros Hok Herr. destruct (m w) as [[a|e] w'] eqn:Hm; simpl; [by eapply Hok|].
  by rewrite (Herr e w').
Qed.

Lemma ledger_calls_refine_steps (c : LedgerCall) (w : SpendWorld) :
  ledger_inv (sw_db w) -> funds_int64 c ->
  ledger_steps (funds c) (sw_db w) (sw_db (snd (ledger_serve c w))).
Proof.
  intros Hinv Hf. destruct c as [[i|i] p a now|req now|[i|i] p a now|[i|i] p now|p i|p i now
    |p balance now|p balance now|known i now]; simpl; rewrite ?snd_forget.
  1-2: apply steps_of_runs; intros; [by eapply reserve_steps|by eapply reserve_err].
  - apply steps_of_runs; intros; [by eapply ceiling_steps|by eapply ceiling_err].
  - apply steps_of_runs; intros ?? Hrun; [|by eapply reconcile_err].
    by eapply reconcile_steps; [|exact Hrun].
  - apply steps_of_runs; intros ?? Hrun; [|by eapply reconcile_err].
    by eapply reconcile_steps; [|exact Hrun].
  - apply steps_of_runs; intros ?? Hrun; [|by eapply atomically_err].
    by eapply release_steps; [|exact Hrun].
  - apply steps_of_runs; intros ?? Hrun; [|by eapply atomically_err].
    by eapply release_steps; [|exact Hrun].
  - apply mark_steps.
  - apply subscription_steps.
  - by apply provision_steps.
  - by apply setbalance_steps.
  - apply embedding_steps.
Qed.

(** ** A small ledger

    One wallet, two invocations of a task: the concrete states the witnesses
    of the ledger's theorems run on. *)


Definition demo_owner : Task :=
  mkTask 1 "acme" 1 None "eng" "unit" "owner.goal" "k" "h" "t" "i" [] StatusReady 0 0 3 0 1
    (Some "prog"%string) None None None 0 0 None.

Definition demo_invocation : ModelInvocation :=
  mkModelInvocation "acme" 1 1 "eng" "eng" "gemini" "pro" "requested" None 5 None.

Definition demo_card_tier : PriceTier :=
  mkPriceTier "gemini" "pro" "default" 0 1250000000 None None 10000000000 BillingOnline 1 1.

(** No wallet yet; invocations 7 and 8 of task 1. *)
Definition spend0 : SpendWorld :=
  mkSpendWorld
    (mkSpendDB [demo_card_tier] ∅ [] ∅ {[ 7 := demo_invocation; 8 := demo_invocation ]} ∅ ∅ [] ∅
       {[ 1 := demo_owner ]})
    (fun _ => 1).

Definition ledger_run (calls : list LedgerCall) (w : SpendWorld) : SpendWorld :=
  foldl (fun w c => snd (ledger_serve c w)) w calls.

Definition fund_calls : list LedgerCall := [CallProvision "gemini" 10000 10].
Definition hold_calls : list LedgerCall := [CallReserve (ChatCall 7) "gemini" 4000 20].
Definition charge_calls : list LedgerCall := [CallReconcile (ChatCall 7) "gemini" 2500 30].

Definition spend_funded : SpendWorld := ledger_run fund_calls spend0.
Definition spend_held : SpendWorld := ledger_run hold_calls spend_funded.
Definition spend_charged : SpendWorld := ledger_run charge_calls spend_held.

Definition demo_reservation (i estimate : Z) : ProgramReservation :=
  mkProgramReservation "gemini" ["pro"%string] i "prog" 6000 estimate.
