(* ===== verification/LedgerProps.v ===== *)
(** * Properties of the cost ledger

    What holds of a wallet in every reachable state, what a retried call does,
    and when a reservation is granted. *)

From stdpp Require Import base tactics list gmap strings sorting relations.
From Stdlib Require Import ZArith Lia.
From S2P Require Import Prelude GoLib TaskDomain Database SpendDB CostLedger LedgerSpec.
From S2P Require Import LedgerRefine.

Local Open Scope Z_scope.

(** ** Runs

    The ledger's calls interleaved with the transactions of the other
    components, which leave the wallets and their events alone.  [funded]
    says which wallets an operator may set. *)

Inductive spend_move (funded : string -> Prop) (w : SpendWorld) : SpendWorld -> Prop :=
| MoveCall c :
    funds_int64 c -> (forall p, funds c = Some p -> funded p) ->
    spend_move funded w (snd (ledger_serve c w))
| MoveOther w' :
    sp_wallets (sw_db w') = sp_wallets (sw_db w) ->
    sp_wallet_events (sw_db w') = sp_wallet_events (sw_db w) ->
    spend_move funded w w'.

Definition spend_moves (funded : string -> Prop) : SpendWorld -> SpendWorld -> Prop :=
  rtc (spend_move funded).

(** A database before the first wallet. *)
Definition no_wallets (w : SpendWorld) : Prop :=
  sp_wallets (sw_db w) = ∅ /\ sp_wallet_events (sw_db w) = [].

Lemma ledger_inv_same (d d' : SpendDB) :
  sp_wallets d' = sp_wallets d -> sp_wallet_events d' = sp_wallet_events d ->
  ledger_inv d -> ledger_inv d'.
Proof. intros Hw He []. split; rewrite ?Hw, ?He; done. Qed.

Lemma no_wallets_inv (w : SpendWorld) : no_wallets w -> ledger_inv (sw_db w).
Proof.
  intros [Hw He]. split; rewrite ?Hw, ?He; simpl.
  - intros p x. by rewrite lookup_empty.
  - by intros r ?%not_elem_of_nil.
  - apply NoDup_nil_2.
  - apply NoDup_nil_2.
  - by intros r ?%not_elem_of_nil.
Qed.

Lemma spend_move_inv (funded : string -> Prop) (w w' : SpendWorld) :
  spend_move funded w w' -> ledger_inv (sw_db w) -> ledger_inv (sw_db w').
Proof.
  intros [c Hc _|w1 Hw He] Hinv.
  - by eapply ledger_steps_inv; [apply ledger_calls_refine_steps|].
  - by eapply ledger_inv_same.
Qed.

Lemma spend_moves_inv (funded : string -> Prop) (w w' : SpendWorld) :
  spend_moves funded w w' -> ledger_inv (sw_db w) -> ledger_inv (sw_db w').
Proof. induction 1; eauto using spend_move_inv. Qed.

Lemma spend_move_wallet (funded : string -> Prop) (w w' : SpendWorld) (p : string)
    (x : ProviderWallet) :
  spend_move funded w w' -> ledger_inv (sw_db w) -> sp_wallets (sw_db w) !! p = Some x ->
  (exists l, wrow_Event <$> sp_wallet_events (sw_db w')
             = (wrow_Event <$> sp_wallet_events (sw_db w)) ++ l)
  /\ exists x', sp_wallets (sw_db w') !! p = Some x'
    /\ (~ funded p -> wallet_BalanceUSD x' + charged (sp_wallet_events (sw_db w')) p
                      = wallet_BalanceUSD x + charged (sp_wallet_events (sw_db w)) p).
Proof.
  intros [c Hc Hfund|w1 Hw He] Hinv Hx.
  - pose proof (ledger_calls_refine_steps c w Hinv Hc) as Hs.
    split; [by eapply ledger_steps_events|].
    destruct (ledger_steps_wallet _ _ _ _ _ Hs Hx) as (x' & Hx' & Heq). exists x'.
    split; [done|]. intros Hp. apply Heq. intros Hfp. by apply Hp, Hfund.
  - rewrite Hw, He. split; [exists []; by rewrite app_nil_r|]. by exists x.
Qed.

Lemma spend_moves_wallet (funded : string -> Prop) (w w' : SpendWorld) (p : string)
    (x : ProviderWallet) :
  spend_moves funded w w' -> ledger_inv (sw_db w) -> sp_wallets (sw_db w) !! p = Some x ->
  (exists l, wrow_Event <$> sp_wallet_events (sw_db w')
             = (wrow_Event <$> sp_wallet_events (sw_db w)) ++ l)
  /\ exists x', sp_wallets (sw_db w') !! p = Some x'
    /\ (~ funded p -> wallet_BalanceUSD x' + charged (sp_wallet_events (sw_db w')) p
                      = wallet_BalanceUSD x + charged (sp_wallet_events (sw_db w)) p).
Proof.
  intros Hs. revert x. induction Hs as [w|w w1 w' H1 Hs IH]; intros x Hinv Hx.
  - split; [exists []; by rewrite app_nil_r|]. by exists x.
  - destruct (spend_move_wallet _ _ _ _ _ H1 Hinv Hx) as ((l1 & Hl1) & x1 & Hx1 & He1).
    destruct (IH x1) as ((l2 & Hl2) & x' & Hx' & He); [by eapply spend_move_inv|done|].
    split; [exists (l1 ++ l2); by rewrite Hl2, Hl1, app_assoc|].
    exists x'. split; [done|]. intros Hp. by rewrite He, He1.
Qed.

(** C18: every method of the cost ledger, on every branch and for chat and embedding calls, takes tables
    that satisfy the invariant of the ledger by steps of the abstract ledger - holds that fit the
    balance, one settlement per reservation, annotations - and only the calls that set a balance set
    one; the invariant holds again. *)
Theorem ledger_calls_refine (c : LedgerCall) (w : SpendWorld) :
  ledger_inv (sw_db w) -> funds_int64 c ->
  ledger_steps (funds c) (sw_db w) (sw_db (snd (ledger_serve c w)))
  /\ ledger_inv (sw_db (snd (ledger_serve c w))).
Proof.
  intros Hinv Hf. pose proof (ledger_calls_refine_steps c w Hinv Hf) as Hs. split; [done|].
  by eapply ledger_steps_inv.
Qed.

(** C15: in every state reached from an empty ledger by any interleaving of calls, a wallet's reserved
    amount is between zero and its balance and is the sum of its reservations that nothing settled;
    a call has at most one event of each kind and at most one outcome, and an outcome other than a
    subscription's consumption has its reservation. *)
Theorem wallets_hold_open_reservations (w0 w : SpendWorld) :
  no_wallets w0 -> spend_moves (fun _ => True) w0 w ->
  (forall p x, sp_wallets (sw_db w) !! p = Some x ->
     0 <= wallet_ReservedUSD x <= wallet_BalanceUSD x
     /\ wallet_ReservedUSD x = held (sp_wallet_events (sw_db w)) p
     /\ Available x = wallet_BalanceUSD x - held (sp_wallet_events (sw_db w)) p)
  /\ NoDup (row_key <$> sp_wallet_events (sw_db w))
  /\ NoDup (call_key <$> filter (fun r => is_terminal r = true) (sp_wallet_events (sw_db w)))
  /\ forall r, r ∈ sp_wallet_events (sw_db w) -> is_terminal r = true ->
       wrow_Annotation r <> Some SubscriptionResourceConsumed ->
       exists r0, r0 ∈ sp_wallet_events (sw_db w) /\ call_key r0 = call_key r
                  /\ wevent_Kind (wrow_Event r0) = EventReserved.
Proof.
  intros H0 Hs. apply spend_moves_inv in Hs; [|by apply no_wallets_inv]. split_and!.
  - intros p x Hx. destruct (inv_wallets _ Hs p x Hx) as (_ & ? & ? & Hh).
    split_and!; [lia|lia|done|]. unfold Available. rewrite (available_exact _ p x Hs Hx). lia.
  - apply (inv_kinds _ Hs).
  - apply (inv_terminal _ Hs).
  - intros r Hr Ht Hno. pose proof (inv_settled _ Hs r Hr Ht Hno) as Hf.
    destruct (find_event _ _ _ _) as [r0|] eqn:Hr0; [|done].
    apply find_event_some in Hr0 as [Hin Hk]. exists r0. unfold row_key in Hk. unfold call_key.
    split_and!; [done|congruence|congruence].
Qed.

(** Money is conserved: along any interleaving of calls in which nobody sets the balance of a
    wallet, the wallet stays, its balance drops by exactly what the events charge to it, and no event
    is ever changed or deleted. *)
Lemma balances_are_conserved (w0 w w' : SpendWorld) (p : string) (x : ProviderWallet) :
  no_wallets w0 -> spend_moves (fun _ => True) w0 w -> spend_moves (fun q => q <> p) w w' ->
  sp_wallets (sw_db w) !! p = Some x ->
  (exists x', sp_wallets (sw_db w') !! p = Some x'
     /\ wallet_BalanceUSD x' = wallet_BalanceUSD x
          - (charged (sp_wallet_events (sw_db w')) p - charged (sp_wallet_events (sw_db w)) p))
  /\ exists l, wrow_Event <$> sp_wallet_events (sw_db w')
               = (wrow_Event <$> sp_wallet_events (sw_db w)) ++ l.
Proof.
  intros H0 H1 H2 Hx. apply spend_moves_inv in H1; [|by apply no_wallets_inv].
  destruct (spend_moves_wallet _ _ _ _ _ H2 H1 Hx) as (Hl & x' & Hx' & He).
  split; [|done]. exists x'. split; [done|]. specialize (He ltac:(naive_solver)). lia.
Qed.

(** ** Retries *)

(** Replaying a call whose event is there: the identity sequence moves, the
    tables do not. *)
Definition answers {A} (m : Spend A) (w : SpendWorld) (r : result SpendError A) : Prop :=
  exists w', m w = (r, w') /\ sw_db w' = sw_db w.

Lemma insert_existing (p : string) (c : Call) (k : EventKind) (a : USDNanos)
    (note : option Annotation) (now : Instant) (w : SpendWorld) :
  0 <= a -> find_event p c k (sp_wallet_events (sw_db w)) <> None ->
  answers (insert_wallet_event p c k a note now) w (Ok false).
Proof.
  intros Ha Hf. unfold answers, insert_wallet_event, sp_nextval, bind, sp_check, throwIf, sp_get. simpl.
  rewrite (proj2 (Z.leb_le 0 a) Ha). simpl.
  destruct (find_event p c k _); [|done]. by eexists.
Qed.

Lemma insert_second_outcome (p : string) (c : Call) (k : EventKind) (a : USDNanos)
    (note : option Annotation) (now : Instant) (w : SpendWorld) :
  0 <= a -> terminal_kind k = true -> find_event p c k (sp_wallet_events (sw_db w)) = None ->
  existsb (terminal_of p c) (sp_wallet_events (sw_db w)) = true ->
  answers (insert_wallet_event p c k a note now) w (Err (ErrSQL "23505")).
Proof.
  intros Ha Hk Hf Ht.
  unfold answers, insert_wallet_event, sp_nextval, bind, sp_check, throwIf, sp_get, sp_unique. simpl.
  rewrite (proj2 (Z.leb_le 0 a) Ha). simpl. rewrite Hf, Hk, Ht. simpl. by eexists.
Qed.

Lemma reserve_again (p : string) (c : Call) (a : USDNanos) (now : Instant) (r : WalletEventRow)
    (w : SpendWorld) :
  is_Some (sp_wallets (sw_db w) !! p) ->
  find_event p c EventReserved (sp_wallet_events (sw_db w)) = Some r ->
  answers (reserve p c a now) w
    (if a <? 0 then Err ErrInvalidLedgerRequest
     else if amount r =? a then Ok tt else Err ErrAmountMismatch).
Proof.
  intros [x Hx] Hf. unfold answers, reserve, bind at 1, throwIf at 1.
  destruct (a <? 0) eqn:Ha; simpl; [by eexists|]. apply Z.ltb_ge in Ha.
  destruct (insert_existing p c EventReserved a None now w Ha ltac:(by rewrite Hf)) as (w' & Hi & Hd).
  assert (Hl : lockWallet p w = (Ok x, w)) by by apply lockWallet_ok.
  unfold atomically, bind. rewrite Hl, Hi, select_reserved_run, Hd, Hf. simpl.
  unfold throwIf. destruct (amount r =? a); simpl; by eexists.
Qed.

Lemma settle_again (p : string) (c : Call) (k : EventKind) (a : USDNanos)
    (note : option Annotation) (now : Instant) (r : WalletEventRow) (w : SpendWorld) :
  is_Some (sp_wallets (sw_db w) !! p) ->
  find_event p c EventReserved (sp_wallet_events (sw_db w)) = Some r ->
  0 <= a -> terminal_kind k = true -> existsb (terminal_of p c) (sp_wallet_events (sw_db w)) = true ->
  answers (settle k note p c a now) w
    (if find_event p c k (sp_wallet_events (sw_db w)) then Ok tt else Err ErrAlreadyTerminal).
Proof.
  intros [x Hx] Hr Ha Hk Ht. unfold answers, settle.
  assert (Hl : lockWallet p w = (Ok x, w)) by by apply lockWallet_ok.
  assert (Ham : reserved_amount p c w = (Ok (amount r), w)).
  { apply reserved_amount_ok. eauto. }
  destruct (find_event p c k _) as [e|] eqn:He.
  - destruct (insert_existing p c k a note now w Ha ltac:(by rewrite He)) as (w' & Hi & Hd).
    unfold atomically, bind. rewrite Hl, Ham. unfold on_unique_violation. rewrite Hi. simpl.
    by eexists.
  - destruct (insert_second_outcome p c k a note now w Ha Hk He Ht) as (w' & Hi & Hd).
    unfold atomically, bind. rewrite Hl, Ham. unfold on_unique_violation. rewrite Hi. simpl.
    eexists. split; [reflexivity|]. done.
Qed.

(** *** What a successful call leaves behind *)

Lemma find_event_mapped (p : string) (c : Call) (k : EventKind) (l : list WalletEventRow) :
  wrow_Event <$> find_event p c k l
  = head (filter (fun e => (bool_decide (wevent_ProviderID e = p)
       && bool_decide (wevent_Call e = c) && bool_decide (wevent_Kind e = k)) = true)
      (wrow_Event <$> l)).
Proof.
  unfold find_event. induction l as [|r l IH]; [done|].
  rewrite fmap_cons, !filter_cons. unfold of_call. by case_decide.
Qed.

Lemma find_event_later (p : string) (c : Call) (k : EventKind) (l l' : list WalletEventRow)
    (k' : list WalletEvent) (r : WalletEventRow) :
  wrow_Event <$> l' = (wrow_Event <$> l) ++ k' -> find_event p c k l = Some r ->
  exists r', find_event p c k l' = Some r' /\ wrow_Event r' = wrow_Event r.
Proof.
  intros Hl Hf. pose proof (find_event_mapped p c k l') as H'. rewrite Hl, filter_app in H'.
  pose proof (find_event_mapped p c k l) as H. rewrite Hf in H. simpl in H.
  destruct (filter _ (wrow_Event <$> l)) as [|e q]; [done|]. simpl in H, H'. injection H as <-.
  destruct (find_event p c k l') as [r'|]; [|done]. simpl in H'. injection H' as H'. eauto.
Qed.

Lemma find_event_new (l : list WalletEventRow) (id : Z) (p : string) (c : Call) (k : EventKind)
    (a : USDNanos) (note : option Annotation) (now : Instant) :
  find_event p c k l = None ->
  find_event p c k (l ++ [new_event id p c k a note now]) = Some (new_event id p c k a note now).
Proof.
  intros Hf. unfold find_event in *. rewrite filter_app.
  destruct (filter _ l); [|done]. rewrite app_nil_l, filter_cons_True; [done|].
  by apply of_call_key.
Qed.

(** The call's event of kind [k], still there in a later state. *)
Definition has_event (w : SpendWorld) (p : string) (c : Call) (k : EventKind)
    (P : USDNanos -> Prop) : Prop :=
  is_Some (sp_wallets (sw_db w) !! p)
  /\ exists r, find_event p c k (sp_wallet_events (sw_db w)) = Some r /\ P (amount r).

Lemma has_event_later (funded : string -> Prop) (w w' : SpendWorld) (p : string) (c : Call)
    (k : EventKind) (P : USDNanos -> Prop) :
  spend_moves funded w w' -> ledger_inv (sw_db w) -> has_event w p c k P -> has_event w' p c k P.
Proof.
  intros Hs Hinv [[x Hx] (r & Hr & HP)].
  destruct (spend_moves_wallet _ _ _ _ _ Hs Hinv Hx) as ((l & Hl) & x' & Hx' & _).
  destruct (find_event_later _ _ _ _ _ _ _ Hl Hr) as (r' & Hr' & He). split; [by exists x'|].
  exists r'. split; [done|]. unfold amount in *. by rewrite He.
Qed.

Lemma reserve_leaves (p : string) (c : Call) (a : USDNanos) (now : Instant) (u : unit)
    (w w' : SpendWorld) :
  ledger_inv (sw_db w) -> reserve p c a now w = (Ok u, w') ->
  has_event w' p c EventReserved (eq a).
Proof.
  intros Hinv H. apply reserve_ok in H as (_ & x & Hx & [(r & Hr & Ha & Hd)|H]); [| |done].
  - unfold has_event. rewrite Hd. split; [by exists x|]. exists r. done.
  - destruct H as (Hf & _ & _ & id & Hd). unfold has_event. rewrite Hd. simpl.
    rewrite lookup_insert_eq. split; [by eexists|]. eexists. split; [by apply find_event_new|done].
Qed.

Lemma settle_leaves (k : EventKind) (note : option Annotation) (p : string) (c : Call)
    (a : USDNanos) (now : Instant) (u : unit) (w w' : SpendWorld) :
  k <> EventReserved -> settle k note p c a now w = (Ok u, w') ->
  has_event w' p c EventReserved (fun _ => True) /\ has_event w' p c k (fun _ => True).
Proof.
  intros Hk H. apply settle_result in H as (x & r & Hx & Hr & Ha & [[Hf Hd]|H]).
  - unfold has_event. rewrite Hd. split; (split; [by exists x|]); [by exists r|].
    destruct (find_event p c k _) as [e|]; [|done]. by exists e.
  - destruct H as (Hf & _ & _ & id & Hd). unfold has_event. rewrite Hd. simpl.
    rewrite lookup_insert_eq. split; (split; [by eexists|]).
    + destruct (find_event_later p c EventReserved (sp_wallet_events (sw_db w))
                  (sp_wallet_events (sw_db w) ++ [new_event id p c k a note now])
                  [mkWalletEvent id p c k a now] r) as (r' & Hr' & _); [by rewrite fmap_app|done|].
      by exists r'.
    + eexists. split; [by apply find_event_new|done].
Qed.

Lemma has_event_terminal (w : SpendWorld) (p : string) (c : Call) (k : EventKind)
    (P : USDNanos -> Prop) :
  terminal_kind k = true -> has_event w p c k P ->
  existsb (terminal_of p c) (sp_wallet_events (sw_db w)) = true.
Proof.
  intros Hk [_ (r & Hr & _)]. apply find_event_some in Hr as [Hin Hkey]. apply existsb_in.
  exists r. split; [done|]. apply terminal_of_key. unfold row_key in Hkey.
  unfold call_key, is_terminal. injection Hkey as -> -> ->. done.
Qed.

(** One outcome excludes the other. *)
Lemma other_outcome_absent (w : SpendWorld) (p : string) (c : Call) (k k' : EventKind)
    (P : USDNanos -> Prop) :
  ledger_inv (sw_db w) -> terminal_kind k = true -> terminal_kind k' = true -> k <> k' ->
  has_event w p c k P -> find_event p c k' (sp_wallet_events (sw_db w)) = None.
Proof.
  intros Hinv Hk Hk' Hne [_ (r & Hr & _)]. apply find_event_some in Hr as [Hin Hkey].
  apply find_event_none. intros r' Hin' Hkey'. pose proof (inv_terminal _ Hinv) as Hnd.
  unfold row_key in Hkey, Hkey'. injection Hkey as Hp Hc Hkr. injection Hkey' as Hp' Hc' Hkr'.
  assert (r = r') as ->; [|congruence].
  apply (NoDup_fmap_inj_on call_key (filter (fun r => is_terminal r = true)
           (sp_wallet_events (sw_db w)))); [done| | |].
  - apply list_elem_of_filter. split; [unfold is_terminal; by rewrite Hkr|done].
  - apply list_elem_of_filter. split; [unfold is_terminal; by rewrite Hkr'|done].
  - unfold call_key. congruence.
Qed.

Section Retries.
Context (funded : string -> Prop) (p : string) (c : Call).

Lemma reserve_retried (a a2 : USDNanos) (now now2 : Instant) (w w1 w2 : SpendWorld) :
  ledger_inv (sw_db w) -> reserve p c a now w = (Ok tt, w1) -> ledger_inv (sw_db w1) ->
  spend_moves funded w1 w2 ->
  answers (reserve p c a2 now2) w2
    (if a2 <? 0 then Err ErrInvalidLedgerRequest
     else if a =? a2 then Ok tt else Err ErrAmountMismatch).
Proof.
  intros Hinv H Hinv1 Hs. apply reserve_leaves in H; [|done].
  destruct (has_event_later _ _ _ _ _ _ _ Hs Hinv1 H) as [Hw (r & Hr & ->)].
  by apply reserve_again.
Qed.

(** An outcome, and later the same or the other. *)
Lemma settle_retried (k k2 : EventKind) (note note2 : option Annotation) (a a2 : USDNanos)
    (now now2 : Instant) (w w1 w2 : SpendWorld) :
  terminal_kind k = true -> terminal_kind k2 = true ->
  settle k note p c a now w = (Ok tt, w1) -> ledger_inv (sw_db w1) ->
  spend_moves funded w1 w2 -> 0 <= a2 ->
  answers (settle k2 note2 p c a2 now2) w2
    (if decide (k = k2) then Ok tt else Err ErrAlreadyTerminal).
Proof.
  intros Hk Hk2 H Hinv1 Hs Ha. apply settle_leaves in H as [Hres Hout]; [|by intros ->].
  pose proof (has_event_later _ _ _ _ _ _ _ Hs Hinv1 Hres) as [Hw (r & Hr & _)].
  pose proof (has_event_later _ _ _ _ _ _ _ Hs Hinv1 Hout) as Hout2.
  assert (Hinv2 : ledger_inv (sw_db w2)) by by eapply spend_moves_inv.
  pose proof (has_event_terminal _ _ _ _ _ Hk Hout2) as Ht.
  destruct (settle_again p c k2 a2 note2 now2 r w2 Hw Hr Ha Hk2 Ht) as (w' & Hrun & Hd).
  exists w'. split; [|done]. rewrite Hrun. case_decide as Heq.
  - subst k2. destruct Hout2 as [_ (e & -> & _)]. done.
  - by rewrite (other_outcome_absent w2 p c k k2 _ Hinv2 Hk Hk2 Heq Hout2).
Qed.

End Retries.

(** A reservation, a reconciliation or a release that succeeded and is repeated later, whatever
    happened in between, succeeds again and changes nothing, whatever the amount of a repeated
    reconciliation; a reservation repeated with another amount is refused, and after one outcome the
    other is refused with [ErrAlreadyTerminal], each without a change. *)
Lemma retries_change_nothing (funded : string -> Prop) (note note2 : option Annotation)
    (p : string) (c : Call) (a a2 : USDNanos) (now now2 : Instant) (w0 w w1 w2 : SpendWorld) :
  no_wallets w0 -> spend_moves (fun _ => True) w0 w -> spend_moves (fun _ => True) w0 w1 ->
  spend_moves funded w1 w2 -> 0 <= a2 ->
  (reserve p c a now w = (Ok tt, w1) ->
     answers (reserve p c a2 now2) w2 (if a =? a2 then Ok tt else Err ErrAmountMismatch))
  /\ (reconcile note p c a now w = (Ok tt, w1) ->
     answers (reconcile note2 p c a2 now2) w2 (Ok tt)
     /\ answers (release note2 p c now2) w2 (Err ErrAlreadyTerminal))
  /\ (release note p c now w = (Ok tt, w1) ->
     answers (release note2 p c now2) w2 (Ok tt)
     /\ answers (reconcile note2 p c a2 now2) w2 (Err ErrAlreadyTerminal)).
Proof.
  intros H0 Hw Hw1 Hs Ha2. pose proof (spend_moves_inv _ _ _ Hw (no_wallets_inv _ H0)) as Hinv.
  pose proof (spend_moves_inv _ _ _ Hw1 (no_wallets_inv _ H0)) as Hinv1.
  assert (Hneg : (a2 <? 0) = false) by lia.
  assert (Hrec : forall n v, reconcile n p c a2 now2 v = settle EventCommitted n p c a2 now2 v).
  { intros n v. unfold reconcile, bind, throwIf. by rewrite Hneg. }
  split_and!.
  - intros H. pose proof (reserve_retried funded p c a a2 now now2 w w1 w2 Hinv H Hinv1 Hs) as Hr.
    by rewrite Hneg in Hr.
  - intros H. unfold reconcile in H. apply bind_ok in H as ([] & v & [_ ->]%throwIf_ok & H).
    split; [unfold answers; setoid_rewrite Hrec|];
      by eapply (settle_retried funded p c EventCommitted).
  - intros H. split; [|unfold answers; setoid_rewrite Hrec];
      by eapply (settle_retried funded p c EventReleased).
Qed.

(** ** Program ceilings *)

Lemma max_amount_app (k : EventKind) (l : list WalletEventRow) (r : WalletEventRow) :
  wevent_Kind (wrow_Event r) <> k -> max_amount k (l ++ [r]) = max_amount k l.
Proof.
  intros Hk. unfold max_amount. by rewrite filter_app, filter_cons_False, filter_nil, app_nil_r.
Qed.

Lemma max_amount_app_le (k : EventKind) (l : list WalletEventRow) (r : WalletEventRow) :
  (forall x, x ∈ l -> 0 <= amount x) -> 0 <= amount r ->
  default 0 (max_amount k (l ++ [r])) <= default 0 (max_amount k l) + amount r
  /\ 0 <= default 0 (max_amount k l).
Proof.
  intros Hl Hr. unfold max_amount. rewrite filter_app.
  assert (Hl' : forall x, x ∈ filter (fun r => wevent_Kind (wrow_Event r) = k) l -> 0 <= amount x).
  { intros x [_ Hx]%list_elem_of_filter. auto. }
  revert Hl'. generalize (filter (fun r => wevent_Kind (wrow_Event r) = k) l) as l1.
  rewrite filter_cons, filter_nil. intros l1. induction l1 as [|x l1 IH]; intros Hl'.
  - case_decide; simpl; unfold amount in *; lia.
  - specialize (IH (fun y Hy => Hl' y (list_elem_of_further _ _ _ Hy))).
    pose proof (Hl' x (list_elem_of_here _ _)). unfold amount in *.
    case_decide; simpl in *; repeat case_match; simpl in *; lia.
Qed.

(** A reservation adds at most its estimate to the spend of an invocation. *)
Lemma invocation_spend_reserved (l : list WalletEventRow) (id i : Z) (p : string) (c : Call)
    (a : USDNanos) (note : option Annotation) (now : Instant) :
  (forall x, x ∈ l -> 0 <= amount x) -> 0 <= a ->
  invocation_spend (l ++ [new_event id p c EventReserved a note now]) i
  <= invocation_spend l i + (if decide (c = ChatCall i) then a else 0).
Proof.
  intros Hl Ha. unfold invocation_spend, events_of_invocation. rewrite filter_app, filter_cons, filter_nil.
  simpl. case_decide as Hc; [|rewrite app_nil_r; lia].
  rewrite !max_amount_app by done. destruct (max_amount EventCommitted _); [lia|].
  destruct (max_amount EventReleased _); [lia|].
  edestruct (max_amount_app_le EventReserved (filter (fun r => wevent_Call (wrow_Event r) = ChatCall i) l)
               (new_event id p c EventReserved a note now)) as [H _]; [| |exact H].
  - intros x [_ Hx]%list_elem_of_filter. auto.
  - done.
Qed.

Lemma family_spend_reserved (scope : Z -> Task -> bool) (q : string) (models : list string)
    (d d' : SpendDB) (id : Z) (p : string) (i : Z) (a : USDNanos) (note : option Annotation)
    (now : Instant) :
  (forall x, x ∈ sp_wallet_events d -> 0 <= amount x) -> 0 <= a ->
  sp_invocations d' = sp_invocations d -> sp_tasks d' = sp_tasks d ->
  sp_wallet_events d' = sp_wallet_events d ++ [new_event id p (ChatCall i) EventReserved a note now] ->
  family_spend scope q models d' <= family_spend scope q models d + a.
Proof.
  intros Hl Ha Hinv Ht He. unfold family_spend, family_invocations. rewrite Hinv, Ht, He.
  set (fam := filter _ _).
  assert (Hnd : NoDup (fst <$> fam)).
  { apply NoDup_fmap_filter, NoDup_fst_map_to_list. }
  change (sum_Z (map ?f fam)) with (total f fam).
  transitivity (total (fun '(j, _) => invocation_spend (sp_wallet_events d) j) fam
                + total (fun x : Z * ModelInvocation => if bool_decide (fst x = i) then a else 0) fam).
  - assert (Hle : total (fun '(j, _) => invocation_spend (sp_wallet_events d
                      ++ [new_event id p (ChatCall i) EventReserved a note now]) j) fam
      <= total (fun x : Z * ModelInvocation => invocation_spend (sp_wallet_events d) (fst x)
                  - - (if bool_decide (fst x = i) then a else 0)) fam).
    { apply total_le. intros [j m] _. simpl.
      pose proof (invocation_spend_reserved (sp_wallet_events d) id j p (ChatCall i) a note now Hl Ha).
      case_decide as Hc; case_bool_decide as Hj; simplify_eq/=; lia. }
    etransitivity; [exact Hle|].
    rewrite (total_sub (fun x : Z * ModelInvocation => invocation_spend (sp_wallet_events d) (fst x))).
    assert (Hopp : total (fun x : Z * ModelInvocation => - (if bool_decide (fst x = i) then a else 0)) fam
      = 0 - total (fun x : Z * ModelInvocation => if bool_decide (fst x = i) then a else 0) fam).
    { rewrite <- (total_zero (fun _ => 0) fam) by done. rewrite <- total_sub.
      apply total_ext. intros; lia. }
    rewrite Hopp.
    assert (Heq : total (fun x : Z * ModelInvocation => invocation_spend (sp_wallet_events d) (fst x)) fam
      = total (fun '(j, _) => invocation_spend (sp_wallet_events d) j) fam).
    { apply total_ext. by intros [] _. }
    lia.
  - assert (total (fun x : Z * ModelInvocation => if bool_decide (fst x = i) then a else 0) fam <= a); [|lia].
    destruct (decide (i ∈ fst <$> fam)) as [Hin|Hin].
    + apply list_elem_of_fmap in Hin as (x & -> & Hx).
      by rewrite (total_key fst (fun _ => a) fam x Hnd Hx).
    + rewrite total_zero; [done|]. intros x Hx. rewrite bool_decide_false; [done|].
      intros <-. apply Hin. by apply list_elem_of_fmap_2.
Qed.

Lemma throwIf_error (cond : bool) (e e' : SpendError) (w w' : SpendWorld) :
  throwIf cond e w = (Err e', w') -> e' = e.
Proof. unfold throwIf, throw, ret. destruct cond; naive_solver. Qed.

Lemma bind_err {A B} (m : Spend A) (f : A -> Spend B) (e : SpendError) (w w' : SpendWorld) :
  bind m f w = (Err e, w') <->
  m w = (Err e, w') \/ exists a w1, m w = (Ok a, w1) /\ f a w1 = (Err e, w').
Proof. unfold bind. destruct (m w) as [[a|e'] w1]; naive_solver. Qed.

Lemma update_wallet_never (p : string) (debit hold : Z) (now : Instant) (w w' : SpendWorld) :
  update_wallet p debit hold now w <> (Err ErrProgramBudgetExceeded, w').
Proof.
  unfold update_wallet. intros [H|(d & w1 & [-> ->]%sp_get_ok & H)]%bind_err; [done|].
  destruct (sp_wallets (sw_db w) !! p); [|done].
  repeat (apply bind_err in H as [H|(? & ? & _ & H)];
          [by apply throwIf_error in H|]). done.
Qed.

Lemma insert_wallet_event_never (p : string) (c : Call) (k : EventKind) (a : USDNanos)
    (note : option Annotation) (now : Instant) (w w' : SpendWorld) :
  insert_wallet_event p c k a note now w <> (Err ErrProgramBudgetExceeded, w').
Proof.
  unfold insert_wallet_event. intros [H|(id & w1 & _ & H)]%bind_err; [done|].
  apply bind_err in H as [H|(? & ? & _ & H)]; [by apply throwIf_error in H|].
  apply bind_err in H as [H|(d & ? & _ & H)]; [done|].
  destruct (is_some _); [done|].
  apply bind_err in H as [H|(? & ? & _ & H)]; [by apply throwIf_error in H|].
  apply bind_err in H as [H|(? & ? & _ & H)]; [by apply throwIf_error in H|]. done.
Qed.

Lemma ceiling_exceeded (req : ProgramReservation) (now : Instant) (w w' : SpendWorld) :
  let used := family_spend (with_correlation (pres_CorrelationID req)) (pres_ProviderID req)
                (pres_FamilyModelIDs req) (sw_db w) in
  used + pres_EstimatedUSD req <= maxInt64 ->
  ReserveWithinProgramCeiling req now w = (Err ErrProgramBudgetExceeded, w') ->
  pres_MaxUSD req < used + pres_EstimatedUSD req.
Proof.
  intros used Hmax H. unfold ReserveWithinProgramCeiling in H.
  apply bind_err in H as [H|(u & w1 & [Hreq ->]%throwIf_ok & H)]; [by apply throwIf_error in H|].
  unfold atomically in H. destruct (bind _ _ w) as [[]w2] eqn:Hm; [done|]. injection H as -> _.
  apply bind_err in Hm as [H|(x & w3 & [_ ->]%lockWallet_ok & H)].
  { unfold lockWallet, bind, sp_get in H. by destruct (_ !! _). }
  apply bind_err in H as [H|(o & w3 & Ho & H)]; [done|].
  rewrite select_reserved_run in Ho. injection Ho as <- <-.
  destruct (_ <$> _); [by apply throwIf_error in H|].
  apply bind_err in H as [H|(n & w3 & (-> & -> & Hn)%familySpend_ok & H)].
  { unfold familySpend in H. apply bind_err in H as [H|(? & ? & _ & H)]; [done|].
    apply bind_err in H as [H|(? & ? & _ & H)]; [by apply throwIf_error in H|done]. }
  apply bind_err in H as [H|(? & ? & _ & H)].
  { unfold throwIf in H. fold used in H, Hn. rewrite wrap64_id in H by (unfold int64 in *; lia).
    destruct (pres_MaxUSD req <? used + pres_EstimatedUSD req) eqn:Hlt; [lia|done]. }
  apply bind_err in H as [H|(? & ? & _ & H)]; [by apply throwIf_error in H|].
  apply bind_err in H as [H|(b & ? & _ & H)]; [by apply insert_wallet_event_never in H|].
  apply bind_err in H as [H|(? & ? & _ & H)]; [by apply throwIf_error in H|].
  by apply update_wallet_never in H.
Qed.

(** C17: a reservation granted under a program ceiling leaves the spend of the program in the family,
    as ProgramFamilySpend counts it, at most at the ceiling, and fits the wallet; it is refused when
    the program's spend and the estimate exceed the ceiling. *)
Theorem program_ceiling_holds (req : ProgramReservation) (now : Instant) (w0 w w' : SpendWorld)
    (res : result SpendError unit) :
  no_wallets w0 -> spend_moves (fun _ => True) w0 w ->
  let p := pres_ProviderID req in
  let spent v := family_spend (with_correlation (pres_CorrelationID req)) p
                   (pres_FamilyModelIDs req) (sw_db v) in
  spent w + pres_EstimatedUSD req <= maxInt64 ->
  ReserveWithinProgramCeiling req now w = (res, w') ->
  match res with
  | Ok tt =>
      sw_db w' = sw_db w
      \/ (spent w' <= spent w + pres_EstimatedUSD req <= pres_MaxUSD req
          /\ exists x, sp_wallets (sw_db w) !! p = Some x
               /\ pres_EstimatedUSD req <= wallet_BalanceUSD x - wallet_ReservedUSD x
               /\ sp_wallets (sw_db w') !! p = Some (wallet_moved x 0 (pres_EstimatedUSD req) now))
  | Err e => sw_db w' = sw_db w /\ (e = ErrProgramBudgetExceeded ->
               pres_MaxUSD req < spent w + pres_EstimatedUSD req)
  end.
Proof.
  intros H0 Hw p spent Hmax H. pose proof (spend_moves_inv _ _ _ Hw (no_wallets_inv _ H0)) as Hinv.
  assert (Hwrap : int64 (spent w) -> 0 <= pres_EstimatedUSD req ->
    wrap64 (spent w + pres_EstimatedUSD req) = spent w + pres_EstimatedUSD req).
  { intros Hs Ha. apply wrap64_id. unfold int64 in *. lia. }
  destruct res as [[]|e].
  - apply ceiling_ok in H as (Ha & x & Hx & [(r & _ & _ & ->)|H]); [by left| |done]. right.
    destruct H as (_ & Hs & Hle & Hbal & _ & id & Hd). fold p (spent w) in Hs, Hle.
    rewrite Hwrap in Hle by done. split; [split; [|done]|].
    + unfold spent. eapply family_spend_reserved; [apply (inv_events _ Hinv)|done| | |];
        by rewrite Hd.
    + exists x. split_and!; [done|done|]. rewrite Hd. simpl. by rewrite lookup_insert_eq.
  - split; [by eapply ceiling_err|]. intros ->. by eapply ceiling_exceeded.
Qed.

(** ** Witnesses *)

Lemma run_moves (funded : string -> Prop) (calls : list LedgerCall) (w : SpendWorld) :
  Forall (fun c => funds_int64 c /\ forall p, funds c = Some p -> funded p) calls ->
  spend_moves funded w (ledger_run calls w).
Proof.
  revert w. induction calls as [|c calls IH]; intros w Hc; [constructor|].
  apply Forall_cons in Hc as [[Hi Hf] Hc]. eapply rtc_l; [by apply (MoveCall funded w c)|].
  by apply IH.
Defined.

Lemma funded_moves : spend_moves (fun _ => True) spend0 spend_funded.
Proof.
  apply run_moves. repeat constructor; vm_compute; congruence.
Defined.

Lemma held_moves : spend_moves (fun q => q <> "gemini"%string) spend_funded spend_held.
Proof. apply run_moves. repeat constructor. intros p [=]. Defined.

Lemma charged_moves : spend_moves (fun q => q <> "gemini"%string) spend_held spend_charged.
Proof. apply run_moves. repeat constructor. intros p [=]. Defined.

Lemma moves_any (funded : string -> Prop) (w w' : SpendWorld) :
  spend_moves funded w w' -> spend_moves (fun _ => True) w w'.
Proof.
  induction 1 as [|w w1 w' H1 _ IH]; [constructor|]. eapply rtc_l; [|exact IH].
  destruct H1 as [c Hi _|w1 Hw He]; [by apply MoveCall|by apply MoveOther].
Defined.

Lemma moves_trans {funded : string -> Prop} (w w1 w' : SpendWorld) :
  spend_moves funded w w1 -> spend_moves funded w1 w' -> spend_moves funded w w'.
Proof. intros H1 H2. by etransitivity. Defined.

Lemma spend0_empty : no_wallets spend0.
Proof. by split. Defined.

Lemma ledger_calls_refine_witness :
  ledger_steps None (sw_db spend_funded) (sw_db spend_held) /\ ledger_inv (sw_db spend_held).
Proof.
  apply (ledger_calls_refine (CallReserve (ChatCall 7) "gemini" 4000 20) spend_funded).
  - exact (spend_moves_inv _ _ _ funded_moves (no_wallets_inv _ spend0_empty)).
  - exact I.
Defined.

Lemma wallets_hold_open_reservations_witness :
  (wallet_ReservedUSD <$> (sp_wallets (sw_db spend_held) !! "gemini"%string)) = Some 4000
  /\ held (sp_wallet_events (sw_db spend_held)) "gemini" = 4000
  /\ NoDup (row_key <$> sp_wallet_events (sw_db spend_held)).
Proof.
  split; [vm_compute; reflexivity|]. split; [vm_compute; reflexivity|].
  apply (wallets_hold_open_reservations spend0 spend_held spend0_empty).
  exact (moves_trans _ _ _ funded_moves (moves_any _ _ _ held_moves)).
Defined.

Lemma balances_are_conserved_witness :
  (wallet_BalanceUSD <$> (sp_wallets (sw_db spend_charged) !! "gemini"%string)) = Some 7500
  /\ exists x', sp_wallets (sw_db spend_charged) !! "gemini"%string = Some x'
       /\ wallet_BalanceUSD x' = 10000 - (charged (sp_wallet_events (sw_db spend_charged)) "gemini"
            - charged (sp_wallet_events (sw_db spend_funded)) "gemini").
Proof.
  split; [vm_compute; reflexivity|].
  exact (proj1 (balances_are_conserved spend0 spend_funded spend_charged "gemini"
    (mkProviderWallet "gemini" 10000 0 10 1) spend0_empty funded_moves
    (moves_trans _ _ _ held_moves charged_moves) ltac:(vm_compute; reflexivity))).
Defined.

Lemma retries_change_nothing_witness :
  answers (reserve "gemini" (ChatCall 7) 9 50) spend_charged (Err ErrAmountMismatch)
  /\ answers (release None "gemini" (ChatCall 7) 50) spend_charged (Err ErrAlreadyTerminal).
Proof.
  split.
  - apply (proj1 (retries_change_nothing (fun _ => True) None None "gemini" (ChatCall 7) 4000 9 20 50
             spend0 spend_funded spend_held spend_charged spend0_empty funded_moves
             (moves_trans _ _ _ funded_moves (moves_any _ _ _ held_moves))
             (moves_any _ _ _ charged_moves) ltac:(lia))).
    vm_compute. reflexivity.
  - apply (proj1 (proj2 (retries_change_nothing (fun _ => True) (Some ActualProviderReported) None
             "gemini" (ChatCall 7) 2500 9 30 50 spend0 spend_held spend_charged spend_charged
             spend0_empty (moves_trans _ _ _ funded_moves (moves_any _ _ _ held_moves))
             (moves_trans _ _ _ funded_moves
                (moves_any _ _ _ (moves_trans _ _ _ held_moves charged_moves)))
             (rtc_refl _ _) ltac:(lia)))).
    vm_compute. reflexivity.
Defined.

Lemma program_ceiling_holds_witness :
  fst (ReserveWithinProgramCeiling (demo_reservation 8 2000) 40 spend_held) = Ok tt
  /\ fst (ReserveWithinProgramCeiling (demo_reservation 8 2001) 40 spend_held)
     = Err ErrProgramBudgetExceeded
  /\ 6000 < family_spend (with_correlation "prog") "gemini" ["pro"%string] (sw_db spend_held) + 2001.
Proof.
  split; [vm_compute; reflexivity|]. split; [vm_compute; reflexivity|].
  pose proof (program_ceiling_holds (demo_reservation 8 2001) 40 spend0 spend_held
    (snd (ReserveWithinProgramCeiling (demo_reservation 8 2001) 40 spend_held))
    (Err ErrProgramBudgetExceeded) spend0_empty
    (moves_trans _ _ _ funded_moves (moves_any _ _ _ held_moves))
    ltac:(vm_compute; congruence) ltac:(vm_compute; reflexivity)) as H.
  exact (proj2 H eq_refl).
Defined.
