(* ===== verification/LedgerPages.v ===== *)
(** * Paging through the calls of a wallet

    A page of ListCallBreakdownsFiltered that starts at the cursor of row [n]
    of the whole ordered listing is the next slice of that listing. *)

From stdpp Require Import base tactics list gmap strings sorting.
From Stdlib Require Import ZArith Lia.
From S2P Require Import Prelude GoLib TaskDomain Database StoreRead SpendDB CostLedger.
From S2P Require Import LedgerRefine.

Local Open Scope Z_scope.

(** ** Sorting and filtering *)

(** A condition on the rows can be applied before or after [ORDER BY]. *)
Lemma order_by_filter {A} (le : A -> A -> bool) `{!RowOrder le} (P : A -> bool) (l : list A) :
  (forall x y, x ∈ l -> y ∈ l -> le x y = true -> le y x = true -> x = y) ->
  order_by le (filter (fun x => P x = true) l) = filter (fun x => P x = true) (order_by le l).
Proof.
  intros Hanti. apply (StronglySorted_unique_strong (fun x y => le x y = true)).
  - intros x y Hx Hy. apply Hanti.
    + apply elem_of_order_by in Hx. by apply list_elem_of_filter in Hx as [_ Hx].
    + apply list_elem_of_filter in Hy as [_ Hy]. by apply elem_of_order_by in Hy.
  - by apply order_by_sorted.
  - eapply StronglySorted_sublist; [apply sublist_filter|by apply order_by_sorted].
  - rewrite (order_by_perm le (filter _ l)). by rewrite (order_by_perm le l).
Qed.

Lemma filter_all {A} (P : A -> bool) (l : list A) :
  (forall x, x ∈ l -> P x = true) -> filter (fun x => P x = true) l = l.
Proof.
  induction l as [|x l IH]; intros H; [done|].
  rewrite filter_cons_True by (apply H; left). f_equal. apply IH. intros y Hy. apply H. by right.
Qed.

Lemma filter_none {A} (P : A -> bool) (l : list A) :
  (forall x, x ∈ l -> P x = false) -> filter (fun x => P x = true) l = [].
Proof.
  induction l as [|x l IH]; intros H; [done|].
  rewrite filter_cons_False by (rewrite H by left; done). apply IH. intros y Hy. apply H. by right.
Qed.

(** ** Rows *)

Lemma call_row_id (providerID : string) (e : list WalletEventRow) (id : Z) (i : ModelInvocation)
    (u : option InvocationUsage) :
  call_InvocationID (scanCallBreakdownRow providerID e id i u) = id.
Proof. done. Qed.

Lemma call_rows_ids (org p : string) (f : CallBreakdownFilter) (d : SpendDB) :
  NoDup (call_InvocationID <$> call_rows org p f d).
Proof.
  unfold call_rows. rewrite <- list_fmap_compose.
  rewrite (list_fmap_ext _ fst); [apply NoDup_fmap_filter, NoDup_fst_map_to_list|].
  by intros i [id inv] _.
Qed.

(** Identity columns start at 1. *)
Definition positive_ids (d : SpendDB) : Prop :=
  forall id i, sp_invocations d !! id = Some i -> 0 < id.

Lemma call_rows_positive (org p : string) (f : CallBreakdownFilter) (d : SpendDB)
    (c : CallBreakdown) : positive_ids d -> c ∈ call_rows org p f d -> 0 < call_InvocationID c.
Proof.
  intros Hp Hc. unfold call_rows in Hc. apply list_elem_of_fmap in Hc as ([id i] & -> & Hin).
  apply list_elem_of_filter in Hin as [_ Hin]. rewrite call_row_id.
  by apply elem_of_map_to_list, Hp in Hin.
Qed.

(** The whole listing. *)
Definition listing (org p : string) (f : CallBreakdownFilter) (d : SpendDB) : list CallBreakdown :=
  order_by call_order (call_rows org p f d).

(** Where a page that follows the first [n] rows starts. *)
Definition cursor_at (l : list CallBreakdown) (n : nat) : CallBreakdownCursor :=
  match n with
  | O => start_cursor
  | S m => match l !! m with
           | Some c => mkCallBreakdownCursor (call_LastLedgerAt c) (call_InvocationID c)
           | None => start_cursor
           end
  end.

Section Pages.
Context (org p : string) (f : CallBreakdownFilter) (d : SpendDB) (Hpos : positive_ids d).

Let L := listing org p f d.

Lemma listing_ids : NoDup (call_InvocationID <$> L).
Proof. unfold L, listing. rewrite order_by_perm. apply call_rows_ids. Qed.

Lemma call_order_strict (x y : CallBreakdown) :
  x ∈ call_rows org p f d -> y ∈ call_rows org p f d ->
  call_order x y = true -> call_order y x = true -> x = y.
Proof.
  intros Hx Hy Hxy Hyx. apply (NoDup_fmap_inj_on call_InvocationID (call_rows org p f d));
    [apply call_rows_ids|done|done|].
  unfold call_order, newest in *.
  destruct (call_LastLedgerAt x =? call_LastLedgerAt y) eqn:H1,
    (call_LastLedgerAt y =? call_LastLedgerAt x) eqn:H2; lia.
Qed.

Lemma after_row (x c : CallBreakdown) :
  0 < call_InvocationID x ->
  after_cursor (mkCallBreakdownCursor (call_LastLedgerAt x) (call_InvocationID x)) c
  = negb (call_order c x).
Proof.
  intros Hx. unfold after_cursor, call_order, newest. simpl.
  rewrite (proj2 (Z.leb_gt _ _) Hx). simpl.
  destruct (call_LastLedgerAt c =? call_LastLedgerAt x) eqn:H1; lia.
Qed.

(** The rows after the cursor of a row are the rows behind it. *)
Lemma after_cursor_drop (n : nat) :
  (n <= length L)%nat ->
  filter (fun c => after_cursor (cursor_at L n) c = true) L = drop n L.
Proof.
  intros Hn. destruct n as [|m]; simpl cursor_at.
  { rewrite drop_0. apply filter_all. by intros x _. }
  destruct (lookup_lt_is_Some_2 L m) as [x Hx]; [lia|]. rewrite Hx.
  assert (Hsort : StronglySorted (fun x y => call_order x y = true) L).
  { apply order_by_sorted. apply _. }
  assert (Hin : forall y, y ∈ L -> y ∈ call_rows org p f d) by (intros y; apply elem_of_order_by).
  assert (Hxin : x ∈ L) by by eapply list_elem_of_lookup_2.
  assert (Hxpos : 0 < call_InvocationID x) by (eapply call_rows_positive; eauto).
  rewrite <- (take_drop (S m) L) at 1. rewrite filter_app, filter_none, filter_all; [done| |].
  - intros c Hc. rewrite after_row by done. apply negb_true_iff, not_true_iff_false. intros Hcx.
    assert (Hxc : call_order x c = true).
    { apply (StronglySorted_split (fun x y => call_order x y = true) (take (S m) L) (drop (S m) L));
        [by rewrite take_drop|apply list_elem_of_lookup; exists m; by rewrite lookup_take_lt by lia|done]. }
    assert (Hcin : c ∈ L) by by eapply sublist_subseteq; [apply sublist_drop|].
    assert (x = c) as <- by (apply call_order_strict; auto).
    apply list_elem_of_lookup in Hc as [j Hj]. rewrite lookup_drop in Hj.
    assert (m = (S m + j)%nat); [|lia]. eapply (NoDup_lookup (call_InvocationID <$> L));
      [apply listing_ids|rewrite list_lookup_fmap, Hx; done|rewrite list_lookup_fmap, Hj; done].
  - intros c Hc. rewrite after_row by done. apply negb_false_iff.
    apply list_elem_of_lookup in Hc as [j Hj].
    assert (Hlt : (j < length (take (S m) L))%nat) by by eapply lookup_lt_Some.
    rewrite length_take in Hlt. rewrite lookup_take_lt in Hj by lia.
    destruct (decide (j = m)) as [->|Hne].
    + rewrite Hx in Hj. injection Hj as <-. unfold call_order, newest.
      by rewrite Z.eqb_refl, Z.leb_refl.
    + apply (StronglySorted_split (fun x y => call_order x y = true) (take m L) (drop m L));
        [by rewrite take_drop| |].
      * apply list_elem_of_lookup. exists j. by rewrite lookup_take_lt by lia.
      * apply list_elem_of_lookup. exists O. by rewrite lookup_drop, Nat.add_0_r.
Qed.

(** One page, from the cursor of the row before it. *)
Lemma page_from (limit : Z) (n : nat) (w : SpendWorld) :
  sw_db w = d -> page_size_ok org p limit = true -> TrimSpace org = org -> TrimSpace p = p ->
  (n <= length L)%nat ->
  ListCallBreakdownsFiltered org p f (cursor_at L n) limit w
  = (Ok (take (Z.to_nat limit) (drop n L),
         (if limit <? Z.of_nat (length (drop n L)) then cursor_at L (n + Z.to_nat limit)
          else start_cursor),
         limit <? Z.of_nat (length (drop n L))), w).
Proof.
  intros Hd Hok Ho Hp Hn. unfold ListCallBreakdownsFiltered, bind, throwIf, sp_get. rewrite Ho, Hp, Hok.
  cbn [negb]. cbv beta iota delta [ret]. rewrite Hd. rewrite order_by_filter by (apply _ || apply call_order_strict).
  fold L. change (order_by call_order (call_rows org p f d)) with L.
  rewrite after_cursor_drop by done.
  assert (Hl : 0 < limit <= 1000).
  { unfold page_size_ok in Hok. lia. }
  unfold page. rewrite drop_0. replace (Z.to_nat (limit + 1)) with (S (Z.to_nat limit)) by lia.
  rewrite length_take.
  assert (Hmore : (limit <? Z.of_nat (S (Z.to_nat limit) `min` length (drop n L)))
                  = (limit <? Z.of_nat (length (drop n L)))).
  { apply eq_true_iff_eq. rewrite !Z.ltb_lt. lia. }
  rewrite Hmore. destruct (limit <? Z.of_nat (length (drop n L))) eqn:Hm; unfold ret; [|].
  - apply Z.ltb_lt in Hm. rewrite take_take. replace (Z.to_nat limit `min` S (Z.to_nat limit))%nat
      with (Z.to_nat limit) by lia. do 3 f_equal.
    rewrite last_lookup, length_take.
    destruct (Z.to_nat limit) as [|k] eqn:Hk; [lia|].
    replace (pred (S k `min` length (drop n L))) with k by lia.
    rewrite lookup_take_lt, lookup_drop by lia. rewrite Nat.add_succ_r. done.
  - apply Z.ltb_ge in Hm. rewrite !take_ge by lia. done.
Qed.

End Pages.

(** ** Reading every page

    The client's loop the interface describes: follow the cursor until
    [hasMore] is false.  [None] when the rounds run out. *)

Fixpoint walk_pages (rounds : nat) (org p : string) (f : CallBreakdownFilter) (limit : Z)
    (cursor : CallBreakdownCursor) : Spend (option (list CallBreakdown)) :=
  match rounds with
  | O => ret None
  | S rounds' =>
      let! (calls, next, hasMore) := ListCallBreakdownsFiltered org p f cursor limit in
      if hasMore then
        let! rest := walk_pages rounds' org p f limit next in
        ret (app calls <$> rest)
      else ret (Some calls)
  end.

Lemma walk_from (org p : string) (f : CallBreakdownFilter) (limit : Z) (w : SpendWorld)
    (rounds n : nat) :
  positive_ids (sw_db w) -> page_size_ok org p limit = true ->
  TrimSpace org = org -> TrimSpace p = p ->
  (n <= length (listing org p f (sw_db w)))%nat ->
  (length (listing org p f (sw_db w)) - n < rounds)%nat ->
  walk_pages rounds org p f limit (cursor_at (listing org p f (sw_db w)) n) w
  = (Ok (Some (drop n (listing org p f (sw_db w)))), w).
Proof.
  intros Hpos Hok Ho Hp. revert n. induction rounds as [|rounds IH]; intros n Hn Hr; [lia|].
  assert (Hl : 0 < limit) by (unfold page_size_ok in Hok; lia).
  cbn [walk_pages]. unfold bind at 1.
  rewrite (page_from org p f (sw_db w) Hpos limit n w eq_refl Hok Ho Hp Hn).
  destruct (limit <? _) eqn:Hmore; cbv beta iota zeta.
  - apply Z.ltb_lt in Hmore. rewrite length_drop in Hmore. unfold bind.
    rewrite (IH (n + Z.to_nat limit)%nat) by lia. unfold ret. cbn [fmap option_fmap option_map].
    do 2 f_equal. f_equal. rewrite <- drop_drop. apply take_drop.
  - apply Z.ltb_ge in Hmore. unfold ret. rewrite take_ge by lia. done.
Qed.

(** C39: a reader that follows the cursors from the newest row ends, after at most one page per matching
    call, with every call that matches the filter exactly once, newest first. *)
Theorem pages_visit_every_call (org p : string) (f : CallBreakdownFilter) (limit : Z)
    (w : SpendWorld) :
  positive_ids (sw_db w) -> page_size_ok org p limit = true ->
  TrimSpace org = org -> TrimSpace p = p ->
  exists calls,
    walk_pages (S (length (call_rows org p f (sw_db w)))) org p f limit start_cursor w
    = (Ok (Some calls), w)
    /\ calls ≡ₚ call_rows org p f (sw_db w) /\ NoDup (call_InvocationID <$> calls)
    /\ StronglySorted (fun x y => call_order x y = true) calls.
Proof.
  intros Hpos Hok Ho Hp. exists (listing org p f (sw_db w)). split_and!.
  - pose proof (walk_from org p f limit w (S (length (call_rows org p f (sw_db w)))) 0 Hpos Hok Ho Hp
                  (Nat.le_0_l _)) as Hwalk.
    rewrite drop_0 in Hwalk. apply Hwalk. unfold listing. rewrite order_by_length. lia.
  - apply order_by_perm.
  - apply listing_ids.
  - apply order_by_sorted. apply _.
Qed.

(** Two calls, one page each. *)
Definition spend_two_calls : SpendWorld :=
  ledger_run [CallReserve (ChatCall 8) "gemini" 1000 40] spend_charged.

Lemma two_calls_ids : positive_ids (sw_db spend_two_calls).
Proof.
  assert (Hi : sp_invocations (sw_db spend_two_calls) = {[ 7 := demo_invocation; 8 := demo_invocation ]})
    by (vm_compute; reflexivity).
  intros id i Hid. rewrite Hi in Hid.
  apply lookup_insert_Some in Hid as [[<- _]|[_ [<- _]%lookup_singleton_Some]]; done.
Qed.

Lemma pages_visit_every_call_witness :
  exists calls,
    walk_pages 3 "acme" "gemini" no_filter 1 start_cursor spend_two_calls
    = (Ok (Some calls), spend_two_calls)
    /\ call_InvocationID <$> calls = [8; 7].
Proof.
  destruct (pages_visit_every_call "acme" "gemini" no_filter 1 spend_two_calls two_calls_ids
    eq_refl eq_refl eq_refl) as (calls & Hw & Hrest).
  assert (Hn : length (call_rows "acme" "gemini" no_filter (sw_db spend_two_calls)) = 2%nat)
    by (vm_compute; reflexivity).
  rewrite Hn in Hw. exists calls. split; [exact Hw|].
  assert (Hr : (fmap (M:=option) (fmap (M:=list) call_InvocationID)
    <$> (match fst (walk_pages 3 "acme" "gemini" no_filter 1 start_cursor spend_two_calls) with
         | Ok o => Some o | Err _ => None end)) = Some (Some [8; 7])) by (vm_compute; reflexivity).
  rewrite Hw in Hr. simpl in Hr. congruence.
Defined.

(** ** Open reservations *)

#[export] Instance oldest_order {A} (created id : A -> Z) : RowOrder (oldest created id).
Proof.
  unfold oldest. split.
  - intros x y. destruct (created x =? created y) eqn:H1, (created y =? created x) eqn:H2; lia.
  - intros x y z.
    destruct (created x =? created y) eqn:H1, (created y =? created z) eqn:H2,
      (created x =? created z) eqn:H3; lia.
Qed.
