(* ===== verification/FinanceSummary.v ===== *)
(** * The cost summary tool

    internal/ceochat/tools_finance.go: finance.get_cost_summary walks the
    ledger page by page, and says so when it stopped early.  The arguments
    are those of the decoded request; amounts stay numbers, the view prints
    them. *)

From stdpp Require Import base tactics list gmap strings sorting.
From Stdlib Require Import ZArith Lia.
From S2P Require Import Prelude GoLib TaskDomain Database StoreRead SpendDB CostLedger.
From S2P Require Import LedgerRefine LedgerPages.

Local Open Scope Z_scope.

Definition financeCallBreakdownPageSize : Z := 500.
Definition financeCallBreakdownMaxPages : nat := 20.
Definition financeCallBreakdownMaxProviders : Z := 50.

Record FinanceArgs : Type := mkFinanceArgs {
  args_TaskID : option Z;
  args_WalletProviderID : option string;
  args_ProviderModelID : option string;
  args_Since : option Instant;
  args_Until : option Instant }.

Record Totals : Type := mkTotals {
  tot_Settled : USDNanos;
  tot_Estimated : USDNanos;
  tot_CallsSettled : Z;
  tot_CallsUnsettled : Z;
  tot_CallsExcluded : Z }.

Definition no_totals : Totals := mkTotals 0 0 0 0 0.

Record providerSpendAccumulator : Type := mkAccumulator {
  acc_settled : USDNanos;
  acc_estimated : USDNanos;
  acc_truncated : bool }.

Record costSummaryView : Type := mkCostSummaryView {
  view_Totals : Totals;
  view_ProvidersOmitted : Z;
  view_Truncated : bool;
  view_ByProvider : list (string * providerSpendAccumulator) }.

(** One round of [for _, call := range breakdowns]. *)
Definition add_call (st : Totals * providerSpendAccumulator) (c : CallBreakdown)
    : Totals * providerSpendAccumulator :=
  let (t, a) := st in
  match call_Settlement c with
  | SettlementCommitted =>
      (mkTotals (wrap64 (tot_Settled t + call_ChargedUSD c)) (tot_Estimated t)
         (tot_CallsSettled t + 1) (tot_CallsUnsettled t) (tot_CallsExcluded t),
       mkAccumulator (wrap64 (acc_settled a + call_ChargedUSD c)) (acc_estimated a)
         (acc_truncated a))
  | SettlementReserved =>
      (mkTotals (tot_Settled t) (wrap64 (tot_Estimated t + call_EstimatedUSD c))
         (tot_CallsSettled t) (tot_CallsUnsettled t + 1) (tot_CallsExcluded t),
       mkAccumulator (acc_settled a) (wrap64 (acc_estimated a + call_EstimatedUSD c))
         (acc_truncated a))
  | SettlementReleased =>
      (mkTotals (tot_Settled t) (tot_Estimated t) (tot_CallsSettled t) (tot_CallsUnsettled t)
         (tot_CallsExcluded t + 1), a)
  end.

(** The loop over the pages of a provider; [pages] are those still allowed. *)
Fixpoint scan_pages (pages : nat) (organizationID providerID : string) (f : CallBreakdownFilter)
    (cursor : CallBreakdownCursor) (st : Totals * providerSpendAccumulator)
    : Spend (Totals * providerSpendAccumulator) :=
  match pages with
  | O => ret (fst st, mkAccumulator (acc_settled (snd st)) (acc_estimated (snd st)) true)
  | S pages' =>
      let! (breakdowns, next, hasMore) :=
        ListCallBreakdownsFiltered organizationID providerID f cursor
          financeCallBreakdownPageSize in
      let st := foldl add_call st breakdowns in
      if negb hasMore then ret st
      else scan_pages pages' organizationID providerID f next st
  end.

Definition worth_showing (a : providerSpendAccumulator) : bool :=
  negb (acc_settled a =? 0) || negb (acc_estimated a =? 0) || acc_truncated a.

(** One provider of the outer loop. *)
Definition scan_provider (organizationID : string) (f : CallBreakdownFilter)
    (v : costSummaryView) (providerID : string) : Spend costSummaryView :=
  let! (t, a) := scan_pages financeCallBreakdownMaxPages organizationID providerID f start_cursor
                    (view_Totals v, mkAccumulator 0 0 false) in
  ret (mkCostSummaryView t (view_ProvidersOmitted v) (view_Truncated v || acc_truncated a)
         (if worth_showing a then view_ByProvider v ++ [(providerID, a)] else view_ByProvider v)).

(** [sort.Strings] *)
Definition sort_strings (l : list string) : list string :=
  merge_sort (fun x y => String.compare x y <> Gt) l.

(** The provisioned providers to scan, and how many are left out. *)
Definition capped_providers : Spend (list string * Z) :=
  let! provisioned := ProvisionedProviderIDs in
  let all := sort_strings (elements provisioned) in
  let n := Z.of_nat (length all) in
  ret (if financeCallBreakdownMaxProviders <? n
       then (take (Z.to_nat financeCallBreakdownMaxProviders) all,
             n - financeCallBreakdownMaxProviders)
       else (all, 0)).

Definition finance_providers (requested : option string) : Spend (list string * Z) :=
  match requested with
  | Some p => if is_empty (TrimSpace p) then capped_providers else ret ([p], 0)
  | None => capped_providers
  end.

Definition finance_filter (args : FinanceArgs) : CallBreakdownFilter :=
  mkCallBreakdownFilter (default 0 (args_TaskID args))
    (match args_ProviderModelID args with
     | Some m => if is_empty (TrimSpace m) then EmptyString else m
     | None => EmptyString
     end)
    (args_Since args) (args_Until args).

(** The handler.  The views come out sorted by provider: the providers are
    scanned in that order. *)
Definition get_cost_summary (organizationID : string) (args : FinanceArgs)
    : Spend costSummaryView :=
  let! (providerIDs, omitted) := finance_providers (args_WalletProviderID args) in
  foldM (scan_provider organizationID (finance_filter args))
    (mkCostSummaryView no_totals omitted (0 <? omitted) []) providerIDs.

(** ** What a scan computes *)

Definition settled_of (c : CallBreakdown) : Z :=
  match call_Settlement c with SettlementCommitted => call_ChargedUSD c | _ => 0 end.
Definition estimated_of (c : CallBreakdown) : Z :=
  match call_Settlement c with SettlementReserved => call_EstimatedUSD c | _ => 0 end.
Definition calls_with (s : CallBreakdown -> bool) (l : list CallBreakdown) : Z :=
  total (fun c => if s c then 1 else 0) l.

Definition is_settled (c : CallBreakdown) : bool :=
  match call_Settlement c with SettlementCommitted => true | _ => false end.
Definition is_unsettled (c : CallBreakdown) : bool :=
  match call_Settlement c with SettlementReserved => true | _ => false end.
Definition is_excluded (c : CallBreakdown) : bool :=
  match call_Settlement c with SettlementReleased => true | _ => false end.

(** The totals after the calls [l], in unbounded integers. *)
Definition totals_after (t : Totals) (l : list CallBreakdown) : Totals :=
  mkTotals (tot_Settled t + total settled_of l) (tot_Estimated t + total estimated_of l)
    (tot_CallsSettled t + calls_with is_settled l)
    (tot_CallsUnsettled t + calls_with is_unsettled l)
    (tot_CallsExcluded t + calls_with is_excluded l).

Lemma wrap64_wrap_add (a b : Z) : wrap64 (wrap64 a + b) = wrap64 (a + b).
Proof.
  unfold wrap64. f_equal.
  replace ((a + two63) mod (2 * two63) - two63 + b + two63)
    with ((a + two63) mod (2 * two63) + b) by lia.
  rewrite Zplus_mod_idemp_l. f_equal. lia.
Qed.

(** Sums that wrap at every addition wrap once. *)
Definition wrapped (t : Totals) : Totals :=
  mkTotals (wrap64 (tot_Settled t)) (wrap64 (tot_Estimated t)) (tot_CallsSettled t)
    (tot_CallsUnsettled t) (tot_CallsExcluded t).

Lemma add_calls (l : list CallBreakdown) (t : Totals) (s e : Z) (b : bool) :
  foldl add_call (wrapped t, mkAccumulator (wrap64 s) (wrap64 e) b) l
  = (wrapped (totals_after t l),
     mkAccumulator (wrap64 (s + total settled_of l)) (wrap64 (e + total estimated_of l)) b).
Proof.
  revert t s e. induction l as [|c l IH]; intros t s e.
  - unfold totals_after, calls_with, wrapped. simpl. by rewrite !Z.add_0_r.
  - unfold totals_after, calls_with in *. cbn [foldl]. rewrite !total_cons.
    assert (Hstep : add_call (wrapped t, mkAccumulator (wrap64 s) (wrap64 e) b) c
      = (wrapped (mkTotals (tot_Settled t + settled_of c) (tot_Estimated t + estimated_of c)
           (tot_CallsSettled t + (if is_settled c then 1 else 0))
           (tot_CallsUnsettled t + (if is_unsettled c then 1 else 0))
           (tot_CallsExcluded t + (if is_excluded c then 1 else 0))),
         mkAccumulator (wrap64 (s + settled_of c)) (wrap64 (e + estimated_of c)) b)).
    { unfold add_call, wrapped, settled_of, estimated_of, is_settled, is_unsettled, is_excluded.
      destruct (call_Settlement c); simpl; by rewrite ?wrap64_wrap_add, ?Z.add_0_r. }
    rewrite Hstep, IH. unfold wrapped. simpl. by rewrite !Z.add_assoc.
Qed.

Notation page_rows := financeCallBreakdownPageSize.

Section Scan.
Context (org p : string) (f : CallBreakdownFilter) (w : SpendWorld).
Context (Hpos : positive_ids (sw_db w)) (Horg : TrimSpace org = org) (Hp : TrimSpace p = p).
Context (Horg0 : is_empty org = false) (Hp0 : is_empty p = false).

Let L := listing org p f (sw_db w).

Lemma page_size_fine : page_size_ok org p financeCallBreakdownPageSize = true.
Proof using Horg0 Hp0. unfold page_size_ok. by rewrite Horg0, Hp0. Qed.

(** Whether a scan of [pages] pages leaves some of [rows] rows behind. *)
Definition scan_stops_early (pages rows : nat) : bool :=
  match pages with O => true | S _ => page_rows * Z.of_nat pages <? Z.of_nat rows end.

Lemma scan_stops_early_more (pages rows : nat) :
  page_rows < Z.of_nat rows ->
  scan_stops_early pages (rows - Z.to_nat page_rows) = scan_stops_early (S pages) rows.
Proof.
  unfold scan_stops_early, financeCallBreakdownPageSize. intros Hmore.
  destruct pages as [|k]; [symmetry; apply Z.ltb_lt; lia|].
  apply eq_true_iff_eq. rewrite !Z.ltb_lt. lia.
Qed.

Lemma scan_stops_early_last (pages rows : nat) :
  Z.of_nat rows <= page_rows -> scan_stops_early (S pages) rows = false.
Proof.
  unfold scan_stops_early, financeCallBreakdownPageSize. intros H.
  apply Z.ltb_ge. lia.
Qed.

Lemma take_pages {A} (n : nat) (pages : nat) (l : list A) :
  take (Z.to_nat (page_rows * Z.of_nat (S pages))) l
  = take (Z.to_nat page_rows) l ++ take (Z.to_nat (page_rows * Z.of_nat pages)) (drop (Z.to_nat page_rows) l).
Proof.
  replace (Z.to_nat (page_rows * Z.of_nat (S pages)))
    with (Z.to_nat page_rows + Z.to_nat (page_rows * Z.of_nat pages))%nat
    by (unfold financeCallBreakdownPageSize; lia).
  by rewrite take_take_drop.
Qed.

(** [n] rows of the listing are behind; [pages] pages are left. *)
Lemma scan_pages_spec (pages n : nat) (t : Totals) (s e : Z) :
  (n <= length L)%nat ->
  let seen := take (Z.to_nat (page_rows * Z.of_nat pages)) (drop n L) in
  scan_pages pages org p f (cursor_at L n) (wrapped t, mkAccumulator (wrap64 s) (wrap64 e) false) w
  = (Ok (wrapped (totals_after t seen),
         mkAccumulator (wrap64 (s + total settled_of seen)) (wrap64 (e + total estimated_of seen))
           (scan_stops_early pages (length (drop n L)))), w).
Proof using Hpos Horg Hp Horg0 Hp0.
  revert n t s e. induction pages as [|pages IH]; intros n t s e Hn; cbv zeta.
  - unfold scan_pages, ret, totals_after, calls_with, scan_stops_early.
    rewrite Z.mul_0_r. cbn [Z.to_nat]. rewrite take_0. unfold total, sum_Z. simpl.
    by rewrite !Z.add_0_r.
  - cbn [scan_pages]. unfold bind at 1.
    pose proof (page_from org p f (sw_db w) Hpos financeCallBreakdownPageSize n w eq_refl
                  page_size_fine Horg Hp Hn) as Hpage.
    fold L in Hpage. rewrite Hpage. clear Hpage. rewrite add_calls. 
    destruct (page_rows <? Z.of_nat (length (drop n L))) eqn:Hmore; cbn [negb]; cbv beta iota zeta.
    + apply Z.ltb_lt in Hmore. assert (Hn' : (n + Z.to_nat page_rows <= length L)%nat).
      { rewrite length_drop in Hmore. lia. }
      rewrite (IH (n + Z.to_nat page_rows)%nat) by done. cbv zeta.
      rewrite (take_pages n pages (drop n L)), drop_drop.
      rewrite <- scan_stops_early_more by done. rewrite <- length_drop, drop_drop.
      unfold totals_after, calls_with, wrapped. cbn [tot_Settled tot_Estimated tot_CallsSettled
        tot_CallsUnsettled tot_CallsExcluded]. by rewrite !total_app, !Z.add_assoc.
    + apply Z.ltb_ge in Hmore. unfold ret. rewrite scan_stops_early_last by done.
      rewrite !take_ge; [done| |]; unfold financeCallBreakdownPageSize in *; lia.
Qed.

End Scan.

Lemma totals_after_perm (t : Totals) (l k : list CallBreakdown) :
  l ≡ₚ k -> totals_after t l = totals_after t k.
Proof. intros H. unfold totals_after, calls_with. by rewrite !(total_perm _ l k H). Qed.

(** Asked for one provider, the cost summary counts every matching call exactly once - settled
    spend, open estimates and released reservations apart, as 64-bit sums - unless more than 20 pages
    of 500 match, and then, and only then, it says it is truncated. *)
Lemma cost_summary_is_honest (org p : string) (args : FinanceArgs) (w : SpendWorld) :
  positive_ids (sw_db w) -> TrimSpace org = org -> TrimSpace p = p ->
  is_empty org = false -> is_empty p = false -> args_WalletProviderID args = Some p ->
  let rows := call_rows org p (finance_filter args) (sw_db w) in
  exists v, get_cost_summary org args w = (Ok v, w)
    /\ view_ProvidersOmitted v = 0
    /\ view_Truncated v = (10000 <? Z.of_nat (length rows))
    /\ (view_Truncated v = false -> view_Totals v = wrapped (totals_after no_totals rows)).
Proof.
  intros Hpos Ho Hp Ho0 Hp0 Hreq rows.
  pose proof (scan_pages_spec org p (finance_filter args) w Hpos Ho Hp Ho0 Hp0
                financeCallBreakdownMaxPages 0 no_totals 0 0 (Nat.le_0_l _)) as Hscan.
  cbv zeta in Hscan. rewrite drop_0 in Hscan. set (L := listing org p _ _) in Hscan.
  assert (HL : L ≡ₚ rows) by apply order_by_perm.
  eexists. split.
  { unfold get_cost_summary, finance_providers. rewrite Hreq, Hp, Hp0.
    unfold bind at 1, ret at 1. cbv beta iota. cbn [foldM].
    unfold bind at 1, scan_provider, bind at 1. cbn [view_Totals].
    change (wrapped no_totals) with no_totals in Hscan.
    change (cursor_at L 0) with start_cursor in Hscan.
    change (wrap64 0) with 0 in Hscan. rewrite Hscan. cbv beta iota. reflexivity. }
  cbn [view_ProvidersOmitted view_Truncated view_Totals acc_truncated].
  assert (Hearly : scan_stops_early financeCallBreakdownMaxPages (length L)
                   = (10000 <? Z.of_nat (length rows))) by by rewrite HL.
  split; [done|]. split; [exact Hearly|]. intros Hno. rewrite take_ge.
  - by rewrite (totals_after_perm _ L rows HL).
  - change (scan_stops_early financeCallBreakdownMaxPages (length L) = false) in Hno.
    unfold scan_stops_early, financeCallBreakdownMaxPages in Hno. apply Z.ltb_ge in Hno.
    apply Nat2Z.inj_le. etransitivity; [exact Hno|]. by vm_compute.
Qed.

(** One charged call and one that is still open. *)
Lemma cost_summary_is_honest_witness :
  exists v, get_cost_summary "acme" (mkFinanceArgs None (Some "gemini"%string) None None None)
              spend_two_calls = (Ok v, spend_two_calls)
    /\ view_Totals v = mkTotals 2500 1000 1 1 0 /\ view_Truncated v = false.
Proof.
  destruct (cost_summary_is_honest "acme" "gemini"
    (mkFinanceArgs None (Some "gemini"%string) None None None) spend_two_calls two_calls_ids
    eq_refl eq_refl eq_refl eq_refl eq_refl) as (v & Hv & _ & Ht & Htot).
  assert (Hno : view_Truncated v = false) by (rewrite Ht; vm_compute; reflexivity).
  exists v. split_and!; [exact Hv| |exact Hno]. rewrite (Htot Hno). vm_compute. reflexivity.
Defined.
