(* ===== verification/AgentBudget.v ===== *)
(** * Agent budgets

    internal/agentbudget: the pure reservation (types.go) and the ledger of
    budgets over PostgreSQL (postgres/store.go).  [organizations] says which
    organizations exist. *)

From stdpp Require Import base tactics list gmap strings sorting.
From Stdlib Require Import ZArith Lia.
From S2P Require Import Prelude GoLib TaskDomain Database SpendDB.

Local Open Scope Z_scope.

(** ** types.go *)

Definition LimitsValidate (l : Limits) : result SpendError unit :=
  rejectIf ((MaxUSD l <=? 0) || (MaxTokens l <=? 0) || (MaxModelCalls l <=? 0)
            || (MaxWallTimeMS l <=? 0) || (MaxDepth l <=? 0) || (MaxRetries l <=? 0)
            || (MaxSubagents l <=? 0)) ErrInvalidBudgetRequest.

Definition DefaultLimits : Limits := mkLimits 5000000000 500000 100 3600000 5 10 20.

Definition SameRootBudget (b : Budget) (organizationID : string) (rootTaskID : Z)
    (roleID : string) (limits : Limits) : bool :=
  bool_decide (budget_OrganizationID b = organizationID) && (budget_RootTaskID b =? rootTaskID)
  && (budget_TaskID b =? rootTaskID) && bool_decide (budget_RoleID b = roleID)
  && bool_decide (budget_ParentBudgetID b = None) && bool_decide (budget_Limits b = limits).

(** [agentbudget.Reserve] *)
Definition ReserveUsage (current delta : Usage) (limits : Limits) : result SpendError Usage :=
  let next := mkUsage (wrap64 (UsedUSD current + UsedUSD delta))
    (wrap64 (UsedTokens current + UsedTokens delta))
    (wrap64 (UsedModelCalls current + UsedModelCalls delta))
    (wrap64 (UsedWallTimeMS current + UsedWallTimeMS delta))
    (Depth delta)
    (wrap64 (UsedRetries current + UsedRetries delta))
    (wrap64 (UsedSubagents current + UsedSubagents delta)) in
  check? rejectIf ((UsedUSD delta <? 0) || (UsedTokens delta <? 0) || (UsedModelCalls delta <? 0)
                   || (UsedWallTimeMS delta <? 0) || (Depth delta <? 0) || (UsedRetries delta <? 0)
                   || (UsedSubagents delta <? 0)) ErrInvalidBudgetRequest in
  check? rejectIf ((UsedUSD next <? UsedUSD current) || (UsedTokens next <? UsedTokens current)
                   || (UsedModelCalls next <? UsedModelCalls current)
                   || (UsedWallTimeMS next <? UsedWallTimeMS current)
                   || (UsedRetries next <? UsedRetries current)
                   || (UsedSubagents next <? UsedSubagents current)) ErrInvalidBudgetRequest in
  check? rejectIf (MaxUSD limits <? UsedUSD next) ErrBudgetExceeded in
  check? rejectIf (MaxTokens limits <? UsedTokens next) ErrBudgetExceeded in
  check? rejectIf (MaxModelCalls limits <? UsedModelCalls next) ErrBudgetExceeded in
  check? rejectIf (MaxWallTimeMS limits <? UsedWallTimeMS next) ErrBudgetExceeded in
  check? rejectIf (MaxDepth limits <? Depth next) ErrBudgetExceeded in
  check? rejectIf (MaxRetries limits <? UsedRetries next) ErrBudgetExceeded in
  check? rejectIf (MaxSubagents limits <? UsedSubagents next) ErrBudgetExceeded in
  Ok next.

(** ** Statements *)

Definition no_usage : Usage := mkUsage 0 0 0 0 0 0 0.

(** The CHECK constraints of agent_budgets. *)
Definition budget_check (b : Budget) : bool :=
  let l := budget_Limits b in
  let u := budget_Usage b in
  between 1 200 (pg_length (pg_trim (budget_RoleID b)))
  && (0 <? MaxUSD l) && (0 <? MaxTokens l) && (0 <? MaxModelCalls l) && (0 <? MaxWallTimeMS l)
  && (0 <? MaxDepth l) && (0 <? MaxRetries l) && (0 <? MaxSubagents l)
  && between 0 (MaxUSD l) (UsedUSD u) && between 0 (MaxTokens l) (UsedTokens u)
  && between 0 (MaxModelCalls l) (UsedModelCalls u)
  && between 0 (MaxWallTimeMS l) (UsedWallTimeMS u)
  && between 1 (MaxDepth l) (Depth u) && between 0 (MaxRetries l) (UsedRetries u)
  && between 0 (MaxSubagents l) (UsedSubagents u) && (1 <=? budget_Version b).

Definition budget_of_task (taskID : Z) (d : SpendDB) : option Budget :=
  head (rows (fun b => budget_TaskID b =? taskID) (sp_budgets d)).

Definition no_rows : SpendError := ErrSQL "no rows".

(** [SELECT ... WHERE id=$1 FOR UPDATE] *)
Definition select_budget (id : Z) (missing : SpendError) : Spend Budget :=
  let! d := sp_get in
  match sp_budgets d !! id with
  | Some b => ret b
  | None => throw missing
  end.

Definition select_budget_of_task (taskID : Z) : Spend Budget :=
  let! d := sp_get in
  match budget_of_task taskID d with
  | Some b => ret b
  | None => throw no_rows
  end.

Definition same_ref (budgetID : Z) (kind : BudgetEventKind) (ref : Z) (e : BudgetEvent) : bool :=
  (bevent_BudgetID e =? budgetID) && bool_decide (bevent_Kind e = kind)
  && (bevent_IdempotencyRef e =? ref).

(** The event of (budget, kind, ref); the unique constraint leaves one. *)
Definition find_budget_event (budgetID : Z) (kind : BudgetEventKind) (ref : Z)
    (l : list BudgetEvent) : option BudgetEvent :=
  head (filter (fun e => same_ref budgetID kind ref e = true) l).

(** [INSERT INTO agent_budget_events ... ON CONFLICT DO NOTHING]: whether a row
    was inserted. *)
Definition insert_budget_event (budgetID : Z) (kind : BudgetEventKind) (ref : Z) (delta : Usage)
    : Spend bool :=
  do! sp_nextval TBudgetEvents in
  do! sp_check (0 <? ref) in
  let! d := sp_get in
  if is_some (find_budget_event budgetID kind ref (sp_budget_events d)) then ret false
  else
    do! sp_foreign_key (is_some (sp_budgets d !! budgetID)) in
    do! sp_modify (set_budget_events (sp_budget_events d
          ++ [mkBudgetEvent budgetID kind ref delta])) in
    ret true.

(** [INSERT INTO task_budgets]; [ignore] is [ON CONFLICT DO NOTHING]. *)
Definition insert_task_budget (ignore : bool) (taskID budgetID : Z) : Spend unit :=
  let! d := sp_get in
  match sp_task_budgets d !! taskID with
  | Some _ => if ignore then ret tt else throw (ErrSQL "23505")
  | None =>
      do! sp_foreign_key (is_some (sp_tasks d !! taskID) && is_some (sp_budgets d !! budgetID)) in
      sp_modify (set_task_budgets (<[taskID := budgetID]> (sp_task_budgets d)))
  end.

(** [UPDATE agent_budgets SET <usage>, version=version+1 WHERE id] *)
Definition update_budget (id : Z) (usage : Usage) : Spend unit :=
  let! d := sp_get in
  match sp_budgets d !! id with
  | None => ret tt
  | Some b =>
      do! sp_bigint (UsedUSD usage) in
      do! sp_bigint (UsedTokens usage) in
      do! sp_bigint (UsedModelCalls usage) in
      do! sp_bigint (UsedWallTimeMS usage) in
      do! sp_bigint (UsedRetries usage) in
      do! sp_bigint (UsedSubagents usage) in
      do! sp_bigint (budget_Version b + 1) in
      let row := mkBudget (budget_ID b) (budget_OrganizationID b) (budget_RootTaskID b)
        (budget_TaskID b) (budget_RoleID b) (budget_ParentBudgetID b) (budget_Limits b) usage
        (budget_Version b + 1) in
      do! sp_check (budget_check row) in
      sp_modify (set_budgets (<[id := row]> (sp_budgets d)))
  end.

Section Store.
Context (organizations : string -> bool).

(** [INSERT INTO agent_budgets]: [None] when the task has a budget already. *)
Definition insert_budget (organizationID : string) (rootTaskID taskID : Z) (roleID : string)
    (parent : option Z) (limits : Limits) (depth : Z) : Spend (option Z) :=
  let! id := sp_nextval TBudgets in
  let row := mkBudget id organizationID rootTaskID taskID roleID parent limits
               (mkUsage 0 0 0 0 depth 0 0) 1 in
  do! sp_check (budget_check row) in
  let! d := sp_get in
  if is_some (budget_of_task taskID d) then ret None
  else
    do! sp_unique (negb (is_some (sp_budgets d !! id))) in
    do! sp_foreign_key (organizations organizationID && is_some (sp_tasks d !! rootTaskID)
          && is_some (sp_tasks d !! taskID)
          && null_or (fun p => is_some (sp_budgets d !! p)) parent) in
    do! sp_modify (set_budgets (<[id := row]> (sp_budgets d))) in
    ret (Some id).

(** ** The methods *)

Definition GetBudget (budgetID : Z) : Spend Budget := select_budget budgetID ErrBudgetNotFound.

Definition ResolveBudgetForTask (taskID : Z) : Spend Budget :=
  let! d := sp_get in
  match sp_task_budgets d !! taskID with
  | None => throw ErrBudgetNotFound
  | Some budgetID => GetBudget budgetID
  end.

Definition CreateRootBudget (organizationID : string) (rootTaskID : Z) (roleID : string)
    (limits : Limits) : Spend Budget :=
  do! lift (LimitsValidate limits) in
  atomically
    (let! inserted := insert_budget organizationID rootTaskID rootTaskID roleID None limits 1 in
     do! match inserted with
         | None => ret tt
         | Some budgetID =>
             let! fresh := insert_budget_event budgetID BudgetCreated rootTaskID
                             (mkUsage 0 0 0 0 1 0 0) in
             do! sp_unique fresh in
             insert_task_budget true rootTaskID budgetID
         end in
     let! b := select_budget_of_task rootTaskID in
     do! throwIf (negb (SameRootBudget b organizationID rootTaskID roleID limits))
           ErrBudgetConflict in
     ret b).

Definition deeper (u : Usage) (childDepth : Z) : Z :=
  if Depth u <? childDepth then childDepth else Depth u.

(** A child that shares its parent's budget. *)
Definition inherit_shared (parent : Budget) (childTaskID childDepth : Z) : Spend Budget :=
  let id := budget_ID parent in
  let u := budget_Usage parent in
  let! inserted := insert_budget_event id BudgetInherited childTaskID (mkUsage 0 0 0 0 0 0 1) in
  if negb inserted then select_budget id no_rows
  else
    do! throwIf (MaxSubagents (budget_Limits parent) <? wrap64 (UsedSubagents u + 1))
          ErrBudgetExceeded in
    do! update_budget id (mkUsage (UsedUSD u) (UsedTokens u) (UsedModelCalls u)
          (UsedWallTimeMS u) (deeper u childDepth) (UsedRetries u) (UsedSubagents u + 1)) in
    do! insert_task_budget true childTaskID id in
    select_budget id no_rows.

(** A child with an allocation of its own, debited from the parent. *)
Definition inherit_allocated (parent : Budget) (childTaskID : Z) (childRoleID : string)
    (childDepth : Z) (a : Limits) : Spend Budget :=
  let id := budget_ID parent in
  let u := budget_Usage parent in
  let l := budget_Limits parent in
  let! inserted := insert_budget_event id BudgetInherited childTaskID
    (mkUsage (MaxUSD a) (MaxTokens a) (MaxModelCalls a) (MaxWallTimeMS a) 0 (MaxRetries a) 1) in
  if negb inserted then select_budget_of_task childTaskID
  else
    do! throwIf (MaxSubagents l <? wrap64 (UsedSubagents u + 1)) ErrBudgetExceeded in
    do! throwIf ((wrap64 (MaxUSD l - UsedUSD u) <? MaxUSD a)
                 || (wrap64 (MaxTokens l - UsedTokens u) <? MaxTokens a)
                 || (wrap64 (MaxModelCalls l - UsedModelCalls u) <? MaxModelCalls a)
                 || (wrap64 (MaxWallTimeMS l - UsedWallTimeMS u) <? MaxWallTimeMS a)
                 || (wrap64 (MaxRetries l - UsedRetries u) <? MaxRetries a)) ErrParentExhausted in
    let! child := insert_budget (budget_OrganizationID parent) (budget_RootTaskID parent)
                    childTaskID childRoleID (Some id) a childDepth in
    match child with
    | None => throw (ErrSQL "23505")
    | Some childID =>
        do! insert_task_budget false childTaskID childID in
        do! update_budget id (mkUsage (UsedUSD u + MaxUSD a) (UsedTokens u + MaxTokens a)
              (UsedModelCalls u + MaxModelCalls a) (UsedWallTimeMS u + MaxWallTimeMS a)
              (deeper u childDepth) (UsedRetries u + MaxRetries a) (UsedSubagents u + 1)) in
        select_budget childID no_rows
    end.

Definition InheritForChild (parentBudgetID childTaskID : Z) (childRoleID : string)
    (childDepth : Z) (allocation : option Limits) : Spend Budget :=
  do! throwIf (childDepth <=? 0) ErrInvalidBudgetRequest in
  do! match allocation with Some a => lift (LimitsValidate a) | None => ret tt end in
  atomically
    (let! parent := select_budget parentBudgetID ErrBudgetNotFound in
     do! throwIf (MaxDepth (budget_Limits parent) <? childDepth) ErrBudgetExceeded in
     match allocation with
     | None => inherit_shared parent childTaskID childDepth
     | Some a => inherit_allocated parent childTaskID childRoleID childDepth a
     end).

Definition ConsumeModelCall (budgetID invocationID : Z) (delta : Usage) : Spend unit :=
  atomically
    (let! current := select_budget budgetID ErrBudgetNotFound in
     let! inserted := insert_budget_event budgetID BudgetConsumed invocationID
       (mkUsage (UsedUSD delta) (UsedTokens delta) (UsedModelCalls delta) (UsedWallTimeMS delta)
          0 (UsedRetries delta) 0) in
     if negb inserted then ret tt
     else
       let! next := lift (ReserveUsage (budget_Usage current) delta (budget_Limits current)) in
       update_budget budgetID
         (mkUsage (UsedUSD next) (UsedTokens next) (UsedModelCalls next) (UsedWallTimeMS next)
            (Depth (budget_Usage current)) (UsedRetries next)
            (UsedSubagents (budget_Usage current)))).

Definition clampNonNegative (value : Z) : Z := if value <? 0 then 0 else value.

Definition SettleModelCall (budgetID invocationID : Z) (actual : Usage) : Spend unit :=
  atomically
    (let! current := select_budget budgetID ErrBudgetNotFound in
     let! d := sp_get in
     match find_budget_event budgetID BudgetConsumed invocationID (sp_budget_events d) with
     | None => ret tt
     | Some charged =>
         let usdDelta := wrap64 (UsedUSD actual - UsedUSD (bevent_Delta charged)) in
         let tokensDelta := wrap64 (UsedTokens actual - UsedTokens (bevent_Delta charged)) in
         let! inserted := insert_budget_event budgetID BudgetReconciled invocationID
                            (mkUsage usdDelta tokensDelta 0 0 0 0 0) in
         if negb inserted then ret tt
         else
           let u := budget_Usage current in
           update_budget budgetID
             (mkUsage (clampNonNegative (wrap64 (UsedUSD u + usdDelta)))
                (clampNonNegative (wrap64 (UsedTokens u + tokensDelta)))
                (UsedModelCalls u) (UsedWallTimeMS u) (Depth u) (UsedRetries u)
                (UsedSubagents u))
     end).

End Store.
