(* ===== verification/BudgetSpec.v ===== *)
(** * The abstract budget tree

    What internal/agentbudget promises: budgets form trees, every change of a
    budget's usage is an event, and what the whole tree consumed never exceeds
    what its root allows. *)

From stdpp Require Import base tactics list gmap strings sorting.
From Stdlib Require Import ZArith Lia.
From S2P Require Import Prelude GoLib TaskDomain Database SpendDB AgentBudget.

Local Open Scope Z_scope.

(** ** Dimensions

    The five dimensions an allocation moves from a parent to a child. *)

Inductive dim : Type := DimUSD | DimTokens | DimCalls | DimWallTime | DimRetries.

Definition used (k : dim) (u : Usage) : Z :=
  match k with
  | DimUSD => UsedUSD u
  | DimTokens => UsedTokens u
  | DimCalls => UsedModelCalls u
  | DimWallTime => UsedWallTimeMS u
  | DimRetries => UsedRetries u
  end.

Definition cap (k : dim) (l : Limits) : Z :=
  match k with
  | DimUSD => MaxUSD l
  | DimTokens => MaxTokens l
  | DimCalls => MaxModelCalls l
  | DimWallTime => MaxWallTimeMS l
  | DimRetries => MaxRetries l
  end.

(** ** Sums of events *)

Definition of_budget (id : Z) (e : BudgetEvent) : bool := bevent_BudgetID e =? id.

Definition is_inherited (e : BudgetEvent) : bool := bool_decide (bevent_Kind e = BudgetInherited).

Definition booked_if (p : BudgetEvent -> bool) (k : dim) (id : Z) (l : list BudgetEvent) : Z :=
  total (fun e => if of_budget id e && p e then used k (bevent_Delta e) else 0) l.

(** Everything booked on a budget, what it handed to children, and the rest:
    what the calls of its own tasks consumed. *)
Definition booked_on (k : dim) (id : Z) (l : list BudgetEvent) : Z :=
  booked_if (fun _ => true) k id l.
Definition handed_down (k : dim) (id : Z) (l : list BudgetEvent) : Z :=
  booked_if is_inherited k id l.
Definition own_spend (k : dim) (id : Z) (l : list BudgetEvent) : Z :=
  booked_if (fun e => negb (is_inherited e)) k id l.

Definition settled_ref (l : list BudgetEvent) (e : BudgetEvent) : bool :=
  is_some (find_budget_event (bevent_BudgetID e) BudgetReconciled (bevent_IdempotencyRef e) l).

(** Charges whose real cost is not known yet. *)
Definition unsettled (k : dim) (id : Z) (l : list BudgetEvent) : Z :=
  total (fun e => if of_budget id e && bool_decide (bevent_Kind e = BudgetConsumed)
                     && negb (settled_ref l e)
                  then used k (bevent_Delta e) else 0) l.

(** The subagents attached to a budget. *)
Definition subagents_on (id : Z) (l : list BudgetEvent) : Z :=
  total (fun e => if of_budget id e then UsedSubagents (bevent_Delta e) else 0) l.

(** ** Trees *)

Definition in_tree (r : Z) (b : Budget) : bool := budget_RootTaskID b =? r.

Definition is_child (b : Budget) : bool :=
  match budget_ParentBudgetID b with Some _ => true | None => false end.

(** What the budgets of tree [r] handed down, what its children may spend, and
    what the calls of all its tasks consumed. *)
Definition tree_handed (k : dim) (r : Z) (d : SpendDB) : Z :=
  mtotal (fun b => if in_tree r b then handed_down k (budget_ID b) (sp_budget_events d) else 0)
    (sp_budgets d).
Definition tree_allocated (k : dim) (r : Z) (d : SpendDB) : Z :=
  mtotal (fun b => if in_tree r b && is_child b then cap k (budget_Limits b) else 0)
    (sp_budgets d).
Definition tree_spend (k : dim) (r : Z) (d : SpendDB) : Z :=
  mtotal (fun b => if in_tree r b then own_spend k (budget_ID b) (sp_budget_events d) else 0)
    (sp_budgets d).

(** ** The invariant *)

Definition event_key (e : BudgetEvent) : Z * BudgetEventKind * Z :=
  (bevent_BudgetID e, bevent_Kind e, bevent_IdempotencyRef e).

Definition zero_dims (u : Usage) : Prop := forall k, used k u = 0.

Record budget_row_ok (id : Z) (b : Budget) : Prop := {
  br_id : budget_ID b = id;
  br_used : forall k, 0 <= used k (budget_Usage b) <= cap k (budget_Limits b);
  br_cap : forall k, cap k (budget_Limits b) <= maxInt64;
  br_subagents : 0 <= UsedSubagents (budget_Usage b) <= MaxSubagents (budget_Limits b);
  br_max_subagents : MaxSubagents (budget_Limits b) <= maxInt64;
  br_depth : 1 <= Depth (budget_Usage b) <= MaxDepth (budget_Limits b);
  br_root : budget_ParentBudgetID b = None -> budget_TaskID b = budget_RootTaskID b }.

Record budget_event_ok (e : BudgetEvent) : Prop := {
  be_created : bevent_Kind e = BudgetCreated -> zero_dims (bevent_Delta e);
  be_consumed : bevent_Kind e = BudgetConsumed ->
    forall k, 0 <= used k (bevent_Delta e) <= maxInt64 }.

Record budget_core (d : SpendDB) : Prop := {
  bi_rows : forall id b, sp_budgets d !! id = Some b -> budget_row_ok id b;
  bi_tasks : forall i j b c, sp_budgets d !! i = Some b -> sp_budgets d !! j = Some c ->
    budget_TaskID b = budget_TaskID c -> i = j;
  bi_events : forall e, e ∈ sp_budget_events d ->
    is_Some (sp_budgets d !! bevent_BudgetID e) /\ budget_event_ok e;
  bi_keys : NoDup (event_key <$> sp_budget_events d);
  bi_booked : forall id b k, sp_budgets d !! id = Some b ->
    used k (budget_Usage b) = booked_on k id (sp_budget_events d);
  bi_subagents : forall id b, sp_budgets d !! id = Some b ->
    UsedSubagents (budget_Usage b) = subagents_on id (sp_budget_events d);
  bi_unsettled : forall id b k, sp_budgets d !! id = Some b ->
    unsettled k id (sp_budget_events d) <= used k (budget_Usage b) }.

Definition budget_inv (d : SpendDB) : Prop :=
  budget_core d /\ forall k r, tree_handed k r d = tree_allocated k r d.

(** ** Steps *)

Definition with_usage (b : Budget) (u : Usage) : Budget :=
  mkBudget (budget_ID b) (budget_OrganizationID b) (budget_RootTaskID b) (budget_TaskID b)
    (budget_RoleID b) (budget_ParentBudgetID b) (budget_Limits b) u (budget_Version b + 1).

Definition book (e : BudgetEvent) (d : SpendDB) : SpendDB :=
  set_budget_events (sp_budget_events d ++ [e]) d.

Definition rebudget (id : Z) (b : Budget) (d : SpendDB) : SpendDB :=
  set_budgets (<[id := b]> (sp_budgets d)) d.

Definition limits_int64 (l : Limits) : Prop :=
  (forall k, 0 < cap k l <= maxInt64) /\ 0 < MaxSubagents l <= maxInt64.

(** [task_budgets] rows are only added. *)
Definition retasked (d d' : SpendDB) : Prop :=
  exists m, d' = set_task_budgets m d /\ sp_task_budgets d ⊆ m.

Inductive budget_step (d : SpendDB) : SpendDB -> Prop :=
(** a root, with its creation event *)
| BudgetRoot id org task role limits :
    sp_budgets d !! id = None -> budget_of_task task d = None -> limits_int64 limits ->
    1 <= MaxDepth limits ->
    budget_step d
      (book (mkBudgetEvent id BudgetCreated task (mkUsage 0 0 0 0 1 0 0))
         (rebudget id (mkBudget id org task task role None limits (mkUsage 0 0 0 0 1 0 0) 1) d))
(** a child that shares the budget of its parent *)
| BudgetShare id b child depth :
    sp_budgets d !! id = Some b ->
    find_budget_event id BudgetInherited child (sp_budget_events d) = None ->
    UsedSubagents (budget_Usage b) + 1 <= MaxSubagents (budget_Limits b) ->
    1 <= depth <= MaxDepth (budget_Limits b) ->
    let u := budget_Usage b in
    budget_step d
      (rebudget id (with_usage b (mkUsage (UsedUSD u) (UsedTokens u) (UsedModelCalls u)
                      (UsedWallTimeMS u) depth (UsedRetries u) (UsedSubagents u + 1)))
         (book (mkBudgetEvent id BudgetInherited child (mkUsage 0 0 0 0 0 0 1)) d))
(** a child with an allocation, taken from what the parent has left *)
| BudgetAllocate id b child childID role childDepth depth a :
    sp_budgets d !! id = Some b ->
    find_budget_event id BudgetInherited child (sp_budget_events d) = None ->
    sp_budgets d !! childID = None -> budget_of_task child d = None -> limits_int64 a ->
    1 <= childDepth <= MaxDepth a -> 1 <= depth <= MaxDepth (budget_Limits b) ->
    UsedSubagents (budget_Usage b) + 1 <= MaxSubagents (budget_Limits b) ->
    (forall k, used k (budget_Usage b) + cap k a <= cap k (budget_Limits b)) ->
    let u := budget_Usage b in
    budget_step d
      (rebudget id (with_usage b (mkUsage (UsedUSD u + MaxUSD a) (UsedTokens u + MaxTokens a)
                      (UsedModelCalls u + MaxModelCalls a) (UsedWallTimeMS u + MaxWallTimeMS a)
                      depth (UsedRetries u + MaxRetries a) (UsedSubagents u + 1)))
         (rebudget childID (mkBudget childID (budget_OrganizationID b) (budget_RootTaskID b) child
                              role (Some id) a (mkUsage 0 0 0 0 childDepth 0 0) 1)
            (book (mkBudgetEvent id BudgetInherited child
                     (mkUsage (MaxUSD a) (MaxTokens a) (MaxModelCalls a) (MaxWallTimeMS a) 0
                        (MaxRetries a) 1)) d)))
(** a call is charged *)
| BudgetCharge id b ref delta :
    sp_budgets d !! id = Some b ->
    find_budget_event id BudgetConsumed ref (sp_budget_events d) = None ->
    (forall k, 0 <= used k delta <= maxInt64) ->
    (forall k, used k (budget_Usage b) + used k delta <= cap k (budget_Limits b)) ->
    let u := budget_Usage b in
    budget_step d
      (rebudget id (with_usage b (mkUsage (UsedUSD u + UsedUSD delta)
                      (UsedTokens u + UsedTokens delta) (UsedModelCalls u + UsedModelCalls delta)
                      (UsedWallTimeMS u + UsedWallTimeMS delta) (Depth u)
                      (UsedRetries u + UsedRetries delta) (UsedSubagents u)))
         (book (mkBudgetEvent id BudgetConsumed ref
                  (mkUsage (UsedUSD delta) (UsedTokens delta) (UsedModelCalls delta)
                     (UsedWallTimeMS delta) 0 (UsedRetries delta) 0)) d))
(** a charge is corrected to what the call cost *)
| BudgetSettle id b ref charge usd tokens :
    sp_budgets d !! id = Some b ->
    find_budget_event id BudgetConsumed ref (sp_budget_events d) = Some charge ->
    find_budget_event id BudgetReconciled ref (sp_budget_events d) = None ->
    0 <= usd -> 0 <= tokens ->
    let u := budget_Usage b in
    let usdDelta := usd - UsedUSD (bevent_Delta charge) in
    let tokensDelta := tokens - UsedTokens (bevent_Delta charge) in
    UsedUSD u + usdDelta <= MaxUSD (budget_Limits b) ->
    UsedTokens u + tokensDelta <= MaxTokens (budget_Limits b) ->
    budget_step d
      (rebudget id (with_usage b (mkUsage (UsedUSD u + usdDelta) (UsedTokens u + tokensDelta)
                      (UsedModelCalls u) (UsedWallTimeMS u) (Depth u) (UsedRetries u)
                      (UsedSubagents u)))
         (book (mkBudgetEvent id BudgetReconciled ref (mkUsage usdDelta tokensDelta 0 0 0 0 0)) d))
(** a task is bound to a budget *)
| BudgetBind d' : retasked d d' -> budget_step d d'.

Definition budget_steps : SpendDB -> SpendDB -> Prop := rtc budget_step.

(** ** The invariant of the budget tree

    Every step of BudgetSpec.v keeps its invariant. *)


Local Arguments booked_if : simpl never.
Local Arguments booked_on : simpl never.
Local Arguments handed_down : simpl never.
Local Arguments subagents_on : simpl never.
Local Arguments unsettled : simpl never.
Local Arguments used : simpl never.
Local Arguments mtotal : simpl never.

(** ** Events *)

Lemma same_ref_key (id : Z) (kind : BudgetEventKind) (ref : Z) (e : BudgetEvent) :
  same_ref id kind ref e = true <-> event_key e = (id, kind, ref).
Proof.
  unfold same_ref, event_key. rewrite !andb_true_iff, bool_decide_eq_true, !Z.eqb_eq.
  split; [intros ((-> & ->) & ->); done|intros [= -> -> ->]; done].
Qed.

Lemma find_budget_event_some (id : Z) (kind : BudgetEventKind) (ref : Z) (l : list BudgetEvent)
    (e : BudgetEvent) :
  find_budget_event id kind ref l = Some e -> e ∈ l /\ event_key e = (id, kind, ref).
Proof.
  unfold find_budget_event. intros H.
  assert (Hin : e ∈ filter (fun e => same_ref id kind ref e = true) l).
  { destruct (filter _ l); [done|]. injection H as ->. left. }
  by apply list_elem_of_filter in Hin as [Hk%same_ref_key Hin].
Qed.

Lemma find_budget_event_none (id : Z) (kind : BudgetEventKind) (ref : Z) (l : list BudgetEvent) :
  find_budget_event id kind ref l = None <-> forall e, e ∈ l -> event_key e <> (id, kind, ref).
Proof.
  unfold find_budget_event. split.
  - intros H e He Hk. assert (Hin : e ∈ filter (fun e => same_ref id kind ref e = true) l).
    { apply list_elem_of_filter. split; [by apply same_ref_key|done]. }
    destruct (filter _ l); [by apply not_elem_of_nil in Hin|done].
  - intros H. destruct (filter _ l) as [|e k] eqn:Hf; [done|].
    assert (Hin : e ∈ filter (fun e => same_ref id kind ref e = true) l) by (rewrite Hf; left).
    apply list_elem_of_filter in Hin as [Hk%same_ref_key Hin]. by destruct (H e Hin).
Qed.

Lemma find_budget_event_app (id : Z) (kind : BudgetEventKind) (ref : Z) (l : list BudgetEvent)
    (e : BudgetEvent) :
  is_some (find_budget_event id kind ref (l ++ [e]))
  = is_some (find_budget_event id kind ref l) || same_ref id kind ref e.
Proof.
  unfold find_budget_event. rewrite filter_app, filter_cons, filter_nil.
  destruct (filter _ l); simpl; [|done]. by case_decide as H; destruct (same_ref id kind ref e).
Qed.

Lemma booked_if_app (p : BudgetEvent -> bool) (k : dim) (id : Z) (l : list BudgetEvent)
    (e : BudgetEvent) :
  booked_if p k id (l ++ [e])
  = booked_if p k id l + (if of_budget id e && p e then used k (bevent_Delta e) else 0).
Proof. unfold booked_if. rewrite total_app, total_cons. cbn. lia. Qed.

Lemma subagents_on_app (id : Z) (l : list BudgetEvent) (e : BudgetEvent) :
  subagents_on id (l ++ [e])
  = subagents_on id l + (if of_budget id e then UsedSubagents (bevent_Delta e) else 0).
Proof. unfold subagents_on. rewrite total_app, total_cons. cbn. lia. Qed.

Lemma booked_split (k : dim) (id : Z) (l : list BudgetEvent) :
  booked_on k id l = own_spend k id l + handed_down k id l.
Proof.
  unfold booked_on, own_spend, handed_down, booked_if. induction l as [|e l IH]; [done|].
  rewrite !total_cons, IH. destruct (of_budget id e), (is_inherited e); simpl; lia.
Qed.

(** A budget no event names has nothing booked. *)
Lemma booked_if_unknown (p : BudgetEvent -> bool) (k : dim) (id : Z) (d : SpendDB) :
  budget_core d -> sp_budgets d !! id = None -> booked_if p k id (sp_budget_events d) = 0.
Proof.
  intros Hinv Hid. apply total_zero. intros e He. unfold of_budget.
  destruct (Z.eqb_spec (bevent_BudgetID e) id) as [Heq|]; [|done]. exfalso.
  destruct (bi_events d Hinv e He) as [[b Hb] _]. rewrite Heq in Hb. congruence.
Qed.

Lemma unknown_event (d : SpendDB) (e : BudgetEvent) (id : Z) :
  budget_core d -> sp_budgets d !! id = None -> e ∈ sp_budget_events d -> of_budget id e = false.
Proof.
  intros Hinv Hid He. unfold of_budget. apply Z.eqb_neq. intros Heq.
  destruct (bi_events d Hinv e He) as [[b Hb] _]. rewrite Heq in Hb. congruence.
Qed.

(** ** Unsettled charges *)

Definition unsettled_term (l : list BudgetEvent) (k : dim) (id : Z) (e : BudgetEvent) : Z :=
  if of_budget id e && bool_decide (bevent_Kind e = BudgetConsumed) && negb (settled_ref l e)
  then used k (bevent_Delta e) else 0.

Lemma unsettled_total (k : dim) (id : Z) (l : list BudgetEvent) :
  unsettled k id l = total (unsettled_term l k id) l.
Proof. done. Qed.

Lemma settled_ref_app (l : list BudgetEvent) (e x : BudgetEvent) :
  settled_ref (l ++ [e]) x
  = settled_ref l x || same_ref (bevent_BudgetID x) BudgetReconciled (bevent_IdempotencyRef x) e.
Proof. apply find_budget_event_app. Qed.

Lemma same_ref_kind (id : Z) (kind : BudgetEventKind) (ref : Z) (e : BudgetEvent) :
  bevent_Kind e <> kind -> same_ref id kind ref e = false.
Proof. intros H. unfold same_ref. by rewrite bool_decide_false, andb_false_r. Qed.

Lemma unsettled_app_other (k : dim) (id : Z) (l : list BudgetEvent) (e : BudgetEvent) :
  bevent_Kind e <> BudgetReconciled ->
  unsettled k id (l ++ [e]) = unsettled k id l + unsettled_term l k id e.
Proof.
  intros Hk. rewrite !unsettled_total, total_app, total_cons.
  assert (He : forall x, unsettled_term (l ++ [e]) k id x = unsettled_term l k id x).
  { intros x. unfold unsettled_term. by rewrite settled_ref_app, same_ref_kind, orb_false_r. }
  rewrite (total_ext _ (unsettled_term l k id)), He by auto. cbn. lia.
Qed.

Lemma unsettled_term_not_consumed (l : list BudgetEvent) (k : dim) (id : Z) (e : BudgetEvent) :
  bevent_Kind e <> BudgetConsumed -> unsettled_term l k id e = 0.
Proof. intros H. unfold unsettled_term. by rewrite bool_decide_false, andb_false_r. Qed.

(** Settling a charge takes it out of the unsettled ones. *)
Lemma unsettled_app_settle (k : dim) (id ref : Z) (l : list BudgetEvent) (e c : BudgetEvent) :
  NoDup (event_key <$> l) -> find_budget_event id BudgetConsumed ref l = Some c ->
  find_budget_event id BudgetReconciled ref l = None ->
  event_key e = (id, BudgetReconciled, ref) ->
  unsettled k id (l ++ [e]) = unsettled k id l - used k (bevent_Delta c).
Proof.
  intros Hnd Hc Hr He. apply find_budget_event_some in Hc as [Hin Hkey].
  rewrite !unsettled_total, total_app, total_cons.
  rewrite (unsettled_term_not_consumed (l ++ [e]) k id e).
  2:{ unfold event_key in He. intros Hk. rewrite Hk in He. congruence. }
  rewrite (total_ext _ (fun x => unsettled_term l k id x
             - (if bool_decide (event_key x = event_key c) then used k (bevent_Delta x) else 0))).
  { rewrite total_sub. rewrite (total_key event_key (fun x => used k (bevent_Delta x)) l c) by done.
    cbn. lia. }
  intros x Hx. unfold unsettled_term. rewrite settled_ref_app.
  destruct (bool_decide (event_key x = event_key c)) eqn:Hxc.
  - apply bool_decide_eq_true in Hxc. rewrite Hkey in Hxc. unfold event_key in Hxc.
    injection Hxc as Hb Hkd Hrf.
    assert (Hs : same_ref (bevent_BudgetID x) BudgetReconciled (bevent_IdempotencyRef x) e = true).
    { apply same_ref_key. by rewrite He, Hb, Hrf. }
    rewrite Hs, orb_true_r, andb_false_r.
    assert (Hn : settled_ref l x = false) by (unfold settled_ref; by rewrite Hb, Hrf, Hr).
    unfold of_budget. rewrite Hb, Z.eqb_refl, Hn, bool_decide_true by done. simpl. lia.
  - apply bool_decide_eq_false in Hxc.
    destruct (of_budget id x && bool_decide (bevent_Kind x = BudgetConsumed)) eqn:Hox; [|simpl; lia].
    apply andb_true_iff in Hox as [Hb%Z.eqb_eq Hkd%bool_decide_eq_true].
    assert (Hs : same_ref (bevent_BudgetID x) BudgetReconciled (bevent_IdempotencyRef x) e = false).
    { apply not_true_iff_false. rewrite same_ref_key, He. intros [= Hb' Hrf]. apply Hxc.
      rewrite Hkey. unfold event_key. by rewrite Hb, Hkd, Hrf. }
    rewrite Hs, orb_false_r. lia.
Qed.

(** ** The two ways a step changes the tables *)

(** The row of the same budget. *)
Definition same_budget (b b' : Budget) : Prop :=
  budget_ID b' = budget_ID b /\ budget_RootTaskID b' = budget_RootTaskID b
  /\ budget_TaskID b' = budget_TaskID b /\ budget_ParentBudgetID b' = budget_ParentBudgetID b
  /\ budget_Limits b' = budget_Limits b.

(** A budget takes an event and its usage follows. *)
Lemma booked_core (d : SpendDB) (id : Z) (b b' : Budget) (e : BudgetEvent) :
  let u := budget_Usage b' in
  budget_core d -> sp_budgets d !! id = Some b -> same_budget b b' -> bevent_BudgetID e = id ->
  find_budget_event id (bevent_Kind e) (bevent_IdempotencyRef e) (sp_budget_events d) = None ->
  budget_event_ok e ->
  (forall k, used k u = used k (budget_Usage b) + used k (bevent_Delta e)) ->
  UsedSubagents u = UsedSubagents (budget_Usage b) + UsedSubagents (bevent_Delta e) ->
  (forall k, 0 <= used k u <= cap k (budget_Limits b)) ->
  0 <= UsedSubagents u <= MaxSubagents (budget_Limits b) ->
  1 <= Depth u <= MaxDepth (budget_Limits b) ->
  (forall k, unsettled k id (sp_budget_events d ++ [e]) <= used k u) ->
  budget_core (rebudget id b' (book e d)).
Proof.
  intros u Hinv Hb (Hid & Hroot & Htask & Hpar & Hlim) He Hfresh Hok Hu Hs Hbound Hsb Hdep Huns.
  split; cbn.
  - intros i x Hi. destruct (decide (i = id)) as [->|Hne].
    + rewrite lookup_insert_eq in Hi. injection Hi as <-. destruct (bi_rows d Hinv id b Hb).
      split; rewrite ?Hid, ?Hroot, ?Htask, ?Hpar, ?Hlim; try done; apply Hbound.
    + rewrite lookup_insert_ne in Hi by done. by apply (bi_rows d Hinv).
  - intros i j x y Hi Hj Heq.
    assert (Hrow : forall i x, <[id:=b']> (sp_budgets d) !! i = Some x ->
      exists x0, sp_budgets d !! i = Some x0 /\ budget_TaskID x0 = budget_TaskID x).
    { intros i0 x0 H0. destruct (decide (i0 = id)) as [->|Hne].
      - rewrite lookup_insert_eq in H0. injection H0 as <-. by exists b.
      - rewrite lookup_insert_ne in H0 by done. by exists x0. }
    apply Hrow in Hi as (x0 & Hi & Hx). apply Hrow in Hj as (y0 & Hj & Hy).
    apply (bi_tasks d Hinv i j x0 y0 Hi Hj). congruence.
  - intros x [Hx| ->%list_elem_of_singleton]%elem_of_app.
    + destruct (bi_events d Hinv x Hx) as [Hin ?]. split; [|done].
      destruct (decide (id = bevent_BudgetID x)) as [<-|];
        [rewrite lookup_insert_eq; by eexists|by rewrite lookup_insert_ne].
    + rewrite He, lookup_insert_eq. split; [by eexists|done].
  - rewrite fmap_app. apply NoDup_app. split; [apply (bi_keys d Hinv)|].
    split; [|apply NoDup_singleton]. intros q Hq ->%list_elem_of_singleton.
    apply list_elem_of_fmap in Hq as (x & Heq & Hx). rewrite find_budget_event_none in Hfresh.
    apply (Hfresh x Hx). rewrite <- Heq. unfold event_key. by rewrite He.
  - intros i x k Hi. unfold booked_on. rewrite booked_if_app, andb_true_r. unfold of_budget. rewrite He.
    destruct (decide (i = id)) as [->|Hne].
    + rewrite lookup_insert_eq in Hi. injection Hi as <-. cbn.
      fold u.
      by rewrite Z.eqb_refl, Hu, (bi_booked d Hinv id b k Hb).
    + rewrite lookup_insert_ne in Hi by done. rewrite (proj2 (Z.eqb_neq id i)), Z.add_0_r by done.
      by apply (bi_booked d Hinv).
  - intros i x Hi. rewrite subagents_on_app. unfold of_budget. rewrite He.
    destruct (decide (i = id)) as [->|Hne].
    + rewrite lookup_insert_eq in Hi. injection Hi as <-. cbn.
      fold u.
      by rewrite Z.eqb_refl, Hs, (bi_subagents d Hinv id b Hb).
    + rewrite lookup_insert_ne in Hi by done. rewrite (proj2 (Z.eqb_neq id i)), Z.add_0_r by done.
      by apply (bi_subagents d Hinv).
  - intros i x k Hi. destruct (decide (i = id)) as [->|Hne].
    + rewrite lookup_insert_eq in Hi. injection Hi as <-. apply Huns.
    + rewrite lookup_insert_ne in Hi by done. etransitivity; [|by apply (bi_unsettled d Hinv i x k)].
      rewrite !unsettled_total, total_app, total_cons.
      assert (Ht : unsettled_term (sp_budget_events d ++ [e]) k i e = 0).
      { unfold unsettled_term, of_budget. by rewrite He, (proj2 (Z.eqb_neq id i)). }
      rewrite Ht. rewrite (total_ext _ (unsettled_term (sp_budget_events d) k i)); [cbn; lia|].
      intros y Hy. unfold unsettled_term, of_budget. rewrite settled_ref_app.
      destruct (Z.eqb_spec (bevent_BudgetID y) i) as [Hyi|]; [|done].
      assert (Hsr : same_ref (bevent_BudgetID y) BudgetReconciled (bevent_IdempotencyRef y) e = false).
      { unfold same_ref. by rewrite He, Hyi, (proj2 (Z.eqb_neq id i)). }
      by rewrite Hsr, orb_false_r.
Qed.

(** A new budget, on which nothing is booked yet. *)
Lemma new_budget_core (d : SpendDB) (id : Z) (b : Budget) :
  budget_core d -> sp_budgets d !! id = None -> budget_row_ok id b ->
  zero_dims (budget_Usage b) -> UsedSubagents (budget_Usage b) = 0 ->
  (forall i c, sp_budgets d !! i = Some c -> budget_TaskID c <> budget_TaskID b) ->
  budget_core (rebudget id b d).
Proof.
  intros Hinv Hid Hrow Hz Hs Htask.
  assert (Hother : forall i x, <[id := b]> (sp_budgets d) !! i = Some x ->
            (i = id /\ x = b) \/ (i <> id /\ sp_budgets d !! i = Some x)).
  { intros i x Hi. destruct (decide (i = id)) as [->|Hne].
    - rewrite lookup_insert_eq in Hi. injection Hi as <-. by left.
    - rewrite lookup_insert_ne in Hi by done. by right. }
  split; cbn.
  - intros i x [[-> ->]|[_ Hi]]%Hother; [done|by apply (bi_rows d Hinv)].
  - intros i j x y [[-> ->]|[Hni Hi]]%Hother [[-> ->]|[Hnj Hj]]%Hother Heq; [done| | |].
    + by destruct (Htask j y Hj).
    + by destruct (Htask i x Hi).
    + by apply (bi_tasks d Hinv i j x y).
  - intros e He. destruct (bi_events d Hinv e He) as [[x Hx] Hok]. split; [|done].
    rewrite lookup_insert_ne; [by exists x|]. intros ->. congruence.
  - apply (bi_keys d Hinv).
  - intros i x k [[-> ->]|[_ Hi]]%Hother; [|by apply (bi_booked d Hinv)].
    unfold booked_on. by rewrite Hz, (booked_if_unknown _ k id d Hinv Hid).
  - intros i x [[-> ->]|[_ Hi]]%Hother; [|by apply (bi_subagents d Hinv)].
    rewrite Hs. symmetry. apply total_zero. intros e He.
    by rewrite (unknown_event d e id Hinv Hid He).
  - intros i x k [[-> ->]|[_ Hi]]%Hother; [|by apply (bi_unsettled d Hinv)].
    rewrite Hz, unsettled_total. rewrite total_zero; [done|]. intros e He.
    unfold unsettled_term. by rewrite (unknown_event d e id Hinv Hid He).
Qed.

(** ** Tree sums *)

Lemma tree_handed_booked (k : dim) (r id : Z) (b b' : Budget) (e : BudgetEvent) (d : SpendDB) :
  budget_core d -> sp_budgets d !! id = Some b -> same_budget b b' -> bevent_BudgetID e = id ->
  tree_handed k r (rebudget id b' (book e d))
  = tree_handed k r d + (if in_tree r b && is_inherited e then used k (bevent_Delta e) else 0).
Proof.
  intros Hinv Hb (Hid & Hroot & _) He. unfold tree_handed. cbn.
  rewrite (mtotal_update _ _ id b' b Hb). cbn.
  replace (in_tree r b') with (in_tree r b) by (unfold in_tree; by rewrite Hroot). rewrite Hid.
  rewrite (br_id id b (bi_rows d Hinv id b Hb)). rewrite Z.sub_add. unfold handed_down.
  rewrite (mtotal_ext _ (fun x => (if in_tree r x then booked_if is_inherited k (budget_ID x)
      (sp_budget_events d) else 0)
      - - (if in_tree r x && (budget_ID x =? id) && is_inherited e
           then used k (bevent_Delta e) else 0))).
  2:{ intros i x Hi. rewrite booked_if_app. unfold of_budget. rewrite He, Z.eqb_sym.
      destruct (in_tree r x), (budget_ID x =? id), (is_inherited e); simpl; lia. }
  rewrite mtotal_sub. rewrite (mtotal_pick (fun x => - _) (sp_budgets d) id b Hb).
  - rewrite (br_id id b (bi_rows d Hinv id b Hb)), Z.eqb_refl, andb_true_r. lia.
  - intros j y Hj Hne. rewrite (br_id j y (bi_rows d Hinv j y Hj)), (proj2 (Z.eqb_neq j id)) by done.
    by rewrite andb_false_r.
Qed.

Lemma tree_allocated_booked (k : dim) (r id : Z) (b b' : Budget) (e : BudgetEvent) (d : SpendDB) :
  sp_budgets d !! id = Some b -> same_budget b b' ->
  tree_allocated k r (rebudget id b' (book e d)) = tree_allocated k r d.
Proof.
  intros Hb (_ & Hroot & _ & Hpar & Hlim). unfold tree_allocated. cbn.
  rewrite (mtotal_update _ _ id b' b Hb). unfold in_tree, is_child. rewrite Hroot, Hpar, Hlim. lia.
Qed.

Lemma tree_handed_new (k : dim) (r id : Z) (b : Budget) (d : SpendDB) :
  budget_core d -> sp_budgets d !! id = None -> budget_ID b = id ->
  tree_handed k r (rebudget id b d) = tree_handed k r d.
Proof.
  intros Hinv Hid Hb. unfold tree_handed. cbn. rewrite mtotal_insert by done.
  rewrite Hb. unfold handed_down. rewrite (booked_if_unknown _ k id d Hinv Hid).
  destruct (in_tree r b); lia.
Qed.

Lemma tree_allocated_new (k : dim) (r id : Z) (b : Budget) (d : SpendDB) :
  sp_budgets d !! id = None ->
  tree_allocated k r (rebudget id b d)
  = tree_allocated k r d + (if in_tree r b && is_child b then cap k (budget_Limits b) else 0).
Proof. intros Hid. unfold tree_allocated. cbn. by rewrite mtotal_insert. Qed.

(** ** Steps *)

Lemma same_with_usage (b : Budget) (u : Usage) : same_budget b (with_usage b u).
Proof. by split_and!. Qed.

Lemma tree_booked (d : SpendDB) (id : Z) (b b' : Budget) (e : BudgetEvent) :
  budget_inv d -> sp_budgets d !! id = Some b -> same_budget b b' -> bevent_BudgetID e = id ->
  (is_inherited e = true -> zero_dims (bevent_Delta e)) ->
  forall k r, tree_handed k r (rebudget id b' (book e d)) = tree_allocated k r (rebudget id b' (book e d)).
Proof.
  intros [Hinv Ht] Hb Hsame He Hz k r.
  rewrite (tree_handed_booked k r id b b' e d), (tree_allocated_booked k r id b b' e d), Ht by done.
  destruct (in_tree r b); simpl; [|lia]. destruct (is_inherited e); [|lia]. rewrite Hz by done. lia.
Qed.

Lemma zero_event_ok (e : BudgetEvent) : zero_dims (bevent_Delta e) -> budget_event_ok e.
Proof.
  intros Hz. split; [done|]. intros _ k. rewrite Hz. unfold maxInt64, two63. lia.
Qed.

Lemma is_inherited_kind (e : BudgetEvent) :
  is_inherited e = true <-> bevent_Kind e = BudgetInherited.
Proof. unfold is_inherited. by rewrite bool_decide_eq_true. Qed.

(** No budget of the task, whatever the map's order. *)
Lemma budget_of_task_none (task : Z) (d : SpendDB) :
  budget_of_task task d = None ->
  forall i b, sp_budgets d !! i = Some b -> budget_TaskID b <> task.
Proof.
  unfold budget_of_task, rows. intros H i b Hb Heq.
  assert (Hin : b ∈ filter (fun b => (budget_TaskID b =? task) = true)
                  (snd <$> map_to_list (sp_budgets d))).
  { apply list_elem_of_filter. split; [by apply Z.eqb_eq|].
    apply list_elem_of_fmap. exists (i, b). split; [done|]. by apply elem_of_map_to_list. }
  destruct (filter _ _); [by apply not_elem_of_nil in Hin|done].
Qed.

Lemma zero_dims_mk (a depth s : Z) : a = 0 -> zero_dims (mkUsage a a a a depth a s).
Proof. intros -> []; done. Qed.

Lemma fresh_row_ok (id : Z) (b : Budget) :
  budget_ID b = id -> limits_int64 (budget_Limits b) ->
  budget_Usage b = mkUsage 0 0 0 0 (Depth (budget_Usage b)) 0 0 ->
  1 <= Depth (budget_Usage b) <= MaxDepth (budget_Limits b) ->
  (budget_ParentBudgetID b = None -> budget_TaskID b = budget_RootTaskID b) -> budget_row_ok id b.
Proof.
  intros Hid [Hcap Hsub] Hu Hdep Hroot. split; try done.
  - intros k. specialize (Hcap k). rewrite Hu. unfold used. destruct k; cbn in *; lia.
  - intros k. specialize (Hcap k). lia.
  - rewrite Hu. simpl. lia.
  - lia.
Qed.

Lemma root_inv (d : SpendDB) (id : Z) (org : string) (task : Z) (role : string) (limits : Limits) :
  budget_inv d -> sp_budgets d !! id = None -> budget_of_task task d = None ->
  limits_int64 limits -> 1 <= MaxDepth limits ->
  budget_inv (book (mkBudgetEvent id BudgetCreated task (mkUsage 0 0 0 0 1 0 0))
    (rebudget id (mkBudget id org task task role None limits (mkUsage 0 0 0 0 1 0 0) 1) d)).
Proof.
  intros [Hinv Ht] Hid Htask Hlim Hdep.
  set (b := mkBudget id org task task role None limits (mkUsage 0 0 0 0 1 0 0) 1).
  set (e := mkBudgetEvent id BudgetCreated task (mkUsage 0 0 0 0 1 0 0)).
  set (d1 := rebudget id b d).
  assert (Hrow : budget_row_ok id b) by (apply fresh_row_ok; simpl; done || lia).
  assert (Hinv1 : budget_core d1).
  { apply new_budget_core; try done; [by apply zero_dims_mk|]. by apply budget_of_task_none. }
  assert (Hb1 : sp_budgets d1 !! id = Some b) by apply lookup_insert_eq.
  assert (Hd1 : book e d1 = rebudget id b (book e d1)).
  { unfold rebudget, book. cbn. by rewrite insert_insert_eq. }
  assert (Ht1 : forall k r, tree_handed k r d1 = tree_allocated k r d1).
  { intros k r. unfold d1. rewrite (tree_handed_new k r id b d), tree_allocated_new, Ht by done.
    simpl. rewrite andb_false_r. lia. }
  rewrite Hd1. split.
  - apply (booked_core d1 id b b e); try done.
    + apply find_budget_event_none. intros x Hx Hk. pose proof (unknown_event d x id Hinv Hid Hx) as Hn.
      unfold of_budget, event_key in *. injection Hk as Hxb _ _. lia.
    + by apply zero_event_ok, zero_dims_mk.
    + intros k. by destruct k.
    + intros k. apply (br_used id b Hrow).
    + apply (br_subagents id b Hrow).
    + intros k. rewrite unsettled_app_other, unsettled_term_not_consumed, Z.add_0_r by done.
      apply (bi_unsettled d1 Hinv1 id b k Hb1).
  - by apply (tree_booked d1 id b b e).
Qed.

Lemma share_inv (d : SpendDB) (id : Z) (b : Budget) (child depth : Z) :
  budget_inv d -> sp_budgets d !! id = Some b ->
  find_budget_event id BudgetInherited child (sp_budget_events d) = None ->
  UsedSubagents (budget_Usage b) + 1 <= MaxSubagents (budget_Limits b) ->
  1 <= depth <= MaxDepth (budget_Limits b) ->
  let u := budget_Usage b in
  budget_inv
    (rebudget id (with_usage b (mkUsage (UsedUSD u) (UsedTokens u) (UsedModelCalls u)
                    (UsedWallTimeMS u) depth (UsedRetries u) (UsedSubagents u + 1)))
       (book (mkBudgetEvent id BudgetInherited child (mkUsage 0 0 0 0 0 0 1)) d)).
Proof.
  intros Hi Hb Hf Hs Hdep u. pose proof Hi as [Hinv _].
  pose proof (bi_rows d Hinv id b Hb) as Hrow. split.
  - apply (booked_core d id b); try done.
    + intros k. destruct k; simpl; unfold used; simpl; fold u; lia.
    + intros k. pose proof (br_used id b Hrow k). by destruct k.
    + cbn. pose proof (br_subagents id b Hrow). unfold u. lia.
    + intros k. rewrite unsettled_app_other, unsettled_term_not_consumed, Z.add_0_r by done.
      pose proof (bi_unsettled d Hinv id b k Hb). by destruct k.
  - apply (tree_booked d id b); try done. intros _. by apply zero_dims_mk.
Qed.

Lemma charge_inv (d : SpendDB) (id : Z) (b : Budget) (ref : Z) (delta : Usage) :
  budget_inv d -> sp_budgets d !! id = Some b ->
  find_budget_event id BudgetConsumed ref (sp_budget_events d) = None ->
  (forall k, 0 <= used k delta <= maxInt64) ->
  (forall k, used k (budget_Usage b) + used k delta <= cap k (budget_Limits b)) ->
  let u := budget_Usage b in
  budget_inv
    (rebudget id (with_usage b (mkUsage (UsedUSD u + UsedUSD delta)
                    (UsedTokens u + UsedTokens delta) (UsedModelCalls u + UsedModelCalls delta)
                    (UsedWallTimeMS u + UsedWallTimeMS delta) (Depth u)
                    (UsedRetries u + UsedRetries delta) (UsedSubagents u)))
       (book (mkBudgetEvent id BudgetConsumed ref
                (mkUsage (UsedUSD delta) (UsedTokens delta) (UsedModelCalls delta)
                   (UsedWallTimeMS delta) 0 (UsedRetries delta) 0)) d)).
Proof.
  intros Hi Hb Hf Hd Hle u. pose proof Hi as [Hinv _].
  pose proof (bi_rows d Hinv id b Hb) as Hrow.
  assert (Hev : forall k, used k (mkUsage (UsedUSD delta) (UsedTokens delta) (UsedModelCalls delta)
                   (UsedWallTimeMS delta) 0 (UsedRetries delta) 0) = used k delta) by (by intros []).
  split.
  - apply (booked_core d id b); try done.
    + intros k. by destruct k.
    + cbn. unfold u. lia.
    + intros k. specialize (Hle k). specialize (Hd k). pose proof (br_used id b Hrow k).
      subst u. unfold used, cap in *. destruct k; cbn in *; lia.
    + apply (br_subagents id b Hrow).
    + apply (br_depth id b Hrow).
    + intros k. rewrite unsettled_app_other by done.
      pose proof (bi_unsettled d Hinv id b k Hb) as Hu. specialize (Hd k).
      assert (unsettled_term (sp_budget_events d) k id
        (mkBudgetEvent id BudgetConsumed ref (mkUsage (UsedUSD delta) (UsedTokens delta)
           (UsedModelCalls delta) (UsedWallTimeMS delta) 0 (UsedRetries delta) 0)) <= used k delta).
      { unfold unsettled_term. case_match; [simpl; by rewrite Hev|lia]. }
      fold u in Hu. transitivity (used k u + used k delta); [lia|]. by destruct k.
  - by apply (tree_booked d id b).
Qed.

(** What a charge not settled yet booked is still part of the usage. *)
Lemma charge_covered (d : SpendDB) (id : Z) (b : Budget) (ref : Z) (charge e : BudgetEvent) :
  budget_core d -> sp_budgets d !! id = Some b ->
  find_budget_event id BudgetConsumed ref (sp_budget_events d) = Some charge ->
  find_budget_event id BudgetReconciled ref (sp_budget_events d) = None ->
  event_key e = (id, BudgetReconciled, ref) ->
  forall k, 0 <= used k (bevent_Delta charge)
    /\ 0 <= unsettled k id (sp_budget_events d ++ [e])
            <= used k (budget_Usage b) - used k (bevent_Delta charge).
Proof.
  intros Hinv Hb Hc Hr He k.
  apply find_budget_event_some in Hc as Hc'. destruct Hc' as [Hcin Hck].
  destruct (bi_events d Hinv charge Hcin) as [_ Hcok]. split.
  { apply (be_consumed charge Hcok). unfold event_key in Hck. congruence. }
  split.
  - apply total_nonneg. intros x Hx. case_match eqn:Hx'; [|done].
    apply andb_true_iff in Hx' as [[_ Hx'%bool_decide_eq_true]%andb_true_iff _].
    apply elem_of_app in Hx as [Hx| ->%list_elem_of_singleton].
    + apply (be_consumed x); [by apply (bi_events d Hinv)|done].
    + unfold event_key in He. rewrite Hx' in He. congruence.
  - rewrite (unsettled_app_settle k id ref _ e charge); try done; [|apply (bi_keys d Hinv)].
    pose proof (bi_unsettled d Hinv id b k Hb). lia.
Qed.

Lemma settle_budget_inv (d : SpendDB) (id : Z) (b : Budget) (ref usd tokens : Z)
    (charge : BudgetEvent) :
  budget_inv d -> sp_budgets d !! id = Some b ->
  find_budget_event id BudgetConsumed ref (sp_budget_events d) = Some charge ->
  find_budget_event id BudgetReconciled ref (sp_budget_events d) = None ->
  0 <= usd -> 0 <= tokens ->
  let u := budget_Usage b in
  let usdDelta := usd - UsedUSD (bevent_Delta charge) in
  let tokensDelta := tokens - UsedTokens (bevent_Delta charge) in
  UsedUSD u + usdDelta <= MaxUSD (budget_Limits b) ->
  UsedTokens u + tokensDelta <= MaxTokens (budget_Limits b) ->
  budget_inv
    (rebudget id (with_usage b (mkUsage (UsedUSD u + usdDelta) (UsedTokens u + tokensDelta)
                    (UsedModelCalls u) (UsedWallTimeMS u) (Depth u) (UsedRetries u)
                    (UsedSubagents u)))
       (book (mkBudgetEvent id BudgetReconciled ref (mkUsage usdDelta tokensDelta 0 0 0 0 0)) d)).
Proof.
  intros Hi Hb Hc Hr Husd Htok u usdDelta tokensDelta Hmu Hmt. pose proof Hi as [Hinv _].
  pose proof (bi_rows d Hinv id b Hb) as Hrow.
  set (e := mkBudgetEvent id BudgetReconciled ref (mkUsage usdDelta tokensDelta 0 0 0 0 0)).
  pose proof (charge_covered d id b ref charge e Hinv Hb Hc Hr eq_refl) as Hcov.
  split; [|by apply (tree_booked d id b)].
  apply (booked_core d id b); try done.
  - intros k. destruct k; cbv [used]; simpl; fold u; lia.
  - cbn. unfold u. lia.
  - intros k. pose proof (br_used id b Hrow k). specialize (Hcov k). subst u.
    unfold used, cap, usdDelta, tokensDelta in *. destruct k; cbn in *; lia.
  - apply (br_subagents id b Hrow).
  - apply (br_depth id b Hrow).
  - intros k. fold e. specialize (Hcov k). subst u. destruct Hcov as (Hc0 & _ & Hle).
    etransitivity; [exact Hle|]. unfold used, usdDelta, tokensDelta in *. destruct k; cbn in *; lia.
Qed.

(** An allocation: the child is new, and the parent pays for it. *)
Lemma allocate_inv (d : SpendDB) (id : Z) (b : Budget) (child childID : Z) (role : string)
    (childDepth depth : Z) (a : Limits) :
  budget_inv d -> sp_budgets d !! id = Some b ->
  find_budget_event id BudgetInherited child (sp_budget_events d) = None ->
  sp_budgets d !! childID = None -> budget_of_task child d = None -> limits_int64 a ->
  1 <= childDepth <= MaxDepth a -> 1 <= depth <= MaxDepth (budget_Limits b) ->
  UsedSubagents (budget_Usage b) + 1 <= MaxSubagents (budget_Limits b) ->
  (forall k, used k (budget_Usage b) + cap k a <= cap k (budget_Limits b)) ->
  let u := budget_Usage b in
  budget_inv
    (rebudget id (with_usage b (mkUsage (UsedUSD u + MaxUSD a) (UsedTokens u + MaxTokens a)
                    (UsedModelCalls u + MaxModelCalls a) (UsedWallTimeMS u + MaxWallTimeMS a)
                    depth (UsedRetries u + MaxRetries a) (UsedSubagents u + 1)))
       (rebudget childID (mkBudget childID (budget_OrganizationID b) (budget_RootTaskID b) child
                            role (Some id) a (mkUsage 0 0 0 0 childDepth 0 0) 1)
          (book (mkBudgetEvent id BudgetInherited child
                   (mkUsage (MaxUSD a) (MaxTokens a) (MaxModelCalls a) (MaxWallTimeMS a) 0
                      (MaxRetries a) 1)) d))).
Proof.
  intros [Hinv Ht] Hb Hf Hc Htask Ha Hcd Hdep Hs Hle u.
  set (c := mkBudget childID (budget_OrganizationID b) (budget_RootTaskID b) child
              role (Some id) a (mkUsage 0 0 0 0 childDepth 0 0) 1).
  set (e := mkBudgetEvent id BudgetInherited child _).
  set (b' := with_usage b _). set (d1 := rebudget childID c d).
  change (budget_inv (rebudget id b' (book e d1))).
  pose proof (bi_rows d Hinv id b Hb) as Hrow.
  assert (Hinv1 : budget_core d1).
  { apply new_budget_core; try done; [by apply fresh_row_ok|by apply zero_dims_mk|].
    by apply budget_of_task_none. }
  assert (Hb1 : sp_budgets d1 !! id = Some b).
  { unfold d1. cbn. rewrite lookup_insert_ne; [done|]. intros ->. congruence. }
  assert (Hdelta : forall k, used k (bevent_Delta e) = cap k a) by (by intros []).
  split.
  - apply (booked_core d1 id b b' e); try done.
    + intros k. rewrite Hdelta. by destruct k.
    + intros k. specialize (Hle k). pose proof (br_used id b Hrow k). destruct Ha as [Ha _].
      specialize (Ha k). subst u b'. unfold used, cap in *. destruct k; cbn in *; lia.
    + pose proof (br_subagents id b Hrow). subst u b'. cbn. lia.
    + intros k. rewrite unsettled_app_other, unsettled_term_not_consumed, Z.add_0_r by done.
      transitivity (used k (budget_Usage b)); [by apply (bi_unsettled d1 Hinv1)|].
      destruct Ha as [Ha _]. specialize (Ha k). subst u b'. unfold used, cap in *.
      destruct k; cbn in *; lia.
  - intros k r. rewrite (tree_handed_booked k r id b b' e d1) by done.
    rewrite (tree_allocated_booked k r id b b' e d1) by done. unfold d1.
    rewrite (tree_handed_new k r childID c d), tree_allocated_new, Ht by done.
    rewrite !andb_true_r, Hdelta. done.
Qed.

(** ** Every step *)

Lemma retasked_inv (d d' : SpendDB) : retasked d d' -> budget_inv d -> budget_inv d'.
Proof. intros (m & -> & _) [[] Ht]. by split; [split|]. Qed.

Lemma budget_step_inv (d d' : SpendDB) : budget_step d d' -> budget_inv d -> budget_inv d'.
Proof.
  intros Hstep Hinv. destruct Hstep as
    [id org task role limits ?????|id b child depth ????|id b child childID role cd depth a
    |id b ref delta ????|id b ref charge usd tokens ?????|d' Hr].
  - by apply root_inv.
  - by apply share_inv.
  - by apply allocate_inv.
  - by apply charge_inv.
  - by apply settle_budget_inv.
  - by apply (retasked_inv d).
Qed.

Lemma budget_steps_inv (d d' : SpendDB) : budget_steps d d' -> budget_inv d -> budget_inv d'.
Proof. induction 1 as [|d1 d2 d3 H12 _ IH]; [done|]. intros Hinv. eauto using budget_step_inv. Qed.

(** ** What a tree spends *)

(** The budget is the root of its tree, and the only one. *)
Definition tree_root (r id : Z) (b : Budget) (d : SpendDB) : Prop :=
  sp_budgets d !! id = Some b /\ budget_ParentBudgetID b = None /\ budget_RootTaskID b = r.

Lemma tree_root_unique (r id : Z) (b : Budget) (d : SpendDB) (j : Z) (c : Budget) :
  budget_core d -> tree_root r id b d -> sp_budgets d !! j = Some c -> in_tree r c = true ->
  is_child c = false -> j = id.
Proof.
  intros Hinv (Hb & Hp & Hr) Hc Hin Hch. apply (bi_tasks d Hinv j id c b Hc Hb).
  rewrite (br_root id b (bi_rows d Hinv id b Hb) Hp), (br_root j c (bi_rows d Hinv j c Hc)).
  - unfold in_tree in Hin. lia.
  - unfold is_child in Hch. by destruct (budget_ParentBudgetID c).
Qed.

(** The calls of a whole tree spend no more than its root allows: what a budget
    hands down is what the children may spend, so it cancels out. *)
Lemma tree_spend_le (k : dim) (r id : Z) (b : Budget) (d : SpendDB) :
  budget_inv d -> tree_root r id b d -> tree_spend k r d <= cap k (budget_Limits b).
Proof.
  intros [Hinv Ht] Hroot. pose proof Hroot as (Hb & Hp & Hr).
  assert (Hle : mtotal (fun c => if in_tree r c then used k (budget_Usage c) else 0) (sp_budgets d)
    <= mtotal (fun c => if in_tree r c then cap k (budget_Limits c) else 0) (sp_budgets d)).
  { apply mtotal_le. intros i c Hc. pose proof (br_used i c (bi_rows d Hinv i c Hc) k).
    destruct (in_tree r c); lia. }
  assert (Hsp : tree_spend k r d = mtotal (fun c => if in_tree r c then used k (budget_Usage c) else 0)
     (sp_budgets d) - tree_handed k r d).
  { unfold tree_spend, tree_handed. rewrite <- mtotal_sub. apply mtotal_ext. intros i c Hc.
    rewrite (bi_booked d Hinv i c k Hc), booked_split.
    rewrite (br_id i c (bi_rows d Hinv i c Hc)). destruct (in_tree r c); lia. }
  assert (Hcap : mtotal (fun c => if in_tree r c then cap k (budget_Limits c) else 0) (sp_budgets d)
     - tree_allocated k r d = cap k (budget_Limits b)).
  { unfold tree_allocated. rewrite <- mtotal_sub. rewrite (mtotal_pick _ (sp_budgets d) id b Hb).
    - unfold in_tree, is_child. rewrite Hr, Z.eqb_refl, Hp. simpl. lia.
    - intros j c Hc Hne. destruct (in_tree r c) eqn:Hin; [|done]. simpl.
      destruct (is_child c) eqn:Hch; [lia|].
      by destruct Hne; apply (tree_root_unique r id b d j c). }
  specialize (Ht k r). lia.
Qed.
