(* ===== verification/BudgetRefine.v ===== *)
(** * The budget store implements the budget tree

    Every method of internal/agentbudget/postgres, on every branch, takes the
    tables by steps of BudgetSpec.v. *)

From stdpp Require Import base tactics list gmap strings sorting.
From Stdlib Require Import ZArith Lia.
From S2P Require Import Prelude GoLib TaskDomain Database SpendDB AgentBudget BudgetSpec.

Local Open Scope Z_scope.

(** ** The reservation *)

(** The amounts of a usage, as int64 columns hold them. *)
Definition usage_typed (u : Usage) : Prop :=
  (forall k, int64 (used k u)) /\ int64 (UsedSubagents u).

Definition usage_stored (u : Usage) : Prop :=
  (forall k, 0 <= used k u <= maxInt64) /\ 0 <= UsedSubagents u <= maxInt64.

Definition limits_typed (l : Limits) : Prop :=
  (forall k, cap k l <= maxInt64) /\ MaxSubagents l <= maxInt64.

(** The sum, in unbounded integers. *)
Definition usage_plus (u delta : Usage) : Usage :=
  mkUsage (UsedUSD u + UsedUSD delta) (UsedTokens u + UsedTokens delta)
    (UsedModelCalls u + UsedModelCalls delta) (UsedWallTimeMS u + UsedWallTimeMS delta)
    (Depth delta) (UsedRetries u + UsedRetries delta) (UsedSubagents u + UsedSubagents delta).

Definition within (u : Usage) (l : Limits) : Prop :=
  (forall k, used k u <= cap k l) /\ Depth u <= MaxDepth l /\ UsedSubagents u <= MaxSubagents l.

Definition not_negative (u : Usage) : Prop :=
  (forall k, 0 <= used k u) /\ 0 <= Depth u /\ 0 <= UsedSubagents u.

Lemma forall_dim (P : dim -> Prop) :
  (forall k, P k) <-> P DimUSD /\ P DimTokens /\ P DimCalls /\ P DimWallTime /\ P DimRetries.
Proof. split; [intros H; split_and!; apply H|intros (? & ? & ? & ? & ?) []; done]. Qed.

Lemma wrap64_fits (a b : Z) :
  0 <= a <= maxInt64 -> 0 <= b <= maxInt64 -> a <= wrap64 (a + b) -> wrap64 (a + b) = a + b.
Proof.
  intros Ha Hb H. apply wrap64_id. pose proof (wrap64_sum a b Ha Hb) as Hs.
  unfold int64, minInt64, maxInt64, two63 in *. lia.
Qed.

(** [Reserve] adds exactly, or refuses: nothing wraps around. *)
Lemma ReserveUsage_ok (u delta n : Usage) (l : Limits) :
  usage_stored u -> usage_typed delta -> limits_typed l ->
  ReserveUsage u delta l = Ok n
  <-> not_negative delta /\ within (usage_plus u delta) l /\ n = usage_plus u delta.
Proof.
  intros [Hu Hus] [Hd Hds] [Hl Hls]. unfold ReserveUsage, not_negative, within.
  rewrite !check_ok_bind, !rejectIf_ok, !orb_false_iff, !Z.ltb_ge.
  rewrite forall_dim in Hu, Hd, Hl |- *. rewrite (forall_dim (fun k => _ <= _)).
  unfold used, cap, int64, usage_plus in *. cbn [UsedUSD UsedTokens UsedModelCalls UsedWallTimeMS
    Depth UsedRetries UsedSubagents] in *. split.
  - intros (Hn & Ho & H). destruct_and!.
    repeat match goal with
    | H : ?a <= wrap64 (?a + ?b) |- _ => rewrite (wrap64_fits a b) in * by lia; clear H
    end.
    split_and!; try lia. congruence.
  - intros (Hn & Hw & ->). destruct_and!.
    rewrite !wrap64_id by (unfold int64, minInt64, maxInt64, two63 in *; lia).
    split_and!; try lia. done.
Qed.

(** ** Statements *)

Lemma select_budget_ok (id : Z) (e : SpendError) (b : Budget) (w w' : SpendWorld) :
  select_budget id e w = (Ok b, w') <-> sp_budgets (sw_db w) !! id = Some b /\ w' = w.
Proof.
  unfold select_budget, sp_get, bind. destruct (sp_budgets (sw_db w) !! id) as [y|].
  - rewrite ret_ok. naive_solver.
  - rewrite throw_ok. naive_solver.
Qed.

Lemma select_budget_of_task_ok (task : Z) (b : Budget) (w w' : SpendWorld) :
  select_budget_of_task task w = (Ok b, w') <-> budget_of_task task (sw_db w) = Some b /\ w' = w.
Proof.
  unfold select_budget_of_task, sp_get, bind. destruct (budget_of_task task (sw_db w)) as [y|].
  - rewrite ret_ok. naive_solver.
  - rewrite throw_ok. naive_solver.
Qed.

Lemma insert_budget_event_ok (id : Z) (kind : BudgetEventKind) (ref : Z) (delta : Usage)
    (fresh : bool) (w w' : SpendWorld) :
  insert_budget_event id kind ref delta w = (Ok fresh, w') ->
  if fresh then
    find_budget_event id kind ref (sp_budget_events (sw_db w)) = None
    /\ sw_db w' = book (mkBudgetEvent id kind ref delta) (sw_db w)
  else find_budget_event id kind ref (sp_budget_events (sw_db w)) <> None /\ sw_db w' = sw_db w.
Proof.
  unfold insert_budget_event. intros H.
  apply bind_ok in H as (n & w1 & (_ & Hd & _)%sp_nextval_ok & H).
  apply bind_ok in H as ([] & w2 & [_ ->]%sp_guard_ok & H).
  apply bind_ok in H as (d & w3 & [-> ->]%sp_get_ok & H). rewrite Hd in H.
  destruct (find_budget_event _ _ _ _) as [r|]; simpl in H.
  - apply ret_ok in H as [-> ->]. done.
  - apply bind_ok in H as ([] & w4 & [_ ->]%sp_guard_ok & H).
    apply bind_ok in H as ([] & w5 & ->%sp_modify_ok & H). apply ret_ok in H as [-> ->].
    cbn. by rewrite Hd.
Qed.

(** Once a reference is booked, inserting it again says so. *)
Lemma insert_budget_event_stays (id : Z) (kind : BudgetEventKind) (ref : Z) (delta : Usage)
    (fresh : bool) (w w' : SpendWorld) :
  insert_budget_event id kind ref delta w = (Ok fresh, w') ->
  0 < ref /\ find_budget_event id kind ref (sp_budget_events (sw_db w')) <> None.
Proof.
  intros H. split.
  - unfold insert_budget_event in H. apply bind_ok in H as (n & w1 & _ & H).
    apply bind_ok in H as ([] & w2 & [Hr _]%sp_guard_ok & _). lia.
  - apply insert_budget_event_ok in H. destruct fresh; destruct H as [Hf ->]; [|done].
    cbn. rewrite find_budget_event_none. intros Hall.
    apply (Hall (mkBudgetEvent id kind ref delta)); [|done]. apply elem_of_app. right. left.
Qed.

Lemma insert_budget_event_again (id : Z) (kind : BudgetEventKind) (ref : Z) (delta : Usage)
    (w : SpendWorld) :
  0 < ref -> find_budget_event id kind ref (sp_budget_events (sw_db w)) <> None ->
  exists w', insert_budget_event id kind ref delta w = (Ok false, w') /\ sw_db w' = sw_db w.
Proof.
  intros Hr Hf. unfold insert_budget_event, bind, sp_nextval, sp_check, throwIf, sp_get, ret.
  rewrite (proj2 (Z.ltb_lt 0 ref) Hr). simpl. destruct (find_budget_event _ _ _ _); [|done].
  simpl. by eexists.
Qed.

Lemma insert_task_budget_ok (ignore : bool) (task id : Z) (u : unit) (w w' : SpendWorld) :
  insert_task_budget ignore task id w = (Ok u, w') ->
  exists m, sw_db w' = set_task_budgets m (sw_db w) /\ sp_task_budgets (sw_db w) ⊆ m.
Proof.
  unfold insert_task_budget. intros H. apply bind_ok in H as (d & w1 & [-> ->]%sp_get_ok & H).
  destruct (sp_task_budgets (sw_db w) !! task) as [j|] eqn:Hj.
  - destruct ignore; [|done]. apply ret_ok in H as [_ ->].
    exists (sp_task_budgets (sw_db w)). by destruct (sw_db w).
  - apply bind_ok in H as ([] & w2 & [_ ->]%sp_guard_ok & H). apply sp_modify_ok in H as ->.
    eexists. split; [reflexivity|]. by apply insert_subseteq.
Qed.

(** The CHECK constraints keep the usage within the limits. *)
Lemma budget_check_bounds (b : Budget) :
  budget_check b = true ->
  (forall k, 0 < cap k (budget_Limits b))
  /\ (forall k, 0 <= used k (budget_Usage b) <= cap k (budget_Limits b))
  /\ 0 <= UsedSubagents (budget_Usage b) <= MaxSubagents (budget_Limits b)
  /\ 1 <= Depth (budget_Usage b) <= MaxDepth (budget_Limits b)
  /\ 0 < MaxSubagents (budget_Limits b).
Proof.
  unfold budget_check, between. rewrite !andb_true_iff, !Z.leb_le, !Z.ltb_lt.
  intros H. destruct_and!. split_and!; try lia; intros []; unfold used, cap; lia.
Qed.

Lemma update_budget_ok (id : Z) (b : Budget) (usage : Usage) (u : unit) (w w' : SpendWorld) :
  sp_budgets (sw_db w) !! id = Some b -> update_budget id usage w = (Ok u, w') ->
  sw_db w' = rebudget id (with_usage b usage) (sw_db w)
  /\ budget_check (with_usage b usage) = true.
Proof.
  intros Hb H. unfold update_budget in H.
  apply bind_ok in H as (d & w1 & [-> ->]%sp_get_ok & H). rewrite Hb in H.
  do 7 (apply bind_ok in H as ([] & ? & [_ ->]%sp_bigint_ok & H)).
  apply bind_ok in H as ([] & w1 & [Hc ->]%sp_guard_ok & H).
  by apply sp_modify_ok in H as ->.
Qed.

Section Store.
Context (organizations : string -> bool).

Lemma insert_budget_ok (org : string) (root task : Z) (role : string) (parent : option Z)
    (limits : Limits) (depth : Z) (o : option Z) (w w' : SpendWorld) :
  insert_budget organizations org root task role parent limits depth w = (Ok o, w') ->
  match o with
  | None => budget_of_task task (sw_db w) <> None /\ sw_db w' = sw_db w
  | Some id =>
      let row := mkBudget id org root task role parent limits (mkUsage 0 0 0 0 depth 0 0) 1 in
      budget_of_task task (sw_db w) = None /\ sp_budgets (sw_db w) !! id = None
      /\ budget_check row = true /\ sw_db w' = rebudget id row (sw_db w)
  end.
Proof.
  intros H. unfold insert_budget in H.
  apply bind_ok in H as (id & w1 & (_ & Hd & _)%sp_nextval_ok & H).
  apply bind_ok in H as ([] & w2 & [Hc ->]%sp_guard_ok & H).
  apply bind_ok in H as (d & w3 & [-> ->]%sp_get_ok & H). rewrite Hd in H.
  destruct (budget_of_task task (sw_db w)) as [b|]; simpl in H.
  - by apply ret_ok in H as [-> ->].
  - apply bind_ok in H as ([] & w4 & [Hu ->]%sp_guard_ok & H).
    apply bind_ok in H as ([] & w5 & [_ ->]%sp_guard_ok & H).
    apply bind_ok in H as ([] & w6 & ->%sp_modify_ok & H). apply ret_ok in H as [-> ->].
    split_and!; [done| |done|cbn; by rewrite Hd].
    by destruct (sp_budgets (sw_db w) !! id).
Qed.

(** ** The methods *)

Lemma LimitsValidate_ok (l : Limits) (u : unit) :
  LimitsValidate l = Ok u -> (forall k, 0 < cap k l) /\ 0 < MaxSubagents l /\ 0 < MaxDepth l.
Proof.
  unfold LimitsValidate. rewrite rejectIf_ok, !orb_false_iff, !Z.leb_gt. intros H. destruct_and!.
  split_and!; try done. by intros [].
Qed.

Lemma valid_limits_int64 (l : Limits) (u : unit) :
  LimitsValidate l = Ok u -> limits_typed l -> limits_int64 l.
Proof.
  intros (Hc & Hs & _)%LimitsValidate_ok [Hm Hms]. split; [|lia]. intros k.
  specialize (Hc k). specialize (Hm k). lia.
Qed.

Lemma create_root_steps (org : string) (root : Z) (role : string) (limits : Limits) (b : Budget)
    (w w' : SpendWorld) :
  limits_typed limits ->
  CreateRootBudget organizations org root role limits w = (Ok b, w') ->
  budget_steps (sw_db w) (sw_db w').
Proof.
  intros Hl H. unfold CreateRootBudget in H. apply bind_ok in H as ([] & w0 & Hv & H).
  apply lift_ok in Hv as [Hv ->]. pose proof (valid_limits_int64 _ _ Hv Hl) as Hlim.
  rewrite atomically_ok in H. apply bind_ok in H as (o & w1 & Hins%insert_budget_ok & H).
  apply bind_ok in H as ([] & w2 & Hstep & H).
  apply bind_ok in H as (b0 & w3 & [_ ->]%select_budget_of_task_ok & H).
  apply bind_ok in H as ([] & w4 & [_ ->]%throwIf_ok & H). apply ret_ok in H as [_ ->].
  destruct o as [id|].
  - destruct Hins as (Ht & Hid & Hck & Hd).
    apply bind_ok in Hstep as (fresh & w4 & He%insert_budget_event_ok & Hstep).
    apply bind_ok in Hstep as ([] & w5 & [Hf ->]%sp_guard_ok & Hstep). subst fresh.
    destruct He as [_ He]. apply insert_task_budget_ok in Hstep as (m & Hm & Hsub).
    eapply rtc_l; [|apply rtc_once, BudgetBind; by exists m].
    rewrite He, Hd. apply BudgetRoot; try done. apply LimitsValidate_ok in Hv. lia.
  - apply ret_ok in Hstep as [_ ->]. destruct Hins as [_ ->]. done.
Qed.

Lemma deeper_le (u : Usage) (n m : Z) :
  1 <= Depth u <= m -> 0 < n -> n <= m -> 1 <= deeper u n <= m.
Proof. unfold deeper. case_match; lia. Qed.

Lemma inherit_shared_steps (parent : Budget) (child depth : Z) (b : Budget) (w w' : SpendWorld) :
  let id := budget_ID parent in
  budget_inv (sw_db w) -> sp_budgets (sw_db w) !! id = Some parent ->
  0 < depth -> depth <= MaxDepth (budget_Limits parent) ->
  inherit_shared parent child depth w = (Ok b, w') ->
  budget_steps (sw_db w) (sw_db w').
Proof.
  intros id [Hinv _] Hp Hd0 Hd H. pose proof (bi_rows _ Hinv id parent Hp) as Hrow.
  unfold inherit_shared in H. fold id in H.
  apply bind_ok in H as (fresh & w1 & He%insert_budget_event_ok & H). destruct fresh; simpl in H.
  - destruct He as [Hf He]. apply bind_ok in H as ([] & w2 & [_ ->]%throwIf_ok & H).
    apply bind_ok in H as ([] & w3 & Hup & H). apply bind_ok in H as ([] & w4 & Hb & H).
    apply select_budget_ok in H as [_ ->]. apply insert_task_budget_ok in Hb as (m & Hm & Hsub).
    apply (update_budget_ok id parent) in Hup as [Hup Hck]; [|by rewrite He].
    apply budget_check_bounds in Hck as (_ & _ & Hs & _). simpl in Hs.
    eapply rtc_l; [|apply rtc_once, BudgetBind; by exists m].
    rewrite Hup, He. apply BudgetShare; try done; [lia|].
    apply deeper_le; [apply (br_depth id parent Hrow)|done|done].
  - destruct He as [_ He]. apply select_budget_ok in H as [_ ->]. by rewrite He.
Qed.

Lemma rebudget_tasks (id : Z) (b : Budget) (m : gmap Z Z) (d : SpendDB) :
  rebudget id b (set_task_budgets m d) = set_task_budgets m (rebudget id b d).
Proof. done. Qed.

Lemma inherit_allocated_steps (parent : Budget) (child : Z) (role : string) (depth : Z)
    (a : Limits) (b : Budget) (w w' : SpendWorld) :
  let id := budget_ID parent in
  budget_inv (sw_db w) -> sp_budgets (sw_db w) !! id = Some parent ->
  limits_int64 a -> 0 < depth -> depth <= MaxDepth (budget_Limits parent) ->
  inherit_allocated organizations parent child role depth a w = (Ok b, w') ->
  budget_steps (sw_db w) (sw_db w').
Proof.
  intros id [Hinv _] Hp Ha Hd0 Hd H. pose proof (bi_rows _ Hinv id parent Hp) as Hrow.
  unfold inherit_allocated in H. fold id in H.
  apply bind_ok in H as (fresh & w1 & He%insert_budget_event_ok & H). destruct fresh; simpl in H.
  - destruct He as [Hf He]. apply bind_ok in H as ([] & w2 & [_ ->]%throwIf_ok & H).
    apply bind_ok in H as ([] & w2 & [_ ->]%throwIf_ok & H).
    apply bind_ok in H as (o & w2 & Hins%insert_budget_ok & H). destruct o as [c|]; [|done].
    destruct Hins as (Ht & Hc & Hcc & Hins). rewrite He in Ht, Hc, Hins.
    apply bind_ok in H as ([] & w3 & (m & Hm & Hsub)%insert_task_budget_ok & H).
    apply bind_ok in H as ([] & w4 & Hup & H). apply select_budget_ok in H as [_ ->].
    rewrite Hins in Hm, Hsub.
    apply (update_budget_ok id parent) in Hup as [Hup Hck].
    2:{ rewrite Hm. cbn. rewrite lookup_insert_ne; [done|]. cbn in Hc. congruence. }
    apply budget_check_bounds in Hck as (_ & Hk & Hs & Hdp & _).
    apply budget_check_bounds in Hcc as (_ & _ & _ & Hcd & _). simpl in Hs, Hdp, Hcd.
    rewrite Hup, Hm, rebudget_tasks.
    eapply rtc_l; [|apply rtc_once, BudgetBind; by exists m].
    apply BudgetAllocate with (childDepth := depth) (depth := deeper (budget_Usage parent) depth);
      try done; [lia|].
    intros k. specialize (Hk k). unfold used, cap in *. destruct k; cbn in *; lia.
  - destruct He as [_ He]. apply select_budget_of_task_ok in H as [_ ->]. by rewrite He.
Qed.

Lemma inherit_steps (parentID child : Z) (role : string) (depth : Z) (allocation : option Limits)
    (b : Budget) (w w' : SpendWorld) :
  budget_inv (sw_db w) -> (forall a, allocation = Some a -> limits_typed a) ->
  InheritForChild organizations parentID child role depth allocation w = (Ok b, w') ->
  budget_steps (sw_db w) (sw_db w').
Proof.
  intros Hinv Hl H. unfold InheritForChild in H.
  apply bind_ok in H as ([] & w0 & [Hd0 ->]%throwIf_ok & H). apply Z.leb_gt in Hd0.
  apply bind_ok in H as ([] & w0 & Hv & H).
  assert (Hv' : w0 = w /\ forall a, allocation = Some a -> LimitsValidate a = Ok tt).
  { destruct allocation as [a|]; [apply lift_ok in Hv as [Hv ->]|apply ret_ok in Hv as [_ ->]].
    - split; [done|]. by intros ? [= <-].
    - done. }
  destruct Hv' as [-> Hv']. rewrite atomically_ok in H.
  apply bind_ok in H as (p & w1 & [Hp ->]%select_budget_ok & H).
  apply bind_ok in H as ([] & w1 & [Hd ->]%throwIf_ok & H). apply Z.ltb_ge in Hd.
  pose proof (br_id _ _ (bi_rows _ (proj1 Hinv) parentID p Hp)) as Hid. rewrite <- Hid in Hp.
  destruct allocation as [a|].
  - eapply inherit_allocated_steps in H; try done. eapply valid_limits_int64; eauto.
  - by eapply inherit_shared_steps in H.
Qed.

Lemma row_stored (id : Z) (b : Budget) :
  budget_row_ok id b -> usage_stored (budget_Usage b) /\ limits_typed (budget_Limits b).
Proof.
  intros [_ Hu Hc Hs Hms _ _]. split; (split; [|lia]).
  - intros k. specialize (Hu k). specialize (Hc k). lia.
  - done.
Qed.

(** The tables after a charge. *)
Definition charged_db (id : Z) (b : Budget) (ref : Z) (delta : Usage) (d : SpendDB) : SpendDB :=
  let u := budget_Usage b in
  rebudget id (with_usage b (mkUsage (UsedUSD u + UsedUSD delta)
      (UsedTokens u + UsedTokens delta) (UsedModelCalls u + UsedModelCalls delta)
      (UsedWallTimeMS u + UsedWallTimeMS delta) (Depth u)
      (UsedRetries u + UsedRetries delta) (UsedSubagents u)))
    (book (mkBudgetEvent id BudgetConsumed ref
       (mkUsage (UsedUSD delta) (UsedTokens delta) (UsedModelCalls delta)
          (UsedWallTimeMS delta) 0 (UsedRetries delta) 0)) d).

Lemma charged_step (id ref : Z) (b : Budget) (delta : Usage) (d : SpendDB) :
  sp_budgets d !! id = Some b ->
  find_budget_event id BudgetConsumed ref (sp_budget_events d) = None -> usage_typed delta ->
  not_negative delta -> within (usage_plus (budget_Usage b) delta) (budget_Limits b) ->
  budget_step d (charged_db id b ref delta d).
Proof.
  intros Hb Hf [Ht _] [Hnn _] [Hw _]. apply BudgetCharge; try done.
  - intros k. specialize (Hnn k). specialize (Ht k). unfold int64 in Ht. lia.
  - intros k. specialize (Hw k). unfold used, usage_plus in *. by destruct k.
Qed.

Lemma consume_result (id ref : Z) (delta : Usage) (u : unit) (w w' : SpendWorld) :
  budget_inv (sw_db w) -> usage_typed delta ->
  ConsumeModelCall id ref delta w = (Ok u, w') ->
  exists b, sp_budgets (sw_db w) !! id = Some b
  /\ ((find_budget_event id BudgetConsumed ref (sp_budget_events (sw_db w)) <> None
       /\ sw_db w' = sw_db w)
      \/ sw_db w' = charged_db id b ref delta (sw_db w) /\ 0 < ref
         /\ find_budget_event id BudgetConsumed ref (sp_budget_events (sw_db w)) = None
         /\ not_negative delta /\ within (usage_plus (budget_Usage b) delta) (budget_Limits b)).
Proof.
  intros [Hinv _] Ht H. unfold ConsumeModelCall in H. rewrite atomically_ok in H.
  apply bind_ok in H as (b & w1 & [Hb ->]%select_budget_ok & H). exists b. split; [done|].
  pose proof (bi_rows _ Hinv id b Hb) as Hrow. pose proof (row_stored id b Hrow) as [Hst Hl].
  apply bind_ok in H as (fresh & w1 & He & H).
  pose proof (insert_budget_event_stays _ _ _ _ _ _ _ He) as [Href _].
  apply insert_budget_event_ok in He. destruct fresh; simpl in H.
  - right. destruct He as [Hf He]. apply bind_ok in H as (n & w2 & [Hn ->]%lift_ok & H).
    rewrite ReserveUsage_ok in Hn by done. destruct Hn as (Hnn & Hw & ->).
    apply (update_budget_ok id b) in H as [H _]; [|by rewrite He].
    split; [by rewrite H, He|done].
  - left. destruct He as [Hf He]. apply ret_ok in H as [_ ->]. done.
Qed.

(** The amounts a settlement reports: not negative, and such that the corrected
    usage fits. *)
Definition actual_fits (id ref : Z) (actual : Usage) (d : SpendDB) : Prop :=
  0 <= UsedUSD actual <= maxInt64 /\ 0 <= UsedTokens actual <= maxInt64 /\
  forall b c, sp_budgets d !! id = Some b ->
    find_budget_event id BudgetConsumed ref (sp_budget_events d) = Some c ->
    UsedUSD (budget_Usage b) - UsedUSD (bevent_Delta c) + UsedUSD actual <= maxInt64
    /\ UsedTokens (budget_Usage b) - UsedTokens (bevent_Delta c) + UsedTokens actual <= maxInt64.

Lemma clamp_exact (u a c : Z) :
  u <= maxInt64 -> 0 <= u - c -> 0 <= c -> 0 <= a <= maxInt64 -> u - c + a <= maxInt64 ->
  wrap64 (a - c) = a - c /\ clampNonNegative (wrap64 (u + (a - c))) = u + (a - c).
Proof.
  intros Hum Hu Hc Ha Hm. unfold clampNonNegative.
  rewrite !wrap64_id by (unfold int64, minInt64, maxInt64, two63 in *; lia).
  split; [done|]. case_match; lia.
Qed.

(** In the invariant, the corrections of a settlement are exact. *)
Lemma corrections_exact (id ref : Z) (actual : Usage) (b : Budget) (c : BudgetEvent) (d : SpendDB) :
  budget_core d -> actual_fits id ref actual d -> sp_budgets d !! id = Some b ->
  find_budget_event id BudgetConsumed ref (sp_budget_events d) = Some c ->
  find_budget_event id BudgetReconciled ref (sp_budget_events d) = None ->
  let u := budget_Usage b in
  let usd := UsedUSD actual - UsedUSD (bevent_Delta c) in
  let tokens := UsedTokens actual - UsedTokens (bevent_Delta c) in
  (wrap64 usd = usd /\ clampNonNegative (wrap64 (UsedUSD u + usd)) = UsedUSD u + usd)
  /\ (wrap64 tokens = tokens
      /\ clampNonNegative (wrap64 (UsedTokens u + tokens)) = UsedTokens u + tokens).
Proof.
  intros Hinv (Ha & Hat & Hfit) Hb Hc Hr. destruct (Hfit b c Hb Hc) as [Hfu Hft].
  pose proof (charge_covered d id b ref c
    (mkBudgetEvent id BudgetReconciled ref no_usage) Hinv Hb Hc Hr eq_refl) as Hcov.
  pose proof (Hcov DimUSD) as Hcu. pose proof (Hcov DimTokens) as Hct.
  pose proof (row_stored id b (bi_rows d Hinv id b Hb)) as [[Hst _] _].
  pose proof (Hst DimUSD) as Hsu. pose proof (Hst DimTokens) as Hstk. simpl in *.
  split; apply clamp_exact; lia.
Qed.

(** The row after a settlement, the corrections being exact. *)
Definition settled_row (b : Budget) (c : BudgetEvent) (actual : Usage) : Budget :=
  let u := budget_Usage b in
  with_usage b (mkUsage (UsedUSD u + (UsedUSD actual - UsedUSD (bevent_Delta c)))
    (UsedTokens u + (UsedTokens actual - UsedTokens (bevent_Delta c)))
    (UsedModelCalls u) (UsedWallTimeMS u) (Depth u) (UsedRetries u) (UsedSubagents u)).

Lemma settle_call_result (id ref : Z) (actual : Usage) (u : unit) (w w' : SpendWorld) :
  budget_inv (sw_db w) -> actual_fits id ref actual (sw_db w) ->
  SettleModelCall id ref actual w = (Ok u, w') ->
  let l := sp_budget_events (sw_db w) in
  exists b, sp_budgets (sw_db w) !! id = Some b /\
  ((find_budget_event id BudgetConsumed ref l = None
    \/ find_budget_event id BudgetReconciled ref l <> None) /\ sw_db w' = sw_db w
   \/ exists c, find_budget_event id BudgetConsumed ref l = Some c
       /\ find_budget_event id BudgetReconciled ref l = None
       /\ budget_check (settled_row b c actual) = true
       /\ sw_db w' = rebudget id (settled_row b c actual)
            (book (mkBudgetEvent id BudgetReconciled ref
               (mkUsage (UsedUSD actual - UsedUSD (bevent_Delta c))
                  (UsedTokens actual - UsedTokens (bevent_Delta c)) 0 0 0 0 0)) (sw_db w))).
Proof.
  intros [Hinv _] Hfit H l. unfold SettleModelCall in H. rewrite atomically_ok in H.
  apply bind_ok in H as (b & w1 & [Hb ->]%select_budget_ok & H). exists b. split; [done|].
  apply bind_ok in H as (d & w1 & [-> ->]%sp_get_ok & H). fold l in H.
  destruct (find_budget_event id BudgetConsumed ref l) as [c|] eqn:Hc;
    [|apply ret_ok in H as [_ ->]; by left; split; [left|]].
  apply bind_ok in H as (fresh & w1 & He%insert_budget_event_ok & H). destruct fresh; simpl in H.
  - right. exists c. destruct He as [Hf He].
    destruct (corrections_exact id ref actual b c (sw_db w) Hinv Hfit Hb Hc Hf) as [[E1 E2] [E3 E4]].
    rewrite ?E1, ?E2, ?E3, ?E4 in *.
    apply (update_budget_ok id b) in H as [H Hck]; [|by rewrite He].
    split_and!; try done. by rewrite H, He.
  - left. apply ret_ok in H as [_ ->]. destruct He as [Hf ->]. split; [by right|done].
Qed.

Lemma settle_call_steps (id ref : Z) (actual : Usage) (u : unit) (w w' : SpendWorld) :
  budget_inv (sw_db w) -> actual_fits id ref actual (sw_db w) ->
  SettleModelCall id ref actual w = (Ok u, w') ->
  budget_steps (sw_db w) (sw_db w').
Proof.
  intros Hinv Hfit H. pose proof Hfit as ((Ha & _) & (Hat & _) & _).
  apply settle_call_result in H as (b & Hb & [[_ ->]|H]); [done| |done|done].
  destruct H as (c & Hc & Hf & Hck & ->). apply budget_check_bounds in Hck as (_ & Hk & _).
  pose proof (Hk DimUSD) as Hk1. pose proof (Hk DimTokens) as Hk2. simpl in Hk1, Hk2.
  apply rtc_once. by apply BudgetSettle; try done; lia.
Qed.

(** ** Calls *)

Inductive BudgetCall : Type :=
| CallCreateRoot (organizationID : string) (rootTaskID : Z) (roleID : string) (limits : Limits)
| CallInherit (parentBudgetID childTaskID : Z) (childRoleID : string) (childDepth : Z)
    (allocation : option Limits)
| CallConsume (budgetID invocationID : Z) (delta : Usage)
| CallSettle (budgetID invocationID : Z) (actual : Usage).

Definition discard_budget (m : Spend Budget) : Spend unit := do! m in ret tt.

Definition budget_serve (c : BudgetCall) : Spend unit :=
  match c with
  | CallCreateRoot org root role limits =>
      discard_budget (CreateRootBudget organizations org root role limits)
  | CallInherit p t role depth a => discard_budget (InheritForChild organizations p t role depth a)
  | CallConsume b i delta => ConsumeModelCall b i delta
  | CallSettle b i actual => SettleModelCall b i actual
  end.

(** The arguments are of their Go types, and settlements fit. *)
Definition call_typed (c : BudgetCall) (d : SpendDB) : Prop :=
  match c with
  | CallCreateRoot _ _ _ limits => limits_typed limits
  | CallInherit _ _ _ _ a => forall l, a = Some l -> limits_typed l
  | CallConsume _ _ delta => usage_typed delta
  | CallSettle b i actual => actual_fits b i actual d
  end.

Lemma discard_budget_snd (m : Spend Budget) (w : SpendWorld) :
  snd (discard_budget m w) = snd (m w).
Proof. unfold discard_budget, bind, ret. by destruct (m w) as [[]]. Qed.

Lemma budget_steps_of_runs {A} (m : Spend A) (w : SpendWorld) :
  (forall a w', m w = (Ok a, w') -> budget_steps (sw_db w) (sw_db w')) ->
  (forall e w', m w = (Err e, w') -> sw_db w' = sw_db w) ->
  budget_steps (sw_db w) (sw_db (snd (m w))).
Proof.
  intros Hok Herr. destruct (m w) as [[a|e] w'] eqn:Hm; simpl; [by eapply Hok|].
  by rewrite (Herr e w').
Qed.

Lemma budget_calls_refine_steps (c : BudgetCall) (w : SpendWorld) :
  budget_inv (sw_db w) -> call_typed c (sw_db w) ->
  budget_steps (sw_db w) (sw_db (snd (budget_serve c w))).
Proof.
  intros Hinv Ht. destruct c; simpl in *; rewrite ?discard_budget_snd; apply budget_steps_of_runs;
    intros a w' H.
  - by eapply create_root_steps.
  - unfold CreateRootBudget, bind at 1, lift in H. destruct (LimitsValidate limits);
      [by eapply atomically_err|by injection H as _ <-].
  - by eapply inherit_steps.
  - unfold InheritForChild, bind at 1, throwIf, throw, ret at 1 in H.
    destruct (childDepth <=? 0); [by injection H as _ <-|]. unfold bind at 1 in H.
    destruct allocation as [l|]; [unfold lift in H; destruct (LimitsValidate l)|unfold ret at 1 in H];
      try (by eapply atomically_err). by injection H as _ <-.
  - apply consume_result in H as (b & Hb & [[_ ->]|(-> & _ & Hf & Hnn & Hw)]); try done.
    by apply rtc_once, charged_step.
  - by eapply atomically_err.
  - by eapply settle_call_steps.
  - by eapply atomically_err.
Qed.

End Store.
