(* ===== verification/BudgetProps.v ===== *)
(** * Properties of the agent budgets

    What a tree of budgets may spend, what a reservation checks, what a retried
    call does, and what becomes of a settlement above a ceiling. *)

From stdpp Require Import base tactics list gmap strings sorting relations.
From Stdlib Require Import ZArith Lia.
From S2P Require Import Prelude GoLib TaskDomain Database SpendDB CostLedger LedgerSpec.
From S2P Require Import LedgerRefine AgentBudget BudgetSpec BudgetRefine.

Local Open Scope Z_scope.

(** ** Runs *)

Section Runs.
Context (organizations : string -> bool).

(** Calls of the budget store, interleaved with the transactions of the other
    components, which leave the budgets and their events alone. *)
Inductive budget_move (w : SpendWorld) : SpendWorld -> Prop :=
| BudgetMoveCall c :
    call_typed c (sw_db w) -> budget_move w (snd (budget_serve organizations c w))
| BudgetMoveOther w' :
    sp_budgets (sw_db w') = sp_budgets (sw_db w) ->
    sp_budget_events (sw_db w') = sp_budget_events (sw_db w) -> budget_move w w'.

Definition budget_moves : SpendWorld -> SpendWorld -> Prop := rtc budget_move.

End Runs.

(** A database before the first budget. *)
Definition no_budgets (w : SpendWorld) : Prop :=
  sp_budgets (sw_db w) = ∅ /\ sp_budget_events (sw_db w) = [].

Lemma budget_inv_same (d d' : SpendDB) :
  sp_budgets d' = sp_budgets d -> sp_budget_events d' = sp_budget_events d ->
  budget_inv d -> budget_inv d'.
Proof.
  intros Hb He [[] Ht]. unfold tree_handed, tree_allocated in Ht.
  split; [split|unfold tree_handed, tree_allocated]; rewrite ?Hb, ?He; done.
Qed.

Lemma no_budgets_inv (w : SpendWorld) : no_budgets w -> budget_inv (sw_db w).
Proof.
  intros [Hb He]. split.
  - split; rewrite ?Hb, ?He; simpl; try (intros *; by rewrite lookup_empty).
    + by intros e ?%not_elem_of_nil.
    + apply NoDup_nil_2.
  - intros k r. unfold tree_handed, tree_allocated. by rewrite Hb.
Qed.

Lemma budget_moves_inv (organizations : string -> bool) (w w' : SpendWorld) :
  budget_moves organizations w w' -> budget_inv (sw_db w) -> budget_inv (sw_db w').
Proof.
  induction 1 as [|w1 w2 w3 [c Hc|w4 Hb He] _ IH]; [done| |]; intros Hinv; apply IH.
  - by eapply budget_steps_inv; [apply budget_calls_refine_steps|].
  - by eapply budget_inv_same.
Qed.

(** ** The limits of a budget are fixed *)

Definition limits_kept (d d' : SpendDB) : Prop :=
  forall id b, sp_budgets d !! id = Some b ->
    exists b', sp_budgets d' !! id = Some b' /\ same_budget b b'.

Lemma same_budget_refl (b : Budget) : same_budget b b.
Proof. by split_and!. Qed.

Lemma same_budget_trans (a b c : Budget) : same_budget a b -> same_budget b c -> same_budget a c.
Proof. intros (?&?&?&?&?) (?&?&?&?&?). split_and!; congruence. Qed.

Lemma limits_kept_trans (d d1 d2 : SpendDB) :
  limits_kept d d1 -> limits_kept d1 d2 -> limits_kept d d2.
Proof.
  intros H1 H2 id b Hb. apply H1 in Hb as (b1 & Hb & Hs). apply H2 in Hb as (b2 & Hb & Hs').
  exists b2. split; [done|]. by eapply same_budget_trans.
Qed.

Lemma rebudget_kept (id : Z) (b b' : Budget) (d : SpendDB) :
  sp_budgets d !! id = Some b -> same_budget b b' -> limits_kept d (rebudget id b' d).
Proof.
  intros Hb Hs j c Hc. cbn. destruct (decide (j = id)) as [->|Hne].
  - rewrite lookup_insert_eq. exists b'. split; [done|]. congruence.
  - rewrite lookup_insert_ne by done. exists c. split; [done|apply same_budget_refl].
Qed.

Lemma new_budget_kept (id : Z) (b : Budget) (d : SpendDB) :
  sp_budgets d !! id = None -> limits_kept d (rebudget id b d).
Proof.
  intros Hid j c Hc. cbn. rewrite lookup_insert_ne by congruence. exists c.
  split; [done|apply same_budget_refl].
Qed.

Lemma budget_step_kept (d d' : SpendDB) : budget_step d d' -> limits_kept d d'.
Proof.
  intros H. destruct H as
    [id org task role limits Hid|id b child depth Hb
    |id b child childID role cd depth a Hb Hf Hc|id b ref delta Hb
    |id b ref charge usd tokens Hb|d' (m & -> & _)].
  - by apply (new_budget_kept id _ d).
  - by apply (rebudget_kept id b _ d), same_with_usage.
  - match goal with |- limits_kept d (rebudget id ?x (rebudget childID ?y ?z)) =>
      apply (limits_kept_trans d (rebudget childID y z));
        [exact (new_budget_kept childID y z Hc)|
         apply (rebudget_kept id b x (rebudget childID y z)), same_with_usage]
    end.
    cbn. rewrite lookup_insert_ne; [done|congruence].
  - by apply (rebudget_kept id b _ d), same_with_usage.
  - by apply (rebudget_kept id b _ d), same_with_usage.
  - intros j c Hc. exists c. split; [done|apply same_budget_refl].
Qed.

Lemma limits_kept_refl (d : SpendDB) : limits_kept d d.
Proof. intros j c Hc. exists c. split; [done|apply same_budget_refl]. Qed.

Lemma budget_steps_kept (d d' : SpendDB) : budget_steps d d' -> limits_kept d d'.
Proof.
  induction 1 as [d|d d1 d2 Hs _ IH]; [apply limits_kept_refl|].
  eapply limits_kept_trans; [by apply budget_step_kept|done].
Qed.

Lemma budget_moves_kept (organizations : string -> bool) (w w' : SpendWorld) :
  budget_moves organizations w w' -> budget_inv (sw_db w) -> limits_kept (sw_db w) (sw_db w').
Proof.
  induction 1 as [w|w1 w2 w3 Hm _ IH]; intros Hinv.
  - intros j c Hc. exists c. split; [done|apply same_budget_refl].
  - eapply limits_kept_trans; [|apply IH].
    + destruct Hm as [c Hc|w4 Hb He].
      * assert (Hs := budget_calls_refine_steps organizations c w1 Hinv Hc). clear IH Hinv Hc.
        by apply budget_steps_kept.
      * intros j b Hj. rewrite Hb. exists b. split; [done|apply same_budget_refl].
    + by eapply budget_moves_inv; [apply rtc_once|].
Qed.

(** ** Retries *)

Definition repeats (m : Spend unit) (w : SpendWorld) : Prop :=
  exists w', m w = (Ok tt, w') /\ sw_db w' = sw_db w.

Lemma replay_consume (id ref : Z) (delta : Usage) (b : Budget) (w : SpendWorld) :
  0 < ref -> find_budget_event id BudgetConsumed ref (sp_budget_events (sw_db w)) <> None ->
  sp_budgets (sw_db w) !! id = Some b -> repeats (ConsumeModelCall id ref delta) w.
Proof.
  intros Hr Hf Hb. unfold repeats, ConsumeModelCall.
  destruct (insert_budget_event_again id BudgetConsumed ref
    (mkUsage (UsedUSD delta) (UsedTokens delta) (UsedModelCalls delta) (UsedWallTimeMS delta)
       0 (UsedRetries delta) 0) w Hr Hf) as (w' & Hw & Hd).
  exists w'. split; [|done]. apply atomically_ok, bind_ok. exists b, w.
  split; [by apply select_budget_ok|]. apply bind_ok. exists false, w'. by split.
Qed.

Lemma replay_settle (id ref : Z) (actual : Usage) (b : Budget) (w : SpendWorld) :
  let l := sp_budget_events (sw_db w) in
  sp_budgets (sw_db w) !! id = Some b ->
  find_budget_event id BudgetConsumed ref l = None
  \/ 0 < ref /\ find_budget_event id BudgetReconciled ref l <> None ->
  repeats (SettleModelCall id ref actual) w.
Proof.
  intros l Hb H. unfold repeats, SettleModelCall.
  destruct (find_budget_event id BudgetConsumed ref l) as [c|] eqn:Hc.
  - destruct H as [?|[Hr Hf]]; [done|].
    destruct (insert_budget_event_again id BudgetReconciled ref
      (mkUsage (wrap64 (UsedUSD actual - UsedUSD (bevent_Delta c)))
         (wrap64 (UsedTokens actual - UsedTokens (bevent_Delta c))) 0 0 0 0 0) w Hr Hf)
      as (w' & Hw & Hd).
    exists w'. split; [|done]. apply atomically_ok, bind_ok. exists b, w.
    split; [by apply select_budget_ok|]. apply bind_ok. exists (sw_db w), w. split; [done|].
    fold l. rewrite Hc. apply bind_ok. exists false, w'. by split.
  - exists w. split; [|done]. apply atomically_ok, bind_ok. exists b, w.
    split; [by apply select_budget_ok|]. apply bind_ok. exists (sw_db w), w. split; [done|].
    fold l. by rewrite Hc.
Qed.

Lemma lookup_rebudget (id : Z) (b : Budget) (d : SpendDB) :
  sp_budgets (rebudget id b d) !! id = Some b.
Proof. cbn. apply lookup_insert_eq. Qed.

Lemma consume_repeats (id ref : Z) (delta delta' : Usage) (u : unit) (w w' : SpendWorld) :
  ConsumeModelCall id ref delta w = (Ok u, w') -> repeats (ConsumeModelCall id ref delta') w'.
Proof.
  intros H. unfold ConsumeModelCall in H. rewrite atomically_ok in H.
  apply bind_ok in H as (b & w1 & [Hb ->]%select_budget_ok & H).
  apply bind_ok in H as (fresh & w1 & He & H).
  pose proof (insert_budget_event_stays _ _ _ _ _ _ _ He) as [Hr Hf].
  apply insert_budget_event_ok in He. destruct fresh; simpl in H.
  - destruct He as [_ He]. apply bind_ok in H as (n & w2 & [_ ->]%lift_ok & H).
    apply (update_budget_ok id b) in H as [H _]; [|by rewrite He].
    eapply replay_consume; [done|by rewrite H|rewrite H; apply lookup_rebudget].
  - apply ret_ok in H as [_ ->]. destruct He as [_ He].
    eapply replay_consume; [done|done|by rewrite He].
Qed.

Lemma settle_repeats (id ref : Z) (actual actual' : Usage) (u : unit) (w w' : SpendWorld) :
  SettleModelCall id ref actual w = (Ok u, w') -> repeats (SettleModelCall id ref actual') w'.
Proof.
  intros H. unfold SettleModelCall in H. rewrite atomically_ok in H.
  apply bind_ok in H as (b & w1 & [Hb ->]%select_budget_ok & H).
  apply bind_ok in H as (d & w1 & [-> ->]%sp_get_ok & H).
  destruct (find_budget_event id BudgetConsumed ref _) as [c|] eqn:Hc.
  - apply bind_ok in H as (fresh & w1 & He & H).
    pose proof (insert_budget_event_stays _ _ _ _ _ _ _ He) as [Hr Hf].
    apply insert_budget_event_ok in He. destruct fresh; simpl in H.
    + destruct He as [_ He]. apply (update_budget_ok id b) in H as [H _]; [|by rewrite He].
      eapply replay_settle; [rewrite H; apply lookup_rebudget|right]. by rewrite H.
    + apply ret_ok in H as [_ ->]. destruct He as [_ He].
      eapply replay_settle; [by rewrite He|by right].
  - apply ret_ok in H as [_ ->]. eapply replay_settle; [done|by left].
Qed.

Section Retries.
Context (organizations : string -> bool).

Lemma create_root_repeats (org : string) (root : Z) (role : string) (limits : Limits)
    (w w' : SpendWorld) :
  let m := discard_budget (CreateRootBudget organizations org root role limits) in
  m w = (Ok tt, w') -> repeats m w'.
Proof.
  intros m H. unfold m, discard_budget in H. apply bind_ok in H as (b & w0 & H & Hr).
  apply ret_ok in Hr as [_ ->]. unfold CreateRootBudget in H.
  apply bind_ok in H as ([] & w1 & [Hv ->]%lift_ok & H). rewrite atomically_ok in H.
  apply bind_ok in H as (o & w1 & Hins & H). apply bind_ok in H as ([] & w2 & _ & H).
  apply bind_ok in H as (b0 & w3 & [Hb ->]%select_budget_of_task_ok & H).
  apply bind_ok in H as ([] & w3 & [Hs ->]%throwIf_ok & H). apply ret_ok in H as [-> ->].
  assert (Hck : forall id, budget_check (mkBudget id org root root role None limits
             (mkUsage 0 0 0 0 1 0 0) 1) = true).
  { unfold insert_budget in Hins. apply bind_ok in Hins as (id & w3 & _ & Hins).
    apply bind_ok in Hins as ([] & w4 & [Hc _]%sp_guard_ok & _). by intros ?. }
  assert (Ha : exists w3, insert_budget organizations org root root role None limits 1 w2
                 = (Ok None, w3) /\ sw_db w3 = sw_db w2).
  { unfold insert_budget, bind, sp_nextval, sp_check, throwIf, sp_get, ret. rewrite Hck. simpl.
    rewrite Hb. simpl. by eexists. }
  destruct Ha as (w3 & Ha & Hd). exists w3. split; [|done].
  apply bind_ok. exists b0, w3. split; [|done]. apply bind_ok. exists tt, w2.
  split; [by apply lift_ok|]. apply atomically_ok, bind_ok. exists None, w3. split; [done|].
  apply bind_ok. exists tt, w3. split; [done|]. apply bind_ok. exists b0, w3.
  split; [apply select_budget_of_task_ok; by rewrite Hd|]. apply bind_ok. exists tt, w3.
  split; [by apply throwIf_ok|done].
Qed.

Lemma budget_of_task_known (task i : Z) (b : Budget) (d : SpendDB) :
  sp_budgets d !! i = Some b -> budget_TaskID b = task -> budget_of_task task d <> None.
Proof. intros Hb Ht Hn. by apply (budget_of_task_none task d Hn i b). Qed.

(** What an inheritance leaves: the parent, its event, and the child's budget. *)
Definition inherited (parent : Budget) (child : Z) (allocation : option Limits) (d : SpendDB)
    : Prop :=
  let id := budget_ID parent in
  find_budget_event id BudgetInherited child (sp_budget_events d) <> None
  /\ (exists p, sp_budgets d !! id = Some p)
  /\ (allocation <> None -> budget_of_task child d <> None).

Lemma inherit_shared_leaves (parent : Budget) (child depth : Z) (b : Budget) (w w' : SpendWorld) :
  sp_budgets (sw_db w) !! budget_ID parent = Some parent ->
  inherit_shared parent child depth w = (Ok b, w') ->
  0 < child /\ inherited parent child None (sw_db w').
Proof.
  intros Hp H. unfold inherit_shared in H. apply bind_ok in H as (fresh & w1 & He & H).
  pose proof (insert_budget_event_stays _ _ _ _ _ _ _ He) as [Hr Hf]. split; [done|].
  apply insert_budget_event_ok in He. destruct fresh; simpl in H.
  - destruct He as [_ He]. apply bind_ok in H as ([] & w2 & [_ ->]%throwIf_ok & H).
    apply bind_ok in H as ([] & w3 & Hup & H). apply bind_ok in H as ([] & w4 & Hb & H).
    apply select_budget_ok in H as [H ->]. apply insert_task_budget_ok in Hb as (m & Hm & _).
    apply (update_budget_ok (budget_ID parent) parent) in Hup as [Hup _]; [|by rewrite He].
    split_and!; [by rewrite Hm, Hup|by exists b|done].
  - destruct He as [_ He]. apply select_budget_ok in H as [H ->].
    split_and!; [done|by exists b|done].
Qed.

Lemma inherit_allocated_leaves (parent : Budget) (child : Z) (role : string) (depth : Z)
    (a : Limits) (b : Budget) (w w' : SpendWorld) :
  sp_budgets (sw_db w) !! budget_ID parent = Some parent ->
  inherit_allocated organizations parent child role depth a w = (Ok b, w') ->
  0 < child /\ inherited parent child (Some a) (sw_db w').
Proof.
  intros Hp H. unfold inherit_allocated in H. apply bind_ok in H as (fresh & w1 & He & H).
  pose proof (insert_budget_event_stays _ _ _ _ _ _ _ He) as [Hr Hf]. split; [done|].
  apply insert_budget_event_ok in He. destruct fresh; simpl in H.
  - destruct He as [_ He]. apply bind_ok in H as ([] & w2 & [_ ->]%throwIf_ok & H).
    apply bind_ok in H as ([] & w2 & [_ ->]%throwIf_ok & H).
    apply bind_ok in H as (o & w2 & Hins%insert_budget_ok & H). destruct o as [c|]; [|done].
    destruct Hins as (_ & Hc & _ & Hins). rewrite He in Hc. cbn in Hc.
    apply bind_ok in H as ([] & w3 & (m & Hm & _)%insert_task_budget_ok & H).
    apply bind_ok in H as ([] & w4 & Hup & H). apply select_budget_ok in H as [H ->].
    assert (Hne : budget_ID parent <> c) by congruence.
    apply (update_budget_ok (budget_ID parent) parent) in Hup as [Hup _].
    2:{ rewrite Hm, Hins, He. cbn. by rewrite lookup_insert_ne. }
    rewrite Hup, Hm, Hins. split_and!.
    + by rewrite He in Hf |- *.
    + eexists. apply lookup_rebudget.
    + intros _. eapply budget_of_task_known; [cbn; rewrite lookup_insert_ne by done;
        apply lookup_insert_eq|done].
  - destruct He as [_ He]. apply select_budget_of_task_ok in H as [H ->].
    split_and!; [done|exists parent; by rewrite He|by rewrite H].
Qed.

Lemma inherit_replays (parent : Budget) (child : Z) (role : string) (depth : Z)
    (allocation : option Limits) (w : SpendWorld) :
  let id := budget_ID parent in
  sp_budgets (sw_db w) !! id = Some parent -> 0 < depth -> 0 < child ->
  depth <= MaxDepth (budget_Limits parent) ->
  (forall a, allocation = Some a -> LimitsValidate a = Ok tt) ->
  inherited parent child allocation (sw_db w) ->
  repeats (discard_budget (InheritForChild organizations id child role depth allocation)) w.
Proof.
  intros id Hp Hd0 Hc Hd Hv (Hf & _ & Ht). unfold repeats, discard_budget, InheritForChild.
  assert (Hrun : exists b w', match allocation with
      | None => inherit_shared parent child depth
      | Some a => inherit_allocated organizations parent child role depth a
      end w = (Ok b, w') /\ sw_db w' = sw_db w).
  { destruct allocation as [a|].
    - destruct (budget_of_task child (sw_db w)) as [b|] eqn:Hb; [|by destruct Ht].
      destruct (insert_budget_event_again id BudgetInherited child
        (mkUsage (MaxUSD a) (MaxTokens a) (MaxModelCalls a) (MaxWallTimeMS a) 0 (MaxRetries a) 1)
        w Hc Hf) as (w' & Hw & Hd').
      exists b, w'. split; [|done]. unfold inherit_allocated. apply bind_ok. exists false, w'.
      split; [done|]. apply select_budget_of_task_ok. by rewrite Hd'.
    - destruct (insert_budget_event_again id BudgetInherited child (mkUsage 0 0 0 0 0 0 1)
        w Hc Hf) as (w' & Hw & Hd').
      exists parent, w'. split; [|done]. unfold inherit_shared. apply bind_ok. exists false, w'.
      split; [done|]. apply select_budget_ok. by rewrite Hd'. }
  destruct Hrun as (b & w' & Hrun & Hd'). exists w'. split; [|done].
  apply bind_ok. exists b, w'. split; [|done]. apply bind_ok. exists tt, w.
  split; [by apply throwIf_ok; split; [apply Z.leb_gt|]|]. apply bind_ok. exists tt, w.
  split; [destruct allocation as [a|]; [by apply lift_ok; auto|done]|].
  apply atomically_ok, bind_ok. exists parent, w. split; [by apply select_budget_ok|].
  apply bind_ok. exists tt, w. split; [by apply throwIf_ok; split; [apply Z.ltb_ge|]|].
  by destruct allocation.
Qed.

Lemma inherit_repeats (parentID child : Z) (role : string) (depth : Z)
    (allocation : option Limits) (w w' : SpendWorld) :
  let m := discard_budget (InheritForChild organizations parentID child role depth allocation) in
  budget_inv (sw_db w) -> (forall a, allocation = Some a -> limits_typed a) ->
  m w = (Ok tt, w') -> repeats m w'.
Proof.
  intros m Hinv Hl H. unfold m, discard_budget in H. apply bind_ok in H as (b & w0 & H & Hr).
  apply ret_ok in Hr as [_ <-]. pose proof (inherit_steps _ _ _ _ _ _ _ _ _ Hinv Hl H) as Hsteps.
  pose proof (budget_steps_inv _ _ Hsteps Hinv) as Hinv'.
  unfold InheritForChild in H.
  apply bind_ok in H as ([] & w1 & [Hd0 ->]%throwIf_ok & H). apply Z.leb_gt in Hd0.
  apply bind_ok in H as ([] & w1 & Hv & H).
  assert (Hv' : w1 = w /\ forall a, allocation = Some a -> LimitsValidate a = Ok tt).
  { destruct allocation as [a|]; [apply lift_ok in Hv as [Hv ->]|apply ret_ok in Hv as [_ ->]].
    - split; [done|]. by intros ? [= <-].
    - done. }
  destruct Hv' as [-> Hv']. rewrite atomically_ok in H.
  apply bind_ok in H as (p & w1 & [Hp ->]%select_budget_ok & H).
  apply bind_ok in H as ([] & w1 & [Hd ->]%throwIf_ok & H). apply Z.ltb_ge in Hd.
  pose proof (br_id _ _ (bi_rows _ (proj1 Hinv) parentID p Hp)) as Hid.
  assert (Hleft : 0 < child /\ inherited p child allocation (sw_db w')).
  { destruct allocation as [a|].
    - eapply inherit_allocated_leaves; [by rewrite Hid|exact H].
    - eapply inherit_shared_leaves; [by rewrite Hid|exact H]. }
  destruct Hleft as (Hc & Hf & (p' & Hp') & Ht).
  assert (Hkept : limits_kept (sw_db w) (sw_db w')) by by apply budget_steps_kept.
  destruct (Hkept parentID p Hp) as (p2 & Hp2 & Hsame). rewrite Hid, Hp2 in Hp'.
  injection Hp' as <-. destruct Hsame as (Hid2 & _ & _ & _ & Hlim).
  unfold m. rewrite <- Hid, <- Hid2. apply inherit_replays; try done.
  - by rewrite Hid2, Hid.
  - by rewrite Hlim.
  - split_and!; [by rewrite Hid2|exists p2; by rewrite Hid2, Hid|done].
Qed.

End Retries.

(** ** A small tree

    Task 1 has a root budget, task 2 an allocation from it. *)

Definition demo_limits : Limits := mkLimits 1000 500 10 60000 3 4 5.
Definition demo_share : Limits := mkLimits 400 100 4 20000 2 1 2.
Definition one_call (usd tokens : Z) : Usage := mkUsage usd tokens 1 100 0 0 0.

Definition budget0 : SpendWorld :=
  mkSpendWorld (mkSpendDB [] ∅ [] ∅ ∅ ∅ ∅ [] ∅ {[ 1 := demo_owner; 2 := demo_owner ]}) (fun _ => 1).

Definition everyone (_ : string) : bool := true.

Definition budget_run (calls : list BudgetCall) (w : SpendWorld) : SpendWorld :=
  foldl (fun w c => snd (budget_serve everyone c w)) w calls.

Definition open_call : BudgetCall := CallCreateRoot "acme" 1 "eng" demo_limits.
Definition share_call : BudgetCall := CallInherit 1 2 "qa" 2 (Some demo_share).

Definition budget_opened : SpendWorld := budget_run [open_call] budget0.
Definition budget_shared : SpendWorld := budget_run [share_call] budget_opened.
Definition budget_charged : SpendWorld :=
  budget_run [CallConsume 1 7 (one_call 500 50); CallConsume 2 8 (one_call 300 20)] budget_shared.

Lemma budget0_empty : no_budgets budget0.
Proof. done. Qed.

Lemma typed_limits (l : Limits) :
  forallb (fun z => z <=? maxInt64) [MaxUSD l; MaxTokens l; MaxModelCalls l; MaxWallTimeMS l;
    MaxRetries l; MaxSubagents l] = true -> limits_typed l.
Proof.
  simpl. rewrite !andb_true_iff, !Z.leb_le. intros H. destruct_and!.
  split; [|done]. by intros [].
Qed.

Lemma typed_usage (u : Usage) :
  forallb (fun z => (minInt64 <=? z) && (z <=? maxInt64)) [UsedUSD u; UsedTokens u;
    UsedModelCalls u; UsedWallTimeMS u; UsedRetries u; UsedSubagents u] = true -> usage_typed u.
Proof.
  simpl. rewrite !andb_true_iff, !Z.leb_le. intros H. destruct_and!.
  split; [|done]. by intros [].
Qed.

Lemma opened_moves : budget_moves everyone budget0 budget_opened.
Proof. apply rtc_once, (BudgetMoveCall everyone budget0 open_call), typed_limits. done. Qed.

Lemma shared_moves : budget_moves everyone budget0 budget_shared.
Proof.
  etransitivity; [apply opened_moves|].
  apply rtc_once, (BudgetMoveCall everyone budget_opened share_call). simpl.
  intros l [= <-]. by apply typed_limits.
Qed.

Lemma charged_tree_moves : budget_moves everyone budget_shared budget_charged.
Proof.
  eapply rtc_l; [apply (BudgetMoveCall everyone budget_shared (CallConsume 1 7 (one_call 500 50)))|];
    [by apply typed_usage|].
  apply rtc_once.
  apply (BudgetMoveCall everyone (snd (budget_serve everyone (CallConsume 1 7 (one_call 500 50))
    budget_shared)) (CallConsume 2 8 (one_call 300 20))). by apply typed_usage.
Qed.

Lemma budget_moves_to_charged : budget_moves everyone budget0 budget_charged.
Proof. etransitivity; [apply shared_moves|apply charged_tree_moves]. Qed.

(** ** Properties *)

(** C19: every method of the budget store, on every branch and from every
    reachable state, takes the tables by steps of the abstract budget tree, and
    the state it leaves satisfies the tree's invariant: usage is what the events
    add up to and within the limits, references are booked once, and what the
    budgets of a tree handed down is what their children may spend. *)
Theorem budget_calls_refine (organizations : string -> bool) (c : BudgetCall)
    (w0 w : SpendWorld) :
  no_budgets w0 -> budget_moves organizations w0 w -> call_typed c (sw_db w) ->
  budget_steps (sw_db w) (sw_db (snd (budget_serve organizations c w)))
  /\ budget_inv (sw_db (snd (budget_serve organizations c w))).
Proof.
  intros H0 Hm Hc. pose proof (budget_moves_inv _ _ _ Hm (no_budgets_inv w0 H0)) as Hinv.
  assert (Hs := budget_calls_refine_steps organizations c w Hinv Hc).
  split; [done|by eapply budget_steps_inv].
Qed.

(** C14: whatever is shared and handed down below a root budget, the model calls
    of all the tasks of its tree together never spend more dollars, tokens,
    calls, time or retries than the limits the root was created with. *)
Theorem trees_never_overspend (organizations : string -> bool) (r id : Z) (b : Budget)
    (w0 w w' : SpendWorld) :
  no_budgets w0 -> budget_moves organizations w0 w -> tree_root r id b (sw_db w) ->
  budget_moves organizations w w' ->
  (forall k, tree_spend k r (sw_db w') <= cap k (budget_Limits b))
  /\ forall i c, sp_budgets (sw_db w') !! i = Some c ->
       (forall k, used k (budget_Usage c) = booked_on k i (sp_budget_events (sw_db w'))
                  /\ 0 <= used k (budget_Usage c) <= cap k (budget_Limits c)).
Proof.
  intros H0 Hm (Hb & Hp & Hr) Hm'.
  pose proof (budget_moves_inv _ _ _ Hm (no_budgets_inv w0 H0)) as Hinv.
  pose proof (budget_moves_inv _ _ _ Hm' Hinv) as Hinv'.
  destruct (budget_moves_kept _ _ _ Hm' Hinv id b Hb) as (b' & Hb' & Hid & Hroot & _ & Hpar & Hl).
  split.
  - intros k. rewrite <- Hl. apply (tree_spend_le k r id b'); [done|].
    split_and!; [done|by rewrite Hpar|by rewrite Hroot].
  - intros i c Hc k. destruct Hinv' as [Hinv' _]. split; [by apply (bi_booked _ Hinv')|].
    apply (br_used i c (bi_rows _ Hinv' i c Hc)).
Qed.

(** A budget call that succeeded can be sent again: creating the same root,
    inheriting for the same child, charging or settling the same invocation,
    whatever amount the retry carries, succeeds and changes nothing. *)
Lemma budget_retries_change_nothing (organizations : string -> bool) (c : BudgetCall)
    (w0 w w' : SpendWorld) :
  no_budgets w0 -> budget_moves organizations w0 w -> call_typed c (sw_db w) ->
  budget_serve organizations c w = (Ok tt, w') ->
  repeats (budget_serve organizations c) w'
  /\ forall amount, match c with
       | CallConsume b i _ => repeats (ConsumeModelCall b i amount) w'
       | CallSettle b i _ => repeats (SettleModelCall b i amount) w'
       | _ => True
       end.
Proof.
  intros H0 Hm Hc H. pose proof (budget_moves_inv _ _ _ Hm (no_budgets_inv w0 H0)) as Hinv.
  split; [|intros amount]; destruct c; simpl in *; try done.
  - by eapply create_root_repeats.
  - by eapply inherit_repeats.
  - by eapply consume_repeats.
  - by eapply settle_repeats.
  - by eapply consume_repeats.
  - by eapply settle_repeats.
Qed.

(** [Reserve] on int64 amounts is exact and all or nothing: it grants the
    sum of the usage and the request in every dimension if the request is not
    negative and the sums are within the limits, and refuses every other request;
    no sum wraps around. *)
Lemma reservation_is_exact (u delta : Usage) (l : Limits) :
  usage_stored u -> usage_typed delta -> limits_typed l ->
  (forall n, ReserveUsage u delta l = Ok n
     <-> not_negative delta /\ within (usage_plus u delta) l /\ n = usage_plus u delta)
  /\ (forall e, ReserveUsage u delta l = Err e ->
        e = ErrInvalidBudgetRequest \/ e = ErrBudgetExceeded).
Proof.
  intros Hu Hd Hl. split; [intros n; by apply ReserveUsage_ok|].
  intros e. unfold ReserveUsage, rejectIf. repeat (case_match; simpl; try naive_solver).
Qed.

(** A settlement that would take the usage above a ceiling is refused by the
    CHECK constraints and rolled back: the usage keeps the estimate and the real
    cost is not recorded. *)
Lemma overruns_are_not_recorded (organizations : string -> bool) (id ref : Z) (b : Budget)
    (charge : BudgetEvent) (actual : Usage) (w0 w : SpendWorld) :
  no_budgets w0 -> budget_moves organizations w0 w -> sp_budgets (sw_db w) !! id = Some b ->
  find_budget_event id BudgetConsumed ref (sp_budget_events (sw_db w)) = Some charge ->
  find_budget_event id BudgetReconciled ref (sp_budget_events (sw_db w)) = None ->
  actual_fits id ref actual (sw_db w) ->
  MaxUSD (budget_Limits b) < UsedUSD (budget_Usage b) - UsedUSD (bevent_Delta charge) + UsedUSD actual
  \/ MaxTokens (budget_Limits b)
     < UsedTokens (budget_Usage b) - UsedTokens (bevent_Delta charge) + UsedTokens actual ->
  exists e, fst (SettleModelCall id ref actual w) = Err e
    /\ sw_db (snd (SettleModelCall id ref actual w)) = sw_db w.
Proof.
  intros H0 Hm Hb Hc Hr Hfit Hover.
  pose proof (budget_moves_inv _ _ _ Hm (no_budgets_inv w0 H0)) as Hinv.
  destruct (SettleModelCall id ref actual w) as [[u|e] w'] eqn:Hs; simpl.
  - exfalso. apply settle_call_result in Hs as (b' & Hb' & [[[?|?] _]|H]); [congruence..| |done|done].
    destruct H as (c & Hc' & _ & Hck & _). rewrite Hb in Hb'. rewrite Hc in Hc'.
    injection Hb' as <-. injection Hc' as <-.
    apply budget_check_bounds in Hck as (_ & Hk & _).
    pose proof (Hk DimUSD) as Hk1. pose proof (Hk DimTokens) as Hk2. simpl in Hk1, Hk2. lia.
  - exists e. split; [done|]. by eapply atomically_err.
Qed.

(** ** Witnesses *)

Lemma budget_calls_refine_witness :
  fst (budget_serve everyone share_call budget_opened) = Ok tt
  /\ budget_inv (sw_db (snd (budget_serve everyone share_call budget_opened))).
Proof.
  split; [vm_compute; reflexivity|].
  apply (budget_calls_refine everyone share_call budget0 budget_opened budget0_empty opened_moves).
  intros l [= <-]. by apply typed_limits.
Defined.

Lemma trees_never_overspend_witness :
  tree_spend DimUSD 1 (sw_db budget_charged) = 800
  /\ tree_spend DimUSD 1 (sw_db budget_charged) <= 1000.
Proof.
  split; [vm_compute; reflexivity|].
  refine (proj1 (trees_never_overspend everyone 1 1
    (mkBudget 1 "acme" 1 1 "eng" None demo_limits (mkUsage 400 100 4 20000 2 1 1) 2)
    budget0 budget_shared budget_charged budget0_empty shared_moves _ charged_tree_moves) DimUSD).
  split_and!; [vm_compute; reflexivity|reflexivity|reflexivity].
Defined.

Lemma budget_retries_change_nothing_witness :
  fst (budget_serve everyone share_call budget_opened) = Ok tt
  /\ repeats (budget_serve everyone share_call) budget_shared.
Proof.
  split; [vm_compute; reflexivity|].
  refine (proj1 (budget_retries_change_nothing everyone share_call budget0 budget_opened
    budget_shared budget0_empty opened_moves _ _)); [|vm_compute; reflexivity].
  intros l [= <-]. by apply typed_limits.
Defined.

Lemma reservation_is_exact_witness :
  ReserveUsage (one_call 500 50) (one_call 500 450) demo_limits
  = Ok (usage_plus (one_call 500 50) (one_call 500 450)).
Proof.
  apply (proj1 (reservation_is_exact (one_call 500 50) (one_call 500 450) demo_limits
    ltac:(split; [intros []|]; vm_compute; split; congruence)
    (typed_usage (one_call 500 450) eq_refl) (typed_limits demo_limits eq_refl))).
  split_and!; [| |reflexivity]; (split; [intros []|]; vm_compute; split; congruence) ||
    (split; [intros []; vm_compute; congruence|split; vm_compute; congruence]).
Defined.

Lemma overruns_are_not_recorded_witness :
  exists e, fst (SettleModelCall 1 7 (one_call 700 50) budget_charged) = Err e
    /\ sw_db (snd (SettleModelCall 1 7 (one_call 700 50) budget_charged)) = sw_db budget_charged.
Proof.
  pose (b := mkBudget 1 "acme" 1 1 "eng" None demo_limits (mkUsage 900 150 5 20100 2 1 1) 3).
  assert (Hb : sp_budgets (sw_db budget_charged) !! 1 = Some b) by (vm_compute; reflexivity).
  apply (overruns_are_not_recorded everyone 1 7 b
    (mkBudgetEvent 1 BudgetConsumed 7 (one_call 500 50)) (one_call 700 50)
    budget0 budget_charged budget0_empty budget_moves_to_charged Hb).
  - vm_compute. reflexivity.
  - vm_compute. reflexivity.
  - split; [done|]. split; [done|]. intros b' c Hb' Hc. rewrite Hb in Hb'. injection Hb' as <-.
    assert (Hc' : find_budget_event 1 BudgetConsumed 7 (sp_budget_events (sw_db budget_charged))
      = Some (mkBudgetEvent 1 BudgetConsumed 7 (one_call 500 50))) by (vm_compute; reflexivity).
    rewrite Hc' in Hc. injection Hc as <-. split; vm_compute; congruence.
  - left. reflexivity.
Defined.
