(* ===== verification/ProgramBudget.v ===== *)
(** * Program budgets

    internal/programbudget/policy.go: which program governs a task, and which
    family of models a call of the program is charged to.  [Decode] stands for
    encoding/json; [GetTask] and [ListTasks] are the task reader. *)

From stdpp Require Import base tactics list strings pretty.
From Stdlib Require Import ZArith Lia.
From S2P Require Import Prelude GoLib TaskDomain StoreHelpers SpendDB.

Local Open Scope Z_scope.

Definition SchemaVersion : string := "program-model-budget/v1".
Definition TaskClassOwnerGoal : string := "owner.goal".

Record Family : Type := mkFamily {
  family_Key : string;
  family_ProviderIDs : list string;
  family_ModelIDs : list string;
  family_MaxUSD : USDNanos;
  family_Unavailable : bool }.

Record Policy : Type := mkPolicy {
  policy_SchemaVersion : string;
  policy_ProgramRootTaskID : Z;
  policy_Families : list Family }.

Record Scope : Type := mkScope {
  scope_ProgramRootTaskID : Z;
  scope_CorrelationID : string;
  scope_Family : Family }.

Definition no_family : Family := mkFamily EmptyString [] [] 0 false.
Definition no_policy : Policy := mkPolicy EmptyString 0 [].
Definition no_scope : Scope := mkScope 0 EmptyString no_family.

(** ** Validation *)

(** The loop over the families; [seen] is the map of the keys met. *)
Fixpoint validate_families (seen : list string) (l : list Family) : result SpendError unit :=
  match l with
  | [] => Ok tt
  | f :: rest =>
      check? rejectIf (is_empty (TrimSpace (family_Key f)) || (family_MaxUSD f <=? 0)
                       || bool_decide (family_Key f ∈ seen)) ErrProgramPolicy in
      let seen := family_Key f :: seen in
      if family_Unavailable f then validate_families seen rest
      else
        check? rejectIf (Nat.eqb (length (family_ProviderIDs f)) 0
                         || Nat.eqb (length (family_ModelIDs f)) 0) ErrProgramPolicy in
        check? rejectIf (negb (Nat.eqb (length (family_ProviderIDs f)) 1)) ErrProgramPolicy in
        validate_families seen rest
  end.

Definition PolicyValidate (p : Policy) : result SpendError unit :=
  check? rejectIf (negb (bool_decide (policy_SchemaVersion p = SchemaVersion))
                   || (policy_ProgramRootTaskID p <=? 0)
                   || Nat.eqb (length (policy_Families p)) 0) ErrProgramPolicy in
  validate_families [] (policy_Families p).

(** ** The root of a campaign *)

(** [campaignRoot]; [None] is [(0, false)]. *)
Fixpoint campaignRoot_from (found : option Z) (items : list Task) : option Z :=
  match items with
  | [] => found
  | item :: rest =>
      if bool_decide (task_TaskClass item = TaskClassOwnerGoal) then
        match found with
        | Some _ => None
        | None => campaignRoot_from (Some (task_ID item)) rest
        end
      else campaignRoot_from found rest
  end.

Definition campaignRoot (items : list Task) : option Z := campaignRoot_from None items.

Definition no_causation (t : Task) : bool :=
  match task_CausationID t with
  | None => true
  | Some c => is_empty (TrimSpace c)
  end.

(** The heuristic for the correlations without a root. *)
Fixpoint fallback_root (root : Z) (items : list Task) : Z :=
  match items with
  | [] => root
  | t :: rest =>
      if no_causation t then task_ID t
      else fallback_root (if task_ID t <? root then task_ID t else root) rest
  end.

Section Resolver.
Context (Decode : list (string * JSON) -> option Policy).
Context (GetTask : Z -> result Error TaskDetail).
Context (ListTasks : TaskFilter -> result Error (list Task)).

Definition from_tasks {A} (r : result Error A) : result SpendError A :=
  match r with Ok a => Ok a | Err e => Err (ErrTaskStore e) end.

Definition policy_reference (root : Z) : string :=
  String.append "program-model-budget://" (FormatInt root).

(** The loop over the evidence of the root. *)
Fixpoint find_policy (root : Z) (found : option Policy) (l : list Evidence)
    : result SpendError (option Policy) :=
  match l with
  | [] => Ok found
  | ev :: rest =>
      if negb (bool_decide (evidence_Reference ev = policy_reference root))
      then find_policy root found rest
      else
        match Decode (evidence_Metadata ev) with
        | None => Err ErrProgramPolicy
        | Some p =>
            match PolicyValidate p, found with
            | Err _, _ => Err ErrProgramPolicy
            | Ok _, Some _ => Err ErrProgramPolicy
            | Ok _, None => find_policy root (Some p) rest
            end
        end
  end.

Definition Resolver_Policy (root : Z) : result SpendError Policy :=
  check? rejectIf (root <=? 0) ErrProgramPolicy in
  let? d := from_tasks (GetTask root) in
  let? found := find_policy root None (detail_Evidence d) in
  Ok (default no_policy found).

Definition Program (taskID : Z) : result SpendError (Z * string * Policy) :=
  let? d := from_tasks (GetTask taskID) in
  let task := detail_Task d in
  match task_CorrelationID task with
  | None => Ok (0, EmptyString, no_policy)
  | Some correlation =>
      if is_empty (TrimSpace correlation) then Ok (0, EmptyString, no_policy)
      else
        let? items := from_tasks (ListTasks
          (mkTaskFilter (task_OrganizationID task) [] EmptyString EmptyString correlation 1000 0)) in
        let root := match campaignRoot items with
          | Some root => root
          | None => fallback_root (task_ID task) items
          end in
        let? found := Resolver_Policy root in
        if is_empty (policy_SchemaVersion found) then Ok (root, correlation, no_policy)
        else
          check? rejectIf (negb (policy_ProgramRootTaskID found =? root)) ErrProgramPolicy in
          Ok (root, correlation, found)
  end.

(** The loops over the families, their providers and their models. *)
Definition routes (provider model : string) (f : Family) : bool :=
  negb (family_Unavailable f)
  && existsb (fun pr => existsb (fun mo => bool_decide (pr = provider) && bool_decide (mo = model))
                          (family_ModelIDs f)) (family_ProviderIDs f).

Definition Program_Resolve (taskID : Z) (provider model : string) : result SpendError Scope :=
  let? r := Program taskID in
  let '(root, correlation, found) := r in
  if is_empty correlation || is_empty (policy_SchemaVersion found) then Ok no_scope
  else
    match head (filter (fun f => routes provider model f = true) (policy_Families found)) with
    | Some f => Ok (mkScope root correlation f)
    | None => Err ErrProgramPolicy
    end.

End Resolver.

(** ** Properties of program budgets

    Which policy a model call is held to, and what happens to a correlation
    with two owner goals. *)


(** ** The root *)

Definition owner_goal (t : Task) : bool := bool_decide (task_TaskClass t = TaskClassOwnerGoal).
Definition owner_goals (items : list Task) : list Task := filter (fun t => owner_goal t = true) items.

Lemma campaignRoot_from_spec (found : option Z) (items : list Task) :
  campaignRoot_from found items
  = match found, owner_goals items with
    | None, [] => None
    | None, [t] => Some (task_ID t)
    | Some r, [] => Some r
    | _, _ => None
    end.
Proof.
  unfold owner_goals. revert found. induction items as [|t items IH]; intros found; simpl.
  - by destruct found.
  - change (bool_decide (task_TaskClass t = TaskClassOwnerGoal)) with (owner_goal t).
    destruct (owner_goal t) eqn:Ht.
    + rewrite filter_cons_True by done. destruct found as [r|]; [by destruct (filter _ items)|].
      rewrite IH. by destruct (filter _ items).
    + rewrite filter_cons_False by (by rewrite Ht). apply IH.
Qed.

(** [campaignRoot] finds the owner goal when there is exactly one. *)
Lemma campaignRoot_spec (items : list Task) :
  campaignRoot items = match owner_goals items with [t] => Some (task_ID t) | _ => None end.
Proof. unfold campaignRoot. rewrite campaignRoot_from_spec. by destruct (owner_goals items) as [|? []]. Qed.

(** When every task names its cause, the fallback takes the least id. *)
Lemma fallback_root_least (root : Z) (items : list Task) (t : Task) :
  (forall x, x ∈ items -> no_causation x = false /\ task_ID t <= task_ID x) -> t ∈ items ->
  task_ID t <= root -> fallback_root root items = task_ID t.
Proof.
  revert root. induction items as [|x items IH]; intros root Hall Hin Hle;
    [by apply not_elem_of_nil in Hin|].
  simpl. destruct (Hall x ltac:(left)) as [-> Hx]. apply elem_of_cons in Hin as [<-|Hin].
  - assert (Hc : (if task_ID t <? root then task_ID t else root) = task_ID t) by (case_match; lia).
    rewrite Hc. clear Hc. assert (Hall' : forall x, x ∈ items -> no_causation x = false
      /\ task_ID t <= task_ID x) by (intros; apply Hall; by right). clear -Hall'.
    induction items as [|y items IH]; [done|]. simpl. destruct (Hall' y ltac:(left)) as [-> Hy].
    assert (Hc : (if task_ID y <? task_ID t then task_ID y else task_ID t) = task_ID t)
      by (case_match; lia).
    rewrite Hc. apply IH. intros z Hz. apply Hall'. by right.
  - apply IH; [intros; apply Hall; by right|done|]. case_match; lia.
Qed.

(** ** Policies *)

Section Resolver.
Context (Decode : list (string * JSON) -> option Policy).
Context (GetTask : Z -> result Error TaskDetail).
Context (ListTasks : TaskFilter -> result Error (list Task)).

(** The evidence of a root that carries its policy. *)
Definition policy_evidence (root : Z) (l : list Evidence) : list Evidence :=
  filter (fun ev => evidence_Reference ev = policy_reference root) l.

(** Exactly one such evidence, with a valid policy, or none. *)
Lemma find_policy_ok (root : Z) (found o : option Policy) (l : list Evidence) :
  find_policy Decode root found l = Ok o ->
  match o with
  | None => found = None /\ policy_evidence root l = []
  | Some p => (found = Some p /\ policy_evidence root l = [])
      \/ exists ev, found = None /\ policy_evidence root l = [ev]
           /\ Decode (evidence_Metadata ev) = Some p /\ PolicyValidate p = Ok tt
  end.
Proof.
  unfold policy_evidence. revert found. induction l as [|ev l IH]; intros found H; simpl in H.
  - injection H as <-. destruct found; simpl; auto.
  - rewrite filter_cons. destruct (decide (evidence_Reference ev = policy_reference root)) as [He|He].
    + rewrite bool_decide_true in H by done. simpl in H.
      destruct (Decode (evidence_Metadata ev)) as [p|] eqn:Hd; [|done].
      destruct (PolicyValidate p) as [[]|] eqn:Hv; [|done]. destruct found; [done|].
      apply IH in H. destruct o as [q|]; [|naive_solver].
      destruct H as [[Hq Hl]|(ev' & ? & _)]; [|done]. injection Hq as <-. right. exists ev.
      by rewrite Hl.
    + rewrite bool_decide_false in H by done. simpl in H. by apply IH in H.
Qed.

Lemma validate_families_in (seen : list string) (l : list Family) (u : unit) (f : Family) :
  validate_families seen l = Ok u -> f ∈ l ->
  0 < family_MaxUSD f
  /\ (family_Unavailable f = false -> length (family_ProviderIDs f) = 1%nat).
Proof.
  revert seen. induction l as [|g l IH]; intros seen H Hin; [by apply not_elem_of_nil in Hin|].
  simpl in H. apply check_ok_bind in H as [H1 H]. apply rejectIf_ok in H1.
  rewrite !orb_false_iff, Z.leb_gt in H1. destruct H1 as [[_ H1] _].
  destruct (family_Unavailable g) eqn:Hg.
  - apply elem_of_cons in Hin as [->|Hin]; [split; [done|congruence]|by eapply IH].
  - apply check_ok_bind in H as [_ H]. apply check_ok_bind in H as [H2 H].
    apply rejectIf_ok in H2. rewrite negb_false_iff, Nat.eqb_eq in H2.
    apply elem_of_cons in Hin as [->|Hin]; [by split|by eapply IH].
Qed.

Lemma PolicyValidate_ok (p : Policy) (u : unit) :
  PolicyValidate p = Ok u ->
  policy_SchemaVersion p = SchemaVersion
  /\ forall f, f ∈ policy_Families p -> 0 < family_MaxUSD f
       /\ (family_Unavailable f = false -> length (family_ProviderIDs f) = 1%nat).
Proof.
  unfold PolicyValidate. rewrite check_ok_bind. intros [H1 H]. apply rejectIf_ok in H1.
  rewrite !orb_false_iff, negb_false_iff, bool_decide_eq_true in H1. destruct H1 as [[H1 _] _].
  split; [done|]. intros f. by eapply validate_families_in.
Qed.

Lemma routes_spec (provider model : string) (f : Family) :
  routes provider model f = true
  <-> family_Unavailable f = false /\ provider ∈ family_ProviderIDs f /\ model ∈ family_ModelIDs f.
Proof.
  unfold routes. rewrite andb_true_iff, negb_true_iff. apply and_iff_compat_l.
  rewrite existsb_exists. split.
  - intros (pr & Hp & Hm). apply existsb_exists in Hm as (mo & Hm & Heq).
    rewrite andb_true_iff, !bool_decide_eq_true in Heq. destruct Heq as [-> ->].
    by rewrite !list_elem_of_In.
  - rewrite !list_elem_of_In. intros [Hp Hm]. exists provider. split; [done|].
    apply existsb_exists. exists model. split; [done|]. by rewrite !bool_decide_true.
Qed.

(** What governs the task: its correlation, its root, the root's policy. *)
Definition governed (taskID root : Z) (correlation : string) (policy : Policy) : Prop :=
  exists d items rd ev, GetTask taskID = Ok d
    /\ task_CorrelationID (detail_Task d) = Some correlation
    /\ ListTasks (mkTaskFilter (task_OrganizationID (detail_Task d)) [] EmptyString EmptyString
                    correlation 1000 0) = Ok items
    /\ root = match owner_goals items with
              | [t] => task_ID t
              | _ => fallback_root (task_ID (detail_Task d)) items
              end
    /\ GetTask root = Ok rd /\ policy_evidence root (detail_Evidence rd) = [ev]
    /\ Decode (evidence_Metadata ev) = Some policy /\ PolicyValidate policy = Ok tt
    /\ policy_ProgramRootTaskID policy = root.

(** The task is outside every program: no correlation, or no policy. *)
Definition ungoverned (taskID : Z) : Prop :=
  exists d, GetTask taskID = Ok d /\
  (match task_CorrelationID (detail_Task d) with
   | None => True
   | Some c => is_empty (TrimSpace c) = true
   end
   \/ exists correlation items root rd, task_CorrelationID (detail_Task d) = Some correlation
        /\ ListTasks (mkTaskFilter (task_OrganizationID (detail_Task d)) [] EmptyString EmptyString
                    correlation 1000 0) = Ok items
        /\ root = match owner_goals items with
                  | [t] => task_ID t
                  | _ => fallback_root (task_ID (detail_Task d)) items
                  end
        /\ GetTask root = Ok rd /\ policy_evidence root (detail_Evidence rd) = []).

Lemma from_tasks_ok {A} (r : result Error A) (a : A) : from_tasks r = Ok a <-> r = Ok a.
Proof. destruct r; simpl; naive_solver. Qed.

Lemma Resolver_Policy_ok (root : Z) (p : Policy) :
  Resolver_Policy Decode GetTask root = Ok p ->
  exists rd, GetTask root = Ok rd /\
  ((p = no_policy /\ policy_evidence root (detail_Evidence rd) = [])
   \/ exists ev, policy_evidence root (detail_Evidence rd) = [ev]
        /\ Decode (evidence_Metadata ev) = Some p /\ PolicyValidate p = Ok tt).
Proof.
  unfold Resolver_Policy. rewrite check_ok_bind. intros [_ H].
  apply rbind_ok in H as (rd & Hrd & H). rewrite from_tasks_ok in Hrd.
  apply rbind_ok in H as (o & Ho & H). injection H as <-. exists rd. split; [done|].
  apply find_policy_ok in Ho. destruct o as [q|]; simpl.
  - destruct Ho as [[? _]|(ev & _ & Hev)]; [done|]. right. by exists ev.
  - left. by destruct Ho.
Qed.

Lemma Program_ok (taskID root : Z) (correlation : string) (p : Policy) :
  Program Decode GetTask ListTasks taskID = Ok (root, correlation, p) ->
  (is_empty correlation || is_empty (policy_SchemaVersion p) = true /\ ungoverned taskID)
  \/ (is_empty (policy_SchemaVersion p) = false /\ is_empty (TrimSpace correlation) = false
      /\ governed taskID root correlation p).
Proof.
  unfold Program. intros H. apply rbind_ok in H as (d & Hd & H). rewrite from_tasks_ok in Hd.
  destruct (task_CorrelationID (detail_Task d)) as [c|] eqn:Hc.
  2:{ injection H as <- <- <-. left. split; [done|]. exists d. split; [done|left]. by rewrite Hc. }
  destruct (is_empty (TrimSpace c)) eqn:Hblank.
  { injection H as <- <- <-. left. split; [done|]. exists d. split; [done|left]. by rewrite Hc. }
  apply rbind_ok in H as (items & Hi & H). rewrite from_tasks_ok in Hi.
  set (r := match campaignRoot items with Some root => root
            | None => fallback_root (task_ID (detail_Task d)) items end) in H.
  assert (Hr : r = match owner_goals items with [t] => task_ID t
                   | _ => fallback_root (task_ID (detail_Task d)) items end).
  { unfold r. rewrite campaignRoot_spec. by destruct (owner_goals items) as [|? []]. }
  apply rbind_ok in H as (found & Hf & H).
  apply Resolver_Policy_ok in Hf as (rd & Hrd & [[-> Hev]|(ev & Hev & Hdec & Hv)]).
  - simpl in H. injection H as <- <- <-. left. split; [by rewrite orb_true_r|].
    exists d. split; [done|right]. by exists c, items, r, rd.
  - pose proof (proj1 (PolicyValidate_ok found tt Hv)) as Hsv. rewrite Hsv in H. simpl in H.
    apply check_ok_bind in H as [H1 H]. injection H as <- <- <-. right.
    rewrite Hsv. split; [done|]. split; [done|].
    apply rejectIf_ok in H1. rewrite negb_false_iff, Z.eqb_eq in H1.
    by exists d, items, rd, ev.
Qed.

(** A scope is resolved from the one valid policy on the root of the task's program - the task
    that declares itself the owner goal of the correlation when exactly one does - and names a family
    of that policy that is available, routes the model through its one provider, and has a ceiling
    above zero; a task of a program whose policy routes no such model is refused, and only a task
    without a program is left without a scope. *)
Lemma program_scope_is_authorized (taskID : Z) (provider model : string) :
  match Program_Resolve Decode GetTask ListTasks taskID provider model with
  | Ok s =>
      s = no_scope /\ ungoverned taskID
      \/ exists policy, governed taskID (scope_ProgramRootTaskID s) (scope_CorrelationID s) policy
           /\ let f := scope_Family s in
              f ∈ policy_Families policy /\ family_Unavailable f = false
              /\ family_ProviderIDs f = [provider] /\ model ∈ family_ModelIDs f
              /\ 0 < family_MaxUSD f
  | Err _ => forall root correlation policy f,
      Program Decode GetTask ListTasks taskID = Ok (root, correlation, policy) ->
      f ∈ policy_Families policy -> routes provider model f = false
  end.
Proof.
  unfold Program_Resolve.
  destruct (Program Decode GetTask ListTasks taskID) as [[[root c] p]|e] eqn:Hp; simpl; [|done].
  destruct (is_empty c || is_empty (policy_SchemaVersion p)) eqn:Hn.
  - left. split; [done|]. apply Program_ok in Hp as [[_ ?]|(Hs & Hb & _)]; [done|].
    rewrite Hs, orb_false_r in Hn. by destruct c.
  - apply Program_ok in Hp as [[? _]|(Hs & Hb & Hg)]; [congruence|].
    pose proof Hg as (_ & _ & _ & _ & _ & _ & _ & _ & _ & _ & _ & Hv & _).
    apply PolicyValidate_ok in Hv as [_ Hf].
    destruct (filter _ (policy_Families p)) as [|f fs] eqn:Hfil; simpl.
    + intros r' c' p' f [= <- <- <-] Hin. apply not_true_iff_false. intros Hrt.
      assert (Hin' : f ∈ filter (fun f => routes provider model f = true) (policy_Families p))
        by by apply list_elem_of_filter.
      rewrite Hfil in Hin'. by apply not_elem_of_nil in Hin'.
    + right. exists p. split; [done|]. simpl.
      assert (Hin : f ∈ filter (fun f => routes provider model f = true) (policy_Families p))
        by (rewrite Hfil; left).
      apply list_elem_of_filter in Hin as [Hrt Hin]. apply routes_spec in Hrt as (Hu & Hpr & Hm).
      destruct (Hf f Hin) as [Hmax Hone]. split_and!; try done. specialize (Hone Hu).
      destruct (family_ProviderIDs f) as [|q [|]]; try done.
      by apply list_elem_of_singleton in Hpr as ->.
Qed.

(** Two owner goals in one correlation are not refused: the heuristic of the old correlations picks
    the one with the least id, and its policy governs the whole program. *)
Lemma ambiguous_roots_are_guessed (d : TaskDetail) (correlation : string) (items : list Task)
    (o1 o2 : Task) :
  GetTask (task_ID (detail_Task d)) = Ok d ->
  task_CorrelationID (detail_Task d) = Some correlation -> is_empty (TrimSpace correlation) = false ->
  ListTasks (mkTaskFilter (task_OrganizationID (detail_Task d)) [] EmptyString EmptyString
               correlation 1000 0) = Ok items ->
  owner_goals items = [o1; o2] -> task_ID o1 <= task_ID (detail_Task d) ->
  (forall t, t ∈ items -> no_causation t = false /\ task_ID o1 <= task_ID t) ->
  campaignRoot items = None
  /\ forall root c p, Program Decode GetTask ListTasks (task_ID (detail_Task d)) = Ok (root, c, p) ->
       root = task_ID o1 /\ c = correlation.
Proof.
  intros Hd Hc Hb Hi Ho Hle Hall.
  assert (Hroot : campaignRoot items = None) by by rewrite campaignRoot_spec, Ho.
  split; [done|]. intros root c p H. unfold Program in H.
  apply rbind_ok in H as (d' & Hd' & H). rewrite from_tasks_ok, Hd in Hd'. injection Hd' as <-.
  rewrite Hc, Hb in H. apply rbind_ok in H as (items' & Hi' & H). rewrite from_tasks_ok, Hi in Hi'.
  injection Hi' as <-. rewrite Hroot in H.
  assert (Hin : o1 ∈ owner_goals items) by (rewrite Ho; left).
  apply list_elem_of_filter in Hin as [_ Hin].
  rewrite (fallback_root_least _ items o1 Hall Hin Hle) in H.
  apply rbind_ok in H as (found & _ & H). destruct (is_empty (policy_SchemaVersion found)).
  - by injection H as <- <- <-.
  - apply check_ok_bind in H as [_ H]. by injection H as <- <- <-.
Qed.

End Resolver.

(** Two owner goals and a mission of one correlation. *)
Definition goal_task (id : Z) (class cause : string) : Task :=
  mkTask id "acme" 1 None "eng" "unit" class "k" "h" "t" "i" [] StatusReady 0 0 3 0 1
    (Some "executive:cccc"%string) (Some cause) None None 0 0 None.

Definition first_goal : Task := goal_task 10 "owner.goal" "owner:one".
Definition second_goal : Task := goal_task 20 "owner.goal" "owner:two".
Definition mission_task : Task := goal_task 30 "general.work" "task:10".

Definition goal_policy : Policy :=
  mkPolicy SchemaVersion 10 [mkFamily "pro" ["gemini"%string] ["pro"%string] 5000000 false].

Definition goal_evidence : Evidence :=
  mkEvidence 1 10 None RequirementArtifact "program-model-budget://10" None "owner" [] 0.

Definition goal_detail (id : Z) : result Error TaskDetail :=
  Ok (mkTaskDetail (if id =? 10 then first_goal else mission_task) [] []
        (if id =? 10 then [goal_evidence] else []) [] None).

Lemma ambiguous_roots_are_guessed_witness :
  Program (fun _ => Some goal_policy) goal_detail (fun _ => Ok [first_goal; second_goal; mission_task])
    30 = Ok (10, "executive:cccc"%string, goal_policy)
  /\ campaignRoot [first_goal; second_goal; mission_task] = None.
Proof.
  split; [vm_compute; reflexivity|].
  refine (proj1 (ambiguous_roots_are_guessed (fun _ => Some goal_policy) goal_detail
    (fun _ => Ok [first_goal; second_goal; mission_task])
    (mkTaskDetail mission_task [] [] [] [] None) "executive:cccc"
    [first_goal; second_goal; mission_task] first_goal second_goal _ _ _ _ _ _ _)).
  - vm_compute. reflexivity.
  - reflexivity.
  - vm_compute. reflexivity.
  - reflexivity.
  - vm_compute. reflexivity.
  - vm_compute. congruence.
  - intros t Ht. rewrite !elem_of_cons in Ht. destruct Ht as [->|[->|[->|Ht]]];
      [split; vm_compute; congruence..|by apply not_elem_of_nil in Ht].
Defined.
