(* ===== verification/CostGate.v ===== *)
(** * The cost gate

    internal/modelruntime/costgate/gate.go: what a model call must reserve
    before it is sent and how it is settled, over the pricing, the cost ledger,
    the agent budgets and the program policies.  [subscribed] says which
    providers are billed by subscription, [programResolver] is the optional
    resolver, already evaluated on the tasks.  A wrapped error is the error it
    wraps; the ledger is the store of CostLedger.v, which has the optional
    capabilities. *)

From stdpp Require Import base tactics list strings gmap sorting.
From Stdlib Require Import ZArith Lia.
From S2P Require Import Prelude GoLib TaskDomain Database SpendDB Pricing CostLedger LedgerSpec.
From S2P Require Import LedgerRefine LedgerProps AgentBudget BudgetSpec BudgetRefine.
From S2P Require Import BudgetProps ProgramBudget.

Local Open Scope Z_scope.

(** ** Requests *)

Record ReservationEstimateRequest : Type := mkEstimateRequest {
  ereq_ProviderID : string;
  ereq_ProviderModelID : string;
  ereq_EstimatedInputTokens : Z;
  ereq_MaxOutputTokens : Z }.

Record ReservationEstimate : Type := mkEstimate {
  est_USDNanos : Z;
  est_Tokens : Z;
  est_Subscription : bool;
  est_PriceTier : string }.

Record CostReservationRequest : Type := mkReservationRequest {
  creq_OrganizationID : string;
  creq_TaskID : Z;
  creq_InvocationID : Z;
  creq_ProviderID : string;
  creq_ProviderModelID : string;
  creq_EstimatedInputTokens : Z;
  creq_MaxOutputTokens : Z }.

Record CostReservation : Type := mkCostReservation {
  res_ProviderID : string;
  res_ProviderModelID : string;
  res_InvocationID : Z;
  res_BudgetID : Z;
  res_WalletApplied : bool;
  res_BudgetApplied : bool;
  res_Subscription : bool }.

(** [if err := m; err != nil { ... }] *)
Definition catch {A} (m : Spend A) (h : SpendError -> Spend A) : Spend A := fun w =>
  match m w with
  | (Err e, w') => h e w'
  | r => r
  end.

(** A failure that is only logged. *)
Definition logged_only (m : Spend unit) : Spend unit := catch m (fun _ => ret tt).

Definition translateReserveErr (e : SpendError) : SpendError :=
  match e with ErrWalletNotFound => ErrProviderWalletNotProvisioned | _ => e end.

Definition EstimateInputTokens (byteCount : Z) : Z :=
  let byteCount := if byteCount <? 0 then 0 else byteCount in
  wrap64 (Z.quot (wrap64 (byteCount * 2)) 3 + 1).

Section Gate.
Context (subscribed : string -> bool).
Context (programResolver : option (Z -> string -> string -> result SpendError Scope)).

Definition EstimateReservation (request : ReservationEstimateRequest) (now : Instant)
    : Spend ReservationEstimate :=
  let tokens := wrap64 (ereq_EstimatedInputTokens request + ereq_MaxOutputTokens request) in
  if subscribed (ereq_ProviderID request) then ret (mkEstimate 0 tokens true EmptyString)
  else
    let! tier := Pricing_Resolve (ereq_ProviderID request) (ereq_ProviderModelID request)
                   (ereq_EstimatedInputTokens request) BillingOnline now in
    let! usd := lift (EstimateCost tier (ereq_EstimatedInputTokens request) 0 0
                        (ereq_MaxOutputTokens request)) in
    ret (mkEstimate usd tokens false (tier_ContextTierName tier)).

(** The budget of the task; none is not an error. *)
Definition resolve_budget (taskID : Z) : Spend (option Budget) :=
  catch (let! b := ResolveBudgetForTask taskID in ret (Some b))
    (fun e => if bool_decide (e = ErrBudgetNotFound) then ret None else throw e).

Definition resolve_program (taskID : Z) (providerID providerModelID : string) : Spend Scope :=
  match programResolver with
  | None => ret no_scope
  | Some resolve => lift (resolve taskID providerID providerModelID)
  end.

Definition call_usage (usd tokens : Z) : Usage := mkUsage usd tokens 1 0 0 0 0.

(** The wallet's side of a reservation. *)
Definition reserve_wallet (request : CostReservationRequest) (s : Scope) (usd : USDNanos)
    (now : Instant) : Spend unit :=
  let providerID := creq_ProviderID request in
  let i := creq_InvocationID request in
  catch
    (match programResolver with
     | None => Ledger_Reserve providerID i usd now
     | Some _ =>
         if is_empty (family_Key (scope_Family s)) then Ledger_Reserve providerID i usd now
         else ReserveWithinProgramCeiling
                (mkProgramReservation providerID (family_ModelIDs (scope_Family s)) i
                   (scope_CorrelationID s) (family_MaxUSD (scope_Family s)) usd) now
     end)
    (fun e => throw (translateReserveErr e)).

Definition Gate_Reserve (request : CostReservationRequest) (now : Instant)
    : Spend CostReservation :=
  let providerID := creq_ProviderID request in
  let modelID := creq_ProviderModelID request in
  let i := creq_InvocationID request in
  let! budget := resolve_budget (creq_TaskID request) in
  let! s := resolve_program (creq_TaskID request) providerID modelID in
  if subscribed providerID then
    match budget with
    | None => ret (mkCostReservation providerID modelID i 0 false false true)
    | Some b =>
        do! ConsumeModelCall (budget_ID b) i
              (call_usage 0 (wrap64 (creq_EstimatedInputTokens request
                                     + creq_MaxOutputTokens request))) in
        ret (mkCostReservation providerID modelID i (budget_ID b) false true true)
    end
  else
    let! estimate := EstimateReservation
      (mkEstimateRequest providerID modelID (creq_EstimatedInputTokens request)
         (creq_MaxOutputTokens request)) now in
    do! reserve_wallet request s (est_USDNanos estimate) now in
    match budget with
    | None => ret (mkCostReservation providerID modelID i 0 true false false)
    | Some b =>
        catch
          (do! ConsumeModelCall (budget_ID b) i
                 (call_usage (est_USDNanos estimate) (est_Tokens estimate)) in
           ret (mkCostReservation providerID modelID i (budget_ID b) true true false))
          (fun e =>
             do! catch (Ledger_Release providerID i now)
                   (fun releaseErr => throw (ErrJoined e releaseErr)) in
             throw e)
    end.

(** ** Settlement *)

Definition Gate_RecordSubscriptionConsumption (r : CostReservation) (now : Instant) : Spend unit :=
  if negb (res_Subscription r) then ret tt
  else RecordSubscriptionConsumption (res_ProviderID r) (res_InvocationID r) now.

Definition settleBudget (r : CostReservation) (actualUSD actualTokens : Z) : Spend unit :=
  if negb (res_BudgetApplied r) then ret tt
  else logged_only (SettleModelCall (res_BudgetID r) (res_InvocationID r)
                      (call_usage actualUSD actualTokens)).

Definition Gate_Reconcile (r : CostReservation) (inputTokens cachedInputTokens outputTokens : Z)
    (now : Instant) : Spend unit :=
  if negb (res_WalletApplied r) then ret tt
  else
    let! tier := Pricing_Resolve (res_ProviderID r) (res_ProviderModelID r) inputTokens
                   BillingOnline now in
    let! actualUSD := lift (EstimateCost tier inputTokens cachedInputTokens 0 outputTokens) in
    do! Ledger_Reconcile (res_ProviderID r) (res_InvocationID r) actualUSD now in
    settleBudget r actualUSD (wrap64 (inputTokens + outputTokens)).

Definition Gate_Release (r : CostReservation) (now : Instant) : Spend unit :=
  if negb (res_WalletApplied r) then ret tt
  else Ledger_Release (res_ProviderID r) (res_InvocationID r) now.

Definition Gate_MarkPendingReconciliation (r : CostReservation) : Spend unit :=
  if negb (res_WalletApplied r) then ret tt
  else MarkPendingReconciliation (res_ProviderID r) (res_InvocationID r).

(** ** The dispatcher's use of the gate *)

(** The usage a failed response reported, if any. *)
Record ReportedUsage : Type := mkReportedUsage { rep_InputTokens : Z; rep_OutputTokens : Z }.

(** [settleNonSuccessReservation] of the dispatcher: the reservation is settled
    whatever the settlement answers. *)
Definition settleNonSuccessReservation (r : CostReservation) (usage : option ReportedUsage)
    (now : Instant) : Spend unit :=
  if res_Subscription r then logged_only (Gate_RecordSubscriptionConsumption r now)
  else
    match usage with
    | Some u => logged_only (Gate_Reconcile r (rep_InputTokens u) 0 (rep_OutputTokens u) now)
    | None => logged_only (Gate_MarkPendingReconciliation r)
    end.

End Gate.

(** ** What the cost gate does to the tables

    The calls of CostGate.v in terms of the rows they write. *)


(** ** Control *)

Lemma catch_ok {A} (m : Spend A) (h : SpendError -> Spend A) (a : A) (w w' : SpendWorld) :
  catch m h w = (Ok a, w')
  <-> m w = (Ok a, w') \/ exists e w1, m w = (Err e, w1) /\ h e w1 = (Ok a, w').
Proof. unfold catch. destruct (m w) as [[b|e] w1]; naive_solver. Qed.

Lemma catch_err {A} (m : Spend A) (h : SpendError -> Spend A) (e : SpendError) (w w' : SpendWorld) :
  catch m h w = (Err e, w') <-> exists e' w1, m w = (Err e', w1) /\ h e' w1 = (Err e, w').
Proof. unfold catch. destruct (m w) as [[b|e'] w1]; naive_solver. Qed.

(** ** Frames *)

(** The rows of the ledger, and those of the budgets. *)
Definition same_ledger (d d' : SpendDB) : Prop :=
  sp_wallets d' = sp_wallets d /\ sp_wallet_events d' = sp_wallet_events d.
Definition same_budgets (d d' : SpendDB) : Prop :=
  sp_budgets d' = sp_budgets d /\ sp_budget_events d' = sp_budget_events d.

Lemma same_ledger_inv (d d' : SpendDB) : same_ledger d d' -> ledger_inv d -> ledger_inv d'.
Proof. intros [Hw He]. by apply ledger_inv_same. Qed.

Lemma same_budgets_inv (d d' : SpendDB) : same_budgets d d' -> budget_inv d -> budget_inv d'.
Proof. intros [Hw He]. by apply budget_inv_same. Qed.

Lemma budget_steps_frame (d d' : SpendDB) : budget_steps d d' -> same_ledger d d'.
Proof.
  induction 1 as [d|d d1 d2 Hs _ [IHw IHe]]; [done|]. unfold same_ledger. rewrite IHw, IHe.
  by destruct Hs as [| | | | |d' (m & -> & _)].
Qed.

Lemma ledger_steps_frame (o : option string) (d d' : SpendDB) :
  ledger_steps o d d' -> same_budgets d d'.
Proof.
  induction 1 as [d|d d1 d2 Hs _ [IHw IHe]]; [done|]. unfold same_budgets. rewrite IHw, IHe.
  by destruct Hs.
Qed.

(** ** The parts of a reservation *)

Lemma resolve_budget_run (task : Z) (w : SpendWorld) :
  snd (resolve_budget task w) = w
  /\ (forall b, fst (resolve_budget task w) = Ok (Some b) ->
        exists id, sp_task_budgets (sw_db w) !! task = Some id
                   /\ sp_budgets (sw_db w) !! id = Some b).
Proof.
  unfold resolve_budget, catch, ResolveBudgetForTask, GetBudget, select_budget, bind, sp_get, ret, throw.
  destruct (sp_task_budgets (sw_db w) !! task) as [id|] eqn:Ht; simpl; [|done].
  destruct (sp_budgets (sw_db w) !! id) as [b|] eqn:Hb; simpl; [|done].
  split; [done|]. intros b' [= <-]. eauto.
Qed.

Lemma resolve_budget_state (task : Z) (r : result SpendError (option Budget)) (w w' : SpendWorld) :
  resolve_budget task w = (r, w') -> w' = w.
Proof. intros H. pose proof (proj1 (resolve_budget_run task w)) as Hs. by rewrite H in Hs. Qed.

Section Gate.
Context (subscribed : string -> bool).
Context (resolver : option (Z -> string -> string -> result SpendError Scope)).

Lemma resolve_program_state (task : Z) (p m : string) (r : result SpendError Scope)
    (w w' : SpendWorld) : resolve_program resolver task p m w = (r, w') -> w' = w.
Proof.
  unfold resolve_program, ret, lift. destruct resolver as [f|]; [|by intros [= _ <-]].
  destruct (f task p m); by intros [= _ <-].
Qed.

(** An estimate reads the price in force. *)
Lemma estimate_ok (req : ReservationEstimateRequest) (now : Instant) (est : ReservationEstimate)
    (w w' : SpendWorld) :
  subscribed (ereq_ProviderID req) = false ->
  EstimateReservation subscribed req now w = (Ok est, w') ->
  w' = w /\ exists tier,
    Pricing_Resolve (ereq_ProviderID req) (ereq_ProviderModelID req)
      (ereq_EstimatedInputTokens req) BillingOnline now w = (Ok tier, w)
    /\ EstimateCost tier (ereq_EstimatedInputTokens req) 0 0 (ereq_MaxOutputTokens req)
       = Ok (est_USDNanos est)
    /\ est_Tokens est = wrap64 (ereq_EstimatedInputTokens req + ereq_MaxOutputTokens req).
Proof.
  intros Hs H. unfold EstimateReservation in H. rewrite Hs in H.
  apply bind_ok in H as (tier & w1 & Ht & H). rewrite Pricing_Resolve_run in Ht.
  injection Ht as Ht <-. apply bind_ok in H as (usd & w2 & [Hc ->]%lift_ok & H).
  apply ret_ok in H as [-> ->]. split; [done|]. exists tier.
  rewrite Pricing_Resolve_run, Ht. done.
Qed.

Lemma estimate_state (req : ReservationEstimateRequest) (now : Instant)
    (r : result SpendError ReservationEstimate) (w w' : SpendWorld) :
  EstimateReservation subscribed req now w = (r, w') -> w' = w.
Proof.
  unfold EstimateReservation. destruct (subscribed _); [by intros [= _ <-]|].
  unfold bind, lift. rewrite Pricing_Resolve_run.
  destruct (Resolve _ _ _); [|by intros [= _ <-]].
  destruct (EstimateCost _ _ _ _ _); by intros [= _ <-].
Qed.

(** A priced amount is an int64. *)
Lemma add_priced_int64 (total t n : Z) (price : option USDNanos) :
  int64 total -> add_priced total t price = Ok n -> int64 n.
Proof.
  unfold add_priced. intros Ht. destruct (0 <? t); [|by intros [= <-]].
  destruct price; [|done]. intros (c & _ & H)%rbind_ok. injection H as <-. apply wrap64_range.
Qed.

Lemma EstimateCost_int64 (t : PriceTier) (i c cw o n : Z) :
  EstimateCost t i c cw o = Ok n -> int64 n.
Proof.
  unfold EstimateCost. rewrite check_ok_bind. intros [_ H].
  apply rbind_ok in H as (a & _ & H). apply rbind_ok in H as (b & _ & H).
  apply rbind_ok in H as (e & He & H).
  apply add_priced_int64 in He; [|apply wrap64_range]. by apply add_priced_int64 in H.
Qed.

Lemma call_usage_typed (usd tokens : Z) :
  int64 usd -> usage_typed (call_usage usd (wrap64 tokens)).
Proof.
  intros Hu. pose proof (wrap64_range tokens).
  split; [intros []|]; unfold call_usage; simpl; try done; unfold int64, minInt64, maxInt64, two63; lia.
Qed.

(** The wallet's reservation: the amount was held before, or is now. *)
Definition wallet_holds (p : string) (c : Call) (usd : Z) (now : Instant) (d d' : SpendDB) : Prop :=
  exists x, sp_wallets d !! p = Some x /\
  ((exists r, find_event p c EventReserved (sp_wallet_events d) = Some r /\ amount r = usd /\ d' = d)
   \/ (find_event p c EventReserved (sp_wallet_events d) = None
       /\ usd <= wallet_BalanceUSD x - wallet_ReservedUSD x /\ call_exists c d = true
       /\ exists id, d' = moved p (wallet_moved x 0 usd now)
                            (logged (new_event id p c EventReserved usd None now) d))).

(** In a program, the family's spend stays under its ceiling. *)
Definition under_ceiling (req : CostReservationRequest) (s : Scope) (usd : Z) (d : SpendDB) : Prop :=
  is_Some resolver -> is_empty (family_Key (scope_Family s)) = false ->
  let p := creq_ProviderID req in
  find_event p (ChatCall (creq_InvocationID req)) EventReserved (sp_wallet_events d) = None ->
  wrap64 (family_spend (with_correlation (scope_CorrelationID s)) p
            (family_ModelIDs (scope_Family s)) d + usd) <= family_MaxUSD (scope_Family s).

Lemma reserve_wallet_ok (req : CostReservationRequest) (s : Scope) (usd : Z) (now : Instant)
    (u : unit) (w w' : SpendWorld) :
  ledger_inv (sw_db w) -> reserve_wallet resolver req s usd now w = (Ok u, w') ->
  0 <= usd
  /\ wallet_holds (creq_ProviderID req) (ChatCall (creq_InvocationID req)) usd now (sw_db w) (sw_db w')
  /\ under_ceiling req s usd (sw_db w).
Proof.
  intros Hinv H. unfold reserve_wallet in H. apply catch_ok in H as [H|(e & w1 & _ & H)]; [|done].
  assert (Hplain : Ledger_Reserve (creq_ProviderID req) (creq_InvocationID req) usd now w = (Ok u, w') ->
    0 <= usd /\ wallet_holds (creq_ProviderID req) (ChatCall (creq_InvocationID req)) usd now
      (sw_db w) (sw_db w')).
  { intros (Ha & x & Hx & Hr)%reserve_ok; [|done]. split; [done|]. by exists x. }
  unfold under_ceiling. destruct resolver as [f|].
  2:{ destruct (Hplain H). by split_and!. }
  destruct (is_empty (family_Key (scope_Family s))) eqn:Hk.
  - destruct (Hplain H). by split_and!.
  - apply ceiling_ok in H as (Ha & x & Hx & Hr); [|done]. simpl in *. split; [done|]. split.
    + exists x. split; [done|]. destruct Hr as [(r & Hr & Hra & ->)|Hr]; [left; by exists r|right].
      destruct Hr as (Hf & _ & _ & Hle & Hc & Hd). done.
    + intros _ _ Hn. destruct Hr as [(r & Hr & _)|(_ & _ & Hle & _)]; [congruence|done].
Qed.

Lemma reserve_wallet_err (req : CostReservationRequest) (s : Scope) (usd : Z) (now : Instant)
    (e : SpendError) (w w' : SpendWorld) :
  reserve_wallet resolver req s usd now w = (Err e, w') -> sw_db w' = sw_db w.
Proof.
  unfold reserve_wallet. intros (e' & w1 & H & Ht)%catch_err. injection Ht as _ <-.
  destruct resolver as [f|]; [destruct (is_empty _)|].
  - by eapply reserve_err.
  - by eapply ceiling_err.
  - by eapply reserve_err.
Qed.

Lemma wallet_holds_steps (p : string) (c : Call) (usd : Z) (now : Instant) (d d' : SpendDB) :
  0 <= usd -> wallet_holds p c usd now d d' -> ledger_steps None d d'.
Proof.
  intros Ha (x & Hx & [(r & _ & _ & ->)|(Hf & Hle & Hc & id & ->)]); [done|].
  by apply rtc_once, Hold.
Qed.

(** ** A settlement that must succeed *)

(** A reservation nothing settled yet, seen from a row. *)
Lemma settle_runs (k : EventKind) (note : option Annotation) (p : string) (c : Call) (a : Z)
    (now : Instant) (x : ProviderWallet) (r : WalletEventRow) (w : SpendWorld) :
  let l := sp_wallet_events (sw_db w) in
  let x' := wallet_moved x a (- amount r) now in
  sp_wallets (sw_db w) !! p = Some x -> find_event p c EventReserved l = Some r ->
  terminal_kind k = true -> existsb (terminal_of p c) l = false ->
  call_exists c (sw_db w) = true -> 0 <= a -> wallet_check x' = true ->
  int64 (wallet_BalanceUSD x') -> int64 (wallet_ReservedUSD x') -> int64 (wallet_Version x') ->
  exists id w', settle k note p c a now w = (Ok tt, w')
    /\ sw_db w' = moved p x' (logged (new_event id p c k a note now) (sw_db w)).
Proof.
  intros l x' Hx Hr Hk Ht Hc Ha Hck Hb Hres Hv.
  assert (Hf : find_event p c k l = None).
  { apply find_event_none. intros r' Hr' Hkey. apply not_true_iff_false in Ht. destruct Ht.
    apply existsb_in. exists r'. split; [done|]. apply terminal_of_key. unfold row_key in Hkey.
    unfold call_key, is_terminal. by injection Hkey as -> -> ->. }
  exists (sw_seq w TWalletEvents).
  set (w1 := snd (sp_nextval TWalletEvents w)).
  assert (Hw1 : sw_db w1 = sw_db w) by done.
  set (d1 := logged (new_event (sw_seq w TWalletEvents) p c k a note now) (sw_db w)).
  exists (mkSpendWorld (moved p x' d1) (sw_seq w1)). split; [|done].
  unfold settle. apply atomically_ok, bind_ok. exists x, w. split; [by apply lockWallet_ok|].
  apply bind_ok. exists (amount r), w. split; [apply reserved_amount_ok; eauto|].
  apply bind_ok. exists true, (mkSpendWorld d1 (sw_seq w1)). split.
  - apply on_unique_violation_ok. unfold insert_wallet_event.
    apply bind_ok. exists (sw_seq w TWalletEvents), w1. split; [done|].
    apply bind_ok. exists tt, w1. split; [apply sp_guard_ok; split; [by apply Z.leb_le|done]|].
    apply bind_ok. exists (sw_db w), w1. split; [done|]. fold l. rewrite Hf. simpl.
    apply bind_ok. exists tt, w1. split; [apply sp_guard_ok; by rewrite Ht, andb_false_r|].
    apply bind_ok. exists tt, w1. split; [apply sp_guard_ok; by rewrite Hx|].
    apply bind_ok. exists tt, (mkSpendWorld d1 (sw_seq w1)). by split; [apply sp_modify_ok|].
  - unfold update_wallet. apply bind_ok. exists d1, (mkSpendWorld d1 (sw_seq w1)). split; [done|].
    assert (Hx1 : sp_wallets d1 !! p = Some x) by done. rewrite Hx1.
    do 3 (apply bind_ok; exists tt, (mkSpendWorld d1 (sw_seq w1)); split; [by apply sp_bigint_ok|]).
    apply bind_ok. exists tt, (mkSpendWorld d1 (sw_seq w1)). split; [by apply sp_guard_ok|].
    by apply sp_modify_ok.
Qed.

Lemma sp_bigint_then {A} (z : Z) (m : Spend A) (a : A) (w w' : SpendWorld) :
  0 <= z <= maxInt64 -> m w = (Ok a, w') -> (do! sp_bigint z in m) w = (Ok a, w').
Proof.
  intros Hz Hm. apply bind_ok. exists tt, w. split; [|done]. apply sp_bigint_ok.
  split; [|done]. unfold int64, minInt64, maxInt64, two63 in *. lia.
Qed.

(** The same for the budget. *)
Lemma settle_call_runs (id ref : Z) (actual : Usage) (b : Budget) (c : BudgetEvent) (w : SpendWorld) :
  let l := sp_budget_events (sw_db w) in
  budget_inv (sw_db w) -> sp_budgets (sw_db w) !! id = Some b -> 0 < ref ->
  find_budget_event id BudgetConsumed ref l = Some c ->
  find_budget_event id BudgetReconciled ref l = None ->
  actual_fits id ref actual (sw_db w) ->
  budget_check (settled_row b c actual) = true -> usage_stored (budget_Usage (settled_row b c actual)) ->
  budget_Version b + 1 <= maxInt64 ->
  exists w', SettleModelCall id ref actual w = (Ok tt, w')
    /\ sw_db w' = rebudget id (settled_row b c actual)
         (book (mkBudgetEvent id BudgetReconciled ref
            (mkUsage (UsedUSD actual - UsedUSD (bevent_Delta c))
               (UsedTokens actual - UsedTokens (bevent_Delta c)) 0 0 0 0 0)) (sw_db w)).
Proof.
  intros l [Hinv _] Hb Href Hc Hr Hfit Hck [Hst Hss] Hv.
  destruct (corrections_exact id ref actual b c (sw_db w) Hinv Hfit Hb Hc Hr) as [[E1 E2] [E3 E4]].
  set (e := mkBudgetEvent id BudgetReconciled ref
    (mkUsage (UsedUSD actual - UsedUSD (bevent_Delta c))
       (UsedTokens actual - UsedTokens (bevent_Delta c)) 0 0 0 0 0)).
  set (w1 := mkSpendWorld (book e (sw_db w)) (sw_seq (snd (sp_nextval TBudgetEvents w)))).
  exists (mkSpendWorld (rebudget id (settled_row b c actual) (sw_db w1)) (sw_seq w1)).
  split; [|done]. unfold SettleModelCall. apply atomically_ok, bind_ok. exists b, w.
  split; [by apply select_budget_ok|]. apply bind_ok. exists (sw_db w), w. split; [done|].
  fold l. rewrite Hc, E1, E3, E2, E4. apply bind_ok. exists true, w1. split.
  - unfold insert_budget_event. apply bind_ok. exists (sw_seq w TBudgetEvents), (snd (sp_nextval TBudgetEvents w)).
    split; [done|]. apply bind_ok. exists tt, (snd (sp_nextval TBudgetEvents w)).
    split; [apply sp_guard_ok; split; [by apply Z.ltb_lt|done]|].
    apply bind_ok. exists (sw_db w), (snd (sp_nextval TBudgetEvents w)). split; [done|].
    fold l. rewrite Hr. simpl. apply bind_ok. exists tt, (snd (sp_nextval TBudgetEvents w)).
    split; [apply sp_guard_ok; by rewrite Hb|]. apply bind_ok. exists tt, w1.
    by split; [apply sp_modify_ok|].
  - simpl. unfold update_budget. apply bind_ok. exists (sw_db w1), w1. split; [done|].
    assert (Hb1 : sp_budgets (sw_db w1) !! id = Some b) by done. rewrite Hb1.
    apply sp_bigint_then; [apply (Hst DimUSD)|]. apply sp_bigint_then; [apply (Hst DimTokens)|].
    apply sp_bigint_then; [apply (Hst DimCalls)|]. apply sp_bigint_then; [apply (Hst DimWallTime)|].
    apply sp_bigint_then; [apply (Hst DimRetries)|]. apply sp_bigint_then; [apply Hss|].
    apply sp_bigint_then.
    + unfold budget_check in Hck. rewrite !andb_true_iff, !Z.leb_le in Hck. destruct_and!.
      unfold settled_row, with_usage in *. simpl in *. lia.
    + apply bind_ok. exists tt, w1. split; [by apply sp_guard_ok|]. by apply sp_modify_ok.
Qed.

End Gate.
