(* ===== verification/GateProps.v ===== *)
(** * Properties of the cost gate

    A model call is reserved whole or not at all, costs no more than was
    reserved for it, and what a released reservation is worth. *)

From stdpp Require Import base tactics list gmap strings sorting.
From Stdlib Require Import ZArith Lia.
From S2P Require Import Prelude GoLib TaskDomain Database SpendDB Pricing CostLedger LedgerSpec.
From S2P Require Import LedgerRefine LedgerProps AgentBudget BudgetSpec BudgetRefine.
From S2P Require Import BudgetProps ProgramBudget CostGate.

Local Open Scope Z_scope.

(** Neither the ledger nor the budgets know the invocation. *)
Definition new_invocation (d : SpendDB) (p : string) (i : Z) : Prop :=
  (forall r, r ∈ sp_wallet_events d -> call_key r <> (p, ChatCall i))
  /\ forall e, e ∈ sp_budget_events d -> bevent_IdempotencyRef e = i ->
       bevent_Kind e <> BudgetConsumed /\ bevent_Kind e <> BudgetReconciled.

Lemma new_invocation_event (d : SpendDB) (p : string) (i : Z) (k : EventKind) :
  new_invocation d p i -> find_event p (ChatCall i) k (sp_wallet_events d) = None.
Proof.
  intros [Hn _]. apply find_event_none. intros r Hr Hk. apply (Hn r Hr).
  unfold row_key in Hk. unfold call_key. by injection Hk as -> -> _.
Qed.

Lemma new_invocation_terminal (d : SpendDB) (p : string) (i : Z) :
  new_invocation d p i -> existsb (terminal_of p (ChatCall i)) (sp_wallet_events d) = false.
Proof.
  intros [Hn _]. apply existsb_false_in. intros r Hr. apply not_true_iff_false.
  intros [Hk _]%terminal_of_key. by apply (Hn r Hr).
Qed.

Lemma new_invocation_budget (d : SpendDB) (p : string) (i id : Z) (k : BudgetEventKind) :
  new_invocation d p i -> k = BudgetConsumed \/ k = BudgetReconciled ->
  find_budget_event id k i (sp_budget_events d) = None.
Proof.
  intros [_ Hn] Hk. apply find_budget_event_none. intros e He Hkey. unfold event_key in Hkey.
  injection Hkey as _ Hkd Href. destruct (Hn e He Href) as [H1 H2]. rewrite Hkd in H1, H2.
  by destruct Hk as [->| ->].
Qed.

Section Gate.
Context (subscribed : string -> bool).
Context (resolver : option (Z -> string -> string -> result SpendError Scope)).

(** The tables with the estimate held. *)
Definition held_db (p : string) (i usd id : Z) (now : Instant) (x : ProviderWallet) (d : SpendDB)
    : SpendDB :=
  moved p (wallet_moved x 0 usd now)
    (logged (new_event id p (ChatCall i) EventReserved usd None now) d).

Definition scope_of (req : CostReservationRequest) (s : Scope) : Prop :=
  match resolver with
  | None => s = no_scope
  | Some f => f (creq_TaskID req) (creq_ProviderID req) (creq_ProviderModelID req) = Ok s
  end.

(** The worst case of a request: the price in force, the full output. *)
Definition priced_request (req : CostReservationRequest) (now : Instant) (w : SpendWorld)
    (tier : PriceTier) (usd : Z) : Prop :=
  Pricing_Resolve (creq_ProviderID req) (creq_ProviderModelID req)
    (creq_EstimatedInputTokens req) BillingOnline now w = (Ok tier, w)
  /\ EstimateCost tier (creq_EstimatedInputTokens req) 0 0 (creq_MaxOutputTokens req) = Ok usd.

Definition request_usage (req : CostReservationRequest) (usd : Z) : Usage :=
  call_usage usd (wrap64 (creq_EstimatedInputTokens req + creq_MaxOutputTokens req)).

(** What a granted reservation left. *)
Definition granted (req : CostReservationRequest) (now : Instant) (s : Scope) (usd : Z)
    (res : CostReservation) (d d' : SpendDB) : Prop :=
  let p := creq_ProviderID req in
  let i := creq_InvocationID req in
  exists x id, sp_wallets d !! p = Some x /\ call_exists (ChatCall i) d = true
  /\ 0 <= usd <= wallet_BalanceUSD x - wallet_ReservedUSD x /\ under_ceiling resolver req s usd d
  /\ ((d' = held_db p i usd id now x d
       /\ res = mkCostReservation p (creq_ProviderModelID req) i 0 true false false)
      \/ exists b, sp_budgets d !! budget_ID b = Some b /\ 0 < i
         /\ not_negative (request_usage req usd)
         /\ within (usage_plus (budget_Usage b) (request_usage req usd)) (budget_Limits b)
         /\ d' = charged_db (budget_ID b) b i (request_usage req usd) (held_db p i usd id now x d)
         /\ res = mkCostReservation p (creq_ProviderModelID req) i (budget_ID b) true true false).

Lemma held_same_budgets (p : string) (i usd id : Z) (now : Instant) (x : ProviderWallet) (d : SpendDB) :
  same_budgets d (held_db p i usd id now x d).
Proof. done. Qed.

Lemma gate_reserve_start (req : CostReservationRequest) (now : Instant)
    (r : result SpendError CostReservation) (w w' : SpendWorld) :
  subscribed (creq_ProviderID req) = false -> Gate_Reserve subscribed resolver req now w = (r, w') ->
  (exists e, r = Err e /\ sw_db w' = sw_db w)
  \/ exists s tier usd o w1, scope_of req s /\ priced_request req now w tier usd
     /\ (forall b, o = Some b -> exists id, sp_budgets (sw_db w) !! id = Some b)
     /\ reserve_wallet resolver req s usd now w = (Ok tt, w1)
     /\ match o with
        | None => ret (mkCostReservation (creq_ProviderID req) (creq_ProviderModelID req)
                         (creq_InvocationID req) 0 true false false) w1 = (r, w')
        | Some b =>
            catch
              (do! ConsumeModelCall (budget_ID b) (creq_InvocationID req) (request_usage req usd) in
               ret (mkCostReservation (creq_ProviderID req) (creq_ProviderModelID req)
                      (creq_InvocationID req) (budget_ID b) true true false))
              (fun e =>
                 do! catch (Ledger_Release (creq_ProviderID req) (creq_InvocationID req) now)
                       (fun releaseErr => throw (ErrJoined e releaseErr)) in
                 throw e) w1 = (r, w')
        end.
Proof.
  intros Hs H. unfold Gate_Reserve in H. unfold bind at 1 in H.
  destruct (resolve_budget (creq_TaskID req) w) as [[o|e] w0] eqn:Hb;
    pose proof (resolve_budget_state _ _ _ _ Hb) as ->; [|left; exists e; by injection H as <- <-].
  unfold bind at 1 in H.
  destruct (resolve_program resolver _ _ _ w) as [[s|e] w0] eqn:Hp;
    pose proof (resolve_program_state _ _ _ _ _ _ _ Hp) as ->;
    [|left; exists e; by injection H as <- <-].
  rewrite Hs in H. unfold bind at 1 in H.
  destruct (EstimateReservation subscribed _ now w) as [[est|e] w0] eqn:He;
    pose proof (estimate_state _ _ _ _ _ _ He) as ->; [|left; exists e; by injection H as <- <-].
  apply estimate_ok in He as (_ & tier & Ht & Hc & Htok); [|done]. simpl in Ht, Hc, Htok.
  unfold bind at 1 in H.
  destruct (reserve_wallet resolver req s (est_USDNanos est) now w) as [[[]|e] w1] eqn:Hw.
  2:{ left. exists e. injection H as <- <-. split; [done|]. by eapply reserve_wallet_err. }
  right. exists s, tier, (est_USDNanos est), o, w1. split_and!; try done.
  - unfold scope_of. unfold resolve_program in Hp. destruct resolver as [f|].
    + by apply lift_ok in Hp as [? _].
    + by apply ret_ok in Hp as [-> _].
  - intros b ->. pose proof (proj2 (resolve_budget_run (creq_TaskID req) w) b) as Hr.
    rewrite Hb in Hr. destruct (Hr eq_refl) as (id & _ & Hid). by exists id.
  - unfold request_usage. rewrite <- Htok. by destruct o.
Qed.

Lemma gate_reserve_ok (req : CostReservationRequest) (now : Instant) (res : CostReservation)
    (w w' : SpendWorld) :
  ledger_inv (sw_db w) -> budget_inv (sw_db w) -> subscribed (creq_ProviderID req) = false ->
  new_invocation (sw_db w) (creq_ProviderID req) (creq_InvocationID req) ->
  Gate_Reserve subscribed resolver req now w = (Ok res, w') ->
  exists s tier usd, scope_of req s /\ priced_request req now w tier usd
    /\ granted req now s usd res (sw_db w) (sw_db w').
Proof.
  intros Hl Hbi Hs Hnew H.
  apply gate_reserve_start in H as [(e & He & _)|(s & tier & usd & o & w1 & Hsc & Ht & Hb & Hw & H)];
    [done| |done].
  exists s, tier, usd. split_and!; [done|done|].
  apply reserve_wallet_ok in Hw as (Ha & (x & Hx & Hh) & Hu); [|done].
  destruct Hh as [(r & Hr & _)|(_ & Hle & Hc & id & Hd)].
  { by rewrite (new_invocation_event _ _ _ EventReserved Hnew) in Hr. }
  exists x, id. split_and!; try done. fold (held_db (creq_ProviderID req) (creq_InvocationID req) usd
    id now x (sw_db w)) in Hd. destruct o as [b|].
  - right. exists b. destruct (Hb b eq_refl) as [bid Hbid].
    pose proof (br_id _ _ (bi_rows _ (proj1 Hbi) bid b Hbid)) as Hid. subst bid.
    apply catch_ok in H as [H|(e & w2 & _ & H)].
    2:{ by apply bind_ok in H as (? & ? & _ & ?). }
    apply bind_ok in H as ([] & w2 & Hcons & H). apply ret_ok in H as [-> ->].
    apply consume_result in Hcons as (b' & Hb' & Hcons).
    + rewrite Hd in Hb'. cbn in Hb'. rewrite Hbid in Hb'. injection Hb' as <-.
      destruct Hcons as [[Hf _]|(Hw2 & Hi & _ & Hnn & Hwi)].
      * destruct Hf. rewrite Hd. apply (new_invocation_budget _ _ _ _ _ Hnew). by left.
      * split_and!; try done. by rewrite Hw2, Hd.
    + rewrite Hd. by apply (same_budgets_inv (sw_db w)).
    + apply call_usage_typed. by eapply EstimateCost_int64, Ht.
  - left. apply ret_ok in H as [-> ->]. done.
Qed.

(** The money of every wallet is as before. *)
Definition same_money (d d' : SpendDB) : Prop :=
  forall q x, sp_wallets d !! q = Some x -> exists x', sp_wallets d' !! q = Some x'
    /\ wallet_BalanceUSD x' = wallet_BalanceUSD x /\ wallet_ReservedUSD x' = wallet_ReservedUSD x.

Lemma same_money_refl (d : SpendDB) : same_money d d.
Proof. intros q x Hx. by exists x. Qed.

(** Releasing what was just held gives it back. *)
Lemma held_then_released (p : string) (i usd id id' : Z) (now now' : Instant)
    (note : option Annotation) (x : ProviderWallet) (d : SpendDB) :
  sp_wallets d !! p = Some x ->
  same_money d (moved p (wallet_moved (wallet_moved x 0 usd now) 0 (- usd) now')
    (logged (new_event id' p (ChatCall i) EventReleased 0 note now') (held_db p i usd id now x d))).
Proof.
  intros Hx q y Hy. cbn. destruct (decide (q = p)) as [->|Hne].
  - rewrite lookup_insert_eq. eexists. split; [reflexivity|]. rewrite Hx in Hy. injection Hy as <-.
    simpl. lia.
  - rewrite !lookup_insert_ne by done. by exists y.
Qed.

Lemma consume_err (id ref : Z) (delta : Usage) (e : SpendError) (w w' : SpendWorld) :
  ConsumeModelCall id ref delta w = (Err e, w') -> sw_db w' = sw_db w.
Proof. apply atomically_err. Qed.

End Gate.

(** ** Costs *)

Lemma EstimateCost_plain (t : PriceTier) (i o n : Z) :
  rate_card_row t -> i <= maxInt64 -> o <= maxInt64 ->
  EstimateCost t i 0 0 o = Ok n
  <-> 0 <= i /\ 0 <= o /\ i * tier_InputPriceNanosPerMillion t <= maxInt64
      /\ o * tier_OutputPriceNanosPerMillion t <= maxInt64
      /\ n = dimension_cost i (tier_InputPriceNanosPerMillion t)
             + dimension_cost o (tier_OutputPriceNanosPerMillion t).
Proof.
  intros (Hip & Hop & _) Hi Ho. unfold EstimateCost. rewrite check_ok_bind, rejectIf_ok.
  destruct (decide (0 <= i /\ 0 <= o)) as [[Hi0 Ho0]|Hneg]; [|split; [intros [H _]; exfalso; lia|intros (? & ? & _); exfalso; lia]].
  rewrite rbind_ok. setoid_rewrite scaleNanos_ok; [|unfold count; lia|done].
  setoid_rewrite rbind_ok. setoid_rewrite scaleNanos_ok; [|unfold count; lia|done].
  unfold add_priced. simpl. split.
  - intros (_ & a & [Ha ->] & b & [Hb ->] & H). injection H as <-.
    pose proof (dimension_small i _ (conj Hi0 Hi) Hip Ha).
    pose proof (dimension_small o _ (conj Ho0 Ho) Hop Hb).
    split_and!; try done. apply wrap64_id. unfold int64, minInt64, maxInt64, two63. lia.
  - intros (_ & _ & Ha & Hb & ->). split; [lia|]. eexists. split; [done|]. eexists. split; [done|].
    pose proof (dimension_small i _ (conj Hi0 Hi) Hip Ha).
    pose proof (dimension_small o _ (conj Ho0 Ho) Hop Hb).
    f_equal. apply wrap64_id. unfold int64, minInt64, maxInt64, two63. lia.
Qed.

(** A call that used no more tokens than were reserved costs no more. *)
Lemma cost_monotone (t : PriceTier) (i i' o o' n : Z) :
  rate_card_row t -> 0 <= i <= i' -> 0 <= o <= o' -> i' <= maxInt64 -> o' <= maxInt64 ->
  EstimateCost t i' 0 0 o' = Ok n ->
  exists n', EstimateCost t i 0 0 o = Ok n' /\ 0 <= n' <= n.
Proof.
  intros Hr Hi Ho Him Hom H. pose proof Hr as (Hip & Hop & _). unfold count in Hip, Hop.
  apply EstimateCost_plain in H as (_ & _ & Ha & Hb & ->); [|done..].
  eexists. split.
  - apply EstimateCost_plain; [done|lia|lia|]. split_and!; [lia|lia|nia|nia|reflexivity].
  - unfold dimension_cost. split.
    + apply Z.add_nonneg_nonneg; apply Z.div_pos; nia.
    + apply Z.add_le_mono; apply Z.div_le_mono; nia.
Qed.

(** ** Stored rows *)

(** The rows satisfy their CHECK constraints and their versions leave room. *)
Definition rows_checked (d : SpendDB) : Prop :=
  (forall p x, sp_wallets d !! p = Some x ->
     wallet_check x = true /\ wallet_Version x + 2 <= maxInt64)
  /\ forall id b, sp_budgets d !! id = Some b ->
     budget_check b = true /\ budget_Version b + 2 <= maxInt64.

Lemma wallet_check_moved (x : ProviderWallet) (debit hold : Z) (now : Instant) :
  wallet_check x = true -> 0 <= wallet_ReservedUSD x + hold <= wallet_BalanceUSD x - debit ->
  wallet_check (wallet_moved x debit hold now) = true.
Proof.
  unfold wallet_check, wallet_moved.
  cbn [wallet_ProviderID wallet_BalanceUSD wallet_ReservedUSD wallet_Version].
  rewrite !andb_true_iff, !Z.leb_le. intros H Hb. destruct_and!.
  split_and!; done || lia.
Qed.

Lemma budget_check_usage (b : Budget) (u : Usage) :
  budget_check b = true -> (forall k, 0 <= used k u <= cap k (budget_Limits b)) ->
  Depth u = Depth (budget_Usage b) -> UsedSubagents u = UsedSubagents (budget_Usage b) ->
  budget_check (with_usage b u) = true.
Proof.
  intros H Hk Hd Hs. rewrite forall_dim in Hk. unfold budget_check, between, used, cap in *.
  cbn [with_usage budget_Limits budget_Usage budget_RoleID budget_Version] in *.
  rewrite !andb_true_iff, !Z.leb_le, !Z.ltb_lt in *. rewrite Hd, Hs. destruct_and!.
  split_and!; done || lia.
Qed.

(** ** A call from reservation to settlement *)

(** The wallet's half of a settlement. *)
Lemma held_settles (k : EventKind) (note : option Annotation) (p : string) (i usd cost id : Z)
    (now now2 : Instant) (x : ProviderWallet) (d : SpendDB) (w : SpendWorld) :
  terminal_kind k = true ->
  ledger_inv d -> new_invocation d p i -> sp_wallets d !! p = Some x ->
  wallet_check x = true -> wallet_Version x + 2 <= maxInt64 -> call_exists (ChatCall i) d = true ->
  0 <= cost <= usd -> usd <= wallet_BalanceUSD x - wallet_ReservedUSD x ->
  same_ledger (held_db p i usd id now x d) (sw_db w) ->
  call_exists (ChatCall i) (sw_db w) = true ->
  exists x' w', settle k note p (ChatCall i) cost now2 w = (Ok tt, w')
    /\ same_budgets (sw_db w) (sw_db w')
    /\ sp_wallets (sw_db w') !! p = Some x'
    /\ wallet_BalanceUSD x' = wallet_BalanceUSD x - cost
    /\ wallet_ReservedUSD x' = wallet_ReservedUSD x.
Proof.
  intros Hk Hinv Hnew Hx Hck Hv Hc Hcost Hle [Hsw Hse] Hc'.
  destruct (inv_wallets d Hinv p x Hx) as (_ & Hmax & Hres & _).
  set (x1 := wallet_moved x 0 usd now).
  set (r := new_event id p (ChatCall i) EventReserved usd None now).
  destruct (settle_runs k note p (ChatCall i) cost now2 x1 r w)
    as (id' & w' & Hrun & Hd).
  - rewrite Hsw. cbn. apply lookup_insert_eq.
  - rewrite Hse. cbn. apply find_event_new. by apply (new_invocation_event d).
  - done.
  - rewrite Hse. cbn. rewrite existsb_app, (new_invocation_terminal d p i Hnew). simpl.
    unfold terminal_of. simpl. by rewrite andb_false_r.
  - done.
  - lia.
  - apply wallet_check_moved; [apply wallet_check_moved; [done|lia]|]. subst r x1. unfold amount. simpl.
    lia.
  - subst x1. simpl. unfold int64, minInt64, maxInt64, two63 in *. lia.
  - subst x1 r. unfold amount. simpl. unfold int64, minInt64, maxInt64, two63 in *. lia.
  - subst x1. simpl. unfold wallet_check in Hck. rewrite !andb_true_iff, !Z.leb_le in Hck.
    unfold int64, minInt64, maxInt64, two63 in *. lia.
  - eexists _, w'. split_and!.
    + exact Hrun.
    + by rewrite Hd.
    + rewrite Hd. cbn. apply lookup_insert_eq.
    + subst x1. simpl. lia.
    + subst x1 r. unfold amount. simpl. lia.
Qed.

Lemma reconcile_runs (p : string) (i usd cost id : Z) (now now2 : Instant) (x : ProviderWallet)
    (d : SpendDB) (w : SpendWorld) :
  ledger_inv d -> new_invocation d p i -> sp_wallets d !! p = Some x ->
  wallet_check x = true -> wallet_Version x + 2 <= maxInt64 -> call_exists (ChatCall i) d = true ->
  0 <= cost <= usd -> usd <= wallet_BalanceUSD x - wallet_ReservedUSD x ->
  same_ledger (held_db p i usd id now x d) (sw_db w) ->
  call_exists (ChatCall i) (sw_db w) = true ->
  exists x' w', Ledger_Reconcile p i cost now2 w = (Ok tt, w')
    /\ same_budgets (sw_db w) (sw_db w')
    /\ sp_wallets (sw_db w') !! p = Some x'
    /\ wallet_BalanceUSD x' = wallet_BalanceUSD x - cost
    /\ wallet_ReservedUSD x' = wallet_ReservedUSD x.
Proof.
  intros. destruct (held_settles EventCommitted (Some ActualProviderReported) p i usd cost id now now2 x d w)
    as (x' & w' & Hrun & Hrest); try done.
  exists x', w'. split; [|exact Hrest]. unfold Ledger_Reconcile, reconcile. apply bind_ok. exists tt, w.
  split; [apply throwIf_ok; split; [apply Z.ltb_ge; lia|done]|exact Hrun].
Qed.

Lemma find_budget_event_new (id : Z) (kind : BudgetEventKind) (ref : Z) (l : list BudgetEvent)
    (delta : Usage) :
  find_budget_event id kind ref l = None ->
  find_budget_event id kind ref (l ++ [mkBudgetEvent id kind ref delta])
  = Some (mkBudgetEvent id kind ref delta).
Proof.
  intros Hf. unfold find_budget_event in *. rewrite filter_app.
  destruct (filter _ l); [|done]. rewrite app_nil_l, filter_cons_True; [done|].
  by apply same_ref_key.
Qed.

Lemma find_budget_event_other (id : Z) (kind : BudgetEventKind) (ref : Z) (l : list BudgetEvent)
    (e : BudgetEvent) :
  bevent_Kind e <> kind ->
  find_budget_event id kind ref (l ++ [e]) = find_budget_event id kind ref l.
Proof.
  intros Hk. unfold find_budget_event. rewrite filter_app, filter_cons_False, filter_nil, app_nil_r.
  - done.
  - by rewrite same_ref_kind.
Qed.

(** The budget's half of a settlement. *)
Lemma budget_settle_runs (b : Budget) (p : string) (i usd tokens cost used_tokens : Z)
    (d : SpendDB) (w : SpendWorld) :
  let id := budget_ID b in
  budget_inv d -> new_invocation d p i -> sp_budgets d !! id = Some b -> 0 < i ->
  budget_check b = true -> budget_Version b + 2 <= maxInt64 ->
  usage_typed (call_usage usd tokens) -> not_negative (call_usage usd tokens) ->
  within (usage_plus (budget_Usage b) (call_usage usd tokens)) (budget_Limits b) ->
  0 <= cost <= usd -> 0 <= used_tokens <= tokens ->
  same_budgets (charged_db id b i (call_usage usd tokens) d) (sw_db w) ->
  exists b' w', SettleModelCall id i (call_usage cost used_tokens) w = (Ok tt, w')
    /\ same_ledger (sw_db w) (sw_db w') /\ sp_budgets (sw_db w') !! id = Some b'
    /\ forall k, used k (budget_Usage b')
         = used k (budget_Usage b) + used k (call_usage cost used_tokens).
Proof.
  intros id Hinv Hnew Hb Hi Hck Hv Hty Hnn Hw Hcost Htok Hsame.
  pose proof (new_invocation_budget d p i id BudgetConsumed Hnew ltac:(by left)) as Hf.
  pose proof (new_invocation_budget d p i id BudgetReconciled Hnew ltac:(by right)) as Hfr.
  pose proof (charged_step id i b (call_usage usd tokens) d Hb Hf Hty Hnn Hw) as Hstep.
  pose proof (same_budgets_inv _ _ Hsame (budget_step_inv _ _ Hstep Hinv)) as Hinv'.
  destruct Hsame as [Hsb Hse].
  pose proof (row_stored id b (bi_rows d (proj1 Hinv) id b Hb)) as [[Hst Hss] [Hlt _]].
  set (c := mkBudgetEvent id BudgetConsumed i (mkUsage usd tokens 1 0 0 0 0)).
  set (b1 := with_usage b (mkUsage (UsedUSD (budget_Usage b) + usd)
    (UsedTokens (budget_Usage b) + tokens) (UsedModelCalls (budget_Usage b) + 1)
    (UsedWallTimeMS (budget_Usage b) + 0) (Depth (budget_Usage b))
    (UsedRetries (budget_Usage b) + 0) (UsedSubagents (budget_Usage b)))).
  assert (Hb1 : sp_budgets (sw_db w) !! id = Some b1) by (rewrite Hsb; apply lookup_insert_eq).
  assert (Hc1 : find_budget_event id BudgetConsumed i (sp_budget_events (sw_db w)) = Some c).
  { rewrite Hse. by apply find_budget_event_new. }
  assert (Hc2 : find_budget_event id BudgetReconciled i (sp_budget_events (sw_db w)) = None).
  { rewrite Hse. cbn. by rewrite find_budget_event_other. }
  destruct Hw as [Hw _]. rewrite forall_dim in Hw, Hst, Hlt. unfold used, cap, usage_plus in Hw, Hst, Hlt.
  simpl in Hw, Hst, Hlt.
  set (actual := call_usage cost used_tokens).
  assert (Hbound : forall k, 0 <= used k (budget_Usage (settled_row b1 c actual)) <= cap k (budget_Limits b)).
  { apply forall_dim. unfold used, cap. simpl. lia. }
  destruct (settle_call_runs id i actual b1 c w) as (w' & Hrun & Hd); try done.
  - split; [simpl; lia|]. split; [simpl; lia|]. intros b2 c2 Hb2 Hc2'.
    rewrite Hb1 in Hb2. rewrite Hc1 in Hc2'. injection Hb2 as <-. injection Hc2' as <-.
    simpl. lia.
  - apply (budget_check_usage b1); [|done|done|done].
    apply (budget_check_usage b); [done| |done|done].
    apply forall_dim. unfold used, cap. simpl. lia.
  - split; [|done]. apply forall_dim. unfold used. simpl. lia.
  - unfold b1. simpl. lia.
  - exists (settled_row b1 c actual), w'. split_and!; [exact Hrun|by rewrite Hd| |].
    + rewrite Hd. apply lookup_rebudget.
    + apply forall_dim. unfold used. simpl. lia.
Qed.

(** C7: a model call of a pay-as-you-go provider that was granted its reservation and used no more
    tokens than were reserved, at the same price tier, is always settled: it costs its exact price,
    which is at most the estimate, the wallet is debited that cost and nothing of it stays held, and
    the budget is charged the cost, the tokens and the one call. *)
Theorem granted_calls_settle (subscribed : string -> bool)
    (resolver : option (Z -> string -> string -> result SpendError Scope))
    (req : CostReservationRequest) (res : CostReservation) (tier : PriceTier) (usd : Z)
    (now now2 : Instant) (i o : Z) (w w1 : SpendWorld) :
  let p := creq_ProviderID req in
  ledger_inv (sw_db w) -> budget_inv (sw_db w) -> rows_checked (sw_db w) ->
  subscribed p = false -> new_invocation (sw_db w) p (creq_InvocationID req) ->
  Gate_Reserve subscribed resolver req now w = (Ok res, w1) ->
  rate_card_row tier -> priced_request req now w tier usd ->
  0 <= i <= creq_EstimatedInputTokens req -> 0 <= o <= creq_MaxOutputTokens req ->
  creq_EstimatedInputTokens req + creq_MaxOutputTokens req <= maxInt64 ->
  Pricing_Resolve p (creq_ProviderModelID req) i BillingOnline now2 w1 = (Ok tier, w1) ->
  exists cost w2 x x', EstimateCost tier i 0 0 o = Ok cost /\ 0 <= cost <= usd
    /\ Gate_Reconcile res i 0 o now2 w1 = (Ok tt, w2)
    /\ sp_wallets (sw_db w) !! p = Some x /\ sp_wallets (sw_db w2) !! p = Some x'
    /\ wallet_BalanceUSD x' = wallet_BalanceUSD x - cost
    /\ wallet_ReservedUSD x' = wallet_ReservedUSD x
    /\ (res_BudgetApplied res = true -> exists b b',
          sp_budgets (sw_db w) !! res_BudgetID res = Some b
          /\ sp_budgets (sw_db w2) !! res_BudgetID res = Some b'
          /\ forall k, used k (budget_Usage b')
               = used k (budget_Usage b) + used k (call_usage cost (i + o))).
Proof.
  intros p Hl Hb [Hcw Hcb] Hs Hnew Hres Hcard [Hpr Hec] Hi Ho Hsum Htier.
  apply gate_reserve_ok in Hres as (s & tier' & usd' & _ & [Hpr' Hec'] & Hgr); [|done..].
  rewrite Hpr in Hpr'. injection Hpr' as <-. rewrite Hec in Hec'. injection Hec' as <-.
  destruct Hgr as (x & id & Hx & Hc & Hle & _ & Hd). fold p in Hx, Hd, Hnew.
  destruct (cost_monotone tier i (creq_EstimatedInputTokens req) o (creq_MaxOutputTokens req) usd)
    as (cost & Hcost & Hcle); [done|lia|lia|lia|lia|done|].
  destruct (Hcw p x Hx) as [Hck Hv].
  assert (Hled : same_ledger (held_db p (creq_InvocationID req) usd id now x (sw_db w)) (sw_db w1)
                 /\ call_exists (ChatCall (creq_InvocationID req)) (sw_db w1) = true).
  { by destruct Hd as [[-> _]|(b & _ & _ & _ & _ & -> & _)]. }
  destruct Hled as [Hled Hc1].
  destruct (reconcile_runs p (creq_InvocationID req) usd cost id now now2 x (sw_db w) w1)
    as (x' & w2 & Hrec & Hsb & Hx' & Hbal & Hresv); try done; [lia|].
  assert (Hstart : forall r', res_WalletApplied r' = true -> res_ProviderID r' = p ->
    res_ProviderModelID r' = creq_ProviderModelID req -> res_InvocationID r' = creq_InvocationID req ->
    Gate_Reconcile r' i 0 o now2 w1 = settleBudget r' cost (wrap64 (i + o)) w2).
  { intros r' H1 H2 H3 H4. unfold Gate_Reconcile. rewrite H1, H2, H3, H4. simpl.
    unfold bind at 1. rewrite Htier. unfold bind at 1, lift. rewrite Hcost.
    unfold bind. by rewrite Hrec. }
  exists cost. destruct Hd as [[Hd ->]|(b & Hbb & Hi0 & Hnn & Hw & Hd & ->)]; rewrite Hstart by done.
  - exists w2, x, x'. split_and!; try done; [lia|lia].
  - unfold request_usage in Hnn, Hw, Hd. rewrite wrap64_id in Hnn, Hw, Hd
      by (unfold int64, minInt64, maxInt64, two63 in *; lia).
    rewrite wrap64_id by (unfold int64, minInt64, maxInt64, two63 in *; lia).
    destruct (Hcb (budget_ID b) b Hbb) as [Hckb Hvb].
    destruct (budget_settle_runs b p (creq_InvocationID req) usd
      (creq_EstimatedInputTokens req + creq_MaxOutputTokens req) cost (i + o) (sw_db w) w2)
      as (b' & w3 & Hset & [Hw3 _] & Hb' & Hused); try done.
    + rewrite <- (wrap64_id (_ + _)) by (unfold int64, minInt64, maxInt64, two63 in *; lia).
      apply call_usage_typed. by eapply EstimateCost_int64.
    + lia.
    + by destruct Hsb as [Hsb1 Hsb2]; split; rewrite ?Hsb1, ?Hsb2, Hd.
    + exists w3, x, x'. split_and!; try done; [lia|lia| | |].
      * unfold settleBudget, logged_only. simpl. apply catch_ok. by left.
      * by rewrite Hw3.
      * intros _. by exists b, b'.
Qed.

(** The wallet after the release. *)
Lemma released_money (p : string) (i usd id : Z) (now now' : Instant) (note : option Annotation)
    (x : ProviderWallet) (d : SpendDB) (w w' : SpendWorld) :
  new_invocation d p i -> sp_wallets d !! p = Some x ->
  same_ledger (held_db p i usd id now x d) (sw_db w) ->
  release note p (ChatCall i) now' w = (Ok tt, w') -> same_money d (sw_db w').
Proof.
  intros Hnew Hx [Hsw Hse] H. unfold release in H.
  apply settle_result in H as (x1 & r & Hx1 & Hr & _ & [[Hf _]|(_ & _ & _ & id' & Hd')]).
  - destruct Hf. rewrite Hse. cbn. unfold find_event.
    rewrite filter_app, filter_cons_False, filter_nil, app_nil_r.
    + apply (new_invocation_event d p i EventReleased Hnew).
    + by rewrite of_call_key.
  - rewrite Hse in Hr. cbn in Hr. rewrite find_event_new in Hr
      by apply (new_invocation_event d p i EventReserved Hnew).
    injection Hr as <-. rewrite Hsw in Hx1. cbn in Hx1. rewrite lookup_insert_eq in Hx1.
    injection Hx1 as <-. pose proof (held_then_released p i usd id id' now now' note x d Hx) as Hm.
    intros q y Hy. destruct (Hm q y Hy) as (y' & Hy' & Hbr). exists y'. split; [|done].
    rewrite Hd'. cbn in Hy' |- *. by rewrite Hsw.
Qed.

(** A reservation that fails gives back what it held. *)
Lemma gate_reserve_err (subscribed : string -> bool)
    (resolver : option (Z -> string -> string -> result SpendError Scope))
    (req : CostReservationRequest) (now : Instant) (e : SpendError) (w w' : SpendWorld) :
  ledger_inv (sw_db w) -> subscribed (creq_ProviderID req) = false ->
  new_invocation (sw_db w) (creq_ProviderID req) (creq_InvocationID req) ->
  Gate_Reserve subscribed resolver req now w = (Err e, w') ->
  same_budgets (sw_db w) (sw_db w')
  /\ (rows_checked (sw_db w) -> same_money (sw_db w) (sw_db w')).
Proof.
  intros Hl Hs Hnew H.
  apply gate_reserve_start in H as [(e' & _ & ->)|(s & tier & usd & o & w1 & _ & _ & _ & Hw & H)];
    [split; [done|intros _; apply same_money_refl]| |done].
  apply reserve_wallet_ok in Hw as (Ha & (x & Hx & Hh) & _); [|done].
  destruct Hh as [(r & Hr & _)|(_ & Hle & Hc & id & Hd)].
  { by rewrite (new_invocation_event _ _ _ EventReserved Hnew) in Hr. }
  destruct o as [b|]; [|done].
  apply catch_err in H as (e1 & w2 & Hcons & H).
  apply bind_err in Hcons as [Hcons|(? & ? & _ & ?)]; [|done]. apply consume_err in Hcons.
  assert (Hheld : sw_db w2 = held_db (creq_ProviderID req) (creq_InvocationID req) usd id now x (sw_db w))
    by (by rewrite Hcons, Hd).
  apply bind_err in H as [H|([] & w3 & Hrel & H)].
  - apply catch_err in H as (e2 & w3 & Hrel & H). injection H as _ <-.
    split; [apply atomically_err in Hrel; by rewrite Hrel, Hheld|]. intros [Hrows _].
    destruct (Hrows _ x Hx) as [Hck Hv].
    destruct (held_settles EventReleased (Some ReleasedNotSent) (creq_ProviderID req)
      (creq_InvocationID req) usd 0 id now now x (sw_db w) w2) as (x' & w4 & Hrun & _);
      try done; try lia; try (by rewrite Hheld).
    unfold Ledger_Release, release in Hrel. by rewrite Hrun in Hrel.
  - injection H as _ <-. apply catch_ok in Hrel as [Hrel|(e2 & w4 & _ & ?)]; [|done]. split.
    + unfold Ledger_Release, release in Hrel.
      apply settle_result in Hrel as (x1 & r & _ & _ & _ & [[_ ->]|(_ & _ & _ & id' & ->)]);
        by rewrite Hheld.
    + intros _. unfold Ledger_Release in Hrel.
      eapply released_money; [exact Hnew|exact Hx|by rewrite Hheld|exact Hrel].
Qed.

(** C16: asked for a call the ledger does not know, the gate answers for a pay-as-you-go provider
    either with a reservation of the worst case at the price in force - held in the wallet, within
    what was available and under the program's ceiling, and charged to the task's budget within its
    limits - or with an error, and then no budget was charged and every wallet has the money it had:
    what was held is given back, which never fails on rows that satisfy their constraints and have
    versions left. *)
Theorem calls_are_backed (subscribed : string -> bool)
    (resolver : option (Z -> string -> string -> result SpendError Scope))
    (req : CostReservationRequest) (now : Instant) (r : result SpendError CostReservation)
    (w w' : SpendWorld) :
  ledger_inv (sw_db w) -> budget_inv (sw_db w) -> subscribed (creq_ProviderID req) = false ->
  new_invocation (sw_db w) (creq_ProviderID req) (creq_InvocationID req) ->
  Gate_Reserve subscribed resolver req now w = (r, w') ->
  match r with
  | Ok res => exists s tier usd, scope_of resolver req s /\ priced_request req now w tier usd
      /\ granted resolver req now s usd res (sw_db w) (sw_db w')
  | Err e => same_budgets (sw_db w) (sw_db w')
      /\ (rows_checked (sw_db w) -> same_money (sw_db w) (sw_db w'))
  end.
Proof.
  intros Hl Hb Hs Hnew H. destruct r as [res|e].
  - by eapply gate_reserve_ok.
  - by eapply gate_reserve_err.
Qed.

(** ** Released reservations *)

Lemma granted_ledger (resolver : option (Z -> string -> string -> result SpendError Scope))
    (req : CostReservationRequest) (now : Instant) (s : Scope) (usd : Z) (res : CostReservation)
    (d d' : SpendDB) :
  granted resolver req now s usd res d d' ->
  res_WalletApplied res = true /\ res_ProviderID res = creq_ProviderID req
  /\ res_InvocationID res = creq_InvocationID req
  /\ exists x id, sp_wallets d !! creq_ProviderID req = Some x
       /\ same_ledger (held_db (creq_ProviderID req) (creq_InvocationID req) usd id now x d) d'.
Proof.
  intros (x & id & Hx & _ & _ & _ & [[-> ->]|(b & _ & _ & _ & _ & -> & ->)]);
    (split_and!; [done|done|done|by exists x, id]).
Qed.

Lemma granted_inv (resolver : option (Z -> string -> string -> result SpendError Scope))
    (req : CostReservationRequest) (now : Instant) (s : Scope) (usd : Z) (res : CostReservation)
    (d d' : SpendDB) :
  ledger_inv d -> new_invocation d (creq_ProviderID req) (creq_InvocationID req) ->
  granted resolver req now s usd res d d' -> ledger_inv d'.
Proof.
  intros Hl Hnew (x & id & Hx & Hc & Hle & _ & Hd).
  assert (Hh : ledger_inv (held_db (creq_ProviderID req) (creq_InvocationID req) usd id now x d)).
  { apply (ledger_steps_inv None d); [|done]. apply rtc_once, Hold; try done.
    by apply (new_invocation_event d). }
  destruct Hd as [[-> _]|(b & _ & _ & _ & _ & -> & _)]; [done|].
  by eapply same_ledger_inv; [|exact Hh].
Qed.

(** C20: a reservation that was given back is reported as reserved again.  When the dispatcher released
    the reservation of a call and the same call is sent again, a gate that grants it holds nothing in
    any wallet, and no usage the call then reports can be settled: the reconciliation fails with
    [ErrAlreadyTerminal] and the wallet is never debited. *)
Theorem released_reservations_hold_nothing (subscribed : string -> bool)
    (resolver : option (Z -> string -> string -> result SpendError Scope))
    (req : CostReservationRequest) (res res2 : CostReservation) (now now1 now2 : Instant)
    (w w1 w2 w3 : SpendWorld) :
  ledger_inv (sw_db w) -> budget_inv (sw_db w) -> subscribed (creq_ProviderID req) = false ->
  new_invocation (sw_db w) (creq_ProviderID req) (creq_InvocationID req) ->
  Gate_Reserve subscribed resolver req now w = (Ok res, w1) ->
  Gate_Release res now1 w1 = (Ok tt, w2) ->
  Gate_Reserve subscribed resolver req now2 w2 = (Ok res2, w3) ->
  res_WalletApplied res2 = true /\ same_money (sw_db w) (sw_db w3)
  /\ forall i o now3 tier cost,
       Pricing_Resolve (creq_ProviderID req) (res_ProviderModelID res2) i BillingOnline now3 w3
         = (Ok tier, w3) ->
       EstimateCost tier i 0 0 o = Ok cost -> 0 <= cost ->
       exists w4, Gate_Reconcile res2 i 0 o now3 w3 = (Err ErrAlreadyTerminal, w4)
         /\ sw_db w4 = sw_db w3.
Proof.
  set (p := creq_ProviderID req). set (c := ChatCall (creq_InvocationID req)).
  intros Hl Hb Hs Hnew H1 Hrel H2.
  apply gate_reserve_ok in H1 as (s & tier0 & usd & _ & _ & Hg); [|done..].
  pose proof (granted_inv _ _ _ _ _ _ _ _ Hl Hnew Hg) as Hl1.
  apply granted_ledger in Hg as (Hwa & Hp & Hi & x & id & Hx & Hsame).
  unfold Gate_Release in Hrel. rewrite Hwa, Hp, Hi in Hrel. simpl in Hrel.
  unfold Ledger_Release in Hrel.
  assert (Hm : same_money (sw_db w) (sw_db w2)) by (eapply released_money; done).
  assert (Hl2 : ledger_inv (sw_db w2)).
  { eapply ledger_steps_inv; [eapply release_steps; [|exact Hrel]; done|done]. }
  unfold release in Hrel. apply settle_leaves in Hrel as [Hres Hreld]; [|done].
  fold p c in Hres, Hreld.
  apply gate_reserve_start in H2 as [(e & ? & _)|(s2 & tier2 & usd2 & o & wr & _ & _ & _ & Hw & H2)];
    [done| |done].
  apply reserve_wallet_ok in Hw as (_ & (y & _ & Hh) & _); [|done].
  assert (Hwr : sw_db wr = sw_db w2).
  { destruct Hh as [(r & _ & _ & ->)|(Hf & _)]; [done|]. destruct Hres as [_ (r & Hr & _)].
    fold p c in Hf. congruence. }
  assert (Hend : same_ledger (sw_db w2) (sw_db w3) /\ res_WalletApplied res2 = true
            /\ res_ProviderID res2 = p /\ res_InvocationID res2 = creq_InvocationID req).
  { destruct o as [b|].
    - apply catch_ok in H2 as [H2|(e & w4 & _ & H2)]; [|by apply bind_ok in H2 as (? & ? & _ & ?)].
      apply bind_ok in H2 as ([] & w4 & Hcons & H2). apply ret_ok in H2 as [-> ->].
      split; [|done]. rewrite <- Hwr. unfold ConsumeModelCall in Hcons. rewrite atomically_ok in Hcons.
      apply bind_ok in Hcons as (b' & w5 & [Hb' ->]%select_budget_ok & Hcons).
      apply bind_ok in Hcons as (fresh & w5 & He%insert_budget_event_ok & Hcons).
      destruct fresh; simpl in Hcons.
      + destruct He as [_ He]. apply bind_ok in Hcons as (n & w6 & [_ ->]%lift_ok & Hcons).
        apply (update_budget_ok (budget_ID b) b') in Hcons as [-> _]; rewrite He; done.
      + apply ret_ok in Hcons as [_ ->]. destruct He as [_ ->]. done.
    - apply ret_ok in H2 as [-> ->]. by rewrite Hwr. }
  destruct Hend as ([Hsw Hse] & Hwa2 & Hp2 & Hi2). split; [done|]. split.
  { intros q z Hz. rewrite Hsw. by apply Hm. }
  intros i oo now3 tier cost Ht Hc Hc0.
  destruct Hres as [[z Hz] (r & Hr & _)].
  assert (Hl3 : ledger_inv (sw_db w3)) by (eapply same_ledger_inv; [|exact Hl2]; done).
  assert (Hreld3 : has_event w3 p c EventReleased (fun _ => True)).
  { destruct Hreld as [Hz' Hrl]. split; [by rewrite Hsw|by rewrite Hse]. }
  assert (Hterm := has_event_terminal w3 p c EventReleased _ eq_refl Hreld3).
  assert (Habs := other_outcome_absent w3 p c EventReleased EventCommitted _ Hl3 eq_refl eq_refl
                    ltac:(done) Hreld3).
  destruct (settle_again p c EventCommitted cost (Some ActualProviderReported) now3 r w3)
    as (w4 & Hset & Hw4); [by rewrite Hsw; exists z|by rewrite Hse|done|done|done|].
  rewrite Habs in Hset. exists w4. split; [|done]. unfold Gate_Reconcile. rewrite Hwa2, Hp2, Hi2. simpl.
  unfold bind at 1. rewrite Ht. unfold bind at 1, lift. rewrite Hc. unfold bind.
  unfold Ledger_Reconcile, reconcile, bind, throwIf, ret. rewrite (proj2 (Z.ltb_ge cost 0) Hc0).
  fold c. by rewrite Hset.
Qed.

(** ** A call of a program

    The owner goal of LedgerRefine.v, with a funded wallet, a root budget and
    a policy that lets its program use one model. *)

Definition demo_policy : Policy :=
  mkPolicy SchemaVersion 1 [mkFamily "pro" ["gemini"%string] ["pro"%string] 5000000 false].

Definition demo_evidence : Evidence :=
  mkEvidence 1 1 None RequirementArtifact "program-model-budget://1" None "owner" [] 0.

Definition demo_resolver : Z -> string -> string -> result SpendError Scope :=
  Program_Resolve (fun _ => Some demo_policy)
    (fun _ => Ok (mkTaskDetail demo_owner [] [] [demo_evidence] [] None))
    (fun _ => Ok [demo_owner]).

Definition no_subscription (_ : string) : bool := false.

Definition gate_limits : Limits := mkLimits 1000000000 500000 100 3600000 5 10 20.
Definition gate_funded : SpendWorld :=
  ledger_run [CallProvision "gemini" 1000000000 10] spend0.
Definition gate_ready : SpendWorld :=
  snd (budget_serve everyone (CallCreateRoot "acme" 1 "eng" gate_limits) gate_funded).

Definition demo_request : CostReservationRequest :=
  mkReservationRequest "acme" 1 7 "gemini" "pro" 1000 200.

Definition gate_reserved : SpendWorld :=
  snd (Gate_Reserve no_subscription (Some demo_resolver) demo_request 20 gate_ready).

Definition demo_granted : CostReservation := mkCostReservation "gemini" "pro" 7 1 true true false.

Lemma gate_ready_ledger : ledger_inv (sw_db gate_ready).
Proof.
  apply (same_ledger_inv (sw_db gate_funded)).
  - split; vm_compute; reflexivity.
  - eapply spend_moves_inv; [|apply no_wallets_inv, spend0_empty].
    apply (run_moves (fun _ => True)). repeat constructor; vm_compute; congruence.
Qed.

Lemma gate_ready_budgets : budget_inv (sw_db gate_ready).
Proof.
  eapply (budget_moves_inv everyone gate_funded).
  - apply rtc_once, (BudgetMoveCall everyone gate_funded (CallCreateRoot "acme" 1 "eng" gate_limits)).
    by apply typed_limits.
  - apply no_budgets_inv. split; vm_compute; reflexivity.
Qed.

Lemma gate_ready_new : new_invocation (sw_db gate_ready) "gemini" 7.
Proof.
  assert (Hw : sp_wallet_events (sw_db gate_ready) = []) by (vm_compute; reflexivity).
  assert (Hb : sp_budget_events (sw_db gate_ready)
    = [mkBudgetEvent 1 BudgetCreated 1 (mkUsage 0 0 0 0 1 0 0)]) by (vm_compute; reflexivity).
  split; [rewrite Hw; by intros r ?%not_elem_of_nil|].
  rewrite Hb. by intros e ->%list_elem_of_singleton.
Qed.

Lemma gate_ready_checked : rows_checked (sw_db gate_ready).
Proof.
  assert (Hw : sp_wallets (sw_db gate_ready)
    = {[ "gemini"%string := mkProviderWallet "gemini" 1000000000 0 10 1 ]}) by (vm_compute; reflexivity).
  assert (Hb : sp_budgets (sw_db gate_ready)
    = {[ 1 := mkBudget 1 "acme" 1 1 "eng" None gate_limits (mkUsage 0 0 0 0 1 0 0) 1 ]})
    by (vm_compute; reflexivity).
  split; rewrite ?Hw, ?Hb; intros ? ? [<- <-]%lookup_singleton_Some;
    (split; [vm_compute; reflexivity|vm_compute; congruence]).
Qed.

Lemma gate_ready_reserves :
  Gate_Reserve no_subscription (Some demo_resolver) demo_request 20 gate_ready
  = (Ok demo_granted, gate_reserved).
Proof.
  unfold gate_reserved.
  assert (Hr : fst (Gate_Reserve no_subscription (Some demo_resolver) demo_request 20 gate_ready)
               = Ok demo_granted) by (vm_compute; reflexivity).
  by rewrite <- Hr, <- surjective_pairing.
Qed.

Lemma gate_ready_price : priced_request demo_request 20 gate_ready demo_card_tier 3250000.
Proof. split; [rewrite Pricing_Resolve_run; f_equal; vm_compute; reflexivity|vm_compute; reflexivity]. Qed.

(** A request beyond the budget of its task: what was held is given back. *)
Definition long_request : CostReservationRequest :=
  mkReservationRequest "acme" 1 7 "gemini" "pro" 600000 200.
Definition gate_refused : SpendWorld :=
  snd (Gate_Reserve no_subscription None long_request 20 gate_ready).

Lemma calls_are_backed_witness :
  fst (Gate_Reserve no_subscription (Some demo_resolver) demo_request 20 gate_ready) = Ok demo_granted
  /\ (exists s tier usd, scope_of (Some demo_resolver) demo_request s
       /\ priced_request demo_request 20 gate_ready tier usd
       /\ granted (Some demo_resolver) demo_request 20 s usd demo_granted (sw_db gate_ready)
            (sw_db gate_reserved))
  /\ fst (Gate_Reserve no_subscription None long_request 20 gate_ready) = Err ErrBudgetExceeded
  /\ length (sp_wallet_events (sw_db gate_refused)) = 2%nat
  /\ same_money (sw_db gate_ready) (sw_db gate_refused).
Proof.
  assert (Hr : fst (Gate_Reserve no_subscription None long_request 20 gate_ready)
    = Err ErrBudgetExceeded) by (vm_compute; reflexivity).
  split; [vm_compute; reflexivity|]. split; [|split; [exact Hr|split; [vm_compute; reflexivity|]]].
  - exact (calls_are_backed no_subscription (Some demo_resolver) demo_request 20 (Ok demo_granted)
      gate_ready gate_reserved gate_ready_ledger gate_ready_budgets eq_refl gate_ready_new
      gate_ready_reserves).
  - apply (calls_are_backed no_subscription None long_request 20 (Err ErrBudgetExceeded)
      gate_ready gate_refused gate_ready_ledger gate_ready_budgets eq_refl gate_ready_new);
      [|exact gate_ready_checked].
    unfold gate_refused. by rewrite <- Hr, <- surjective_pairing.
Defined.

Lemma granted_calls_settle_witness :
  exists cost w2 x x', cost = 2000000
    /\ Gate_Reconcile demo_granted 800 0 100 30 gate_reserved = (Ok tt, w2)
    /\ sp_wallets (sw_db gate_ready) !! "gemini"%string = Some x
    /\ sp_wallets (sw_db w2) !! "gemini"%string = Some x'
    /\ wallet_BalanceUSD x' = wallet_BalanceUSD x - cost.
Proof.
  destruct (granted_calls_settle no_subscription (Some demo_resolver) demo_request demo_granted
    demo_card_tier 3250000 20 30 800 100 gate_ready gate_reserved gate_ready_ledger gate_ready_budgets
    gate_ready_checked eq_refl gate_ready_new gate_ready_reserves)
    as (cost & w2 & x & x' & Hc & _ & Hrun & Hx & Hx' & Hbal & _).
  - unfold rate_card_row, count, count_opt, maxInt64, two63. simpl. lia.
  - apply gate_ready_price.
  - simpl. lia.
  - simpl. lia.
  - vm_compute. congruence.
  - rewrite Pricing_Resolve_run. f_equal; vm_compute; reflexivity.
  - assert (Hcost : EstimateCost demo_card_tier 800 0 0 100 = Ok 2000000) by (vm_compute; reflexivity).
    rewrite Hcost in Hc. injection Hc as <-. exists 2000000, w2, x, x'. by split_and!.
Defined.

Definition gate_released : SpendWorld := snd (Gate_Release demo_granted 30 gate_reserved).
Definition gate_again : SpendWorld :=
  snd (Gate_Reserve no_subscription (Some demo_resolver) demo_request 40 gate_released).

Lemma released_reservations_hold_nothing_witness :
  fst (Gate_Reserve no_subscription (Some demo_resolver) demo_request 40 gate_released)
    = Ok demo_granted
  /\ (wallet_ReservedUSD <$> (sp_wallets (sw_db gate_again) !! "gemini"%string)) = Some 0
  /\ exists w4, Gate_Reconcile demo_granted 800 0 100 50 gate_again = (Err ErrAlreadyTerminal, w4).
Proof.
  assert (H1 : fst (Gate_Release demo_granted 30 gate_reserved) = Ok tt) by (vm_compute; reflexivity).
  assert (H2 : fst (Gate_Reserve no_subscription (Some demo_resolver) demo_request 40 gate_released)
    = Ok demo_granted) by (vm_compute; reflexivity).
  split; [exact H2|]. split; [vm_compute; reflexivity|].
  destruct (released_reservations_hold_nothing no_subscription (Some demo_resolver) demo_request
    demo_granted demo_granted 20 30 40 gate_ready gate_reserved gate_released gate_again
    gate_ready_ledger gate_ready_budgets eq_refl gate_ready_new gate_ready_reserves)
    as (_ & _ & Hrec).
  - unfold gate_released. by rewrite <- H1, <- surjective_pairing.
  - unfold gate_again. by rewrite <- H2, <- surjective_pairing.
  - destruct (Hrec 800 100 50 demo_card_tier 2000000) as (w4 & Hw4 & _).
    + rewrite Pricing_Resolve_run. f_equal; vm_compute; reflexivity.
    + vm_compute. reflexivity.
    + lia.
    + by exists w4.
Defined.
