(* ===== verification/Admission.v ===== *)
(** * Admission of recovery episodes

    internal/engineeringmission/budget.go: whether the program of a failed task
    can absorb one more episode of the same size.  The reasons are constructors,
    their texts are not modelled. *)

From stdpp Require Import base tactics list gmap strings.
From Stdlib Require Import ZArith Lia.
From S2P Require Import Prelude GoLib TaskDomain Database SpendDB CostLedger LedgerSpec.
From S2P Require Import LedgerRefine LedgerProps ProgramBudget GateProps.

Local Open Scope Z_scope.

Inductive VerdictReason : Type :=
| NoReason | NoPolicyGoverns | FamilyShort | NoAttributableSpend.

Record BudgetVerdict : Type := mkVerdict {
  verdict_Admitted : bool;
  verdict_Family : string;
  verdict_Remaining : USDNanos;
  verdict_Estimated : USDNanos;
  verdict_Reason : VerdictReason }.

Definition refusal (r : VerdictReason) : BudgetVerdict := mkVerdict false EmptyString 0 0 r.

(** The family's first provider, when it has a route. *)
Definition family_route (f : Family) : option string :=
  if family_Unavailable f then None
  else
    match family_ProviderIDs f, family_ModelIDs f with
    | provider :: _, _ :: _ => Some provider
    | _, _ => None
    end.

(** The loop over the families, from a verdict and [first]. *)
Fixpoint admit_families (correlation : string) (failedTaskID : Z) (v : BudgetVerdict) (first : bool)
    (l : list Family) : Spend BudgetVerdict :=
  match l with
  | [] => ret (if first then refusal NoAttributableSpend else v)
  | f :: rest =>
      match family_route f with
      | None => admit_families correlation failedTaskID v first rest
      | Some provider =>
          let! used := ProgramFamilySpend correlation provider (family_ModelIDs f) in
          let! estimated := TaskFamilySpend failedTaskID provider (family_ModelIDs f) in
          let remaining := wrap64 (family_MaxUSD f - used) in
          let remaining := if remaining <? 0 then 0 else remaining in
          if estimated =? 0 then admit_families correlation failedTaskID v first rest
          else if remaining <? estimated
          then ret (mkVerdict false (family_Key f) remaining estimated FamilyShort)
          else
            let binds := first || (wrap64 (remaining - estimated)
                                   <? wrap64 (verdict_Remaining v - verdict_Estimated v)) in
            admit_families correlation failedTaskID
              (if binds then mkVerdict true (family_Key f) remaining estimated NoReason else v)
              (if binds then false else first) rest
      end
  end.

Section Admission.
Context (Decode : list (string * JSON) -> option Policy).
Context (GetTask : Z -> result Error TaskDetail).
Context (ListTasks : TaskFilter -> result Error (list Task)).

Definition Admit (failedTaskID : Z) : Spend BudgetVerdict :=
  let! r := lift (Program Decode GetTask ListTasks failedTaskID) in
  let '(_, correlation, policy) := r in
  if is_empty correlation || is_empty (policy_SchemaVersion policy)
  then ret (refusal NoPolicyGoverns)
  else admit_families correlation failedTaskID (mkVerdict true EmptyString 0 0 NoReason) true
         (policy_Families policy).

End Admission.

(** ** What a verdict says *)

Lemma max_amount_nonneg (k : EventKind) (l : list WalletEventRow) :
  (forall r, r ∈ l -> 0 <= amount r) -> 0 <= default 0 (max_amount k l).
Proof.
  intros Hl. unfold max_amount.
  assert (Hl' : forall x, x ∈ filter (fun r => wevent_Kind (wrow_Event r) = k) l -> 0 <= amount x).
  { intros x [_ Hx]%list_elem_of_filter. auto. }
  induction (filter _ l) as [|x q IH]; simpl; [done|].
  pose proof (Hl' x ltac:(left)) as Hx. unfold amount in Hx.
  destruct (foldr _ None q); simpl; lia.
Qed.

Lemma invocation_spend_nonneg (l : list WalletEventRow) (i : Z) :
  (forall r, r ∈ l -> 0 <= amount r) -> 0 <= invocation_spend l i.
Proof.
  intros Hl. unfold invocation_spend.
  assert (He : forall r, r ∈ events_of_invocation i l -> 0 <= amount r).
  { intros r [_ Hr]%list_elem_of_filter. auto. }
  pose proof (max_amount_nonneg EventCommitted _ He) as Hc.
  pose proof (max_amount_nonneg EventReserved _ He) as Hr.
  destruct (max_amount EventCommitted _); [done|]. by destruct (max_amount EventReleased _).
Qed.

Lemma family_spend_nonneg (scope : Z -> Task -> bool) (p : string) (models : list string)
    (d : SpendDB) : ledger_inv d -> 0 <= family_spend scope p models d.
Proof.
  intros Hinv. unfold family_spend.
  change (sum_Z (map ?f ?l)) with (total f l). apply total_nonneg. intros [id i] _.
  apply invocation_spend_nonneg. intros r Hr. apply (inv_events d Hinv r Hr).
Qed.

Lemma ProgramFamilySpend_ok (c p : string) (models : list string) (n : Z) (w w' : SpendWorld) :
  ProgramFamilySpend c p models w = (Ok n, w') ->
  w' = w /\ n = family_spend (with_correlation c) p models (sw_db w) /\ int64 n.
Proof.
  unfold ProgramFamilySpend. intros H. apply bind_ok in H as ([] & w1 & [_ ->]%throwIf_ok & H).
  by apply familySpend_ok in H.
Qed.

Lemma TaskFamilySpend_ok (t : Z) (p : string) (models : list string) (n : Z) (w w' : SpendWorld) :
  TaskFamilySpend t p models w = (Ok n, w') ->
  w' = w /\ n = family_spend (with_task t) p models (sw_db w) /\ int64 n.
Proof.
  unfold TaskFamilySpend. intros H. apply bind_ok in H as ([] & w1 & [_ ->]%throwIf_ok & H).
  by apply familySpend_ok in H.
Qed.

(** What a family has left, and what the failed task spent of it. *)
Definition family_left (correlation : string) (d : SpendDB) (f : Family) : Z :=
  Z.max 0 (family_MaxUSD f
    - family_spend (with_correlation correlation) (default EmptyString (family_route f))
        (family_ModelIDs f) d).
Definition episode_cost (taskID : Z) (d : SpendDB) (f : Family) : Z :=
  family_spend (with_task taskID) (default EmptyString (family_route f)) (family_ModelIDs f) d.

(** The families the failed episode spent on. *)
Definition constrains (taskID : Z) (d : SpendDB) (f : Family) : bool :=
  is_some (family_route f) && negb (episode_cost taskID d f =? 0).

Section Verdicts.
Context (c : string) (t : Z) (d : SpendDB) (Hinv : ledger_inv d).

Definition room (f : Family) : Z := family_left c d f - episode_cost t d f.

(** The verdict after the families [l]: the one with the least room, all have
    some. *)
Definition tightest (v : BudgetVerdict) (l : list Family) : Prop :=
  verdict_Admitted v = true
  /\ (forall g, g ∈ l -> constrains t d g = true -> 0 <= room g)
  /\ exists f, f ∈ l /\ constrains t d f = true
       /\ verdict_Family v = family_Key f /\ verdict_Remaining v = family_left c d f
       /\ verdict_Estimated v = episode_cost t d f
       /\ forall g, g ∈ l -> constrains t d g = true -> room f <= room g.

Definition verdict_after (v : BudgetVerdict) (first : bool) (l : list Family) : Prop :=
  if first then forall g, g ∈ l -> constrains t d g = false else tightest v l.

Definition verdict_says (v : BudgetVerdict) (l : list Family) : Prop :=
  match verdict_Reason v with
  | FamilyShort => verdict_Admitted v = false
      /\ exists f, f ∈ l /\ constrains t d f = true /\ verdict_Family v = family_Key f
           /\ verdict_Remaining v = family_left c d f /\ verdict_Estimated v = episode_cost t d f
           /\ family_left c d f < episode_cost t d f
  | NoAttributableSpend => verdict_Admitted v = false
      /\ forall g, g ∈ l -> constrains t d g = false
  | NoPolicyGoverns => False
  | NoReason => tightest v l
  end.

Lemma room_range (f : Family) :
  family_MaxUSD f <= maxInt64 -> episode_cost t d f <= maxInt64 ->
  0 <= episode_cost t d f /\ 0 <= family_left c d f <= maxInt64 /\ int64 (room f).
Proof using Hinv.
  intros Hm He. assert (H1 : 0 <= episode_cost t d f) by by apply family_spend_nonneg.
  assert (H2 : 0 <= family_left c d f <= maxInt64).
  { unfold family_left.
    pose proof (family_spend_nonneg (with_correlation c) (default EmptyString (family_route f))
      (family_ModelIDs f) d Hinv). unfold maxInt64, two63 in *. lia. }
  split_and!; try lia. unfold room, int64, minInt64, maxInt64, two63 in *. lia.
Qed.

(** A family that does not constrain changes nothing. *)
Lemma verdict_after_skip (v : BudgetVerdict) (first : bool) (l : list Family) (f : Family) :
  constrains t d f = false -> verdict_after v first l -> verdict_after v first (l ++ [f]).
Proof.
  intros Hf Hv. destruct first; simpl in *.
  - intros g [Hg| ->%list_elem_of_singleton]%elem_of_app; [by apply Hv|done].
  - destruct Hv as (Ha & Hall & g0 & Hg0 & Hc0 & Hk & Hrm & Hes & Hmin).
    split; [done|]. split.
    + intros g [Hg| ->%list_elem_of_singleton]%elem_of_app; [by apply Hall|congruence].
    + exists g0. split_and!; try done; [set_solver|].
      intros g [Hg| ->%list_elem_of_singleton]%elem_of_app; [by apply Hmin|congruence].
Qed.

(** One that does becomes the tightest, or not. *)
Lemma verdict_after_bind (v : BudgetVerdict) (first : bool) (l : list Family) (f : Family) :
  let binds := first || (room f <? verdict_Remaining v - verdict_Estimated v) in
  constrains t d f = true -> 0 <= room f -> verdict_after v first l ->
  verdict_after (if binds then mkVerdict true (family_Key f) (family_left c d f)
                                 (episode_cost t d f) NoReason else v) false (l ++ [f]).
Proof.
  intros binds Hf Hroom Hv. unfold verdict_after in *.
  assert (Hnew : (forall g, g ∈ l -> constrains t d g = true -> 0 <= room g /\ room f <= room g) ->
    tightest (mkVerdict true (family_Key f) (family_left c d f) (episode_cost t d f) NoReason) (l ++ [f])).
  { intros Hl. split; [done|]. split.
    - intros g [Hg| ->%list_elem_of_singleton]%elem_of_app Hcg; [by apply Hl|done].
    - exists f. split_and!; try done; [set_solver|].
      intros g [Hg| ->%list_elem_of_singleton]%elem_of_app Hcg; [by apply Hl|done]. }
  destruct first; [apply Hnew; intros g Hg Hcg; by rewrite Hv in Hcg|].
  destruct Hv as (Ha & Hall & g0 & Hg0 & Hc0 & Hk & Hrm & Hes & Hmin).
  unfold binds. rewrite Hrm, Hes. cbn [orb]. fold (room g0). destruct (room f <? room g0) eqn:Hlt.
  - apply Z.ltb_lt in Hlt. apply Hnew. intros g Hg Hcg. specialize (Hmin g Hg Hcg).
    specialize (Hall g Hg Hcg). lia.
  - apply Z.ltb_ge in Hlt. split; [done|]. split.
    + intros g [Hg| ->%list_elem_of_singleton]%elem_of_app Hcg; [by apply Hall|done].
    + exists g0. split_and!; try done; [set_solver|].
      intros g [Hg| ->%list_elem_of_singleton]%elem_of_app Hcg; [by apply Hmin|done].
Qed.

(** The families met so far, and what the code reads of them. *)
Definition readable (l : list Family) : Prop :=
  forall f, f ∈ l -> is_some (family_route f) = true -> episode_cost t d f <= maxInt64.

Lemma readable_snoc (l : list Family) (f : Family) :
  readable l -> (is_some (family_route f) = true -> episode_cost t d f <= maxInt64) ->
  readable (l ++ [f]).
Proof. intros Hl Hf g [Hg| ->%list_elem_of_singleton]%elem_of_app; auto. Qed.

Lemma room_wraps (v : BudgetVerdict) (l : list Family) :
  (forall f, f ∈ l -> family_MaxUSD f <= maxInt64) -> readable l -> verdict_after v false l ->
  int64 (verdict_Remaining v - verdict_Estimated v).
Proof using Hinv.
  intros Hm Hr (_ & _ & g & Hg & Hc & _ & -> & -> & _).
  unfold constrains in Hc. apply andb_true_iff in Hc as [Hc _].
  apply room_range; [by apply Hm|by apply Hr].
Qed.

Lemma remaining_exact (f : Family) (p : string) :
  0 < family_MaxUSD f <= maxInt64 -> family_route f = Some p ->
  (let remaining := wrap64 (family_MaxUSD f
     - family_spend (with_correlation c) p (family_ModelIDs f) d) in
   if remaining <? 0 then 0 else remaining) = family_left c d f
  \/ family_MaxUSD f - family_spend (with_correlation c) p (family_ModelIDs f) d < minInt64.
Proof using Hinv.
  intros Hm Hp. pose proof (family_spend_nonneg (with_correlation c) p (family_ModelIDs f) d Hinv).
  destruct (decide (minInt64 <= family_MaxUSD f
    - family_spend (with_correlation c) p (family_ModelIDs f) d)) as [Hw|]; [left|right; lia].
  cbv zeta. unfold family_left. rewrite Hp. simpl.
  rewrite wrap64_id by (unfold int64, minInt64, maxInt64, two63 in *; lia). case_match; lia.
Qed.

Lemma admit_families_spec (seen l : list Family) (v r : BudgetVerdict) (first : bool)
    (w w' : SpendWorld) :
  sw_db w = d -> (forall f, f ∈ seen ++ l -> 0 < family_MaxUSD f <= maxInt64) ->
  readable seen -> verdict_Reason v = NoReason -> verdict_after v first seen ->
  admit_families c t v first l w = (Ok r, w') ->
  w' = w /\ verdict_says r (seen ++ l).
Proof using Hinv.
  intros Hd. revert seen v first. induction l as [|f l IH]; intros seen v first Hmax Hread Hr Hv H.
  - apply ret_ok in H as [-> ->]. rewrite app_nil_r. split; [done|]. unfold verdict_says.
    destruct first; [done|]. by rewrite Hr.
  - cbn [admit_families] in H. rewrite (cons_middle f seen l) in *. rewrite (assoc_L (++)) in *.
    destruct (family_route f) as [p|] eqn:Hp.
    2:{ apply (IH (seen ++ [f])) in H; try done.
        - apply readable_snoc; [done|]. by rewrite Hp.
        - apply verdict_after_skip; [|done]. unfold constrains. by rewrite Hp. }
    apply bind_ok in H as (used & w1 & (-> & -> & Hu)%ProgramFamilySpend_ok & H).
    apply bind_ok in H as (est & w1 & (-> & -> & [_ He])%TaskFamilySpend_ok & H). rewrite Hd in *.
    assert (Hest : family_spend (with_task t) p (family_ModelIDs f) d = episode_cost t d f)
      by (unfold episode_cost; by rewrite Hp).
    rewrite Hest in *. clear Hest.
    destruct (Hmax f) as [Hm0 Hm]; [rewrite !elem_of_app, list_elem_of_singleton; tauto|].
    destruct (remaining_exact f p) as [Hleft|Hlow]; [done|done| |].
    2:{ unfold int64, minInt64, maxInt64, two63 in *. lia. }
    cbv zeta in H, Hleft. rewrite Hleft in H. clear Hleft.
    destruct (room_range f Hm He) as (He0 & Hl0 & Hroom).
    assert (Hread' : readable (seen ++ [f])) by by apply readable_snoc.
    destruct (episode_cost t d f =? 0) eqn:Hz.
    { apply (IH (seen ++ [f])) in H; try done. apply verdict_after_skip; [|done].
      unfold constrains. by rewrite Hz, andb_false_r. }
    assert (Hcf : constrains t d f = true) by (unfold constrains; by rewrite Hp, Hz).
    destruct (family_left c d f <? episode_cost t d f) eqn:Hshort.
    { apply Z.ltb_lt in Hshort. apply ret_ok in H as [-> ->]. split; [done|].
      split; [done|]. exists f. split_and!; try done.
      rewrite !elem_of_app, list_elem_of_singleton. tauto. }
    apply Z.ltb_ge in Hshort. fold (room f) in H. rewrite (wrap64_id (room f)) in H by done.
    set (binds := first || _) in H.
    assert (Hb : binds = first || (room f <? verdict_Remaining v - verdict_Estimated v)).
    { unfold binds. destruct first; [done|]. rewrite (wrap64_id (_ - _)); [done|].
      apply (room_wraps v seen); try done. intros g Hg. apply Hmax. rewrite !elem_of_app. tauto. }
    assert (Hne : (if binds then false else first) = false).
    { destruct binds; [done|]. symmetry in Hb. by apply orb_false_iff in Hb as [-> _]. }
    rewrite Hne in H. apply (IH (seen ++ [f])) in H; try done; [by destruct binds|].
    rewrite Hb. apply verdict_after_bind; [done|unfold room; lia|done].
Qed.

End Verdicts.

(** [Decode] gives amounts of 64 bits. *)
Definition decodes_int64 (Decode : list (string * JSON) -> option Policy) : Prop :=
  forall m p f, Decode m = Some p -> f ∈ policy_Families p -> family_MaxUSD f <= maxInt64.

(** A recovery episode is admitted exactly when the failed one spent something on a family of the
    policy that governs its task, and no such family has less left under its ceiling than the episode
    cost; the verdict names the family with the least room, or the first one that is short, or that
    no policy governs the task, or that there is nothing to estimate from. *)
Lemma recovery_fits_the_program (Decode : list (string * JSON) -> option Policy)
    (GetTask : Z -> result Error TaskDetail) (ListTasks : TaskFilter -> result Error (list Task))
    (t : Z) (v : BudgetVerdict) (w w' : SpendWorld) :
  decodes_int64 Decode -> ledger_inv (sw_db w) ->
  Admit Decode GetTask ListTasks t w = (Ok v, w') ->
  w' = w /\ (verdict_Reason v = NoPolicyGoverns /\ verdict_Admitted v = false
               /\ ungoverned GetTask ListTasks t
             \/ exists root c policy, governed Decode GetTask ListTasks t root c policy
                  /\ verdict_says c t (sw_db w) v (policy_Families policy)).
Proof.
  intros Hdec Hinv H. unfold Admit in H.
  apply bind_ok in H as ([[root c] p] & w1 & [Hp ->]%lift_ok & H).
  apply Program_ok in Hp as [[Hn Hu]|(Hs & Hb & Hg)].
  - rewrite Hn in H. apply ret_ok in H as [-> ->]. split; [done|]. by left.
  - assert (Hc : is_empty c = false) by (by destruct c). rewrite Hc, Hs in H. simpl in H.
    pose proof Hg as (_ & _ & _ & ev & _ & _ & _ & _ & _ & _ & Hd & Hv & _).
    apply PolicyValidate_ok in Hv as [_ Hf].
    apply (admit_families_spec c t (sw_db w) Hinv []) in H as [-> H]; try done.
    + split; [done|]. right. by exists root, c, p.
    + intros f Hin. split; [by apply Hf|by eapply Hdec].
    + intros f Hin. by apply not_elem_of_nil in Hin.
    + intros f Hin. by apply not_elem_of_nil in Hin.
Qed.

(** The charged call of LedgerRefine.v, under the policy of GateProps.v. *)
Definition demo_admit (t : Z) : Spend BudgetVerdict :=
  Admit (fun _ => Some demo_policy) (fun _ => Ok (mkTaskDetail demo_owner [] [] [demo_evidence] [] None))
    (fun _ => Ok [demo_owner]) t.

Lemma recovery_fits_the_program_witness :
  fst (demo_admit 1 spend_charged) = Ok (mkVerdict true "pro" 4997500 2500 NoReason)
  /\ exists root c policy,
       governed (fun _ => Some demo_policy)
         (fun _ => Ok (mkTaskDetail demo_owner [] [] [demo_evidence] [] None))
         (fun _ => Ok [demo_owner]) 1 root c policy
       /\ verdict_says c 1 (sw_db spend_charged) (mkVerdict true "pro" 4997500 2500 NoReason)
            (policy_Families policy).
Proof.
  assert (Hr : fst (demo_admit 1 spend_charged) = Ok (mkVerdict true "pro" 4997500 2500 NoReason))
    by (vm_compute; reflexivity).
  split; [exact Hr|].
  assert (Hinv : ledger_inv (sw_db spend_charged)).
  { apply (spend_moves_inv _ _ _ (moves_trans _ _ _ funded_moves
      (moves_any _ _ _ (moves_trans _ _ _ held_moves charged_moves))) (no_wallets_inv _ spend0_empty)). }
  destruct (recovery_fits_the_program (fun _ => Some demo_policy)
    (fun _ => Ok (mkTaskDetail demo_owner [] [] [demo_evidence] [] None)) (fun _ => Ok [demo_owner]) 1
    (mkVerdict true "pro" 4997500 2500 NoReason) spend_charged (snd (demo_admit 1 spend_charged)))
    as [_ [(H & _)|H]].
  - intros m p f [= <-] ->%list_elem_of_singleton. vm_compute. congruence.
  - exact Hinv.
  - change (Admit _ _ _ 1 spend_charged) with (demo_admit 1 spend_charged).
    by rewrite <- Hr, <- surjective_pairing.
  - discriminate H.
  - exact H.
Defined.
