(* ===== verification/Breaker.v ===== *)
(** * The circuit breaker

    internal/modelruntime/circuitbreaker: the consecutive-failure breaker of the
    provider adapters.  The mutex makes each method one step. *)

From stdpp Require Import base tactics list.
From Stdlib Require Import ZArith Lia.
From S2P Require Import Prelude GoLib TaskDomain.

Local Open Scope Z_scope.

(** [time.Time{}] and [IsZero] *)
Definition zeroTime : Z := -62135596800000000000.
Definition TimeIsZero (t : Z) : bool := t =? zeroTime.

Record Breaker : Type := mkBreaker {
  failureThreshold : Z;
  openDuration : Duration;
  consecutiveErrors : Z;
  openUntil : Instant }.

Definition Breaker_New (threshold : Z) (duration : Duration) : Breaker :=
  mkBreaker threshold duration 0 zeroTime.

Definition Breaker_Allow (now : Instant) (b : Breaker) : bool * Breaker :=
  if TimeIsZero (openUntil b) then (true, b)
  else if now <? openUntil b then (false, b)
  else (true, mkBreaker (failureThreshold b) (openDuration b) 0 zeroTime).

Definition Breaker_Success (b : Breaker) : Breaker :=
  mkBreaker (failureThreshold b) (openDuration b) 0 zeroTime.

Definition Breaker_Failure (now : Instant) (b : Breaker) : Breaker :=
  let errors := wrap64 (consecutiveErrors b + 1) in
  mkBreaker (failureThreshold b) (openDuration b) errors
    (if failureThreshold b <=? errors then now + openDuration b else openUntil b).

(** ** Runs *)

Inductive BreakerEvent : Type :=
| AskedAt (now : Instant)
| Succeeded
| FailedAt (now : Instant).

Definition breaker_step (b : Breaker) (e : BreakerEvent) : Breaker :=
  match e with
  | AskedAt now => snd (Breaker_Allow now b)
  | Succeeded => Breaker_Success b
  | FailedAt now => Breaker_Failure now b
  end.

Definition breaker_run (b : Breaker) (l : list BreakerEvent) : Breaker := foldl breaker_step b l.

(** The failures of a history, newest first. *)
Fixpoint failures (l : list BreakerEvent) : list Instant :=
  match l with
  | [] => []
  | FailedAt now :: rest => failures rest ++ [now]
  | _ :: rest => failures rest
  end.

Definition no_success (l : list BreakerEvent) : bool :=
  forallb (fun e => match e with Succeeded => false | _ => true end) l.

Lemma failures_app (l k : list BreakerEvent) : failures (l ++ k) = failures k ++ failures l.
Proof.
  induction l as [|[] l IH]; simpl; rewrite ?app_nil_r, ?IH; try done. by rewrite (assoc_L (++)).
Qed.

Lemma no_success_app (l k : list BreakerEvent) :
  no_success (l ++ k) = no_success l && no_success k.
Proof. apply forallb_app. Qed.

(** The state as the failures since the last reset: [recent] is a suffix of the
    history without a success that holds them. *)
Definition explains (l recent : list BreakerEvent) (b : Breaker) : Prop :=
  (exists older, l = older ++ recent) /\ no_success recent = true
  /\ 0 <= consecutiveErrors b <= Z.of_nat (length (failures recent))
  /\ match failures recent with
     | t :: _ => openUntil b = zeroTime
         \/ failureThreshold b <= consecutiveErrors b /\ openUntil b = t + openDuration b
     | [] => openUntil b = zeroTime
     end.

Lemma run_settings (b : Breaker) (l : list BreakerEvent) :
  failureThreshold (breaker_run b l) = failureThreshold b
  /\ openDuration (breaker_run b l) = openDuration b.
Proof.
  revert b. induction l as [|e l IH]; intros b; [done|]. unfold breaker_run in *. simpl.
  destruct (IH (breaker_step b e)) as [-> ->]. destruct e as [now| |now]; simpl; try done.
  unfold Breaker_Allow. repeat case_match; done.
Qed.

Lemma explains_reset (l : list BreakerEvent) (b : Breaker) :
  consecutiveErrors b = 0 -> openUntil b = zeroTime -> explains l [] b.
Proof. intros Hc Ho. split_and!; [exists l; by rewrite app_nil_r|done|lia|simpl; lia|done]. Qed.

Lemma failures_length (l : list BreakerEvent) : (length (failures l) <= length l)%nat.
Proof. induction l as [|[] l IH]; simpl; rewrite ?length_app; simpl; lia. Qed.

Lemma explained_run (threshold : Z) (d : Duration) (l : list BreakerEvent) :
  Z.of_nat (length l) <= maxInt64 ->
  exists recent, explains l recent (breaker_run (Breaker_New threshold d) l).
Proof.
  induction l as [|e l IH] using rev_ind; intros Hlen.
  - exists []. by apply explains_reset.
  - rewrite length_app in Hlen. simpl in Hlen.
    destruct IH as [recent ((older & Hl) & Hs & Hc & Ho)]; [lia|]. unfold breaker_run. rewrite foldl_snoc. fold (breaker_run (Breaker_New threshold d) l).
    set (b := breaker_run (Breaker_New threshold d) l) in *. destruct e as [now| |now]; simpl.
    + unfold Breaker_Allow. destruct (TimeIsZero (openUntil b)) eqn:Hz; [|destruct (now <? openUntil b)];
        simpl; [| |exists []; by apply explains_reset].
      all: exists (recent ++ [AskedAt now]); split_and!;
        [exists older; by rewrite Hl, (assoc_L (++))|by rewrite no_success_app, Hs|lia| |];
        rewrite failures_app; simpl; done || lia.
    + exists []. by apply explains_reset.
    + assert (Hw : wrap64 (consecutiveErrors b + 1) = consecutiveErrors b + 1).
      { apply wrap64_id. pose proof (failures_length recent) as Hfl. rewrite Hl, length_app in Hlen.
        unfold int64, minInt64, maxInt64, two63 in *. lia. }
      exists (recent ++ [FailedAt now]). split_and!.
      * exists older. by rewrite Hl, (assoc_L (++)).
      * by rewrite no_success_app, Hs.
      * simpl. rewrite Hw. lia.
      * rewrite failures_app. simpl. rewrite Hw. lia.
      * rewrite failures_app. simpl. rewrite Hw.
        destruct (failureThreshold b <=? consecutiveErrors b + 1) eqn:Ht.
        { right. split; [lia|done]. }
        destruct (failures recent) as [|t ts]; [by left|].
        destruct Ho as [Ho|[Ho _]]; [by left|lia].
Qed.

(** The breaker refuses a call only while it should: a refusal means that, since some point with no
    success after it, at least as many calls failed as the threshold says, the last of them less than
    the open duration ago. *)
Lemma breaker_refuses_with_reason (threshold : Z) (d : Duration) (l : list BreakerEvent)
    (now : Instant) :
  Z.of_nat (length l) <= maxInt64 ->
  fst (Breaker_Allow now (breaker_run (Breaker_New threshold d) l)) = false ->
  exists older recent t ts, l = older ++ recent /\ no_success recent = true
    /\ failures recent = t :: ts /\ threshold <= Z.of_nat (length (failures recent))
    /\ now < t + d.
Proof.
  intros Hlen H. destruct (explained_run threshold d l Hlen) as [recent ((older & Hl) & Hs & Hc & Ho)].
  destruct (run_settings (Breaker_New threshold d) l) as [Hth Hdu]. simpl in Hth, Hdu.
  set (b := breaker_run (Breaker_New threshold d) l) in *.
  unfold Breaker_Allow in H. destruct (TimeIsZero (openUntil b)) eqn:Hz; [done|].
  destruct (now <? openUntil b) eqn:Hn; [|done]. apply Z.ltb_lt in Hn.
  destruct (failures recent) as [|t ts] eqn:Hf; [by rewrite Ho in Hz|].
  destruct Ho as [Ho|[Ht Ho]]; [by rewrite Ho in Hz|].
  exists older, recent, t, ts. rewrite Hf. split_and!; try done; [simpl in *; lia|congruence].
Qed.

(** The errors are never negative, and a run of failures is counted from where it starts. *)
Lemma run_errors (threshold : Z) (d : Duration) (l : list BreakerEvent) :
  Z.of_nat (length l) <= maxInt64 ->
  0 <= consecutiveErrors (breaker_run (Breaker_New threshold d) l) <= Z.of_nat (length l).
Proof.
  intros Hlen. destruct (explained_run threshold d l Hlen) as [recent ((older & Hl) & _ & Hc & _)].
  pose proof (failures_length recent). pose proof (f_equal length Hl) as Hll.
  rewrite length_app in Hll. lia.
Qed.

Lemma errors_counted (b : Breaker) (ts : list Instant) (t : Instant) :
  0 <= consecutiveErrors b -> consecutiveErrors b + Z.of_nat (length ts) + 1 <= maxInt64 ->
  let b' := breaker_run b (FailedAt <$> ts ++ [t]) in
  consecutiveErrors b' = consecutiveErrors b + Z.of_nat (length ts) + 1
  /\ (failureThreshold b <= consecutiveErrors b' -> openUntil b' = t + openDuration b).
Proof.
  intros H0 Hmax. assert (Hn : forall us c, 0 <= consecutiveErrors c ->
      consecutiveErrors c + Z.of_nat (length us) <= maxInt64 ->
      consecutiveErrors (breaker_run c (FailedAt <$> us)) = consecutiveErrors c + Z.of_nat (length us)).
  { clear. induction us as [|u us IH]; intros c H0 Hmax; [simpl; lia|]. simpl in Hmax |- *.
    assert (Hw : wrap64 (consecutiveErrors c + 1) = consecutiveErrors c + 1).
    { apply wrap64_id. unfold int64, minInt64, maxInt64, two63 in *. lia. }
    change (breaker_run c (FailedAt u :: (FailedAt <$> us)))
      with (breaker_run (Breaker_Failure u c) (FailedAt <$> us)).
    rewrite IH; simpl; lia. }
  rewrite fmap_app. unfold breaker_run. rewrite foldl_app. fold (breaker_run b (FailedAt <$> ts)).
  pose proof (Hn ts b H0 ltac:(lia)) as Hc. destruct (run_settings b (FailedAt <$> ts)) as [Hth Hdu].
  simpl. rewrite Hc, Hth, Hdu. rewrite wrap64_id by (unfold int64, minInt64, maxInt64, two63 in *; lia).
  split; [lia|]. intros Hle. by replace (_ <=? _) with true by lia.
Qed.

(** C40: As many failures in a row as the threshold says open the breaker, whatever came before:
    it refuses every call until the open duration has passed since the last of them.  And it always
    recovers: once the open duration has passed since every failure of its history the next call is
    allowed; a breaker that had opened is then as good as new, and one that had not is as it was,
    with the errors it has counted. *)
Theorem breaker_recovers (threshold : Z) (d : Duration) (l : list BreakerEvent) :
  Z.of_nat (length l) <= maxInt64 ->
  let b := breaker_run (Breaker_New threshold d) l in
  (forall older ts t now, l = older ++ (FailedAt <$> ts ++ [t]) ->
     threshold <= Z.of_nat (length ts) + 1 -> now < t + d -> t + d <> zeroTime ->
     Breaker_Allow now b = (false, b))
  /\ (forall now, (forall t, t ∈ failures l -> t + d <= now) ->
     Breaker_Allow now b
     = (true, if TimeIsZero (openUntil b) then b else Breaker_New threshold d)).
Proof.
  intros Hlen b. destruct (run_settings (Breaker_New threshold d) l) as [Hth Hdu]. simpl in Hth, Hdu.
  split.
  - intros older ts t now Hl Hts Hnow Hz. unfold b in *. rewrite Hl in *. rewrite length_app, length_fmap,
      length_app in Hlen. simpl in Hlen. unfold breaker_run in *. rewrite foldl_app in *.
    fold (breaker_run (Breaker_New threshold d) older) in *.
    destruct (run_errors threshold d older) as [H0 Hle]; [lia|].
    destruct (run_settings (Breaker_New threshold d) older) as [Hth0 Hdu0]. simpl in Hth0, Hdu0.
    set (b0 := breaker_run (Breaker_New threshold d) older) in *.
    destruct (errors_counted b0 ts t H0) as [Hc Ho]; [lia|]. fold (breaker_run b0 (FailedAt <$> ts ++ [t])).
    specialize (Ho ltac:(lia)). rewrite Hdu0 in Ho. unfold Breaker_Allow, TimeIsZero. rewrite Ho.
    replace (t + d =? zeroTime) with false by lia. by replace (now <? t + d) with true by lia.
  - intros now Hall. destruct (explained_run threshold d l Hlen) as [recent ((older & Hl) & Hs & Hc & Ho)].
    fold b in Ho, Hc, Hth, Hdu. unfold Breaker_Allow. destruct (TimeIsZero (openUntil b)) eqn:Hz; [done|].
    assert (Hle : (now <? openUntil b) = false).
    { apply Z.ltb_ge. destruct (failures recent) as [|t ts] eqn:Hf; [by rewrite Ho in Hz|].
      destruct Ho as [Ho|[_ Ho]]; [by rewrite Ho in Hz|]. rewrite Ho, Hdu. apply Hall.
      rewrite Hl, failures_app, Hf. left. }
    by rewrite Hle, Hth, Hdu.
Qed.

Definition three_failures : list BreakerEvent :=
  [FailedAt 100; Succeeded; FailedAt 110; FailedAt 111; FailedAt 112; FailedAt 113].

Lemma breaker_refuses_with_reason_witness :
  fst (Breaker_Allow 120 (breaker_run (Breaker_New 3 10) three_failures)) = false
  /\ exists older recent t ts, three_failures = older ++ recent /\ no_success recent = true
       /\ failures recent = t :: ts /\ 3 <= Z.of_nat (length (failures recent)) /\ 120 < t + 10.
Proof.
  split; [vm_compute; reflexivity|].
  apply (breaker_refuses_with_reason 3 10 three_failures 120); vm_compute; congruence.
Defined.

Lemma breaker_recovers_witness :
  Breaker_Allow 122 (breaker_run (Breaker_New 3 10) three_failures)
  = (false, breaker_run (Breaker_New 3 10) three_failures)
  /\ Breaker_Allow 123 (breaker_run (Breaker_New 3 10) three_failures) = (true, Breaker_New 3 10)
  /\ consecutiveErrors (snd (Breaker_Allow 200 (breaker_run (Breaker_New 3 10) [FailedAt 100]))) = 1.
Proof.
  assert (H1 : Z.of_nat (length three_failures) <= maxInt64) by (vm_compute; congruence).
  assert (H2 : Z.of_nat (length [FailedAt 100]) <= maxInt64) by (vm_compute; congruence).
  destruct (breaker_recovers 3 10 three_failures H1) as [Hopen Hrecover].
  destruct (breaker_recovers 3 10 [FailedAt 100] H2) as [_ Hstays].
  split; [|split].
  - apply (Hopen [FailedAt 100; Succeeded] [110; 111; 112] 113); vm_compute; congruence.
  - rewrite Hrecover; [vm_compute; reflexivity|].
    intros t Ht. unfold three_failures in Ht. simpl in Ht. rewrite !elem_of_cons in Ht.
    destruct Ht as [->|[->|[->|[->|[->|Ht]]]]]; [lia..|by apply not_elem_of_nil in Ht].
  - rewrite Hstays; [vm_compute; reflexivity|].
    intros t Ht. simpl in Ht. apply list_elem_of_singleton in Ht. lia.
Defined.
