(* ===== verification/DispatchDB.v ===== *)
(** * The model runtime's database

    The tables of migrations 000007 to 000011, 000018, 000038, 000049, 000055,
    000059, 000062, 000071, 000072 and 000081 that internal/modelruntime/postgres,
    internal/modeldispatch/postgres and internal/modelidentity/postgres write,
    with their CHECK constraints and unique indexes, the errors of the four
    packages, and transactions on the tables.

    The columns of a row that no statement updates are grouped in a record of
    their own.  A nullable text column that the code scans through
    [nullableString] is a string, empty for NULL. *)

From stdpp Require Import base tactics list gmap strings sorting.
From Stdlib Require Import ZArith Lia Ascii.
From S2P Require Import Prelude GoLib TaskDomain Database.

Local Open Scope string_scope.
Local Open Scope Z_scope.

(** ** modelruntime/errors.go, modelegress/errors.go, modeldispatch/errors.go,
    modelidentity/errors.go *)

(** An error is the sentinel it wraps.  A sentinel of the same name in two
    packages carries its package's name. *)
Inductive DispatchError : Type :=
| ErrRuntimeInvalidRequest | ErrRuntimeNotFound | ErrRuntimeConflict
| ErrClaimUnavailable | ErrConcurrencyLimit | ErrClaimTokenMismatch
| ErrExecutionPrincipalMismatch | ErrEgressPolicyUnpinned | ErrDispatcherAssignmentUnpinned
| ErrExecutionIdentityUnpinned | ErrExecutionIdentityDenied | ErrProviderOutcomeUnknown
| ErrEvaluationConflict | ErrClaimMismatch | ErrPolicyUnpinned
| ErrDispatchNotFound | ErrDispatchConflict | ErrDispatchInvalidRequest
| ErrAssignmentInactive | ErrAssignmentExpired | ErrAssignmentExhausted | ErrAssignmentConflict
| ErrAssertionInvalid | ErrReplayDenied | ErrChallengeExpired | ErrPolicyStale
| ErrInvalidKey | ErrKeyInactive | ErrKeyNotFound | ErrPolicyNotFound
| ErrNoCapacity
| ErrRoutingPolicyMalformed | ErrRouteNotApproved | ErrBindingNotFound
| ErrDisabled | ErrProviderUnavailable | ErrCapabilityMismatch | ErrAuthorizationDenied
| ErrEgressDenied | ErrEgressEvaluation | ErrContextRejected | ErrModelInputSecretRejected
| ErrTaskAttemptRejected | ErrAmbiguousOutcome | ErrResponseRejected | ErrCancellationRequested
| ErrAssignmentUnavailable | ErrAssignmentRevisionDrift | ErrAssignmentVigencyExpired
| ErrAssignmentQuotaExhausted | ErrExecutionPrincipalDisabled
| ErrHost
| ErrPg (code : string).

#[export] Instance DispatchError_eq_dec : EqDecision DispatchError.
Proof. solve_decision. Defined.

(** ** modelruntime/domain.go *)

Inductive InvocationStatus : Type :=
| InvocationRequested | InvocationClaimed | InvocationSendStarted | InvocationResponseReceived
| InvocationSucceeded | InvocationFailed | InvocationCancelled | InvocationAmbiguous.

#[export] Instance InvocationStatus_eq_dec : EqDecision InvocationStatus.
Proof. solve_decision. Defined.

Definition InvocationTerminal (s : InvocationStatus) : bool :=
  match s with
  | InvocationSucceeded | InvocationFailed | InvocationCancelled | InvocationAmbiguous => true
  | _ => false
  end.

Definition ProviderExecutionMayHaveStarted (s : InvocationStatus) : bool :=
  match s with
  | InvocationSendStarted | InvocationResponseReceived => true
  | _ => false
  end.

Inductive DispatchStatus : Type :=
| DispatchClaimed | DispatchSendStarted | DispatchResponseReceived
| DispatchFailedBeforeSend | DispatchAmbiguous | DispatchCompleted.

#[export] Instance DispatchStatus_eq_dec : EqDecision DispatchStatus.
Proof. solve_decision. Defined.

Inductive RetrySafety : Type := RetrySafeBeforeSend | RetryUnsafeAfterSend | RetryNotRetryable.

#[export] Instance RetrySafety_eq_dec : EqDecision RetrySafety.
Proof. solve_decision. Defined.

Inductive OutputMode : Type := OutputText | OutputJSON.

#[export] Instance OutputMode_eq_dec : EqDecision OutputMode.
Proof. solve_decision. Defined.

(** The columns of an invocation that its INSERT alone writes.  A float64 is
    its decimal text. *)
Record InvocationColumns : Type := mkInvocationColumns {
  inv_OrganizationID : string;
  inv_OrganizationRevisionID : Z;
  inv_TaskID : Z;
  inv_AttemptID : Z;
  inv_DispatchActorRoleID : string;
  inv_SubjectRoleID : string;
  inv_DispatcherAssignmentID : option Z;
  inv_ExecutionPrincipalID : option Z;
  inv_ContextSnapshotID : Z;
  inv_Purpose : string;
  inv_ModelProfileID : string;
  inv_ModelProfileVersionID : Z;
  inv_ProviderID : string;
  inv_ProviderModelID : string;
  inv_ModelEgressPolicyVersionID : option Z;
  inv_ModelEgressPolicyHash : string;
  inv_ExecutionIdentityPolicyVersionID : option Z;
  inv_ExecutionIdentityPolicyHash : string;
  inv_RequiredCapabilities : list string;
  inv_OutputMode : OutputMode;
  inv_OutputSchema : string;
  inv_MaxOutputTokens : Z;
  inv_Temperature : option string;
  inv_ThinkingMode : string;
  inv_IdempotencyKey : string;
  inv_RequestHash : string;
  inv_IdempotencyIntentHash : string;
  inv_RoutingMode : string;
  inv_RoutingPolicyID : string;
  inv_RoutingSelectorID : string;
  inv_RoutingCandidateSetHash : string;
  inv_RoutingCandidateHash : string;
  inv_RoutingDecisionReason : string;
  inv_Deadline : Instant;
  inv_CorrelationID : string;
  inv_CausationID : string }.

Record Invocation : Type := mkInvocation {
  inv_ID : Z;
  inv_Columns : InvocationColumns;
  inv_Status : InvocationStatus;
  inv_ErrorCode : string;
  inv_CancelRequestedAt : option Instant;
  inv_CreatedAt : Instant;
  inv_UpdatedAt : Instant;
  inv_TerminalAt : option Instant }.

(** [claim_token_hash] and [runtime_build_sha] are columns the Go struct does
    not carry. *)
Record ClaimColumns : Type := mkClaimColumns {
  datt_InvocationID : Z;
  datt_AttemptNumber : Z;
  datt_TokenHash : string;
  datt_ClaimedBy : string;
  datt_ExecutionPrincipalID : option Z;
  datt_ClaimedAt : Instant;
  datt_RuntimeBuildSHA : string;
  datt_CreatedAt : Instant }.

(** The three identity columns are NULL together
    ([model_dispatch_attempts_identity_fields_check]). *)
Record IdentityColumns : Type := mkIdentityColumns {
  datt_ExecutionIdentityKeyID : Z;
  datt_IdentityAssertionID : Z;
  datt_IdentityVerifiedAt : Instant }.

Record DispatchAttempt : Type := mkDispatchAttempt {
  datt_ID : Z;
  datt_Claim : ClaimColumns;
  datt_Status : DispatchStatus;
  datt_Identity : option IdentityColumns;
  datt_ClaimExpiresAt : Instant;
  datt_SendStartedAt : option Instant;
  datt_ResponseReceivedAt : option Instant;
  datt_ProviderRequestID : string;
  datt_ProviderIdempotencyKeyHash : string;
  datt_RetrySafety : RetrySafety;
  datt_OutcomeClassification : string;
  datt_ErrorCode : string;
  datt_FinishedAt : option Instant }.

Definition att_invocation (a : DispatchAttempt) : Z := datt_InvocationID (datt_Claim a).
Definition att_token (a : DispatchAttempt) : string := datt_TokenHash (datt_Claim a).

Record ClaimedInvocation : Type := mkClaimedInvocation {
  claimed_Invocation : Invocation;
  claimed_DispatchAttempt : DispatchAttempt;
  claimed_ClaimToken : string }.

Record ModelUsage : Type := mkModelUsage {
  usage_InvocationID : Z;
  usage_DispatchAttemptID : Z;
  usage_InputTokens : Z;
  usage_OutputTokens : Z;
  usage_TotalTokens : Z;
  usage_ProviderReported : bool;
  usage_PromptCacheHitTokens : option Z;
  usage_PromptCacheMissTokens : option Z }.

(** The arguments of a tool intent and the JSON output are JSON texts. *)
Record ToolIntent : Type := mkToolIntent {
  intent_ID : string;
  intent_Name : string;
  intent_Arguments : string }.

Record InvocationResult : Type := mkInvocationResult {
  result_ID : Z;
  result_InvocationID : Z;
  result_DispatchAttemptID : Z;
  result_OutputMode : OutputMode;
  result_TextOutput : string;
  result_JSONOutput : string;
  result_ToolIntents : list ToolIntent;
  result_ResponseHash : string;
  result_ResponseBytes : Z;
  result_CreatedAt : Instant }.

Record NormalizedResponse : Type := mkNormalizedResponse {
  nresp_Result : InvocationResult;
  nresp_Usage : ModelUsage;
  nresp_ProviderRequestID : string;
  nresp_CancellationConfirmed : bool;
  nresp_RoleReasoning : string }.

Record RuntimeConfig : Type := mkRuntimeConfig {
  rt_GlobalConcurrency : Z;
  rt_ClaimTTL : Duration;
  rt_OutboxMaxAttempts : Z }.

(** ** modelruntime/provider_adapter.go *)

Inductive OutcomeClass : Type :=
| ProviderOutcomeResponseReceived | ProviderOutcomeRejected | ProviderOutcomeNotSent
| ProviderOutcomeAmbiguous | ProviderOutcomeCancelled
| ProviderOutcomeOther (s : string).

#[export] Instance OutcomeClass_eq_dec : EqDecision OutcomeClass.
Proof. solve_decision. Defined.

Inductive AdapterFailurePhase : Type :=
| AdapterFailureBeforeRequest | AdapterFailureResponseReceived | AdapterFailureAmbiguous.

Definition TransportCLI : string := "cli_adapter".
Definition TransportHTTP : string := "http_adapter".
Definition TransportFake : string := "fake_adapter".

Record ProviderOutcome : Type := mkProviderOutcome {
  out_Classification : OutcomeClass;
  out_ProviderRequestID : string;
  out_Transport : string;
  out_HTTPStatus : Z;
  out_ProcessExitCode : option Z;
  out_ErrorClass : string;
  out_ErrorCode : string;
  out_Retryable : bool;
  out_ResponseHash : string;
  out_ResponseSchemaVersion : string;
  out_CancellationConfirmed : bool;
  out_FinishReason : string;
  out_ResponseContentBytes : option Z;
  out_UsageAvailable : bool;
  out_InputTokens : option Z;
  out_OutputTokens : option Z;
  out_CacheHitTokens : option Z;
  out_CacheMissTokens : option Z;
  out_ResponseFormat : string;
  out_MaxOutputTokens : option Z;
  out_RequestDuration : option Duration;
  out_JSONErrorClass : string;
  out_JSONErrorOffset : option Z;
  out_StartsWithJSONObject : option bool;
  out_EndsWithJSONObject : option bool }.

(** A row of [model_provider_outcomes]. *)
Record OutcomeRow : Type := mkOutcomeRow {
  outcome_ID : Z;
  outcome_RequestRecordID : Z;
  outcome_OrganizationID : string;
  outcome_InvocationID : Z;
  outcome_DispatchAttemptID : Z;
  outcome_Value : ProviderOutcome;
  outcome_Phase : AdapterFailurePhase;
  outcome_RawContent : option string }.

(** ** modelegress/domain.go *)

Inductive EgressEffect : Type :=
| EffectAllow | EffectDeny | EffectError | EffectNotEvaluated | EffectOther (s : string).

#[export] Instance EgressEffect_eq_dec : EqDecision EgressEffect.
Proof. solve_decision. Defined.

Inductive AuthorizationEffect : Type :=
| AuthorizationAllow | AuthorizationDeny | AuthorizationError | AuthorizationOther (s : string).

#[export] Instance AuthorizationEffect_eq_dec : EqDecision AuthorizationEffect.
Proof. solve_decision. Defined.

Record PreSendEvaluation : Type := mkPreSendEvaluation {
  eval_InvocationID : Z;
  eval_DispatchAttemptID : Z;
  eval_PolicyVersionID : Z;
  eval_PolicyHash : string;
  eval_OrganizationID : string;
  eval_OrganizationRevisionID : Z;
  eval_DispatchActorRoleID : string;
  eval_SubjectRoleID : string;
  eval_ModelProfileVersionID : Z;
  eval_ProviderID : string;
  eval_ProviderTransport : string;
  eval_ActionDigest : string;
  eval_CapabilityMatrixHash : string;
  eval_ContextClassifications : list string;
  eval_ContextClassificationsHash : string;
  eval_AuthorizationEffect : AuthorizationEffect;
  eval_AuthorizationReasonCode : string;
  eval_EgressEffect : EgressEffect;
  eval_EgressReasonCodes : list string;
  eval_DecisionHash : string;
  eval_CorrelationID : string;
  eval_CausationID : string }.

Record ProviderRequestEvidence : Type := mkProviderRequestEvidence {
  evid_ModelProfileID : string;
  evid_ProviderModelID : string;
  evid_AdapterID : string;
  evid_AdapterVersion : Z;
  evid_RequestSchemaVersion : string;
  evid_ResponseSchemaVersion : string;
  evid_RequestHash : string;
  evid_EndpointFingerprint : string;
  evid_CredentialRefHash : string }.

Record PersistAllowCommand : Type := mkPersistAllowCommand {
  allow_Evaluation : PreSendEvaluation;
  allow_ClaimToken : string;
  allow_ProviderIdempotencyKeyHash : string;
  allow_ProviderRequest : ProviderRequestEvidence;
  allow_Deadline : Instant }.

Record PersistDenyCommand : Type := mkPersistDenyCommand {
  deny_Evaluation : PreSendEvaluation;
  deny_ClaimToken : string;
  deny_ErrorCode : string;
  deny_OutboxMaxAttempts : Z }.

Record EvaluationRow : Type := mkEvaluationRow {
  evaluation_ID : Z;
  evaluation_Value : PreSendEvaluation }.

(** A row of [model_provider_requests]. *)
Record ProviderRequestRow : Type := mkProviderRequestRow {
  request_ID : Z;
  request_OrganizationID : string;
  request_InvocationID : Z;
  request_DispatchAttemptID : Z;
  request_EvaluationID : Z;
  request_AssignmentUseID : Z;
  request_IdentityAssertionID : Z;
  request_ProviderID : string;
  request_Evidence : ProviderRequestEvidence;
  request_IdempotencyKeyHash : string;
  request_Deadline : Instant }.

(** ** modeldispatch/domain.go *)

Inductive AssignmentStatus : Type :=
| AssignmentActive | AssignmentExhausted | AssignmentExpired | AssignmentRevoked.

#[export] Instance AssignmentStatus_eq_dec : EqDecision AssignmentStatus.
Proof. solve_decision. Defined.

Definition AssignmentTerminal (s : AssignmentStatus) : bool :=
  match s with AssignmentActive => false | _ => true end.

(** The columns of an assignment that its INSERT alone writes. *)
Record AssignmentScope : Type := mkAssignmentScope {
  asg_OrganizationID : string;
  asg_OrganizationRevisionID : Z;
  asg_TaskID : Z;
  asg_AttemptID : Z;
  asg_SubjectRoleID : string;
  asg_DispatchActorRoleID : string;
  asg_ExecutionPrincipalID : Z;
  asg_ValidFrom : Instant;
  asg_ValidUntil : Instant;
  asg_MaxInvocations : Z;
  asg_AssignmentHash : string;
  asg_IdempotencyKey : string;
  asg_RequestHash : string;
  asg_CreatedByRoleID : string;
  asg_CreatedAt : Instant }.

(** [revoked_at], [revoked_by_role_id] and [revocation_reason_code]. *)
Record Revocation : Type := mkRevocation {
  revoked_At : Instant;
  revoked_ByRoleID : string;
  revoked_ReasonCode : string }.

Record DispatcherAssignment : Type := mkDispatcherAssignment {
  asg_ID : Z;
  asg_Scope : AssignmentScope;
  asg_Status : AssignmentStatus;
  asg_UsedInvocations : Z;
  asg_UpdatedAt : Instant;
  asg_TerminalAt : option Instant;
  asg_Revocation : option Revocation }.

Record AssignmentUse : Type := mkAssignmentUse {
  use_ID : Z;
  use_OrganizationID : string;
  use_AssignmentID : Z;
  use_InvocationID : Z;
  use_DispatchAttemptID : Z;
  use_ExecutionPrincipalID : Z;
  use_UsedAt : Instant;
  use_UsageHash : string }.

(** ** modelidentity/domain.go *)

Inductive KeyStatus : Type := KeyActive | KeyRetiring | KeyRetired | KeyRevoked.

#[export] Instance KeyStatus_eq_dec : EqDecision KeyStatus.
Proof. solve_decision. Defined.

Record ExecutionIdentityKey : Type := mkExecutionIdentityKey {
  key_ID : Z;
  key_OrganizationID : string;
  key_ExecutionPrincipalID : Z;
  key_Algorithm : string;
  key_PublicKey : string;
  key_Status : KeyStatus;
  key_ValidFrom : Instant;
  key_ValidUntil : option Instant }.

Inductive PolicyStatus : Type := PolicyActive | PolicySuperseded.

#[export] Instance PolicyStatus_eq_dec : EqDecision PolicyStatus.
Proof. solve_decision. Defined.

Record IdentityPolicy : Type := mkIdentityPolicy {
  idpol_ID : Z;
  idpol_OrganizationID : string;
  idpol_CanonicalHash : string;
  idpol_ChallengeTTLSeconds : Z;
  idpol_ClockSkewSeconds : Z;
  idpol_Status : PolicyStatus }.

Record ChallengeScope : Type := mkChallengeScope {
  scope_OrganizationID : string;
  scope_OrganizationRevisionID : Z;
  scope_InvocationID : Z;
  scope_DispatcherAssignmentID : Z;
  scope_ExecutionPrincipalID : Z;
  scope_ExecutionIdentityPolicyVersionID : Z;
  scope_ExecutionIdentityPolicyHash : string;
  scope_ExecutionIdentityKeyID : Z;
  scope_ActionDigest : string;
  scope_RequestHash : string }.

Record Challenge : Type := mkChallenge {
  chal_ID : Z;
  chal_Scope : ChallengeScope;
  chal_NonceHash : string;
  chal_PayloadHash : string;
  chal_IssuedAt : Instant;
  chal_ExpiresAt : Instant;
  chal_ConsumedAt : option Instant;
  chal_InvalidatedAt : option Instant;
  chal_CreatedAt : Instant }.

Record AssertionRow : Type := mkAssertionRow {
  assertion_ID : Z;
  assertion_OrganizationID : string;
  assertion_ChallengeID : Z;
  assertion_InvocationID : Z;
  assertion_DispatchAttemptID : Z;
  assertion_ExecutionPrincipalID : Z;
  assertion_ExecutionIdentityKeyID : Z;
  assertion_PayloadHash : string;
  assertion_SignatureHash : string;
  assertion_Hash : string;
  assertion_Allows : bool;
  assertion_VerifiedAt : Instant }.

(** ** The other tables *)

(** [model_invocation_inputs]: the canonical bytes decode to the envelope whose
    fields the other columns repeat. *)
Record ModelInput : Type := mkModelInput {
  input_SchemaVersion : string;
  input_ContextSnapshotID : Z;
  input_CanonicalBytes : string;
  input_CanonicalDigest : string;
  input_ProjectionDigest : string;
  input_StablePrefixDigest : string;
  input_Classifications : list string;
  input_ClassificationsHash : string }.

Record Reasoning : Type := mkReasoning {
  reason_DispatchAttemptID : Z;
  reason_Content : string;
  reason_ContentHash : string;
  reason_ContentBytes : Z }.

(** [model_routing_capacity_state] *)
Record CapacityState : Type := mkCapacityState {
  cap_Disabled : bool;
  cap_QuotaExhausted : bool;
  cap_CooldownUntil : option Instant;
  cap_ConsecutiveFailures : Z;
  cap_LastOutcomeID : option Z;
  cap_LastInvocationID : Z;
  cap_LastDispatchAttemptID : Z;
  cap_LastOutcome : ProviderOutcome;
  cap_LastObservedAt : Instant }.

Record AuditRow : Type := mkAuditRow {
  arow_EventType : string;
  arow_ActorType : string;
  arow_ActorID : string;
  arow_SubjectType : string;
  arow_SubjectID : string;
  arow_CorrelationID : string;
  arow_CausationID : string;
  arow_Payload : Payload }.

(** A row the model runtime adds to [outbox_events], pending. *)
Record OutboxMessage : Type := mkOutboxMessage {
  msg_AggregateID : string;
  msg_EventType : string;
  msg_Payload : Payload;
  msg_MaxAttempts : Z }.

(** The results, the usage, the reasoning and the input of an invocation are keyed
    by the invocation, which is unique in each of these tables. *)
Record DispatchDB : Type := mkDispatchDB {
  md_invocations : gmap Z Invocation;
  md_attempts : gmap Z DispatchAttempt;
  md_inputs : gmap Z ModelInput;
  md_results : gmap Z InvocationResult;
  md_usage : gmap Z ModelUsage;
  md_reasoning : gmap Z Reasoning;
  md_requests : list ProviderRequestRow;
  md_outcomes : list OutcomeRow;
  md_capacity : gmap (string * string * string) CapacityState;
  md_assignments : gmap Z DispatcherAssignment;
  md_uses : list AssignmentUse;
  md_evaluations : list EvaluationRow;
  md_challenges : gmap Z Challenge;
  md_keys : gmap Z ExecutionIdentityKey;
  md_policies : gmap Z IdentityPolicy;
  md_assertions : list AssertionRow;
  md_audit : list AuditRow;
  md_outbox : list OutboxMessage }.

Definition put_invocations (v : gmap Z Invocation) (d : DispatchDB) : DispatchDB :=
  mkDispatchDB v (md_attempts d) (md_inputs d) (md_results d) (md_usage d) (md_reasoning d)
    (md_requests d) (md_outcomes d) (md_capacity d) (md_assignments d) (md_uses d)
    (md_evaluations d) (md_challenges d) (md_keys d) (md_policies d) (md_assertions d)
    (md_audit d) (md_outbox d).
Definition put_attempts (v : gmap Z DispatchAttempt) (d : DispatchDB) : DispatchDB :=
  mkDispatchDB (md_invocations d) v (md_inputs d) (md_results d) (md_usage d) (md_reasoning d)
    (md_requests d) (md_outcomes d) (md_capacity d) (md_assignments d) (md_uses d)
    (md_evaluations d) (md_challenges d) (md_keys d) (md_policies d) (md_assertions d)
    (md_audit d) (md_outbox d).
Definition put_inputs (v : gmap Z ModelInput) (d : DispatchDB) : DispatchDB :=
  mkDispatchDB (md_invocations d) (md_attempts d) v (md_results d) (md_usage d) (md_reasoning d)
    (md_requests d) (md_outcomes d) (md_capacity d) (md_assignments d) (md_uses d)
    (md_evaluations d) (md_challenges d) (md_keys d) (md_policies d) (md_assertions d)
    (md_audit d) (md_outbox d).
Definition put_results (v : gmap Z InvocationResult) (d : DispatchDB) : DispatchDB :=
  mkDispatchDB (md_invocations d) (md_attempts d) (md_inputs d) v (md_usage d) (md_reasoning d)
    (md_requests d) (md_outcomes d) (md_capacity d) (md_assignments d) (md_uses d)
    (md_evaluations d) (md_challenges d) (md_keys d) (md_policies d) (md_assertions d)
    (md_audit d) (md_outbox d).
Definition put_usage (v : gmap Z ModelUsage) (d : DispatchDB) : DispatchDB :=
  mkDispatchDB (md_invocations d) (md_attempts d) (md_inputs d) (md_results d) v
    (md_reasoning d) (md_requests d) (md_outcomes d) (md_capacity d) (md_assignments d)
    (md_uses d) (md_evaluations d) (md_challenges d) (md_keys d) (md_policies d)
    (md_assertions d) (md_audit d) (md_outbox d).
Definition put_reasoning (v : gmap Z Reasoning) (d : DispatchDB) : DispatchDB :=
  mkDispatchDB (md_invocations d) (md_attempts d) (md_inputs d) (md_results d) (md_usage d) v
    (md_requests d) (md_outcomes d) (md_capacity d) (md_assignments d) (md_uses d)
    (md_evaluations d) (md_challenges d) (md_keys d) (md_policies d) (md_assertions d)
    (md_audit d) (md_outbox d).
Definition put_requests (v : list ProviderRequestRow) (d : DispatchDB) : DispatchDB :=
  mkDispatchDB (md_invocations d) (md_attempts d) (md_inputs d) (md_results d) (md_usage d)
    (md_reasoning d) v (md_outcomes d) (md_capacity d) (md_assignments d) (md_uses d)
    (md_evaluations d) (md_challenges d) (md_keys d) (md_policies d) (md_assertions d)
    (md_audit d) (md_outbox d).
Definition put_outcomes (v : list OutcomeRow) (d : DispatchDB) : DispatchDB :=
  mkDispatchDB (md_invocations d) (md_attempts d) (md_inputs d) (md_results d) (md_usage d)
    (md_reasoning d) (md_requests d) v (md_capacity d) (md_assignments d) (md_uses d)
    (md_evaluations d) (md_challenges d) (md_keys d) (md_policies d) (md_assertions d)
    (md_audit d) (md_outbox d).
Definition put_capacity (v : gmap (string * string * string) CapacityState)
    (d : DispatchDB) : DispatchDB :=
  mkDispatchDB (md_invocations d) (md_attempts d) (md_inputs d) (md_results d) (md_usage d)
    (md_reasoning d) (md_requests d) (md_outcomes d) v (md_assignments d) (md_uses d)
    (md_evaluations d) (md_challenges d) (md_keys d) (md_policies d) (md_assertions d)
    (md_audit d) (md_outbox d).
Definition put_assignments (v : gmap Z DispatcherAssignment) (d : DispatchDB) : DispatchDB :=
  mkDispatchDB (md_invocations d) (md_attempts d) (md_inputs d) (md_results d) (md_usage d)
    (md_reasoning d) (md_requests d) (md_outcomes d) (md_capacity d) v (md_uses d)
    (md_evaluations d) (md_challenges d) (md_keys d) (md_policies d) (md_assertions d)
    (md_audit d) (md_outbox d).
Definition put_uses (v : list AssignmentUse) (d : DispatchDB) : DispatchDB :=
  mkDispatchDB (md_invocations d) (md_attempts d) (md_inputs d) (md_results d) (md_usage d)
    (md_reasoning d) (md_requests d) (md_outcomes d) (md_capacity d) (md_assignments d) v
    (md_evaluations d) (md_challenges d) (md_keys d) (md_policies d) (md_assertions d)
    (md_audit d) (md_outbox d).
Definition put_evaluations (v : list EvaluationRow) (d : DispatchDB) : DispatchDB :=
  mkDispatchDB (md_invocations d) (md_attempts d) (md_inputs d) (md_results d) (md_usage d)
    (md_reasoning d) (md_requests d) (md_outcomes d) (md_capacity d) (md_assignments d)
    (md_uses d) v (md_challenges d) (md_keys d) (md_policies d) (md_assertions d) (md_audit d)
    (md_outbox d).
Definition put_challenges (v : gmap Z Challenge) (d : DispatchDB) : DispatchDB :=
  mkDispatchDB (md_invocations d) (md_attempts d) (md_inputs d) (md_results d) (md_usage d)
    (md_reasoning d) (md_requests d) (md_outcomes d) (md_capacity d) (md_assignments d)
    (md_uses d) (md_evaluations d) v (md_keys d) (md_policies d) (md_assertions d) (md_audit d)
    (md_outbox d).
Definition put_keys (v : gmap Z ExecutionIdentityKey) (d : DispatchDB) : DispatchDB :=
  mkDispatchDB (md_invocations d) (md_attempts d) (md_inputs d) (md_results d) (md_usage d)
    (md_reasoning d) (md_requests d) (md_outcomes d) (md_capacity d) (md_assignments d)
    (md_uses d) (md_evaluations d) (md_challenges d) v (md_policies d) (md_assertions d)
    (md_audit d) (md_outbox d).
Definition put_policies (v : gmap Z IdentityPolicy) (d : DispatchDB) : DispatchDB :=
  mkDispatchDB (md_invocations d) (md_attempts d) (md_inputs d) (md_results d) (md_usage d)
    (md_reasoning d) (md_requests d) (md_outcomes d) (md_capacity d) (md_assignments d)
    (md_uses d) (md_evaluations d) (md_challenges d) (md_keys d) v (md_assertions d)
    (md_audit d) (md_outbox d).
Definition put_assertions (v : list AssertionRow) (d : DispatchDB) : DispatchDB :=
  mkDispatchDB (md_invocations d) (md_attempts d) (md_inputs d) (md_results d) (md_usage d)
    (md_reasoning d) (md_requests d) (md_outcomes d) (md_capacity d) (md_assignments d)
    (md_uses d) (md_evaluations d) (md_challenges d) (md_keys d) (md_policies d) v (md_audit d)
    (md_outbox d).
Definition put_audit (v : list AuditRow) (d : DispatchDB) : DispatchDB :=
  mkDispatchDB (md_invocations d) (md_attempts d) (md_inputs d) (md_results d) (md_usage d)
    (md_reasoning d) (md_requests d) (md_outcomes d) (md_capacity d) (md_assignments d)
    (md_uses d) (md_evaluations d) (md_challenges d) (md_keys d) (md_policies d)
    (md_assertions d) v (md_outbox d).
Definition put_outbox (v : list OutboxMessage) (d : DispatchDB) : DispatchDB :=
  mkDispatchDB (md_invocations d) (md_attempts d) (md_inputs d) (md_results d) (md_usage d)
    (md_reasoning d) (md_requests d) (md_outcomes d) (md_capacity d) (md_assignments d)
    (md_uses d) (md_evaluations d) (md_challenges d) (md_keys d) (md_policies d)
    (md_assertions d) (md_audit d) v.

Definition emptyDispatchDB : DispatchDB :=
  mkDispatchDB ∅ ∅ ∅ ∅ ∅ ∅ [] [] ∅ ∅ [] [] ∅ ∅ ∅ [] [] [].

(** The tables with an identity column. *)
Inductive dispatch_table : Type :=
| TInvocations | TDispatchAttempts | TResults | TRequests | TOutcomes | TAssignments | TUses
| TEvaluations | TChallenges | TAssertions.

#[export] Instance dispatch_table_eq_dec : EqDecision dispatch_table.
Proof. solve_decision. Defined.

(** ** The world

    Clock readings, random tokens and identity sequences are not undone by a
    rollback. *)

Record DispatchWorld : Type := mkDispatchWorld {
  dw_db : DispatchDB;
  dw_seq : dispatch_table -> Z;
  dw_tick : nat;
  dw_random : nat;
  dw_now : Instant }.

Notation Disp := (Comp DispatchError DispatchWorld).

Definition dw_set (d : DispatchDB) (w : DispatchWorld) : DispatchWorld :=
  mkDispatchWorld d (dw_seq w) (dw_tick w) (dw_random w) (dw_now w).

Section Primitives.
Context `{Env}.

Definition dp_get : Disp DispatchDB := fun w => (Ok (dw_db w), w).
Definition dp_modify (f : DispatchDB -> DispatchDB) : Disp unit :=
  fun w => (Ok tt, dw_set (f (dw_db w)) w).

(** [clock_timestamp()] *)
Definition dp_clock : Disp Instant := fun w =>
  (Ok (env_clock (dw_tick w)),
   mkDispatchWorld (dw_db w) (dw_seq w) (S (dw_tick w)) (dw_random w) (dw_now w)).

(** [NOW()], the time the transaction began. *)
Definition dp_now : Disp Instant := fun w => (Ok (dw_now w), w).

Definition dp_nextval (t : dispatch_table) : Disp Z := fun w =>
  (Ok (dw_seq w t),
   mkDispatchWorld (dw_db w) (fun t' => if decide (t' = t) then dw_seq w t + 1 else dw_seq w t')
     (dw_tick w) (dw_random w) (dw_now w)).

Definition dp_random : Disp (option string) := fun w =>
  (Ok (env_random (dw_random w)),
   mkDispatchWorld (dw_db w) (dw_seq w) (dw_tick w) (S (dw_random w)) (dw_now w)).

(** The [withTx] of the three stores: begin, run, commit; an error rolls the
    tables back. *)
Definition dp_tx {A} (fn : Disp A) : Disp A := fun w =>
  let w0 := mkDispatchWorld (dw_db w) (dw_seq w) (S (dw_tick w)) (dw_random w)
              (env_clock (dw_tick w)) in
  match fn w0 with
  | (Ok a, w') => (Ok a, w')
  | (Err e, w') => (Err e, dw_set (dw_db w) w')
  end.

End Primitives.

(** The [mapError] of modelruntime/postgres/errors.go on what the statements
    can raise: a unique index, a foreign key and a CHECK, no row. *)
Definition dp_unique (b : bool) : Disp unit := throwIf (negb b) ErrRuntimeConflict.
Definition dp_foreign_key (b : bool) : Disp unit := throwIf (negb b) ErrRuntimeInvalidRequest.
Definition dp_check (b : bool) : Disp unit := throwIf (negb b) ErrRuntimeInvalidRequest.
Definition dp_row {A} (o : option A) : Disp A :=
  match o with Some a => ret a | None => throw ErrRuntimeNotFound end.

(** ** CHECK constraints *)

Definition digest_or_null (s : string) : bool := is_empty s || MatchString digestPattern s.
Definition trimmed (lo hi : Z) (s : string) : bool := between lo hi (pg_length (pg_trim s)).

Definition columns_check (c : InvocationColumns) : bool :=
  trimmed 1 4000 (inv_Purpose c)
  && trimmed 1 200 (inv_IdempotencyKey c)
  && MatchString digestPattern (inv_RequestHash c)
  && between 1 1048576 (inv_MaxOutputTokens c)
  && (bool_decide (inv_ThinkingMode c = "disabled") || bool_decide (inv_ThinkingMode c = "opaque"))
  && (pg_length (inv_CorrelationID c) <=? 200)
  && (pg_length (inv_CausationID c) <=? 200)
  && (is_empty (inv_OutputSchema c) || bool_decide (inv_OutputMode c = OutputJSON))
  && Bool.eqb (is_some (inv_ModelEgressPolicyVersionID c))
       (negb (is_empty (inv_ModelEgressPolicyHash c)))
  && digest_or_null (inv_ModelEgressPolicyHash c)
  && Bool.eqb (is_some (inv_DispatcherAssignmentID c)) (is_some (inv_ExecutionPrincipalID c))
  && Bool.eqb (is_some (inv_ExecutionIdentityPolicyVersionID c))
       (negb (is_empty (inv_ExecutionIdentityPolicyHash c)))
  && digest_or_null (inv_ExecutionIdentityPolicyHash c)
  && digest_or_null (inv_IdempotencyIntentHash c)
  && digest_or_null (inv_RoutingCandidateHash c)
  && (pg_length (inv_RoutingDecisionReason c) <=? 500).

(** The checks on the columns an UPDATE writes, and the deadline. *)
Definition invocation_check (i : Invocation) : bool :=
  (is_empty (inv_ErrorCode i) || trimmed 1 120 (inv_ErrorCode i))
  && (inv_CreatedAt i <? inv_Deadline (inv_Columns i))
  && (inv_CreatedAt i <=? inv_UpdatedAt i)
  && null_or (fun t => inv_CreatedAt i <=? t) (inv_CancelRequestedAt i)
  && null_or (fun t => inv_CreatedAt i <=? t) (inv_TerminalAt i)
  && Bool.eqb (InvocationTerminal (inv_Status i)) (is_some (inv_TerminalAt i)).

Definition attempt_active (a : DispatchAttempt) : bool :=
  match datt_Status a with
  | DispatchClaimed | DispatchSendStarted | DispatchResponseReceived => true
  | _ => false
  end.

Definition dispatch_attempt_check (a : DispatchAttempt) : bool :=
  let c := datt_Claim a in
  (0 <? datt_AttemptNumber c)
  && MatchString digestPattern (datt_TokenHash c)
  && trimmed 1 200 (datt_ClaimedBy c)
  && (datt_ClaimedAt c <? datt_ClaimExpiresAt a)
  && (pg_length (datt_ProviderRequestID a) <=? 400)
  && digest_or_null (datt_ProviderIdempotencyKeyHash a)
  && (is_empty (datt_OutcomeClassification a) || trimmed 1 160 (datt_OutcomeClassification a))
  && (is_empty (datt_ErrorCode a) || trimmed 1 120 (datt_ErrorCode a))
  && null_or (fun t => datt_ClaimedAt c <=? t) (datt_SendStartedAt a)
  && null_or (fun t => match datt_SendStartedAt a with Some s => s <=? t | None => false end)
       (datt_ResponseReceivedAt a)
  && null_or (fun t => datt_ClaimedAt c <=? t) (datt_FinishedAt a)
  && (bool_decide (datt_Status a = DispatchClaimed) || is_some (datt_SendStartedAt a)
      || bool_decide (datt_Status a = DispatchFailedBeforeSend))
  && (negb (bool_decide (datt_Status a = DispatchResponseReceived))
      || is_some (datt_ResponseReceivedAt a))
  && (bool_decide (datt_Status a = DispatchClaimed)
      || bool_decide (datt_Status a = DispatchFailedBeforeSend)
      || negb (is_empty (datt_ProviderIdempotencyKeyHash a)))
  && Bool.eqb (negb (attempt_active a)) (is_some (datt_FinishedAt a)).

Definition usage_check (u : ModelUsage) : bool :=
  (0 <=? usage_InputTokens u) && (0 <=? usage_OutputTokens u)
  && (usage_TotalTokens u =? usage_InputTokens u + usage_OutputTokens u)
  && null_or (fun n => 0 <=? n) (usage_PromptCacheHitTokens u)
  && null_or (fun n => 0 <=? n) (usage_PromptCacheMissTokens u).

Definition result_check (r : InvocationResult) : bool :=
  MatchString digestPattern (result_ResponseHash r) && (0 <=? result_ResponseBytes r).

Definition assignment_check (a : DispatcherAssignment) : bool :=
  let s := asg_Scope a in
  between 1 1000000 (asg_MaxInvocations s)
  && between 0 (asg_MaxInvocations s) (asg_UsedInvocations a)
  && MatchString digestPattern (asg_AssignmentHash s)
  && MatchString digestPattern (asg_RequestHash s)
  && (asg_ValidFrom s <? asg_ValidUntil s)
  && (asg_CreatedAt s - 60000000 <=? asg_ValidFrom s)
  && trimmed 1 200 (asg_IdempotencyKey s)
  && trimmed 1 200 (asg_CreatedByRoleID s)
  && (asg_CreatedAt s <=? asg_UpdatedAt a)
  && null_or (fun t => asg_CreatedAt s <=? t) (asg_TerminalAt a)
  && Bool.eqb (AssignmentTerminal (asg_Status a)) (is_some (asg_TerminalAt a))
  && Bool.eqb (bool_decide (asg_Status a = AssignmentRevoked)) (is_some (asg_Revocation a)).

Definition challenge_check (c : Challenge) : bool :=
  let s := chal_Scope c in
  MatchString digestPattern (scope_ExecutionIdentityPolicyHash s)
  && MatchString digestPattern (chal_NonceHash c)
  && MatchString digestPattern (chal_PayloadHash c)
  && MatchString digestPattern (scope_ActionDigest s)
  && MatchString digestPattern (scope_RequestHash s)
  && (chal_IssuedAt c <? chal_ExpiresAt c)
  && null_or (fun t => chal_IssuedAt c <=? t) (chal_ConsumedAt c)
  && null_or (fun t => chal_IssuedAt c <=? t) (chal_InvalidatedAt c)
  && negb (is_some (chal_ConsumedAt c) && is_some (chal_InvalidatedAt c)).

(** ** Runs *)

Section Runs.
Context `{Env}.

Lemma dp_get_ok (d : DispatchDB) (w w' : DispatchWorld) :
  dp_get w = (Ok d, w') <-> d = dw_db w /\ w' = w.
Proof. unfold dp_get. naive_solver. Qed.

Lemma dp_modify_ok (f : DispatchDB -> DispatchDB) (u : unit) (w w' : DispatchWorld) :
  dp_modify f w = (Ok u, w') <-> w' = dw_set (f (dw_db w)) w.
Proof. unfold dp_modify. destruct u. naive_solver. Qed.

Lemma dp_row_ok {A} (o : option A) (a : A) (w w' : DispatchWorld) :
  dp_row o w = (Ok a, w') <-> o = Some a /\ w' = w.
Proof. destruct o; simpl; unfold ret, throw; naive_solver. Qed.

Lemma dp_check_ok (b : bool) (u : unit) (w w' : DispatchWorld) :
  dp_check b w = (Ok u, w') <-> b = true /\ w' = w.
Proof. unfold dp_check. rewrite throwIf_ok, negb_false_iff. done. Qed.

Lemma dp_foreign_key_ok (b : bool) (u : unit) (w w' : DispatchWorld) :
  dp_foreign_key b w = (Ok u, w') <-> b = true /\ w' = w.
Proof. apply dp_check_ok. Qed.

Lemma dp_unique_ok (b : bool) (u : unit) (w w' : DispatchWorld) :
  dp_unique b w = (Ok u, w') <-> b = true /\ w' = w.
Proof. unfold dp_unique. rewrite throwIf_ok, negb_false_iff. done. Qed.

End Runs.
