(* ===== verification/Schema.v ===== *)
(** * Schemas of answers

    internal/modelruntime/validation.go: the schemas of answers and of tools, the
    check of a value against one, and the patterns of names.

    The code reads a stored schema with unchecked type assertions; where one
    fails it panics, and so does the model.  The order in which a Go map is
    visited decides which message is reported, not whether one is. *)

From stdpp Require Import base tactics list gmap strings.
From Stdlib Require Import ZArith Lia Ascii.
From S2P Require Import Prelude GoLib Json TaskDomain.

Local Open Scope string_scope.
Local Open Scope Z_scope.

(** ** Numbers of a schema *)

Definition decimal_value (l : bytes) : Z := fold_left (fun n c => 10 * n + (byte_of c - 48)) l 0.

(** The parts of a JSON number: its sign, digits, fraction and exponent. *)
Record Literal : Type := mkLiteral {
  lit_Negative : bool;
  lit_Integer : bytes;
  lit_Fraction : bytes;
  lit_Exponent : Z }.

Definition literal_parts (l : bytes) : option Literal :=
  let (sign, r0) := scan_one (is_byte 45) l in
  let (int, r1) := span_digits r0 in
  let (dot, r2) := scan_one (is_byte 46) r1 in
  let (frac, r3) := match dot with [] => ([], r2) | _ => span_digits r2 end in
  let (mark, r4) := scan_one (fun c => is_byte 101 c || is_byte 69 c) r3 in
  let (esign, r5) := scan_one (fun c => is_byte 43 c || is_byte 45 c) r4 in
  let (digits, _) := span_digits r5 in
  let e := match esign with
           | [c] => if is_byte 45 c then - decimal_value digits else decimal_value digits
           | _ => decimal_value digits
           end in
  if (minInt64 <=? e) && (e <=? maxInt64)
  then Some (mkLiteral (negb (bool_decide (sign = []))) int frac (match mark with [] => 0 | _ => e end))
  else None.

(** A rational number [rat_Mantissa * 10 ^ rat_Exponent]. *)
Record Rat : Type := mkRat { rat_Mantissa : Z; rat_Exponent : Z }.

(** [big.Rat.SetString] of a JSON number: exponents beyond a million are not read. *)
Definition Rat_SetString (s : string) : option Rat :=
  p ← literal_parts (to_bytes s);
  let m := decimal_value (lit_Integer p ++ lit_Fraction p) in
  let m := if lit_Negative p then - m else m in
  if m =? 0 then Some (mkRat 0 0)
  else
    let e := wrap64 (lit_Exponent p - Z.of_nat (length (lit_Fraction p))) in
    if (e <? - 1000000) || (1000000 <? e) then None else Some (mkRat m e).

(** The numbers on a common exponent. *)
Definition Rat_aligned (a b : Rat) : Z * Z :=
  let k := Z.min (rat_Exponent a) (rat_Exponent b) in
  (rat_Mantissa a * 10 ^ (rat_Exponent a - k), rat_Mantissa b * 10 ^ (rat_Exponent b - k)).

(** [a.Cmp(b) < 0] *)
Definition Rat_lt (a b : Rat) : bool := let (x, y) := Rat_aligned a b in x <? y.

Definition Rat_IsInt (a : Rat) : bool :=
  (0 <=? rat_Exponent a) || (rat_Mantissa a mod 10 ^ (- rat_Exponent a) =? 0).

(** A decoded value is never a float64 or an int. *)
Definition parseFiniteRat (raw : Any) : option Rat :=
  match raw with ANumber s => Rat_SetString s | _ => None end.

(** [n.Int64()] *)
Definition Number_Int64 (s : string) : option Z :=
  let (sign, digits) := scan_one (is_byte 45) (to_bytes s) in
  let (int, rest) := span_digits digits in
  let v := match sign with [] => decimal_value int | _ => - decimal_value int end in
  match int, rest with
  | _ :: _, [] => if (minInt64 <=? v) && (v <=? maxInt64) then Some v else None
  | _, _ => None
  end.

(** [v == int64(float64(v))] for a positive [v]: its binary digits fit the 53 of
    a float64. *)
Definition float64_exact (v : Z) : bool := v mod 2 ^ Z.max 0 (Z.log2 v - 52) =? 0.

(** ** validation.go: schemas *)

Definition validSchemaType (t : string) : bool :=
  bool_decide (t ∈ ["object"; "array"; "string"; "number"; "integer"; "boolean"; "null"]).

Definition schema_keywords : list string :=
  ["type"; "required"; "properties"; "items"; "additionalProperties"; "enum"; "description";
   "maxLength"; "minimum"; "maximum"].

(** A keyword that is absent, or whose value is acceptable. *)
Definition keyword (k : string) (ok : Any -> bool) (schema : list (string * Any)) : bool :=
  match any_get k schema with Some raw => ok raw | None => true end.

Definition schema_type (schema : list (string * Any)) : string :=
  match any_get "type" schema with Some (AString t) => t | _ => "" end.

Fixpoint required_ok (seen : list string) (items : list Any) : bool :=
  match items with
  | [] => true
  | AString s :: rest =>
      negb (is_empty (TrimSpace s)) && negb (bool_decide (s ∈ seen)) && required_ok (s :: seen) rest
  | _ :: _ => false
  end.

(** [minimum] and [maximum]. *)
Definition bound_ok (schema : list (string * Any)) (raw : Any) : bool :=
  let t := schema_type schema in
  (bool_decide (t = "number") || bool_decide (t = "integer"))
  && match parseFiniteRat raw with
     | Some r => negb (bool_decide (t = "integer")) || Rat_IsInt r
     | None => false
     end.

Definition bounds_ordered (schema : list (string * Any)) : bool :=
  match any_get "minimum" schema ≫= parseFiniteRat, any_get "maximum" schema ≫= parseFiniteRat with
  | Some lo, Some hi => negb (Rat_lt hi lo)
  | _, _ => true
  end.

Definition maxLength_ok (raw : Any) : bool :=
  match raw with
  | ANumber s => match Number_Int64 s with Some v => (0 <? v) && float64_exact v | None => false end
  | _ => false
  end.

(** [levels] is how many levels may still be entered; [validateSchemaDefinition(schema, depth)]
    is [validateSchemaDefinition (21 - depth) schema]. *)
Fixpoint validateSchemaDefinition (levels : nat) (schema : list (string * Any)) : bool :=
  match levels with
  | O => false
  | S n =>
      keyword "type" (fun raw => match raw with AString t => validSchemaType t | _ => false end) schema
      && keyword "required" (fun raw => match raw with AArray l => required_ok [] l | _ => false end)
           schema
      && keyword "properties" (fun raw =>
           match raw with
           | AObject props => forallb (fun '(name, child) =>
               negb (is_empty (TrimSpace name))
               && match child with AObject c => validateSchemaDefinition n c | _ => false end) props
           | _ => false
           end) schema
      && keyword "items" (fun raw =>
           match raw with AObject c => validateSchemaDefinition n c | _ => false end) schema
      && keyword "additionalProperties" (fun raw => match raw with ABool _ => true | _ => false end)
           schema
      && keyword "maxLength" maxLength_ok schema
      && keyword "minimum" (bound_ok schema) schema
      && keyword "maximum" (bound_ok schema) schema
      && bounds_ordered schema
      && forallb (fun '(k, _) => bool_decide (k ∈ schema_keywords)) schema
  end.

Definition maxSchemaLevels : nat := 21.

Definition matchesType (v : Any) (t : string) : bool :=
  match v with
  | AObject _ => bool_decide (t = "object")
  | AArray _ => bool_decide (t = "array")
  | AString _ => bool_decide (t = "string")
  | ANumber s =>
      bool_decide (t = "number")
      || (bool_decide (t = "integer") && match Rat_SetString s with Some r => Rat_IsInt r | None => false end)
  | ABool _ => bool_decide (t = "boolean")
  | ANil => bool_decide (t = "null")
  end.

(** What comparing a value with a schema ends in. *)
Inductive Verdict : Type := Matches | Mismatch | Panics.

#[export] Instance Verdict_eq_dec : EqDecision Verdict.
Proof. solve_decision. Defined.

(** The next check, when this one passed. *)
Definition and_then (a b : Verdict) : Verdict := match a with Matches => b | _ => a end.

Definition verdict (ok : bool) : Verdict := if ok then Matches else Mismatch.

(** [for ... { if err := check(x); err != nil { return err } }] *)
Fixpoint check_all {A} (check : A -> Verdict) (l : list A) : Verdict :=
  match l with [] => Matches | x :: rest => and_then (check x) (check_all check rest) end.

Definition check_type (value : Any) (schema : list (string * Any)) : Verdict :=
  match any_get "type" schema with
  | Some (AString t) => verdict (matchesType value t)
  | Some _ => Panics
  | None => Matches
  end.

(** [below v b] says that [v] is outside the bound [b]; a bound that is no number is
    skipped. *)
Definition check_bound (key : string) (outside : Rat -> Rat -> bool) (value : Any)
    (schema : list (string * Any)) : Verdict :=
  match any_get key schema ≫= parseFiniteRat with
  | Some bound =>
      match parseFiniteRat value with
      | Some v => verdict (negb (outside v bound))
      | None => Mismatch
      end
  | None => Matches
  end.

Definition check_enum (value : Any) (schema : list (string * Any)) : Verdict :=
  match any_get "enum" schema with
  | Some (AArray candidates) =>
      verdict (existsb (fun c => bool_decide (CanonicalJSON value = CanonicalJSON c)) candidates)
  | _ => Matches
  end.

Definition check_required (obj schema : list (string * Any)) : Verdict :=
  match any_get "required" schema with
  | Some (AArray items) =>
      check_all (fun item => match item with
                             | AString k => verdict (bool_decide (is_Some (any_get k obj)))
                             | _ => Panics
                             end) items
  | _ => Matches
  end.

Definition schema_properties (schema : list (string * Any)) : list (string * Any) :=
  match any_get "properties" schema with Some (AObject props) => props | _ => [] end.

Definition additional_allowed (schema : list (string * Any)) : bool :=
  match any_get "additionalProperties" schema with Some (ABool flag) => flag | _ => true end.

Definition schema_items (schema : list (string * Any)) : option (list (string * Any)) :=
  match any_get "items" schema with Some (AObject child) => Some child | _ => None end.

(** The checks on the value itself. *)
Definition check_here (value : Any) (schema : list (string * Any)) : Verdict :=
  and_then (check_type value schema)
  (and_then (check_bound "minimum" Rat_lt value schema)
  (and_then (check_bound "maximum" (fun v b => Rat_lt b v) value schema)
            (check_enum value schema))).

Fixpoint validateAgainstSchema (value : Any) (schema : list (string * Any)) : Verdict :=
  and_then (check_here value schema)
    match value with
    | AObject obj =>
        and_then (check_required obj schema)
          ((fix entries (l : list (string * Any)) : Verdict :=
              match l with
              | [] => Matches
              | (k, v) :: rest =>
                  and_then
                    match any_get k (schema_properties schema) with
                    | Some (AObject child) => validateAgainstSchema v child
                    | Some _ => Panics
                    | None => verdict (additional_allowed schema)
                    end
                    (entries rest)
              end) obj)
    | AArray arr =>
        match schema_items schema with
        | Some child =>
            (fix elements (l : list Any) : Verdict :=
               match l with
               | [] => Matches
               | v :: rest => and_then (validateAgainstSchema v child) (elements rest)
               end) arr
        | None => Matches
        end
    | _ => Matches
    end.

(** ** Patterns *)

(** Between 0 and [n] times. *)
Fixpoint RUpTo (n : nat) (r : regex) : regex :=
  match n with
  | O => REps
  | S n => RAlt REps (RSeq r (RUpTo n r))
  end.

Definition alnum_ranges : list (ascii * ascii) :=
  [("a"%char, "z"%char); ("A"%char, "Z"%char); ("0"%char, "9"%char)].

Definition name_bytes (more : list ascii) : regex :=
  RCls (alnum_ranges ++ ((fun c => (c, c)) <$> more)).

(** [^[a-zA-Z0-9][a-zA-Z0-9._-]{0,127}$] *)
Definition toolNamePattern : regex :=
  RSeq (RCls alnum_ranges) (RUpTo 127 (name_bytes ["."%char; "_"%char; "-"%char])).

(** [^[A-Za-z0-9][A-Za-z0-9._:-]{0,199}$] *)
Definition modelInputCallIDPattern : regex :=
  RSeq (RCls alnum_ranges) (RUpTo 199 (name_bytes ["."%char; "_"%char; ":"%char; "-"%char])).

(** [^[a-z0-9]+(?:[._/-][a-z0-9]+)*$] *)
Definition roleIDPattern : regex :=
  RSeq (RPlus lower_alnum)
    (RStar (RSeq (RCls [("."%char, "."%char); ("_"%char, "_"%char); ("/"%char, "/"%char);
                        ("-"%char, "-"%char)])
              (RPlus lower_alnum))).
