(* ===== verification/Normalizer.v ===== *)
(** * Answers of the models

    internal/modelruntime/normalizer.go: what an adapter returned becomes the
    response that is stored, or is rejected. *)

From stdpp Require Import base tactics list gmap strings.
From Stdlib Require Import ZArith Lia Ascii.
From S2P Require Import Prelude GoLib Json TaskDomain Database DispatchDB Schema.

Local Open Scope string_scope.
Local Open Scope Z_scope.

Record RawToolIntent : Type := mkRawToolIntent {
  rintent_ID : string;
  rintent_Name : string;
  rintent_Arguments : string }.

Record RawResponse : Type := mkRawResponse {
  raw_Content : string;
  raw_ToolIntents : list RawToolIntent;
  raw_HiddenReasoning : string;
  raw_ProviderRequestID : string;
  raw_InputTokens : Z;
  raw_OutputTokens : Z;
  raw_ProviderReported : bool;
  raw_CancellationConfirmed : bool;
  raw_ProviderOutcome : ProviderOutcome;
  raw_PromptCacheHitTokens : option Z;
  raw_PromptCacheMissTokens : option Z }.

Record Normalizer : Type := mkNormalizer {
  norm_MaxResponseBytes : Z;
  norm_MaxToolIntents : Z }.

(** [ErrResponseRejected], or the process panics. *)
Inductive NormalizeError : Type := ResponseRejected | NormalizePanics.

Notation norm := (result NormalizeError).

Definition reject_response (b : bool) : norm unit := rejectIf b ResponseRejected.

Definition accepted {A} (o : option A) : norm A :=
  match o with Some a => Ok a | None => Err ResponseRejected end.

(** [content[:limit]] when it is longer. *)
Definition boundedPrefix (content : string) (limit : Z) : string :=
  if len content <=? limit then content else of_bytes (take (Z.to_nat limit) (to_bytes content)).

Definition boundedReasoning (reasoning : string) (limit : Z) : string :=
  if is_empty reasoning then EmptyString
  else if (0 <? limit) && (limit <? len reasoning)
  then of_bytes (take (Z.to_nat limit) (to_bytes reasoning))
  else reasoning.

(** [utf8.Valid] *)
Fixpoint valid_utf8 (fuel : nat) (l : bytes) : bool :=
  match fuel, l with
  | _, [] => true
  | O, _ => false
  | S n, c :: r =>
      if byte_of c <? 128 then valid_utf8 n r
      else match rune_size l with O => false | k => valid_utf8 n (drop k l) end
  end.

Definition utf8_Valid (s : string) : bool := valid_utf8 (String.length s) (to_bytes s).

(** A canonical text that is not blank. *)
Definition canonical_text (raw : string) : norm string :=
  let? body := accepted (CanonicalizeRawJSON raw) in
  check? reject_response (is_empty body) in
  Ok body.

(** The loop over the tool intents: [seen] are the call IDs, [total] the bytes so far. *)
Fixpoint normalize_intents (limit : Z) (seen : list string) (total : Z) (l : list RawToolIntent)
    : norm (list ToolIntent * Z) :=
  match l with
  | [] => Ok ([], total)
  | i :: rest =>
      let callID := TrimSpace (rintent_ID i) in
      check? reject_response (negb (is_empty callID)
                              && negb (MatchString modelInputCallIDPattern callID)) in
      check? reject_response (negb (is_empty callID) && bool_decide (callID ∈ seen)) in
      let seen := if is_empty callID then seen else callID :: seen in
      let name := TrimSpace (rintent_Name i) in
      check? reject_response (negb (MatchString toolNamePattern name)) in
      let? arguments := canonical_text (rintent_Arguments i) in
      let total := total + len name + len arguments in
      check? reject_response (limit <? total) in
      let? r := normalize_intents limit seen total rest in
      Ok (mkToolIntent callID name arguments :: fst r, snd r)
  end.

Definition intents_bytes (l : list ToolIntent) : Z :=
  foldr (fun i n => len (intent_Name i) + len (intent_Arguments i) + n) 0 l.

(** The answer matches the schema of the call, when it has one. *)
Definition match_schema (canonical schemaText : string) : norm unit :=
  if is_empty schemaText then Ok tt
  else
    let? value := accepted (decodeJSONWithNumbers canonical) in
    let? schemaValue := accepted (decodeJSONWithNumbers schemaText) in
    match schemaValue with
    | AObject schema =>
        match validateAgainstSchema value schema with
        | Matches => Ok tt
        | Mismatch => Err ResponseRejected
        | Panics => Err NormalizePanics
        end
    | _ => Err ResponseRejected
    end.

(** [json.Marshal] of a tool intent, read back. *)
Definition intent_value (i : ToolIntent) : option Any :=
  arguments ← decodeJSONWithNumbers (intent_Arguments i);
  Some (AObject ((if is_empty (intent_ID i) then [] else [("id", AString (intent_ID i))])
                 ++ [("name", AString (intent_Name i)); ("arguments", arguments)])).

Definition output_mode_text (m : OutputMode) : string :=
  match m with OutputText => "text" | OutputJSON => "json" end.

(** The body whose digest is the hash of the response; that of a JSON response is
    built after, and instead of, that of its empty text. *)
Definition response_body (r : InvocationResult) : option string :=
  intents ← mapM intent_value (result_ToolIntents r);
  let mode := AString (output_mode_text (result_OutputMode r)) in
  text ← CanonicalJSON (AObject [("content", ANil); ("output_mode", mode);
                                 ("text", AString (result_TextOutput r));
                                 ("tool_intents", AArray intents)]);
  match result_OutputMode r with
  | OutputText => Some text
  | OutputJSON =>
      value ← decodeJSONWithNumbers (result_JSONOutput r);
      CanonicalJSON (AObject [("json", value); ("output_mode", mode);
                              ("tool_intents", AArray intents)])
  end.

Section Normalize.
Context `{Env}.

(** The result carries [ResponseHash] and [ResponseBytes] once both are known; its
    row and time are the store's to give. *)
Definition normalized_result (i : Invocation) (attempt : Z) (text json : string)
    (intents : list ToolIntent) (hash : string) (size : Z) : InvocationResult :=
  mkInvocationResult 0 (inv_ID i) attempt (inv_OutputMode (inv_Columns i)) text json intents hash
    size zeroInstant.

(** The output: the text, the JSON and the bytes of the whole. *)
Definition normalize_output (n : Normalizer) (i : Invocation) (raw : RawResponse)
    (intents : list ToolIntent) (total : Z) : norm (string * string * Z) :=
  match inv_OutputMode (inv_Columns i) with
  | OutputText =>
      check? reject_response (negb (utf8_Valid (raw_Content raw))) in
      Ok (raw_Content raw, EmptyString, total)
  | OutputJSON =>
      let? canonical := canonical_text (raw_Content raw) in
      check? match_schema canonical (inv_OutputSchema (inv_Columns i)) in
      let total := len canonical + intents_bytes intents in
      check? reject_response (norm_MaxResponseBytes n <? total) in
      Ok (EmptyString, canonical, total)
  end.

Definition normalized_usage (i : Invocation) (attempt : Z) (raw : RawResponse) : ModelUsage :=
  mkModelUsage (inv_ID i) attempt (raw_InputTokens raw) (raw_OutputTokens raw)
    (wrap64 (raw_InputTokens raw + raw_OutputTokens raw)) (raw_ProviderReported raw)
    (raw_PromptCacheHitTokens raw) (raw_PromptCacheMissTokens raw).

Definition Normalize (n : Normalizer) (i : Invocation) (attempt : Z) (raw : RawResponse)
    : norm NormalizedResponse :=
  check? reject_response ((norm_MaxResponseBytes n <? 1) || (norm_MaxToolIntents n <? 0)) in
  check? reject_response (norm_MaxToolIntents n <? Z.of_nat (length (raw_ToolIntents raw))) in
  check? reject_response (400 <? len (raw_ProviderRequestID raw)) in
  check? reject_response ((raw_InputTokens raw <? 0) || (raw_OutputTokens raw <? 0)
                          || (maxInt64 - raw_OutputTokens raw <? raw_InputTokens raw)) in
  let roleReasoning := boundedReasoning (raw_HiddenReasoning raw) (norm_MaxResponseBytes n) in
  let? r := normalize_intents (norm_MaxResponseBytes n) [] (len (raw_Content raw))
              (raw_ToolIntents raw) in
  let (intents, total) := r in
  check? reject_response (norm_MaxResponseBytes n <? total) in
  let? o := normalize_output n i raw intents total in
  let '(text, json, size) := o in
  let? body := accepted (response_body (normalized_result i attempt text json intents "" 0)) in
  Ok (mkNormalizedResponse
        (normalized_result i attempt text json intents (env_sha256_hex body) size)
        (normalized_usage i attempt raw) (raw_ProviderRequestID raw)
        (raw_CancellationConfirmed raw) roleReasoning).

End Normalize.
