(* ===== verification/Egress.v ===== *)
(** * Model egress

    internal/modelegress: what a policy lets out (evaluator.go), which rules a
    registered plan becomes (validation.go, postgres/store.go), the scopes an
    execution earns (executive_scope.go), and the validation of the record of a
    decision (hashing.go, validation.go). *)

From stdpp Require Import base tactics list gmap strings sorting.
From Stdlib Require Import ZArith Lia Ascii.
From S2P Require Import Prelude GoLib TaskDomain Database TaskValidation DispatchDB.

Local Open Scope string_scope.
Local Open Scope Z_scope.

(** ** domain.go *)

Record EgressRule : Type := mkEgressRule {
  rule_ProviderID : string;
  rule_DataClassification : string;
  rule_Effect : EgressEffect;
  rule_ReasonCode : string;
  rule_HardDeny : bool }.

Record HardDeny : Type := mkHardDeny {
  hard_DataClassification : string;
  hard_ReasonCode : string }.

(** The fields of [CanonicalPolicy] a plan is judged and materialized by. *)
Record CanonicalPolicy : Type := mkCanonicalPolicy {
  canon_PolicyID : string;
  canon_PolicyVersion : Z;
  canon_DefaultAction : EgressEffect;
  canon_HardDenies : list HardDeny;
  canon_Rules : list EgressRule;
  canon_CanonicalHash : string }.

Record RegistryPlan : Type := mkRegistryPlan {
  plan_OrganizationID : string;
  plan_OrganizationRevisionID : Z;
  plan_CanonicalHash : string;
  plan_Policy : CanonicalPolicy }.

Record ResolvedPolicy : Type := mkResolvedPolicy {
  pol_VersionID : Z;
  pol_PolicyVersion : Z;
  pol_VersionHash : string;
  pol_VersionOrganizationID : string;
  pol_VersionStatus : string;
  pol_OrganizationRevisionID : Z;
  pol_CanonicalHash : string;
  pol_DefaultAction : EgressEffect;
  pol_Rules : list EgressRule }.

Record EvaluationRequest : Type := mkEvaluationRequest {
  ereq_ProviderID : string;
  ereq_ProviderTransport : string;
  ereq_OrganizationRevisionID : Z;
  ereq_Policy : ResolvedPolicy;
  ereq_ContextClassifications : list string }.

Record EgressDecision : Type := mkDecision {
  dec_Effect : EgressEffect;
  dec_ReasonCodes : list string;
  dec_Classifications : list string;
  dec_ClassificationsHash : string }.

Definition ClassificationPublic : string := "public".
Definition ClassificationSanitized : string := "sanitized".
Definition ClassificationOrganizational : string := "organizational".
Definition ClassificationSecret : string := "secret".
Definition ClassificationClinical : string := "clinical".
Definition ClassificationUnknown : string := "unknown".

(** ** canonical_policy.go: identifiers *)

(** [^[a-z0-9]+([._-][a-z0-9]+)*$] *)
Definition canonicalIdentifierPattern : regex :=
  RSeq (RPlus lower_alnum)
    (RStar (RSeq (RCls [("."%char, "."%char); ("_"%char, "_"%char); ("-"%char, "-"%char)])
              (RPlus lower_alnum))).

Definition validReasonCode (value : string) : bool :=
  between 1 120 (len value) && MatchString canonicalIdentifierPattern value.

(** ** hashing.go *)

(** The keys of a Go map, sorted. *)
Definition sorted_set (l : list string) : list string := order_by string_le (remove_dups l).

Definition known_class (s : string) : bool :=
  bool_decide (s ∈ [ClassificationPublic; ClassificationSanitized; ClassificationOrganizational;
                    ClassificationSecret; ClassificationClinical; ClassificationUnknown]).

Definition normal_class (value : string) : string :=
  let value := ToLower (TrimSpace value) in
  if is_empty value || known_class value then value else ClassificationUnknown.

Definition normal_classes (values : list string) : list string :=
  sorted_set (filter (fun s => is_empty s = false) (normal_class <$> values)).

Definition NormalizeReasonCodes (values : list string) : list string :=
  sorted_set (filter (fun s => is_empty s = false) (TrimSpace <$> values)).

Section Hashing.
Context `{Env}.

(** [json.Marshal] and SHA-256. *)
Definition json_digest (v : JSON) : string := env_sha256_hex (env_json_marshal v).

Definition NormalizeClassifications (values : list string) : list string * string :=
  let normalized := normal_classes values in
  (normalized, json_digest (JArr (JStr <$> normalized))).

Definition egress_effect_text (e : EgressEffect) : string :=
  match e with
  | EffectAllow => "allow" | EffectDeny => "deny" | EffectError => "error"
  | EffectNotEvaluated => "not_evaluated" | EffectOther s => s
  end.

Definition authorization_effect_text (e : AuthorizationEffect) : string :=
  match e with
  | AuthorizationAllow => "allow" | AuthorizationDeny => "deny" | AuthorizationError => "error"
  | AuthorizationOther s => s
  end.

Definition DecisionHash (e : PreSendEvaluation) : string :=
  let (classifications, classificationsHash) :=
    NormalizeClassifications (eval_ContextClassifications e) in
  let reasons := NormalizeReasonCodes (eval_EgressReasonCodes e) in
  json_digest (JObj [
    ("invocation_id", JInt (eval_InvocationID e));
    ("dispatch_attempt_id", JInt (eval_DispatchAttemptID e));
    ("organization_id", JStr (eval_OrganizationID e));
    ("organization_revision_id", JInt (eval_OrganizationRevisionID e));
    ("model_profile_version_id", JInt (eval_ModelProfileVersionID e));
    ("provider_id", JStr (eval_ProviderID e));
    ("provider_transport", JStr (eval_ProviderTransport e));
    ("policy_version_id", JInt (eval_PolicyVersionID e));
    ("policy_hash", JStr (eval_PolicyHash e));
    ("action_digest", JStr (eval_ActionDigest e));
    ("capability_matrix_hash", JStr (eval_CapabilityMatrixHash e));
    ("context_classifications", JArr (JStr <$> classifications));
    ("classifications_hash", JStr classificationsHash);
    ("authorization_effect", JStr (authorization_effect_text (eval_AuthorizationEffect e)));
    ("authorization_reason_code", JStr (eval_AuthorizationReasonCode e));
    ("egress_effect", JStr (egress_effect_text (eval_EgressEffect e)));
    ("egress_reason_codes", JArr (JStr <$> reasons))]).

(** ** evaluator.go *)

Definition validProviderTransport (value : string) : bool :=
  bool_decide (TrimSpace value ∈ [TransportCLI; TransportHTTP; TransportFake]).

Definition validRuntimeClassification (value : string) : bool :=
  bool_decide (value ∈ [ClassificationPublic; ClassificationSanitized;
    ClassificationOrganizational; ClassificationSecret; ClassificationClinical]).

(** The two maps of the rules: the hard denies and the provider's rules; a
    later rule of the same classification replaces an earlier one. *)
Definition index_rule (provider : string)
    (st : gmap string EgressRule * gmap string EgressRule * bool) (rule : EgressRule)
    : gmap string EgressRule * gmap string EgressRule * bool :=
  let '(hard, rules, known) := st in
  if bool_decide (rule_ProviderID rule = "*") && rule_HardDeny rule
  then (<[rule_DataClassification rule := rule]> hard, rules, known)
  else if bool_decide (rule_ProviderID rule = provider)
  then (hard, <[rule_DataClassification rule := rule]> rules, true)
  else st.

Definition index_rules (provider : string) (l : list EgressRule)
    : gmap string EgressRule * gmap string EgressRule * bool :=
  foldl (index_rule provider) (∅, ∅, false) l.

(** What the rules say of one classification: whether it may leave, and why. *)
Definition classify (rules : gmap string EgressRule) (classification : string) : bool * string :=
  if negb (validRuntimeClassification classification) then (false, "unknown_classification")
  else match rules !! classification with
       | None => (false, "egress_combination_undeclared")
       | Some rule => (bool_decide (rule_Effect rule = EffectAllow), rule_ReasonCode rule)
       end.

Definition policy_unresolved (r : EvaluationRequest) : bool :=
  let p := ereq_Policy r in
  (pol_VersionID p <=? 0) || (pol_PolicyVersion p <=? 0)
  || negb (bool_decide (pol_DefaultAction p = EffectDeny))
  || negb (MatchString digestPattern (pol_CanonicalHash p))
  || negb (bool_decide (pol_VersionHash p = pol_CanonicalHash p))
  || negb (pol_OrganizationRevisionID p =? ereq_OrganizationRevisionID r)
  || negb (bool_decide (pol_VersionStatus p = "materialized")).

(** The decision, and whether an error comes with it. *)
Definition Evaluate (r : EvaluationRequest) : EgressDecision * option DispatchError :=
  let (classes, classHash) := NormalizeClassifications (ereq_ContextClassifications r) in
  let decide_ effect reasons := mkDecision effect reasons classes classHash in
  let provider := TrimSpace (ereq_ProviderID r) in
  let '(hard, rules, knownProvider) := index_rules provider (pol_Rules (ereq_Policy r)) in
  let hardReasons := omap (fun c => rule_ReasonCode <$> hard !! c) classes in
  let verdicts := classify rules <$> classes in
  if policy_unresolved r then (decide_ EffectDeny ["egress_policy_unresolved"], None)
  else if negb (validProviderTransport (ereq_ProviderTransport r))
  then (decide_ EffectError ["provider_transport_invalid"], Some ErrEvaluationConflict)
  else if is_empty provider then (decide_ EffectDeny ["provider_undeclared"], None)
  else if bool_decide (classes = [])
  then (decide_ EffectDeny ["empty_classification_set"], None)
  else if negb (bool_decide (hardReasons = []))
  then (decide_ EffectDeny (NormalizeReasonCodes hardReasons), None)
  else if negb knownProvider then (decide_ EffectDeny ["provider_undeclared"], None)
  else (decide_ (if forallb fst verdicts then EffectAllow else EffectDeny)
          (NormalizeReasonCodes (snd <$> verdicts)), None).

(** ** validation.go *)

Definition ValidatePreSendEvaluation (e : PreSendEvaluation) : result DispatchError unit :=
  let fails b := rejectIf b ErrEvaluationConflict in
  let (classes, classHash) := NormalizeClassifications (eval_ContextClassifications e) in
  let reasons := NormalizeReasonCodes (eval_EgressReasonCodes e) in
  check? fails ((eval_InvocationID e <=? 0) || (eval_DispatchAttemptID e <=? 0)
                || (eval_PolicyVersionID e <=? 0) || (eval_OrganizationRevisionID e <=? 0)
                || (eval_ModelProfileVersionID e <=? 0)) in
  check? fails (is_empty (TrimSpace (eval_OrganizationID e))
                || is_empty (TrimSpace (eval_DispatchActorRoleID e))
                || is_empty (TrimSpace (eval_SubjectRoleID e))
                || is_empty (TrimSpace (eval_ProviderID e))) in
  check? fails (negb (validProviderTransport (eval_ProviderTransport e))) in
  check? fails (negb (forallb (MatchString digestPattern)
    [eval_PolicyHash e; eval_ActionDigest e; eval_CapabilityMatrixHash e;
     eval_ContextClassificationsHash e; eval_DecisionHash e])) in
  check? fails (negb (bool_decide (classHash = eval_ContextClassificationsHash e))
                || negb (bool_decide (classes = eval_ContextClassifications e))) in
  check? fails (bool_decide (eval_EgressEffect e = EffectAllow)
    && (bool_decide (classes = [])
        || negb (forallb (fun c => bool_decide (c ∈ [ClassificationPublic;
             ClassificationSanitized; ClassificationOrganizational])) classes))) in
  check? fails (negb (bool_decide (reasons = eval_EgressReasonCodes e))) in
  check? fails (negb (validReasonCode (eval_AuthorizationReasonCode e))) in
  check? fails (negb (forallb validReasonCode reasons)) in
  check? match eval_AuthorizationEffect e with
    | AuthorizationAllow =>
        check? fails (negb (bool_decide (eval_EgressEffect e
                 ∈ [EffectAllow; EffectDeny; EffectError]))) in
        fails (bool_decide (reasons = []))
    | AuthorizationDeny | AuthorizationError =>
        fails (negb (bool_decide (eval_EgressEffect e = EffectNotEvaluated))
               || negb (bool_decide (reasons = [])))
    | AuthorizationOther _ => fails true
    end in
  fails (negb (bool_decide (DecisionHash e = eval_DecisionHash e))).

Definition ValidatePersistAllowCommand (c : PersistAllowCommand) : result DispatchError unit :=
  let fails b := rejectIf b ErrEvaluationConflict in
  let e := allow_Evaluation c in
  let r := allow_ProviderRequest c in
  check? ValidatePreSendEvaluation e in
  check? fails (negb (bool_decide (eval_AuthorizationEffect e = AuthorizationAllow))
                || negb (bool_decide (eval_EgressEffect e = EffectAllow))) in
  check? fails (is_empty (TrimSpace (allow_ClaimToken c))
                || negb (MatchString digestPattern (allow_ProviderIdempotencyKeyHash c))
                || IsZero (allow_Deadline c)) in
  check? fails (is_empty (TrimSpace (evid_ModelProfileID r))
                || is_empty (TrimSpace (evid_ProviderModelID r))
                || is_empty (TrimSpace (evid_AdapterID r)) || (evid_AdapterVersion r <=? 0)
                || is_empty (TrimSpace (evid_RequestSchemaVersion r))
                || is_empty (TrimSpace (evid_ResponseSchemaVersion r))
                || negb (forallb (MatchString digestPattern)
                     [evid_RequestHash r; evid_EndpointFingerprint r; evid_CredentialRefHash r])) in
  fails ((160 <? len (evid_ModelProfileID r)) || (240 <? len (evid_ProviderModelID r))
         || (160 <? len (evid_AdapterID r)) || (120 <? len (evid_RequestSchemaVersion r))
         || (120 <? len (evid_ResponseSchemaVersion r))).

Definition ValidatePersistFailureCommand (c : PersistDenyCommand) : result DispatchError unit :=
  let fails b := rejectIf b ErrEvaluationConflict in
  let e := deny_Evaluation c in
  check? ValidatePreSendEvaluation e in
  check? fails (bool_decide (eval_AuthorizationEffect e = AuthorizationAllow)
                && bool_decide (eval_EgressEffect e = EffectAllow)) in
  fails (is_empty (TrimSpace (deny_ClaimToken c)) || negb (validReasonCode (deny_ErrorCode c))
         || negb (between 1 100 (deny_OutboxMaxAttempts c))).

End Hashing.

Definition egress_key (r : EgressRule) : string :=
  rule_ProviderID r +:+ String "000"%char (rule_DataClassification r).

Definition hard_ok (h : HardDeny) : bool :=
  bool_decide (hard_DataClassification h ∈ [ClassificationSecret; ClassificationClinical])
  && validReasonCode (hard_ReasonCode h).

Definition egress_rule_ok (r : EgressRule) : bool :=
  negb (is_empty (TrimSpace (rule_ProviderID r))) && (len (rule_ProviderID r) <=? 160)
  && MatchString canonicalIdentifierPattern (rule_ProviderID r)
  && bool_decide (rule_DataClassification r ∈ [ClassificationPublic; ClassificationSanitized;
                                               ClassificationOrganizational])
  && bool_decide (rule_Effect r ∈ [EffectAllow; EffectDeny])
  && negb (rule_HardDeny r) && validReasonCode (rule_ReasonCode r).

Definition ValidateRegistryPlan (plan : RegistryPlan) : bool :=
  let p := plan_Policy plan in
  negb (is_empty (TrimSpace (plan_OrganizationID plan)))
  && (0 <? plan_OrganizationRevisionID plan)
  && MatchString digestPattern (plan_CanonicalHash plan)
  && bool_decide (canon_CanonicalHash p = plan_CanonicalHash plan)
  && negb (is_empty (TrimSpace (canon_PolicyID p))) && (len (canon_PolicyID p) <=? 160)
  && MatchString canonicalIdentifierPattern (canon_PolicyID p)
  && (0 <? canon_PolicyVersion p) && bool_decide (canon_DefaultAction p = EffectDeny)
  && forallb hard_ok (canon_HardDenies p)
  && bool_decide (NoDup (hard_DataClassification <$> canon_HardDenies p))
  && forallb (fun c => bool_decide (c ∈ hard_DataClassification <$> canon_HardDenies p))
       [ClassificationSecret; ClassificationClinical]
  && forallb egress_rule_ok (canon_Rules p)
  && bool_decide (NoDup (egress_key <$> canon_Rules p)).

(** ** postgres/store.go: the rules of a materialized policy *)

Definition hard_rule (h : HardDeny) : EgressRule :=
  mkEgressRule "*" (hard_DataClassification h) EffectDeny (hard_ReasonCode h) true.

Definition expectedMaterializedRules (p : CanonicalPolicy) : list EgressRule :=
  order_by (fun x y => string_le (egress_key x) (egress_key y))
    ((hard_rule <$> canon_HardDenies p) ++ canon_Rules p).

(** ** executive_scope.go *)

Definition ScopeExecutiveCEO : string := "scope.executive.ceo".
Definition ScopeDepartmentLeader : string := "scope.executive.department_leader".
Definition ScopeDepartmentWorker : string := "scope.executive.department_worker".
Definition ScopeAdversarialReview : string := "scope.executive.adversarial_review".
Definition AdversarialReviewerRoleID : string := "investigacion/revisor_adversarial".

(** [strings.Split(s, "/")] *)
Fixpoint split_slash (l : bytes) : list bytes :=
  match l with
  | [] => [[]]
  | c :: rest =>
      let parts := split_slash rest in
      if bool_decide (c = "/"%char) then [] :: parts
      else match parts with
           | [] => [[c]]
           | p :: ps => (c :: p) :: ps
           end
  end.

Definition scopedDepartmentRole (roleID : string) : bool :=
  if bool_decide (roleID ∈ [""; "empresa/human"; "empresa/ceo"; "empresa/ceo_observer"]) then false
  else match split_slash (to_bytes roleID) with
       | [a; b] => negb (bool_decide (a = [])) && negb (bool_decide (b = []))
       | _ => false
       end.

Definition ExecutiveScopeMarker (actorRoleID purpose correlationID taskRef : string) : string :=
  let actorRoleID := TrimSpace actorRoleID in
  let purpose := TrimSpace purpose in
  let correlationID := TrimSpace correlationID in
  let taskRef := TrimSpace taskRef in
  if negb (has_prefix "executive:" correlationID) || negb (has_prefix "task:" taskRef) then ""
  else if bool_decide (purpose ∈ ["executive_ceo_plan"; "executive_ceo_closure"])
  then if bool_decide (actorRoleID = "empresa/ceo") then ScopeExecutiveCEO else ""
  else if bool_decide (purpose ∈ ["department_plan"; "department_review"])
  then if scopedDepartmentRole actorRoleID then ScopeDepartmentLeader else ""
  else if bool_decide (purpose = "department_worker")
  then if scopedDepartmentRole actorRoleID then ScopeDepartmentWorker else ""
  else if bool_decide (purpose = "adversarial_review")
  then if bool_decide (actorRoleID = AdversarialReviewerRoleID) then ScopeAdversarialReview else ""
  else if bool_decide (purpose = "implementation_plan")
  then if scopedDepartmentRole actorRoleID then ScopeDepartmentLeader else ""
  else "".

Definition scopeRequired (provider : string) (dataClasses : list string) : bool :=
  if bool_decide (provider ∈ ["alibaba_token_plan_via_claude_code"; "deepseek"; "xai"]) then true
  else if bool_decide (provider = "openai_compatible")
  then bool_decide (ClassificationOrganizational ∈ dataClasses)
  else false.

Definition scopeAllows (provider transport scope : string) (singleProviderTest : bool) : bool :=
  let http := bool_decide (transport = TransportHTTP) in
  if bool_decide (provider = "alibaba_token_plan_via_claude_code") then false
  else if bool_decide (provider = "openai_compatible")
  then http && (if singleProviderTest
                then bool_decide (scope ∈ [ScopeExecutiveCEO; ScopeDepartmentLeader;
                                           ScopeDepartmentWorker])
                else bool_decide (scope ∈ [ScopeExecutiveCEO; ScopeDepartmentLeader]))
  else if bool_decide (provider = "deepseek")
  then http && bool_decide (scope ∈ [ScopeDepartmentLeader; ScopeDepartmentWorker])
  else if bool_decide (provider = "xai")
  then http && bool_decide (scope = ScopeAdversarialReview)
  else false.

Definition scopeVerifiedReason (scope : string) : string :=
  if bool_decide (scope = ScopeExecutiveCEO) then "executive_scope_verified_ceo"
  else if bool_decide (scope = ScopeDepartmentLeader)
  then "executive_scope_verified_department_leader"
  else if bool_decide (scope = ScopeDepartmentWorker)
  then "executive_scope_verified_department_worker"
  else if bool_decide (scope = ScopeAdversarialReview)
  then "executive_scope_verified_adversarial_review"
  else "".

Definition ValidateExecutiveScope (provider transport : string) (dataClasses : list string)
    (scope : string) (singleProviderTest : bool) : string * bool :=
  let classes := normal_classes dataClasses in
  let scope := TrimSpace scope in
  if negb (scopeRequired (TrimSpace provider) classes) then ("executive_scope_not_required", true)
  else if negb (scopeAllows (TrimSpace provider) (TrimSpace transport) scope singleProviderTest)
  then ("executive_scope_required", false)
  else if is_empty (scopeVerifiedReason scope) then ("executive_scope_invalid", false)
  else (scopeVerifiedReason scope, true).
