(* ===== verification/EgressProps.v ===== *)
(** * Properties of model egress

    Under a registered policy nothing leaves but what a rule of it allows, and
    the providers that need an executive scope get it from the role that ran. *)

From stdpp Require Import base tactics list gmap strings sorting.
From Stdlib Require Import ZArith Lia Ascii.
From S2P Require Import Prelude GoLib TaskDomain Database StoreRead TaskValidation Scenario.
From S2P Require Import Patterns DispatchDB Egress.

Local Open Scope string_scope.
Local Open Scope Z_scope.

(** ** The two maps of the rules *)

Definition hard_everywhere (r : EgressRule) : Prop :=
  rule_ProviderID r = "*" /\ rule_HardDeny r = true.

#[export] Instance hard_everywhere_dec (r : EgressRule) : Decision (hard_everywhere r).
Proof. apply _. Defined.

Lemma index_rule_case (p : string) (hard rules : gmap string EgressRule) (known : bool)
    (r : EgressRule) :
  index_rule p (hard, rules, known) r =
  if decide (hard_everywhere r) then (<[rule_DataClassification r := r]> hard, rules, known)
  else if decide (rule_ProviderID r = p)
  then (hard, <[rule_DataClassification r := r]> rules, true)
  else (hard, rules, known).
Proof.
  unfold index_rule, hard_everywhere. destruct (decide (_ /\ _)) as [[H1 H2]|H].
  - by rewrite bool_decide_true, H2 by done.
  - rewrite bool_decide_decide. destruct (decide (rule_ProviderID r = "*")) as [H1|H1]; simpl.
    + destruct (rule_HardDeny r); [naive_solver|]. rewrite bool_decide_decide.
      by destruct (decide _).
    + rewrite bool_decide_decide. by destruct (decide _).
Qed.

Lemma index_rules_spec (p : string) (l : list EgressRule) (hard rules : gmap string EgressRule)
    (known : bool) :
  index_rules p l = (hard, rules, known) ->
  (forall c, is_Some (hard !! c)
     <-> exists r, r ∈ l /\ hard_everywhere r /\ rule_DataClassification r = c)
  /\ (forall c r, rules !! c = Some r ->
        r ∈ l /\ ~ hard_everywhere r /\ rule_ProviderID r = p /\ rule_DataClassification r = c)
  /\ (forall r, r ∈ l -> ~ hard_everywhere r -> rule_ProviderID r = p ->
        is_Some (rules !! rule_DataClassification r) /\ known = true)
  /\ (known = true -> exists r, r ∈ l /\ ~ hard_everywhere r /\ rule_ProviderID r = p).
Proof.
  revert hard rules known. unfold index_rules. induction l as [|r l IH] using rev_ind;
    intros hard rules known.
  - intros [= <- <- <-]. split_and!; [|set_solver|set_solver|done].
    intros c. rewrite lookup_empty. split; [by intros [? ?]|]. set_solver.
  - rewrite foldl_app. simpl.
    destruct (foldl _ _ l) as [[hard0 rules0] known0]. specialize (IH _ _ _ eq_refl).
    destruct IH as (Hh & Hr & Hall & Hk). rewrite index_rule_case.
    destruct (decide (hard_everywhere r)) as [He|He]; [|destruct (decide _) as [Hp|Hp]];
      intros [= <- <- <-]; split_and!.
    + intros c. rewrite lookup_insert_is_Some', Hh. set_solver.
    + intros c r' H. apply Hr in H. set_solver.
    + intros r' Hin Hn. apply elem_of_app in Hin as [Hin|Hin]; [by apply Hall|set_solver].
    + intros H. apply Hk in H. set_solver.
    + intros c. rewrite Hh. set_solver.
    + intros c r' H. apply lookup_insert_Some in H as [[<- <-]|[Hne H]]; [set_solver|].
      apply Hr in H. set_solver.
    + intros r' Hin Hn Hp'. split; [|done]. rewrite lookup_insert_is_Some'.
      apply elem_of_app in Hin as [Hin|Hin]; [|set_solver]. right. by apply Hall.
    + intros _. exists r. set_solver.
    + intros c. rewrite Hh. set_solver.
    + intros c r' H. apply Hr in H. set_solver.
    + intros r' Hin Hn Hp'. apply elem_of_app in Hin as [Hin|Hin]; [by apply Hall|set_solver].
    + intros H. apply Hk in H. set_solver.
Qed.

(** ** The rules of a registered plan *)

Definition allowed_classes : list string :=
  [ClassificationPublic; ClassificationSanitized; ClassificationOrganizational].

(** The policy in force is the materialization of a plan that passed. *)
Record registered (plan : RegistryPlan) (p : ResolvedPolicy) : Prop := {
  reg_valid : ValidateRegistryPlan plan = true;
  reg_rules : pol_Rules p = expectedMaterializedRules (plan_Policy plan) }.

Section Registered.
Context (plan : RegistryPlan) (p : ResolvedPolicy) (Hreg : registered plan p).

Lemma plan_facts :
  (forall h, h ∈ canon_HardDenies (plan_Policy plan) ->
     hard_DataClassification h ∈ [ClassificationSecret; ClassificationClinical])
  /\ (forall c, c ∈ [ClassificationSecret; ClassificationClinical] ->
     c ∈ hard_DataClassification <$> canon_HardDenies (plan_Policy plan))
  /\ (forall r, r ∈ canon_Rules (plan_Policy plan) ->
     rule_DataClassification r ∈ allowed_classes /\ rule_HardDeny r = false
     /\ rule_ProviderID r <> "")
  /\ NoDup (egress_key <$> canon_Rules (plan_Policy plan)).
Proof.
  pose proof (reg_valid _ _ Hreg) as H. unfold ValidateRegistryPlan in H.
  repeat rewrite andb_true_iff in H. destruct H as [[[[[_ Hh] _] Hc] Hr] Hn].
  rewrite forallb_forall in Hh, Hc, Hr. apply bool_decide_eq_true in Hn. split_and!; [| | |done].
  - intros h Hin. apply list_elem_of_In, Hh in Hin. unfold hard_ok in Hin.
    rewrite andb_true_iff, bool_decide_eq_true in Hin. by destruct Hin.
  - intros c Hin. apply list_elem_of_In, Hc in Hin. by apply bool_decide_eq_true in Hin.
  - intros r Hin. apply list_elem_of_In, Hr in Hin. unfold egress_rule_ok in Hin.
    repeat rewrite andb_true_iff in Hin. rewrite !bool_decide_eq_true, negb_true_iff in Hin.
    destruct Hin as [[[[[[He _] _] Hcl] _] Hd] _]. split_and!; [done|by apply negb_true_iff in Hd|].
    intros Hp. by rewrite Hp in He.
Qed.

Lemma elem_of_rules (r : EgressRule) :
  r ∈ pol_Rules p <->
  (exists h, h ∈ canon_HardDenies (plan_Policy plan) /\ r = hard_rule h)
  \/ r ∈ canon_Rules (plan_Policy plan).
Proof.
  rewrite (reg_rules _ _ Hreg). unfold expectedMaterializedRules.
  rewrite elem_of_order_by, elem_of_app, list_elem_of_fmap. naive_solver.
Qed.

(** A registered rule that is not a hard deny is a rule of the plan. *)
Lemma plain_rule (r : EgressRule) :
  r ∈ pol_Rules p -> ~ hard_everywhere r -> r ∈ canon_Rules (plan_Policy plan).
Proof. intros [(h & _ & ->)|H]%elem_of_rules Hn; [|done]. by destruct Hn. Qed.

Lemma plan_rule_unique (r r' : EgressRule) :
  r ∈ canon_Rules (plan_Policy plan) -> r' ∈ canon_Rules (plan_Policy plan) ->
  rule_ProviderID r = rule_ProviderID r' ->
  rule_DataClassification r = rule_DataClassification r' -> r = r'.
Proof.
  intros Hr Hr' Hp Hc. destruct plan_facts as (_ & _ & _ & Hn).
  eapply NoDup_fmap_inj_on; [apply Hn|done|done|]. unfold egress_key. by rewrite Hp, Hc.
Qed.

End Registered.

(** ** [sort.Strings] *)

Lemma string_compare_trans (x y z : string) :
  String.compare x y <> Gt -> String.compare y z <> Gt -> String.compare x z <> Gt.
Proof.
  revert y z. induction x as [|a x IH]; intros [|b y] [|c z]; simpl; try done.
  unfold Ascii.compare. destruct (N.compare_spec (N_of_ascii a) (N_of_ascii b)) as [H1|H1|H1],
    (N.compare_spec (N_of_ascii b) (N_of_ascii c)) as [H2|H2|H2],
    (N.compare_spec (N_of_ascii a) (N_of_ascii c)) as [H3|H3|H3];
    try done; try lia; intros; eauto.
Qed.

Lemma string_le_spec (x y : string) : string_le x y = true <-> String.compare x y <> Gt.
Proof. unfold string_le. destruct (String.compare x y); naive_solver. Qed.

#[export] Instance string_le_order : RowOrder string_le.
Proof.
  split.
  - intros x y. rewrite !string_le_spec, (String.compare_antisym y x).
    destruct (String.compare x y); simpl; auto.
  - intros x y z. rewrite !string_le_spec. apply string_compare_trans.
Qed.

Lemma string_le_antisym (x y : string) : string_le x y = true -> string_le y x = true -> x = y.
Proof.
  rewrite !string_le_spec, (String.compare_antisym y x). intros H1 H2.
  apply String.compare_eq_iff. by destruct (String.compare x y).
Qed.

Lemma elem_of_sorted_set (l : list string) (x : string) : x ∈ sorted_set l <-> x ∈ l.
Proof. unfold sorted_set. by rewrite elem_of_order_by, elem_of_remove_dups. Qed.

(** A sorted set is its elements. *)
Lemma sorted_set_ext (l k : list string) :
  (forall x, x ∈ l <-> x ∈ k) -> sorted_set l = sorted_set k.
Proof.
  intros H. apply (StronglySorted_unique_strong (fun x y => string_le x y = true)).
  - intros x y _ _. apply string_le_antisym.
  - apply order_by_sorted, _.
  - apply order_by_sorted, _.
  - unfold sorted_set. rewrite !order_by_perm.
    apply NoDup_Permutation; [apply NoDup_remove_dups..|].
    intros x. by rewrite !elem_of_remove_dups.
Qed.

Lemma known_classes_normal (c : string) : known_class c = true -> normal_class c = c /\ c <> "".
Proof.
  unfold known_class. rewrite bool_decide_eq_true. intros H.
  repeat (apply elem_of_cons in H as [->|H]; [by split|]). by apply elem_of_nil in H.
Qed.

Lemma elem_of_normal_classes (l : list string) (c : string) :
  c ∈ normal_classes l -> known_class c = true.
Proof.
  unfold normal_classes. rewrite elem_of_sorted_set, list_elem_of_filter, list_elem_of_fmap.
  intros (He & y & -> & _). unfold normal_class in *.
  destruct (is_empty (ToLower (TrimSpace y))) eqn:Hy; simpl in *; [by rewrite Hy in He|].
  by destruct (known_class (ToLower (TrimSpace y))) eqn:Hk.
Qed.

Lemma normal_classes_idempotent (l : list string) :
  normal_classes (normal_classes l) = normal_classes l.
Proof.
  unfold normal_classes at 1. transitivity (sorted_set (normal_classes l)).
  - apply sorted_set_ext. intros x. rewrite list_elem_of_filter, list_elem_of_fmap. split.
    + intros (_ & y & -> & Hy). pose proof (elem_of_normal_classes l y Hy) as Hk.
      by destruct (known_classes_normal y Hk) as [-> _].
    + intros Hx. pose proof (elem_of_normal_classes l x Hx) as Hk.
      destruct (known_classes_normal x Hk) as [Hn He]. split; [|by exists x].
      unfold is_empty. by rewrite bool_decide_false.
  - unfold normal_classes, sorted_set at 2 3. apply sorted_set_ext, elem_of_sorted_set.
Qed.

Lemma reason_codes_idempotent (l : list string) :
  NormalizeReasonCodes (NormalizeReasonCodes l) = NormalizeReasonCodes l.
Proof.
  apply sorted_set_ext. intros x. unfold NormalizeReasonCodes.
  rewrite !list_elem_of_filter, !list_elem_of_fmap. split.
  - intros (He & y & -> & Hy).
    rewrite elem_of_sorted_set, list_elem_of_filter, list_elem_of_fmap in Hy. destruct Hy as (Hy & z & -> & Hz).
    rewrite TrimSpace_idempotent. split; [done|by exists z].
  - intros (He & y & -> & Hy). split; [done|]. exists (TrimSpace y).
    rewrite TrimSpace_idempotent. split; [done|].
    rewrite elem_of_sorted_set, list_elem_of_filter, list_elem_of_fmap. split; [done|by exists y].
Qed.

Lemma classes_disjoint (c : string) :
  c ∈ allowed_classes -> c ∈ [ClassificationSecret; ClassificationClinical] -> False.
Proof.
  unfold allowed_classes. rewrite !elem_of_cons, !elem_of_nil.
  intros [->|[->|[->|[]]]] [Heq|[Heq|[]]]; done.
Qed.

Lemma omap_nil_of {A B} (f : A -> option B) (l : list A) :
  (forall x, x ∈ l -> f x = None) -> omap f l = [].
Proof.
  induction l as [|x l IH]; intros Hf; simpl; [done|]. rewrite Hf by left. apply IH. intros. apply Hf.
  by right.
Qed.

(** ** Decisions *)

Section Decisions.
Context `{Env}.

(** A verdict on a class allows it exactly when a rule of the plan does. *)
Lemma classify_allows (plan : RegistryPlan) (p : ResolvedPolicy) (provider c : string)
    (hard rules : gmap string EgressRule) (known : bool) :
  registered plan p -> index_rules provider (pol_Rules p) = (hard, rules, known) ->
  fst (classify rules c) = true <->
  c ∈ allowed_classes
  /\ exists r, r ∈ canon_Rules (plan_Policy plan) /\ rule_ProviderID r = provider
       /\ rule_DataClassification r = c /\ rule_Effect r = EffectAllow.
Proof.
  intros Hreg Hix. pose proof (plan_facts plan p Hreg) as (_ & _ & Hplan & _).
  apply index_rules_spec in Hix as (_ & Hr & Hall & _). unfold classify.
  destruct (validRuntimeClassification c) eqn:Hv; simpl.
  - destruct (rules !! c) as [r|] eqn:Hc; simpl.
    + apply Hr in Hc as (Hin & Hn & <- & <-). apply (plain_rule plan p Hreg) in Hin; [|done].
      rewrite bool_decide_eq_true. split.
      * intros He. split; [by apply Hplan|]. by exists r.
      * intros (_ & r' & Hin' & Hp & Hc & He).
        by rewrite (plan_rule_unique plan p Hreg r r') by done.
    + split; [done|]. intros (_ & r & Hin & Hp & <- & _).
      destruct (Hall r) as [[? Hs] _]; [|by intros [_ Hd]; destruct (Hplan r Hin) as (_ & ? & _);
        congruence|done|by rewrite Hc in Hs].
      apply (elem_of_rules plan p Hreg). by right.
  - split; [done|]. intros [Hc _]. unfold validRuntimeClassification in Hv.
    rewrite bool_decide_eq_false in Hv. destruct Hv. unfold allowed_classes in Hc. set_solver.
Qed.

(** C13: under a registered policy egress is denied by default: the evaluator allows a call exactly
    when the policy is the materialized one of the revision, the transport is known, the context has
    classifications, and each of them - public, sanitized or organizational - is allowed to this
    provider by a rule of the plan; a context that holds something secret, clinical or unknown never
    leaves. *)
Theorem egress_is_denied_by_default (plan : RegistryPlan) (r : EvaluationRequest) :
  registered plan (ereq_Policy r) ->
  let classes := normal_classes (ereq_ContextClassifications r) in
  dec_Effect (fst (Evaluate r)) = EffectAllow <->
  policy_unresolved r = false /\ validProviderTransport (ereq_ProviderTransport r) = true
  /\ classes <> []
  /\ forall c, c ∈ classes ->
       c ∈ [ClassificationPublic; ClassificationSanitized; ClassificationOrganizational]
       /\ exists rule, rule ∈ canon_Rules (plan_Policy plan)
            /\ rule_ProviderID rule = TrimSpace (ereq_ProviderID r)
            /\ rule_DataClassification rule = c /\ rule_Effect rule = EffectAllow.
Proof.
  intros Hreg classes. pose proof (plan_facts plan _ Hreg) as (Hhd & _ & Hplan & _).
  unfold Evaluate, NormalizeClassifications. fold classes.
  destruct (index_rules _ _) as [[hard rules] known] eqn:Hix.
  pose proof (fun c => classify_allows plan _ _ c hard rules known Hreg Hix) as Hcl.
  apply index_rules_spec in Hix as (Hh & _ & Hall & _).
  destruct (policy_unresolved r); [naive_solver|].
  destruct (validProviderTransport _); [|naive_solver]. simpl.
  destruct (is_empty (TrimSpace (ereq_ProviderID r))) eqn:He; simpl.
  { split; [done|]. intros (_ & _ & Hne & Hc). destruct classes as [|c l]; [done|].
    destruct (Hc c) as (_ & rule & Hin & Hp & _); [left|]. apply Hplan in Hin as (_ & _ & Hne').
    apply bool_decide_eq_true in He. congruence. }
  destruct (bool_decide_reflect (classes = [])) as [Hn|Hn]; [naive_solver|]. simpl.
  destruct (bool_decide_reflect (omap (fun c => rule_ReasonCode <$> hard !! c) classes = []))
    as [Ho|Ho]; simpl.
  - assert (Hk : (forall c, c ∈ classes -> fst (classify rules c) = true) -> known = true).
    { intros Hc. destruct classes as [|c l]; [done|].
      destruct (proj1 (Hcl c) (Hc c (list_elem_of_here _ _))) as (_ & rule & Hin & Hp & _).
      apply (Hall rule); [apply (elem_of_rules plan _ Hreg); by right| |done].
      intros [_ Hd]. apply Hplan in Hin as (_ & Hd' & _). congruence. }
    assert (Hv : forallb fst (classify rules <$> classes) = true
                 <-> forall c, c ∈ classes -> fst (classify rules c) = true).
    { rewrite forallb_forall. setoid_rewrite <- list_elem_of_In. setoid_rewrite list_elem_of_fmap.
      naive_solver. }
    destruct known; simpl; [|split; [done|]; intros (_ & _ & _ & Hc);
      discriminate Hk; intros c Hin; apply Hcl; auto].
    destruct (forallb _ _); simpl; split; try done.
    + intros _. split_and!; [done..|]. intros c Hin. by apply Hcl, Hv.
    + intros (_ & _ & _ & Hc). exfalso. apply diff_false_true, Hv. intros c Hin. apply Hcl. auto.
  - split; [done|]. intros (_ & _ & _ & Hc). destruct Ho. apply omap_nil_of. intros c Hin.
    destruct (hard !! c) as [h|] eqn:Hhc; [|done]. exfalso.
    destruct (proj1 (Hh c) ltac:(by eexists)) as (rule & Hrin & Hhe & Hrc).
    apply (elem_of_rules plan _ Hreg) in Hrin as [(hd & Hhin & ->)|Hrin].
    + apply Hhd in Hhin. simpl in Hrc. subst c. apply Hc in Hin as [Hin _]. revert Hin Hhin.
      apply classes_disjoint.
    + apply Hplan in Hrin as (_ & Hd & _). destruct Hhe. congruence.
Qed.
End Decisions.

(** ** A policy *)

Definition demo_hash : string := demo_digest "policy".

Definition demo_plan : RegistryPlan :=
  mkRegistryPlan "acme" 7 demo_hash
    (mkCanonicalPolicy "model-egress" 1 EffectDeny
       [mkHardDeny ClassificationSecret "secret_denied";
        mkHardDeny ClassificationClinical "clinical_denied"]
       [mkEgressRule "deepseek" ClassificationPublic EffectAllow "public_allowed" false;
        mkEgressRule "xai" ClassificationPublic EffectDeny "xai_denied" false]
       demo_hash).

Definition demo_resolved : ResolvedPolicy :=
  mkResolvedPolicy 3 1 demo_hash "acme" "materialized" 7 demo_hash EffectDeny
    (expectedMaterializedRules (plan_Policy demo_plan)).

Definition demo_egress (provider : string) (classes : list string) : EvaluationRequest :=
  mkEvaluationRequest provider TransportHTTP 7 demo_resolved classes.

Lemma demo_registered : registered demo_plan demo_resolved.
Proof. split; [by vm_compute|done]. Qed.

Lemma egress_is_denied_by_default_witness :
  dec_Effect (fst (@Evaluate demo (demo_egress "deepseek" [" Public"]))) = EffectAllow
  /\ dec_Effect (fst (@Evaluate demo (demo_egress "deepseek" ["public"; "secret"]))) <> EffectAllow.
Proof.
  split.
  - apply (@egress_is_denied_by_default demo demo_plan (demo_egress "deepseek" [" Public"])
             demo_registered).
    split_and!; [by vm_compute|by vm_compute|by vm_compute|].
    intros c Hc. assert (Hn : normal_classes [" Public"] = [ClassificationPublic]) by by vm_compute.
    simpl in Hc. rewrite Hn, elem_of_cons, elem_of_nil in Hc. destruct Hc as [->|[]].
    split; [left|]. exists (mkEgressRule "deepseek" ClassificationPublic EffectAllow "public_allowed" false).
    split_and!; [left|by vm_compute|done|done].
  - intros Ha.
    apply (@egress_is_denied_by_default demo demo_plan (demo_egress "deepseek" ["public"; "secret"])
             demo_registered) in Ha as (_ & _ & _ & Hc).
    destruct (Hc ClassificationSecret) as [Hin _].
    + assert (Hn : normal_classes ["public"; "secret"]
                   = [ClassificationPublic; ClassificationSecret]) by by vm_compute.
      simpl. rewrite Hn. right. left.
    + apply (classes_disjoint ClassificationSecret); [done|left].
Defined.
