(* ===== verification/ModelInput.v ===== *)
(** * Inputs of the models

    internal/modelruntime/model_input.go: the envelope that a model call is sent
    with, how it is built from a rendered context snapshot, stored as canonical
    JSON and checked again before the call is sent.

    [json.Marshal] writes the fields of a struct in their order; [CanonicalJSON],
    which sorts them, is all that reads what is marshalled here, so they are
    listed sorted.  [json.Unmarshal] reads a raw message as it is written and also
    takes keys that differ from a field's in case; here it reads its canonical
    form and the exact key: what reads a raw message canonicalizes it, and a
    stored text that is not canonical is rejected by the comparison of the two
    texts at the latest.  [None] is a nil slice, the empty string a nil
    RawMessage. *)

From stdpp Require Import base tactics list gmap strings pretty sorting.
From Stdlib Require Import ZArith Lia Ascii.
From S2P Require Import Prelude GoLib Json TaskDomain Database StoreHelpers TaskValidation.
From S2P Require Import DispatchDB Egress Schema.

Local Open Scope string_scope.
Local Open Scope Z_scope.

Definition ModelInputEnvelopeSchemaV1 : string := "modelruntime.input.v1".
Definition maxModelInputBytes : Z := 8388608.

Definition ModelInputRoleSystem : string := "system".
Definition ModelInputRoleUser : string := "user".
Definition ModelInputRoleAssistant : string := "assistant".
Definition ModelInputRoleTool : string := "tool".

Record ModelInputToolCall : Type := mkToolCall {
  tcall_ID : string;
  tcall_Name : string;
  tcall_Arguments : string }.

Record ModelInputMessage : Type := mkMessage {
  mmsg_Role : string;
  mmsg_Content : string;
  mmsg_ToolCallID : string;
  mmsg_ToolName : string;
  mmsg_ToolCalls : list ModelInputToolCall }.

Record ModelInputToolDefinition : Type := mkToolDefinition {
  tdef_Name : string;
  tdef_Description : string;
  tdef_InputSchema : string }.

Record ModelInputEnvelope : Type := mkEnvelope {
  env_SchemaVersion : string;
  env_ContextSnapshotID : Z;
  env_CanonicalProjectionDigest : string;
  env_StablePrefix : option (list ModelInputMessage);
  env_StablePrefixDigest : string;
  env_VisibleHistory : option (list ModelInputMessage);
  env_ToolDefinitions : option (list ModelInputToolDefinition);
  env_ProviderContinuationRef : string;
  env_InputClassifications : option (list string);
  env_InputClassificationsHash : string }.

Record PreparedModelInput : Type := mkPreparedInput {
  pinput_Envelope : ModelInputEnvelope;
  pinput_CanonicalBytes : string;
  pinput_CanonicalDigest : string }.

Record ContextSnapshotRef : Type := mkSnapshotRef {
  snap_ID : Z;
  snap_OrganizationID : string;
  snap_OrganizationRevisionID : Z;
  snap_ActorRoleID : string;
  snap_TaskRef : string;
  snap_Status : string;
  snap_RenderedHash : string;
  snap_DataClasses : list string;
  snap_ExecutiveScope : string }.

(** The elements of a slice. *)
Definition elems {A} (s : option (list A)) : list A := default [] s.

(** ** json.Marshal *)

Definition marshal_slice {A} (f : A -> option Any) (s : option (list A)) : option Any :=
  match s with
  | None => Some ANil
  | Some l => AArray <$> mapM f l
  end.

Definition marshal_raw (raw : string) : option Any :=
  if is_empty raw then Some ANil else decodeJSONWithNumbers raw.

(** A string with [omitempty]. *)
Definition omit_empty (k s : string) : list (string * Any) :=
  if is_empty s then [] else [(k, AString s)].

Definition marshal_tool_call (c : ModelInputToolCall) : option Any :=
  arguments ← marshal_raw (tcall_Arguments c);
  Some (AObject [("arguments", arguments); ("id", AString (tcall_ID c)); ("name", AString (tcall_Name c))]).

Definition marshal_message (m : ModelInputMessage) : option Any :=
  calls ← mapM marshal_tool_call (mmsg_ToolCalls m);
  Some (AObject (omit_empty "content" (mmsg_Content m) ++ [("role", AString (mmsg_Role m))]
                 ++ omit_empty "tool_call_id" (mmsg_ToolCallID m)
                 ++ (match calls with [] => [] | _ => [("tool_calls", AArray calls)] end)
                 ++ omit_empty "tool_name" (mmsg_ToolName m))).

Definition marshal_tool (t : ModelInputToolDefinition) : option Any :=
  schema ← marshal_raw (tdef_InputSchema t);
  Some (AObject (omit_empty "description" (tdef_Description t)
                 ++ [("input_schema", schema); ("name", AString (tdef_Name t))])).

Definition marshal_string (s : string) : option Any := Some (AString s).

Definition marshal_envelope (e : ModelInputEnvelope) : option Any :=
  history ← marshal_slice marshal_message (env_VisibleHistory e);
  prefix ← marshal_slice marshal_message (env_StablePrefix e);
  tools ← marshal_slice marshal_tool (env_ToolDefinitions e);
  classes ← marshal_slice marshal_string (env_InputClassifications e);
  Some (AObject
    ([("canonical_projection_digest", AString (env_CanonicalProjectionDigest e));
      ("context_snapshot_id", ANumber (FormatInt (env_ContextSnapshotID e)));
      ("input_classifications", classes);
      ("input_classifications_hash", AString (env_InputClassificationsHash e))]
     ++ omit_empty "provider_continuation_ref" (env_ProviderContinuationRef e)
     ++ [("schema_version", AString (env_SchemaVersion e));
         ("stable_prefix", prefix);
         ("stable_prefix_digest", AString (env_StablePrefixDigest e));
         ("tool_definitions", tools);
         ("visible_history", history)])).

(** ** json.Unmarshal *)

Definition unmarshal_string (o : option Any) : option string :=
  match o with
  | None | Some ANil => Some EmptyString
  | Some (AString s) => Some s
  | _ => None
  end.

Definition unmarshal_int64 (o : option Any) : option Z :=
  match o with
  | None | Some ANil => Some 0
  | Some (ANumber s) => Number_Int64 s
  | _ => None
  end.

Definition unmarshal_raw (o : option Any) : string :=
  match o with Some v => encodeCanonical v | None => EmptyString end.

Definition unmarshal_slice {A} (f : Any -> option A) (o : option Any) : option (option (list A)) :=
  match o with
  | None | Some ANil => Some None
  | Some (AArray l) => Some <$> mapM f l
  | _ => None
  end.

(** A struct; a null leaves it zero. *)
Definition unmarshal_struct {A} (f : list (string * Any) -> option A) (v : Any) : option A :=
  match v with
  | AObject m => f m
  | ANil => f []
  | _ => None
  end.

Definition unmarshal_tool_call : Any -> option ModelInputToolCall := unmarshal_struct (fun m =>
  id ← unmarshal_string (any_get "id" m);
  name ← unmarshal_string (any_get "name" m);
  Some (mkToolCall id name (unmarshal_raw (any_get "arguments" m)))).

Definition unmarshal_message : Any -> option ModelInputMessage := unmarshal_struct (fun m =>
  role ← unmarshal_string (any_get "role" m);
  content ← unmarshal_string (any_get "content" m);
  callID ← unmarshal_string (any_get "tool_call_id" m);
  name ← unmarshal_string (any_get "tool_name" m);
  calls ← unmarshal_slice unmarshal_tool_call (any_get "tool_calls" m);
  Some (mkMessage role content callID name (elems calls))).

Definition unmarshal_tool : Any -> option ModelInputToolDefinition := unmarshal_struct (fun m =>
  name ← unmarshal_string (any_get "name" m);
  description ← unmarshal_string (any_get "description" m);
  Some (mkToolDefinition name description (unmarshal_raw (any_get "input_schema" m)))).

Definition unmarshal_envelope : Any -> option ModelInputEnvelope := unmarshal_struct (fun m =>
  version ← unmarshal_string (any_get "schema_version" m);
  snapshot ← unmarshal_int64 (any_get "context_snapshot_id" m);
  projection ← unmarshal_string (any_get "canonical_projection_digest" m);
  prefix ← unmarshal_slice unmarshal_message (any_get "stable_prefix" m);
  prefixDigest ← unmarshal_string (any_get "stable_prefix_digest" m);
  history ← unmarshal_slice unmarshal_message (any_get "visible_history" m);
  tools ← unmarshal_slice unmarshal_tool (any_get "tool_definitions" m);
  continuation ← unmarshal_string (any_get "provider_continuation_ref" m);
  classes ← unmarshal_slice (fun v => unmarshal_string (Some v)) (any_get "input_classifications" m);
  classesHash ← unmarshal_string (any_get "input_classifications_hash" m);
  Some (mkEnvelope version snapshot projection prefix prefixDigest history tools continuation classes
          classesHash)).

Definition zeroEnvelope : ModelInputEnvelope :=
  mkEnvelope EmptyString 0 EmptyString None EmptyString None None EmptyString None EmptyString.

(** What [json.Unmarshal] makes of what [json.Marshal] wrote. *)
Definition reread (e : ModelInputEnvelope) : option ModelInputEnvelope :=
  v ← marshal_envelope e;
  w ← decode_bytes (encode_any v);
  unmarshal_envelope w.

Definition cloneModelInputEnvelope (e : ModelInputEnvelope) : ModelInputEnvelope :=
  default zeroEnvelope (reread e).

(** ** Normalization *)

Notation res := (result DispatchError).

Definition reject_invalid (b : bool) : res unit := rejectIf b ErrRuntimeInvalidRequest.
Definition reject_context (b : bool) : res unit := rejectIf b ErrContextRejected.

Definition or_invalid {A} (o : option A) : res A :=
  match o with Some a => Ok a | None => Err ErrRuntimeInvalidRequest end.
Definition or_context {A} (o : option A) : res A :=
  match o with Some a => Ok a | None => Err ErrContextRejected end.

(** The loop over the tool calls of a message; [seen] are the call IDs so far. *)
Fixpoint normalize_calls (seen : list string) (l : list ModelInputToolCall)
    : res (list ModelInputToolCall * list string) :=
  match l with
  | [] => Ok ([], seen)
  | c :: rest =>
      let id := TrimSpace (tcall_ID c) in
      let name := TrimSpace (tcall_Name c) in
      check? reject_invalid (negb (MatchString modelInputCallIDPattern id)
                             || negb (MatchString toolNamePattern name)) in
      check? reject_invalid (bool_decide (id ∈ seen)) in
      let? args := or_invalid (CanonicalizeRawJSON (tcall_Arguments c)) in
      check? reject_invalid (is_empty args) in
      let? r := normalize_calls (id :: seen) rest in
      Ok (mkToolCall id name args :: fst r, snd r)
  end.

Definition is_role (r : string) (m : ModelInputMessage) : bool := bool_decide (mmsg_Role m = r).

Definition normalizeModelInputMessage (m : ModelInputMessage) (history : bool) (seen : list string)
    : res (ModelInputMessage * list string) :=
  if is_role ModelInputRoleSystem m || is_role ModelInputRoleUser m then
    check? reject_invalid (history || is_empty (mmsg_Content m) || negb (is_empty (mmsg_ToolCallID m))
                           || negb (is_empty (mmsg_ToolName m))
                           || negb (bool_decide (mmsg_ToolCalls m = []))) in
    Ok (m, seen)
  else if is_role ModelInputRoleAssistant m then
    check? reject_invalid (negb history
                           || (is_empty (mmsg_Content m) && bool_decide (mmsg_ToolCalls m = []))
                           || negb (is_empty (mmsg_ToolCallID m))
                           || negb (is_empty (mmsg_ToolName m))) in
    let? r := normalize_calls seen (mmsg_ToolCalls m) in
    Ok (mkMessage (mmsg_Role m) (mmsg_Content m) (mmsg_ToolCallID m) (mmsg_ToolName m) (fst r), snd r)
  else if is_role ModelInputRoleTool m then
    let id := TrimSpace (mmsg_ToolCallID m) in
    let name := TrimSpace (mmsg_ToolName m) in
    check? reject_invalid (negb history || is_empty (mmsg_Content m)
                           || negb (MatchString modelInputCallIDPattern id)
                           || negb (MatchString toolNamePattern name)
                           || negb (bool_decide (mmsg_ToolCalls m = []))) in
    check? reject_invalid (negb (bool_decide (id ∈ seen))) in
    Ok (mkMessage (mmsg_Role m) (mmsg_Content m) id name (mmsg_ToolCalls m), seen)
  else Err ErrRuntimeInvalidRequest.

Fixpoint normalize_messages (history : bool) (seen : list string) (l : list ModelInputMessage)
    : res (list ModelInputMessage * list string) :=
  match l with
  | [] => Ok ([], seen)
  | m :: rest =>
      let? r := normalizeModelInputMessage m history seen in
      let (m, seen) := r in
      check? reject_invalid (negb history && negb (is_role ModelInputRoleSystem m)
                             && negb (is_role ModelInputRoleUser m)) in
      let? r := normalize_messages history seen rest in
      Ok (m :: fst r, snd r)
  end.

(** A supported schema of an object. *)
Definition tool_schema_ok (canonical : string) : bool :=
  match decodeJSONWithNumbers canonical with
  | Some (AObject m) =>
      match any_get "type" m with Some (AString t) => bool_decide (t = "object") | _ => false end
      && validateSchemaDefinition maxSchemaLevels m
  | _ => false
  end.

Fixpoint normalize_tools (seen : list string) (l : list ModelInputToolDefinition)
    : res (list ModelInputToolDefinition) :=
  match l with
  | [] => Ok []
  | t :: rest =>
      let name := TrimSpace (tdef_Name t) in
      let description := TrimSpace (tdef_Description t) in
      check? reject_invalid (negb (MatchString toolNamePattern name)) in
      check? reject_invalid (bool_decide (name ∈ seen)) in
      let? schema := or_invalid (CanonicalizeRawJSON (tdef_InputSchema t)) in
      check? reject_invalid (is_empty schema) in
      check? reject_invalid (negb (tool_schema_ok schema)) in
      let? r := normalize_tools (name :: seen) rest in
      Ok (mkToolDefinition name description schema :: r)
  end.

Definition tool_le (a b : ModelInputToolDefinition) : bool := string_le (tdef_Name a) (tdef_Name b).

(** Sorting what is sorted changes nothing. *)
Definition normalizeModelInput (e : ModelInputEnvelope) : res ModelInputEnvelope :=
  check? reject_invalid (4096 <? len (env_ProviderContinuationRef e)) in
  let? prefix := normalize_messages false [] (elems (env_StablePrefix e)) in
  let? history := normalize_messages true (snd prefix) (elems (env_VisibleHistory e)) in
  let? tools := normalize_tools [] (elems (env_ToolDefinitions e)) in
  Ok (mkEnvelope (env_SchemaVersion e) (env_ContextSnapshotID e) (env_CanonicalProjectionDigest e)
        (const (fst prefix) <$> env_StablePrefix e) (env_StablePrefixDigest e)
        (const (fst history) <$> env_VisibleHistory e)
        (const (order_by tool_le tools) <$> env_ToolDefinitions e)
        (env_ProviderContinuationRef e) (env_InputClassifications e)
        (env_InputClassificationsHash e)).

(** ** The text a model sees *)

Definition newline : string := String (chr 10) EmptyString.

Definition lines (l : list string) : string := String.concat "" ((fun s => s ++ newline) <$> l).

Definition message_lines (m : ModelInputMessage) : list string :=
  [mmsg_Content m; mmsg_ToolCallID m; mmsg_ToolName m]
  ++ mbind (fun c => [tcall_ID c; tcall_Name c; tcall_Arguments c]) (mmsg_ToolCalls m).

Definition tool_lines (t : ModelInputToolDefinition) : list string :=
  [tdef_Name t; tdef_Description t; tdef_InputSchema t].

Definition modelVisibleText (e : ModelInputEnvelope) : string :=
  String.append
    (lines (mbind message_lines (elems (env_StablePrefix e) ++ elems (env_VisibleHistory e))
            ++ mbind tool_lines (elems (env_ToolDefinitions e)))%list)
    (env_ProviderContinuationRef e).

Definition canonicalStablePrefix (e : ModelInputEnvelope) : option string :=
  messages ← marshal_slice marshal_message (env_StablePrefix e);
  tools ← marshal_slice marshal_tool (env_ToolDefinitions e);
  CanonicalJSON (AObject [("messages", messages); ("tools", tools)]).

Definition validModelInputClassification (value : string) : bool :=
  bool_decide (value ∈ [ClassificationPublic; ClassificationSanitized; ClassificationOrganizational;
                        ClassificationSecret; ClassificationClinical]).

(** ** Preparation and validation *)

Section Prepare.
Context {env : Env} {policy : ContentPolicy}.

Definition digest_ok (s : string) : bool := MatchString digestPattern s.

(** The first message is the user's, with this content. *)
Definition begins_with (e : ModelInputEnvelope) (content : string -> bool) : bool :=
  match elems (env_StablePrefix e) with
  | m :: _ => is_role ModelInputRoleUser m && content (mmsg_Content m)
  | [] => false
  end.

Definition single_shot (snapshot : ContextSnapshotRef) (rendered : string) : ModelInputEnvelope :=
  mkEnvelope ModelInputEnvelopeSchemaV1 (snap_ID snapshot) (env_sha256_hex rendered)
    (Some [mkMessage ModelInputRoleUser rendered EmptyString EmptyString []]) EmptyString None None
    EmptyString None EmptyString.

Definition set_prefix_digest (digest : string) (e : ModelInputEnvelope) : ModelInputEnvelope :=
  mkEnvelope (env_SchemaVersion e) (env_ContextSnapshotID e) (env_CanonicalProjectionDigest e)
    (env_StablePrefix e) digest (env_VisibleHistory e) (env_ToolDefinitions e)
    (env_ProviderContinuationRef e) (env_InputClassifications e) (env_InputClassificationsHash e).

Definition set_classifications (classes : list string) (hash : string) (e : ModelInputEnvelope)
    : ModelInputEnvelope :=
  mkEnvelope (env_SchemaVersion e) (env_ContextSnapshotID e) (env_CanonicalProjectionDigest e)
    (env_StablePrefix e) (env_StablePrefixDigest e) (env_VisibleHistory e) (env_ToolDefinitions e)
    (env_ProviderContinuationRef e) (Some classes) hash.

(** The classifications of an envelope: what is given, and [secret] when its text
    carries a credential. *)
Definition classify_input (given : list string) (e : ModelInputEnvelope) : list string * string :=
  NormalizeClassifications
    (given ++ if HasCredentials (modelVisibleText e) then [ClassificationSecret] else []).

Definition PrepareModelInput (supplied : option ModelInputEnvelope) (snapshot : ContextSnapshotRef)
    (rendered : string) : res PreparedModelInput :=
  check? reject_context ((snap_ID snapshot <=? 0) || is_empty rendered
                         || negb (bool_decide (env_sha256_hex rendered = snap_RenderedHash snapshot))) in
  let e := match supplied with
           | None => single_shot snapshot rendered
           | Some e => cloneModelInputEnvelope e
           end in
  check? reject_invalid (negb (bool_decide (env_SchemaVersion e = ModelInputEnvelopeSchemaV1))
                         || negb (env_ContextSnapshotID e =? snap_ID snapshot)) in
  check? reject_invalid (negb (digest_ok (env_CanonicalProjectionDigest e))) in
  check? reject_context (negb (begins_with e (fun content => bool_decide (content = rendered)))) in
  let? e := normalizeModelInput e in
  let? prefix := or_invalid (canonicalStablePrefix e) in
  let e := set_prefix_digest (env_sha256_hex prefix) e in
  let (classes, classesHash) :=
    classify_input (snap_DataClasses snapshot ++ elems (env_InputClassifications e)) e in
  check? reject_invalid (negb (forallb validModelInputClassification classes)) in
  let e := set_classifications classes classesHash e in
  let? v := or_invalid (marshal_envelope e) in
  let? canonical := or_invalid (CanonicalJSON v) in
  check? reject_invalid (maxModelInputBytes <? len canonical) in
  Ok (mkPreparedInput e canonical (env_sha256_hex canonical)).

Definition ValidateStoredModelInput (stored : PreparedModelInput) (snapshot : ContextSnapshotRef)
    : res PreparedModelInput :=
  let text := pinput_CanonicalBytes stored in
  let digest := pinput_CanonicalDigest stored in
  check? reject_context (is_empty text || negb (digest_ok digest)
                         || negb (bool_decide (env_sha256_hex text = digest))) in
  let? v := or_context (decodeJSONWithNumbers text) in
  let? d := or_context (unmarshal_envelope v) in
  check? reject_context (negb (bool_decide (env_SchemaVersion d = ModelInputEnvelopeSchemaV1))
                         || negb (env_ContextSnapshotID d =? snap_ID snapshot)
                         || negb (digest_ok (env_CanonicalProjectionDigest d))) in
  check? reject_context (negb (begins_with d (fun content =>
                           bool_decide (env_sha256_hex content = snap_RenderedHash snapshot)))) in
  let claimedPrefixDigest := env_StablePrefixDigest d in
  let claimedClassesHash := env_InputClassificationsHash d in
  let? d := normalizeModelInput d in
  let? prefix := or_context (canonicalStablePrefix d) in
  check? reject_context (negb (bool_decide (env_sha256_hex prefix = claimedPrefixDigest))) in
  let given := elems (env_InputClassifications d) in
  let (classes, classesHash) := classify_input given d in
  check? reject_context (negb (forallb validModelInputClassification classes)) in
  check? reject_context (negb (bool_decide (classesHash = claimedClassesHash))
                         || negb (bool_decide (classes = given))) in
  let? w := or_context (marshal_envelope d) in
  let? rebuilt := or_context (CanonicalJSON w) in
  check? reject_context (negb (bool_decide (env_sha256_hex rebuilt = digest))
                         || negb (bool_decide (rebuilt = text))) in
  Ok (mkPreparedInput d rebuilt digest).

Definition ValidateModelInputContextRender (input : PreparedModelInput) (rendered : string) : res unit :=
  reject_context (match elems (env_StablePrefix (pinput_Envelope input)) with
                  | m :: _ => negb (bool_decide (mmsg_Content m = rendered))
                  | [] => true
                  end).

Definition isLegacySingleShotModelInput (input : PreparedModelInput) (rendered : string) : bool :=
  let e := pinput_Envelope input in
  (length (elems (env_StablePrefix e)) =? 1)%nat
  && begins_with e (fun content => bool_decide (content = rendered))
  && bool_decide (elems (env_VisibleHistory e) = [])
  && bool_decide (elems (env_ToolDefinitions e) = [])
  && is_empty (env_ProviderContinuationRef e)
  && bool_decide (env_CanonicalProjectionDigest e = env_sha256_hex rendered).

End Prepare.

#[export] Instance ModelInputToolCall_eq_dec : EqDecision ModelInputToolCall.
Proof. solve_decision. Defined.
#[export] Instance ModelInputMessage_eq_dec : EqDecision ModelInputMessage.
Proof. solve_decision. Defined.
#[export] Instance ModelInputToolDefinition_eq_dec : EqDecision ModelInputToolDefinition.
Proof. solve_decision. Defined.
