(* ===== verification/Routing.v ===== *)
(** * Model routing

    internal/modelrouting/selector.go: which candidate of a pool is tried;
    internal/modelruntime/provider_adapter.go: when the outcome an adapter
    reports is consistent; internal/modelruntime/capacity_feedback.go: what an
    outcome says of the capacity of a candidate. *)

From stdpp Require Import base tactics list gmap strings pretty sorting.
From Stdlib Require Import ZArith Lia Ascii.
From S2P Require Import Prelude GoLib TaskDomain Database TaskValidation DispatchDB Egress.

Local Open Scope string_scope.
Local Open Scope Z_scope.

(** ** selector.go *)

Record Candidate : Type := mkCandidate {
  cand_ProviderID : string;
  cand_ProviderModelID : string;
  cand_Transport : string;
  cand_CapacityClass : string;
  cand_Priority : Z;
  cand_ProfileID : string;
  cand_ModelProfileVersionID : Z }.

Definition cand_key (c : Candidate) : string :=
  cand_ProviderID c +:+ "|" +:+ cand_ProviderModelID c.

Record CandidateState : Type := mkCandidateState {
  cst_Disabled : bool;
  cst_QuotaExhausted : bool;
  cst_CooldownUntil : option Instant }.

(** The zero value, which a lookup of a missing key gives. *)
Definition no_state : CandidateState := mkCandidateState false false None.

Definition inCooldown (now : Instant) (s : CandidateState) : bool :=
  match cst_CooldownUntil s with Some t => now <? t | None => false end.

Definition classRank (class : string) : Z :=
  if bool_decide (class = "free_daily") then 0
  else if bool_decide (class = "free_model") then 1
  else if bool_decide (class = "credit_monthly") then 2
  else if bool_decide (class = "paid") then 3
  else 99.

(** The loop body: a candidate that is not skipped. *)
Definition eligible (state : gmap string CandidateState) (allowPaid : bool) (now : Instant)
    (c : Candidate) : bool :=
  let st := default no_state (state !! cand_key c) in
  negb (bool_decide (cand_CapacityClass c = "paid") && negb allowPaid)
  && negb (cst_Disabled st)
  && negb (inCooldown now st)
  && negb (cst_QuotaExhausted st
           && (inCooldown now st || negb (is_some (cst_CooldownUntil st)))).

(** The comparison of [sort.Slice]. *)
Definition cand_before (a b : Candidate) : bool :=
  let ra := classRank (cand_CapacityClass a) in
  let rb := classRank (cand_CapacityClass b) in
  if negb (ra =? rb) then ra <? rb
  else if negb (cand_Priority a =? cand_Priority b) then cand_Priority a <? cand_Priority b
  else string_le (cand_key a) (cand_key b).

Definition Select (candidates : list Candidate) (state : gmap string CandidateState)
    (allowPaid : bool) (now : Instant) : result DispatchError (Candidate * string) :=
  match order_by cand_before (filter (fun c => eligible state allowPaid now c = true) candidates) with
  | [] => Err ErrNoCapacity
  | chosen :: _ =>
      Ok (chosen, "free_capacity_v1: class_rank="
                  +:+ pretty (classRank (cand_CapacityClass chosen))
                  +:+ " priority=" +:+ pretty (cand_Priority chosen))
  end.

(** ** provider_adapter.go *)

Definition effectiveTransport (o : ProviderOutcome) : string :=
  if is_empty (out_Transport o) then TransportHTTP else out_Transport o.

Definition hex_lower (c : ascii) : bool :=
  between 48 57 (byte_of c) || between 97 102 (byte_of c).

Definition validProviderSHA256 (value : string) : bool :=
  (len value =? 64) && forallb hex_lower (to_bytes value).

Definition validOpaqueProviderRequestID (value : string) : bool :=
  bool_decide (TrimSpace value = value)
  && forallb (fun c => between 33 126 (byte_of c)) (to_bytes value).

Definition negative_opt (o : option Z) : bool := match o with Some z => z <? 0 | None => false end.

(** The checks common to all classifications. *)
Definition outcome_metadata_ok (o : ProviderOutcome) : bool :=
  let transport := effectiveTransport o in
  negb (match out_Classification o with ProviderOutcomeOther _ => true | _ => false end)
  && bool_decide (transport ∈ [TransportHTTP; TransportCLI; TransportFake])
  && between 0 599 (out_HTTPStatus o)
  && null_or (between 0 255) (out_ProcessExitCode o)
  && negb (bool_decide (transport = TransportHTTP) && is_some (out_ProcessExitCode o))
  && negb (bool_decide (transport = TransportCLI) && negb (out_HTTPStatus o =? 0))
  && (is_empty (out_ResponseHash o) || validProviderSHA256 (out_ResponseHash o))
  && negb (is_empty (TrimSpace (out_ResponseSchemaVersion o)))
  && (len (out_ProviderRequestID o) <=? 400) && (len (out_ErrorClass o) <=? 120)
  && (len (out_ErrorCode o) <=? 160) && (len (out_ResponseSchemaVersion o) <=? 120)
  && (is_empty (out_ProviderRequestID o)
      || validOpaqueProviderRequestID (out_ProviderRequestID o))
  && (is_empty (out_ErrorClass o) || MatchString canonicalIdentifierPattern (out_ErrorClass o))
  && (is_empty (out_ErrorCode o) || MatchString canonicalIdentifierPattern (out_ErrorCode o))
  && (len (out_FinishReason o) <=? 120) && (len (out_ResponseFormat o) <=? 60)
  && (len (out_JSONErrorClass o) <=? 120)
  && negb (negative_opt (out_ResponseContentBytes o))
  && negb (negative_opt (out_InputTokens o) || negative_opt (out_OutputTokens o)
           || negative_opt (out_CacheHitTokens o) || negative_opt (out_CacheMissTokens o))
  && negb (out_UsageAvailable o && negb (is_some (out_InputTokens o))
           && negb (is_some (out_OutputTokens o)))
  && null_or (fun m => 0 <? m) (out_MaxOutputTokens o)
  && negb (negative_opt (out_RequestDuration o))
  && negb (negative_opt (out_JSONErrorOffset o))
  && negb (is_some (out_JSONErrorOffset o) && is_empty (out_JSONErrorClass o)).

(** The checks of each classification. *)
Definition outcome_class_ok (o : ProviderOutcome) : bool :=
  let transport := effectiveTransport o in
  let http := bool_decide (transport = TransportHTTP) in
  let cli := bool_decide (transport = TransportCLI) in
  let no_code := is_empty (TrimSpace (out_ErrorCode o)) in
  match out_Classification o with
  | ProviderOutcomeResponseReceived =>
      negb (is_empty (out_ResponseHash o)) && negb (out_Retryable o)
      && negb (out_CancellationConfirmed o)
      && (negb http || between 200 299 (out_HTTPStatus o))
      && (negb cli || bool_decide (out_ProcessExitCode o = Some 0))
  | ProviderOutcomeRejected =>
      negb (is_empty (out_ResponseHash o)) && negb no_code && negb (out_CancellationConfirmed o)
      && negb (http && (out_HTTPStatus o <? 100))
      && negb (cli && negb (is_some (out_ProcessExitCode o)))
  | ProviderOutcomeNotSent =>
      (out_HTTPStatus o =? 0) && negb (is_some (out_ProcessExitCode o))
      && is_empty (out_ResponseHash o) && is_empty (out_ProviderRequestID o)
      && negb no_code && negb (out_CancellationConfirmed o)
  | ProviderOutcomeAmbiguous =>
      negb no_code && negb (out_CancellationConfirmed o)
      && negb (http && negb (out_HTTPStatus o =? 0) && (out_HTTPStatus o <? 100))
  | ProviderOutcomeCancelled => out_CancellationConfirmed o && negb (out_Retryable o)
  | ProviderOutcomeOther _ => true
  end.

Definition OutcomeValidate (o : ProviderOutcome) : result DispatchError unit :=
  rejectIf (negb (outcome_metadata_ok o && outcome_class_ok o)) ErrRuntimeInvalidRequest.

(** ** capacity_feedback.go *)

Inductive CapacityFeedback : Type :=
| CapacityFeedbackNoop | CapacityFeedbackHealthy | CapacityFeedbackCooldown (d : Duration)
| CapacityFeedbackQuota.

Definition capacityCooldownAmbiguousTransport : Duration := 30 * Second.
Definition capacityCooldownRetryable5xx : Duration := 30 * Second.
Definition capacityCooldownHTTP429 : Duration := 5 * Minute.

(** The reason is left out; the phase is not read. *)
Definition ClassifyCapacityFeedback (o : ProviderOutcome) (phase : AdapterFailurePhase)
    : CapacityFeedback :=
  match out_Classification o with
  | ProviderOutcomeResponseReceived => CapacityFeedbackHealthy
  | ProviderOutcomeNotSent | ProviderOutcomeCancelled => CapacityFeedbackNoop
  | ProviderOutcomeAmbiguous =>
      if out_Retryable o then CapacityFeedbackCooldown capacityCooldownAmbiguousTransport
      else CapacityFeedbackNoop
  | ProviderOutcomeRejected =>
      if out_HTTPStatus o =? 429 then CapacityFeedbackCooldown capacityCooldownHTTP429
      else if (500 <=? out_HTTPStatus o) && out_Retryable o
      then CapacityFeedbackCooldown capacityCooldownRetryable5xx
      else CapacityFeedbackNoop
  | ProviderOutcomeOther _ => CapacityFeedbackNoop
  end.

(** ** Where a model call goes

    internal/modelruntime/route_resolver.go: the route of a policy, static or from
    a pool, the routes a policy could take, and the check of a route against the
    registry.

    [RoutingRegistry] stands for the reads of the registry store: within a revision
    its rows are written once, so a read is a function of what it asks for. *)


(** The fields of [Profile] and [ProfileVersion] a route is judged by. *)
Record ResolvedBinding : Type := mkResolvedBinding {
  bind_ProfileID : string;
  bind_VersionID : Z;
  bind_ProviderID : string;
  bind_ProviderModelID : string;
  bind_Transport : string }.

Record RoutingPolicy : Type := mkRoutingPolicy {
  rpol_RoutingMode : string;
  rpol_SelectorID : string;
  rpol_AllowPaid : bool;
  rpol_CanonicalHash : string }.

Record RoutingCandidate : Type := mkRoutingCandidate {
  rcand_Candidate : Candidate;
  rcand_CandidateHash : string }.

Definition RoutingModePool : string := "pool".
Definition RoutingModeStatic : string := "static".

Record RouteResolutionRequest : Type := mkRouteResolutionRequest {
  rreq_OrganizationID : string;
  rreq_OrganizationRevisionID : Z;
  rreq_SubjectRoleID : string;
  rreq_PolicyID : string }.

Record ResolvedRoute : Type := mkResolvedRoute {
  route_Binding : ResolvedBinding;
  route_PolicyID : string;
  route_RoutingMode : string;
  route_SelectorID : string;
  route_CandidateSetHash : string;
  route_CandidateHash : string;
  route_DecisionReason : string }.

Class RoutingRegistry : Type := {
  GetRoutingPolicy : string -> Z -> string -> result DispatchError (option RoutingPolicy);
  ListRoutingCandidates : string -> Z -> string -> result DispatchError (list RoutingCandidate);
  GetBinding : string -> Z -> string -> result DispatchError ResolvedBinding;
  GetCandidateRoute : string -> Z -> string -> result DispatchError ResolvedBinding }.

Notation Selector :=
  (list Candidate -> gmap string CandidateState -> bool -> Instant
     -> result DispatchError (Candidate * string)).

(** modelrouting.LookupSelector *)
Definition LookupSelector (id : string) : option Selector :=
  if bool_decide (id = "free_capacity_v1") then Some Select else None.

Section Resolver.
Context `{RoutingRegistry}.

(** The capacity of the stored candidates, in their order; a later candidate of the same
    provider and model replaces an earlier one. *)
Fixpoint read_capacity (capacity : string -> string -> string -> result DispatchError CandidateState)
    (organization : string) (state : gmap string CandidateState) (l : list RoutingCandidate)
    : result DispatchError (gmap string CandidateState) :=
  match l with
  | [] => Ok state
  | c :: l =>
      let mc := rcand_Candidate c in
      let? cs := capacity organization (cand_ProviderID mc) (cand_ProviderModelID mc) in
      read_capacity capacity organization (<[cand_key mc := cs]> state) l
  end.

Definition approved_candidates (l : list RoutingCandidate) : gmap string RoutingCandidate :=
  foldl (fun m c => <[cand_key (rcand_Candidate c) := c]> m) ∅ l.

(** The candidate the selector answered with, when it is one of those it was given. *)
Definition approve (approved : gmap string RoutingCandidate) (answer : Candidate)
    : result DispatchError RoutingCandidate :=
  match approved !! cand_key answer with
  | Some c =>
      if bool_decide (cand_ProfileID (rcand_Candidate c) = cand_ProfileID answer)
         && (cand_ModelProfileVersionID (rcand_Candidate c) =? cand_ModelProfileVersionID answer)
      then Ok c else Err ErrRouteNotApproved
  | None => Err ErrRouteNotApproved
  end.

Definition resolve_pool
    (capacity : string -> string -> string -> result DispatchError CandidateState)
    (lookup : string -> option Selector) (now : Instant) (req : RouteResolutionRequest)
    (policy : RoutingPolicy) : result DispatchError ResolvedRoute :=
  check? rejectIf (negb (bool_decide (rpol_RoutingMode policy = RoutingModePool)))
           ErrRoutingPolicyMalformed in
  match lookup (rpol_SelectorID policy) with
  | None => Err ErrRoutingPolicyMalformed
  | Some selector =>
      let? stored := ListRoutingCandidates (rreq_OrganizationID req)
                       (rreq_OrganizationRevisionID req) (rreq_PolicyID req) in
      check? rejectIf (bool_decide (stored = [])) ErrRoutingPolicyMalformed in
      let? state := read_capacity capacity (rreq_OrganizationID req) ∅ stored in
      let? decision := selector (rcand_Candidate <$> stored) state (rpol_AllowPaid policy) now in
      let? approved := approve (approved_candidates stored) (fst decision) in
      let mc := rcand_Candidate approved in
      let? binding := GetCandidateRoute (rreq_OrganizationID req)
                        (rreq_OrganizationRevisionID req) (cand_ProfileID mc) in
      check? rejectIf (negb (bool_decide (bind_ProviderID binding = cand_ProviderID mc))
               || negb (bool_decide (bind_ProviderModelID binding = cand_ProviderModelID mc)))
               ErrRouteNotApproved in
      Ok (mkResolvedRoute binding (rreq_PolicyID req) RoutingModePool (rpol_SelectorID policy)
            (rpol_CanonicalHash policy) (rcand_CandidateHash approved) (snd decision))
  end.

Definition Resolve (capacity : string -> string -> string -> result DispatchError CandidateState)
    (lookup : string -> option Selector) (now : Instant) (req : RouteResolutionRequest)
    : result DispatchError ResolvedRoute :=
  let? policy := GetRoutingPolicy (rreq_OrganizationID req) (rreq_OrganizationRevisionID req)
                   (rreq_PolicyID req) in
  match policy with
  | None =>
      let? binding := GetBinding (rreq_OrganizationID req) (rreq_OrganizationRevisionID req)
                        (rreq_SubjectRoleID req) in
      Ok (mkResolvedRoute binding (rreq_PolicyID req) RoutingModeStatic "" "" "" "static binding")
  | Some policy => resolve_pool capacity lookup now req policy
  end.

(** ** PossibleRoutes *)

Notation RoutableModel := (string * string)%type.

Definition routable_before (a b : RoutableModel) : bool :=
  if bool_decide (fst a = fst b) then string_le (snd a) (snd b) else string_le (fst a) (fst b).

(** [for i, route := range routes { if i == 0 || route != routes[i-1] ... }] *)
Fixpoint drop_repeats (l : list RoutableModel) : list RoutableModel :=
  match l with
  | a :: ((b :: _) as l') =>
      if bool_decide (a = b) then drop_repeats l' else a :: drop_repeats l'
  | _ => l
  end.

Definition PossibleRoutes (req : RouteResolutionRequest)
    : result DispatchError (list RoutableModel) :=
  let? policy := GetRoutingPolicy (rreq_OrganizationID req) (rreq_OrganizationRevisionID req)
                   (rreq_PolicyID req) in
  let? routes :=
    match policy with
    | None =>
        let? binding := GetBinding (rreq_OrganizationID req) (rreq_OrganizationRevisionID req)
                          (rreq_SubjectRoleID req) in
        Ok [(bind_ProviderID binding, bind_ProviderModelID binding)]
    | Some policy =>
        check? rejectIf (negb (bool_decide (rpol_RoutingMode policy = RoutingModePool)))
                 ErrRoutingPolicyMalformed in
        let? stored := ListRoutingCandidates (rreq_OrganizationID req)
                         (rreq_OrganizationRevisionID req) (rreq_PolicyID req) in
        check? rejectIf (bool_decide (stored = [])) ErrRoutingPolicyMalformed in
        Ok ((fun c => (cand_ProviderID (rcand_Candidate c), cand_ProviderModelID (rcand_Candidate c)))
              <$> stored)
    end in
  Ok (drop_repeats (order_by routable_before routes)).

(** ** ValidateResolvedRouteAgainstCanonical *)

Definition same_binding (a b : ResolvedBinding) : bool :=
  bool_decide (bind_ProfileID a = bind_ProfileID b) && (bind_VersionID a =? bind_VersionID b)
  && bool_decide (bind_ProviderID a = bind_ProviderID b)
  && bool_decide (bind_ProviderModelID a = bind_ProviderModelID b).

Definition candidate_is (b : ResolvedBinding) (c : RoutingCandidate) : bool :=
  let mc := rcand_Candidate c in
  bool_decide (cand_ProfileID mc = bind_ProfileID b)
  && (cand_ModelProfileVersionID mc =? bind_VersionID b)
  && bool_decide (cand_ProviderID mc = bind_ProviderID b)
  && bool_decide (cand_ProviderModelID mc = bind_ProviderModelID b).

Definition ValidateResolvedRouteAgainstCanonical (req : RouteResolutionRequest)
    (route : ResolvedRoute) : result DispatchError unit :=
  let? policy := GetRoutingPolicy (rreq_OrganizationID req) (rreq_OrganizationRevisionID req)
                   (rreq_PolicyID req) in
  match policy with
  | None =>
      check? rejectIf (negb (bool_decide (route_RoutingMode route = RoutingModeStatic)))
               ErrRouteNotApproved in
      let? canonical := GetBinding (rreq_OrganizationID req) (rreq_OrganizationRevisionID req)
                          (rreq_SubjectRoleID req) in
      rejectIf (negb (same_binding (route_Binding route) canonical)) ErrRouteNotApproved
  | Some policy =>
      check? rejectIf (negb (bool_decide (route_RoutingMode route = RoutingModePool)))
               ErrRouteNotApproved in
      check? rejectIf (negb (bool_decide (rpol_RoutingMode policy = RoutingModePool)))
               ErrRoutingPolicyMalformed in
      let? candidates := ListRoutingCandidates (rreq_OrganizationID req)
                           (rreq_OrganizationRevisionID req) (rreq_PolicyID req) in
      rejectIf (negb (existsb (candidate_is (route_Binding route)) candidates)) ErrRouteNotApproved
  end.

End Resolver.
