(* ===== verification/InvocationStore.v ===== *)
(** * Model invocations

    internal/modelruntime/postgres: store.go, events.go, invocations.go and
    cancellation.go, and the statements on invocations and attempts the other
    methods share.

    [DecodeInput] decodes the canonical bytes of a model input.  The advisory locks serialize the
    transactions of one invocation; that is what one transaction at a time is. *)

From stdpp Require Import base tactics list gmap strings pretty sorting.
From Stdlib Require Import ZArith Lia Ascii.
From S2P Require Import Prelude GoLib TaskDomain Database DispatchDB Egress.

Local Open Scope string_scope.
Local Open Scope Z_scope.

(** ** Rows and statements *)

Definition invocation_set (status : InvocationStatus) (code : string) (cancel : option Instant)
    (updated : Instant) (terminal : option Instant) (i : Invocation) : Invocation :=
  mkInvocation (inv_ID i) (inv_Columns i) status code cancel (inv_CreatedAt i) updated terminal.

(** [SET status, updated_at] *)
Definition invocation_moved (status : InvocationStatus) (updated : Instant) (i : Invocation)
    : Invocation :=
  invocation_set status (inv_ErrorCode i) (inv_CancelRequestedAt i) updated (inv_TerminalAt i) i.

(** [SET status, error_code, updated_at, terminal_at] *)
Definition invocation_ended (status : InvocationStatus) (code : string) (updated terminal : Instant)
    (i : Invocation) : Invocation :=
  invocation_set status code (inv_CancelRequestedAt i) updated (Some terminal) i.

(** [SET status, retry_safety, outcome_classification, error_code, finished_at] *)
Definition attempt_finished (status : DispatchStatus) (safety : RetrySafety)
    (classification code : string) (finished : Instant) (a : DispatchAttempt) : DispatchAttempt :=
  mkDispatchAttempt (datt_ID a) (datt_Claim a) status (datt_Identity a) (datt_ClaimExpiresAt a)
    (datt_SendStartedAt a) (datt_ResponseReceivedAt a) (datt_ProviderRequestID a)
    (datt_ProviderIdempotencyKeyHash a) safety classification code (Some finished).

(** [SET execution_identity_key_id, identity_assertion_id, identity_verified_at] *)
Definition attempt_identified (identity : IdentityColumns) (a : DispatchAttempt) : DispatchAttempt :=
  mkDispatchAttempt (datt_ID a) (datt_Claim a) (datt_Status a) (Some identity)
    (datt_ClaimExpiresAt a) (datt_SendStartedAt a) (datt_ResponseReceivedAt a)
    (datt_ProviderRequestID a) (datt_ProviderIdempotencyKeyHash a) (datt_RetrySafety a)
    (datt_OutcomeClassification a) (datt_ErrorCode a) (datt_FinishedAt a).

Definition is_invocation (s : InvocationStatus) (i : Invocation) : bool :=
  bool_decide (inv_Status i = s).
Definition is_attempt (s : DispatchStatus) (a : DispatchAttempt) : bool :=
  bool_decide (datt_Status a = s).

(** [UPDATE model_invocations SET ... WHERE id = $1 AND cond RETURNING ...] *)
Definition update_invocation (id : Z) (cond : Invocation -> bool) (f : Invocation -> Invocation)
    : Disp (option Invocation) :=
  let! d := dp_get in
  match md_invocations d !! id with
  | Some i =>
      if cond i then
        do! dp_check (invocation_check (f i)) in
        do! dp_modify (put_invocations (<[id := f i]> (md_invocations d))) in
        ret (Some (f i))
      else ret None
  | None => ret None
  end.

(** [UPDATE model_dispatch_attempts SET ... WHERE id = $1 AND cond RETURNING ...]; the
    updates only ever make an attempt inactive or keep it active. *)
Definition update_dispatch (id : Z) (cond : DispatchAttempt -> bool)
    (f : DispatchAttempt -> DispatchAttempt) : Disp (option DispatchAttempt) :=
  let! d := dp_get in
  match md_attempts d !! id with
  | Some a =>
      if cond a then
        do! dp_check (dispatch_attempt_check (f a)) in
        do! dp_modify (put_attempts (<[id := f a]> (md_attempts d))) in
        ret (Some (f a))
      else ret None
  | None => ret None
  end.

Definition any_row {A} (a : A) : bool := true.

(** [SELECT ... FROM model_invocations WHERE id = $1 FOR UPDATE] *)
Definition select_invocation (id : Z) : Disp Invocation :=
  let! d := dp_get in dp_row (md_invocations d !! id).

Definition insert_audit_row (row : AuditRow) : Disp unit :=
  let! d := dp_get in dp_modify (put_audit (md_audit d ++ [row])).
Definition insert_outbox_message (row : OutboxMessage) : Disp unit :=
  let! d := dp_get in dp_modify (put_outbox (md_outbox d ++ [row])).

(** ** events.go *)

Definition AuditRegistryValidated : string := "model.registry_validated".
Definition AuditRegistrySynced : string := "model.registry_synced".
Definition AuditInvocationRequested : string := "model.invocation_requested".
Definition AuditInvocationReused : string := "model.invocation_reused".
Definition AuditInvocationClaimed : string := "model.invocation_claimed".
Definition AuditInvocationDispatched : string := "model.invocation_dispatched".
Definition AuditInvocationSucceeded : string := "model.invocation_succeeded".
Definition AuditInvocationFailed : string := "model.invocation_failed".
Definition AuditInvocationCancelled : string := "model.invocation_cancelled".
Definition AuditInvocationTimedOut : string := "model.invocation_timed_out".
Definition AuditInvocationAmbiguous : string := "model.invocation_ambiguous".
Definition AuditInvocationReconciled : string := "model.invocation_reconciled".

Definition AllowedAuditEvents : list string :=
  [AuditRegistryValidated; AuditRegistrySynced; AuditInvocationRequested; AuditInvocationReused;
   AuditInvocationClaimed; AuditInvocationDispatched; AuditInvocationSucceeded;
   AuditInvocationFailed; AuditInvocationCancelled; AuditInvocationTimedOut;
   AuditInvocationAmbiguous; AuditInvocationReconciled].

Definition AllowedOutboxEvents : list string :=
  [AuditInvocationRequested; AuditInvocationSucceeded; AuditInvocationFailed;
   AuditInvocationCancelled; AuditInvocationTimedOut; AuditInvocationAmbiguous].

Definition invocation_status_text (s : InvocationStatus) : string :=
  match s with
  | InvocationRequested => "requested" | InvocationClaimed => "claimed"
  | InvocationSendStarted => "send_started" | InvocationResponseReceived => "response_received"
  | InvocationSucceeded => "succeeded" | InvocationFailed => "failed"
  | InvocationCancelled => "cancelled" | InvocationAmbiguous => "ambiguous"
  end.

Definition event_payload (i : Invocation) : Payload :=
  list_to_map [
    ("invocation_id", JInt (inv_ID i)); ("task_id", JInt (inv_TaskID (inv_Columns i)));
    ("attempt_id", JInt (inv_AttemptID (inv_Columns i)));
    ("status", JStr (invocation_status_text (inv_Status i)));
    ("error_code", JStr (inv_ErrorCode i))].

Definition appendInvocationEvent (i : Invocation) (eventType actorType actorID : string)
    (outbox : bool) (outboxMax : Z) (extra : Payload) : Disp unit :=
  do! throwIf (negb (bool_decide (eventType ∈ AllowedAuditEvents))) ErrRuntimeInvalidRequest in
  do! throwIf (outbox && negb (bool_decide (eventType ∈ AllowedOutboxEvents)))
        ErrRuntimeInvalidRequest in
  do! throwIf (outbox && ((outboxMax <? 1) || (100 <? outboxMax))) ErrRuntimeInvalidRequest in
  do! insert_audit_row (mkAuditRow eventType
        (if is_empty actorType then "system" else actorType)
        (if is_empty actorID then "model-runtime" else actorID)
        "model_invocation" (pretty (inv_ID i)) (inv_CorrelationID (inv_Columns i))
        (inv_CausationID (inv_Columns i)) (extra ∪ event_payload i)) in
  if outbox then
    insert_outbox_message (mkOutboxMessage (pretty (inv_ID i)) eventType
      (<["schema_version" := JInt 1]> (<["event_type" := JStr eventType]> (event_payload i)))
      outboxMax)
  else ret tt.

(** [UPDATE model_invocations SET status, error_code, updated_at, terminal_at WHERE
    id = $1 AND cond RETURNING ...] *)
Definition end_invocation `{Env} (id : Z) (cond : Invocation -> bool) (status : InvocationStatus)
    (code : string) : Disp Invocation :=
  let! updated := dp_clock in
  let! terminal := dp_clock in
  let! row := update_invocation id cond (invocation_ended status code updated terminal) in
  dp_row row.

Definition finish_dispatch `{Env} (id : Z) (status : DispatchStatus) (safety : RetrySafety)
    (classification code : string) : Disp unit :=
  let! finished := dp_clock in
  do! update_dispatch id any_row (attempt_finished status safety classification code finished) in
  ret tt.

(** ** invocations.go *)

Record PreparedInvocation : Type := mkPreparedInvocation {
  prep_Columns : InvocationColumns;
  prep_ModelInput : ModelInput }.

Record CreateInvocationResult : Type := mkCreateInvocationResult {
  created_Invocation : Invocation;
  created_Reused : bool }.

Definition same_idempotency (c : InvocationColumns) (i : Invocation) : bool :=
  bool_decide (inv_OrganizationID (inv_Columns i) = inv_OrganizationID c)
  && bool_decide (inv_IdempotencyKey (inv_Columns i) = inv_IdempotencyKey c).

(** The rows a pinned assignment and identity policy refer to. *)
Definition pins_exist (c : InvocationColumns) (d : DispatchDB) : bool :=
  match inv_DispatcherAssignmentID c, inv_ExecutionPrincipalID c with
  | Some a, Some p =>
      match md_assignments d !! a with
      | Some row =>
          bool_decide (asg_OrganizationID (asg_Scope row) = inv_OrganizationID c)
          && (asg_ExecutionPrincipalID (asg_Scope row) =? p)
      | None => false
      end
  | _, _ => true
  end
  && match inv_ExecutionIdentityPolicyVersionID c with
     | Some v => match md_policies d !! v with
                 | Some row => bool_decide (idpol_OrganizationID row = inv_OrganizationID c)
                 | None => false
                 end
     | None => true
     end.

(** [INSERT INTO model_invocations ... ON CONFLICT (organization_id, idempotency_key) DO
    NOTHING RETURNING ...] *)
Definition insert_invocation (c : InvocationColumns) : Disp (option Invocation) :=
  let! now := dp_now in
  let! id := dp_nextval TInvocations in
  let row := mkInvocation id c InvocationRequested EmptyString None now now None in
  do! dp_check (columns_check c && invocation_check row) in
  let! d := dp_get in
  if bool_decide (rows (same_idempotency c) (md_invocations d) <> []) then ret None
  else
    do! dp_unique (negb (taken (md_invocations d) id)) in
    do! dp_foreign_key (pins_exist c d) in
    do! dp_modify (put_invocations (<[id := row]> (md_invocations d))) in
    ret (Some row).

Definition input_check (m : ModelInput) : bool :=
  forallb (MatchString digestPattern)
    [input_CanonicalDigest m; input_ProjectionDigest m; input_StablePrefixDigest m;
     input_ClassificationsHash m]
  && bool_decide (input_SchemaVersion m = "modelruntime.input.v1")
  && between 1 8388608 (len (input_CanonicalBytes m)).

Definition insertModelInput (i : Invocation) (m : ModelInput) : Disp unit :=
  do! dp_check (input_check m) in
  let! d := dp_get in
  do! dp_unique (negb (taken (md_inputs d) (inv_ID i))) in
  do! dp_foreign_key (input_ContextSnapshotID m =? inv_ContextSnapshotID (inv_Columns i)) in
  dp_modify (put_inputs (<[inv_ID i := m]> (md_inputs d))).

(** The columns agree with the envelope the canonical bytes hold. *)
Definition envelope_agrees (m e : ModelInput) : bool :=
  bool_decide (input_SchemaVersion e = input_SchemaVersion m)
  && (input_ContextSnapshotID e =? input_ContextSnapshotID m)
  && bool_decide (input_ProjectionDigest e = input_ProjectionDigest m)
  && bool_decide (input_StablePrefixDigest e = input_StablePrefixDigest m)
  && bool_decide (input_ClassificationsHash e = input_ClassificationsHash m)
  && bool_decide (input_Classifications m = input_Classifications e).

Section Invocations.
Context (DecodeInput : string -> option ModelInput).

Definition getModelInput (id : Z) : Disp ModelInput :=
  let! d := dp_get in
  let! m := dp_row (md_inputs d !! id) in
  match DecodeInput (input_CanonicalBytes m) with
  | None => throw ErrHost
  | Some e => do! throwIf (negb (envelope_agrees m e)) ErrRuntimeConflict in ret m
  end.

Definition input_facts (m : ModelInput) : Payload :=
  list_to_map [("model_input_schema_version", JStr (input_SchemaVersion m));
               ("model_input_digest", JStr (input_CanonicalDigest m))].

Definition CreateInvocation `{Env} (p : PreparedInvocation) (outboxMax : Z)
    : Disp CreateInvocationResult :=
  let c := prep_Columns p in
  let m := prep_ModelInput p in
  dp_tx
    (let! inserted := insert_invocation c in
     match inserted with
     | Some i =>
         do! insertModelInput i m in
         do! appendInvocationEvent i AuditInvocationRequested "role" (inv_DispatchActorRoleID c)
               true outboxMax (input_facts m) in
         ret (mkCreateInvocationResult i false)
     | None =>
         let! d := dp_get in
         let! i := dp_row (head (rows (same_idempotency c) (md_invocations d))) in
         let ic := inv_Columns i in
         do! throwIf (is_empty (inv_IdempotencyIntentHash ic)) ErrRuntimeConflict in
         do! throwIf (negb (bool_decide (inv_IdempotencyIntentHash ic
                              = inv_IdempotencyIntentHash c))) ErrRuntimeConflict in
         let! existing := getModelInput (inv_ID i) in
         do! throwIf (negb (bool_decide (input_CanonicalDigest existing
                              = input_CanonicalDigest m))) ErrRuntimeConflict in
         do! appendInvocationEvent i AuditInvocationReused "role" (inv_DispatchActorRoleID ic)
               false outboxMax (input_facts m) in
         ret (mkCreateInvocationResult i true)
     end).

End Invocations.

Definition GetInvocation (id : Z) : Disp Invocation := select_invocation id.

Definition ListInvocations (organizationID : string) (limit : Z) : Disp (list Invocation) :=
  let! d := dp_get in
  ret (take (Z.to_nat limit)
         (order_by (fun a b => inv_ID b <=? inv_ID a)
            (rows (fun i => bool_decide (inv_OrganizationID (inv_Columns i) = organizationID))
               (md_invocations d)))).

Definition UnreconciledAmbiguousInvocations (taskID : Z) : Disp Z :=
  do! throwIf (taskID <=? 0) ErrHost in
  let! d := dp_get in
  ret (Z.of_nat (length (rows (fun i => (inv_TaskID (inv_Columns i) =? taskID)
                                        && is_invocation InvocationAmbiguous i)
                           (md_invocations d)))).

(** ** cancellation.go *)

Record CancelResult : Type := mkCancelResult {
  cancel_Invocation : Invocation;
  cancel_Immediate : bool;
  cancel_AdapterRequested : bool }.

Section Store.
Context `{Env}.

Definition cancel_facts (reason phase : string) : Payload :=
  list_to_map [("reason_provided", JBool (negb (is_empty reason))); ("phase", JStr phase)].

(** [SET status='cancelled', cancel_requested_at, error_code, updated_at, terminal_at] *)
Definition cancel_now (id : Z) (code : string) : Disp Invocation :=
  let! requested := dp_clock in
  let! updated := dp_clock in
  let! terminal := dp_clock in
  let! row := update_invocation id any_row
    (invocation_set InvocationCancelled code (Some requested) updated (Some terminal)) in
  dp_row row.

(** [SET cancel_requested_at = COALESCE(cancel_requested_at, ...), updated_at] *)
Definition flag_cancellation (id : Z) : Disp Invocation :=
  let! requested := dp_clock in
  let! updated := dp_clock in
  let! row := update_invocation id any_row (fun i =>
    invocation_set (inv_Status i) (inv_ErrorCode i)
      (match inv_CancelRequestedAt i with Some t => Some t | None => Some requested end)
      updated (inv_TerminalAt i) i) in
  dp_row row.

Definition RequestCancellation (id : Z) (actor reason : string) (outboxMax : Z)
    : Disp CancelResult :=
  let actor := TrimSpace actor in
  let reason := TrimSpace reason in
  do! throwIf (is_empty actor) ErrRuntimeInvalidRequest in
  dp_tx
    (let! i := select_invocation id in
     match inv_Status i with
     | InvocationSucceeded | InvocationFailed | InvocationCancelled | InvocationAmbiguous =>
         ret (mkCancelResult i true false)
     | InvocationRequested =>
         let! i := cancel_now id "cancelled_before_claim" in
         do! appendInvocationEvent i AuditInvocationCancelled "role" actor true outboxMax
               (cancel_facts reason "requested") in
         ret (mkCancelResult i true false)
     | InvocationClaimed =>
         let! d := dp_get in
         let! a := dp_row (head (rows (fun a => (att_invocation a =? id)
                                       && is_attempt DispatchClaimed a) (md_attempts d))) in
         do! finish_dispatch (datt_ID a) DispatchFailedBeforeSend RetryNotRetryable
               "cancelled_before_send" "cancelled_before_send" in
         let! i := cancel_now id "cancelled_before_send" in
         do! appendInvocationEvent i AuditInvocationCancelled "role" actor true outboxMax
               (cancel_facts reason "claimed") in
         ret (mkCancelResult i true false)
     | InvocationSendStarted | InvocationResponseReceived =>
         let! i := flag_cancellation id in ret (mkCancelResult i false true)
     end).

Definition CancellationRequested (id : Z) : Disp bool :=
  let! i := select_invocation id in ret (is_some (inv_CancelRequestedAt i)).

End Store.

(** ** Reconciliation of model invocations

    internal/modelruntime/postgres/reconcile.go: a claim that expired before the
    call was sent is released, one that expired after it makes the invocation
    ambiguous, one whose response was received but never completed makes it
    failed.  [locked] are the invocations whose advisory lock another session
    holds. *)


Record ModelReconcileResult : Type := mkModelReconcileResult {
  rec_ReleasedBeforeSend : Z;
  rec_MarkedAmbiguous : Z;
  rec_FailedAfterResponse : Z;
  rec_Inspected : Z }.

Definition rec_zero : ModelReconcileResult := mkModelReconcileResult 0 0 0 0.
Definition rec_inspected (r : ModelReconcileResult) : ModelReconcileResult :=
  mkModelReconcileResult (rec_ReleasedBeforeSend r) (rec_MarkedAmbiguous r)
    (rec_FailedAfterResponse r) (rec_Inspected r + 1).
Definition rec_released (r : ModelReconcileResult) : ModelReconcileResult :=
  mkModelReconcileResult (rec_ReleasedBeforeSend r + 1) (rec_MarkedAmbiguous r)
    (rec_FailedAfterResponse r) (rec_Inspected r).
Definition rec_ambiguous (r : ModelReconcileResult) : ModelReconcileResult :=
  mkModelReconcileResult (rec_ReleasedBeforeSend r) (rec_MarkedAmbiguous r + 1)
    (rec_FailedAfterResponse r) (rec_Inspected r).
Definition rec_failed (r : ModelReconcileResult) : ModelReconcileResult :=
  mkModelReconcileResult (rec_ReleasedBeforeSend r) (rec_MarkedAmbiguous r)
    (rec_FailedAfterResponse r + 1) (rec_Inspected r).

Section Reconcile.
Context `{Env}.

Definition claim_expired (d : DispatchDB) (organizationID : string) (now : Instant)
    (a : DispatchAttempt) : bool :=
  attempt_active a && (datt_ClaimExpiresAt a <=? now)
  && match md_invocations d !! att_invocation a with
     | Some i => bool_decide (inv_OrganizationID (inv_Columns i) = organizationID)
     | None => false
     end.

Definition claim_expiry_before (a b : DispatchAttempt) : bool :=
  if datt_ClaimExpiresAt a =? datt_ClaimExpiresAt b then datt_ID a <=? datt_ID b
  else datt_ClaimExpiresAt a <? datt_ClaimExpiresAt b.

Definition reconcile_facts (a : DispatchAttempt) (action : string) : Payload :=
  list_to_map [("dispatch_attempt_id", JInt (datt_ID a)); ("action", JStr action)].
Definition lost_facts (a : DispatchAttempt) (classification : string) : Payload :=
  list_to_map [("dispatch_attempt_id", JInt (datt_ID a));
               ("outcome_classification", JStr classification)].

Definition system_event (i : Invocation) (eventType : string) (outbox : bool) (outboxMax : Z)
    (facts : Payload) : Disp unit :=
  appendInvocationEvent i eventType "system" "orgctl" outbox outboxMax facts.

Definition release_claim (i : Invocation) (a : DispatchAttempt) (outboxMax : Z) : Disp unit :=
  do! finish_dispatch (datt_ID a) DispatchFailedBeforeSend RetrySafeBeforeSend
        "claim_expired_before_send" "claim_expired" in
  let! updated := dp_clock in
  let! row := update_invocation (inv_ID i) (is_invocation InvocationClaimed) (fun i =>
    invocation_set InvocationRequested EmptyString (inv_CancelRequestedAt i) updated None i) in
  let! i := dp_row row in
  system_event i AuditInvocationReconciled false outboxMax
    (reconcile_facts a "released_before_send").

Definition mark_lost (i : Invocation) (a : DispatchAttempt) (outboxMax : Z) : Disp unit :=
  do! finish_dispatch (datt_ID a) DispatchAmbiguous RetryNotRetryable
        "ambiguous_external_outcome" "claim_expired_after_send" in
  let! i := end_invocation (inv_ID i) (is_invocation InvocationSendStarted) InvocationAmbiguous
              "claim_expired_after_send" in
  do! system_event i AuditInvocationAmbiguous true outboxMax
        (lost_facts a "ambiguous_external_outcome") in
  system_event i AuditInvocationReconciled false outboxMax (reconcile_facts a "marked_ambiguous").

Definition fail_lost (i : Invocation) (a : DispatchAttempt) (outboxMax : Z) : Disp unit :=
  do! finish_dispatch (datt_ID a) DispatchCompleted RetryNotRetryable
        "response_received_result_lost" "result_lost_after_response" in
  let! i := end_invocation (inv_ID i) (is_invocation InvocationResponseReceived) InvocationFailed
              "result_lost_after_response" in
  do! system_event i AuditInvocationFailed true outboxMax
        (lost_facts a "response_received_result_lost") in
  system_event i AuditInvocationReconciled false outboxMax
    (reconcile_facts a "failed_after_response").

(** One turn of the loop. *)
Definition reconcile_candidate (locked : list Z) (outboxMax : Z) (r : ModelReconcileResult)
    (candidate : DispatchAttempt) : Disp ModelReconcileResult :=
  let invocationID := att_invocation candidate in
  if bool_decide (invocationID ∈ locked) then ret r
  else
    let! i := select_invocation invocationID in
    let! d := dp_get in
    let! a := dp_row (a ← md_attempts d !! datt_ID candidate;
                      if att_invocation a =? invocationID then Some a else None) in
    let! now := dp_clock in
    if negb (datt_ClaimExpiresAt a <=? now) then ret r
    else
      let r := rec_inspected r in
      match datt_Status a with
      | DispatchClaimed =>
          if negb (is_invocation InvocationClaimed i) then ret r
          else do! release_claim i a outboxMax in ret (rec_released r)
      | DispatchSendStarted =>
          if negb (is_invocation InvocationSendStarted i) then ret r
          else do! mark_lost i a outboxMax in ret (rec_ambiguous r)
      | DispatchResponseReceived =>
          if negb (is_invocation InvocationResponseReceived i) then ret r
          else do! fail_lost i a outboxMax in ret (rec_failed r)
      | _ => ret r
      end.

Definition ReconcileInvocations (organizationID : string) (batch outboxMax : Z) (locked : list Z)
    : Disp ModelReconcileResult :=
  dp_tx
    (let! d := dp_get in
     let! now := dp_clock in
     let candidates := take (Z.to_nat batch)
       (order_by claim_expiry_before (rows (claim_expired d organizationID now) (md_attempts d))) in
     foldM (reconcile_candidate locked outboxMax) rec_zero candidates).

End Reconcile.
