(* ===== verification/Claims.v ===== *)
(** * Claims of model invocations

    internal/modelruntime/postgres/claims.go, the digests of
    modelruntime/hashing.go and modelidentity/hashing.go a claim is checked
    against, and internal/modelidentity/postgres/challenges.go.

    [Verify key payload signature] is ed25519.Verify; [BuildSHA] is the build's
    version.  The advisory locks serialize the transactions of an invocation and
    the claims of an organization. *)

From stdpp Require Import base tactics list gmap strings pretty sorting.
From Stdlib Require Import ZArith Lia Ascii.
From S2P Require Import Prelude GoLib TaskDomain Database DispatchDB Egress InvocationStore.

Local Open Scope string_scope.
Local Open Scope Z_scope.

(** ** modelruntime/interfaces.go *)

Record ClaimCommand : Type := mkClaimCommand {
  claim_InvocationID : Z;
  claim_ClaimedBy : string;
  claim_ExecutionPrincipalID : Z }.

Record AuthenticatedClaimCommand : Type := mkAuthenticatedClaimCommand {
  auth_InvocationID : Z;
  auth_ClaimedBy : string;
  auth_ExecutionPrincipalID : Z;
  auth_IdentityKeyID : Z;
  auth_ChallengeID : Z;
  auth_ChallengeNonce : string;
  auth_Signature : string }.

Definition PublicKeySize : Z := 32.
Definition SignatureSize : Z := 64.
Definition AlgorithmEd25519 : string := "ed25519".

Definition AuditChallengeCreated : string := "model.execution_identity_challenge_created".
Definition AuditIdentityVerified : string := "model.execution_identity_verified".
Definition AuditIdentityDenied : string := "model.execution_identity_denied".
Definition AuditIdentityReplayDeny : string := "model.execution_identity_replay_denied".

(** ** Digests *)

Section Digests.
Context `{Env}.

(** modelruntime.ActionDigest, from the fields of the invocation it reads *)
Definition ActionDigest (id : Z) (requestHash : string) (assignment principal egress : option Z)
    (egressHash : string) (identity : option Z) (identityHash : string)
    : result DispatchError string :=
  match egress with
  | None => Err ErrEgressPolicyUnpinned
  | Some e =>
      match identity with
      | None => Err ErrExecutionIdentityUnpinned
      | Some v =>
          if is_empty identityHash then Err ErrExecutionIdentityUnpinned
          else
            match assignment, principal with
            | Some a, Some p =>
                Ok (json_digest (JObj [
                  ("invocation_id", JInt id); ("request_hash", JStr requestHash);
                  ("dispatcher_assignment_id", JInt a); ("execution_principal_id", JInt p);
                  ("model_egress_policy_version_id", JInt e);
                  ("model_egress_policy_hash", JStr egressHash);
                  ("execution_identity_policy_version_id", JInt v);
                  ("execution_identity_policy_hash", JStr identityHash)]))
            | _, _ => Err ErrDispatcherAssignmentUnpinned
            end
      end
  end.

Definition invocation_digest (i : Invocation) : result DispatchError string :=
  let c := inv_Columns i in
  ActionDigest (inv_ID i) (inv_RequestHash c) (inv_DispatcherAssignmentID c)
    (inv_ExecutionPrincipalID c) (inv_ModelEgressPolicyVersionID c) (inv_ModelEgressPolicyHash c)
    (inv_ExecutionIdentityPolicyVersionID c) (inv_ExecutionIdentityPolicyHash c).

Definition BuildAssertionPayload (s : ChallengeScope) (challengeID : Z) (nonce : string)
    (issuedAt expiresAt : Instant) : string :=
  env_json_marshal (JObj [
    ("schema_version", JInt 1); ("organization_id", JStr (scope_OrganizationID s));
    ("organization_revision_id", JInt (scope_OrganizationRevisionID s));
    ("invocation_id", JInt (scope_InvocationID s));
    ("dispatcher_assignment_id", JInt (scope_DispatcherAssignmentID s));
    ("execution_principal_id", JInt (scope_ExecutionPrincipalID s));
    ("execution_identity_policy_version_id", JInt (scope_ExecutionIdentityPolicyVersionID s));
    ("execution_identity_policy_hash", JStr (scope_ExecutionIdentityPolicyHash s));
    ("execution_identity_key_id", JInt (scope_ExecutionIdentityKeyID s));
    ("challenge_id", JInt challengeID); ("challenge_nonce", JStr nonce);
    ("action_digest", JStr (scope_ActionDigest s)); ("request_hash", JStr (scope_RequestHash s));
    ("issued_at", JTime issuedAt); ("expires_at", JTime expiresAt)]).

Definition AssertionHash (payloadHash signatureHash : string) : string :=
  json_digest (JObj [("payload_hash", JStr payloadHash); ("signature_hash", JStr signatureHash)]).

End Digests.

(** ** challenges.go *)

Record PreparedChallenge : Type := mkPreparedChallenge {
  pch_Scope : ChallengeScope;
  pch_Nonce : string;
  pch_NonceHash : string;
  pch_IssuedAt : Instant;
  pch_ExpiresAt : Instant }.

Definition challenge_open (c : Challenge) : bool :=
  negb (is_some (chal_ConsumedAt c)) && negb (is_some (chal_InvalidatedAt c)).

Definition challenge_ended (consumed invalidated : option Instant) (c : Challenge) : Challenge :=
  mkChallenge (chal_ID c) (chal_Scope c) (chal_NonceHash c) (chal_PayloadHash c) (chal_IssuedAt c)
    (chal_ExpiresAt c) consumed invalidated (chal_CreatedAt c).
Definition challenge_invalidated (t : Instant) (c : Challenge) : Challenge :=
  challenge_ended (chal_ConsumedAt c) (Some t) c.
Definition challenge_consumed (t : Instant) (c : Challenge) : Challenge :=
  challenge_ended (Some t) (chal_InvalidatedAt c) c.

(** [UPDATE ... SET invalidated_at WHERE invocation_id = $1 AND consumed_at IS NULL AND
    invalidated_at IS NULL] *)
Definition invalidate_challenges `{Env} (invocation : Z) : Disp unit :=
  let! now := dp_clock in
  let! d := dp_get in
  let hit c := (scope_InvocationID (chal_Scope c) =? invocation) && challenge_open c in
  do! dp_check (forallb (fun c => challenge_check (challenge_invalidated now c))
                  (rows hit (md_challenges d))) in
  dp_modify (put_challenges
    ((fun c => if hit c then challenge_invalidated now c else c) <$> md_challenges d)).

(** The rows a challenge's scope refers to. *)
Definition challenge_refers (s : ChallengeScope) (d : DispatchDB) : bool :=
  match md_invocations d !! scope_InvocationID s with
  | Some i => bool_decide (inv_OrganizationID (inv_Columns i) = scope_OrganizationID s)
              && bool_decide (inv_ExecutionPrincipalID (inv_Columns i)
                              = Some (scope_ExecutionPrincipalID s))
  | None => false
  end
  && match md_assignments d !! scope_DispatcherAssignmentID s with
     | Some a => bool_decide (asg_OrganizationID (asg_Scope a) = scope_OrganizationID s)
                 && (asg_ExecutionPrincipalID (asg_Scope a) =? scope_ExecutionPrincipalID s)
     | None => false
     end
  && match md_policies d !! scope_ExecutionIdentityPolicyVersionID s with
     | Some p => bool_decide (idpol_OrganizationID p = scope_OrganizationID s)
     | None => false
     end
  && match md_keys d !! scope_ExecutionIdentityKeyID s with
     | Some k => bool_decide (key_OrganizationID k = scope_OrganizationID s)
                 && (key_ExecutionPrincipalID k =? scope_ExecutionPrincipalID s)
     | None => false
     end.

(** An id that a sequence hands out is new, the nonce of an organization is used once and an
    invocation has one open challenge. *)
Definition challenge_unique (row : Challenge) (d : DispatchDB) : bool :=
  let s := chal_Scope row in
  negb (taken (md_challenges d) (chal_ID row))
  && bool_decide (rows (fun c =>
       bool_decide (scope_OrganizationID (chal_Scope c) = scope_OrganizationID s)
       && bool_decide (chal_NonceHash c = chal_NonceHash row)) (md_challenges d) = [])
  && bool_decide (rows (fun c => (scope_InvocationID (chal_Scope c) =? scope_InvocationID s)
                                 && challenge_open c) (md_challenges d) = []).

Definition challenge_facts (c : Challenge) : Payload :=
  let s := chal_Scope c in
  list_to_map [
    ("challenge_id", JInt (chal_ID c)); ("invocation_id", JInt (scope_InvocationID s));
    ("dispatcher_assignment_id", JInt (scope_DispatcherAssignmentID s));
    ("execution_principal_id", JInt (scope_ExecutionPrincipalID s));
    ("execution_identity_key_id", JInt (scope_ExecutionIdentityKeyID s));
    ("payload_hash", JStr (chal_PayloadHash c)); ("expires_at", JTime (chal_ExpiresAt c))].

Definition CreateChallenge `{Env} (p : PreparedChallenge) : Disp Challenge :=
  dp_tx
    (do! invalidate_challenges (scope_InvocationID (pch_Scope p)) in
     let! id := dp_nextval TChallenges in
     let payload := BuildAssertionPayload (pch_Scope p) id (pch_Nonce p) (pch_IssuedAt p)
                      (pch_ExpiresAt p) in
     let! created := dp_clock in
     let row := mkChallenge id (pch_Scope p) (pch_NonceHash p) (env_sha256_hex payload)
                  (pch_IssuedAt p) (pch_ExpiresAt p) None None created in
     do! dp_check (challenge_check row) in
     let! d := dp_get in
     do! dp_unique (challenge_unique row d) in
     do! dp_foreign_key (challenge_refers (pch_Scope p) d) in
     do! dp_modify (put_challenges (<[id := row]> (md_challenges d))) in
     do! insert_audit_row (mkAuditRow AuditChallengeCreated "service" "model-runtime"
           "model_execution_identity_challenge" (pretty id) "" "" (challenge_facts row)) in
     ret row).

(** ** claims.go *)

Section Claims.
Context `{Env} (Verify : string -> string -> string -> bool) (BuildSHA : string).

Definition newClaimToken : Disp (string * string) :=
  let! token := dp_random in
  match token with
  | Some raw => ret (raw, env_sha256_hex raw)
  | None => throw ErrHost
  end.

(** The calls that count against the concurrency limit. *)
Definition occupies (d : DispatchDB) (now : Instant) (i : Invocation) : bool :=
  ProviderExecutionMayHaveStarted (inv_Status i)
  || (is_invocation InvocationClaimed i
      && bool_decide (rows (fun a => (att_invocation a =? inv_ID i)
           && is_attempt DispatchClaimed a && (now <? datt_ClaimExpiresAt a))
           (md_attempts d) <> [])).

Definition active_invocations (d : DispatchDB) (now : Instant) (organizationID : string) : Z :=
  Z.of_nat (length (rows (fun i =>
    bool_decide (inv_OrganizationID (inv_Columns i) = organizationID) && occupies d now i)
    (md_invocations d))).

Definition lockedClaimableInvocation (id principal : Z) (config : RuntimeConfig)
    : Disp Invocation :=
  let! i := select_invocation id in
  do! throwIf (negb (is_invocation InvocationRequested i)) ErrClaimUnavailable in
  do! throwIf (match inv_ExecutionPrincipalID (inv_Columns i) with
               | Some p => negb (p =? principal)
               | None => false
               end) ErrExecutionPrincipalMismatch in
  let! d := dp_get in
  let! now := dp_clock in
  do! throwIf (rt_GlobalConcurrency config
               <=? active_invocations d now (inv_OrganizationID (inv_Columns i)))
        ErrConcurrencyLimit in
  ret i.

Definition attempts_of (id : Z) (d : DispatchDB) : list DispatchAttempt :=
  rows (fun a => att_invocation a =? id) (md_attempts d).

(** [COALESCE(MAX(attempt_number), 0) + 1] *)
Definition next_attempt_number (id : Z) (d : DispatchDB) : Z :=
  foldr Z.max 0 (map (fun a => datt_AttemptNumber (datt_Claim a)) (attempts_of id d)) + 1.

(** [UNIQUE (invocation_id, attempt_number)] and the index of the active attempts. *)
Definition attempt_unique (row : DispatchAttempt) (d : DispatchDB) : bool :=
  negb (taken (md_attempts d) (datt_ID row))
  && bool_decide (List.filter (fun a => datt_AttemptNumber (datt_Claim a)
                            =? datt_AttemptNumber (datt_Claim row))
                    (attempts_of (att_invocation row) d) = [])
  && (negb (attempt_active row)
      || bool_decide (List.filter attempt_active (attempts_of (att_invocation row) d) = [])).

Definition insert_attempt (row : DispatchAttempt) : Disp DispatchAttempt :=
  do! dp_check (dispatch_attempt_check row) in
  let! d := dp_get in
  do! dp_unique (attempt_unique row d) in
  do! dp_foreign_key (taken (md_invocations d) (att_invocation row)) in
  do! dp_modify (put_attempts (<[datt_ID row := row]> (md_attempts d))) in
  ret row.

Definition claim_facts (a : DispatchAttempt) : Payload :=
  list_to_map [("dispatch_attempt_id", JInt (datt_ID a));
               ("claim_expires_at", JTime (datt_ClaimExpiresAt a));
               ("execution_identity_key_id", JNull)].

(** Both callers pass no key, no assertion and no verification time: the columns are filled
    by the UPDATE of the authenticated claim. *)
Definition createClaimAttempt (i : Invocation) (claimedBy : string) (principal : Z)
    (tokenHash rawToken : string) (config : RuntimeConfig) : Disp ClaimedInvocation :=
  let! d := dp_get in
  let number := next_attempt_number (inv_ID i) d in
  let attemptPrincipal :=
    match inv_ExecutionPrincipalID (inv_Columns i) with Some _ => Some principal | None => None end in
  let! now := dp_now in
  let! clock := dp_clock in
  let! id := dp_nextval TDispatchAttempts in
  let! a := insert_attempt (mkDispatchAttempt id
    (mkClaimColumns (inv_ID i) number tokenHash claimedBy attemptPrincipal now BuildSHA now)
    DispatchClaimed None (clock + env_make_interval (rt_ClaimTTL config)) None None
    EmptyString EmptyString RetrySafeBeforeSend EmptyString EmptyString None) in
  let! updated := dp_clock in
  let! row := update_invocation (inv_ID i) (is_invocation InvocationRequested)
                (invocation_moved InvocationClaimed updated) in
  let! i := dp_row row in
  do! appendInvocationEvent i AuditInvocationClaimed "service" claimedBy false
        (rt_OutboxMaxAttempts config) (claim_facts a) in
  ret (mkClaimedInvocation i a rawToken).

Definition ClaimInvocation (c : ClaimCommand) (config : RuntimeConfig) : Disp ClaimedInvocation :=
  let! (rawToken, tokenHash) := newClaimToken in
  dp_tx
    (let! i := lockedClaimableInvocation (claim_InvocationID c) (claim_ExecutionPrincipalID c)
                 config in
     do! throwIf (is_some (inv_ExecutionIdentityPolicyVersionID (inv_Columns i)))
           ErrExecutionIdentityDenied in
     createClaimAttempt i (claim_ClaimedBy c) (claim_ExecutionPrincipalID c) tokenHash rawToken
       config).

(** The challenge with its key and its policy. *)
Definition select_challenge (id : Z) : Disp (Challenge * ExecutionIdentityKey * IdentityPolicy) :=
  let! d := dp_get in
  let! c := dp_row (md_challenges d !! id) in
  let s := chal_Scope c in
  let! k := dp_row (md_keys d !! scope_ExecutionIdentityKeyID s) in
  let! p := dp_row (md_policies d !! scope_ExecutionIdentityPolicyVersionID s) in
  if bool_decide (key_OrganizationID k = scope_OrganizationID s)
     && (key_ExecutionPrincipalID k =? scope_ExecutionPrincipalID s)
     && bool_decide (idpol_OrganizationID p = scope_OrganizationID s)
     && bool_decide (idpol_CanonicalHash p = scope_ExecutionIdentityPolicyHash s)
  then ret (c, k, p)
  else throw ErrRuntimeNotFound.

Definition key_usable (k : ExecutionIdentityKey) : bool :=
  bool_decide (key_Status k = KeyActive) || bool_decide (key_Status k = KeyRetiring).

Definition key_in_force (k : ExecutionIdentityKey) (now : Instant) : bool :=
  (key_ValidFrom k <=? now) && null_or (fun t => now <? t) (key_ValidUntil k).

(** The challenge was issued for this claim of this invocation. *)
Definition challenge_for (c : Challenge) (i : Invocation) (a : AuthenticatedClaimCommand) : bool :=
  let s := chal_Scope c in
  let cols := inv_Columns i in
  (scope_InvocationID s =? inv_ID i)
  && bool_decide (scope_OrganizationID s = inv_OrganizationID cols)
  && (scope_OrganizationRevisionID s =? inv_OrganizationRevisionID cols)
  && bool_decide (inv_DispatcherAssignmentID cols = Some (scope_DispatcherAssignmentID s))
  && (scope_ExecutionPrincipalID s =? auth_ExecutionPrincipalID a)
  && (scope_ExecutionIdentityKeyID s =? auth_IdentityKeyID a)
  && bool_decide (inv_ExecutionIdentityPolicyVersionID cols
                  = Some (scope_ExecutionIdentityPolicyVersionID s))
  && bool_decide (scope_ExecutionIdentityPolicyHash s = inv_ExecutionIdentityPolicyHash cols)
  && bool_decide (scope_RequestHash s = inv_RequestHash cols).

Definition action_agrees (digest : result DispatchError string) (expected : string) : bool :=
  match digest with Ok d => bool_decide (d = expected) | Err _ => false end.

(** The checks between the challenge and the attempt. *)
Definition check_assertion (c : Challenge) (k : ExecutionIdentityKey) (p : IdentityPolicy)
    (i : Invocation) (a : AuthenticatedClaimCommand) (now : Instant) : result DispatchError unit :=
  let s := chal_Scope c in
  let skew := idpol_ClockSkewSeconds p * 1000000 in
  let payload := BuildAssertionPayload s (chal_ID c) (auth_ChallengeNonce a) (chal_IssuedAt c)
                   (chal_ExpiresAt c) in
  check? rejectIf (is_some (chal_ConsumedAt c) || is_some (chal_InvalidatedAt c)) ErrReplayDenied in
  check? rejectIf (chal_ExpiresAt c <=? now) ErrChallengeExpired in
  check? rejectIf (negb (bool_decide (key_Algorithm k = AlgorithmEd25519))
                   || negb (len (key_PublicKey k) =? PublicKeySize)) ErrInvalidKey in
  check? rejectIf (negb (key_usable k)) ErrKeyInactive in
  check? rejectIf (negb (key_in_force k now)) ErrKeyInactive in
  check? rejectIf (negb (challenge_for c i a)) ErrAssertionInvalid in
  check? rejectIf (negb (action_agrees (invocation_digest i) (scope_ActionDigest s)))
           ErrAssertionInvalid in
  check? rejectIf (negb (bool_decide (env_sha256_hex (auth_ChallengeNonce a) = chal_NonceHash c)))
           ErrAssertionInvalid in
  check? rejectIf (negb (bool_decide (env_sha256_hex payload = chal_PayloadHash c))
                   || negb (Verify (key_PublicKey k) payload (auth_Signature a)))
           ErrAssertionInvalid in
  rejectIf ((now + skew <? chal_IssuedAt c) || (chal_ExpiresAt c <=? now - skew))
    ErrChallengeExpired.

Definition assertion_unique (row : AssertionRow) (d : DispatchDB) : bool :=
  forallb (fun r =>
    negb (assertion_ChallengeID r =? assertion_ChallengeID row)
    && negb (assertion_DispatchAttemptID r =? assertion_DispatchAttemptID row)
    && negb (bool_decide (assertion_Hash r = assertion_Hash row))
    && negb ((assertion_ExecutionIdentityKeyID r =? assertion_ExecutionIdentityKeyID row)
             && (assertion_InvocationID r =? assertion_InvocationID row)
             && (assertion_ExecutionPrincipalID r =? assertion_ExecutionPrincipalID row)))
    (md_assertions d).

(** The principal is the invocation's: the other rows it refers to were read in this
    transaction. *)
Definition insert_assertion (row : AssertionRow) : Disp unit :=
  do! dp_check (forallb (MatchString digestPattern)
    [assertion_PayloadHash row; assertion_SignatureHash row; assertion_Hash row]) in
  let! d := dp_get in
  do! dp_unique (assertion_unique row d) in
  do! dp_foreign_key
    (match md_invocations d !! assertion_InvocationID row with
     | Some i => bool_decide (inv_ExecutionPrincipalID (inv_Columns i)
                              = Some (assertion_ExecutionPrincipalID row))
     | None => false
     end) in
  dp_modify (put_assertions (md_assertions d ++ [row])).

(** [UPDATE ... SET consumed_at WHERE id = $1 AND consumed_at IS NULL AND invalidated_at IS NULL
    AND expires_at > clock_timestamp()]: whether a row was updated. *)
Definition consume_challenge (id : Z) : Disp bool :=
  let! now := dp_clock in
  let! d := dp_get in
  match md_challenges d !! id with
  | Some c =>
      if challenge_open c && (now <? chal_ExpiresAt c) then
        do! dp_check (challenge_check (challenge_consumed now c)) in
        do! dp_modify (put_challenges (<[id := challenge_consumed now c]> (md_challenges d))) in
        ret true
      else ret false
  | None => ret false
  end.

Definition verified_facts (a : AuthenticatedClaimCommand) (challenge invocation attempt : Z)
    (assertionHash : string) : Payload :=
  list_to_map [
    ("challenge_id", JInt challenge); ("invocation_id", JInt invocation);
    ("dispatch_attempt_id", JInt attempt);
    ("execution_principal_id", JInt (auth_ExecutionPrincipalID a));
    ("execution_identity_key_id", JInt (auth_IdentityKeyID a));
    ("assertion_hash", JStr assertionHash)].

(** The attempt, its assertion and the end of the challenge. *)
Definition record_assertion (i : Invocation) (c : Challenge) (a : AuthenticatedClaimCommand)
    (now : Instant) (tokenHash rawToken : string) (config : RuntimeConfig)
    : Disp ClaimedInvocation :=
  let signatureHash := env_sha256_hex (auth_Signature a) in
  let assertionHash := AssertionHash (chal_PayloadHash c) signatureHash in
  let! claimed := createClaimAttempt i (auth_ClaimedBy a) (auth_ExecutionPrincipalID a) tokenHash
                    rawToken config in
  let attempt := datt_ID (claimed_DispatchAttempt claimed) in
  let! assertionID := dp_nextval TAssertions in
  do! insert_assertion (mkAssertionRow assertionID (inv_OrganizationID (inv_Columns i)) (chal_ID c)
        (inv_ID i) attempt (auth_ExecutionPrincipalID a) (auth_IdentityKeyID a)
        (chal_PayloadHash c) signatureHash assertionHash true now) in
  let! consumed := consume_challenge (chal_ID c) in
  do! throwIf (negb consumed) ErrReplayDenied in
  let! row := update_dispatch attempt any_row
    (attempt_identified (mkIdentityColumns (auth_IdentityKeyID a) assertionID now)) in
  let! identified := dp_row row in
  do! insert_audit_row (mkAuditRow AuditIdentityVerified "service" (auth_ClaimedBy a)
        "model_execution_identity_assertion" (pretty assertionID) "" ""
        (verified_facts a (chal_ID c) (inv_ID i) attempt assertionHash)) in
  ret (mkClaimedInvocation (claimed_Invocation claimed) identified (claimed_ClaimToken claimed)).

Definition isIdentityClaimDenial (e : DispatchError) : bool :=
  bool_decide (e ∈ [ErrAssertionInvalid; ErrReplayDenied; ErrChallengeExpired; ErrKeyInactive;
                    ErrInvalidKey; ErrPolicyStale; ErrExecutionIdentityUnpinned;
                    ErrExecutionIdentityDenied]).

Definition identityClaimReasonCode (e : DispatchError) : string :=
  match e with
  | ErrReplayDenied => "replay_denied"
  | ErrChallengeExpired => "challenge_expired"
  | ErrKeyInactive => "key_inactive"
  | ErrPolicyStale => "policy_stale"
  | ErrExecutionIdentityUnpinned => "identity_unpinned"
  | _ => "assertion_invalid"
  end.

Definition denial_facts (a : AuthenticatedClaimCommand) (e : DispatchError) : Payload :=
  list_to_map [
    ("invocation_id", JInt (auth_InvocationID a)); ("challenge_id", JInt (auth_ChallengeID a));
    ("execution_principal_id", JInt (auth_ExecutionPrincipalID a));
    ("execution_identity_key_id", JInt (auth_IdentityKeyID a));
    ("reason_code", JStr (identityClaimReasonCode e))].

(** A denial is recorded outside the transaction that denied it. *)
Definition audit_denial (a : AuthenticatedClaimCommand) {A} (m : Disp A) : Disp A := fun w =>
  match m w with
  | (Err e, w1) =>
      if isIdentityClaimDenial e then
        (Err e, snd (insert_audit_row (mkAuditRow
           (if decide (e = ErrReplayDenied) then AuditIdentityReplayDeny else AuditIdentityDenied)
           "service" (auth_ClaimedBy a) "model_invocation" (pretty (auth_InvocationID a)) "" ""
           (denial_facts a e)) w1))
      else (Err e, w1)
  | r => r
  end.

Definition ClaimInvocationAuthenticated (a : AuthenticatedClaimCommand) (config : RuntimeConfig)
    : Disp ClaimedInvocation :=
  do! throwIf ((auth_InvocationID a <=? 0) || (auth_ExecutionPrincipalID a <=? 0)
               || (auth_IdentityKeyID a <=? 0) || (auth_ChallengeID a <=? 0)
               || is_empty (auth_ClaimedBy a) || is_empty (auth_ChallengeNonce a)
               || negb (len (auth_Signature a) =? SignatureSize)) ErrAssertionInvalid in
  let! (rawToken, tokenHash) := newClaimToken in
  audit_denial a (dp_tx
    (let! i := lockedClaimableInvocation (auth_InvocationID a) (auth_ExecutionPrincipalID a)
                 config in
     do! throwIf (negb (is_some (inv_ExecutionIdentityPolicyVersionID (inv_Columns i)))
                  || is_empty (inv_ExecutionIdentityPolicyHash (inv_Columns i)))
           ErrExecutionIdentityUnpinned in
     let! (c, k, p) := select_challenge (auth_ChallengeID a) in
     let! now := dp_clock in
     do! lift (check_assertion c k p i a now) in
     record_assertion i c a now tokenHash rawToken config)).

Definition verifyToken (attempt : Z) (token : string) : Disp DispatchAttempt :=
  let! d := dp_get in
  match md_attempts d !! attempt with
  | Some a => if bool_decide (att_token a = env_sha256_hex token) then ret a
              else throw ErrClaimTokenMismatch
  | None => throw ErrClaimTokenMismatch
  end.

End Claims.
