(* ===== verification/PreSend.v ===== *)
(** * The transaction before a model call is sent

    internal/modelruntime/postgres/presend.go: the claim is verified, the egress
    decision recorded and, when it allows the call, one use of the dispatcher
    assignment consumed and the invocation marked as sent, in one transaction.

    [Registry] stands for the rows of the registry tables the statements join or
    refer to: no statement of the model runtime's dispatch writes them.  The two
    readings of the host's clock are arguments. *)

From stdpp Require Import base tactics list gmap strings pretty sorting.
From Stdlib Require Import ZArith Lia Ascii.
From S2P Require Import Prelude GoLib TaskDomain Database DispatchDB Egress InvocationStore.
From S2P Require Import Claims.

Local Open Scope string_scope.
Local Open Scope Z_scope.

(** - [model_profile_versions]: the transport of the version of that id,
      organization, profile, provider and model;
    - [organization_registry_revisions]: whether the revision exists, with the
      hash of its capability matrix;
    - [model_egress_revision_bindings]: whether the policy is bound;
    - [model_providers]: whether the provider is registered at the revision. *)
Class Registry : Type := {
  reg_transport : Z -> string -> string -> string -> string -> option string;
  reg_capability_matrix : Z -> option (option string);
  reg_policy_bound : string -> Z -> Z -> string -> bool;
  reg_provider : string -> string -> Z -> bool }.

Definition AuditInvocationAuthorized : string := "model.invocation_authorized".
Definition AuditInvocationAuthorizationDenied : string := "model.invocation_authorization_denied".
Definition AuditInvocationAuthorizationError : string := "model.invocation_authorization_error".
Definition AuditEgressAllowed : string := "model.egress_allowed".
Definition AuditEgressDenied : string := "model.egress_denied".
Definition AuditEgressError : string := "model.egress_error".
Definition AuditAssignmentConsumed : string := "model.dispatch_assignment_consumed".
Definition AuditAssignmentExhausted : string := "model.dispatch_assignment_exhausted".

(** ** Statements *)

Definition attempt_sent (started : Instant) (idempotency : string) (deadline : Instant)
    (a : DispatchAttempt) : DispatchAttempt :=
  mkDispatchAttempt (datt_ID a) (datt_Claim a) DispatchSendStarted (datt_Identity a)
    (Z.max (datt_ClaimExpiresAt a) deadline) (Some started) (datt_ResponseReceivedAt a)
    (datt_ProviderRequestID a) idempotency RetryUnsafeAfterSend (datt_OutcomeClassification a)
    (datt_ErrorCode a) (datt_FinishedAt a).

Definition assignment_set (status : AssignmentStatus) (used : Z) (updated : Instant)
    (terminal : option Instant) (revocation : option Revocation) (a : DispatcherAssignment)
    : DispatcherAssignment :=
  mkDispatcherAssignment (asg_ID a) (asg_Scope a) status used updated terminal revocation.

(** [UPDATE model_dispatcher_assignments SET ... WHERE id = $1 AND cond RETURNING ...] *)
Definition update_assignment (id : Z) (cond : DispatcherAssignment -> bool)
    (f : DispatcherAssignment -> DispatcherAssignment) : Disp (option DispatcherAssignment) :=
  let! d := dp_get in
  match md_assignments d !! id with
  | Some a =>
      if cond a then
        do! dp_check (assignment_check (f a)) in
        do! dp_modify (put_assignments (<[id := f a]> (md_assignments d))) in
        ret (Some (f a))
      else ret None
  | None => ret None
  end.

Definition is_assignment (s : AssignmentStatus) (a : DispatcherAssignment) : bool :=
  bool_decide (asg_Status a = s).

(** [requireOneRow] *)
Definition requireOneRow {A} (row : option A) (conflict : DispatchError) : Disp unit :=
  throwIf (negb (is_some row)) conflict.

Section PreSend.
Context `{Env} `{Registry}.

(** ** verifyClaim *)

(** The row of the join: the invocation, the attempt with its transport, assertion and key. *)
Record ClaimRow : Type := mkClaimRow {
  crow_Invocation : Invocation;
  crow_Attempt : DispatchAttempt;
  crow_Transport : string;
  crow_CapabilityMatrixHash : option string;
  crow_Identity : IdentityColumns;
  crow_Assertion : AssertionRow;
  crow_Key : ExecutionIdentityKey }.

Definition select_claim (invocationID attemptID : Z) (d : DispatchDB) : option ClaimRow :=
  i ← md_invocations d !! invocationID;
  a ← md_attempts d !! attemptID;
  let c := inv_Columns i in
  transport ← reg_transport (inv_ModelProfileVersionID c) (inv_OrganizationID c)
                (inv_ModelProfileID c) (inv_ProviderID c) (inv_ProviderModelID c);
  matrix ← reg_capability_matrix (inv_OrganizationRevisionID c);
  identity ← datt_Identity a;
  assertion ← head (List.filter (fun r => assertion_ID r =? datt_IdentityAssertionID identity)
                      (md_assertions d));
  key ← md_keys d !! datt_ExecutionIdentityKeyID identity;
  if (att_invocation a =? invocationID)
     && bool_decide (assertion_OrganizationID assertion = inv_OrganizationID c)
     && bool_decide (key_OrganizationID key = inv_OrganizationID c)
     && bool_decide (inv_ExecutionPrincipalID c = Some (key_ExecutionPrincipalID key))
  then Some (mkClaimRow i a transport matrix identity assertion key) else None.

(** The assertion is this attempt's and its challenge was consumed for this action. *)
Definition identity_binding (r : ClaimRow) (actionDigest : string) (d : DispatchDB) : bool :=
  let c := inv_Columns (crow_Invocation r) in
  let ia := crow_Assertion r in
  let key := datt_ExecutionIdentityKeyID (crow_Identity r) in
  (assertion_InvocationID ia =? inv_ID (crow_Invocation r))
  && (assertion_DispatchAttemptID ia =? datt_ID (crow_Attempt r))
  && bool_decide (inv_ExecutionPrincipalID c = Some (assertion_ExecutionPrincipalID ia))
  && (assertion_ExecutionIdentityKeyID ia =? key)
  && match md_challenges d !! assertion_ChallengeID ia with
     | Some ch =>
         let s := chal_Scope ch in
         bool_decide (chal_PayloadHash ch = assertion_PayloadHash ia)
         && (scope_InvocationID s =? inv_ID (crow_Invocation r))
         && bool_decide (inv_ExecutionPrincipalID c = Some (scope_ExecutionPrincipalID s))
         && (scope_ExecutionIdentityKeyID s =? key)
         && bool_decide (inv_ExecutionIdentityPolicyVersionID c
                         = Some (scope_ExecutionIdentityPolicyVersionID s))
         && bool_decide (scope_ExecutionIdentityPolicyHash s = inv_ExecutionIdentityPolicyHash c)
         && bool_decide (scope_ActionDigest s = actionDigest)
         && bool_decide (scope_RequestHash s = inv_RequestHash c)
         && is_some (chal_ConsumedAt ch) && negb (is_some (chal_InvalidatedAt ch))
     | None => false
     end.

Definition policy_pinned (c : InvocationColumns) (e : PreSendEvaluation) : bool :=
  match inv_ModelEgressPolicyVersionID c with
  | Some v =>
      (v =? eval_PolicyVersionID e)
      && bool_decide (inv_ModelEgressPolicyHash c = eval_PolicyHash e)
      && reg_policy_bound (inv_OrganizationID c) (inv_OrganizationRevisionID c) v
           (inv_ModelEgressPolicyHash c)
  | None => false
  end.

(** The evaluation is of the invocation as it is pinned. *)
Definition evaluation_agrees (r : ClaimRow) (e : PreSendEvaluation) : bool :=
  let c := inv_Columns (crow_Invocation r) in
  bool_decide (inv_OrganizationID c = eval_OrganizationID e)
  && (inv_OrganizationRevisionID c =? eval_OrganizationRevisionID e)
  && bool_decide (inv_DispatchActorRoleID c = eval_DispatchActorRoleID e)
  && bool_decide (inv_SubjectRoleID c = eval_SubjectRoleID e)
  && (inv_ModelProfileVersionID c =? eval_ModelProfileVersionID e)
  && bool_decide (inv_ProviderID c = eval_ProviderID e)
  && bool_decide (crow_Transport r = eval_ProviderTransport e)
  && bool_decide (crow_CapabilityMatrixHash r = Some (eval_CapabilityMatrixHash e)).

(** The assignment, the principal and the assertion the claim is pinned to. *)
Record pinnedInvocationRef : Type := mkPinned {
  pin_Assignment : Z;
  pin_Principal : Z;
  pin_Assertion : Z }.

Definition pinned (r : ClaimRow) : option pinnedInvocationRef :=
  match inv_DispatcherAssignmentID (inv_Columns (crow_Invocation r)),
        inv_ExecutionPrincipalID (inv_Columns (crow_Invocation r)) with
  | Some a, Some p => Some (mkPinned a p (datt_IdentityAssertionID (crow_Identity r)))
  | _, _ => None
  end.

(** The checks on the row, in the order of the code. *)
Definition check_claim (r : ClaimRow) (e : PreSendEvaluation) (token : string) (now : Instant)
    (d : DispatchDB) : result DispatchError pinnedInvocationRef :=
  let i := crow_Invocation r in
  let a := crow_Attempt r in
  let c := inv_Columns i in
  check? rejectIf (negb (is_invocation InvocationClaimed i) || negb (is_attempt DispatchClaimed a)
                   || negb (now <? datt_ClaimExpiresAt a)
                   || existsb (fun v => eval_DispatchAttemptID (evaluation_Value v) =? datt_ID a)
                        (md_evaluations d)) ErrEvaluationConflict in
  check? rejectIf (negb (bool_decide (att_token a = env_sha256_hex token))) ErrClaimMismatch in
  check? rejectIf (negb (policy_pinned c e)) ErrPolicyUnpinned in
  match pinned r with
  | None => Err ErrDispatcherAssignmentUnpinned
  | Some pin =>
      check? rejectIf (negb (is_some (inv_ExecutionIdentityPolicyVersionID c)))
               ErrExecutionIdentityUnpinned in
      check? rejectIf (negb (assertion_Allows (crow_Assertion r))
                       || negb (identity_binding r (eval_ActionDigest e) d)
                       || negb (key_usable (crow_Key r) && key_in_force (crow_Key r) now))
               ErrExecutionIdentityDenied in
      check? rejectIf (negb (action_agrees
               (ActionDigest (eval_InvocationID e) (inv_RequestHash c)
                  (inv_DispatcherAssignmentID c) (inv_ExecutionPrincipalID c)
                  (Some (eval_PolicyVersionID e)) (eval_PolicyHash e)
                  (inv_ExecutionIdentityPolicyVersionID c) (inv_ExecutionIdentityPolicyHash c))
               (eval_ActionDigest e))) ErrEvaluationConflict in
      check? rejectIf (negb (evaluation_agrees r e)) ErrEvaluationConflict in
      Ok pin
  end.

Definition verifyClaim (e : PreSendEvaluation) (token : string) : Disp pinnedInvocationRef :=
  let! d := dp_get in
  let! now := dp_clock in
  let! r := dp_row (select_claim (eval_InvocationID e) (eval_DispatchAttemptID e) d) in
  lift (check_claim r e token now d).

(** ** insertEvaluation *)

(** The CHECK constraints that [ValidatePreSendEvaluation] does not repeat. *)
Definition evaluation_check (e : PreSendEvaluation) : bool :=
  trimmed 1 160 (eval_ProviderID e) && MatchString canonicalIdentifierPattern (eval_ProviderID e).

Definition insertEvaluation (e : PreSendEvaluation) : Disp Z :=
  do! lift (ValidatePreSendEvaluation e) in
  let! id := dp_nextval TEvaluations in
  do! dp_check (evaluation_check e) in
  let! d := dp_get in
  do! throwIf (existsb (fun v => eval_DispatchAttemptID (evaluation_Value v)
                                 =? eval_DispatchAttemptID e) (md_evaluations d))
        ErrEvaluationConflict in
  do! dp_modify (put_evaluations (md_evaluations d ++ [mkEvaluationRow id e])) in
  ret id.

(** ** insertProviderRequest *)

Definition request_check (row : ProviderRequestRow) (created : Instant) : bool :=
  let r := request_Evidence row in
  (0 <? evid_AdapterVersion r)
  && forallb (MatchString digestPattern)
       [evid_RequestHash r; evid_EndpointFingerprint r; evid_CredentialRefHash r;
        request_IdempotencyKeyHash row]
  && trimmed 1 160 (evid_ModelProfileID r) && trimmed 1 240 (evid_ProviderModelID r)
  && trimmed 1 160 (evid_AdapterID r) && trimmed 1 120 (evid_RequestSchemaVersion r)
  && trimmed 1 120 (evid_ResponseSchemaVersion r) && (created <? request_Deadline row).

Definition request_unique (row : ProviderRequestRow) (d : DispatchDB) : bool :=
  forallb (fun r =>
    negb (request_DispatchAttemptID r =? request_DispatchAttemptID row)
    && negb (request_EvaluationID r =? request_EvaluationID row)
    && negb (request_AssignmentUseID r =? request_AssignmentUseID row)
    && negb (request_IdentityAssertionID r =? request_IdentityAssertionID row)) (md_requests d).

Definition insertProviderRequest (c : PersistAllowCommand) (evaluation use assertion : Z)
    : Disp unit :=
  let e := allow_Evaluation c in
  let r := allow_ProviderRequest c in
  let! id := dp_nextval TRequests in
  let! created := dp_clock in
  let row := mkProviderRequestRow id (eval_OrganizationID e) (eval_InvocationID e)
               (eval_DispatchAttemptID e) evaluation use assertion (eval_ProviderID e) r
               (allow_ProviderIdempotencyKeyHash c) (allow_Deadline c) in
  do! dp_check (request_check row created) in
  let! d := dp_get in
  do! dp_unique (request_unique row d) in
  do! dp_foreign_key
        (reg_provider (eval_OrganizationID e) (eval_ProviderID e) (eval_OrganizationRevisionID e)
         && is_some (reg_transport (eval_ModelProfileVersionID e) (eval_OrganizationID e)
                       (evid_ModelProfileID r) (eval_ProviderID e) (evid_ProviderModelID r))) in
  dp_modify (put_requests (md_requests d ++ [row])).

(** ** Audit *)

Definition auditPayload (e : PreSendEvaluation) : Payload :=
  list_to_map [
    ("invocation_id", JInt (eval_InvocationID e));
    ("dispatch_attempt_id", JInt (eval_DispatchAttemptID e));
    ("organization_revision_id", JInt (eval_OrganizationRevisionID e));
    ("dispatch_actor_role_id", JStr (eval_DispatchActorRoleID e));
    ("subject_role_id", JStr (eval_SubjectRoleID e));
    ("model_profile_version_id", JInt (eval_ModelProfileVersionID e));
    ("policy_version_id", JInt (eval_PolicyVersionID e));
    ("provider_id", JStr (eval_ProviderID e));
    ("provider_transport", JStr (eval_ProviderTransport e));
    ("context_classifications",
      JArr (JStr <$> fst (NormalizeClassifications (eval_ContextClassifications e))));
    ("context_classifications_hash", JStr (eval_ContextClassificationsHash e));
    ("capability_matrix_hash", JStr (eval_CapabilityMatrixHash e));
    ("authorization_effect", JStr (authorization_effect_text (eval_AuthorizationEffect e)));
    ("authorization_reason_code", JStr (eval_AuthorizationReasonCode e));
    ("egress_effect", JStr (egress_effect_text (eval_EgressEffect e)));
    ("egress_reason_codes", JArr (JStr <$> NormalizeReasonCodes (eval_EgressReasonCodes e)));
    ("action_digest", JStr (eval_ActionDigest e)); ("decision_hash", JStr (eval_DecisionHash e))].

Definition insertAudit (eventType : string) (e : PreSendEvaluation) : Disp unit :=
  insert_audit_row (mkAuditRow eventType "service" (eval_DispatchActorRoleID e) "model_invocation"
    (pretty (eval_InvocationID e)) (eval_CorrelationID e) (eval_CausationID e) (auditPayload e)).

Definition assignment_status_text (s : AssignmentStatus) : string :=
  match s with
  | AssignmentActive => "active" | AssignmentExhausted => "exhausted"
  | AssignmentExpired => "expired" | AssignmentRevoked => "revoked"
  end.

Definition insertAssignmentConsumedAudit (eventType : string) (pin : pinnedInvocationRef)
    (e : PreSendEvaluation) (used max : Z) (status : AssignmentStatus) : Disp unit :=
  insert_audit_row (mkAuditRow eventType "system" "orgd" "model_dispatcher_assignment"
    (pretty (pin_Assignment pin)) "" ""
    (list_to_map [
      ("assignment_id", JInt (pin_Assignment pin)); ("invocation_id", JInt (eval_InvocationID e));
      ("dispatch_attempt_id", JInt (eval_DispatchAttemptID e));
      ("execution_principal_id", JInt (pin_Principal pin)); ("used_invocations", JInt used);
      ("max_invocations", JInt max); ("status", JStr (assignment_status_text status))])).

(** ** The assignment *)

Definition lockAssignmentForConsume (organizationID : string) (id : Z)
    : Disp DispatcherAssignment :=
  let! d := dp_get in
  dp_row (a ← md_assignments d !! id;
          if bool_decide (asg_OrganizationID (asg_Scope a) = organizationID) then Some a else None).

Definition UsageHash (assignment : Z) (assignmentHash : string) (invocation attempt principal : Z)
    (usedAt : Instant) : string :=
  json_digest (JObj [
    ("assignment_id", JInt assignment); ("assignment_hash", JStr assignmentHash);
    ("invocation_id", JInt invocation); ("dispatch_attempt_id", JInt attempt);
    ("execution_principal_id", JInt principal); ("used_at", JTime usedAt)]).

Definition use_unique (row : AssignmentUse) (d : DispatchDB) : bool :=
  forallb (fun u => negb (use_InvocationID u =? use_InvocationID row)
                    && negb (use_DispatchAttemptID u =? use_DispatchAttemptID row)) (md_uses d).

Definition insert_use (assignment : DispatcherAssignment) (pin : pinnedInvocationRef)
    (e : PreSendEvaluation) (usedAt : Instant) : Disp Z :=
  let! id := dp_nextval TUses in
  let row := mkAssignmentUse id (eval_OrganizationID e) (pin_Assignment pin) (eval_InvocationID e)
    (eval_DispatchAttemptID e) (pin_Principal pin) usedAt
    (UsageHash (pin_Assignment pin) (asg_AssignmentHash (asg_Scope assignment))
       (eval_InvocationID e) (eval_DispatchAttemptID e) (pin_Principal pin) usedAt) in
  do! dp_check (MatchString digestPattern (use_UsageHash row)) in
  let! d := dp_get in
  do! dp_unique (use_unique row d) in
  do! dp_foreign_key (asg_ExecutionPrincipalID (asg_Scope assignment) =? pin_Principal pin) in
  do! dp_modify (put_uses (md_uses d ++ [row])) in
  ret id.

(** The use is counted; the last one exhausts the assignment. *)
Definition consume_assignment (assignment : DispatcherAssignment) (pin : pinnedInvocationRef)
    (e : PreSendEvaluation) : Disp unit :=
  let max := asg_MaxInvocations (asg_Scope assignment) in
  let used := asg_UsedInvocations assignment in
  let newUsed := used + 1 in
  let newStatus := if max <=? newUsed then AssignmentExhausted else AssignmentActive in
  let! terminal :=
    (if max <=? newUsed then let! t := dp_clock in ret (Some t)
     else ret (asg_TerminalAt assignment)) in
  let! updated := dp_clock in
  let! row := update_assignment (pin_Assignment pin)
    (fun a => is_assignment AssignmentActive a && (asg_UsedInvocations a =? used))
    (fun a => assignment_set newStatus newUsed updated terminal (asg_Revocation a) a) in
  do! requireOneRow row ErrAssignmentConflict in
  do! insertAssignmentConsumedAudit AuditAssignmentConsumed pin e newUsed max newStatus in
  if max <=? newUsed
  then insertAssignmentConsumedAudit AuditAssignmentExhausted pin e newUsed max newStatus
  else ret tt.

(** ** The two transactions *)

Definition mark_sent (c : PersistAllowCommand) : Disp unit :=
  let e := allow_Evaluation c in
  let! started := dp_clock in
  let! row := update_dispatch (eval_DispatchAttemptID e) (is_attempt DispatchClaimed)
    (attempt_sent started (allow_ProviderIdempotencyKeyHash c) (allow_Deadline c)) in
  do! requireOneRow row ErrEvaluationConflict in
  let! updated := dp_clock in
  let! row := update_invocation (eval_InvocationID e)
    (fun i => is_invocation InvocationClaimed i && negb (is_some (inv_CancelRequestedAt i)))
    (invocation_moved InvocationSendStarted updated) in
  requireOneRow row ErrEvaluationConflict.

(** [hostNow] and [usedAt] are the two calls of [time.Now()]. *)
Definition PersistPreSendAllowAndMarkSendStarted (hostNow usedAt : Instant)
    (c : PersistAllowCommand) : Disp unit :=
  let e := allow_Evaluation c in
  do! lift (ValidatePersistAllowCommand c) in
  dp_tx
    (let! pin := verifyClaim e (allow_ClaimToken c) in
     let! assignment := lockAssignmentForConsume (eval_OrganizationID e) (pin_Assignment pin) in
     do! throwIf (negb (is_assignment AssignmentActive assignment)) ErrAssignmentInactive in
     do! throwIf (asg_ValidUntil (asg_Scope assignment) <=? hostNow) ErrAssignmentExpired in
     do! throwIf (asg_MaxInvocations (asg_Scope assignment) <=? asg_UsedInvocations assignment)
           ErrAssignmentExhausted in
     let! evaluation := insertEvaluation e in
     do! insertAudit AuditInvocationAuthorized e in
     do! insertAudit AuditEgressAllowed e in
     let! use := insert_use assignment pin e usedAt in
     do! consume_assignment assignment pin e in
     do! insertProviderRequest c evaluation use (pin_Assertion pin) in
     do! mark_sent c in
     insertAudit AuditInvocationDispatched e).

Definition deny_audits (e : PreSendEvaluation) : Disp unit :=
  if decide (eval_AuthorizationEffect e = AuthorizationAllow) then
    do! insertAudit AuditInvocationAuthorized e in
    insertAudit (if decide (eval_EgressEffect e = EffectError) then AuditEgressError
                 else AuditEgressDenied) e
  else
    insertAudit (if decide (eval_AuthorizationEffect e = AuthorizationError)
                 then AuditInvocationAuthorizationError
                 else AuditInvocationAuthorizationDenied) e.

Definition deny_message (c : PersistDenyCommand) : OutboxMessage :=
  let e := deny_Evaluation c in
  mkOutboxMessage (pretty (eval_InvocationID e)) AuditInvocationFailed
    (list_to_map [("schema_version", JInt 1); ("invocation_id", JInt (eval_InvocationID e));
                  ("event_type", JStr AuditInvocationFailed); ("status", JStr "failed");
                  ("error_code", JStr (deny_ErrorCode c))])
    (deny_OutboxMaxAttempts c).

Definition PersistPreSendDenyAndFail (c : PersistDenyCommand) : Disp unit :=
  let e := deny_Evaluation c in
  do! lift (ValidatePersistFailureCommand c) in
  dp_tx
    (do! verifyClaim e (deny_ClaimToken c) in
     do! insertEvaluation e in
     do! deny_audits e in
     let! finished := dp_clock in
     let! row := update_dispatch (eval_DispatchAttemptID e) (is_attempt DispatchClaimed)
       (attempt_finished DispatchFailedBeforeSend RetryNotRetryable "failed_before_send"
          (deny_ErrorCode c) finished) in
     do! requireOneRow row ErrEvaluationConflict in
     let! updated := dp_clock in
     let! terminal := dp_clock in
     let! row := update_invocation (eval_InvocationID e) (is_invocation InvocationClaimed)
       (invocation_ended InvocationFailed (deny_ErrorCode c) updated terminal) in
     do! requireOneRow row ErrEvaluationConflict in
     do! insertAudit AuditInvocationFailed e in
     insert_outbox_message (deny_message c)).

End PreSend.
