(* ===== verification/Outcomes.v ===== *)
(** * Outcomes of model calls

    internal/modelruntime/postgres/results.go and capacity_state.go: what became
    of a claimed call, and what its outcome says of the capacity of its model.

    [ValidJSON] decides whether PostgreSQL's parser accepts a text as jsonb.  A
    slice of tool intents is not nil. *)

From stdpp Require Import base tactics list gmap strings pretty sorting.
From Stdlib Require Import ZArith Lia Ascii.
From S2P Require Import Prelude GoLib TaskDomain Database DispatchDB Egress Routing.
From S2P Require Import InvocationStore Claims.

Local Open Scope string_scope.
Local Open Scope Z_scope.

(** ** modelruntime/interfaces.go *)

Record CompletionCommand : Type := mkCompletionCommand {
  comp_InvocationID : Z;
  comp_DispatchAttemptID : Z;
  comp_ClaimToken : string;
  comp_Response : NormalizedResponse }.

Record FailureCommand : Type := mkFailureCommand {
  fail_InvocationID : Z;
  fail_DispatchAttemptID : Z;
  fail_ClaimToken : string;
  fail_ErrorCode : string;
  fail_OutcomeClassification : string;
  fail_EventType : string;
  fail_ProviderOutcome : option ProviderOutcome;
  fail_Usage : option ModelUsage;
  fail_RawContent : option string }.

Record DispatchResult : Type := mkDispatchResult {
  dres_Invocation : Invocation;
  dres_Result : InvocationResult;
  dres_Usage : ModelUsage }.

(** ** The derived columns of an outcome: the trigger of migration 000018 *)

Definition request_transport (r : ProviderRequestRow) : string :=
  let adapter := evid_AdapterID (request_Evidence r) in
  if bool_decide (request_ProviderID r = "alibaba_token_plan_via_claude_code")
     && bool_decide (adapter = "alibaba_claude_code_print") then TransportCLI
  else if bool_decide (request_ProviderID r = "test.fake") && bool_decide (adapter = "fake")
  then TransportFake
  else TransportHTTP.

Definition digit (c : ascii) : bool := between 48 57 (byte_of c).

Definition decimal (l : bytes) : Z := fold_left (fun n c => 10 * n + (byte_of c - 48)) l 0.

(** ['^process_exit_([0-9]{1,3})$'] and a value between 0 and 255 *)
Definition parsed_exit_code (code : string) : option Z :=
  match strip_prefix (to_bytes "process_exit_") (to_bytes code) with
  | Some ds =>
      if between 1 3 (Z.of_nat (length ds)) && forallb digit ds && (decimal ds <=? 255)
      then Some (decimal ds) else None
  | None => None
  end.

Definition derived_exit_code (transport : string) (o : ProviderOutcome) : option Z :=
  if bool_decide (transport = TransportCLI) then
    if decide (out_Classification o = ProviderOutcomeResponseReceived) then Some 0
    else parsed_exit_code (out_ErrorCode o)
  else None.

(** What the row keeps: the transport and the exit code come from the trigger, a status that is
    not positive is NULL. *)
Definition stored_outcome (r : ProviderRequestRow) (o : ProviderOutcome) : ProviderOutcome :=
  let transport := request_transport r in
  mkProviderOutcome (out_Classification o) (out_ProviderRequestID o) transport
    (if 0 <? out_HTTPStatus o then out_HTTPStatus o else 0) (derived_exit_code transport o)
    (out_ErrorClass o) (out_ErrorCode o) (out_Retryable o) (out_ResponseHash o)
    (out_ResponseSchemaVersion o) (out_CancellationConfirmed o) (out_FinishReason o)
    (out_ResponseContentBytes o) (out_UsageAvailable o) (out_InputTokens o) (out_OutputTokens o)
    (out_CacheHitTokens o) (out_CacheMissTokens o) (out_ResponseFormat o) (out_MaxOutputTokens o)
    (out_RequestDuration o) (out_JSONErrorClass o) (out_JSONErrorOffset o)
    (out_StartsWithJSONObject o) (out_EndsWithJSONObject o).

Definition text_or_null (hi : Z) (s : string) : bool := is_empty s || trimmed 1 hi s.
Definition nonneg_or_null (o : option Z) : bool := null_or (fun n => 0 <=? n) o.

(** The constraints of migrations 000018, 000038 and 000059 on a stored outcome. *)
Definition outcome_class_check (o : ProviderOutcome) : bool :=
  let status := negb (out_HTTPStatus o =? 0) in
  let exit := is_some (out_ProcessExitCode o) in
  let hash := negb (is_empty (out_ResponseHash o)) in
  let code := negb (is_empty (out_ErrorCode o)) in
  let http := bool_decide (out_Transport o = TransportHTTP) in
  let cli := bool_decide (out_Transport o = TransportCLI) in
  let fake := bool_decide (out_Transport o = TransportFake) in
  match out_Classification o with
  | ProviderOutcomeResponseReceived =>
      hash && negb (out_Retryable o) && negb (out_CancellationConfirmed o)
      && ((http && between 200 299 (out_HTTPStatus o) && negb exit)
          || (cli && negb status && bool_decide (out_ProcessExitCode o = Some 0)) || fake)
  | ProviderOutcomeRejected =>
      hash && code && negb (out_CancellationConfirmed o)
      && ((http && status && negb exit) || (cli && negb status && exit) || fake)
  | ProviderOutcomeNotSent =>
      negb status && negb exit && negb hash && is_empty (out_ProviderRequestID o) && code
      && negb (out_CancellationConfirmed o)
  | ProviderOutcomeAmbiguous => code && negb (out_CancellationConfirmed o)
  | ProviderOutcomeCancelled => out_CancellationConfirmed o && negb (out_Retryable o)
  | ProviderOutcomeOther _ => false
  end.

Definition outcome_check (o : ProviderOutcome) : bool :=
  ((out_HTTPStatus o =? 0) || between 100 599 (out_HTTPStatus o))
  && null_or (between 0 255) (out_ProcessExitCode o)
  && (pg_length (out_ProviderRequestID o) <=? 400)
  && text_or_null 120 (out_ErrorClass o) && text_or_null 160 (out_ErrorCode o)
  && digest_or_null (out_ResponseHash o) && trimmed 1 120 (out_ResponseSchemaVersion o)
  && negb (bool_decide (out_Transport o = TransportHTTP) && is_some (out_ProcessExitCode o))
  && negb (bool_decide (out_Transport o = TransportCLI) && negb (out_HTTPStatus o =? 0))
  && outcome_class_check o
  && text_or_null 120 (out_FinishReason o) && text_or_null 60 (out_ResponseFormat o)
  && text_or_null 120 (out_JSONErrorClass o)
  && forallb nonneg_or_null [out_ResponseContentBytes o; out_InputTokens o; out_OutputTokens o;
       out_CacheHitTokens o; out_CacheMissTokens o; out_RequestDuration o; out_JSONErrorOffset o]
  && null_or (fun n => 0 <? n) (out_MaxOutputTokens o)
  && (negb (out_UsageAvailable o) || is_some (out_InputTokens o) || is_some (out_OutputTokens o))
  && (negb (is_some (out_JSONErrorOffset o)) || negb (is_empty (out_JSONErrorClass o))).

Section Outcomes.
Context `{Env} (ValidJSON : string -> bool).

(** ** capacity_state.go *)

Definition CapacityStateOf (key : string * string * string) : Disp CandidateState :=
  let! d := dp_get in
  ret (match md_capacity d !! key with
       | Some s => mkCandidateState (cap_Disabled s) (cap_QuotaExhausted s) (cap_CooldownUntil s)
       | None => no_state
       end).

Definition cooldown_end (now : Instant) (d : Duration) : Instant := now + Z.quot d Second * 1000000.

(** The row of the INSERT, and the row the UPDATE makes of one already there. *)
Definition capacity_first (f : CapacityFeedback) (outcome invocation attempt : Z)
    (o : ProviderOutcome) (now : Instant) : CapacityState :=
  mkCapacityState false
    (match f with CapacityFeedbackQuota => true | _ => false end)
    (match f with CapacityFeedbackCooldown d => Some (cooldown_end now d) | _ => None end)
    (match f with CapacityFeedbackCooldown _ => 1 | _ => 0 end)
    (Some outcome) invocation attempt o now.

Definition capacity_next (f : CapacityFeedback) (outcome invocation attempt : Z)
    (o : ProviderOutcome) (now : Instant) (s : CapacityState) : CapacityState :=
  mkCapacityState (cap_Disabled s)
    (match f with
     | CapacityFeedbackHealthy => false
     | CapacityFeedbackQuota => true
     | _ => cap_QuotaExhausted s
     end)
    (match f with
     | CapacityFeedbackHealthy => None
     | CapacityFeedbackCooldown d => Some (cooldown_end now d)
     | _ => cap_CooldownUntil s
     end)
    (match f with
     | CapacityFeedbackHealthy => 0
     | CapacityFeedbackCooldown _ => cap_ConsecutiveFailures s + 1
     | _ => cap_ConsecutiveFailures s
     end)
    (Some outcome) invocation attempt o now.

Definition capacity_key_check (key : string * string * string) : bool :=
  let '(organization, provider, model) := key in
  trimmed 1 160 organization && trimmed 1 160 provider && trimmed 1 240 model.

(** A row whose last outcome is as recent is left alone.  The count is an INTEGER. *)
Definition applyCapacityFeedback (key : string * string * string) (outcome invocation attempt : Z)
    (o : ProviderOutcome) (f : CapacityFeedback) : Disp unit :=
  let! now := dp_clock in
  do! dp_check (capacity_key_check key) in
  let! d := dp_get in
  match md_capacity d !! key with
  | None => dp_modify (put_capacity
              (<[key := capacity_first f outcome invocation attempt o now]> (md_capacity d)))
  | Some s =>
      if null_or (fun last => last <? outcome) (cap_LastOutcomeID s) then
        let s' := capacity_next f outcome invocation attempt o now s in
        do! throwIf (2147483647 <? cap_ConsecutiveFailures s') (ErrPg "22003") in
        dp_modify (put_capacity (<[key := s']> (md_capacity d)))
      else ret tt
  end.

(** ** results.go *)

Definition insertProviderOutcome (invocation attempt : Z) (o : ProviderOutcome)
    (phase : AdapterFailurePhase) : Disp unit :=
  do! lift (OutcomeValidate o) in
  let! d := dp_get in
  match List.filter (fun r => (request_InvocationID r =? invocation)
                              && (request_DispatchAttemptID r =? attempt)) (md_requests d),
        md_invocations d !! invocation with
  | r :: _, Some i =>
      let! id := dp_nextval TOutcomes in
      let stored := stored_outcome r o in
      do! dp_check (outcome_check stored) in
      do! dp_unique (forallb (fun row =>
            negb (outcome_RequestRecordID row =? request_ID r)
            && negb (outcome_DispatchAttemptID row =? attempt)) (md_outcomes d)) in
      do! dp_modify (put_outcomes (md_outcomes d
            ++ [mkOutcomeRow id (request_ID r) (request_OrganizationID r) invocation attempt stored
                  phase None])) in
      applyCapacityFeedback
        (inv_OrganizationID (inv_Columns i), inv_ProviderID (inv_Columns i),
         inv_ProviderModelID (inv_Columns i))
        id invocation attempt o (ClassifyCapacityFeedback o phase)
  | _, _ => throw ErrRuntimeConflict
  end.

(** The foreign keys of the usage, result and reasoning rows: the attempt is one of the
    invocation. *)
Definition attempt_of_invocation (attempt invocation : Z) (d : DispatchDB) : bool :=
  match md_attempts d !! attempt with
  | Some a => att_invocation a =? invocation
  | None => false
  end.

(** [ON CONFLICT (invocation_id) DO NOTHING] *)
Definition insertRecoveredUsage (usage : option ModelUsage) : Disp unit :=
  match usage with
  | None => ret tt
  | Some u =>
      do! dp_check (usage_check u) in
      let! d := dp_get in
      if taken (md_usage d) (usage_InvocationID u) then ret tt
      else
        do! dp_foreign_key (attempt_of_invocation (usage_DispatchAttemptID u)
                              (usage_InvocationID u) d) in
        dp_modify (put_usage (<[usage_InvocationID u := u]> (md_usage d)))
  end.

(** The attempt the token holds, when it is the invocation's and in one of the states [ok]. *)
Definition held_attempt (invocation attempt : Z) (token : string) (ok : DispatchAttempt -> bool)
    : Disp DispatchAttempt :=
  let! a := verifyToken attempt token in
  do! throwIf (negb (att_invocation a =? invocation) || negb (ok a)) ErrRuntimeConflict in
  ret a.

(** [SET status, response_received_at, provider_request_id, retry_safety] *)
Definition attempt_received (status : DispatchStatus) (received : Instant) (requestID : string)
    (classification code : string) (finished : option Instant) (a : DispatchAttempt)
    : DispatchAttempt :=
  mkDispatchAttempt (datt_ID a) (datt_Claim a) status (datt_Identity a) (datt_ClaimExpiresAt a)
    (datt_SendStartedAt a) (Some received) requestID (datt_ProviderIdempotencyKeyHash a)
    RetryNotRetryable classification code finished.

Definition MarkResponseReceived (invocation attempt : Z) (token : string) (o : ProviderOutcome)
    : Disp Invocation :=
  dp_tx
    (let! a := held_attempt invocation attempt token (is_attempt DispatchSendStarted) in
     do! throwIf (negb (bool_decide (out_Classification o = ProviderOutcomeResponseReceived)))
           ErrRuntimeInvalidRequest in
     do! insertProviderOutcome invocation attempt o AdapterFailureResponseReceived in
     let! received := dp_clock in
     do! update_dispatch attempt any_row (fun a =>
           attempt_received DispatchResponseReceived received (out_ProviderRequestID o)
             (datt_OutcomeClassification a) (datt_ErrorCode a) (datt_FinishedAt a) a) in
     let! updated := dp_clock in
     let! row := update_invocation invocation (is_invocation InvocationSendStarted)
                   (invocation_moved InvocationResponseReceived updated) in
     dp_row row).

Definition failure_facts (a : DispatchAttempt) (classification : string)
    (more : list (string * JSON)) : Payload :=
  list_to_map (("dispatch_attempt_id", JInt (datt_ID a))
               :: ("outcome_classification", JStr classification) :: more).

Definition provider_facts (o : ProviderOutcome) : list (string * JSON) :=
  [("provider_error_class", JStr (out_ErrorClass o));
   ("provider_error_code", JStr (out_ErrorCode o))].

(** The event of a service, named by the holder of the claim. *)
Definition holder_event (i : Invocation) (eventType : string) (a : DispatchAttempt)
    (outboxMax : Z) (facts : Payload) : Disp unit :=
  appendInvocationEvent i eventType "service" (datt_ClaimedBy (datt_Claim a)) true outboxMax facts.

Definition RejectProviderResponse (c : FailureCommand) (o : ProviderOutcome) (outboxMax : Z)
    : Disp Invocation :=
  do! throwIf (negb (bool_decide (out_Classification o = ProviderOutcomeRejected)))
        ErrRuntimeInvalidRequest in
  dp_tx
    (let! a := held_attempt (fail_InvocationID c) (fail_DispatchAttemptID c) (fail_ClaimToken c)
                 (is_attempt DispatchSendStarted) in
     do! insertProviderOutcome (fail_InvocationID c) (fail_DispatchAttemptID c) o
           AdapterFailureResponseReceived in
     do! insertRecoveredUsage (fail_Usage c) in
     let! received := dp_clock in
     let! finished := dp_clock in
     do! update_dispatch (datt_ID a) any_row
           (attempt_received DispatchCompleted received (out_ProviderRequestID o)
              (fail_OutcomeClassification c) (fail_ErrorCode c) (Some finished)) in
     let! i := end_invocation (fail_InvocationID c) (is_invocation InvocationSendStarted)
                 InvocationFailed (fail_ErrorCode c) in
     do! holder_event i AuditInvocationFailed a outboxMax
           (failure_facts a (fail_OutcomeClassification c)
              (("provider_http_status", JInt (out_HTTPStatus o))
               :: ("provider_retryable", JBool (out_Retryable o)) :: provider_facts o)) in
     ret i).

Definition FailCommittedBeforeRequest (c : FailureCommand) (o : ProviderOutcome) (outboxMax : Z)
    : Disp Invocation :=
  do! throwIf (negb (bool_decide (out_Classification o = ProviderOutcomeNotSent)))
        ErrRuntimeInvalidRequest in
  dp_tx
    (let! a := held_attempt (fail_InvocationID c) (fail_DispatchAttemptID c) (fail_ClaimToken c)
                 (is_attempt DispatchSendStarted) in
     do! insertProviderOutcome (fail_InvocationID c) (fail_DispatchAttemptID c) o
           AdapterFailureBeforeRequest in
     do! finish_dispatch (datt_ID a) DispatchFailedBeforeSend RetrySafeBeforeSend
           (fail_OutcomeClassification c) (fail_ErrorCode c) in
     let! i := end_invocation (fail_InvocationID c) (is_invocation InvocationSendStarted)
                 InvocationFailed (fail_ErrorCode c) in
     do! holder_event i AuditInvocationFailed a outboxMax
           (failure_facts a (fail_OutcomeClassification c) (provider_facts o)) in
     ret i).

(** ** CompleteInvocation *)

(** The output of the other mode is NULL. *)
Definition insert_result (i : Invocation) (a : DispatchAttempt) (r : InvocationResult)
    : Disp InvocationResult :=
  let! now := dp_now in
  let! id := dp_nextval TResults in
  do! throwIf (bool_decide (result_OutputMode r = OutputJSON)
               && negb (ValidJSON (result_JSONOutput r))) ErrRuntimeInvalidRequest in
  let row := mkInvocationResult id (inv_ID i) (datt_ID a) (result_OutputMode r)
    (if decide (result_OutputMode r = OutputText) then result_TextOutput r else EmptyString)
    (if decide (result_OutputMode r = OutputText) then EmptyString else result_JSONOutput r)
    (result_ToolIntents r) (result_ResponseHash r) (result_ResponseBytes r) now in
  do! dp_check (result_check row) in
  let! d := dp_get in
  do! dp_unique (negb (taken (md_results d) (inv_ID i))) in
  do! dp_foreign_key (attempt_of_invocation (datt_ID a) (inv_ID i) d) in
  do! dp_modify (put_results (<[inv_ID i := row]> (md_results d))) in
  ret row.

(** [ON CONFLICT (invocation_id) DO NOTHING]; no row for an empty text. *)
Definition insert_reasoning (i : Invocation) (a : DispatchAttempt) (content : string) : Disp unit :=
  if 0 <? len content then
    let row := mkReasoning (datt_ID a) content (env_sha256_hex content) (len content) in
    do! dp_check (pg_length (reason_ContentHash row) =? 64) in
    let! d := dp_get in
    if taken (md_reasoning d) (inv_ID i) then ret tt
    else dp_modify (put_reasoning (<[inv_ID i := row]> (md_reasoning d)))
  else ret tt.

Definition insert_usage (i : Invocation) (a : DispatchAttempt) (u : ModelUsage) : Disp unit :=
  let row := mkModelUsage (inv_ID i) (datt_ID a) (usage_InputTokens u) (usage_OutputTokens u)
    (usage_TotalTokens u) (usage_ProviderReported u) (usage_PromptCacheHitTokens u)
    (usage_PromptCacheMissTokens u) in
  do! dp_check (usage_check row) in
  let! d := dp_get in
  do! dp_unique (negb (taken (md_usage d) (inv_ID i))) in
  do! dp_foreign_key (attempt_of_invocation (datt_ID a) (inv_ID i) d) in
  dp_modify (put_usage (<[inv_ID i := row]> (md_usage d))).

(** The result and the usage are those of the call being completed. *)
Definition completion_scope (c : CompletionCommand) : bool :=
  let r := nresp_Result (comp_Response c) in
  let u := nresp_Usage (comp_Response c) in
  (result_InvocationID r =? comp_InvocationID c)
  && (result_DispatchAttemptID r =? comp_DispatchAttemptID c)
  && (usage_InvocationID u =? comp_InvocationID c)
  && (usage_DispatchAttemptID u =? comp_DispatchAttemptID c).

Definition CompleteInvocation (c : CompletionCommand) (outboxMax : Z) : Disp DispatchResult :=
  let r := nresp_Result (comp_Response c) in
  let u := nresp_Usage (comp_Response c) in
  do! throwIf (negb (completion_scope c)) ErrRuntimeInvalidRequest in
  dp_tx
    (let! a := held_attempt (comp_InvocationID c) (comp_DispatchAttemptID c) (comp_ClaimToken c)
                 (is_attempt DispatchResponseReceived) in
     let! i := select_invocation (comp_InvocationID c) in
     do! throwIf (negb (is_invocation InvocationResponseReceived i)) ErrRuntimeConflict in
     do! throwIf (negb (bool_decide (result_OutputMode r = inv_OutputMode (inv_Columns i))))
           ErrRuntimeInvalidRequest in
     let! row := insert_result i a r in
     do! insert_reasoning i a (nresp_RoleReasoning (comp_Response c)) in
     do! insert_usage i a u in
     do! finish_dispatch (datt_ID a) DispatchCompleted RetryNotRetryable "succeeded"
           (datt_ErrorCode a) in
     let! i := end_invocation (inv_ID i) any_row InvocationSucceeded EmptyString in
     do! holder_event i AuditInvocationSucceeded a outboxMax
           (list_to_map [("dispatch_attempt_id", JInt (datt_ID a));
                         ("response_hash", JStr (result_ResponseHash r));
                         ("response_bytes", JInt (result_ResponseBytes r));
                         ("tool_intent_count", JInt (Z.of_nat (length (result_ToolIntents r))))]) in
     ret (mkDispatchResult i
            (mkInvocationResult (result_ID row) (result_InvocationID r) (result_DispatchAttemptID r)
               (result_OutputMode r) (result_TextOutput r) (result_JSONOutput r)
               (result_ToolIntents r) (result_ResponseHash r) (result_ResponseBytes r)
               (result_CreatedAt row)) u)).

(** ** The other ends of a call *)

Definition FailBeforeSend (c : FailureCommand) (outboxMax : Z) : Disp Invocation :=
  let eventType :=
    if is_empty (fail_EventType c) then AuditInvocationFailed else fail_EventType c in
  do! throwIf (negb (bool_decide (eventType ∈ [AuditInvocationFailed; AuditInvocationTimedOut])))
        ErrRuntimeInvalidRequest in
  dp_tx
    (let! a := held_attempt (fail_InvocationID c) (fail_DispatchAttemptID c) (fail_ClaimToken c)
                 (is_attempt DispatchClaimed) in
     do! finish_dispatch (datt_ID a) DispatchFailedBeforeSend RetrySafeBeforeSend
           (fail_OutcomeClassification c) (fail_ErrorCode c) in
     let! i := end_invocation (fail_InvocationID c) any_row InvocationFailed (fail_ErrorCode c) in
     do! holder_event i eventType a outboxMax
           (failure_facts a (fail_OutcomeClassification c) []) in
     ret i).

(** The trigger of migration 000081 refuses a second content. *)
Definition attach_raw_content (attempt : Z) (content : option string) : Disp unit :=
  match content with
  | None => ret tt
  | Some raw =>
      let! d := dp_get in
      let hit r := outcome_DispatchAttemptID r =? attempt in
      do! throwIf (existsb (fun r => hit r && is_some (outcome_RawContent r)) (md_outcomes d))
            (ErrPg "P0001") in
      dp_modify (put_outcomes ((fun r =>
        if hit r then mkOutcomeRow (outcome_ID r) (outcome_RequestRecordID r)
                        (outcome_OrganizationID r) (outcome_InvocationID r)
                        (outcome_DispatchAttemptID r) (outcome_Value r) (outcome_Phase r) (Some raw)
        else r) <$> md_outcomes d))
  end.

Definition FailAfterResponse (c : FailureCommand) (outboxMax : Z) : Disp Invocation :=
  dp_tx
    (let! a := held_attempt (fail_InvocationID c) (fail_DispatchAttemptID c) (fail_ClaimToken c)
                 (is_attempt DispatchResponseReceived) in
     do! insertRecoveredUsage (fail_Usage c) in
     do! attach_raw_content (fail_DispatchAttemptID c) (fail_RawContent c) in
     do! finish_dispatch (datt_ID a) DispatchCompleted RetryNotRetryable
           (fail_OutcomeClassification c) (fail_ErrorCode c) in
     let! i := end_invocation (fail_InvocationID c) (is_invocation InvocationResponseReceived)
                 InvocationFailed (fail_ErrorCode c) in
     do! holder_event i AuditInvocationFailed a outboxMax
           (failure_facts a (fail_OutcomeClassification c) []) in
     ret i).

Definition MarkAmbiguous (c : FailureCommand) (eventType : string) (outboxMax : Z)
    : Disp Invocation :=
  do! throwIf (negb (bool_decide (eventType ∈ [AuditInvocationAmbiguous; AuditInvocationTimedOut])))
        ErrRuntimeInvalidRequest in
  dp_tx
    (let! a := held_attempt (fail_InvocationID c) (fail_DispatchAttemptID c) (fail_ClaimToken c)
                 (is_attempt DispatchSendStarted) in
     do! match fail_ProviderOutcome c with
         | Some o => insertProviderOutcome (fail_InvocationID c) (fail_DispatchAttemptID c) o
                       AdapterFailureAmbiguous
         | None => ret tt
         end in
     do! finish_dispatch (datt_ID a) DispatchAmbiguous RetryNotRetryable
           (fail_OutcomeClassification c) (fail_ErrorCode c) in
     let! i := end_invocation (fail_InvocationID c) (is_invocation InvocationSendStarted)
                 InvocationAmbiguous (fail_ErrorCode c) in
     do! holder_event i eventType a outboxMax
           (failure_facts a (fail_OutcomeClassification c) []) in
     ret i).

Definition MarkCancelled (c : FailureCommand) (outboxMax : Z) : Disp Invocation :=
  dp_tx
    (let! a := held_attempt (fail_InvocationID c) (fail_DispatchAttemptID c) (fail_ClaimToken c)
                 (fun a => is_attempt DispatchSendStarted a
                           || is_attempt DispatchResponseReceived a) in
     let! i := select_invocation (fail_InvocationID c) in
     do! throwIf (negb (is_some (inv_CancelRequestedAt i))) ErrRuntimeConflict in
     do! throwIf (is_attempt DispatchResponseReceived a && is_some (fail_ProviderOutcome c))
           ErrRuntimeConflict in
     do! (if is_attempt DispatchSendStarted a then
            match fail_ProviderOutcome c with
            | Some o =>
                do! throwIf (negb (bool_decide (out_Classification o = ProviderOutcomeCancelled)))
                      ErrRuntimeInvalidRequest in
                insertProviderOutcome (fail_InvocationID c) (fail_DispatchAttemptID c) o
                  AdapterFailureAmbiguous
            | None => throw ErrRuntimeInvalidRequest
            end
          else ret tt) in
     do! finish_dispatch (datt_ID a) DispatchCompleted RetryNotRetryable "cancelled_confirmed"
           (fail_ErrorCode c) in
     let! i := end_invocation (fail_InvocationID c) any_row InvocationCancelled
                 (fail_ErrorCode c) in
     do! holder_event i AuditInvocationCancelled a outboxMax
           (failure_facts a "cancelled_confirmed" []) in
     ret i).

Definition ProviderFailureRetryable (invocation : Z) : Disp bool :=
  let! d := dp_get in
  let mine o := existsb (fun r => (request_ID r =? outcome_RequestRecordID o)
                                  && (request_InvocationID r =? invocation)) (md_requests d) in
  match order_by (fun a b => outcome_ID b <=? outcome_ID a) (List.filter mine (md_outcomes d)) with
  | o :: _ => ret (out_Retryable (outcome_Value o))
  | [] => throw ErrProviderOutcomeUnknown
  end.

(** ** result_reader.go *)

Definition FindInvocationsByTaskAttempt (organizationID : string) (task attempt : Z)
    : Disp (list Invocation) :=
  let! d := dp_get in
  ret (order_by (fun a b => inv_ID a <=? inv_ID b)
         (rows (fun i => bool_decide (inv_OrganizationID (inv_Columns i) = organizationID)
                         && (inv_TaskID (inv_Columns i) =? task)
                         && (inv_AttemptID (inv_Columns i) =? attempt)) (md_invocations d))).

End Outcomes.
