(* ===== verification/Assignments.v ===== *)
(** * Dispatcher assignments

    internal/modeldispatch/postgres/assignments.go, but the routing authority of
    a role, and scans.go: who may dispatch the calls of a task attempt, how
    often and until when.  The principals are a parameter. *)

From stdpp Require Import base tactics list gmap strings pretty sorting.
From Stdlib Require Import ZArith Lia Ascii.
From S2P Require Import Prelude GoLib TaskDomain Database DispatchDB InvocationStore PreSend.

Local Open Scope string_scope.
Local Open Scope Z_scope.

Definition AuditAssignmentCreated : string := "model.dispatch_assignment_created".
Definition AuditAssignmentReused : string := "model.dispatch_assignment_reused".
Definition AuditAssignmentRevoked : string := "model.dispatch_assignment_revoked".
Definition AuditAssignmentExpired : string := "model.dispatch_assignment_expired".

(** The columns the INSERT binds. *)
Record PreparedCreateAssignment : Type := mkPreparedCreateAssignment {
  pca_OrganizationID : string;
  pca_OrganizationRevisionID : Z;
  pca_TaskID : Z;
  pca_AttemptID : Z;
  pca_SubjectRoleID : string;
  pca_DispatchActorRoleID : string;
  pca_PrincipalID : Z;
  pca_ValidFrom : Instant;
  pca_ValidUntil : Instant;
  pca_MaxInvocations : Z;
  pca_AssignmentHash : string;
  pca_IdempotencyKey : string;
  pca_RequestHash : string;
  pca_CreatedByRoleID : string }.

Record CreateAssignmentResult : Type := mkCreateAssignmentResult {
  car_Assignment : DispatcherAssignment;
  car_Reused : bool }.

Definition scope_of (p : PreparedCreateAssignment) (created : Instant) : AssignmentScope :=
  mkAssignmentScope (pca_OrganizationID p) (pca_OrganizationRevisionID p) (pca_TaskID p)
    (pca_AttemptID p) (pca_SubjectRoleID p) (pca_DispatchActorRoleID p) (pca_PrincipalID p)
    (pca_ValidFrom p) (pca_ValidUntil p) (pca_MaxInvocations p) (pca_AssignmentHash p)
    (pca_IdempotencyKey p) (pca_RequestHash p) (pca_CreatedByRoleID p) created.

(** modeldispatch/postgres/errors.go *)
Definition dispatch_row {A} (o : option A) : Disp A :=
  match o with Some a => ret a | None => throw ErrDispatchNotFound end.
Definition dispatch_check (b : bool) : Disp unit := throwIf (negb b) ErrDispatchInvalidRequest.

Section Assignments.
Context `{Env}.

Definition insertAssignmentAudit (eventType : string) (a : DispatcherAssignment)
    (actorRoleID : string) (extra : Payload) : Disp unit :=
  let s := asg_Scope a in
  insert_audit_row (mkAuditRow eventType "role" actorRoleID "model_dispatcher_assignment"
    (pretty (asg_ID a)) "" ""
    (extra ∪ list_to_map [
      ("assignment_id", JInt (asg_ID a)); ("task_id", JInt (asg_TaskID s));
      ("attempt_id", JInt (asg_AttemptID s)); ("subject_role_id", JStr (asg_SubjectRoleID s));
      ("dispatch_actor_role_id", JStr (asg_DispatchActorRoleID s));
      ("execution_principal_id", JInt (asg_ExecutionPrincipalID s));
      ("organization_revision_id", JInt (asg_OrganizationRevisionID s));
      ("max_invocations", JInt (asg_MaxInvocations s));
      ("used_invocations", JInt (asg_UsedInvocations a));
      ("status", JStr (assignment_status_text (asg_Status a)));
      ("assignment_hash", JStr (asg_AssignmentHash s))])).

Definition same_key (p : PreparedCreateAssignment) (a : DispatcherAssignment) : bool :=
  bool_decide (asg_OrganizationID (asg_Scope a) = pca_OrganizationID p)
  && bool_decide (asg_IdempotencyKey (asg_Scope a) = pca_IdempotencyKey p).

(** The index of the active assignments. *)
Definition same_attempt (s : AssignmentScope) (a : DispatcherAssignment) : bool :=
  bool_decide (asg_OrganizationID (asg_Scope a) = asg_OrganizationID s)
  && (asg_TaskID (asg_Scope a) =? asg_TaskID s) && (asg_AttemptID (asg_Scope a) =? asg_AttemptID s)
  && is_assignment AssignmentActive a.

(** [INSERT ... ON CONFLICT(organization_id,idempotency_key) DO NOTHING RETURNING ...] *)
Definition insert_assignment (p : PreparedCreateAssignment) : Disp (option DispatcherAssignment) :=
  let! now := dp_now in
  let! id := dp_nextval TAssignments in
  let row := mkDispatcherAssignment id (scope_of p now) AssignmentActive 0 now None None in
  do! dispatch_check (assignment_check row) in
  let! d := dp_get in
  if bool_decide (rows (same_key p) (md_assignments d) <> []) then ret None
  else
    do! throwIf (taken (md_assignments d) id) ErrDispatchConflict in
    do! throwIf (bool_decide (rows (same_attempt (asg_Scope row)) (md_assignments d) <> []))
          ErrAssignmentConflict in
    do! dp_modify (put_assignments (<[id := row]> (md_assignments d))) in
    ret (Some row).

Definition CreateAssignment (p : PreparedCreateAssignment) : Disp CreateAssignmentResult :=
  dp_tx
    (let! inserted := insert_assignment p in
     match inserted with
     | Some a =>
         do! insertAssignmentAudit AuditAssignmentCreated a (pca_CreatedByRoleID p) ∅ in
         ret (mkCreateAssignmentResult a false)
     | None =>
         let! d := dp_get in
         let! a := dispatch_row (head (rows (same_key p) (md_assignments d))) in
         do! throwIf (negb (bool_decide (asg_RequestHash (asg_Scope a) = pca_RequestHash p)))
               ErrDispatchConflict in
         do! insertAssignmentAudit AuditAssignmentReused a (pca_CreatedByRoleID p) ∅ in
         ret (mkCreateAssignmentResult a true)
     end).

Definition GetAssignment (id : Z) : Disp DispatcherAssignment :=
  let! d := dp_get in dispatch_row (md_assignments d !! id).

Definition ListAssignments (organizationID : string) (limit : Z)
    : Disp (list DispatcherAssignment) :=
  let! d := dp_get in
  ret (take (Z.to_nat limit)
         (order_by (fun a b => asg_ID b <=? asg_ID a)
            (rows (fun a => bool_decide (asg_OrganizationID (asg_Scope a) = organizationID))
               (md_assignments d)))).

(** The reason code is NULL or an identifier; the code always binds a text. *)
Definition RevokeAssignment (id : Z) (actorRoleID reasonCode : string)
    : Disp DispatcherAssignment :=
  dp_tx
    (let! d := dp_get in
     let! a := dispatch_row (md_assignments d !! id) in
     match asg_Status a with
     | AssignmentRevoked => ret a
     | AssignmentActive =>
         let! terminal := dp_clock in
         let! revoked := dp_clock in
         let! updated := dp_clock in
         let row := assignment_set AssignmentRevoked (asg_UsedInvocations a) updated (Some terminal)
                      (Some (mkRevocation revoked actorRoleID reasonCode)) a in
         do! dispatch_check (assignment_check row && trimmed 1 120 reasonCode
               && MatchString Egress.canonicalIdentifierPattern reasonCode) in
         do! dp_modify (put_assignments (<[id := row]> (md_assignments d))) in
         do! insertAssignmentAudit AuditAssignmentRevoked row actorRoleID
               (<["reason_code" := JStr reasonCode]> ∅) in
         ret row
     | _ => throw ErrAssignmentInactive
     end).

Definition expirable (organizationID : string) (now : Instant) (a : DispatcherAssignment) : bool :=
  bool_decide (asg_OrganizationID (asg_Scope a) = organizationID)
  && is_assignment AssignmentActive a && (asg_ValidUntil (asg_Scope a) <=? now).

(** [now] is the caller's clock; [locked] are the rows another transaction holds. *)
Definition ExpireAssignments (organizationID : string) (batch : Z) (now : Instant)
    (locked : list Z) : Disp Z :=
  dp_tx
    (let! d := dp_get in
     let ids := asg_ID <$> skip_locked_limit asg_ID locked batch
       (order_by (fun a b => asg_ID a <=? asg_ID b)
          (rows (expirable organizationID now) (md_assignments d))) in
     let! terminal := dp_clock in
     let! updated := dp_clock in
     let expire a := if bool_decide (asg_ID a ∈ ids)
       then assignment_set AssignmentExpired (asg_UsedInvocations a) updated (Some terminal)
              (asg_Revocation a) a
       else a in
     do! dispatch_check (forallb assignment_check
           (rows (fun a => bool_decide (asg_ID a ∈ ids)) (expire <$> md_assignments d))) in
     do! dp_modify (put_assignments (expire <$> md_assignments d)) in
     do! (if bool_decide (ids = []) then ret tt
          else insert_audit_row (mkAuditRow AuditAssignmentExpired "system" "orgctl"
                 "model_dispatcher_assignment" organizationID "" ""
                 (list_to_map [("organization_id", JStr organizationID);
                               ("assignment_ids", JArr (JInt <$> ids));
                               ("count", JInt (Z.of_nat (length ids)))]))) in
     ret (Z.of_nat (length ids))).

(** The active assignment of an attempt, inside its window. *)
Definition ResolveActive (organizationID : string) (task attempt : Z) (subject : string)
    : Disp DispatcherAssignment :=
  let! d := dp_get in
  let! now := dp_clock in
  dispatch_row (head (rows (fun a =>
    let s := asg_Scope a in
    bool_decide (asg_OrganizationID s = organizationID) && (asg_TaskID s =? task)
    && (asg_AttemptID s =? attempt) && bool_decide (asg_SubjectRoleID s = subject)
    && is_assignment AssignmentActive a && (asg_ValidFrom s <=? now) && (now <? asg_ValidUntil s))
    (md_assignments d))).

End Assignments.
