(* ===== verification/DispatchSpec.v ===== *)
(** * The abstract machine of model calls

    What the stores of model invocations, dispatcher assignments and identity
    challenges promise together: every method takes the tables by steps that
    name what happened to one invocation, one assignment or one challenge. *)

From stdpp Require Import base tactics list gmap strings.
From Stdlib Require Import ZArith Lia.
From S2P Require Import Prelude GoLib TaskDomain Database DispatchDB Claims PreSend.

Local Open Scope Z_scope.

(** ** The tables that decide *)

Record Core : Type := mkCore {
  co_inv : gmap Z Invocation;
  co_att : gmap Z DispatchAttempt;
  co_asg : gmap Z DispatcherAssignment;
  co_uses : list AssignmentUse;
  co_reqs : list ProviderRequestRow;
  co_evals : list EvaluationRow;
  co_res : gmap Z InvocationResult;
  co_chal : gmap Z Challenge;
  co_asr : list AssertionRow }.

Definition core (d : DispatchDB) : Core :=
  mkCore (md_invocations d) (md_attempts d) (md_assignments d) (md_uses d) (md_requests d)
    (md_evaluations d) (md_results d) (md_challenges d) (md_assertions d).

(** ** Steps *)

(** What no statement changes of an invocation and of an attempt. *)
Definition same_invocation (i i' : Invocation) : Prop :=
  inv_ID i' = inv_ID i /\ inv_Columns i' = inv_Columns i.
Definition same_attempt_row (a a' : DispatchAttempt) : Prop :=
  datt_ID a' = datt_ID a /\ datt_Claim a' = datt_Claim a.

(** The attempt that is working on an invocation of this status, if any. *)
Definition running (s : InvocationStatus) : option DispatchStatus :=
  match s with
  | InvocationClaimed => Some DispatchClaimed
  | InvocationSendStarted => Some DispatchSendStarted
  | InvocationResponseReceived => Some DispatchResponseReceived
  | _ => None
  end.

(** How an invocation and its active attempt move together, the sending apart. *)
Inductive move : InvocationStatus -> InvocationStatus -> DispatchStatus -> Prop :=
| MoveReleased : move InvocationClaimed InvocationRequested DispatchFailedBeforeSend
| MoveFailedBefore : move InvocationClaimed InvocationFailed DispatchFailedBeforeSend
| MoveCancelledBefore : move InvocationClaimed InvocationCancelled DispatchFailedBeforeSend
| MoveReceived : move InvocationSendStarted InvocationResponseReceived DispatchResponseReceived
| MoveRejected : move InvocationSendStarted InvocationFailed DispatchCompleted
| MoveNotSent : move InvocationSendStarted InvocationFailed DispatchFailedBeforeSend
| MoveLost : move InvocationSendStarted InvocationAmbiguous DispatchAmbiguous
| MoveCancelled : move InvocationSendStarted InvocationCancelled DispatchCompleted
| MoveSucceeded : move InvocationResponseReceived InvocationSucceeded DispatchCompleted
| MoveFailedAfter : move InvocationResponseReceived InvocationFailed DispatchCompleted
| MoveCancelledAfter : move InvocationResponseReceived InvocationCancelled DispatchCompleted.

Definition no_active (id : Z) (c : Core) : Prop :=
  forall k a, co_att c !! k = Some a -> att_invocation a = id -> attempt_active a = false.

(** An attempt that claims the invocation [i], which becomes [i']. *)
Record claims (c : Core) (i i' : Invocation) (a : DispatchAttempt) : Prop := {
  cl_row : co_inv c !! inv_ID i = Some i;
  cl_requested : inv_Status i = InvocationRequested;
  cl_same : same_invocation i i';
  cl_claimed : inv_Status i' = InvocationClaimed;
  cl_fresh : co_att c !! datt_ID a = None;
  cl_of : att_invocation a = inv_ID i;
  cl_status : datt_Status a = DispatchClaimed;
  cl_idle : no_active (inv_ID i) c }.

(** The unique index of migration 000010. *)
Definition proof_key (s : AssertionRow) : Z * Z * Z :=
  (assertion_ExecutionIdentityKeyID s, assertion_InvocationID s, assertion_ExecutionPrincipalID s).

(** A signed assertion [s] for the attempt [a] that consumes the open challenge [ch]. *)
Record proves (c : Core) (i : Invocation) (a : DispatchAttempt) (ch ch' : Challenge)
    (s : AssertionRow) : Prop := {
  pr_row : co_chal c !! chal_ID ch = Some ch;
  pr_open : challenge_open ch = true;
  pr_consumed : exists t, ch' = challenge_consumed t ch;
  pr_for : scope_InvocationID (chal_Scope ch) = inv_ID i;
  pr_challenge : assertion_ChallengeID s = chal_ID ch;
  pr_invocation : assertion_InvocationID s = inv_ID i;
  pr_attempt : assertion_DispatchAttemptID s = datt_ID a;
  pr_payload : assertion_PayloadHash s = chal_PayloadHash ch;
  pr_allows : assertion_Allows s = true;
  pr_once : forall s', s' ∈ co_asr c -> assertion_ChallengeID s' <> chal_ID ch;
  pr_key : forall s', s' ∈ co_asr c -> proof_key s' <> proof_key s }.

(** The call of [i] is sent by its attempt [a] under the evaluation [v], the use [u] of the
    assignment [g] and the request [r]. *)
Record sends (c : Core) (i i' : Invocation) (a a' : DispatchAttempt) (g g' : DispatcherAssignment)
    (v : EvaluationRow) (u : AssignmentUse) (r : ProviderRequestRow) : Prop := {
  sn_invocation : co_inv c !! inv_ID i = Some i;
  sn_claimed : inv_Status i = InvocationClaimed;
  sn_wanted : inv_CancelRequestedAt i = None;
  sn_same : same_invocation i i';
  sn_sent : inv_Status i' = InvocationSendStarted;
  sn_attempt : co_att c !! datt_ID a = Some a;
  sn_of : att_invocation a = inv_ID i;
  sn_holds : datt_Status a = DispatchClaimed;
  sn_same_attempt : same_attempt_row a a';
  sn_started : datt_Status a' = DispatchSendStarted;
  sn_assignment : co_asg c !! asg_ID g = Some g;
  sn_active : asg_Status g = AssignmentActive;
  sn_left : asg_UsedInvocations g < asg_MaxInvocations (asg_Scope g);
  sn_same_assignment : asg_ID g' = asg_ID g /\ asg_Scope g' = asg_Scope g;
  sn_used : asg_UsedInvocations g' = asg_UsedInvocations g + 1;
  sn_exhausted : asg_Status g' =
    (if asg_MaxInvocations (asg_Scope g) <=? asg_UsedInvocations g'
     then AssignmentExhausted else AssignmentActive);
  sn_use : use_AssignmentID u = asg_ID g /\ use_InvocationID u = inv_ID i
           /\ use_DispatchAttemptID u = datt_ID a;
  sn_request : request_InvocationID r = inv_ID i /\ request_DispatchAttemptID r = datt_ID a
               /\ request_AssignmentUseID r = use_ID u /\ request_EvaluationID r = evaluation_ID v;
  sn_allowed : eval_AuthorizationEffect (evaluation_Value v) = AuthorizationAllow
               /\ eval_EgressEffect (evaluation_Value v) = EffectAllow
               /\ eval_InvocationID (evaluation_Value v) = inv_ID i
               /\ eval_DispatchAttemptID (evaluation_Value v) = datt_ID a;
  sn_pinned : inv_DispatcherAssignmentID (inv_Columns i) = Some (asg_ID g);
  sn_proved : exists s, s ∈ co_asr c /\ assertion_ID s = request_IdentityAssertionID r
                /\ assertion_Allows s = true /\ assertion_InvocationID s = inv_ID i
                /\ assertion_DispatchAttemptID s = datt_ID a }.

Definition put_inv_att (i : Invocation) (a : DispatchAttempt) (c : Core) : Core :=
  mkCore (<[inv_ID i := i]> (co_inv c)) (<[datt_ID a := a]> (co_att c)) (co_asg c) (co_uses c)
    (co_reqs c) (co_evals c) (co_res c) (co_chal c) (co_asr c).
Definition put_inv (i : Invocation) (c : Core) : Core :=
  mkCore (<[inv_ID i := i]> (co_inv c)) (co_att c) (co_asg c) (co_uses c) (co_reqs c) (co_evals c)
    (co_res c) (co_chal c) (co_asr c).
Definition put_asg (m : gmap Z DispatcherAssignment) (c : Core) : Core :=
  mkCore (co_inv c) (co_att c) m (co_uses c) (co_reqs c) (co_evals c) (co_res c) (co_chal c)
    (co_asr c).
Definition put_chal (m : gmap Z Challenge) (c : Core) : Core :=
  mkCore (co_inv c) (co_att c) (co_asg c) (co_uses c) (co_reqs c) (co_evals c) (co_res c) m
    (co_asr c).
Definition put_eval (v : EvaluationRow) (c : Core) : Core :=
  mkCore (co_inv c) (co_att c) (co_asg c) (co_uses c) (co_reqs c) (co_evals c ++ [v]) (co_res c)
    (co_chal c) (co_asr c).
Definition put_res (id : Z) (r : InvocationResult) (c : Core) : Core :=
  mkCore (co_inv c) (co_att c) (co_asg c) (co_uses c) (co_reqs c) (co_evals c)
    (<[id := r]> (co_res c)) (co_chal c) (co_asr c).

(** The attempt an assignment is for. *)
Definition asg_target (g : DispatcherAssignment) : string * Z * Z :=
  (asg_OrganizationID (asg_Scope g), asg_TaskID (asg_Scope g), asg_AttemptID (asg_Scope g)).

Inductive dispatch_step (c : Core) : Core -> Prop :=
| Created i :
    co_inv c !! inv_ID i = None -> inv_Status i = InvocationRequested ->
    dispatch_step c (put_inv i c)
| Claimed i i' a :
    claims c i i' a -> inv_ExecutionIdentityPolicyVersionID (inv_Columns i) = None ->
    datt_Identity a = None ->
    dispatch_step c (put_inv_att i' a c)
| Proved i i' a ch ch' s :
    claims c i i' a -> proves c i a ch ch' s ->
    (exists t, datt_Identity a
               = Some (mkIdentityColumns (assertion_ExecutionIdentityKeyID s) (assertion_ID s) t)) ->
    dispatch_step c
      (let c1 := put_inv_att i' a c in
       mkCore (co_inv c1) (co_att c1) (co_asg c1) (co_uses c1) (co_reqs c1) (co_evals c1)
         (co_res c1) (<[chal_ID ch := ch']> (co_chal c1)) (co_asr c1 ++ [s]))
| Sent i i' a a' g g' v u r :
    sends c i i' a a' g g' v u r ->
    dispatch_step c
      (let c1 := put_inv_att i' a' c in
       mkCore (co_inv c1) (co_att c1) (<[asg_ID g := g']> (co_asg c1)) (co_uses c1 ++ [u])
         (co_reqs c1 ++ [r]) (co_evals c1 ++ [v]) (co_res c1) (co_chal c1) (co_asr c1))
| Moved i i' a a' :
    co_inv c !! inv_ID i = Some i -> co_att c !! datt_ID a = Some a ->
    att_invocation a = inv_ID i -> running (inv_Status i) = Some (datt_Status a) ->
    same_invocation i i' -> same_attempt_row a a' ->
    move (inv_Status i) (inv_Status i') (datt_Status a') ->
    inv_Status i' <> InvocationSucceeded ->
    dispatch_step c (put_inv_att i' a' c)
| Succeeded i i' a a' r :
    co_inv c !! inv_ID i = Some i -> co_att c !! datt_ID a = Some a ->
    att_invocation a = inv_ID i -> running (inv_Status i) = Some (datt_Status a) ->
    same_invocation i i' -> same_attempt_row a a' ->
    move (inv_Status i) (inv_Status i') (datt_Status a') ->
    inv_Status i' = InvocationSucceeded ->
    result_InvocationID r = inv_ID i -> result_DispatchAttemptID r = datt_ID a ->
    result_OutputMode r = inv_OutputMode (inv_Columns i) ->
    dispatch_step c (put_res (inv_ID i) r (put_inv_att i' a' c))
| Dropped i i' :
    co_inv c !! inv_ID i = Some i -> inv_Status i = InvocationRequested ->
    same_invocation i i' -> inv_Status i' = InvocationCancelled ->
    dispatch_step c (put_inv i' c)
| Flagged i i' :
    co_inv c !! inv_ID i = Some i -> ProviderExecutionMayHaveStarted (inv_Status i) = true ->
    same_invocation i i' -> inv_Status i' = inv_Status i ->
    dispatch_step c (put_inv i' c)
| Evaluated v :
    dispatch_step c (put_eval v c)
| Assigned g :
    co_asg c !! asg_ID g = None -> asg_Status g = AssignmentActive ->
    asg_UsedInvocations g = 0 -> 0 < asg_MaxInvocations (asg_Scope g) ->
    (forall k g', co_asg c !! k = Some g' -> asg_Status g' = AssignmentActive ->
       asg_target g' <> asg_target g) ->
    dispatch_step c (put_asg (<[asg_ID g := g]> (co_asg c)) c)
| Withdrawn g g' :
    co_asg c !! asg_ID g = Some g -> asg_Status g = AssignmentActive ->
    asg_ID g' = asg_ID g -> asg_Scope g' = asg_Scope g ->
    asg_UsedInvocations g' = asg_UsedInvocations g ->
    asg_Status g' ∈ [AssignmentRevoked; AssignmentExpired] ->
    dispatch_step c (put_asg (<[asg_ID g := g']> (co_asg c)) c)
| Challenged ch :
    co_chal c !! chal_ID ch = None -> challenge_open ch = true ->
    (forall k ch', co_chal c !! k = Some ch' ->
       scope_InvocationID (chal_Scope ch') = scope_InvocationID (chal_Scope ch) ->
       challenge_open ch' = false) ->
    dispatch_step c (put_chal (<[chal_ID ch := ch]> (co_chal c)) c)
| Invalidated ch t :
    co_chal c !! chal_ID ch = Some ch -> challenge_open ch = true ->
    dispatch_step c (put_chal (<[chal_ID ch := challenge_invalidated t ch]> (co_chal c)) c).

Definition dispatch_steps : Core -> Core -> Prop := rtc dispatch_step.

(** ** The invariant *)

Definition live (s : InvocationStatus) : bool := is_some (running s).

(** The statuses of an invocation whose call was not sent. *)
Definition unsent (s : InvocationStatus) : bool :=
  bool_decide (s = InvocationRequested) || bool_decide (s = InvocationClaimed).

(** The statuses of an invocation whose call was sent for sure. *)
Definition was_sent (s : InvocationStatus) : bool :=
  match s with
  | InvocationSendStarted | InvocationResponseReceived | InvocationSucceeded
  | InvocationAmbiguous => true
  | _ => false
  end.

Definition use_key (u : AssignmentUse) : Z * Z * Z :=
  (use_ID u, use_InvocationID u, use_DispatchAttemptID u).
Definition request_key (r : ProviderRequestRow) : Z * Z * Z :=
  (request_AssignmentUseID r, request_InvocationID r, request_DispatchAttemptID r).

Definition uses_of (id : Z) (l : list AssignmentUse) : list AssignmentUse :=
  List.filter (fun u => use_AssignmentID u =? id) l.

Notation invs := (gmap Z Invocation) (only parsing).
Notation atts := (gmap Z DispatchAttempt) (only parsing).

(** Invocations and their attempts. *)
Record life_inv (ivs : invs) (ats : atts) : Prop := {
  li_inv : forall k i, ivs !! k = Some i -> inv_ID i = k;
  li_att : forall k a, ats !! k = Some a -> datt_ID a = k /\ is_Some (ivs !! att_invocation a);
  li_active : forall k a i, ats !! k = Some a -> attempt_active a = true ->
    ivs !! att_invocation a = Some i -> running (inv_Status i) = Some (datt_Status a);
  li_one : forall k k' a a', ats !! k = Some a -> ats !! k' = Some a' ->
    attempt_active a = true -> attempt_active a' = true ->
    att_invocation a = att_invocation a' -> k = k';
  li_live : forall k i, ivs !! k = Some i -> live (inv_Status i) = true ->
    exists k' a, ats !! k' = Some a /\ att_invocation a = k /\ attempt_active a = true }.

(** Which invocations were sent. *)
Record sent_inv (ivs : invs) (reqs : list ProviderRequestRow) : Prop := {
  si_unsent : forall k i r, ivs !! k = Some i -> unsent (inv_Status i) = true ->
    r ∈ reqs -> request_InvocationID r <> k;
  si_sent : forall k i, ivs !! k = Some i -> was_sent (inv_Status i) = true ->
    k ∈ request_InvocationID <$> reqs;
  si_once : NoDup (request_InvocationID <$> reqs) }.

(** What stands behind a request. *)
Definition backed (c : Core) (r : ProviderRequestRow) : Prop :=
  (exists a, co_att c !! request_DispatchAttemptID r = Some a
             /\ att_invocation a = request_InvocationID r)
  /\ (exists v, v ∈ co_evals c /\ evaluation_ID v = request_EvaluationID r
      /\ eval_AuthorizationEffect (evaluation_Value v) = AuthorizationAllow
      /\ eval_EgressEffect (evaluation_Value v) = EffectAllow
      /\ eval_InvocationID (evaluation_Value v) = request_InvocationID r)
  /\ (exists s, s ∈ co_asr c /\ assertion_ID s = request_IdentityAssertionID r
      /\ assertion_Allows s = true /\ assertion_InvocationID s = request_InvocationID r
      /\ assertion_DispatchAttemptID s = request_DispatchAttemptID r).

(** Assignments and their uses. *)
Record quota_inv (asg : gmap Z DispatcherAssignment) (uses : list AssignmentUse) : Prop := {
  qi_asg : forall k g, asg !! k = Some g ->
    asg_ID g = k
    /\ asg_UsedInvocations g = Z.of_nat (length (uses_of k uses))
    /\ asg_UsedInvocations g <= asg_MaxInvocations (asg_Scope g)
    /\ (asg_Status g = AssignmentActive ->
        asg_UsedInvocations g < asg_MaxInvocations (asg_Scope g));
  qi_uses : forall u, u ∈ uses -> is_Some (asg !! use_AssignmentID u);
  qi_one : forall k k' g g', asg !! k = Some g -> asg !! k' = Some g' ->
    asg_Status g = AssignmentActive -> asg_Status g' = AssignmentActive ->
    asg_target g = asg_target g' -> k = k' }.

(** A result for every invocation that succeeded, and for no other. *)
Definition result_inv (ivs : invs) (res : gmap Z InvocationResult) : Prop :=
  forall k, is_Some (res !! k) <-> exists i, ivs !! k = Some i /\ inv_Status i = InvocationSucceeded.

(** Challenges and assertions. *)
Record identity_inv (chal : gmap Z Challenge) (asr : list AssertionRow) : Prop := {
  ii_chal : forall k ch, chal !! k = Some ch -> chal_ID ch = k;
  ii_open : forall k k' ch ch', chal !! k = Some ch -> chal !! k' = Some ch' ->
    challenge_open ch = true -> challenge_open ch' = true ->
    scope_InvocationID (chal_Scope ch) = scope_InvocationID (chal_Scope ch') -> k = k';
  ii_proofs : forall s, s ∈ asr ->
    exists ch, chal !! assertion_ChallengeID s = Some ch /\ is_Some (chal_ConsumedAt ch)
      /\ chal_InvalidatedAt ch = None
      /\ chal_PayloadHash ch = assertion_PayloadHash s
      /\ scope_InvocationID (chal_Scope ch) = assertion_InvocationID s;
  ii_single : NoDup (assertion_ChallengeID <$> asr);
  ii_key_once : NoDup (proof_key <$> asr) }.

Record dispatch_inv (c : Core) : Prop := {
  di_life : life_inv (co_inv c) (co_att c);
  di_sent : sent_inv (co_inv c) (co_reqs c);
  di_uses : use_key <$> co_uses c = request_key <$> co_reqs c;
  di_backed : forall r, r ∈ co_reqs c -> backed c r;
  di_quota : quota_inv (co_asg c) (co_uses c);
  di_results : result_inv (co_inv c) (co_res c);
  di_identity : identity_inv (co_chal c) (co_asr c) }.
