(* ===== verification/DispatchInvariant.v ===== *)
(** * The invariant of the machine of model calls

    Each step of DispatchSpec.v keeps the invariant; the tables are treated one
    by one. *)

From stdpp Require Import base tactics list gmap strings.
From Stdlib Require Import ZArith Lia.
From S2P Require Import Prelude GoLib TaskDomain Database DispatchDB Claims PreSend.
From S2P Require Import DispatchSpec.

Local Open Scope Z_scope.

Ltac lookups :=
  repeat match goal with
  | H : <[_ := _]> _ !! _ = Some _ |- _ => apply lookup_insert_Some in H as [[? ?]|[? ?]]; subst
  | H : <[_ := _]> _ !! _ = None |- _ => apply lookup_insert_None in H as [? ?]
  end.

Lemma running_active (s : InvocationStatus) (a : DispatchAttempt) :
  running s = Some (datt_Status a) -> attempt_active a = true /\ live s = true.
Proof. unfold live, attempt_active. by destruct s, (datt_Status a). Qed.

Lemma not_live (s : InvocationStatus) : running s = None -> live s = false.
Proof. unfold live. by intros ->. Qed.

(** ** Invocations and attempts *)

Section Life.
Context (ivs : gmap Z Invocation) (ats : gmap Z DispatchAttempt) (Hl : life_inv ivs ats).

Lemma life_created (i : Invocation) :
  ivs !! inv_ID i = None -> running (inv_Status i) = None ->
  life_inv (<[inv_ID i := i]> ivs) ats.
Proof.
  destruct Hl as [Hi Ha Hact Hone Hlive]. intros Hf Hr.
  assert (Hold : forall a, is_Some (ivs !! att_invocation a) -> att_invocation a <> inv_ID i)
    by (intros a [j Hj] Heq; congruence).
  split.
  - intros k j Hk. lookups; eauto.
  - intros k a Hk. destruct (Ha k a Hk) as [? Hs]. split; [done|].
    rewrite lookup_insert_ne by (symmetry; by apply Hold). done.
  - intros k a j Hk Hb Hj. destruct (Ha k a Hk) as [_ Hs].
    rewrite lookup_insert_ne in Hj by (symmetry; by apply Hold). eauto.
  - done.
  - intros k j Hk Hv. lookups; [by rewrite (not_live _ Hr) in Hv|eauto].
Qed.

(** An invocation changes, its attempts do not. *)
Lemma life_alone (i i' : Invocation) :
  ivs !! inv_ID i = Some i -> inv_ID i' = inv_ID i ->
  running (inv_Status i') = running (inv_Status i) ->
  life_inv (<[inv_ID i' := i']> ivs) ats.
Proof.
  destruct Hl as [Hi Ha Hact Hone Hlive]. intros Hrow Hid Hr. rewrite Hid. split.
  - intros k j Hk. lookups; [congruence|eauto].
  - intros k a Hk. destruct (Ha k a Hk) as [? Hs]. split; [done|]. by apply lookup_insert_is_Some'; right.
  - intros k a j Hk Hb Hj. apply lookup_insert_Some in Hj as [[Heq <-]|[_ Hj]]; [|eauto].
    rewrite Hr. eapply Hact; [done..|]. by rewrite <- Heq.
  - done.
  - intros k j Hk Hv. lookups; [|eauto]. apply (Hlive _ i Hrow). unfold live in *. by rewrite <- Hr.
Qed.

(** An invocation without an active attempt gets one. *)
Lemma life_claimed (i i' : Invocation) (a : DispatchAttempt) :
  ivs !! inv_ID i = Some i -> inv_ID i' = inv_ID i ->
  inv_Status i' = InvocationClaimed -> ats !! datt_ID a = None -> att_invocation a = inv_ID i ->
  datt_Status a = DispatchClaimed ->
  (forall k b, ats !! k = Some b -> att_invocation b = inv_ID i -> attempt_active b = false) ->
  life_inv (<[inv_ID i' := i']> ivs) (<[datt_ID a := a]> ats).
Proof.
  destruct Hl as [Hi Ha Hact Hone Hlive]. intros Hrow Hid Hs Hf Hof Hst Hno. rewrite Hid. split.
  - intros k j Hk. lookups; [done|eauto].
  - intros k b Hk. lookups; [split; [done|]; rewrite Hof, lookup_insert_eq; by eexists|].
    destruct (Ha k b) as [? ?]; [done|]. split; [done|]. by apply lookup_insert_is_Some'; right.
  - intros k b j Hk Hb Hj. lookups; try congruence; eauto.
    + by rewrite Hs, Hst.
    + rewrite (Hno k b) in Hb by congruence. done.
  - intros k k' b b' Hk Hk' Hb Hb' Heq. lookups; try done; eauto.
    + rewrite (Hno k b) in Hb by congruence. done.
    + rewrite (Hno k' b') in Hb' by congruence. done.
  - intros k j Hk Hv. lookups.
    + exists (datt_ID a), a. rewrite lookup_insert_eq. split_and!; [done..|].
      unfold attempt_active. by rewrite Hst.
    + destruct (Hlive k j) as (k' & b & Hb & ? & ?); [done..|]. exists k', b.
      rewrite lookup_insert_ne by congruence. done.
Qed.

(** An invocation and its active attempt move together. *)
Lemma life_pair (i i' : Invocation) (a a' : DispatchAttempt) :
  ivs !! inv_ID i = Some i -> ats !! datt_ID a = Some a -> att_invocation a = inv_ID i ->
  running (inv_Status i) = Some (datt_Status a) ->
  same_invocation i i' -> same_attempt_row a a' ->
  (running (inv_Status i') = Some (datt_Status a')
   \/ running (inv_Status i') = None /\ attempt_active a' = false) ->
  life_inv (<[inv_ID i' := i']> ivs) (<[datt_ID a' := a']> ats).
Proof.
  destruct Hl as [Hi Ha Hact Hone Hlive].
  intros Hrow Hat Hof Hrun [Hid _] [Haid Hc] Hnew. rewrite Hid, Haid.
  assert (Hof' : att_invocation a' = inv_ID i) by (unfold att_invocation; by rewrite Hc).
  apply running_active in Hrun as Hra. destruct Hra as [Hba _].
  assert (Hother : forall k b, ats !! k = Some b -> k <> datt_ID a -> attempt_active b = true ->
            att_invocation b <> inv_ID i)
    by (intros k b Hk Hne Hb Heq; apply Hne; eapply Hone; [done..|congruence]).
  split.
  - intros k j Hk. lookups; [done|eauto].
  - intros k b Hk. lookups; [split; [done|]; rewrite Hof', lookup_insert_eq; by eexists|].
    destruct (Ha k b) as [? ?]; [done|]. split; [done|]. by apply lookup_insert_is_Some'; right.
  - intros k b j Hk Hb Hj. lookups; try congruence; eauto.
    + by destruct Hnew as [?|[_ ?]]; [|congruence].
    + by destruct (Hother k b); [..|congruence].
  - intros k k' b b' Hk Hk' Hb Hb' Heq. lookups; try done; eauto.
    + by destruct (Hother k b); [..|congruence].
    + by destruct (Hother k' b'); [..|congruence].
  - intros k j Hk Hv. lookups.
    + exists (datt_ID a), a'. rewrite lookup_insert_eq. split_and!; [done..|].
      destruct Hnew as [Hn|[Hn _]]; [by apply running_active in Hn as [? _]|].
      by rewrite (not_live _ Hn) in Hv.
    + destruct (Hlive k j) as (k' & b & Hb & ? & ?); [done..|]. exists k', b.
      rewrite lookup_insert_ne; [done|]. intros <-. congruence.
Qed.

End Life.

Lemma move_pair (s s' : InvocationStatus) (a' : DispatchAttempt) :
  move s s' (datt_Status a') ->
  running s' = Some (datt_Status a') \/ running s' = None /\ attempt_active a' = false.
Proof. unfold attempt_active. by inversion 1; simpl; auto. Qed.

(** ** Requests *)

Section Sent.
Context (ivs : gmap Z Invocation) (reqs : list ProviderRequestRow) (Hs : sent_inv ivs reqs).

Lemma sent_created (i : Invocation) :
  inv_Status i = InvocationRequested ->
  (forall r, r ∈ reqs -> request_InvocationID r <> inv_ID i) ->
  sent_inv (<[inv_ID i := i]> ivs) reqs.
Proof.
  destruct Hs as [Hu Hsent Hn]. intros Hst Hf. split; [| |done].
  - intros k j r Hk Hun Hr. lookups; eauto.
  - intros k j Hk Hw. lookups; [by rewrite Hst in Hw|eauto].
Qed.

Lemma sent_update (i i' : Invocation) :
  ivs !! inv_ID i = Some i -> inv_ID i' = inv_ID i ->
  (unsent (inv_Status i') = true -> unsent (inv_Status i) = true) ->
  (was_sent (inv_Status i') = true -> was_sent (inv_Status i) = true) ->
  sent_inv (<[inv_ID i' := i']> ivs) reqs.
Proof.
  destruct Hs as [Hu Hsent Hn]. intros Hrow Hid H1 H2. rewrite Hid. split; [| |done].
  - intros k j r Hk Hun Hr. lookups; eauto.
  - intros k j Hk Hw. lookups; eauto.
Qed.

Lemma sent_send (i i' : Invocation) (r : ProviderRequestRow) :
  ivs !! inv_ID i = Some i -> inv_ID i' = inv_ID i -> unsent (inv_Status i) = true ->
  inv_Status i' = InvocationSendStarted -> request_InvocationID r = inv_ID i ->
  sent_inv (<[inv_ID i' := i']> ivs) (reqs ++ [r]).
Proof.
  destruct Hs as [Hu Hsent Hn]. intros Hrow Hid Hun Hst Hr. rewrite Hid. split.
  - intros k j r' Hk Hun' Hin. lookups; [by rewrite Hst in Hun'|].
    apply elem_of_app in Hin as [Hin|Hin]; [eauto|]. apply list_elem_of_singleton in Hin as ->.
    congruence.
  - intros k j Hk Hw. rewrite fmap_app, elem_of_app. lookups; [|eauto]. right. simpl. rewrite Hr.
    left.
  - rewrite fmap_app. apply NoDup_app. split_and!; [done| |apply NoDup_singleton].
    intros x Hx Hx'. apply list_elem_of_singleton in Hx' as ->. simpl in Hx.
    apply list_elem_of_fmap in Hx as (r' & Heq & Hin). destruct (Hu _ i r' Hrow Hun Hin). congruence.
Qed.

End Sent.

Lemma move_sent (s s' : InvocationStatus) (t : DispatchStatus) :
  move s s' t ->
  (unsent s' = true -> unsent s = true) /\ (was_sent s' = true -> was_sent s = true).
Proof. by inversion 1. Qed.

(** ** Results *)

Section Results.
Context (ivs : gmap Z Invocation) (res : gmap Z InvocationResult) (Hr : result_inv ivs res).

Lemma result_update (i' : Invocation) :
  inv_Status i' <> InvocationSucceeded ->
  (forall i, ivs !! inv_ID i' = Some i -> inv_Status i <> InvocationSucceeded) ->
  result_inv (<[inv_ID i' := i']> ivs) res.
Proof.
  intros Hn Ho k. rewrite (Hr k). split; intros (i & Hi & Hs).
  - exists i. rewrite lookup_insert_ne; [done|]. intros <-. by apply (Ho i).
  - lookups; [done|]. by exists i.
Qed.

Lemma result_succeed (i' : Invocation) (r : InvocationResult) :
  inv_Status i' = InvocationSucceeded ->
  result_inv (<[inv_ID i' := i']> ivs) (<[inv_ID i' := r]> res).
Proof.
  intros Hs k. destruct (decide (k = inv_ID i')) as [->|Hne].
  - rewrite !lookup_insert_eq. split; [|by eexists]. intros _. by exists i'.
  - rewrite !lookup_insert_ne by done. apply Hr.
Qed.

End Results.

(** ** Assignments *)

Lemma uses_of_app (k : Z) (l : list AssignmentUse) (u : AssignmentUse) :
  Z.of_nat (length (uses_of k (l ++ [u])))
  = Z.of_nat (length (uses_of k l)) + (if use_AssignmentID u =? k then 1 else 0).
Proof.
  unfold uses_of. rewrite List.filter_app, length_app. simpl. case_match; simpl; lia.
Qed.

Lemma uses_of_none (k : Z) (l : list AssignmentUse) :
  (forall u, u ∈ l -> use_AssignmentID u <> k) -> uses_of k l = [].
Proof.
  induction l as [|u l IH]; intros Hu; [done|]. unfold uses_of. simpl.
  rewrite (proj2 (Z.eqb_neq _ _)) by (apply Hu; left). apply IH. intros. apply Hu. by right.
Qed.

Section Quota.
Context (asg : gmap Z DispatcherAssignment) (uses : list AssignmentUse) (Hq : quota_inv asg uses).

Lemma quota_assigned (g : DispatcherAssignment) :
  asg !! asg_ID g = None -> asg_UsedInvocations g = 0 -> 0 < asg_MaxInvocations (asg_Scope g) ->
  (forall k g', asg !! k = Some g' -> asg_Status g' = AssignmentActive ->
     asg_target g' <> asg_target g) ->
  quota_inv (<[asg_ID g := g]> asg) uses.
Proof.
  destruct Hq as [Ha Hu Ho]. intros Hf H0 Hm Ht. split.
  - intros k h Hk. lookups; [|eauto]. rewrite uses_of_none; [simpl; split_and!; [done|lia..]|].
    intros u Hin Heq. destruct (Hu u Hin) as [x Hx]. congruence.
  - intros u Hin. apply lookup_insert_is_Some'. right. eauto.
  - intros k k' h h' Hk Hk' Hs Hs' Heq. lookups; try done; [..|by eapply Ho].
    + by destruct (Ht k h).
    + by destruct (Ht k' h').
Qed.

Lemma quota_withdrawn (g g' : DispatcherAssignment) :
  asg !! asg_ID g = Some g -> asg_ID g' = asg_ID g -> asg_Scope g' = asg_Scope g ->
  asg_UsedInvocations g' = asg_UsedInvocations g -> asg_Status g' <> AssignmentActive ->
  quota_inv (<[asg_ID g := g']> asg) uses.
Proof.
  destruct Hq as [Ha Hu Ho]. intros Hrow Hid Hsc Hus Hst. split.
  - intros k h Hk. lookups; [|eauto]. destruct (Ha _ g Hrow) as (? & ? & ? & _).
    rewrite Hsc, Hus. split_and!; done.
  - intros u Hin. apply lookup_insert_is_Some'. right. eauto.
  - intros k k' h h' Hk Hk' Hs Hs' Heq. lookups; try done. by eapply Ho.
Qed.

Lemma quota_used (g g' : DispatcherAssignment) (u : AssignmentUse) :
  asg !! asg_ID g = Some g -> asg_ID g' = asg_ID g -> asg_Scope g' = asg_Scope g ->
  asg_Status g = AssignmentActive -> asg_UsedInvocations g < asg_MaxInvocations (asg_Scope g) ->
  asg_UsedInvocations g' = asg_UsedInvocations g + 1 ->
  (asg_Status g' = AssignmentActive ->
   asg_UsedInvocations g' < asg_MaxInvocations (asg_Scope g)) ->
  use_AssignmentID u = asg_ID g ->
  quota_inv (<[asg_ID g := g']> asg) (uses ++ [u]).
Proof.
  destruct Hq as [Ha Hu Ho]. intros Hrow Hid Hsc Hact Hlt Hus Hst Huse. split.
  - intros k h Hk. rewrite uses_of_app, Huse. lookups.
    + rewrite Z.eqb_refl. destruct (Ha _ g Hrow) as (? & He & ? & _). rewrite Hsc.
      split_and!; [done|lia..|done].
    + rewrite (proj2 (Z.eqb_neq _ _)), Z.add_0_r by done. eauto.
  - intros v Hin. apply elem_of_app in Hin as [Hin|Hin%list_elem_of_singleton].
    + apply lookup_insert_is_Some'. right. eauto.
    + subst v. rewrite Huse, lookup_insert_eq. by eexists.
  - assert (Ht : asg_target g' = asg_target g) by (unfold asg_target; by rewrite Hsc).
    intros k k' h h' Hk Hk' Hs Hs' Heq. lookups; try done.
    + eapply (Ho _ _ h g); [done..|congruence].
    + eapply (Ho _ _ g h'); [done..|congruence].
    + by eapply Ho.
Qed.

End Quota.

(** ** Challenges *)

Section Identity.
Context (chal : gmap Z Challenge) (asr : list AssertionRow) (Hi : identity_inv chal asr).

Lemma open_spec (ch : Challenge) :
  challenge_open ch = true <-> chal_ConsumedAt ch = None /\ chal_InvalidatedAt ch = None.
Proof.
  unfold challenge_open. destruct (chal_ConsumedAt ch), (chal_InvalidatedAt ch); simpl; naive_solver.
Qed.

(** A proof's challenge is not open. *)
Lemma proofs_closed (s : AssertionRow) (ch : Challenge) :
  s ∈ asr -> chal !! assertion_ChallengeID s = Some ch -> challenge_open ch = false.
Proof.
  intros Hs Hc. destruct (ii_proofs _ _ Hi s Hs) as (ch' & Hc' & [t Ht] & _).
  rewrite Hc in Hc'. injection Hc' as <-. apply not_true_iff_false. rewrite open_spec. naive_solver.
Qed.

Lemma identity_challenged (ch : Challenge) :
  chal !! chal_ID ch = None ->
  (forall k ch', chal !! k = Some ch' ->
     scope_InvocationID (chal_Scope ch') = scope_InvocationID (chal_Scope ch) ->
     challenge_open ch' = false) ->
  identity_inv (<[chal_ID ch := ch]> chal) asr.
Proof.
  destruct Hi as [Hc Ho Hp H1 H2]. intros Hf Hno. split; [| | |done..].
  - intros k c Hk. lookups; eauto.
  - intros k k' c c' Hk Hk' Hop Hop' Heq. lookups; try done; eauto.
    + rewrite (Hno k c) in Hop; done.
    + rewrite (Hno k' c') in Hop'; [done..|]. congruence.
  - intros s Hs. destruct (Hp s Hs) as (c & Hk & ?). exists c.
    rewrite lookup_insert_ne; [done|]. congruence.
Qed.

(** Closing an open challenge of the same scope. *)
Lemma identity_closed (ch ch' : Challenge) :
  chal !! chal_ID ch = Some ch -> challenge_open ch = true -> challenge_open ch' = false ->
  chal_ID ch' = chal_ID ch -> identity_inv (<[chal_ID ch := ch']> chal) asr.
Proof.
  intros Hrow Hopen Hcl Hid. pose proof proofs_closed as Hpc.
  destruct Hi as [Hc Ho Hp H1 H2]. split; [| | |done..].
  - intros k c Hk. lookups; [congruence|eauto].
  - intros k k' c c' Hk Hk' Hop Hop' Heq. lookups; try congruence; eauto.
  - intros s Hs. destruct (Hp s Hs) as (c & Hk & ?). exists c.
    rewrite lookup_insert_ne; [done|]. intros Heq.
    rewrite Heq in Hrow. by rewrite (Hpc s ch Hs Hrow) in Hopen.
Qed.

Lemma identity_proved (ch ch' : Challenge) (s : AssertionRow) :
  identity_inv (<[chal_ID ch := ch']> chal) asr ->
  is_Some (chal_ConsumedAt ch') -> chal_InvalidatedAt ch' = None ->
  chal_PayloadHash ch' = assertion_PayloadHash s ->
  scope_InvocationID (chal_Scope ch') = assertion_InvocationID s ->
  assertion_ChallengeID s = chal_ID ch ->
  (forall s', s' ∈ asr -> assertion_ChallengeID s' <> chal_ID ch) ->
  (forall s', s' ∈ asr -> proof_key s' <> proof_key s) ->
  identity_inv (<[chal_ID ch := ch']> chal) (asr ++ [s]).
Proof.
  intros [Hc Ho Hp H1 H2] Hcons Hval Hpay Hsc Hch Hn1 Hn2. split; [done..| | |].
  - intros t Ht. apply elem_of_app in Ht as [Ht|Ht%list_elem_of_singleton]; [eauto|]. subst t.
    exists ch'. rewrite Hch, lookup_insert_eq. done.
  - rewrite fmap_app. apply NoDup_app. split_and!; [done| |apply NoDup_singleton].
    intros x Hx Hx'. apply list_elem_of_singleton in Hx' as ->. simpl in Hx.
    apply list_elem_of_fmap in Hx as (s' & Heq & Hin). destruct (Hn1 s' Hin). congruence.
  - rewrite fmap_app. apply NoDup_app. split_and!; [done| |apply NoDup_singleton].
    intros x Hx Hx'. apply list_elem_of_singleton in Hx' as ->. simpl in Hx.
    apply list_elem_of_fmap in Hx as (s' & Heq & Hin). destruct (Hn2 s' Hin). congruence.
Qed.

End Identity.

(** ** What stands behind the requests *)

Record extends (c c' : Core) : Prop := {
  ex_att : forall k a, co_att c !! k = Some a ->
    exists a', co_att c' !! k = Some a' /\ att_invocation a' = att_invocation a;
  ex_evals : forall v, v ∈ co_evals c -> v ∈ co_evals c';
  ex_asr : forall s, s ∈ co_asr c -> s ∈ co_asr c' }.

Lemma backed_extends (c c' : Core) (r : ProviderRequestRow) :
  extends c c' -> backed c r -> backed c' r.
Proof.
  intros [Ha He Hs] ((a & Hk & Hi) & (v & Hv & ?) & (s & Hin & ?)). split_and!.
  - destruct (Ha _ _ Hk) as (a' & ? & ?). exists a'. split; congruence.
  - exists v. auto.
  - exists s. auto.
Qed.

Lemma atts_insert (m : gmap Z DispatchAttempt) (k : Z) (a : DispatchAttempt) :
  (forall b, m !! k = Some b -> att_invocation a = att_invocation b) ->
  forall k' b, m !! k' = Some b ->
  exists b', <[k := a]> m !! k' = Some b' /\ att_invocation b' = att_invocation b.
Proof.
  intros Hs k' b Hb. destruct (decide (k = k')) as [->|Hne].
  - exists a. rewrite lookup_insert_eq. auto.
  - exists b. rewrite lookup_insert_ne by done. auto.
Qed.

(** The steps only add evidence. *)
Lemma step_extends (c c' : Core) : dispatch_inv c -> dispatch_step c c' -> extends c c'.
Proof.
  intros Hinv [].
  all: try match goal with H : claims _ _ _ _ |- _ => destruct H end.
  all: try match goal with H : sends _ _ _ _ _ _ _ _ _ _ |- _ => destruct H end.
  all: split; simpl; intros; try (apply elem_of_app; by left); try done; eauto.
  all: try (eapply atts_insert; [|done]; simpl; intros b Hb; try congruence).
  all: match goal with H : same_attempt_row _ _ |- _ => destruct H as [Hid Hc] end.
  all: unfold att_invocation; rewrite Hc; congruence.
Qed.

(** ** The steps keep the invariant *)

Section Steps.
Context (c : Core) (Hinv : dispatch_inv c).

Lemma fresh_unsent (i : Z) :
  co_inv c !! i = None -> forall r, r ∈ co_reqs c -> request_InvocationID r <> i.
Proof.
  intros Hf r Hr Heq. destruct (di_backed c Hinv r Hr) as ((a & Ha & Hi) & _).
  destruct (li_att _ _ (di_life c Hinv) _ _ Ha) as [_ [j Hj]]. congruence.
Qed.

Lemma row_not (i : Invocation) (s : InvocationStatus) :
  co_inv c !! inv_ID i = Some i -> inv_Status i <> s ->
  forall j, co_inv c !! inv_ID i = Some j -> inv_Status j <> s.
Proof. intros Hi Hs j Hj. congruence. Qed.

Lemma claim_step (i i' : Invocation) (a : DispatchAttempt) :
  claims c i i' a ->
  life_inv (<[inv_ID i' := i']> (co_inv c)) (<[datt_ID a := a]> (co_att c))
  /\ sent_inv (<[inv_ID i' := i']> (co_inv c)) (co_reqs c)
  /\ result_inv (<[inv_ID i' := i']> (co_inv c)) (co_res c).
Proof.
  destruct Hinv as [Hl Hs _ _ _ Hr _]. intros []. destruct cl_same as [Hid _]. split_and!.
  - by eapply life_claimed.
  - eapply sent_update; try done; rewrite ?cl_requested, ?cl_claimed; done.
  - apply result_update; [done|by rewrite cl_claimed|]. rewrite Hid. apply row_not; [done|].
    by rewrite cl_requested.
Qed.

Lemma move_step (i i' : Invocation) (a a' : DispatchAttempt) :
  co_inv c !! inv_ID i = Some i -> co_att c !! datt_ID a = Some a -> att_invocation a = inv_ID i ->
  running (inv_Status i) = Some (datt_Status a) -> same_invocation i i' -> same_attempt_row a a' ->
  move (inv_Status i) (inv_Status i') (datt_Status a') ->
  life_inv (<[inv_ID i' := i']> (co_inv c)) (<[datt_ID a' := a']> (co_att c))
  /\ sent_inv (<[inv_ID i' := i']> (co_inv c)) (co_reqs c).
Proof.
  destruct Hinv as [Hl Hs _ _ _ _ _]. intros Hrow Hat Hof Hrun Hi Ha Hm. split.
  - eapply life_pair; try done. by eapply move_pair.
  - destruct Hi as [Hid _]. destruct (move_sent _ _ _ Hm). by eapply sent_update.
Qed.

Lemma send_step (i i' : Invocation) (a a' : DispatchAttempt) (g g' : DispatcherAssignment)
    (v : EvaluationRow) (u : AssignmentUse) (r : ProviderRequestRow) :
  sends c i i' a a' g g' v u r ->
  life_inv (<[inv_ID i' := i']> (co_inv c)) (<[datt_ID a' := a']> (co_att c))
  /\ sent_inv (<[inv_ID i' := i']> (co_inv c)) (co_reqs c ++ [r])
  /\ use_key <$> (co_uses c ++ [u]) = request_key <$> (co_reqs c ++ [r])
  /\ quota_inv (<[asg_ID g := g']> (co_asg c)) (co_uses c ++ [u])
  /\ result_inv (<[inv_ID i' := i']> (co_inv c)) (co_res c).
Proof.
  destruct Hinv as [Hl Hs Hu _ Hq Hr _]. intros [].
  destruct sn_request as (Hri & Hra & Hru & Hre), sn_use as (Hua & Hui & Hut),
    sn_same_assignment as [Hgi Hgs]. split_and!.
  - eapply life_pair; try done; rewrite ?sn_claimed, ?sn_holds, ?sn_sent, ?sn_started; auto.
  - destruct sn_same as [Hid _]. eapply sent_send; try done. by rewrite sn_claimed.
  - rewrite !fmap_app, Hu. simpl. do 2 f_equal. unfold use_key, request_key.
    by rewrite Hri, Hra, Hru, Hui, Hut.
  - eapply quota_used; try done. intros Hst. rewrite sn_exhausted in Hst.
    destruct (Z.leb_spec (asg_MaxInvocations (asg_Scope g)) (asg_UsedInvocations g')); [done|lia].
  - destruct sn_same as [Hid _]. apply result_update; [done|by rewrite sn_sent|].
    rewrite Hid. apply row_not; [done|]. by rewrite sn_claimed.
Qed.

Lemma send_backed (i i' : Invocation) (a a' : DispatchAttempt) (g g' : DispatcherAssignment)
    (v : EvaluationRow) (u : AssignmentUse) (r : ProviderRequestRow) (c' : Core) :
  sends c i i' a a' g g' v u r -> extends c c' -> v ∈ co_evals c' -> backed c' r.
Proof.
  intros [] [Ha He Hs] Hv. destruct sn_request as (Hri & Hra & Hru & Hre),
    sn_allowed as (? & ? & ? & ?), sn_proved as (s & Hin & Hsi & ? & ? & ?). split_and!.
  - destruct (Ha _ _ sn_attempt) as (b & ? & ?). exists b. split; congruence.
  - exists v. split_and!; congruence.
  - exists s. split_and!; [by apply Hs|congruence..].
Qed.

End Steps.

(** A challenge consumed by a proof. *)
Lemma proved_step (c : Core) (i : Invocation) (a : DispatchAttempt) (ch ch' : Challenge)
    (s : AssertionRow) :
  dispatch_inv c -> proves c i a ch ch' s ->
  identity_inv (<[chal_ID ch := ch']> (co_chal c)) (co_asr c ++ [s]).
Proof.
  intros Hinv []. destruct pr_consumed as [t ->].
  assert (Hn : chal_InvalidatedAt ch = None) by (by apply open_spec in pr_open as [_ ?]).
  apply identity_proved; try done.
  - apply identity_closed; try done. apply di_identity, Hinv.
  - simpl. by rewrite pr_for, pr_invocation.
Qed.

Lemma dropped_life (c : Core) (i i' : Invocation) :
  dispatch_inv c -> co_inv c !! inv_ID i = Some i -> same_invocation i i' ->
  inv_Status i' = inv_Status i
  \/ inv_Status i = InvocationRequested /\ inv_Status i' = InvocationCancelled ->
  life_inv (<[inv_ID i' := i']> (co_inv c)) (co_att c)
  /\ sent_inv (<[inv_ID i' := i']> (co_inv c)) (co_reqs c).
Proof.
  intros [Hl Hs _ _ _ _ _] Hrow [Hid _] Hst. split.
  - eapply life_alone; try done. by destruct Hst as [->|[-> ->]].
  - eapply sent_update; try done; by destruct Hst as [->|[-> ->]].
Qed.

(** The requests of a state are still backed after a step that adds none. *)
Lemma backed_kept (c c' : Core) :
  dispatch_inv c -> extends c c' -> co_reqs c' = co_reqs c ->
  forall r, r ∈ co_reqs c' -> backed c' r.
Proof. intros Hinv Hex -> r Hr. by apply (backed_extends c), di_backed. Qed.

(** Neither the old nor the new row has a result. *)
Lemma result_moved (c : Core) (i i' : Invocation) :
  dispatch_inv c -> co_inv c !! inv_ID i = Some i -> same_invocation i i' ->
  inv_Status i <> InvocationSucceeded -> inv_Status i' <> InvocationSucceeded ->
  result_inv (<[inv_ID i' := i']> (co_inv c)) (co_res c).
Proof.
  intros Hinv Hrow [Hid _] Hs Hs'. apply result_update; [by apply di_results|done|].
  rewrite Hid. by apply row_not.
Qed.

#[local] Hint Resolve di_life di_sent di_uses di_quota di_results di_identity : core.

(** Every step keeps the invariant. *)
Lemma step_inv (c c' : Core) : dispatch_inv c -> dispatch_step c c' -> dispatch_inv c'.
Proof.
  intros Hinv Hstep. pose proof (step_extends c c' Hinv Hstep) as Hex.
  pose proof (backed_kept c c' Hinv Hex) as Hb. destruct Hstep; split; simpl in *; auto.
  all: try match goal with H : claims _ _ _ _ |- _ =>
    destruct (claim_step c Hinv _ _ _ H) as (? & ? & ?); done end.
  all: try match goal with H : sends _ _ _ _ _ _ _ _ _ _ |- _ =>
    destruct (send_step c Hinv _ _ _ _ _ _ _ _ _ H) as (? & ? & ? & ? & ?); done end.
  all: try match goal with H : move _ _ _ |- _ =>
    eapply (move_step c Hinv) in H as Hm; [|done..]; destruct Hm as [? ?]; done end.
  all: try match goal with H : proves _ _ _ _ _ _ |- _ => by eapply proved_step end.
  all: try match goal with Hs : same_invocation _ _ |- life_inv _ _ =>
    eapply dropped_life in Hs as [? ?]; [done..|auto] end.
  all: try match goal with Hs : same_invocation _ _ |- sent_inv _ _ =>
    eapply dropped_life in Hs as [? ?]; [done..|auto] end.
  - apply life_created; [auto|done|]. by rewrite H0.
  - apply sent_created; [auto|done|]. by apply fresh_unsent.
  - apply result_update; [auto|by rewrite H0|]. intros j Hj. congruence.
  - intros r' [Hr'|Hr'%list_elem_of_singleton]%elem_of_app.
    + by eapply backed_extends, di_backed.
    + subst r'. eapply send_backed; [done..|]. simpl. apply elem_of_app. right. left.
  - apply result_moved with i; auto. intros Hs. by rewrite Hs in H2.
  - destruct H3 as [Hid _]. rewrite <- Hid. apply result_succeed; auto.
  - apply result_moved with i; auto; intros Hs; congruence.
  - apply result_moved with i; auto; intros Hs; [|rewrite H2 in Hs]; by rewrite Hs in H0.
  - apply quota_assigned; auto.
  - apply quota_withdrawn; auto. intros Hs. rewrite Hs in H4. by set_solver.
  - apply identity_challenged; auto.
  - apply identity_closed; auto. unfold challenge_open. simpl. by rewrite andb_false_r.
Qed.

Lemma steps_inv (c c' : Core) : dispatch_inv c -> dispatch_steps c c' -> dispatch_inv c'.
Proof. intros Hc Hs. induction Hs; eauto using step_inv. Qed.
