(* ===== verification/DispatchRun.v ===== *)
(** * Runs of the statements on model calls

    What each statement of the model runtime's stores does to the tables of
    DispatchSpec.v.  A statement is quiet when it leaves them alone. *)

From stdpp Require Import base tactics list gmap strings pretty sorting.
From Stdlib Require Import ZArith Lia.
From S2P Require Import Prelude GoLib TaskDomain Database DispatchDB Egress Routing.
From S2P Require Import InvocationStore Claims PreSend Outcomes Assignments DispatchSpec.

Local Open Scope Z_scope.

Arguments core : simpl never.

(** ** Quiet statements *)

Definition quiet {A} (m : Disp A) : Prop :=
  forall w r w', m w = (r, w') -> core (dw_db w') = core (dw_db w).

Create HintDb quiet.

Section Quiet.
Context `{Env}.

Lemma quiet_ret {A} (a : A) : quiet (ret a).
Proof. intros w r w' Hm. unfold ret in Hm. naive_solver. Qed.

Lemma quiet_throw {A} (e : DispatchError) : quiet (@throw _ _ A e).
Proof. intros w r w' Hm. unfold throw in Hm. naive_solver. Qed.

Lemma quiet_lift {A} (x : result DispatchError A) : quiet (lift x).
Proof. intros w r w' Hm. unfold lift in Hm. naive_solver. Qed.

Lemma quiet_bind {A B} (m : Disp A) (f : A -> Disp B) :
  quiet m -> (forall a, quiet (f a)) -> quiet (bind m f).
Proof.
  intros Hm Hf w r w' H1. unfold bind in H1. destruct (m w) as [[a|e] w1] eqn:Hw.
  - apply Hf in H1. rewrite H1. by eapply Hm.
  - injection H1 as _ <-. by eapply Hm.
Qed.

Lemma quiet_throwIf (b : bool) (e : DispatchError) : quiet (throwIf b e).
Proof. unfold throwIf. destruct b; [apply quiet_throw|apply quiet_ret]. Qed.

Lemma quiet_get : quiet dp_get.
Proof. intros w r w' Hm. unfold dp_get in Hm. naive_solver. Qed.

Lemma quiet_clock : quiet dp_clock.
Proof. intros w r w' Hm. unfold dp_clock in Hm. naive_solver. Qed.

Lemma quiet_now : quiet dp_now.
Proof. intros w r w' Hm. unfold dp_now in Hm. naive_solver. Qed.

Lemma quiet_nextval (t : dispatch_table) : quiet (dp_nextval t).
Proof. intros w r w' Hm. unfold dp_nextval in Hm. naive_solver. Qed.

Lemma quiet_random : quiet dp_random.
Proof. intros w r w' Hm. unfold dp_random in Hm. naive_solver. Qed.

Lemma quiet_modify (f : DispatchDB -> DispatchDB) :
  (forall d, core (f d) = core d) -> quiet (dp_modify f).
Proof. intros Hf w r w' Hm. unfold dp_modify in Hm. injection Hm as _ <-. apply Hf. Qed.

Lemma quiet_row {A} (o : option A) : quiet (dp_row o).
Proof. destruct o; [apply quiet_ret|apply quiet_throw]. Qed.

Lemma quiet_dispatch_row {A} (o : option A) : quiet (dispatch_row o).
Proof. destruct o; [apply quiet_ret|apply quiet_throw]. Qed.

End Quiet.

#[export] Hint Resolve quiet_ret quiet_throw quiet_lift quiet_throwIf quiet_get quiet_clock
  quiet_now quiet_nextval quiet_random quiet_row quiet_dispatch_row : quiet.
#[export] Hint Unfold dp_check dp_unique dp_foreign_key dispatch_check : quiet.

Ltac quiet_steps :=
  repeat first
    [ apply quiet_bind; [|intros ?]
    | apply quiet_modify; intros; reflexivity
    | solve [eauto with quiet]
    | match goal with |- quiet (match ?x with _ => _ end) => destruct x end
    | match goal with |- quiet ((fun _ => _) _) => cbv beta end
    | match goal with |- quiet (let _ := _ in _) => cbv zeta end ].

Section QuietStatements.
Context `{Env}.

Lemma quiet_audit (row : AuditRow) : quiet (insert_audit_row row).
Proof. unfold insert_audit_row. quiet_steps. Qed.
Lemma quiet_outbox (row : OutboxMessage) : quiet (insert_outbox_message row).
Proof. unfold insert_outbox_message. quiet_steps. Qed.
#[local] Hint Resolve quiet_audit quiet_outbox : quiet.

Lemma quiet_event i t ty actor ob max x : quiet (appendInvocationEvent i t ty actor ob max x).
Proof. unfold appendInvocationEvent. quiet_steps. Qed.
#[local] Hint Resolve quiet_event : quiet.

Lemma quiet_holder i t a max x : quiet (holder_event i t a max x).
Proof. apply quiet_event. Qed.
Lemma quiet_system i t b max x : quiet (system_event i t b max x).
Proof. apply quiet_event. Qed.
Lemma quiet_presend_audit t e : quiet (insertAudit t e).
Proof. apply quiet_audit. Qed.
Lemma quiet_consumed t pin e used max s :
  quiet (insertAssignmentConsumedAudit t pin e used max s).
Proof. apply quiet_audit. Qed.
Lemma quiet_assignment_audit t a r x : quiet (insertAssignmentAudit t a r x).
Proof. apply quiet_audit. Qed.
Lemma quiet_deny e : quiet (deny_audits e).
Proof. unfold deny_audits, insertAudit. quiet_steps. Qed.
Lemma quiet_input i m : quiet (insertModelInput i m).
Proof. unfold insertModelInput, dp_check, dp_unique, dp_foreign_key. quiet_steps. Qed.

Lemma quiet_capacity key o i a out f : quiet (applyCapacityFeedback key o i a out f).
Proof. unfold applyCapacityFeedback, dp_check. quiet_steps. Qed.
#[local] Hint Resolve quiet_capacity : quiet.
Lemma quiet_outcome i a o p : quiet (insertProviderOutcome i a o p).
Proof. unfold insertProviderOutcome, dp_check, dp_unique. quiet_steps. Qed.
Lemma quiet_recovered u : quiet (insertRecoveredUsage u).
Proof. unfold insertRecoveredUsage, dp_check, dp_foreign_key. quiet_steps. Qed.
Lemma quiet_reasoning i a s : quiet (insert_reasoning i a s).
Proof. unfold insert_reasoning, dp_check. quiet_steps. Qed.
Lemma quiet_usage i a u : quiet (insert_usage i a u).
Proof. unfold insert_usage, dp_check, dp_unique, dp_foreign_key. quiet_steps. Qed.
Lemma quiet_raw a c : quiet (attach_raw_content a c).
Proof. unfold attach_raw_content. quiet_steps. Qed.

End QuietStatements.

#[export] Hint Resolve quiet_audit quiet_outbox quiet_event quiet_holder quiet_system
  quiet_presend_audit quiet_consumed quiet_assignment_audit quiet_deny quiet_input quiet_outcome
  quiet_recovered quiet_reasoning quiet_usage quiet_raw : quiet.

(** ** Statements on the tables *)

Definition set_inv (k : Z) (i : Invocation) (c : Core) : Core :=
  mkCore (<[k := i]> (co_inv c)) (co_att c) (co_asg c) (co_uses c) (co_reqs c) (co_evals c)
    (co_res c) (co_chal c) (co_asr c).
Definition set_att (k : Z) (a : DispatchAttempt) (c : Core) : Core :=
  mkCore (co_inv c) (<[k := a]> (co_att c)) (co_asg c) (co_uses c) (co_reqs c) (co_evals c)
    (co_res c) (co_chal c) (co_asr c).

(** [next H w1 H1] takes the first statement off the run [H]. *)
Ltac next H w1 H1 :=
  let r := fresh "r" in
  apply bind_ok in H as (r & w1 & H1 & H).

(** [calm H] takes a quiet statement off the run [H] and rewrites what is known of the tables
    after it into what was known before. *)
Ltac calm H :=
  let r := fresh "r" in
  let w1 := fresh "wq" in
  let H1 := fresh "Hq" in
  apply bind_ok in H as (r & w1 & H1 & H);
  match type of H1 with ?m _ = _ =>
    let Q := fresh in
    assert (Q : quiet m) by (solve [eauto with quiet | quiet_steps]);
    apply Q in H1; clear Q
  end.

(** Reads and checks leave the world itself. *)
Ltac see H H1 :=
  let r := fresh "r" in
  let w1 := fresh "wq" in
  apply bind_ok in H as (r & w1 & H1 & H);
  match type of H1 with
  | dp_get _ = _ => apply dp_get_ok in H1 as [-> ->]
  | throwIf _ _ _ = _ => apply throwIf_ok in H1 as [H1 ->]
  | dp_row _ _ = _ => apply dp_row_ok in H1 as [H1 ->]
  | dp_check _ _ = _ => apply dp_check_ok in H1 as [H1 ->]
  | dp_unique _ _ = _ => apply dp_unique_ok in H1 as [H1 ->]
  | dp_foreign_key _ _ = _ => apply dp_foreign_key_ok in H1 as [H1 ->]
  | dispatch_check _ _ = _ => apply throwIf_ok in H1 as [H1 ->]
  | lift _ _ = _ => apply lift_ok in H1 as [H1 ->]
  end.

Section Statements.
Context `{Env}.

Lemma dp_tx_run {A} (fn : Disp A) (w w' : DispatchWorld) (r : result DispatchError A) :
  dp_tx fn w = (r, w') ->
  (exists a w0, r = Ok a /\ dw_db w0 = dw_db w /\ fn w0 = (Ok a, w'))
  \/ (exists e, r = Err e) /\ dw_db w' = dw_db w.
Proof.
  unfold dp_tx. set (w0 := mkDispatchWorld _ _ _ _ _). destruct (fn w0) as [[a|e] w1] eqn:Hf.
  - intros [= <- <-]. left. by exists a, w0.
  - intros [= <- <-]. right. split; [by eexists|done].
Qed.

Lemma dp_tx_ok {A} (fn : Disp A) (w w' : DispatchWorld) (a : A) :
  dp_tx fn w = (Ok a, w') -> exists w0, dw_db w0 = dw_db w /\ fn w0 = (Ok a, w').
Proof.
  intros [(a' & w0 & [= <-] & ? & ?)|[(e & He) _]]%dp_tx_run; [by exists w0|done].
Qed.

Lemma update_invocation_ok id cond f (o : option Invocation) (w w' : DispatchWorld) :
  update_invocation id cond f w = (Ok o, w') ->
  match o with
  | Some i' => exists i, co_inv (core (dw_db w)) !! id = Some i /\ cond i = true /\ i' = f i
      /\ core (dw_db w') = set_inv id i' (core (dw_db w))
  | None => w' = w
  end.
Proof.
  unfold update_invocation. intros Hm. see Hm Hg.
  destruct (md_invocations (dw_db w) !! id) as [i|] eqn:Hi; [|by apply ret_ok in Hm as [-> ->]].
  destruct (cond i) eqn:Hc; [|by apply ret_ok in Hm as [-> ->]].
  see Hm Hk. next Hm w1 H1. apply dp_modify_ok in H1 as ->. apply ret_ok in Hm as [-> ->].
  by exists i.
Qed.

Lemma update_dispatch_ok id cond f (o : option DispatchAttempt) (w w' : DispatchWorld) :
  update_dispatch id cond f w = (Ok o, w') ->
  match o with
  | Some a' => exists a, co_att (core (dw_db w)) !! id = Some a /\ cond a = true /\ a' = f a
      /\ core (dw_db w') = set_att id a' (core (dw_db w))
  | None => w' = w /\ forall a, co_att (core (dw_db w)) !! id = Some a -> cond a = false
  end.
Proof.
  unfold update_dispatch. intros Hm. see Hm Hg.
  destruct (md_attempts (dw_db w) !! id) as [a|] eqn:Ha.
  2: { apply ret_ok in Hm as [-> ->]. split; [done|]. intros a Ha'. unfold core in Ha'. simpl in Ha'.
       congruence. }
  destruct (cond a) eqn:Hc.
  2: { apply ret_ok in Hm as [-> ->]. split; [done|]. intros b Hb. unfold core in Hb. simpl in Hb.
       congruence. }
  see Hm Hk. next Hm w1 H1. apply dp_modify_ok in H1 as ->. apply ret_ok in Hm as [-> ->].
  by exists a.
Qed.

(** An unconditional update of a row that is there. *)
Lemma update_dispatch_any id f (o : option DispatchAttempt) (a : DispatchAttempt)
    (w w' : DispatchWorld) :
  co_att (core (dw_db w)) !! id = Some a -> update_dispatch id any_row f w = (Ok o, w') ->
  o = Some (f a) /\ core (dw_db w') = set_att id (f a) (core (dw_db w)).
Proof.
  intros Ha Hm. apply update_dispatch_ok in Hm. destruct o as [a'|].
  - destruct Hm as (b & Hb & _ & -> & Hc). by simplify_eq.
  - destruct Hm as [_ Hm]. by specialize (Hm a Ha).
Qed.

Lemma finish_dispatch_ok id st safety cl code (a : DispatchAttempt) (u : unit)
    (w w' : DispatchWorld) :
  co_att (core (dw_db w)) !! id = Some a ->
  finish_dispatch id st safety cl code w = (Ok u, w') ->
  exists t, core (dw_db w') = set_att id (attempt_finished st safety cl code t a) (core (dw_db w)).
Proof.
  unfold finish_dispatch. intros Ha Hm. calm Hm. rewrite <- Hq in Ha. next Hm w1 H1.
  apply (update_dispatch_any _ _ _ a) in H1 as [_ H1]; [|done]. apply ret_ok in Hm as [_ ->].
  exists r. by rewrite H1, Hq.
Qed.

Lemma end_invocation_ok id cond st code (i' : Invocation) (w w' : DispatchWorld) :
  end_invocation id cond st code w = (Ok i', w') ->
  exists i t t', co_inv (core (dw_db w)) !! id = Some i /\ cond i = true
    /\ i' = invocation_ended st code t t' i
    /\ core (dw_db w') = set_inv id i' (core (dw_db w)).
Proof.
  unfold end_invocation. intros Hm. calm Hm. calm Hm. next Hm w1 H1. apply dp_row_ok in Hm as [-> ->].
  apply update_invocation_ok in H1 as (i & Hi & Hc & -> & Hw). rewrite Hq0, Hq in Hi, Hw.
  by exists i, r, r0.
Qed.

Lemma select_invocation_ok id (i : Invocation) (w w' : DispatchWorld) :
  select_invocation id w = (Ok i, w') ->
  co_inv (core (dw_db w)) !! id = Some i /\ w' = w.
Proof. unfold select_invocation. intros Hm. see Hm Hg. by apply dp_row_ok in Hm. Qed.

Lemma verifyToken_ok id token (a : DispatchAttempt) (w w' : DispatchWorld) :
  verifyToken id token w = (Ok a, w') ->
  w' = w /\ co_att (core (dw_db w)) !! id = Some a /\ att_token a = env_sha256_hex token.
Proof.
  unfold verifyToken. intros Hm. see Hm Hg.
  destruct (md_attempts (dw_db w) !! id) as [b|] eqn:Hb; [|by apply throw_ok in Hm].
  case_bool_decide; [|by apply throw_ok in Hm]. apply ret_ok in Hm as [-> ->]. done.
Qed.

Lemma held_attempt_ok inv id token ok (a : DispatchAttempt) (w w' : DispatchWorld) :
  held_attempt inv id token ok w = (Ok a, w') ->
  w' = w /\ co_att (core (dw_db w)) !! id = Some a /\ att_token a = env_sha256_hex token
  /\ att_invocation a = inv /\ ok a = true.
Proof.
  unfold held_attempt. intros Hm. next Hm w1 H1. apply verifyToken_ok in H1 as (-> & Ha & Ht).
  see Hm Hk. apply ret_ok in Hm as [-> ->]. apply orb_false_iff in Hk as [Hi Ho].
  apply negb_false_iff in Hi, Ho. apply Z.eqb_eq in Hi. done.
Qed.

Lemma update_assignment_ok id cond f (o : option DispatcherAssignment) (w w' : DispatchWorld) :
  update_assignment id cond f w = (Ok o, w') ->
  match o with
  | Some g' => exists g, co_asg (core (dw_db w)) !! id = Some g /\ cond g = true /\ g' = f g
      /\ core (dw_db w') = put_asg (<[id := g']> (co_asg (core (dw_db w)))) (core (dw_db w))
  | None => w' = w
  end.
Proof.
  unfold update_assignment. intros Hm. see Hm Hg.
  destruct (md_assignments (dw_db w) !! id) as [g|] eqn:Hi; [|by apply ret_ok in Hm as [-> ->]].
  destruct (cond g) eqn:Hc; [|by apply ret_ok in Hm as [-> ->]].
  see Hm Hk. next Hm w1 H1. apply dp_modify_ok in H1 as ->. apply ret_ok in Hm as [-> ->].
  by exists g.
Qed.

Lemma requireOneRow_ok {A} (o : option A) e (u : unit) (w w' : DispatchWorld) :
  requireOneRow o e w = (Ok u, w') -> w' = w /\ exists a, o = Some a.
Proof.
  unfold requireOneRow. intros [Hb ->]%throwIf_ok. split; [done|]. destruct o; [by eexists|done].
Qed.

End Statements.

(** ** Calls that fail *)

(** A failure leaves the tables of the machine as they were. *)
Definition rolls_back {A} (m : Disp A) : Prop := forall w e w',
  m w = (Err e, w') -> core (dw_db w') = core (dw_db w).

Section Failures.
Context `{Env}.

Lemma rolls_tx {A} (m : Disp A) : rolls_back (dp_tx m).
Proof. intros w e w' [(a & w0 & [=] & _)|[_ Hd]]%dp_tx_run. by rewrite Hd. Qed.

Lemma rolls_after {A B} (m : Disp A) (f : A -> Disp B) :
  quiet m -> (forall a, rolls_back (f a)) -> rolls_back (bind m f).
Proof.
  intros Hq Hf w e w' Hm. unfold bind in Hm. destruct (m w) as [[a|e'] w1] eqn:Hw.
  - apply Hq in Hw. apply Hf in Hm. congruence.
  - injection Hm as _ <-. by eapply Hq.
Qed.

Lemma rolls_before {A B} (m : Disp A) (f : A -> B) :
  rolls_back m -> rolls_back (let! a := m in ret (f a)).
Proof.
  intros Hr w e w' Hm. unfold bind in Hm. destruct (m w) as [[a|e'] w1] eqn:Hw; [done|].
  injection Hm as _ <-. by eapply Hr.
Qed.

End Failures.
