(* ===== verification/DispatchRefine.v ===== *)
(** * The stores implement the machine of model calls

    Every method of the model runtime's stores that writes, on every branch,
    takes the tables by steps of DispatchSpec.v. *)

From stdpp Require Import base tactics list gmap strings pretty sorting.
From Stdlib Require Import ZArith Lia.
From S2P Require Import Prelude GoLib TaskDomain Database DispatchDB Egress Routing.
From S2P Require Import InvocationStore Claims PreSend Outcomes Assignments DispatchSpec.
From S2P Require Import DispatchInvariant DispatchRun.

Local Open Scope Z_scope.

(** A method refines the machine whatever its result; the body of a transaction when it
    succeeds. *)
Definition refines {A} (m : Disp A) : Prop := forall w r w',
  dispatch_inv (core (dw_db w)) -> m w = (r, w') ->
  dispatch_steps (core (dw_db w)) (core (dw_db w')).

Definition tx_refines {A} (m : Disp A) : Prop := forall w a w',
  dispatch_inv (core (dw_db w)) -> m w = (Ok a, w') ->
  dispatch_steps (core (dw_db w)) (core (dw_db w')).

Section Rules.
Context `{Env}.

Lemma refines_tx {A} (m : Disp A) : tx_refines m -> refines (dp_tx m).
Proof.
  intros Hm w r w' Hinv [(a & w0 & -> & Hd & Hw)|[_ Hd]]%dp_tx_run.
  - rewrite <- Hd in *. by eapply Hm.
  - by rewrite Hd.
Qed.

Lemma refines_after {A B} (m : Disp A) (f : A -> Disp B) :
  quiet m -> (forall a, refines (f a)) -> refines (bind m f).
Proof.
  intros Hq Hf w r w' Hinv Hm. unfold bind in Hm. destruct (m w) as [[a|e] w1] eqn:Hw.
  - apply Hq in Hw. rewrite <- Hw in *. by eapply Hf.
  - injection Hm as _ <-. apply Hq in Hw. by rewrite Hw.
Qed.

Lemma refines_quiet {A} (m : Disp A) : quiet m -> refines m.
Proof. intros Hq w r w' _ Hm. apply Hq in Hm. by rewrite Hm. Qed.

End Rules.

(** ** Steps from rows *)

Section Moves.
Context (c : Core) (Hinv : dispatch_inv c).

(** The active attempt of an invocation is the one its status asks for. *)
Lemma running_row (id : Z) (i : Invocation) (a : DispatchAttempt) :
  co_inv c !! id = Some i -> co_att c !! datt_ID a = Some a -> att_invocation a = id ->
  attempt_active a = true -> inv_ID i = id /\ running (inv_Status i) = Some (datt_Status a).
Proof.
  intros Hi Ha Hof Hact. pose proof (di_life c Hinv) as Hl. split; [by apply (li_inv _ _ Hl)|].
  eapply (li_active _ _ Hl); [done..|]. by rewrite Hof.
Qed.

Lemma moved_step (id aid : Z) (i i' : Invocation) (a a' : DispatchAttempt) :
  co_inv c !! id = Some i -> co_att c !! aid = Some a -> att_invocation a = id ->
  attempt_active a = true -> same_invocation i i' -> same_attempt_row a a' ->
  (running (inv_Status i) = Some (datt_Status a) ->
   move (inv_Status i) (inv_Status i') (datt_Status a')) ->
  inv_Status i' <> InvocationSucceeded ->
  dispatch_step c (set_inv id i' (set_att aid a' c)).
Proof.
  intros Hi Ha Hof Hact Hsi Hsa Hm Hn.
  destruct (li_att _ _ (di_life c Hinv) _ _ Ha) as [<- _].
  destruct (running_row id i a Hi Ha Hof Hact) as [<- Hr].
  pose proof (Moved c i i' a a' Hi Ha Hof Hr Hsi Hsa (Hm Hr) Hn) as Hs.
  destruct Hsi as [Hid _], Hsa as [Haid _]. unfold put_inv_att in Hs. by rewrite Hid, Haid in Hs.
Qed.

End Moves.

Lemma is_attempt_spec (s : DispatchStatus) (a : DispatchAttempt) :
  is_attempt s a = true <-> datt_Status a = s.
Proof. apply bool_decide_eq_true. Qed.
Lemma is_invocation_spec (s : InvocationStatus) (i : Invocation) :
  is_invocation s i = true <-> inv_Status i = s.
Proof. apply bool_decide_eq_true. Qed.

(** The tables of the latest world, in what is known of the first. *)
Ltac catch_up Hinv Ha :=
  repeat match goal with
  | Hq : core (dw_db _) = core (dw_db ?w0) |- core (dw_db ?w0) = _ -> _ => idtac
  | Hq : core (dw_db ?w1) = core (dw_db ?w0) |- dispatch_steps (core (dw_db ?w0)) _ =>
      rewrite <- Hq in Hinv, Ha |- *; clear Hq
  end.

(** The tables of the last world, in terms of earlier ones. *)
Ltac settled :=
  repeat match goal with
  | E : core (dw_db ?w) = _ |- context [core (dw_db ?w)] => rewrite E; clear E
  end.

Section Methods.
Context `{Env} (Verify : string -> string -> string -> bool) (BuildSHA : string)
  (ValidJSON : string -> bool) (DecodeInput : string -> option ModelInput).

(** ** Ends of a call *)

(** The shape the ends share: the attempt [a] is finished, then the invocation. *)
Lemma ends (w w1 w2 : DispatchWorld) (id aid : Z) (a : DispatchAttempt) st safety cl code
    (u : unit) cond st' code' (i' : Invocation) :
  dispatch_inv (core (dw_db w)) ->
  co_att (core (dw_db w)) !! aid = Some a -> att_invocation a = id -> attempt_active a = true ->
  finish_dispatch (datt_ID a) st safety cl code w = (Ok u, w1) ->
  end_invocation id cond st' code' w1 = (Ok i', w2) ->
  (forall s, running s = Some (datt_Status a) -> move s st' st) -> st' <> InvocationSucceeded ->
  dispatch_steps (core (dw_db w)) (core (dw_db w2)).
Proof.
  intros Hinv Ha Hof Hact Hf He Hm Hn.
  destruct (li_att _ _ (di_life _ Hinv) _ _ Ha) as [Haid _]. rewrite Haid in Hf.
  eapply finish_dispatch_ok in Hf as (t & Hf); [|done].
  apply end_invocation_ok in He as (i & t1 & t2 & Hi & _ & -> & Hc). rewrite Hf in Hi, Hc.
  rewrite Hc. apply rtc_once. eapply moved_step; try done. simpl. apply Hm.
Qed.

Lemma claimed_ok (a : DispatchAttempt) (st : DispatchStatus) (st' : InvocationStatus) :
  is_attempt DispatchClaimed a = true ->
  move InvocationClaimed st' st ->
  attempt_active a = true /\ forall s, running s = Some (datt_Status a) -> move s st' st.
Proof.
  intros Ha%is_attempt_spec Hm. split; [unfold attempt_active; by rewrite Ha|].
  intros s. rewrite Ha. by destruct s.
Qed.

Lemma started_ok (a : DispatchAttempt) (st : DispatchStatus) (st' : InvocationStatus) :
  is_attempt DispatchSendStarted a = true ->
  move InvocationSendStarted st' st ->
  attempt_active a = true /\ forall s, running s = Some (datt_Status a) -> move s st' st.
Proof.
  intros Ha%is_attempt_spec Hm. split; [unfold attempt_active; by rewrite Ha|].
  intros s. rewrite Ha. by destruct s.
Qed.

Lemma received_ok (a : DispatchAttempt) (st : DispatchStatus) (st' : InvocationStatus) :
  is_attempt DispatchResponseReceived a = true ->
  move InvocationResponseReceived st' st ->
  attempt_active a = true /\ forall s, running s = Some (datt_Status a) -> move s st' st.
Proof.
  intros Ha%is_attempt_spec Hm. split; [unfold attempt_active; by rewrite Ha|].
  intros s. rewrite Ha. by destruct s.
Qed.

(** A run that holds an attempt, ends it with its invocation, and is otherwise quiet. *)
Ltac call_ends ok :=
  let w := fresh "w" in
  let w1 := fresh "w1" in
  let w2 := fresh "w2" in
  let w3 := fresh "w3" in
  let H1 := fresh "H1" in
  let H2 := fresh "H2" in
  let H3 := fresh "H3" in
  let Hinv := fresh "Hinv" in
  let Hm := fresh "Hm" in
  let Ha := fresh "Ha" in
  let Hof := fresh "Hof" in
  let Ho := fresh "Ho" in
  intros w ? ? Hinv Hm;
  next Hm w1 H1; apply held_attempt_ok in H1 as (-> & Ha & _ & Hof & Ho);
  repeat calm Hm; catch_up Hinv Ha;
  next Hm w2 H2; next Hm w3 H3; calm Hm; apply ret_ok in Hm as [_ ->];
  match goal with Hq : core (dw_db ?w1) = core (dw_db ?w0) |- _ => rewrite Hq end;
  eapply ok in Ho as [? ?]; [by eapply ends; [..|exact H2|exact H3| |]|constructor].

Lemma FailBeforeSend_refines c max : refines (FailBeforeSend c max).
Proof.
  unfold FailBeforeSend. apply refines_after; [eauto with quiet|]. intros []. apply refines_tx.
  call_ends claimed_ok.
Qed.

Lemma FailAfterResponse_refines c max : refines (FailAfterResponse c max).
Proof. apply refines_tx. call_ends received_ok. Qed.

Lemma MarkAmbiguous_refines c t max : refines (MarkAmbiguous c t max).
Proof.
  unfold MarkAmbiguous. apply refines_after; [eauto with quiet|]. intros []. apply refines_tx.
  call_ends started_ok.
Qed.

Lemma FailCommittedBeforeRequest_refines c o max : refines (FailCommittedBeforeRequest c o max).
Proof.
  unfold FailCommittedBeforeRequest. apply refines_after; [eauto with quiet|]. intros [].
  apply refines_tx. call_ends started_ok.
Qed.

(** An attempt and its invocation updated by statements of their own. *)
Lemma moves_both (w w1 w2 : DispatchWorld) (id aid : Z) (a a' : DispatchAttempt)
    (i i' : Invocation) (o : option DispatchAttempt) f :
  dispatch_inv (core (dw_db w)) ->
  co_att (core (dw_db w)) !! aid = Some a -> att_invocation a = id -> attempt_active a = true ->
  update_dispatch aid any_row f w = (Ok o, w1) ->
  co_inv (core (dw_db w1)) !! id = Some i ->
  core (dw_db w2) = set_inv id i' (core (dw_db w1)) ->
  f a = a' -> same_attempt_row a a' -> same_invocation i i' ->
  (running (inv_Status i) = Some (datt_Status a) ->
   move (inv_Status i) (inv_Status i') (datt_Status a')) ->
  inv_Status i' <> InvocationSucceeded ->
  dispatch_steps (core (dw_db w)) (core (dw_db w2)).
Proof.
  intros Hinv Ha Hof Hact Hu Hi Hc <- Hsa Hsi Hm Hn.
  eapply update_dispatch_any in Hu as [_ Hu]; [|done]. rewrite Hu in Hi, Hc. rewrite Hc.
  apply rtc_once. by eapply moved_step.
Qed.

Lemma RejectProviderResponse_refines c o max : refines (RejectProviderResponse c o max).
Proof.
  unfold RejectProviderResponse. apply refines_after; [eauto with quiet|]. intros [].
  apply refines_tx. intros w r w' Hinv Hm.
  next Hm w1 H1. apply held_attempt_ok in H1 as (-> & Ha & _ & Hof & Ho%is_attempt_spec).
  destruct (li_att _ _ (di_life _ Hinv) _ _ Ha) as [Haid _].
  calm Hm. calm Hm. calm Hm. calm Hm. catch_up Hinv Ha. next Hm w2 H2. next Hm w3 H3. calm Hm.
  apply ret_ok in Hm as [_ ->]. rewrite Hq. rewrite Haid in H2.
  apply end_invocation_ok in H3 as (i & t1 & t2 & Hi & Hs%is_invocation_spec & -> & Hc).
  eapply moves_both; try done.
  - unfold attempt_active. by rewrite Ho.
  - intros _. rewrite Hs. constructor.
Qed.

Lemma MarkResponseReceived_refines id aid token o :
  refines (MarkResponseReceived id aid token o).
Proof.
  apply refines_tx. intros w r w' Hinv Hm.
  next Hm w1 H1. apply held_attempt_ok in H1 as (-> & Ha & _ & Hof & Ho%is_attempt_spec).
  calm Hm. calm Hm. calm Hm. catch_up Hinv Ha. next Hm w2 H2. calm Hm. next Hm w3 H3.
  apply dp_row_ok in Hm as [-> ->]. apply update_invocation_ok in H3 as (i & Hi & Hs & -> & Hc).
  rewrite Hq in Hi, Hc. apply is_invocation_spec in Hs.
  eapply moves_both; try done.
  - unfold attempt_active. by rewrite Ho.
  - intros _. rewrite Hs. constructor.
Qed.

Lemma MarkCancelled_refines c max : refines (MarkCancelled c max).
Proof.
  apply refines_tx. intros w r w' Hinv Hm.
  next Hm w1 H1. apply held_attempt_ok in H1 as (-> & Ha & _ & Hof & Ho).
  next Hm w2 H2. apply select_invocation_ok in H2 as [_ ->].
  calm Hm. calm Hm. calm Hm. catch_up Hinv Ha. next Hm w3 H3. next Hm w4 H4. calm Hm.
  apply ret_ok in Hm as [_ ->]. rewrite Hq.
  apply orb_true_iff in Ho as [Ho|Ho]; [eapply started_ok in Ho as [? ?]; [|constructor]
                                       |eapply received_ok in Ho as [? ?]; [|constructor]];
    by eapply ends.
Qed.

(** ** CompleteInvocation *)

(** The row of a result: the output of the mode it has. *)
Definition stores_result (r row : InvocationResult) : Prop :=
  result_OutputMode row = result_OutputMode r
  /\ (result_OutputMode r = OutputText ->
      result_TextOutput row = result_TextOutput r /\ result_JSONOutput row = EmptyString)
  /\ (result_OutputMode r <> OutputText ->
      result_TextOutput row = EmptyString /\ result_JSONOutput row = result_JSONOutput r)
  /\ result_ToolIntents row = result_ToolIntents r
  /\ result_ResponseHash row = result_ResponseHash r
  /\ result_ResponseBytes row = result_ResponseBytes r.

Lemma insert_result_ok i a r (row : InvocationResult) (w w' : DispatchWorld) :
  insert_result ValidJSON i a r w = (Ok row, w') ->
  result_InvocationID row = inv_ID i /\ result_DispatchAttemptID row = datt_ID a
  /\ stores_result r row
  /\ core (dw_db w') = put_res (inv_ID i) row (core (dw_db w)).
Proof.
  unfold insert_result. intros Hm. calm Hm. calm Hm. see Hm Hj. see Hm Hc. see Hm Hg. see Hm Hu.
  see Hm Hf. next Hm w1 H1. apply dp_modify_ok in H1 as ->. apply ret_ok in Hm as [-> ->].
  split_and!; [done|done| |by rewrite <- Hq, <- Hq0].
  unfold stores_result. simpl. by split_and!; intros; try case_decide.
Qed.

Lemma CompleteInvocation_refines c max : refines (CompleteInvocation ValidJSON c max).
Proof.
  unfold CompleteInvocation. apply refines_after; [eauto with quiet|]. intros []. apply refines_tx.
  intros w r w' Hinv Hm.
  apply bind_ok in Hm as (a & w1 & H1 & Hm). apply held_attempt_ok in H1 as (-> & Ha & _ & Hof & Ho%is_attempt_spec).
  apply bind_ok in Hm as (i & w1 & H1 & Hm). apply select_invocation_ok in H1 as [Hi ->].
  see Hm Hst. see Hm Hmode. apply bind_ok in Hm as (row & w2 & H2 & Hm). calm Hm. calm Hm. next Hm w3 H3. next Hm w4 H4. calm Hm.
  apply ret_ok in Hm as [_ ->].
  apply insert_result_ok in H2 as (Hr1 & Hr2 & [Hr3 _] & H2).
  rewrite negb_false_iff, is_invocation_spec in Hst.
  rewrite negb_false_iff, bool_decide_eq_true in Hmode.
  destruct (li_att _ _ (di_life _ Hinv) _ _ Ha) as [Haid _].
  pose proof (li_inv _ _ (di_life _ Hinv) _ _ Hi) as Hiid. rewrite Haid in H3.
  eapply (finish_dispatch_ok _ _ _ _ _ a) in H3 as (t & H3); [|by rewrite Hq0, Hq, H2].
  apply end_invocation_ok in H4 as (j & t1 & t2 & Hj & _ & -> & Hc).
  rewrite Hq1, Hc, H3, Hq0, Hq, H2. rewrite H3, Hq0, Hq, H2 in Hj. cbn in Hj.
  rewrite Hiid, Hi in Hj. injection Hj as <-.
  apply rtc_once. rewrite Hiid.
  assert (Hrun : running (inv_Status i) = Some (datt_Status a)) by (by rewrite Hst, Ho).
  pose proof (Succeeded (core (dw_db w)) i
    (invocation_ended InvocationSucceeded EmptyString t1 t2 i) a
    (attempt_finished DispatchCompleted RetryNotRetryable "succeeded" (datt_ErrorCode a) t a) row)
    as Hstep.
  unfold put_res, put_inv_att in Hstep. cbn in Hstep. rewrite Hiid, Haid in Hstep.
  apply Hstep; try done; try congruence. rewrite Hst. constructor.
Qed.

(** The answer [v] of a call is what the tables keep of it and what the caller is told. *)
Record keeps_answer (v : NormalizedResponse) (r : DispatchResult) (c : Core) : Prop := {
  ka_succeeded : inv_Status (dres_Invocation r) = InvocationSucceeded;
  ka_mode : result_OutputMode (nresp_Result v) = inv_OutputMode (inv_Columns (dres_Invocation r));
  ka_invocation : co_inv c !! inv_ID (dres_Invocation r) = Some (dres_Invocation r);
  ka_result : exists row, co_res c !! inv_ID (dres_Invocation r) = Some row
    /\ result_InvocationID row = inv_ID (dres_Invocation r) /\ stores_result (nresp_Result v) row
    /\ result_ID (dres_Result r) = result_ID row;
  ka_told : result_OutputMode (dres_Result r) = result_OutputMode (nresp_Result v)
    /\ result_TextOutput (dres_Result r) = result_TextOutput (nresp_Result v)
    /\ result_JSONOutput (dres_Result r) = result_JSONOutput (nresp_Result v)
    /\ result_ToolIntents (dres_Result r) = result_ToolIntents (nresp_Result v)
    /\ result_ResponseHash (dres_Result r) = result_ResponseHash (nresp_Result v)
    /\ dres_Usage r = nresp_Usage v }.

Lemma CompleteInvocation_ok c max (r : DispatchResult) (w w' : DispatchWorld) :
  dispatch_inv (core (dw_db w)) -> CompleteInvocation ValidJSON c max w = (Ok r, w') ->
  inv_ID (dres_Invocation r) = comp_InvocationID c
  /\ keeps_answer (comp_Response c) r (core (dw_db w')).
Proof.
  intros Hinv Hm. unfold CompleteInvocation in Hm. see Hm Hscope.
  apply dp_tx_ok in Hm as (w0 & Hw0 & Hm). rewrite <- Hw0 in Hinv.
  apply bind_ok in Hm as (a & w1 & H1 & Hm). apply held_attempt_ok in H1 as (-> & Ha & _ & _ & _).
  apply bind_ok in Hm as (i & w1 & H1 & Hm). apply select_invocation_ok in H1 as [Hi ->].
  see Hm Hst. see Hm Hmode. apply bind_ok in Hm as (row & w2 & H2 & Hm). calm Hm. calm Hm.
  next Hm w3 H3. next Hm w4 H4. calm Hm. apply ret_ok in Hm as [-> Hw'].
  apply insert_result_ok in H2 as (Hr1 & _ & Hrow & H2).
  rewrite negb_false_iff, bool_decide_eq_true in Hmode.
  destruct (li_att _ _ (di_life _ Hinv) _ _ Ha) as [Haid _].
  pose proof (li_inv _ _ (di_life _ Hinv) _ _ Hi) as Hiid. rewrite Haid in H3.
  eapply (finish_dispatch_ok _ _ _ _ _ a) in H3 as (t & H3); [|by rewrite Hq0, Hq, H2].
  apply end_invocation_ok in H4 as (j & t1 & t2 & Hj & _ & -> & Hc).
  rewrite H3, Hq0, Hq, H2 in Hj. cbn in Hj. rewrite Hiid, Hi in Hj. injection Hj as <-.
  cbn [dres_Invocation dres_Result dres_Usage]. split; [done|].
  assert (Hend : core (dw_db w')
    = set_inv (inv_ID i) (invocation_ended InvocationSucceeded EmptyString t1 t2 i)
        (set_att (comp_DispatchAttemptID c) (attempt_finished DispatchCompleted RetryNotRetryable
           "succeeded" (datt_ErrorCode a) t a) (put_res (inv_ID i) row (core (dw_db w0))))).
  { by rewrite Hw', Hq1, Hc, H3, Hq0, Hq, H2. }
  rewrite Hend. split; try done; cbn.
  - apply lookup_insert_eq.
  - exists row. split; [apply lookup_insert_eq|]. split_and!; done.
Qed.

(** The invocation that was answered is the one that was asked for. *)
Lemma MarkResponseReceived_ok id aid token o (j : Invocation) (w w' : DispatchWorld) :
  dispatch_inv (core (dw_db w)) -> MarkResponseReceived id aid token o w = (Ok j, w') -> inv_ID j = id.
Proof.
  intros Hinv Hm. unfold MarkResponseReceived in Hm. apply dp_tx_ok in Hm as (w0 & Hw0 & Hm).
  rewrite <- Hw0 in Hinv. next Hm w1 H1. apply held_attempt_ok in H1 as (-> & Ha & _ & Hof & Ho).
  calm Hm. calm Hm. calm Hm. next Hm w2 H2. calm Hm. next Hm w3 H3.
  apply dp_row_ok in Hm as [-> _]. apply update_invocation_ok in H3 as (i & Hi & _ & -> & _).
  eapply (update_dispatch_any _ _ _ r) in H2 as [_ H2]; [|by rewrite Hq1, Hq0, Hq].
  rewrite Hq2, H2, Hq1, Hq0, Hq in Hi. cbn in Hi. by apply (li_inv _ _ (di_life _ Hinv)) in Hi.
Qed.

(** ** Creation and cancellation *)

Lemma insert_invocation_ok c (o : option Invocation) (w w' : DispatchWorld) :
  insert_invocation c w = (Ok o, w') ->
  match o with
  | Some i => co_inv (core (dw_db w)) !! inv_ID i = None /\ inv_Status i = InvocationRequested
      /\ inv_Columns i = c /\ inv_CancelRequestedAt i = None
      /\ core (dw_db w') = put_inv i (core (dw_db w))
  | None => core (dw_db w') = core (dw_db w)
  end.
Proof.
  unfold insert_invocation. intros Hm. calm Hm. calm Hm. see Hm Hc. see Hm Hg. case_bool_decide.
  - apply ret_ok in Hm as [-> ->]. by rewrite Hq0, Hq.
  - see Hm Hu. see Hm Hf. next Hm w1 H1. apply dp_modify_ok in H1 as ->. apply ret_ok in Hm as [-> ->].
    rewrite <- Hq, <- Hq0. simpl. split_and!; try done. apply negb_true_iff in Hu. unfold taken in Hu.
    unfold core. simpl. by destruct (_ !! _).
Qed.

Lemma quiet_model_input id : quiet (getModelInput DecodeInput id).
Proof. unfold getModelInput. quiet_steps. Qed.
#[local] Hint Resolve quiet_model_input : quiet.

Lemma CreateInvocation_refines p max : refines (CreateInvocation DecodeInput p max).
Proof.
  apply refines_tx. intros w r w' Hinv Hm.
  apply bind_ok in Hm as (o & w1 & H1 & Hm). apply insert_invocation_ok in H1.
  destruct o as [i|].
  - destruct H1 as (Hf & Hs & _ & _ & Hc). calm Hm. calm Hm. apply ret_ok in Hm as [_ ->].
    rewrite Hq0, Hq, Hc. by apply rtc_once, Created.
  - repeat calm Hm. apply ret_ok in Hm as [_ ->]. settled. done.
Qed.

Lemma cancel_now_ok id code (i' : Invocation) (w w' : DispatchWorld) :
  cancel_now id code w = (Ok i', w') ->
  exists i, co_inv (core (dw_db w)) !! id = Some i /\ same_invocation i i'
    /\ inv_Status i' = InvocationCancelled
    /\ core (dw_db w') = set_inv id i' (core (dw_db w)).
Proof.
  unfold cancel_now. intros Hm. calm Hm. calm Hm. calm Hm. next Hm w1 H1.
  apply dp_row_ok in Hm as [-> ->].
  apply update_invocation_ok in H1 as (i & Hi & _ & -> & Hc). rewrite Hq1, Hq0, Hq in Hi, Hc.
  by exists i.
Qed.

Lemma flag_cancellation_ok id (i' : Invocation) (w w' : DispatchWorld) :
  flag_cancellation id w = (Ok i', w') ->
  exists i, co_inv (core (dw_db w)) !! id = Some i /\ same_invocation i i'
    /\ inv_Status i' = inv_Status i
    /\ core (dw_db w') = set_inv id i' (core (dw_db w)).
Proof.
  unfold flag_cancellation. intros Hm. calm Hm. calm Hm. next Hm w1 H1.
  apply dp_row_ok in Hm as [-> ->].
  apply update_invocation_ok in H1 as (i & Hi & _ & -> & Hc). rewrite Hq0, Hq in Hi, Hc.
  by exists i.
Qed.

Lemma set_put (c : Core) (id : Z) (i i' : Invocation) :
  dispatch_inv c -> co_inv c !! id = Some i -> same_invocation i i' -> set_inv id i' c = put_inv i' c.
Proof.
  intros Hinv Hi [Hid _]. pose proof (li_inv _ _ (di_life _ Hinv) _ _ Hi) as Hk.
  unfold put_inv, set_inv. by rewrite Hid, Hk.
Qed.

Lemma alone_step (c : Core) (id : Z) (i i' : Invocation) :
  dispatch_inv c -> co_inv c !! id = Some i -> same_invocation i i' ->
  (inv_Status i = InvocationRequested /\ inv_Status i' = InvocationCancelled
   \/ ProviderExecutionMayHaveStarted (inv_Status i) = true /\ inv_Status i' = inv_Status i) ->
  dispatch_step c (set_inv id i' c).
Proof.
  intros Hinv Hi Hs Hor. rewrite (set_put c id i i') by done.
  pose proof (li_inv _ _ (di_life _ Hinv) _ _ Hi) as <-.
  destruct Hor as [[? ?]|[? ?]]; [by eapply Dropped|by eapply Flagged].
Qed.

Lemma head_rows {A} (p : A -> bool) (t : gmap Z A) (a : A) :
  head (rows p t) = Some a -> exists k, t !! k = Some a /\ p a = true.
Proof.
  intros Hh. apply rows_spec. destruct (rows p t); [done|]. injection Hh as ->. left.
Qed.

Lemma RequestCancellation_refines id actor reason max :
  refines (RequestCancellation id actor reason max).
Proof.
  unfold RequestCancellation. apply refines_after; [eauto with quiet|]. intros []. apply refines_tx.
  intros w r w' Hinv Hm. apply bind_ok in Hm as (i & w1 & H1 & Hm).
  apply select_invocation_ok in H1 as [Hi ->]. destruct (inv_Status i) eqn:Hst.
  all: try (apply ret_ok in Hm as [_ ->]; done).
  - next Hm w2 H2. calm Hm. apply ret_ok in Hm as [_ ->]. rewrite Hq.
    apply cancel_now_ok in H2 as (j & Hj & Hs & Hc & ->). simplify_eq.
    apply rtc_once. eapply alone_step; [done..|]. by left.
  - see Hm Hg. apply bind_ok in Hm as (a & w1 & H1 & Hm). apply dp_row_ok in H1 as [Ha ->].
    apply head_rows in Ha as (k & Ha & [Hof%Z.eqb_eq Hs%is_attempt_spec]%andb_true_iff).
    destruct (li_att _ _ (di_life _ Hinv) k a Ha) as [Haid _].
    next Hm w2 H2. next Hm w3 H3. calm Hm. apply ret_ok in Hm as [_ ->]. rewrite Hq.
    rewrite Haid in H2. eapply finish_dispatch_ok in H2 as (t & H2); [|done].
    apply cancel_now_ok in H3 as (j & Hj & Hsame & Hc & ->). rewrite H2 in Hj |- *.
    apply rtc_once. eapply moved_step; try done.
    + unfold attempt_active. by rewrite Hs.
    + intros Hr. rewrite Hc. rewrite Hs in Hr. destruct (inv_Status j); try done. constructor.
    + by rewrite Hc.
  - next Hm w2 H2. apply ret_ok in Hm as [_ ->].
    apply flag_cancellation_ok in H2 as (j & Hj & Hs & Hc & ->). simplify_eq.
    apply rtc_once. eapply alone_step; [done..|]. right. split; [by rewrite Hst|done].
  - next Hm w2 H2. apply ret_ok in Hm as [_ ->].
    apply flag_cancellation_ok in H2 as (j & Hj & Hs & Hc & ->). simplify_eq.
    apply rtc_once. eapply alone_step; [done..|]. right. split; [by rewrite Hst|done].
Qed.

End Methods.

(** ** Claims, challenges and assignments implement the machine

    The methods of claims.go, challenges.go, assignments.go and reconcile.go,
    and the two transactions of presend.go, take the tables by steps of
    DispatchSpec.v. *)


Lemma negb_orb_false (b b' : bool) : (negb b || negb b') = false <-> b = true /\ b' = true.
Proof. destruct b, b'; simpl; naive_solver. Qed.

Section Claim.
Context `{Env} (Verify : string -> string -> string -> bool) (BuildSHA : string).

Lemma quiet_token : quiet newClaimToken.
Proof. unfold newClaimToken. quiet_steps. Qed.

(** ** The attempt *)

Lemma lockedClaimable_ok id principal config (i : Invocation) (w w' : DispatchWorld) :
  lockedClaimableInvocation id principal config w = (Ok i, w') ->
  dw_db w' = dw_db w
  /\ co_inv (core (dw_db w)) !! id = Some i /\ inv_Status i = InvocationRequested
  /\ (forall p, inv_ExecutionPrincipalID (inv_Columns i) = Some p -> p = principal).
Proof.
  unfold lockedClaimableInvocation. intros Hm. apply bind_ok in Hm as (j & w1 & H1 & Hm).
  apply select_invocation_ok in H1 as [Hi ->]. see Hm Hs. see Hm Hp. see Hm Hg.
  next Hm w1 H1. injection H1 as _ <-. see Hm Hc. apply ret_ok in Hm as [-> ->].
  apply negb_false_iff, is_invocation_spec in Hs. split_and!; try done. intros p Hpp. rewrite Hpp in Hp. apply negb_false_iff in Hp. lia.
Qed.

Lemma in_attempts_of (id k : Z) (a : DispatchAttempt) (d : DispatchDB) :
  md_attempts d !! k = Some a -> att_invocation a = id -> In a (attempts_of id d).
Proof. intros Hk Ho. apply list_elem_of_In, rows_spec. exists k. split; [done|lia]. Qed.

Lemma filter_nil_in {A} (f : A -> bool) (l : list A) (x : A) :
  List.filter f l = [] -> In x l -> f x = false.
Proof.
  intros Hf Hx. destruct (f x) eqn:He; [|done].
  assert (Hin : In x (List.filter f l)) by (by apply filter_In). by rewrite Hf in Hin.
Qed.

Lemma insert_claim_ok (row a : DispatchAttempt) (w w' : DispatchWorld) :
  insert_attempt row w = (Ok a, w') ->
  a = row /\ co_att (core (dw_db w)) !! datt_ID row = None
  /\ (attempt_active row = true -> no_active (att_invocation row) (core (dw_db w)))
  /\ core (dw_db w') = set_att (datt_ID row) row (core (dw_db w)).
Proof.
  unfold insert_attempt. intros Hm. see Hm Hc. see Hm Hg. see Hm Hu. see Hm Hf. next Hm w1 H1.
  apply dp_modify_ok in H1 as ->. apply ret_ok in Hm as [-> ->]. unfold attempt_unique in Hu.
  rewrite !andb_true_iff, negb_true_iff in Hu. destruct Hu as [[Ht _] Ha]. split_and!; try done.
  - unfold taken in Ht. unfold core. simpl. by destruct (_ !! _).
  - intros Hact k b Hk Ho. rewrite Hact in Ha. simpl in Ha. apply bool_decide_eq_true in Ha.
    eapply filter_nil_in; [apply Ha|]. by eapply in_attempts_of.
Qed.

Lemma createClaimAttempt_ok i by_ principal th raw config (r : ClaimedInvocation)
    (w w' : DispatchWorld) :
  co_inv (core (dw_db w)) !! inv_ID i = Some i -> inv_Status i = InvocationRequested ->
  createClaimAttempt BuildSHA i by_ principal th raw config w = (Ok r, w') ->
  claims (core (dw_db w)) i (claimed_Invocation r) (claimed_DispatchAttempt r)
  /\ datt_Identity (claimed_DispatchAttempt r) = None
  /\ att_token (claimed_DispatchAttempt r) = th /\ claimed_ClaimToken r = raw
  /\ core (dw_db w')
     = put_inv_att (claimed_Invocation r) (claimed_DispatchAttempt r) (core (dw_db w)).
Proof.
  intros Hrow Hreq Hm. unfold createClaimAttempt in Hm. see Hm Hg. calm Hm. calm Hm. calm Hm.
  apply bind_ok in Hm as (a & w1 & H1 & Hm). apply insert_claim_ok in H1 as (-> & Hf & Ha & Hc1).
  calm Hm. next Hm w3 H3. apply bind_ok in Hm as (i' & w4 & H4 & Hm). apply dp_row_ok in H4 as [-> ->].
  apply update_invocation_ok in H3 as (j & Hj & Hs & -> & Hc3). calm Hm.
  apply ret_ok in Hm as [-> ->]. rewrite Hq1, Hq0, Hq in Hf, Ha, Hc1.
  rewrite Hq2, Hc1 in Hj. cbn in Hj. rewrite Hrow in Hj. injection Hj as <-. simpl.
  split_and!; try done.
  - split; try done. apply Ha. done.
  - by rewrite Hq3, Hc3, Hq2, Hc1.
Qed.

Lemma ClaimInvocation_refines c config : refines (ClaimInvocation BuildSHA c config).
Proof.
  unfold ClaimInvocation. apply refines_after; [apply quiet_token|]. intros [raw th].
  apply refines_tx. intros w r w' Hinv Hm. apply bind_ok in Hm as (i & w1 & H1 & Hm).
  apply lockedClaimable_ok in H1 as (Hc1%(f_equal core) & Hi & Hst & _).
  see Hm Hp. pose proof (li_inv _ _ (di_life _ Hinv) _ _ Hi) as Hid. rewrite <- Hid in Hi.
  rewrite <- Hc1 in Hinv, Hi |- *.
  eapply createClaimAttempt_ok in Hm as (Hcl & Hn & _ & _ & ->); [|done..].
  apply rtc_once, (Claimed _ i); [done| |done]. by destruct (inv_ExecutionIdentityPolicyVersionID _).
Qed.

(** ** The authenticated claim *)

Lemma insert_assertion_ok (row : AssertionRow) (u : unit) (w w' : DispatchWorld) :
  insert_assertion row w = (Ok u, w') ->
  (forall s, s ∈ co_asr (core (dw_db w)) ->
     assertion_ChallengeID s <> assertion_ChallengeID row /\ proof_key s <> proof_key row)
  /\ core (dw_db w')
     = mkCore (co_inv (core (dw_db w))) (co_att (core (dw_db w))) (co_asg (core (dw_db w)))
         (co_uses (core (dw_db w))) (co_reqs (core (dw_db w))) (co_evals (core (dw_db w)))
         (co_res (core (dw_db w))) (co_chal (core (dw_db w))) (co_asr (core (dw_db w)) ++ [row]).
Proof.
  unfold insert_assertion. intros Hm. see Hm Hc. see Hm Hg. see Hm Hu. see Hm Hf.
  apply dp_modify_ok in Hm as ->. split; [|done]. intros s Hs. unfold assertion_unique in Hu.
  rewrite forallb_forall in Hu. apply list_elem_of_In, Hu in Hs.
  rewrite !andb_true_iff, !negb_true_iff in Hs. destruct Hs as [[[Hch _] _] Hk]. split; [lia|].
  unfold proof_key. intros [= Hk1 Hk2 Hk3]. rewrite Hk1, Hk2, Hk3, !Z.eqb_refl in Hk. done.
Qed.

Lemma consume_challenge_ok id (b : bool) (w w' : DispatchWorld) :
  consume_challenge id w = (Ok b, w') ->
  if b then exists ch t, co_chal (core (dw_db w)) !! id = Some ch /\ challenge_open ch = true
    /\ core (dw_db w')
       = put_chal (<[id := challenge_consumed t ch]> (co_chal (core (dw_db w)))) (core (dw_db w))
  else core (dw_db w') = core (dw_db w).
Proof.
  unfold consume_challenge. intros Hm. calm Hm. see Hm Hg.
  destruct (md_challenges (dw_db wq) !! id) as [ch|] eqn:Hch;
    [|by apply ret_ok in Hm as [-> ->]].
  destruct (challenge_open ch && _) eqn:Ho; [|by apply ret_ok in Hm as [-> ->]].
  see Hm Hk. next Hm w1 H1. apply dp_modify_ok in H1 as ->. apply ret_ok in Hm as [-> ->].
  apply andb_true_iff in Ho as [Ho _]. exists ch, r. rewrite <- Hq. done.
Qed.

Lemma select_challenge_ok id c k p (w w' : DispatchWorld) :
  select_challenge id w = (Ok (c, k, p), w') ->
  w' = w /\ co_chal (core (dw_db w)) !! id = Some c
  /\ md_keys (dw_db w) !! scope_ExecutionIdentityKeyID (chal_Scope c) = Some k
  /\ md_policies (dw_db w) !! scope_ExecutionIdentityPolicyVersionID (chal_Scope c) = Some p.
Proof.
  unfold select_challenge. intros Hm. see Hm Hg. see Hm Hc. see Hm Hk. see Hm Hp. case_match.
  - apply ret_ok in Hm as [[= -> -> ->] ->]. done.
  - by apply throw_ok in Hm.
Qed.

(** What an accepted assertion establishes. *)
Lemma check_assertion_ok c k p i a now :
  check_assertion Verify c k p i a now = Ok tt ->
  chal_ConsumedAt c = None /\ chal_InvalidatedAt c = None /\ now < chal_ExpiresAt c
  /\ key_usable k = true /\ key_in_force k now = true /\ challenge_for c i a = true
  /\ env_sha256_hex (auth_ChallengeNonce a) = chal_NonceHash c
  /\ Verify (key_PublicKey k)
       (BuildAssertionPayload (chal_Scope c) (chal_ID c) (auth_ChallengeNonce a) (chal_IssuedAt c)
          (chal_ExpiresAt c)) (auth_Signature a) = true.
Proof.
  unfold check_assertion. rewrite !check_ok, !rejectIf_ok, !negb_false_iff, !orb_false_iff.
  rewrite !negb_false_iff, !bool_decide_eq_true, Z.leb_gt.
  intros ([H1 H2] & ? & _ & ? & ? & ? & _ & ? & [_ ?] & _). split_and!; try done.
  - by destruct (chal_ConsumedAt c).
  - by destruct (chal_InvalidatedAt c).
Qed.

Lemma record_assertion_ok i c a now th raw config (r : ClaimedInvocation) (w w' : DispatchWorld) :
  dispatch_inv (core (dw_db w)) ->
  co_inv (core (dw_db w)) !! inv_ID i = Some i -> inv_Status i = InvocationRequested ->
  co_chal (core (dw_db w)) !! chal_ID c = Some c ->
  scope_InvocationID (chal_Scope c) = inv_ID i ->
  record_assertion BuildSHA i c a now th raw config w = (Ok r, w') ->
  exists ch' s,
    claims (core (dw_db w)) i (claimed_Invocation r) (claimed_DispatchAttempt r)
    /\ proves (core (dw_db w)) i (claimed_DispatchAttempt r) c ch' s
    /\ assertion_ExecutionIdentityKeyID s = auth_IdentityKeyID a
    /\ assertion_ExecutionPrincipalID s = auth_ExecutionPrincipalID a
    /\ datt_Identity (claimed_DispatchAttempt r)
       = Some (mkIdentityColumns (auth_IdentityKeyID a) (assertion_ID s) now)
    /\ core (dw_db w')
       = (let c1 := put_inv_att (claimed_Invocation r) (claimed_DispatchAttempt r)
                      (core (dw_db w)) in
          mkCore (co_inv c1) (co_att c1) (co_asg c1) (co_uses c1) (co_reqs c1) (co_evals c1)
            (co_res c1) (<[chal_ID c := ch']> (co_chal c1)) (co_asr c1 ++ [s])).
Proof.
  intros Hinv Hi Hst Hch Hfor Hm. unfold record_assertion in Hm.
  apply bind_ok in Hm as (cl & w1 & H1 & Hm).
  eapply createClaimAttempt_ok in H1 as ([] & Hn & _ & _ & Hc1); [|done..].
  calm Hm. next Hm w2 H2.
  match type of H2 with insert_assertion ?row _ = _ => set (s := row) in * end.
  apply insert_assertion_ok in H2 as [Hu Hc2].
  next Hm w3 H3. apply consume_challenge_ok in H3. see Hm Hb. apply negb_false_iff in Hb as ->.
  destruct H3 as (ch & t & Hc & Ho & Hc3).
  next Hm w4 H4. apply bind_ok in Hm as (a' & w5 & H5 & Hm). apply dp_row_ok in H5 as [-> ->].
  rewrite Hq, Hc1 in Hu, Hc2. rewrite Hc2 in Hc, Hc3. cbn in Hc, Hu, Hc3.
  rewrite Hch in Hc. injection Hc as <-.
  eapply update_dispatch_any in H4 as [Ha' Hc4].
  2: { rewrite Hc3. cbn. apply lookup_insert_eq. }
  injection Ha' as ->. calm Hm. apply ret_ok in Hm as [-> ->]. simpl.
  exists (challenge_consumed t c), s. split_and!.
  - split; try done.
  - split; try done; [by eexists|..]; intros s' Hs; by apply Hu in Hs as [? ?].
  - done.
  - done.
  - done.
  - rewrite Hq0, Hc4, Hc3. unfold set_att, put_inv_att. simpl. by rewrite insert_insert_eq.
Qed.

Lemma quiet_audit_denial {A} a (m : Disp A) (w w' : DispatchWorld) r :
  audit_denial a m w = (r, w') -> exists w1, m w = (r, w1) /\ core (dw_db w') = core (dw_db w1).
Proof.
  unfold audit_denial. destruct (m w) as [[x|e] w1].
  - intros [= <- <-]. by exists w1.
  - destruct (isIdentityClaimDenial e); intros [= <- <-]; by exists w1.
Qed.

(** What a claim that was granted proves and does. *)
Record proved_claim (d d' : DispatchDB) (a : AuthenticatedClaimCommand) (r : ClaimedInvocation)
    (i : Invocation) (c : Challenge) (k : ExecutionIdentityKey) (p : IdentityPolicy) (now : Instant)
    (ch' : Challenge) (s : AssertionRow) : Prop := {
  pc_invocation : md_invocations d !! auth_InvocationID a = Some i;
  pc_pinned : is_some (inv_ExecutionIdentityPolicyVersionID (inv_Columns i)) = true;
  pc_principal : forall q, inv_ExecutionPrincipalID (inv_Columns i) = Some q ->
    q = auth_ExecutionPrincipalID a;
  pc_challenge : md_challenges d !! auth_ChallengeID a = Some c;
  pc_key : md_keys d !! scope_ExecutionIdentityKeyID (chal_Scope c) = Some k;
  pc_policy : md_policies d !! scope_ExecutionIdentityPolicyVersionID (chal_Scope c) = Some p;
  pc_checked : check_assertion Verify c k p i a now = Ok tt;
  pc_claims : claims (core d) i (claimed_Invocation r) (claimed_DispatchAttempt r);
  pc_proves : proves (core d) i (claimed_DispatchAttempt r) c ch' s;
  pc_proof_key : proof_key s
    = (auth_IdentityKeyID a, auth_InvocationID a, auth_ExecutionPrincipalID a);
  pc_identity : datt_Identity (claimed_DispatchAttempt r)
    = Some (mkIdentityColumns (assertion_ExecutionIdentityKeyID s) (assertion_ID s) now);
  pc_after : core d'
    = (let c1 := put_inv_att (claimed_Invocation r) (claimed_DispatchAttempt r) (core d) in
       mkCore (co_inv c1) (co_att c1) (co_asg c1) (co_uses c1) (co_reqs c1) (co_evals c1)
         (co_res c1) (<[chal_ID c := ch']> (co_chal c1)) (co_asr c1 ++ [s])) }.

Lemma newClaimToken_ok (t : string * string) (w w' : DispatchWorld) :
  newClaimToken w = (Ok t, w') -> dw_db w' = dw_db w.
Proof.
  unfold newClaimToken. intros Hm. next Hm w1 H1. injection H1 as _ <-.
  destruct r; [by apply ret_ok in Hm as [_ ->]|by apply throw_ok in Hm].
Qed.

Lemma ClaimInvocationAuthenticated_ok a config (r : ClaimedInvocation) (w w' : DispatchWorld) :
  dispatch_inv (core (dw_db w)) ->
  ClaimInvocationAuthenticated Verify BuildSHA a config w = (Ok r, w') ->
  exists i c k p now ch' s, proved_claim (dw_db w) (dw_db w') a r i c k p now ch' s.
Proof.
  intros Hinv Hm. unfold ClaimInvocationAuthenticated in Hm. see Hm Hreq.
  apply bind_ok in Hm as ([raw th] & w1 & H1%newClaimToken_ok & Hd).
  unfold audit_denial in Hd. destruct (dp_tx _ w1) as [[x|e] w2] eqn:Hm; [|by case_match].
  injection Hd as -> ->. apply dp_tx_ok in Hm as (w0 & Hw0 & Hm). rewrite H1 in Hw0. clear H1 w1.
  apply bind_ok in Hm as (i & w1 & H1 & Hm).
  apply lockedClaimable_ok in H1 as (Hd1 & Hi & Hst & Hpr). rewrite Hw0 in Hd1, Hi. see Hm Hp.
  pose proof (li_inv _ _ (di_life _ Hinv) _ _ Hi) as Hid. rewrite <- Hid in Hi.
  apply bind_ok in Hm as ([[c k] p] & w2 & H2 & Hm).
  apply select_challenge_ok in H2 as (-> & Hch & Hk & Hpol). rewrite Hd1 in Hch, Hk, Hpol.
  apply bind_ok in Hm as (now & w2 & H2 & Hm). injection H2 as _ <-.
  apply bind_ok in Hm as ([] & w3 & H3 & Hm). apply lift_ok in H3 as [Hok ->].
  pose proof (ii_chal _ _ (di_identity _ Hinv) _ _ Hch) as Hcid.
  pose proof Hok as (_ & _ & _ & _ & _ & Hfor & _)%check_assertion_ok.
  unfold challenge_for in Hfor. rewrite !andb_true_iff, !Z.eqb_eq in Hfor.
  match type of Hm with record_assertion _ _ _ _ _ _ _ _ ?v = _ => assert (Hv : dw_db v = dw_db w)
    by exact Hd1 end.
  eapply record_assertion_ok in Hm as (ch' & s & Hcl & Hps & Hk1 & Hk2 & Hn & Hc);
    rewrite ?Hv; try done; [|by rewrite Hcid|tauto].
  rewrite Hv in Hcl, Hps, Hc. exists i, c, k, p, now, ch', s. rewrite Hid in Hi. split; try done.
  - by apply orb_false_iff in Hp as [Hp%negb_false_iff _].
  - unfold proof_key. rewrite Hk1, Hk2, (pr_invocation _ _ _ _ _ _ Hps), Hid. done.
  - by rewrite Hk1.
Qed.

Lemma ClaimInvocationAuthenticated_rolls_back a config :
  rolls_back (ClaimInvocationAuthenticated Verify BuildSHA a config).
Proof.
  apply rolls_after; [eauto with quiet|intros _]. apply rolls_after; [apply quiet_token|intros [raw th]].
  intros w e w' (w1 & Hm%rolls_tx & ->)%quiet_audit_denial. done.
Qed.

Lemma ClaimInvocationAuthenticated_refines a config :
  refines (ClaimInvocationAuthenticated Verify BuildSHA a config).
Proof.
  intros w [r|e] w' Hinv Hm.
  - apply ClaimInvocationAuthenticated_ok in Hm
      as (i & c & k & p & now & ch' & s & [_ _ _ _ _ _ _ Hcl Hps _ Hn ->]); [|done].
    apply rtc_once. eapply Proved; [done..|]. by eexists.
  - apply ClaimInvocationAuthenticated_rolls_back in Hm. by rewrite Hm.
Qed.

End Claim.
