(* ===== verification/PreSendRefine.v ===== *)
(** * The pre-send transactions implement the machine

    presend.go, reconcile.go, challenges.go and assignments.go take the tables
    by steps of DispatchSpec.v. *)

From stdpp Require Import base tactics list gmap strings pretty sorting.
From Stdlib Require Import ZArith Lia.
From S2P Require Import Prelude GoLib TaskDomain Database DispatchDB Egress Routing.
From S2P Require Import InvocationStore Claims PreSend Outcomes Assignments DispatchSpec.
From S2P Require Import DispatchInvariant DispatchRun DispatchRefine.

Local Open Scope Z_scope.

Section PreSend.
Context `{Env} `{Registry}.

(** ** The claim *)

Lemma select_claim_ok id aid d r :
  select_claim id aid d = Some r ->
  co_inv (core d) !! id = Some (crow_Invocation r) /\ co_att (core d) !! aid = Some (crow_Attempt r)
  /\ att_invocation (crow_Attempt r) = id
  /\ datt_Identity (crow_Attempt r) = Some (crow_Identity r)
  /\ crow_Assertion r ∈ co_asr (core d)
  /\ assertion_ID (crow_Assertion r) = datt_IdentityAssertionID (crow_Identity r).
Proof.
  unfold select_claim. rewrite bind_Some. intros (i & Hi & Hm).
  apply bind_Some in Hm as (a & Ha & Hm). apply bind_Some in Hm as (tr & _ & Hm).
  apply bind_Some in Hm as (mx & _ & Hm). apply bind_Some in Hm as (idn & Hidn & Hm).
  apply bind_Some in Hm as (s & Hs & Hm). apply bind_Some in Hm as (k & _ & Hm).
  destruct (_ && _) eqn:Hb in Hm; [|done]. injection Hm as <-. simpl.
  rewrite !andb_true_iff, Z.eqb_eq in Hb. destruct Hb as [[[Hof _] _] _].
  assert (Hin : In s (List.filter (fun r => assertion_ID r =? datt_IdentityAssertionID idn)
                        (md_assertions d))).
  { destruct (List.filter _ _); [done|]. injection Hs as ->. by left. }
  apply filter_In in Hin as [Hin He%Z.eqb_eq]. apply list_elem_of_In in Hin. done.
Qed.

Lemma check_claim_ok r e token now d pin :
  check_claim r e token now d = Ok pin ->
  inv_Status (crow_Invocation r) = InvocationClaimed
  /\ datt_Status (crow_Attempt r) = DispatchClaimed
  /\ now < datt_ClaimExpiresAt (crow_Attempt r)
  /\ att_token (crow_Attempt r) = env_sha256_hex token
  /\ pinned r = Some pin /\ assertion_Allows (crow_Assertion r) = true
  /\ identity_binding r (eval_ActionDigest e) d = true
  /\ key_usable (crow_Key r) = true /\ key_in_force (crow_Key r) now = true
  /\ evaluation_agrees r e = true.
Proof.
  unfold check_claim. rewrite check_ok_bind, rejectIf_ok, !orb_false_iff, !negb_false_iff.
  intros ([[[Hi%is_invocation_spec Ha%is_attempt_spec] Hx%Z.ltb_lt] _] & Hm).
  apply check_ok_bind in Hm as [Ht Hm].
  rewrite rejectIf_ok, negb_false_iff, bool_decide_eq_true in Ht.
  apply check_ok_bind in Hm as [_ Hm]. destruct (pinned r) as [p|]; [|done].
  apply check_ok_bind in Hm as [_ Hm]. apply check_ok_bind in Hm as [Hk Hm].
  rewrite rejectIf_ok, !orb_false_iff, !negb_false_iff, andb_true_iff in Hk.
  apply check_ok_bind in Hm as [_ Hm]. apply check_ok_bind in Hm as [He Hm].
  rewrite rejectIf_ok, negb_false_iff in He. injection Hm as ->. naive_solver.
Qed.

Lemma verifyClaim_ok e token pin (w w' : DispatchWorld) :
  verifyClaim e token w = (Ok pin, w') ->
  exists r now,
    core (dw_db w') = core (dw_db w)
    /\ select_claim (eval_InvocationID e) (eval_DispatchAttemptID e) (dw_db w) = Some r
    /\ check_claim r e token now (dw_db w) = Ok pin.
Proof.
  unfold verifyClaim. intros Hm. see Hm Hg. calm Hm. see Hm Hr. apply lift_ok in Hm as [Hm ->].
  by exists r0, r.
Qed.

(** ** Statements *)

Lemma insertEvaluation_ok e id (w w' : DispatchWorld) :
  insertEvaluation e w = (Ok id, w') ->
  ValidatePreSendEvaluation e = Ok tt
  /\ core (dw_db w') = put_eval (mkEvaluationRow id e) (core (dw_db w)).
Proof.
  unfold insertEvaluation. intros Hm. apply bind_ok in Hm as ([] & w1 & H1 & Hm).
  apply lift_ok in H1 as [Hv ->]. calm Hm. see Hm Hc. see Hm Hg. see Hm Hu. next Hm w2 H2.
  apply dp_modify_ok in H2 as ->. apply ret_ok in Hm as [-> ->]. split; [done|]. by rewrite <- Hq.
Qed.

Lemma insert_use_ok g pin e t id (w w' : DispatchWorld) :
  insert_use g pin e t w = (Ok id, w') ->
  exists u, use_ID u = id /\ use_AssignmentID u = pin_Assignment pin
    /\ use_InvocationID u = eval_InvocationID e /\ use_DispatchAttemptID u = eval_DispatchAttemptID e
    /\ core (dw_db w') = mkCore (co_inv (core (dw_db w))) (co_att (core (dw_db w)))
         (co_asg (core (dw_db w))) (co_uses (core (dw_db w)) ++ [u]) (co_reqs (core (dw_db w)))
         (co_evals (core (dw_db w))) (co_res (core (dw_db w))) (co_chal (core (dw_db w)))
         (co_asr (core (dw_db w))).
Proof.
  unfold insert_use. intros Hm. calm Hm. see Hm Hc. see Hm Hg. see Hm Hu. see Hm Hf. next Hm w1 H1.
  apply dp_modify_ok in H1 as ->. apply ret_ok in Hm as [-> ->]. rewrite <- Hq.
  eexists. split_and!; [..|reflexivity]; reflexivity.
Qed.

Lemma insertProviderRequest_ok c ev us asr (u : unit) (w w' : DispatchWorld) :
  insertProviderRequest c ev us asr w = (Ok u, w') ->
  exists r, request_InvocationID r = eval_InvocationID (allow_Evaluation c)
    /\ request_DispatchAttemptID r = eval_DispatchAttemptID (allow_Evaluation c)
    /\ request_AssignmentUseID r = us /\ request_EvaluationID r = ev
    /\ request_IdentityAssertionID r = asr
    /\ request_Evidence r = allow_ProviderRequest c /\ request_Deadline r = allow_Deadline c
    /\ core (dw_db w') = mkCore (co_inv (core (dw_db w))) (co_att (core (dw_db w)))
         (co_asg (core (dw_db w))) (co_uses (core (dw_db w))) (co_reqs (core (dw_db w)) ++ [r])
         (co_evals (core (dw_db w))) (co_res (core (dw_db w))) (co_chal (core (dw_db w)))
         (co_asr (core (dw_db w))).
Proof.
  unfold insertProviderRequest. intros Hm. calm Hm. calm Hm. see Hm Hc. see Hm Hg. see Hm Hu.
  see Hm Hf. apply dp_modify_ok in Hm as ->. rewrite <- Hq, <- Hq0.
  eexists. split_and!; [..|reflexivity]; reflexivity.
Qed.

Lemma consume_assignment_ok g pin e (u : unit) (w w' : DispatchWorld) :
  co_asg (core (dw_db w)) !! pin_Assignment pin = Some g ->
  consume_assignment g pin e w = (Ok u, w') ->
  exists g', asg_ID g' = asg_ID g /\ asg_Scope g' = asg_Scope g
    /\ asg_UsedInvocations g' = asg_UsedInvocations g + 1
    /\ asg_Status g' = (if asg_MaxInvocations (asg_Scope g) <=? asg_UsedInvocations g'
                        then AssignmentExhausted else AssignmentActive)
    /\ core (dw_db w')
       = put_asg (<[pin_Assignment pin := g']> (co_asg (core (dw_db w)))) (core (dw_db w)).
Proof.
  unfold consume_assignment. intros Hg Hm. calm Hm. calm Hm. next Hm w1 H1. next Hm w2 H2.
  apply requireOneRow_ok in H2 as (-> & g' & ->).
  apply update_assignment_ok in H1 as (g0 & Hg0 & _ & -> & Hc).
  rewrite Hq0, Hq in Hg0, Hc. rewrite Hg in Hg0. injection Hg0 as <-.
  assert (Hw : core (dw_db w') = core (dw_db w1)).
  { calm Hm. rewrite <- Hq1. destruct (_ <=? _); [by apply quiet_consumed in Hm|].
    by apply ret_ok in Hm as [_ ->]. }
  eexists. rewrite Hw, Hc. split_and!; [..|reflexivity]; reflexivity.
Qed.

Lemma mark_sent_ok c (u : unit) (w w' : DispatchWorld) :
  mark_sent c w = (Ok u, w') ->
  exists a a' i i',
    co_att (core (dw_db w)) !! eval_DispatchAttemptID (allow_Evaluation c) = Some a
    /\ co_inv (core (dw_db w)) !! eval_InvocationID (allow_Evaluation c) = Some i
    /\ same_attempt_row a a' /\ datt_Status a' = DispatchSendStarted
    /\ same_invocation i i' /\ inv_Status i' = InvocationSendStarted
    /\ inv_CancelRequestedAt i = None
    /\ core (dw_db w') = set_inv (eval_InvocationID (allow_Evaluation c)) i'
         (set_att (eval_DispatchAttemptID (allow_Evaluation c)) a' (core (dw_db w))).
Proof.
  unfold mark_sent. intros Hm. calm Hm. next Hm w1 H1. next Hm w2 H2.
  apply requireOneRow_ok in H2 as (-> & a' & ->).
  apply update_dispatch_ok in H1 as (a & Ha & _ & -> & Hc1). calm Hm. next Hm w3 H3.
  apply requireOneRow_ok in Hm as (-> & i' & ->).
  apply update_invocation_ok in H3 as (i & Hi & [_ Hn]%andb_true_iff & -> & Hc3).
  rewrite Hq in Ha, Hc1. rewrite Hq0, Hc1 in Hi, Hc3. cbn in Hi.
  eexists a, _, i, _. split_and!; [..|exact Hc3]; try done.
  by destruct (inv_CancelRequestedAt i).
Qed.

Lemma allow_effects c :
  ValidatePersistAllowCommand c = Ok tt ->
  eval_AuthorizationEffect (allow_Evaluation c) = AuthorizationAllow
  /\ eval_EgressEffect (allow_Evaluation c) = EffectAllow.
Proof.
  unfold ValidatePersistAllowCommand. rewrite !check_ok. intros (_ & He & _).
  rewrite rejectIf_ok, orb_false_iff, !negb_false_iff, !bool_decide_eq_true in He. done.
Qed.

(** ** The two transactions *)

(** The step of an allowed call, from the rows the statements met. *)
Lemma allow_step (c : Core) (w : DispatchWorld) (cmd : PersistAllowCommand) r now pin
    (i i' : Invocation) (a a' : DispatchAttempt) (g g' : DispatcherAssignment) (id : Z)
    (u : AssignmentUse) (q : ProviderRequestRow) :
  let e := allow_Evaluation cmd in
  dispatch_inv c -> core (dw_db w) = c -> ValidatePersistAllowCommand cmd = Ok tt ->
  select_claim (eval_InvocationID e) (eval_DispatchAttemptID e) (dw_db w) = Some r ->
  check_claim r e (allow_ClaimToken cmd) now (dw_db w) = Ok pin ->
  co_inv c !! eval_InvocationID e = Some i -> co_att c !! eval_DispatchAttemptID e = Some a ->
  co_asg c !! pin_Assignment pin = Some g -> asg_Status g = AssignmentActive ->
  asg_UsedInvocations g < asg_MaxInvocations (asg_Scope g) ->
  inv_CancelRequestedAt i = None ->
  same_invocation i i' -> inv_Status i' = InvocationSendStarted ->
  same_attempt_row a a' -> datt_Status a' = DispatchSendStarted ->
  asg_ID g' = asg_ID g /\ asg_Scope g' = asg_Scope g ->
  asg_UsedInvocations g' = asg_UsedInvocations g + 1 ->
  asg_Status g' = (if asg_MaxInvocations (asg_Scope g) <=? asg_UsedInvocations g'
                   then AssignmentExhausted else AssignmentActive) ->
  use_AssignmentID u = pin_Assignment pin -> use_InvocationID u = eval_InvocationID e ->
  use_DispatchAttemptID u = eval_DispatchAttemptID e ->
  request_InvocationID q = eval_InvocationID e ->
  request_DispatchAttemptID q = eval_DispatchAttemptID e ->
  request_AssignmentUseID q = use_ID u -> request_EvaluationID q = id ->
  request_IdentityAssertionID q = pin_Assertion pin ->
  sends c i i' a a' g g' (mkEvaluationRow id e) u q
  /\ inv_ID i = eval_InvocationID e /\ datt_ID a = eval_DispatchAttemptID e
  /\ asg_ID g = pin_Assignment pin.
Proof.
  intros e Hinv Hc Hv Hsel Hck Hi Ha Hg Hact Hleft Hcan Hsi Hst Hsa Hsta Hsg Hused Hexh Hu1 Hu2 Hu3
    Hq1 Hq2 Hq3 Hq4 Hq5.
  apply select_claim_ok in Hsel as (Hri & Hra & Hof & Hidn & Hasr & Hasid).
  apply check_claim_ok in Hck as (Hs1 & Hs2 & _ & _ & Hpin & Hallow & Hbind & _).
  apply allow_effects in Hv as [He1 He2]. rewrite Hc in Hri, Hra, Hasr. rewrite Hi in Hri. injection Hri as Hri.
  rewrite Ha in Hra. injection Hra as Hra. unfold pinned in Hpin.
  unfold identity_binding in Hbind. rewrite <- Hri, <- Hra in *. clear Hri Hra.
  pose proof (li_inv _ _ (di_life _ Hinv) _ _ Hi) as Hiid.
  destruct (li_att _ _ (di_life _ Hinv) _ _ Ha) as [Haid _].
  destruct (qi_asg _ _ (di_quota _ Hinv) _ _ Hg) as [Hgid _].
  destruct (inv_DispatcherAssignmentID _) as [asg|] eqn:Hpa; [|done].
  destruct (inv_ExecutionPrincipalID _); [|done]. injection Hpin as <-. simpl in *.
  rewrite !andb_true_iff, !Z.eqb_eq in Hbind.
  destruct Hbind as [[[[Hb1 Hb2] _] _] _].
  split; [|done]. split; simpl; try done; try congruence; fold e in Hiid, Haid.
  - split_and!; congruence.
  - split_and!; congruence.
  - exists (crow_Assertion r). split_and!; congruence.
Qed.

(** A call that was allowed took one step, and left its request. *)
Lemma PersistAllow_ok hostNow usedAt c (x : unit) (w w' : DispatchWorld) :
  dispatch_inv (core (dw_db w)) ->
  PersistPreSendAllowAndMarkSendStarted hostNow usedAt c w = (Ok x, w') ->
  dispatch_steps (core (dw_db w)) (core (dw_db w'))
  /\ exists q, q ∈ co_reqs (core (dw_db w'))
     /\ request_InvocationID q = eval_InvocationID (allow_Evaluation c)
     /\ request_DispatchAttemptID q = eval_DispatchAttemptID (allow_Evaluation c)
     /\ request_Evidence q = allow_ProviderRequest c
     /\ request_Deadline q = allow_Deadline c.
Proof.
  intros Hinv Hm. unfold PersistPreSendAllowAndMarkSendStarted in Hm.
  apply bind_ok in Hm as ([] & w0 & [Hv ->]%lift_ok & Hm).
  apply dp_tx_ok in Hm as (w0 & Hdb & Hm). rewrite <- Hdb in Hinv |- *.
  apply bind_ok in Hm as (pin & w1 & H1 & Hm).
  apply verifyClaim_ok in H1 as (cr & now & Hc1 & Hsel & Hck).
  apply bind_ok in Hm as (g & w2 & H2 & Hm). unfold lockAssignmentForConsume in H2. see H2 Hx.
  apply dp_row_ok in H2 as [Hg ->]. apply bind_Some in Hg as (g0 & Hg & Hgo).
  case_bool_decide; [|done]. injection Hgo as ->.
  change (md_assignments (dw_db w1)) with (co_asg (core (dw_db w1))) in Hg. rewrite Hc1 in Hg.
  see Hm Hact. see Hm Huntil. see Hm Hleft.
  apply bind_ok in Hm as (ev & w3 & H3 & Hm). apply insertEvaluation_ok in H3 as [_ Hc3].
  calm Hm. calm Hm. apply bind_ok in Hm as (us & w4 & H4 & Hm).
  apply insert_use_ok in H4 as (u & Hu0 & Hu1 & Hu2 & Hu3 & Hc4). next Hm w5 H5.
  apply (consume_assignment_ok g) in H5 as (g' & Hg1 & Hg2 & Hg3 & Hg4 & Hc5).
  2: { rewrite Hc4, Hq0, Hq, Hc3, Hc1. done. }
  next Hm w6 H6. apply insertProviderRequest_ok in H6 as (q & Hr1 & Hr2 & Hr3 & Hr4 & Hr5 & Hr6 & Hr7 & Hc6).
  next Hm w7 H7.
  apply mark_sent_ok in H7 as (a & a' & i & i' & Ha & Hi & Hsa & Hsta & Hsi & Hsti & Hcan & Hc7).
  apply quiet_presend_audit in Hm. rewrite Hm, Hc7.
  rewrite Hc6, Hc5, Hc4, Hq0, Hq, Hc3, Hc1 in Ha, Hi |- *. cbn in Ha, Hi.
  apply negb_false_iff, bool_decide_eq_true in Hact. apply Z.leb_gt in Hleft.
  edestruct (allow_step (core (dw_db w0)) w0 c cr now pin i i' a a' g g' ev u q)
    as (Hsend & Hiid & Haid & Hgid); try done; try congruence.
  split; [|exists q; cbn; by rewrite elem_of_app, list_elem_of_singleton; auto].
  apply rtc_once. pose proof (Sent _ _ _ _ _ _ _ _ _ _ Hsend) as Hstep.
  unfold put_inv_att in Hstep. cbn in Hstep.
  destruct Hsi as [Hid _], Hsa as [Hid' _]. rewrite Hid, Hid', Hiid, Haid, Hgid in Hstep. exact Hstep.
Qed.

Lemma PersistAllow_refines hostNow usedAt c :
  refines (PersistPreSendAllowAndMarkSendStarted hostNow usedAt c).
Proof.
  intros w [u|e] w' Hinv Hm; [by eapply PersistAllow_ok|].
  unfold PersistPreSendAllowAndMarkSendStarted in Hm. unfold bind at 1 in Hm. unfold lift in Hm.
  destruct (ValidatePersistAllowCommand c) as [[]|e'].
  - apply rolls_tx in Hm. by rewrite Hm.
  - by injection Hm as _ <-.
Qed.

Lemma PersistDeny_refines c : refines (PersistPreSendDenyAndFail c).
Proof.
  unfold PersistPreSendDenyAndFail. apply refines_after; [eauto with quiet|]. intros [].
  apply refines_tx. intros w r w' Hinv Hm.
  apply bind_ok in Hm as (pin & w1 & H1 & Hm).
  apply verifyClaim_ok in H1 as (cr & now & Hc1 & Hsel & Hck).
  apply select_claim_ok in Hsel as (Hi & Ha & Hof & _).
  apply check_claim_ok in Hck as (Hs1 & Hs2 & _).
  apply bind_ok in Hm as (ev & w2 & H2 & Hm). apply insertEvaluation_ok in H2 as [_ Hc2].
  calm Hm. calm Hm. next Hm w3 H3. next Hm w4 H4. apply requireOneRow_ok in H4 as (-> & a' & ->).
  apply update_dispatch_ok in H3 as (a & Ha' & _ & -> & Hc3).
  calm Hm. calm Hm. next Hm w5 H5. next Hm w6 H6. apply requireOneRow_ok in H6 as (-> & i' & ->).
  apply update_invocation_ok in H5 as (i & Hi' & Hst & -> & Hc5). calm Hm. apply quiet_outbox in Hm.
  rewrite Hm, Hq3, Hc5. rewrite Hq2, Hq1, Hc3 in Hi' |- *.
  rewrite Hq0, Hq, Hc2, Hc1 in Ha', Hi' |- *. cbn in Ha', Hi'. simplify_eq.
  eapply rtc_l; [apply Evaluated|]. apply rtc_once.
  eapply moved_step; try done.
  - by eapply step_inv; [|apply Evaluated].
  - unfold attempt_active. by rewrite Hs2.
  - simpl. rewrite Hs1. constructor.
Qed.

End PreSend.

Section Others.
Context `{Env}.

(** ** Reconciliation *)

Lemma foldM_refines {A B} (f : B -> A -> Disp B) (xs : list A) (b : B) :
  (forall b x, tx_refines (f b x)) -> tx_refines (foldM f b xs).
Proof.
  intros Hf. revert b. induction xs as [|x xs IH]; intros b w r w' Hinv Hm.
  - by apply foldM_nil in Hm as [_ ->].
  - apply foldM_cons in Hm as (b1 & w1 & H1 & Hm). apply Hf in H1; [|done].
    etrans; [done|]. eapply IH; [|done]. by eapply steps_inv.
Qed.

Lemma reconcile_candidate_refines locked max r x :
  tx_refines (reconcile_candidate locked max r x).
Proof.
  intros w res w' Hinv Hm. unfold reconcile_candidate in Hm. case_bool_decide.
  { by apply ret_ok in Hm as [_ ->]. }
  apply bind_ok in Hm as (i & w1 & H1 & Hm). apply select_invocation_ok in H1 as [Hi ->].
  see Hm Hg. apply bind_ok in Hm as (a & w1 & H1 & Hm). apply dp_row_ok in H1 as [Ha ->].
  apply bind_Some in Ha as (a0 & Ha & Hof). destruct (Z.eqb_spec (att_invocation a0) (att_invocation x));
    [|done]. injection Hof as ->. change (md_attempts (dw_db w)) with (co_att (core (dw_db w))) in Ha.
  destruct (li_att _ _ (di_life _ Hinv) _ _ Ha) as [Haid _].
  pose proof (li_inv _ _ (di_life _ Hinv) _ _ Hi) as Hiid.
  calm Hm. destruct (_ <=? _); [|by apply ret_ok in Hm as [_ ->]; rewrite Hq]. simpl in Hm.
  rewrite <- Hq in Hinv, Hi, Ha |- *. clear Hq.
  assert (Hback : forall s, is_invocation s i = false \/ inv_Status i = s).
  { intros s. unfold is_invocation. case_bool_decide; auto. }
  destruct (datt_Status a) eqn:Hst; try (by apply ret_ok in Hm as [_ ->]).
  - destruct (Hback InvocationClaimed) as [Hs|Hs].
    { rewrite Hs in Hm. by apply ret_ok in Hm as [_ ->]. }
    rewrite (proj2 (is_invocation_spec _ _) Hs) in Hm. next Hm w2 H2. apply ret_ok in Hm as [_ ->].
    unfold release_claim in H2. next H2 w3 H3. rewrite Haid in H3.
    eapply finish_dispatch_ok in H3 as (t & H3); [|done]. calm H2. next H2 w4 H4.
    apply bind_ok in H2 as (i' & w5 & H5 & H2). apply dp_row_ok in H5 as [-> ->].
    apply update_invocation_ok in H4 as (j & Hj & _ & -> & Hc). apply quiet_system in H2.
    rewrite H2, Hc. rewrite Hq, H3, Hiid in Hj |- *. cbn in Hj. simplify_eq. apply rtc_once.
    eapply moved_step; try done.
    + unfold attempt_active. by rewrite Hst.
    + simpl. rewrite Hs. constructor.
  - destruct (Hback InvocationSendStarted) as [Hs|Hs].
    { rewrite Hs in Hm. by apply ret_ok in Hm as [_ ->]. }
    rewrite (proj2 (is_invocation_spec _ _) Hs) in Hm. next Hm w2 H2. apply ret_ok in Hm as [_ ->].
    unfold mark_lost in H2. next H2 w3 H3. apply bind_ok in H2 as (i' & w5 & H5 & H2). calm H2.
    apply quiet_system in H2. rewrite H2, Hq. rewrite Hiid in H5.
    eapply ends; try done.
    + unfold attempt_active. by rewrite Hst.
    + intros s. rewrite Hst. destruct s; try done. constructor.
  - destruct (Hback InvocationResponseReceived) as [Hs|Hs].
    { rewrite Hs in Hm. by apply ret_ok in Hm as [_ ->]. }
    rewrite (proj2 (is_invocation_spec _ _) Hs) in Hm. next Hm w2 H2. apply ret_ok in Hm as [_ ->].
    unfold fail_lost in H2. next H2 w3 H3. apply bind_ok in H2 as (i' & w5 & H5 & H2). calm H2.
    apply quiet_system in H2. rewrite H2, Hq. rewrite Hiid in H5.
    eapply ends; try done.
    + unfold attempt_active. by rewrite Hst.
    + intros s. rewrite Hst. destruct s; try done. constructor.
Qed.

Lemma ReconcileInvocations_refines org batch max locked :
  refines (ReconcileInvocations org batch max locked).
Proof.
  apply refines_tx. intros w r w' Hinv Hm. see Hm Hg. calm Hm. rewrite <- Hq in Hinv |- *.
  by eapply foldM_refines; [apply reconcile_candidate_refines|..].
Qed.

(** ** Challenges *)

(** At most one challenge of an invocation is open, so at most one row changes. *)
Lemma invalidate_steps (c : Core) (id t : Z) :
  dispatch_inv c ->
  let hit ch := (scope_InvocationID (chal_Scope ch) =? id) && challenge_open ch in
  let m := (fun ch => if hit ch then challenge_invalidated t ch else ch) <$> co_chal c in
  dispatch_steps c (put_chal m c)
  /\ (forall k ch, m !! k = Some ch -> scope_InvocationID (chal_Scope ch) = id ->
        challenge_open ch = false)
  /\ forall k, m !! k = None <-> co_chal c !! k = None.
Proof.
  intros Hinv hit m. pose proof (di_identity _ Hinv) as Hid. split_and!.
  - destruct (decide (exists k ch, co_chal c !! k = Some ch /\ hit ch = true)) as [(k & ch & Hk & Hh)|Hn].
    + assert (Hm : m = <[k := challenge_invalidated t ch]> (co_chal c)).
      { apply map_eq. intros j. unfold m. rewrite lookup_fmap. destruct (decide (j = k)) as [->|Hne].
        - rewrite Hk, lookup_insert_eq. simpl. by rewrite Hh.
        - rewrite lookup_insert_ne by done. destruct (co_chal c !! j) as [ch'|] eqn:Hj; [|done].
          simpl. destruct (hit ch') eqn:Hh'; [|done]. exfalso. apply Hne.
          unfold hit in Hh, Hh'. apply andb_true_iff in Hh as [He Ho], Hh' as [He' Ho'].
          eapply (ii_open _ _ Hid); [done..|lia]. }
      rewrite Hm. pose proof (ii_chal _ _ Hid _ _ Hk) as <-. apply rtc_once.
      apply andb_true_iff in Hh as [_ Ho]. by apply Invalidated.
    + assert (Hm : m = co_chal c).
      { apply map_eq. intros j. unfold m. rewrite lookup_fmap.
        destruct (co_chal c !! j) as [ch'|] eqn:Hj; [|done]. simpl.
        destruct (hit ch') eqn:Hh'; [|done]. destruct Hn. eauto. }
      rewrite Hm. by destruct c.
  - intros k ch. unfold m. rewrite lookup_fmap. destruct (co_chal c !! k) as [ch'|]; [|done].
    intros [= <-]. destruct (hit ch') eqn:Hh.
    + intros _. unfold challenge_open. simpl. by rewrite andb_false_r.
    + intros Hi. unfold hit in Hh. rewrite Hi, Z.eqb_refl in Hh. done.
  - intros k. unfold m. rewrite lookup_fmap. destruct (co_chal c !! k); naive_solver.
Qed.

Lemma CreateChallenge_refines p : refines (CreateChallenge p).
Proof.
  apply refines_tx. intros w r w' Hinv Hm. next Hm w1 H1. unfold invalidate_challenges in H1.
  apply bind_ok in H1 as (t & w2 & H2 & H1). apply quiet_clock in H2. see H1 Hg. see H1 Hc.
  apply dp_modify_ok in H1 as ->. rewrite <- H2 in Hinv |- *.
  destruct (invalidate_steps _ (scope_InvocationID (pch_Scope p)) t Hinv) as (Hs & Hcl & Hdom).
  apply bind_ok in Hm as (id & w3 & H3 & Hm). apply quiet_nextval in H3.
  calm Hm. see Hm Hk. see Hm Hg. see Hm Hu. see Hm Hf. next Hm w4 H4. apply dp_modify_ok in H4 as ->.
  calm Hm. apply ret_ok in Hm as [_ ->]. rewrite Hq0. etrans; [exact Hs|].
  set (row := mkChallenge id _ _ _ _ _ _ _ _) in *. apply rtc_once.
  set (c1 := put_chal _ _) in *. assert (Hc1 : core (dw_db wq) = c1) by (by rewrite Hq, H3).
  change (core _) with (put_chal (<[chal_ID row := row]> (co_chal (core (dw_db wq))))
                          (core (dw_db wq))). rewrite Hc1.
  unfold challenge_unique in Hu. rewrite !andb_true_iff, negb_true_iff in Hu. destruct Hu as [[Hu _] _].
  apply Challenged; [|done|].
  - rewrite <- Hc1. unfold taken in Hu. unfold core. cbn. by destruct (_ !! _).
  - intros k ch Hch He. by eapply Hcl.
Qed.

(** ** Assignments *)

Lemma CreateAssignment_refines p : refines (CreateAssignment p).
Proof.
  apply refines_tx. intros w r w' Hinv Hm. apply bind_ok in Hm as (o & w1 & H1 & Hm).
  unfold insert_assignment in H1. calm H1. calm H1. see H1 Hc. see H1 Hg.
  set (row := mkDispatcherAssignment _ _ _ _ _ _ _) in *.
  apply negb_false_iff in Hc. unfold assignment_check, between in Hc.
  rewrite !andb_true_iff, !Z.leb_le in Hc. simpl in Hc.
  case_bool_decide.
  - apply ret_ok in H1 as [-> ->]. repeat calm Hm. apply ret_ok in Hm as [_ ->].
    rewrite Hq4, Hq3, Hq2, Hq1, Hq0, Hq. done.
  - see H1 Ht. see H1 Hone. next H1 w2 H2. apply dp_modify_ok in H2 as ->.
    apply ret_ok in H1 as [-> ->]. calm Hm. apply ret_ok in Hm as [_ ->]. rewrite Hq1.
    apply bool_decide_eq_false, dec_stable in Hone. rewrite <- Hq, <- Hq0. apply rtc_once.
    apply (Assigned (core (dw_db wq0)) row); [|done|done|simpl; lia|].
    + unfold taken in Ht. unfold core. cbn. by destruct (_ !! _).
    + intros k g Hk Hact Heq. unfold asg_target in Heq. injection Heq as H1 H2 H3.
      assert (Hin : g ∈ rows (same_attempt (asg_Scope row)) (md_assignments (dw_db wq0))).
      { apply rows_spec. exists k. split; [done|]. unfold same_attempt.
        rewrite !andb_true_iff, bool_decide_eq_true, !Z.eqb_eq. split_and!; try done.
        by apply bool_decide_eq_true. }
      rewrite Hone in Hin. by apply not_elem_of_nil in Hin.
Qed.

Lemma withdrawn_step (c : Core) k (g g' : DispatcherAssignment) :
  dispatch_inv c -> co_asg c !! k = Some g -> asg_Status g = AssignmentActive ->
  asg_ID g' = asg_ID g -> asg_Scope g' = asg_Scope g ->
  asg_UsedInvocations g' = asg_UsedInvocations g ->
  asg_Status g' ∈ [AssignmentRevoked; AssignmentExpired] ->
  dispatch_step c (put_asg (<[k := g']> (co_asg c)) c).
Proof.
  intros Hinv Hk. destruct (qi_asg _ _ (di_quota _ Hinv) _ _ Hk) as [<- _]. intros.
  by eapply Withdrawn.
Qed.

Lemma RevokeAssignment_refines id actor reason : refines (RevokeAssignment id actor reason).
Proof.
  apply refines_tx. intros w r w' Hinv Hm. see Hm Hg. apply bind_ok in Hm as (g & w1 & H1 & Hm).
  assert (Hrow : co_asg (core (dw_db w)) !! id = Some g /\ w1 = w).
  { unfold core. cbn. destruct (_ !! _); simpl in H1; [by apply ret_ok in H1 as [-> ->]|].
    by apply throw_ok in H1. }
  destruct Hrow as [Hrow ->]. destruct (asg_Status g) eqn:Hst; try (by apply throw_ok in Hm).
  2: { by apply ret_ok in Hm as [_ ->]. }
  calm Hm. calm Hm. calm Hm. see Hm Hc. next Hm w2 H2. apply dp_modify_ok in H2 as ->. calm Hm.
  apply ret_ok in Hm as [_ ->]. rewrite Hq2. rewrite <- Hq, <- Hq0, <- Hq1 in Hinv, Hrow |- *.
  apply rtc_once.
  assert (Hsame : md_assignments (dw_db w) = co_asg (core (dw_db wq1))) by (by rewrite Hq1, Hq0, Hq).
  set (g' := assignment_set _ _ _ _ _ _) in *.
  change (core (dw_db (dw_set _ wq1)))
    with (put_asg (<[id := g']> (md_assignments (dw_db w))) (core (dw_db wq1))).
  rewrite Hsame. apply (withdrawn_step _ id g); try done. simpl. set_solver.
Qed.

(** Rows withdrawn one after another. *)
Lemma withdraw_steps (f : DispatcherAssignment -> DispatcherAssignment) (ks : list Z) (c : Core) :
  (forall g, asg_ID (f g) = asg_ID g /\ asg_Scope (f g) = asg_Scope g
     /\ asg_UsedInvocations (f g) = asg_UsedInvocations g
     /\ asg_Status (f g) ∈ [AssignmentRevoked; AssignmentExpired]) ->
  dispatch_inv c -> NoDup ks ->
  (forall k, k ∈ ks -> exists g, co_asg c !! k = Some g /\ asg_Status g = AssignmentActive) ->
  dispatch_steps c (put_asg ((fun g => if bool_decide (asg_ID g ∈ ks) then f g else g)
                               <$> co_asg c) c).
Proof.
  intros Hf. revert c. induction ks as [|k ks IH]; intros c Hinv Hnd Hks.
  - assert (Hm : (fun g => if bool_decide (asg_ID g ∈ []) then f g else g) <$> co_asg c = co_asg c).
    { apply map_eq. intros j. rewrite lookup_fmap. by destruct (co_asg c !! j). }
    rewrite Hm. by destruct c.
  - apply NoDup_cons in Hnd as [Hni Hnd]. destruct (Hks k) as (g & Hg & Hact); [left|].
    destruct (qi_asg _ _ (di_quota _ Hinv) _ _ Hg) as [Hgid _].
    destruct (Hf g) as (Hf1 & Hf2 & Hf3 & Hf4).
    pose proof (withdrawn_step c k g (f g) Hinv Hg Hact Hf1 Hf2 Hf3 Hf4) as Hstep.
    pose proof (step_inv _ _ Hinv Hstep) as Hinv'. eapply rtc_l; [exact Hstep|].
    set (c1 := put_asg _ c) in *.
    assert (Heq : (fun g => if bool_decide (asg_ID g ∈ k :: ks) then f g else g) <$> co_asg c
                  = (fun g => if bool_decide (asg_ID g ∈ ks) then f g else g) <$> co_asg c1).
    { apply map_eq. intros j. rewrite !lookup_fmap. unfold c1. cbn [co_asg put_asg].
      destruct (decide (j = k)) as [->|Hne].
      - rewrite lookup_insert_eq, Hg. cbn [fmap option_fmap option_map]. rewrite Hf1, Hgid.
        rewrite bool_decide_true by left. by rewrite bool_decide_false.
      - rewrite lookup_insert_ne by done. destruct (co_asg c !! j) as [h|] eqn:Hh; [|done].
        cbn [fmap option_fmap option_map].
        destruct (qi_asg _ _ (di_quota _ Hinv) _ _ Hh) as [-> _].
        f_equal. destruct (decide (j ∈ ks)) as [Hj|Hj].
        + rewrite !bool_decide_true by (done || by right). done.
        + rewrite !bool_decide_false; [done|done|]. rewrite elem_of_cons. tauto. }
    change (put_asg ?m c) with (put_asg m c1). rewrite Heq. apply IH; [done|done|].
    intros j Hj. destruct (Hks j) as (h & Hh & ?); [by right|]. exists h. split; [|done].
    unfold c1. cbn [co_asg put_asg]. rewrite lookup_insert_ne; [done|]. by intros ->.
Qed.

(** The rows of a selection under a lock, by their keys. *)
Lemma selected_keys {A} (id : A -> Z) (locked : list Z) (n : Z) (le : A -> A -> bool)
    (p : A -> bool) (t : gmap Z A) :
  (forall k a, t !! k = Some a -> id a = k) ->
  let ks := id <$> skip_locked_limit id locked n (order_by le (rows p t)) in
  NoDup ks /\ forall k, k ∈ ks -> exists a, t !! k = Some a /\ p a = true.
Proof.
  intros Hid ks. split.
  - apply skip_locked_limit_NoDup. rewrite (fmap_Permutation id _ _ (order_by_perm le (rows p t))).
    by apply rows_NoDup.
  - intros k (a & -> & Ha)%list_elem_of_fmap. apply skip_locked_limit_spec in Ha as [Ha _].
    rewrite order_by_perm in Ha. apply rows_spec in Ha as (k & Hk & Hp).
    pose proof (Hid _ _ Hk) as ->. by exists a.
Qed.

Lemma ExpireAssignments_refines org batch now locked :
  refines (ExpireAssignments org batch now locked).
Proof.
  apply refines_tx. intros w r w' Hinv Hm. see Hm Hg. calm Hm. calm Hm. cbv zeta in Hm.
  see Hm Hc. next Hm w1 H1. apply dp_modify_ok in H1 as ->. calm Hm.
  apply ret_ok in Hm as [_ ->]. rewrite Hq1.
  destruct (selected_keys asg_ID locked batch (fun a b => asg_ID a <=? asg_ID b)
              (expirable org now) (md_assignments (dw_db w))) as [Hnd Hks].
  { intros k g Hk. by destruct (qi_asg _ _ (di_quota _ Hinv) k g Hk). }
  set (ks := asg_ID <$> _) in *.
  change (core (dw_db (dw_set (put_assignments ?m (dw_db ?v)) _))) with (put_asg m (core (dw_db v))).
  change (md_assignments (dw_db w)) with (co_asg (core (dw_db w))) in *.
  rewrite Hq0, Hq. apply withdraw_steps; [|done..|].
  - intros g. split_and!; try done. simpl. set_solver.
  - intros k Hk. destruct (Hks k Hk) as (g & Hg & He). exists g. split; [done|].
    unfold expirable in He. rewrite !andb_true_iff in He. destruct He as [[_ He] _].
    unfold is_assignment in He. by apply bool_decide_eq_true in He.
Qed.

End Others.
