(* ===== verification/DispatchMachine.v ===== *)
(** * Runs of the model runtime

    The methods that write, as one type of calls, the worlds a run reaches, and
    what every run keeps: the invariant of DispatchSpec.v, and the rows that have
    ended. *)

From stdpp Require Import base tactics list gmap strings relations pretty sorting.
From Stdlib Require Import ZArith Lia Ascii.
From S2P Require Import Prelude GoLib TaskDomain Database Scenario DispatchDB Egress.
From S2P Require Import EgressProps Routing InvocationStore Claims PreSend Outcomes Assignments.
From S2P Require Import DispatchSpec DispatchInvariant DispatchRun DispatchRefine PreSendRefine.

Local Open Scope Z_scope.

(** What the stores are built with. *)
Class Host : Type := {
  host_decode_input : string -> option ModelInput;
  host_verify : string -> string -> string -> bool;
  host_build_sha : string;
  host_valid_json : string -> bool }.

Inductive DispatchCall : Type :=
| CallCreateInvocation (p : PreparedInvocation) (outboxMax : Z)
| CallRequestCancellation (id : Z) (actor reason : string) (outboxMax : Z)
| CallCreateChallenge (p : PreparedChallenge)
| CallClaimInvocation (c : ClaimCommand) (config : RuntimeConfig)
| CallClaimAuthenticated (a : AuthenticatedClaimCommand) (config : RuntimeConfig)
| CallAllow (hostNow usedAt : Instant) (c : PersistAllowCommand)
| CallDeny (c : PersistDenyCommand)
| CallReceived (invocation attempt : Z) (token : string) (o : ProviderOutcome)
| CallReject (c : FailureCommand) (o : ProviderOutcome) (outboxMax : Z)
| CallNotSent (c : FailureCommand) (o : ProviderOutcome) (outboxMax : Z)
| CallComplete (c : CompletionCommand) (outboxMax : Z)
| CallFailBeforeSend (c : FailureCommand) (outboxMax : Z)
| CallFailAfterResponse (c : FailureCommand) (outboxMax : Z)
| CallMarkAmbiguous (c : FailureCommand) (eventType : string) (outboxMax : Z)
| CallMarkCancelled (c : FailureCommand) (outboxMax : Z)
| CallReconcileInvocations (organization : string) (batch outboxMax : Z) (locked : list Z)
| CallCreateAssignment (p : PreparedCreateAssignment)
| CallRevokeAssignment (id : Z) (actor reason : string)
| CallExpireAssignments (organization : string) (batch : Z) (now : Instant) (locked : list Z).

Section Machine.
Context `{Env} `{Registry} `{Host}.

Definition ignore {A} (m : Disp A) : Disp unit := do! m in ret tt.

Definition serve_dispatch (c : DispatchCall) : Disp unit :=
  match c with
  | CallCreateInvocation p max => ignore (CreateInvocation host_decode_input p max)
  | CallRequestCancellation id actor reason max => ignore (RequestCancellation id actor reason max)
  | CallCreateChallenge p => ignore (CreateChallenge p)
  | CallClaimInvocation c cfg => ignore (ClaimInvocation host_build_sha c cfg)
  | CallClaimAuthenticated a cfg =>
      ignore (ClaimInvocationAuthenticated host_verify host_build_sha a cfg)
  | CallAllow hostNow usedAt c => PersistPreSendAllowAndMarkSendStarted hostNow usedAt c
  | CallDeny c => PersistPreSendDenyAndFail c
  | CallReceived i a token o => ignore (MarkResponseReceived i a token o)
  | CallReject c o max => ignore (RejectProviderResponse c o max)
  | CallNotSent c o max => ignore (FailCommittedBeforeRequest c o max)
  | CallComplete c max => ignore (CompleteInvocation host_valid_json c max)
  | CallFailBeforeSend c max => ignore (FailBeforeSend c max)
  | CallFailAfterResponse c max => ignore (FailAfterResponse c max)
  | CallMarkAmbiguous c ty max => ignore (MarkAmbiguous c ty max)
  | CallMarkCancelled c max => ignore (MarkCancelled c max)
  | CallReconcileInvocations org batch max locked =>
      ignore (ReconcileInvocations org batch max locked)
  | CallCreateAssignment p => ignore (CreateAssignment p)
  | CallRevokeAssignment id actor reason => ignore (RevokeAssignment id actor reason)
  | CallExpireAssignments org batch now locked => ignore (ExpireAssignments org batch now locked)
  end.

Definition dispatch_exec (w : DispatchWorld) (c : DispatchCall) : DispatchWorld :=
  snd (serve_dispatch c w).

Lemma refines_ignore {A} (m : Disp A) : refines m -> refines (ignore m).
Proof.
  intros Hm w r w' Hinv Hr. unfold ignore, bind in Hr. destruct (m w) as [[a|e] w1] eqn:Hw.
  - unfold ret in Hr. injection Hr as _ <-. by eapply Hm.
  - injection Hr as _ <-. by eapply Hm.
Qed.

Lemma serve_refines (c : DispatchCall) : refines (serve_dispatch c).
Proof.
  destruct c; simpl; try apply refines_ignore;
    auto using CreateInvocation_refines, RequestCancellation_refines, CreateChallenge_refines,
      ClaimInvocation_refines, ClaimInvocationAuthenticated_refines, PersistAllow_refines,
      PersistDeny_refines, MarkResponseReceived_refines, RejectProviderResponse_refines,
      FailCommittedBeforeRequest_refines, CompleteInvocation_refines, FailBeforeSend_refines,
      FailAfterResponse_refines, MarkAmbiguous_refines, MarkCancelled_refines, ReconcileInvocations_refines,
      CreateAssignment_refines, RevokeAssignment_refines, ExpireAssignments_refines.
Qed.

(** A run starts on empty tables; between two calls time passes and keys and policies are
    registered, which leaves the tables of the machine alone. *)
Inductive dispatch_reachable : DispatchWorld -> Prop :=
| RunStart w : core (dw_db w) = core emptyDispatchDB -> dispatch_reachable w
| RunElsewhere w w' : dispatch_reachable w -> core (dw_db w') = core (dw_db w) ->
    dispatch_reachable w'
| RunCall w c : dispatch_reachable w -> dispatch_reachable (dispatch_exec w c).

Lemma empty_inv : dispatch_inv (core emptyDispatchDB).
Proof.
  split; simpl.
  - split; intros; by simplify_map_eq.
  - split; intros; simplify_map_eq; constructor.
  - done.
  - by intros r Hr%not_elem_of_nil.
  - split; intros; simplify_map_eq; set_solver.
  - intros k. split; [by intros [? ?]|]. intros (i & Hi & _). by simplify_map_eq.
  - split; intros; simplify_map_eq; first [constructor|set_solver].
Qed.

Lemma reachable_dispatch_inv (w : DispatchWorld) :
  dispatch_reachable w -> dispatch_inv (core (dw_db w)).
Proof.
  induction 1 as [w Hw|w w' _ IH Hw|w c _ IH].
  - rewrite Hw. apply empty_inv.
  - by rewrite Hw.
  - eapply steps_inv; [exact IH|]. unfold dispatch_exec.
    eapply (serve_refines c); [exact IH|]. apply surjective_pairing.
Qed.

Lemma calls_reachable (w : DispatchWorld) (cs : list DispatchCall) :
  dispatch_reachable w -> dispatch_reachable (foldl dispatch_exec w cs).
Proof. revert w. induction cs as [|c cs IH]; intros w Hw; [done|]. by apply IH, RunCall. Qed.

Lemma calls_steps (w : DispatchWorld) (cs : list DispatchCall) :
  dispatch_inv (core (dw_db w)) ->
  dispatch_steps (core (dw_db w)) (core (dw_db (foldl dispatch_exec w cs))).
Proof.
  revert w. induction cs as [|c cs IH]; intros w Hinv; [done|].
  assert (Hs : dispatch_steps (core (dw_db w)) (core (dw_db (dispatch_exec w c)))).
  { eapply (serve_refines c); [exact Hinv|]. apply surjective_pairing. }
  etrans; [exact Hs|]. apply IH. by eapply steps_inv.
Qed.

End Machine.

(** ** Rows that have ended *)

Section Ended.

Lemma put_other (m : gmap Z Invocation) (k : Z) (i j j' : Invocation) :
  m !! k = Some i -> m !! inv_ID j = Some j -> inv_ID j' = inv_ID j ->
  inv_Status i <> inv_Status j -> <[inv_ID j' := j']> m !! k = Some i.
Proof.
  intros Hk Hj -> Hne. rewrite lookup_insert_ne; [done|]. intros <-. congruence.
Qed.

(** No step changes an invocation that has ended. *)
Lemma step_ended (c c' : Core) (k : Z) (i : Invocation) :
  dispatch_step c c' -> co_inv c !! k = Some i -> InvocationTerminal (inv_Status i) = true ->
  co_inv c' !! k = Some i.
Proof.
  intros Hstep Hk Hend.
  assert (Hrun : forall j s, running (inv_Status j) = Some s -> inv_Status i <> inv_Status j)
    by (intros j s Hr He; rewrite <- He in Hr; by destruct (inv_Status i)).
  destruct Hstep as [j Hn|j j' a [Hj Hs [Hid _] _ _ _ _ _] _ _|j j' a ch ch' s [Hj Hs [Hid _] _ _ _ _ _] _ _
    |j j' a a' g g' v u r [Hj Hs _ [Hid _] _ _ _ _ _ _ _ _ _ _ _ _ _ _ _ _ _]
    |j j' a a' Hj _ _ Hr [Hid _] _ _ _|j j' a a' r Hj _ _ Hr [Hid _] _ _ _ _ _ _
    |j j' Hj Hs [Hid _] _|j j' Hj Hs [Hid _] _|v|g|g g'|ch|ch t]; simpl; try done.
  - rewrite lookup_insert_ne; [done|]. congruence.
  - eapply put_other; [done|exact Hj|done|]. intros He. by rewrite He, Hs in Hend.
  - eapply put_other; [done|exact Hj|done|]. intros He. by rewrite He, Hs in Hend.
  - eapply put_other; [done|exact Hj|done|]. intros He. by rewrite He, Hs in Hend.
  - eapply put_other; [done|exact Hj|done|]. by eapply Hrun.
  - eapply put_other; [done|exact Hj|done|]. by eapply Hrun.
  - eapply put_other; [done|exact Hj|done|]. intros He. by rewrite He, Hs in Hend.
  - eapply put_other; [done|exact Hj|done|]. intros He. rewrite He in Hend.
    by destruct (inv_Status j).
Qed.

(** Nor its result, nor what a call asked for. *)
Lemma step_result (c c' : Core) (k : Z) (r : InvocationResult) :
  dispatch_inv c -> dispatch_step c c' -> co_res c !! k = Some r -> co_res c' !! k = Some r.
Proof.
  intros Hinv Hstep Hk. destruct Hstep as [| | | | |i i' a a' q Hi Ha Hof Hr| | | | | | |]; try done.
  simpl. rewrite lookup_insert_ne; [done|]. intros <-.
  destruct (proj1 (di_results _ Hinv (inv_ID i)) ltac:(by eexists)) as (j & Hj & Hs).
  simplify_eq. by rewrite Hs in Hr.
Qed.

Lemma step_columns (c c' : Core) (k : Z) (i : Invocation) :
  dispatch_step c c' -> co_inv c !! k = Some i ->
  exists i', co_inv c' !! k = Some i' /\ inv_Columns i' = inv_Columns i.
Proof.
  intros Hstep Hk.
  assert (Hput : forall j j', co_inv c !! inv_ID j = Some j -> same_invocation j j' ->
    exists i', <[inv_ID j' := j']> (co_inv c) !! k = Some i' /\ inv_Columns i' = inv_Columns i).
  { intros j j' Hj [Hid Hc]. rewrite Hid. destruct (decide (inv_ID j = k)) as [<-|Hne].
    - rewrite lookup_insert_eq. exists j'. split; [done|]. congruence.
    - rewrite lookup_insert_ne by done. by exists i. }
  destruct Hstep as [j Hn|? ? ? []|? ? ? ? ? ? []|? ? ? ? ? ? ? ? ? []| | | | | | | | |]; simpl; eauto.
  rewrite lookup_insert_ne; [by exists i|]. congruence.
Qed.

Lemma steps_columns (c c' : Core) (k : Z) (i : Invocation) :
  dispatch_steps c c' -> co_inv c !! k = Some i ->
  exists i', co_inv c' !! k = Some i' /\ inv_Columns i' = inv_Columns i.
Proof.
  intros Hs. revert i. induction Hs as [|c c1 c' H1 _ IH]; intros i Hk; [by exists i|].
  destruct (step_columns _ _ _ _ H1 Hk) as (i1 & Hk1 & Hc1).
  destruct (IH i1 Hk1) as (i2 & Hk2 & Hc2). exists i2. split; [done|congruence].
Qed.

Lemma steps_ended (c c' : Core) (k : Z) (i : Invocation) :
  dispatch_steps c c' -> co_inv c !! k = Some i -> InvocationTerminal (inv_Status i) = true ->
  co_inv c' !! k = Some i.
Proof. induction 1 as [|c c1 c' H1 _ IH]; [done|]. intros. apply IH; [|done]. by eapply step_ended. Qed.

Lemma steps_result (c c' : Core) (k : Z) (r : InvocationResult) :
  dispatch_inv c -> dispatch_steps c c' -> co_res c !! k = Some r -> co_res c' !! k = Some r.
Proof.
  intros Hinv Hs. revert Hinv. induction Hs as [|c c1 c' H1 _ IH]; [done|]. intros Hinv Hk.
  apply IH; [by eapply step_inv|by eapply step_result].
Qed.

(** Assertions are kept, and a challenge that was closed stays closed. *)
Lemma steps_assertions (c c' : Core) (s : AssertionRow) :
  dispatch_steps c c' -> s ∈ co_asr c -> s ∈ co_asr c'.
Proof.
  induction 1 as [|c c1 c' H1 _ IH]; [done|]. intros Hs. apply IH.
  destruct H1; simpl; try done. apply elem_of_app. by left.
Qed.

Lemma step_closed (c c' : Core) (k : Z) (ch : Challenge) :
  dispatch_step c c' -> co_chal c !! k = Some ch -> challenge_open ch = false ->
  co_chal c' !! k = Some ch.
Proof.
  intros Hstep Hk Hc.
  assert (Hne : forall x x', co_chal c !! chal_ID x = Some x -> challenge_open x = true ->
    <[chal_ID x := x']> (co_chal c) !! k = Some ch).
  { intros x x' Hx Ho. rewrite lookup_insert_ne; [done|]. intros <-. congruence. }
  destruct Hstep as [| |i i' a x x' s _ [Hx Ho]| | | | | | | | |x Hn|x t Hx Ho]; simpl; auto.
  rewrite lookup_insert_ne; [done|]. congruence.
Qed.

Lemma steps_closed (c c' : Core) (k : Z) (ch : Challenge) :
  dispatch_steps c c' -> co_chal c !! k = Some ch -> challenge_open ch = false ->
  co_chal c' !! k = Some ch.
Proof. induction 1 as [|c c1 c' H1 _ IH]; [done|]. intros. apply IH; [|done]. by eapply step_closed. Qed.

End Ended.

(** ** A model call from assignment to answer

    One organization, one execution principal with its key, one model call: the
    concrete worlds the witnesses of the theorems on model calls run on. *)

Local Open Scope string_scope.

(** A signature that can be computed: the digest of the key and the message. *)
Definition demo_sign (key payload : string) : string := demo_digest (key +:+ payload).

Definition demo_public : ModelInput :=
  mkModelInput "modelruntime.input.v1" 11 "public question" (demo_digest "question")
    (demo_digest "projection") (demo_digest "prefix") [ClassificationPublic] (demo_digest "classes").

Definition demo_host : Host := {|
  host_decode_input _ := Some demo_public;
  host_verify key payload signature := bool_decide (signature = demo_sign key payload);
  host_build_sha := "build";
  host_valid_json s := negb (is_empty s) |}.

Definition demo_registry : Registry := {|
  reg_transport _ _ _ _ _ := Some TransportHTTP;
  reg_capability_matrix _ := Some (Some (demo_digest "matrix"));
  reg_policy_bound _ _ _ _ := true;
  reg_provider _ _ _ := true |}.

#[export] Existing Instance demo.
#[export] Existing Instance demo_host.
#[export] Existing Instance demo_registry.

(** ** What is registered *)

Definition demo_key : ExecutionIdentityKey :=
  mkExecutionIdentityKey 4 "acme" 5 AlgorithmEd25519 "0123456789abcdef0123456789abcdef" KeyActive 0
    None.
Definition demo_identity_policy : IdentityPolicy :=
  mkIdentityPolicy 9 "acme" (demo_digest "identity") 60 30 PolicyActive.

Definition dispatch0 : DispatchWorld :=
  mkDispatchWorld
    (put_keys {[ 4 := demo_key ]} (put_policies {[ 9 := demo_identity_policy ]} emptyDispatchDB))
    (fun _ => 1) 0 0 0.

(** ** The calls *)

Definition demo_horizon : Instant := 3600000000.

Definition demo_assignment_call (key : string) (max : Z) : PreparedCreateAssignment :=
  mkPreparedCreateAssignment "acme" 7 1 2 "eng/dev" "eng/lead" 5 0 demo_horizon max
    (demo_digest "assignment") key (demo_digest key) "eng/lead".

Definition demo_columns (key : string) : InvocationColumns :=
  mkInvocationColumns "acme" 7 1 2 "eng/lead" "eng/dev" (Some 1) (Some 5) 11 "answer" "fast" 3
    "deepseek" "chat" (Some 3) demo_hash (Some 9) (demo_digest "identity") [] OutputText "" 256 None
    "disabled" key (demo_digest key) (demo_digest "intent") "" "" "" "" "" "" demo_horizon "" "".

Definition demo_invocation_call (key : string) : PreparedInvocation :=
  mkPreparedInvocation (demo_columns key) demo_public.

Definition demo_action (id : Z) (key : string) : string :=
  match ActionDigest id (demo_digest key) (Some 1) (Some 5) (Some 3) demo_hash (Some 9)
          (demo_digest "identity") with
  | Ok d => d
  | Err _ => ""
  end.

Definition demo_scope (id : Z) (key : string) : ChallengeScope :=
  mkChallengeScope "acme" 7 id 1 5 9 (demo_digest "identity") 4 (demo_action id key)
    (demo_digest key).

Definition demo_challenge_call (id : Z) (key nonce : string) (issued : Instant)
    : PreparedChallenge :=
  mkPreparedChallenge (demo_scope id key) nonce (demo_digest nonce) issued (issued + 60000000).

Definition demo_claim_call (id : Z) (key nonce : string) (challenge : Z) (issued : Instant)
    : AuthenticatedClaimCommand :=
  mkAuthenticatedClaimCommand id "orgd" 5 4 challenge nonce
    (demo_sign (key_PublicKey demo_key)
       (BuildAssertionPayload (demo_scope id key) challenge nonce issued (issued + 60000000))).

Definition demo_config : RuntimeConfig := mkRuntimeConfig 4 (60 * Second) 10.

Definition demo_decision (id attempt : Z) (key : string) (authorized egress : bool)
    : PreSendEvaluation :=
  let e h := mkPreSendEvaluation id attempt 3 demo_hash "acme" 7 "eng/lead" "eng/dev" 3 "deepseek"
    TransportHTTP (demo_action id key) (demo_digest "matrix") [ClassificationPublic]
    (snd (NormalizeClassifications [ClassificationPublic]))
    (if authorized then AuthorizationAllow else AuthorizationDeny) "role_authorized"
    (if authorized then if egress then EffectAllow else EffectDeny else EffectNotEvaluated)
    (if authorized then ["public_allowed"] else []) h "" "" in
  e (DecisionHash (e "")).

Definition demo_allow (id attempt : Z) (key token : string) : PersistAllowCommand :=
  mkPersistAllowCommand (demo_decision id attempt key true true) token (demo_digest "idempotency")
    (mkProviderRequestEvidence "fast" "chat" "deepseek" 1 "request.v1" "response.v1"
       (demo_digest "request") (demo_digest "endpoint") (demo_digest "credential"))
    demo_horizon.

Definition demo_outcome (class : OutcomeClass) (status : Z) : ProviderOutcome :=
  let answered := bool_decide (class = ProviderOutcomeResponseReceived) in
  mkProviderOutcome class "req-1" TransportHTTP status None "" (if answered then "" else "throttled")
    (negb answered) (demo_digest "response") "response.v1" false "" None false None None None None ""
    None None "" None None None.

Definition demo_completion (id attempt : Z) (token : string) : CompletionCommand :=
  mkCompletionCommand id attempt token
    (mkNormalizedResponse
       (mkInvocationResult 0 id attempt OutputText "the answer" "" [] (demo_digest "response") 10 0)
       (mkModelUsage id attempt 20 10 30 true None None) "req-1" false "").

Definition demo_failure_of (id attempt : Z) (token code : string) : FailureCommand :=
  mkFailureCommand id attempt token code code "" None None None.

(** ** Runs *)

Definition dispatch_run (cs : list DispatchCall) (w : DispatchWorld) : DispatchWorld :=
  foldl dispatch_exec w cs.

Definition requested_calls : list DispatchCall :=
  [CallCreateAssignment (demo_assignment_call "a1" 1);
   CallCreateInvocation (demo_invocation_call "i1") 10].
Definition call_requested : DispatchWorld := dispatch_run requested_calls dispatch0.

Definition call_challenged : DispatchWorld :=
  dispatch_run [CallCreateChallenge (demo_challenge_call 1 "i1" "nonce" 5000000)] call_requested.
Definition call_claimed : DispatchWorld :=
  dispatch_run [CallClaimAuthenticated (demo_claim_call 1 "i1" "nonce" 1 5000000) demo_config]
    call_challenged.
Definition demo_token : string := "token-0".
Definition call_sent : DispatchWorld :=
  dispatch_run [CallAllow 10000000 10000000 (demo_allow 1 1 "i1" demo_token)] call_claimed.
Definition call_received : DispatchWorld :=
  dispatch_run
    [CallReceived 1 1 demo_token (demo_outcome ProviderOutcomeResponseReceived 200)] call_sent.
Definition call_succeeded : DispatchWorld :=
  dispatch_run [CallComplete (demo_completion 1 1 demo_token) 10] call_received.

(** The claim that expires, and its release. *)
Definition later (ticks : nat) (w : DispatchWorld) : DispatchWorld :=
  mkDispatchWorld (dw_db w) (dw_seq w) (dw_tick w + ticks) (dw_random w) (dw_now w).

Definition call_released : DispatchWorld :=
  dispatch_run [CallReconcileInvocations "acme" 10 10 []] (later 120 call_claimed).

(** A new challenge for the invocation that was released. *)
Definition released_challenge : PreparedChallenge :=
  demo_challenge_call 1 "i1" "nonce-2" 140000000.
Definition call_challenged_again : DispatchWorld :=
  dispatch_run [CallCreateChallenge released_challenge] call_released.

Lemma later_reachable (n : nat) (w : DispatchWorld) :
  dispatch_reachable w -> dispatch_reachable (later n w).
Proof. intros Hw. by apply (RunElsewhere w). Qed.

Lemma dispatch0_reachable : dispatch_reachable dispatch0.
Proof. by apply RunStart. Qed.

Lemma requested_reachable : dispatch_reachable call_requested.
Proof. apply calls_reachable, dispatch0_reachable. Qed.
Lemma challenged_reachable : dispatch_reachable call_challenged.
Proof. apply calls_reachable, requested_reachable. Qed.
Lemma claimed_reachable : dispatch_reachable call_claimed.
Proof. apply calls_reachable, challenged_reachable. Qed.
Lemma sent_reachable : dispatch_reachable call_sent.
Proof. apply calls_reachable, claimed_reachable. Qed.
Lemma succeeded_reachable : dispatch_reachable call_succeeded.
Proof. apply calls_reachable, calls_reachable, sent_reachable. Qed.
Lemma released_reachable : dispatch_reachable call_released.
Proof. apply calls_reachable, later_reachable, claimed_reachable. Qed.

(** A row of a computed world, by what is computed of it. *)
Lemma row_with {A B} (f : A -> B) (o : option A) (y : B) :
  f <$> o = Some y -> exists x, o = Some x /\ f x = y.
Proof. intros (x & -> & ->)%fmap_Some. by exists x. Qed.

(** The worlds are evaluated only where a witness asks for it. *)
#[global] Opaque call_requested call_challenged call_claimed call_sent call_received call_succeeded
  call_released call_challenged_again.
