(* ===== verification/DispatchService.v ===== *)
(** * The dispatch of a model call

    internal/modelruntime/dispatch_service.go over the stores of the model runtime
    and the cost gate, with the checks of validation.go, the evidence of
    provider_request.go, the descriptor of provider_adapter.go and the challenges
    of internal/modelidentity/challenge_service.go.

    The catalogs, the evaluators, the key file and the provider adapters are
    collaborators behind interfaces in the source; they are fields of
    [Collaborators].  Between two calls other processes work on the same tables,
    and a call to a store may be lost or its answer may be: [Surroundings].  A
    cancelled context and the timeout of a persist are faults of the calls they
    reach; WatchCancellation acts on the adapter's context and is part of the
    adapter's answer.  The telemetry of a single-shot input goes to tables of its
    own and is left out. *)

From stdpp Require Import base tactics list gmap strings pretty sorting.
From Stdlib Require Import ZArith Lia Ascii.
From S2P Require Import Prelude GoLib TaskDomain Json Database StoreHelpers TaskValidation SpendDB.
From S2P Require Import Pricing CostLedger AgentBudget ProgramBudget CostGate DispatchDB Schema.
From S2P Require Import Normalizer Egress ModelInput Routing InvocationStore Claims PreSend.
From S2P Require Import Outcomes Assignments DispatchMachine.

Local Open Scope string_scope.
Local Open Scope Z_scope.

(** ** Errors *)

(** [Joined] is errors.Join; an error that wraps another with %w is the one it
    wraps. *)
Inductive ServiceError : Type :=
| Runtime (e : DispatchError)
| Spending (e : SpendError)
| AdapterFailed
| DeadlineExceeded
| Panicked
| Joined (first second : ServiceError).

(** The [DispatchResult] and the error of a call that fails. *)
Record Failure : Type := mkFailure {
  failed_Invocation : option Invocation;
  failed_Error : ServiceError }.

Fixpoint spend_error_is (target e : SpendError) : bool :=
  bool_decide (e = target)
  || match e with
     | ErrJoined a b => spend_error_is target a || spend_error_is target b
     | _ => false
     end.

(** ** interfaces.go, modeldispatch/domain.go *)

Inductive PrincipalStatus : Type := PrincipalActive | PrincipalDisabled.

#[export] Instance PrincipalStatus_eq_dec : EqDecision PrincipalStatus.
Proof. solve_decision. Defined.

Record ExecutionPrincipal : Type := mkPrincipal {
  prin_ID : Z;
  prin_PrincipalKey : string;
  prin_DispatchActorRoleID : string;
  prin_Status : PrincipalStatus }.

Record TaskAttemptRef : Type := mkTaskAttemptRef {
  tref_TaskID : Z;
  tref_AttemptID : Z;
  tref_OrganizationID : string;
  tref_OrganizationRevisionID : Z;
  tref_AssignedRoleID : string;
  tref_TaskStatus : string;
  tref_AttemptStatus : string;
  tref_LeaseHolderID : string;
  tref_LeaseExpiresAt : Instant }.

Record OrganizationRef : Type := mkOrganizationRef {
  oref_ID : string;
  oref_RevisionID : Z;
  oref_ModelEgressPolicyHash : string;
  oref_CapabilityMatrixHash : string }.

Record AuthorizationDecision : Type := mkAuthorizationDecision {
  adec_Allowed : bool;
  adec_ReasonCode : string;
  adec_MatrixHash : string }.

(** The fields of [ResolvedBinding] that the dispatch reads. *)
Record DispatchBinding : Type := mkDispatchBinding {
  dbind_Route : ResolvedBinding;
  dbind_ReasoningEffort : string;
  dbind_Capabilities : list string;
  dbind_Active : bool;
  dbind_VersionEnabled : bool;
  dbind_VersionStatus : string;
  dbind_ProviderEnabled : bool;
  dbind_ProviderStatus : string }.

Definition AdapterAvailable : string := "available".

(** [RuntimeConfig]; the fields the claims read are [dcfg_Claims]. *)
Record ServiceConfig : Type := mkServiceConfig {
  dcfg_Enabled : bool;
  dcfg_ExecutionPrincipalKey : string;
  dcfg_ExecutionIdentityEnabled : bool;
  dcfg_ExecutionIdentityKeyFile : string;
  dcfg_MaxResponseBytes : Z;
  dcfg_MaxToolIntents : Z;
  dcfg_Claims : RuntimeConfig }.

(** ** provider_adapter.go *)

Record AdapterDescriptor : Type := mkAdapterDescriptor {
  desc_ProviderID : string;
  desc_AdapterID : string;
  desc_AdapterVersion : Z;
  desc_Transport : string;
  desc_RequestSchemaVersion : string;
  desc_ResponseSchemaVersion : string;
  desc_EndpointFingerprint : string;
  desc_CredentialRefHash : string }.

Definition DescriptorValidate (d : AdapterDescriptor) : result DispatchError unit :=
  let blank s := is_empty (TrimSpace s) in
  check? rejectIf (blank (desc_ProviderID d) || blank (desc_AdapterID d)) ErrRuntimeInvalidRequest in
  check? rejectIf (desc_AdapterVersion d <=? 0) ErrRuntimeInvalidRequest in
  check? rejectIf (negb (bool_decide (desc_Transport d ∈ [TransportHTTP; TransportCLI; TransportFake])))
           ErrRuntimeInvalidRequest in
  check? rejectIf (blank (desc_RequestSchemaVersion d) || blank (desc_ResponseSchemaVersion d))
           ErrRuntimeInvalidRequest in
  rejectIf (negb (validProviderSHA256 (desc_EndpointFingerprint d))
            || negb (validProviderSHA256 (desc_CredentialRefHash d))) ErrRuntimeInvalidRequest.

(** What [AsAdapterError] finds, a phase outside the constants being [None], and
    what errors.Is answers of the error. *)
Record AdapterError : Type := mkAdapterError {
  aerr_Classified : option (option AdapterFailurePhase * ProviderOutcome);
  aerr_Canceled : bool;
  aerr_DeadlineExceeded : bool }.

Record ProviderPreflightRequest : Type := mkPreflightRequest {
  pre_ProviderID : string;
  pre_ProviderModelID : string;
  pre_Deadline : Instant }.

Record CanonicalRequest : Type := mkCanonicalRequest {
  call_InvocationID : Z;
  call_DispatchAttemptID : Z;
  call_OrganizationID : string;
  call_OrganizationRevisionID : Z;
  call_TaskID : Z;
  call_AttemptID : Z;
  call_DispatchActorRoleID : string;
  call_SubjectRoleID : string;
  call_ModelProfileID : string;
  call_ModelProfileVersionID : Z;
  call_ProviderID : string;
  call_ProviderModelID : string;
  call_ProviderIdempotencyKey : string;
  call_ReasoningEffort : string;
  call_ContextSnapshotID : Z;
  call_ContextRenderedHash : string;
  call_RenderedContext : string;
  call_ModelInput : PreparedModelInput;
  call_RequiredCapabilities : list string;
  call_OutputMode : OutputMode;
  call_OutputSchema : string;
  call_MaxOutputTokens : Z;
  call_Temperature : option string;
  call_ThinkingMode : string;
  call_Deadline : Instant }.

Record ProviderAdapter : Type := mkProviderAdapter {
  adapter_ProviderID : string;
  adapter_Descriptor : AdapterDescriptor;
  adapter_Preflight : ProviderPreflightRequest -> option AdapterError;
  adapter_Dispatch : CanonicalRequest -> RawResponse * option AdapterError }.

(** ** The service and what surrounds it *)

(** costgate.Gate: the billing of the providers and the optional resolver. *)
Record CostBudgetGate : Type := mkCostBudgetGate {
  gate_subscribed : string -> bool;
  gate_programs : option (Z -> string -> string -> result SpendError Scope) }.

(** The fields of [DispatchService] behind interfaces.  Each is asked at most
    once in a dispatch, except the clock. *)
Class Collaborators : Type := {
  PrincipalByKey : string -> string -> result DispatchError ExecutionPrincipal;
  PrincipalByID : Z -> result DispatchError ExecutionPrincipal;
  LoadExecutionPrivateKey : string -> result DispatchError string;
  PublicKey : string -> string;
  Sign : string -> string -> string;
  GetTaskAttempt : Z -> Z -> result DispatchError TaskAttemptRef;
  CurrentOrganization : string -> result DispatchError OrganizationRef;
  BindingOfRole : string -> Z -> string -> result DispatchError DispatchBinding;
  CandidateRoute : string -> Z -> string -> result DispatchError DispatchBinding;
  PolicyForRevision : string -> Z -> result DispatchError ResolvedPolicy;
  GetContextSnapshot : Z -> result DispatchError ContextSnapshotRef;
  ValidateContextSnapshot : Z -> result DispatchError unit;
  RenderContextSnapshot : Z -> result DispatchError string;
  EvaluateDispatch : string -> Z -> string -> string -> string
                     -> result DispatchError AuthorizationDecision;
  EvaluateEgress : EvaluationRequest -> EgressDecision * option DispatchError;
  Adapters : string -> option ProviderAdapter;
  ClockNow : nat -> Instant;
  Gate : option CostBudgetGate }.

(** A call arrives and its answer comes back; or it never arrives; or it is
    served and the answer is lost. *)
Inductive Fault (E : Type) : Type :=
| Answered
| Lost (e : E)
| Unacknowledged (e : E).
Arguments Answered {E}.
Arguments Lost {E} e.
Arguments Unacknowledged {E} e.

(** What the other processes do to the tables before the n-th call, and what
    happens to the call. *)
Class Surroundings : Type := {
  others_dispatch : nat -> DispatchWorld -> DispatchWorld;
  others_spend : nat -> SpendWorld -> SpendWorld;
  store_fault : nat -> Fault DispatchError;
  gate_fault : nat -> Fault SpendError }.

Definition faulty {E W A} (f : Fault E) (m : Comp E W A) : Comp E W A := fun w =>
  match f with
  | Answered => m w
  | Lost e => (Err e, w)
  | Unacknowledged e => (Err e, snd (m w))
  end.

(** The calls that leave the service for money or for the provider; a call of the
    provider with the tables at that moment. *)
Inductive DispatchEvent : Type :=
| Reserved (r : CostReservation)
| Reconciled (r : CostReservation) (inputTokens outputTokens : Z)
| Parked (r : CostReservation)
| Consumed (r : CostReservation)
| Released (r : CostReservation)
| Allowed (c : PersistAllowCommand)
| Called (request : CanonicalRequest) (tables : DispatchDB).

(** [sys_settled] is the variable [reservationSettled] of the dispatch. *)
Record Sys : Type := mkSys {
  sys_dispatch : DispatchWorld;
  sys_spend : SpendWorld;
  sys_calls : nat;
  sys_clock : nat;
  sys_settled : bool;
  sys_trace : list DispatchEvent }.

Notation Dispatching := (Comp Failure Sys).

Definition set_dispatch (w : DispatchWorld) (s : Sys) : Sys :=
  mkSys w (sys_spend s) (S (sys_calls s)) (sys_clock s) (sys_settled s) (sys_trace s).
Definition set_spend (w : SpendWorld) (s : Sys) : Sys :=
  mkSys (sys_dispatch s) w (S (sys_calls s)) (sys_clock s) (sys_settled s) (sys_trace s).
Definition set_settled (b : bool) (s : Sys) : Sys :=
  mkSys (sys_dispatch s) (sys_spend s) (sys_calls s) (sys_clock s) b (sys_trace s).
Definition log (e : DispatchEvent) (s : Sys) : Sys :=
  mkSys (sys_dispatch s) (sys_spend s) (sys_calls s) (sys_clock s) (sys_settled s)
    (sys_trace s ++ [e])%list.

Definition modify_sys (f : Sys -> Sys) : Dispatching unit := fun s => (Ok tt, f s).

Definition fail {A} (e : ServiceError) : Dispatching A := throw (mkFailure None e).

Definition fail_if (b : bool) (e : ServiceError) : Dispatching unit := throwIf b (mkFailure None e).

(** [if err != nil { return DispatchResult{}, err }] *)
Definition or_fail {A} (r : result DispatchError A) : Dispatching A :=
  match r with Ok a => ret a | Err e => fail (Runtime e) end.

(** ** validation.go *)

Definition validateTaskAttempt (ref : TaskAttemptRef) (task attempt : Z)
    (organizationID subjectRoleID : string) (now : Instant) : result DispatchError unit :=
  check? rejectIf (negb (tref_TaskID ref =? task) || negb (tref_AttemptID ref =? attempt))
           ErrTaskAttemptRejected in
  check? rejectIf (negb (bool_decide (tref_OrganizationID ref = organizationID)))
           ErrTaskAttemptRejected in
  check? rejectIf (negb (bool_decide (tref_AssignedRoleID ref = subjectRoleID)))
           ErrTaskAttemptRejected in
  check? rejectIf (negb (bool_decide (tref_TaskStatus ref = "running"))
                   || negb (bool_decide (tref_AttemptStatus ref = "running")))
           ErrTaskAttemptRejected in
  check? rejectIf (is_empty (TrimSpace (tref_LeaseHolderID ref))) ErrTaskAttemptRejected in
  rejectIf (tref_LeaseExpiresAt ref <=? now) ErrTaskAttemptRejected.

Definition validateContext (ref : ContextSnapshotRef) (snapshotID task : Z)
    (organizationID subjectRoleID : string) (revision : Z) : result DispatchError unit :=
  check? rejectIf (negb (snap_ID ref =? snapshotID)
                   || negb (bool_decide (snap_Status ref = "ready"))) ErrContextRejected in
  check? rejectIf (negb (bool_decide (snap_OrganizationID ref = organizationID))
                   || negb (snap_OrganizationRevisionID ref =? revision)) ErrContextRejected in
  check? rejectIf (negb (bool_decide (snap_ActorRoleID ref = subjectRoleID))) ErrContextRejected in
  rejectIf (negb (bool_decide (snap_TaskRef ref = FormatInt task))) ErrContextRejected.

Definition validateResolvedEgressPolicy (policy : ResolvedPolicy) (organization : OrganizationRef)
    : result DispatchError unit :=
  rejectIf ((pol_VersionID policy <=? 0) || (pol_PolicyVersion policy <=? 0)
            || negb (bool_decide (pol_VersionStatus policy = "materialized"))
            || negb (bool_decide (pol_VersionOrganizationID policy = oref_ID organization))
            || negb (pol_OrganizationRevisionID policy =? oref_RevisionID organization)
            || negb (bool_decide (pol_DefaultAction policy = EffectDeny))
            || is_empty (pol_CanonicalHash policy)
            || negb (bool_decide (pol_VersionHash policy = pol_CanonicalHash policy))
            || negb (bool_decide (pol_CanonicalHash policy = oref_ModelEgressPolicyHash organization)))
    ErrEgressPolicyUnpinned.

Definition capabilitiesSatisfy (available required : list string) : bool :=
  forallb (fun c => bool_decide (c ∈ available)) required.

(** ** invocations.go: GetModelInput *)

Definition stored_envelope (canonical : string) : option ModelInputEnvelope :=
  decodeJSONWithNumbers canonical ≫= unmarshal_envelope.

(** The columns of [model_invocation_inputs] that an envelope repeats. *)
Definition envelope_columns (e : ModelInputEnvelope) (canonical digest : string) : ModelInput :=
  DispatchDB.mkModelInput (env_SchemaVersion e) (env_ContextSnapshotID e) canonical digest
    (env_CanonicalProjectionDigest e) (env_StablePrefixDigest e)
    (elems (env_InputClassifications e)) (env_InputClassificationsHash e).

Definition GetModelInput (decode : string -> option ModelInput) (id : Z) : Disp PreparedModelInput :=
  let! m := getModelInput decode id in
  match stored_envelope (input_CanonicalBytes m) with
  | Some e => ret (mkPreparedInput e (input_CanonicalBytes m) (input_CanonicalDigest m))
  | None => throw ErrHost
  end.

Section ServiceCalls.
Context {env : Env} {registry : Registry} {host : Host} {policy : ContentPolicy}.
Context {collaborators : Collaborators} {around : Surroundings}.
Context (organizationID : string) (config : ServiceConfig).

(** ** Calls *)

(** A call of a store: the others have worked in between, and it may be at fault. *)
Definition store {A} (m : Disp A) : Dispatching (result DispatchError A) := fun s =>
  let n := sys_calls s in
  let (r, w) := faulty (store_fault n) m (others_dispatch n (sys_dispatch s)) in
  (Ok r, set_dispatch w s).

Definition gate {A} (m : Spend A) : Dispatching (result SpendError A) := fun s =>
  let n := sys_calls s in
  let (r, w) := faulty (gate_fault n) m (others_spend n (sys_spend s)) in
  (Ok r, set_spend w s).

Definition stored {A} (m : Disp A) : Dispatching A := let! r := store m in or_fail r.

Definition now : Dispatching Instant := fun s =>
  (Ok (ClockNow (sys_clock s)),
   mkSys (sys_dispatch s) (sys_spend s) (sys_calls s) (S (sys_clock s)) (sys_settled s)
     (sys_trace s)).

(** The call of the provider, with the tables at that moment. *)
Definition call_adapter (a : ProviderAdapter) (request : CanonicalRequest)
    : Dispatching (RawResponse * option AdapterError) := fun s =>
  (Ok (adapter_Dispatch a request), log (Called request (dw_db (sys_dispatch s))) s).

(** What is persisted about a call that failed with [cause]: [errors.Join(cause,
    persistErr)] when that fails as well. *)
Definition persist {A} (m : Disp A) (cause : ServiceError) : Dispatching A :=
  let! r := store m in
  match r with
  | Ok a => ret a
  | Err e => fail (Joined cause (Runtime e))
  end.

Definition end_with {A} (i : Invocation) (cause : ServiceError) : Dispatching A :=
  throw (mkFailure (Some i) cause).

Definition outboxMax : Z := rt_OutboxMaxAttempts (dcfg_Claims config).

(** ** challenge_service.go *)

Record IssuedChallenge : Type := mkIssued {
  issued_Challenge : Challenge;
  issued_Nonce : string;
  issued_Payload : string }.

Definition policy_known (p : IdentityPolicy) : bool :=
  bool_decide (idpol_Status p ∈ [PolicyActive; PolicySuperseded]).

(** NewNonce reads 32 random bytes. *)
Definition Issue (scope : ChallengeScope) (p : IdentityPolicy) : Dispatching IssuedChallenge :=
  do! fail_if (is_empty (scope_OrganizationID scope) || (scope_InvocationID scope <=? 0)
               || (scope_ExecutionPrincipalID scope <=? 0)
               || (scope_ExecutionIdentityKeyID scope <=? 0)
               || (scope_DispatcherAssignmentID scope <=? 0)
               || is_empty (scope_ActionDigest scope) || is_empty (scope_RequestHash scope))
        (Runtime ErrAssertionInvalid) in
  do! fail_if (negb (idpol_ID p =? scope_ExecutionIdentityPolicyVersionID scope)
               || negb (bool_decide (idpol_CanonicalHash p = scope_ExecutionIdentityPolicyHash scope))
               || negb (policy_known p)) (Runtime ErrPolicyStale) in
  let! random := stored dp_random in
  match random with
  | None => fail (Runtime ErrHost)
  | Some nonce =>
      let! issuedAt := now in
      let expiresAt := issuedAt + idpol_ChallengeTTLSeconds p * 1000000 in
      let! challenge := stored (CreateChallenge
        (mkPreparedChallenge scope nonce (env_sha256_hex nonce) issuedAt expiresAt)) in
      let payload := BuildAssertionPayload scope (chal_ID challenge) nonce issuedAt expiresAt in
      do! fail_if (negb (bool_decide (chal_PayloadHash challenge = env_sha256_hex payload)))
            (Runtime ErrAssertionInvalid) in
      ret (mkIssued challenge nonce payload)
  end.

(** crypto.go: VerifyAssertion *)
Definition VerifyAssertion (k : ExecutionIdentityKey) (issued : IssuedChallenge) (signature : string)
    (t : Instant) (skew : Duration) : result DispatchError unit :=
  let c := issued_Challenge issued in
  check? rejectIf (negb (bool_decide (key_Algorithm k = AlgorithmEd25519))
                   || negb (len (key_PublicKey k) =? PublicKeySize)) ErrInvalidKey in
  check? rejectIf (negb (key_usable k)) ErrKeyInactive in
  check? rejectIf (negb (key_in_force k t)) ErrKeyInactive in
  check? rejectIf ((t + skew <? chal_IssuedAt c) || (chal_ExpiresAt c <=? t - skew))
           ErrChallengeExpired in
  check? rejectIf (negb (bool_decide (env_sha256_hex (issued_Payload issued) = chal_PayloadHash c)))
           ErrAssertionInvalid in
  rejectIf (negb (host_verify (key_PublicKey k) (issued_Payload issued) signature))
    ErrAssertionInvalid.

Definition Verify (k : ExecutionIdentityKey) (issued : IssuedChallenge) (signature : string)
    (p : IdentityPolicy) : Dispatching unit :=
  let c := chal_Scope (issued_Challenge issued) in
  do! fail_if (negb (len signature =? SignatureSize)
               || negb (key_ID k =? scope_ExecutionIdentityKeyID c)
               || negb (key_ExecutionPrincipalID k =? scope_ExecutionPrincipalID c)
               || negb (idpol_ID p =? scope_ExecutionIdentityPolicyVersionID c)
               || negb (bool_decide (idpol_CanonicalHash p = scope_ExecutionIdentityPolicyHash c))
               || negb (policy_known p)) (Runtime ErrAssertionInvalid) in
  let! t := now in
  or_fail (VerifyAssertion k issued signature t (idpol_ClockSkewSeconds p * 1000000)).

(** The column public_key_fingerprint is the hash of the key the row holds
    (KeyService.prepare), and a principal has one active key. *)
Definition ResolveActiveKeyByFingerprint (org : string) (principal : Z) (fingerprint : string)
    : Disp ExecutionIdentityKey :=
  let! t := dp_clock in
  let! d := dp_get in
  match rows (fun k => bool_decide (key_OrganizationID k = org)
                       && (key_ExecutionPrincipalID k =? principal)
                       && bool_decide (env_sha256_hex (key_PublicKey k) = fingerprint)
                       && bool_decide (key_Status k = KeyActive) && key_in_force k t) (md_keys d) with
  | k :: _ => ret k
  | [] => throw ErrKeyNotFound
  end.

Definition ResolvePolicyByID (org : string) (id : Z) : Disp IdentityPolicy :=
  let! d := dp_get in
  match md_policies d !! id with
  | Some p => if bool_decide (idpol_OrganizationID p = org) then ret p else throw ErrPolicyNotFound
  | None => throw ErrPolicyNotFound
  end.

(** modeldispatch/postgres/assignments.go: GetByID, the assignment and its principal *)
Definition GetByID (org : string) (id : Z) : Disp (DispatcherAssignment * ExecutionPrincipal) :=
  let! d := dp_get in
  match md_assignments d !! id with
  | Some a =>
      if bool_decide (asg_OrganizationID (asg_Scope a) = org) then
        let! p := lift (PrincipalByID (asg_ExecutionPrincipalID (asg_Scope a))) in ret (a, p)
      else throw ErrDispatchNotFound
  | None => throw ErrDispatchNotFound
  end.

(** ** The claim *)

Definition failure_of (c : ClaimedInvocation) (code classification eventType : string)
    (outcome : option ProviderOutcome) (usage : option ModelUsage) (raw : option string)
    : FailureCommand :=
  mkFailureCommand (inv_ID (claimed_Invocation c)) (datt_ID (claimed_DispatchAttempt c))
    (claimed_ClaimToken c) code classification eventType outcome usage raw.

Definition failBeforeSend {A} (c : ClaimedInvocation) (code : string) (cause : ServiceError)
    (eventType : string) : Dispatching A :=
  let! failed := persist (FailBeforeSend
    (failure_of c code "failed_before_send" eventType None None None) outboxMax) cause in
  end_with failed cause.

(** An invocation of before an expansion of the schema is claimed only to fail it. *)
Definition claim_to_fail {A} (id : Z) (p : ExecutionPrincipal) (code : string)
    (cause : DispatchError) : Dispatching A :=
  let! c := stored (ClaimInvocation host_build_sha
    (mkClaimCommand id (prin_PrincipalKey p) (prin_ID p)) (dcfg_Claims config)) in
  failBeforeSend c code (Runtime cause) AuditInvocationFailed.

(** The pins of an invocation: its assignment, its principal, its egress policy and
    its identity policy. *)
Definition require_pins (id : Z) (i : Invocation) (p : ExecutionPrincipal) : Dispatching (Z * Z) :=
  let c := inv_Columns i in
  match inv_DispatcherAssignmentID c, inv_ExecutionPrincipalID c with
  | Some assignment, Some principal =>
      do! fail_if (negb (principal =? prin_ID p)) (Runtime ErrExecutionPrincipalMismatch) in
      if negb (is_some (inv_ModelEgressPolicyVersionID c)) || is_empty (inv_ModelEgressPolicyHash c)
      then claim_to_fail id p "egress_policy_unpinned" ErrEgressPolicyUnpinned
      else
        match inv_ExecutionIdentityPolicyVersionID c with
        | Some v =>
            if is_empty (inv_ExecutionIdentityPolicyHash c)
            then claim_to_fail id p "execution_identity_unpinned" ErrExecutionIdentityUnpinned
            else ret (assignment, v)
        | None => claim_to_fail id p "execution_identity_unpinned" ErrExecutionIdentityUnpinned
        end
  | _, _ => claim_to_fail id p "dispatcher_assignment_unpinned" ErrDispatcherAssignmentUnpinned
  end.

(** The challenge is issued, signed, checked and spent on a claim. *)
Definition claim_authenticated (id : Z) (i : Invocation) (p : ExecutionPrincipal)
    (assignment version : Z) : Dispatching ClaimedInvocation :=
  let c := inv_Columns i in
  do! fail_if (negb (dcfg_ExecutionIdentityEnabled config)) (Runtime ErrExecutionIdentityDenied) in
  do! fail_if (is_empty (TrimSpace (dcfg_ExecutionIdentityKeyFile config)))
        (Runtime ErrRuntimeInvalidRequest) in
  let! privateKey :=
    match LoadExecutionPrivateKey (dcfg_ExecutionIdentityKeyFile config) with
    | Ok k => ret k
    | Err _ => fail (Runtime ErrExecutionIdentityDenied)
    end in
  let! key := stored (ResolveActiveKeyByFingerprint (inv_OrganizationID c) (prin_ID p)
                        (env_sha256_hex (PublicKey privateKey))) in
  let! identity := stored (ResolvePolicyByID (inv_OrganizationID c) version) in
  do! fail_if (negb (bool_decide (idpol_CanonicalHash identity = inv_ExecutionIdentityPolicyHash c)))
        (Runtime ErrExecutionIdentityDenied) in
  let! digest := or_fail (invocation_digest i) in
  let! issued := Issue (mkChallengeScope (inv_OrganizationID c) (inv_OrganizationRevisionID c)
    (inv_ID i) assignment (prin_ID p) version (inv_ExecutionIdentityPolicyHash c) (key_ID key) digest
    (inv_RequestHash c)) identity in
  let signature := Sign privateKey (issued_Payload issued) in
  do! Verify key issued signature identity in
  stored (ClaimInvocationAuthenticated host_verify host_build_sha
    (mkAuthenticatedClaimCommand id (prin_PrincipalKey p) (prin_ID p) (key_ID key)
       (chal_ID (issued_Challenge issued)) (issued_Nonce issued) signature) (dcfg_Claims config)).

(** ** The checks of a claimed invocation

    Each failure ends the call before it is sent. *)

Section Claimed.
Context (claimed : ClaimedInvocation).

Let i : Invocation := claimed_Invocation claimed.
Let c : InvocationColumns := inv_Columns i.
Let attempt : Z := datt_ID (claimed_DispatchAttempt claimed).

Definition reject {A} (code : string) (cause : ServiceError) : Dispatching A :=
  failBeforeSend claimed code cause AuditInvocationFailed.

Definition reject_if (b : bool) (code : string) (e : DispatchError) : Dispatching unit :=
  if b then reject code (Runtime e) else ret tt.

Definition or_reject {A} (code : string) (r : result DispatchError A) : Dispatching A :=
  match r with Ok a => ret a | Err e => reject code (Runtime e) end.

Definition check_task : Dispatching OrganizationRef :=
  let! t := now in
  do! (if inv_Deadline c <=? t
       then failBeforeSend claimed "deadline_elapsed" DeadlineExceeded AuditInvocationTimedOut
       else ret tt) in
  let! ref := or_reject "task_attempt_unavailable" (GetTaskAttempt (inv_TaskID c) (inv_AttemptID c)) in
  let! t := now in
  do! or_reject "task_attempt_rejected"
        (validateTaskAttempt ref (inv_TaskID c) (inv_AttemptID c) (inv_OrganizationID c)
           (inv_SubjectRoleID c) t) in
  do! reject_if (negb (tref_OrganizationRevisionID ref =? inv_OrganizationRevisionID c))
        "task_revision_drift" ErrTaskAttemptRejected in
  let! organization := or_reject "organization_unavailable"
                         (CurrentOrganization (inv_OrganizationID c)) in
  do! reject_if (negb (oref_RevisionID organization =? inv_OrganizationRevisionID c))
        "organization_revision_drift" ErrTaskAttemptRejected in
  ret organization.

(** The CHECK on the status leaves the [default] of the switch unreachable. *)
Definition check_assignment (assignment : Z) (p : ExecutionPrincipal) : Dispatching unit :=
  let! r := store (GetByID (inv_OrganizationID c) assignment) in
  let! (a, q) := or_reject "dispatcher_assignment_unavailable" r in
  do! reject_if (negb (bool_decide (inv_ExecutionPrincipalID c = Some (prin_ID q)))
                 || negb (prin_ID q =? prin_ID p))
        "dispatcher_principal_mismatch" ErrExecutionPrincipalMismatch in
  do! reject_if (negb (bool_decide (prin_Status q = PrincipalActive)))
        "dispatcher_principal_disabled" ErrExecutionPrincipalDisabled in
  do! match asg_Status a with
      | AssignmentActive => ret tt
      | AssignmentRevoked =>
          reject "dispatcher_assignment_revoked" (Runtime ErrAssignmentUnavailable)
      | AssignmentExhausted =>
          reject "dispatcher_assignment_exhausted" (Runtime ErrAssignmentQuotaExhausted)
      | AssignmentExpired =>
          reject "dispatcher_assignment_expired" (Runtime ErrAssignmentVigencyExpired)
      end in
  let! t := now in
  let s := asg_Scope a in
  do! reject_if ((t <? asg_ValidFrom s) || (asg_ValidUntil s <=? t))
        "dispatcher_assignment_expired" ErrAssignmentVigencyExpired in
  do! reject_if (asg_MaxInvocations s <=? asg_UsedInvocations a)
        "dispatcher_assignment_exhausted" ErrAssignmentQuotaExhausted in
  reject_if (negb (asg_OrganizationRevisionID s =? inv_OrganizationRevisionID c)
             || negb (bool_decide (asg_SubjectRoleID s = inv_SubjectRoleID c))
             || negb (bool_decide (asg_DispatchActorRoleID s = inv_DispatchActorRoleID c)))
    "dispatcher_assignment_drift" ErrAssignmentRevisionDrift.

Definition pool_routed : bool := bool_decide (inv_RoutingMode c = RoutingModePool).

Definition resolve_binding : Dispatching DispatchBinding :=
  let! b := or_reject "binding_unavailable"
    (if pool_routed
     then CandidateRoute (inv_OrganizationID c) (inv_OrganizationRevisionID c) (inv_ModelProfileID c)
     else BindingOfRole (inv_OrganizationID c) (inv_OrganizationRevisionID c) (inv_SubjectRoleID c)) in
  let route := dbind_Route b in
  do! reject_if (negb (bind_VersionID route =? inv_ModelProfileVersionID c)
                 || negb (bool_decide (bind_ProfileID route = inv_ModelProfileID c))
                 || negb (bool_decide (bind_ProviderID route = inv_ProviderID c))
                 || negb (bool_decide (bind_ProviderModelID route = inv_ProviderModelID c)))
        "binding_drift" ErrBindingNotFound in
  do! reject_if (negb (pool_routed || dbind_Active b)
                 || negb (capabilitiesSatisfy (dbind_Capabilities b) (inv_RequiredCapabilities c)))
        "capability_mismatch" ErrCapabilityMismatch in
  ret b.

Definition resolve_policy (organization : OrganizationRef) : Dispatching ResolvedPolicy :=
  match inv_ModelEgressPolicyVersionID c with
  | None => reject "egress_policy_unpinned" (Runtime ErrEgressPolicyUnpinned)
  | Some v =>
      do! reject_if (is_empty (inv_ModelEgressPolicyHash c))
            "egress_policy_unpinned" ErrEgressPolicyUnpinned in
      let! p := or_reject "egress_policy_unavailable"
        (PolicyForRevision (inv_OrganizationID c) (inv_OrganizationRevisionID c)) in
      do! reject_if (match validateResolvedEgressPolicy p organization with
                     | Ok _ => false
                     | Err _ => true
                     end
                     || negb (pol_VersionID p =? v)
                     || negb (bool_decide (pol_CanonicalHash p = inv_ModelEgressPolicyHash c)))
            "egress_policy_drift" ErrEgressPolicyUnpinned in
      ret p
  end.

(** The snapshot, the input and the classes of everything the provider will see. *)
Definition load_input : Dispatching (ContextSnapshotRef * PreparedModelInput * (list string * string)) :=
  let! snapshot := or_reject "context_unavailable" (GetContextSnapshot (inv_ContextSnapshotID c)) in
  do! or_reject "context_rejected"
        (validateContext snapshot (inv_ContextSnapshotID c) (inv_TaskID c) (inv_OrganizationID c)
           (inv_SubjectRoleID c) (inv_OrganizationRevisionID c)) in
  do! match ValidateContextSnapshot (inv_ContextSnapshotID c) with
      | Ok _ => ret tt
      | Err _ => reject "context_drift" (Runtime ErrContextRejected)
      end in
  let! r := store (GetModelInput host_decode_input (inv_ID i)) in
  let! kept := or_reject "model_input_unavailable" r in
  let! input := or_reject "model_input_invalid" (ValidateStoredModelInput kept snapshot) in
  ret (snapshot, input,
       NormalizeClassifications
         (snap_DataClasses snapshot ++ elems (env_InputClassifications (pinput_Envelope input))
          ++ if HasCredentials (inv_OutputSchema c) then [ClassificationSecret] else [])%list).

(** ** The decision *)

(** [persistDecisionFailure] *)
Definition deny {A} (e : PreSendEvaluation) (code : string) (cause : ServiceError) : Dispatching A :=
  do! persist (PersistPreSendDenyAndFail
        (mkPersistDenyCommand e (claimed_ClaimToken claimed) code outboxMax)) cause in
  let! failed := persist (GetInvocation (inv_ID i)) cause in
  end_with failed cause.

(** The evaluation with its effects and its hash. *)
Definition evaluation (p : ResolvedPolicy) (b : DispatchBinding) (classes : list string * string)
    (digest matrix : string) (authorization : AuthorizationEffect) (reason : string)
    (egress : EgressEffect) (reasons : list string) : PreSendEvaluation :=
  let e hash := mkPreSendEvaluation (inv_ID i) attempt (pol_VersionID p) (pol_CanonicalHash p)
    (inv_OrganizationID c) (inv_OrganizationRevisionID c) (inv_DispatchActorRoleID c)
    (inv_SubjectRoleID c) (inv_ModelProfileVersionID c) (inv_ProviderID c)
    (bind_Transport (dbind_Route b)) digest matrix (fst classes) (snd classes) authorization reason
    egress reasons hash (inv_CorrelationID c) (inv_CausationID c) in
  e (DecisionHash (e EmptyString)).

Definition guarded_class (s : string) : bool :=
  bool_decide (s = ClassificationSecret) || bool_decide (s = ClassificationClinical).

(** The allowing evaluation, or the end of the call. *)
Definition decide_egress (organization : OrganizationRef) (p : ResolvedPolicy) (b : DispatchBinding)
    (classes : list string * string) : Dispatching PreSendEvaluation :=
  let! digest := or_reject "action_digest_failed" (invocation_digest i) in
  let evaluated := evaluation p b classes digest in
  match EvaluateDispatch (inv_OrganizationID c) (inv_OrganizationRevisionID c)
          (inv_DispatchActorRoleID c) (FormatInt (inv_ID i)) digest with
  | Err e =>
      deny (evaluated (oref_CapabilityMatrixHash organization) AuthorizationError
              "authorization_operational_error" EffectNotEvaluated [])
        "authorization_error" (Runtime e)
  | Ok d =>
      let matrix := if is_empty (adec_MatrixHash d) then oref_CapabilityMatrixHash organization
                    else adec_MatrixHash d in
      if negb (adec_Allowed d) then
        deny (evaluated matrix AuthorizationDeny (adec_ReasonCode d) EffectNotEvaluated [])
          "authorization_denied" (Runtime ErrAuthorizationDenied)
      else
        let judged := evaluated matrix AuthorizationAllow (adec_ReasonCode d) in
        let (decision, err) := EvaluateEgress
          (mkEvaluationRequest (inv_ProviderID c) (bind_Transport (dbind_Route b))
             (inv_OrganizationRevisionID c) p (fst classes)) in
        let reasons := dec_ReasonCodes decision in
        if is_some err || bool_decide (dec_Effect decision = EffectError) then
          deny (judged EffectError (match reasons with [] => ["egress_operational_error"] | _ => reasons end))
            "egress_error"
            (match err with
             | Some e => Joined (Runtime ErrEgressEvaluation) (Runtime e)
             | None => Runtime ErrEgressEvaluation
             end)
        else if negb (bool_decide (dec_Effect decision = EffectAllow)) then
          deny (judged (dec_Effect decision) reasons) "egress_denied" (Runtime ErrEgressDenied)
        else if existsb guarded_class (fst classes) then
          deny (judged EffectDeny ["egress_guard_rejected"]) "egress_guard_rejected"
            (Runtime ErrEgressDenied)
        else ret (judged EffectAllow reasons)
  end.

(** ** The adapter and the context *)

Definition find_adapter (b : DispatchBinding) : Dispatching ProviderAdapter :=
  match Adapters (inv_ProviderID c) with
  | None => reject "adapter_unavailable" (Runtime ErrProviderUnavailable)
  | Some a =>
      let d := adapter_Descriptor a in
      do! reject_if (negb (dbind_VersionEnabled b)
                     || negb (bool_decide (dbind_VersionStatus b = AdapterAvailable))
                     || negb (dbind_ProviderEnabled b)
                     || negb (bool_decide (dbind_ProviderStatus b = AdapterAvailable))
                     || negb (bool_decide (adapter_ProviderID a = inv_ProviderID c)))
            "adapter_unavailable" ErrProviderUnavailable in
      do! reject_if (match DescriptorValidate d with Ok _ => false | Err _ => true end
                     || negb (bool_decide (desc_ProviderID d = inv_ProviderID c))
                     || negb (bool_decide (desc_Transport d = bind_Transport (dbind_Route b))))
            "adapter_descriptor_invalid" ErrProviderUnavailable in
      match adapter_Preflight a (mkPreflightRequest (inv_ProviderID c) (inv_ProviderModelID c)
                                   (inv_Deadline c)) with
      | None => ret a
      | Some e =>
          let code := match aerr_Classified e with
                      | Some (_, o) => if is_empty (out_ErrorCode o) then "adapter_preflight_failed"
                                       else out_ErrorCode o
                      | None => "adapter_preflight_failed"
                      end in
          reject code (Joined (Runtime ErrProviderUnavailable) AdapterFailed)
      end
  end.

Definition render_context (snapshot : ContextSnapshotRef) (input : PreparedModelInput)
    : Dispatching string :=
  let! rendered := or_reject "context_render_failed"
                     (RenderContextSnapshot (inv_ContextSnapshotID c)) in
  do! reject_if (negb (bool_decide (env_sha256_hex rendered = snap_RenderedHash snapshot)))
        "context_render_hash_mismatch" ErrContextRejected in
  do! or_reject "model_input_context_drift" (ValidateModelInputContextRender input rendered) in
  ret rendered.

(** ** The reservation *)

(** The reservation, when the service has a gate. *)
Definition reserve_cost (input : PreparedModelInput) : Dispatching (option CostReservation) :=
  match Gate with
  | None => ret None
  | Some g =>
      let! t := now in
      let! r := gate (Gate_Reserve (gate_subscribed g) (gate_programs g)
        (mkReservationRequest (inv_OrganizationID c) (inv_TaskID c) (inv_ID i) (inv_ProviderID c)
           (inv_ProviderModelID c) (EstimateInputTokens (len (pinput_CanonicalBytes input)))
           (inv_MaxOutputTokens c)) t) in
      match r with
      | Ok res => do! modify_sys (log (Reserved res)) in ret (Some res)
      | Err e =>
          reject (if spend_error_is ErrProviderWalletNotProvisioned e
                  then "provider_wallet_not_provisioned" else "budget_exceeded") (Spending e)
      end
  end.

(** The deferred function: what it answers is dropped. *)
Definition release_unsettled (reservation : option CostReservation) : Dispatching unit :=
  fun s =>
    match reservation with
    | Some res =>
        if sys_settled s then (Ok tt, s)
        else (do! modify_sys (log (Released res)) in
              let! t := now in
              do! gate (Gate_Release res t) in ret tt) s
    | None => (Ok tt, s)
    end.

(** [defer] *)
Definition with_deferred {A} (deferred : Dispatching unit) (body : Dispatching A) : Dispatching A := fun s =>
  let (r, s1) := body s in (r, snd (deferred s1)).

Definition settlement (res : CostReservation) (usage : option ReportedUsage) : DispatchEvent :=
  if res_Subscription res then Consumed res
  else match usage with
       | Some u => Reconciled res (rep_InputTokens u) (rep_OutputTokens u)
       | None => Parked res
       end.

(** [settleNonSuccessReservation], with its guard *)
Definition settle_non_success (reservation : option CostReservation) (usage : option ModelUsage)
    : Dispatching unit :=
  match reservation with
  | None => ret tt
  | Some res =>
      let usage := (fun u => mkReportedUsage (usage_InputTokens u) (usage_OutputTokens u)) <$> usage in
      do! modify_sys (set_settled true) in
      let! t := now in
      do! modify_sys (log (settlement res usage)) in
      do! gate (settleNonSuccessReservation res usage t) in
      ret tt
  end.

(** The settlement of a call that succeeded. *)
Definition settle_success (reservation : option CostReservation) (u : ModelUsage) : Dispatching unit :=
  match reservation with
  | None => ret tt
  | Some res =>
      let! t := now in
      do! (if res_Subscription res then
             do! modify_sys (log (Consumed res)) in
             do! gate (Gate_RecordSubscriptionConsumption res t) in ret tt
           else
             do! modify_sys (log (Reconciled res (usage_InputTokens u) (usage_OutputTokens u))) in
             do! gate (Gate_Reconcile res (usage_InputTokens u) 0 (usage_OutputTokens u) t) in
             ret tt) in
      modify_sys (set_settled true)
  end.

(** ** provider_request.go *)

Definition BuildProviderRequestEvidence (r : CanonicalRequest) (d : AdapterDescriptor)
    : result DispatchError ProviderRequestEvidence :=
  let e := pinput_Envelope (call_ModelInput r) in
  check? DescriptorValidate d in
  check? rejectIf ((call_InvocationID r <=? 0) || (call_DispatchAttemptID r <=? 0)
                   || (call_OrganizationRevisionID r <=? 0) || (call_ModelProfileVersionID r <=? 0)
                   || negb (bool_decide (call_ProviderID r = desc_ProviderID d))
                   || is_empty (TrimSpace (call_ProviderModelID r))
                   || negb (len (call_ContextRenderedHash r) =? 64)
                   || negb (len (call_ProviderIdempotencyKey r) =? 64)
                   || bool_decide (call_Deadline r = zeroInstant)
                   || negb (bool_decide (env_SchemaVersion e = ModelInputEnvelopeSchemaV1))
                   || negb (env_ContextSnapshotID e =? call_ContextSnapshotID r)
                   || negb (digest_ok (pinput_CanonicalDigest (call_ModelInput r)))
                   || negb (digest_ok (env_StablePrefixDigest e))
                   || negb (digest_ok (env_InputClassificationsHash e))) ErrRuntimeInvalidRequest in
  let capabilities := order_by string_le
    (List.filter (fun s => negb (is_empty s)) (TrimSpace <$> call_RequiredCapabilities r)) in
  let schemaHash := if is_empty (call_OutputSchema r) then EmptyString
                    else env_sha256_hex (call_OutputSchema r) in
  let body := json_digest (JObj [
    ("schema_version", JStr (desc_RequestSchemaVersion d));
    ("adapter_id", JStr (desc_AdapterID d)); ("adapter_version", JInt (desc_AdapterVersion d));
    ("invocation_id", JInt (call_InvocationID r));
    ("dispatch_attempt_id", JInt (call_DispatchAttemptID r));
    ("organization_id", JStr (call_OrganizationID r));
    ("organization_revision_id", JInt (call_OrganizationRevisionID r));
    ("task_id", JInt (call_TaskID r)); ("attempt_id", JInt (call_AttemptID r));
    ("dispatch_actor_role_id", JStr (call_DispatchActorRoleID r));
    ("subject_role_id", JStr (call_SubjectRoleID r));
    ("model_profile_id", JStr (call_ModelProfileID r));
    ("model_profile_version_id", JInt (call_ModelProfileVersionID r));
    ("provider_id", JStr (call_ProviderID r)); ("provider_model_id", JStr (call_ProviderModelID r));
    ("provider_idempotency_key", JStr (call_ProviderIdempotencyKey r));
    ("context_snapshot_id", JInt (call_ContextSnapshotID r));
    ("context_rendered_hash", JStr (call_ContextRenderedHash r));
    ("model_input_schema_version", JStr (env_SchemaVersion e));
    ("model_input_digest", JStr (pinput_CanonicalDigest (call_ModelInput r)));
    ("stable_prefix_digest", JStr (env_StablePrefixDigest e));
    ("input_classifications_hash", JStr (env_InputClassificationsHash e));
    ("required_capabilities", JArr (JStr <$> capabilities));
    ("output_mode", JStr (output_mode_text (call_OutputMode r)));
    ("output_schema_hash", JStr schemaHash); ("max_output_tokens", JInt (call_MaxOutputTokens r));
    ("temperature", match call_Temperature r with Some t => JNum t | None => JNull end);
    ("thinking_mode", JStr (call_ThinkingMode r)); ("reasoning_effort", JStr (call_ReasoningEffort r));
    ("deadline", JTime (call_Deadline r));
    ("endpoint_fingerprint", JStr (desc_EndpointFingerprint d));
    ("credential_reference_hash", JStr (desc_CredentialRefHash d))]) in
  Ok (mkProviderRequestEvidence (call_ModelProfileID r) (call_ProviderModelID r) (desc_AdapterID d)
        (desc_AdapterVersion d) (desc_RequestSchemaVersion d) (desc_ResponseSchemaVersion d) body
        (desc_EndpointFingerprint d) (desc_CredentialRefHash d)).

Definition idempotency_key : string :=
  env_sha256_hex (inv_OrganizationID c +:+ ":" +:+ FormatInt (inv_ID i) +:+ ":" +:+ FormatInt attempt).

Definition canonical_request (b : DispatchBinding) (rendered : string) (input : PreparedModelInput)
    : CanonicalRequest :=
  mkCanonicalRequest (inv_ID i) attempt (inv_OrganizationID c) (inv_OrganizationRevisionID c)
    (inv_TaskID c) (inv_AttemptID c) (inv_DispatchActorRoleID c) (inv_SubjectRoleID c)
    (inv_ModelProfileID c) (inv_ModelProfileVersionID c) (inv_ProviderID c) (inv_ProviderModelID c)
    idempotency_key (dbind_ReasoningEffort b) (inv_ContextSnapshotID c) (env_sha256_hex rendered)
    rendered input (inv_RequiredCapabilities c) (inv_OutputMode c) (inv_OutputSchema c)
    (inv_MaxOutputTokens c) (inv_Temperature c) (inv_ThinkingMode c) (inv_Deadline c).

(** ** What became of the call *)

Definition normalizationFailureRawContentBound : Z := 16 * 1024.

Definition recoveredUsage (raw : RawResponse) : option ModelUsage :=
  if raw_ProviderReported raw then Some (normalized_usage i attempt raw) else None.

Definition outcome_class_text (o : OutcomeClass) : string :=
  match o with
  | ProviderOutcomeResponseReceived => "response_received"
  | ProviderOutcomeRejected => "provider_rejected"
  | ProviderOutcomeNotSent => "request_not_sent"
  | ProviderOutcomeAmbiguous => "ambiguous_transport"
  | ProviderOutcomeCancelled => "cancelled_confirmed"
  | ProviderOutcomeOther s => s
  end.

(** An outcome with the fields a literal gives. *)
Definition cancelled_outcome (raw : RawResponse) (d : AdapterDescriptor) : ProviderOutcome :=
  mkProviderOutcome ProviderOutcomeCancelled (raw_ProviderRequestID raw) EmptyString 0 None
    EmptyString EmptyString false (env_sha256_hex (raw_Content raw)) (desc_ResponseSchemaVersion d)
    true EmptyString None false None None None None EmptyString None None EmptyString None None None.

Definition ambiguous_outcome (code : string) (d : AdapterDescriptor) : ProviderOutcome :=
  mkProviderOutcome ProviderOutcomeAmbiguous EmptyString EmptyString 0 None "adapter" code true
    EmptyString (desc_ResponseSchemaVersion d) false EmptyString None false None None None None
    EmptyString None None EmptyString None None None.

Definition received_outcome (raw : RawResponse) (d : AdapterDescriptor) : ProviderOutcome :=
  mkProviderOutcome ProviderOutcomeResponseReceived (raw_ProviderRequestID raw) EmptyString 200 None
    EmptyString EmptyString false (env_sha256_hex (raw_Content raw)) (desc_ResponseSchemaVersion d)
    false EmptyString None false None None None None EmptyString None None EmptyString None None None.

Definition failure (code classification : string) (outcome : option ProviderOutcome)
    (usage : option ModelUsage) (raw : option string) : FailureCommand :=
  failure_of claimed code classification EmptyString outcome usage raw.

(** What the classifier does not recognize as unsent may have reached the provider. *)
Definition unrecognized (reservation : option CostReservation) (d : AdapterDescriptor)
    (e : AdapterError) : Dispatching DispatchResult :=
  do! settle_non_success reservation None in
  let code := if aerr_DeadlineExceeded e then "provider_timeout_after_send"
              else "adapter_error_after_send" in
  let! j := persist (MarkAmbiguous
    (failure code "ambiguous_external_outcome" (Some (ambiguous_outcome code d)) None None)
    (if aerr_DeadlineExceeded e then AuditInvocationTimedOut else AuditInvocationAmbiguous) outboxMax)
    AdapterFailed in
  end_with j (Runtime ErrAmbiguousOutcome).

(** A cancellation that was asked for and that the provider confirmed; otherwise the
    error is not recognized. *)
Definition cancelled_or_unrecognized (reservation : option CostReservation) (d : AdapterDescriptor)
    (raw : RawResponse) (e : AdapterError) : Dispatching DispatchResult :=
  if aerr_Canceled e && raw_CancellationConfirmed raw then
    let! requested := persist (CancellationRequested (inv_ID i)) AdapterFailed in
    if (requested : bool) then
      let! j := persist (MarkCancelled
        (failure "adapter_cancelled" "cancelled_confirmed" (Some (cancelled_outcome raw d)) None None)
        outboxMax) AdapterFailed in
      end_with j (Runtime ErrCancellationRequested)
    else unrecognized reservation d e
  else unrecognized reservation d e.

Definition adapter_failed (reservation : option CostReservation) (d : AdapterDescriptor)
    (raw : RawResponse) (e : AdapterError) : Dispatching DispatchResult :=
  match aerr_Classified e with
  | Some (Some AdapterFailureBeforeRequest, o) =>
      let! j := persist (FailCommittedBeforeRequest
        (failure (out_ErrorCode o) (outcome_class_text (out_Classification o)) (Some o) None None)
        o outboxMax) AdapterFailed in
      end_with j AdapterFailed
  | Some (Some AdapterFailureResponseReceived, o) =>
      let usage := recoveredUsage raw in
      let! j := persist (RejectProviderResponse
        (failure (out_ErrorCode o) (outcome_class_text (out_Classification o)) (Some o) usage None)
        o outboxMax) AdapterFailed in
      do! settle_non_success reservation usage in
      end_with j AdapterFailed
  | Some (Some AdapterFailureAmbiguous, o) =>
      do! settle_non_success reservation None in
      let! j := persist (MarkAmbiguous
        (failure (out_ErrorCode o) (outcome_class_text (out_Classification o)) (Some o) None None)
        (if aerr_DeadlineExceeded e then AuditInvocationTimedOut else AuditInvocationAmbiguous)
        outboxMax) AdapterFailed in
      end_with j (Runtime ErrAmbiguousOutcome)
  | _ => cancelled_or_unrecognized reservation d raw e
  end.

(** The provider says it cancelled the call it answered. *)
Definition confirmed_cancellation : Dispatching DispatchResult :=
  let! requested := stored (CancellationRequested (inv_ID i)) in
  if (requested : bool) then
    let! j := stored (MarkCancelled
      (failure "adapter_cancelled" "cancelled_confirmed" None None None) outboxMax) in
    end_with j (Runtime ErrCancellationRequested)
  else
    let! j := stored (FailAfterResponse
      (failure "provider_cancelled_without_request" "provider_cancelled_without_request" None None None)
      outboxMax) in
    end_with j (Runtime ErrResponseRejected).

Definition answered (reservation : option CostReservation) (d : AdapterDescriptor)
    (raw : RawResponse) : Dispatching DispatchResult :=
  let o := if bool_decide (out_Classification (raw_ProviderOutcome raw)
                           = ProviderOutcomeOther EmptyString)
           then received_outcome raw d else raw_ProviderOutcome raw in
  let usage := recoveredUsage raw in
  let! r := store (MarkResponseReceived (inv_ID i) attempt (claimed_ClaimToken claimed) o) in
  match r with
  | Err e => do! settle_non_success reservation usage in fail (Runtime e)
  | Ok j =>
      match Normalize (mkNormalizer (dcfg_MaxResponseBytes config) (dcfg_MaxToolIntents config)) j
              attempt raw with
      | Err NormalizePanics => fail Panicked
      | Err ResponseRejected =>
          let! failed := persist (FailAfterResponse
            (failure "response_normalization_failed" "response_received_rejected" None usage
               (Some (boundedPrefix (raw_Content raw) normalizationFailureRawContentBound)))
            outboxMax) (Runtime ErrResponseRejected) in
          do! settle_non_success reservation usage in
          end_with failed (Runtime ErrResponseRejected)
      | Ok normalized =>
          if nresp_CancellationConfirmed normalized then confirmed_cancellation
          else
            do! settle_success reservation (nresp_Usage normalized) in
            stored (CompleteInvocation host_valid_json
              (mkCompletionCommand (inv_ID j) attempt (claimed_ClaimToken claimed) normalized) outboxMax)
      end
  end.

(** ** Sending *)

(** The allowing decision is made durable with the send, and the provider is called. *)
Definition send (e : PreSendEvaluation) (a : ProviderAdapter) (request : CanonicalRequest)
    (reservation : option CostReservation) : Dispatching DispatchResult :=
  let d := adapter_Descriptor a in
  let! evidence := or_reject "provider_request_evidence_invalid"
                     (BuildProviderRequestEvidence request d) in
  let! hostNow := now in
  let! usedAt := now in
  let allow := mkPersistAllowCommand e (claimed_ClaimToken claimed) idempotency_key evidence
                 (inv_Deadline c) in
  do! stored (PersistPreSendAllowAndMarkSendStarted hostNow usedAt allow) in
  do! modify_sys (log (Allowed allow)) in
  do! stored (GetInvocation (inv_ID i)) in
  let! (raw, failed) := call_adapter a request in
  match failed with
  | Some err => adapter_failed reservation d raw err
  | None => answered reservation d raw
  end.

(** From the claim to the end of the call. *)
Definition dispatch_claimed (assignment : Z) (p : ExecutionPrincipal) : Dispatching DispatchResult :=
  let! organization := check_task in
  do! check_assignment assignment p in
  let! b := resolve_binding in
  let! policy := resolve_policy organization in
  let! (snapshot, input, classes) := load_input in
  let! e := decide_egress organization policy b classes in
  let! a := find_adapter b in
  let! rendered := render_context snapshot input in
  let! reservation := reserve_cost input in
  with_deferred (release_unsettled reservation)
    (send e a (canonical_request b rendered input) reservation).

End Claimed.

Definition Dispatch (id : Z) : Dispatching DispatchResult :=
  do! fail_if (negb (dcfg_Enabled config)) (Runtime ErrDisabled) in
  do! fail_if (id <=? 0) (Runtime ErrRuntimeInvalidRequest) in
  let principalKey := TrimSpace (dcfg_ExecutionPrincipalKey config) in
  do! fail_if (is_empty principalKey) (Runtime ErrRuntimeInvalidRequest) in
  let! p := or_fail (PrincipalByKey organizationID principalKey) in
  do! fail_if (negb (bool_decide (prin_Status p = PrincipalActive)))
        (Runtime ErrExecutionPrincipalDisabled) in
  let! i := stored (GetInvocation id) in
  let! (assignment, version) := require_pins id i p in
  let! claimed := claim_authenticated id i p assignment version in
  do! modify_sys (set_settled false) in
  dispatch_claimed claimed assignment p.

End ServiceCalls.
