(* ===== verification/NormalizerProps.v ===== *)
(** * Properties of the normalizer

    A schema that was accepted never makes the check of an answer panic, and what
    the normalizer lets through is within the limits, canonical and of the shape
    that was asked for. *)

From stdpp Require Import base tactics list gmap strings.
From Stdlib Require Import ZArith Lia Ascii.
From S2P Require Import Prelude GoLib Json TaskDomain Database DispatchDB Schema Normalizer.
From S2P Require Import JsonProps Scenario DispatchMachine.

Local Open Scope string_scope.
Local Open Scope Z_scope.

(** ** Schemas *)

Lemma and_then_panics (a b : Verdict) :
  and_then a b = Panics <-> a = Panics \/ (a = Matches /\ b = Panics).
Proof. destruct a; simpl; naive_solver. Qed.

Lemma and_then_matches (a b : Verdict) : and_then a b = Matches <-> a = Matches /\ b = Matches.
Proof. destruct a; simpl; naive_solver. Qed.

Lemma verdict_safe (b : bool) : verdict b <> Panics.
Proof. by destruct b. Qed.

Lemma check_all_safe {A} (check : A -> Verdict) (l : list A) :
  Forall (fun x => check x <> Panics) l -> check_all check l <> Panics.
Proof.
  induction 1 as [|x l Hx _ IH]; simpl; [done|]. rewrite and_then_panics. naive_solver.
Qed.

Lemma any_get_in (k : string) (m : list (string * Any)) (v : Any) :
  any_get k m = Some v -> (k, v) ∈ m.
Proof.
  induction m as [|[k' v'] m IH]; simpl; [done|].
  destruct (decide (k = k')) as [->|]; intros; simplify_eq; set_solver.
Qed.

Lemma keyword_ok (k : string) (ok : Any -> bool) (m : list (string * Any)) (v : Any) :
  keyword k ok m = true -> any_get k m = Some v -> ok v = true.
Proof. unfold keyword. intros Hk Hv. by rewrite Hv in Hk. Qed.

(** What the checks of a value rely on. *)
Record safe_schema (n : nat) (m : list (string * Any)) : Prop := {
  safe_type v : any_get "type" m = Some v -> exists t, v = AString t;
  safe_required l : any_get "required" m = Some (AArray l) -> Forall (fun v => exists s, v = AString s) l;
  safe_property k v : any_get k (schema_properties m) = Some v ->
    exists c, v = AObject c /\ validateSchemaDefinition n c = true;
  safe_items c : schema_items m = Some c -> validateSchemaDefinition n c = true }.

Lemma required_strings (l : list Any) : forall seen,
  required_ok seen l = true -> Forall (fun v => exists s, v = AString s) l.
Proof.
  induction l as [|v l IH]; intros seen H; [constructor|]. destruct v; simpl in H; try done.
  rewrite !andb_true_iff in H. destruct H as [_ H]. constructor; [by eexists|by eapply IH].
Qed.

Lemma accepted_schema (levels : nat) (m : list (string * Any)) :
  validateSchemaDefinition levels m = true -> exists n, levels = S n /\ safe_schema n m.
Proof.
  destruct levels as [|n]; [done|]. intros H. exists n. split; [done|].
  cbn [validateSchemaDefinition] in H. rewrite !andb_true_iff in H.
  destruct H as (((((((((Ht & Hr) & Hp) & Hi) & _) & _) & _) & _) & _) & _). split.
  - intros v Hv. pose proof (keyword_ok _ _ _ _ Ht Hv) as H. destruct v; try done. by eexists.
  - intros l Hl. pose proof (keyword_ok _ _ _ _ Hr Hl) as H.
    exact (required_strings _ _ H).
  - intros k v. unfold schema_properties. destruct (any_get "properties" m) as [[]|] eqn:Hm; try done.
    intros Hv. pose proof (keyword_ok _ _ _ _ Hp Hm) as H. cbn beta iota in H.
    rewrite forallb_forall in H. apply any_get_in, list_elem_of_In, H in Hv.
    apply andb_true_iff in Hv as [_ Hv]. destruct v; try done. by eexists.
  - intros c. unfold schema_items. destruct (any_get "items" m) as [[]|] eqn:Hm; try done.
    intros [= <-]. exact (keyword_ok _ _ _ _ Hi Hm).
Qed.

Lemma check_here_safe (n : nat) (v : Any) (m : list (string * Any)) :
  safe_schema n m -> check_here v m <> Panics.
Proof.
  intros Hs. unfold check_here. rewrite !and_then_panics.
  assert (Ht : check_type v m <> Panics).
  { unfold check_type. destruct (any_get "type" m) as [t|] eqn:Hm; [|done].
    destruct (safe_type n m Hs _ Hm) as [s ->]. apply verdict_safe. }
  assert (Hb : forall k f, check_bound k f v m <> Panics).
  { intros k f. unfold check_bound. destruct (_ ≫= _); [|done].
    destruct (parseFiniteRat v); [apply verdict_safe|done]. }
  assert (He : check_enum v m <> Panics).
  { unfold check_enum. destruct (any_get "enum" m) as [[]|]; try done. apply verdict_safe. }
  pose proof (Hb "minimum" Rat_lt). pose proof (Hb "maximum" (fun v b => Rat_lt b v)).
  naive_solver.
Qed.

Lemma check_required_safe (n : nat) (obj m : list (string * Any)) :
  safe_schema n m -> check_required obj m <> Panics.
Proof.
  intros Hs. unfold check_required. destruct (any_get "required" m) as [[]|] eqn:Hm; try done.
  apply check_all_safe. eapply Forall_impl; [by eapply safe_required|].
  intros v [s ->]. apply verdict_safe.
Qed.

(** The entries of an object and the elements of an array. *)
Definition check_entries (m : list (string * Any)) : list (string * Any) -> Verdict :=
  check_all (fun '(k, v) =>
    match any_get k (schema_properties m) with
    | Some (AObject child) => validateAgainstSchema v child
    | Some _ => Panics
    | None => verdict (additional_allowed m)
    end).

Lemma validate_object (obj m : list (string * Any)) :
  validateAgainstSchema (AObject obj) m
  = and_then (check_here (AObject obj) m) (and_then (check_required obj m) (check_entries m obj)).
Proof.
  cbn [validateAgainstSchema]. do 2 f_equal. unfold check_entries.
  induction obj as [|[k v] obj IH]; [done|]. cbn [check_all]. by rewrite <- IH.
Qed.

Lemma validate_array (l : list Any) (m : list (string * Any)) :
  validateAgainstSchema (AArray l) m
  = and_then (check_here (AArray l) m)
      match schema_items m with
      | Some child => check_all (fun v => validateAgainstSchema v child) l
      | None => Matches
      end.
Proof.
  cbn [validateAgainstSchema]. f_equal. destruct (schema_items m); [|done].
  induction l as [|v l IH]; [done|]. cbn [check_all]. by rewrite <- IH.
Qed.

Lemma accepted_schema_safe (v : Any) : forall levels m,
  validateSchemaDefinition levels m = true -> validateAgainstSchema v m <> Panics.
Proof.
  induction v as [|b|s|s|l IH|obj IH] using Any_ind_nested; intros levels m H;
    destruct (accepted_schema _ _ H) as (n & -> & Hs);
    pose proof (check_here_safe n) as Hh.
  1-4: cbn [validateAgainstSchema]; rewrite and_then_panics; naive_solver.
  - rewrite validate_array, and_then_panics. intros [Hp|[_ Hp]]; [by eapply Hh|].
    destruct (schema_items m) as [child|] eqn:Hi; [|done].
    revert Hp. apply check_all_safe. eapply Forall_impl; [exact IH|].
    intros v Hv. eapply Hv. by eapply safe_items.
  - rewrite validate_object, !and_then_panics.
    intros [Hp|[_ [Hp|[_ Hp]]]]; [by eapply Hh|by eapply check_required_safe|].
    revert Hp. apply check_all_safe. eapply Forall_impl; [exact IH|]. intros [k v] Hv. simpl.
    destruct (any_get k (schema_properties m)) as [w|] eqn:Hk; [|apply verdict_safe].
    destruct (safe_property n m Hs _ _ Hk) as (c & -> & Hc). by eapply Hv.
Qed.

(** ** The parts of a response *)

Lemma valid_utf8_spec (fuel : nat) : forall l, valid_utf8 fuel l = true -> utf8 l.
Proof.
  induction fuel as [|n IH]; intros [|c r]; try done; [constructor..|]. cbn [valid_utf8].
  destruct (Z.ltb_spec (byte_of c) 128) as [Hc|Hc]; [intros; constructor; [done|by apply IH]|].
  destruct (rune_size (c :: r)) as [|k] eqn:Hk; [done|]. intros H%IH.
  pose proof (rune_size_le (c :: r)) as Hl. rewrite Hk in Hl.
  pose proof (rune_size_lead _ _ _ Hk) as Hlead.
  destruct r as [|d [|e [|f r]]]; simpl in Hl; destruct Hlead as [[-> _]|[[-> _]|[-> _]]]; try lia;
    simpl drop in H.
  all: first [ apply utf8_2; [by eapply rune_size_2|done] | apply utf8_3; [by eapply rune_size_3|done]
             | apply utf8_4; [by eapply rune_size_4|done] ].
Qed.

Lemma reject_response_ok (b : bool) (u : unit) : reject_response b = Ok u <-> b = false.
Proof. apply rejectIf_ok. Qed.

Lemma accepted_ok {A} (o : option A) (a : A) : accepted o = Ok a <-> o = Some a.
Proof. destruct o; simpl; naive_solver. Qed.

(** Canonical, and not blank. *)
Definition canonical (s : string) : Prop := CanonicalizeRawJSON s = Some s /\ blank s = false.

Lemma canonical_text_ok (raw c : string) :
  canonical_text raw = Ok c -> CanonicalizeRawJSON raw = Some c /\ canonical c.
Proof.
  unfold canonical_text. intros H. apply rbind_ok in H as (b & Hb%accepted_ok & H).
  apply check_ok_bind in H as [He%reject_response_ok H]. injection H as ->.
  destruct (canonical_idempotent _ _ Hb) as [Hi Hn]. split; [done|]. split; [done|].
  apply canonical_form in Hb. destruct (blank raw); [by subst c|by rewrite Hn].
Qed.

(** What a tool intent of a stored response is. *)
Record typed_intent (i : ToolIntent) : Prop := {
  typed_id : intent_ID i = EmptyString \/ MatchString modelInputCallIDPattern (intent_ID i) = true;
  typed_name : MatchString toolNamePattern (intent_Name i) = true;
  typed_arguments : canonical (intent_Arguments i) }.

Definition call_ids (l : list ToolIntent) : list string :=
  filter (fun s => is_empty s = false) (intent_ID <$> l).

Lemma text_nonneg (s : string) : 0 <= len s.
Proof. unfold len. lia. Qed.

Lemma normalize_intents_ok (limit : Z) (raws : list RawToolIntent) :
  forall seen total intents sum,
  normalize_intents limit seen total raws = Ok (intents, sum) ->
  length intents = length raws
  /\ Forall typed_intent intents
  /\ (forall s, s ∈ seen -> s ∉ call_ids intents) /\ NoDup (call_ids intents)
  /\ sum = total + intents_bytes intents.
Proof.
  induction raws as [|i raws IH]; intros seen total intents sum H; cbn [normalize_intents] in H.
  { injection H as <- <-. unfold call_ids. simpl. split_and!; [done|constructor| |constructor|lia].
    intros s _ Hs. by apply elem_of_nil in Hs. }
  apply check_ok_bind in H as [Hid%reject_response_ok H].
  apply check_ok_bind in H as [Hseen%reject_response_ok H].
  apply check_ok_bind in H as [Hname%reject_response_ok H].
  apply rbind_ok in H as (args & [_ Hargs]%canonical_text_ok & H).
  apply check_ok_bind in H as [_ H].
  apply rbind_ok in H as ([l n] & Hrest & H). injection H as <- <-.
  apply IH in Hrest as (Hl & Ht & Hs & Hn & ->). cbn [length fst snd].
  set (callID := TrimSpace (rintent_ID i)) in *.
  assert (Hids : call_ids (mkToolIntent callID (TrimSpace (rintent_Name i)) args :: l)
                 = if is_empty callID then call_ids l else callID :: call_ids l).
  { unfold call_ids. cbn [fmap list_fmap intent_ID]. rewrite filter_cons. by destruct (is_empty callID). }
  rewrite Hids. split_and!.
  - by rewrite Hl.
  - constructor; [|done]. split; [|by apply negb_false_iff|done]. simpl.
    destruct (is_empty callID) eqn:He; [left|right].
    + by apply bool_decide_eq_true in He.
    + by apply negb_false_iff in Hid.
  - intros s Hin. destruct (is_empty callID) eqn:He; [by apply Hs|].
    simpl in Hseen. apply bool_decide_eq_false in Hseen.
    intros [->|Hc]%elem_of_cons; [done|]. by apply (Hs s); [right|].
  - destruct (is_empty callID); [done|]. constructor; [|done]. apply Hs. left.
  - unfold intents_bytes. simpl. lia.
Qed.

Lemma boundedReasoning_len (s : string) (limit : Z) :
  1 <= limit -> len (boundedReasoning s limit) <= limit.
Proof.
  intros Hl. unfold boundedReasoning. destruct (is_empty s) eqn:He; [unfold len; simpl; lia|].
  destruct (Z.ltb_spec 0 limit); [|lia]. destruct (Z.ltb_spec limit (len s)); simpl; [|lia].
  rewrite <- to_bytes_length, to_of_bytes. rewrite length_take. lia.
Qed.

Lemma match_schema_ok (canonical schemaText : string) (u : unit) :
  match_schema canonical schemaText = Ok u -> is_empty schemaText = false ->
  exists v m, decodeJSONWithNumbers canonical = Some v
    /\ decodeJSONWithNumbers schemaText = Some (AObject m) /\ validateAgainstSchema v m = Matches.
Proof.
  unfold match_schema. intros H He. rewrite He in H.
  apply rbind_ok in H as (v & Hv%accepted_ok & H). apply rbind_ok in H as (s & Hs%accepted_ok & H).
  destruct s as [| | | | |m]; try done. exists v, m.
  destruct (validateAgainstSchema v m); by split_and!.
Qed.

(** ** Responses *)

(** The schema of a call is empty, or was accepted when the call was created. *)
Definition schema_accepted (schemaText : string) : Prop :=
  is_empty schemaText = true
  \/ exists m, decodeJSONWithNumbers schemaText = Some (AObject m)
               /\ validateSchemaDefinition maxSchemaLevels m = true.

Record typed_response (n : Normalizer) (i : Invocation) (raw : RawResponse)
    (r : InvocationResult) (u : ModelUsage) : Prop := {
  typed_mode : result_OutputMode r = inv_OutputMode (inv_Columns i);
  typed_size : result_ResponseBytes r
    = len (result_TextOutput r) + len (result_JSONOutput r) + intents_bytes (result_ToolIntents r);
  typed_limit : 0 <= result_ResponseBytes r <= norm_MaxResponseBytes n;
  typed_intents : Forall typed_intent (result_ToolIntents r) /\ NoDup (call_ids (result_ToolIntents r));
  typed_count : Z.of_nat (length (result_ToolIntents r)) <= norm_MaxToolIntents n;
  typed_text : result_OutputMode r = OutputText ->
    result_TextOutput r = raw_Content raw /\ utf8 (to_bytes (raw_Content raw));
  typed_json : result_OutputMode r = OutputJSON ->
    CanonicalizeRawJSON (raw_Content raw) = Some (result_JSONOutput r)
    /\ canonical (result_JSONOutput r);
  typed_schema : result_OutputMode r = OutputJSON ->
    is_empty (inv_OutputSchema (inv_Columns i)) = false ->
    exists v m, decodeJSONWithNumbers (result_JSONOutput r) = Some v
      /\ decodeJSONWithNumbers (inv_OutputSchema (inv_Columns i)) = Some (AObject m)
      /\ validateAgainstSchema v m = Matches;
  typed_usage : 0 <= usage_InputTokens u /\ 0 <= usage_OutputTokens u
    /\ usage_TotalTokens u = usage_InputTokens u + usage_OutputTokens u
    /\ int64 (usage_TotalTokens u) }.

Section Normalize.
Context {env : Env}.

Lemma normalize_output_ok (n : Normalizer) (i : Invocation) (raw : RawResponse)
    (intents : list ToolIntent) (total size : Z) (text json : string) :
  normalize_output n i raw intents total = Ok (text, json, size) ->
  total = len (raw_Content raw) + intents_bytes intents -> total <= norm_MaxResponseBytes n ->
  size = len text + len json + intents_bytes intents /\ size <= norm_MaxResponseBytes n
  /\ match inv_OutputMode (inv_Columns i) with
     | OutputText => text = raw_Content raw /\ utf8 (to_bytes text)
     | OutputJSON => CanonicalizeRawJSON (raw_Content raw) = Some json /\ canonical json
         /\ match_schema json (inv_OutputSchema (inv_Columns i)) = Ok tt
     end.
Proof.
  unfold normalize_output. destruct (inv_OutputMode (inv_Columns i)); intros H -> Ht.
  - apply check_ok_bind in H as [Hu%reject_response_ok H]. injection H as <- <- <-.
    apply negb_false_iff, valid_utf8_spec in Hu. split_and!; [unfold len; simpl; lia|done..].
  - apply rbind_ok in H as (c & [Hc Hcc]%canonical_text_ok & H).
    apply rbind_ok in H as ([] & Hm & H). apply check_ok_bind in H as [Hl%reject_response_ok H].
    injection H as <- <- <-. split_and!; [unfold len; simpl; lia|lia|done..].
Qed.

Lemma intents_bytes_nonneg (l : list ToolIntent) : 0 <= intents_bytes l.
Proof.
  induction l as [|i l IH]; simpl; [lia|].
  pose proof (text_nonneg (intent_Name i)). pose proof (text_nonneg (intent_Arguments i)).
  unfold intents_bytes in *. simpl. lia.
Qed.

Lemma Normalize_ok (n : Normalizer) (i : Invocation) (attempt : Z) (raw : RawResponse)
    (resp : NormalizedResponse) :
  Normalize n i attempt raw = Ok resp ->
  typed_response n i raw (nresp_Result resp) (nresp_Usage resp)
  /\ (result_InvocationID (nresp_Result resp), result_DispatchAttemptID (nresp_Result resp))
     = (inv_ID i, attempt)
  /\ (usage_InvocationID (nresp_Usage resp), usage_DispatchAttemptID (nresp_Usage resp))
     = (inv_ID i, attempt)
  /\ len (nresp_RoleReasoning resp) <= norm_MaxResponseBytes n
  /\ nresp_ProviderRequestID resp = raw_ProviderRequestID raw
  /\ len (raw_ProviderRequestID raw) <= 400
  /\ nresp_CancellationConfirmed resp = raw_CancellationConfirmed raw.
Proof.
  unfold Normalize. intros H.
  apply check_ok_bind in H as [[Hmax Hmin]%reject_response_ok%orb_false_iff H].
  apply check_ok_bind in H as [Hcount%reject_response_ok H].
  apply check_ok_bind in H as [Hreq%reject_response_ok H].
  apply check_ok_bind in H as [Htokens%reject_response_ok H].
  rewrite !orb_false_iff in Htokens. destruct Htokens as [[Hin Hout] Hsum].
  apply rbind_ok in H as ([intents total] & Hi & H).
  apply check_ok_bind in H as [Htotal%reject_response_ok H].
  apply rbind_ok in H as ([[text json] size] & Ho & H).
  apply rbind_ok in H as (body & _ & H). injection H as <-.
  apply normalize_intents_ok in Hi as (Hlen & Htyped & _ & Hnodup & Hsumb).
  apply normalize_output_ok in Ho as (Hsize & Hlimit & Hshape); [|lia|lia].
  pose proof (intents_bytes_nonneg intents). pose proof (text_nonneg text). pose proof (text_nonneg json).
  cbn [nresp_Result nresp_Usage nresp_RoleReasoning nresp_ProviderRequestID nresp_CancellationConfirmed].
  split_and!; [|done|done|apply boundedReasoning_len; lia|done|lia|done].
  assert (Hw : wrap64 (raw_InputTokens raw + raw_OutputTokens raw)
               = raw_InputTokens raw + raw_OutputTokens raw /\ int64 (raw_InputTokens raw + raw_OutputTokens raw)).
  { assert (int64 (raw_InputTokens raw + raw_OutputTokens raw))
      by (unfold int64, minInt64, two63 in *; lia). by rewrite wrap64_id. }
  split; unfold normalized_result, normalized_usage; simpl; try done; try lia.
  - intros Hm. rewrite Hm in Hshape. by destruct Hshape as [<- ?].
  - intros Hm. rewrite Hm in Hshape. by destruct Hshape as (? & ? & _).
  - intros Hm. rewrite Hm in Hshape. apply (match_schema_ok _ _ tt), Hshape.
  - rewrite (proj1 Hw). split_and!; [lia|lia|done|apply Hw].
Qed.

(** *** Errors *)

Definition only_rejects {A} (m : norm A) : Prop := forall e, m = Err e -> e = ResponseRejected.

Lemma only_rejects_bind {A B} (m : norm A) (f : A -> norm B) :
  only_rejects m -> (forall a, m = Ok a -> only_rejects (f a)) -> only_rejects (rbind m f).
Proof. intros Hm Hf e [He|(a & Ha & He)]%rbind_err; [by apply Hm|by eapply Hf]. Qed.

Lemma only_rejects_ok {A} (a : A) : only_rejects (Ok a).
Proof. done. Qed.

Lemma only_rejects_check (b : bool) : only_rejects (reject_response b).
Proof. intros e [_ ->]%rejectIf_err. done. Qed.

Lemma only_rejects_option {A} (o : option A) : only_rejects (accepted o).
Proof. intros e. destruct o; [done|]. by intros [= <-]. Qed.

Create HintDb rejects.
#[local] Hint Resolve only_rejects_bind only_rejects_ok only_rejects_check only_rejects_option : rejects.

Lemma canonical_text_rejects (raw : string) : only_rejects (canonical_text raw).
Proof. unfold canonical_text. eauto 6 with rejects. Qed.

#[local] Hint Resolve canonical_text_rejects : rejects.

Lemma normalize_intents_rejects (limit : Z) (raws : list RawToolIntent) :
  forall seen total, only_rejects (normalize_intents limit seen total raws).
Proof.
  induction raws as [|i raws IH]; intros seen total; cbn [normalize_intents]; [auto with rejects|].
  repeat (apply only_rejects_bind; [auto with rejects|intros ? _]). auto with rejects.
Qed.

Lemma match_schema_rejects (canonical schemaText : string) :
  schema_accepted schemaText -> only_rejects (match_schema canonical schemaText).
Proof.
  unfold match_schema. intros [->|(m & Hm & Hs)]; [auto with rejects|].
  destruct (is_empty schemaText); [auto with rejects|].
  apply only_rejects_bind; [auto with rejects|intros v _]. rewrite Hm. simpl.
  pose proof (accepted_schema_safe v _ _ Hs). destruct (validateAgainstSchema v m); try done.
  by intros e [= <-].
Qed.

Lemma normalize_output_rejects (n : Normalizer) (i : Invocation) (raw : RawResponse)
    (intents : list ToolIntent) (total : Z) :
  schema_accepted (inv_OutputSchema (inv_Columns i)) ->
  only_rejects (normalize_output n i raw intents total).
Proof.
  intros Hs. unfold normalize_output. destruct (inv_OutputMode (inv_Columns i)); [eauto with rejects|].
  apply only_rejects_bind; [auto with rejects|intros c _].
  apply only_rejects_bind; [by apply match_schema_rejects|]. eauto with rejects.
Qed.

Lemma Normalize_rejects (n : Normalizer) (i : Invocation) (attempt : Z) (raw : RawResponse) :
  schema_accepted (inv_OutputSchema (inv_Columns i)) -> only_rejects (Normalize n i attempt raw).
Proof.
  intros Hs. unfold Normalize. do 4 (apply only_rejects_bind; [auto with rejects|intros ? _]).
  apply only_rejects_bind; [apply normalize_intents_rejects|]. intros [intents total] _.
  apply only_rejects_bind; [auto with rejects|intros ? _].
  apply only_rejects_bind; [by apply normalize_output_rejects|]. intros [[text json] size] _.
  eauto with rejects.
Qed.

End Normalize.

(** C28: An answer that is stored is of the shape that was asked for.  When the schema of the call is
    one that [validateSchemaDefinition] accepts, normalizing never panics on it, whatever the
    provider sent; and what is not rejected has its output in the mode of the call (a valid UTF-8
    text, or a canonical JSON text whose value matches the schema), canonical tool intents with
    names and call IDs of their patterns and no repeated ID, a size that is exact and within the
    limits, and a token usage whose total does not overflow. *)
Theorem normalized_responses_are_typed {env : Env} (n : Normalizer) (i : Invocation) (attempt : Z)
    (raw : RawResponse) :
  schema_accepted (inv_OutputSchema (inv_Columns i)) ->
  match Normalize n i attempt raw with
  | Ok resp =>
      typed_response n i raw (nresp_Result resp) (nresp_Usage resp)
      /\ result_InvocationID (nresp_Result resp) = inv_ID i
      /\ result_DispatchAttemptID (nresp_Result resp) = attempt
      /\ len (nresp_RoleReasoning resp) <= norm_MaxResponseBytes n
  | Err e => e = ResponseRejected
  end.
Proof.
  intros Hs. destruct (Normalize n i attempt raw) as [resp|e] eqn:Hn.
  - apply Normalize_ok in Hn as (Ht & [= <- <-] & _ & Hr & _). by split_and!.
  - by eapply Normalize_rejects.
Qed.

(** An object with a boolean [ok] and nothing else, asked of the demonstration call. *)
Definition demo_schema : string :=
  encodeCanonical (AObject
    [("additionalProperties", ABool false);
     ("properties", AObject [("ok", AObject [("type", AString "boolean")]);
                             ("why", AObject [("maxLength", ANumber "40"); ("type", AString "string")])]);
     ("required", AArray [AString "ok"]);
     ("type", AString "object")]).

Definition demo_json_call : Invocation :=
  let c := demo_columns "k" in
  mkInvocation 1
    (mkInvocationColumns (inv_OrganizationID c) (inv_OrganizationRevisionID c) (inv_TaskID c)
       (inv_AttemptID c) (inv_DispatchActorRoleID c) (inv_SubjectRoleID c)
       (inv_DispatcherAssignmentID c) (inv_ExecutionPrincipalID c) (inv_ContextSnapshotID c)
       (inv_Purpose c) (inv_ModelProfileID c) (inv_ModelProfileVersionID c) (inv_ProviderID c)
       (inv_ProviderModelID c) (inv_ModelEgressPolicyVersionID c) (inv_ModelEgressPolicyHash c)
       (inv_ExecutionIdentityPolicyVersionID c) (inv_ExecutionIdentityPolicyHash c)
       (inv_RequiredCapabilities c) OutputJSON demo_schema (inv_MaxOutputTokens c)
       (inv_Temperature c) (inv_ThinkingMode c) (inv_IdempotencyKey c) (inv_RequestHash c)
       (inv_IdempotencyIntentHash c) (inv_RoutingMode c) (inv_RoutingPolicyID c)
       (inv_RoutingSelectorID c) (inv_RoutingCandidateSetHash c) (inv_RoutingCandidateHash c)
       (inv_RoutingDecisionReason c) (inv_Deadline c) (inv_CorrelationID c) (inv_CausationID c))
    InvocationResponseReceived "" None 0 0 None.

Definition demo_answer (ok : Any) : RawResponse :=
  mkRawResponse (encodeCanonical (AObject [("why", AString "<done>"); ("ok", ok)]))
    [mkRawToolIntent " call-1 " "lookup" "[1.0, {}]"] "thinking" "req-1" 20 10 true false
    (demo_outcome ProviderOutcomeResponseReceived 200) None None.

Definition demo_limits : Normalizer := mkNormalizer 1024 4.

Lemma normalized_responses_are_typed_witness :
  Normalize demo_limits demo_json_call 1 (demo_answer (AString "yes")) = Err ResponseRejected
  /\ exists resp, Normalize demo_limits demo_json_call 1 (demo_answer (ABool true)) = Ok resp
       /\ typed_response demo_limits demo_json_call (demo_answer (ABool true)) (nresp_Result resp)
            (nresp_Usage resp).
Proof.
  split; [vm_compute; reflexivity|].
  pose proof (normalized_responses_are_typed demo_limits demo_json_call 1 (demo_answer (ABool true)))
    as Ht.
  destruct (Normalize demo_limits demo_json_call 1 (demo_answer (ABool true))) as [resp|e] eqn:Hn.
  - exists resp. split; [reflexivity|]. apply Ht. right.
    assert (Hd : exists m, decodeJSONWithNumbers demo_schema = Some (AObject m))
      by (eexists; vm_compute; reflexivity).
    destruct Hd as [m Hm]. exists m. split; [exact Hm|].
    assert (Hv : match decodeJSONWithNumbers demo_schema with
                 | Some (AObject m) => validateSchemaDefinition maxSchemaLevels m
                 | _ => false
                 end = true) by (vm_compute; reflexivity).
    rewrite Hm in Hv. exact Hv.
  - vm_compute in Hn. discriminate Hn.
Defined.
