(* ===== verification/ModelInputProps.v ===== *)
(** * Properties of model inputs

    What was prepared and stored for a call is what the call is sent with: the
    stored text of a prepared input passes the check before the dispatch, and
    decodes to the same envelope. *)

From stdpp Require Import base tactics list gmap strings pretty sorting.
From Stdlib Require Import ZArith Lia Ascii.
From S2P Require Import Prelude GoLib Json TaskDomain Database StoreHelpers StoreRead TaskValidation.
From S2P Require Import Patterns JsonProps DispatchDB Egress EgressProps Schema Normalizer ModelInput.
From S2P Require Import NormalizerProps Scenario.

Local Open Scope string_scope.
Local Open Scope Z_scope.

(** ** UTF-8 *)

(** A pattern of ASCII classes. *)
Fixpoint ascii_only (r : regex) : bool :=
  match r with
  | RNone | REps => true
  | RCls ranges => forallb (fun '(_, hi) => byte_of hi <? 128) ranges
  | RAlt r1 r2 | RSeq r1 r2 => ascii_only r1 && ascii_only r2
  | RStar r => ascii_only r
  end.

Lemma ascii_only_matches (r : regex) (l : bytes) :
  matches r l -> ascii_only r = true -> Forall (fun c => byte_of c < 128) l.
Proof.
  induction 1 as [|ranges c Hc| | |r1 r2 l1 l2 _ IH1 _ IH2| |r l1 l2 _ IH1 _ IH2]; simpl; intros Hr.
  - constructor.
  - constructor; [|constructor]. unfold in_class in Hc. rewrite existsb_exists in Hc.
    destruct Hc as ([lo hi] & Hin & Hc). rewrite forallb_forall in Hr.
    specialize (Hr _ Hin). simpl in Hr. lia.
  - apply andb_true_iff in Hr as [? ?]. auto.
  - apply andb_true_iff in Hr as [? ?]. auto.
  - apply andb_true_iff in Hr as [? ?]. apply Forall_app. auto.
  - constructor.
  - apply Forall_app. auto.
Qed.

Lemma ascii_utf8 (l : bytes) : Forall (fun c => byte_of c < 128) l -> utf8 l.
Proof. induction 1; by constructor. Qed.

Lemma MatchString_utf8 (r : regex) (s : string) :
  ascii_only r = true -> MatchString r s = true -> utf8 (to_bytes s).
Proof.
  intros Hr Hs. apply ascii_utf8. eapply ascii_only_matches; [|done]. by apply run_regex_spec.
Qed.

Lemma utf8_lead (c : ascii) (r : bytes) : utf8 (c :: r) -> byte_of c < 128 \/ 194 <= byte_of c.
Proof.
  intros Hu. inversion Hu as [|? ? Hc|? d ? Hs|? d e ? Hs|? d e f ? Hs]; subst; [by left|right..];
    apply rune_size_lead in Hs; lia.
Qed.

(** The bytes after the first of a sequence continue it. *)
Lemma rune_size_cont (c : ascii) (r : bytes) (n : nat) :
  rune_size (c :: r) = S n -> length r = n -> Forall (fun d => 128 <= byte_of d <= 191) r.
Proof.
  intros Hs Hl. pose proof (rune_size_lead _ _ _ Hs) as Hn.
  destruct r as [|d [|e [|f [|g r]]]]; simpl in Hl; subst n; try lia; revert Hs; unfold rune_size, is_cont;
    repeat (case_match; try done); rewrite ?andb_true_iff, ?within_spec in *; intros _;
    repeat constructor; repeat case_match; unfold within in *; lia.
Qed.

Lemma utf8_suffix (p r : bytes) : utf8 p -> utf8 (p ++ r) -> utf8 r.
Proof.
  induction 1 as [|c p Hc _ IH|c d p Hs _ IH|c d e p Hs _ IH|c d e f p Hs _ IH]; simpl; [done|..];
    intros Hu; inversion Hu; subst; auto;
    repeat match goal with H : rune_size _ = _ |- _ => apply rune_size_lead in H end; lia.
Qed.

Lemma utf8_prefix (l : bytes) : utf8 l -> forall (r : bytes) c (p : bytes),
  l = (r ++ c :: p)%list -> byte_of c < 128 \/ 194 <= byte_of c -> utf8 r.
Proof.
  induction 1 as [|x l Hx _ IH|x y l Hs _ IH|x y z l Hs _ IH|x y z t l Hs _ IH]; intros r c p Hl Hc.
  1: by destruct r.
  all: try (pose proof (rune_size_cont _ _ _ Hs eq_refl) as Hk; rewrite !Forall_cons in Hk).
  all: destruct r as [|x' r]; [constructor|]; injection Hl as <- Hl.
  1: constructor; [done|by eapply IH].
  all: destruct r as [|y' r]; injection Hl as ? Hl; subst; [lia|].
  1: apply utf8_2; [done|by eapply IH].
  all: destruct r as [|z' r]; injection Hl as ? Hl; subst; [lia|].
  1: apply utf8_3; [done|by eapply IH].
  destruct r as [|t' r]; injection Hl as ? Hl; subst; [lia|]. apply utf8_4; [done|by eapply IH].
Qed.

(** *** Trimming *)

Definition leads (p : bytes) : Prop :=
  match p with c :: _ => byte_of c < 128 \/ 194 <= byte_of c | [] => False end.

Lemma space_runes_utf8 : Forall (fun p => utf8 p /\ leads p) space_runes.
Proof.
  repeat (apply Forall_cons; split; [split; [|vm_compute; intuition congruence]|]); [..|constructor].
  1-6: by repeat constructor.
  1-2: apply utf8_2; [reflexivity|constructor].
  all: apply utf8_3; [reflexivity|constructor].
Qed.

Lemma strip_all_left (fuel : nat) : forall l, utf8 l -> utf8 (strip_all fuel space_runes l).
Proof.
  induction fuel as [|n IH]; intros l Hl; cbn [strip_all]; [done|].
  destruct (strip_any space_runes l) as [r|] eqn:Hs; [|done]. apply IH.
  apply strip_any_spec in Hs as (p & Hp & ->). pose proof space_runes_utf8 as Ha.
  rewrite Forall_forall in Ha. eapply utf8_suffix; [|exact Hl]. by apply Ha.
Qed.

Lemma strip_all_right (fuel : nat) : forall l : bytes,
  utf8 (rev l) -> utf8 (rev (strip_all fuel (map (@rev ascii) space_runes) l)).
Proof.
  induction fuel as [|n IH]; intros l Hl; cbn [strip_all]; [done|].
  destruct (strip_any _ l) as [r|] eqn:Hs; [|done]. apply IH.
  apply strip_any_spec in Hs as (p & Hp & ->). apply list_elem_of_fmap in Hp as (q & -> & Hq).
  pose proof space_runes_utf8 as Ha. rewrite Forall_forall in Ha. destruct (Ha q Hq) as [_ Hlead].
  rewrite rev_app_distr, rev_involutive in Hl. destruct q as [|c q]; [done|].
  by eapply utf8_prefix.
Qed.

Lemma TrimSpace_utf8 (s : string) : utf8 (to_bytes s) -> utf8 (to_bytes (TrimSpace s)).
Proof.
  intros Hs. unfold TrimSpace, trim_bytes, trim_left. rewrite to_of_bytes.
  apply strip_all_right. rewrite rev_involutive. by apply strip_all_left.
Qed.

(** ** Decimal numbers *)

Lemma pretty_digits (x : N) : forall (s : string), (0 < x)%N ->
  exists c l, to_bytes (pretty_N_go x s) = ((c :: l) ++ to_bytes s)%list
    /\ byte_of c <> 48 /\ Forall (fun c => digit_byte c = true) (c :: l)
    /\ decimal_value (c :: l) = Z.of_N x.
Proof.
  induction (N.lt_wf_0 x) as [x _ IH]; intros s Hx.
  rewrite pretty_N_go_step by done.
  assert (Hc : exists d, (d < 10)%N /\ pretty_N_char (x mod 10) = chr (48 + Z.of_N d) /\ (x mod 10 = d)%N).
  { exists (x mod 10)%N. pose proof (N.mod_lt x 10 ltac:(done)) as Hm. split; [done|]. split; [|done].
    destruct (x mod 10)%N as [|[p|p|]]; try reflexivity; repeat (destruct p; try reflexivity; try lia). }
  destruct Hc as (d & Hd & Hcd & Hmod).
  assert (Hdig : digit_byte (chr (48 + Z.of_N d)) = true /\ byte_of (chr (48 + Z.of_N d)) = 48 + Z.of_N d).
  { unfold digit_byte. rewrite within_spec, byte_of_chr by lia. lia. }
  pose proof (N.div_mod x 10 ltac:(done)) as Hdm. rewrite Hmod in Hdm.
  destruct (decide (0 < x / 10)%N) as [Hq|Hq].
  - destruct (IH (x / 10)%N) with (s := String (pretty_N_char (x mod 10)) s) as (c & l & -> & H0 & Hl & Hv).
    { apply N.div_lt; lia. } { done. }
    exists c, (l ++ [chr (48 + Z.of_N d)])%list. split_and!.
    + simpl. rewrite Hcd, <- app_assoc. done.
    + done.
    + change (c :: l ++ ?x)%list with ((c :: l) ++ x)%list. apply Forall_app. split; [done|].
      constructor; [apply Hdig|constructor].
    + unfold decimal_value in *. change (c :: l ++ ?x)%list with ((c :: l) ++ x)%list.
      rewrite fold_left_app, Hv. cbn [fold_left]. rewrite (proj2 Hdig). lia.
  - assert (x / 10 = 0)%N as H0 by lia. rewrite H0 in *. rewrite pretty_N_go_0.
    exists (chr (48 + Z.of_N d)), []. split_and!.
    + simpl. by rewrite Hcd.
    + rewrite (proj2 Hdig). lia.
    + constructor; [apply Hdig|constructor].
    + unfold decimal_value. cbn [fold_left]. rewrite (proj2 Hdig). lia.
Qed.

Lemma span_all_digits (l : bytes) :
  Forall (fun c => digit_byte c = true) l -> span_digits l = (l, []).
Proof. induction 1 as [|c l Hc _ IH]; simpl; [done|]. by rewrite Hc, IH. Qed.

(** The literal of a positive int64 is read back. *)
Lemma FormatInt_read (z : Z) :
  0 < z -> int64 z ->
  scan_number (to_bytes (FormatInt z)) = Some (to_bytes (FormatInt z), [])
  /\ Number_Int64 (FormatInt z) = Some z.
Proof.
  intros Hz Hint. destruct z as [|p|p]; try lia.
  assert (Hl : exists c l, to_bytes (FormatInt (Zpos p)) = c :: l /\ byte_of c <> 48
            /\ Forall (fun c => digit_byte c = true) (c :: l) /\ decimal_value (c :: l) = Zpos p).
  { destruct (pretty_digits (Npos p) "" ltac:(lia)) as (c & l & Hl & Hr). exists c, l.
    rewrite app_nil_r in Hl. by split. }
  destruct Hl as (c & l & Hl & H0 & Hd & Hv). unfold Number_Int64, scan_number. rewrite Hl.
  pose proof (Forall_inv Hd) as Hc. pose proof Hc as Hc'. unfold digit_byte in Hc'. rewrite within_spec in Hc'.
  rewrite (scan_one_stop (is_byte 45) (c :: l)) by (apply is_byte_false; lia).
  rewrite span_all_digits by done. split.
  - unfold scan_integer. rewrite is_byte_false by done. unfold scan_digits.
    rewrite span_all_digits by done. cbn -[app]. by rewrite !app_nil_r.
  - rewrite Hv. cbn beta iota zeta. unfold int64 in Hint.
    destruct (Z.leb_spec minInt64 (Zpos p)); [|lia]. destruct (Z.leb_spec (Zpos p) maxInt64); [done|lia].
Qed.

(** ** Reading back *)

(** The values of an envelope that are not strings of known shape. *)
Definition raw_ok (s : string) : Prop := exists v,
  decodeJSONWithNumbers s = Some v /\ encodeCanonical v = s /\ is_empty s = false.

Lemma canonical_raw_ok (s : string) : canonical s -> raw_ok s.
Proof.
  intros [Hc Hb]. apply canonical_form in Hc. rewrite Hb in Hc. destruct Hc as (v & Hv & Hs & _).
  exists v. split_and!; [done|done|]. destruct (is_empty s) eqn:He; [|done].
  apply bool_decide_eq_true in He. rewrite He in Hb. discriminate Hb.
Qed.

Definition ustring (s : string) : Prop := utf8 (to_bytes s).

Definition call_ok (c : ModelInputToolCall) : Prop :=
  ustring (tcall_ID c) /\ ustring (tcall_Name c) /\ raw_ok (tcall_Arguments c).

Definition message_ok (m : ModelInputMessage) : Prop :=
  ustring (mmsg_Role m) /\ ustring (mmsg_Content m) /\ ustring (mmsg_ToolCallID m)
  /\ ustring (mmsg_ToolName m) /\ Forall call_ok (mmsg_ToolCalls m).

Definition tool_ok (t : ModelInputToolDefinition) : Prop :=
  ustring (tdef_Name t) /\ ustring (tdef_Description t) /\ raw_ok (tdef_InputSchema t).

Record envelope_ok (e : ModelInputEnvelope) : Prop := {
  ok_version : ustring (env_SchemaVersion e);
  ok_snapshot : 0 < env_ContextSnapshotID e /\ int64 (env_ContextSnapshotID e);
  ok_projection : ustring (env_CanonicalProjectionDigest e);
  ok_prefix : Forall message_ok (elems (env_StablePrefix e));
  ok_prefix_digest : ustring (env_StablePrefixDigest e);
  ok_history : Forall message_ok (elems (env_VisibleHistory e));
  ok_tools : Forall tool_ok (elems (env_ToolDefinitions e));
  ok_continuation : ustring (env_ProviderContinuationRef e);
  ok_classes : Forall ustring (elems (env_InputClassifications e));
  ok_classes_hash : ustring (env_InputClassificationsHash e) }.

(** A value reads back, and is one the decoder can build. *)
Definition reads_back {A} (marshal : A -> option Any) (unmarshal : Any -> option A) (a : A) : Prop :=
  forall v, marshal a = Some v -> unmarshal v = Some a /\ exists d, well_formed d v.

Lemma reads_back_list {A} (f : A -> option Any) (g : Any -> option A) (l : list A) (vs : list Any) :
  Forall (reads_back f g) l -> mapM f l = Some vs ->
  mapM g vs = Some l /\ exists d, Forall (well_formed d) vs.
Proof.
  intros Hl. revert vs. induction Hl as [|a l Ha _ IH]; intros vs H; simpl in H.
  - injection H as <-. split; [done|]. by exists 0%nat.
  - destruct (f a) as [v|] eqn:Hv; [|done]. simpl in H. destruct (mapM f l) as [ws|]; [|done].
    injection H as <-. destruct (IH ws eq_refl) as (Hg & d & Hd). destruct (Ha v Hv) as (Hgv & d' & Hd').
    split; [simpl; by rewrite Hgv, Hg|]. exists (max d d'). constructor; [eapply wf_mono; [|done]; lia|].
    eapply Forall_impl; [exact Hd|]. intros w Hw. eapply wf_mono; [|done]. lia.
Qed.

Lemma reads_back_slice {A} (f : A -> option Any) (g : Any -> option A) (s : option (list A)) :
  Forall (reads_back f g) (elems s) ->
  reads_back (marshal_slice f) (fun v => unmarshal_slice g (Some v)) s.
Proof.
  intros Hs v Hv. destruct s as [l|]; simpl in *.
  - destruct (mapM f l) as [vs|] eqn:Hm; [|done]. injection Hv as <-.
    destruct (reads_back_list f g l vs Hs Hm) as (Hg & d & Hd). rewrite Hg. split; [done|].
    exists (S d). by constructor.
  - injection Hv as <-. split; [done|]. exists 0%nat. constructor.
Qed.

Lemma raw_reads_back (s : string) : raw_ok s ->
  reads_back marshal_raw (fun v => Some (unmarshal_raw (Some v))) s.
Proof.
  intros (v & Hv & Hs & He) w Hw. unfold marshal_raw in Hw. rewrite He, Hv in Hw. injection Hw as <-.
  simpl. rewrite Hs. split; [done|]. exists maxNestingDepth. by eapply decode_wf.
Qed.

Lemma any_get_here (k : string) (v : Any) (m : list (string * Any)) : any_get k ((k, v) :: m) = Some v.
Proof. simpl. by rewrite decide_True. Qed.

Lemma any_get_there (k k' : string) (v : Any) (m : list (string * Any)) :
  k <> k' -> any_get k ((k', v) :: m) = any_get k m.
Proof. intros Hk. simpl. by rewrite decide_False. Qed.

Ltac get_keys :=
  repeat first [rewrite any_get_here | rewrite any_get_there by discriminate];
  repeat match goal with |- context [any_get _ []] => change (any_get _ []) with (@None Any) end.

Lemma empty_string (s : string) : is_empty s = true -> s = EmptyString.
Proof. apply bool_decide_eq_true. Qed.

(** An optional string is there or empty. *)
Ltac optional s :=
  let Hs := fresh "Hs" in
  cbv beta delta [omit_empty]; destruct (is_empty s) eqn:Hs; [apply empty_string in Hs|]; cbn [app].

Ltac entries :=
  repeat match goal with
    | |- Forall _ (_ :: _) => constructor
    | |- Forall _ [] => constructor
    | |- _ /\ _ => split
    | |- utf8 (to_bytes (fst _)) => apply ascii_utf8; repeat constructor
    | |- well_formed _ (snd _) => cbn [snd]
    | |- well_formed _ (AString _) => constructor; done
    end.

Lemma call_reads_back (c : ModelInputToolCall) :
  call_ok c -> reads_back marshal_tool_call unmarshal_tool_call c.
Proof.
  intros (Hi & Hn & Ha) v Hv. unfold marshal_tool_call in Hv.
  destruct (marshal_raw (tcall_Arguments c)) as [a|] eqn:Hm; [|done]. injection Hv as <-.
  destruct (raw_reads_back _ Ha a Hm) as ([= Hr] & d & Hd). split.
  - unfold unmarshal_tool_call, unmarshal_struct. get_keys. unfold unmarshal_raw in *. rewrite Hr.
    by destruct c.
  - exists (S d). constructor; [repeat constructor|]. entries; done.
Qed.

Lemma tool_reads_back (t : ModelInputToolDefinition) :
  tool_ok t -> reads_back marshal_tool unmarshal_tool t.
Proof.
  intros (Hn & Hd & Ha) v Hv. unfold marshal_tool in Hv.
  destruct (marshal_raw (tdef_InputSchema t)) as [a|] eqn:Hm; [|done]. injection Hv as <-.
  destruct (raw_reads_back _ Ha a Hm) as ([= Hr] & d & Hw). unfold unmarshal_raw in Hr.
  optional (tdef_Description t); (split;
    [unfold unmarshal_tool, unmarshal_struct; get_keys; unfold unmarshal_raw; rewrite Hr;
     destruct t; cbn in *; by subst
    |exists (S d); constructor; [repeat constructor|]; entries; done]).
Qed.

Lemma message_reads_back (m : ModelInputMessage) :
  message_ok m -> reads_back marshal_message unmarshal_message m.
Proof.
  intros (Hr & Hc & Hi & Hn & Hl) v Hv. unfold marshal_message in Hv.
  destruct (mapM marshal_tool_call (mmsg_ToolCalls m)) as [calls|] eqn:Hm; [|done].
  cbn [mbind option_bind] in Hv. injection Hv as <-.
  destruct (reads_back_list marshal_tool_call unmarshal_tool_call (mmsg_ToolCalls m) calls)
    as (Hg & d & Hd); [|done|]. { eapply Forall_impl; [exact Hl|]. apply call_reads_back. }
  assert (Hcalls : unmarshal_slice unmarshal_tool_call
                     (match calls with [] => None | _ => Some (AArray calls) end)
                   = Some (match calls with [] => None | _ => Some (mmsg_ToolCalls m) end)).
  { destruct calls; [done|]. unfold unmarshal_slice. by rewrite Hg. }
  assert (Helems : elems (match calls with [] => None | _ => Some (mmsg_ToolCalls m) end)
                   = mmsg_ToolCalls m).
  { destruct calls; [|done]. by injection Hg as <-. }
  optional (mmsg_Content m); optional (mmsg_ToolCallID m); optional (mmsg_ToolName m);
    destruct calls as [|c calls]; cbn [app]; (split;
    [unfold unmarshal_message, unmarshal_struct; get_keys; rewrite Hcalls; cbn [mbind option_bind];
     unfold unmarshal_string; rewrite Helems; destruct m; cbn in *; by subst
    |exists (S (S d)); constructor; [repeat constructor|]; entries; try done; by constructor]).
Qed.

Lemma string_reads_back (s : string) :
  ustring s -> reads_back marshal_string (fun v => unmarshal_string (Some v)) s.
Proof. intros Hs v [= <-]. split; [done|]. exists 0%nat. by constructor. Qed.

Lemma envelope_reads_back (e : ModelInputEnvelope) :
  envelope_ok e -> reads_back marshal_envelope unmarshal_envelope e.
Proof.
  intros [Hver [Hpos Hint] Hproj Hprefix Hpd Hhist Htools Hcont Hclasses Hch] v Hv.
  unfold marshal_envelope in Hv.
  destruct (marshal_slice marshal_message (env_VisibleHistory e)) as [history|] eqn:Hh; [|done].
  destruct (marshal_slice marshal_message (env_StablePrefix e)) as [prefix|] eqn:Hp; [|done].
  destruct (marshal_slice marshal_tool (env_ToolDefinitions e)) as [tools|] eqn:Ht; [|done].
  destruct (marshal_slice marshal_string (env_InputClassifications e)) as [classes|] eqn:Hc; [|done].
  cbn [mbind option_bind] in Hv. injection Hv as <-.
  apply (reads_back_slice _ unmarshal_message) in Hh as (Hgh & dh & Hdh);
    [|eapply Forall_impl; [exact Hhist|apply message_reads_back]].
  apply (reads_back_slice _ unmarshal_message) in Hp as (Hgp & dp & Hdp);
    [|eapply Forall_impl; [exact Hprefix|apply message_reads_back]].
  apply (reads_back_slice _ unmarshal_tool) in Ht as (Hgt & dt & Hdt);
    [|eapply Forall_impl; [exact Htools|apply tool_reads_back]].
  apply (reads_back_slice _ (fun v => unmarshal_string (Some v))) in Hc as (Hgc & dc & Hdc);
    [|eapply Forall_impl; [exact Hclasses|apply string_reads_back]].
  destruct (FormatInt_read _ Hpos Hint) as [Hscan Hread].
  set (d := (dh + dp + dt + dc)%nat).
  apply (wf_mono _ _ d) in Hdh, Hdp, Hdt, Hdc; [|lia..].
  optional (env_ProviderContinuationRef e); (split;
    [unfold unmarshal_envelope, unmarshal_struct; get_keys; rewrite Hgh, Hgp, Hgt, Hgc;
     cbn [unmarshal_string unmarshal_int64]; rewrite Hread; cbn [mbind option_bind];
     destruct e; cbn in *; by subst
    |exists (S d); constructor; [repeat constructor|]; entries; try done; by constructor]).
Qed.

(** The canonical text of an envelope decodes to its value. *)
Lemma envelope_text (e : ModelInputEnvelope) (v : Any) (text : string) :
  envelope_ok e -> marshal_envelope e = Some v -> CanonicalJSON v = Some text ->
  decodeJSONWithNumbers text = Some v /\ unmarshal_envelope v = Some e /\ is_empty text = false.
Proof.
  intros He Hv Ht. destruct (envelope_reads_back e He v Hv) as (Hu & d & Hd).
  unfold CanonicalJSON in Ht. destruct (decode_bytes (encode_any v)) as [w|] eqn:Hw; [|done].
  injection Ht as <-. pose proof (decode_encode_deep _ _ _ Hd Hw) as ->.
  apply decode_wf in Hw. split_and!; [by apply encodeCanonical_decode|done|].
  pose proof (encode_not_blank _ _ Hw) as Hn. destruct (is_empty (encodeCanonical v)) eqn:Hi; [|done].
  apply empty_string in Hi. rewrite Hi in Hn. discriminate Hn.
Qed.

(** ** Normalized inputs *)

Lemma canonicalized (raw c : string) :
  CanonicalizeRawJSON raw = Some c -> is_empty c = false -> canonical c.
Proof.
  intros Hc He. destruct (canonical_idempotent _ _ Hc) as [Hi Hb]. split; [done|]. rewrite Hb.
  apply canonical_form in Hc. destruct (blank raw); [by subst c|done].
Qed.

Lemma canonical_not_empty (c : string) : canonical c -> is_empty c = false.
Proof. intros (v & _ & _ & He)%canonical_raw_ok. done. Qed.

Lemma call_id_utf8 (s : string) : MatchString modelInputCallIDPattern s = true -> ustring s.
Proof. by apply MatchString_utf8. Qed.

Lemma tool_name_utf8 (s : string) : MatchString toolNamePattern s = true -> ustring s.
Proof. by apply MatchString_utf8. Qed.

Lemma reject_invalid_ok (b : bool) (u : unit) : reject_invalid b = Ok u <-> b = false.
Proof. apply rejectIf_ok. Qed.

Lemma reject_context_ok (b : bool) (u : unit) : reject_context b = Ok u <-> b = false.
Proof. apply rejectIf_ok. Qed.

Lemma or_invalid_ok {A} (o : option A) (a : A) : or_invalid o = Ok a <-> o = Some a.
Proof. destruct o; simpl; naive_solver. Qed.

Lemma or_context_ok {A} (o : option A) (a : A) : or_context o = Ok a <-> o = Some a.
Proof. destruct o; simpl; naive_solver. Qed.

(** A check that passes. *)
Ltac passed H :=
  match type of H with
  | rbind (reject_invalid _) _ = _ =>
      let Hb := fresh "Hb" in apply check_ok_bind in H as [Hb%reject_invalid_ok H]
  | rbind (reject_context _) _ = _ =>
      let Hb := fresh "Hb" in apply check_ok_bind in H as [Hb%reject_context_ok H]
  end.

Lemma normalize_calls_ok (l : list ModelInputToolCall) : forall seen l' seen',
  normalize_calls seen l = Ok (l', seen') ->
  Forall call_ok l' /\ normalize_calls seen l' = Ok (l', seen').
Proof.
  induction l as [|c l IH]; intros seen l' seen' H; cbn [normalize_calls] in H.
  { injection H as <- <-. split; [constructor|done]. }
  passed H. passed H. apply rbind_ok in H as (args & Ha%or_invalid_ok & H). passed H.
  apply rbind_ok in H as ([r s] & Hr & H). injection H as <- <-.
  apply IH in Hr as [Hok Hid]. apply orb_false_iff in Hb as [Hi Hn].
  pose proof (canonicalized _ _ Ha Hb1) as Hc. cbn [fst snd]. split.
  - constructor; [|done]. apply negb_false_iff in Hi, Hn.
    split_and!; [by apply call_id_utf8|by apply tool_name_utf8|by apply canonical_raw_ok].
  - cbn [normalize_calls tcall_ID tcall_Name tcall_Arguments]. rewrite !TrimSpace_idempotent, Hi, Hn, Hb0.
    rewrite (proj1 Hc), Hid. cbn -[is_empty]. by rewrite Hb1.
Qed.

Definition role_known (m : ModelInputMessage) : bool :=
  is_role ModelInputRoleSystem m || is_role ModelInputRoleUser m || is_role ModelInputRoleAssistant m
  || is_role ModelInputRoleTool m.

Lemma role_known_ustring (m : ModelInputMessage) : role_known m = true -> ustring (mmsg_Role m).
Proof.
  unfold role_known, is_role. intros H. rewrite !orb_true_iff, !bool_decide_eq_true in H.
  destruct H as [[[->| ->]| ->]| ->]; apply ascii_utf8; repeat constructor.
Qed.

Lemma empty_ustring : ustring EmptyString.
Proof. constructor. Qed.

Lemma normalize_message_ok (m m' : ModelInputMessage) (history : bool) (seen seen' : list string) :
  ustring (mmsg_Content m) ->
  normalizeModelInputMessage m history seen = Ok (m', seen') ->
  message_ok m' /\ normalizeModelInputMessage m' history seen = Ok (m', seen')
  /\ mmsg_Role m' = mmsg_Role m /\ mmsg_Content m' = mmsg_Content m.
Proof.
  intros Hcontent H. assert (Hrole : role_known m = true).
  { unfold normalizeModelInputMessage, role_known in *. destruct (is_role ModelInputRoleSystem m); [done|].
    destruct (is_role ModelInputRoleUser m); [done|]. destruct (is_role ModelInputRoleAssistant m); [done|].
    by destruct (is_role ModelInputRoleTool m). }
  apply role_known_ustring in Hrole. unfold normalizeModelInputMessage in H.
  destruct (is_role ModelInputRoleSystem m || is_role ModelInputRoleUser m) eqn:Hsu.
  { passed H. injection H as <- <-. pose proof Hb as Hf. rewrite !orb_false_iff, !negb_false_iff in Hf.
    destruct Hf as ((((_ & _) & Hi%empty_string) & Hn%empty_string) & Hl).
    apply bool_decide_eq_true in Hl. split_and!; [|unfold normalizeModelInputMessage|done|done].
    - unfold message_ok. rewrite Hi, Hn, Hl.
      split_and!; [done|done|apply empty_ustring|apply empty_ustring|constructor].
    - rewrite Hsu, Hb. done. }
  destruct (is_role ModelInputRoleAssistant m) eqn:Ha.
  { passed H. apply rbind_ok in H as ([l s] & Hl & H). injection H as <- <-. cbn [fst snd].
    pose proof Hb as Hf. rewrite !orb_false_iff, !negb_false_iff in Hf.
    destruct Hf as (((Hh & Hc) & Hi%empty_string) & Hn%empty_string).
    pose proof (normalize_calls_ok _ _ _ _ Hl) as [Hok Hid].
    split_and!; [|unfold normalizeModelInputMessage|done|done].
    - unfold message_ok. cbn. rewrite Hi, Hn.
      split_and!; [done|done|apply empty_ustring|apply empty_ustring|done].
    - unfold is_role in *. cbn [mmsg_Role mmsg_Content mmsg_ToolCallID mmsg_ToolName mmsg_ToolCalls].
      rewrite Hsu, Ha, Hid.
      assert (Hnil : bool_decide (l = []) = bool_decide (mmsg_ToolCalls m = [])).
      { apply bool_decide_ext. destruct (mmsg_ToolCalls m) as [|c k]; cbn [normalize_calls] in Hl.
        - by injection Hl as <- _.
        - split; [|done]. intros ->. do 2 passed Hl. apply rbind_ok in Hl as (? & _ & Hl).
          passed Hl. apply rbind_ok in Hl as ([] & _ & Hl). done. }
      rewrite Hnil, Hb. done. }
  destruct (is_role ModelInputRoleTool m) eqn:Ht; [|done].
  passed H. passed H. injection H as <- <-. pose proof Hb as Hf.
  rewrite !orb_false_iff, !negb_false_iff in Hf. destruct Hf as ((((_ & _) & Hi) & Hn) & Hl).
  apply bool_decide_eq_true in Hl. split_and!; [|unfold normalizeModelInputMessage|done|done].
  - unfold message_ok. cbn. rewrite Hl.
    split_and!; [done|done|by apply call_id_utf8|by apply tool_name_utf8|constructor].
  - unfold is_role in *. cbn [mmsg_Role mmsg_Content mmsg_ToolCallID mmsg_ToolName mmsg_ToolCalls].
    rewrite Hsu, Ha, Ht, !TrimSpace_idempotent, Hb, Hb0. done.
Qed.

Lemma normalize_messages_ok (history : bool) (l : list ModelInputMessage) : forall seen l' seen',
  Forall (fun m => ustring (mmsg_Content m)) l ->
  normalize_messages history seen l = Ok (l', seen') ->
  Forall message_ok l' /\ normalize_messages history seen l' = Ok (l', seen')
  /\ (mmsg_Role <$> l') = (mmsg_Role <$> l) /\ (mmsg_Content <$> l') = (mmsg_Content <$> l).
Proof.
  induction l as [|m l IH]; intros seen l' seen' Hl H; cbn [normalize_messages] in H.
  { injection H as <- <-. split_and!; [constructor|done..]. }
  apply Forall_cons in Hl as [Hm Hl]. apply rbind_ok in H as ([n s] & Hn & H).
  apply normalize_message_ok in Hn as (Hok & Hid & Hr & Hc); [|done]. passed H.
  apply rbind_ok in H as ([k t] & Hk & H). injection H as <- <-.
  apply IH in Hk as (Hoks & Hids & Hrs & Hcs); [|done]. cbn [fst snd]. split_and!.
  - by constructor.
  - cbn [normalize_messages]. rewrite Hid. cbn [rbind]. rewrite Hb. cbn [reject_invalid rejectIf rbind].
    by rewrite Hids.
  - cbn. by rewrite Hr, Hrs.
  - cbn. by rewrite Hc, Hcs.
Qed.

(** A tool that normalization leaves as it is. *)
Record tool_normal (t : ModelInputToolDefinition) : Prop := {
  normal_name : MatchString toolNamePattern (tdef_Name t) = true /\ TrimSpace (tdef_Name t) = tdef_Name t;
  normal_description : TrimSpace (tdef_Description t) = tdef_Description t;
  normal_schema : canonical (tdef_InputSchema t) /\ tool_schema_ok (tdef_InputSchema t) = true }.

Lemma normalize_tools_ok (l : list ModelInputToolDefinition) : forall seen l',
  normalize_tools seen l = Ok l' ->
  Forall tool_normal l' /\ NoDup (tdef_Name <$> l') /\ (forall s, s ∈ seen -> s ∉ tdef_Name <$> l')
  /\ (Forall (fun t => ustring (tdef_Description t)) l -> Forall tool_ok l').
Proof.
  induction l as [|t l IH]; intros seen l' H; cbn [normalize_tools] in H.
  { injection H as <-. split_and!; try constructor. intros s _ Hs. by apply elem_of_nil in Hs. }
  passed H. passed H. apply rbind_ok in H as (schema & Hs%or_invalid_ok & H). passed H. passed H.
  apply rbind_ok in H as (r & Hr & H). injection H as <-.
  apply IH in Hr as (Hn & Hd & Hseen & Hok). pose proof (canonicalized _ _ Hs Hb1) as Hc.
  apply negb_false_iff in Hb, Hb2. apply bool_decide_eq_false in Hb0. split_and!.
  - constructor; [|done]. split; cbn [tdef_Name tdef_Description tdef_InputSchema]; rewrite ?TrimSpace_idempotent; auto.
  - apply NoDup_cons. split; [|done]. apply Hseen. left.
  - intros s Hin. apply not_elem_of_cons. split; [by intros ->|]. apply Hseen. by right.
  - intros [Ht Hl]%Forall_cons. constructor; [|by apply Hok].
    split_and!; cbn [tdef_Name tdef_Description tdef_InputSchema];
      [by apply tool_name_utf8|by apply TrimSpace_utf8|by apply canonical_raw_ok].
Qed.

Lemma normalize_tools_id (l : list ModelInputToolDefinition) : forall seen,
  Forall tool_normal l -> NoDup (tdef_Name <$> l) -> (forall s, s ∈ seen -> s ∉ tdef_Name <$> l) ->
  normalize_tools seen l = Ok l.
Proof.
  induction l as [|t l IH]; intros seen Hn Hd Hs; cbn [normalize_tools]; [done|].
  apply Forall_cons in Hn as [[[Hp Hname] Hdesc [[Hcan Hblank] Hschema]] Hn].
  cbn in Hd. apply NoDup_cons in Hd as [Ht Hd].
  assert (Hfresh : bool_decide (tdef_Name t ∈ seen) = false).
  { apply bool_decide_eq_false. intros Hin. apply (Hs _ Hin). cbn. left. }
  rewrite Hname, Hdesc, Hp, Hfresh, Hcan. unfold reject_invalid.
  cbn [negb rejectIf rbind or_invalid].
  rewrite (canonical_not_empty (tdef_InputSchema t)), Hschema by done. cbn [negb rejectIf rbind].
  rewrite IH; [by destruct t|done|done|]. intros s Hin. apply elem_of_cons in Hin as [->|Hin]; [done|].
  intros Hc. apply (Hs s Hin). cbn. by right.
Qed.

#[export] Instance tool_le_order : RowOrder tool_le.
Proof.
  unfold tool_le. split.
  - intros x y. exact (@row_total _ string_le _ (tdef_Name x) (tdef_Name y)).
  - intros x y z. exact (@row_trans _ string_le _ (tdef_Name x) (tdef_Name y) (tdef_Name z)).
Qed.

Lemma same_name (l : list ModelInputToolDefinition) (x y : ModelInputToolDefinition) :
  NoDup (tdef_Name <$> l) -> x ∈ l -> y ∈ l -> tdef_Name x = tdef_Name y -> x = y.
Proof.
  intros Hd (i & Hi)%list_elem_of_lookup (j & Hj)%list_elem_of_lookup Hn.
  assert (i = j) as ->; [|congruence].
  eapply (NoDup_lookup (tdef_Name <$> l)); [done|by rewrite list_lookup_fmap, Hi|].
  rewrite list_lookup_fmap, Hj. cbn. by rewrite Hn.
Qed.

Lemma sorted_tools_stay (l : list ModelInputToolDefinition) :
  NoDup (tdef_Name <$> l) -> order_by tool_le (order_by tool_le l) = order_by tool_le l.
Proof.
  intros Hd. apply (StronglySorted_unique_strong (fun x y => tool_le x y = true)).
  - intros x y Hx Hy. unfold tool_le. intros H1 H2.
    rewrite !elem_of_order_by in Hx. rewrite elem_of_order_by in Hy.
    eapply same_name; [done|done|done|]. by apply string_le_antisym.
  - apply order_by_sorted, _.
  - apply order_by_sorted, _.
  - by rewrite !order_by_perm.
Qed.

(** ** What was read is UTF-8 *)

Definition valid (v : Any) : Prop := exists d, well_formed d v.

Definition members (v : Any) : list (string * Any) :=
  match v with AObject m => m | _ => [] end.

Lemma valid_member (v u : Any) (k : string) : valid v -> any_get k (members v) = Some u -> valid u.
Proof.
  intros [d Hd] Hg. destruct v as [| | | | |m]; try done.
  apply any_get_in in Hg. inversion Hd as [| | | | |d' ? _ Hm]; subst.
  rewrite Forall_forall in Hm. exists d'. by apply (Hm _ Hg).
Qed.

Lemma unmarshal_struct_ok {A} (f : list (string * Any) -> option A) (v : Any) (a : A) :
  unmarshal_struct f v = Some a -> f (members v) = Some a.
Proof. by destruct v. Qed.

Lemma member_ustring (v : Any) (k s : string) :
  valid v -> unmarshal_string (any_get k (members v)) = Some s -> ustring s.
Proof.
  intros Hv. destruct (any_get k (members v)) as [u|] eqn:Hg; simpl; [|by intros [= <-]; apply empty_ustring].
  destruct (valid_member _ _ _ Hv Hg) as [d Hd].
  destruct u; try done; intros [= <-]; [apply empty_ustring|]. by inversion Hd.
Qed.

Lemma member_slice {A} (f : Any -> option A) (P : A -> Prop) (v : Any) (k : string)
    (s : option (list A)) :
  (forall u a, valid u -> f u = Some a -> P a) ->
  valid v -> unmarshal_slice f (any_get k (members v)) = Some s -> Forall P (elems s).
Proof.
  intros HP Hv. destruct (any_get k (members v)) as [u|] eqn:Hg; simpl; [|by intros [= <-]].
  destruct (valid_member _ _ _ Hv Hg) as [d Hd].
  destruct u as [| | | |l|]; try done; [by intros [= <-]|].
  destruct (mapM f l) as [as_|] eqn:Hm; [|done]. intros [= <-]. simpl.
  inversion Hd as [| | | |d' ? Hl|]; subst. apply mapM_Some_1 in Hm.
  clear Hd Hg. induction Hm as [|u a l as_ Hu _ IH]; [constructor|]. apply Forall_cons in Hl as [Hu' Hl].
  constructor; [|by apply IH]. eapply HP; [|done]. by exists d'.
Qed.

(** A field of a struct that was read. *)
Ltac fields H :=
  repeat match type of H with
  | (?x ≫= _) = Some _ =>
      let E := fresh "E" in destruct x eqn:E; cbn [mbind option_bind] in H; [|discriminate H]
  end; injection H as <-.

Lemma read_message_content (v : Any) (m : ModelInputMessage) :
  valid v -> unmarshal_message v = Some m -> ustring (mmsg_Content m).
Proof. intros Hv H%unmarshal_struct_ok. fields H. by eapply member_ustring. Qed.

Lemma read_tool_description (v : Any) (t : ModelInputToolDefinition) :
  valid v -> unmarshal_tool v = Some t -> ustring (tdef_Description t).
Proof. intros Hv H%unmarshal_struct_ok. fields H. by eapply member_ustring. Qed.

(** The free texts of an envelope. *)
Record texts_ok (e : ModelInputEnvelope) : Prop := {
  texts_prefix : Forall (fun m => ustring (mmsg_Content m)) (elems (env_StablePrefix e));
  texts_history : Forall (fun m => ustring (mmsg_Content m)) (elems (env_VisibleHistory e));
  texts_tools : Forall (fun t => ustring (tdef_Description t)) (elems (env_ToolDefinitions e));
  texts_continuation : ustring (env_ProviderContinuationRef e) }.

Lemma read_texts (v : Any) (e : ModelInputEnvelope) :
  valid v -> unmarshal_envelope v = Some e -> texts_ok e.
Proof.
  intros Hv H%unmarshal_struct_ok. fields H. split; cbn.
  - by eapply member_slice; [apply read_message_content|done|].
  - by eapply member_slice; [apply read_message_content|done|].
  - by eapply member_slice; [apply read_tool_description|done|].
  - by eapply member_ustring.
Qed.

Lemma clone_texts (e : ModelInputEnvelope) : texts_ok (cloneModelInputEnvelope e).
Proof.
  unfold cloneModelInputEnvelope. destruct (reread e) as [c|] eqn:Hr; simpl.
  - unfold reread in Hr. destruct (marshal_envelope e) as [v|]; [|done]. simpl in Hr.
    destruct (decode_bytes (encode_any v)) as [w|] eqn:Hw; [|done]. simpl in Hr.
    eapply read_texts; [|done]. exists maxNestingDepth. by eapply decode_wf.
  - split; simpl; try constructor.
Qed.

(** ** Normalizing an envelope *)

Definition completed (digest : string) (classes : list string) (hash : string)
    (e : ModelInputEnvelope) : ModelInputEnvelope :=
  set_classifications classes hash (set_prefix_digest digest e).

Lemma normalizeModelInput_ok (e n : ModelInputEnvelope) :
  texts_ok e -> normalizeModelInput e = Ok n ->
  Forall message_ok (elems (env_StablePrefix n)) /\ Forall message_ok (elems (env_VisibleHistory n))
  /\ Forall tool_ok (elems (env_ToolDefinitions n)) /\ ustring (env_ProviderContinuationRef n)
  /\ (env_SchemaVersion n, env_ContextSnapshotID n, env_CanonicalProjectionDigest n,
      env_InputClassifications n)
     = (env_SchemaVersion e, env_ContextSnapshotID e, env_CanonicalProjectionDigest e,
        env_InputClassifications e)
  /\ (forall f, begins_with n f = begins_with e f)
  /\ forall digest classes hash,
       normalizeModelInput (completed digest classes hash n) = Ok (completed digest classes hash n).
Proof.
  intros [Hp Hh Ht Hc] H. unfold normalizeModelInput in H. passed H.
  apply rbind_ok in H as ([prefix seen] & Hprefix & H).
  apply rbind_ok in H as ([history seen'] & Hhistory & H).
  apply rbind_ok in H as (tools & Htools & H). injection H as <-. cbn [fst snd] in *.
  apply normalize_messages_ok in Hprefix as (Hpok & Hpid & Hroles & Hcontents); [|done].
  apply normalize_messages_ok in Hhistory as (Hhok & Hhid & _ & _); [|done].
  apply normalize_tools_ok in Htools as (Htn & Htd & _ & Htok). specialize (Htok Ht).
  assert (Helems : forall {A} (l : list A) (s : option (list A)) (P : A -> Prop),
            Forall P l -> Forall P (elems (const l <$> s))).
  { intros A l [k|] P HP; [done|constructor]. }
  split_and!; cbn [env_StablePrefix env_VisibleHistory env_ToolDefinitions]; try done.
  - by apply Helems.
  - by apply Helems.
  - apply Helems. by rewrite order_by_perm.
  - intros f. unfold begins_with. cbn [env_StablePrefix].
    destruct (env_StablePrefix e) as [l|]; [|done]. cbn in *.
    destruct l as [|m l], prefix as [|m' prefix]; try done. unfold is_role.
    injection Hroles as -> _. by injection Hcontents as -> _.
  - intros digest classes hash. unfold normalizeModelInput, completed.
    cbn [set_classifications set_prefix_digest env_ProviderContinuationRef env_StablePrefix
         env_VisibleHistory env_ToolDefinitions env_SchemaVersion env_ContextSnapshotID
         env_CanonicalProjectionDigest env_StablePrefixDigest env_InputClassifications
         env_InputClassificationsHash].
    rewrite Hb. cbn [reject_invalid rejectIf rbind].
    assert (Hpe : normalize_messages false [] (elems (const prefix <$> env_StablePrefix e))
                  = Ok (elems (const prefix <$> env_StablePrefix e), seen)).
    { destruct (env_StablePrefix e); [done|]. cbn in Hroles. destruct prefix; [|done].
      cbn in Hpid. injection Hpid as <-. done. }
    rewrite Hpe. cbn [rbind fst snd].
    assert (Hhe : exists s, normalize_messages true seen (elems (const history <$> env_VisibleHistory e))
                  = Ok (elems (const history <$> env_VisibleHistory e), s)).
    { destruct (env_VisibleHistory e); [by eexists|by eexists]. }
    destruct Hhe as [s ->]. cbn [rbind fst snd].
    rewrite normalize_tools_id.
    + cbn [rbind]. destruct (env_StablePrefix e), (env_VisibleHistory e), (env_ToolDefinitions e); cbn -[order_by];
        rewrite ?sorted_tools_stay by done; done.
    + apply Helems. by rewrite order_by_perm.
    + destruct (env_ToolDefinitions e); cbn; [by rewrite order_by_perm|constructor].
    + intros ? Hin. by apply elem_of_nil in Hin.
Qed.

(** ** Classifications *)

Lemma elem_of_normal (l : list string) (c : string) :
  c ∈ normal_classes l <-> is_empty c = false /\ exists y, y ∈ l /\ normal_class y = c.
Proof.
  unfold normal_classes. rewrite elem_of_sorted_set, list_elem_of_filter, list_elem_of_fmap. naive_solver.
Qed.

(** What was added before changes nothing. *)
Lemma normal_classes_absorb (given more : list string) :
  normal_classes (normal_classes (given ++ more) ++ more) = normal_classes (given ++ more).
Proof.
  unfold normal_classes at 1 3. apply sorted_set_ext. intros c.
  rewrite !list_elem_of_filter, !list_elem_of_fmap.
  assert (Hn : forall y, y ∈ normal_classes (given ++ more) -> normal_class y = y).
  { intros y Hy. by apply elem_of_normal_classes, known_classes_normal in Hy as [-> _]. }
  split; intros (He & y & -> & Hy); (split; [done|]).
  - rewrite elem_of_app in Hy. destruct Hy as [Hy|Hy]; [|exists y; rewrite elem_of_app; auto].
    pose proof Hy as (_ & z & Hz & Hzy)%elem_of_normal. exists z. by rewrite (Hn y Hy).
  - exists (normal_class y). assert (Hin : normal_class y ∈ normal_classes (given ++ more)).
    { apply elem_of_normal. split; [done|]. by exists y. }
    rewrite (Hn _ Hin), elem_of_app. auto.
Qed.

Lemma valid_class_ustring (c : string) : validModelInputClassification c = true -> ustring c.
Proof.
  unfold validModelInputClassification. rewrite bool_decide_eq_true. intros Hc.
  repeat (apply elem_of_cons in Hc as [->|Hc]; [apply ascii_utf8; repeat constructor|]).
  by apply elem_of_nil in Hc.
Qed.

Section Prepare.
Context {env : Env} {policy : ContentPolicy}.

Lemma classify_again (given classes : list string) (hash : string) (e : ModelInputEnvelope) :
  classify_input given e = (classes, hash) -> classify_input classes e = (classes, hash).
Proof.
  unfold classify_input, NormalizeClassifications. intros [= <- <-]. by rewrite normal_classes_absorb.
Qed.

Lemma digest_ustring (s : string) : digest_ok s = true -> ustring s.
Proof. by apply MatchString_utf8. Qed.

Lemma begins_with_impl (e : ModelInputEnvelope) (f g : string -> bool) :
  (forall s, f s = true -> g s = true) -> begins_with e f = true -> begins_with e g = true.
Proof.
  intros Hfg. unfold begins_with. destruct (elems (env_StablePrefix e)); [done|].
  rewrite !andb_true_iff. naive_solver.
Qed.

(** What a prepared envelope has, and the check of the stored text asks for. *)
Record prepared (snapshot : ContextSnapshotRef) (rendered : string) (c : ModelInputEnvelope) : Prop := {
  prep_ok : envelope_ok c;
  prep_version : env_SchemaVersion c = ModelInputEnvelopeSchemaV1;
  prep_snapshot : env_ContextSnapshotID c = snap_ID snapshot;
  prep_projection : digest_ok (env_CanonicalProjectionDigest c) = true;
  prep_first : begins_with c (fun content => bool_decide (content = rendered)) = true;
  prep_rendered : env_sha256_hex rendered = snap_RenderedHash snapshot;
  prep_normal : normalizeModelInput c = Ok c;
  prep_prefix : exists prefix, canonicalStablePrefix c = Some prefix
                /\ env_StablePrefixDigest c = env_sha256_hex prefix;
  prep_classes : let given := elems (env_InputClassifications c) in
                 classify_input given c = (given, env_InputClassificationsHash c)
                 /\ forallb validModelInputClassification given = true }.

Lemma prepared_validates (snapshot : ContextSnapshotRef) (rendered : string) (c : ModelInputEnvelope)
    (v : Any) (text : string) :
  (forall s, digest_ok (env_sha256_hex s) = true) ->
  prepared snapshot rendered c -> marshal_envelope c = Some v -> CanonicalJSON v = Some text ->
  ValidateStoredModelInput (mkPreparedInput c text (env_sha256_hex text)) snapshot
  = Ok (mkPreparedInput c text (env_sha256_hex text)).
Proof.
  intros Hsha [Hok Hver Hsnap Hproj Hfirst Hren Hnorm (prefix & Hprefix & Hdigest) [Hcls Hvalid]] Hv Ht.
  destruct (envelope_text c v text Hok Hv Ht) as (Hdec & Hun & Hne).
  apply (begins_with_impl _ _ (fun content => bool_decide (env_sha256_hex content = snap_RenderedHash snapshot)))
    in Hfirst; [|intros s; rewrite !bool_decide_eq_true; congruence].
  unfold ValidateStoredModelInput. cbn [pinput_CanonicalBytes pinput_CanonicalDigest].
  rewrite Hne, Hsha, bool_decide_eq_true_2 by done. cbn [negb orb reject_context rejectIf rbind].
  rewrite Hdec. cbn [or_context rbind]. rewrite Hun. cbn [or_context rbind].
  rewrite Hver, Hsnap, Z.eqb_refl, Hproj, Hfirst, bool_decide_eq_true_2 by done.
  cbn [negb orb reject_context rejectIf rbind]. rewrite Hnorm. cbn [rbind].
  rewrite Hprefix, Hdigest. cbn [or_context rbind]. rewrite bool_decide_eq_true_2 by done.
  cbn [negb reject_context rejectIf rbind]. rewrite Hcls, Hvalid, !bool_decide_eq_true_2 by done.
  cbn [negb orb reject_context rejectIf rbind]. rewrite Hv. cbn [or_context rbind].
  rewrite Ht. cbn [or_context rbind]. by rewrite !bool_decide_eq_true_2.
Qed.

(** What preparing a model input builds. *)
Lemma PrepareModelInput_ok (supplied : option ModelInputEnvelope) (snapshot : ContextSnapshotRef)
    (rendered : string) (p : PreparedModelInput) :
  (forall s, digest_ok (env_sha256_hex s) = true) ->
  int64 (snap_ID snapshot) ->
  (supplied = None -> utf8 (to_bytes rendered)) ->
  PrepareModelInput supplied snapshot rendered = Ok p ->
  exists c v text, p = mkPreparedInput c text (env_sha256_hex text) /\ prepared snapshot rendered c
    /\ marshal_envelope c = Some v /\ CanonicalJSON v = Some text /\ len text <= maxModelInputBytes
    /\ (HasCredentials (modelVisibleText c) = true ->
        ClassificationSecret ∈ elems (env_InputClassifications c)).
Proof.
  intros Hsha Hid Hutf H. unfold PrepareModelInput in H. passed H.
  set (e := match supplied with None => _ | Some e => _ end) in H.
  assert (Htexts : texts_ok e).
  { subst e. destruct supplied as [e|]; [apply clone_texts|]. specialize (Hutf eq_refl).
    split; cbn; [by repeat constructor|constructor|constructor|apply empty_ustring]. }
  passed H. passed H. passed H. apply rbind_ok in H as (n & Hn & H).
  apply rbind_ok in H as (prefix & Hprefix%or_invalid_ok & H).
  destruct (classify_input _ _) as [classes hash] eqn:Hclass. passed H.
  apply rbind_ok in H as (v & Hv%or_invalid_ok & H).
  apply rbind_ok in H as (text & Htext%or_invalid_ok & H). passed H. injection H as <-.
  apply normalizeModelInput_ok in Hn as (Hpo & Hho & Hto & Hco & [= Hver Hsnap Hproj Hcls] & Hbeg & Hagain);
    [|done].
  apply orb_false_iff in Hb as [[Hpos Hne]%orb_false_iff Hhash].
  apply orb_false_iff in Hb0 as [Hversion Hsid].
  apply negb_false_iff in Hhash, Hversion, Hsid, Hb1, Hb2, Hb3.
  apply bool_decide_eq_true in Hhash, Hversion. rewrite Z.eqb_eq in Hsid.
  pose proof (classify_again _ _ _ _ Hclass) as Hclass2.
  unfold classify_input, NormalizeClassifications in Hclass. injection Hclass as Hclasses Hhashes.
  exists (completed (env_sha256_hex prefix) classes hash n), v, text.
  split_and!; [done| |done|done|lia|].
  - split; [split| | | | | | | |]; cbn -[digest_ok begins_with]; try done; try congruence.
    + rewrite Hver, Hversion. apply ascii_utf8. repeat constructor.
    + rewrite Hsnap, Hsid. split; [lia|done].
    + rewrite Hproj. by apply digest_ustring.
    + apply digest_ustring, Hsha.
    + rewrite forallb_forall in Hb3. rewrite Forall_forall. intros x Hx.
      apply valid_class_ustring, Hb3. by apply list_elem_of_In.
    + rewrite <- Hhashes. apply digest_ustring, Hsha.
    + change (begins_with n (fun content => bool_decide (content = rendered)) = true). by rewrite Hbeg.
    + by exists prefix.
  - intros Hcred. change (HasCredentials (modelVisibleText (set_prefix_digest (env_sha256_hex prefix) n))
                          = true) in Hcred. cbn. rewrite <- Hclasses, Hcred. apply elem_of_normal.
    split; [done|]. exists ClassificationSecret. rewrite elem_of_app. split; [right; left|done].
Qed.

(** C29: What is stored for a call is what the call is sent with.  A prepared input that was stored
    passes the check before the dispatch and decodes to the envelope that was prepared: its first
    message is the rendered context, its text is canonical, and normalizing, classifying and
    hashing it again changes nothing.  Without a supplied envelope the context must be UTF-8: JSON
    replaces what is not. *)
Theorem prepared_inputs_are_dispatchable (supplied : option ModelInputEnvelope)
    (snapshot : ContextSnapshotRef) (rendered : string) (p : PreparedModelInput) :
  (forall s, digest_ok (env_sha256_hex s) = true) ->
  int64 (snap_ID snapshot) ->
  (supplied = None -> utf8 (to_bytes rendered)) ->
  PrepareModelInput supplied snapshot rendered = Ok p ->
  ValidateStoredModelInput p snapshot = Ok p
  /\ ValidateModelInputContextRender p rendered = Ok tt
  /\ env_ContextSnapshotID (pinput_Envelope p) = snap_ID snapshot
  /\ len (pinput_CanonicalBytes p) <= maxModelInputBytes
  /\ (HasCredentials (modelVisibleText (pinput_Envelope p)) = true ->
      ClassificationSecret ∈ elems (env_InputClassifications (pinput_Envelope p))).
Proof.
  intros Hsha Hid Hutf H. apply PrepareModelInput_ok in H as (c & v & text & -> & Hp & Hv & Ht & Hl & Hs);
    [|done..].
  split_and!; [by eapply prepared_validates| |by apply Hp|done|done].
  unfold ValidateModelInputContextRender. cbn [pinput_Envelope].
  pose proof (prep_first _ _ _ Hp) as Hf. unfold begins_with in Hf.
  destruct (elems (env_StablePrefix c)); [done|]. apply andb_true_iff in Hf as [_ Hm]. by rewrite Hm.
Qed.

End Prepare.

(** ** An input *)

Lemma hex_digits_match (n : nat) : forall z, matches (RRepeat n hex_digit) (to_bytes (hex_digits n z)).
Proof.
  induction n as [|n IH]; intros z; [constructor|].
  change (to_bytes (hex_digits (S n) z)) with ([hex_char (z mod 16)] ++ to_bytes (hex_digits n (z / 16)))%list.
  constructor; [|apply IH]. constructor. pose proof (Z.mod_pos_bound z 16 ltac:(lia)) as Hz.
  generalize dependent (z mod 16). clear. intros k Hk.
  destruct k as [|p|p]; [reflexivity| |lia]. do 4 (try destruct p as [p|p|]); try reflexivity; lia.
Qed.

Lemma demo_digest_hex (s : string) : digest_ok (demo_digest s) = true.
Proof. apply run_regex_spec, hex_digits_match. Qed.

(** A policy that takes any text with a key prefix for a credential. *)
Definition wary : ContentPolicy :=
  {| HasCredentials s := bool_decide (is_Some (String.index 0 "sk-" s)) |}.

Definition demo_snapshot : ContextSnapshotRef :=
  mkSnapshotRef 11 "acme" 7 "eng/dev" "1" "ready" (demo_digest "the context") ["Public "] "".

(** A conversation with a tool call and its answer, which quotes a key. *)
Definition demo_envelope : ModelInputEnvelope :=
  mkEnvelope ModelInputEnvelopeSchemaV1 11 (demo_digest "projection")
    (Some [mkMessage ModelInputRoleUser "the context" "" "" [];
           mkMessage ModelInputRoleSystem "be brief" "" "" []]) ""
    (Some [mkMessage ModelInputRoleAssistant "" "" "" [mkToolCall " call-1 " "lookup" "[1.0, {}]"];
           mkMessage ModelInputRoleTool "the key is sk-1" "call-1" " lookup" []])
    (Some [mkToolDefinition "write" " writes " demo_schema; mkToolDefinition "lookup" "" demo_schema])
    "" None "".

Lemma prepared_inputs_are_dispatchable_witness : exists p,
  @PrepareModelInput demo wary (Some demo_envelope) demo_snapshot "the context" = Ok p
  /\ @ValidateStoredModelInput demo wary p demo_snapshot = Ok p
  /\ ClassificationSecret ∈ elems (env_InputClassifications (pinput_Envelope p)).
Proof.
  destruct (@PrepareModelInput demo wary (Some demo_envelope) demo_snapshot "the context")
    as [p|e] eqn:Hp; [|vm_compute in Hp; discriminate Hp].
  exists p. split; [reflexivity|].
  assert (Hid : int64 (snap_ID demo_snapshot)) by (vm_compute; split; discriminate).
  assert (Hnone : Some demo_envelope = None -> utf8 (to_bytes "the context")) by discriminate.
  destruct (@prepared_inputs_are_dispatchable demo wary (Some demo_envelope) demo_snapshot "the context"
              p demo_digest_hex Hid Hnone Hp) as (Hv & _ & _ & _ & Hs).
  split; [exact Hv|]. apply Hs.
  assert (Hc : match @PrepareModelInput demo wary (Some demo_envelope) demo_snapshot "the context" with
               | Ok p => @HasCredentials wary (modelVisibleText (pinput_Envelope p))
               | Err _ => false
               end = true) by (vm_compute; reflexivity).
  rewrite Hp in Hc. exact Hc.
Defined.
