(* ===== verification/DispatchServiceProps.v ===== *)
(** * Properties of the dispatch of a model call

    A dispatch is a sequence of calls of the stores, so it keeps every invariant
    of the tables; the provider is called at most once and only behind a durable
    decision; what was reserved is settled once. *)

From stdpp Require Import base tactics list gmap strings relations pretty sorting.
From Stdlib Require Import ZArith Lia Ascii.
From S2P Require Import Prelude GoLib TaskDomain Json Database StoreHelpers TaskValidation Scenario.
From S2P Require Import SpendDB Pricing CostLedger LedgerSpec LedgerRefine LedgerProps AgentBudget.
From S2P Require Import BudgetSpec BudgetRefine BudgetProps ProgramBudget CostGate GateProps.
From S2P Require Import DispatchDB Schema Normalizer Egress EgressProps ModelInput Routing.
From S2P Require Import InvocationStore Claims PreSend Outcomes Assignments DispatchSpec.
From S2P Require Import DispatchInvariant DispatchRun DispatchRefine PreSendRefine DispatchMachine.
From S2P Require Import DispatchService NormalizerProps ModelInputProps.

Local Open Scope string_scope.
Local Open Scope Z_scope.

(** ** Relations between the states of a service *)

(** Every run of [m] relates the state it starts in to the one it ends in. *)
Definition respects (R : relation Sys) {A} (m : Dispatching A) : Prop := forall s r s',
  m s = (r, s') -> R s s'.

Create HintDb respects.

Section Respects.
Context (R : relation Sys) `{!PreOrder R}.

Lemma respects_ret {A} (a : A) : respects R (ret a).
Proof. intros s r s' [= _ <-]. reflexivity. Qed.

Lemma respects_throw {A} (f : Failure) : respects R (@throw _ _ A f).
Proof. intros s r s' [= _ <-]. reflexivity. Qed.

Lemma respects_bind {A B} (m : Dispatching A) (f : A -> Dispatching B) :
  respects R m -> (forall a, respects R (f a)) -> respects R (bind m f).
Proof.
  intros Hm Hf s r s' H. unfold bind in H. destruct (m s) as [[a|e] s1] eqn:Hs.
  - transitivity s1; [by eapply Hm|by eapply Hf].
  - injection H as _ <-. by eapply Hm.
Qed.

Lemma respects_fail_if (b : bool) (e : ServiceError) : respects R (fail_if b e).
Proof. destruct b; [apply respects_throw|apply respects_ret]. Qed.

Lemma respects_or_fail {A} (x : result DispatchError A) : respects R (or_fail x).
Proof. destruct x; [apply respects_ret|apply respects_throw]. Qed.

Lemma respects_fail {A} (e : ServiceError) : respects R (@fail A e).
Proof. apply respects_throw. Qed.

Lemma respects_end_with {A} (i : Invocation) (e : ServiceError) : respects R (@end_with A i e).
Proof. apply respects_throw. Qed.

Lemma respects_deferred {A} (d : Dispatching unit) (m : Dispatching A) :
  respects R d -> respects R m -> respects R (with_deferred d m).
Proof.
  intros Hd Hm s r s' H. unfold with_deferred in H. destruct (m s) as [r1 s1] eqn:Hs.
  destruct (d s1) as [r2 s2] eqn:Hds. injection H as _ <-.
  transitivity s1; [by eapply Hm|by eapply Hd].
Qed.

End Respects.

#[export] Hint Resolve respects_ret respects_throw respects_fail_if respects_or_fail respects_fail
  respects_end_with : respects.

(** A run, a step at a time. *)
Ltac respects_step :=
  match goal with
  | |- respects _ (bind _ _) => apply respects_bind; [apply _| |intros ?]
  | |- respects _ (with_deferred _ _) => apply respects_deferred; [apply _| |]
  | |- respects _ (match ?x with _ => _ end) => destruct x
  | |- respects _ (let '(_, _) := ?x in _) => destruct x
  | |- _ => progress cbv zeta
  | |- _ => solve [eauto with respects typeclass_instances]
  end.
Ltac respects_steps := repeat respects_step.

(** *** The trace stays *)

Definition silent (s s' : Sys) : Prop :=
  sys_trace s' = sys_trace s /\ sys_settled s' = sys_settled s.

#[export] Instance silent_preorder : PreOrder silent.
Proof. split; [done|]. intros s1 s2 s3 [? ?] [? ?]. split; congruence. Qed.

(** *** The tables take steps of their machines *)

Definition orderly (funded : string -> Prop) (s s' : Sys) : Prop :=
  let d := core (dw_db (sys_dispatch s)) in
  (dispatch_inv d -> dispatch_steps d (core (dw_db (sys_dispatch s'))))
  /\ spend_moves funded (sys_spend s) (sys_spend s').

#[export] Instance orderly_preorder (funded : string -> Prop) : PreOrder (orderly funded).
Proof.
  split; [split; constructor|]. intros s1 s2 s3 [H12 P12] [H23 P23]. split; [|by etrans].
  intros Hinv. pose proof (H12 Hinv) as Hs. etrans; [exact Hs|]. apply H23. by eapply steps_inv.
Qed.

(** The other processes work on the tables by calls of the stores as well. *)
Class Lawful {around : Surroundings} (funded : string -> Prop) : Prop := {
  others_take_steps n w : dispatch_inv (core (dw_db w)) ->
    dispatch_steps (core (dw_db w)) (core (dw_db (others_dispatch n w)));
  others_move_money n w : spend_moves funded w (others_spend n w) }.

(** ** The gate moves money by the calls of the ledger *)

Section Money.
Context (funded : string -> Prop).

Definition pays {A} (m : Spend A) : Prop := forall w r w', m w = (r, w') -> spend_moves funded w w'.

Lemma pays_ret {A} (a : A) : pays (ret a).
Proof. intros w r w' [= _ <-]. constructor. Qed.

Lemma pays_throw {A} (e : SpendError) : pays (@throw _ _ A e).
Proof. intros w r w' [= _ <-]. constructor. Qed.

Lemma pays_lift {A} (x : result SpendError A) : pays (lift x).
Proof. intros w r w' [= _ <-]. constructor. Qed.

Lemma pays_bind {A B} (m : Spend A) (f : A -> Spend B) :
  pays m -> (forall a, pays (f a)) -> pays (bind m f).
Proof.
  intros Hm Hf w r w' H. unfold bind in H. destruct (m w) as [[a|e] w1] eqn:Hw.
  - etrans; [by eapply Hm|by eapply Hf].
  - injection H as _ <-. by eapply Hm.
Qed.

Lemma pays_catch {A} (m : Spend A) (h : SpendError -> Spend A) :
  pays m -> (forall e, pays (h e)) -> pays (catch m h).
Proof.
  intros Hm Hh w r w' H. unfold catch in H. destruct (m w) as [[a|e] w1] eqn:Hw.
  - injection H as _ <-. by eapply Hm.
  - etrans; [by eapply Hm|by eapply Hh].
Qed.

Lemma pays_call (c : LedgerCall) : funds c = None -> pays (ledger_serve c).
Proof.
  intros Hf w r w' H. apply rtc_once. pose proof (MoveCall funded w c) as Hc. rewrite H in Hc.
  apply Hc; [|by rewrite Hf]. by destruct c as [[]| | | | | | | |].
Qed.

Lemma pays_state {A} (m : Spend A) : (forall w r w', m w = (r, w') -> w' = w) -> pays m.
Proof. intros Hm w r w' ->%Hm. constructor. Qed.

(** A transaction that leaves the ledger alone. *)
Definition aside {A} (m : Spend A) : Prop := forall w r w',
  m w = (r, w') -> same_ledger (sw_db w) (sw_db w').

Lemma pays_aside {A} (m : Spend A) : aside m -> pays m.
Proof. intros Hm w r w' H. apply rtc_once. destruct (Hm _ _ _ H). by apply MoveOther. Qed.

Lemma aside_bind {A B} (m : Spend A) (f : A -> Spend B) :
  aside m -> (forall a, aside (f a)) -> aside (bind m f).
Proof.
  intros Hm Hf w r w' H. unfold bind in H. destruct (m w) as [[a|e] w1] eqn:Hw.
  - destruct (Hm _ _ _ Hw), (Hf _ _ _ _ H). split; congruence.
  - injection H as _ <-. by eapply Hm.
Qed.

Lemma aside_atomically {A} (m : Spend A) : aside m -> aside (atomically m).
Proof.
  intros Hm w r w' H. unfold atomically in H. destruct (m w) as [[a|e] w1] eqn:Hw.
  - injection H as _ <-. by eapply Hm.
  - by injection H as _ <-.
Qed.

Lemma aside_same {A} (m : Spend A) :
  (forall w r w', m w = (r, w') -> sw_db w' = sw_db w) -> aside m.
Proof. intros Hm w r w' ->%Hm. done. Qed.

End Money.

Lemma aside_throwIf (b : bool) (e : SpendError) : aside (throwIf b e).
Proof. apply aside_same. destruct b; by intros w r w' [= _ <-]. Qed.

Ltac aside_step :=
  match goal with
  | |- aside (bind _ _) => apply aside_bind; [|intros ?]
  | |- aside (atomically _) => apply aside_atomically
  | |- aside (match ?x with _ => _ end) => destruct x
  | |- aside (sp_modify _) => by intros ? ? ? [= _ <-]
  | |- aside (throwIf _ _) => apply aside_throwIf
  | |- aside (sp_bigint _) => apply aside_throwIf
  | |- aside (sp_check _) => apply aside_throwIf
  | |- aside (sp_foreign_key _) => apply aside_throwIf
  | |- _ => progress cbv zeta
  | |- aside _ => apply aside_same; by intros ? ? ? [= _ <-]
  end.

Lemma aside_insert_budget_event b k r d : aside (insert_budget_event b k r d).
Proof. unfold insert_budget_event. repeat aside_step. Qed.

Lemma aside_update_budget id u : aside (update_budget id u).
Proof. unfold update_budget. repeat aside_step. Qed.

Lemma aside_select_budget id e : aside (select_budget id e).
Proof. unfold select_budget. repeat aside_step. Qed.

Lemma aside_consume id i u : aside (ConsumeModelCall id i u).
Proof.
  unfold ConsumeModelCall.
  repeat first [apply aside_select_budget|apply aside_insert_budget_event|apply aside_update_budget
               |aside_step].
Qed.

Lemma aside_settle id i u : aside (SettleModelCall id i u).
Proof.
  unfold SettleModelCall.
  repeat first [apply aside_select_budget|apply aside_insert_budget_event|apply aside_update_budget
               |aside_step].
Qed.

Section GateMoney.
Context (funded : string -> Prop) (subscribed : string -> bool).
Context (programs : option (Z -> string -> string -> result SpendError Scope)).

Notation pays := (pays funded).

Lemma pays_reserve p i a t : pays (Ledger_Reserve p i a t).
Proof. by apply (pays_call funded (CallReserve (ChatCall i) p a t)). Qed.
Lemma pays_release p i t : pays (Ledger_Release p i t).
Proof. by apply (pays_call funded (CallRelease (ChatCall i) p t)). Qed.
Lemma pays_reconcile p i a t : pays (Ledger_Reconcile p i a t).
Proof. by apply (pays_call funded (CallReconcile (ChatCall i) p a t)). Qed.

Lemma pays_price p m n b t : pays (Pricing_Resolve p m n b t).
Proof. apply pays_state. intros w r w'. rewrite Pricing_Resolve_run. by intros [= _ <-]. Qed.

Lemma pays_wallet req s usd t : pays (reserve_wallet programs req s usd t).
Proof.
  unfold reserve_wallet. apply pays_catch; [|intros; apply pays_throw].
  destruct programs; [case_match|]; try apply pays_reserve.
  by eapply (pays_call funded (CallReserveProgram _ t)).
Qed.

Lemma gate_reserve_pays req t : pays (Gate_Reserve subscribed programs req t).
Proof.
  unfold Gate_Reserve. apply pays_bind; [apply pays_state; intros; by eapply resolve_budget_state|intros budget].
  apply pays_bind; [apply pays_state; intros; by eapply resolve_program_state|intros s].
  case_match.
  - destruct budget; [|apply pays_ret].
    apply pays_bind; [apply pays_aside, aside_consume|intros; apply pays_ret].
  - apply pays_bind; [apply pays_state; intros; by eapply estimate_state|intros est].
    apply pays_bind; [apply pays_wallet|intros _]. destruct budget; [|apply pays_ret].
    apply pays_catch.
    + apply pays_bind; [apply pays_aside, aside_consume|intros; apply pays_ret].
    + intros e. apply pays_bind; [|intros; apply pays_throw].
      apply pays_catch; [apply pays_release|intros; apply pays_throw].
Qed.

Lemma logged_pays m : pays m -> pays (logged_only m).
Proof. intros Hm. apply pays_catch; [done|intros; apply pays_ret]. Qed.

Lemma gate_release_pays r t : pays (Gate_Release r t).
Proof. unfold Gate_Release. case_match; [apply pays_ret|apply pays_release]. Qed.

Lemma gate_reconcile_pays r i k o t : pays (Gate_Reconcile r i k o t).
Proof.
  unfold Gate_Reconcile. case_match; [apply pays_ret|].
  apply pays_bind; [apply pays_price|intros tier]. apply pays_bind; [apply pays_lift|intros usd].
  apply pays_bind; [apply pays_reconcile|intros _]. unfold settleBudget. case_match; [apply pays_ret|].
  apply logged_pays, pays_aside, aside_settle.
Qed.

Lemma gate_consumption_pays r t : pays (Gate_RecordSubscriptionConsumption r t).
Proof.
  unfold Gate_RecordSubscriptionConsumption. case_match; [apply pays_ret|].
  by apply (pays_call funded (CallSubscription _ _ t)).
Qed.

Lemma gate_non_success_pays r u t : pays (settleNonSuccessReservation r u t).
Proof.
  unfold settleNonSuccessReservation. case_match; [apply logged_pays, gate_consumption_pays|].
  destruct u; apply logged_pays; [apply gate_reconcile_pays|].
  unfold Gate_MarkPendingReconciliation. case_match; [apply pays_ret|].
  by eapply (pays_call funded (CallMarkPending _ _)).
Qed.

End GateMoney.

(** ** A dispatch keeps the tables in order *)

Section Orderly.
Context {env : Env} {registry : Registry} {host : Host} {policy : ContentPolicy}.
Context {collaborators : Collaborators} {around : Surroundings}.
Context (funded : string -> Prop) {lawful : Lawful funded}.

Notation keeps := (respects (orderly funded)).

Lemma keeps_store {A} (m : Disp A) : refines m -> keeps (store m).
Proof.
  intros Hm s r s' H. unfold store in H. pose proof (others_take_steps (sys_calls s) (sys_dispatch s)) as Ho.
  set (w := others_dispatch _ _) in *.
  destruct (faulty _ m w) as [x w'] eqn:Hf. injection H as _ <-. split; [|constructor].
  cbn. intros Hinv. specialize (Ho Hinv). etrans; [exact Ho|]. apply steps_inv in Ho; [|done].
  unfold faulty in Hf. destruct (store_fault _) as [|e|e].
  - by eapply Hm.
  - injection Hf as _ <-. constructor.
  - injection Hf as _ <-. destruct (m w) as [y w'] eqn:Hw. by eapply Hm.
Qed.

Lemma keeps_stored {A} (m : Disp A) : refines m -> keeps (stored m).
Proof. intros Hm. apply respects_bind; [apply _|by apply keeps_store|]. auto with respects typeclass_instances. Qed.

Lemma keeps_persist {A} (m : Disp A) e : refines m -> keeps (persist m e).
Proof.
  intros Hm. apply respects_bind; [apply _|by apply keeps_store|].
  intros []; auto with respects typeclass_instances.
Qed.

Lemma keeps_gate {A} (m : Spend A) : pays funded m -> keeps (gate m).
Proof.
  intros Hm s r s' H. unfold gate in H. pose proof (others_move_money (sys_calls s) (sys_spend s)) as Ho.
  set (w := others_spend _ _) in *.
  destruct (faulty _ m w) as [x w'] eqn:Hf. injection H as _ <-. split; [constructor|]. cbn.
  etrans; [exact Ho|]. unfold faulty in Hf. destruct (gate_fault _) as [|e|e].
  - by eapply Hm.
  - injection Hf as _ <-. constructor.
  - injection Hf as _ <-. destruct (m w) as [y w'] eqn:Hw. by eapply Hm.
Qed.

Lemma keeps_now : keeps now.
Proof. intros s r s' [= _ <-]. split; constructor. Qed.

Lemma keeps_log (e : DispatchEvent) : keeps (modify_sys (log e)).
Proof. intros s r s' [= _ <-]. split; constructor. Qed.

Lemma keeps_settled (b : bool) : keeps (modify_sys (set_settled b)).
Proof. intros s r s' [= _ <-]. split; constructor. Qed.

Lemma keeps_adapter a request : keeps (call_adapter a request).
Proof. intros s r s' [= _ <-]. split; constructor. Qed.

Hint Resolve keeps_store keeps_stored keeps_persist keeps_gate keeps_now keeps_log keeps_settled
  keeps_adapter : respects.

(** *** The calls of the stores *)

Ltac reads := apply refines_quiet; repeat first [progress cbv zeta|quiet_steps].

Lemma reads_random : refines dp_random.
Proof. apply refines_quiet, quiet_random. Qed.
Lemma reads_key org p f : refines (ResolveActiveKeyByFingerprint org p f).
Proof. unfold ResolveActiveKeyByFingerprint. reads. Qed.
Lemma reads_policy org id : refines (ResolvePolicyByID org id).
Proof. unfold ResolvePolicyByID. reads. Qed.
Lemma reads_assignment org id : refines (GetByID org id).
Proof. unfold GetByID. reads. Qed.
Lemma reads_invocation id : refines (GetInvocation id).
Proof. unfold GetInvocation, select_invocation. reads. Qed.
Lemma reads_cancellation id : refines (CancellationRequested id).
Proof. unfold CancellationRequested, select_invocation. reads. Qed.
Lemma reads_input decode id : refines (GetModelInput decode id).
Proof. unfold GetModelInput, getModelInput. reads. Qed.

Hint Resolve reads_random reads_key reads_policy reads_assignment reads_invocation
  reads_cancellation reads_input CreateChallenge_refines ClaimInvocation_refines
  ClaimInvocationAuthenticated_refines PersistAllow_refines PersistDeny_refines
  MarkResponseReceived_refines RejectProviderResponse_refines FailCommittedBeforeRequest_refines
  CompleteInvocation_refines FailBeforeSend_refines FailAfterResponse_refines
  MarkAmbiguous_refines MarkCancelled_refines : respects.
Hint Resolve gate_reserve_pays gate_release_pays gate_reconcile_pays gate_consumption_pays
  gate_non_success_pays : respects.

(** *** The phases *)

Context (organizationID : string) (config : ServiceConfig).

Lemma keeps_fail_before_send {A} c code e ty : keeps (failBeforeSend (A := A) config c code e ty).
Proof. unfold failBeforeSend. respects_steps. Qed.
Hint Resolve keeps_fail_before_send : respects.

Lemma keeps_pins id i p : keeps (require_pins config id i p).
Proof. unfold require_pins, claim_to_fail. respects_steps. Qed.

Lemma keeps_claim id i p a v : keeps (claim_authenticated config id i p a v).
Proof. unfold claim_authenticated, Issue, Verify. respects_steps. Qed.

Lemma keeps_reject {A} c code e : keeps (reject (A := A) config c code e).
Proof. unfold reject. respects_steps. Qed.
Lemma keeps_reject_if c b code e : keeps (reject_if config c b code e).
Proof. unfold reject_if, reject. respects_steps. Qed.
Lemma keeps_or_reject {A} c code (x : result DispatchError A) : keeps (or_reject config c code x).
Proof. unfold or_reject, reject. respects_steps. Qed.
Hint Resolve keeps_reject keeps_reject_if keeps_or_reject : respects.

Lemma keeps_checks c :
  keeps (check_task config c) /\ (forall a p, keeps (check_assignment config c a p))
  /\ keeps (resolve_binding config c) /\ (forall o, keeps (resolve_policy config c o))
  /\ keeps (load_input config c) /\ (forall b, keeps (find_adapter config c b))
  /\ (forall s i, keeps (render_context config c s i)).
Proof.
  unfold check_task, check_assignment, resolve_binding, resolve_policy, load_input, find_adapter,
    render_context.
  split_and!; intros; respects_steps.
Qed.

Lemma keeps_decision c o q b classes : keeps (decide_egress config c o q b classes).
Proof. unfold decide_egress, deny. respects_steps. Qed.

Lemma keeps_reserve c i : keeps (reserve_cost config c i).
Proof. unfold reserve_cost. respects_steps. Qed.

Lemma keeps_release x : keeps (release_unsettled x).
Proof.
  intros s r s' H. unfold release_unsettled in H. destruct x as [res|]; [|injection H as _ <-; reflexivity].
  destruct (sys_settled s); [injection H as _ <-; reflexivity|]. revert s r s' H.
  change (keeps (do! modify_sys (log (Released res)) in
    let! t := now in do! gate (Gate_Release res t) in ret tt)). respects_steps.
Qed.

Lemma keeps_non_success x u : keeps (settle_non_success x u).
Proof. unfold settle_non_success. respects_steps. Qed.
Lemma keeps_success x u : keeps (settle_success x u).
Proof. unfold settle_success. respects_steps. Qed.
Hint Resolve keeps_non_success keeps_success : respects.

Lemma keeps_send c e a request x : keeps (send config c e a request x).
Proof.
  unfold send, adapter_failed, cancelled_or_unrecognized, unrecognized, answered, confirmed_cancellation.
  respects_steps.
Qed.
Hint Resolve keeps_pins keeps_claim keeps_decision keeps_reserve keeps_release keeps_send : respects.

Lemma keeps_dispatch id : keeps (Dispatch organizationID config id).
Proof.
  unfold Dispatch, dispatch_claimed. respects_steps;
    match goal with c : ClaimedInvocation |- _ =>
      destruct (keeps_checks c) as (? & ? & ? & ? & ? & ? & ?); auto end.
Qed.

End Orderly.

(** ** What a dispatch says to the gate and to the provider *)

Definition opening (x : option CostReservation) : list DispatchEvent :=
  match x with Some res => [Reserved res] | None => [] end.

Definition handed_back (x : option CostReservation) : list DispatchEvent :=
  match x with Some res => [Released res] | None => [] end.

Definition settles (res : CostReservation) (e : DispatchEvent) : Prop :=
  match e with
  | Reconciled r _ _ | Parked r | Consumed r | Released r => r = res
  | _ => False
  end.

Definition keeps_money (e : DispatchEvent) : Prop :=
  match e with Released _ => False | _ => True end.

(** The answers after which a reservation is handed back although the provider was
    called: the adapter knows that nothing was sent; the rejection of the answer, or
    of what it says, is not durable; a cancellation; a schema the normalizer cannot
    take. *)
Inductive unpaid (raw : RawResponse)
    : option AdapterError -> result Failure DispatchResult -> Prop :=
| NeverSent e o r :
    aerr_Classified e = Some (Some AdapterFailureBeforeRequest, o) -> unpaid raw (Some e) r
| RejectionLost e o lost :
    aerr_Classified e = Some (Some AdapterFailureResponseReceived, o) ->
    unpaid raw (Some e) (Err (mkFailure None (Joined AdapterFailed (Runtime lost))))
| CallerCancelled e r :
    aerr_Canceled e = true -> raw_CancellationConfirmed raw = true ->
    match aerr_Classified e with Some (Some _, _) => False | _ => True end -> unpaid raw (Some e) r
| ProviderCancelled r : raw_CancellationConfirmed raw = true -> unpaid raw None r
| FailureLost lost :
    unpaid raw None (Err (mkFailure None (Joined (Runtime ErrResponseRejected) (Runtime lost))))
| SchemaPanics : unpaid raw None (Err (mkFailure None Panicked)).

(** The adapter has an answer of the provider and rejects it. *)
Definition rejects_answer (failed : option AdapterError) : Prop :=
  exists e o, failed = Some e /\ aerr_Classified e = Some (Some AdapterFailureResponseReceived, o).

(** The rejection of the answer could not be written. *)
Definition unwritten (r : result Failure DispatchResult) : Prop :=
  exists lost, r = Err (mkFailure None (Joined AdapterFailed (Runtime lost))).

Section Conversation.
Context {env : Env} {registry : Registry} {host : Host} {policy : ContentPolicy}.
Context {collaborators : Collaborators} {around : Surroundings}.
Context (organizationID : string) (config : ServiceConfig).

Notation quietly := (respects silent).

Lemma silent_store {A} (m : Disp A) : quietly (store m).
Proof. intros s r s' H. unfold store in H. case_match. by injection H as _ <-. Qed.

Lemma silent_gate {A} (m : Spend A) : quietly (gate m).
Proof. intros s r s' H. unfold gate in H. case_match. by injection H as _ <-. Qed.

Lemma silent_now : quietly now.
Proof. by intros s r s' [= _ <-]. Qed.
Hint Resolve silent_store silent_gate silent_now : respects.

Lemma silent_stored {A} (m : Disp A) : quietly (stored m).
Proof. unfold stored. respects_steps. Qed.

Lemma silent_persist {A} (m : Disp A) e : quietly (persist m e).
Proof. unfold persist. respects_steps. Qed.
Hint Resolve silent_stored silent_persist : respects.

Lemma silent_fail_before_send {A} c code e ty : quietly (failBeforeSend (A := A) config c code e ty).
Proof. unfold failBeforeSend. respects_steps. Qed.
Hint Resolve silent_fail_before_send : respects.

Lemma silent_reject {A} c code e : quietly (reject (A := A) config c code e).
Proof. unfold reject. respects_steps. Qed.
Lemma silent_reject_if c b code e : quietly (reject_if config c b code e).
Proof. unfold reject_if, reject. respects_steps. Qed.
Lemma silent_or_reject {A} c code (x : result DispatchError A) : quietly (or_reject config c code x).
Proof. unfold or_reject, reject. respects_steps. Qed.
Hint Resolve silent_reject silent_reject_if silent_or_reject : respects.

Lemma silent_pins id i p : quietly (require_pins config id i p).
Proof. unfold require_pins, claim_to_fail. respects_steps. Qed.
Lemma silent_claim id i p a v : quietly (claim_authenticated config id i p a v).
Proof. unfold claim_authenticated, Issue, Verify. respects_steps. Qed.
Lemma silent_task c : quietly (check_task config c).
Proof. unfold check_task. respects_steps. Qed.
Lemma silent_assignment c a p : quietly (check_assignment config c a p).
Proof. unfold check_assignment. respects_steps. Qed.
Lemma silent_binding c : quietly (resolve_binding config c).
Proof. unfold resolve_binding. respects_steps. Qed.
Lemma silent_policy c o : quietly (resolve_policy config c o).
Proof. unfold resolve_policy. respects_steps. Qed.
Lemma silent_input c : quietly (load_input config c).
Proof. unfold load_input. respects_steps. Qed.
Lemma silent_decision c o q b classes : quietly (decide_egress config c o q b classes).
Proof. unfold decide_egress, deny. respects_steps. Qed.
Lemma silent_adapter c b : quietly (find_adapter config c b).
Proof. unfold find_adapter. respects_steps. Qed.
Lemma silent_render c s i : quietly (render_context config c s i).
Proof. unfold render_context. respects_steps. Qed.

(** *** Rejections never succeed *)

Lemma fail_not_ok {A} e s a s' : @fail A e s <> (Ok a, s').
Proof. done. Qed.

Lemma persist_then_fails {A B} (m : Disp A) e (f : A -> Dispatching B) s b s' :
  (forall a s1 s2, f a s1 <> (Ok b, s2)) -> bind (persist m e) f s <> (Ok b, s').
Proof.
  intros Hf H. unfold persist, bind in H. destruct (store m s) as [[[a|e1]|e1] s1]; try done.
  exact (Hf _ _ _ H).
Qed.

Lemma reject_not_ok {A} c code e s (a : A) s' : reject config c code e s <> (Ok a, s').
Proof. by apply persist_then_fails. Qed.

Lemma reject_if_ok c b code e s u s' : reject_if config c b code e s = (Ok u, s') -> b = false /\ s' = s.
Proof. destruct b; [by intros ?%reject_not_ok|by intros [= _ <-]]. Qed.

Lemma or_reject_ok {A} c code (x : result DispatchError A) s a s' :
  or_reject config c code x s = (Ok a, s') -> x = Ok a /\ s' = s.
Proof. destruct x; [by intros [= <- <-]|by intros ?%reject_not_ok]. Qed.

Lemma deny_not_ok {A} c e code cause s (a : A) s' : deny config c e code cause s <> (Ok a, s').
Proof. apply persist_then_fails. intros _ s1 s2. by apply persist_then_fails. Qed.

(** *** One call of a store, one step of the gate *)

Lemma stored_ok {A} (m : Disp A) s a s' : stored m s = (Ok a, s') ->
  let n := sys_calls s in
  store_fault n = Answered
  /\ m (others_dispatch n (sys_dispatch s)) = (Ok a, sys_dispatch s')
  /\ silent s s'.
Proof.
  intros H. pose proof (silent_stored m _ _ _ H) as Hs. unfold stored, bind, store, faulty in H.
  cbn zeta. destruct (store_fault _); [|done|done].
  destruct (m _) as [[b|e] w]; [|done]. by injection H as -> <-.
Qed.

Lemma reserve_run c i s x s' : reserve_cost config c i s = (x, s') ->
  sys_settled s' = sys_settled s
  /\ match x with
     | Ok res => sys_trace s' = (sys_trace s ++ opening res)%list /\ is_some res = is_some Gate
     | Err _ => sys_trace s' = sys_trace s
     end.
Proof.
  unfold reserve_cost. destruct Gate as [g|]; [|intros [= <- <-]; by rewrite app_nil_r].
  intros H. unfold bind in H. unfold now at 1 in H.
  match type of H with context [gate ?m ?s0] =>
    pose proof (silent_gate m s0) as Hg; destruct (gate m s0) as [r s1] eqn:Hs end.
  specialize (Hg _ _ eq_refl) as [Ht Hb]. cbn in Ht, Hb.
  destruct r as [[res|e]|e].
  - injection H as <- <-. cbn. by rewrite Ht, Hb.
  - destruct x; [by apply reject_not_ok in H|]. apply silent_reject in H as [Ht' Hb']. split; congruence.
  - injection H as <- <-. split; congruence.
Qed.

(** *** After the call *)

(** The reservation is settled for money once; or not, and then the run ends in [Q]. *)
Definition closing (x : option CostReservation) {A} (Q : result Failure A -> Prop) (m : Dispatching A)
    : Prop := forall s r s', sys_settled s = false -> m s = (r, s') ->
  (silent s s' /\ (is_some x = true -> Q r))
  \/ (exists res e, x = Some res /\ settles res e /\ keeps_money e
      /\ sys_trace s' = (sys_trace s ++ [e])%list /\ sys_settled s' = true).

Section Closing.
Context (x : option CostReservation) {A : Type} (Q : result Failure A -> Prop).

Lemma closing_silent (m : Dispatching A) : quietly m -> (forall s, Q (fst (m s))) -> closing x Q m.
Proof. intros Hm HQ s r s' _ H. left. split; [by eapply Hm|]. intros _. by specialize (HQ s); rewrite H in HQ. Qed.

Lemma closing_bind {B} (m : Dispatching B) (f : B -> Dispatching A) :
  quietly m -> (forall s, match fst (m s) with Err e => Q (Err e) | Ok _ => True end) ->
  (forall b, closing x Q (f b)) -> closing x Q (bind m f).
Proof.
  intros Hm HQ Hf s r s' Hs H. unfold bind in H. specialize (HQ s).
  destruct (m s) as [[b|e] s1] eqn:Hms; apply Hm in Hms as Hq; destruct Hq as [Ht Hb].
  - specialize (Hf b s1 r s' ltac:(by rewrite Hb) H) as [[[Ht' Hb'] HQ']|(res & e & ? & ? & ? & Ht' & ?)].
    + left. split; [|done]. split; congruence.
    + right. exists res, e. rewrite <- Ht. done.
  - injection H as <- <-. by left.
Qed.

Lemma closing_store {B} (m : Disp B) (f : result DispatchError B -> Dispatching A) :
  (forall b, closing x Q (f b)) -> closing x Q (bind (store m) f).
Proof.
  apply closing_bind; [apply silent_store|]. intros s. unfold store. by destruct (faulty _ _ _).
Qed.

Lemma closing_stored {B} (m : Disp B) (f : B -> Dispatching A) :
  (forall e, Q (Err (mkFailure None (Runtime e)))) -> (forall b, closing x Q (f b)) ->
  closing x Q (bind (stored m) f).
Proof.
  intros HQ. apply closing_bind; [apply silent_stored|]. intros s. unfold stored, bind, store.
  by destruct (faulty _ _ _) as [[] ?]; simpl.
Qed.

Lemma closing_persist {B} (m : Disp B) cause (f : B -> Dispatching A) :
  (forall e, Q (Err (mkFailure None (Joined cause (Runtime e))))) -> (forall b, closing x Q (f b)) ->
  closing x Q (bind (persist m cause) f).
Proof.
  intros HQ. apply closing_bind; [apply silent_persist|]. intros s. unfold persist, bind, store.
  by destruct (faulty _ _ _) as [[] ?]; simpl.
Qed.

Lemma closing_end i cause : Q (Err (mkFailure (Some i) cause)) -> closing x Q (end_with i cause).
Proof. intros HQ. by apply closing_silent; [apply respects_throw; apply _|]. Qed.

(** A settlement and then no other. *)
Lemma closing_settled (m : Dispatching unit) (f : unit -> Dispatching A) :
  (forall s r s', m s = (r, s') -> match x with
     | None => silent s s' /\ r = Ok tt
     | Some res => sys_settled s' = true
         /\ exists e, settles res e /\ keeps_money e /\ sys_trace s' = (sys_trace s ++ [e])%list
     end) ->
  quietly (f tt) -> closing x Q (bind m f).
Proof.
  intros Hm Hf s r s' Hs H. unfold bind in H. destruct (m s) as [[[]|e] s1] eqn:Hms; apply Hm in Hms.
  - apply Hf in H as [Ht Hb]. destruct x as [res|].
    + destruct Hms as (Hb1 & e & He & Hk & Ht1). right. exists res, e. rewrite Ht, Hb. done.
    + destruct Hms as [[Ht1 Hb1] _]. left. split; [split; congruence|done].
  - injection H as _ <-. destruct x as [res|]; [|by destruct Hms].
    destruct Hms as (Hb1 & e' & He & Hk & Ht1). right. by exists res, e'.
Qed.

End Closing.

Lemma gate_then {A} (m : Spend A) s r s' :
  (do! gate m in ret tt) s = (r, s') -> r = Ok tt /\ silent s s'.
Proof.
  intros H. split.
  - unfold bind, gate in H. by destruct (faulty _ _ _); injection H as <- _.
  - revert H. apply respects_bind; [apply _|apply silent_gate|]. intros; apply respects_ret; apply _.
Qed.

Lemma non_success_settles x u s r s' : settle_non_success x u s = (r, s') ->
  match x with
  | None => silent s s' /\ r = Ok tt
  | Some res => sys_settled s' = true
      /\ exists e, settles res e /\ keeps_money e /\ sys_trace s' = (sys_trace s ++ [e])%list
  end.
Proof.
  destruct x as [res|]; [|by intros [= <- <-]]. unfold settle_non_success. intros H.
  unfold bind, modify_sys, now in H. cbn [sys_trace set_settled log] in H.
  apply gate_then in H as [_ [Ht Hb]]. cbn in Ht, Hb. split; [done|].
  eexists. rewrite Ht. split_and!; [| |reflexivity]; unfold settlement; repeat case_match; done.
Qed.

Lemma success_settles x u s r s' : settle_success x u s = (r, s') ->
  match x with
  | None => silent s s' /\ r = Ok tt
  | Some res => sys_settled s' = true
      /\ exists e, settles res e /\ keeps_money e /\ sys_trace s' = (sys_trace s ++ [e])%list
  end.
Proof.
  destruct x as [res|]; [|by intros [= <- <-]]. unfold settle_success. intros H.
  unfold bind at 1 in H. unfold now in H. unfold bind at 1 in H.
  destruct (res_Subscription res); unfold bind at 1, modify_sys at 1 in H;
    match type of H with context [bind (gate ?m) _ ?s0] =>
      destruct (bind (gate m) (fun _ => ret tt) s0) as [r1 s1] eqn:Hg;
      pose proof (gate_then m s0 r1 s1 Hg) as [-> [Ht _]] end;
    injection H as _ <-; (split; [done|]); eexists;
    (split_and!; [| |cbn; rewrite Ht; reflexivity]); done.
Qed.

Lemma closing_unrecognized c x d e Q : closing x Q (unrecognized config c x d e).
Proof.
  apply closing_settled; [by apply non_success_settles|]. respects_steps.
Qed.

Lemma closing_adapter_failed c x d raw e :
  closing x (unpaid raw (Some e)) (adapter_failed config c x d raw e).
Proof.
  unfold adapter_failed.
  assert (Hc : match aerr_Classified e with Some (Some _, _) => False | _ => True end ->
    closing x (unpaid raw (Some e)) (cancelled_or_unrecognized config c x d raw e)).
  { intros Hcl. unfold cancelled_or_unrecognized. destruct (aerr_Canceled e && _) eqn:Hb;
      [|apply closing_unrecognized]. apply andb_true_iff in Hb as [Hb1 Hb2].
    apply closing_persist; [intros; by constructor|]. intros [|]; [|apply closing_unrecognized].
    apply closing_persist; [intros; by constructor|]. intros j. apply closing_end. by constructor. }
  destruct (aerr_Classified e) as [[[[]|] o]|] eqn:Hcl; try (apply Hc; exact I).
  - apply closing_persist; [intros; by eapply NeverSent|]. intros j. apply closing_end. by eapply NeverSent.
  - apply closing_persist; [intros; by eapply RejectionLost|]. intros j.
    apply closing_settled; [by apply non_success_settles|]. respects_steps.
  - apply closing_settled; [by apply non_success_settles|]. respects_steps.
Qed.

(** An answer the adapter rejects is settled, unless the rejection could not be written. *)
Lemma rejection_settles c res d raw e s r s' : rejects_answer (Some e) -> sys_settled s = false ->
  adapter_failed config c (Some res) d raw e s = (r, s') -> sys_settled s' = false <-> unwritten r.
Proof.
  intros (e0 & o & He & Hcl) Hs Hrun. injection He as <-. rename Hrun into H. unfold adapter_failed in H. rewrite Hcl in H.
  unfold bind at 1 in H. destruct (persist _ _ s) as [[j|f] s1] eqn:Hp;
    pose proof (silent_persist _ _ _ _ _ Hp) as [_ Hb].
  - unfold bind at 1 in H. destruct (settle_non_success _ _ s1) as [[[]|f] s2] eqn:Hn.
    + apply non_success_settles in Hn as [Hb2 _]. injection H as <- <-.
      split; [congruence|intros (lost & [=])].
    + exfalso. unfold settle_non_success, bind, modify_sys, now in Hn.
      by apply gate_then in Hn as [? _].
  - injection H as <- <-. split; [intros _|intros _; congruence].
    unfold persist, bind, store in Hp. destruct (faulty _ _ _) as [[] ?]; [by injection Hp|].
    injection Hp as <- _. by eexists.
Qed.

Lemma closing_confirmed c x raw : raw_CancellationConfirmed raw = true ->
  closing x (unpaid raw None) (confirmed_cancellation config c).
Proof.
  intros Hr. unfold confirmed_cancellation. apply closing_stored; [intros; by constructor|].
  intros [|]; (apply closing_stored; [intros; by constructor|]); intros j; apply closing_end; by constructor.
Qed.

Lemma confirmed_by_the_provider n i a raw v :
  Normalize n i a raw = Ok v -> nresp_CancellationConfirmed v = raw_CancellationConfirmed raw.
Proof. intros H. apply Normalize_ok in H as (_ & _ & _ & _ & _ & _ & H). exact H. Qed.

Lemma closing_answered c x d raw : closing x (unpaid raw None) (answered config c x d raw).
Proof.
  unfold answered. apply closing_store. intros [j|e].
  - destruct (Normalize _ j _ raw) as [v|[]] eqn:Hn.
    + destruct (nresp_CancellationConfirmed v) eqn:Hv.
      * apply closing_confirmed. by rewrite <- (confirmed_by_the_provider _ _ _ _ _ Hn).
      * apply closing_settled; [by apply success_settles|]. respects_steps.
    + apply closing_persist; [intros; apply FailureLost|]. intros k.
      apply closing_settled; [by apply non_success_settles|]. respects_steps.
    + apply closing_silent; [apply respects_throw; apply _|intros ?; apply SchemaPanics].
  - apply closing_settled; [by apply non_success_settles|]. respects_steps.
Qed.

(** *** Sending *)

(** The provider request a decision left in the tables. *)
Definition recorded (tables : DispatchDB) (allow : PersistAllowCommand) : Prop :=
  exists q, q ∈ co_reqs (core tables)
  /\ request_InvocationID q = eval_InvocationID (allow_Evaluation allow)
  /\ request_DispatchAttemptID q = eval_DispatchAttemptID (allow_Evaluation allow)
  /\ request_Evidence q = allow_ProviderRequest allow
  /\ request_Deadline q = allow_Deadline allow
  /\ backed (core tables) q.

Lemma steps_requests (c c' : Core) (q : ProviderRequestRow) :
  dispatch_steps c c' -> q ∈ co_reqs c -> q ∈ co_reqs c'.
Proof.
  induction 1 as [|c c1 c' H1 _ IH]; [done|]. intros Hs. apply IH.
  destruct H1; simpl; try done. apply elem_of_app. by left.
Qed.

(** From the durable decision to the call. *)
Lemma decided_requests funded {lawful : Lawful funded} hostNow usedAt allow id s1 s2 s3 s4 j e :
  dispatch_inv (core (dw_db (sys_dispatch s1))) ->
  stored (PersistPreSendAllowAndMarkSendStarted hostNow usedAt allow) s1 = (Ok tt, s2) ->
  sys_dispatch s3 = sys_dispatch s2 -> sys_calls s3 = sys_calls s2 ->
  stored (GetInvocation id) s3 = (Ok j, s4) -> e = dw_db (sys_dispatch s4) -> recorded e allow.
Proof.
  intros Hinv H1 Hd Hn H2 ->. apply stored_ok in H1 as (_ & H1 & _).
  pose proof (others_take_steps (sys_calls s1) (sys_dispatch s1) Hinv) as Ho.
  pose proof (steps_inv _ _ Hinv Ho) as Hinv1.
  apply PersistAllow_ok in H1 as (Hs1 & q & Hq & Hf1 & Hf2 & Hf3 & Hf4); [|done].
  pose proof (steps_inv _ _ Hinv1 Hs1) as Hinv2.
  destruct (keeps_stored funded _ (reads_invocation id) _ _ _ H2) as [H2' _]. clear H2. rename H2' into H2.
  rewrite Hd in H2. specialize (H2 Hinv2). exists q. split_and!; try done.
  - by eapply steps_requests.
  - apply di_backed; [by eapply steps_inv|]. by eapply steps_requests.
Qed.

(** What a send says, and the reservation's end. *)
Record exchange (c : ClaimedInvocation) (e : PreSendEvaluation) (a : ProviderAdapter)
    (request : CanonicalRequest) (x : option CostReservation) (s : Sys)
    (r : result Failure DispatchResult) (s' : Sys) : Prop := {
  ex_said : exists mid closing,
    sys_trace s' = (sys_trace s ++ mid ++ closing)%list
    /\ ((closing = [] /\ sys_settled s' = false)
        \/ exists res ev, x = Some res /\ settles res ev /\ keeps_money ev /\ closing = [ev]
             /\ sys_settled s' = true)
    /\ ((closing = [] /\ (mid = [] \/ exists allow, mid = [Allowed allow]))
        \/ exists allow tables, mid = [Allowed allow; Called request tables]
             /\ allow_Evaluation allow = e /\ allow_ClaimToken allow = claimed_ClaimToken c
             /\ BuildProviderRequestEvidence request (adapter_Descriptor a)
                = Ok (allow_ProviderRequest allow)
             /\ (forall funded, Lawful funded -> dispatch_inv (core (dw_db (sys_dispatch s))) ->
                 recorded tables allow)
             /\ (closing = [] -> is_some x = true ->
                 let (raw, failed) := adapter_Dispatch a request in unpaid raw failed r)
             /\ (rejects_answer (snd (adapter_Dispatch a request)) -> is_some x = true ->
                 closing = [] <-> unwritten r)) }.

Lemma unsent c e a request x s r s' :
  silent s s' -> sys_settled s = false -> exchange c e a request x s r s'.
Proof.
  intros [Ht Hb] Hs. split. exists [], []. rewrite !app_nil_r, Ht, Hb. naive_solver.
Qed.

Lemma send_run c e a request x s r s' : sys_settled s = false ->
  send config c e a request x s = (r, s') -> exchange c e a request x s r s'.
Proof.
  intros Hs H. unfold send in H. unfold bind at 1 in H.
  destruct (or_reject _ _ _ _ s) as [[ev|f] s1] eqn:He; [|injection H as <- <-;
    apply unsent; [by eapply silent_or_reject|done]].
  apply or_reject_ok in He as [He ->]. unfold bind at 1, now at 1 in H. unfold bind at 1, now at 1 in H.
  unfold bind at 1 in H. cbn [sys_clock] in H.
  set (allow := mkPersistAllowCommand _ _ _ _ _) in H.
  match type of H with context [stored ?m ?s0] =>
    destruct (stored m s0) as [[[]|f] s2] eqn:Hp; pose proof (silent_stored _ _ _ _ Hp) as [Ht Hb];
    cbn in Ht, Hb end;
    [|injection H as <- <-; apply unsent; [split; congruence|done]].
  unfold bind at 1, modify_sys at 1 in H. unfold bind at 1 in H.
  destruct (stored (GetInvocation _) _) as [[j|f] s3] eqn:Hg;
    pose proof (silent_stored _ _ _ _ Hg) as [Ht2 Hb2]; cbn in Ht2, Hb2.
  2: { injection H as <- <-. split. exists [Allowed allow], []. rewrite app_nil_r. split_and!.
       - congruence.
       - left. split; [done|congruence].
       - left. eauto. }
  assert (Hrec : forall funded, Lawful funded -> dispatch_inv (core (dw_db (sys_dispatch s))) ->
    recorded (dw_db (sys_dispatch s3)) allow).
  { intros funded lawful Hinv.
    by refine (decided_requests funded _ _ allow _ _ _ _ _ j _ _ Hp _ _ Hg eq_refl). }
  unfold bind at 1, call_adapter at 1 in H.
  set (s4 := log _ s3) in H.
  assert (Ht4 : sys_trace s4
    = (sys_trace s ++ [Allowed allow; Called request (dw_db (sys_dispatch s3))])%list).
  { unfold s4. cbn. rewrite Ht2, Ht, <- !app_assoc. done. }
  assert (Hb4 : sys_settled s4 = false) by (unfold s4; cbn; congruence).
  destruct (adapter_Dispatch a request) as [raw failed] eqn:Ha.
  assert (Hc : closing x (unpaid raw failed) (match failed with
    | Some err => adapter_failed config c x (adapter_Descriptor a) raw err
    | None => answered config c x (adapter_Descriptor a) raw end)).
  { destruct failed; [apply closing_adapter_failed|apply closing_answered]. }
  assert (Hrej : rejects_answer failed -> is_some x = true -> sys_settled s' = false <-> unwritten r).
  { intros Hf Hx. destruct x as [res|]; [|done]. destruct failed as [err|]; [|by destruct Hf as (? & ? & [=] & _)].
    by eapply rejection_settles. }
  specialize (Hc s4 r s' Hb4 H) as [[[Ht5 Hb5] HQ]|(res & ev' & -> & Hse & Hk & Ht5 & Hb5)]; split.
  - exists [Allowed allow; Called request (dw_db (sys_dispatch s3))], []. rewrite app_nil_r. split_and!.
    + congruence.
    + left. split; [done|congruence].
    + right. exists allow, (dw_db (sys_dispatch s3)). rewrite Ha. split_and!; try done.
      intros Hf Hx. rewrite <- Hrej by done. split; [intros _; congruence|done].
  - exists [Allowed allow; Called request (dw_db (sys_dispatch s3))], [ev']. split_and!.
    + by rewrite Ht5, Ht4, <- app_assoc.
    + right. naive_solver.
    + right. exists allow, (dw_db (sys_dispatch s3)). rewrite Ha. split_and!; try done.
      intros Hf Hx. rewrite <- Hrej by done. split; [done|congruence].
Qed.

(** *** The way to the call *)

(** Nothing is said, and the tables stay in order. *)
Definition calm (s s' : Sys) : Prop :=
  silent s s' /\ (forall funded, Lawful funded -> orderly funded s s').

#[local] Instance calm_preorder : PreOrder calm.
Proof.
  split; [by intros s|]. intros s1 s2 s3 [H12 P12] [H23 P23]. split; [by etrans|].
  intros funded lawful. etrans; [by apply P12|by apply P23].
Qed.

Lemma calmly {A} (m : Dispatching A) :
  quietly m -> (forall funded, Lawful funded -> respects (orderly funded) m) -> respects calm m.
Proof. intros Hq Hk s r s' H. split; [by eapply Hq|]. intros. by eapply Hk. Qed.

Lemma bind_respects {A B} (R : relation Sys) (m : Dispatching A) (f : A -> Dispatching B) s r s' :
  respects R m -> bind m f s = (r, s') ->
  (R s s' /\ exists e, r = Err e) \/ exists a s1, m s = (Ok a, s1) /\ R s s1 /\ f a s1 = (r, s').
Proof.
  intros Hm H. unfold bind in H. destruct (m s) as [[a|e] s1] eqn:Hs; apply Hm in Hs as HR.
  - right. by exists a, s1.
  - injection H as <- <-. left. by eauto.
Qed.

Lemma fail_if_ok b e s u s' : fail_if b e s = (Ok u, s') -> b = false /\ s' = s.
Proof. destruct b; [done|by intros [= _ <-]]. Qed.

Lemma input_ok c s snapshot input classes s' :
  load_input config c s = (Ok (snapshot, input, classes), s') ->
  let col := inv_Columns (claimed_Invocation c) in
  GetContextSnapshot (inv_ContextSnapshotID col) = Ok snapshot
  /\ classes = NormalizeClassifications
       (snap_DataClasses snapshot ++ elems (env_InputClassifications (pinput_Envelope input))
        ++ if HasCredentials (inv_OutputSchema col) then [ClassificationSecret] else [])%list.
Proof.
  intros H. unfold load_input in H.
  apply bind_ok in H as (sn & s1 & [Hsn ->]%or_reject_ok & H).
  apply bind_ok in H as (u1 & s2 & [_ ->]%or_reject_ok & H).
  apply bind_ok in H as (u2 & s3 & _ & H). apply bind_ok in H as (k & s4 & _ & H).
  apply bind_ok in H as (kept & s5 & _ & H). apply bind_ok in H as (i & s6 & _ & H).
  by injection H as <- <- <- _.
Qed.

Lemma decision_ok c o p b classes s e s' :
  decide_egress config c o p b classes s = (Ok e, s') ->
  let col := inv_Columns (claimed_Invocation c) in
  existsb guarded_class (fst classes) = false
  /\ (exists d, adec_Allowed d = true
      /\ EvaluateDispatch (inv_OrganizationID col) (inv_OrganizationRevisionID col)
           (inv_DispatchActorRoleID col) (FormatInt (inv_ID (claimed_Invocation c)))
           (eval_ActionDigest e) = Ok d)
  /\ (exists d, dec_Effect d = EffectAllow
      /\ EvaluateEgress (mkEvaluationRequest (inv_ProviderID col) (bind_Transport (dbind_Route b))
           (inv_OrganizationRevisionID col) p (fst classes)) = (d, None))
  /\ eval_AuthorizationEffect e = AuthorizationAllow /\ eval_EgressEffect e = EffectAllow
  /\ eval_InvocationID e = inv_ID (claimed_Invocation c)
  /\ eval_DispatchAttemptID e = datt_ID (claimed_DispatchAttempt c).
Proof.
  intros H. unfold decide_egress in H.
  apply bind_ok in H as (digest & s1 & [_ ->]%or_reject_ok & H).
  destruct (EvaluateDispatch _ _ _ _ _) as [d|e1] eqn:Hd; [|by apply deny_not_ok in H].
  destruct (adec_Allowed d) eqn:Ha; cbn [negb] in H; [|by apply deny_not_ok in H].
  destruct (EvaluateEgress _) as [q err] eqn:Hq.
  destruct (is_some err || _) eqn:He; [by apply deny_not_ok in H|].
  destruct (negb (bool_decide (dec_Effect q = EffectAllow))) eqn:Hallow; [by apply deny_not_ok in H|].
  destruct (existsb guarded_class (fst classes)) eqn:Hg; [by apply deny_not_ok in H|].
  apply negb_false_iff, bool_decide_eq_true in Hallow. apply orb_false_iff in He as [He _].
  destruct err; [done|]. injection H as <- <-. cbn. split_and!; try done; eauto.
Qed.

Lemma adapter_ok c b s a s' : find_adapter config c b s = (Ok a, s') ->
  Adapters (inv_ProviderID (inv_Columns (claimed_Invocation c))) = Some a.
Proof.
  unfold find_adapter. destruct (Adapters _) as [a'|]; [|by intros ?%reject_not_ok]. intros H.
  apply bind_ok in H as (u1 & s1 & _ & H). apply bind_ok in H as (u2 & s2 & _ & H).
  destruct (adapter_Preflight _ _); [by apply reject_not_ok in H|]. by injection H as <- _.
Qed.

Lemma render_ok c snapshot input s rendered s' :
  render_context config c snapshot input s = (Ok rendered, s') ->
  RenderContextSnapshot (inv_ContextSnapshotID (inv_Columns (claimed_Invocation c))) = Ok rendered
  /\ env_sha256_hex rendered = snap_RenderedHash snapshot.
Proof.
  intros H. unfold render_context in H. apply bind_ok in H as (t & s1 & [Hr ->]%or_reject_ok & H).
  apply bind_ok in H as (u & s2 & [Hh%negb_false_iff%bool_decide_eq_true ->]%reject_if_ok & H).
  apply bind_ok in H as (u' & s3 & _ & H). by injection H as <- _.
Qed.

(** What the provider is called with has been allowed, twice, and is not of a class
    that must stay. *)
Record cleared (allow : PersistAllowCommand) (q : CanonicalRequest) : Prop := {
  cl_named : eval_InvocationID (allow_Evaluation allow) = call_InvocationID q
    /\ eval_DispatchAttemptID (allow_Evaluation allow) = call_DispatchAttemptID q;
  cl_authorized : eval_AuthorizationEffect (allow_Evaluation allow) = AuthorizationAllow
    /\ exists d, adec_Allowed d = true
       /\ EvaluateDispatch (call_OrganizationID q) (call_OrganizationRevisionID q)
            (call_DispatchActorRoleID q) (FormatInt (call_InvocationID q))
            (eval_ActionDigest (allow_Evaluation allow)) = Ok d;
  cl_context : exists snapshot, GetContextSnapshot (call_ContextSnapshotID q) = Ok snapshot
    /\ RenderContextSnapshot (call_ContextSnapshotID q) = Ok (call_RenderedContext q)
    /\ env_sha256_hex (call_RenderedContext q) = snap_RenderedHash snapshot
    /\ let classes := normal_classes
         (snap_DataClasses snapshot
          ++ elems (env_InputClassifications (pinput_Envelope (call_ModelInput q)))
          ++ if HasCredentials (call_OutputSchema q) then [ClassificationSecret] else []) in
       ClassificationSecret ∉ classes /\ ClassificationClinical ∉ classes
       /\ eval_EgressEffect (allow_Evaluation allow) = EffectAllow
       /\ exists transport p d, dec_Effect d = EffectAllow
          /\ EvaluateEgress (mkEvaluationRequest (call_ProviderID q) transport
               (call_OrganizationRevisionID q) p classes) = (d, None);
  cl_adapter : exists a, Adapters (call_ProviderID q) = Some a
    /\ BuildProviderRequestEvidence q (adapter_Descriptor a) = Ok (allow_ProviderRequest allow) }.

Lemma guarded_free (l : list string) : existsb guarded_class l = false ->
  ClassificationSecret ∉ l /\ ClassificationClinical ∉ l.
Proof.
  intros H. assert (Hn : forall s, guarded_class s = true -> s ∉ l).
  { intros s Hs Hin. assert (existsb guarded_class l = true); [|congruence].
    apply existsb_exists. exists s. by rewrite list_elem_of_In in Hin. }
  by split; apply Hn.
Qed.

Lemma calm_task c : respects calm (check_task config c).
Proof. apply calmly; [apply silent_task|intros; by apply keeps_checks]. Qed.
Lemma calm_assignment c a p : respects calm (check_assignment config c a p).
Proof. apply calmly; [apply silent_assignment|intros; by apply keeps_checks]. Qed.
Lemma calm_binding c : respects calm (resolve_binding config c).
Proof. apply calmly; [apply silent_binding|intros; by apply keeps_checks]. Qed.
Lemma calm_policy c o : respects calm (resolve_policy config c o).
Proof. apply calmly; [apply silent_policy|intros; by apply keeps_checks]. Qed.
Lemma calm_input c : respects calm (load_input config c).
Proof. apply calmly; [apply silent_input|intros; by apply keeps_checks]. Qed.
Lemma calm_decision c o q b classes : respects calm (decide_egress config c o q b classes).
Proof. apply calmly; [apply silent_decision|intros; by apply keeps_decision]. Qed.
Lemma calm_adapter c b : respects calm (find_adapter config c b).
Proof. apply calmly; [apply silent_adapter|intros; by apply keeps_checks]. Qed.
Lemma calm_render c s i : respects calm (render_context config c s i).
Proof. apply calmly; [apply silent_render|intros; by apply keeps_checks]. Qed.
Lemma calm_get id : respects calm (stored (GetInvocation id)).
Proof. apply calmly; [apply silent_stored|intros; by apply keeps_stored, reads_invocation]. Qed.
Lemma calm_pins id i p : respects calm (require_pins config id i p).
Proof. apply calmly; [apply silent_pins|intros; by apply keeps_pins]. Qed.
Lemma calm_claim id i p a v : respects calm (claim_authenticated config id i p a v).
Proof. apply calmly; [apply silent_claim|intros; by apply keeps_claim]. Qed.
Hint Resolve calm_get calm_pins calm_claim calm_task calm_assignment calm_binding calm_policy calm_input calm_decision
  calm_adapter calm_render : respects.

(** The next phase answers [a], or the call was rejected in silence. *)
Local Ltac onward C H a Ha :=
  let s1 := fresh "s" in let C1 := fresh "C" in let Hq := fresh "Hq" in
  apply (bind_respects calm) in H as [[[Hq _] _]|(a & s1 & Ha & C1 & H)];
  [left; first [etrans; [apply C|exact Hq]|destruct C as [[? _] _], Hq; congruence]
  |assert (calm _ s1) by (etrans; [exact C|exact C1]); clear C1; try clear C; rename select (calm _ s1) into C
  |solve [eauto with respects typeclass_instances]].

(** A claimed call is rejected in silence, or it is sent under a reservation. *)
Lemma claimed_run c assignment p s r s' : sys_settled s = false ->
  dispatch_claimed config c assignment p s = (r, s') ->
  silent s s' \/ exists x a q e s1 s2,
    sys_trace s1 = (sys_trace s ++ opening x)%list /\ sys_settled s1 = false
    /\ (forall funded, Lawful funded -> orderly funded s s1)
    /\ is_some x = is_some Gate /\ Adapters (call_ProviderID q) = Some a
    /\ send config c e a q x s1 = (r, s2) /\ s' = snd (release_unsettled x s2)
    /\ (forall allow, allow_Evaluation allow = e ->
          BuildProviderRequestEvidence q (adapter_Descriptor a) = Ok (allow_ProviderRequest allow) ->
          cleared allow q).
Proof.
  intros Hs H. unfold dispatch_claimed in H. assert (C : calm s s) by reflexivity.
  onward C H o Ho. onward C H u Hu. onward C H b Hb. onward C H pol Hp.
  onward C H i Hi. destruct i as [[snapshot input] classes]. apply input_ok in Hi as [Hsn Hcl].
  onward C H e He. apply decision_ok in He as (Hg & Ha & Hq & Hae & Hee & Hei & Hed).
  onward C H a Had. apply adapter_ok in Had. onward C H rendered Hr. apply render_ok in Hr as [Hr Hh].
  unfold bind at 1 in H. destruct (reserve_cost config c input _) as [[x|f] s9] eqn:Hx;
    pose proof (reserve_run _ _ _ _ _ Hx) as [Hset Hx']; destruct C as [[Ht Hb'] C].
  2: { injection H as <- <-. left. split; congruence. }
  destruct Hx' as [Ht' Hgate]. unfold with_deferred in H.
  destruct (send _ _ _ _ _ _ s9) as [r0 s10] eqn:Hsend. injection H as <- <-.
  right. exists x, a, (canonical_request c b rendered input), e, s9, s10. split_and!; try done.
  - congruence.
  - congruence.
  - intros funded lawful. etrans; [by apply C|]. by eapply keeps_reserve.
  - intros allow <- Hev. apply guarded_free in Hg as [Hg1 Hg2]. rewrite Hcl in Hg1, Hg2, Hq.
    split; [done|split; [done|exact Ha]| |by exists a].
    exists snapshot. split_and!; try done. destruct Hq as (d & Hd1 & Hd2).
    cbv zeta. split_and!; try done. by exists (bind_Transport (dbind_Route b)), pol, d.
Qed.

Lemma release_run x s : let s' := snd (release_unsettled x s) in
  sys_trace s' = (sys_trace s ++ if sys_settled s then [] else handed_back x)%list.
Proof.
  unfold release_unsettled. destruct x as [res|]; [|cbn; by destruct (sys_settled s); rewrite app_nil_r].
  destruct (sys_settled s); [cbn; by rewrite app_nil_r|]. cbn zeta. unfold bind at 1, modify_sys, bind at 1, now.
  match goal with |- context [(bind (gate ?m) ?f) ?s0] =>
    destruct (bind (gate m) f s0) as [r1 s1] eqn:Hg; pose proof (gate_then m s0 r1 s1 Hg) as [_ [Ht _]] end.
  exact Ht.
Qed.

(** *** The whole of a dispatch *)

(** How the reservation of a call ends. *)
Definition closes (x : option CostReservation) (q : CanonicalRequest)
    (r : result Failure DispatchResult) (closing : list DispatchEvent) : Prop :=
  match x with
  | None => closing = []
  | Some res => exists e, closing = [e] /\ settles res e
      /\ (e = Released res -> exists a, Adapters (call_ProviderID q) = Some a
            /\ let (raw, failed) := adapter_Dispatch a q in unpaid raw failed r)
      /\ (forall a, Adapters (call_ProviderID q) = Some a ->
            rejects_answer (snd (adapter_Dispatch a q)) -> e = Released res <-> unwritten r)
  end.

Inductive conversation (r : result Failure DispatchResult) (sound : Prop) : list DispatchEvent -> Prop :=
| SaidNothing : conversation r sound []
| NotCalled x mid : is_some x = is_some Gate ->
    (mid = [] \/ exists allow, mid = [Allowed allow]) ->
    conversation r sound (opening x ++ mid ++ handed_back x)
| CalledOnce x allow q tables closing : is_some x = is_some Gate ->
    cleared allow q -> (sound -> recorded tables allow) -> closes x q r closing ->
    conversation r sound (opening x ++ [Allowed allow; Called q tables] ++ closing).

Lemma said_then (l a b c : list DispatchEvent) : (l ++ a ++ b ++ c = (l ++ a) ++ b ++ c)%list.
Proof. by rewrite <- app_assoc. Qed.

Lemma sent_run c e a q x s s1 r s2 (sound : Prop) :
  sys_trace s1 = (sys_trace s ++ opening x)%list -> sys_settled s1 = false ->
  (sound -> exists funded, Lawful funded /\ dispatch_inv (core (dw_db (sys_dispatch s1)))) ->
  is_some x = is_some Gate -> Adapters (call_ProviderID q) = Some a ->
  (forall allow, allow_Evaluation allow = e ->
     BuildProviderRequestEvidence q (adapter_Descriptor a) = Ok (allow_ProviderRequest allow) ->
     cleared allow q) ->
  send config c e a q x s1 = (r, s2) ->
  exists said, sys_trace (snd (release_unsettled x s2)) = (sys_trace s ++ said)%list
    /\ conversation r sound said.
Proof.
  intros Ht Hb Hsound Hx Ha Hclear Hs.
  destruct (send_run _ _ _ _ _ _ _ _ Hb Hs) as [(mid & closing & Ht2 & Hclose & Hmid)].
  exists (opening x ++ mid ++ (closing ++ if sys_settled s2 then [] else handed_back x))%list. split.
  { rewrite release_run, Ht2, Ht, <- !app_assoc. done. }
  destruct Hmid as [[-> Hmid]|(allow & tables & -> & He & _ & Hev & Hrec & Hpaid & Hrej)].
  { destruct Hclose as [[_ ->]|(? & ? & _ & _ & _ & ? & _)]; [|done]. by apply NotCalled. }
  apply CalledOnce; [done|by apply Hclear| |].
  { intros (funded & lawful & Hinv)%Hsound. by eapply Hrec. }
  destruct Hclose as [[-> ->]|(res & ev & -> & Hse & Hk & -> & ->)].
  - destruct x as [res|]; [|done]. exists (Released res). split_and!; try done.
    + intros _. exists a. split; [done|]. by apply Hpaid.
    + intros a' Ha' Hr. rewrite Ha in Ha'. injection Ha' as <-. rewrite <- Hrej by done. done.
  - exists ev. split_and!; try done; [by intros ->|].
    intros a' Ha' Hr. rewrite Ha in Ha'. injection Ha' as <-. rewrite <- Hrej by done.
    split; [by intros ->|done].
Qed.

Lemma dispatch_run id s r s' (sound : Prop) :
  (sound -> exists funded, Lawful funded /\ dispatch_inv (core (dw_db (sys_dispatch s)))) ->
  Dispatch organizationID config id s = (r, s') ->
  exists said, sys_trace s' = (sys_trace s ++ said)%list /\ conversation r sound said.
Proof.
  intros Hsound H.
  enough (sys_trace s' = sys_trace s
          \/ exists said, sys_trace s' = (sys_trace s ++ said)%list /\ conversation r sound said)
    as [Ht|?]; [|done|].
  { exists []. rewrite app_nil_r. split; [done|constructor]. }
  unfold Dispatch in H. assert (C : calm s s) by reflexivity.
  onward C H u1 H1. onward C H u2 H2. cbv zeta in H. onward C H u3 H3. onward C H p Hp.
  onward C H u4 H4. onward C H i Hi. onward C H pins Hpins. destruct pins as [assignment version].
  onward C H claimed Hc. unfold bind at 1, modify_sys at 1 in H.
  destruct C as [[Ht _] C]. apply claimed_run in H as [[Ht' _]|H]; [left; cbn in Ht'; congruence| |done].
  destruct H as (x & a & q & e & s10 & s11 & Ht1 & Hb1 & Ho & Hx & Ha & Hs & -> & Hclear).
  right. cbn in Ht1. rewrite Ht in Ht1. eapply sent_run; try done.
  intros (funded & lawful & Hinv)%Hsound. exists funded. split; [done|].
  destruct (C funded lawful) as [C1 _], (Ho funded lawful) as [C2 _].
  pose proof (steps_inv _ _ Hinv (C1 Hinv)) as Hinv1. exact (steps_inv _ _ Hinv1 (C2 Hinv1)).
Qed.

(** *** A call that succeeds *)

(** What is paid for an answer. *)
Definition paid (x : option CostReservation) (u : ModelUsage) : list DispatchEvent :=
  match x with
  | None => []
  | Some res => [if res_Subscription res then Consumed res
                 else Reconciled res (usage_InputTokens u) (usage_OutputTokens u)]
  end.

Lemma end_not_ok {A} i e s (a : A) s' : end_with i e s <> (Ok a, s').
Proof. done. Qed.

Lemma unrecognized_not_ok c x d e s r s' : unrecognized config c x d e s <> (Ok r, s').
Proof.
  intros H. unfold unrecognized in H. apply bind_ok in H as (? & ? & _ & H).
  by apply bind_ok in H as (? & ? & _ & ?%end_not_ok).
Qed.

Lemma adapter_failed_not_ok c x d raw e s r s' : adapter_failed config c x d raw e s <> (Ok r, s').
Proof.
  assert (Hc : forall s r s', cancelled_or_unrecognized config c x d raw e s <> (Ok r, s')).
  { clear. intros s r s' H. unfold cancelled_or_unrecognized in H.
    destruct (_ && _); [|by apply unrecognized_not_ok in H].
    apply bind_ok in H as ([|] & ? & _ & H); [|by apply unrecognized_not_ok in H].
    by apply bind_ok in H as (? & ? & _ & ?%end_not_ok). }
  unfold adapter_failed. destruct (aerr_Classified e) as [[[[]|] o]|]; try apply Hc; intros H;
    repeat (apply bind_ok in H as (? & ? & _ & H)); by apply end_not_ok in H.
Qed.

Lemma confirmed_not_ok c s r s' : confirmed_cancellation config c s <> (Ok r, s').
Proof.
  intros H. unfold confirmed_cancellation in H. apply bind_ok in H as ([|] & ? & _ & H);
    by apply bind_ok in H as (? & ? & _ & ?%end_not_ok).
Qed.

Lemma success_said x u s a s' : settle_success x u s = (Ok a, s') ->
  sys_trace s' = (sys_trace s ++ paid x u)%list /\ sys_dispatch s' = sys_dispatch s
  /\ (is_some x = true -> sys_settled s' = true).
Proof.
  destruct x as [res|]; [|by intros [_ ->]%ret_ok; rewrite app_nil_r]. unfold settle_success. intros H.
  apply bind_ok in H as (t & s1 & H1 & H). injection H1 as <- <-.
  apply bind_ok in H as ([] & s2 & Hg & H). injection H as _ <-.
  cbn. destruct (res_Subscription res); apply bind_ok in Hg as ([] & s3 & H3 & Hg); injection H3 as <-;
    pose proof (gate_then _ _ _ _ Hg) as [_ [Ht _]]; rewrite Ht; (split; [done|split; [|done]]);
    apply bind_ok in Hg as (y & s4 & Hg & [_ ->]%ret_ok); unfold gate in Hg;
    destruct (faulty _ _ _) in Hg; by injection Hg as _ <-.
Qed.

Section Answered.
Context (funded : string -> Prop) {lawful : Lawful funded}.

Lemma inv_after {A} (m : Dispatching A) s r s' : respects (orderly funded) m -> m s = (r, s') ->
  dispatch_inv (core (dw_db (sys_dispatch s))) -> dispatch_inv (core (dw_db (sys_dispatch s'))).
Proof. intros Hm H Hinv. destruct (Hm _ _ _ H) as [Hs _]. by eapply steps_inv, Hs. Qed.

(** What an answer comes to, when the call succeeds. *)
Record answers (c : ClaimedInvocation) (x : option CostReservation) (raw : RawResponse)
    (r : DispatchResult) (v : NormalizedResponse) (s' : Sys) : Prop := {
  an_normal : exists j, inv_ID j = inv_ID (claimed_Invocation c)
    /\ Normalize (mkNormalizer (dcfg_MaxResponseBytes config) (dcfg_MaxToolIntents config)) j
         (datt_ID (claimed_DispatchAttempt c)) raw = Ok v;
  an_final : nresp_CancellationConfirmed v = false;
  an_named : inv_ID (dres_Invocation r) = inv_ID (claimed_Invocation c);
  an_kept : keeps_answer v r (core (dw_db (sys_dispatch s')));
  an_settled : is_some x = true -> sys_settled s' = true }.

Lemma answered_run c x d raw s r s' : dispatch_inv (core (dw_db (sys_dispatch s))) ->
  answered config c x d raw s = (Ok r, s') ->
  exists v, answers c x raw r v s' /\ sys_trace s' = (sys_trace s ++ paid x (nresp_Usage v))%list.
Proof.
  intros Hinv H. unfold answered in H. cbv zeta in H. apply bind_ok in H as (y & s1 & H1 & H).
  destruct y as [j|e]; [|by apply bind_ok in H as (? & ? & _ & ?%fail_not_ok)].
  destruct (silent_store _ _ _ _ H1) as [Ht1 _].
  pose proof (inv_after _ _ _ _ (keeps_store funded _ (MarkResponseReceived_refines _ _ _ _)) H1 Hinv) as Hinv1.
  unfold store, faulty in H1. destruct (store_fault _); [|done|done].
  destruct (MarkResponseReceived _ _ _ _ _) as [j' w1] eqn:Hm. injection H1 as -> <-.
  apply MarkResponseReceived_ok in Hm; [|by eapply steps_inv, others_take_steps].
  destruct (Normalize _ j _ raw) as [v|[]] eqn:Hn; [|by apply bind_ok in H as (? & ? & _ & H);
    apply bind_ok in H as (? & ? & _ & ?%end_not_ok)|by apply fail_not_ok in H].
  destruct (nresp_CancellationConfirmed v) eqn:Hv; [by apply confirmed_not_ok in H|].
  apply bind_ok in H as ([] & s2 & H2 & H). apply success_said in H2 as (Ht2 & Hd2 & Hs2).
  pose proof (silent_stored _ _ _ _ H) as [Ht3 Hs3]. apply stored_ok in H as (_ & H & _).
  apply CompleteInvocation_ok in H as [Hid Hk];
    [|eapply steps_inv, others_take_steps; by rewrite Hd2].
  exists v. split; [split; try done; [by exists j|by rewrite Hid|intros ?; rewrite Hs3; by apply Hs2]|].
  by rewrite Ht3, Ht2, Ht1.
Qed.

Lemma send_answered c e a q x s r s' : dispatch_inv (core (dw_db (sys_dispatch s))) ->
  send config c e a q x s = (Ok r, s') ->
  exists allow tables raw v, adapter_Dispatch a q = (raw, None) /\ answers c x raw r v s'
    /\ sys_trace s' = (sys_trace s ++ Allowed allow :: Called q tables :: paid x (nresp_Usage v))%list.
Proof.
  intros Hinv H. unfold send in H. apply bind_ok in H as (ev & s1 & [He ->]%or_reject_ok & H).
  apply bind_ok in H as (t1 & s2 & E1 & H). injection E1 as _ <-.
  apply bind_ok in H as (t2 & s3 & E2 & H). injection E2 as _ <-.
  set (allow := mkPersistAllowCommand _ _ _ _ _) in H. apply bind_ok in H as ([] & s4 & H1 & H).
  pose proof (silent_stored _ _ _ _ H1) as [Ht1 _].
  pose proof (inv_after _ _ _ _ (keeps_stored funded _ (PersistAllow_refines _ _ _)) H1 Hinv) as Hinv1.
  apply bind_ok in H as ([] & s5 & E3 & H). injection E3 as <-.
  apply bind_ok in H as (j & s6 & H2 & H).
  pose proof (silent_stored _ _ _ _ H2) as [Ht2 _].
  pose proof (inv_after _ _ _ _ (keeps_stored funded _ (reads_invocation _)) H2 Hinv1) as Hinv2.
  apply bind_ok in H as ([raw failed] & s7 & E4 & H). injection E4 as Ha <-. rewrite Ha.
  destruct failed as [err|]; [by apply adapter_failed_not_ok in H|].
  apply answered_run in H as (v & Han & Ht3); [|done].
  exists allow, (dw_db (sys_dispatch s6)), raw, v. split_and!; [done|done|].
  rewrite Ht3. cbn. rewrite Ht2. cbn. rewrite Ht1. cbn. by rewrite <- !app_assoc.
Qed.

Lemma calm_of {A} (m : Dispatching A) s r s' : respects calm m -> m s = (r, s') -> calm s s'.
Proof. intros Hm. apply Hm. Qed.

(** The way to the call, when nothing fails. *)
Local Ltac passed C H Ha :=
  let a := fresh "a" in let s1 := fresh "s" in let C1 := fresh "C" in let C0 := fresh "C" in
  apply bind_ok in H as (a & s1 & Ha & H);
  assert (C1 : calm _ s1) by (refine (calm_of _ _ _ _ _ Ha); eauto with respects typeclass_instances);
  pose proof (transitivity C C1) as C0; clear C C1; rename C0 into C.

Lemma claimed_answered c assignment p s r s' : dispatch_inv (core (dw_db (sys_dispatch s))) ->
  sys_settled s = false -> dispatch_claimed config c assignment p s = (Ok r, s') ->
  exists x a q allow tables raw v, is_some x = is_some Gate /\ Adapters (call_ProviderID q) = Some a
    /\ call_InvocationID q = inv_ID (claimed_Invocation c)
    /\ adapter_Dispatch a q = (raw, None) /\ answers c x raw r v s'
    /\ sys_trace s' = (sys_trace s ++ opening x
         ++ Allowed allow :: Called q tables :: paid x (nresp_Usage v))%list.
Proof.
  intros Hinv Hs H. unfold dispatch_claimed in H. assert (C : calm s s) by reflexivity.
  passed C H Ho. passed C H Hu. passed C H Hb. passed C H Hp. passed C H Hi.
  destruct a3 as [[snapshot input] classes]. passed C H He. passed C H Ha. apply adapter_ok in Ha.
  passed C H Hr. apply bind_ok in H as (x & s9 & Hx & H).
  pose proof (reserve_run _ _ _ _ _ Hx) as [_ [Ht9 Hgate]]. destruct C as [[Ht _] C].
  assert (Hinv9 : dispatch_inv (core (dw_db (sys_dispatch s9)))).
  { destruct (C funded lawful) as [C1 _]. pose proof (steps_inv _ _ Hinv (C1 Hinv)) as Hinv1.
    by eapply (inv_after (reserve_cost config c input)); [apply keeps_reserve|exact Hx|]. }
  unfold with_deferred in H. destruct (send _ _ _ _ _ _ s9) as [r0 s10] eqn:Hsend. injection H as -> <-.
  apply send_answered in Hsend as (allow & tables & raw & v & Hd & Han & Ht10); [|done].
  assert (Hrel : snd (release_unsettled x s10) = s10).
  { unfold release_unsettled. destruct x; [|done]. by rewrite (an_settled _ _ _ _ _ _ Han). }
  rewrite Hrel. eexists x, _, (canonical_request c _ _ input), allow, tables, raw, v.
  split_and!; [exact Hgate|exact Ha|done|exact Hd|exact Han|]. by rewrite Ht10, Ht9, Ht, <- app_assoc.
Qed.

#[local] Hint Resolve keeps_store keeps_stored keeps_now reads_random reads_key reads_policy
  reads_assignment CreateChallenge_refines : respects.

(** A claim is of the invocation that was asked for. *)
Lemma claim_names id i p assignment version s c s' : dispatch_inv (core (dw_db (sys_dispatch s))) ->
  claim_authenticated config id i p assignment version s = (Ok c, s') ->
  inv_ID (claimed_Invocation c) = id.
Proof.
  intros Hinv H. unfold claim_authenticated in H. cbv zeta in H.
  do 9 (let y := fresh "y" in let s1 := fresh "s" in let H1 := fresh "H" in
    apply bind_ok in H as (y & s1 & H1 & H);
    assert (Hi : dispatch_inv (core (dw_db (sys_dispatch s1))))
      by (refine (inv_after _ _ _ _ _ H1 Hinv); unfold Issue, Verify; respects_steps);
    clear H1 Hinv; rename Hi into Hinv).
  apply stored_ok in H as (_ & H & _).
  pose proof (fun n => steps_inv _ _ Hinv (others_take_steps n _ Hinv)) as Hothers.
  match type of H with context [others_dispatch ?n _] => pose proof (Hothers n) as Hinv1 end.
  eapply ClaimInvocationAuthenticated_ok in H as (j & ch & k & q & t & ch' & row & [Hj _ _ _ _ _ _ Hcl _ _ _ _]);
    [|exact Hinv1].
  destruct (cl_same _ _ _ _ Hcl) as [-> _]. exact (li_inv _ _ (di_life _ Hinv1) _ _ Hj).
Qed.

Lemma dispatch_answered id s r s' : dispatch_inv (core (dw_db (sys_dispatch s))) ->
  Dispatch organizationID config id s = (Ok r, s') ->
  exists c x a q allow tables raw v, inv_ID (claimed_Invocation c) = id
    /\ is_some x = is_some Gate /\ Adapters (call_ProviderID q) = Some a
    /\ call_InvocationID q = id /\ adapter_Dispatch a q = (raw, None) /\ answers c x raw r v s'
    /\ sys_trace s' = (sys_trace s ++ opening x
         ++ Allowed allow :: Called q tables :: paid x (nresp_Usage v))%list.
Proof.
  intros Hinv H. unfold Dispatch in H. cbv zeta in H. assert (C : calm s s) by reflexivity.
  passed C H H1. passed C H H2. passed C H H3. passed C H H4. passed C H H5. passed C H H6. passed C H H7.
  destruct a5 as [assignment version]. pose proof C as C8. passed C H H8.
  assert (Hinv8 : forall t, calm s t -> dispatch_inv (core (dw_db (sys_dispatch t)))).
  { intros t [_ Ct]. destruct (Ct funded lawful) as [Cs _]. by eapply steps_inv, Cs. }
  apply claim_names in H8; [|by apply Hinv8].
  apply bind_ok in H as ([] & s9 & H9 & H). injection H9 as <-.
  apply claimed_answered in H as (x & a6 & q & allow & tables & raw & v & Hx & Ha & Hq & Hd & Han & Ht);
    [|by apply (Hinv8 _ C)|done].
  exists a5, x, a6, q, allow, tables, raw, v. split_and!; try done; [congruence|].
  destruct C as [[Ht0 _] _]. rewrite Ht. cbn. by rewrite Ht0.
Qed.

End Answered.

End Conversation.

(** ** What every dispatch keeps *)

(** A dispatch, whatever fails in it and whatever the other processes do between
    its calls by calls of their own, takes the tables of the model runtime by steps of
    the machine of DispatchSpec.v, whose invariant holds again when it ends, and moves
    money by calls of the ledger only, so that every wallet still adds up. *)
Lemma dispatches_keep_the_tables {env : Env} {registry : Registry} {host : Host}
    {policy : ContentPolicy} {collaborators : Collaborators} {around : Surroundings}
    (funded : string -> Prop) {lawful : Lawful funded} (organizationID : string)
    (config : ServiceConfig) (id : Z) (s s' : Sys) (r : result Failure DispatchResult) :
  dispatch_inv (core (dw_db (sys_dispatch s))) ->
  Dispatch organizationID config id s = (r, s') ->
  dispatch_steps (core (dw_db (sys_dispatch s))) (core (dw_db (sys_dispatch s')))
  /\ dispatch_inv (core (dw_db (sys_dispatch s')))
  /\ spend_moves funded (sys_spend s) (sys_spend s')
  /\ (ledger_inv (sw_db (sys_spend s)) -> ledger_inv (sw_db (sys_spend s'))).
Proof.
  intros Hinv H. apply (keeps_dispatch funded) in H as [Hs Hm]. specialize (Hs Hinv).
  split_and!; try done; [by eapply steps_inv|]. by apply spend_moves_inv with (funded := funded).
Qed.

(** C9: A dispatch that succeeds has called the provider once, for the invocation it was asked to
    dispatch, and the provider answered: the answer passed the normalizer within the limits of the
    configuration and was not a cancellation, the invocation has succeeded, and the tables keep for
    it the output in its mode, the tool intents and the hash of that answer, which are what the
    caller is told.  What was reserved is settled with the usage of the answer, and nothing else is
    said to the gate. *)
Theorem answers_are_kept {env : Env} {registry : Registry} {host : Host}
    {policy : ContentPolicy} {collaborators : Collaborators} {around : Surroundings}
    (funded : string -> Prop) {lawful : Lawful funded} (organizationID : string)
    (config : ServiceConfig) (id : Z) (s s' : Sys) (r : DispatchResult) :
  dispatch_inv (core (dw_db (sys_dispatch s))) ->
  Dispatch organizationID config id s = (Ok r, s') ->
  inv_ID (dres_Invocation r) = id
  /\ exists reservation a q allow tables raw i attempt v,
      sys_trace s' = (sys_trace s ++ opening reservation
        ++ Allowed allow :: Called q tables :: paid reservation (nresp_Usage v))%list
      /\ is_some reservation = is_some Gate /\ call_InvocationID q = id
      /\ Adapters (call_ProviderID q) = Some a /\ adapter_Dispatch a q = (raw, None)
      /\ Normalize (mkNormalizer (dcfg_MaxResponseBytes config) (dcfg_MaxToolIntents config)) i
           attempt raw = Ok v
      /\ inv_ID i = id /\ nresp_CancellationConfirmed v = false
      /\ keeps_answer v r (core (dw_db (sys_dispatch s'))).
Proof.
  intros Hinv H. apply (dispatch_answered _ _ funded) in H
    as (c & x & a & q & allow & tables & raw & v & Hc & Hx & Ha & Hq & Hd & Han & Ht); [|done].
  destruct Han as [(j & Hj & Hn) Hf Hnamed Hk _]. split; [congruence|].
  exists x, a, q, allow, tables, raw, j, (datt_ID (claimed_DispatchAttempt c)), v.
  split_and!; try done. congruence.
Qed.

Definition uncalled (e : DispatchEvent) : Prop := match e with Called _ _ => False | _ => True end.

Lemma closes_uncalled {collaborators : Collaborators} x q r l :
  closes x q r l -> Forall uncalled l.
Proof.
  unfold closes. destruct x as [res|]; [|by intros ->]. intros (e & -> & He & _ & _).
  repeat constructor. by destruct e.
Qed.

(** C10: A dispatch calls the provider at most once.  When it does, the last thing it
    did was to make the decision durable: the tables at that moment hold the provider
    request, for this attempt and with the evidence of this request, backed by an
    allowing decision and an accepted assertion.  The action was authorized, the
    egress policy allowed every class of the context, of the input and of the schema,
    none of which is secret or clinical, the rendered context has the hash of its
    snapshot, and where there is a cost gate it has granted a reservation. *)
Theorem calls_are_allowed {env : Env} {registry : Registry} {host : Host}
    {policy : ContentPolicy} {collaborators : Collaborators} {around : Surroundings}
    (funded : string -> Prop) {lawful : Lawful funded} (organizationID : string)
    (config : ServiceConfig) (id : Z) (s s' : Sys) (r : result Failure DispatchResult) :
  dispatch_inv (core (dw_db (sys_dispatch s))) ->
  Dispatch organizationID config id s = (r, s') ->
  exists said, sys_trace s' = (sys_trace s ++ said)%list
  /\ (Forall uncalled said
      \/ exists reservation allow q tables closing,
           said = (opening reservation ++ Allowed allow :: Called q tables :: closing)%list
           /\ is_some reservation = is_some Gate /\ Forall uncalled closing
           /\ cleared allow q /\ recorded tables allow).
Proof.
  intros Hinv H.
  apply (dispatch_run _ _ _ _ _ _ True) in H as (said & Ht & Hs); [|intros _; by exists funded].
  exists said. split; [done|]. destruct Hs as [|x mid Hx Hmid|x allow q tables closing Hx Hc Hr Hcl].
  - by left.
  - left. apply Forall_app. split; [by destruct x; repeat constructor|]. apply Forall_app.
    split; [|by destruct x; repeat constructor]. by destruct Hmid as [->|[allow ->]]; repeat constructor.
  - right. exists x, allow, q, tables, closing. split_and!; try done; [|by apply Hr].
    by eapply closes_uncalled.
Qed.

Definition moneyless (e : DispatchEvent) : Prop :=
  match e with Allowed _ | Called _ _ => True | _ => False end.

(** C11: What a dispatch reserves it settles exactly once, at its end: the hold is
    reconciled, parked for reconciliation, recorded as consumption of a plan, or
    released.  It is released when the provider was not called; when the provider was
    called, only after one of the answers of [unpaid]. *)
Theorem reservations_settle_once {env : Env} {registry : Registry} {host : Host}
    {policy : ContentPolicy} {collaborators : Collaborators} {around : Surroundings}
    (organizationID : string) (config : ServiceConfig) (id : Z) (s s' : Sys)
    (r : result Failure DispatchResult) :
  Dispatch organizationID config id s = (r, s') ->
  exists said, sys_trace s' = (sys_trace s ++ said)%list
  /\ (Forall moneyless said
      \/ exists res mid e, said = (Reserved res :: mid ++ [e])%list
           /\ Forall moneyless mid /\ settles res e
           /\ (Forall uncalled mid -> e = Released res)
           /\ (e = Released res -> forall q tables, Called q tables ∈ mid ->
                 exists a, Adapters (call_ProviderID q) = Some a
                 /\ let (raw, failed) := adapter_Dispatch a q in unpaid raw failed r)).
Proof.
  intros H. apply (dispatch_run _ _ _ _ _ _ False) in H as (said & Ht & Hs); [|done].
  exists said. split; [done|]. destruct Hs as [|x mid Hx Hmid|x allow q tables closing Hx _ _ Hcl].
  - by left.
  - assert (Hm : Forall moneyless mid /\ forall q tables, Called q tables ∉ mid).
    { destruct Hmid as [->|[allow ->]]; (split; [by repeat constructor|set_solver]). }
    destruct Hm as [Hm Hn]. destruct x as [res|]; [|left; by rewrite app_nil_r].
    right. exists res, mid, (Released res). split_and!; try done. intros _ q tables Hin. by destruct (Hn q tables).
  - destruct x as [res|]; [|rewrite Hcl; left; by repeat constructor].
    destruct Hcl as (e & -> & He & Hp & _). right. exists res, [Allowed allow; Called q tables], e.
    split_and!; try done; [by repeat constructor|by intros [_ [[] _]%Forall_cons]%Forall_cons|].
    intros Hrel q' tables' Hin. apply Hp in Hrel. set_solver.
Qed.

(** C25: The comment of [settleNonSuccessReservation] says that an answer which proves that the
    call may have been billed is never recorded as free.  When the provider answered a call and the
    adapter rejects the answer, whatever usage the answer reports, the reservation is settled for
    money exactly if the rejection could be written: a dispatch that ends because it could not hands
    the whole reservation back as its last act, and settles nothing. *)
Theorem answered_calls_may_be_free {env : Env} {registry : Registry} {host : Host}
    {policy : ContentPolicy} {collaborators : Collaborators} {around : Surroundings}
    (organizationID : string) (config : ServiceConfig) (id : Z) (s s' : Sys)
    (r : result Failure DispatchResult) (said : list DispatchEvent) (q : CanonicalRequest)
    (tables : DispatchDB) (a : ProviderAdapter) :
  Dispatch organizationID config id s = (r, s') -> sys_trace s' = (sys_trace s ++ said)%list ->
  Called q tables ∈ said -> is_some Gate = true -> Adapters (call_ProviderID q) = Some a ->
  rejects_answer (snd (adapter_Dispatch a q)) ->
  exists res allow e, said = [Reserved res; Allowed allow; Called q tables; e] /\ settles res e
    /\ (unwritten r -> e = Released res) /\ (~ unwritten r -> keeps_money e).
Proof.
  intros H Ht Hcalled Hgate Ha Hrej.
  apply (dispatch_run _ _ _ _ _ _ False) in H as (said' & Ht' & Hs); [|done].
  rewrite Ht in Ht'. apply app_inv_head in Ht' as <-.
  destruct Hs as [|x mid Hx Hmid|x allow q' tables' closing Hx _ _ Hcl].
  - by apply not_elem_of_nil in Hcalled.
  - exfalso. destruct x, Hmid as [->|[allow ->]]; set_solver.
  - rewrite Hgate in Hx. destruct x as [res|]; [|done]. destruct Hcl as (e & -> & He & _ & Hiff).
    simpl in Hcalled |- *. assert (q' = q /\ tables' = tables) as [-> ->].
    { rewrite !elem_of_cons in Hcalled.
      destruct Hcalled as [?|[?|[[= -> ->]|[<-|?%not_elem_of_nil]]]]; by destruct_or?. }
    exists res, allow, e. specialize (Hiff a Ha Hrej). split_and!; [done|done|by apply Hiff|].
    intros Hw. destruct e; try done. destruct Hw. apply Hiff. by rewrite <- He.
Qed.

(** ** A call of a program

    The goal and the wallet of GateProps.v and the assignment of DispatchMachine.v; the
    call is for the model the wallet pays. *)

Definition service_envelope : ModelInputEnvelope :=
  mkEnvelope ModelInputEnvelopeSchemaV1 11 (demo_digest "projection")
    (Some [mkMessage ModelInputRoleUser "the context" "" "" [];
           mkMessage ModelInputRoleSystem "be brief" "" "" []]) "" None None "" None "".

Definition service_input : PreparedModelInput :=
  match @PrepareModelInput demo wary (Some service_envelope) demo_snapshot "the context" with
  | Ok p => p
  | Err _ => mkPreparedInput service_envelope "" ""
  end.

Definition service_host : Host := {|
  host_decode_input s :=
    (fun e => envelope_columns e s (demo_digest s)) <$> stored_envelope s;
  host_verify key payload signature := bool_decide (signature = demo_sign key payload);
  host_build_sha := "build";
  host_valid_json s := negb (is_empty s) |}.

Definition service_columns : InvocationColumns :=
  mkInvocationColumns "acme" 7 1 2 "eng/lead" "eng/dev" (Some 1) (Some 5) 11 "answer" "fast" 3
    "gemini" "pro" (Some 3) demo_hash (Some 9) (demo_digest "identity") [] OutputText "" 256 None
    "disabled" "i1" (demo_digest "i1") (demo_digest "intent") "" "" "" "" "" "" demo_horizon "" "".

Definition service_calls : list DispatchCall :=
  [CallCreateAssignment (demo_assignment_call "a1" 1);
   CallCreateInvocation (mkPreparedInvocation service_columns
     (envelope_columns (pinput_Envelope service_input) (pinput_CanonicalBytes service_input)
        (pinput_CanonicalDigest service_input))) 10].

Definition service_requested : DispatchWorld :=
  foldl (@dispatch_exec demo demo_registry service_host) dispatch0 service_calls.

(** The row of the call is in both halves of the database. *)
Definition service_money : SpendWorld :=
  let d := sw_db gate_ready in
  mkSpendWorld
    (mkSpendDB (sp_pricing d) (sp_wallets d) (sp_wallet_events d) (sp_embeddings d)
       (<[1 := demo_invocation]> (sp_invocations d)) (sp_usage d) (sp_budgets d) (sp_budget_events d)
       (sp_task_budgets d) (sp_tasks d)) (sw_seq gate_ready).

Definition service_start : Sys := mkSys service_requested service_money 0 0 false [].

Definition service_plan : CanonicalPolicy :=
  mkCanonicalPolicy "model-egress" 1 EffectDeny
    [mkHardDeny ClassificationSecret "secret_denied";
     mkHardDeny ClassificationClinical "clinical_denied"]
    [mkEgressRule "gemini" ClassificationPublic EffectAllow "public_allowed" false] demo_hash.

Definition service_descriptor : AdapterDescriptor :=
  mkAdapterDescriptor "gemini" "gemini" 1 TransportHTTP "request.v1" "response.v1"
    (demo_digest "endpoint") (demo_digest "credential").

(** A provider that answers with text, or with what the adapter rejects. *)
Definition service_answer : RawResponse :=
  mkRawResponse "the answer" [] "" "req-1" 20 10 true false
    (demo_outcome ProviderOutcomeResponseReceived 200) None None.

Definition service_rejection : AdapterError :=
  mkAdapterError (Some (Some AdapterFailureResponseReceived, demo_outcome ProviderOutcomeRejected 200))
    false false.

Definition service_adapter (failed : option AdapterError) : ProviderAdapter :=
  mkProviderAdapter "gemini" service_descriptor (fun _ => None) (fun _ => (service_answer, failed)).

Definition service_principal : ExecutionPrincipal :=
  mkPrincipal 5 "orgd" "eng/lead" PrincipalActive.

Definition service_team (failed : option AdapterError) : Collaborators := {|
  PrincipalByKey _ _ := Ok service_principal;
  PrincipalByID _ := Ok service_principal;
  LoadExecutionPrivateKey _ := Ok "seed";
  PublicKey _ := key_PublicKey demo_key;
  Sign _ payload := demo_sign (key_PublicKey demo_key) payload;
  GetTaskAttempt _ _ :=
    Ok (mkTaskAttemptRef 1 2 "acme" 7 "eng/dev" "running" "running" "holder" demo_horizon);
  CurrentOrganization _ := Ok (mkOrganizationRef "acme" 7 demo_hash (demo_digest "matrix"));
  BindingOfRole _ _ _ := Ok (mkDispatchBinding
    (mkResolvedBinding "fast" 3 "gemini" "pro" TransportHTTP) "" [] true true "available" true
    "available");
  CandidateRoute _ _ _ := Err ErrBindingNotFound;
  PolicyForRevision _ _ := Ok (mkResolvedPolicy 3 1 demo_hash "acme" "materialized" 7 demo_hash
    EffectDeny (expectedMaterializedRules service_plan));
  GetContextSnapshot _ := Ok demo_snapshot;
  ValidateContextSnapshot _ := Ok tt;
  RenderContextSnapshot _ := Ok "the context";
  EvaluateDispatch _ _ _ _ _ :=
    Ok (mkAuthorizationDecision true "role_authorized" (demo_digest "matrix"));
  EvaluateEgress := @Evaluate demo;
  Adapters _ := Some (service_adapter failed);
  ClockNow n := 6000000 + Z.of_nat n * 1000;
  Gate := Some (mkCostBudgetGate no_subscription (Some demo_resolver)) |}.

(** Nobody else works; a given call of a store is lost. *)
Definition alone (lost : option nat) : Surroundings := {|
  others_dispatch _ w := w;
  others_spend _ w := w;
  store_fault n := if bool_decide (lost = Some n) then Lost ErrHost else Answered;
  gate_fault _ := Answered |}.

Definition service_config : ServiceConfig :=
  mkServiceConfig true "orgd" true "key" 1024 4 demo_config.

Definition service_run (failed : option AdapterError) (lost : option nat)
    : result Failure DispatchResult * Sys :=
  @Dispatch demo demo_registry service_host wary (service_team failed) (alone lost) "acme"
    service_config 1 service_start.

(** The provider's usage and the reservation, where a call ends in a release. *)
Definition released_after_call (s : Sys) : option (CostReservation * CostReservation * bool) :=
  match sys_trace s with
  | [Reserved res; Allowed _; Called q _; Released res'] =>
      Some (res, res', raw_ProviderReported
                         (fst (adapter_Dispatch (service_adapter (Some service_rejection)) q)))
  | _ => None
  end.

Definition service_hold : CostReservation := mkCostReservation "gemini" "pro" 1 1 true true false.

Definition purse (s : Sys) : option (USDNanos * USDNanos) :=
  (fun w => (wallet_BalanceUSD w, wallet_ReservedUSD w)) <$> sp_wallets (sw_db (sys_spend s)) !! "gemini".

Lemma released_shape (s : Sys) res res' b : released_after_call s = Some (res, res', b) ->
  exists allow q tables, sys_trace s = [Reserved res; Allowed allow; Called q tables; Released res']
  /\ raw_ProviderReported (fst (adapter_Dispatch (service_adapter (Some service_rejection)) q)) = b.
Proof.
  unfold released_after_call. intros H.
  destruct (sys_trace s) as [|e1 [|e2 [|e3 [|e4 [|]]]]]; try discriminate H;
    destruct e1 as [r1| | | | | |]; try discriminate H; destruct e2 as [| | | | |allow|];
    try discriminate H; destruct e3 as [| | | | | |q tables]; try discriminate H;
    destruct e4 as [| | | |r4| |]; try discriminate H.
  exists allow, q, tables. split; congruence.
Qed.

(** ** The theorems on this call *)

Lemma service_inv : dispatch_inv (core (dw_db (sys_dispatch service_start))).
Proof.
  apply (@reachable_dispatch_inv demo demo_registry service_host),
    (@calls_reachable demo demo_registry service_host). by apply RunStart.
Qed.

Lemma alone_lawful lost : @Lawful (alone lost) (fun _ => False).
Proof. split; [intros; apply rtc_refl|intros; apply rtc_refl]. Qed.

Lemma answers_are_kept_witness : exists x s' row,
  service_run None None = (Ok x, s') /\ inv_ID (dres_Invocation x) = 1
  /\ inv_Status (dres_Invocation x) = InvocationSucceeded
  /\ result_TextOutput (dres_Result x) = "the answer"%string
  /\ md_results (dw_db (sys_dispatch s')) !! 1 = Some row
  /\ result_TextOutput row = "the answer"%string.
Proof.
  destruct (service_run None None) as [r s'] eqn:H.
  assert (Hr : match fst (service_run None None) with
               | Ok x => bool_decide (result_OutputMode (dres_Result x) = OutputText
                           /\ result_TextOutput (dres_Result x) = "the answer"%string)
               | Err _ => false end = true) by (vm_compute; reflexivity).
  rewrite H in Hr. destruct r as [x|f]; [|discriminate Hr].
  apply bool_decide_eq_true in Hr as [Hmode Htext]. unfold service_run in H.
  destruct (@answers_are_kept demo demo_registry service_host wary (service_team None)
    (alone None) (fun _ => False) (alone_lawful None) "acme" service_config 1 service_start s' x
    service_inv H) as (Hid & ? & ? & ? & ? & ? & ? & i & attempt & v & _ & _ & _ & _ & _ & _ & _ & _ & Hk).
  destruct Hk as [Hs Hm Hi (row & Hrow & _ & (Hrm & Hrt & _) & _) (Hvm & Ht & _)].
  exists x, s', row. rewrite Hid in Hrow. split; [reflexivity|]. split; [exact Hid|].
  split; [exact Hs|]. split; [exact Htext|]. split; [exact Hrow|].
  rewrite <- Htext, Ht. apply Hrt. rewrite <- Hvm. exact Hmode.
Defined.

Definition says_allowed_then_called (l : list DispatchEvent) : bool :=
  match l with Reserved _ :: Allowed _ :: Called _ _ :: _ => true | _ => false end.

Lemma calls_are_allowed_witness : exists s' reservation allow q tables closing,
  snd (service_run None None) = s'
  /\ sys_trace s' = (opening reservation ++ Allowed allow :: Called q tables :: closing)%list
  /\ cleared (collaborators := service_team None) (env := demo) (policy := wary) allow q
  /\ recorded tables allow.
Proof.
  destruct (service_run None None) as [r s'] eqn:H.
  assert (Hr : says_allowed_then_called (sys_trace (snd (service_run None None))) = true)
    by (vm_compute; reflexivity).
  rewrite H in Hr.
  unfold service_run in H.
  destruct (@calls_are_allowed demo demo_registry service_host wary (service_team None)
    (alone None) (fun _ => False) (alone_lawful None) "acme" service_config 1 service_start s' r
    service_inv H) as (said & Ht & [Hn|(x & allow & q & tables & closing & Hs & _ & _ & Hc & Hrec)]).
  - exfalso. cbn in Ht. cbn [snd] in Hr. rewrite Ht in Hr.
    destruct said as [|[] [|[] [|[] ?]]]; try discriminate Hr.
    inversion Hn as [|? ? _ Hn1]; inversion Hn1 as [|? ? _ Hn2]; inversion Hn2 as [|? ? Hf _]. exact Hf.
  - exists s', x, allow, q, tables, closing. split; [reflexivity|]. split; [|by split].
    rewrite Ht. exact Hs.
Defined.

Lemma reservations_settle_once_witness : exists allow q tables,
  sys_trace (snd (service_run (Some service_rejection) (Some 11%nat)))
  = [Reserved service_hold; Allowed allow; Called q tables; Released service_hold]
  /\ unpaid service_answer (Some service_rejection)
       (fst (service_run (Some service_rejection) (Some 11%nat))).
Proof.
  destruct (service_run (Some service_rejection) (Some 11%nat)) as [r s'] eqn:H.
  assert (Hr : released_after_call (snd (service_run (Some service_rejection) (Some 11%nat)))
               = Some (service_hold, service_hold, true)) by (vm_compute; reflexivity).
  rewrite H in Hr. apply released_shape in Hr as (allow & q & tables & Hshape & _).
  cbn [fst snd] in Hshape |- *. exists allow, q, tables. split; [exact Hshape|]. unfold service_run in H.
  destruct (@reservations_settle_once demo demo_registry service_host wary
    (service_team (Some service_rejection)) (alone (Some 11%nat)) "acme" service_config 1
    service_start s' r H) as (said & Ht & [Hm|(res & mid & e & Hs & Hm & He & _ & Hp)]);
    cbn [sys_trace service_start app] in Ht; rewrite Hshape in Ht; subst said.
  - exfalso. inversion Hm as [|? ? Hf _]. exact Hf.
  - injection Hs as <- Hs.
    change ([Allowed allow; Called q tables] ++ [Released service_hold] = mid ++ [e])%list in Hs.
    apply app_inj_2 in Hs as [<- [= <-]]; [|reflexivity].
    destruct (Hp eq_refl q tables) as (a & Ha & Hu); [by do 2 constructor|].
    injection Ha as <-. exact Hu.
Defined.

(** The provider was called. *)
Definition is_call (e : DispatchEvent) : bool := match e with Called _ _ => true | _ => false end.

Lemma called_in (l : list DispatchEvent) : existsb is_call l = true -> exists q tables, Called q tables ∈ l.
Proof.
  intros (e & He & Hc)%existsb_exists. apply list_elem_of_In in He. destruct e; try done. by eexists _, _.
Qed.

Lemma rejected : rejects_answer (Some service_rejection).
Proof. exists service_rejection. eexists. split; reflexivity. Qed.

(** The provider reports what the rejected answer used.  Where the rejection is written the wallet
    pays for it; where its write, the twelfth call of a store, is lost, the wallet is as before. *)
Lemma answered_calls_may_be_free_witness :
  raw_ProviderReported service_answer = true
  /\ (exists allow q tables e, sys_trace (snd (service_run (Some service_rejection) None))
         = [Reserved service_hold; Allowed allow; Called q tables; e] /\ keeps_money e)
  /\ purse (snd (service_run (Some service_rejection) None)) <> purse service_start
  /\ (exists allow q tables, sys_trace (snd (service_run (Some service_rejection) (Some 11%nat)))
         = [Reserved service_hold; Allowed allow; Called q tables; Released service_hold])
  /\ purse (snd (service_run (Some service_rejection) (Some 11%nat))) = purse service_start.
Proof.
  split; [reflexivity|]. split; [|split; [vm_compute; discriminate|split; [|vm_compute; reflexivity]]].
  - destruct (service_run (Some service_rejection) None) as [r s'] eqn:H.
    assert (Hc : existsb is_call (sys_trace (snd (service_run (Some service_rejection) None))) = true)
      by (vm_compute; reflexivity).
    assert (Hr : match fst (service_run (Some service_rejection) None) with
                 | Err f => is_some (failed_Invocation f) | Ok _ => false end = true)
      by (vm_compute; reflexivity).
    assert (Hh : head (sys_trace (snd (service_run (Some service_rejection) None)))
                 = Some (Reserved service_hold)) by (vm_compute; reflexivity).
    rewrite H in Hc, Hr, Hh. cbn [fst snd] in Hc, Hr, Hh. apply called_in in Hc as (q & tables & Hin).
    unfold service_run in H.
    assert (Hstart : sys_trace s' = (sys_trace service_start ++ sys_trace s')%list) by reflexivity.
    destruct (@answered_calls_may_be_free demo demo_registry service_host wary
      (service_team (Some service_rejection)) (alone None) "acme" service_config 1 service_start s' r
      (sys_trace s') q tables (service_adapter (Some service_rejection)) H Hstart Hin eq_refl eq_refl rejected)
      as (res & allow & e & Ht & _ & _ & Hkept).
    cbn [snd]. rewrite Ht in Hh |- *. injection Hh as ->. exists allow, q, tables, e.
    split; [reflexivity|]. apply Hkept. intros [lost ->]. discriminate Hr.
  - destruct (service_run (Some service_rejection) (Some 11%nat)) as [r s'] eqn:H.
    assert (Hc : existsb is_call (sys_trace (snd (service_run (Some service_rejection) (Some 11%nat))))
      = true) by (vm_compute; reflexivity).
    assert (Hr : fst (service_run (Some service_rejection) (Some 11%nat))
      = Err (mkFailure None (Joined AdapterFailed (Runtime ErrHost)))) by (vm_compute; reflexivity).
    assert (Hh : head (sys_trace (snd (service_run (Some service_rejection) (Some 11%nat))))
                 = Some (Reserved service_hold)) by (vm_compute; reflexivity).
    rewrite H in Hc, Hr, Hh. cbn [fst snd] in Hc, Hr, Hh. apply called_in in Hc as (q & tables & Hin).
    unfold service_run in H.
    assert (Hstart : sys_trace s' = (sys_trace service_start ++ sys_trace s')%list) by reflexivity.
    destruct (@answered_calls_may_be_free demo demo_registry service_host wary
      (service_team (Some service_rejection)) (alone (Some 11%nat)) "acme" service_config 1 service_start
      s' r (sys_trace s') q tables (service_adapter (Some service_rejection)) H Hstart Hin eq_refl
      eq_refl rejected) as (res & allow & e & Ht & _ & Hfree & _).
    cbn [snd]. rewrite Ht in Hh |- *. injection Hh as ->. exists allow, q, tables.
    by rewrite (Hfree (ex_intro _ ErrHost Hr)).
Defined.
