(* ===== verification/DispatchProps.v ===== *)
(** * What runs of the model runtime keep

    Theorems on the worlds a run of calls reaches. *)

From stdpp Require Import base tactics list gmap strings relations.
From Stdlib Require Import ZArith Lia.
From S2P Require Import Prelude GoLib TaskDomain Database Scenario DispatchDB Egress Routing.
From S2P Require Import InvocationStore Claims PreSend Outcomes Assignments DispatchSpec.
From S2P Require Import DispatchInvariant DispatchRun DispatchRefine PreSendRefine.
From S2P Require Import DispatchMachine.

Local Open Scope Z_scope.

(** ** Calls that fail *)

Section Failures.
Context `{Env} `{Registry} `{Host}.

Lemma serve_rolls_back (c : DispatchCall) : rolls_back (serve_dispatch c).
Proof.
  destruct c; simpl; try (apply rolls_before);
    try solve [apply rolls_tx
              |apply rolls_after; [solve [eauto with quiet]|intros; apply rolls_tx]].
  - unfold ClaimInvocation. apply rolls_after; [apply quiet_token|intros []; apply rolls_tx].
  - apply ClaimInvocationAuthenticated_rolls_back.
Qed.

End Failures.

(** ** Lists with distinct keys *)

Lemma one_by_key {A} (f : A -> Z) (k : Z) (l : list A) :
  NoDup (f <$> l) -> (length (List.filter (fun x => (f x =? k)%Z) l) <= 1)%nat.
Proof.
  induction l as [|x l IH]; [simpl; lia|]. rewrite fmap_cons, NoDup_cons. intros [Hni Hnd].
  simpl. destruct (Z.eqb_spec (f x) k) as [<-|_]; [|by apply IH].
  assert (Hn : List.filter (fun y => f y =? f x) l = []).
  { destruct (List.filter _ l) as [|y l'] eqn:Hf; [done|].
    assert (Hin : In y (List.filter (fun y => f y =? f x) l)) by (rewrite Hf; by left).
    apply filter_In in Hin as [Hin%list_elem_of_In He%Z.eqb_eq]. destruct Hni. rewrite <- He.
    by apply list_elem_of_fmap_2. }
  by rewrite Hn.
Qed.

Lemma rows_NoDup' {A} (id : A -> Z) (p : A -> bool) (t : gmap Z A) :
  (forall k a, t !! k = Some a -> id a = k) -> NoDup (rows p t).
Proof. intros Hid. eapply NoDup_fmap_1, rows_NoDup, Hid. Qed.

Lemma attempts_of_spec (id : Z) (a : DispatchAttempt) (d : DispatchDB) :
  a ∈ attempts_of id d <-> exists k, md_attempts d !! k = Some a /\ att_invocation a = id.
Proof. unfold attempts_of. rewrite rows_spec. by setoid_rewrite Z.eqb_eq. Qed.

(** The only element with a property comes before those without it. *)
Lemma only_active {A} (f : A -> bool) (a : A) (l : list A) :
  NoDup l -> f a = true -> a ∈ l -> (forall b, b ∈ l -> f b = true -> b = a) ->
  l ≡ₚ a :: List.filter (fun b => negb (f b)) l.
Proof.
  intros Hnd Hf Hin Hone. apply elem_of_Permutation in Hin as [l' Hl].
  assert (Hn : forall b, b ∈ l' -> f b = false).
  { intros b Hb. destruct (f b) eqn:Hfb; [|done]. rewrite Hl in Hnd. apply NoDup_cons in Hnd as [Hni _].
    destruct Hni. rewrite <- (Hone b); [done|rewrite Hl; by right|done]. }
  rewrite Hl at 1. constructor.
  assert (Hp : List.filter (fun b => negb (f b)) l ≡ₚ List.filter (fun b => negb (f b)) (a :: l'))
    by (clear -Hl; induction Hl; simpl; repeat case_match; try constructor; try done; by etrans).
  rewrite Hp. simpl. rewrite Hf. simpl. clear -Hn.
  induction l' as [|b l' IH]; [done|]. simpl. rewrite Hn by left. simpl. constructor.
  apply IH. intros c Hc. apply Hn. by right.
Qed.

(** ** The theorems *)

Section Runs.
Context `{Env} `{Registry} `{Host}.

(** C5: every method of the stores of model invocations, dispatcher assignments and identity
    challenges that writes, on every branch, takes the tables by steps of the machine of model calls
    and keeps its invariant; when it fails, it leaves those tables as they were. *)
Theorem model_calls_refine (c : DispatchCall) (w w' : DispatchWorld) (r : result DispatchError unit) :
  dispatch_reachable w -> serve_dispatch c w = (r, w') ->
  dispatch_steps (core (dw_db w)) (core (dw_db w')) /\ dispatch_inv (core (dw_db w'))
  /\ forall e, r = Err e -> core (dw_db w') = core (dw_db w).
Proof.
  intros Hw%reachable_dispatch_inv Hc. pose proof (serve_refines c _ _ _ Hw Hc) as Hs.
  split_and!; [done|by eapply steps_inv|]. intros e ->. by eapply serve_rolls_back.
Qed.

(** The requests of an invocation. *)
Definition requests_of (id : Z) (d : DispatchDB) : list ProviderRequestRow :=
  List.filter (fun r => request_InvocationID r =? id) (md_requests d).

(** C6: no model call is sent twice: an invocation has at most one provider request, has one when
    its status says that the call went out and none while it is requested or claimed; behind each
    request stand an attempt of the invocation, a recorded decision that authorized it and let it
    out, a use of an assignment of its own, and a signed assertion whose challenge was issued for this
    invocation and consumed. *)
Theorem model_calls_are_sent_once (w : DispatchWorld) :
  dispatch_reachable w ->
  let d := dw_db w in
  (forall k i, md_invocations d !! k = Some i ->
     (length (requests_of k d) <= 1)%nat
     /\ (was_sent (inv_Status i) = true -> length (requests_of k d) = 1%nat)
     /\ (unsent (inv_Status i) = true -> requests_of k d = []))
  /\ forall q, q ∈ md_requests d ->
       exists a v u s ch,
         md_attempts d !! request_DispatchAttemptID q = Some a
         /\ att_invocation a = request_InvocationID q
         /\ v ∈ md_evaluations d /\ evaluation_ID v = request_EvaluationID q
         /\ eval_InvocationID (evaluation_Value v) = request_InvocationID q
         /\ eval_AuthorizationEffect (evaluation_Value v) = AuthorizationAllow
         /\ eval_EgressEffect (evaluation_Value v) = EffectAllow
         /\ u ∈ md_uses d /\ use_key u = request_key q
         /\ s ∈ md_assertions d /\ assertion_ID s = request_IdentityAssertionID q
         /\ assertion_DispatchAttemptID s = request_DispatchAttemptID q
         /\ md_challenges d !! assertion_ChallengeID s = Some ch
         /\ scope_InvocationID (chal_Scope ch) = request_InvocationID q
         /\ is_some (chal_ConsumedAt ch) = true.
Proof.
  intros Hw%reachable_dispatch_inv d. pose proof (di_sent _ Hw) as Hsent. split.
  - intros k i Hk.
    assert (Hone : (length (requests_of k d) <= 1)%nat).
    { pose proof (si_once _ _ Hsent) as Hnd. simpl in Hnd. unfold requests_of, d.
      by apply one_by_key. }
    split; [done|]. split.
    + intros Hs. pose proof (si_sent _ _ Hsent k i Hk Hs) as (q & Hq & Hin)%list_elem_of_fmap.
      assert (Hq' : q ∈ requests_of k d).
      { apply list_elem_of_In, filter_In. split; [by apply list_elem_of_In|]. by apply Z.eqb_eq. }
      destruct (requests_of k d) as [|x [|]]; [by apply not_elem_of_nil in Hq'|done|simpl in Hone; lia].
    + intros Hs. destruct (requests_of k d) as [|q l] eqn:Hq; [done|].
      assert (Hin : q ∈ requests_of k d) by (rewrite Hq; left).
      apply list_elem_of_In, filter_In in Hin as [Hin%list_elem_of_In Hid%Z.eqb_eq].
      by destruct (si_unsent _ _ Hsent k i q Hk Hs Hin).
  - intros q Hq. destruct (di_backed _ Hw q Hq) as ((a & Ha & Hof) & (v & Hv & Hvid & Hv1 & Hv2 & Hv3)
      & (s & Hs & Hsid & Hal & Hs1 & Hs2)).
    destruct (ii_proofs _ _ (di_identity _ Hw) s Hs) as (ch & Hch & [t Ht] & _ & _ & Hchi).
    assert (Hu : request_key q ∈ use_key <$> md_uses d).
    { pose proof (di_uses _ Hw) as Hkeys. simpl in Hkeys. unfold d. rewrite Hkeys.
      by apply (list_elem_of_fmap_2 request_key). }
    apply list_elem_of_fmap in Hu as (u & Hu & Hin).
    exists a, v, u, s, ch. rewrite Ht, <- Hs1. split_and!; try done; congruence.
Qed.

(** An invocation that is claimed, sent or answered has exactly one active dispatch attempt, in
    the matching state; any other invocation has none; no attempt works on an unknown invocation. *)
Lemma attempts_match_their_invocation (w : DispatchWorld) :
  dispatch_reachable w ->
  let d := dw_db w in
  (forall id i, md_invocations d !! id = Some i ->
     match running (inv_Status i) with
     | Some s => exists a, attempts_of id d ≡ₚ a :: List.filter (fun a => negb (attempt_active a))
                                                     (attempts_of id d)
                           /\ datt_Status a = s /\ md_attempts d !! datt_ID a = Some a
     | None => forall a, a ∈ attempts_of id d -> attempt_active a = false
     end)
  /\ forall k a, md_attempts d !! k = Some a -> is_Some (md_invocations d !! att_invocation a).
Proof.
  intros Hw%reachable_dispatch_inv d. pose proof (di_life _ Hw) as Hl. split.
  - intros id i Hi. destruct (running (inv_Status i)) as [s|] eqn:Hr.
    + destruct (li_live _ _ Hl id i Hi) as (k & a & Ha & Hof & Hact); [unfold live; by rewrite Hr|].
      destruct (li_att _ _ Hl _ _ Ha) as [Hid _]. exists a. split_and!.
      * apply only_active; [|done|apply attempts_of_spec; by exists k|].
        -- apply (rows_NoDup' datt_ID). intros j b Hb. by destruct (li_att _ _ Hl _ _ Hb).
        -- intros b Hb Hbact. apply attempts_of_spec in Hb as (j & Hj & Hjof).
           assert (j = k) as -> by (eapply (li_one _ _ Hl); [exact Hj|exact Ha|done|done|congruence]).
           simpl in Ha. unfold d in Hj. congruence.
      * pose proof (li_active _ _ Hl k a i Ha Hact) as Hs. rewrite Hof in Hs. apply Hs in Hi.
        congruence.
      * unfold d. by rewrite Hid.
    + intros a Ha. apply attempts_of_spec in Ha as (k & Hk & Hof).
      destruct (attempt_active a) eqn:Hact; [|done].
      pose proof (li_active _ _ Hl k a i Hk Hact) as Hs. rewrite Hof in Hs. apply Hs in Hi. congruence.
  - intros k a Ha. by destruct (li_att _ _ Hl _ _ Ha).
Qed.

(** C21: what a call asked for never changes, and once it has succeeded, failed, been cancelled or
    become ambiguous nothing of it changes, whatever calls follow; it has a result exactly when it
    succeeded, and its result stays. *)
Theorem ended_calls_are_final (w : DispatchWorld) (cs : list DispatchCall) :
  dispatch_reachable w ->
  let d := dw_db w in
  let d' := dw_db (foldl dispatch_exec w cs) in
  forall id i, md_invocations d !! id = Some i ->
    (exists i', md_invocations d' !! id = Some i' /\ inv_Columns i' = inv_Columns i)
    /\ (InvocationTerminal (inv_Status i) = true -> md_invocations d' !! id = Some i)
    /\ (is_Some (md_results d !! id) <-> inv_Status i = InvocationSucceeded)
    /\ forall r, md_results d !! id = Some r -> md_results d' !! id = Some r.
Proof.
  intros Hw%reachable_dispatch_inv d d' id i Hi. pose proof (calls_steps w cs Hw) as Hs.
  split_and!.
  - by apply (steps_columns _ _ id i Hs).
  - intros Ht. by apply (steps_ended _ _ id i Hs).
  - split.
    + intros (j & Hj & Hst)%(proj1 (di_results _ Hw id)). simpl in Hj. unfold d in Hi. congruence.
    + intros Hst. apply (di_results _ Hw id). by exists i.
  - intros r Hr. by apply (steps_result _ _ id r Hw Hs).
Qed.

(** C22: an assignment counts exactly the calls sent under it and never more than its quota; an
    active one has calls left; an attempt of a task has at most one active assignment. *)
Theorem assignments_keep_their_quota (w : DispatchWorld) :
  dispatch_reachable w ->
  let d := dw_db w in
  (forall id g, md_assignments d !! id = Some g ->
     asg_UsedInvocations g = Z.of_nat (length (uses_of id (md_uses d)))
     /\ asg_UsedInvocations g <= asg_MaxInvocations (asg_Scope g)
     /\ (asg_Status g = AssignmentActive ->
         asg_UsedInvocations g < asg_MaxInvocations (asg_Scope g)))
  /\ (forall g id', md_assignments d !! asg_ID g = Some g -> asg_Status g = AssignmentActive ->
      forall g', md_assignments d !! id' = Some g' -> asg_Status g' = AssignmentActive ->
      asg_target g' = asg_target g -> id' = asg_ID g)
  /\ (length (md_requests d) = length (md_uses d)).
Proof.
  intros Hw%reachable_dispatch_inv d. pose proof (di_quota _ Hw) as Hq. split_and!.
  - intros id g Hg. by destruct (qi_asg _ _ Hq id g Hg) as [_ ?].
  - intros g id' Hg Hact g' Hg' Hact' Ht. by eapply (qi_one _ _ Hq).
  - pose proof (di_uses _ Hw) as Hu. simpl in Hu. unfold d.
    by rewrite <- (length_fmap request_key), <- Hu, length_fmap.
Qed.

(** ** Authority *)

(** The invocation, the attempt and the token a call names, and the state it needs. *)
Definition claim_of (c : DispatchCall)
    : option (Z * Z * string * (DispatchAttempt -> bool)) :=
  let failing f needs :=
    Some (fail_InvocationID f, fail_DispatchAttemptID f, fail_ClaimToken f, needs) in
  match c with
  | CallAllow _ _ c =>
      let e := allow_Evaluation c in
      Some (eval_InvocationID e, eval_DispatchAttemptID e, allow_ClaimToken c,
            is_attempt DispatchClaimed)
  | CallDeny c =>
      let e := deny_Evaluation c in
      Some (eval_InvocationID e, eval_DispatchAttemptID e, deny_ClaimToken c,
            is_attempt DispatchClaimed)
  | CallReceived i a t _ => Some (i, a, t, is_attempt DispatchSendStarted)
  | CallReject c _ _ | CallNotSent c _ _ | CallMarkAmbiguous c _ _ =>
      failing c (is_attempt DispatchSendStarted)
  | CallComplete c _ => Some (comp_InvocationID c, comp_DispatchAttemptID c, comp_ClaimToken c,
                              is_attempt DispatchResponseReceived)
  | CallFailBeforeSend c _ => failing c (is_attempt DispatchClaimed)
  | CallFailAfterResponse c _ => failing c (is_attempt DispatchResponseReceived)
  | CallMarkCancelled c _ =>
      failing c (fun a => is_attempt DispatchSendStarted a || is_attempt DispatchResponseReceived a)
  | _ => None
  end.

Definition held (id aid : Z) (token : string) (needs : DispatchAttempt -> bool) (d : DispatchDB)
    : Prop :=
  exists a, md_attempts d !! aid = Some a /\ att_invocation a = id
    /\ att_token a = env_sha256_hex token /\ needs a = true.

(** A computation that succeeds only for the holder and undoes what it did when it fails. *)
Definition guarded {A} (h : DispatchDB -> Prop) (m : Disp A) : Prop := forall w r w',
  m w = (r, w') ->
  (forall x, r = Ok x -> h (dw_db w)) /\ (forall e, r = Err e -> dw_db w' = dw_db w).

Lemma guarded_tx {A} h (m : Disp A) :
  (forall w x w', m w = (Ok x, w') -> h (dw_db w)) -> guarded h (dp_tx m).
Proof.
  intros Hm w r w' [(x & w0 & -> & Hd & Hw)|[[e ->] Hd]]%dp_tx_run.
  - split; [|done]. intros _ _. rewrite <- Hd. by eapply Hm.
  - done.
Qed.

Lemma guarded_check {A} h b e (m : Disp A) : guarded h m -> guarded h (do! throwIf b e in m).
Proof.
  intros Hg w r w' Hm. unfold bind, throwIf in Hm. destruct b; [|by apply Hg].
  injection Hm as <- <-. done.
Qed.

Lemma guarded_lift {A B} h (x : result DispatchError B) (m : Disp A) :
  guarded h m -> guarded h (do! lift x in m).
Proof.
  intros Hg w r w' Hm. unfold bind, lift in Hm. destruct x; [by apply Hg|].
  injection Hm as <- <-. done.
Qed.

Lemma guarded_ignore {A} h (m : Disp A) : guarded h m -> guarded h (ignore m).
Proof.
  intros Hg w r w' Hm. unfold ignore, bind in Hm. destruct (m w) as [[a|e] w1] eqn:Hw;
    apply Hg in Hw as [Hok Herr]; injection Hm as <- <-; split; try done.
  - intros _ _. by eapply Hok.
  - intros _ _. by eapply Herr.
Qed.

Lemma holds_attempt {A} id aid token ok (f : DispatchAttempt -> Disp A) (w w' : DispatchWorld) x :
  (let! a := held_attempt id aid token ok in f a) w = (Ok x, w') -> held id aid token ok (dw_db w).
Proof.
  intros (a & w1 & (_ & Ha & Ht & Hi & Ho)%held_attempt_ok & _)%bind_ok. by exists a.
Qed.

Lemma holds_claim {A} e token (f : pinnedInvocationRef -> Disp A) (w w' : DispatchWorld) x :
  (let! pin := verifyClaim e token in f pin) w = (Ok x, w') ->
  held (eval_InvocationID e) (eval_DispatchAttemptID e) token (is_attempt DispatchClaimed) (dw_db w).
Proof.
  intros (pin & w1 & (r & now & _ & Hs & Hk)%verifyClaim_ok & _)%bind_ok.
  apply select_claim_ok in Hs as (_ & Ha & Hof & _).
  apply check_claim_ok in Hk as (_ & Hst & _ & Ht & _). exists (crow_Attempt r).
  by rewrite is_attempt_spec.
Qed.

#[local] Hint Unfold PersistPreSendAllowAndMarkSendStarted PersistPreSendDenyAndFail
  MarkResponseReceived RejectProviderResponse FailCommittedBeforeRequest CompleteInvocation
  FailBeforeSend FailAfterResponse MarkAmbiguous MarkCancelled : guarded.

(** C12: the calls that move a claimed invocation on - the two verdicts before it is sent and
    everything that becomes of it - succeed only with the token of an attempt of that invocation, in
    the state the call starts from; a call that fails changes no table at all. *)
Theorem only_the_holder_reports (c : DispatchCall) (id aid : Z) (token : string)
    (needs : DispatchAttempt -> bool) (w w' : DispatchWorld) (r : result DispatchError unit) :
  claim_of c = Some (id, aid, token, needs) -> serve_dispatch c w = (r, w') ->
  (forall u, r = Ok u -> exists a, md_attempts (dw_db w) !! aid = Some a /\ att_invocation a = id
     /\ att_token a = env_sha256_hex token /\ needs a = true)
  /\ (forall e, r = Err e -> dw_db w' = dw_db w).
Proof.
  intros Hc. revert w r w'. change (guarded (held id aid token needs) (serve_dispatch c)).
  destruct c; try done; injection Hc as <- <- <- <-; simpl;
    autounfold with guarded; try apply guarded_ignore;
    try first [apply guarded_check|apply guarded_lift]; apply guarded_tx;
    intros *; first [apply holds_attempt|apply holds_claim].
Qed.

(** C8: an invocation whose execution is pinned to an identity policy is claimed only with a
    signature, by a key of its principal that is in force, over the open and unexpired challenge that
    was issued for this invocation, this assignment, this key and this request; and whatever calls
    follow, no other claim is granted on that challenge. *)
Theorem claims_are_proved (a : AuthenticatedClaimCommand) (cfg : RuntimeConfig)
    (w w' : DispatchWorld) :
  dispatch_reachable w -> serve_dispatch (CallClaimAuthenticated a cfg) w = (Ok tt, w') ->
  (exists i c k now,
     md_invocations (dw_db w) !! auth_InvocationID a = Some i /\ inv_Status i = InvocationRequested
     /\ md_challenges (dw_db w) !! auth_ChallengeID a = Some c /\ challenge_open c = true
     /\ now < chal_ExpiresAt c /\ challenge_for c i a = true
     /\ md_keys (dw_db w) !! auth_IdentityKeyID a = Some k /\ key_usable k = true
     /\ key_in_force k now = true
     /\ env_sha256_hex (auth_ChallengeNonce a) = chal_NonceHash c
     /\ host_verify (key_PublicKey k)
          (BuildAssertionPayload (chal_Scope c) (chal_ID c) (auth_ChallengeNonce a)
             (chal_IssuedAt c) (chal_ExpiresAt c)) (auth_Signature a) = true)
  /\ forall cs b cfg', auth_ChallengeID b = auth_ChallengeID a ->
       exists e, fst (serve_dispatch (CallClaimAuthenticated b cfg') (foldl dispatch_exec w' cs))
                 = Err e.
Proof.
  intros Hw%reachable_dispatch_inv Hc. pose proof (serve_refines _ _ _ _ Hw Hc) as Hst.
  apply bind_ok in Hc as (r & w1 & Hc & [_ ->]%ret_ok).
  apply ClaimInvocationAuthenticated_ok in Hc as (i & c & k & p & now & ch' & s & Hp); [|done].
  pose proof (pc_checked _ _ _ _ _ _ _ _ _ _ _ _ Hp)
    as (Hc1 & Hc2 & Hc3 & Hc4 & Hc5 & Hc6 & Hc7 & Hc8)%check_assertion_ok. split.
  - exists i, c, k, now. split_and!; try done.
    + apply Hp.
    + apply (cl_requested _ _ _ _ (pc_claims _ _ _ _ _ _ _ _ _ _ _ _ Hp)).
    + apply Hp.
    + unfold challenge_open. by rewrite Hc1, Hc2.
    + pose proof (pc_key _ _ _ _ _ _ _ _ _ _ _ _ Hp) as Hk. unfold challenge_for in Hc6.
      rewrite !andb_true_iff, !Z.eqb_eq in Hc6. destruct Hc6 as [[[[_ Hkey] _] _] _]. by rewrite <- Hkey.
  - intros cs b cfg' Hb. set (w2 := foldl _ _ _).
    destruct (serve_dispatch _ w2) as [[[]|e] w3] eqn:Hs; [|by exists e]. exfalso.
    pose proof (calls_steps w1 cs (steps_inv _ _ Hw Hst)) as Hsteps.
    fold w2 in Hsteps. apply bind_ok in Hs as (r2 & w4 & Hs & _).
    apply ClaimInvocationAuthenticated_ok in Hs as (i2 & c2 & k2 & p2 & now2 & ch2 & s2 & Hp2);
      [|by eapply steps_inv; [|exact Hsteps]; eapply steps_inv].
    pose proof (pc_challenge _ _ _ _ _ _ _ _ _ _ _ _ Hp2) as Hch2.
    pose proof (pc_checked _ _ _ _ _ _ _ _ _ _ _ _ Hp2) as (Hop & _)%check_assertion_ok.
    destruct (pr_consumed _ _ _ _ _ _ (pc_proves _ _ _ _ _ _ _ _ _ _ _ _ Hp)) as [t ->].
    pose proof (pc_challenge _ _ _ _ _ _ _ _ _ _ _ _ Hp) as Hch.
    pose proof (ii_chal _ _ (di_identity _ Hw) _ _ Hch) as Hid.
    assert (Hclosed : co_chal (core (dw_db w1)) !! auth_ChallengeID a = Some (challenge_consumed t c)).
    { rewrite (pc_after _ _ _ _ _ _ _ _ _ _ _ _ Hp). simpl. rewrite Hid. apply lookup_insert_eq. }
    apply (steps_closed _ _ _ _ Hsteps) in Hclosed; [|done]. rewrite <- Hb in Hclosed.
    change (md_challenges (dw_db w2)) with (co_chal (core (dw_db w2))) in Hch2.
    rewrite Hch2 in Hclosed. injection Hclosed as ->. done.
Qed.

(** C26: after an authenticated claim that expired before the call was sent, the invocation may be
    requested again, but it is a dead end: the assertion of the claim is kept, and the unique index on
    the key, the invocation and the principal refuses every later claim with that key, whatever calls
    come between, while an unauthenticated claim refuses the pinned invocation. *)
Theorem released_claims_are_dead_ends (w : DispatchWorld) (i : Invocation) (s : AssertionRow)
    (cs : list DispatchCall) :
  dispatch_reachable w ->
  md_invocations (dw_db w) !! assertion_InvocationID s = Some i ->
  is_some (inv_ExecutionIdentityPolicyVersionID (inv_Columns i)) = true ->
  inv_ExecutionPrincipalID (inv_Columns i) = Some (assertion_ExecutionPrincipalID s) ->
  s ∈ md_assertions (dw_db w) ->
  let w' := foldl dispatch_exec w cs in
  (forall c cfg, claim_InvocationID c = inv_ID i ->
     exists e, fst (serve_dispatch (CallClaimInvocation c cfg) w') = Err e)
  /\ forall a cfg, auth_InvocationID a = inv_ID i ->
       auth_IdentityKeyID a = assertion_ExecutionIdentityKeyID s ->
       exists e, fst (serve_dispatch (CallClaimAuthenticated a cfg) w') = Err e.
Proof.
  intros Hw%reachable_dispatch_inv Hi Hpin Hpr Hs w'. pose proof (calls_steps w cs Hw) as Hst.
  fold w' in Hst. pose proof (steps_inv _ _ Hw Hst) as Hw'.
  pose proof (li_inv _ _ (di_life _ Hw) _ _ Hi) as Hid.
  destruct (steps_columns _ _ _ _ Hst Hi) as (i' & Hi' & Hcol). rewrite <- Hid in Hi'. split.
  - intros c cfg Hc. destruct (serve_dispatch _ w') as [[u|e] w2] eqn:Hserve; [|by exists e].
    exfalso. apply bind_ok in Hserve as (r & w3 & Hcl & _). unfold ClaimInvocation in Hcl.
    apply bind_ok in Hcl as ([raw th] & w4 & Ht%newClaimToken_ok & Hcl).
    apply dp_tx_ok in Hcl as (w5 & Hd & Hcl). apply bind_ok in Hcl as (j & w6 & Hj & Hcl).
    apply lockedClaimable_ok in Hj as (_ & Hj & _ & _). rewrite Hd, Ht, Hc, Hi' in Hj.
    injection Hj as <-. see Hcl Hno. rewrite Hcol, Hpin in Hno. done.
  - intros a cfg Ha Hk. destruct (serve_dispatch _ w') as [[u|e] w2] eqn:Hserve; [|by exists e].
    exfalso. apply bind_ok in Hserve as (r & w3 & Hcl & _).
    apply ClaimInvocationAuthenticated_ok in Hcl as (j & c & k & p & now & ch' & s' & Hp); [|done].
    apply (pr_key _ _ _ _ _ _ (pc_proves _ _ _ _ _ _ _ _ _ _ _ _ Hp) s).
    + by apply (steps_assertions _ _ _ Hst).
    + rewrite (pc_proof_key _ _ _ _ _ _ _ _ _ _ _ _ Hp). unfold proof_key.
      pose proof (pc_invocation _ _ _ _ _ _ _ _ _ _ _ _ Hp) as Hj. rewrite Ha in Hj.
      change (md_invocations (dw_db w')) with (co_inv (core (dw_db w'))) in Hj.
      rewrite Hi' in Hj. injection Hj as <-.
      pose proof (pc_principal _ _ _ _ _ _ _ _ _ _ _ _ Hp) as Hq. rewrite Hcol in Hq.
      rewrite <- (Hq _ Hpr), Ha, Hk, Hid. done.
Qed.

End Runs.

(** ** Witnesses *)

Lemma model_calls_refine_witness :
  dispatch_steps (core (dw_db call_claimed))
    (core (dw_db (dispatch_exec call_claimed
                    (CallAllow 10000000 10000000 (demo_allow 1 1 "i1" demo_token)))))
  /\ inv_Status <$> md_invocations (dw_db call_sent) !! 1 = Some InvocationSendStarted.
Proof.
  split; [|by vm_compute].
  exact (proj1 (model_calls_refine (CallAllow 10000000 10000000 (demo_allow 1 1 "i1" demo_token))
                  call_claimed _ _ claimed_reachable (surjective_pairing _))).
Defined.

Lemma succeeded_row : exists i,
  md_invocations (dw_db call_succeeded) !! 1 = Some i /\ inv_Status i = InvocationSucceeded.
Proof. apply row_with. by vm_compute. Qed.

Lemma model_calls_are_sent_once_witness : length (requests_of 1 (dw_db call_succeeded)) = 1%nat.
Proof.
  destruct succeeded_row as (i & Hi & Hs).
  apply (proj1 (model_calls_are_sent_once call_succeeded succeeded_reachable) 1 i Hi). rewrite Hs. reflexivity.
Defined.

Lemma sent_row : exists i,
  md_invocations (dw_db call_sent) !! 1 = Some i /\ inv_Status i = InvocationSendStarted.
Proof. apply row_with. by vm_compute. Qed.

Lemma attempts_match_their_invocation_witness :
  exists a, md_attempts (dw_db call_sent) !! datt_ID a = Some a /\ datt_Status a = DispatchSendStarted.
Proof.
  destruct sent_row as (i & Hi & Hs).
  pose proof (proj1 (attempts_match_their_invocation call_sent sent_reachable) 1 i Hi) as Ha.
  rewrite Hs in Ha. destruct Ha as (a & _ & Ht & Ha). exists a. split; assumption.
Defined.

Definition late_cancellation : DispatchCall := CallRequestCancellation 1 "eng/lead" "too late" 10.

Lemma ended_calls_are_final_witness : exists i,
  md_invocations (dw_db call_succeeded) !! 1 = Some i
  /\ md_invocations (dw_db (dispatch_exec call_succeeded late_cancellation)) !! 1 = Some i.
Proof.
  destruct succeeded_row as (i & Hi & Hs). exists i. split; [exact Hi|].
  apply (ended_calls_are_final call_succeeded [late_cancellation] succeeded_reachable 1 i Hi).
  rewrite Hs. reflexivity.
Defined.

Lemma exhausted_row : exists g,
  md_assignments (dw_db call_sent) !! 1 = Some g /\ asg_Status g = AssignmentExhausted.
Proof. apply row_with. by vm_compute. Qed.

Lemma assignments_keep_their_quota_witness : exists g,
  md_assignments (dw_db call_sent) !! 1 = Some g /\ asg_Status g = AssignmentExhausted
  /\ asg_UsedInvocations g <= asg_MaxInvocations (asg_Scope g).
Proof.
  destruct exhausted_row as (g & Hg & Hs). exists g. split_and!; [exact Hg|exact Hs|].
  apply (proj1 (assignments_keep_their_quota call_sent sent_reachable) 1 g Hg).
Defined.

(** The right token and a wrong one. *)
Lemma only_the_holder_reports_witness :
  (exists a, md_attempts (dw_db call_claimed) !! 1 = Some a /\ att_token a = demo_digest demo_token)
  /\ dw_db (dispatch_exec call_claimed
              (CallFailBeforeSend (demo_failure_of 1 1 "token-7" "boom") 10)) = dw_db call_claimed.
Proof.
  split.
  - destruct (only_the_holder_reports (CallFailBeforeSend (demo_failure_of 1 1 demo_token "boom") 10)
      1 1 demo_token _ call_claimed _ _ eq_refl (surjective_pairing _)) as [Hok _].
    destruct (Hok tt) as (a & Ha & _ & Ht & _); [vm_compute; reflexivity|]. exists a. split; assumption.
  - destruct (only_the_holder_reports (CallFailBeforeSend (demo_failure_of 1 1 "token-7" "boom") 10)
      1 1 "token-7" _ call_claimed _ _ eq_refl (surjective_pairing _)) as [_ Herr].
    apply (Herr ErrClaimTokenMismatch). vm_compute; reflexivity.
Defined.

Definition demo_claim : DispatchCall :=
  CallClaimAuthenticated (demo_claim_call 1 "i1" "nonce" 1 5000000) demo_config.

Lemma demo_claim_granted : fst (serve_dispatch demo_claim call_challenged) = Ok tt.
Proof. by vm_compute. Qed.

Lemma claims_are_proved_witness :
  (exists k now, md_keys (dw_db call_challenged) !! 4 = Some k /\ key_in_force k now = true)
  /\ exists e, fst (serve_dispatch demo_claim (dispatch_exec call_challenged demo_claim)) = Err e.
Proof.
  destruct (claims_are_proved (demo_claim_call 1 "i1" "nonce" 1 5000000) demo_config call_challenged
    (dispatch_exec call_challenged demo_claim) challenged_reachable) as [Hfacts Honce].
  - rewrite <- demo_claim_granted. apply surjective_pairing.
  - split.
    + destruct Hfacts as (i & c & k & now & _ & _ & _ & _ & _ & _ & Hk & _ & Hf & _). exists k, now. split; assumption.
    + apply (Honce [] _ demo_config). reflexivity.
Defined.

(** The claim expired and was released; its new challenge is as good as the first, and yet. *)
Definition claim_again : AuthenticatedClaimCommand := demo_claim_call 1 "i1" "nonce-2" 2 140000000.

Lemma released_row : exists i, md_invocations (dw_db call_released) !! 1 = Some i
  /\ (inv_Status i, is_some (inv_ExecutionIdentityPolicyVersionID (inv_Columns i)),
      inv_ExecutionPrincipalID (inv_Columns i), inv_ID i) = (InvocationRequested, true, Some 5, 1).
Proof. apply row_with. by vm_compute. Qed.

Lemma released_proof : exists s, head (md_assertions (dw_db call_released)) = Some s
  /\ proof_key s = (4, 1, 5).
Proof. apply row_with. by vm_compute. Qed.

Lemma released_claims_are_dead_ends_witness :
  fst (serve_dispatch (CallClaimAuthenticated claim_again demo_config) call_challenged_again)
  = Err ErrRuntimeConflict
  /\ exists e, fst (serve_dispatch (CallClaimAuthenticated claim_again demo_config)
                      call_challenged_again) = Err e.
Proof.
  split; [vm_compute; reflexivity|].
  destruct released_row as (i & Hi & [= _ Hpin Hpr Hid]).
  destruct released_proof as (s & Hs & [= Hk Hsi Hsp]).
  assert (Hin : s ∈ md_assertions (dw_db call_released)) by (apply head_Some_elem_of; exact Hs).
  rewrite <- Hsi in Hi.
  destruct (released_claims_are_dead_ends call_released i s [CallCreateChallenge released_challenge]
    released_reachable Hi Hpin) as [_ Hdead]; [rewrite Hsp; exact Hpr|exact Hin|].
  apply (Hdead claim_again demo_config); [rewrite Hid; reflexivity|rewrite Hk; reflexivity].
Defined.
