(* ===== verification/RoutingProps.v ===== *)
(** * Where a model call may go

    Theorems on the routes of internal/modelruntime/route_resolver.go, the selector
    of internal/modelrouting and the capacity of models. *)

From stdpp Require Import base tactics list gmap strings pretty sorting.
From Stdlib Require Import ZArith Lia.
From S2P Require Import Prelude GoLib TaskDomain Database StoreRead TaskValidation Scenario.
From S2P Require Import DispatchDB Egress EgressProps Routing InvocationStore Claims PreSend.
From S2P Require Import Outcomes Assignments DispatchSpec DispatchRun DispatchMachine.

Local Open Scope string_scope.
Local Open Scope Z_scope.

(** ** Selection *)

Lemma cand_before_spec (a b : Candidate) :
  cand_before a b = true <->
  let ra := classRank (cand_CapacityClass a) in
  let rb := classRank (cand_CapacityClass b) in
  ra < rb \/ ra = rb /\ (cand_Priority a < cand_Priority b
    \/ cand_Priority a = cand_Priority b /\ string_le (cand_key a) (cand_key b) = true).
Proof.
  unfold cand_before. simpl. destruct (Z.eqb_spec (classRank (cand_CapacityClass a))
    (classRank (cand_CapacityClass b))) as [->|Hr]; simpl; [|rewrite Z.ltb_lt; lia].
  destruct (Z.eqb_spec (cand_Priority a) (cand_Priority b)) as [->|Hp]; simpl.
  - split; [auto|]. intros [?|[_ [?|[_ ?]]]]; [lia..|done].
  - rewrite Z.ltb_lt. lia.
Qed.

#[export] Instance cand_before_order : RowOrder cand_before.
Proof.
  split.
  - intros x y. rewrite !cand_before_spec. simpl.
    destruct (row_total string_le (cand_key x) (cand_key y)) as [->| ->]; lia.
  - intros x y z. rewrite !cand_before_spec. simpl.
    pose proof (row_trans string_le (cand_key x) (cand_key y) (cand_key z)).
    intros [?|[? [?|[? ?]]]] [?|[? [?|[? ?]]]]; first [left; lia|right; split; [lia|]];
      first [left; lia|right; split; [lia|auto]].
Qed.

Lemma Select_ok (cs : list Candidate) st paid now c reason :
  Select cs st paid now = Ok (c, reason) ->
  c ∈ cs /\ eligible st paid now c = true
  /\ forall c', c' ∈ cs -> eligible st paid now c' = true -> cand_before c c' = true.
Proof.
  unfold Select. set (l := filter _ cs). intros Hs.
  assert (Hin : forall x, x ∈ order_by cand_before l <-> x ∈ cs /\ eligible st paid now x = true).
  { intros x. rewrite elem_of_order_by. unfold l. rewrite list_elem_of_filter. tauto. }
  pose proof (order_by_sorted cand_before l) as Hsort.
  destruct (order_by cand_before l) as [|x l'] eqn:Ho; [done|]. injection Hs as -> _.
  destruct (proj1 (Hin c)) as [? ?]; [left|]. split_and!; [done..|]. intros c' Hc' He.
  pose proof (proj2 (Hin c') (conj Hc' He)) as [Hx|Hx]%elem_of_cons.
  - subst. destruct (row_total cand_before c c); done.
  - apply StronglySorted_inv in Hsort as [_ Hall]. rewrite Forall_forall in Hall. by apply Hall.
Qed.

Lemma Select_err (cs : list Candidate) st paid now e :
  Select cs st paid now = Err e ->
  e = ErrNoCapacity /\ forall c, c ∈ cs -> eligible st paid now c = false.
Proof.
  unfold Select. set (l := filter _ cs). intros Hs.
  destruct (order_by cand_before l) as [|x l'] eqn:Ho; [|done]. injection Hs as <-. split; [done|].
  intros c Hc. destruct (eligible st paid now c) eqn:He; [|done]. exfalso.
  assert (Hin : c ∈ order_by cand_before l).
  { rewrite elem_of_order_by. unfold l. by rewrite list_elem_of_filter. }
  rewrite Ho in Hin. by apply not_elem_of_nil in Hin.
Qed.

(** ** Routes *)

(** What the registry store promises: the candidates of a policy name different models, and a
    candidate's route is the profile and the version it was asked for. *)
Class RegistryLaws `{RoutingRegistry} : Prop := {
  law_distinct : forall org rev pol l, ListRoutingCandidates org rev pol = Ok l ->
    NoDup ((fun c => cand_key (rcand_Candidate c)) <$> l);
  law_profile : forall org rev p b, GetCandidateRoute org rev p = Ok b -> bind_ProfileID b = p;
  law_version : forall org rev pol l c b, ListRoutingCandidates org rev pol = Ok l -> c ∈ l ->
    GetCandidateRoute org rev (cand_ProfileID (rcand_Candidate c)) = Ok b ->
    bind_VersionID b = cand_ModelProfileVersionID (rcand_Candidate c) }.

Lemma approved_in (l : list RoutingCandidate) (m : gmap string RoutingCandidate) k c :
  foldl (fun m c => <[cand_key (rcand_Candidate c) := c]> m) m l !! k = Some c ->
  m !! k = Some c \/ c ∈ l /\ cand_key (rcand_Candidate c) = k.
Proof.
  revert m. induction l as [|x l IH]; intros m; simpl; [by left|].
  intros [Hm|[Hin Hk]]%IH.
  - destruct (decide (cand_key (rcand_Candidate x) = k)) as [Hk|Hk].
    + rewrite Hk, lookup_insert_eq in Hm. injection Hm as ->. right. split; [left|done].
    + rewrite lookup_insert_ne in Hm by done. by left.
  - right. split; [by right|done].
Qed.

Lemma approve_ok (l : list RoutingCandidate) answer c :
  approve (approved_candidates l) answer = Ok c ->
  c ∈ l /\ cand_key (rcand_Candidate c) = cand_key answer.
Proof.
  unfold approve, approved_candidates. destruct (_ !! cand_key answer) as [x|] eqn:Hl; [|done].
  case_match; [|done]. intros [= ->]. apply approved_in in Hl as [Hl|Hl]; [|done].
  by rewrite lookup_empty in Hl.
Qed.

Section Routes.
Context `{RoutingRegistry}.

Lemma resolve_pool_ok capacity lookup now req policy route :
  resolve_pool capacity lookup now req policy = Ok route ->
  exists selector stored state decision c,
    rpol_RoutingMode policy = RoutingModePool
    /\ lookup (rpol_SelectorID policy) = Some selector
    /\ ListRoutingCandidates (rreq_OrganizationID req) (rreq_OrganizationRevisionID req)
         (rreq_PolicyID req) = Ok stored
    /\ stored <> []
    /\ read_capacity capacity (rreq_OrganizationID req) ∅ stored = Ok state
    /\ selector (rcand_Candidate <$> stored) state (rpol_AllowPaid policy) now = Ok decision
    /\ c ∈ stored /\ cand_key (rcand_Candidate c) = cand_key (fst decision)
    /\ GetCandidateRoute (rreq_OrganizationID req) (rreq_OrganizationRevisionID req)
         (cand_ProfileID (rcand_Candidate c)) = Ok (route_Binding route)
    /\ bind_ProviderID (route_Binding route) = cand_ProviderID (rcand_Candidate c)
    /\ bind_ProviderModelID (route_Binding route) = cand_ProviderModelID (rcand_Candidate c)
    /\ route_PolicyID route = rreq_PolicyID req /\ route_RoutingMode route = RoutingModePool.
Proof.
  unfold resolve_pool. rewrite check_ok_bind, rejectIf_ok, negb_false_iff, bool_decide_eq_true.
  intros [Hmode Hr]. destruct (lookup (rpol_SelectorID policy)) as [selector|] eqn:Hsel; [|done].
  apply rbind_ok in Hr as (stored & Hst & Hr). apply check_ok_bind in Hr as [Hne Hr].
  rewrite rejectIf_ok, bool_decide_eq_false in Hne.
  apply rbind_ok in Hr as (state & Hcap & Hr). apply rbind_ok in Hr as (decision & Hdec & Hr).
  apply rbind_ok in Hr as (c & [Hc Hkey]%approve_ok & Hr).
  apply rbind_ok in Hr as (b & Hb & Hr). apply check_ok_bind in Hr as [Hag Hr].
  rewrite rejectIf_ok, orb_false_iff, !negb_false_iff, !bool_decide_eq_true in Hag.
  injection Hr as <-. exists selector, stored, state, decision, c. naive_solver.
Qed.

Lemma drop_repeats_in (l : list (string * string)) x : x ∈ drop_repeats l <-> x ∈ l.
Proof.
  induction l as [|a [|b l] IH]; [done|done|].
  change (drop_repeats (a :: b :: l)) with
    (if bool_decide (a = b) then drop_repeats (b :: l) else a :: drop_repeats (b :: l)).
  rewrite (elem_of_cons (b :: l)), <- IH. case_bool_decide as Hab.
  - subst. rewrite IH. set_solver.
  - apply elem_of_cons.
Qed.

(** C23: whatever selector answers and whatever the capacity of the models, a route that is resolved
    passes the independent check against the registry and is one of the routes the policy could
    possibly take: nothing but a materialized candidate of the pool, or the static binding of the
    role, is ever dispatched to. *)
Theorem routes_are_canonical `{!RegistryLaws}
    (capacity : string -> string -> string -> result DispatchError CandidateState)
    (lookup : string -> option Selector) (now : Instant) (req : RouteResolutionRequest)
    (route : ResolvedRoute) :
  Resolve capacity lookup now req = Ok route ->
  ValidateResolvedRouteAgainstCanonical req route = Ok tt
  /\ route_PolicyID route = rreq_PolicyID req
  /\ exists routes, PossibleRoutes req = Ok routes
       /\ (bind_ProviderID (route_Binding route), bind_ProviderModelID (route_Binding route)) ∈ routes.
Proof.
  unfold Resolve, ValidateResolvedRouteAgainstCanonical, PossibleRoutes.
  intros (policy & Hpol & Hr)%rbind_ok. rewrite Hpol. simpl. destruct policy as [policy|].
  - apply resolve_pool_ok in Hr as (sel & l & st & dec & c & Hmode & _ & Hl & Hne & _ & _ & Hc & _ & Hb
      & Hp1 & Hp2 & Hp & Hm).
    rewrite Hl, Hmode, Hm. simpl. split_and!; [|done|].
    + apply rejectIf_ok, negb_false_iff, existsb_exists. exists c. split; [by apply list_elem_of_In|].
      unfold candidate_is. rewrite <- Hp1, <- Hp2, (law_profile _ _ _ _ Hb),
        (law_version _ _ _ _ _ _ Hl Hc Hb), Z.eqb_refl. by rewrite !bool_decide_true.
    + rewrite bool_decide_false by done. simpl. eexists. split; [done|].
      rewrite drop_repeats_in, elem_of_order_by, Hp1, Hp2. apply list_elem_of_fmap. by exists c.
  - apply rbind_ok in Hr as (b & Hb & Hr). injection Hr as <-. rewrite Hb. simpl. split_and!; [|done|].
    + apply rejectIf_ok, negb_false_iff. unfold same_binding. rewrite Z.eqb_refl.
      by rewrite !bool_decide_true.
    + eexists. split; [done|]. left.
Qed.

(** ** Capacity *)

Lemma read_capacity_ok capacity org (l : list RoutingCandidate) st0 st c :
  read_capacity capacity org st0 l = Ok st ->
  NoDup ((fun c => cand_key (rcand_Candidate c)) <$> l) -> c ∈ l ->
  exists cs, capacity org (cand_ProviderID (rcand_Candidate c)) (cand_ProviderModelID (rcand_Candidate c))
             = Ok cs /\ st !! cand_key (rcand_Candidate c) = Some cs.
Proof.
  assert (Hkeep : forall l st0 st k, read_capacity capacity org st0 l = Ok st ->
    k ∉ (fun c => cand_key (rcand_Candidate c)) <$> l -> st !! k = st0 !! k).
  { clear. induction l as [|x l IH]; intros st0 st k; simpl.
    - by intros [= ->].
    - intros (cs & _ & Hr)%rbind_ok [Hne Hk]%not_elem_of_cons. rewrite (IH _ _ _ Hr Hk).
      by rewrite lookup_insert_ne. }
  revert st0. induction l as [|x l IH]; intros st0; [by intros _ _ ?%not_elem_of_nil|]. simpl.
  intros (cs & Hcs & Hr)%rbind_ok [Hni Hnd]%NoDup_cons [->|Hin]%elem_of_cons; [|by eapply IH].
  exists cs. split; [done|]. rewrite (Hkeep _ _ _ _ Hr Hni). by rewrite lookup_insert_eq.
Qed.

End Routes.

Section Capacity.
Context `{Env} `{RoutingRegistry}.

(** The store's [CapacityState], read in the world [w]. *)
Definition capacity_of (w : DispatchWorld) (organization provider model : string)
    : result DispatchError CandidateState :=
  fst (CapacityStateOf (organization, provider, model) w).

Lemma insertProviderOutcome_ok id aid o phase (u : unit) (w w' : DispatchWorld) (i : Invocation) :
  insertProviderOutcome id aid o phase w = (Ok u, w') ->
  md_invocations (dw_db w) !! id = Some i ->
  let key := (inv_OrganizationID (inv_Columns i), inv_ProviderID (inv_Columns i),
              inv_ProviderModelID (inv_Columns i)) in
  (forall s, md_capacity (dw_db w) !! key = Some s ->
     null_or (fun last => last <? dw_seq w TOutcomes) (cap_LastOutcomeID s) = true) ->
  let f := ClassifyCapacityFeedback o phase in
  let now := env_clock (dw_tick w) in
  md_capacity (dw_db w')
  = <[key := match md_capacity (dw_db w) !! key with
             | None => capacity_first f (dw_seq w TOutcomes) id aid o now
             | Some s => capacity_next f (dw_seq w TOutcomes) id aid o now s
             end]> (md_capacity (dw_db w)).
Proof.
  intros Hm Hi key Hlast f now. unfold insertProviderOutcome in Hm. see Hm Hv. see Hm Hg.
  destruct (List.filter _ (md_requests (dw_db w))) as [|q l]; [by apply throw_ok in Hm|].
  rewrite Hi in Hm. apply bind_ok in Hm as (oid & w1 & H1 & Hm). injection H1 as <- <-.
  see Hm Hc. see Hm Hu. next Hm w2 H2. apply dp_modify_ok in H2 as ->. fold key in Hm.
  unfold applyCapacityFeedback in Hm. apply bind_ok in Hm as (t & w3 & H3 & Hm).
  injection H3 as <- <-. see Hm Hk. see Hm Hg2. cbn in Hm. fold key in Hm.
  destruct (md_capacity (dw_db w) !! key) as [s|] eqn:Hs.
  - rewrite (Hlast s eq_refl) in Hm. see Hm Hmax. apply dp_modify_ok in Hm as ->. done.
  - apply dp_modify_ok in Hm as ->. done.
Qed.

End Capacity.

(** *** Later calls

    A call changes what is known of a model only by recording an outcome of a call to it. *)

(** Organization, provider and model of an invocation. *)
Definition model_key (d : DispatchDB) (id : Z) : option (string * string * string) :=
  (fun i => (inv_OrganizationID (inv_Columns i), inv_ProviderID (inv_Columns i),
             inv_ProviderModelID (inv_Columns i))) <$> md_invocations d !! id.

(** How many outcomes of calls to a model are recorded. *)
Definition outcomes_of (key : string * string * string) (d : DispatchDB) : nat :=
  length (filter (fun id => model_key d id = Some key) (outcome_InvocationID <$> md_outcomes d)).

Definition keeps_models (d d' : DispatchDB) : Prop :=
  forall id key, model_key d id = Some key -> model_key d' id = Some key.

(** Nothing is recorded. *)
Definition unobserved (d d' : DispatchDB) : Prop :=
  keeps_models d d' /\ md_capacity d' = md_capacity d
  /\ outcome_InvocationID <$> md_outcomes d' = outcome_InvocationID <$> md_outcomes d.

(** The state of a model changes with its outcomes only. *)
Definition observed (d d' : DispatchDB) : Prop :=
  keeps_models d d' /\ forall key, (outcomes_of key d <= outcomes_of key d')%nat
    /\ (md_capacity d' !! key = md_capacity d !! key \/ (outcomes_of key d < outcomes_of key d')%nat).

#[local] Instance unobserved_preorder : PreOrder unobserved.
Proof.
  split; [intros d; unfold unobserved; split_and!; [by intros ?|done|done]|]. intros d1 d2 d3 (H1 & H2 & H3) (H4 & H5 & H6).
  split_and!; [intros id key Hk; by apply H4, H1|congruence|congruence].
Qed.

#[local] Instance observed_preorder : PreOrder observed.
Proof.
  split; [intros d; split; [by intros ?|auto]|].
  intros d1 d2 d3 (H1 & H2) (H3 & H4). split; [intros id key Hk; by apply H3, H1|].
  intros key. destruct (H2 key) as [? [E|?]], (H4 key) as [? [E'|?]]; (split; [lia|]); try (right; lia).
  left. congruence.
Qed.

Lemma filter_weaken {A} (P Q : A -> Prop) `{!forall x, Decision (P x), !forall x, Decision (Q x)} (l : list A) :
  (forall x, P x -> Q x) -> (length (filter P l) <= length (filter Q l))%nat.
Proof.
  intros Hpq. induction l as [|x l IH]; [done|]. rewrite !filter_cons.
  destruct (decide (P x)), (decide (Q x)); simpl; try lia. naive_solver.
Qed.

Lemma unobserved_observed (d d' : DispatchDB) : unobserved d d' -> observed d d'.
Proof.
  intros (Hk & Hc & Ho). split; [done|]. intros key. rewrite Hc. split; [|by left].
  unfold outcomes_of. rewrite Ho. apply filter_weaken. intros x. apply Hk.
Qed.

Definition within (R : relation DispatchDB) {A} (m : Disp A) : Prop :=
  forall w r w', m w = (r, w') -> R (dw_db w) (dw_db w').

Section Within.
Context `{Env} (R : relation DispatchDB) `{!PreOrder R}.

Lemma within_same {A} (m : Disp A) : (forall w r w', m w = (r, w') -> dw_db w' = dw_db w) -> within R m.
Proof. intros Hm w r w' ->%Hm. done. Qed.

Lemma within_bind {A B} (m : Disp A) (f : A -> Disp B) :
  within R m -> (forall a, within R (f a)) -> within R (bind m f).
Proof.
  intros Hm Hf w r w' H1. unfold bind in H1. destruct (m w) as [[a|e] w1] eqn:Hw.
  - etrans; [by eapply Hm|by eapply Hf].
  - injection H1 as _ <-. by eapply Hm.
Qed.

Lemma within_tx {A} (m : Disp A) : within R m -> within R (dp_tx m).
Proof.
  intros Hm w r w' H1. unfold dp_tx in H1. destruct (m _) as [[a|e] w1] eqn:Hw; injection H1 as <- <-;
    [|done]. apply Hm in Hw. exact Hw.
Qed.

Lemma within_foldM {A B} (f : B -> A -> Disp B) (l : list A) (b : B) :
  (forall b a, within R (f b a)) -> within R (foldM f b l).
Proof.
  intros Hf. revert b. induction l as [|a l IH]; intros b; simpl; [by apply within_same; intros ? ? ? [= _ <-]|].
  apply within_bind; [apply Hf|intros; apply IH].
Qed.

Lemma within_modify (f : DispatchDB -> DispatchDB) : (forall d, R d (f d)) -> within R (dp_modify f).
Proof. intros Hf w r w' [= _ <-]. apply Hf. Qed.

Lemma within_denial a {A} (m : Disp A) :
  within R m -> (forall row, within R (insert_audit_row row)) -> within R (audit_denial a m).
Proof.
  intros Hm Hi w r w' H1. unfold audit_denial in H1. destruct (m w) as [[x|e] w1] eqn:Hw.
  - injection H1 as <- <-. by eapply Hm.
  - apply Hm in Hw. destruct (isIdentityClaimDenial e); injection H1 as <- <-; [|done].
    etrans; [exact Hw|]. by eapply (Hi _ w1).
Qed.

End Within.

Lemma within_weaken {A} (m : Disp A) : within unobserved m -> within observed m.
Proof. intros Hm w r w' H1. by eapply unobserved_observed, Hm. Qed.

Create HintDb within discriminated.
#[local] Hint Constants Opaque : within.

(** Statements that leave the tables alone. *)
Lemma within_throwIf (b : bool) (e : DispatchError) : within unobserved (throwIf b e).
Proof. apply within_same; [apply _|]. destruct b; by intros ? ? ? [= _ <-]. Qed.
#[local] Hint Resolve within_throwIf : within.

Ltac within_leaf := apply within_same; [apply _|by intros ? ? ? [= _ <-]].

Ltac within_step :=
  match goal with
  | |- within _ (bind _ _) => apply within_bind; [apply _| |intros ?]
  | |- within _ (dp_tx _) => apply within_tx; [apply _|]
  | |- within _ (foldM _ _ _) => apply within_foldM; [apply _|intros ? ?]
  | |- within _ (audit_denial _ _) => apply within_denial; [apply _| |intros ?]
  | |- within _ (dp_modify _) =>
      apply within_modify; intros ?; solve [split; [by intros ? ? ?|by split]]
  | |- within _ (match ?x with _ => _ end) => destruct x
  | |- within _ (dp_row ?x) => unfold dp_row
  | |- within _ (dispatch_row ?x) => unfold dispatch_row
  | |- within _ (lift ?x) => unfold lift; destruct x
  | |- _ => progress cbv zeta
  | |- _ => solve [auto with within nocore]
  | |- _ => within_leaf
  end.
Ltac within_steps := unfold dp_check, dp_unique, dp_foreign_key, dispatch_check; repeat within_step.

Section Observed.
Context `{Env} `{Registry} `{Host}.

Lemma within_audit_row row : within unobserved (insert_audit_row row).
Proof. unfold insert_audit_row. within_steps. Qed.
Lemma within_outbox_message row : within unobserved (insert_outbox_message row).
Proof. unfold insert_outbox_message. within_steps. Qed.
#[local] Hint Resolve within_audit_row within_outbox_message within_weaken : within.

Lemma within_event i t ty actor ob max x : within unobserved (appendInvocationEvent i t ty actor ob max x).
Proof. unfold appendInvocationEvent. within_steps. Qed.

Lemma within_update_invocation id cond f : (forall i, inv_Columns (f i) = inv_Columns i) ->
  within unobserved (update_invocation id cond f).
Proof.
  intros Hf w r w' Hr. unfold update_invocation, bind at 1, dp_get in Hr.
  destruct (md_invocations (dw_db w) !! id) as [i|] eqn:Hi; [|by injection Hr as _ <-].
  destruct (cond i); [|by injection Hr as _ <-]. unfold dp_check, throwIf in Hr.
  destruct (invocation_check (f i)); simpl in Hr; [|by injection Hr as _ <-].
  injection Hr as _ <-. split; [|done].
  intros k key. unfold model_key. simpl. destruct (decide (k = id)) as [->|Hne];
    [rewrite lookup_insert_eq, Hi; simpl; by rewrite Hf|by rewrite lookup_insert_ne].
Qed.

Lemma within_insert_invocation c : within unobserved (insert_invocation c).
Proof.
  unfold insert_invocation. within_step; [within_leaf|]. within_step; [within_leaf|].
  cbv zeta. within_step; [within_steps|]. intros w r w' Hr. unfold bind at 1, dp_get in Hr.
  destruct (bool_decide _); [by injection Hr as _ <-|].
  unfold bind at 1, dp_unique, throwIf at 1 in Hr. destruct (taken _ _) eqn:Ht; simpl in Hr;
    [by injection Hr as _ <-|]. unfold bind at 1, dp_foreign_key, throwIf at 1 in Hr.
  destruct (pins_exist _ _); simpl in Hr; injection Hr as _ <-; [|done]. split; [|done].
  intros k key. unfold model_key. simpl. apply taken_false in Ht.
  destruct (decide (k = a0)) as [->|Hne]; [by rewrite Ht|by rewrite lookup_insert_ne].
Qed.

Lemma within_raw a x : within unobserved (attach_raw_content a x).
Proof.
  unfold attach_raw_content. destruct x as [raw|]; [|within_steps]. intros w r w' Hr.
  unfold bind at 1, dp_get in Hr. unfold bind at 1, throwIf in Hr.
  destruct (existsb _ _); [by injection Hr as _ <-|]. injection Hr as _ <-. split; [by intros ? ?|split; [done|]].
  simpl. rewrite <- list_fmap_compose. apply list_fmap_ext. intros _ o _. simpl. by case_match.
Qed.

Lemma within_update_dispatch id cond f : within unobserved (update_dispatch id cond f).
Proof. unfold update_dispatch. within_steps. Qed.
#[local] Hint Resolve within_update_dispatch within_raw within_insert_invocation within_event : within.
#[local] Hint Extern 1 (within _ (update_invocation _ _ _)) =>
  apply within_update_invocation; intros; reflexivity : within.

Lemma within_finish id s rs c e : within unobserved (finish_dispatch id s rs c e).
Proof. unfold finish_dispatch. within_steps. Qed.
Lemma within_end id cond s e : within unobserved (end_invocation id cond s e).
Proof. unfold end_invocation. within_steps. Qed.
Lemma within_select id : within unobserved (select_invocation id).
Proof. unfold select_invocation. within_steps. Qed.
Lemma within_held i a t ok : within unobserved (held_attempt i a t ok).
Proof. unfold held_attempt, verifyToken. within_steps. Qed.
Lemma within_recovered u : within unobserved (insertRecoveredUsage u).
Proof. unfold insertRecoveredUsage. within_steps. Qed.
#[local] Hint Resolve within_finish within_end within_select within_held within_recovered : within.

Lemma within_release i a max : within unobserved (release_claim i a max).
Proof. unfold release_claim, system_event. within_steps. Qed.
Lemma within_lost i a max : within unobserved (mark_lost i a max).
Proof. unfold mark_lost, system_event. within_steps. Qed.
Lemma within_fail_lost i a max : within unobserved (fail_lost i a max).
Proof. unfold fail_lost, system_event. within_steps. Qed.
Lemma within_claimable id p cfg : within unobserved (lockedClaimableInvocation id p cfg).
Proof. unfold lockedClaimableInvocation. within_steps. Qed.
Lemma within_attempt i by_ p h t cfg : within unobserved (createClaimAttempt host_build_sha i by_ p h t cfg).
Proof. unfold createClaimAttempt, Claims.insert_attempt. within_steps. Qed.
#[local] Hint Resolve within_release within_lost within_fail_lost within_claimable within_attempt : within.

(** An outcome changes what is known of the model of its call, and of no other. *)
Lemma capacity_written key oid id aid o f w r w' :
  applyCapacityFeedback key oid id aid o f w = (r, w') ->
  dw_db w' = dw_db w
  \/ exists s, dw_db w' = put_capacity (<[key := s]> (md_capacity (dw_db w))) (dw_db w).
Proof.
  intros Hr. unfold applyCapacityFeedback, bind at 1, dp_clock in Hr.
  unfold bind at 1, dp_check, throwIf at 1 in Hr.
  destruct (negb (capacity_key_check key)); [left; by injection Hr as _ <-|].
  unfold ret at 1, bind at 1, dp_get in Hr. simpl in Hr.
  destruct (md_capacity (dw_db w) !! key) as [s|].
  - destruct (null_or _ _); [|left; by injection Hr as _ <-]. unfold bind at 1, throwIf in Hr.
    destruct (_ <? _); [left; by injection Hr as _ <-|]. injection Hr as _ <-. right. by eexists.
  - injection Hr as _ <-. right. by eexists.
Qed.

Lemma outcome_recorded (d : DispatchDB) (row : OutcomeRow) key :
  outcomes_of key (put_outcomes (md_outcomes d ++ [row]) d)
  = (outcomes_of key d + if decide (model_key d (outcome_InvocationID row) = Some key) then 1 else 0)%nat.
Proof.
  unfold outcomes_of. simpl. rewrite fmap_app, filter_app, length_app. f_equal.
  simpl. rewrite filter_cons. unfold model_key at 1. simpl. unfold model_key.
  by destruct (decide _); rewrite filter_nil.
Qed.

Lemma within_outcome id aid o phase : within observed (insertProviderOutcome id aid o phase).
Proof.
  intros w r w' Hr. unfold insertProviderOutcome in Hr. unfold bind at 1, lift in Hr.
  destruct (OutcomeValidate o); [|injection Hr as _ <-; reflexivity]. unfold bind at 1, dp_get in Hr.
  destruct (List.filter _ _) as [|q l]; [injection Hr as _ <-; reflexivity|].
  destruct (md_invocations (dw_db w) !! id) as [i|] eqn:Hi; [|injection Hr as _ <-; reflexivity].
  unfold bind at 1, dp_nextval in Hr. unfold bind at 1, dp_check, throwIf in Hr.
  destruct (negb (outcome_check _)); [injection Hr as _ <-; reflexivity|].
  unfold ret at 1, bind at 1, dp_unique, throwIf in Hr. destruct (negb (forallb _ _));
    [injection Hr as _ <-; reflexivity|]. unfold ret at 1, bind at 1, dp_modify in Hr. simpl in Hr.
  apply capacity_written in Hr. cbn [dw_db dw_set] in Hr.
  match type of Hr with context [put_outcomes (_ ++ [?x]) _] => set (row := x) in Hr end.
  set (d1 := put_outcomes _ _) in Hr.
  assert (Hd1 : observed (dw_db w) d1).
  { split; [by intros ?|]. intros key. unfold d1. rewrite outcome_recorded. split; [lia|by left]. }
  destruct Hr as [->|[s ->]]; [done|]. split; [exact (proj1 Hd1)|]. intros key.
  change (outcomes_of key (put_capacity _ d1)) with (outcomes_of key d1). unfold d1. rewrite outcome_recorded.
  split; [lia|]. simpl. unfold model_key. rewrite Hi. simpl.
  destruct (decide _) as [_|Hne]; [right; lia|]. left. apply lookup_insert_ne. congruence.
Qed.
#[local] Hint Resolve within_outcome : within.

Lemma within_input i m : within unobserved (insertModelInput i m).
Proof. unfold insertModelInput. within_steps. Qed.
Lemma within_stored_input decode id : within unobserved (getModelInput decode id).
Proof. unfold getModelInput. within_steps. Qed.
Lemma within_cancel_now id code : within unobserved (cancel_now id code).
Proof. unfold cancel_now. within_steps. Qed.
Lemma within_flag id : within unobserved (flag_cancellation id).
Proof. unfold flag_cancellation. within_steps. Qed.
Lemma within_token : within unobserved newClaimToken.
Proof. unfold newClaimToken. within_steps. Qed.
Lemma within_consume id : within unobserved (consume_challenge id).
Proof. unfold consume_challenge. within_steps. Qed.
Lemma within_assertion row : within unobserved (insert_assertion row).
Proof. unfold insert_assertion. within_steps. Qed.
Lemma within_challenge id : within unobserved (select_challenge id).
Proof. unfold select_challenge. within_steps. Qed.
Lemma within_invalidate id : within unobserved (invalidate_challenges id).
Proof. unfold invalidate_challenges. within_steps. Qed.
Lemma within_update_assignment id cond f : within unobserved (update_assignment id cond f).
Proof. unfold update_assignment. within_steps. Qed.
#[local] Hint Resolve within_input within_stored_input within_cancel_now within_flag within_token
  within_consume within_assertion within_challenge within_invalidate within_update_assignment : within.

Lemma within_record i c a now h t cfg : within unobserved (record_assertion host_build_sha i c a now h t cfg).
Proof. unfold record_assertion. within_steps. Qed.
Lemma within_verify_claim e t : within unobserved (verifyClaim e t).
Proof. unfold verifyClaim. within_steps. Qed.
Lemma within_evaluation e : within unobserved (insertEvaluation e).
Proof. unfold insertEvaluation. within_steps. Qed.
Lemma within_request c e u a : within unobserved (insertProviderRequest c e u a).
Proof. unfold insertProviderRequest. within_steps. Qed.
Lemma within_use a pin e t : within unobserved (insert_use a pin e t).
Proof. unfold insert_use. within_steps. Qed.
Lemma within_consume_assignment a pin e : within unobserved (consume_assignment a pin e).
Proof. unfold consume_assignment, requireOneRow, insertAssignmentConsumedAudit. within_steps. Qed.
Lemma within_lock_assignment o id : within unobserved (lockAssignmentForConsume o id).
Proof. unfold lockAssignmentForConsume. within_steps. Qed.
Lemma within_sent c : within unobserved (mark_sent c).
Proof. unfold mark_sent, requireOneRow. within_steps. Qed.
Lemma within_deny_audits e : within unobserved (deny_audits e).
Proof. unfold deny_audits, insertAudit. within_steps. Qed.
Lemma within_result i a r : within unobserved (insert_result host_valid_json i a r).
Proof. unfold insert_result. within_steps. Qed.
Lemma within_reasoning i a c : within unobserved (insert_reasoning i a c).
Proof. unfold insert_reasoning. within_steps. Qed.
Lemma within_usage i a u : within unobserved (insert_usage i a u).
Proof. unfold insert_usage. within_steps. Qed.
Lemma within_insert_assignment p : within unobserved (insert_assignment p).
Proof. unfold insert_assignment. within_steps. Qed.
#[local] Hint Resolve within_record within_verify_claim within_evaluation within_request within_use
  within_consume_assignment within_lock_assignment within_sent within_deny_audits within_result
  within_reasoning within_usage within_insert_assignment : within.

(** The methods, with those that report an outcome last. *)
Definition reports (c : DispatchCall) : bool :=
  match c with
  | CallReceived _ _ _ _ | CallReject _ _ _ | CallNotSent _ _ _ | CallMarkAmbiguous _ _ _
  | CallMarkCancelled _ _ => true
  | _ => false
  end.

Lemma serve_unobserved (c : DispatchCall) :
  reports c = false -> within unobserved (serve_dispatch c).
Proof.
  intros Hc. destruct c; try discriminate Hc; simpl; unfold ignore; within_steps.
  all: unfold CreateInvocation, RequestCancellation, CreateChallenge, ClaimInvocation,
    ClaimInvocationAuthenticated, PersistPreSendAllowAndMarkSendStarted, PersistPreSendDenyAndFail,
    CompleteInvocation, FailBeforeSend, FailAfterResponse, ReconcileInvocations,
    InvocationStore.reconcile_candidate, CreateAssignment, RevokeAssignment, ExpireAssignments,
    insertAudit, insertAssignmentAudit, requireOneRow, holder_event; within_steps.
Qed.

Lemma serve_observed (c : DispatchCall) : within observed (serve_dispatch c).
Proof.
  destruct (reports c) eqn:Hc; [|by apply within_weaken, serve_unobserved].
  destruct c; try discriminate Hc; simpl; unfold ignore, MarkResponseReceived, RejectProviderResponse,
    FailCommittedBeforeRequest, MarkAmbiguous, MarkCancelled, holder_event; within_steps.
Qed.

Context `{RoutingRegistry}.

(** The outcome a call reports, with the invocation and the attempt it is of. *)
Definition reported (c : DispatchCall) : option (Z * Z * ProviderOutcome * AdapterFailurePhase) :=
  match c with
  | CallReceived i a _ o => Some (i, a, o, AdapterFailureResponseReceived)
  | CallReject c o _ =>
      Some (fail_InvocationID c, fail_DispatchAttemptID c, o, AdapterFailureResponseReceived)
  | CallNotSent c o _ =>
      Some (fail_InvocationID c, fail_DispatchAttemptID c, o, AdapterFailureBeforeRequest)
  | CallMarkAmbiguous c _ _ =>
      (fun o => (fail_InvocationID c, fail_DispatchAttemptID c, o, AdapterFailureAmbiguous))
      <$> fail_ProviderOutcome c
  | _ => None
  end.

(** The model cools down until the end of the duration from a moment after [w]. *)
Definition cools (key : string * string * string) (d : Duration) (w w1 : DispatchWorld) : Prop :=
  exists tick s, (dw_tick w <= tick)%nat /\ md_capacity (dw_db w1) !! key = Some s
    /\ cap_CooldownUntil s = Some (cooldown_end (env_clock tick) d).

Definition fresh_outcome (key : string * string * string) (w : DispatchWorld) : Prop :=
  forall s, md_capacity (dw_db w) !! key = Some s ->
    null_or (fun last => last <? dw_seq w TOutcomes) (cap_LastOutcomeID s) = true.

(** A transaction reads the clock when it begins. *)
Definition begun (w : DispatchWorld) : DispatchWorld :=
  mkDispatchWorld (dw_db w) (dw_seq w) (S (dw_tick w)) (dw_random w) (env_clock (dw_tick w)).

Lemma begun_ok {A} (m : Disp A) a w w1 : dp_tx m w = (Ok a, w1) -> m (begun w) = (Ok a, w1).
Proof. unfold dp_tx. fold (begun w). by destruct (m (begun w)) as [[]]; intros [= <- <-]. Qed.

Lemma outcome_cools {A} id aid o phase d key (f : unit -> Disp A) a w w1 :
  model_key (dw_db w) id = Some key -> fresh_outcome key w ->
  ClassifyCapacityFeedback o phase = CapacityFeedbackCooldown d ->
  within unobserved (f tt) ->
  bind (insertProviderOutcome id aid o phase) f (begun w) = (Ok a, w1) -> cools key d w w1.
Proof.
  intros Hk Hfresh Hc Hf Hm. apply bind_ok in Hm as ([] & w2 & Hi & Hm).
  apply Hf in Hm as (_ & Hcap & _). unfold model_key in Hk.
  destruct (md_invocations (dw_db w) !! id) as [i|] eqn:Hinv; [|done]. injection Hk as <-.
  apply (insertProviderOutcome_ok _ _ _ _ _ _ _ i) in Hi; [|done..]. rewrite Hc in Hi.
  exists (S (dw_tick w)). eexists. split; [lia|]. rewrite Hcap, Hi, lookup_insert_eq. split; [done|].
  by destruct (md_capacity (dw_db (begun w)) !! _).
Qed.

Lemma report_cools c id aid o phase d key w w1 :
  serve_dispatch c w = (Ok tt, w1) -> reported c = Some (id, aid, o, phase) ->
  model_key (dw_db w) id = Some key -> fresh_outcome key w ->
  ClassifyCapacityFeedback o phase = CapacityFeedbackCooldown d -> cools key d w w1.
Proof.
  intros Hs Hr Hk Hfresh Hc.
  destruct c; try discriminate Hr; simpl in Hs; unfold ignore in Hs;
    apply bind_ok in Hs as (j & w2 & Hs & [_ ->]%ret_ok).
  - injection Hr as -> -> -> <-. apply begun_ok in Hs. next Hs w3 H3.
    apply held_attempt_ok in H3 as [-> _]. see Hs Ho. eapply outcome_cools; [done..| |exact Hs].
    within_steps.
  - injection Hr as <- <- -> <-. see Hs Ho. apply begun_ok in Hs. next Hs w3 H3.
    apply held_attempt_ok in H3 as [-> _]. eapply outcome_cools; [done..| |exact Hs].
    unfold holder_event. within_steps.
  - injection Hr as <- <- -> <-. see Hs Ho. apply begun_ok in Hs. next Hs w3 H3.
    apply held_attempt_ok in H3 as [-> _]. eapply outcome_cools; [done..| |exact Hs].
    unfold holder_event. within_steps.
  - simpl in Hr. destruct (fail_ProviderOutcome c) as [o'|] eqn:Ho'; [|done]. injection Hr as <- <- -> <-.
    unfold MarkAmbiguous in Hs. rewrite Ho' in Hs. see Hs Ho. apply begun_ok in Hs. next Hs w3 H3.
    apply held_attempt_ok in H3 as [-> _]. eapply outcome_cools; [done..| |exact Hs].
    unfold holder_event. within_steps.
Qed.

(** Later calls that report nothing of the model leave what is known of it. *)
Lemma calls_observed (cs : list DispatchCall) (w : DispatchWorld) :
  observed (dw_db w) (dw_db (foldl dispatch_exec w cs)).
Proof.
  revert w. induction cs as [|c cs IH]; intros w; [reflexivity|]. simpl.
  etrans; [|apply IH]. eapply serve_observed. apply surjective_pairing.
Qed.

(** A model that cools down is not chosen. *)
Lemma cooling_not_chosen `{!RegistryLaws} key until (w : DispatchWorld) s now req route :
  md_capacity (dw_db w) !! key = Some s -> cap_CooldownUntil s = Some until -> now < until ->
  rreq_OrganizationID req = fst (fst key) ->
  Resolve (capacity_of w) LookupSelector now req = Ok route ->
  route_RoutingMode route = RoutingModePool ->
  (bind_ProviderID (route_Binding route), bind_ProviderModelID (route_Binding route))
  <> (snd (fst key), snd key).
Proof.
  destruct key as [[org provider] model]. simpl. intros Hs Hcool Hnow Horg Hr Hmode Hsame.
  unfold Resolve in Hr. apply rbind_ok in Hr as ([policy|] & _ & Hr).
  2: { apply rbind_ok in Hr as (b & _ & Hr). by injection Hr as <-. }
  apply resolve_pool_ok in Hr as (sel & l & st & [chosen reason] & c & _ & Hsel & Hl & _ & Hst & Hdec
    & Hc & Hkey & _ & Hp1 & Hp2 & _ & _).
  unfold LookupSelector in Hsel. case_bool_decide; [|done]. injection Hsel as <-.
  apply Select_ok in Hdec as (_ & Hel & _). simpl in Hkey.
  destruct (read_capacity_ok _ _ _ _ _ c Hst (law_distinct _ _ _ _ Hl) Hc) as (cs & Hcs & Hstc).
  unfold eligible in Hel. rewrite <- Hkey, Hstc in Hel. simpl in Hel.
  injection Hsame as Hs1 Hs2. unfold capacity_of, CapacityStateOf in Hcs. cbn in Hcs.
  rewrite Horg, <- Hp1, <- Hp2, Hs1, Hs2, Hs in Hcs. injection Hcs as <-.
  rewrite !andb_true_iff, !negb_true_iff in Hel. destruct Hel as [[_ Hin] _].
  revert Hin. unfold inCooldown. simpl. rewrite Hcool. apply not_false_iff_true, Z.ltb_lt, Hnow.
Qed.

(** C24: A call reports an outcome that says a model is busy - a 429, a retryable server error, an
    ambiguous transport failure.  Whatever calls follow, as long as no other outcome of a call to that
    model is recorded, no pool routes a call of the organization to the model before the duration has
    passed since a moment within the reporting call. *)
Theorem throttled_models_rest `{!RegistryLaws} (c : DispatchCall) (id aid : Z) (o : ProviderOutcome)
    (phase : AdapterFailurePhase) (d : Duration) (key : string * string * string)
    (w w1 : DispatchWorld) :
  serve_dispatch c w = (Ok tt, w1) -> reported c = Some (id, aid, o, phase) ->
  model_key (dw_db w) id = Some key -> fresh_outcome key w ->
  ClassifyCapacityFeedback o phase = CapacityFeedbackCooldown d ->
  exists tick, (dw_tick w <= tick)%nat
  /\ forall cs now req route, let w2 := foldl dispatch_exec w1 cs in
    outcomes_of key (dw_db w2) = outcomes_of key (dw_db w1) ->
    now < cooldown_end (env_clock tick) d ->
    rreq_OrganizationID req = fst (fst key) ->
    Resolve (capacity_of w2) LookupSelector now req = Ok route ->
    route_RoutingMode route = RoutingModePool ->
    (bind_ProviderID (route_Binding route), bind_ProviderModelID (route_Binding route))
    <> (snd (fst key), snd key).
Proof.
  intros Hs Hr Hk Hfresh Hc.
  destruct (report_cools _ _ _ _ _ _ _ _ _ Hs Hr Hk Hfresh Hc) as (tick & s & Ht & Hrow & Hcool).
  exists tick. split; [done|]. intros cs now req route w2 Hquiet. apply cooling_not_chosen with (s := s); [|done].
  unfold w2 in *. destruct (proj2 (calls_observed cs w1) key) as [_ [E|Hlt]]; [by rewrite E|lia].
Qed.
End Observed.

(** ** Witnesses *)

Definition demo_pool : list RoutingCandidate :=
  [mkRoutingCandidate (mkCandidate "deepseek" "chat" TransportHTTP "free_daily" 1 "pool-1" 3) "c1";
   mkRoutingCandidate (mkCandidate "xai" "grok" TransportHTTP "paid" 1 "pool-2" 4) "c2"].

Definition demo_routing : RoutingRegistry := {|
  GetRoutingPolicy _ _ policy :=
    Ok (if bool_decide (policy = "shared") then Some (mkRoutingPolicy "pool" "free_capacity_v1" true "h")
        else None);
  ListRoutingCandidates _ _ _ := Ok demo_pool;
  GetBinding _ _ _ := Ok (mkResolvedBinding "fast" 3 "deepseek" "chat" TransportHTTP);
  GetCandidateRoute _ _ profile :=
    if bool_decide (profile = "pool-1") then Ok (mkResolvedBinding "pool-1" 3 "deepseek" "chat" TransportHTTP)
    else if bool_decide (profile = "pool-2") then Ok (mkResolvedBinding "pool-2" 4 "xai" "grok" TransportHTTP)
    else Err ErrBindingNotFound |}.

#[export] Existing Instance demo_routing.

#[export] Instance demo_laws : RegistryLaws.
Proof.
  split; simpl.
  - intros _ _ _ l [= <-]. apply NoDup_cons; split; [set_solver|]. apply NoDup_singleton.
  - intros _ _ p b. repeat case_bool_decide; intros [= <-]; done.
  - intros _ _ _ l c b [= <-] Hc. unfold demo_pool in Hc. rewrite !elem_of_cons, elem_of_nil in Hc.
    destruct Hc as [->|[->|[]]]; vm_compute; by intros [= <-].
Qed.

Definition demo_route_request : RouteResolutionRequest :=
  mkRouteResolutionRequest "acme" 7 "eng/dev" "shared".

Definition always (_ _ _ : string) : result DispatchError CandidateState := Ok no_state.

Lemma routes_are_canonical_witness : exists route,
  Resolve always LookupSelector 0 demo_route_request = Ok route
  /\ ValidateResolvedRouteAgainstCanonical demo_route_request route = Ok tt.
Proof.
  destruct (Resolve always LookupSelector 0 demo_route_request) as [route|e] eqn:Hr.
  - exists route. split; [reflexivity|].
    apply (routes_are_canonical always LookupSelector 0 demo_route_request route Hr).
  - vm_compute in Hr. discriminate Hr.
Defined.

(** The model of the call answers 429: five minutes later it may be chosen again. *)
Definition throttled : ProviderOutcome := demo_outcome ProviderOutcomeRejected 429.
Definition throttled_call : DispatchCall :=
  CallReject (mkFailureCommand 1 1 demo_token "rate_limited" "response_received_rejected" ""
                (Some throttled) None None) throttled 10.
Definition throttled_world : DispatchWorld := snd (serve_dispatch throttled_call call_sent).
Definition later_calls : list DispatchCall :=
  [CallReconcileInvocations "acme" 10 10 []; CallCreateAssignment (demo_assignment_call "a2" 1)].

Lemma throttled_models_rest_witness : exists route,
  Resolve (capacity_of (foldl dispatch_exec throttled_world later_calls)) LookupSelector 200000000
    demo_route_request = Ok route
  /\ (bind_ProviderID (route_Binding route), bind_ProviderModelID (route_Binding route))
     <> ("deepseek", "chat").
Proof.
  destruct (Resolve (capacity_of (foldl dispatch_exec throttled_world later_calls)) LookupSelector
              200000000 demo_route_request) as [route|e] eqn:Hr; [|vm_compute in Hr; discriminate Hr].
  exists route. split; [reflexivity|].
  assert (Hmode : route_RoutingMode route = RoutingModePool).
  { pose proof (f_equal (fun r => match r with Ok x => route_RoutingMode x | Err _ => EmptyString end) Hr)
      as Hm. symmetry. etransitivity; [|exact Hm]. vm_compute. reflexivity. }
  assert (Hrun : serve_dispatch throttled_call call_sent = (Ok tt, throttled_world)).
  { rewrite (surjective_pairing (serve_dispatch throttled_call call_sent)).
    apply (f_equal (fun r => (r, throttled_world))). vm_compute. reflexivity. }
  assert (Hkey : model_key (dw_db call_sent) 1 = Some ("acme", "deepseek", "chat"))
    by (vm_compute; reflexivity).
  assert (Hnone : md_capacity (dw_db call_sent) = ∅) by (vm_compute; reflexivity).
  destruct (throttled_models_rest throttled_call 1 1 throttled AdapterFailureResponseReceived
    (5 * Minute) ("acme", "deepseek", "chat") call_sent throttled_world Hrun eq_refl Hkey)
    as (tick & _ & Hrest).
  - intros s Hs. rewrite Hnone, lookup_empty in Hs. discriminate Hs.
  - vm_compute. reflexivity.
  - apply (Hrest later_calls 200000000 demo_route_request route); [| |reflexivity|exact Hr|exact Hmode].
    + vm_compute. reflexivity.
    + change (200000000 < Z.of_nat tick * 1000000 + 300000000). lia.
Defined.
