(* ===== verification/InvocationService.v ===== *)
(** * The service that creates model invocations

    internal/modelruntime/invocation_service.go, with PrepareCreateCommand and
    validateAssignmentForCreation of validation.go and the two request hashes of
    hashing.go.

    The collaborators of the dispatch that creation asks as well are those of
    DispatchService.v; the others are [CreationCatalog].  A route resolver may be
    any, so what it answers is checked against the registry. *)

From stdpp Require Import base tactics list gmap strings pretty sorting.
From Stdlib Require Import ZArith Lia Ascii.
From S2P Require Import Prelude GoLib TaskDomain Json Database StoreHelpers TaskValidation SpendDB.
From S2P Require Import DispatchDB Schema Normalizer Egress ModelInput Routing InvocationStore.
From S2P Require Import Claims PreSend Outcomes Assignments DispatchSpec DispatchRun DispatchRefine.
From S2P Require Import DispatchMachine DispatchService JsonProps NormalizerProps ModelInputProps EgressProps.
From S2P Require Import Scenario DispatchServiceProps.

Local Open Scope string_scope.
Local Open Scope Z_scope.

(** ** domain.go, interfaces.go *)

Record CreateInvocationCommand : Type := mkCreateInvocationCommand {
  cinv_OrganizationID : string;
  cinv_TaskID : Z;
  cinv_AttemptID : Z;
  cinv_SubjectRoleID : string;
  cinv_ContextSnapshotID : Z;
  cinv_ModelInput : option ModelInputEnvelope;
  cinv_Purpose : string;
  cinv_RequiredCapabilities : list string;
  cinv_OutputMode : string;
  cinv_OutputSchema : string;
  cinv_MaxOutputTokens : Z;
  cinv_Temperature : option string;
  cinv_ThinkingMode : string;
  cinv_IdempotencyKey : string;
  cinv_CorrelationID : string;
  cinv_CausationID : string;
  cinv_Deadline : Instant }.

(** [RoleRef] of this package. *)
Record ActorRole : Type := mkActorRole {
  arole_ModelPolicy : string;
  arole_Enabled : bool;
  arole_Executable : bool;
  arole_AuthorityClass : string }.

(** The route comes with the capabilities of its binding. *)
Class CreationCatalog : Type := {
  GetRole : string -> string -> result DispatchError ActorRole;
  ResolveRoute : RouteResolutionRequest -> result DispatchError (ResolvedRoute * list string);
  ActiveIdentityPolicy : string -> result DispatchError IdentityPolicy }.

(** ** validation.go *)

(** canonical_routing.go: [normalizeCapabilities] *)
Definition normalizeCapabilities (values : list string) : list string :=
  sorted_set (filter (fun s => is_empty s = false) (TrimSpace <$> values)).

Definition parse_output_mode (s : string) : option OutputMode :=
  if bool_decide (s = "text") then Some OutputText
  else if bool_decide (s = "json") then Some OutputJSON else None.

Definition temperature_ok (t : string) : bool :=
  match Rat_SetString t with
  | Some x => negb (Rat_lt x (mkRat 0 0)) && negb (Rat_lt (mkRat 2 0) x)
  | None => false
  end.

(** The schema of a call, canonical, when it is one. *)
Definition prepare_schema (mode : OutputMode) (raw : string) : result DispatchError string :=
  match CanonicalizeRawJSON raw with
  | None => Err ErrRuntimeInvalidRequest
  | Some schema =>
      check? rejectIf (65536 <? len schema) ErrRuntimeInvalidRequest in
      check? rejectIf (bool_decide (mode = OutputText) && negb (is_empty schema))
               ErrRuntimeInvalidRequest in
      if is_empty schema then Ok schema
      else
        match decodeJSONWithNumbers schema with
        | None => Err ErrHost
        | Some (AObject m) =>
            check? rejectIf (negb (validateSchemaDefinition maxSchemaLevels m))
                     ErrRuntimeInvalidRequest in
            Ok schema
        | Some _ => Err ErrRuntimeInvalidRequest
        end
  end.

Definition maxDeadlineHorizon : Duration := 24 * 3600 * 1000000.

(** The command with its texts trimmed, its capabilities normalized and its schema
    canonical, and its output mode. *)
Definition PrepareCreateCommand (c : CreateInvocationCommand) (now : Instant)
    : result DispatchError (CreateInvocationCommand * OutputMode) :=
  let organization := TrimSpace (cinv_OrganizationID c) in
  let subject := TrimSpace (cinv_SubjectRoleID c) in
  let purpose := TrimSpace (cinv_Purpose c) in
  let key := TrimSpace (cinv_IdempotencyKey c) in
  check? rejectIf (is_empty organization || (cinv_TaskID c <=? 0) || (cinv_AttemptID c <=? 0)
                   || (cinv_ContextSnapshotID c <=? 0)) ErrRuntimeInvalidRequest in
  check? rejectIf (negb (MatchString roleIDPattern subject)) ErrRuntimeInvalidRequest in
  check? rejectIf ((len purpose <? 1) || (4000 <? len purpose)) ErrRuntimeInvalidRequest in
  check? rejectIf ((len key <? 1) || (200 <? len key)) ErrRuntimeInvalidRequest in
  check? rejectIf (bool_decide (cinv_Deadline c = zeroInstant) || (cinv_Deadline c <=? now))
           ErrRuntimeInvalidRequest in
  check? rejectIf (maxDeadlineHorizon <? cinv_Deadline c - now) ErrRuntimeInvalidRequest in
  check? rejectIf ((cinv_MaxOutputTokens c <? 1) || (1048576 <? cinv_MaxOutputTokens c))
           ErrRuntimeInvalidRequest in
  check? rejectIf (match cinv_Temperature c with Some t => negb (temperature_ok t) | None => false end)
           ErrRuntimeInvalidRequest in
  match parse_output_mode (cinv_OutputMode c) with
  | None => Err ErrRuntimeInvalidRequest
  | Some mode =>
      check? rejectIf (negb (bool_decide (cinv_ThinkingMode c ∈ ["disabled"; "opaque"])))
               ErrRuntimeInvalidRequest in
      let caps := normalizeCapabilities (cinv_RequiredCapabilities c) in
      check? rejectIf (existsb (fun s => (160 <? len s) || negb (MatchString roleIDPattern s)) caps)
               ErrRuntimeInvalidRequest in
      let? schema := prepare_schema mode (cinv_OutputSchema c) in
      Ok (mkCreateInvocationCommand organization (cinv_TaskID c) (cinv_AttemptID c) subject
            (cinv_ContextSnapshotID c) (cinv_ModelInput c) purpose caps (cinv_OutputMode c) schema
            (cinv_MaxOutputTokens c) (cinv_Temperature c) (cinv_ThinkingMode c) key
            (TrimSpace (cinv_CorrelationID c)) (TrimSpace (cinv_CausationID c)) (cinv_Deadline c),
          mode)
  end.

Definition validateAssignmentForCreation (a : DispatcherAssignment) (p : ExecutionPrincipal)
    (revision : Z) (now : Instant) : result DispatchError unit :=
  let s := asg_Scope a in
  check? rejectIf (negb (bool_decide (asg_Status a = AssignmentActive))) ErrAssignmentUnavailable in
  check? rejectIf (negb (asg_OrganizationRevisionID s =? revision)) ErrAssignmentRevisionDrift in
  check? rejectIf ((now <? asg_ValidFrom s) || (asg_ValidUntil s <=? now))
           ErrAssignmentVigencyExpired in
  check? rejectIf (asg_MaxInvocations s <=? asg_UsedInvocations a) ErrAssignmentQuotaExhausted in
  rejectIf (negb (bool_decide (prin_Status p = PrincipalActive))) ErrExecutionPrincipalDisabled.

(** ** hashing.go *)

(** A decoded text as [json.Marshal] takes it. *)
Fixpoint json_of_any (v : Any) : JSON :=
  match v with
  | ANil => JNull
  | ABool b => JBool b
  | ANumber s => JNum s
  | AString s => JStr s
  | AArray l => JArr (map json_of_any l)
  | AObject m => JObj (map (fun '(k, v) => (k, json_of_any v)) m)
  end.

(** [json.RawMessage(schema)]; of no bytes it is [null]. *)
Definition json_raw (schema : string) : JSON :=
  match decodeJSONWithNumbers schema with Some v => json_of_any v | None => JNull end.

Section Hashes.
Context {env : Env}.

(** What identifies the request of the caller, whatever route it takes. *)
Definition intent_fields (c : CreateInvocationCommand) (revision : Z) (inputDigest : string)
    (policy : ResolvedPolicy) (identity : IdentityPolicy) (a : DispatcherAssignment)
    (p : ExecutionPrincipal) : list (string * JSON) :=
  [("organization_id", JStr (cinv_OrganizationID c));
   ("organization_revision_id", JInt revision);
   ("task_id", JInt (cinv_TaskID c)); ("attempt_id", JInt (cinv_AttemptID c));
   ("dispatcher_assignment_id", JInt (asg_ID a));
   ("dispatcher_assignment_hash", JStr (asg_AssignmentHash (asg_Scope a)));
   ("execution_principal_id", JInt (prin_ID p));
   ("execution_principal_key", JStr (prin_PrincipalKey p));
   ("dispatch_actor_role_id", JStr (prin_DispatchActorRoleID p));
   ("subject_role_id", JStr (cinv_SubjectRoleID c));
   ("context_snapshot_id", JInt (cinv_ContextSnapshotID c));
   ("model_input_digest", JStr inputDigest);
   ("purpose", JStr (TrimSpace (cinv_Purpose c)));
   ("required_capabilities", JArr (JStr <$> cinv_RequiredCapabilities c));
   ("output_mode", JStr (cinv_OutputMode c));
   ("output_schema", json_raw (cinv_OutputSchema c));
   ("max_output_tokens", JInt (cinv_MaxOutputTokens c));
   ("temperature", match cinv_Temperature c with Some t => JNum t | None => JNull end);
   ("thinking_mode", JStr (cinv_ThinkingMode c));
   ("deadline", JTime (cinv_Deadline c));
   ("model_egress_policy_version_id", JInt (pol_VersionID policy));
   ("model_egress_policy_hash", JStr (pol_CanonicalHash policy));
   ("execution_identity_policy_version_id", JInt (idpol_ID identity));
   ("execution_identity_policy_hash", JStr (idpol_CanonicalHash identity))].

Definition route_fields (b : ResolvedBinding) : list (string * JSON) :=
  [("profile_id", JStr (bind_ProfileID b)); ("profile_version_id", JInt (bind_VersionID b));
   ("provider_id", JStr (bind_ProviderID b)); ("provider_model_id", JStr (bind_ProviderModelID b))].

(** [CanonicalJSON] of a map: the keys in order. *)
Definition canonical_hash (fields : list (string * JSON)) : string :=
  json_digest (JObj (order_by (fun a b => string_le (fst a) (fst b)) fields)).

Definition invocationRequestHash (c : CreateInvocationCommand) (revision : Z) (b : ResolvedBinding)
    (inputDigest : string) (policy : ResolvedPolicy) (identity : IdentityPolicy)
    (a : DispatcherAssignment) (p : ExecutionPrincipal) : string :=
  canonical_hash (intent_fields c revision inputDigest policy identity a p ++ route_fields b)%list.

Definition idempotencyIntentHash (c : CreateInvocationCommand) (revision : Z) (inputDigest : string)
    (policy : ResolvedPolicy) (identity : IdentityPolicy) (a : DispatcherAssignment)
    (p : ExecutionPrincipal) : string :=
  canonical_hash (intent_fields c revision inputDigest policy identity a p).

End Hashes.

Section InvocationService.
Context {env : Env} {registry : Registry} {host : Host} {policy : ContentPolicy}.
Context {collaborators : Collaborators} {around : Surroundings} {routing : RoutingRegistry}.
Context {catalog : CreationCatalog}.
Context (organizationID : string) (outboxMaxAttempts : Z) (singleProviderTestMode : bool).

(** [rejectCredentialBearingModelInput] *)
Definition rejectCredentialBearingModelInput (input : PreparedModelInput) (schema : string)
    : result DispatchError unit :=
  check? rejectIf (bool_decide (ClassificationSecret
                     ∈ elems (env_InputClassifications (pinput_Envelope input))))
           ErrModelInputSecretRejected in
  rejectIf (HasCredentials schema) ErrModelInputSecretRejected.

(** modeldispatch: the active assignment of an attempt and its principal. *)
Definition ResolveActiveAssignment (org : string) (task attempt : Z) (subject : string)
    : Disp (DispatcherAssignment * ExecutionPrincipal) :=
  let! a := ResolveActive org task attempt subject in
  let! p := lift (PrincipalByID (asg_ExecutionPrincipalID (asg_Scope a))) in
  ret (a, p).

(** What the INSERT writes of a [PreparedInvocation]. *)
Definition prepared_columns (c : CreateInvocationCommand) (mode : OutputMode) (revision : Z)
    (route : ResolvedRoute) (requestHash intentHash : string) (egress : ResolvedPolicy)
    (identity : IdentityPolicy) (a : DispatcherAssignment) (p : ExecutionPrincipal)
    : InvocationColumns :=
  let b := route_Binding route in
  mkInvocationColumns (cinv_OrganizationID c) revision (cinv_TaskID c) (cinv_AttemptID c)
    (prin_DispatchActorRoleID p) (cinv_SubjectRoleID c) (Some (asg_ID a)) (Some (prin_ID p))
    (cinv_ContextSnapshotID c) (cinv_Purpose c) (bind_ProfileID b) (bind_VersionID b)
    (bind_ProviderID b) (bind_ProviderModelID b) (Some (pol_VersionID egress))
    (pol_CanonicalHash egress) (Some (idpol_ID identity)) (idpol_CanonicalHash identity)
    (cinv_RequiredCapabilities c) mode (cinv_OutputSchema c) (cinv_MaxOutputTokens c)
    (cinv_Temperature c) (cinv_ThinkingMode c) (cinv_IdempotencyKey c) requestHash intentHash
    (route_RoutingMode route) (route_PolicyID route) (route_SelectorID route)
    (route_CandidateSetHash route) (route_CandidateHash route) (route_DecisionReason route)
    (cinv_Deadline c) (cinv_CorrelationID c) (cinv_CausationID c).

Definition default_organization (c : CreateInvocationCommand) : CreateInvocationCommand :=
  if is_empty (cinv_OrganizationID c) then
    mkCreateInvocationCommand organizationID (cinv_TaskID c) (cinv_AttemptID c)
      (cinv_SubjectRoleID c) (cinv_ContextSnapshotID c) (cinv_ModelInput c) (cinv_Purpose c)
      (cinv_RequiredCapabilities c) (cinv_OutputMode c) (cinv_OutputSchema c)
      (cinv_MaxOutputTokens c) (cinv_Temperature c) (cinv_ThinkingMode c) (cinv_IdempotencyKey c)
      (cinv_CorrelationID c) (cinv_CausationID c) (cinv_Deadline c)
  else c.

(** An error of the context is reported as a rejection of it. *)
Definition or_context_rejected {A} (r : result DispatchError A) : Dispatching A :=
  match r with Ok a => ret a | Err _ => fail (Runtime ErrContextRejected) end.

(** The task, the assignment with its principal, and the two roles. *)
Definition resolve_authority (c : CreateInvocationCommand)
    : Dispatching (OrganizationRef * DispatcherAssignment * ExecutionPrincipal * ActorRole) :=
  let! org := or_fail (CurrentOrganization (cinv_OrganizationID c)) in
  let! ref := or_fail (GetTaskAttempt (cinv_TaskID c) (cinv_AttemptID c)) in
  let! t := now in
  do! or_fail (validateTaskAttempt ref (cinv_TaskID c) (cinv_AttemptID c) (cinv_OrganizationID c)
                 (cinv_SubjectRoleID c) t) in
  do! fail_if (negb (tref_OrganizationRevisionID ref =? oref_RevisionID org))
        (Runtime ErrTaskAttemptRejected) in
  let! (a, p) := stored (ResolveActiveAssignment (cinv_OrganizationID c) (cinv_TaskID c)
                           (cinv_AttemptID c) (cinv_SubjectRoleID c)) in
  let! t := now in
  do! or_fail (validateAssignmentForCreation a p (oref_RevisionID org) t) in
  let! actor := or_fail (GetRole (cinv_OrganizationID c) (prin_DispatchActorRoleID p)) in
  do! fail_if (negb (arole_Enabled actor) || negb (arole_Executable actor)
               || negb (bool_decide (arole_AuthorityClass actor = "execution_service")))
        (Runtime ErrTaskAttemptRejected) in
  let! subject := or_fail (GetRole (cinv_OrganizationID c) (cinv_SubjectRoleID c)) in
  do! fail_if (negb (arole_Enabled subject) || negb (arole_Executable subject))
        (Runtime ErrTaskAttemptRejected) in
  ret (org, a, p, subject).

(** The snapshot and the input that is built on its rendering. *)
Definition prepare_input (c : CreateInvocationCommand) (revision : Z)
    : Dispatching (ContextSnapshotRef * PreparedModelInput) :=
  let! snapshot := or_fail (GetContextSnapshot (cinv_ContextSnapshotID c)) in
  do! or_fail (validateContext snapshot (cinv_ContextSnapshotID c) (cinv_TaskID c)
                 (cinv_OrganizationID c) (cinv_SubjectRoleID c) revision) in
  do! or_context_rejected (ValidateContextSnapshot (cinv_ContextSnapshotID c)) in
  let! rendered := or_context_rejected (RenderContextSnapshot (cinv_ContextSnapshotID c)) in
  let! input := or_fail (PrepareModelInput (cinv_ModelInput c) snapshot rendered) in
  do! or_fail (rejectCredentialBearingModelInput input (cinv_OutputSchema c)) in
  ret (snapshot, input).

(** The route, approved by the registry and by the scope of the snapshot. *)
Definition resolve_route (c : CreateInvocationCommand) (org : OrganizationRef) (subject : ActorRole)
    (snapshot : ContextSnapshotRef) : Dispatching ResolvedRoute :=
  let req := mkRouteResolutionRequest (cinv_OrganizationID c) (oref_RevisionID org)
               (cinv_SubjectRoleID c) (arole_ModelPolicy subject) in
  let! (route, capabilities) := or_fail (ResolveRoute req) in
  do! or_fail (ValidateResolvedRouteAgainstCanonical req route) in
  do! fail_if (negb (capabilitiesSatisfy capabilities (cinv_RequiredCapabilities c)))
        (Runtime ErrCapabilityMismatch) in
  let b := route_Binding route in
  do! fail_if (negb (snd (ValidateExecutiveScope (bind_ProviderID b) (bind_Transport b)
                            (snap_DataClasses snapshot) (snap_ExecutiveScope snapshot)
                            singleProviderTestMode))) (Runtime ErrEgressDenied) in
  ret route.

Definition resolve_policies (c : CreateInvocationCommand) (org : OrganizationRef)
    : Dispatching (ResolvedPolicy * IdentityPolicy) :=
  let! egress := or_fail (PolicyForRevision (cinv_OrganizationID c) (oref_RevisionID org)) in
  do! or_fail (validateResolvedEgressPolicy egress org) in
  let! identity := or_fail (ActiveIdentityPolicy (cinv_OrganizationID c)) in
  do! fail_if (negb (bool_decide (idpol_Status identity = PolicyActive)))
        (Runtime ErrExecutionIdentityUnpinned) in
  ret (egress, identity).

Definition InvocationCreate (command : CreateInvocationCommand)
    : Dispatching CreateInvocationResult :=
  let! t := now in
  let! (c, mode) := or_fail (PrepareCreateCommand (default_organization command) t) in
  let! (org, a, p, subject) := resolve_authority c in
  let revision := oref_RevisionID org in
  let! (snapshot, input) := prepare_input c revision in
  let! route := resolve_route c org subject snapshot in
  let! (egress, identity) := resolve_policies c org in
  let digest := pinput_CanonicalDigest input in
  let columns := prepared_columns c mode revision route
    (invocationRequestHash c revision (route_Binding route) digest egress identity a p)
    (idempotencyIntentHash c revision digest egress identity a p) egress identity a p in
  stored (CreateInvocation host_decode_input
    (mkPreparedInvocation columns
       (envelope_columns (pinput_Envelope input) (pinput_CanonicalBytes input) digest))
    outboxMaxAttempts).

Definition InvocationGet (id : Z) : Dispatching Invocation :=
  do! fail_if (id <=? 0) (Runtime ErrRuntimeInvalidRequest) in
  stored (GetInvocation id).

Definition clamp_limit (limit : Z) : Z := Z.min 1000 (if limit <=? 0 then 100 else limit).

Definition InvocationList (limit : Z) : Dispatching (list Invocation) :=
  stored (ListInvocations organizationID (clamp_limit limit)).

Definition InvocationCancel (id : Z) (actor reason : string) : Dispatching CancelResult :=
  let actor := TrimSpace actor in
  let reason := TrimSpace reason in
  do! fail_if ((id <=? 0) || negb (MatchString roleIDPattern actor))
        (Runtime ErrRuntimeInvalidRequest) in
  do! fail_if (4000 <? len reason) (Runtime ErrRuntimeInvalidRequest) in
  let! i := stored (GetInvocation id) in
  let c := inv_Columns i in
  do! fail_if (negb (bool_decide (inv_OrganizationID c = organizationID))
               || negb (bool_decide (inv_DispatchActorRoleID c = actor)))
        (Runtime ErrAuthorizationDenied) in
  stored (RequestCancellation id actor reason outboxMaxAttempts).

Definition InvocationReconcile (batch : Z) (locked : list Z) : Dispatching ModelReconcileResult :=
  stored (ReconcileInvocations organizationID (if batch <=? 0 then 100 else batch)
            outboxMaxAttempts locked).

Definition InvocationFailureRetryable (invocation : Z) : Dispatching bool :=
  do! fail_if (invocation <=? 0) (Runtime ErrRuntimeInvalidRequest) in
  stored (ProviderFailureRetryable invocation).

End InvocationService.

(** ** A call that was created can be dispatched *)

(** The decoder of the store is the one of the service. *)
Definition decodes {env : Env} {host : Host} : Prop := forall text,
  host_decode_input text
  = (fun e => envelope_columns e text (env_sha256_hex text)) <$> stored_envelope text.

Lemma event_keeps_inputs i ty actor id outbox max extra u (w w' : DispatchWorld) :
  appendInvocationEvent i ty actor id outbox max extra w = (Ok u, w') ->
  core (dw_db w') = core (dw_db w) /\ md_inputs (dw_db w') = md_inputs (dw_db w).
Proof.
  intros Hm. split; [by eapply quiet_event|]. unfold appendInvocationEvent in Hm.
  see Hm H1. see Hm H2. see Hm H3. next Hm w1 H4. unfold insert_audit_row in H4. see H4 H5.
  apply dp_modify_ok in H4 as ->. destruct outbox.
  - unfold insert_outbox_message in Hm. see Hm H6. by apply dp_modify_ok in Hm as ->.
  - by apply ret_ok in Hm as [_ ->].
Qed.

Lemma created_row {env : Env} decode p max r (w w' : DispatchWorld) :
  CreateInvocation decode p max w = (Ok r, w') -> created_Reused r = false ->
  let i := created_Invocation r in
  inv_Columns i = prep_Columns p /\ inv_Status i = InvocationRequested
  /\ md_invocations (dw_db w') !! inv_ID i = Some i
  /\ md_inputs (dw_db w') !! inv_ID i = Some (prep_ModelInput p)
  /\ columns_check (prep_Columns p) = true.
Proof.
  intros Hm Hr. unfold CreateInvocation in Hm. apply dp_tx_ok in Hm as (w0 & _ & Hm).
  next Hm w1 H1. pose proof H1 as H1'. apply insert_invocation_ok in H1. destruct r0 as [i|].
  2: { see Hm H2. see Hm H2. see Hm H3. see Hm H4. next Hm w2 H5. see Hm H6. next Hm w3 H7.
       apply ret_ok in Hm as [-> _]. done. }
  assert (Hcheck : columns_check (prep_Columns p) = true).
  { unfold insert_invocation in H1'. next H1' wa Ha. next H1' wb Hb. see H1' Hc.
    by apply andb_true_iff in Hc as [Hc _]. }
  destruct H1 as (_ & Hst & Hcol & _ & Hcore). next Hm w2 H2. next Hm w3 H3.
  apply ret_ok in Hm as [-> ->]. cbn. apply event_keeps_inputs in H3 as [Hc3 Hi3].
  unfold insertModelInput in H2. see H2 Hin. see H2 Hx. see H2 Hu. see H2 Hf.
  apply dp_modify_ok in H2 as ->. split_and!; try done.
  - change (co_inv (core (dw_db w3)) !! inv_ID i = Some i). rewrite Hc3.
    change (co_inv (core (dw_db w1)) !! inv_ID i = Some i). rewrite Hcore. apply lookup_insert_eq.
  - rewrite Hi3. apply lookup_insert_eq.
Qed.

Section Created.
Context {env : Env} {registry : Registry} {host : Host} {policy : ContentPolicy}.
Context {collaborators : Collaborators} {around : Surroundings} {routing : RoutingRegistry}.
Context {catalog : CreationCatalog}.

(** What a dispatch asks of the call it takes up, of its rows and of its input. *)
Record dispatchable (w : DispatchWorld) (i : Invocation) : Prop := {
  dsp_row : md_invocations (dw_db w) !! inv_ID i = Some i /\ inv_Status i = InvocationRequested;
  dsp_pinned : exists digest, invocation_digest i = Ok digest;
  dsp_schema : schema_accepted (inv_OutputSchema (inv_Columns i))
    /\ HasCredentials (inv_OutputSchema (inv_Columns i)) = false;
  dsp_input : exists snapshot rendered p,
    GetContextSnapshot (inv_ContextSnapshotID (inv_Columns i)) = Ok snapshot
    /\ RenderContextSnapshot (inv_ContextSnapshotID (inv_Columns i)) = Ok rendered
    /\ GetModelInput host_decode_input (inv_ID i) w = (Ok p, w)
    /\ ValidateStoredModelInput p snapshot = Ok p
    /\ ValidateModelInputContextRender p rendered = Ok tt
    /\ ClassificationSecret ∉ elems (env_InputClassifications (pinput_Envelope p))
    /\ HasCredentials (modelVisibleText (pinput_Envelope p)) = false;
  dsp_route : exists req route, ValidateResolvedRouteAgainstCanonical req route = Ok tt
    /\ rreq_SubjectRoleID req = inv_SubjectRoleID (inv_Columns i)
    /\ rreq_OrganizationRevisionID req = inv_OrganizationRevisionID (inv_Columns i)
    /\ bind_VersionID (route_Binding route) = inv_ModelProfileVersionID (inv_Columns i)
    /\ bind_ProviderID (route_Binding route) = inv_ProviderID (inv_Columns i)
    /\ bind_ProviderModelID (route_Binding route) = inv_ProviderModelID (inv_Columns i) }.

Lemma or_fail_ok {A} (x : result DispatchError A) s a s' : or_fail x s = (Ok a, s') -> x = Ok a /\ s' = s.
Proof. destruct x; [by intros [= <- <-]|done]. Qed.

Lemma or_context_rejected_ok {A} (x : result DispatchError A) s a s' :
  or_context_rejected x s = (Ok a, s') -> x = Ok a /\ s' = s.
Proof. destruct x; [by intros [= <- <-]|done]. Qed.

Lemma prepared_schema mode raw schema :
  prepare_schema mode raw = Ok schema -> schema_accepted schema.
Proof.
  unfold prepare_schema. destruct (CanonicalizeRawJSON raw) as [t|]; [|done]. intros H.
  apply check_ok_bind in H as [_ H]. apply check_ok_bind in H as [_ H].
  destruct (is_empty t) eqn:He; [injection H as <-; by left|].
  destruct (decodeJSONWithNumbers t) as [[| | | | |m]|] eqn:Hd; try done.
  apply check_ok_bind in H as [Hv%rejectIf_ok H]. injection H as <-. right. exists m.
  by apply negb_false_iff in Hv.
Qed.

Lemma prepared_command c t c' mode : PrepareCreateCommand c t = Ok (c', mode) ->
  schema_accepted (cinv_OutputSchema c')
  /\ t < cinv_Deadline c' <= t + maxDeadlineHorizon.
Proof.
  unfold PrepareCreateCommand. intros H.
  repeat (apply check_ok_bind in H as [?%rejectIf_ok H]).
  destruct (parse_output_mode _) as [m|]; [|done].
  repeat (apply check_ok_bind in H as [?%rejectIf_ok H]).
  apply rbind_ok in H as (schema & Hs%prepared_schema & H). injection H as <- <-.
  repeat match goal with H : _ || _ = false |- _ => apply orb_false_iff in H as [? ?] end.
  cbn. split; [done|lia].
Qed.


Lemma prepared_input (given : option ModelInputEnvelope) snapshot rendered p :
  (forall s, digest_ok (env_sha256_hex s) = true) -> int64 (snap_ID snapshot) ->
  (given = None -> utf8 (to_bytes rendered)) ->
  PrepareModelInput given snapshot rendered = Ok p ->
  ValidateStoredModelInput p snapshot = Ok p /\ ValidateModelInputContextRender p rendered = Ok tt
  /\ stored_envelope (pinput_CanonicalBytes p) = Some (pinput_Envelope p)
  /\ pinput_CanonicalDigest p = env_sha256_hex (pinput_CanonicalBytes p)
  /\ (HasCredentials (modelVisibleText (pinput_Envelope p)) = true ->
      ClassificationSecret ∈ elems (env_InputClassifications (pinput_Envelope p))).
Proof.
  intros Hsha Hid Hutf H. apply PrepareModelInput_ok in H as (c & v & text & -> & Hp & Hv & Ht & _ & Hs);
    [|done..].
  pose proof (prep_first _ _ _ Hp) as Hf. cbn [pinput_Envelope pinput_CanonicalBytes pinput_CanonicalDigest].
  destruct (envelope_text c v text (prep_ok _ _ _ Hp) Hv Ht) as (Hd & Hu & _).
  split_and!; [by eapply prepared_validates| | |done|done].
  - unfold ValidateModelInputContextRender, begins_with in *. cbn [pinput_Envelope].
    destruct (elems (env_StablePrefix c)); [done|]. apply andb_true_iff in Hf as [_ Hm]. by rewrite Hm.
  - unfold stored_envelope. by rewrite Hd.
Qed.

Lemma prepared_input_read (p : PreparedModelInput) (id : Z) (w : DispatchWorld) : decodes ->
  stored_envelope (pinput_CanonicalBytes p) = Some (pinput_Envelope p) ->
  pinput_CanonicalDigest p = env_sha256_hex (pinput_CanonicalBytes p) ->
  md_inputs (dw_db w) !! id = Some (envelope_columns (pinput_Envelope p) (pinput_CanonicalBytes p)
                                      (pinput_CanonicalDigest p)) ->
  GetModelInput host_decode_input id w = (Ok p, w).
Proof.
  intros Hdec He Hd Hrow. unfold GetModelInput, getModelInput, bind, dp_get, dp_row, throwIf, ret.
  rewrite Hrow. cbn [input_CanonicalBytes envelope_columns]. rewrite (Hdec _), He. cbn -[stored_envelope].
  unfold envelope_agrees. cbn -[stored_envelope].
  rewrite !bool_decide_eq_true_2, Z.eqb_refl by done. cbn -[stored_envelope]. rewrite He.
  by destruct p.
Qed.

Lemma authority_ok c s org a p subject s' :
  resolve_authority c s = (Ok (org, a, p, subject), s') ->
  CurrentOrganization (cinv_OrganizationID c) = Ok org.
Proof.
  intros H. unfold resolve_authority in H. apply bind_ok in H as (o & s1 & [Ho ->]%or_fail_ok & H).
  do 4 (apply bind_ok in H as (? & ? & _ & H)). apply bind_ok in H as ([a' p'] & ? & _ & H).
  do 6 (apply bind_ok in H as (? & ? & _ & H)). apply ret_ok in H as [H _]. by injection H as <- <- <- <-.
Qed.

Lemma input_prepared c revision s snapshot p s' :
  prepare_input c revision s = (Ok (snapshot, p), s') ->
  exists rendered, GetContextSnapshot (cinv_ContextSnapshotID c) = Ok snapshot
  /\ RenderContextSnapshot (cinv_ContextSnapshotID c) = Ok rendered
  /\ PrepareModelInput (cinv_ModelInput c) snapshot rendered = Ok p
  /\ ClassificationSecret ∉ elems (env_InputClassifications (pinput_Envelope p))
  /\ HasCredentials (cinv_OutputSchema c) = false.
Proof.
  intros H. unfold prepare_input in H. apply bind_ok in H as (sn & s1 & [Hsn ->]%or_fail_ok & H).
  apply bind_ok in H as (u1 & s2 & _ & H). apply bind_ok in H as (u2 & s3 & _ & H).
  apply bind_ok in H as (rendered & s4 & [Hr ->]%or_context_rejected_ok & H).
  apply bind_ok in H as (input & s5 & [Hp ->]%or_fail_ok & H).
  apply bind_ok in H as (u3 & s6 & [Hc ->]%or_fail_ok & H). apply ret_ok in H as [[= <- <-] _].
  unfold rejectCredentialBearingModelInput in Hc.
  apply check_ok_bind in Hc as [Hc1%rejectIf_ok Hc2%rejectIf_ok].
  apply bool_decide_eq_false in Hc1. by exists rendered.
Qed.

Lemma route_resolved single c org subject snapshot s route s' :
  resolve_route single c org subject snapshot s = (Ok route, s') ->
  exists req, ValidateResolvedRouteAgainstCanonical req route = Ok tt
  /\ rreq_SubjectRoleID req = cinv_SubjectRoleID c
  /\ rreq_OrganizationRevisionID req = oref_RevisionID org.
Proof.
  intros H. unfold resolve_route in H. apply bind_ok in H as ([rt caps] & s1 & _ & H).
  apply bind_ok in H as ([] & s2 & [Hv ->]%or_fail_ok & H).
  apply bind_ok in H as (u1 & s3 & _ & H). apply bind_ok in H as (u2 & s4 & _ & H).
  apply ret_ok in H as [<- _]. by eexists.
Qed.

Lemma policies_resolved c org s egress identity s' :
  resolve_policies c org s = (Ok (egress, identity), s') ->
  is_empty (pol_CanonicalHash egress) = false.
Proof.
  intros H. unfold resolve_policies in H. apply bind_ok in H as (e & s1 & _ & H).
  apply bind_ok in H as ([] & s2 & [Hv ->]%or_fail_ok & H). apply bind_ok in H as (i & s3 & _ & H).
  apply bind_ok in H as (u & s4 & _ & H). apply ret_ok in H as [[= <- <-] _].
  unfold validateResolvedEgressPolicy in Hv. apply rejectIf_ok in Hv.
  repeat match goal with H : _ || _ = false |- _ => apply orb_false_iff in H as [? ?] end. done.
Qed.

End Created.

(** C30: What the service creates the dispatch can take up.  A call that was created and not
    reused is in the tables as requested, with a deadline in the next day and every pin the
    authenticated claim needs, so it has a digest.  Its schema is one the normalizer cannot
    panic on, and holds no credentials.  Reading its input back gives an input that passes the
    checks of the dispatch against the same snapshot and rendering, of no secret class and
    without credentials in anything the model sees.  Its route is one the registry approves,
    whatever the resolver answered. *)
Theorem created_calls_can_be_dispatched {env : Env} {registry : Registry} {host : Host}
    {policy : ContentPolicy} {collaborators : Collaborators} {around : Surroundings}
    {routing : RoutingRegistry} {catalog : CreationCatalog} (organizationID : string)
    (outboxMaxAttempts : Z) (single : bool) (command : CreateInvocationCommand) (s s' : Sys)
    (r : CreateInvocationResult) :
  (forall s, digest_ok (env_sha256_hex s) = true) -> decodes ->
  (forall id snapshot, GetContextSnapshot id = Ok snapshot -> int64 (snap_ID snapshot)) ->
  (forall id text, RenderContextSnapshot id = Ok text -> utf8 (to_bytes text)) ->
  InvocationCreate organizationID outboxMaxAttempts single command s = (Ok r, s') ->
  created_Reused r = false ->
  dispatchable (sys_dispatch s') (created_Invocation r)
  /\ ClockNow (sys_clock s) < inv_Deadline (inv_Columns (created_Invocation r))
     <= ClockNow (sys_clock s) + maxDeadlineHorizon.
Proof.
  intros Hsha Hdec Hint Hutf H Hfresh. unfold InvocationCreate in H.
  apply bind_ok in H as (t & s1 & Ht & H). injection Ht as <- <-.
  apply bind_ok in H as ([c mode] & s2 & [Hprep ->]%or_fail_ok & H).
  apply prepared_command in Hprep as [Hschema Hdead].
  apply bind_ok in H as ([[[org a] p] subject] & s3 & _ & H).
  apply bind_ok in H as ([snapshot input] & s4 & Hinput & H).
  apply input_prepared in Hinput as (rendered & Hsn & Hr & Hp & Hsec & Hcred).
  apply bind_ok in H as (route & s5 & Hroute & H).
  apply route_resolved in Hroute as (req & Hreq & Hreq1 & Hreq2).
  apply bind_ok in H as ([egress identity] & s6 & Hpol & H). apply policies_resolved in Hpol.
  apply stored_ok in H as (_ & Hm & _).
  apply created_row in Hm as (Hcol & Hst & Hrow & Hin & Hcheck); [|done].
  destruct (prepared_input _ _ _ _ Hsha (Hint _ _ Hsn) (fun _ => Hutf _ _ Hr) Hp)
    as (Hv1 & Hv2 & He & Hd & Hs).
  cbn [prep_Columns prep_ModelInput] in Hcol, Hin, Hcheck. split; [split|]; rewrite ?Hcol; cbn; try done.
  - unfold invocation_digest. rewrite Hcol. cbn. unfold ActionDigest.
    unfold columns_check in Hcheck. cbn in Hcheck. rewrite !andb_true_iff in Hcheck.
    destruct (is_empty (idpol_CanonicalHash identity)) eqn:Hi; [|by eexists].
    destruct_and? Hcheck; done.
  - exists snapshot, rendered, input. split_and!; try done; [by apply prepared_input_read|].
    destruct (HasCredentials (modelVisibleText _)); [|done]. by destruct (Hsec (Hs eq_refl)).
  - by exists req, route.
Qed.

(** ** A call from creation to answer *)

Definition creation_start : Sys :=
  mkSys (foldl (@dispatch_exec demo demo_registry service_host) dispatch0
           [CallCreateAssignment (demo_assignment_call "a1" 1)]) service_money 0 0 false [].

Definition creation_binding : ResolvedBinding :=
  mkResolvedBinding "fast" 3 "gemini" "pro" TransportHTTP.

Definition creation_routing : RoutingRegistry := {|
  GetRoutingPolicy _ _ _ := Ok None;
  ListRoutingCandidates _ _ _ := Ok [];
  GetBinding _ _ _ := Ok creation_binding;
  GetCandidateRoute _ _ _ := Err ErrBindingNotFound |}.

Definition creation_catalog : CreationCatalog := {|
  GetRole _ role := Ok (mkActorRole "fast" true true
    (if bool_decide (role = "eng/lead") then "execution_service" else "worker"));
  ResolveRoute req :=
    let? route := @Resolve creation_routing (fun _ _ _ => Ok no_state) LookupSelector 0 req in
    Ok (route, ["text"]);
  ActiveIdentityPolicy _ := Ok demo_identity_policy |}.

Definition creation_command (caps : list string) (mode schema : string) : CreateInvocationCommand :=
  mkCreateInvocationCommand "" 1 2 " eng/dev" 11 None " answer " caps mode schema 256 (Some "0.7")
    "disabled" "i1" "" "" demo_horizon.

Definition creation_run (command : CreateInvocationCommand)
    : result Failure CreateInvocationResult * Sys :=
  @InvocationCreate demo service_host wary (service_team None) (alone None) creation_routing
    creation_catalog "acme" 10 false command creation_start.

(** A JSON answer of a schema, by a model that is capable of text. *)
Definition json_command : CreateInvocationCommand :=
  creation_command [" text "; "text"] "json" demo_schema.

Lemma service_decodes : @decodes demo service_host.
Proof. intros text. reflexivity. Qed.

Lemma created_calls_can_be_dispatched_witness : exists r s',
  creation_run json_command = (Ok r, s') /\ created_Reused r = false
  /\ @dispatchable demo service_host wary (service_team None) creation_routing (sys_dispatch s')
       (created_Invocation r).
Proof.
  destruct (creation_run json_command) as [[r|f] s'] eqn:H.
  - assert (Hr : match fst (creation_run json_command) with Ok r => created_Reused r | Err _ => true end
                 = false) by (vm_compute; reflexivity).
    rewrite H in Hr. cbn [fst] in Hr. exists r, s'. split; [reflexivity|]. split; [exact Hr|].
    unfold creation_run in H.
    refine (proj1 (@created_calls_can_be_dispatched demo demo_registry service_host wary (service_team None)
      (alone None) creation_routing creation_catalog "acme" 10 false json_command creation_start s' r
      demo_digest_hex service_decodes _ _ H Hr)).
    + intros id snapshot Hs. injection Hs as <-. split; vm_compute; congruence.
    + intros id text Ht. injection Ht as <-.
      apply (valid_utf8_spec (String.length "the context")). vm_compute. reflexivity.
  - exfalso. assert (Hr : match fst (creation_run json_command) with Ok _ => true | Err _ => false end = true)
      by (vm_compute; reflexivity).
    rewrite H in Hr. discriminate Hr.
Defined.

(** From the command to the answer: what was created is dispatched and succeeds. *)
Lemma created_call_succeeds : exists r s' x s2,
  creation_run (creation_command [] "text" "") = (Ok r, s')
  /\ @Dispatch demo demo_registry service_host wary (service_team None) (alone None) "acme"
       service_config (inv_ID (created_Invocation r)) s' = (Ok x, s2)
  /\ inv_Status (dres_Invocation x) = InvocationSucceeded
  /\ result_TextOutput (dres_Result x) = raw_Content service_answer.
Proof.
  assert (H : match creation_run (creation_command [] "text" "") with
    | (Ok r, s') => match @Dispatch demo demo_registry service_host wary (service_team None) (alone None)
        "acme" service_config (inv_ID (created_Invocation r)) s' with
      | (Ok x, _) => bool_decide (inv_Status (dres_Invocation x) = InvocationSucceeded)
                     && bool_decide (result_TextOutput (dres_Result x) = raw_Content service_answer)
      | _ => false end
    | _ => false end = true) by (vm_compute; reflexivity).
  destruct (creation_run _) as [[r|] s']; [|discriminate H].
  destruct (Dispatch _ _ _ s') as [[x|] s2] eqn:Hd; [|discriminate H].
  apply andb_true_iff in H as [H1%bool_decide_eq_true H2%bool_decide_eq_true].
  by exists r, s', x, s2.
Qed.
